(* ===== verification/_CoqProject ===== *)
-Q . S2P
Prelude.v
Ring.v
Waiting.v
StringRs.v
Pmm.v
Sync.v
Vmm.v
Heap.v
Thread.v
Keyboard.v
Vga.v
Block.v
Fat16.v
Fat16Disk.v
Fat16Chain.v
Fat16Files.v
Lex.v
LexText.v
Emit.v
EmitDecode.v
Sym.v
NetWire.v
Tcp.v
TcpSpec.v
TcpProps.v
Arp.v
Ipv4.v
Udp.v
Dns.v
Net.v
BumpHeap.v
VfsNode.v
Ramfs.v
Initrd.v
Devfs.v
Fat16Vfs.v
Vfs.v
VfsStore.v
RamFiles.v
VfsTree.v
VfsMake.v
VfsFile.v
InitrdProps.v
VfsSpec.v
VfsProps.v
Elf.v
ParseState.v
ParseExpr.v
ParseStmt.v
ParseProg.v
ParseWp.v
ParseTotal.v
X86.v
ExprSpec.v
ExprCode.v
ExprParse.v
ExprCorrect.v
UserHeap.v
PortIO.v
Ata.v
Term.v
Editor.v
EditorFile.v
Uspace.v
Syscall.v
SyscallDirs.v
Pic.v
Serial.v
Idt.v
Pit.v
Gdt.v
Pci.v
Rtl8139.v
NetCard.v
Recovery.v
Driver.v
Shell.v
ShellFiles.v
ShellProps.v
