(* ===== verification/Prelude.v ===== *)
(** * sysrust: a verification development of the kernel and its compiler

    sysrust is a small operating system in Rust: a kernel (memory, threads,
    interrupts, drivers, FAT16 volume, network, virtual file system, system calls),
    inside it a shell, an editor and a compiler [rc] for a subset of Rust that writes
    x86 code, and a runtime for user programs with an allocator of its own.  Each file
    here models one part of it, function by function, with the theorems that make the
    part correct.

    ** Reading the models

    - A machine integer is a [Z] kept in range by the casts of this file ([u8],
      [u16], [u32], [u64], [i32], [i64]): release builds wrap, and so do the models.
    - A fault (index out of range, access to memory that holds no such object,
      division by zero) is [None] of the option monad; so is running out of fuel.  Error
      returns of the code (-1, 0, null, [Option]) are values.
    - A static is a field of the component's state record, an operation a function
      on the state.
    - Lower layers are type classes, and a client is proved against the laws of the
      class; the component below discharges them: [PageAllocator] ([Pmm]),
      [KernelHeap] ([Heap]), [Brk] ([Uspace]), [BlockDevice] ([Ata], and a RAM disk),
      [IpLayer] and [IpPath] ([Ipv4]), [Names], [Streams] and [Pings] ([Dns], [Tcp] and
      [Net]), [Host] ([NetCard]), [Nic] ([Rtl8139]).
    - Hardware is a class as well, with the device's documented behaviour as laws and a
      device in memory as an instance: [PortIO] with [AtaDrive], [Pics], [Uart],
      [ConfigSpace], [RtlCard] and [RxMemory]; the console with [Console], [Colors],
      [Screen], [ShellScreen], [Typist] and [Transcript]; [AddressSpace], [Clock], [Timer]
      and [FatDisk].
    - C strings are the bytes before the NUL ([cstr]); a null pointer argument is
      [None] where the code tests for it.
    - Interrupts: locks and the keyboard ring are step relations in which the other
      party moves between any two steps; calls that wait for the network take what
      happens while they wait as an argument (a list of wake-ups, [Waiting]).

    ** Files

    - [Prelude]: casts, bytes and little-endian fields, buffers ([slice], [splice]),
      bits, sums.  [Ring]: circular buffers (keyboard, TCP).  [Waiting]: loops that
      halt until the clock or a condition ends them.
    - [StringRs]: [string.rs] on a flat memory, and the list meaning of its functions.
    - [Pmm] ([pmm.rs], [multiboot.rs]): bitmap of pages.  [Vmm] ([vmm.rs]): page tables.
      [Heap] ([heap.rs]): the block list of [kmalloc] and [kfree]; the interface
      [KernelHeap].  [BumpHeap]: a second instance, for examples.
    - [Sync] ([sync.rs]): spinlocks and mutexes.  [Thread] ([thread.rs]): the scheduler.
    - [Keyboard] ([keyboard.rs]), [Vga] ([vga.rs]).
    - [Block] (the interface of a disk), [Fat16] ([fat16.rs]) with [Fat16Disk],
      [Fat16Chain] and [Fat16Files].
    - [VfsNode], [Ramfs], [Initrd], [Devfs], [Fat16Vfs], [Vfs] ([vfs.rs], [ramfs.rs],
      [initrd.rs], [devfs.rs], [fat16_vfs.rs], and [tools/mkinitrd.rs]) with
      [VfsStore], [RamFiles], [InitrdProps], [VfsTree], [VfsMake], [VfsFile],
      [VfsSpec] and [VfsProps].
    - [NetWire], [Arp], [Ipv4], [Udp] (with ICMP), [Tcp], [Dns], [Net] ([net.rs], [arp.rs],
      [ipv4.rs], [udp.rs], [icmp.rs], [tcp.rs], [dns.rs]) with [TcpSpec] and [TcpProps].
    - [Lex], [Emit], [Sym] ([rc/lex.rs], [rc/emit.rs], [rc/sym.rs]) with [LexText] and
      [EmitDecode].
    - [ParseState], [ParseExpr], [ParseStmt], [ParseProg] ([rc/parse.rs]) with [ParseWp]
      and [ParseTotal]: the parser and code generator over [Lex], [Emit] and [Sym].
    - [X86] (registers, flags, memory and one step of the processor), [ExprSpec]
      (expressions and their values), [ExprCode] and [ExprParse]: the meaning of the code
      the expression parser emits; [ExprCorrect] puts them together.
    - [Driver] ([rc/mod.rs]): from source file to program file, over [ParseProg] and [Vfs].
    - [Elf] ([elf.rs]): the ELF32 and ELF64 loader over the interface [AddressSpace].
      [Recovery] ([recovery.rs]): a program in a thread of its own.
    - [PortIO] ([io.rs]); [Ata] ([ata.rs]), [Pic] ([pic.rs]), [Serial] ([serial.rs]), [Pci]
      ([pci.rs]), [Rtl8139] ([rtl8139.rs]): the drivers; [NetCard]: the card with the stack.
    - [Idt] ([idt.rs]), [Gdt] ([gdt.rs]), [Pit] ([timer.rs]): descriptor tables, interrupt
      dispatch, the clock and its time slices.
    - [Uspace], [Syscall], [SyscallDirs] ([syscall.rs]): the memory of user programs, the
      two dispatchers with every call, listing directories through them.  [UserHeap]
      ([sysrust-rt/src/allocator.rs]): the allocator of user programs, over [Brk].
    - [Term] (lines and numbers from the terminal); [Editor] and [EditorFile]
      ([editor.rs]); [Shell], [ShellFiles] and [ShellProps] ([shell.rs]).

    ** What the theorems show

    - Memory: the page handed out is the lowest free one; at boot the free pages are those
      of available entries outside the kernel (of exactly the available memory when the
      entries start on page boundaries and are shorter than 4 GB); mapping a page changes
      one translation where 4 KB tables serve the address; heap areas are disjoint, and
      freeing restores what was taken.  A page-table entry that growing the heap would
      write onto the heap itself, which the 2 MB pages of the boot loader make possible,
      has no outcome in [Heap]; behind 4 KB tables outside the heap it cannot happen.
    - Concurrency: mutual exclusion of the mutex on runs in which no thread locks a
      mutex it already owns (the exclusion is false with such a lock, which is an
      example of [Sync]); fairness of [yield_]; what [exit] does to the table and the
      stacks; no lost or invented keystroke, and no index out of range in the ring.
    - FAT16: what is written is what is read, other files stay.  The table may have
      entries for clusters that the volume does not have, as on the disks of [mkfs.fat];
      [init] establishes the invariant on volumes with a table of at most 255 sectors.
    - Files: any sequence of operations on descriptors of RAM and initrd files behaves as
      files that are byte sequences ([VfsSpec]); made paths are found; unlinking a new
      file gives everything back; the image of the build tool is what the kernel mounts.
      A FAT16 volume may be mounted; the paths that the theorems are about stay off it.
    - Network: the handshake ends within its time-outs, the waits for the next hop's
      address included, and accepts only matching answers; the receive buffer is a
      queue; a ping is answered; no datagram makes the DNS parser read outside it.
    - Compiler: the lexer ends and reads back any token text; emitted bytes decode to
      the instructions asked for, patched jumps land where they should, the buffer is
      never overrun; the symbol table is a stack of scopes.
    - Parser: compiling any text ends with 0 or -1, without a fault and inside the
      tables and the code buffer, and with 0 only if nothing was reported.
    - Code generation: the machine code of an expression, executed, leaves the value of
      the expression in EAX or stops with the divide error that the value calls for
      ([ExprCorrect]).  The part of the language is integers: literals, variables and
      constants that are neither pointers nor structs, and all operators; pointers,
      calls, members and statements are parsed and shown to end, not executed.
    - Driver: the output file holds the code that the compiler made, or the answer is -1
      and no file changes; the output is a RAM file or a new name in a directory with
      room.
    - Loader: a valid executable is refused exactly when a segment leaves the file or
      none is loadable; otherwise its segments are placed and zero-extended and nothing
      else changes.
    - User programs: the break moves over pages that were mapped for it, and the kernel's
      side is the [Brk] that the user-space allocator assumes; the allocator's areas are
      disjoint and aligned, and freed neighbours merge; a directory read through
      [getdents64] lists each entry once.
    - Devices: the disk driver over PIO is a [BlockDevice] on the low 28 bits of a sector
      number; the card's interrupt handler delivers what arrived, in order, and sets the
      ring's pointers; an interrupt reaches its handler and is acknowledged on the
      right chips.
    - Editor and shell: an editing session is a walk through documents, saving and
      loading restores the text; a session of file commands is a walk through a map
      from names to bytes, with its transcript on the screen.

    ** Fuel

    A loop whose end is not structural takes fuel; each component says how much is
    enough ([heap_fuel], [lex_fuel], [grow_fuel], [text_fuel] for the parser, the length
    of a path, the number of clusters, the keys typed; 780 wake-ups for a connection, of
    which 180 are for addresses, 60 for an address), and its theorems prove that the
    result is reached.

    ** Not modelled

    - [boot/] and [main.rs]: assembly and the order of initialisation; the interrupt
      stubs are addresses in [Idt], the stack switch is part of [Thread].
    - [sysrust-rt/src/sys.rs] and [lib.rs]: one inline assembly instruction per call.
    - The instructions of [io.rs]: what a port answers is the device's, the class
      [PortIO].
    - [programs/], [test_elf/]: example programs; [build.rs], [Makefile], [linker.ld], target
      files: the build; [docs/]: documents.
    - The TLB, caches and the depth of the kernel's own stack.
*)
From Stdlib Require Export ZArith Lia Bool.
From stdpp Require Export base numbers option list relations gmap.
#[global] Open Scope Z_scope.

(** * Tactics *)

(** Turn boolean comparisons in the context and the goal into propositions. *)
Ltac breflect :=
  repeat match goal with
  | H : (_ && _) = true |- _ => apply andb_prop in H; destruct H
  | H : (_ || _) = false |- _ => apply orb_false_elim in H; destruct H
  | H : negb _ = true |- _ => apply negb_true_iff in H
  | H : negb _ = false |- _ => apply negb_false_iff in H
  | H : (_ <? _) = true |- _ => apply Z.ltb_lt in H
  | H : (_ <? _) = false |- _ => apply Z.ltb_ge in H
  | H : (_ <=? _) = true |- _ => apply Z.leb_le in H
  | H : (_ <=? _) = false |- _ => apply Z.leb_gt in H
  | H : (_ =? _) = true |- _ => apply Z.eqb_eq in H
  | H : (_ =? _) = false |- _ => apply Z.eqb_neq in H
  end.

(** Case analysis on the first boolean test of an [if] in the goal. *)
Ltac case_if :=
  match goal with
  | |- context [if ?b then _ else _] =>
      match type of b with
      | bool => let E := fresh "E" in destruct b eqn:E
      end
  end.

Ltac case_if_in H :=
  match type of H with
  | context [if ?b then _ else _] =>
      match type of b with
      | bool => let E := fresh "E" in destruct b eqn:E
      end
  end.

(** [lia] with Euclidean division by constants. *)
Ltac mod_lia := Z.to_euclidean_division_equations; lia.

(** * Machine integers

    A value of a w-bit unsigned type is a [Z] in [0, 2^w); the functions below
    are the [as u8], [as u16], ... casts and, applied to the mathematical
    result, the wrapping arithmetic of the release profile (overflow checks
    are off there). *)

Definition u8 (z : Z) : Z := z mod 256.
Definition u16 (z : Z) : Z := z mod 65536.
Definition u32 (z : Z) : Z := z mod 4294967296.
Definition u64 (z : Z) : Z := z mod 18446744073709551616.
Definition i32 (z : Z) : Z := (z + 2147483648) mod 4294967296 - 2147483648.
Definition i64 (z : Z) : Z :=
  (z + 9223372036854775808) mod 18446744073709551616 - 9223372036854775808.

Lemma u8_range z : 0 <= u8 z < 256.
Proof. unfold u8; mod_lia. Qed.
Lemma u16_range z : 0 <= u16 z < 65536.
Proof. unfold u16; mod_lia. Qed.
Lemma u32_range z : 0 <= u32 z < 4294967296.
Proof. unfold u32; mod_lia. Qed.
Lemma u64_range z : 0 <= u64 z < 18446744073709551616.
Proof. unfold u64; mod_lia. Qed.

Lemma u8_small z : 0 <= z < 256 -> u8 z = z.
Proof. intros; apply Z.mod_small; lia. Qed.
Lemma u16_small z : 0 <= z < 65536 -> u16 z = z.
Proof. intros; apply Z.mod_small; lia. Qed.
Lemma u32_small z : 0 <= z < 4294967296 -> u32 z = z.
Proof. intros; apply Z.mod_small; lia. Qed.
Lemma u64_small z : 0 <= z < 18446744073709551616 -> u64 z = z.
Proof. intros; apply Z.mod_small; lia. Qed.
Lemma i32_small z : -2147483648 <= z < 2147483648 -> i32 z = z.
Proof. intros; unfold i32; rewrite Z.mod_small; lia. Qed.
Lemma i64_small z :
  -9223372036854775808 <= z < 9223372036854775808 -> i64 z = z.
Proof. intros; unfold i64; rewrite Z.mod_small; lia. Qed.

Lemma u32_u32 z : u32 (u32 z) = u32 z.
Proof. apply u32_small, u32_range. Qed.

Create HintDb width.
Create Rewrite HintDb width.
#[export] Hint Resolve u8_range u16_range u32_range u64_range : width.
#[export] Hint Rewrite u8_small u16_small u32_small u64_small i32_small
  i64_small using lia : width.

(** Normalise width casts whose argument is provably in range. *)
Ltac widths := autorewrite with width in *.

(** * Bytes *)

Definition is_byte (b : Z) : Prop := 0 <= b < 256.
Definition byte_list (l : list Z) : Prop := Forall is_byte l.

#[export] Instance is_byte_dec b : Decision (is_byte b).
Proof. unfold is_byte; apply _. Defined.
#[export] Instance byte_list_dec l : Decision (byte_list l).
Proof. unfold byte_list; apply _. Defined.

(** Little-endian layout of a [n]-byte field, as [x86] stores it. *)
Fixpoint le_bytes (n : nat) (z : Z) : list Z :=
  match n with
  | O => []
  | S n => z mod 256 :: le_bytes n (z / 256)
  end.

Fixpoint le_val (l : list Z) : Z :=
  match l with
  | [] => 0
  | b :: l => b + 256 * le_val l
  end.

Lemma length_le_bytes n z : length (le_bytes n z) = n.
Proof. revert z; induction n; intros; simpl; [done | by rewrite IHn]. Qed.

Lemma le_bytes_byte_list n z : byte_list (le_bytes n z).
Proof.
  revert z; induction n; intros; simpl; constructor; [| apply IHn].
  unfold is_byte; mod_lia.
Qed.

Lemma le_val_le_bytes n z : le_val (le_bytes n z) = z mod 256 ^ Z.of_nat n.
Proof.
  revert z; induction n; intros z; [by rewrite Z.mod_1_r |].
  simpl le_bytes; simpl le_val; rewrite IHn.
  rewrite Nat2Z.inj_succ, Z.pow_succ_r by lia.
  rewrite Z.rem_mul_r by (lia || (apply Z.pow_pos_nonneg; lia)). lia.
Qed.

Lemma le_val_range l : byte_list l -> 0 <= le_val l < 256 ^ Z.of_nat (length l).
Proof.
  induction 1 as [| b l Hb Hl IH]; [simpl; lia |].
  simpl le_val; simpl length. rewrite Nat2Z.inj_succ, Z.pow_succ_r by lia.
  unfold is_byte in Hb; lia.
Qed.

Lemma le_bytes_le_val l : byte_list l -> le_bytes (length l) (le_val l) = l.
Proof.
  induction 1 as [| b l Hb Hl IH]; [done |].
  unfold is_byte in Hb. simpl.
  replace ((b + 256 * le_val l) mod 256) with b by mod_lia.
  replace ((b + 256 * le_val l) / 256) with (le_val l) by mod_lia.
  by rewrite IH.
Qed.

Lemma le_val_app l1 l2 :
  le_val (l1 ++ l2) = le_val l1 + 256 ^ Z.of_nat (length l1) * le_val l2.
Proof.
  induction l1 as [| b l1 IH]; [simpl; lia |].
  simpl. rewrite IH. change (Z.of_nat (S (length l1))) with (Z.of_nat (1 + length l1)).
  rewrite Nat2Z.inj_add, Z.pow_add_r by lia. lia.
Qed.

Lemma le_val_2 z : 0 <= z < 65536 -> le_val (le_bytes 2 z) = z.
Proof. intros; rewrite le_val_le_bytes, Z.mod_small; [done | simpl; lia]. Qed.
Lemma le_val_4 z : 0 <= z < 4294967296 -> le_val (le_bytes 4 z) = z.
Proof. intros; rewrite le_val_le_bytes, Z.mod_small; [done | simpl; lia]. Qed.

(** Big-endian (network order) fields. *)
Definition be_bytes (n : nat) (z : Z) : list Z := rev (le_bytes n z).
Definition be_val (l : list Z) : Z := le_val (rev l).

Lemma be_val_be_bytes n z : be_val (be_bytes n z) = z mod 256 ^ Z.of_nat n.
Proof. unfold be_val, be_bytes; rewrite rev_involutive; apply le_val_le_bytes. Qed.
Lemma length_be_bytes n z : length (be_bytes n z) = n.
Proof. unfold be_bytes; rewrite length_rev; apply length_le_bytes. Qed.

(** * Buffers: byte ranges inside a fixed-size list *)

(** [n] bytes of [l] from offset [off]. *)
Definition slice {A} (off n : nat) (l : list A) : list A := take n (drop off l).

(** Overwrite the bytes of [l] at [off] with [new] (a [memcpy] into the
    buffer); like stdpp's [insert] it keeps the length of [l]. *)
Definition splice {A} (off : nat) (new l : list A) : list A :=
  take off l ++ take (length l - off) new ++ drop (off + length new) l.

Section buffers.
Context {A : Type}.
Implicit Types l new : list A.

Lemma length_slice off n l :
  (off + n <= length l)%nat -> length (slice off n l) = n.
Proof. intros; unfold slice; rewrite length_take, length_drop; lia. Qed.

Lemma length_splice off new l :
  (off + length new <= length l)%nat -> length (splice off new l) = length l.
Proof.
  intros; unfold splice. rewrite !length_app, !length_take, length_drop. lia.
Qed.

Lemma lookup_slice off n l i :
  slice off n l !! i = if decide (i < n)%nat then l !! (off + i)%nat else None.
Proof.
  unfold slice; case_decide.
  - by rewrite lookup_take_lt, lookup_drop by lia.
  - by rewrite lookup_take_ge by lia.
Qed.

Lemma lookup_splice off new l i :
  (off + length new <= length l)%nat ->
  splice off new l !! i =
    if decide (off <= i < off + length new)%nat then new !! (i - off)%nat else l !! i.
Proof.
  intros Hl; unfold splice.
  rewrite (take_ge new) by lia.
  destruct (decide (i < off)%nat).
  - rewrite lookup_app_l by (rewrite length_take; lia).
    rewrite lookup_take_lt by lia. by rewrite decide_False by lia.
  - rewrite lookup_app_r by (rewrite length_take; lia).
    rewrite length_take, Nat.min_l by lia.
    destruct (decide (i < off + length new)%nat).
    + rewrite lookup_app_l by lia. by rewrite decide_True by lia.
    + rewrite lookup_app_r by lia. rewrite lookup_drop, decide_False by lia.
      f_equal; lia.
Qed.

Lemma slice_splice_same off new l :
  (off + length new <= length l)%nat -> slice off (length new) (splice off new l) = new.
Proof.
  intros Hl; apply list_eq; intros i.
  rewrite lookup_slice; case_decide.
  - rewrite lookup_splice, decide_True by lia. f_equal; lia.
  - symmetry; apply lookup_ge_None_2; lia.
Qed.

Lemma slice_splice_other off new l off' n :
  (off + length new <= length l)%nat ->
  (off' + n <= off \/ off + length new <= off')%nat ->
  slice off' n (splice off new l) = slice off' n l.
Proof.
  intros Hl Hd; apply list_eq; intros i.
  rewrite !lookup_slice; case_decide; [| done].
  by rewrite lookup_splice, decide_False by lia.
Qed.

Lemma splice_nil off l : splice off [] l = l.
Proof. unfold splice. simpl. rewrite Nat.add_0_r, take_nil. apply take_drop. Qed.

Lemma slice_app_l off n l1 l2 :
  (off + n <= length l1)%nat -> slice off n (l1 ++ l2) = slice off n l1.
Proof.
  intros; unfold slice. rewrite drop_app_le by lia.
  by rewrite take_app_le by (rewrite length_drop; lia).
Qed.

Lemma slice_app_r n l1 l2 : slice (length l1) n (l1 ++ l2) = take n l2.
Proof. unfold slice; by rewrite drop_app_length. Qed.

Lemma slice_all l : slice 0 (length l) l = l.
Proof. unfold slice; by rewrite drop_0, firstn_all. Qed.
End buffers.

Lemma take_splice {A} (l new : list A) p n : (p + length new <= n)%nat -> (n <= length l)%nat ->
  take n (splice p new l) = splice p new (take n l).
Proof.
  intros Hn Hl. apply list_eq. intros i. rewrite lookup_splice by (rewrite length_take; lia).
  destruct (decide (i < n)%nat).
  - rewrite !lookup_take_lt by done. by rewrite lookup_splice by lia.
  - rewrite lookup_take_ge, decide_False, lookup_take_ge by lia. done.
Qed.

Lemma splice_app {A} (l m r new : list A) :
  length new = length m -> splice (length l) new (l ++ m ++ r) = l ++ new ++ r.
Proof.
  intros Hn. unfold splice. rewrite take_app_length, Hn, <- length_app.
  rewrite (app_assoc l m r), drop_app_length, <- app_assoc. f_equal. f_equal.
  apply take_ge. rewrite !length_app. lia.
Qed.

Lemma splice_byte_list off new l :
  byte_list new -> byte_list l -> byte_list (splice off new l).
Proof.
  intros; unfold splice, byte_list in *.
  repeat apply Forall_app_2; auto using Forall_take, Forall_drop.
Qed.
Lemma slice_byte_list off n l : byte_list l -> byte_list (slice off n l).
Proof. intros; unfold slice, byte_list in *; auto using Forall_take, Forall_drop. Qed.

Lemma nth_byte l n : byte_list l -> is_byte (nth n l 0).
Proof.
  intros Hl; revert n; induction Hl; intros [| n]; simpl; try done; unfold is_byte; lia.
Qed.

#[export] Hint Resolve splice_byte_list slice_byte_list le_bytes_byte_list : width.

(** * Indexing by machine integers

    [zget] and [zset] are checked indexing ([None] is the bounds-check panic). *)
Definition zget {A} (l : list A) (i : Z) : option A :=
  if i <? 0 then None else l !! Z.to_nat i.

Definition zset {A} (l : list A) (i : Z) (x : A) : option (list A) :=
  if (0 <=? i) && (i <? Z.of_nat (length l))
  then Some (<[Z.to_nat i := x]> l) else None.

Lemma zget_Some {A} (l : list A) i :
  0 <= i < Z.of_nat (length l) -> is_Some (zget l i).
Proof.
  intros. unfold zget. destruct (Z.ltb_spec i 0); [lia |].
  apply lookup_lt_is_Some_2; lia.
Qed.

Lemma zset_Some {A} (l : list A) i x :
  0 <= i < Z.of_nat (length l) -> zset l i x = Some (<[Z.to_nat i := x]> l).
Proof.
  intros; unfold zset.
  destruct (Z.leb_spec 0 i), (Z.ltb_spec i (Z.of_nat (length l))); simpl; done || lia.
Qed.

Lemma zset_inv {A} (l l' : list A) i x :
  zset l i x = Some l' ->
  0 <= i < Z.of_nat (length l) /\ l' = <[Z.to_nat i := x]> l.
Proof. unfold zset; case_if; intros; simplify_eq; breflect; auto. Qed.

Lemma zget_insert {A} (l : list A) i j x :
  0 <= i < Z.of_nat (length l) ->
  zget (<[Z.to_nat i := x]> l) j = if j =? i then Some x else zget l j.
Proof.
  intros Hi. unfold zget. destruct (Z.eqb_spec j i) as [-> | Hne].
  - rewrite (proj2 (Z.ltb_ge _ _)) by lia. apply list_lookup_insert_eq. lia.
  - destruct (Z.ltb_spec j 0); [done |]. apply list_lookup_insert_ne. lia.
Qed.

(** * C strings

    A [*const u8] to a NUL-terminated string is modelled by the bytes before
    the terminator; a fixed array of name bytes is read as a string by
    [cstr]. *)
Fixpoint cstr (l : list Z) : list Z :=
  match l with
  | [] => []
  | b :: l => if b =? 0 then [] else b :: cstr l
  end.

Definition no_nul (l : list Z) : Prop := Forall (fun b => b <> 0) l.

Lemma cstr_no_nul l : no_nul (cstr l).
Proof.
  unfold no_nul; induction l as [| b l IH]; simpl; [constructor |].
  case_if; breflect; constructor; auto.
Qed.

Lemma cstr_app_nul l rest : no_nul l -> cstr (l ++ 0 :: rest) = l.
Proof.
  induction 1 as [| b l Hb Hl IH]; simpl; [done |].
  case_if; breflect; congruence.
Qed.

Lemma cstr_id l : no_nul l -> cstr l = l.
Proof.
  induction 1 as [| b l Hb Hl IH]; simpl; [done |].
  case_if; breflect; congruence.
Qed.

Lemma length_cstr l : (length (cstr l) <= length l)%nat.
Proof. induction l; simpl; [lia |]. case_if; simpl; lia. Qed.

Lemma no_nul_take n l : no_nul l -> no_nul (take n l).
Proof. apply Forall_take. Qed.

#[export] Hint Resolve cstr_no_nul no_nul_take : width.

(** * Wire formats

    A codec between records and fixed-size byte images; the laws are what a
    reader of the image relies on. *)
Class Codec (T : Type) := {
  codec_ok : T -> Prop;
  codec_size : nat;
  encode : T -> list Z;
  decode : list Z -> T;
  encode_length : forall x, length (encode x) = codec_size;
  decode_encode : forall x, codec_ok x -> decode (encode x) = x
}.

(** * Bit operations on words *)

(** [!x] on a w-bit unsigned word. *)
Definition not8 (x : Z) : Z := Z.lxor x 255.
Definition not32 (x : Z) : Z := Z.lxor x 4294967295.
Definition not64 (x : Z) : Z := Z.lxor x 18446744073709551615.

Lemma bits_bound n x :
  0 <= n -> 0 <= x -> (forall i, n <= i -> Z.testbit x i = false) -> x < 2 ^ n.
Proof.
  intros Hn Hx Hb. rewrite <- (Z.mod_small x (2 ^ n)) at 1.
  - apply Z.mod_pos_bound, Z.pow_pos_nonneg; lia.
  - split; [done |]. destruct (Z.lt_ge_cases x (2 ^ n)) as [| Hge]; [done |].
    exfalso. assert (0 < x) by (pose proof (Z.pow_pos_nonneg 2 n); lia).
    assert (n <= Z.log2 x) by (apply Z.log2_le_pow2; lia).
    pose proof (Z.bit_log2 x ltac:(lia)) as H1. by rewrite Hb in H1.
Qed.

Lemma bits_high n x i : 0 <= x < 2 ^ n -> 0 <= n <= i -> Z.testbit x i = false.
Proof.
  intros Hx Hi. rewrite <- (Z.mod_small x (2 ^ n)) by done.
  apply Z.mod_pow2_bits_high; lia.
Qed.

Lemma lor_bound n x y : 0 <= n -> 0 <= x < 2 ^ n -> 0 <= y < 2 ^ n -> 0 <= Z.lor x y < 2 ^ n.
Proof.
  intros Hn Hx Hy. assert (0 <= Z.lor x y) by (apply Z.lor_nonneg; lia).
  split; [done |]. apply bits_bound; [done | done |]. intros i Hi.
  by rewrite Z.lor_spec, (bits_high n x), (bits_high n y).
Qed.

Lemma land_bound_l n x y : 0 <= n -> 0 <= x < 2 ^ n -> 0 <= Z.land x y < 2 ^ n.
Proof.
  intros Hn Hx. assert (0 <= Z.land x y) by (apply Z.land_nonneg; lia).
  split; [done |]. apply bits_bound; [done | done |]. intros i Hi.
  by rewrite Z.land_spec, (bits_high n x).
Qed.

Lemma testbit_shiftl1 b i : 0 <= b -> 0 <= i -> Z.testbit (Z.shiftl 1 b) i = (i =? b).
Proof.
  intros. rewrite Z.shiftl_spec by done. destruct (Z.eqb_spec i b) as [-> | Hne].
  - by rewrite Z.sub_diag.
  - destruct (Z.lt_ge_cases (i - b) 0); [by rewrite Z.testbit_neg_r |].
    apply (bits_high 1); lia.
Qed.

Lemma testbit_set w b i :
  0 <= b -> 0 <= i -> Z.testbit (Z.lor w (Z.shiftl 1 b)) i = Z.testbit w i || (i =? b).
Proof. intros. by rewrite Z.lor_spec, testbit_shiftl1. Qed.

Lemma testbit_ones w i : 0 <= w -> 0 <= i -> Z.testbit (2 ^ w - 1) i = (i <? w).
Proof.
  intros. replace (2 ^ w - 1) with (Z.ones w) by (rewrite Z.ones_equiv; lia).
  destruct (Z.ltb_spec i w); [apply Z.ones_spec_low | apply Z.ones_spec_high]; lia.
Qed.

Lemma testbit_clear32 w b i :
  0 <= w < 2 ^ 32 -> 0 <= b < 32 -> 0 <= i ->
  Z.testbit (Z.land w (not32 (Z.shiftl 1 b))) i = Z.testbit w i && negb (i =? b).
Proof.
  intros Hw Hb Hi. unfold not32. change 4294967295 with (2 ^ 32 - 1).
  rewrite Z.land_spec, Z.lxor_spec, testbit_shiftl1, testbit_ones by lia.
  destruct (Z.ltb_spec i 32).
  - destruct (i =? b); by rewrite ?andb_false_r, ?andb_true_r.
  - by rewrite (bits_high 32 w) by lia.
Qed.

Lemma land_bit w b : 0 <= b -> (Z.land w (Z.shiftl 1 b) =? 0) = negb (Z.testbit w b).
Proof.
  intros Hb. destruct (Z.testbit w b) eqn:E; simpl.
  - apply Z.eqb_neq. intros H. apply (f_equal (fun x => Z.testbit x b)) in H.
    rewrite Z.land_spec, testbit_shiftl1, E, Z.eqb_refl, Z.testbit_0_l in H by done. done.
  - apply Z.eqb_eq. apply Z.bits_inj'. intros i Hi.
    rewrite Z.land_spec, testbit_shiftl1, Z.testbit_0_l by done.
    destruct (Z.eqb_spec i b) as [-> |]; [by rewrite E | by rewrite andb_false_r].
Qed.

Lemma land_not64 x k :
  0 <= k <= 64 -> 0 <= x < 2 ^ 64 -> Z.land x (not64 (2 ^ k - 1)) = x / 2 ^ k * 2 ^ k.
Proof.
  intros Hk Hx. rewrite <- Z.shiftr_div_pow2, <- Z.shiftl_mul_pow2 by lia.
  apply Z.bits_inj'. intros i Hi. unfold not64. change 18446744073709551615 with (2 ^ 64 - 1).
  rewrite Z.land_spec, Z.lxor_spec, !testbit_ones, Z.shiftl_spec by lia.
  destruct (Z.ltb_spec i k).
  - rewrite (proj2 (Z.ltb_lt i 64)), andb_false_r, Z.testbit_neg_r by lia. done.
  - rewrite Z.shiftr_spec by lia. replace (i - k + k) with i by lia.
    destruct (Z.ltb_spec i 64); [by rewrite andb_true_r |]. by rewrite (bits_high 64 x).
Qed.

(** Rounding up to a power of two. *)
Lemma align_up_spec x k :
  0 <= k <= 62 -> 0 <= x < 2 ^ 63 ->
  exists y, Z.land (u64 (x + 2 ^ k - 1)) (not64 (2 ^ k - 1)) = y /\ x <= y < x + 2 ^ k /\ y mod 2 ^ k = 0.
Proof.
  intros Hk Hx. assert (Hp : 1 <= 2 ^ k <= 2 ^ 62)
    by (split; [apply (Z.pow_le_mono_r 2 0 k) | apply Z.pow_le_mono_r]; lia).
  assert (2 ^ 62 + 2 ^ 62 = 2 ^ 63) by reflexivity. assert (2 ^ 63 + 2 ^ 63 = 18446744073709551616) by reflexivity.
  rewrite u64_small, land_not64 by lia. eexists; split; [done |].
  pose proof (Z.div_mod (x + 2 ^ k - 1) (2 ^ k) ltac:(lia)).
  pose proof (Z.mod_pos_bound (x + 2 ^ k - 1) (2 ^ k) ltac:(lia)).
  split; [lia | apply Z.mod_mul; lia].
Qed.

(** * Sums over lists *)

Fixpoint zsum {A} (f : A -> Z) (l : list A) : Z :=
  match l with
  | [] => 0
  | x :: l => f x + zsum f l
  end.

Lemma zsum_app {A} (f : A -> Z) l1 l2 : zsum f (l1 ++ l2) = zsum f l1 + zsum f l2.
Proof. induction l1; simpl; lia. Qed.

Lemma zsum_insert {A} (f : A -> Z) l i x y :
  l !! i = Some x -> zsum f (<[i := y]> l) = zsum f l - f x + f y.
Proof.
  revert i; induction l as [| z l IH]; intros [| i] H; simplify_eq/=; [lia |].
  rewrite (IH i) by done. lia.
Qed.

Lemma zsum_ext {A} (f g : A -> Z) l :
  (forall x, x ∈ l -> f x = g x) -> zsum f l = zsum g l.
Proof.
  induction l as [| x l IH]; intros H; simpl; [done |].
  rewrite H, IH; [done | |]; intros; [apply H |]; set_solver.
Qed.

Lemma zsum_update {A} `{EqDecision A} (f g : A -> Z) l x :
  NoDup l -> x ∈ l -> (forall y, y ∈ l -> y <> x -> f y = g y) ->
  zsum g l = zsum f l - f x + g x.
Proof.
  induction 1 as [| y l Hy Hl IH]; intros Hx Hfg; [set_solver |]. simpl.
  destruct (decide (x = y)) as [-> | Hne].
  - rewrite (zsum_ext f g l); [lia |]. intros z Hz. apply Hfg; set_solver.
  - rewrite IH; [rewrite (Hfg y); [lia | |] | |]; try set_solver.
Qed.

Lemma zsum_bound {A} (f : A -> Z) l lo hi :
  (forall x, lo <= f x <= hi) ->
  lo * Z.of_nat (length l) <= zsum f l <= hi * Z.of_nat (length l).
Proof.
  intros H; induction l as [| x l IH]; [simpl; lia |].
  cbn [zsum length]. specialize (H x). lia.
Qed.

Lemma zsum_replicate {A} (f : A -> Z) n x : zsum f (replicate n x) = Z.of_nat n * f x.
Proof. induction n; [done |]. cbn [replicate zsum]. lia. Qed.

(** * Lists *)

Lemma list_alter_insert {A} (f : A -> A) (l : list A) i x :
  l !! i = Some x -> alter f i l = <[i := f x]> l.
Proof.
  intros Hx. rewrite list_insert_alter. apply list_alter_ext; [| done]. intros y Hy. congruence.
Qed.

(** * Pairwise relations *)

Lemma ForallOrdPairs_perm {A} (R : A -> A -> Prop) l l' :
  (forall x y, R x y -> R y x) -> Permutation l l' ->
  ForallOrdPairs R l -> ForallOrdPairs R l'.
Proof.
  intros Hsym. induction 1 as [| x l l' Hp IH | x y l | l1 l2 l3 _ IH1 _ IH2]; intros H; auto.
  - inversion H as [| ? ? Hx Hl]; subst. constructor; [by rewrite <- Hp | auto].
  - inversion H as [| ? ? Hy Hxl]; subst. inversion Hxl as [| ? ? Hx Hl]; subst.
    inversion Hy; subst. constructor; [constructor; auto | by constructor].
Qed.

(** * Sequencing of operations that may panic

    One step of an option computation whose first operation is known to
    succeed; stated as a lemma so that the operation itself is never unfolded. *)
Lemma bind_step {A B} (f : A -> option B) (o : option A) x r :
  o = Some x -> f x = r -> (o ≫= f) = r.
Proof. by intros -> <-. Qed.
