(* ===== verification/Ring.v ===== *)
(** Circular buffers: the bytes between a read and a write index of an array of
    [size] entries, as the keyboard driver and TCP keep them.  The buffer is
    empty when the indices are equal, so it holds at most [size - 1] bytes. *)
From S2P Require Import Prelude.

Section ring.
Variable size : Z.
Hypothesis size_pos : 1 < size.
Implicit Types (buf : list Z) (head tail : Z).

(** Number of bytes waiting. *)
Definition ring_count head tail : Z := (head - tail) mod size.

(** The [i]-th of them. *)
Definition ring_slot buf tail (i : Z) : Z := default 0 (zget buf ((tail + i) mod size)).

Definition ring_contents buf head tail : list Z := map (ring_slot buf tail) (seqZ 0 (ring_count head tail)).

Record ring_wf buf head tail : Prop := {
  ring_buf : Z.of_nat (length buf) = size; ring_head : 0 <= head < size; ring_tail : 0 <= tail < size }.

(** Indices never leave the array by more than one turn. *)
Lemma mod_turn x : - size <= x < 2 * size ->
  x mod size = if x <? 0 then x + size else if x <? size then x else x - size.
Proof using size_pos.
  intros Hx. destruct (Z.ltb_spec x 0); [| destruct (Z.ltb_spec x size)].
  - rewrite <- (Z.mod_add x 1) by lia. rewrite Z.mul_1_l. destruct (Z.eq_dec x (- size)) as [-> |].
    + rewrite Z.add_opp_diag_l. by apply Z.mod_0_l; lia.
    + apply Z.mod_small. lia.
  - apply Z.mod_small. lia.
  - rewrite <- (Z.mod_add x (-1)) by lia. rewrite Z.mod_small; lia.
Qed.

Ltac turn := repeat (rewrite mod_turn by lia); repeat match goal with |- context [?a <? ?b] => destruct (Z.ltb_spec a b) end.

Lemma ring_count_range head tail : 0 <= ring_count head tail <= size - 1.
Proof using size_pos. unfold ring_count. pose proof (Z.mod_pos_bound (head - tail) size). lia. Qed.

Lemma length_ring_contents buf head tail : Z.of_nat (length (ring_contents buf head tail)) = ring_count head tail.
Proof using size_pos.
  unfold ring_contents. rewrite length_map, length_seqZ. pose proof (ring_count_range head tail). lia.
Qed.

Lemma ring_empty buf head tail : ring_wf buf head tail -> head = tail <-> ring_contents buf head tail = [].
Proof using size_pos.
  intros [_ Hh Ht]. rewrite <- length_zero_iff_nil. pose proof (length_ring_contents buf head tail) as Hl.
  unfold ring_count in Hl. rewrite mod_turn in Hl by lia.
  destruct (Z.ltb_spec (head - tail) 0), (Z.ltb_spec (head - tail) size); lia.
Qed.

(** Full: the next write index is the read index. *)
Lemma ring_full head tail : 0 <= head < size -> 0 <= tail < size ->
  (head + 1) mod size = tail <-> ring_count head tail = size - 1.
Proof using size_pos. intros Hh Ht. unfold ring_count. turn; lia. Qed.

Lemma ring_contents_cons buf head tail : ring_wf buf head tail -> head <> tail ->
  exists c, zget buf tail = Some c /\ ring_wf buf head ((tail + 1) mod size) /\
    ring_contents buf head tail = c :: ring_contents buf head ((tail + 1) mod size).
Proof using size_pos.
  intros [Hb Hh Ht] Hne. destruct (zget_Some buf tail) as [c Hc]; [lia |].
  exists c. split; [done |]. split; [split; [done | done | turn; lia] |].
  assert (Hw : ring_count head tail = Z.succ (ring_count head ((tail + 1) mod size))).
  { unfold ring_count. rewrite (mod_turn (tail + 1)) by lia. destruct (Z.ltb_spec (tail + 1) 0), (Z.ltb_spec (tail + 1) size);
      try lia; turn; lia. }
  unfold ring_contents. rewrite Hw, seqZ_cons by (pose proof (ring_count_range head ((tail + 1) mod size)); lia).
  rewrite Z.pred_succ. cbn [map]. f_equal.
  - unfold ring_slot. by rewrite Z.add_0_r, Z.mod_small, Hc by lia.
  - rewrite <- (fmap_add_seqZ 1 0). change (map ?f ?l) with (f <$> l). rewrite <- list_fmap_compose.
    apply list_fmap_ext. intros i x _. unfold compose, ring_slot.
    do 2 f_equal. rewrite Zplus_mod_idemp_l. f_equal. lia.
Qed.

Lemma ring_contents_snoc buf head tail c : ring_wf buf head tail -> (head + 1) mod size <> tail ->
  let buf' := <[Z.to_nat head := c]> buf in let head' := (head + 1) mod size in
  zset buf head c = Some buf' /\ ring_wf buf' head' tail /\
  ring_contents buf' head' tail = ring_contents buf head tail ++ [c].
Proof using size_pos.
  intros [Hb Hh Ht] Hne buf' head'. split; [apply zset_Some; lia |].
  assert (Hh' : 0 <= head' < size) by (apply Z.mod_pos_bound; lia).
  split; [split; [unfold buf'; by rewrite length_insert | done | done] |].
  assert (Hw : ring_count head' tail = ring_count head tail + 1).
  { unfold ring_count. unfold head' in *. rewrite (mod_turn (head + 1)) in * by lia.
    destruct (Z.ltb_spec (head + 1) 0), (Z.ltb_spec (head + 1) size); try lia; turn; lia. }
  pose proof (ring_count_range head tail) as Hr. unfold ring_contents. rewrite Hw, seqZ_app, map_app by lia. f_equal.
  - apply map_ext_in. intros i Hi. apply list_elem_of_In, elem_of_seqZ in Hi.
    unfold ring_slot, buf'. rewrite zget_insert by lia. rewrite (proj2 (Z.eqb_neq _ _)); [done |].
    pose proof (ring_count_range head' tail). unfold ring_count in Hi.
    rewrite mod_turn in Hi by lia. destruct (Z.ltb_spec (head - tail) 0), (Z.ltb_spec (head - tail) size); try lia; turn; lia.
  - replace (seqZ (0 + ring_count head tail) 1) with [ring_count head tail] by (cbn; f_equal; lia).
    cbn [map]. f_equal. unfold ring_slot, buf'. rewrite zget_insert by lia.
    rewrite (proj2 (Z.eqb_eq _ _)); [done |].
    unfold ring_count. rewrite Zplus_mod_idemp_r. rewrite Z.mod_small; lia.
Qed.

(** Reading [n] bytes on. *)
Lemma ring_contents_drop n : forall buf head tail, ring_wf buf head tail -> Z.of_nat n <= ring_count head tail ->
  ring_wf buf head ((tail + Z.of_nat n) mod size) /\
  ring_contents buf head ((tail + Z.of_nat n) mod size) = drop n (ring_contents buf head tail).
Proof using size_pos.
  induction n as [| n IH]; intros buf head tail Hw Hn.
  - destruct Hw. rewrite Z.add_0_r, Z.mod_small by lia. by split.
  - assert (Hne : head <> tail).
    { intros ->. unfold ring_count in Hn. rewrite Z.sub_diag, Z.mod_0_l in Hn by lia. lia. }
    destruct (ring_contents_cons buf head tail Hw Hne) as (c & _ & Hw' & Hc).
    assert (Hn' : Z.of_nat n <= ring_count head ((tail + 1) mod size)).
    { pose proof (length_ring_contents buf head tail) as Hl. rewrite Hc in Hl. cbn [length] in Hl.
      pose proof (length_ring_contents buf head ((tail + 1) mod size)). lia. }
    destruct (IH buf head _ Hw' Hn') as [Hw2 Hd]. rewrite Zplus_mod_idemp_l in Hw2, Hd.
    replace (tail + 1 + Z.of_nat n) with (tail + Z.of_nat (S n)) in Hw2, Hd by lia.
    split; [done |]. by rewrite Hd, Hc.
Qed.
End ring.
