(* ===== verification/Waiting.v ===== *)
(** Waiting with [hlt] for something an interrupt brings, as [connect] of
    [src/src/tcp.rs], [resolve] of [src/src/arp.rs] and [src/src/dns.rs] do:
    [let start = get_ticks(); while get_ticks() - start < limit { if done { .. }; hlt }].

    What happens until the processor wakes is one element of an environment;
    its type and effect are the component's, given by an instance of [Clock].  A
    wait whose environment is used up has not returned ([None]). *)
From S2P Require Import Prelude.

Class Clock (S W : Type) := {
  now : S -> Z;
  wake_from : W -> S -> option S;
  wake_ticks : W -> Z }.

Section wait.
Context {S W : Type} `{Clock S W}.
Implicit Types (s : S) (env : list W).

(** [get_ticks().wrapping_sub(start)]. *)
Definition elapsed (start : Z) s : Z := u32 (now s - start).

(** The boolean tells whether [ok] was seen before the time was up. *)
Fixpoint wait (start limit : Z) (ok : S -> bool) env s : option (bool * S * list W) :=
  if limit <=? elapsed start s then Some (false, s, env) else
  if ok s then Some (true, s, env) else
  match env with
  | [] => None
  | w :: env => s ← wake_from w s; wait start limit ok env s
  end.

(** Number of wake-ups that advance the clock. *)
Definition ticking env : Z := zsum (fun w => if 0 <? wake_ticks w then 1 else 0) env.

Lemma ticking_cons w env : ticking (w :: env) = (if 0 <? wake_ticks w then 1 else 0) + ticking env.
Proof. reflexivity. Qed.
Lemma ticking_app env1 env2 : ticking (env1 ++ env2) = ticking env1 + ticking env2.
Proof. apply zsum_app. Qed.

Lemma ticking_nonneg env : 0 <= ticking env.
Proof. induction env as [| w env IH]; [done |]. rewrite ticking_cons. case_if; lia. Qed.

Lemma elapsed_start s : elapsed (now s) s = 0.
Proof. unfold elapsed. by rewrite Z.sub_diag. Qed.

Lemma elapsed_wake start limit d s s' : 0 <= d < 2147483648 -> limit <= 2147483648 ->
  elapsed start s < limit -> now s' = u32 (now s + d) -> elapsed start s' = elapsed start s + d.
Proof.
  intros Hw Hl He Ht. unfold elapsed in *. rewrite Ht. unfold u32 in *.
  rewrite Zminus_mod_idemp_l. replace (now s + d - start) with (now s - start + d) by lia.
  rewrite <- Zplus_mod_idemp_l. apply Z.mod_small. pose proof (Z.mod_pos_bound (now s - start) 4294967296). lia.
Qed.

(** [P] holds along a wait that the environment's wake-ups keep it through. *)
Section invariant.
Variables (P : S -> Prop) (wake_ok : W -> Prop).
Hypothesis P_wake : forall w s, P s -> wake_ok w ->
  exists s', wake_from w s = Some s' /\ P s' /\ now s' = u32 (now s + wake_ticks w).
Hypothesis wake_ticks_ok : forall w, wake_ok w -> 0 <= wake_ticks w < 2147483648.

(** A wait returns within [limit] ticks. *)
Lemma wait_spec start limit ok env : limit <= 2147483648 -> forall s, P s -> Forall wake_ok env ->
  limit - elapsed start s <= ticking env ->
  exists r s' env', wait start limit ok env s = Some (r, s', env') /\ P s' /\
    (if r then ok s' = true else limit <= elapsed start s') /\
    (exists used, env = used ++ env' /\ ticking used <= Z.max 0 (limit - elapsed start s)).
Proof using P_wake wake_ticks_ok.
  intros Hlim. induction env as [| w env IH]; intros s Hs He Ht; cbn [wait].
  - destruct (Z.leb_spec limit (elapsed start s)); [| cbn in Ht; lia].
    exists false, s, []. split_and!; try done. exists []. split; [done | cbn; lia].
  - destruct (Z.leb_spec limit (elapsed start s)) as [| Hlt].
    { exists false, s, (w :: env). split_and!; try done. exists []. split; [done | cbn; lia]. }
    destruct (ok s) eqn:Eok.
    { exists true, s, (w :: env). split_and!; try done. exists []. split; [done | cbn; lia]. }
    apply Forall_cons in He as [Hw He]. destruct (P_wake w s Hs Hw) as (s1 & E1 & H1 & T1).
    pose proof (wake_ticks_ok w Hw) as Hd.
    pose proof (elapsed_wake start limit _ s s1 Hd Hlim Hlt T1) as Hel. rewrite ticking_cons in Ht.
    assert (Hd1 : (if 0 <? wake_ticks w then 1 else 0) <= Z.min 1 (wake_ticks w)) by (case_if; breflect; lia).
    destruct (IH s1 H1 He) as (r & s' & env' & E & H' & Hr & used & -> & Hu); [lia |].
    exists r, s', env'. rewrite E1. cbn [mbind option_bind]. split; [done | split; [done | split; [done |]]].
    exists (w :: used). split; [done |]. rewrite ticking_cons. lia.
Qed.
End invariant.

(** What the first wake-up brings is seen. *)
Lemma wait_first start limit ok w env s s' : elapsed start s < limit -> ok s = false ->
  wake_from w s = Some s' -> elapsed start s' < limit -> ok s' = true ->
  wait start limit ok (w :: env) s = Some (true, s', env).
Proof.
  intros He Hok Hw He' Hok'. cbn [wait]. rewrite (proj2 (Z.leb_gt _ _)), Hok, Hw by done. cbn [mbind option_bind].
  destruct env; cbn [wait]; by rewrite (proj2 (Z.leb_gt _ _)), Hok' by done.
Qed.
End wait.
