(* ===== verification/StringRs.v ===== *)
(** Freestanding string and memory routines ([src/src/string.rs]).

    The routines work on raw pointers, so their model works on a flat memory
    [mem] of bytes; loops that run until a terminator carry fuel, and the
    theorems bound the fuel by the length of the string.  The second half of
    the file gives the list-level meaning of the comparisons, which the other
    components use for the C strings they hold in fixed arrays. *)
From Stdlib Require String Ascii.
From S2P Require Import Prelude.

(** The bytes of a string literal of the source. *)
Definition str (s : String.string) : list Z :=
  map (fun c => Z.of_nat (Ascii.nat_of_ascii c)) (String.list_ascii_of_string s).

(** ** Memory *)

Definition mem := Z -> Z.
Definition upd (m : mem) (a v : Z) : mem := fun x => if x =? a then v else m x.

Lemma upd_eq m a v : upd m a v a = v.
Proof. unfold upd; by rewrite Z.eqb_refl. Qed.
Lemma upd_ne m a v x : x <> a -> upd m a v x = m x.
Proof. unfold upd; intros H; by rewrite (proj2 (Z.eqb_neq _ _) H). Qed.
Create Rewrite HintDb mem.
#[export] Hint Rewrite upd_eq : mem.
#[export] Hint Rewrite upd_ne using lia : mem.

(** Byte [s + i] of memory. *)
Section routines.
Variable m : mem.

Fixpoint strlen_loop (fuel : nat) (s len : Z) : option Z :=
  match fuel with
  | O => None
  | S fuel => if m (s + len) =? 0 then Some len else strlen_loop fuel s (len + 1)
  end.
Definition strlen (fuel : nat) (s : Z) : option Z := strlen_loop fuel s 0.

Fixpoint strcmp (fuel : nat) (a b : Z) : option Z :=
  match fuel with
  | O => None
  | S fuel =>
      if negb (m a =? 0) && (m a =? m b) then strcmp fuel (a + 1) (b + 1)
      else Some (m a - m b)
  end.

(** [for i in 0..n]: [n] iterations are left, [i] is the index. *)
Fixpoint strncmp_loop (n : nat) (a b i : Z) : Z :=
  match n with
  | O => 0
  | S n =>
      if negb (m (a + i) =? m (b + i)) then m (a + i) - m (b + i)
      else if m (a + i) =? 0 then 0
      else strncmp_loop n a b (i + 1)
  end.
Definition strncmp (a b : Z) (n : nat) : Z := strncmp_loop n a b 0.

Fixpoint memcmp_loop (n : nat) (a b i : Z) : Z :=
  match n with
  | O => 0
  | S n =>
      if negb (m (a + i) =? m (b + i)) then m (a + i) - m (b + i)
      else memcmp_loop n a b (i + 1)
  end.
Definition memcmp (a b : Z) (n : nat) : Z := memcmp_loop n a b 0.

(** [None] is running out of fuel, [Some 0] the null pointer. *)
Fixpoint strchr (fuel : nat) (p c : Z) : option Z :=
  match fuel with
  | O => None
  | S fuel =>
      if negb (m p =? 0) then
        if m p =? c then Some p else strchr fuel (p + 1) c
      else if c =? 0 then Some p else Some 0
  end.
End routines.

Fixpoint strcpy_loop (fuel : nat) (m : mem) (dest src i : Z) : option mem :=
  match fuel with
  | O => None
  | S fuel =>
      let m := upd m (dest + i) (m (src + i)) in
      if m (src + i) =? 0 then Some m else strcpy_loop fuel m dest src (i + 1)
  end.
Definition strcpy (fuel : nat) (m : mem) (dest src : Z) : option mem :=
  strcpy_loop fuel m dest src 0.

(** The padding loop [while i < n]. *)
Fixpoint zero_fill (n : nat) (m : mem) (dest i : Z) : mem :=
  match n with
  | O => m
  | S n => zero_fill n (upd m (dest + i) 0) dest (i + 1)
  end.

(** [n] is the number of bytes left, i.e. the source's [n - i]. *)
Fixpoint strncpy_loop (n : nat) (m : mem) (dest src i : Z) : mem :=
  match n with
  | O => m
  | S k =>
      if negb (m (src + i) =? 0)
      then strncpy_loop k (upd m (dest + i) (m (src + i))) dest src (i + 1)
      else zero_fill n m dest i
  end.
Definition strncpy (m : mem) (dest src : Z) (n : nat) : mem :=
  strncpy_loop n m dest src 0.

Fixpoint strcat_copy (fuel : nat) (m : mem) (d s : Z) : option mem :=
  match fuel with
  | O => None
  | S fuel =>
      let m := upd m d (m s) in
      if m s =? 0 then Some m else strcat_copy fuel m (d + 1) (s + 1)
  end.
Definition strcat (fuel : nat) (m : mem) (dest src : Z) : option mem :=
  match strlen m fuel dest with
  | None => None
  | Some len => strcat_copy fuel m (dest + len) src
  end.

Fixpoint copy_fwd (n : nat) (m : mem) (dest src i : Z) : mem :=
  match n with
  | O => m
  | S n => copy_fwd n (upd m (dest + i) (m (src + i))) dest src (i + 1)
  end.
Fixpoint copy_bwd (n : nat) (m : mem) (dest src : Z) : mem :=
  match n with
  | O => m
  | S i => copy_bwd i (upd m (dest + Z.of_nat i) (m (src + Z.of_nat i))) dest src
  end.

Definition memcpy (m : mem) (dest src : Z) (n : nat) : mem := copy_fwd n m dest src 0.

Fixpoint memset_loop (n : nat) (m : mem) (dest val i : Z) : mem :=
  match n with
  | O => m
  | S n => memset_loop n (upd m (dest + i) val) dest val (i + 1)
  end.
Definition memset (m : mem) (dest val : Z) (n : nat) : mem := memset_loop n m dest val 0.

Definition memmove (m : mem) (dest src : Z) (n : nat) : mem :=
  if dest <? src then copy_fwd n m dest src 0 else copy_bwd n m dest src.

(** ** Character classes *)

Definition isdigit (c : Z) : bool := (48 <=? c) && (c <=? 57).
Definition isalpha (c : Z) : bool :=
  ((97 <=? c) && (c <=? 122)) || ((65 <=? c) && (c <=? 90)).
Definition isalnum (c : Z) : bool := isalpha c || isdigit c.
Definition isspace (c : Z) : bool :=
  (c =? 32) || (c =? 9) || (c =? 10) || (c =? 13) || (c =? 12) || (c =? 11).

(** ** Parsing and searching *)

Fixpoint skip_space (m : mem) (fuel : nat) (s : Z) : option Z :=
  match fuel with
  | O => None
  | S fuel => if isspace (m s) then skip_space m fuel (s + 1) else Some s
  end.
Fixpoint atoi_digits (m : mem) (fuel : nat) (s result : Z) : option Z :=
  match fuel with
  | O => None
  | S fuel =>
      if isdigit (m s)
      then atoi_digits m fuel (s + 1) (i32 (i32 (result * 10) + (m s - 48)))
      else Some result
  end.
Definition atoi (m : mem) (fuel : nat) (s : Z) : option Z :=
  match skip_space m fuel s with
  | None => None
  | Some s =>
      let '(sign, s) :=
        if m s =? 45 then (-1, s + 1) else if m s =? 43 then (1, s + 1) else (1, s) in
      match atoi_digits m fuel s 0 with
      | None => None
      | Some result => Some (i32 (sign * result))
      end
  end.

Fixpoint strstr_loop (m : mem) (fuel : nat) (h needle : Z) (nlen : nat) : option bool :=
  match fuel with
  | O => None
  | S fuel =>
      if m h =? 0 then Some false
      else if strncmp m h needle nlen =? 0 then Some true
      else strstr_loop m fuel (h + 1) needle nlen
  end.
Definition strstr_raw (m : mem) (fuel : nat) (haystack needle : Z) : option bool :=
  if m needle =? 0 then Some true
  else match strlen m fuel needle with
       | None => None
       | Some nlen => strstr_loop m fuel haystack needle (Z.to_nat nlen)
       end.

(** ** Specifications *)

(** The NUL-terminated string [l] is stored at [s]. *)
Fixpoint cstring_at (m : mem) (s : Z) (l : list Z) : Prop :=
  match l with
  | [] => m s = 0
  | b :: l => b <> 0 /\ m s = b /\ cstring_at m (s + 1) l
  end.

(** [l] is stored at [s]. *)
Definition bytes_at (m : mem) (s : Z) (l : list Z) : Prop :=
  forall i b, l !! i = Some b -> m (s + Z.of_nat i) = b.

Lemma cstring_at_no_nul m s l : cstring_at m s l -> no_nul l.
Proof.
  revert s; induction l as [| b l IH]; intros s; simpl; [constructor |].
  intros (Hb & _ & Hl). constructor; [done | by apply (IH (s + 1))].
Qed.

Lemma cstring_at_nth m s l i :
  cstring_at m s l -> 0 <= i <= Z.of_nat (length l) ->
  m (s + i) = default 0 (l !! Z.to_nat i).
Proof.
  revert s i; induction l as [| b l IH]; intros s i; simpl.
  - intros H Hi. replace (s + i) with s by lia. by rewrite H.
  - intros (Hb & Hm & Hl) Hi. destruct (Z.eq_dec i 0) as [-> | Hne].
    + by rewrite Z.add_0_r.
    + replace (s + i) with (s + 1 + (i - 1)) by lia. rewrite IH by (done || lia).
      replace (Z.to_nat i) with (S (Z.to_nat (i - 1))) by lia. done.
Qed.

Lemma strlen_loop_spec m s l len fuel :
  cstring_at m (s + len) l -> (length l < fuel)%nat ->
  strlen_loop m fuel s len = Some (len + Z.of_nat (length l)).
Proof.
  revert len fuel; induction l as [| b l IH]; intros len fuel; simpl.
  - intros Hm Hf. destruct fuel; [lia |]. simpl. rewrite Hm; simpl. f_equal; lia.
  - intros (Hb & Hm & Hl) Hf. destruct fuel; [lia |]. simpl. rewrite Hm.
    rewrite (proj2 (Z.eqb_neq _ _) Hb), (IH (len + 1)).
    + f_equal; lia.
    + by replace (s + (len + 1)) with (s + len + 1) by lia.
    + lia.
Qed.

Lemma strlen_spec m s l fuel :
  cstring_at m s l -> (length l < fuel)%nat -> strlen m fuel s = Some (Z.of_nat (length l)).
Proof.
  intros; unfold strlen. rewrite (strlen_loop_spec _ _ l); [done | | done].
  by rewrite Z.add_0_r.
Qed.

(** The list-level comparison: the sign of [strcmp] is that of the first
    difference, the terminator counting as 0. *)
Fixpoint strcmp_list (a b : list Z) : Z :=
  match a, b with
  | [], [] => 0
  | [], y :: _ => 0 - y
  | x :: _, [] => x - 0
  | x :: a, y :: b => if x =? y then strcmp_list a b else x - y
  end.

Lemma strcmp_memory m a b la lb fuel :
  cstring_at m a la -> cstring_at m b lb -> (length la < fuel)%nat ->
  strcmp m fuel a b = Some (strcmp_list la lb).
Proof.
  revert a b lb fuel; induction la as [| x la IH]; intros a b lb fuel Ha Hb Hf;
    (destruct fuel; [simpl in Hf; lia |]); simpl in *.
  - rewrite Ha; simpl. destruct lb; simpl in Hb; f_equal.
    + by rewrite Hb.
    + destruct Hb as (_ & -> & _); lia.
  - destruct Ha as (Hx & Hma & Ha). rewrite Hma, (proj2 (Z.eqb_neq _ _) Hx); simpl.
    destruct lb as [| y lb]; simpl in Hb.
    + by rewrite Hb, (proj2 (Z.eqb_neq _ _) Hx).
    + destruct Hb as (Hy & Hmb & Hb). rewrite Hmb. case_if; [| done].
      apply IH; [done | done | lia].
Qed.

Lemma strcmp_list_eq a b : no_nul a -> no_nul b -> strcmp_list a b = 0 <-> a = b.
Proof.
  intros Ha; revert b; induction Ha as [| x a Hx Ha IH]; intros b Hb;
    destruct Hb as [| y b Hy Hb]; simpl; [done | split; [lia | done] | split; [lia | done] |].
  case_if; breflect.
  - subst. rewrite IH by done. split; [by intros -> | by intros [= ->]].
  - split; [lia | by intros [= ? ?]].
Qed.

Lemma strcmp_list_refl a : strcmp_list a a = 0.
Proof. induction a; simpl; [done | by rewrite Z.eqb_refl]. Qed.

Lemma strcmp_list_eqb a b :
  no_nul a -> no_nul b -> (strcmp_list a b =? 0) = bool_decide (a = b).
Proof.
  intros Ha Hb. pose proof (strcmp_list_eq a b Ha Hb) as H.
  case_bool_decide as E; [apply Z.eqb_eq | apply Z.eqb_neq]; tauto.
Qed.

(** Lexicographic order, the meaning of the sign. *)
Fixpoint lex_lt (a b : list Z) : Prop :=
  match a, b with
  | _, [] => False
  | [], _ :: _ => True
  | x :: a, y :: b => x < y \/ (x = y /\ lex_lt a b)
  end.

Lemma strcmp_list_sign a b :
  no_nul a -> byte_list a -> no_nul b -> byte_list b ->
  (strcmp_list a b < 0 <-> lex_lt a b).
Proof.
  intros Ha; revert b; induction Ha as [| x a Hx Ha IH]; intros b Hba Hb Hbb;
    destruct Hb as [| y b Hy Hb]; simpl; inversion Hba; inversion Hbb;
    subst; unfold is_byte in *; [lia | split; [done | lia] | lia |].
  case_if; breflect; [subst; rewrite IH by done |]; intuition lia.
Qed.

(** *** Block copies *)

Lemma copy_fwd_out n m dest src i x :
  (x < dest + i \/ dest + i + Z.of_nat n <= x) -> copy_fwd n m dest src i x = m x.
Proof.
  revert m i; induction n as [| n IH]; intros m i Hx; simpl; [done |].
  rewrite IH by lia. by autorewrite with mem.
Qed.

Lemma copy_fwd_in n m dest src i k :
  (dest < src \/ src + i + Z.of_nat n <= dest + i) ->
  0 <= k < Z.of_nat n -> copy_fwd n m dest src i (dest + i + k) = m (src + i + k).
Proof.
  revert m i k; induction n as [| n IH]; intros m i k Hd Hk; simpl; [lia |].
  destruct (Z.eq_dec k 0) as [-> | Hne].
  - rewrite copy_fwd_out by lia. rewrite !Z.add_0_r. by autorewrite with mem.
  - replace (dest + i + k) with (dest + (i + 1) + (k - 1)) by lia.
    rewrite IH by lia. autorewrite with mem. f_equal; lia.
Qed.

Lemma copy_bwd_out n m dest src x :
  (x < dest \/ dest + Z.of_nat n <= x) -> copy_bwd n m dest src x = m x.
Proof.
  revert m; induction n as [| n IH]; intros m Hx; simpl; [done |].
  rewrite IH by lia. by autorewrite with mem.
Qed.

Lemma copy_bwd_in n m dest src k :
  src <= dest -> 0 <= k < Z.of_nat n -> copy_bwd n m dest src (dest + k) = m (src + k).
Proof.
  revert m; induction n as [| n IH]; intros m Hd Hk; simpl; [lia |].
  destruct (Z.eq_dec k (Z.of_nat n)) as [-> | Hne].
  - rewrite copy_bwd_out by lia. by autorewrite with mem.
  - rewrite IH by lia. by autorewrite with mem.
Qed.

(** The contract of a block move: the destination range holds the old source
    bytes and everything else is unchanged. *)
Definition moved (m m' : mem) (dest src : Z) (n : nat) : Prop :=
  (forall k, 0 <= k < Z.of_nat n -> m' (dest + k) = m (src + k)) /\
  (forall x, x < dest \/ dest + Z.of_nat n <= x -> m' x = m x).

(** [memmove] moves the block whatever the overlap of the two ranges: it
    copies forward when the destination is below the source and backward
    otherwise. *)
Theorem memmove_correct m dest src n : moved m (memmove m dest src n) dest src n.
Proof.
  unfold memmove; destruct (Z.ltb_spec dest src); split; intros.
  - rewrite <- (Z.add_0_r dest) at 2. rewrite copy_fwd_in by lia. f_equal; lia.
  - apply copy_fwd_out; lia.
  - apply copy_bwd_in; lia.
  - apply copy_bwd_out; lia.
Qed.

(** [memcpy] meets the same contract when the ranges do not overlap (the
    source's condition "Regions must not overlap"). *)
Lemma memcpy_correct m dest src n :
  src + Z.of_nat n <= dest \/ dest + Z.of_nat n <= src ->
  moved m (memcpy m dest src n) dest src n.
Proof.
  intros Hd; unfold memcpy; split; intros.
  - rewrite <- (Z.add_0_r dest) at 2. rewrite copy_fwd_in by lia. f_equal; lia.
  - apply copy_fwd_out; lia.
Qed.

Lemma memset_in n m dest v i k :
  0 <= k < Z.of_nat n -> memset_loop n m dest v i (dest + i + k) = v.
Proof.
  assert (Hout : forall n m i x, x < dest + i ->
            memset_loop n m dest v i x = m x).
  { clear; induction n as [| n IH]; intros; simpl; [done |].
    rewrite IH by lia. by autorewrite with mem. }
  revert m i k; induction n as [| n IH]; intros m i k Hk; simpl; [lia |].
  destruct (Z.eq_dec k 0) as [-> | Hne].
  - rewrite Hout, Z.add_0_r by lia. by autorewrite with mem.
  - replace (dest + i + k) with (dest + (i + 1) + (k - 1)) by lia. apply IH; lia.
Qed.

Lemma memset_out n m dest v i x :
  (x < dest + i \/ dest + i + Z.of_nat n <= x) -> memset_loop n m dest v i x = m x.
Proof.
  revert m i; induction n as [| n IH]; intros m i Hx; simpl; [done |].
  rewrite IH by lia. by autorewrite with mem.
Qed.

(** *** Substring search *)

Lemma strncmp_prefix m h needle i ln lh :
  cstring_at m (needle + i) ln -> cstring_at m (h + i) lh ->
  strncmp_loop m (length ln) h needle i = 0 <-> ln `prefix_of` lh.
Proof.
  revert i lh; induction ln as [| y ln IH]; intros i lh Hn Hh; simpl.
  - split; [intros; apply prefix_nil | done].
  - destruct Hn as (Hy & Hmy & Hn). rewrite Hmy.
    destruct lh as [| x lh]; simpl in Hh.
    + rewrite Hh. rewrite (proj2 (Z.eqb_neq 0 y)) by done; simpl.
      split; [lia | intros []; discriminate].
    + destruct Hh as (Hx & Hmx & Hh). rewrite Hmx.
      case_if; breflect.
      * split; [lia | intros [k Hk]; simplify_eq/=; congruence].
      * rewrite E, (proj2 (Z.eqb_neq y 0)) by done.
        rewrite <- Z.add_assoc in Hn, Hh. rewrite (IH (i + 1) lh) by done.
        split; [apply prefix_cons | apply prefix_cons_inv_2].
Qed.

Lemma strstr_loop_spec m fuel h needle lh ln :
  cstring_at m h lh -> cstring_at m needle ln -> ln <> [] -> (length lh < fuel)%nat ->
  exists r, strstr_loop m fuel h needle (length ln) = Some r /\
    (r = true <-> exists k1 k2, lh = k1 ++ ln ++ k2).
Proof.
  intros Hh Hn Hne. revert h fuel Hh.
  induction lh as [| x lh IH]; intros h fuel Hh Hfh; (destruct fuel as [| fuel]; [lia |]); simpl.
  - simpl in Hh. rewrite Hh; simpl. exists false; split; [done |].
    split; [done | intros (k1 & k2 & E)]. destruct k1, ln; discriminate || done.
  - pose proof Hh as (Hx & Hmx & Hh'). rewrite Hmx, (proj2 (Z.eqb_neq x 0)) by done.
    pose proof (strncmp_prefix m h needle 0 ln (x :: lh)) as Hp.
    rewrite !Z.add_0_r in Hp. specialize (Hp Hn Hh). unfold strncmp.
    destruct (Z.eqb_spec (strncmp_loop m (length ln) h needle 0) 0) as [E | E].
    + exists true; split; [done |]. split; [intros _ | done].
      apply Hp in E as [k E]. by exists [], k.
    + destruct (IH (h + 1) fuel) as (r & Hr & Hiff); [done | simpl in Hfh; lia |].
      exists r; split; [done |]. rewrite Hiff. split; intros (k1 & k2 & Hk).
      * exists (x :: k1), k2. by rewrite Hk.
      * destruct k1 as [| z k1]; [exfalso; apply E, Hp; by exists k2 |].
        simplify_eq/=. by exists k1, k2.
Qed.

(** C2: [strstr_raw] answers exactly whether the needle occurs in the
    haystack, for any two strings in memory and enough fuel to reach both
    terminators. *)
Theorem strstr_raw_correct m fuel haystack needle lh ln :
  cstring_at m haystack lh -> cstring_at m needle ln ->
  (length lh < fuel)%nat -> (length ln < fuel)%nat ->
  exists r, strstr_raw m fuel haystack needle = Some r /\
    (r = true <-> exists k1 k2, lh = k1 ++ ln ++ k2).
Proof.
  intros Hh Hn Hfh Hfn. unfold strstr_raw.
  destruct (Z.eqb_spec (m needle) 0) as [E | E].
  - exists true; split; [done |]. split; [intros _ | done].
    destruct ln; [by exists [], lh | simpl in Hn; lia].
  - rewrite (strlen_spec _ _ _ _ Hn Hfn), Nat2Z.id.
    apply strstr_loop_spec; [done | done | | done].
    intros ->; simpl in Hn; lia.
Qed.

Lemma strstr_raw_correct_witness :
  let m : mem := fun a => nth (Z.to_nat a) [97; 98; 97; 98; 99; 0; 98; 99; 0] 0 in
  exists r, strstr_raw m 10 0 6 = Some r /\
    (r = true <-> exists k1 k2, [97; 98; 97; 98; 99] = k1 ++ [98; 99] ++ k2).
Proof.
  intros m. apply (strstr_raw_correct m 10 0 6 [97; 98; 97; 98; 99] [98; 99]);
    [by vm_compute | by vm_compute | simpl; lia | simpl; lia].
Defined.

(** *** Bounded copies of strings *)

(** What [strncpy dest src n] leaves in the [n] bytes at [dest]. *)
Definition strncpy_list (n : nat) (l : list Z) : list Z :=
  take n l ++ replicate (n - length l) 0.

Lemma length_strncpy_list n l : length (strncpy_list n l) = n.
Proof. unfold strncpy_list; rewrite length_app, length_take, length_replicate; lia. Qed.

Lemma cstr_strncpy_list n l : no_nul l -> cstr (strncpy_list n l ++ [0]) = take n l.
Proof.
  intros Hl. unfold strncpy_list. rewrite <- app_assoc.
  destruct (n - length l)%nat; simpl; apply cstr_app_nul; by apply no_nul_take.
Qed.

Lemma zero_fill_spec n m dest i x :
  zero_fill n m dest i x =
    if (dest + i <=? x) && (x <? dest + i + Z.of_nat n) then 0 else m x.
Proof.
  revert m i; induction n as [| n IH]; intros m i; simpl.
  - case_if; breflect; [lia | done].
  - rewrite IH. unfold upd.
    repeat match goal with |- context [?a <=? ?b] => destruct (Z.leb_spec a b) end;
    repeat match goal with |- context [?a <? ?b] => destruct (Z.ltb_spec a b) end;
    repeat match goal with |- context [?a =? ?b] => destruct (Z.eqb_spec a b) end;
    simpl; done || lia.
Qed.

Lemma strncpy_loop_spec n m dest src i l x :
  cstring_at m (src + i) l ->
  (src + i + Z.of_nat (length l) < dest + i \/ dest + i + Z.of_nat n <= src + i) ->
  strncpy_loop n m dest src i x =
    if (dest + i <=? x) && (x <? dest + i + Z.of_nat n)
    then default 0 (l !! Z.to_nat (x - (dest + i))) else m x.
Proof.
  revert m i l; induction n as [| n IH]; intros m i l Hl Hd.
  { simpl. case_if; breflect; [lia | done]. }
  cbn [strncpy_loop]. destruct l as [| b l]; simpl in Hl.
  - rewrite Hl. cbn [negb Z.eqb]. rewrite zero_fill_spec. by case_if.
  - destruct Hl as (Hb & Hm & Hl). rewrite Hm, (proj2 (Z.eqb_neq b 0)) by done.
    cbn [negb]. rewrite (IH _ _ l).
    + unfold upd. destruct (Z.eqb_spec x (dest + i)) as [-> | Hx].
      * rewrite (proj2 (Z.leb_gt _ _)) by lia. cbn [andb].
        rewrite (proj2 (Z.leb_le _ _)), (proj2 (Z.ltb_lt _ _)) by lia. cbn [andb].
        by rewrite Z.sub_diag.
      * destruct (Z.leb_spec (dest + (i + 1)) x), (Z.leb_spec (dest + i) x);
          cbn [andb]; try lia; try done.
        destruct (Z.ltb_spec x (dest + (i + 1) + Z.of_nat n)),
          (Z.ltb_spec x (dest + i + Z.of_nat (S n))); try lia; try done.
        replace (Z.to_nat (x - (dest + i))) with (S (Z.to_nat (x - (dest + (i + 1))))) by lia.
        done.
    + assert (Hcs : forall s k, cstring_at m s k ->
        (s + Z.of_nat (length k) < dest + i \/ dest + i < s) -> cstring_at (upd m (dest + i) b) s k).
      { clear. intros s k; revert s; induction k as [| c k IH]; intros s; simpl.
        - intros <- H. by rewrite upd_ne by lia.
        - intros (Hc & Hm & Hk) H. rewrite upd_ne by lia. split_and!; [done | done |].
          apply IH; [done | lia]. }
      replace (src + (i + 1)) with (src + i + 1) by lia.
      apply Hcs; [done | simpl in Hd; lia].
    + simpl in Hd. lia.
Qed.

Lemma strncpy_spec n m dest src l k :
  cstring_at m src l ->
  (src + Z.of_nat (length l) < dest \/ dest + Z.of_nat n <= src) ->
  (k < n)%nat ->
  Some (strncpy m dest src n (dest + Z.of_nat k)) = strncpy_list n l !! k.
Proof.
  intros Hl Hd Hk. unfold strncpy. rewrite (strncpy_loop_spec _ _ _ _ _ l);
    [| by rewrite Z.add_0_r | lia].
  rewrite Z.add_0_r, (proj2 (Z.leb_le _ _)), (proj2 (Z.ltb_lt _ _)) by lia. cbn [andb].
  replace (Z.to_nat (dest + Z.of_nat k - dest)) with k by lia.
  unfold strncpy_list. destruct (decide (k < length l)%nat) as [H | H].
  - rewrite lookup_app_l by (rewrite length_take; lia). rewrite lookup_take_lt by lia.
    destruct (lookup_lt_is_Some_2 l k) as [b Hb]; [lia |]. by rewrite Hb.
  - rewrite lookup_ge_None_2 by lia. rewrite lookup_app_r by (rewrite length_take; lia).
    rewrite lookup_replicate_2; [done |]. rewrite length_take; lia.
Qed.
