(* ===== verification/Pmm.v ===== *)
(** Physical page allocator ([src/src/pmm.rs]) and the Multiboot structures it
    reads ([src/src/multiboot.rs]).

    The allocator's state is the bitmap of 32768 words, one bit per 4 KB page
    of the first 4 GB, and its two counters.  Indexing the bitmap out of range
    would panic, so every operation returns an option; the theorems show that
    none of them does. *)
From S2P Require Import Prelude StringRs.

Definition MULTIBOOT_FLAG_MMAP : Z := 64.
Definition PAGE_SIZE : Z := 4096.
Definition MAX_PAGES : Z := 1048576.
(** [MAX_PAGES / 32] *)
Definition BITMAP_WORDS : nat := Z.to_nat 32768.

Record MultibootInfo := {
  mb_flags : Z; mem_lower : Z; mem_upper : Z; boot_device : Z; cmdline : Z;
  mods_count : Z; mods_addr : Z; syms : list Z; mmap_length : Z; mmap_addr : Z
}.

Record MmapEntry := {
  me_size : Z; base_low : Z; base_high : Z; length_low : Z; length_high : Z;
  entry_type : Z
}.

(** A little-endian [u32] in memory. *)
Definition read_u32 (m : mem) (a : Z) : Z :=
  le_val [m a; m (a + 1); m (a + 2); m (a + 3)].

Definition read_mmap_entry (m : mem) (a : Z) : MmapEntry := {|
  me_size := read_u32 m a; base_low := read_u32 m (a + 4);
  base_high := read_u32 m (a + 8); length_low := read_u32 m (a + 12);
  length_high := read_u32 m (a + 16); entry_type := read_u32 m (a + 20)
|}.

Record pmm := Pmm { bitmap : list Z; total_pages : Z; free_pages : Z }.

(** ** Bitmap helpers *)

Definition bitmap_set (page : Z) (bm : list Z) : option (list Z) :=
  w ← zget bm (page / 32); zset bm (page / 32) (Z.lor w (Z.shiftl 1 (page mod 32))).

Definition bitmap_clear (page : Z) (bm : list Z) : option (list Z) :=
  w ← zget bm (page / 32);
  zset bm (page / 32) (Z.land w (not32 (Z.shiftl 1 (page mod 32)))).

Definition bitmap_test (page : Z) (bm : list Z) : option bool :=
  w ← zget bm (page / 32);
  Some (negb (Z.land w (Z.shiftl 1 (page mod 32)) =? 0)).

(** [for p in page_start..page_end] of [mark_region_free]; [n] pages left. *)
Fixpoint free_loop (n : nat) (p : Z) (s : pmm) : option pmm :=
  match n with
  | O => Some s
  | S n =>
      t ← bitmap_test p (bitmap s);
      if (t : bool) then
        bm ← bitmap_clear p (bitmap s);
        free_loop n (p + 1) (Pmm bm (total_pages s) (u32 (free_pages s + 1)))
      else free_loop n (p + 1) s
  end.

Definition mark_region_free (base length : Z) (s : pmm) : option pmm :=
  let page_start := u32 (base / PAGE_SIZE) in
  let page_end := u32 (u64 (base + length) / PAGE_SIZE) in
  if page_start >=? MAX_PAGES then Some s else
  let page_end := if page_end >? MAX_PAGES then MAX_PAGES else page_end in
  free_loop (Z.to_nat (page_end - page_start)) page_start s.

Fixpoint used_loop (n : nat) (p : Z) (s : pmm) : option pmm :=
  match n with
  | O => Some s
  | S n =>
      t ← bitmap_test p (bitmap s);
      if negb t then
        bm ← bitmap_set p (bitmap s);
        used_loop n (p + 1) (Pmm bm (total_pages s) (u32 (free_pages s - 1)))
      else used_loop n (p + 1) s
  end.

Definition mark_region_used (base length : Z) (s : pmm) : option pmm :=
  let page_start := u32 (base / PAGE_SIZE) in
  let page_end := u32 (u64 (base + length + PAGE_SIZE - 1) / PAGE_SIZE) in
  if page_start >=? MAX_PAGES then Some s else
  let page_end := if page_end >? MAX_PAGES then MAX_PAGES else page_end in
  used_loop (Z.to_nat (page_end - page_start)) page_start s.

(** ** Public API *)

(** The scan of the Multiboot memory map. *)
Fixpoint mmap_loop (fuel : nat) (m : mem) (addr len offset : Z) (s : pmm) : option pmm :=
  match fuel with
  | O => None
  | S fuel =>
      if offset <? len then
        let entry := read_mmap_entry m (u32 (addr + offset)) in
        s ← (if (entry_type entry =? 1) && (base_high entry =? 0) then
               let base := base_low entry in
               let length := length_low entry in
               let end_ := base + length in
               let end_ := if end_ >? MAX_PAGES * PAGE_SIZE
                           then MAX_PAGES * PAGE_SIZE else end_ in
               if base <? end_ then mark_region_free base (end_ - base) s else Some s
             else Some s);
        mmap_loop fuel m addr len (u32 (offset + u32 (me_size entry + 4))) s
      else Some s
  end.

(** The loop over the 32 bits of one word that counts the used pages. *)
Fixpoint count_bits (n : nat) (bit word total : Z) : Z :=
  match n with
  | O => total
  | S n =>
      count_bits n (bit + 1) word
        (if negb (Z.land word (Z.shiftl 1 bit) =? 0) then u32 (total + 1) else total)
  end.

Definition count_words (bm : list Z) (total : Z) : Z :=
  foldl (fun total word => count_bits 32 0 word total) total bm.

(** [kernel_end] is the linker's [__bss_end]. *)
Definition init (fuel : nat) (m : mem) (kernel_end : Z) (mb_info : MultibootInfo)
    : option pmm :=
  let kernel_start := 0x100000 in
  let s := Pmm (replicate BITMAP_WORDS 0xFFFFFFFF) 0 0 in
  s ← (if negb (Z.land (mb_flags mb_info) MULTIBOOT_FLAG_MMAP =? 0)
       then mmap_loop fuel m (mmap_addr mb_info) (mmap_length mb_info) 0 s
       else Some s);
  let s := Pmm (bitmap s) (free_pages s) (free_pages s) in
  s ← mark_region_used 0 0x100000 s;
  let kernel_size := u64 (kernel_end - kernel_start) in
  s ← mark_region_used kernel_start kernel_size s;
  Some (Pmm (bitmap s) (count_words (bitmap s) (free_pages s)) (free_pages s)).

Definition reserve_range (start end_ : Z) (s : pmm) : option pmm :=
  if end_ <=? start then Some s else mark_region_used start (end_ - start) s.

(** [for bit in 0..32]: the first clear bit of the word. *)
Fixpoint first_clear (n : nat) (bit word : Z) : option Z :=
  match n with
  | O => None
  | S n =>
      if Z.land word (Z.shiftl 1 bit) =? 0 then Some bit
      else first_clear n (bit + 1) word
  end.

(** [for i in 0..MAX_PAGES/32]: [pre] words have been scanned. *)
Fixpoint alloc_scan (bm : list Z) (i : Z) : option (Z * Z * Z) :=
  match bm with
  | [] => None
  | w :: bm =>
      if negb (w =? 0xFFFFFFFF) then
        match first_clear 32 0 w with
        | Some bit => Some (i, bit, Z.lor w (Z.shiftl 1 bit))
        | None => alloc_scan bm (i + 1)
        end
      else alloc_scan bm (i + 1)
  end.

(** Returns the page address (0 when out of memory) and the new state. *)
Definition alloc_page (s : pmm) : Z * pmm :=
  match alloc_scan (bitmap s) 0 with
  | Some (i, bit, w) =>
      ((i * 32 + bit) * PAGE_SIZE,
       Pmm (<[Z.to_nat i := w]> (bitmap s)) (total_pages s) (u32 (free_pages s - 1)))
  | None => (0, s)
  end.

Definition free_page (addr : Z) (s : pmm) : option pmm :=
  if addr =? 0 then Some s else
  let page := u32 (addr / PAGE_SIZE) in
  if page >=? MAX_PAGES then Some s else
  t ← bitmap_test page (bitmap s);
  if (t : bool) then
    bm ← bitmap_clear page (bitmap s);
    Some (Pmm bm (total_pages s) (u32 (free_pages s + 1)))
  else Some s.

Definition get_total_pages (s : pmm) : Z := total_pages s.
Definition get_free_pages (s : pmm) : Z := free_pages s.

(** ** Abstract view: which pages are used, how many are free *)

Definition word_ok (w : Z) : Prop := 0 <= w < 2 ^ 32.
Record bm_ok (bm : list Z) : Prop := {
  bm_length : length bm = BITMAP_WORDS; bm_words : Forall word_ok bm }.

Definition page_used (bm : list Z) (p : Z) : bool :=
  match zget bm (p / 32) with
  | Some w => Z.testbit w (p mod 32)
  | None => true
  end.

Definition zeros32 (w : Z) : Z := zsum (fun b => if Z.testbit w b then 0 else 1) (seqZ 0 32).
Definition free_count (bm : list Z) : Z := zsum zeros32 bm.

(** The allocator's invariant: the counter is the number of clear bits. *)
Record wf (s : pmm) : Prop := {
  wf_bitmap : bm_ok (bitmap s); wf_free : free_pages s = free_count (bitmap s) }.

Lemma of_nat_BITMAP_WORDS : Z.of_nat BITMAP_WORDS = 32768.
Proof. unfold BITMAP_WORDS; by rewrite Z2Nat.id. Qed.

Lemma zeros32_range w : 0 <= zeros32 w <= 32.
Proof.
  unfold zeros32.
  pose proof (zsum_bound (fun b => if Z.testbit w b then 0 else 1) (seqZ 0 32) 0 1) as H.
  rewrite length_seqZ in H. cbn in H. apply H. intros x. by destruct (Z.testbit w x).
Qed.

Lemma free_count_range bm : bm_ok bm -> 0 <= free_count bm <= MAX_PAGES.
Proof.
  intros [Hl _]. unfold free_count.
  pose proof (zsum_bound zeros32 bm 0 32 zeros32_range) as H.
  rewrite Hl, of_nat_BITMAP_WORDS in H. unfold MAX_PAGES. lia.
Qed.

Lemma zeros32_change w w' b :
  0 <= b < 32 ->
  (forall i, 0 <= i < 32 -> i <> b -> Z.testbit w' i = Z.testbit w i) ->
  zeros32 w' = zeros32 w + (if Z.testbit w b then 1 else 0) - (if Z.testbit w' b then 1 else 0).
Proof.
  intros Hb Hi. unfold zeros32.
  rewrite (zsum_update (fun b => if Z.testbit w b then 0 else 1)
             (fun b => if Z.testbit w' b then 0 else 1) (seqZ 0 32) b).
  - destruct (Z.testbit w b), (Z.testbit w' b); lia.
  - apply NoDup_seqZ.
  - apply elem_of_seqZ; lia.
  - intros y Hy Hne. apply elem_of_seqZ in Hy. by rewrite Hi by lia.
Qed.

Section bitmap.
Variable bm : list Z.
Hypothesis Hbm : bm_ok bm.

Lemma page_index p : 0 <= p < MAX_PAGES -> 0 <= p / 32 < Z.of_nat (length bm).
Proof.
  intros Hp. destruct Hbm as [-> _]. rewrite of_nat_BITMAP_WORDS.
  unfold MAX_PAGES in Hp. mod_lia.
Qed.

Lemma zget_word p :
  0 <= p < MAX_PAGES -> exists w, zget bm (p / 32) = Some w /\ word_ok w.
Proof.
  intros Hp. destruct (zget_Some bm (p / 32) (page_index p Hp)) as [w Hw].
  exists w; split; [done |]. destruct Hbm as [_ HF]. unfold zget in Hw.
  case_if_in Hw; [done |]. by apply (proj1 (Forall_lookup _ _) HF (Z.to_nat (p / 32))).
Qed.

Lemma bitmap_test_spec p :
  0 <= p < MAX_PAGES -> bitmap_test p bm = Some (page_used bm p).
Proof.
  intros Hp. unfold bitmap_test, page_used. destruct (zget_word p Hp) as (w & -> & Hw).
  simpl. rewrite land_bit by mod_lia. by rewrite negb_involutive.
Qed.

(** Replacing the word that holds page [p] by one that differs only in the
    bit of [p]. *)
Lemma word_update p w' v :
  0 <= p < MAX_PAGES -> word_ok w' ->
  (forall w, zget bm (p / 32) = Some w ->
     forall i, 0 <= i < 32 ->
     Z.testbit w' i = if i =? p mod 32 then v else Z.testbit w i) ->
  let bm' := <[Z.to_nat (p / 32) := w']> bm in
  bm_ok bm' /\
  (forall q, 0 <= q -> page_used bm' q = if q =? p then v else page_used bm q) /\
  free_count bm' =
    free_count bm + (if page_used bm p then 1 else 0) - (if v then 1 else 0).
Proof.
  intros Hp Hw' Hbits bm'. destruct (zget_word p Hp) as (w & Hget & Hw).
  specialize (Hbits w Hget). pose proof (page_index p Hp) as Hidx.
  assert (Hlk : bm !! Z.to_nat (p / 32) = Some w).
  { unfold zget in Hget. case_if_in Hget; breflect; [lia | done]. }
  split_and!.
  - destruct Hbm as [Hl HF]. unfold bm'. split; [by rewrite length_insert |].
    by apply Forall_insert.
  - intros q Hq. unfold page_used, bm', zget.
    rewrite !(proj2 (Z.ltb_ge (_ / 32) 0)) by (apply Z.div_pos; lia).
    destruct (decide (q / 32 = p / 32)) as [E | E].
    + rewrite E, list_lookup_insert_eq by lia. rewrite Hlk, Hbits by mod_lia.
      destruct (Z.eqb_spec q p) as [-> |].
      * by rewrite Z.eqb_refl.
      * rewrite (proj2 (Z.eqb_neq _ _)); [done | mod_lia].
    + rewrite list_lookup_insert_ne by mod_lia.
      rewrite (proj2 (Z.eqb_neq q p)); [done | congruence].
  - unfold free_count, bm'. rewrite (zsum_insert _ _ _ w) by done.
    rewrite (zeros32_change w w' (p mod 32)) by (mod_lia || (intros i Hi Hne;
      rewrite Hbits by done; by rewrite (proj2 (Z.eqb_neq _ _) Hne))).
    rewrite Hbits, Z.eqb_refl by mod_lia.
    unfold page_used; rewrite Hget. lia.
Qed.

Lemma bitmap_set_spec p :
  0 <= p < MAX_PAGES ->
  exists bm', bitmap_set p bm = Some bm' /\ bm_ok bm' /\
    (forall q, 0 <= q -> page_used bm' q = if q =? p then true else page_used bm q) /\
    free_count bm' = free_count bm - (if page_used bm p then 0 else 1).
Proof.
  intros Hp. unfold bitmap_set. destruct (zget_word p Hp) as (w & Hget & Hw).
  rewrite Hget; simpl. rewrite zset_Some by (by apply page_index). eexists; split; [done |].
  destruct (word_update p (Z.lor w (Z.shiftl 1 (p mod 32))) true) as (H1 & H2 & H3);
    [done | | | split_and!; [done | done |]].
  - apply (lor_bound 32); [lia | done |]. rewrite Z.shiftl_1_l. split; [lia |].
    apply Z.pow_lt_mono_r; mod_lia.
  - intros w0 H0 i Hi. rewrite Hget in H0; injection H0 as <-.
    rewrite testbit_set by mod_lia. destruct (i =? p mod 32);
      by rewrite ?orb_true_r, ?orb_false_r.
  - rewrite H3. destruct (page_used bm p); lia.
Qed.

Lemma bitmap_clear_spec p :
  0 <= p < MAX_PAGES ->
  exists bm', bitmap_clear p bm = Some bm' /\ bm_ok bm' /\
    (forall q, 0 <= q -> page_used bm' q = if q =? p then false else page_used bm q) /\
    free_count bm' = free_count bm + (if page_used bm p then 1 else 0).
Proof.
  intros Hp. unfold bitmap_clear. destruct (zget_word p Hp) as (w & Hget & Hw).
  rewrite Hget; simpl. rewrite zset_Some by (by apply page_index). eexists; split; [done |].
  destruct (word_update p (Z.land w (not32 (Z.shiftl 1 (p mod 32)))) false) as (H1 & H2 & H3);
    [done | | | split_and!; [done | done |]].
  - apply (land_bound_l 32); [lia | done].
  - intros w0 H0 i Hi. rewrite Hget in H0; injection H0 as <-.
    rewrite testbit_clear32 by (done || mod_lia). destruct (i =? p mod 32);
      by rewrite ?andb_true_r, ?andb_false_r.
  - rewrite H3. destruct (page_used bm p); lia.
Qed.
End bitmap.

(** ** The region loops *)

(** [s'] is [s] with the pages of [lo, hi) marked [v]. *)
Definition marked (v : bool) (lo hi : Z) (s s' : pmm) : Prop :=
  wf s' /\ total_pages s' = total_pages s /\
  forall q, 0 <= q ->
    page_used (bitmap s') q =
      if (lo <=? q) && (q <? hi) then v else page_used (bitmap s) q.

Lemma wf_count_range s : wf s -> 0 <= free_pages s <= MAX_PAGES.
Proof. intros [H ->]. by apply free_count_range. Qed.

Lemma in_range_step lo hi q :
  lo < hi ->
  (lo <=? q) && (q <? hi) = (q =? lo) || ((lo + 1 <=? q) && (q <? hi)).
Proof.
  intros. destruct (Z.leb_spec lo q), (Z.ltb_spec q hi), (Z.eqb_spec q lo),
    (Z.leb_spec (lo + 1) q); simpl; done || lia.
Qed.

Lemma free_loop_spec n p s :
  wf s -> 0 <= p -> p + Z.of_nat n <= MAX_PAGES ->
  exists s', free_loop n p s = Some s' /\ marked false p (p + Z.of_nat n) s s'.
Proof.
  revert p s; induction n as [| n IH]; intros p s Hwf Hp Hn.
  { exists s; unfold marked; split_and!; [done | done | done |]. intros q Hq.
    case_if; breflect; [lia | done]. }
  cbn [free_loop]. pose proof Hwf as [Hbm Hfree].
  rewrite bitmap_test_spec by (done || lia). simpl.
  destruct (page_used (bitmap s) p) eqn:Hu.
  - destruct (bitmap_clear_spec (bitmap s) Hbm p) as (bm' & -> & Hok & Hbits & Hcnt); [lia |].
    simpl. rewrite Hu in Hcnt. pose proof (free_count_range _ Hok) as Hr. unfold MAX_PAGES in Hr.
    destruct (IH (p + 1) (Pmm bm' (total_pages s) (u32 (free_pages s + 1))))
      as (s' & Hs' & Hwf' & Htot & Hm); [| lia | lia |].
    { split; simpl; [done |]. rewrite u32_small; lia. }
    exists s'; split; [done |]. unfold marked; split_and!; [done | done |]. intros q Hq.
    rewrite Hm, Hbits by done. rewrite (in_range_step p) by lia.
    replace (p + Z.of_nat (S n)) with (p + 1 + Z.of_nat n) by lia.
    destruct (q =? p), (_ && _); done.
  - destruct (IH (p + 1) s) as (s' & Hs' & Hwf' & Htot & Hm); [done | lia | lia |].
    exists s'; split; [done |]. unfold marked; split_and!; [done | done |]. intros q Hq.
    rewrite Hm by done. rewrite (in_range_step p) by lia.
    replace (p + Z.of_nat (S n)) with (p + 1 + Z.of_nat n) by lia.
    destruct (Z.eqb_spec q p) as [-> |]; [rewrite Hu |]; by destruct (_ && _).
Qed.

Lemma used_loop_spec n p s :
  wf s -> 0 <= p -> p + Z.of_nat n <= MAX_PAGES ->
  exists s', used_loop n p s = Some s' /\ marked true p (p + Z.of_nat n) s s'.
Proof.
  revert p s; induction n as [| n IH]; intros p s Hwf Hp Hn.
  { exists s; unfold marked; split_and!; [done | done | done |]. intros q Hq.
    case_if; breflect; [lia | done]. }
  cbn [used_loop]. pose proof Hwf as [Hbm Hfree].
  rewrite bitmap_test_spec by (done || lia). simpl.
  destruct (page_used (bitmap s) p) eqn:Hu; simpl.
  - destruct (IH (p + 1) s) as (s' & Hs' & Hwf' & Htot & Hm); [done | lia | lia |].
    exists s'; split; [done |]. unfold marked; split_and!; [done | done |]. intros q Hq.
    rewrite Hm by done. rewrite (in_range_step p) by lia.
    replace (p + Z.of_nat (S n)) with (p + 1 + Z.of_nat n) by lia.
    destruct (Z.eqb_spec q p) as [-> |]; [rewrite Hu |]; by destruct (_ && _).
  - destruct (bitmap_set_spec (bitmap s) Hbm p) as (bm' & -> & Hok & Hbits & Hcnt); [lia |].
    simpl. rewrite Hu in Hcnt. pose proof (free_count_range _ Hbm) as Hr.
    pose proof (free_count_range _ Hok) as Hr'. unfold MAX_PAGES in Hr, Hr'.
    destruct (IH (p + 1) (Pmm bm' (total_pages s) (u32 (free_pages s - 1))))
      as (s' & Hs' & Hwf' & Htot & Hm); [| lia | lia |].
    { split; simpl; [done |]. rewrite u32_small; lia. }
    exists s'; split; [done |]. unfold marked; split_and!; [done | done |]. intros q Hq.
    rewrite Hm, Hbits by done. rewrite (in_range_step p) by lia.
    replace (p + Z.of_nat (S n)) with (p + 1 + Z.of_nat n) by lia.
    destruct (q =? p), (_ && _); done.
Qed.

Lemma marked_empty v lo hi s : wf s -> hi <= lo -> marked v lo hi s s.
Proof.
  intros; unfold marked; split_and!; [done | done |]. intros q Hq. case_if; breflect; [lia | done].
Qed.

(** Both region functions mark exactly the pages between the two page numbers
    they compute, clamped to [MAX_PAGES]. *)
Lemma region_clamp lo hi v s s' :
  wf s -> MAX_PAGES <= lo -> s' = s -> marked v lo (Z.min hi MAX_PAGES) s s'.
Proof. intros ? ? ->; apply marked_empty; [done | lia]. Qed.

Lemma mark_region_used_spec base len s :
  wf s -> 0 <= base < 2 ^ 44 -> 0 <= len < 2 ^ 32 ->
  exists s', mark_region_used base len s = Some s' /\
    marked true (base / PAGE_SIZE)
      (Z.min ((base + len + (PAGE_SIZE - 1)) / PAGE_SIZE) MAX_PAGES) s s'.
Proof.
  intros Hwf Hb Hl. unfold mark_region_used, PAGE_SIZE, MAX_PAGES in *.
  rewrite u64_small by lia. rewrite (u32_small (base / 4096)) by mod_lia.
  replace (base + len + 4096 - 1) with (base + len + (4096 - 1)) by lia.
  destruct (Z.geb_spec (base / 4096) 1048576) as [H | H].
  { exists s; split; [done |]. by apply region_clamp. }
  rewrite u32_small by mod_lia. set (e := (base + len + (4096 - 1)) / 4096).
  assert (base / 4096 <= e) by (unfold e; mod_lia).
  replace (if e >? 1048576 then 1048576 else e) with (Z.min e 1048576)
    by (destruct (Z.gtb_spec e 1048576); lia).
  destruct (used_loop_spec (Z.to_nat (Z.min e 1048576 - base / 4096)) (base / 4096) s)
    as (s' & Hs' & Hm); [done | apply Z.div_pos; lia | unfold MAX_PAGES; lia |].
  exists s'; split; [done |]. rewrite Z2Nat.id in Hm by lia.
  by replace (base / 4096 + (Z.min e 1048576 - base / 4096)) with (Z.min e 1048576) in Hm by lia.
Qed.

Lemma mark_region_free_spec base len s :
  wf s -> 0 <= base < 2 ^ 44 -> 0 <= len < 2 ^ 33 ->
  exists s', mark_region_free base len s = Some s' /\
    marked false (base / PAGE_SIZE) (Z.min ((base + len) / PAGE_SIZE) MAX_PAGES) s s'.
Proof.
  intros Hwf Hb Hl. unfold mark_region_free, PAGE_SIZE, MAX_PAGES in *.
  rewrite u64_small by lia. rewrite (u32_small (base / 4096)) by mod_lia.
  destruct (Z.geb_spec (base / 4096) 1048576) as [H | H].
  { exists s; split; [done |]. by apply region_clamp. }
  rewrite u32_small by mod_lia. set (e := (base + len) / 4096).
  assert (base / 4096 <= e) by (unfold e; mod_lia).
  replace (if e >? 1048576 then 1048576 else e) with (Z.min e 1048576)
    by (destruct (Z.gtb_spec e 1048576); lia).
  destruct (free_loop_spec (Z.to_nat (Z.min e 1048576 - base / 4096)) (base / 4096) s)
    as (s' & Hs' & Hm); [done | apply Z.div_pos; lia | unfold MAX_PAGES; lia |].
  exists s'; split; [done |]. rewrite Z2Nat.id in Hm by lia.
  by replace (base / 4096 + (Z.min e 1048576 - base / 4096)) with (Z.min e 1048576) in Hm by lia.
Qed.

(** ** Allocation *)

Lemma first_clear_spec n b w :
  0 <= b ->
  match first_clear n b w with
  | Some bit => b <= bit < b + Z.of_nat n /\ Z.testbit w bit = false /\
                forall j, b <= j < bit -> Z.testbit w j = true
  | None => forall j, b <= j < b + Z.of_nat n -> Z.testbit w j = true
  end.
Proof.
  revert b; induction n as [| n IH]; intros b Hb; simpl; [lia |].
  rewrite land_bit by done. destruct (Z.testbit w b) eqn:E; simpl.
  - specialize (IH (b + 1) ltac:(lia)). destruct (first_clear n (b + 1) w) as [bit |].
    + destruct IH as (H1 & H2 & H3). split_and!; [lia | lia | done |]. intros j Hj.
      destruct (Z.eq_dec j b) as [-> |]; [done | apply H3; lia].
    + intros j Hj. destruct (Z.eq_dec j b) as [-> |]; [done | apply IH; lia].
  - split_and!; [lia | lia | done | lia].
Qed.

Lemma full_word w : word_ok w -> (forall j, 0 <= j < 32 -> Z.testbit w j = true) -> w = 0xFFFFFFFF.
Proof.
  intros Hw Hj. change 0xFFFFFFFF with (2 ^ 32 - 1). apply Z.bits_inj'. intros i Hi.
  rewrite testbit_ones by lia. destruct (Z.ltb_spec i 32); [apply Hj; lia |].
  by apply (bits_high 32); [apply Hw | lia].
Qed.

Lemma alloc_scan_spec bm i0 :
  Forall word_ok bm ->
  match alloc_scan bm i0 with
  | Some (i, bit, w') => exists k w,
      i = i0 + Z.of_nat k /\ bm !! k = Some w /\ w' = Z.lor w (Z.shiftl 1 bit) /\
      0 <= bit < 32 /\ Z.testbit w bit = false /\
      (forall j, 0 <= j < bit -> Z.testbit w j = true) /\
      (forall k', (k' < k)%nat -> bm !! k' = Some 0xFFFFFFFF)
  | None => Forall (fun w => w = 0xFFFFFFFF) bm
  end.
Proof.
  intros HF; revert i0; induction HF as [| w bm Hw HF IH]; intros i0; [simpl; constructor |].
  cbn [alloc_scan]. pose proof (first_clear_spec 32 0 w ltac:(lia)) as Hfc.
  specialize (IH (i0 + 1)). destruct (Z.eqb_spec w 0xFFFFFFFF) as [Ew | Ew]; cbn [negb].
  - destruct (alloc_scan bm (i0 + 1)) as [[[i bit] w'] |]; [| by constructor].
    destruct IH as (k & w0 & -> & H1 & H2 & H3 & H4 & H5 & H6).
    exists (S k), w0. split_and!; try done; try lia.
    intros [| k'] Hk; simpl; [by rewrite Ew | apply H6; lia].
  - destruct (first_clear 32 0 w) as [bit |].
    + destruct Hfc as (H1 & H2 & H3). exists O, w. split_and!; try done; try lia.
    + exfalso; apply Ew, full_word; [done | intros j Hj; apply Hfc; lia].
Qed.

Lemma page_used_full bm p :
  bm !! Z.to_nat (p / 32) = Some 0xFFFFFFFF -> 0 <= p -> page_used bm p = true.
Proof.
  intros H Hp. unfold page_used, zget. rewrite (proj2 (Z.ltb_ge _ _)) by (apply Z.div_pos; lia).
  rewrite H. change 0xFFFFFFFF with (2 ^ 32 - 1). rewrite testbit_ones by mod_lia.
  apply Z.ltb_lt; mod_lia.
Qed.

Lemma zeros32_full : zeros32 0xFFFFFFFF = 0.
Proof. vm_compute; done. Qed.

(** The result of a successful allocation: the lowest free page, marked used. *)
Definition allocated (s : pmm) (addr : Z) (s' : pmm) : Prop :=
  exists p, 0 <= p < MAX_PAGES /\ addr = p * PAGE_SIZE /\
    page_used (bitmap s) p = false /\
    (forall q, 0 <= q < p -> page_used (bitmap s) q = true) /\
    (forall q, 0 <= q -> page_used (bitmap s') q = (q =? p) || page_used (bitmap s) q) /\
    free_pages s' = free_pages s - 1.

Definition exhausted (s : pmm) : Prop :=
  free_pages s = 0 /\ forall q, 0 <= q < MAX_PAGES -> page_used (bitmap s) q = true.

Lemma alloc_page_spec s :
  wf s ->
  let '(addr, s') := alloc_page s in
  wf s' /\ total_pages s' = total_pages s /\
  (allocated s addr s' \/ (addr = 0 /\ s' = s /\ exhausted s)).
Proof.
  intros Hwf. pose proof Hwf as [Hbm Hfree]. unfold alloc_page.
  pose proof (alloc_scan_spec (bitmap s) 0 (bm_words _ Hbm)) as Hscan.
  destruct (alloc_scan (bitmap s) 0) as [[[i bit] w'] |].
  - destruct Hscan as (k & w & Hi & Hk & -> & Hbit & Htb & Hlow & Hprev).
    assert (Hkl : (k < length (bitmap s))%nat) by by eapply lookup_lt_Some.
    pose proof (bm_length _ Hbm) as Hlen. pose proof of_nat_BITMAP_WORDS as HN.
    set (p := i * 32 + bit).
    assert (Hp : 0 <= p < MAX_PAGES) by (unfold p, MAX_PAGES; lia).
    assert (Ediv : p / 32 = i) by (unfold p; mod_lia).
    assert (Emod : p mod 32 = bit) by (unfold p; mod_lia).
    assert (Hzg : zget (bitmap s) (p / 32) = Some w).
    { unfold zget. rewrite (proj2 (Z.ltb_ge _ _)) by lia. rewrite Ediv, Hi, Z.add_0_l.
      by rewrite Nat2Z.id. }
    assert (Hset : bitmap_set p (bitmap s) =
                   Some (<[Z.to_nat i := Z.lor w (Z.shiftl 1 bit)]> (bitmap s))).
    { unfold bitmap_set. rewrite Hzg. cbn [mbind option_bind].
      rewrite zset_Some by (by apply page_index). by rewrite Ediv, Emod. }
    assert (Hun : page_used (bitmap s) p = false) by (unfold page_used; by rewrite Hzg, Emod).
    destruct (bitmap_set_spec _ Hbm p Hp) as (bm' & E & Hok & Hbits & Hcnt).
    rewrite Hset in E; injection E as <-. rewrite Hun in Hcnt.
    pose proof (free_count_range _ Hok). pose proof (free_count_range _ Hbm).
    unfold MAX_PAGES in *. rewrite u32_small by lia.
    split_and!; [split; [done | simpl; lia] | done |]. left. exists p; simpl.
    split; [exact Hp | split; [done | split; [exact Hun | split; [| split; [| lia]]]]].
    + intros q Hq. destruct (decide (q / 32 = i)) as [Eq | Eq].
      * unfold page_used. rewrite Eq, <- Ediv, Hzg. apply Hlow. unfold p in Hq. mod_lia.
      * apply page_used_full; [| lia]. apply Hprev. unfold p in Hq. mod_lia.
    + intros q Hq. rewrite Hbits by done. by destruct (q =? p).
  - split_and!; [done | done |]. right. split_and!; [done | done |].
    split.
    + rewrite Hfree. unfold free_count. clear - Hscan.
      induction Hscan as [| w bm -> _ IH]; [done |]. cbn [zsum]. by rewrite zeros32_full, IH.
    + intros q Hq. apply page_used_full; [| lia].
      destruct (zget_word _ Hbm q Hq) as (w & Hw & _). unfold zget in Hw.
      case_if_in Hw; [done |]. rewrite Hw. f_equal.
      by apply (proj1 (Forall_lookup _ _) Hscan (Z.to_nat (q / 32))).
Qed.

(** A state of the allocator that never hands out frame 0, which the callers of
    [alloc_page] take for the out-of-memory answer; [init] establishes it. *)
Record alloc_ok (s : pmm) : Prop := {
  ao_wf : wf s; ao_zero : page_used (bitmap s) 0 = true }.

(** C3: [alloc_page] returns the lowest free page, marks that page and no
    other, and decrements the free counter; when every page is in use it returns 0
    and changes nothing.  The answer 0 means just that as long as page 0 is in use,
    which [init] establishes and [alloc_page] keeps; were page 0 free (an address
    from 1 to 4095 given to [free_page] makes it so: [free_page_zero]), 0 would be
    the page that is handed out.  The invariant is preserved. *)
Theorem alloc_page_correct s :
  wf s ->
  let '(addr, s') := alloc_page s in
  wf s' /\ total_pages s' = total_pages s /\
  (exhausted s -> addr = 0 /\ s' = s) /\
  (~ exhausted s -> allocated s addr s') /\
  (addr = 0 <-> exhausted s \/ page_used (bitmap s) 0 = false) /\
  (page_used (bitmap s) 0 = true -> page_used (bitmap s') 0 = true).
Proof.
  intros Hwf. pose proof (alloc_page_spec s Hwf) as H. destruct (alloc_page s) as [addr s'].
  destruct H as (Hwf' & Ht & [Ha | (-> & -> & He)]).
  - assert (Hne : ~ exhausted s).
    { intros [_ He]. destruct Ha as (p & Hp & _ & Hu & _). by rewrite He in Hu. }
    split; [done |]. split; [done |]. split; [done |]. split; [done |].
    destruct Ha as (p & Hp & -> & Hu & Hlow & Hbits & _). unfold PAGE_SIZE. split.
    + split; [intros Hz; right; by replace p with 0 in Hu by lia |].
      intros [? | H0]; [done |]. destruct (decide (p = 0)) as [-> |]; [done |]. by rewrite Hlow in H0 by lia.
    + intros H0. rewrite Hbits by lia. rewrite H0. apply orb_true_r.
  - split; [done |]. split; [done |]. split; [done |]. split; [done |]. split; [| done].
    split; [by left | done].
Qed.

(** ** The interface other components allocate page frames through *)

Definition frame (a : Z) : Prop := exists p, 0 < p < MAX_PAGES /\ a = p * PAGE_SIZE.

Class PageAllocator (P : Type) := {
  pa_alloc : P -> Z * P;
  pa_wf : P -> Prop;
  pa_free : P -> Z -> Prop;
  pa_alloc_law : forall p a p',
    pa_wf p -> pa_alloc p = (a, p') ->
    pa_wf p' /\
    ((a = 0 /\ p' = p) \/
     (frame a /\ pa_free p a /\ forall f, pa_free p' f <-> pa_free p f /\ f <> a))
}.

Definition frame_free (s : pmm) (a : Z) : Prop :=
  frame a /\ page_used (bitmap s) (a / PAGE_SIZE) = false.

Lemma pmm_alloc_law s a s' :
  alloc_ok s -> alloc_page s = (a, s') ->
  alloc_ok s' /\
  ((a = 0 /\ s' = s) \/
   (frame a /\ frame_free s a /\ forall f, frame_free s' f <-> frame_free s f /\ f <> a)).
Proof.
  intros [Hwf H0] E. pose proof (alloc_page_spec s Hwf) as H. rewrite E in H.
  destruct H as (Hwf' & _ & [(p & Hp & -> & Hun & _ & Hbits & _) | (-> & -> & _)]);
    [| split; [by split | by left]].
  assert (Hp0 : p <> 0) by (intros ->; congruence).
  assert (Hf : frame (p * PAGE_SIZE)) by (exists p; split; [lia | done]).
  split; [split; [done | rewrite Hbits, H0 by lia; apply orb_true_r] | right].
  split; [done | split].
  - split; [done |]. unfold PAGE_SIZE. by rewrite Z.div_mul by lia.
  - intros f. unfold frame_free. split.
    + intros [Hff Hu]. destruct Hff as (q & Hq & ->). unfold PAGE_SIZE in *.
      rewrite Z.div_mul in * by lia. rewrite Hbits in Hu by lia.
      apply orb_false_elim in Hu as [Hne Hu]. breflect.
      split; [split; [by exists q | done] | lia].
    + intros [[Hff Hu] Hne]. split; [done |]. destruct Hff as (q & Hq & ->).
      unfold PAGE_SIZE in *. rewrite Z.div_mul in * by lia. rewrite Hbits, Hu by lia.
      rewrite orb_false_r. apply Z.eqb_neq. intros ->. done.
Qed.

#[export] Instance pmm_allocator : PageAllocator pmm := {
  pa_alloc := alloc_page; pa_wf := alloc_ok; pa_free := frame_free;
  pa_alloc_law := pmm_alloc_law }.

(** [free_page] never panics, keeps the invariant, and releases exactly the
    page that holds the address; freeing page 0 or an address above 4 GB does
    nothing, and so does freeing a free page. *)
Theorem free_page_correct addr s :
  wf s -> 0 <= addr < 2 ^ 44 ->
  exists s', free_page addr s = Some s' /\ wf s' /\
    (forall q, 0 <= q < MAX_PAGES -> page_used (bitmap s') q =
       if (q =? addr / PAGE_SIZE) && negb (addr =? 0) then false else page_used (bitmap s) q) /\
    ((addr = 0 \/ MAX_PAGES <= addr / PAGE_SIZE \/
      page_used (bitmap s) (addr / PAGE_SIZE) = false) -> s' = s).
Proof.
  intros Hwf Ha. pose proof Hwf as [Hbm Hfree]. unfold free_page, PAGE_SIZE in *.
  destruct (Z.eqb_spec addr 0) as [-> | Hne].
  { exists s; split_and!; try done. intros q Hq. by rewrite andb_false_r. }
  rewrite u32_small by mod_lia. cbn [negb].
  destruct (Z.geb_spec (addr / 4096) MAX_PAGES) as [Hge | Hlt].
  { exists s; split_and!; try done. intros q Hq.
    by rewrite (proj2 (Z.eqb_neq q _)) by lia. }
  assert (Hp : 0 <= addr / 4096 < MAX_PAGES) by (split; [apply Z.div_pos |]; lia).
  rewrite bitmap_test_spec by done. cbn [mbind option_bind].
  destruct (page_used (bitmap s) (addr / 4096)) eqn:Hu.
  - destruct (bitmap_clear_spec _ Hbm _ Hp) as (bm' & -> & Hok & Hbits & Hcnt).
    rewrite Hu in Hcnt. pose proof (free_count_range _ Hok).
    cbn [mbind option_bind]. eexists; split_and!; [done | | |].
    + split; simpl; [done |]. unfold MAX_PAGES in *. rewrite u32_small; lia.
    + intros q Hq. simpl. rewrite Hbits by lia. by rewrite andb_true_r.
    + intros [? | [? | ?]]; [done | lia | congruence].
  - exists s; split_and!; try done. intros q Hq. rewrite andb_true_r.
    destruct (Z.eqb_spec q (addr / 4096)) as [-> |]; done.
Qed.

(** An address inside page 0 frees page 0: only the address 0 itself is refused. *)
Lemma free_page_zero addr s : wf s -> 0 < addr < PAGE_SIZE ->
  exists s', free_page addr s = Some s' /\ wf s' /\ page_used (bitmap s') 0 = false.
Proof.
  unfold PAGE_SIZE. intros Hwf Ha. destruct (free_page_correct addr s Hwf) as (s' & E & Hwf' & Hq & _); [lia |].
  exists s'. split; [exact E |]. split; [exact Hwf' |]. rewrite Hq by (unfold MAX_PAGES; lia). unfold PAGE_SIZE.
  by rewrite Z.div_small, (proj2 (Z.eqb_neq addr 0)) by lia.
Qed.

(** ** Initialisation *)

Section memory_map.
Variable m : mem.
Hypothesis m_bytes : forall a, is_byte (m a).
Variables addr len : Z.

Definition entry (off : Z) : MmapEntry := read_mmap_entry m (u32 (addr + off)).

(** The offsets the scan visits from [off0] on. *)
Inductive visited (off0 : Z) : Z -> Prop :=
| visited_here : off0 < len -> visited off0 off0
| visited_next off :
    visited off0 off -> off + me_size (entry off) + 4 < len ->
    visited off0 (off + me_size (entry off) + 4).

(** What the code takes for available: the last byte of page [q] lies in the first
    [length_low] bytes of an available entry whose base is below 4 GB. *)
Definition covers (off q : Z) : Prop :=
  let e := entry off in
  entry_type e = 1 /\ base_high e = 0 /\
  base_low e <= q * PAGE_SIZE + (PAGE_SIZE - 1) < base_low e + length_low e.

Definition available (off0 q : Z) : Prop := exists off, visited off0 off /\ covers off q.

(** What the map says: the whole page lies in an available entry, its base and its
    length taken at 64 bits. *)
Definition whole (off q : Z) : Prop :=
  let e := entry off in
  entry_type e = 1 /\ base_low e + 2 ^ 32 * base_high e <= q * PAGE_SIZE /\
  (q + 1) * PAGE_SIZE <= base_low e + 2 ^ 32 * base_high e + (length_low e + 2 ^ 32 * length_high e).

(** Available entries start on a page boundary and are shorter than 4 GB. *)
Definition plain_map (off0 : Z) : Prop :=
  forall off, visited off0 off -> entry_type (entry off) = 1 -> base_high (entry off) = 0 ->
    base_low (entry off) mod PAGE_SIZE = 0 /\ length_high (entry off) = 0.

(** The map's entry sizes do not overflow the 32-bit offset (true of the
    maps a boot loader builds: 24-byte entries). *)
Definition map_ok (off0 : Z) : Prop :=
  0 <= len /\ forall off, visited off0 off -> off + me_size (entry off) + 4 < 2 ^ 32.

Lemma read_u32_range a : 0 <= read_u32 m a < 2 ^ 32.
Proof.
  unfold read_u32. apply (le_val_range [_; _; _; _]).
  by repeat constructor; try apply m_bytes.
Qed.

Lemma visited_unfold off0 off :
  visited off0 off ->
  off0 < len /\ (off = off0 \/ visited (off0 + me_size (entry off0) + 4) off).
Proof.
  induction 1 as [H | off Hv [Hl IH] Hlt]; [by split; [| left] |].
  split; [done | right]. destruct IH as [-> | IH]; [by constructor | by constructor].
Qed.

Lemma visited_fold off0 off :
  off0 < len -> visited (off0 + me_size (entry off0) + 4) off -> visited off0 off.
Proof.
  intros Hl; induction 1 as [H | off Hv IH Hlt]; [| by constructor].
  apply visited_next; [by constructor | done].
Qed.

Lemma covers_whole off0 off q : plain_map off0 -> visited off0 off -> 0 <= q < MAX_PAGES -> covers off q <-> whole off q.
Proof.
  unfold covers, whole, PAGE_SIZE, MAX_PAGES. intros Hp Hv Hq. specialize (Hp off Hv). unfold PAGE_SIZE in Hp.
  assert (0 <= base_low (entry off) /\ 0 <= base_high (entry off)) by (split; apply read_u32_range).
  split; intros (Ht & Hb & Hc).
  - destruct (Hp Ht Hb) as [Hal Hl]. rewrite Hb, Hl. split; [done |]. mod_lia.
  - assert (E : base_high (entry off) = 0) by lia. destruct (Hp Ht E) as [Hal Hl]. rewrite E, Hl in Hc. split; [done |]. split; [done |]. lia.
Qed.

(** One entry of the scan: it frees the pages the entry covers. *)
Lemma entry_step off s :
  wf s ->
  let e := entry off in
  exists s',
    (if (entry_type e =? 1) && (base_high e =? 0) then
       let end_ := if base_low e + length_low e >? MAX_PAGES * PAGE_SIZE
                   then MAX_PAGES * PAGE_SIZE else base_low e + length_low e in
       if base_low e <? end_ then mark_region_free (base_low e) (end_ - base_low e) s
       else Some s
     else Some s) = Some s' /\ wf s' /\
    forall q, 0 <= q < MAX_PAGES ->
      (page_used (bitmap s') q = false <-> page_used (bitmap s) q = false \/ covers off q).
Proof.
  intros Hwf e. assert (Hb : 0 <= base_low e < 2 ^ 32) by apply read_u32_range.
  assert (Hl : 0 <= length_low e < 2 ^ 32) by apply read_u32_range.
  unfold covers. fold e. unfold PAGE_SIZE, MAX_PAGES in *.
  destruct (Z.eqb_spec (entry_type e) 1) as [E1 | E1];
    destruct (Z.eqb_spec (base_high e) 0) as [E2 | E2]; cbn [andb];
    try (exists s; split_and!; [done | done |]; intros q _; tauto).
  set (end_ := if _ >? _ then _ else _).
  assert (Hend : end_ = Z.min (base_low e + length_low e) (1048576 * 4096)).
  { unfold end_. destruct (Z.gtb_spec (base_low e + length_low e) (1048576 * 4096)); lia. }
  destruct (Z.ltb_spec (base_low e) end_) as [Hlt | Hge].
  - destruct (mark_region_free_spec (base_low e) (end_ - base_low e) s)
      as (s' & Hs' & Hwf' & _ & Hm); [done | lia | lia |].
    exists s'; split_and!; [done | done |]. intros q Hq. rewrite Hm by lia.
    unfold PAGE_SIZE, MAX_PAGES. replace (base_low e + (end_ - base_low e)) with end_ by lia.
    assert (Heq : (base_low e / 4096 <=? q) && (q <? Z.min (end_ / 4096) 1048576) = true <->
            base_low e <= q * 4096 + (4096 - 1) < base_low e + length_low e).
    { rewrite andb_true_iff, Z.leb_le, Z.ltb_lt, Hend. mod_lia. }
    destruct (_ && _); tauto || (split; [intros ?; by left |]).
    intros [H | (_ & _ & H)]; [done |]. by apply Heq in H.
  - exists s; split_and!; [done | done |]. intros q Hq. split; [by left |].
    intros [H | (_ & _ & H)]; [done |]. exfalso. revert H. mod_lia.
Qed.

Lemma mmap_loop_spec fuel off s :
  map_ok off -> wf s -> 0 <= off -> Z.max 0 (len - off) < Z.of_nat fuel ->
  exists s', mmap_loop fuel m addr len off s = Some s' /\ wf s' /\
    forall q, 0 <= q < MAX_PAGES ->
      (page_used (bitmap s') q = false <-> page_used (bitmap s) q = false \/ available off q).
Proof.
  revert off s. induction fuel as [| fuel IH]; intros off s [Hlen Hok] Hwf Hoff Hf; [lia |].
  cbn [mmap_loop]. destruct (Z.ltb_spec off len) as [Hlt | Hge].
  - fold (entry off). destruct (entry_step off s Hwf) as (s1 & Hs1 & Hwf1 & Hc).
    cbv zeta in Hs1 |- *. rewrite Hs1. cbn [mbind option_bind].
    assert (0 <= me_size (entry off)) by apply read_u32_range.
    pose proof (Hok off (visited_here _ Hlt)) as Hsize.
    rewrite (u32_small (me_size _ + 4)), u32_small by lia.
    destruct (IH (off + (me_size (entry off) + 4)) s1) as (s' & Hs' & Hwf' & Hav);
      [| done | lia | lia |].
    { split; [done |]. intros o Ho. apply Hok, visited_fold; [done |].
      by rewrite <- Z.add_assoc. }
    exists s'; split_and!; [done | done |]. intros q Hq. rewrite Hav, Hc by done.
    rewrite Z.add_assoc. split.
    + intros [[H1 | H1] | (o & Ho & H1)]; [by left | right; exists off; split; [by constructor | done] |].
      right; exists o; split; [by apply visited_fold | done].
    + intros [H1 | (o & Ho & H1)]; [by left; left |].
      apply visited_unfold in Ho as [_ [-> | Ho]]; [by left; right | right; by exists o].
  - exists s; split_and!; [done | done |]. intros q _. split; [by left |].
    intros [H1 | (o & Ho & _)]; [done |]. apply visited_unfold in Ho as [Ho _]; lia.
Qed.
End memory_map.

Lemma count_bits_spec n b w t :
  0 <= b -> 0 <= t -> t + Z.of_nat n < 2 ^ 32 ->
  count_bits n b w t = t + zsum (fun i => if Z.testbit w i then 1 else 0) (seqZ b (Z.of_nat n)).
Proof.
  revert b t; induction n as [| n IH]; intros b t Hb Ht Hn; [simpl; lia |].
  cbn [count_bits]. rewrite land_bit, negb_involutive, seqZ_cons by lia. cbn [zsum].
  replace (Z.succ b) with (b + 1) by lia.
  replace (Z.pred (Z.of_nat (S n))) with (Z.of_nat n) by lia.
  destruct (Z.testbit w b); rewrite IH by (rewrite ?u32_small; lia); rewrite ?u32_small; lia.
Qed.

Lemma ones_zeros w :
  zsum (fun i => if Z.testbit w i then 1 else 0) (seqZ 0 32) = 32 - zeros32 w.
Proof.
  unfold zeros32. assert (Hl : Z.of_nat (length (seqZ 0 32)) = 32) by done.
  rewrite <- Hl at 2. clear Hl.
  induction (seqZ 0 32) as [| i l IH]; [done |]. cbn [zsum length].
  destruct (Z.testbit w i); lia.
Qed.

Lemma count_bits_word w t :
  0 <= t -> t + 32 < 2 ^ 32 -> count_bits 32 0 w t = t + 32 - zeros32 w.
Proof.
  intros Ht Hw. transitivity (t + (32 - zeros32 w)); [| lia].
  rewrite <- ones_zeros. apply (count_bits_spec 32 0 w t); lia.
Qed.

Lemma foldl_count (f : Z -> Z -> Z) bm t :
  (forall t w, 0 <= t -> t + 32 < 2 ^ 32 -> f t w = t + 32 - zeros32 w) ->
  0 <= t -> t + 32 * Z.of_nat (length bm) < 2 ^ 32 ->
  foldl f t bm = t + 32 * Z.of_nat (length bm) - zsum zeros32 bm.
Proof.
  intros Hf; revert t; induction bm as [| w bm IH]; intros t Ht Hl; [simpl; lia |].
  cbn [foldl zsum length] in Hl |- *. pose proof (zeros32_range w).
  rewrite Hf, IH by lia. lia.
Qed.

Lemma count_words_spec bm t :
  0 <= t -> t + 32 * Z.of_nat (length bm) < 2 ^ 32 ->
  count_words bm t = t + 32 * Z.of_nat (length bm) - zsum zeros32 bm.
Proof. apply foldl_count. intros; by apply count_bits_word. Qed.

Lemma wf_all_used t : wf (Pmm (replicate BITMAP_WORDS 0xFFFFFFFF) t 0).
Proof.
  split; [split |]; cbn [bitmap free_pages].
  - apply length_replicate.
  - apply Forall_replicate. unfold word_ok; lia.
  - unfold free_count. rewrite zsum_replicate, zeros32_full. lia.
Qed.

Lemma all_used_page p :
  0 <= p < MAX_PAGES -> page_used (replicate BITMAP_WORDS 0xFFFFFFFF) p = true.
Proof.
  intros Hp. apply page_used_full; [| lia]. apply lookup_replicate_2.
  pose proof of_nat_BITMAP_WORDS. unfold MAX_PAGES in Hp. mod_lia.
Qed.

(** The three steps of [init], composed. *)
Lemma init_steps fuel m kernel_end mb s1 s2 s3 :
  Z.land (mb_flags mb) MULTIBOOT_FLAG_MMAP <> 0 ->
  mmap_loop fuel m (mmap_addr mb) (mmap_length mb) 0
    (Pmm (replicate BITMAP_WORDS 0xFFFFFFFF) 0 0) = Some s1 ->
  mark_region_used 0 0x100000 (Pmm (bitmap s1) (free_pages s1) (free_pages s1)) = Some s2 ->
  mark_region_used 0x100000 (u64 (kernel_end - 0x100000)) s2 = Some s3 ->
  init fuel m kernel_end mb =
    Some (Pmm (bitmap s3) (count_words (bitmap s3) (free_pages s3)) (free_pages s3)).
Proof.
  intros Hflag H1 H2 H3. unfold init.
  eapply bind_step; [by rewrite (proj2 (Z.eqb_neq _ _) Hflag) |]. cbv beta zeta.
  eapply bind_step; [exact H2 |]. cbv beta zeta.
  eapply bind_step; [exact H3 |]. reflexivity.
Qed.

Lemma count_total bm : bm_ok bm -> count_words bm (free_count bm) = MAX_PAGES.
Proof.
  intros Hbm. pose proof (free_count_range _ Hbm) as Hr.
  rewrite count_words_spec; rewrite ?(bm_length _ Hbm), ?of_nat_BITMAP_WORDS;
    unfold free_count, MAX_PAGES in *; lia.
Qed.

(** What [init] leaves, with the page numbers the code computes. *)
Lemma pmm_init_spec fuel m kernel_end mb :
  (forall a, is_byte (m a)) -> map_ok m (mmap_addr mb) (mmap_length mb) 0 ->
  Z.land (mb_flags mb) MULTIBOOT_FLAG_MMAP <> 0 ->
  0x100000 <= kernel_end < 2 ^ 32 -> (Z.to_nat (mmap_length mb) < fuel)%nat ->
  exists s, init fuel m kernel_end mb = Some s /\ wf s /\
    total_pages s = MAX_PAGES /\
    forall q, 0 <= q < MAX_PAGES ->
      (page_used (bitmap s) q = false <->
       available m (mmap_addr mb) (mmap_length mb) 0 q /\
       256 <= q /\ (kernel_end + (PAGE_SIZE - 1)) / PAGE_SIZE <= q).
Proof.
  intros Hm Hmap Hflag Hk Hf.
  destruct (mmap_loop_spec m Hm _ _ fuel 0 _ Hmap (wf_all_used 0)) as (s1 & E1 & Hwf1 & H1);
    [lia | lia |].
  assert (Hwf1' : wf (Pmm (bitmap s1) (free_pages s1) (free_pages s1)))
    by (destruct Hwf1; by split).
  destruct (mark_region_used_spec 0 0x100000 _ Hwf1') as (s2 & E2 & Hwf2 & _ & H2); [lia | lia |].
  destruct (mark_region_used_spec 0x100000 (u64 (kernel_end - 0x100000)) s2)
    as (s3 & E3 & Hwf3 & _ & H3); [done | lia | rewrite u64_small; lia |].
  eexists; split; [by eapply init_steps |]. destruct Hwf3 as [Hbm3 Hf3].
  split; [by split | split; [cbn [total_pages]; rewrite Hf3; by apply count_total |]].
  intros q Hq. cbn [bitmap] in *. specialize (H1 q Hq). rewrite all_used_page in H1 by done.
  rewrite H3, H2 by lia. rewrite u64_small by lia. unfold PAGE_SIZE, MAX_PAGES in *.
  replace (1048576 + (kernel_end - 1048576) + (4096 - 1)) with (kernel_end + (4096 - 1)) by lia.
  set (ke := (kernel_end + (4096 - 1)) / 4096).
  destruct (decide (256 <= q /\ ke <= q)) as [[Hq1 Hq2] | Hno].
  - assert (Hf1 : (1048576 / 4096 <=? q) && (q <? Z.min ke 1048576) = false)
      by (apply andb_false_iff; right; apply Z.ltb_ge; lia).
    assert (Hf2 : (0 / 4096 <=? q) && (q <? Z.min ((0 + 1048576 + (4096 - 1)) / 4096) 1048576) = false)
      by (apply andb_false_iff; right; apply Z.ltb_ge; mod_lia).
    rewrite Hf1, Hf2, H1. intuition done.
  - split; [| by intros (_ & H)]. intros H. exfalso. revert H.
    case_if; [done |]. case_if; [done |]. intros _. apply Hno.
    revert E E0. rewrite !andb_false_iff, !Z.leb_gt, !Z.ltb_ge. mod_lia.
Qed.

(** C4: initialisation succeeds, establishes the invariant with page 0 in use, and
    leaves a page free exactly when it lies outside the first megabyte and the kernel
    image and an available entry covers it, in the sense of the code: the page's
    last byte is in the first [length_low] bytes of the entry (the start of an entry
    is rounded down to its page and [length_high] is not looked at).  For a map
    whose available entries start on a page boundary and are shorter than 4 GB that
    is: exactly when the whole page is available memory of the map.
    The page total it records is the constant 1048576 whatever the map. *)
Theorem init_correct fuel m kernel_end mb :
  (forall a, is_byte (m a)) -> map_ok m (mmap_addr mb) (mmap_length mb) 0 ->
  Z.land (mb_flags mb) MULTIBOOT_FLAG_MMAP <> 0 ->
  0x100000 <= kernel_end < 2 ^ 32 -> (Z.to_nat (mmap_length mb) < fuel)%nat ->
  exists s, init fuel m kernel_end mb = Some s /\ alloc_ok s /\
    total_pages s = MAX_PAGES /\
    (forall q, 0 <= q < MAX_PAGES ->
      (page_used (bitmap s) q = false <->
       available m (mmap_addr mb) (mmap_length mb) 0 q /\
       0x100000 <= q * PAGE_SIZE /\ kernel_end <= q * PAGE_SIZE)) /\
    (plain_map m (mmap_addr mb) (mmap_length mb) 0 -> forall q, 0 <= q < MAX_PAGES ->
      (page_used (bitmap s) q = false <->
       (exists off, visited m (mmap_addr mb) (mmap_length mb) 0 off /\ whole m (mmap_addr mb) off q) /\
       0x100000 <= q * PAGE_SIZE /\ kernel_end <= q * PAGE_SIZE)).
Proof.
  intros Hm Hmap Hflag Hk Hf. destruct (pmm_init_spec fuel m kernel_end mb Hm Hmap Hflag Hk Hf) as (s & E & Hwf & Ht & Hq).
  assert (Hbytes : forall q, 256 <= q /\ (kernel_end + (PAGE_SIZE - 1)) / PAGE_SIZE <= q <->
    0x100000 <= q * PAGE_SIZE /\ kernel_end <= q * PAGE_SIZE) by (intros q; unfold PAGE_SIZE; mod_lia).
  exists s. split; [exact E |]. split.
  { split; [exact Hwf |]. destruct (page_used (bitmap s) 0) eqn:E0; [done |].
    apply Hq in E0 as (_ & H256 & _); [lia | unfold MAX_PAGES; lia]. }
  split; [exact Ht |]. split; [intros q Hr; by rewrite Hq, Hbytes |].
  intros Hplain q Hr. rewrite Hq, Hbytes by done. apply and_iff_compat_r. split; intros (off & Hv & Hc); exists off;
    (split; [exact Hv |]); by apply (covers_whole m Hm _ (mmap_length mb) 0 off q Hplain Hv Hr).
Qed.

(** [mark_region_free] rounds the start of the region down: a region that
    begins in the middle of page 1 makes the whole of page 1 allocatable. *)
Lemma mark_region_free_partial_page s :
  wf s -> exists s', mark_region_free 0x1800 0x1800 s = Some s' /\
    page_used (bitmap s') 1 = false.
Proof.
  intros Hwf. destruct (mark_region_free_spec 0x1800 0x1800 s Hwf) as (s' & E & _ & _ & H);
    [lia | lia |].
  exists s'; split; [done |]. by rewrite H by lia.
Qed.

(** ** Witnesses *)

(** Only page 5 is free. *)
Definition one_free : pmm :=
  Pmm (0xFFFFFFDF :: replicate (Z.to_nat 32767) 0xFFFFFFFF) 0 (zeros32 0xFFFFFFDF).

Lemma one_clear_wf w n t :
  word_ok w -> S n = BITMAP_WORDS ->
  wf (Pmm (w :: replicate n 0xFFFFFFFF) t (zeros32 w)).
Proof.
  intros Hw Hn. split; [split |]; cbn [bitmap free_pages].
  - cbn [length]. by rewrite length_replicate.
  - constructor; [done |]. apply Forall_replicate. unfold word_ok; lia.
  - unfold free_count. cbn [zsum]. rewrite zsum_replicate, zeros32_full. lia.
Qed.

Lemma one_free_wf : wf one_free.
Proof. apply (one_clear_wf 0xFFFFFFDF); [unfold word_ok; lia | reflexivity]. Qed.

Lemma one_free_not_exhausted : ~ exhausted one_free.
Proof. intros [_ H]. specialize (H 5 ltac:(unfold MAX_PAGES; lia)). vm_compute in H. discriminate. Qed.

Lemma alloc_page_correct_witness :
  wf one_free /\
  (let '(addr, s') := alloc_page one_free in
   wf s' /\ allocated one_free addr s' /\ addr <> 0 /\ page_used (bitmap s') 0 = true).
Proof.
  split; [apply one_free_wf |].
  pose proof (alloc_page_correct one_free one_free_wf) as H. destruct (alloc_page one_free) as [addr s'].
  destruct H as (Hwf & _ & _ & Ha & H0 & Hz). split; [exact Hwf |]. split; [exact (Ha one_free_not_exhausted) |].
  split; [| apply Hz; reflexivity]. intros E. apply H0 in E as [E | E]; [exact (one_free_not_exhausted E) |].
  vm_compute in E. discriminate.
Defined.

Lemma free_page_correct_witness :
  exists s', free_page 0x6123 one_free = Some s' /\ wf s' /\ page_used (bitmap s') 6 = false.
Proof.
  destruct (free_page_correct 0x6123 one_free one_free_wf) as (s' & E & Hwf & H & _); [lia |].
  exists s'; split; [exact E | split; [exact Hwf |]].
  rewrite (H 6) by (unfold MAX_PAGES; lia). reflexivity.
Defined.

(** A memory map with one 24-byte entry: 4 MB available from 1 MB on. *)
Definition demo_map : mem := fun a =>
  nth (Z.to_nat (a - 0x9000))
    (le_bytes 4 20 ++ le_bytes 4 0x100000 ++ le_bytes 4 0 ++ le_bytes 4 0x400000 ++
     le_bytes 4 0 ++ le_bytes 4 1) 0.
Definition demo_info : MultibootInfo := {|
  mb_flags := 64; mem_lower := 0; mem_upper := 0; boot_device := 0; cmdline := 0;
  mods_count := 0; mods_addr := 0; syms := [0; 0; 0; 0]; mmap_length := 24;
  mmap_addr := 0x9000 |}.

Lemma demo_map_bytes a : is_byte (demo_map a).
Proof.
  unfold demo_map. apply nth_byte. repeat apply Forall_app_2; apply le_bytes_byte_list.
Qed.

Lemma demo_map_ok : map_ok demo_map 0x9000 24 0.
Proof.
  split; [lia |]. assert (H : forall off, visited demo_map 0x9000 24 0 off -> off = 0).
  { induction 1 as [| off Hv -> Hlt]; [done |]. exfalso. revert Hlt. by vm_compute. }
  intros off Hv. rewrite (H off Hv). by vm_compute.
Qed.

Lemma demo_map_plain : plain_map demo_map 0x9000 24 0.
Proof.
  assert (H : forall off, visited demo_map 0x9000 24 0 off -> off = 0).
  { induction 1 as [| off Hv -> Hlt]; [done |]. exfalso. revert Hlt. by vm_compute. }
  intros off Hv. rewrite (H off Hv). by vm_compute.
Qed.

Lemma init_correct_witness :
  exists s, init 100 demo_map 0x180000 demo_info = Some s /\ alloc_ok s /\
    page_used (bitmap s) 0x180 = false /\ page_used (bitmap s) 0x17F = true.
Proof.
  destruct (init_correct 100 demo_map 0x180000 demo_info demo_map_bytes demo_map_ok)
    as (s & E & Hok & _ & H & Hw); [by vm_compute | lia | simpl; lia |].
  exists s; split; [exact E | split; [exact Hok |]]. split.
  - apply (Hw demo_map_plain 0x180); [unfold MAX_PAGES; lia |]. split; [| split; by vm_compute].
    exists 0; split; [constructor; by vm_compute |]. split_and!; by vm_compute.
  - destruct (page_used (bitmap s) 0x17F) eqn:Hu; [done |]. exfalso.
    apply H in Hu as (_ & _ & Hk); [| unfold MAX_PAGES; lia]. vm_compute in Hk. exact (Hk eq_refl).
Defined.
