(* ===== verification/Sync.v ===== *)
(** Spinlocks and mutexes ([src/src/sync.rs]) on a single core.

    The processor state the locks touch is the RFLAGS register; bit 9 is the
    interrupt flag.  A spinlock operation is a state transformer on the lock
    and RFLAGS.  A mutex is used by several threads that the timer preempts
    between any two instructions executed with interrupts enabled, so its
    model is a step relation: one step is one stretch of code that cannot be
    preempted. *)
From S2P Require Import Prelude.

(** ** Spinlock *)

Record Spinlock := { sl_locked : Z; saved_flags : Z }.

Definition Spinlock_new : Spinlock := {| sl_locked := 0; saved_flags := 0 |}.

Definition IF_BIT : Z := 9.
(** The [cli] instruction. *)
Definition cli (rflags : Z) : Z := Z.clearbit rflags IF_BIT.
(** The [sti] instruction. *)
Definition sti (rflags : Z) : Z := Z.setbit rflags IF_BIT.
Definition interrupts_on (rflags : Z) : bool := Z.testbit rflags IF_BIT.

(** [pushfq; pop flags; cli], then the two stores. *)
Definition Spinlock_lock (self : Spinlock) (rflags : Z) : Spinlock * Z :=
  let flags := rflags in
  ({| sl_locked := 1; saved_flags := flags |}, cli rflags).

Definition Spinlock_unlock (self : Spinlock) (rflags : Z) : Spinlock * Z :=
  let flags := saved_flags self in
  ({| sl_locked := 0; saved_flags := flags |}, flags).

Lemma cli_off rflags : interrupts_on (cli rflags) = false.
Proof. apply Z.clearbit_eq. Qed.

(** A critical section restores RFLAGS exactly, whatever ran inside it. *)
Lemma lock_unlock_flags l rflags inner :
  (Spinlock_unlock (Spinlock_lock l rflags).1 inner).2 = rflags.
Proof. done. Qed.

(** Sections nested on two different locks restore the flags level by level. *)
Lemma nested_two_locks a b rflags :
  let '(a, f1) := Spinlock_lock a rflags in
  let '(b, f2) := Spinlock_lock b f1 in
  let '(b, f3) := Spinlock_unlock b f2 in
  let '(a, f4) := Spinlock_unlock a f3 in
  interrupts_on f2 = false /\ f3 = f1 /\ interrupts_on f3 = false /\ f4 = rflags.
Proof. simpl. split_and!; auto using cli_off. Qed.

(** Locking the same spinlock twice overwrites [saved_flags] with the flags of
    the inner section, so the two unlocks leave interrupts disabled. *)
Lemma relock_loses_interrupts l rflags :
  let '(l, f1) := Spinlock_lock l rflags in
  let '(l, f2) := Spinlock_lock l f1 in
  let '(l, f3) := Spinlock_unlock l f2 in
  let '(l, f4) := Spinlock_unlock l f3 in
  interrupts_on f4 = false.
Proof. simpl. apply cli_off. Qed.

(** ** Mutex *)

Record Mutex := { mx_locked : Z; owner : Z }.

Definition Mutex_new : Mutex := {| mx_locked := 0; owner := -1 |}.

(** One iteration of the loop in [Mutex::lock], which runs with interrupts
    disabled; [current] is [thread::get_current()].  [true] is the [return]. *)
Definition Mutex_try (self : Mutex) (current : Z) : Mutex * bool :=
  if (mx_locked self =? 0) || (owner self =? current)
  then ({| mx_locked := 1; owner := current |}, true)
  else (self, false).

(** [Mutex::unlock] is two stores, and the timer may preempt between them. *)
Definition Mutex_unlock_owner (self : Mutex) : Mutex :=
  {| mx_locked := mx_locked self; owner := -1 |}.
Definition Mutex_unlock_locked (self : Mutex) : Mutex :=
  {| mx_locked := 0; owner := owner self |}.
Definition Mutex_unlock (self : Mutex) : Mutex :=
  Mutex_unlock_locked (Mutex_unlock_owner self).

(** Where a thread is in its use of the mutex.  [Mutex::lock] grants the mutex to
    the thread that owns it already, so sections nest: [outer] counts the sections
    of the thread around this one. *)
Inductive pc := Outside | Acquiring (outer : nat) | Critical (outer : nat) | Unlocking (outer : nat).
#[export] Instance pc_eq_dec : EqDecision pc.
Proof. solve_decision. Defined.

Record system := { mutex : Mutex; threads : Z -> pc }.
Definition set_pc (t : Z) (p : pc) (th : Z -> pc) : Z -> pc :=
  fun x => if x =? t then p else th x.

(** The end of a section: back in the one around it. *)
Definition leave (outer : nat) : pc := match outer with O => Outside | S d => Critical d end.

(** One uninterrupted step of thread [t]; a failed attempt is followed by
    [yield_thread], that is, by steps of other threads. *)
Inductive step : system -> system -> Prop :=
| step_start t s :
    0 <= t -> threads s t = Outside ->
    step s {| mutex := mutex s; threads := set_pc t (Acquiring 0) (threads s) |}
| step_nest t s d :
    threads s t = Critical d ->
    step s {| mutex := mutex s; threads := set_pc t (Acquiring (S d)) (threads s) |}
| step_try t s d m ok :
    threads s t = Acquiring d -> Mutex_try (mutex s) t = (m, ok) ->
    step s {| mutex := m;
              threads := set_pc t (if ok then Critical d else Acquiring d) (threads s) |}
| step_unlock_owner t s d :
    threads s t = Critical d ->
    step s {| mutex := Mutex_unlock_owner (mutex s);
              threads := set_pc t (Unlocking d) (threads s) |}
| step_unlock_locked t s d :
    threads s t = Unlocking d ->
    step s {| mutex := Mutex_unlock_locked (mutex s);
              threads := set_pc t (leave d) (threads s) |}.

(** No thread asks for the mutex inside a section of its own. *)
Definition flat (s : system) : Prop := forall t d, threads s t <> Acquiring (S d).
Definition flat_step (s s' : system) : Prop := step s s' /\ flat s'.

Definition boot : system := {| mutex := Mutex_new; threads := fun _ => Outside |}.

(** Inside the section or still releasing it. *)
Definition holds (p : pc) : Prop := p = Critical 0 \/ p = Unlocking 0.
Definition unnested (p : pc) : Prop := p = Outside \/ p = Acquiring 0 \/ holds p.

Record mutex_inv (s : system) : Prop := {
  inv_flat : forall t, unnested (threads s t);
  inv_ids : forall t, threads s t <> Outside -> 0 <= t;
  inv_one : forall t u, holds (threads s t) -> holds (threads s u) -> t = u;
  inv_locked : forall t, holds (threads s t) -> mx_locked (mutex s) = 1;
  inv_critical : forall t, threads s t = Critical 0 -> owner (mutex s) = t;
  inv_owner : 0 <= owner (mutex s) -> threads s (owner (mutex s)) = Critical 0;
  inv_free : (forall t, ~ holds (threads s t)) -> mx_locked (mutex s) = 0 }.

Lemma set_pc_eq t p th : set_pc t p th t = p.
Proof. unfold set_pc; by rewrite Z.eqb_refl. Qed.
Lemma set_pc_ne t p th x : x <> t -> set_pc t p th x = th x.
Proof. intros; unfold set_pc; by rewrite (proj2 (Z.eqb_neq _ _)). Qed.

(** Case analysis on which thread a [set_pc] touches. *)
Ltac pc_cases :=
  repeat match goal with
  | H : context [set_pc ?t _ _ ?x] |- _ =>
      destruct (decide (x = t)); [subst; rewrite set_pc_eq in H | rewrite set_pc_ne in H by done]
  | |- context [set_pc ?t _ _ ?x] =>
      destruct (decide (x = t)); [subst; rewrite set_pc_eq | rewrite set_pc_ne by done]
  end.

Lemma mutex_inv_boot : mutex_inv boot.
Proof.
  split; simpl; [by left | unfold holds; intros; try done; intuition (congruence || lia)..].
Qed.

Section preservation.
Variables (s : system) (t : Z).
Hypothesis Hinv : mutex_inv s.

Lemma try_outcome m ok :
  threads s t = Acquiring 0 -> Mutex_try (mutex s) t = (m, ok) ->
  if ok then m = {| mx_locked := 1; owner := t |} /\ forall u, ~ holds (threads s u)
  else m = mutex s /\ mx_locked (mutex s) <> 0.
Proof.
  intros Ht. unfold Mutex_try. pose proof (inv_ids s Hinv t ltac:(congruence)) as H0.
  destruct (Z.eqb_spec (mx_locked (mutex s)) 0) as [E | E]; simpl.
  - intros [= <- <-]. split; [done |]. intros u Hu. pose proof (inv_locked s Hinv u Hu). lia.
  - destruct (Z.eqb_spec (owner (mutex s)) t) as [E' | E']; intros [= <- <-]; [| done].
    exfalso. pose proof (inv_owner s Hinv ltac:(lia)). congruence.
Qed.

Lemma holds_other u p : holds (set_pc t p (threads s) u) -> u <> t -> holds (threads s u).
Proof. intros H Hne. by rewrite set_pc_ne in H. Qed.
(** A step that leaves the lock bit and the set of holders alone. *)
Lemma inv_same_holders p o :
  0 <= t -> unnested p -> (holds p <-> holds (threads s t)) ->
  (p = Critical 0 -> o = t) -> (0 <= o -> p = Critical 0 /\ o = t \/ o <> t /\ o = owner (mutex s)) ->
  (forall u, u <> t -> threads s u = Critical 0 -> o = u) ->
  mutex_inv {| mutex := {| mx_locked := mx_locked (mutex s); owner := o |};
               threads := set_pc t p (threads s) |}.
Proof.
  intros Ht Hun Hp Hc Ho Hcr'. pose proof Hinv as [Hflat Hids Hone Hlk Hcr How Hfr].
  assert (Hsame : forall u, holds (set_pc t p (threads s) u) <-> holds (threads s u)).
  { intros u. unfold set_pc. by destruct (Z.eqb_spec u t) as [-> |]. }
  split; simpl.
  - intros u. pc_cases; [done | apply Hflat].
  - intros u Hu. pc_cases; [done | by apply Hids].
  - intros u v Hu Hv. apply Hone; by apply Hsame.
  - intros u Hu. eapply Hlk, Hsame, Hu.
  - intros u Hu. pc_cases; auto.
  - intros H. destruct (Ho H) as [[-> ->] | [Hne Heq]]; [by rewrite set_pc_eq |].
    rewrite set_pc_ne by done. rewrite Heq in *. by apply How.
  - intros H. apply Hfr. intros u Hu. by apply (H u), Hsame.
Qed.

Lemma inv_try m ok :
  threads s t = Acquiring 0 -> Mutex_try (mutex s) t = (m, ok) ->
  mutex_inv {| mutex := m;
               threads := set_pc t (if ok then Critical 0 else Acquiring 0) (threads s) |}.
Proof.
  intros Hp Htry. pose proof (try_outcome m ok Hp Htry) as Ho. destruct ok.
  - destruct Ho as [-> Hnone]. pose proof (inv_ids s Hinv) as Hids.
    assert (Hall : forall u, holds (set_pc t (Critical 0) (threads s) u) -> u = t).
    { intros u Hu. destruct (decide (u = t)); [done |]. exfalso.
      by apply (Hnone u), (holds_other u (Critical 0)). }
    split; simpl.
    + intros u. pc_cases; [by right; right; left | apply (inv_flat s Hinv)].
    + intros u Hu. pc_cases; apply Hids; congruence.
    + intros u v Hu Hv. by rewrite (Hall u Hu), (Hall v Hv).
    + done.
    + intros u Hu. symmetry; apply Hall. by left.
    + intros _. by rewrite set_pc_eq.
    + intros H. exfalso. apply (H t). rewrite set_pc_eq. by left.
  - destruct Ho as [-> _].
    assert (Hsame : forall u, set_pc t (Acquiring 0) (threads s) u = threads s u).
    { intros u. unfold set_pc. by destruct (Z.eqb_spec u t) as [-> |]. }
    destruct Hinv. split; simpl; setoid_rewrite Hsame; assumption.
Qed.

Lemma inv_release :
  threads s t = Unlocking 0 ->
  mutex_inv {| mutex := Mutex_unlock_locked (mutex s);
               threads := set_pc t Outside (threads s) |}.
Proof.
  intros Hp. pose proof Hinv as [Hflat Hids Hone Hlk Hcr How Hfr].
  assert (Hnone : forall u, ~ holds (set_pc t Outside (threads s) u)).
  { intros u Hu. pc_cases; [destruct Hu; congruence |].
    assert (u = t) by (apply Hone; [done | by right]). done. }
  assert (Howner : owner (mutex s) < 0).
  { destruct (Z.lt_ge_cases (owner (mutex s)) 0) as [| Hge]; [done |]. exfalso.
    pose proof (How Hge) as Hc.
    assert (owner (mutex s) = t) as E by (apply Hone; [by left | by right]).
    rewrite E in Hc. congruence. }
  split; simpl.
  - intros u. pc_cases; [by left | apply Hflat].
  - intros u Hu. pc_cases; [done | by apply Hids].
  - intros u v Hu. by apply Hnone in Hu.
  - intros u Hu. by apply Hnone in Hu.
  - intros u Hu. exfalso. apply (Hnone u). by left.
  - lia.
  - done.
Qed.
End preservation.

(** In a flat run every section is an outermost one. *)
Lemma inv_depth s t d p : mutex_inv s -> threads s t = p ->
  p = Acquiring d \/ p = Critical d \/ p = Unlocking d -> d = 0%nat.
Proof.
  intros Hinv <- Hp. destruct (inv_flat s Hinv t) as [E | [E | [E | E]]]; rewrite E in Hp; naive_solver.
Qed.

Lemma mutex_inv_step s s' : mutex_inv s -> flat_step s s' -> mutex_inv s'.
Proof.
  intros Hinv [Hstep Hfl]. pose proof Hinv as [Hflat Hids Hone Hlk Hcr How Hfr].
  destruct Hstep as [t s Ht Hp | t s d Hp | t s d m ok Hp Htry | t s d Hp | t s d Hp].
  - destruct s as [[l o] th]. apply (inv_same_holders _ t Hinv (Acquiring 0) o Ht); simpl in *.
    + by right; left.
    + rewrite Hp. unfold holds; intuition congruence.
    + done.
    + intros H. right. split; [| done]. intros ->. specialize (How H). congruence.
    + intros u _. apply Hcr.
  - exfalso. apply (Hfl t d). simpl. by rewrite set_pc_eq.
  - assert (d = 0%nat) as -> by (apply (inv_depth s t d _ Hinv Hp); auto). by apply inv_try.
  - assert (Ht : 0 <= t) by (apply Hids; congruence).
    assert (d = 0%nat) as -> by (apply (inv_depth s t d _ Hinv Hp); auto).
    apply (inv_same_holders _ t Hinv (Unlocking 0) (-1) Ht).
    + by right; right; right.
    + rewrite Hp. unfold holds; intuition congruence.
    + done.
    + lia.
    + intros u Hne Hu. exfalso. apply Hne, Hone; by left.
  - assert (d = 0%nat) as -> by (apply (inv_depth s t d _ Hinv Hp); auto). by apply inv_release.
Qed.

Lemma mutex_inv_reachable s : rtc flat_step boot s -> mutex_inv s.
Proof.
  intros H. apply (rtc_ind_r (R := flat_step) mutex_inv boot); [apply mutex_inv_boot | | done].
  intros x y _ Hstep Hx. by eapply mutex_inv_step.
Qed.

(** C5: in every run in which no thread locks a mutex inside a section of the
    same mutex, at most one thread is inside the section the mutex protects, even
    though [unlock] is two stores that the timer can separate; the owner field names
    that thread, and the mutex is taken.  Without the condition it is not so:
    [nested_lock_exposes]. *)
Theorem mutual_exclusion s t u d e :
  rtc flat_step boot s -> threads s t = Critical d -> threads s u = Critical e ->
  t = u /\ owner (mutex s) = t /\ mx_locked (mutex s) = 1.
Proof.
  intros Hr Ht Hu. pose proof (mutex_inv_reachable s Hr) as Hinv.
  assert (d = 0%nat) as -> by (apply (inv_depth s t d _ Hinv Ht); auto).
  assert (e = 0%nat) as -> by (apply (inv_depth s u e _ Hinv Hu); auto).
  split_and!; [apply (inv_one s Hinv); by left | by apply (inv_critical s Hinv) |].
  apply (inv_locked s Hinv t). by left.
Qed.

Lemma mutual_exclusion_witness :
  exists s, threads s 3 = Critical 0 /\ owner (mutex s) = 3.
Proof.
  set (s1 := {| mutex := Mutex_new; threads := set_pc 3 (Acquiring 0) (fun _ => Outside) |}).
  set (s2 := {| mutex := {| mx_locked := 1; owner := 3 |};
                threads := set_pc 3 (Critical 0) (threads s1) |}).
  assert (Hr : rtc flat_step boot s2).
  { eapply rtc_l; [split; [apply (step_start 3 boot); [lia | reflexivity] |] |].
    { intros x d. simpl. unfold set_pc. destruct (x =? 3); discriminate. }
    eapply rtc_l; [split; [apply (step_try 3 s1 0 {| mx_locked := 1; owner := 3 |} true); reflexivity |] |].
    { intros x d. simpl. unfold set_pc. destruct (x =? 3); discriminate. }
    apply rtc_refl. }
  exists s2. split; [reflexivity |].
  apply (mutual_exclusion s2 3 3 0 0 Hr); reflexivity.
Defined.

(** A nested section: its end frees the mutex while the thread is still inside the
    outer one, and a second thread enters. *)
Lemma nested_lock_exposes :
  exists s, rtc step boot s /\ threads s 3 = Critical 0 /\ threads s 5 = Critical 0.
Proof.
  eexists. split.
  { eapply rtc_l; [apply (step_start 3); [lia | reflexivity] |].
    eapply rtc_l; [apply (step_try 3 _ 0); reflexivity |].
    eapply rtc_l; [apply (step_nest 3 _ 0); reflexivity |].
    eapply rtc_l; [apply (step_try 3 _ 1); reflexivity |].
    eapply rtc_l; [apply (step_unlock_owner 3 _ 1); reflexivity |].
    eapply rtc_l; [apply (step_unlock_locked 3 _ 1); reflexivity |].
    eapply rtc_l; [apply (step_start 5); [lia | reflexivity] |].
    eapply rtc_l; [apply (step_try 5 _ 0); reflexivity |].
    apply rtc_refl. }
  by split.
Qed.

(** The release path always frees the mutex, and a free mutex is granted at
    once: [lock] cannot loop while nobody holds it. *)
Lemma free_mutex_granted s t :
  rtc flat_step boot s -> (forall u, ~ holds (threads s u)) -> (Mutex_try (mutex s) t).2 = true.
Proof.
  intros Hr Hnone. unfold Mutex_try.
  by rewrite (inv_free s (mutex_inv_reachable s Hr) Hnone).
Qed.
