(* ===== verification/Vmm.v ===== *)
(** Four-level page tables ([src/src/vmm.rs]).

    The tables live in physical memory, which the kernel reaches through the
    boot loader's identity mapping, so the state is a byte memory, the address
    of the root table and the page allocator.  The theorems are about the
    mapping the tables denote: what [get_physical] answers for every virtual
    address before and after an operation.  They are proved against the
    [PageAllocator] interface of [Pmm]. *)
From S2P Require Import Prelude StringRs Pmm.

Definition VMM_PAGE_SIZE : Z := 4096.
Definition PAGE_PRESENT : Z := 0x01.
Definition PAGE_WRITE : Z := 0x02.
Definition PAGE_USER : Z := 0x04.
Definition ADDR_MASK : Z := 0x000FFFFFFFFFF000.

(** ** 64-bit words in memory *)

Definition load64 (m : mem) (a : Z) : Z :=
  le_val [m a; m (a + 1); m (a + 2); m (a + 3); m (a + 4); m (a + 5); m (a + 6); m (a + 7)].
Definition store64 (m : mem) (a v : Z) : mem := fun x =>
  if (a <=? x) && (x <? a + 8) then nth (Z.to_nat (x - a)) (le_bytes 8 v) 0 else m x.

Lemma load64_store64 m a v : 0 <= v < 2 ^ 64 -> load64 (store64 m a v) a = v.
Proof.
  intros Hv. rewrite <- (Z.mod_small v (256 ^ Z.of_nat 8)) at 2 by (simpl; lia).
  rewrite <- le_val_le_bytes. unfold load64. f_equal. unfold store64.
  assert (Hi : forall k, 0 <= k < 8 ->
    (if (a <=? a + k) && (a + k <? a + 8)
     then nth (Z.to_nat (a + k - a)) (le_bytes 8 v) 0 else m (a + k)) =
    nth (Z.to_nat k) (le_bytes 8 v) 0).
  { intros k Hk. destruct (Z.leb_spec a (a + k)), (Z.ltb_spec (a + k) (a + 8)); [| lia..].
    cbn [andb]. do 2 f_equal. lia. }
  pose proof (Hi 0 ltac:(lia)) as H0. rewrite Z.add_0_r in H0.
  rewrite H0, !Hi by lia. reflexivity.
Qed.

Lemma load64_ext m m' a :
  (forall x, a <= x < a + 8 -> m' x = m x) -> load64 m' a = load64 m a.
Proof. intros H. unfold load64. by rewrite !H by lia. Qed.

Lemma load64_store64_other m a b v :
  a + 8 <= b \/ b + 8 <= a -> load64 (store64 m b v) a = load64 m a.
Proof.
  intros H. apply load64_ext. intros x Hx. unfold store64.
  by replace ((b <=? x) && (x <? b + 8)) with false
    by (symmetry; apply andb_false_iff; rewrite Z.leb_gt, Z.ltb_ge; lia).
Qed.

Lemma load64_store64_eq m a b v :
  a = b -> 0 <= v < 2 ^ 64 -> load64 (store64 m b v) a = v.
Proof. intros ->. apply load64_store64. Qed.

Lemma load64_zero m a : (forall x, a <= x < a + 8 -> m x = 0) -> load64 m a = 0.
Proof. intros H. unfold load64. by rewrite !H by lia. Qed.

(** ** The code *)

Section vmm.
Context {P : Type} `{PageAllocator P}.

Record vmm := Vmm { vm_mem : mem; PML4_PHYS : Z; vm_pages : P }.

Definition zero_page (dest : Z) (count : nat) (m : mem) : mem := memset m dest 0 count.

Definition pml4_index (virt : Z) : Z := Z.land (Z.shiftr virt 39) 0x1FF.
Definition pdpt_index (virt : Z) : Z := Z.land (Z.shiftr virt 30) 0x1FF.
Definition pd_index (virt : Z) : Z := Z.land (Z.shiftr virt 21) 0x1FF.
Definition pt_index (virt : Z) : Z := Z.land (Z.shiftr virt 12) 0x1FF.

(** The address of the next table; 0 is the null pointer. *)
Definition walk_or_alloc (table index : Z) (s : vmm) : Z * vmm :=
  let entry := load64 (vm_mem s) (table + 8 * index) in
  if negb (Z.land entry PAGE_PRESENT =? 0) then (Z.land entry ADDR_MASK, s) else
  let '(new_table_phys, p) := pa_alloc (vm_pages s) in
  if new_table_phys =? 0 then (0, Vmm (vm_mem s) (PML4_PHYS s) p) else
  let m := zero_page new_table_phys (Z.to_nat VMM_PAGE_SIZE) (vm_mem s) in
  let m := store64 m (table + 8 * index)
             (Z.lor (Z.lor (Z.lor new_table_phys PAGE_PRESENT) PAGE_WRITE) PAGE_USER) in
  (new_table_phys, Vmm m (PML4_PHYS s) p).

Definition walk_readonly (table index : Z) (s : vmm) : Z :=
  let entry := load64 (vm_mem s) (table + 8 * index) in
  if Z.land entry PAGE_PRESENT =? 0 then 0 else Z.land entry ADDR_MASK.

Definition init (cr3 : Z) (s : vmm) : vmm :=
  Vmm (vm_mem s) (Z.land cr3 ADDR_MASK) (vm_pages s).

Definition map_page (virt phys flags : Z) (s : vmm) : vmm :=
  let pml4 := PML4_PHYS s in
  let '(pdpt, s) := walk_or_alloc pml4 (pml4_index virt) s in
  if pdpt =? 0 then s else
  let '(pd, s) := walk_or_alloc pdpt (pdpt_index virt) s in
  if pd =? 0 then s else
  let '(pt, s) := walk_or_alloc pd (pd_index virt) s in
  if pt =? 0 then s else
  Vmm (store64 (vm_mem s) (pt + 8 * pt_index virt)
         (Z.lor (Z.land phys ADDR_MASK) (Z.land flags 0xFFF)))
      (PML4_PHYS s) (vm_pages s).

(** [while i < pages]; [n] iterations are left. *)
Fixpoint map_range_loop (n : nat) (i virt_start phys_start flags : Z) (s : vmm) : vmm :=
  match n with
  | O => s
  | S n =>
      map_range_loop n (i + 1) virt_start phys_start flags
        (map_page (u64 (virt_start + i * VMM_PAGE_SIZE))
                  (u64 (phys_start + i * VMM_PAGE_SIZE)) flags s)
  end.

Definition map_range (virt_start phys_start size flags : Z) (s : vmm) : vmm :=
  let pages := u64 (size + VMM_PAGE_SIZE - 1) / VMM_PAGE_SIZE in
  map_range_loop (Z.to_nat pages) 0 virt_start phys_start flags s.

Definition unmap_page (virt : Z) (s : vmm) : vmm :=
  let pml4 := PML4_PHYS s in
  let pdpt := walk_readonly pml4 (pml4_index virt) s in
  if pdpt =? 0 then s else
  let pd := walk_readonly pdpt (pdpt_index virt) s in
  if pd =? 0 then s else
  let pt := walk_readonly pd (pd_index virt) s in
  if pt =? 0 then s else
  Vmm (store64 (vm_mem s) (pt + 8 * pt_index virt) 0) (PML4_PHYS s) (vm_pages s).

Definition get_physical (virt : Z) (s : vmm) : Z :=
  let pml4 := PML4_PHYS s in
  let pdpt := walk_readonly pml4 (pml4_index virt) s in
  if pdpt =? 0 then 0 else
  let pd := walk_readonly pdpt (pdpt_index virt) s in
  if pd =? 0 then 0 else
  let pt := walk_readonly pd (pd_index virt) s in
  if pt =? 0 then 0 else
  let pte := load64 (vm_mem s) (pt + 8 * pt_index virt) in
  if Z.land pte PAGE_PRESENT =? 0 then 0
  else u64 (Z.land pte ADDR_MASK + Z.land virt 0xFFF).

(** ** The tables as a tree

    Level 3 is the PML4, level 0 a page table.  A table of level [l] serves
    the virtual addresses that share the bits above its index. *)

Definition idx (l : nat) (virt : Z) : Z :=
  Z.land (Z.shiftr virt (12 + 9 * Z.of_nat l)) 0x1FF.
Definition prefix (l : nat) (virt : Z) : Z := virt / 2 ^ (21 + 9 * Z.of_nat l).

Definition slot (f : Z) (l : nat) (virt : Z) : Z := f + 8 * idx l virt.
Definition present (e : Z) : bool := Z.testbit e 0.
(** The page-size bit: the entry maps a 2 MB (or 1 GB) page. *)
Definition huge (e : Z) : bool := Z.testbit e 7.

(** The leaf entry the walk of the tables from [f] ends in (0 when it stops). *)
Fixpoint leaf (m : mem) (l : nat) (f virt : Z) : Z :=
  let e := load64 m (slot f l virt) in
  match l with
  | O => e
  | S l => if present e then leaf m l (Z.land e ADDR_MASK) virt else 0
  end.

(** The walk meets no huge page. *)
Fixpoint small_path (m : mem) (l : nat) (f virt : Z) : bool :=
  match l with
  | O => true
  | S l =>
      let e := load64 m (slot f (S l) virt) in
      negb (present e) || (negb (huge e) && small_path m l (Z.land e ADDR_MASK) virt)
  end.

(** Which table each frame holds: its level and the address prefix it serves. *)
Definition tables := Z -> option (nat * Z).

Record tree (K : tables) (s : vmm) : Prop := {
  tree_root : K (PML4_PHYS s) = Some (3%nat, 0);
  tree_pages : pa_wf (vm_pages s);
  tree_frame : forall f x, K f = Some x -> frame f /\ ~ pa_free (vm_pages s) f;
  tree_entry : forall f l pre i, K f = Some (S l, pre) -> 0 <= i < 512 ->
    let e := load64 (vm_mem s) (f + 8 * i) in
    present e = true -> huge e = false ->
    K (Z.land e ADDR_MASK) = Some (l, pre * 512 + i) }.

Definition wf (s : vmm) : Prop := exists K, tree K s.

(** Lower-half addresses whose walk only meets 4 KB tables. *)
Definition user_range (s : vmm) (virt : Z) : Prop :=
  0 <= virt < 2 ^ 48 /\ small_path (vm_mem s) 3 (PML4_PHYS s) virt = true.
End vmm.
Arguments vmm P : clear implicits.

(** ** Bits of entries *)

Lemma land_present e : (Z.land e PAGE_PRESENT =? 0) = negb (present e).
Proof. unfold PAGE_PRESENT, present. by rewrite <- (land_bit e 0). Qed.

Lemma land_511 a : Z.land a 0x1FF = a mod 512.
Proof. change 0x1FF with (Z.ones 9). by rewrite Z.land_ones. Qed.

Lemma idx_eq l virt : idx l virt = (virt / 2 ^ (12 + 9 * Z.of_nat l)) mod 512.
Proof. unfold idx. by rewrite land_511, Z.shiftr_div_pow2 by lia. Qed.

Lemma idx_range l virt : 0 <= idx l virt < 512.
Proof. rewrite idx_eq. mod_lia. Qed.

Lemma prefix_step l virt : prefix l virt = prefix (S l) virt * 512 + idx (S l) virt.
Proof.
  unfold prefix. rewrite idx_eq. set (n := Z.of_nat l).
  replace (21 + 9 * Z.of_nat (S l)) with ((21 + 9 * n) + 9) by lia.
  replace (12 + 9 * Z.of_nat (S l)) with (21 + 9 * n) by lia.
  rewrite (Z.pow_add_r 2 (21 + 9 * n) 9), <- Z.div_div by (lia || apply Z.pow_pos_nonneg; lia).
  change (2 ^ 9) with 512.
  generalize (virt / 2 ^ (21 + 9 * n)). intros z. mod_lia.
Qed.

Lemma prefix_top virt : 0 <= virt < 2 ^ 48 -> prefix 3 virt = 0.
Proof. intros. apply Z.div_small. done. Qed.

Lemma page_number virt : virt / 4096 = prefix 0 virt * 512 + idx 0 virt.
Proof.
  unfold prefix. rewrite idx_eq. change (2 ^ (21 + 9 * Z.of_nat 0)) with (4096 * 512).
  change (2 ^ (12 + 9 * Z.of_nat 0)) with 4096. rewrite <- Z.div_div by lia. mod_lia.
Qed.

Lemma testbit_mask i : 0 <= i -> Z.testbit ADDR_MASK i = (12 <=? i) && (i <? 52).
Proof.
  intros Hi. change ADDR_MASK with (Z.shiftl (Z.ones 40) 12). rewrite Z.shiftl_spec by done.
  destruct (Z.leb_spec 12 i); cbn [andb].
  - destruct (Z.ltb_spec i 52); [apply Z.ones_spec_low | apply Z.ones_spec_high]; lia.
  - apply Z.testbit_neg_r; lia.
Qed.

Lemma frame_bits f i : frame f -> 0 <= i -> Z.testbit f i = true -> 12 <= i < 32.
Proof.
  intros (p & Hp & ->) Hi Hb. unfold PAGE_SIZE, MAX_PAGES in *.
  destruct (Z.lt_ge_cases i 12) as [Hlt | Hge].
  - change 4096 with (2 ^ 12) in Hb. rewrite Z.mul_pow2_bits_low in Hb by lia. done.
  - split; [done |]. destruct (Z.lt_ge_cases i 32); [done |].
    rewrite (bits_high 32) in Hb by lia. done.
Qed.

Lemma frame_mod f : frame f -> f mod 4096 = 0 /\ 4096 <= f < 2 ^ 32.
Proof. intros (p & Hp & ->). unfold PAGE_SIZE, MAX_PAGES in *. split; [by rewrite Z.mod_mul by lia | lia]. Qed.

Definition table_entry (f : Z) : Z :=
  Z.lor (Z.lor (Z.lor f PAGE_PRESENT) PAGE_WRITE) PAGE_USER.

Lemma table_entry_7 f : table_entry f = Z.lor f 7.
Proof. unfold table_entry. by rewrite <- !Z.lor_assoc. Qed.

Lemma table_entry_range f : frame f -> 0 <= table_entry f < 2 ^ 64.
Proof.
  intros Hf%frame_mod. rewrite table_entry_7. apply (lor_bound 64); lia.
Qed.

Lemma table_entry_present f : present (table_entry f) = true.
Proof. rewrite table_entry_7. unfold present. rewrite Z.lor_spec. apply orb_true_r. Qed.

Lemma table_entry_small f : frame f -> huge (table_entry f) = false.
Proof.
  intros Hf. rewrite table_entry_7. unfold huge. rewrite Z.lor_spec.
  destruct (Z.testbit f 7) eqn:E; [| done]. apply frame_bits in E; [lia | done | lia].
Qed.

Lemma table_entry_addr f : frame f -> Z.land (table_entry f) ADDR_MASK = f.
Proof.
  intros Hf. rewrite table_entry_7. apply Z.bits_inj'. intros i Hi.
  rewrite Z.land_spec, Z.lor_spec, testbit_mask by done.
  destruct (Z.testbit f i) eqn:E.
  - pose proof (frame_bits f i Hf Hi E).
    destruct (Z.leb_spec 12 i), (Z.ltb_spec i 52); done || lia.
  - destruct (Z.leb_spec 12 i); [| by rewrite andb_false_r].
    change 7 with (Z.ones 3). by rewrite Z.ones_spec_high by lia.
Qed.

Lemma mask_range e : 0 <= Z.land e ADDR_MASK < 2 ^ 52.
Proof. rewrite Z.land_comm. apply land_bound_l; unfold ADDR_MASK; lia. Qed.

(** Two table slots either coincide or do not overlap. *)
Lemma slot_disjoint f f' i i' :
  frame f -> frame f' -> 0 <= i < 512 -> 0 <= i' < 512 -> f <> f' \/ i <> i' ->
  f + 8 * i + 8 <= f' + 8 * i' \/ f' + 8 * i' + 8 <= f + 8 * i.
Proof. intros (p & Hp & ->) (q & Hq & ->) Hi Hi'. unfold PAGE_SIZE. lia. Qed.

(** ** Effect of one store into a table *)

Section effects.
Context {P : Type} `{PageAllocator P}.
Implicit Types (s : vmm P) (K : tables).

(** The walk of [virt] continues at the table its prefix selects. *)
Lemma tree_next K s f l virt :
  tree K s -> K f = Some (S l, prefix (S l) virt) ->
  let e := load64 (vm_mem s) (slot f (S l) virt) in
  present e = true -> huge e = false ->
  K (Z.land e ADDR_MASK) = Some (l, prefix l virt).
Proof.
  intros Ht Hf e Hp Hh. rewrite prefix_step.
  apply (tree_entry K s Ht f l _ (idx (S l) virt) Hf (idx_range _ _) Hp Hh).
Qed.

(** Storing a leaf changes the translation of the page it belongs to and of
    no other page, and keeps the shape of the tree. *)
Lemma store_leaf_leaf K s pt virt v l f v' :
  tree K s -> K pt = Some (O, prefix 0 virt) -> 0 <= v < 2 ^ 64 ->
  K f = Some (l, prefix l v') -> small_path (vm_mem s) l f v' = true ->
  let m' := store64 (vm_mem s) (slot pt 0 virt) v in
  small_path m' l f v' = true /\
  (v' / 4096 <> virt / 4096 -> leaf m' l f v' = leaf (vm_mem s) l f v').
Proof.
  intros Ht Hpt Hv. revert f. induction l as [| l IH]; intros f Hf Hs m'.
  - split; [done |]. intros Hne. simpl. apply load64_store64_other.
    apply slot_disjoint; try apply idx_range; try (by eapply (tree_frame K s Ht)).
    destruct (decide (f = pt)) as [-> |]; [right | by left]. intros Hi. apply Hne.
    rewrite Hpt in Hf. injection Hf as Hpre. rewrite !page_number. congruence.
  - assert (Hsame : load64 m' (slot f (S l) v') = load64 (vm_mem s) (slot f (S l) v')).
    { apply load64_store64_other, slot_disjoint; try apply idx_range;
        try (by eapply (tree_frame K s Ht)). left. intros ->. congruence. }
    cbn [small_path leaf] in *. rewrite Hsame.
    destruct (present _) eqn:Hp; simpl in *; [| done].
    destruct (huge _) eqn:Hh; simpl in *; [done |].
    apply IH; [| done]. by apply (tree_next K s f l v' Ht Hf).
Qed.

Lemma store_leaf_tree K s pt virt v :
  tree K s -> K pt = Some (O, prefix 0 virt) ->
  tree K (Vmm (store64 (vm_mem s) (slot pt 0 virt) v) (PML4_PHYS s) (vm_pages s)).
Proof.
  intros Ht Hpt. pose proof Ht as [Hroot Hpages Hframe Hentry].
  split; simpl; [done | done | done |].
  intros f l pre i Hf Hi. rewrite load64_store64_other; [by apply Hentry |].
  apply slot_disjoint; [by eapply Hframe | by eapply Hframe | done | apply idx_range |].
  left. intros ->. congruence.
Qed.

(** ** Effect of [walk_or_alloc] *)

Record grows K s K' s' : Prop := {
  g_root : PML4_PHYS s' = PML4_PHYS s;
  g_tables : forall f x, K f = Some x -> K' f = Some x;
  g_entry : forall f l pre i, K f = Some (S l, pre) -> 0 <= i < 512 ->
    present (load64 (vm_mem s) (f + 8 * i)) = true ->
    load64 (vm_mem s') (f + 8 * i) = load64 (vm_mem s) (f + 8 * i);
  g_leaf : forall l f v, K f = Some (l, prefix l v) -> small_path (vm_mem s) l f v = true ->
    small_path (vm_mem s') l f v = true /\ leaf (vm_mem s') l f v = leaf (vm_mem s) l f v }.

Lemma grows_refl K s : grows K s K s.
Proof. by split. Qed.

Lemma grows_trans K1 s1 K2 s2 K3 s3 :
  grows K1 s1 K2 s2 -> grows K2 s2 K3 s3 -> grows K1 s1 K3 s3.
Proof.
  intros [R1 T1 E1 L1] [R2 T2 E2 L2]. split.
  - congruence.
  - auto.
  - intros f l pre i Hf Hi Hp. rewrite (E2 f l pre i); [by eapply E1 | by apply T1 | done |].
    by rewrite (E1 f l pre i).
  - intros l f v Hf Hs. destruct (L1 l f v Hf Hs) as [Hs1 <-].
    by apply L2; [apply T1 |].
Qed.

Lemma zeroed_page t m x :
  t <= x < t + 4096 -> zero_page t (Z.to_nat VMM_PAGE_SIZE) m x = 0.
Proof.
  intros Hx. assert (Hn : Z.of_nat (Z.to_nat VMM_PAGE_SIZE) = 4096) by (apply Z2Nat.id; done).
  unfold zero_page. revert Hn. generalize (Z.to_nat VMM_PAGE_SIZE). intros n Hn.
  unfold memset.
  replace x with (t + 0 + (x - t)) by lia. apply memset_in. lia.
Qed.

Lemma kept_page t m x :
  x < t \/ t + 4096 <= x -> zero_page t (Z.to_nat VMM_PAGE_SIZE) m x = m x.
Proof.
  intros Hx. assert (Hn : Z.of_nat (Z.to_nat VMM_PAGE_SIZE) = 4096) by (apply Z2Nat.id; done).
  unfold zero_page. revert Hn. generalize (Z.to_nat VMM_PAGE_SIZE). intros n Hn.
  apply memset_out. lia.
Qed.

(** A new table: the frame [t] zeroed, and installed in slot [f + 8 * i]. *)
Section new_table.
Variables (K : tables) (s : vmm P) (f t i : Z) (l : nat) (pre : Z) (p : P).
Hypothesis Htree : tree K s.
Hypothesis Hf : K f = Some (S l, pre).
Hypothesis Hi : 0 <= i < 512.
Hypothesis Habsent : present (load64 (vm_mem s) (f + 8 * i)) = false.
Hypothesis Hframe : frame t.
Hypothesis Hfree : pa_free (vm_pages s) t.
Hypothesis Hp : pa_wf p.
Hypothesis Hpfree : forall x, pa_free p x <-> pa_free (vm_pages s) x /\ x <> t.

Let m1 := zero_page t (Z.to_nat VMM_PAGE_SIZE) (vm_mem s).
Let m2 := store64 m1 (f + 8 * i) (table_entry t).
Let s' := Vmm m2 (PML4_PHYS s) p.
Let K' : tables := fun x => if x =? t then Some (l, pre * 512 + i) else K x.

Lemma new_not_table : K t = None.
Proof.
  destruct (K t) eqn:E; [| done]. by destruct (tree_frame K s Htree _ _ E).
Qed.

Lemma new_old x k : K x = Some k -> x <> t /\ K' x = Some k.
Proof.
  intros Hx. assert (x <> t) by (intros ->; rewrite new_not_table in Hx; done).
  split; [done |]. unfold K'. by rewrite (proj2 (Z.eqb_neq _ _)).
Qed.

Lemma new_slot_zero j : 0 <= j < 512 -> load64 m2 (t + 8 * j) = 0.
Proof.
  intros Hj. destruct (new_old f _ Hf) as [Hne _].
  pose proof (tree_frame K s Htree _ _ Hf) as [Hff _].
  unfold m2. rewrite load64_store64_other by (apply slot_disjoint; auto).
  apply load64_zero. intros x Hx. apply zeroed_page. lia.
Qed.

Lemma new_slot_old x k j :
  K x = Some k -> 0 <= j < 512 -> x <> f \/ j <> i ->
  load64 m2 (x + 8 * j) = load64 (vm_mem s) (x + 8 * j).
Proof.
  intros Hx Hj Hne. destruct (new_old x _ Hx) as [Hxt _].
  pose proof (tree_frame K s Htree _ _ Hf) as [Hff _].
  pose proof (tree_frame K s Htree _ _ Hx) as [Hxf _].
  unfold m2. rewrite load64_store64_other by (apply slot_disjoint; auto).
  apply load64_ext. intros a Ha. apply kept_page.
  destruct Hxf as (q & Hq & ->), Hframe as (r & Hr & ->). unfold PAGE_SIZE in *. lia.
Qed.

Lemma new_slot : load64 m2 (f + 8 * i) = table_entry t.
Proof. apply load64_store64, table_entry_range, Hframe. Qed.

Lemma new_tree : tree K' s'.
Proof.
  pose proof Htree as [Hroot Hpages Hfr Hentry]. split; simpl.
  - by apply new_old.
  - done.
  - intros x k. unfold K'. destruct (Z.eqb_spec x t) as [-> | Hne].
    + intros _. split; [done |]. rewrite Hpfree. tauto.
    + intros Hx. destruct (Hfr x k Hx). split; [done |]. rewrite Hpfree. tauto.
  - intros x l' pre' j. unfold K' at 1. destruct (Z.eqb_spec x t) as [-> | Hne].
    + intros _ Hj. rewrite new_slot_zero by done. done.
    + intros Hx Hj. destruct (decide (x = f /\ j = i)) as [[-> ->] | Hother].
      * rewrite new_slot. intros _ _. rewrite table_entry_addr by done.
        rewrite Hf in Hx. injection Hx as <- <-. unfold K'. by rewrite Z.eqb_refl.
      * assert (x <> f \/ j <> i) by (destruct (decide (x = f)); [right | left]; tauto).
        rewrite (new_slot_old x _ j Hx Hj) by done. intros Hpr Hh.
        by apply new_old, Hentry.
Qed.

Lemma new_leaf l' x v :
  K x = Some (l', prefix l' v) -> small_path (vm_mem s) l' x v = true ->
  small_path m2 l' x v = true /\ leaf m2 l' x v = leaf (vm_mem s) l' x v.
Proof.
  revert x. induction l' as [| l' IH]; intros x Hx Hs.
  - split; [done |]. simpl. apply (new_slot_old x _ _ Hx (idx_range _ _)).
    left. intros ->. congruence.
  - cbn [small_path leaf] in *. unfold slot.
    destruct (decide (x = f /\ idx (S l') v = i)) as [[-> Ei] | Hother].
    + rewrite Ei, new_slot, table_entry_present, table_entry_small, table_entry_addr by done.
      rewrite Habsent. cbn [negb orb andb].
      destruct l' as [| l']; cbn [small_path leaf]; unfold slot;
        rewrite new_slot_zero by apply idx_range; done.
    + assert (x <> f \/ idx (S l') v <> i) by (destruct (decide (x = f)); [right | left]; tauto).
      rewrite (new_slot_old x _ _ Hx (idx_range _ _)) by done. unfold slot in Hs.
      clear Habsent. destruct (present _) eqn:Hpr; cbn [negb orb andb] in *; [| by split].
      destruct (huge _) eqn:Hh; cbn [negb orb andb] in *; [done |].
      apply IH; [| done]. by apply (tree_next K s x l' v Htree Hx).
Qed.

Lemma new_grows : grows K s K' s'.
Proof.
  split; simpl; [done | by intros; apply new_old | | apply new_leaf].
  intros x l' pre' j Hx Hj Hpr. apply (new_slot_old x _ j Hx Hj).
  destruct (decide (x = f)) as [-> |]; [right | by left]. intros ->. congruence.
Qed.
End new_table.

Lemma table_nonzero K s f x : tree K s -> K f = Some x -> (f =? 0) = false.
Proof.
  intros Ht Hf. destruct (tree_frame K s Ht f x Hf) as [Hfr%frame_mod _].
  apply Z.eqb_neq. lia.
Qed.

(** [walk_or_alloc] reaches the table of the next level, creating it when it
    is missing, or reports that no page is left; no translation changes. *)
Lemma walk_or_alloc_spec K s f l virt t s' :
  tree K s -> K f = Some (S l, prefix (S l) virt) ->
  small_path (vm_mem s) (S l) f virt = true ->
  walk_or_alloc f (idx (S l) virt) s = (t, s') ->
  exists K', tree K' s' /\ grows K s K' s' /\
    (t = 0 -> (pa_alloc (vm_pages s')).1 = 0) /\
    (t <> 0 ->
     K' t = Some (l, prefix l virt) /\
     let e := load64 (vm_mem s') (slot f (S l) virt) in
     present e = true /\ huge e = false /\ Z.land e ADDR_MASK = t).
Proof.
  intros Ht Hf Hs. unfold walk_or_alloc. rewrite land_present, negb_involutive.
  cbn [small_path] in Hs. fold (slot f (S l) virt).
  destruct (present _) eqn:Hp; cbn [negb orb] in Hs.
  - intros [= <- <-]. apply andb_prop in Hs as [Hh _]. breflect.
    pose proof (tree_next K s f l virt Ht Hf Hp Hh) as Hn.
    exists K. split; [done | split; [apply grows_refl | split]].
    + intros H0. pose proof (table_nonzero K s _ _ Ht Hn). by breflect.
    + intros _. by split.
  - destruct (pa_alloc (vm_pages s)) as [a p] eqn:Ea.
    destruct (pa_alloc_law _ _ _ (tree_pages K s Ht) Ea) as [Hwf [[-> ->] | (Hfr & Hfree & Hlaw)]].
    + intros [= <- <-]. exists K. destruct s. split_and!; [done | apply grows_refl | | done].
      intros _. simpl in *. by rewrite Ea.
    + pose proof (frame_mod a Hfr). rewrite (proj2 (Z.eqb_neq a 0)) by lia. intros [= <- <-].
      eexists. split; [by eapply (new_tree K s f a (idx (S l) virt)); eauto using idx_range |].
      split; [by eapply new_grows; eauto using idx_range |]. split; [lia |]. intros _.
      rewrite Z.eqb_refl, <- prefix_step. split; [done |]. cbv zeta. cbn [vm_mem]. fold (table_entry a). unfold slot.
      erewrite new_slot by eauto using idx_range.
      auto using table_entry_present, table_entry_small, table_entry_addr.
Qed.

(** ** The operations on the mapping *)

Lemma walk_readonly_eq f l virt s :
  walk_readonly f (idx l virt) s =
    let e := load64 (vm_mem s) (slot f l virt) in
    if present e then Z.land e ADDR_MASK else 0.
Proof. unfold walk_readonly, slot. rewrite land_present. by destruct (present _). Qed.

Definition pte_phys (e virt : Z) : Z :=
  if present e then Z.land e ADDR_MASK + virt mod 4096 else 0.

(** One level of a read-only walk along a path without huge pages. *)
Lemma readonly_step K s f l virt :
  tree K s -> K f = Some (S l, prefix (S l) virt) ->
  small_path (vm_mem s) (S l) f virt = true ->
  let e := load64 (vm_mem s) (slot f (S l) virt) in
  let t := Z.land e ADDR_MASK in
  present e = false \/
  (present e = true /\ (t =? 0) = false /\ K t = Some (l, prefix l virt) /\
   small_path (vm_mem s) l t virt = true).
Proof.
  intros Ht Hf Hs e t. cbn [small_path] in Hs. fold e in Hs. fold t in Hs.
  destruct (present e) eqn:Hp; [right | by left]. cbn [negb orb] in Hs.
  apply andb_prop in Hs as [Hh Hs]. breflect.
  pose proof (tree_next K s f l virt Ht Hf Hp Hh) as Ht'.
  by pose proof (table_nonzero K s _ _ Ht Ht').
Qed.

Lemma get_physical_leaf K s virt :
  tree K s -> user_range s virt ->
  get_physical virt s = pte_phys (leaf (vm_mem s) 3 (PML4_PHYS s) virt) virt.
Proof.
  intros Ht [Hv Hs]. unfold get_physical.
  change (pml4_index virt) with (idx 3 virt). change (pdpt_index virt) with (idx 2 virt).
  change (pd_index virt) with (idx 1 virt). change (pt_index virt) with (idx 0 virt).
  assert (Hr : K (PML4_PHYS s) = Some (3%nat, prefix 3 virt))
    by (rewrite prefix_top by done; apply (tree_root K s Ht)).
  rewrite !walk_readonly_eq. cbv zeta.
  change (leaf (vm_mem s) 3) with
    (fun f v => if present (load64 (vm_mem s) (slot f 3 v))
                then leaf (vm_mem s) 2 (Z.land (load64 (vm_mem s) (slot f 3 v)) ADDR_MASK) v else 0).
  cbv beta.
  destruct (readonly_step K s _ 2 virt Ht Hr Hs) as [-> | (-> & -> & H2 & S2)]; [done |].
  cbn [leaf].
  destruct (readonly_step K s _ 1 virt Ht H2 S2) as [-> | (-> & -> & H1 & S1)]; [done |].
  destruct (readonly_step K s _ 0 virt Ht H1 S1) as [-> | (-> & -> & H0 & S0)]; [done |].
  rewrite land_present. unfold pte_phys, slot. change 0xFFF with (Z.ones 12).
  rewrite Z.land_ones by lia. change (2 ^ 12) with 4096.
  destruct (present _); [| done]. cbn [negb].
  match goal with |- context [Z.land ?e ADDR_MASK + _] => pose proof (mask_range e) end.
  rewrite u64_small; [done | mod_lia].
Qed.

(** Virtual pages share the whole walk. *)
Lemma leaf_page m l f v v' : v / 4096 = v' / 4096 -> leaf m l f v = leaf m l f v'.
Proof.
  intros Hv. assert (Hi : forall l, idx l v = idx l v').
  { intros k. rewrite !idx_eq. rewrite Z.pow_add_r, <- !Z.div_div by lia.
    change (2 ^ 12) with 4096. by rewrite Hv. }
  revert f. induction l as [| l IH]; intros f; cbn [leaf]; unfold slot; rewrite Hi; [done |].
  by rewrite IH.
Qed.

(** The mapping every address of the user range has. *)
Definition same_mapping s s' : Prop :=
  forall v, user_range s v -> user_range s' v /\ get_physical v s' = get_physical v s.

Lemma grows_same_mapping K s K' s' :
  tree K s -> tree K' s' -> grows K s K' s' -> same_mapping s s'.
Proof.
  intros Ht Ht' [Hr _ _ Hl] v [Hv Hs].
  assert (Hroot : K (PML4_PHYS s) = Some (3%nat, prefix 3 v))
    by (rewrite prefix_top by done; apply (tree_root K s Ht)).
  destruct (Hl 3%nat _ v Hroot Hs) as [Hs' Hleaf].
  assert (Hu : user_range s' v) by (split; [done | by rewrite Hr]).
  split; [done |]. rewrite (get_physical_leaf K' s'), (get_physical_leaf K s) by done.
  by rewrite Hr, Hleaf.
Qed.

(** Storing [pte] in the slot that serves [virt] changes the mapping of the
    page of [virt] and of no other page. *)
Definition remapped s s' virt pte : Prop :=
  forall v, user_range s v -> user_range s' v /\
    get_physical v s' =
      if v / 4096 =? virt / 4096 then pte_phys pte v else get_physical v s.

(** The walk of [virt] from table [f] ends in page table [pt]. *)
Fixpoint reaches (m : mem) (l : nat) (f virt pt : Z) : Prop :=
  match l with
  | O => f = pt
  | S l => let e := load64 m (slot f (S l) virt) in
           present e = true /\ reaches m l (Z.land e ADDR_MASK) virt pt
  end.

Lemma reaches_leaf m l f virt pt : reaches m l f virt pt -> leaf m l f virt = load64 m (slot pt 0 virt).
Proof.
  revert f. induction l as [| l IH]; intros f; cbn [reaches leaf]; [by intros -> |].
  intros [-> H1]. by apply IH.
Qed.

Lemma store_reaches K s pt virt v l f :
  tree K s -> K pt = Some (O, prefix 0 virt) ->
  K f = Some (l, prefix l virt) -> small_path (vm_mem s) l f virt = true ->
  reaches (vm_mem s) l f virt pt ->
  reaches (store64 (vm_mem s) (slot pt 0 virt) v) l f virt pt.
Proof.
  intros Ht Hpt. revert f. induction l as [| l IH]; intros f Hf Hs; cbn [reaches]; [done |].
  intros [Hp Hr]. destruct (readonly_step K s f l virt Ht Hf Hs) as [? | (_ & _ & Hn & Sn)];
    [congruence |].
  assert (Hsame : load64 (store64 (vm_mem s) (slot pt 0 virt) v) (slot f (S l) virt) =
                  load64 (vm_mem s) (slot f (S l) virt)).
  { apply load64_store64_other, slot_disjoint; try apply idx_range;
      try (by eapply (tree_frame K s Ht)). left. intros ->. congruence. }
  rewrite Hsame. split; [done |]. by apply IH.
Qed.

Lemma store_remapped K s pt virt pte :
  tree K s -> user_range s virt -> K pt = Some (O, prefix 0 virt) -> 0 <= pte < 2 ^ 64 ->
  reaches (vm_mem s) 3 (PML4_PHYS s) virt pt ->
  let s' := Vmm (store64 (vm_mem s) (slot pt 0 virt) pte) (PML4_PHYS s) (vm_pages s) in
  tree K s' /\ remapped s s' virt pte.
Proof.
  intros Ht [Hvr Hvs] Hpt Hpte Hreach s'.
  pose proof (store_leaf_tree K s pt virt pte Ht Hpt) as Ht'. fold s' in Ht'.
  split; [done |]. intros v [Hv Hs].
  assert (Hroot : forall v, 0 <= v < 2 ^ 48 -> K (PML4_PHYS s) = Some (3%nat, prefix 3 v))
    by (intros ??; rewrite prefix_top by done; apply (tree_root K s Ht)).
  destruct (store_leaf_leaf K s pt virt pte 3 _ v Ht Hpt Hpte (Hroot v Hv) Hs) as [Hs' Hl].
  assert (Hu : user_range s' v) by done. split; [done |].
  rewrite (get_physical_leaf K s') by done.
  destruct (Z.eqb_spec (v / 4096) (virt / 4096)) as [Heq | Hne].
  - rewrite (leaf_page _ 3 _ v virt Heq). f_equal.
    rewrite (reaches_leaf _ 3 _ virt pt) by
      (by apply (store_reaches K s pt virt pte 3 _ Ht Hpt (Hroot virt Hvr))).
    by apply load64_store64.
  - rewrite (get_physical_leaf K s) by done. f_equal. by apply Hl.
Qed.

Lemma same_mapping_trans s1 s2 s3 :
  same_mapping s1 s2 -> same_mapping s2 s3 -> same_mapping s1 s3.
Proof.
  intros H1 H2 v Hv. destruct (H1 v Hv) as [Hv2 <-]. by apply H2.
Qed.

(** The three levels [map_page] walks. *)
Lemma walk_three K s virt pdpt s1 pd s2 pt s3 :
  tree K s -> user_range s virt ->
  walk_or_alloc (PML4_PHYS s) (pml4_index virt) s = (pdpt, s1) -> pdpt <> 0 ->
  walk_or_alloc pdpt (pdpt_index virt) s1 = (pd, s2) -> pd <> 0 ->
  walk_or_alloc pd (pd_index virt) s2 = (pt, s3) -> pt <> 0 ->
  exists K', tree K' s3 /\ grows K s K' s3 /\ K' pt = Some (O, prefix 0 virt) /\
    reaches (vm_mem s3) 3 (PML4_PHYS s3) virt pt.
Proof.
  intros Ht [Hv Hs] E1 N1 E2 N2 E3 N3.
  assert (Hr : K (PML4_PHYS s) = Some (3%nat, prefix 3 virt))
    by (rewrite prefix_top by done; apply (tree_root K s Ht)).
  destruct (walk_or_alloc_spec K s _ 2 virt _ _ Ht Hr Hs E1) as (K1 & T1 & G1 & _ & H1).
  destruct (H1 N1) as (R1 & P1 & Q1 & A1). clear H1.
  assert (S1 : small_path (vm_mem s1) 2 pdpt virt = true).
  { destruct (g_leaf _ _ _ _ G1 3%nat _ virt Hr Hs) as [S1 _]. cbn [small_path] in S1.
    rewrite P1, Q1, A1 in S1. exact S1. }
  destruct (walk_or_alloc_spec K1 s1 _ 1 virt _ _ T1 R1 S1 E2) as (K2 & T2 & G2 & _ & H2).
  destruct (H2 N2) as (R2 & P2 & Q2 & A2). clear H2.
  assert (S2 : small_path (vm_mem s2) 1 pd virt = true).
  { destruct (g_leaf _ _ _ _ G2 2%nat _ virt R1 S1) as [S2 _]. cbn [small_path] in S2.
    rewrite P2, Q2, A2 in S2. exact S2. }
  destruct (walk_or_alloc_spec K2 s2 _ 0 virt _ _ T2 R2 S2 E3) as (K3 & T3 & G3 & _ & H3).
  destruct (H3 N3) as (R3 & P3 & Q3 & A3). clear H3.
  pose proof (grows_trans _ _ _ _ _ _ G2 G3) as G23.
  exists K3. split_and!; [done | by apply (grows_trans _ _ _ _ _ _ G1 G23) | done |].
  pose proof (g_tables _ _ _ _ G1 _ _ Hr) as Hr1.
  pose proof (g_tables _ _ _ _ G2 _ _ R1) as R2'.
  cbn [reaches]. rewrite (g_root _ _ _ _ G23), (g_root _ _ _ _ G1). unfold slot in *.
  rewrite (g_entry _ _ _ _ G23 _ _ _ _ Hr1 (idx_range 3 virt)), P1, A1 by done.
  rewrite (g_entry _ _ _ _ G3 _ _ _ _ R2' (idx_range 2 virt)), P2, A2 by done.
  by rewrite P3, A3.
Qed.

(** A walk that runs out of pages leaves every mapping as it was. *)
Definition out_of_pages s s' : Prop := (pa_alloc (vm_pages s')).1 = 0 /\ same_mapping s s'.

Lemma remapped_after s1 s2 s3 virt pte :
  same_mapping s1 s2 -> remapped s2 s3 virt pte -> remapped s1 s3 virt pte.
Proof.
  intros H1 H2 v Hv. destruct (H1 v Hv) as [Hv2 <-]. by apply H2.
Qed.

Lemma pte_range phys flags :
  0 <= Z.lor (Z.land phys ADDR_MASK) (Z.land flags 0xFFF) < 2 ^ 64.
Proof.
  pose proof (mask_range phys). apply (lor_bound 64); [lia | lia |].
  pose proof (land_bound_l 12 0xFFF flags ltac:(lia) ltac:(lia)) as Hf.
  rewrite Z.land_comm in Hf. lia.
Qed.

(** One walk of [map_page] that fails. *)
Lemma walk_fails K s f l virt s' :
  tree K s -> K f = Some (S l, prefix (S l) virt) ->
  small_path (vm_mem s) (S l) f virt = true ->
  walk_or_alloc f (idx (S l) virt) s = (0, s') -> wf s' /\ out_of_pages s s'.
Proof.
  intros Ht Hf Hs E.
  destruct (walk_or_alloc_spec K s f l virt 0 s' Ht Hf Hs E) as (K' & T' & G & H0 & _).
  split; [by exists K' |]. split; [by apply H0 | by apply (grows_same_mapping K s K' s')].
Qed.

(** One walk of [map_page] that succeeds: the next table is ready. *)
Lemma walk_succeeds K s f l virt t s' :
  tree K s -> K f = Some (S l, prefix (S l) virt) ->
  small_path (vm_mem s) (S l) f virt = true ->
  walk_or_alloc f (idx (S l) virt) s = (t, s') -> t <> 0 ->
  exists K', tree K' s' /\ same_mapping s s' /\
    K' t = Some (l, prefix l virt) /\ small_path (vm_mem s') l t virt = true.
Proof.
  intros Ht Hf Hs E Hne.
  destruct (walk_or_alloc_spec K s f l virt t s' Ht Hf Hs E) as (K' & T' & G & _ & H1).
  destruct (H1 Hne) as (Hk & Hp & Hh & Ha).
  exists K'. split_and!; [done | by apply (grows_same_mapping K s K' s') | done |].
  destruct (g_leaf _ _ _ _ G (S l) f virt Hf Hs) as [S1 _]. cbn [small_path] in S1.
  by rewrite Hp, Hh, Ha in S1.
Qed.

Lemma out_of_pages_after s1 s2 s3 :
  same_mapping s1 s2 -> out_of_pages s2 s3 -> out_of_pages s1 s3.
Proof. intros H1 [H2 H3]. split; [done | by apply (same_mapping_trans s1 s2 s3)]. Qed.

Lemma map_page_spec s virt phys flags :
  wf s -> user_range s virt ->
  let pte := Z.lor (Z.land phys ADDR_MASK) (Z.land flags 0xFFF) in
  let s' := map_page virt phys flags s in
  wf s' /\ (remapped s s' virt pte \/ out_of_pages s s').
Proof.
  intros [K Ht] Hu pte s'. pose proof Hu as [Hv Hs].
  assert (Hr : K (PML4_PHYS s) = Some (3%nat, prefix 3 virt))
    by (rewrite prefix_top by done; apply (tree_root K s Ht)).
  unfold s', map_page. clear s'.
  destruct (walk_or_alloc (PML4_PHYS s) _ s) as [pdpt s1] eqn:E1.
  destruct (Z.eqb_spec pdpt 0) as [-> | N1].
  { destruct (walk_fails K s _ 2 virt _ Ht Hr Hs E1) as [? ?]. tauto. }
  destruct (walk_succeeds K s _ 2 virt _ _ Ht Hr Hs E1 N1) as (K1 & T1 & M1 & R1 & S1).
  destruct (walk_or_alloc pdpt _ s1) as [pd s2] eqn:E2.
  destruct (Z.eqb_spec pd 0) as [-> | N2].
  { destruct (walk_fails K1 s1 _ 1 virt _ T1 R1 S1 E2) as [? Ho].
    apply (out_of_pages_after _ _ _ M1) in Ho. tauto. }
  destruct (walk_succeeds K1 s1 _ 1 virt _ _ T1 R1 S1 E2 N2) as (K2 & T2 & M2 & R2 & S2).
  pose proof (same_mapping_trans _ _ _ M1 M2) as M12.
  destruct (walk_or_alloc pd _ s2) as [pt s3] eqn:E3.
  destruct (Z.eqb_spec pt 0) as [-> | N3].
  { destruct (walk_fails K2 s2 _ 0 virt _ T2 R2 S2 E3) as [? Ho].
    apply (out_of_pages_after _ _ _ M12) in Ho. tauto. }
  destruct (walk_three K s virt _ _ _ _ _ _ Ht Hu E1 N1 E2 N2 E3 N3)
    as (K3 & T3 & G3 & R3 & Hreach).
  pose proof (grows_same_mapping _ _ _ _ Ht T3 G3) as M3.
  destruct (store_remapped K3 s3 pt virt pte T3) as [T4 M4]; [apply (M3 virt Hu) | done | | done |].
  { apply pte_range. }
  split; [by exists K3 | left]. by apply (remapped_after s s3).
Qed.

(** ** Where [map_page] writes

    The byte ranges it stores to, compared with [lo, hi): a new table, the entry
    that installs it, and the entry of the page. *)
Definition meets (lo hi a n : Z) : bool := Z.max lo a <? Z.min hi (a + n).

Definition walk_writes (lo hi table index : Z) (s : vmm P) : bool :=
  let t := (pa_alloc (vm_pages s)).1 in
  negb (present (load64 (vm_mem s) (table + 8 * index))) && negb (t =? 0) &&
  (meets lo hi t VMM_PAGE_SIZE || meets lo hi (table + 8 * index) 8).

Definition map_writes (lo hi virt : Z) (s : vmm P) : bool :=
  let '(pdpt, s1) := walk_or_alloc (PML4_PHYS s) (pml4_index virt) s in
  walk_writes lo hi (PML4_PHYS s) (pml4_index virt) s || negb (pdpt =? 0) &&
  (let '(pd, s2) := walk_or_alloc pdpt (pdpt_index virt) s1 in
   walk_writes lo hi pdpt (pdpt_index virt) s1 || negb (pd =? 0) &&
   (let '(pt, s3) := walk_or_alloc pd (pd_index virt) s2 in
    walk_writes lo hi pd (pd_index virt) s2 || negb (pt =? 0) && meets lo hi (pt + 8 * pt_index virt) 8)).

Definition kept (lo hi : Z) (m m' : mem) : Prop := forall x, lo <= x < hi -> m' x = m x.

Lemma kept_trans lo hi m1 m2 m3 : kept lo hi m1 m2 -> kept lo hi m2 m3 -> kept lo hi m1 m3.
Proof. intros H1 H2 x Hx. by rewrite H2, H1. Qed.

Lemma meets_false lo hi a n x : meets lo hi a n = false -> lo <= x < hi -> x < a \/ a + n <= x.
Proof. unfold meets. intros Hm%Z.ltb_ge Hx. lia. Qed.
Lemma meets_out lo hi a n : 0 <= n -> a + n <= lo \/ hi <= a -> meets lo hi a n = false.
Proof. intros Hn Ha. apply Z.ltb_ge. lia. Qed.
Lemma meets_empty lo hi a n : hi <= lo -> meets lo hi a n = false.
Proof. intros Hh. apply Z.ltb_ge. lia. Qed.

Lemma store_kept lo hi m a v : meets lo hi a 8 = false -> kept lo hi m (store64 m a v).
Proof.
  intros Ha x Hx. pose proof (meets_false _ _ _ _ x Ha Hx) as Hout. unfold store64.
  destruct (Z.leb_spec a x), (Z.ltb_spec x (a + 8)); cbn [andb]; done || lia.
Qed.

Lemma walk_writes_kept lo hi table index s t s' : walk_or_alloc table index s = (t, s') ->
  walk_writes lo hi table index s = false -> kept lo hi (vm_mem s) (vm_mem s').
Proof.
  unfold walk_or_alloc, walk_writes. rewrite land_present, negb_involutive.
  destruct (present _); cbn [negb andb]; [by intros [= <- <-] |].
  destruct (pa_alloc (vm_pages s)) as [a p]. cbn [fst]. destruct (a =? 0); cbn [negb andb]; [by intros [= <- <-] |].
  intros [= <- <-] [Hz Hs]%orb_false_elim x Hx. cbn [vm_mem]. rewrite (store_kept lo hi _ _ _ Hs x Hx).
  apply kept_page. pose proof (meets_false _ _ _ _ x Hz Hx). unfold VMM_PAGE_SIZE in *. lia.
Qed.

(** What [map_writes] does not announce is not written. *)
Lemma map_writes_kept lo hi virt phys flags s :
  map_writes lo hi virt s = false -> kept lo hi (vm_mem s) (vm_mem (map_page virt phys flags s)).
Proof.
  unfold map_writes, map_page. destruct (walk_or_alloc (PML4_PHYS s) _ s) as [pdpt s1] eqn:E1.
  intros [W1 H1]%orb_false_elim. pose proof (walk_writes_kept _ _ _ _ _ _ _ E1 W1) as M1.
  destruct (pdpt =? 0); [done |]. cbn [negb andb] in H1. revert H1.
  destruct (walk_or_alloc pdpt _ s1) as [pd s2] eqn:E2.
  intros [W2 H2]%orb_false_elim. pose proof (kept_trans _ _ _ _ _ M1 (walk_writes_kept _ _ _ _ _ _ _ E2 W2)) as M2.
  destruct (pd =? 0); [done |]. cbn [negb andb] in H2. revert H2.
  destruct (walk_or_alloc pd _ s2) as [pt s3] eqn:E3.
  intros [W3 H3]%orb_false_elim. pose proof (kept_trans _ _ _ _ _ M2 (walk_writes_kept _ _ _ _ _ _ _ E3 W3)) as M3.
  destruct (pt =? 0); [done |]. cbn [negb andb] in H3. cbn [vm_mem].
  exact (kept_trans _ _ _ _ _ M3 (store_kept _ _ _ _ _ H3)).
Qed.

Lemma map_writes_empty lo hi virt s : hi <= lo -> map_writes lo hi virt s = false.
Proof.
  intros Hh. assert (Hw : forall t i v, walk_writes lo hi t i v = false).
  { intros t i v. unfold walk_writes. rewrite !meets_empty by done. apply andb_false_r. }
  unfold map_writes. repeat (destruct (walk_or_alloc _ _ _) as [? ?]; rewrite Hw; cbn [orb]; destruct (_ =? 0); [done |]; cbn [negb andb]).
  by apply meets_empty.
Qed.

(** ** Memory that holds no table

    [lo, hi) is clear of the tables and of the frames that could become one: no
    mapping of an address that 4 KB tables serve changes a byte of it. *)
Record sheltered (lo hi : Z) (K : tables) s : Prop := {
  sh_tables : forall f x, K f = Some x -> f + 4096 <= lo \/ hi <= f;
  sh_free : forall f, pa_free (vm_pages s) f -> f + 4096 <= lo \/ hi <= f }.

Lemma walk_keeps lo hi K s f l virt t s' :
  tree K s -> sheltered lo hi K s -> K f = Some (S l, prefix (S l) virt) ->
  small_path (vm_mem s) (S l) f virt = true ->
  walk_or_alloc f (idx (S l) virt) s = (t, s') ->
  walk_writes lo hi f (idx (S l) virt) s = false /\
  exists K', tree K' s' /\ sheltered lo hi K' s' /\
    (t <> 0 -> K' t = Some (l, prefix l virt) /\ small_path (vm_mem s') l t virt = true).
Proof.
  intros Ht Hsh Hf Hs E. pose proof (sh_tables _ _ _ _ Hsh f _ Hf) as Hfa. pose proof (idx_range (S l) virt) as Hi.
  assert (Hw : walk_writes lo hi f (idx (S l) virt) s = false).
  { unfold walk_writes. destruct (present _); [done |]. cbn [negb andb].
    rewrite (meets_out lo hi (f + _)) by lia. rewrite orb_false_r.
    destruct (pa_alloc (vm_pages s)) as [a p] eqn:Ea. cbn [fst].
    destruct (pa_alloc_law _ _ _ (tree_pages K s Ht) Ea) as [_ [[-> _] | (_ & Hfree & _)]]; [done |].
    pose proof (sh_free _ _ _ _ Hsh a Hfree). rewrite meets_out by (unfold VMM_PAGE_SIZE; lia). apply andb_false_r. }
  split; [exact Hw |]. revert E. unfold walk_or_alloc. rewrite land_present, negb_involutive. pose proof Hs as Hs0.
  cbn [small_path] in Hs. fold (slot f (S l) virt). destruct (present _) eqn:Hp; cbn [negb orb] in Hs.
  - intros [= <- <-]. apply andb_prop in Hs as [Hh Hl]. breflect.
    exists K. split; [done |]. split; [done |]. intros _. split; [by apply tree_next | done].
  - destruct (pa_alloc (vm_pages s)) as [a p] eqn:Ea.
    destruct (pa_alloc_law _ _ _ (tree_pages K s Ht) Ea) as [Hwf [[-> ->] | (Hfr & Hfree & Hlaw)]].
    { intros [= <- <-]. exists K. destruct s. by split_and!. }
    pose proof (frame_mod a Hfr). rewrite (proj2 (Z.eqb_neq a 0)) by lia. intros [= <- <-]. eexists.
    split; [by eapply (new_tree K s f a (idx (S l) virt)); eauto |].
    pose proof (sh_free _ _ _ _ Hsh a Hfree) as Ha. split; [split |].
    + intros x y. cbn. case_if; breflect; [intros _; lia | apply (sh_tables _ _ _ _ Hsh)].
    + intros x Hx. apply Hlaw in Hx as [Hx _]. by apply (sh_free _ _ _ _ Hsh).
    + intros _. cbn. rewrite Z.eqb_refl, <- prefix_step. split; [done |]. fold (table_entry a).
      assert (G : grows K s (fun x => if x =? a then Some (l, prefix (S l) virt * 512 + idx (S l) virt) else K x)
        (Vmm (store64 (zero_page a (Z.to_nat VMM_PAGE_SIZE) (vm_mem s)) (f + 8 * idx (S l) virt) (table_entry a)) (PML4_PHYS s) p))
        by (by eapply new_grows; eauto).
      destruct (g_leaf _ _ _ _ G (S l) f virt Hf Hs0) as [S1 _]. cbn [small_path vm_mem] in S1. unfold slot in S1.
      erewrite new_slot in S1 by eauto. by rewrite table_entry_present, table_entry_small, table_entry_addr in S1.
Qed.

(** In sheltered memory nothing is written, and it stays sheltered. *)
Lemma map_page_keeps lo hi K s virt phys flags :
  tree K s -> sheltered lo hi K s -> user_range s virt ->
  let s' := map_page virt phys flags s in
  map_writes lo hi virt s = false /\ exists K', tree K' s' /\ sheltered lo hi K' s'.
Proof.
  intros Ht Hsh [Hv Hs] s'.
  assert (Hr : K (PML4_PHYS s) = Some (3%nat, prefix 3 virt))
    by (rewrite prefix_top by done; apply (tree_root K s Ht)).
  unfold s', map_page, map_writes. clear s'.
  destruct (walk_or_alloc (PML4_PHYS s) _ s) as [pdpt s1] eqn:E1.
  destruct (walk_keeps lo hi K s _ 2 virt _ _ Ht Hsh Hr Hs E1) as (W1 & K1 & T1 & H1 & N1).
  change (pml4_index virt) with (idx 3 virt). rewrite W1.
  destruct (Z.eqb_spec pdpt 0) as [-> | Z1]; [split; [done | by exists K1] |]. destruct (N1 Z1) as [R1 S1]. cbn [orb negb andb].
  destruct (walk_or_alloc pdpt _ s1) as [pd s2] eqn:E2.
  destruct (walk_keeps lo hi K1 s1 _ 1 virt _ _ T1 H1 R1 S1 E2) as (W2 & K2 & T2 & H2 & N2).
  change (pdpt_index virt) with (idx 2 virt). rewrite W2.
  destruct (Z.eqb_spec pd 0) as [-> | Z2]; [split; [done | by exists K2] |]. destruct (N2 Z2) as [R2 S2]. cbn [orb negb andb].
  destruct (walk_or_alloc pd _ s2) as [pt s3] eqn:E3.
  destruct (walk_keeps lo hi K2 s2 _ 0 virt _ _ T2 H2 R2 S2 E3) as (W3 & K3 & T3 & H3 & N3).
  change (pd_index virt) with (idx 1 virt). rewrite W3.
  destruct (Z.eqb_spec pt 0) as [-> | Z3]; [split; [done | by exists K3] |]. destruct (N3 Z3) as [R3 _]. cbn [orb negb andb].
  pose proof (sh_tables _ _ _ _ H3 pt _ R3). pose proof (idx_range 0 virt).
  change (pt_index virt) with (idx 0 virt). split; [apply meets_out; lia |].
  exists K3. split; [by eapply (store_leaf_tree K3 s3 pt virt) |]. by destruct H3; split.
Qed.

(** The state after the frame allocator has been asked. *)
Definition taken s : vmm P := Vmm (vm_mem s) (PML4_PHYS s) (pa_alloc (vm_pages s)).2.

Lemma taken_keeps lo hi K s : tree K s -> sheltered lo hi K s -> tree K (taken s) /\ sheltered lo hi K (taken s).
Proof.
  intros Ht Hsh. unfold taken. destruct (pa_alloc (vm_pages s)) as [a p] eqn:Ea. cbn [snd].
  destruct (pa_alloc_law _ _ _ (tree_pages K s Ht) Ea) as [Hwf Hcase].
  assert (Hsub : forall f, pa_free p f -> pa_free (vm_pages s) f).
  { intros f Hf. destruct Hcase as [[_ ->] | (_ & _ & Hl)]; [done |]. by apply Hl in Hf as []. }
  destruct Ht as [Hr Hp Hf He], Hsh as [H1 H2]. split; split; try done.
  - intros f x Hx. destruct (Hf f x Hx) as [Hfr Hno]. split; [done |]. intros Hfree. by apply Hno, Hsub.
  - intros f Hfree. by apply H2, Hsub.
Qed.

(** What [unmap_page] and [get_physical] reach. *)
Lemma readonly_three K s virt :
  tree K s -> user_range s virt ->
  let pdpt := walk_readonly (PML4_PHYS s) (pml4_index virt) s in
  let pd := walk_readonly pdpt (pdpt_index virt) s in
  let pt := walk_readonly pd (pd_index virt) s in
  leaf (vm_mem s) 3 (PML4_PHYS s) virt = 0 /\ (pdpt = 0 \/ pdpt <> 0 /\ pd = 0 \/ pd <> 0 /\ pt = 0) \/
  pdpt <> 0 /\ pd <> 0 /\ pt <> 0 /\ K pt = Some (O, prefix 0 virt) /\
  reaches (vm_mem s) 3 (PML4_PHYS s) virt pt.
Proof.
  intros Ht [Hv Hs].
  assert (Hr : K (PML4_PHYS s) = Some (3%nat, prefix 3 virt))
    by (rewrite prefix_top by done; apply (tree_root K s Ht)).
  change (pml4_index virt) with (idx 3 virt). change (pdpt_index virt) with (idx 2 virt).
  change (pd_index virt) with (idx 1 virt).
  cbv zeta. rewrite !walk_readonly_eq. cbv zeta. cbn [leaf reaches].
  destruct (readonly_step K s _ 2 virt Ht Hr Hs) as [-> | (-> & N2 & H2 & S2)]; [by left; auto |].
  destruct (readonly_step K s _ 1 virt Ht H2 S2) as [-> | (-> & N1 & H1 & S1)];
    [left; breflect; auto |].
  destruct (readonly_step K s _ 0 virt Ht H1 S1) as [-> | (-> & N0 & H0 & S0)];
    [left; breflect; auto |].
  right. breflect. auto 10.
Qed.

(** After [unmap_page] the page of [virt] has no translation, every other
    address keeps its own, and the tables stay a tree. *)
Theorem unmap_page_correct s virt :
  wf s -> user_range s virt ->
  let s' := unmap_page virt s in
  wf s' /\ remapped s s' virt 0.
Proof.
  intros [K Ht] Hu s'. unfold s', unmap_page. clear s'.
  destruct (readonly_three K s virt Ht Hu) as [[Hleaf Hnull] | (N1 & N2 & N3 & R & Hreach)].
  - assert (Hid : remapped s s virt 0).
    { intros v Hv. split; [done |]. destruct (Z.eqb_spec (v / 4096) (virt / 4096)) as [E |]; [| done].
      rewrite (get_physical_leaf K) by done. by rewrite (leaf_page _ 3 _ v virt E), Hleaf. }
    destruct (Z.eqb_spec (walk_readonly (PML4_PHYS s) (pml4_index virt) s) 0); [by split; [exists K |] |].
    destruct (_ =? 0) eqn:E2; [by split; [exists K |] |]. breflect.
    destruct (_ =? 0) eqn:E3; [by split; [exists K |] |]. breflect. tauto.
  - rewrite !(proj2 (Z.eqb_neq _ 0)) by done.
    destruct (store_remapped K s _ virt 0 Ht Hu R ltac:(lia) Hreach) as [T M].
    split; [by exists K | done].
Qed.
End effects.

(** ** The boot loader's huge pages

    [boot.s] maps the first 4 GB with 2 MB pages.  [walk_or_alloc] does not
    look at the page-size bit, so for an address whose directory entry maps a
    2 MB page it takes that page for a page table: [map_page] writes the new
    entry into the data of the page. *)
Lemma map_page_huge_page {P} `{PageAllocator P} (s : vmm P) virt phys flags e3 e2 e1 :
  load64 (vm_mem s) (PML4_PHYS s + 8 * pml4_index virt) = e3 -> present e3 = true ->
  load64 (vm_mem s) (Z.land e3 ADDR_MASK + 8 * pdpt_index virt) = e2 -> present e2 = true ->
  load64 (vm_mem s) (Z.land e2 ADDR_MASK + 8 * pd_index virt) = e1 -> present e1 = true ->
  Z.land e3 ADDR_MASK <> 0 -> Z.land e2 ADDR_MASK <> 0 -> Z.land e1 ADDR_MASK <> 0 ->
  vm_mem (map_page virt phys flags s) =
    store64 (vm_mem s) (Z.land e1 ADDR_MASK + 8 * pt_index virt)
      (Z.lor (Z.land phys ADDR_MASK) (Z.land flags 0xFFF)).
Proof.
  intros E3 P3 E2 P2 E1 P1 N3 N2 N1. unfold map_page, walk_or_alloc.
  rewrite E3, land_present, P3. cbn [negb]. rewrite (proj2 (Z.eqb_neq _ 0) N3).
  rewrite E2, land_present, P2. cbn [negb]. rewrite (proj2 (Z.eqb_neq _ 0) N2).
  rewrite E1, land_present, P1. cbn [negb]. by rewrite (proj2 (Z.eqb_neq _ 0) N1).
Qed.

(** The address of the 2 MB page that the walk of [virt] meets, if it does. *)
Definition huge_page {P} (virt : Z) (s : vmm P) : option Z :=
  let pdpt := walk_readonly (PML4_PHYS s) (pml4_index virt) s in
  let pd := walk_readonly pdpt (pdpt_index virt) s in
  let e := load64 (vm_mem s) (pd + 8 * pd_index virt) in
  if (pdpt =? 0) || huge (load64 (vm_mem s) (pdpt + 8 * pdpt_index virt)) || (pd =? 0) || negb (present e && huge e)
  then None else Some (Z.land e ADDR_MASK).

Lemma walk_present {P} `{PageAllocator P} (s : vmm P) table index t : walk_readonly table index s = t -> t <> 0 ->
  walk_or_alloc table index s = (t, s).
Proof.
  unfold walk_readonly, walk_or_alloc. rewrite land_present. destruct (present _); cbn [negb]; [by intros -> |].
  by intros <- Hn.
Qed.

Lemma map_page_huge {P} `{PageAllocator P} (s : vmm P) virt phys flags b : huge_page virt s = Some b ->
  map_page virt phys flags s = if b =? 0 then s else
    Vmm (store64 (vm_mem s) (b + 8 * pt_index virt) (Z.lor (Z.land phys ADDR_MASK) (Z.land flags 0xFFF)))
      (PML4_PHYS s) (vm_pages s).
Proof.
  unfold huge_page. set (pdpt := walk_readonly _ _ _). set (pd := walk_readonly pdpt _ _).
  destruct (Z.eqb_spec pdpt 0) as [| N3]; [done |]. cbn [orb]. destruct (huge _); [done |]. cbn [orb].
  destruct (Z.eqb_spec pd 0) as [| N2]; [done |]. cbn [orb].
  destruct (present (load64 (vm_mem s) (pd + 8 * pd_index virt))) eqn:E; [| done]. cbn [andb].
  destruct (huge _); [| done]. cbn [negb]. intros [= <-]. unfold map_page.
  rewrite (walk_present s _ _ pdpt) by done. rewrite (proj2 (Z.eqb_neq pdpt 0)) by done.
  rewrite (walk_present s _ _ pd) by done. rewrite (proj2 (Z.eqb_neq pd 0)) by done.
  unfold walk_or_alloc. rewrite land_present, E. cbn [negb]. by case_if.
Qed.

(** C6: where the walk of the address meets 4 KB tables only, [map_page] keeps the
    tables a tree and makes [get_physical] answer the new frame for exactly the
    addresses of the page it maps; every other address that 4 KB tables serve keeps
    its translation.  When it creates a table it is zeroed first, so no stale entry
    becomes visible.  When the frame allocator is exhausted no translation changes.
    Where the walk meets one of the 2 MB pages of the boot loader, that is, below
    4 GB in this kernel, the entry does not reach a table: it is written over the
    data of the 2 MB page, 8 bytes for each page of its first 4 KB (at the physical
    address 0, nothing is written), and no frame is taken. *)
Theorem map_page_correct {P} `{PageAllocator P} (s : vmm P) virt phys flags :
  let pte := Z.lor (Z.land phys ADDR_MASK) (Z.land flags 0xFFF) in
  let s' := map_page virt phys flags s in
  (wf s -> user_range s virt -> wf s' /\ (remapped s s' virt pte \/ out_of_pages s s')) /\
  (forall b, huge_page virt s = Some b ->
     s' = if b =? 0 then s else Vmm (store64 (vm_mem s) (b + 8 * pt_index virt) pte) (PML4_PHYS s) (vm_pages s)).
Proof.
  split; [exact (map_page_spec s virt phys flags) | exact (map_page_huge s virt phys flags)].
Qed.

(** ** Witnesses *)

(** An empty root table in frame 1; frames 2 to 15 are free. *)
Definition few_free : pmm :=
  Pmm (0xFFFF0003 :: replicate (Z.to_nat 32767) 0xFFFFFFFF) 0 (zeros32 0xFFFF0003).
Definition empty_tables : vmm pmm := Vmm (fun _ => 0) 0x1000 few_free.

Lemma few_free_ok : alloc_ok few_free.
Proof.
  split; [apply (one_clear_wf 0xFFFF0003); [unfold word_ok; lia | reflexivity] | reflexivity].
Qed.

Lemma empty_tables_wf : wf empty_tables.
Proof.
  exists (fun f => if f =? 0x1000 then Some (3%nat, 0) else None). split; simpl.
  - done.
  - apply few_free_ok.
  - intros f x. destruct (Z.eqb_spec f 0x1000) as [-> |]; [| done]. intros _.
    split; [by exists 1 | intros [_ Hf]; by vm_compute in Hf].
  - intros f l pre i. unfold load64, present. simpl. done.
Qed.

Lemma empty_tables_range virt : 0 <= virt < 2 ^ 48 -> user_range empty_tables virt.
Proof. intros Hv. by split. Qed.

(** The boot loader's tables as far as [0x400000] needs them, at frames 1 to 3. *)
Definition boot_like : vmm pmm :=
  Vmm (store64 (store64 (store64 (fun _ => 0) 0x1000 0x2003) 0x2000 0x3003) 0x3010 0x400083) 0x1000 few_free.

Lemma map_page_correct_witness :
  (let s' := map_page 0x7654321000 0xABC000 3 empty_tables in
   wf s' /\ get_physical 0x7654321FED s' = 0xABCFED) /\
  vm_mem (map_page 0x500000 0xABC000 3 boot_like) 0x400801 = 0xC0.
Proof.
  split.
  - destruct (map_page_correct empty_tables 0x7654321000 0xABC000 3) as [H _].
    destruct H as [Hwf [Hm | [Hoom _]]]; [apply empty_tables_wf | apply empty_tables_range; lia | | by vm_compute in Hoom].
    split; [exact Hwf |].
    destruct (Hm 0x7654321FED) as [_ E]; [apply empty_tables_range; lia |]. exact E.
  - destruct (map_page_correct boot_like 0x500000 0xABC000 3) as [_ H].
    rewrite (H 0x400000 ltac:(vm_compute; reflexivity)). reflexivity.
Defined.

Lemma unmap_page_correct_witness :
  let s' := unmap_page 0x5000 (map_page 0x5000 0xABC000 3 empty_tables) in
  wf s' /\ get_physical 0x5123 s' = 0.
Proof.
  destruct (map_page_spec empty_tables 0x5000 0xABC000 3) as [Hwf [Hm | [Hoom _]]];
    [apply empty_tables_wf | apply empty_tables_range; lia | | by vm_compute in Hoom].
  destruct (Hm 0x5000) as [Hu _]; [apply empty_tables_range; lia |].
  destruct (Hm 0x5123) as [Hu' _]; [apply empty_tables_range; lia |].
  destruct (unmap_page_correct _ 0x5000 Hwf Hu) as [Hwf' Hun].
  split; [exact Hwf' |]. destruct (Hun 0x5123 Hu') as [_ E]. exact E.
Defined.
