(* ===== verification/Heap.v ===== *)
(** Kernel heap ([src/src/heap.rs]).

    The allocator threads a list of block headers through the memory it
    manages.  Its state is the store of headers (address to header), the list
    head, the page count, the lock with the processor flags, and the virtual
    memory state that [expand_heap] extends.  The refinement lemmas relate the
    pointer-level routines to functions on lists of blocks; the theorems are
    stated on the blocks a state represents. *)
From S2P Require Import Prelude Pmm Sync Vmm.

Definition HEAP_START : Z := 0x00500000.
Definition HEAP_INITIAL_PAGES : Z := 256.
Definition HEAP_MAX_PAGES : Z := 16384.
Definition MIN_SPLIT : Z := 16.

Record BlockHeader := { bh_size : Z; is_free : Z; next : Z }.

Definition HEADER_SIZE : Z := 16.

(** The headers in memory. *)
Abbreviation store := (gmap Z BlockHeader).

Section code.
Context {P : Type} `{PageAllocator P}.

Record heap := Heap {
  hdrs : store; HEAP_HEAD : Z; HEAP_PAGES : Z;
  HEAP_LOCK : Spinlock; rflags : Z; vm : vmm P }.

Definition set_hdrs (hs : store) (h : heap) : heap :=
  Heap hs (HEAP_HEAD h) (HEAP_PAGES h) (HEAP_LOCK h) (rflags h) (vm h).
Definition lock_heap (h : heap) : heap :=
  let '(l, f) := Spinlock_lock (HEAP_LOCK h) (rflags h) in
  Heap (hdrs h) (HEAP_HEAD h) (HEAP_PAGES h) l f (vm h).
Definition unlock_heap (h : heap) : heap :=
  let '(l, f) := Spinlock_unlock (HEAP_LOCK h) (rflags h) in
  Heap (hdrs h) (HEAP_HEAD h) (HEAP_PAGES h) l f (vm h).

(** [for i in 0..pages]; [n] iterations are left, [mapped] are done.

    The blocks lie in the memory [map_page] writes to: under the boot loader's 2 MB
    pages the entries of the heap's own pages go into the first 4 KB of those 2 MB.
    The store of headers describes that memory as long as no entry is written below
    [base_virt]; when one is, a block is damaged and there is no outcome. *)
Fixpoint expand_loop (n : nat) (i base_virt mapped : Z) (pages : Z) (v : vmm P)
    : option (Z * Z * vmm P) :=
  match n with
  | O => Some (mapped, pages, v)
  | S n =>
      let '(phys, p) := pa_alloc (vm_pages v) in
      let v := Vmm (vm_mem v) (PML4_PHYS v) p in
      let virt := base_virt + i * VMM_PAGE_SIZE in
      if phys =? 0 then Some (mapped, pages, v) else
      if map_writes HEAP_START base_virt virt v then None else
      let v := map_page virt phys (Z.lor PAGE_PRESENT PAGE_WRITE) v in
      expand_loop n (i + 1) base_virt (mapped + 1) (pages + 1) v
  end.

(** The walk to the tail of the list. *)
Fixpoint last_block (fuel : nat) (last : Z) (hs : store) : option Z :=
  match fuel with
  | O => None
  | S fuel =>
      b ← hs !! last;
      if next b =? 0 then Some last else last_block fuel (next b) hs
  end.

Definition expand_heap (fuel : nat) (pages : Z) (h : heap) : option (bool * heap) :=
  if HEAP_PAGES h + pages >? HEAP_MAX_PAGES then Some (false, h) else
  let base_virt := HEAP_START + HEAP_PAGES h * VMM_PAGE_SIZE in
  '(mapped, heap_pages, v) ← expand_loop (Z.to_nat pages) 0 base_virt 0 (HEAP_PAGES h) (vm h);
  let h := Heap (hdrs h) (HEAP_HEAD h) heap_pages (HEAP_LOCK h) (rflags h) v in
  if mapped =? 0 then Some (false, h) else
  let blk := base_virt in
  let hs := <[blk := {| bh_size := u32 (mapped * VMM_PAGE_SIZE - HEADER_SIZE);
                        is_free := 1; next := 0 |}]> (hdrs h) in
  if HEAP_HEAD h =? 0 then
    Some (true, Heap hs blk heap_pages (HEAP_LOCK h) (rflags h) v)
  else
    last ← last_block fuel (HEAP_HEAD h) hs;
    b ← hs !! last;
    Some (true, set_hdrs (<[last := {| bh_size := bh_size b; is_free := is_free b; next := blk |}]> hs) h).

(** [while !cur.is_null()]; each merge and each advance is one iteration. *)
Fixpoint coalesce (fuel : nat) (cur : Z) (hs : store) : option store :=
  match fuel with
  | O => None
  | S fuel =>
      if cur =? 0 then Some hs else
      c ← hs !! cur;
      if negb (is_free c =? 0) && negb (next c =? 0) then
        n ← hs !! next c;
        if negb (is_free n =? 0) && (cur + u32 (HEADER_SIZE + bh_size c) =? next c) then
          coalesce fuel cur
            (<[cur := {| bh_size := u32 (bh_size c + u32 (HEADER_SIZE + bh_size n));
                         is_free := is_free c; next := next n |}]> hs)
        else coalesce fuel (next c) hs
      else coalesce fuel (next c) hs
  end.

(** Returns the pointer (0 is null) and the headers. *)
Definition try_alloc (cur aligned_size : Z) (hs : store) : option (Z * store) :=
  c ← hs !! cur;
  if negb (is_free c =? 0) && (bh_size c >=? aligned_size) then
    let hs :=
      if bh_size c >=? u32 (u32 (aligned_size + HEADER_SIZE) + MIN_SPLIT) then
        let split := cur + u32 (HEADER_SIZE + aligned_size) in
        let hs := <[split := {| bh_size := u32 (u32 (bh_size c - aligned_size) - HEADER_SIZE);
                                is_free := 1; next := next c |}]> hs in
        <[cur := {| bh_size := aligned_size; is_free := is_free c; next := split |}]> hs
      else hs in
    c ← hs !! cur;
    Some (cur + HEADER_SIZE,
          <[cur := {| bh_size := bh_size c; is_free := 0; next := next c |}]> hs)
  else Some (0, hs).

Definition init (fuel : nat) (h : heap) : option heap :=
  '(_, h) ← expand_heap fuel HEAP_INITIAL_PAGES
              (Heap (hdrs h) 0 0 (HEAP_LOCK h) (rflags h) (vm h));
  Some h.

(** The first-fit search. *)
Fixpoint search (fuel : nat) (cur aligned_size : Z) (hs : store) : option (Z * store) :=
  match fuel with
  | O => None
  | S fuel =>
      if cur =? 0 then Some (0, hs) else
      '(result, hs) ← try_alloc cur aligned_size hs;
      if negb (result =? 0) then Some (result, hs) else
      c ← hs !! cur; search fuel (next c) aligned_size hs
  end.

Definition align8 (size : Z) : Z := Z.land (u32 (u32 size + 7)) (not32 7).

(** What a request that does not fit asks [expand_heap] for. *)
Definition need_pages (aligned_size : Z) : Z :=
  let need_pages := (aligned_size + HEADER_SIZE + VMM_PAGE_SIZE - 1) / VMM_PAGE_SIZE in
  if need_pages <? 16 then 16 else need_pages.

Definition kmalloc (fuel : nat) (size : Z) (h : heap) : option (Z * heap) :=
  if size =? 0 then Some (0, h) else
  let h := lock_heap h in
  let aligned_size := align8 size in
  '(result, hs) ← search fuel (HEAP_HEAD h) aligned_size (hdrs h);
  let h := set_hdrs hs h in
  if negb (result =? 0) then Some (result, unlock_heap h) else
  '(grown, h) ← expand_heap fuel (need_pages aligned_size) h;
  if negb (grown : bool) then Some (0, unlock_heap h) else
  '(result, hs) ← search fuel (HEAP_HEAD h) aligned_size (hdrs h);
  Some (result, unlock_heap (set_hdrs hs h)).

Definition kfree (fuel : nat) (ptr : Z) (h : heap) : option heap :=
  if ptr =? 0 then Some h else
  let h := lock_heap h in
  let hdr := ptr - HEADER_SIZE in
  b ← hdrs h !! hdr;
  if negb (is_free b =? 0) then Some (unlock_heap h) else
  let hs := <[hdr := {| bh_size := bh_size b; is_free := 1; next := next b |}]> (hdrs h) in
  hs ← coalesce fuel (HEAP_HEAD h) hs;
  Some (unlock_heap (set_hdrs hs h)).

Fixpoint get_free_loop (fuel : nat) (cur free_bytes : Z) (hs : store) : option Z :=
  match fuel with
  | O => None
  | S fuel =>
      if cur =? 0 then Some free_bytes else
      c ← hs !! cur;
      get_free_loop fuel (next c)
        (if negb (is_free c =? 0) then u32 (free_bytes + bh_size c) else free_bytes) hs
  end.
Definition get_free (fuel : nat) (h : heap) : option Z :=
  get_free_loop fuel (HEAP_HEAD h) 0 (hdrs h).
End code.
Arguments heap P : clear implicits.

(** ** Lists of blocks *)

Record blk := Blk { b_addr : Z; b_size : Z; b_free : bool }.

Definition b_end (b : blk) : Z := b_addr b + HEADER_SIZE + b_size b.

(** The blocks of [l] fill the addresses from [lo] to [hi] without a gap. *)
Fixpoint tiles (lo : Z) (l : list blk) (hi : Z) : Prop :=
  match l with
  | [] => lo = hi
  | b :: l => b_addr b = lo /\ 0 <= b_size b /\ b_size b mod 8 = 0 /\ tiles (b_end b) l hi
  end.

(** The headers in [hs] linked from [a] are those of [l]. *)
Fixpoint chain (hs : store) (a : Z) (l : list blk) : Prop :=
  match l with
  | [] => a = 0
  | b :: l => a = b_addr b /\ exists n,
      hs !! a = Some {| bh_size := b_size b; is_free := Z.b2z (b_free b); next := n |} /\
      chain hs n l
  end.

(** First fit with splitting, on the list. *)
Fixpoint l_alloc (asz : Z) (l : list blk) : option (Z * list blk) :=
  match l with
  | [] => None
  | b :: l =>
      if b_free b && (b_size b >=? asz) then
        Some (b_addr b + HEADER_SIZE,
              if b_size b >=? asz + HEADER_SIZE + MIN_SPLIT
              then Blk (b_addr b) asz false ::
                   Blk (b_addr b + HEADER_SIZE + asz) (b_size b - asz - HEADER_SIZE) true :: l
              else Blk (b_addr b) (b_size b) false :: l)
      else '(p, l) ← l_alloc asz l; Some (p, b :: l)
  end.

(** Merging every run of free blocks. *)
Fixpoint l_coalesce (b : blk) (l : list blk) : list blk :=
  match l with
  | [] => [b]
  | c :: l =>
      if b_free b && b_free c
      then l_coalesce (Blk (b_addr b) (b_size b + (HEADER_SIZE + b_size c)) true) l
      else b :: l_coalesce c l
  end.

(** The areas handed out: pointer and usable size. *)
Definition allocated (l : list blk) : list (Z * Z) :=
  omap (fun b => if b_free b then None else Some (b_addr b + HEADER_SIZE, b_size b)) l.

Fixpoint no_adjacent_free (l : list blk) : Prop :=
  match l with
  | b :: ((c :: _) as l') => (b_free b = true -> b_free c = false) /\ no_adjacent_free l'
  | _ => True
  end.

Lemma tiles_bounds lo l hi :
  tiles lo l hi -> lo <= hi /\ Forall (fun b => lo <= b_addr b /\ b_end b <= hi) l.
Proof.
  revert lo; induction l as [| b l IH]; intros lo; simpl.
  - intros ->. split; [lia | constructor].
  - intros (Ha & Hs & _ & Ht). destruct (IH _ Ht) as [Hle HF].
    assert (lo <= b_end b) by (unfold b_end, HEADER_SIZE; lia).
    split; [lia |]. constructor; [lia |].
    eapply Forall_impl; [exact HF |]. simpl; intros; lia.
Qed.

Lemma tiles_length lo l hi : tiles lo l hi -> 16 * Z.of_nat (length l) <= hi - lo.
Proof.
  revert lo; induction l as [| b l IH]; intros lo; simpl; [lia |].
  intros (Ha & Hs & _ & Ht). specialize (IH _ Ht). unfold b_end, HEADER_SIZE in IH. lia.
Qed.

Lemma tiles_snoc lo l mid b :
  tiles lo l mid -> b_addr b = mid -> 0 <= b_size b -> b_size b mod 8 = 0 ->
  tiles lo (l ++ [b]) (b_end b).
Proof.
  revert lo; induction l as [| c l IH]; intros lo; simpl; [intros ->; auto |].
  intros (? & ? & ? & ?) **. split_and!; auto.
Qed.

(** Stores that agree on a region hold the same chains there. *)
Lemma chain_frame hs hs' a l lo hi :
  tiles lo l hi -> (forall x, lo <= x < hi -> hs' !! x = hs !! x) ->
  chain hs a l -> chain hs' a l.
Proof.
  revert a lo; induction l as [| b l IH]; intros a lo; simpl; [done |].
  intros (Ha & Hs & _ & Ht) Hf [-> (n & Hn & Hc)].
  destruct (tiles_bounds _ _ _ Ht) as [Hle _]. unfold b_end, HEADER_SIZE in *.
  split; [done |]. exists n. split; [rewrite Hf by lia; done |].
  eapply IH; [exact Ht | | done]. unfold b_end, HEADER_SIZE. intros x Hx. apply Hf. lia.
Qed.

Lemma chain_frame_insert hs a l lo hi x v :
  tiles lo l hi -> x < lo -> chain hs a l -> chain (<[x := v]> hs) a l.
Proof.
  intros Ht Hx. apply chain_frame with lo hi; [done |]. intros y Hy.
  apply lookup_insert_ne. lia.
Qed.

Lemma b2z_eqb b : (Z.b2z b =? 0) = negb b.
Proof. by destruct b. Qed.

(** ** Coalescing *)

Lemma l_coalesce_addr b l : exists b' l', l_coalesce b l = b' :: l' /\ b_addr b' = b_addr b.
Proof.
  revert b; induction l as [| c l IH]; intros b; simpl; [eauto |].
  destruct (_ && _); [| eauto]. destruct (IH (Blk (b_addr b) (b_size b + (HEADER_SIZE + b_size c)) true))
    as (b' & l' & -> & E). eauto.
Qed.

(** One iteration at block [b], whose successor is [c]. *)
Lemma coalesce_step fuel hs b c n :
  0 < b_addr b -> 0 <= b_size b -> b_addr c = b_end b -> 0 <= b_size c -> b_end c < 2 ^ 31 ->
  hs !! b_addr b = Some {| bh_size := b_size b; is_free := Z.b2z (b_free b); next := b_addr c |} ->
  hs !! b_addr c = Some {| bh_size := b_size c; is_free := Z.b2z (b_free c); next := n |} ->
  coalesce (S fuel) (b_addr b) hs =
    if b_free b && b_free c
    then coalesce fuel (b_addr b)
           (<[b_addr b := {| bh_size := b_size b + (HEADER_SIZE + b_size c);
                             is_free := 1; next := n |}]> hs)
    else coalesce fuel (b_addr c) hs.
Proof.
  unfold b_end, HEADER_SIZE. intros Ha Hb Hc Hcs He E1 E2. cbn [coalesce].
  rewrite (proj2 (Z.eqb_neq (b_addr b) 0)), E1 by lia.
  cbn [mbind option_bind is_free next bh_size].
  rewrite (proj2 (Z.eqb_neq (b_addr c) 0)), b2z_eqb, negb_involutive, E2 by lia.
  cbn [mbind option_bind is_free next bh_size negb]. rewrite b2z_eqb, negb_involutive.
  unfold HEADER_SIZE. rewrite (u32_small (16 + b_size b)), (u32_small (16 + b_size c)), u32_small by lia.
  replace (b_addr b + (16 + b_size b) =? b_addr c) with true by (symmetry; apply Z.eqb_eq; lia).
  by destruct (b_free b), (b_free c).
Qed.

(** The loop merges every run of free blocks of the list it walks. *)
Lemma coalesce_spec l : forall b fuel hs a lo hi,
  0 < lo -> hi < 2 ^ 31 -> (length l + 1 < fuel)%nat ->
  tiles lo (b :: l) hi -> chain hs a (b :: l) ->
  exists hs', coalesce fuel a hs = Some hs' /\
    tiles lo (l_coalesce b l) hi /\ chain hs' a (l_coalesce b l) /\
    (forall x, x < lo \/ hi <= x -> hs' !! x = hs !! x).
Proof.
  induction l as [| c l IH]; intros b fuel hs a lo hi Hlo Hhi Hfuel Htiles Hchain;
    (destruct fuel as [| fuel]; [lia |]); simpl in Hfuel.
  - destruct Hchain as [-> (n & Hn & ->)]. pose proof Htiles as (Ha & ? & ? & ?). simpl.
    rewrite (proj2 (Z.eqb_neq _ 0)), Hn by lia. simpl. rewrite andb_false_r.
    destruct fuel as [| fuel]; [lia |]. simpl. exists hs. split_and!; eauto.
  - destruct Hchain as [-> (n & Hn & Hchain)]. pose proof Htiles as (Ha & Hb & Hb8 & Htl).
    pose proof Hchain as [-> (n' & Hn' & Hcl)]. pose proof Htl as (Hac & Hc & Hc8 & Htl').
    destruct (tiles_bounds _ _ _ Htl') as [Hle' _]. cbn [l_coalesce].
    rewrite (coalesce_step fuel hs b c n') by (done || lia). unfold b_end, HEADER_SIZE in *.
    destruct (b_free b && b_free c) eqn:Hff.
    + destruct (IH (Blk (b_addr b) (b_size b + (16 + b_size c)) true) fuel
                  (<[b_addr b := {| bh_size := b_size b + (16 + b_size c); is_free := 1; next := n' |}]> hs)
                  (b_addr b) lo hi) as (hs' & Ehs' & Ht' & Hch' & Hfr); try done; [lia | | |].
      * simpl. unfold b_end, HEADER_SIZE; simpl. split_and!; [done | lia | mod_lia |].
        by replace (b_addr b + 16 + (b_size b + (16 + b_size c)))
          with (b_addr c + 16 + b_size c) by lia.
      * simpl. split; [done |]. exists n'. split; [by rewrite lookup_insert_eq |].
        eapply chain_frame_insert; [exact Htl' | lia | done].
      * exists hs'. split_and!; [done | done | done |]. intros x Hx. rewrite Hfr by done.
        apply lookup_insert_ne. lia.
    + edestruct (IH c fuel hs (b_addr c)) as (hs' & Ehs' & Ht' & Hch' & Hfr);
        [| exact Hhi | lia | exact Htl | split; [done | eauto] |]; [lia |].
      exists hs'. split; [exact Ehs' |].
      assert (Hbl : hs' !! b_addr b = hs !! b_addr b) by (apply Hfr; lia).
      split_and!; simpl; auto; [| intros x Hx; apply Hfr; lia].
      split; [done |]. exists (b_addr c). by rewrite Hbl.
Qed.

Lemma l_coalesce_allocated b l : allocated (l_coalesce b l) = allocated (b :: l).
Proof.
  revert b; induction l as [| c l IH]; intros b; [done |]. cbn [l_coalesce].
  destruct (b_free b && b_free c) eqn:E.
  - apply andb_prop in E as [Eb Ec]. rewrite IH. cbn. by rewrite Eb, Ec.
  - cbn. rewrite IH. done.
Qed.

Lemma l_coalesce_maximal b l : no_adjacent_free (l_coalesce b l).
Proof.
  revert b; induction l as [| c l IH]; intros b; [done |]. cbn [l_coalesce].
  destruct (b_free b && b_free c) eqn:E; [apply IH |].
  pose proof (IH c) as H. destruct (l_coalesce_addr c l) as (c' & l' & Ec & _).
  assert (Hfree : b_free c' = b_free c).
  { clear - Ec. revert c Ec. induction l as [| d l IH]; intros c; cbn [l_coalesce].
    - by intros [= -> _].
    - destruct (b_free c && b_free d) eqn:Hcd.
      + intros ->%IH. simpl. apply andb_prop in Hcd as [-> _]. done.
      + by intros [= -> _]. }
  rewrite Ec in *. split; [| done]. rewrite Hfree. intros Hb. by rewrite Hb in E.
Qed.

(** ** First fit *)

Lemma try_alloc_spec hs b n asz :
  0 < b_addr b -> 0 <= b_size b < 2 ^ 31 -> 0 <= asz ->
  hs !! b_addr b = Some {| bh_size := b_size b; is_free := Z.b2z (b_free b); next := n |} ->
  try_alloc (b_addr b) asz hs =
    if b_free b && (b_size b >=? asz) then
      Some (b_addr b + HEADER_SIZE,
        if b_size b >=? asz + HEADER_SIZE + MIN_SPLIT
        then <[b_addr b := {| bh_size := asz; is_free := 0; next := b_addr b + HEADER_SIZE + asz |}]>
               (<[b_addr b + HEADER_SIZE + asz :=
                    {| bh_size := b_size b - asz - HEADER_SIZE; is_free := 1; next := n |}]> hs)
        else <[b_addr b := {| bh_size := b_size b; is_free := 0; next := n |}]> hs)
    else Some (0, hs).
Proof.
  unfold HEADER_SIZE, MIN_SPLIT. intros Ha Hb Hasz E. unfold try_alloc. rewrite E.
  cbn [mbind option_bind is_free next bh_size]. rewrite b2z_eqb, negb_involutive.
  destruct (b_free b); cbn [andb Z.b2z]; [| done].
  destruct (Z.geb_spec (b_size b) asz) as [Hfit |]; [| done].
  unfold HEADER_SIZE, MIN_SPLIT. rewrite (u32_small (asz + 16)), (u32_small (asz + 16 + 16)) by lia.
  destruct (Z.geb_spec (b_size b) (asz + 16 + 16)) as [Hsplit |].
  - rewrite (u32_small (b_size b - asz)), !u32_small by lia. rewrite lookup_insert_eq.
    cbn [mbind option_bind is_free next bh_size]. rewrite insert_insert_eq.
    by replace (b_addr b + (16 + asz)) with (b_addr b + 16 + asz) by lia.
  - rewrite E. done.
Qed.

Lemma search_spec asz l : forall fuel hs a lo hi,
  0 < lo -> hi < 2 ^ 31 -> 0 <= asz -> asz mod 8 = 0 -> (length l < fuel)%nat ->
  tiles lo l hi -> chain hs a l ->
  match l_alloc asz l with
  | Some (p, l') => exists hs',
      search fuel a asz hs = Some (p, hs') /\ chain hs' a l' /\ tiles lo l' hi /\
      p <> 0 /\ (forall x, x < lo \/ hi <= x -> hs' !! x = hs !! x)
  | None => search fuel a asz hs = Some (0, hs)
  end.
Proof.
  induction l as [| b l IH]; intros fuel hs a lo hi Hlo Hhi Hasz Hasz8 Hfuel Htiles Hchain;
    (destruct fuel as [| fuel]; [lia |]); simpl in Hfuel.
  { simpl in Hchain. subst. done. }
  destruct Hchain as [-> (n & Hn & Hchain)]. pose proof Htiles as (Ha & Hb & Hb8 & Htl).
  destruct (tiles_bounds _ _ _ Htl) as [Hle _].
  cbn [search]. rewrite (proj2 (Z.eqb_neq _ 0)) by lia.
  rewrite (try_alloc_spec hs b n asz) by (try done; unfold b_end, HEADER_SIZE in *; lia).
  cbn [l_alloc]. destruct (b_free b && _) eqn:Efit.
  - apply andb_prop in Efit as [Hfree Hfit]. apply Z.geb_le in Hfit.
    cbn [mbind option_bind]. unfold b_end, HEADER_SIZE, MIN_SPLIT in *.
    rewrite (proj2 (Z.eqb_neq _ 0)) by lia. cbn [negb].
    destruct (Z.geb_spec (b_size b) (asz + 16 + 16)) as [Hsp | Hsp];
      (eexists; split; [done |]); simpl; unfold b_end, HEADER_SIZE; simpl; split_and!;
      try done; try lia; try mod_lia.
    + eexists. split; [by rewrite lookup_insert_eq |]. split; [lia |].
      exists n. rewrite lookup_insert_ne, lookup_insert_eq by lia. split; [done |].
      repeat (eapply chain_frame_insert; [exact Htl | unfold b_end, HEADER_SIZE; lia |]). done.
    + replace (b_addr b + 16 + asz + 16 + (b_size b - asz - 16))
        with (b_addr b + 16 + b_size b) by lia. done.
    + intros x Hx. rewrite !lookup_insert_ne by lia. done.
    + exists n. rewrite lookup_insert_eq. split; [done |].
      eapply chain_frame_insert; [exact Htl | unfold b_end, HEADER_SIZE; lia | done].
    + intros x Hx. rewrite lookup_insert_ne by lia. done.
  - cbn [mbind option_bind]. rewrite Hn. cbn [negb Z.eqb mbind option_bind next].
    assert (H0 : 0 < b_end b) by (unfold b_end, HEADER_SIZE; lia).
    specialize (IH fuel hs n (b_end b) hi H0 Hhi Hasz Hasz8 ltac:(lia) Htl Hchain).
    destruct (l_alloc asz l) as [[p l'] |]; [| done].
    destruct IH as (hs' & E & Hc' & Ht' & Hp & Hfr). exists hs'. simpl.
    assert (Hbl : hs' !! b_addr b = hs !! b_addr b)
      by (apply Hfr; unfold b_end, HEADER_SIZE; lia).
    split_and!; try done; [exists n; by rewrite Hbl |].
    intros x Hx. apply Hfr. unfold b_end, HEADER_SIZE. lia.
Qed.

Lemma l_alloc_Some asz l : forall lo hi p l',
  tiles lo l hi -> 0 <= asz -> l_alloc asz l = Some (p, l') ->
  exists s, asz <= s /\ lo + HEADER_SIZE <= p /\ p + s <= hi /\
    Permutation (allocated l') ((p, s) :: allocated l).
Proof.
  induction l as [| b l IH]; intros lo hi p l' Ht Hasz; [done |]. cbn [l_alloc].
  destruct Ht as (Ha & Hb & Hb8 & Htl). destruct (tiles_bounds _ _ _ Htl) as [Hle _].
  unfold b_end, HEADER_SIZE in *.
  destruct (b_free b && _) eqn:Efit.
  - apply andb_prop in Efit as [Hfree Hfit]. apply Z.geb_le in Hfit.
    intros [= <- <-]. destruct (_ >=? _) eqn:Hsp.
    + exists asz. split_and!; try lia.
      cbn. rewrite Hfree. done.
    + exists (b_size b). split_and!; try lia. cbn. rewrite Hfree. done.
  - destruct (l_alloc asz l) as [[q l1] |] eqn:El; cbn [mbind option_bind]; [| done].
    intros [= <- <-]. destruct (IH _ _ _ _ Htl Hasz eq_refl) as (s & Hs & Hp & Hps & Hperm).
    exists s. split_and!; try lia. cbn. destruct (b_free b); [done |].
    rewrite Hperm. apply Permutation_swap.
Qed.

Lemma l_alloc_None asz l :
  l_alloc asz l = None -> Forall (fun b => b_free b = true -> b_size b < asz) l.
Proof.
  induction l as [| b l IH]; cbn [l_alloc]; [by constructor |].
  destruct (b_free b) eqn:Hf; cbn [andb].
  - destruct (Z.geb_spec (b_size b) asz); [done |].
    destruct (l_alloc asz l) as [[? ?] |]; [done |]. intros _. constructor; [lia | auto].
  - destruct (l_alloc asz l) as [[? ?] |]; [done |]. intros _. constructor; [congruence | auto].
Qed.

(** Areas handed out do not overlap, nor touch another area's header. *)
Definition apart (x y : Z * Z) : Prop :=
  x.1 + x.2 + HEADER_SIZE <= y.1 \/ y.1 + y.2 + HEADER_SIZE <= x.1.

Lemma allocated_bounds lo l hi x :
  tiles lo l hi -> x ∈ allocated l -> lo + HEADER_SIZE <= x.1 /\ 0 <= x.2 /\ x.1 + x.2 <= hi.
Proof.
  revert lo. induction l as [| b l IH]; intros lo; [set_solver |].
  intros (Ha & Hb & Hb8 & Htl) Hx. destruct (tiles_bounds _ _ _ Htl) as [Hle _].
  unfold b_end, HEADER_SIZE in *. cbn in Hx.
  assert (Hcase : x = (b_addr b + 16, b_size b) \/ x ∈ allocated l)
    by (destruct (b_free b); set_solver).
  destruct Hcase as [-> | Hin]; simpl; [lia |]. specialize (IH _ Htl Hin). lia.
Qed.

Lemma allocated_apart lo l hi : tiles lo l hi -> ForallOrdPairs apart (allocated l).
Proof.
  revert lo. induction l as [| b l IH]; intros lo; [constructor |].
  intros (Ha & Hb & Hb8 & Htl). specialize (IH _ Htl). cbn. destruct (b_free b); [done |].
  constructor; [| done]. apply List.Forall_forall. intros x Hx. apply list_elem_of_In in Hx.
  pose proof (allocated_bounds _ _ _ x Htl Hx) as H. unfold apart, b_end in *. simpl. lia.
Qed.

(** ** Growing the heap *)

Lemma last_block_spec hs l : forall fuel a b lo hi,
  0 < lo -> tiles lo (l ++ [b]) hi -> (length l < fuel)%nat ->
  chain hs a (l ++ [b]) -> last_block fuel a hs = Some (b_addr b).
Proof.
  induction l as [| c l IH]; intros fuel a b lo hi Hlo Ht Hf; (destruct fuel as [| fuel]; [lia |]);
    simpl in *.
  - intros [-> (n & Hn & ->)]. by rewrite Hn.
  - destruct Ht as (Ha & Hc & _ & Ht). intros [-> (n & Hn & Hch)]. rewrite Hn.
    cbn [mbind option_bind next].
    assert (H0 : 0 < b_end c) by (unfold b_end, HEADER_SIZE; lia).
    assert (Hnz : n <> 0).
    { destruct l as [| d l]; simpl in *; destruct Hch as [-> _]; destruct Ht; lia. }
    rewrite (proj2 (Z.eqb_neq _ _) Hnz). by eapply (IH fuel n b (b_end c) hi); [lia | | lia |].
Qed.

(** Linking a new tail block. *)
Lemma chain_snoc hs l : forall a b c lo,
  tiles lo (l ++ [b]) (b_addr c) -> b_addr c <> 0 ->
  hs !! b_addr c = Some {| bh_size := b_size c; is_free := Z.b2z (b_free c); next := 0 |} ->
  chain hs a (l ++ [b]) ->
  chain (<[b_addr b := {| bh_size := b_size b; is_free := Z.b2z (b_free b); next := b_addr c |}]> hs)
    a (l ++ [b; c]).
Proof.
  induction l as [| d l IH]; intros a b c lo Ht Hc Hlk; simpl in *.
  - destruct Ht as (Ha & Hb & _ & He). unfold b_end, HEADER_SIZE in He.
    intros [-> (n & Hn & ->)]. split; [done |]. exists (b_addr c).
    rewrite lookup_insert_eq, lookup_insert_ne by lia. split; [done |].
    split; [done |]. by exists 0.
  - destruct Ht as (Ha & Hd & _ & Ht). intros [-> (n & Hn & Hch)]. split; [done |].
    exists n. pose proof (tiles_bounds _ _ _ Ht) as [_ HF].
    apply Forall_app in HF as [_ HF]. inversion HF as [| ? ? [Hb _] _]. subst.
    rewrite lookup_insert_ne by (unfold b_end, HEADER_SIZE in Hb; lia).
    split; [done |]. by eapply IH.
Qed.

Lemma chain_last hs l a b :
  chain hs a (l ++ [b]) -> exists n,
  hs !! b_addr b = Some {| bh_size := b_size b; is_free := Z.b2z (b_free b); next := n |}.
Proof.
  revert a. induction l as [| d l IH]; intros a; simpl.
  - intros [-> (n & Hn & _)]. eauto.
  - intros [_ (n & _ & Hc)]. eauto.
Qed.

(** What [expand_heap] does to a list that is not empty. *)
Lemma append_spec fuel hs a l b c lo :
  0 < lo -> tiles lo (l ++ [b]) (b_addr c) -> (length l < fuel)%nat ->
  chain hs a (l ++ [b]) ->
  let hs1 := <[b_addr c := {| bh_size := b_size c; is_free := Z.b2z (b_free c); next := 0 |}]> hs in
  a <> 0 /\ last_block fuel a hs1 = Some (b_addr b) /\
  exists n, hs1 !! b_addr b = Some {| bh_size := b_size b; is_free := Z.b2z (b_free b); next := n |} /\
  chain (<[b_addr b := {| bh_size := b_size b; is_free := Z.b2z (b_free b); next := b_addr c |}]> hs1)
    a (l ++ [b; c]).
Proof.
  intros Hlo Ht Hf Hch hs1. destruct (tiles_bounds _ _ _ Ht) as [Hle _].
  assert (Hch1 : chain hs1 a (l ++ [b])).
  { eapply chain_frame; [exact Ht | | done]. intros x Hx. apply lookup_insert_ne. lia. }
  split; [| split; [by eapply last_block_spec |]].
  - destruct l; simpl in Hch, Ht; destruct Hch as [-> _]; destruct Ht; lia.
  - destruct (chain_last _ _ _ _ Hch1) as [n En]. exists n. split; [done |].
    eapply chain_snoc; [exact Ht | lia | apply lookup_insert_eq | done].
Qed.

Section operations.
Context {P : Type} `{PageAllocator P}.
Implicit Types h : heap P.

(** One page of growth from [base]: the frame allocator is asked, and what it gives is mapped. *)
Definition heap_limit : Z := HEAP_START + HEAP_MAX_PAGES * VMM_PAGE_SIZE.
Inductive vm_step (v : vmm P) : vmm P -> Prop :=
| vm_taken : vm_step v (taken v)
| vm_mapped virt : HEAP_START <= virt < heap_limit ->
    vm_step v (map_page virt (pa_alloc (vm_pages v)).1 (Z.lor PAGE_PRESENT PAGE_WRITE) (taken v)).

(** Growing by [n] pages would write a page-table entry over the heap below [base]. *)
Definition overwrites (base n : Z) (v : vmm P) : Prop :=
  exists v' i, rtc vm_step v v' /\ 0 <= i < n /\ base + i * VMM_PAGE_SIZE < heap_limit /\
    map_writes HEAP_START base (base + i * VMM_PAGE_SIZE) (taken v') = true.

Lemma expand_loop_spec n : forall i base mapped pages (v : vmm P),
  0 <= i -> HEAP_START <= base -> base + (i + Z.of_nat n) * VMM_PAGE_SIZE <= heap_limit ->
  match expand_loop n i base mapped pages v with
  | Some (m, p, v') => exists k, 0 <= k <= Z.of_nat n /\ m = mapped + k /\ p = pages + k /\ rtc vm_step v v'
  | None => overwrites base (i + Z.of_nat n) v
  end.
Proof.
  unfold heap_limit, VMM_PAGE_SIZE.
  induction n as [| n IH]; intros i base mapped pages v Hi Hb Hl; cbn [expand_loop].
  - exists 0. split_and!; [lia.. | done].
  - destruct (pa_alloc (vm_pages v)) as [phys p] eqn:Ea. cbv zeta.
    assert (Et : Vmm (vm_mem v) (PML4_PHYS v) p = taken v) by (unfold taken; by rewrite Ea). rewrite Et.
    destruct (phys =? 0).
    { exists 0. split_and!; [lia.. |]. apply rtc_once, vm_taken. }
    destruct (map_writes _ _ _ _) eqn:Ew.
    { exists v, i. split; [done |]. split; [lia |]. split; [unfold heap_limit, VMM_PAGE_SIZE; lia | exact Ew]. }
    set (v1 := map_page _ _ _ _).
    assert (Hs : vm_step v v1).
    { unfold v1. replace phys with (pa_alloc (vm_pages v)).1 by (by rewrite Ea). constructor.
      unfold heap_limit, HEAP_START, HEAP_MAX_PAGES, VMM_PAGE_SIZE in *. lia. }
    specialize (IH (i + 1) base (mapped + 1) (pages + 1) v1 ltac:(lia) Hb ltac:(lia)).
    destruct (expand_loop n _ _ _ _ v1) as [[[m q] v'] |].
    + destruct IH as (k & Hk & -> & -> & Hr). exists (k + 1). split_and!; [lia.. |]. by eapply rtc_l.
    + destruct IH as (v' & j & Hr & Hj & Hw). exists v', j. split; [by eapply rtc_l |]. split; [lia |]. by destruct Hw.
Qed.

(** The state [h] holds the blocks [l], which fill its pages exactly. *)
Record rep h (l : list blk) : Prop := {
  rep_chain : chain (hdrs h) (HEAP_HEAD h) l;
  rep_tiles : tiles HEAP_START l (HEAP_START + HEAP_PAGES h * VMM_PAGE_SIZE);
  rep_pages : 0 <= HEAP_PAGES h <= HEAP_MAX_PAGES }.

(** Every walk of the list ends within this many iterations. *)
Definition enough_fuel (fuel : nat) : Prop := HEAP_MAX_PAGES * 256 + 2 < Z.of_nat fuel.

Lemma rep_length h l : rep h l -> Z.of_nat (length l) <= HEAP_MAX_PAGES * 256.
Proof.
  intros [_ Ht Hp]. pose proof (tiles_length _ _ _ Ht) as Hl.
  unfold VMM_PAGE_SIZE, HEAP_MAX_PAGES in *. lia.
Qed.

Lemma rep_top h l : rep h l -> HEAP_START + HEAP_PAGES h * VMM_PAGE_SIZE < 2 ^ 31.
Proof. intros [_ _ Hp]. unfold HEAP_START, VMM_PAGE_SIZE, HEAP_MAX_PAGES in *. lia. Qed.

(** The lock and the flags, which [expand_heap] and the searches leave alone. *)
Definition same_lock h h' : Prop := HEAP_LOCK h' = HEAP_LOCK h /\ rflags h' = rflags h.

Definition heap_top h : Z := HEAP_START + HEAP_PAGES h * VMM_PAGE_SIZE.

Lemma expand_heap_spec fuel pages h l :
  rep h l -> enough_fuel fuel -> 0 < pages ->
  match expand_heap fuel pages h with
  | Some (ok, h') => exists l', rep h' l' /\ same_lock h h' /\ rtc vm_step (vm h) (vm h') /\
      (if (ok : bool) then exists sz, l' = l ++ [Blk (heap_top h) sz true] else l' = l)
  | None => overwrites (heap_top h) pages (vm h)
  end.
Proof.
  intros Hrep Hfuel Hpages. pose proof Hrep as [Hch Ht Hp]. unfold expand_heap.
  pose proof (rep_length _ _ Hrep) as Hlen. unfold enough_fuel in Hfuel.
  destruct (Z.gtb_spec (HEAP_PAGES h + pages) HEAP_MAX_PAGES) as [| Hle]; [by exists l |].
  change (HEAP_START + HEAP_PAGES h * VMM_PAGE_SIZE) with (heap_top h) in *. set (base := heap_top h) in *.
  pose proof (expand_loop_spec (Z.to_nat pages) 0 base 0 (HEAP_PAGES h) (vm h) ltac:(done)) as E.
  assert (Hb : HEAP_START <= base /\ base + (0 + Z.of_nat (Z.to_nat pages)) * VMM_PAGE_SIZE <= heap_limit).
  { unfold base, heap_top, heap_limit, VMM_PAGE_SIZE. lia. }
  specialize (E (proj1 Hb) (proj2 Hb)). cbv zeta. rewrite Z.add_0_l, Z2Nat.id in E by lia.
  destruct (expand_loop _ _ _ _ _ _) as [[[mapped heap_pages] v] |]; [| exact E].
  destruct E as (k & Hk & -> & -> & Hv). cbn [mbind option_bind]. rewrite Z.add_0_l.
  destruct (Z.eqb_spec k 0) as [-> | Hk0].
  { exists l. rewrite Z.add_0_r. by split_and!. }
  unfold HEAP_MAX_PAGES in *. rewrite u32_small by (unfold VMM_PAGE_SIZE, HEADER_SIZE; lia).
  set (sz := k * VMM_PAGE_SIZE - HEADER_SIZE). set (c := Blk base sz true).
  assert (Hsz : 0 <= sz /\ sz mod 8 = 0 /\
                b_end c = HEAP_START + (HEAP_PAGES h + k) * VMM_PAGE_SIZE).
  { unfold c, b_end. simpl. unfold sz, base, heap_top, VMM_PAGE_SIZE, HEADER_SIZE. split_and!; [lia | mod_lia | lia]. }
  destruct Hsz as (Hsz & Hsz8 & Hend).
  assert (Ht' : tiles HEAP_START (l ++ [c]) (HEAP_START + (HEAP_PAGES h + k) * VMM_PAGE_SIZE))
    by (rewrite <- Hend; eapply tiles_snoc; done).
  assert (Hbase : 0 < base) by (unfold base, heap_top, HEAP_START, VMM_PAGE_SIZE; lia).
  cbn [HEAP_HEAD hdrs HEAP_LOCK rflags].
  destruct l as [| b0 l0 _] using rev_ind.
  - simpl in Hch. rewrite Hch, Z.eqb_refl. eexists [c].
    split; [split; cbn [hdrs HEAP_HEAD HEAP_PAGES]; [| done | unfold HEAP_MAX_PAGES; lia] | split; [done | split; [exact Hv | by exists sz]]].
    split; [done |]. exists 0. by rewrite lookup_insert_eq.
  - rewrite length_app in Hlen. simpl in Hlen.
    destruct (append_spec fuel (hdrs h) (HEAP_HEAD h) l0 b0 c HEAP_START)
      as (Hhd & Elast & n & Eb & Hch'); [done | exact Ht | lia | exact Hch |].
    rewrite (proj2 (Z.eqb_neq _ _) Hhd). change (Z.b2z (b_free c)) with 1 in *.
    change (b_size c) with sz in *. change (b_addr c) with base in *. rewrite Elast.
    cbn [mbind option_bind]. rewrite Eb. cbn [mbind option_bind bh_size is_free].
    eexists ((l0 ++ [b0]) ++ [c]).
    split; [split; cbn [set_hdrs hdrs HEAP_HEAD HEAP_PAGES]; [| done | unfold HEAP_MAX_PAGES; lia] | split; [done | split; [exact Hv | by exists sz]]].
    by rewrite <- app_assoc.
Qed.

Lemma align8_spec size :
  0 <= size <= 0xFFFFFFF8 -> size <= align8 size < 2 ^ 32 /\ align8 size mod 8 = 0.
Proof.
  intros Hs. unfold align8. rewrite (u32_small size), u32_small by lia.
  assert (E : Z.land (size + 7) (not32 7) = (size + 7) / 8 * 8).
  { change 8 with (2 ^ 3) at 1 2. rewrite <- Z.shiftr_div_pow2, <- Z.shiftl_mul_pow2 by lia.
    rewrite <- Z.ldiff_ones_r by lia. apply Z.bits_inj'. intros i Hi.
    unfold not32. change 4294967295 with (Z.ones 32). change (Z.ones 3) with 7.
    rewrite Z.land_spec, Z.lxor_spec, Z.ldiff_spec.
    destruct (Z.lt_ge_cases i 32).
    - by rewrite (Z.ones_spec_low 32), xorb_true_r by lia.
    - rewrite (bits_high 32 (size + 7)) by lia. done. }
  rewrite E. split; [mod_lia | apply Z.mod_mul; lia].
Qed.

Lemma allocated_app l1 l2 : allocated (l1 ++ l2) = allocated l1 ++ allocated l2.
Proof. apply omap_app. Qed.

(** The blocks behind a first-fit search on a state. *)
Lemma search_rep fuel asz h l :
  rep h l -> enough_fuel fuel -> 0 <= asz -> asz mod 8 = 0 ->
  exists p hs', search fuel (HEAP_HEAD h) asz (hdrs h) = Some (p, hs') /\
    match l_alloc asz l with
    | Some (q, l') => p = q /\ p <> 0 /\ rep (set_hdrs hs' h) l'
    | None => p = 0 /\ hs' = hdrs h
    end.
Proof.
  intros Hrep Hf Ha H8. pose proof (rep_length _ _ Hrep). pose proof (rep_top _ _ Hrep) as Htop.
  pose proof Hrep as [Hch Ht Hp]. unfold enough_fuel in Hf.
  pose proof (search_spec asz l fuel (hdrs h) (HEAP_HEAD h) HEAP_START _ ltac:(done) Htop Ha H8 ltac:(lia) Ht Hch)
    as Hs.
  destruct (l_alloc asz l) as [[q l'] |]; [| by exists 0, (hdrs h)].
  destruct Hs as (hs' & E & Hc & Ht' & Hq & _). exists q, hs'. split; [done |].
  split_and!; [done | done |]. by split.
Qed.

Lemma set_hdrs_id h : set_hdrs (hdrs h) h = h.
Proof. by destruct h. Qed.

(** What a successful allocation of [size] bytes at [p] does to the blocks. *)
Definition allocates (size p : Z) (l : list blk) h' (l' : list blk) : Prop :=
  exists s, size <= s /\ Permutation (allocated l') ((p, s) :: allocated l) /\
    HEAP_START + HEADER_SIZE <= p /\ p + s <= HEAP_START + HEAP_PAGES h' * VMM_PAGE_SIZE /\
    ForallOrdPairs apart (allocated l').

Lemma alloc_allocates asz size p l h' l' :
  size <= asz -> 0 <= asz -> l_alloc asz l = Some (p, l') ->
  tiles HEAP_START l (HEAP_START + HEAP_PAGES h' * VMM_PAGE_SIZE) -> rep h' l' ->
  allocates size p l h' l'.
Proof.
  intros Hs Ha El Ht [_ Ht' _]. destruct (l_alloc_Some _ _ _ _ _ _ Ht Ha El) as (s & ? & ? & ? & ?).
  exists s. split_and!; [lia | done | done | done | by eapply allocated_apart].
Qed.

Definition released h h' : Prop := rflags h' = rflags h /\ sl_locked (HEAP_LOCK h') = 0.

Lemma rep_lock h l : rep h l -> rep (lock_heap h) l.
Proof. by intros []; split. Qed.
Lemma rep_unlock h l : rep h l -> rep (unlock_heap h) l.
Proof. by intros []; split. Qed.
Lemma unlock_released h h' : same_lock (lock_heap h) h' -> released h (unlock_heap h').
Proof. intros [Hl _]. unfold released, unlock_heap. simpl. by rewrite Hl. Qed.

(** No free block has [asz] bytes. *)
Definition no_fit (asz : Z) (l : list blk) : Prop := Forall (fun b => b_free b = true -> b_size b < asz) l.

Lemma kmalloc_spec fuel size h l :
  rep h l -> enough_fuel fuel -> 0 < size <= 0xFFFFFFF8 ->
  match kmalloc fuel size h with
  | Some (p, h') => exists l', rep h' l' /\ released h h' /\ rtc vm_step (vm h) (vm h') /\
      (allocates size p l h' l' \/ (p = 0 /\ allocated l' = allocated l /\ no_fit (align8 size) l))
  | None => no_fit (align8 size) l /\ overwrites (heap_top h) (need_pages (align8 size)) (vm h)
  end.
Proof.
  intros Hrep%rep_lock Hf Hsz. unfold kmalloc. rewrite (proj2 (Z.eqb_neq size 0)) by lia.
  cbv zeta. destruct (align8_spec size ltac:(lia)) as [Hal Hal8]. set (asz := align8 size) in *.
  destruct (search_rep fuel asz _ l Hrep Hf ltac:(lia) Hal8) as (p & hs' & -> & Hres).
  cbn [mbind option_bind].
  destruct (l_alloc asz l) as [[q l'] |] eqn:El.
  { destruct Hres as (-> & Hq & Hrep'). rewrite (proj2 (Z.eqb_neq q 0) Hq). cbn [negb].
    exists l'. pose proof (rep_unlock _ _ Hrep') as Hrep2.
    split; [done |]. split; [by apply unlock_released |]. split; [done | left].
    eapply (alloc_allocates asz); [lia | lia | exact El | apply Hrep | done]. }
  destruct Hres as [-> ->]. rewrite Z.eqb_refl, set_hdrs_id. cbn [negb].
  pose proof (l_alloc_None _ _ El) as Hnone.
  assert (Hneed : 0 < need_pages asz) by (unfold need_pages; case_if; breflect; lia).
  pose proof (expand_heap_spec fuel (need_pages asz) _ l Hrep Hf Hneed) as Hex.
  destruct (expand_heap _ _ _) as [[ok h1] |]; cbn [mbind option_bind]; [| by split].
  destruct Hex as (l1 & Hrep1 & Hlock1 & Hv & Hl1). destruct ok; cbn [negb].
  - destruct Hl1 as (sz & ->).
    destruct (search_rep fuel asz h1 _ Hrep1 Hf ltac:(lia) Hal8) as (p & hs2 & -> & Hres2).
    cbn [mbind option_bind].
    match type of Hrep1 with rep _ ?L => set (l1 := L) in * end.
    assert (Hsame : allocated l1 = allocated l)
      by (unfold l1; rewrite allocated_app; simpl; apply app_nil_r).
    destruct (l_alloc asz l1) as [[q l2] |] eqn:El2.
    + destruct Hres2 as (-> & Hq & Hrep2).
      exists l2. pose proof (rep_unlock _ _ Hrep2) as Hrep3.
      split; [done |]. split; [by apply unlock_released |]. split; [exact Hv | left].
      destruct (alloc_allocates asz size q l1 (unlock_heap (set_hdrs hs2 h1)) l2)
        as (s & ? & ? & ? & ? & ?); [lia | lia | done | apply Hrep1 | done |].
      exists s. rewrite <- Hsame. done.
    + destruct Hres2 as [-> ->]. exists l1. rewrite set_hdrs_id.
      split; [by apply rep_unlock |]. split; [by apply unlock_released |]. split; [exact Hv | by right].
  - subst l1. exists l.
    split; [by apply rep_unlock |]. split; [by apply unlock_released |]. split; [exact Hv | by right].
Qed.

(** *** A heap behind 4 KB tables

    Its addresses are served by 4 KB tables, and no table, nor a frame that could
    become one, lies among them.  Then growing never writes over it. *)
Definition vm_shielded (v : vmm P) : Prop :=
  (exists K, tree K v /\ sheltered HEAP_START heap_limit K v) /\
  forall virt, HEAP_START <= virt < heap_limit -> user_range v virt.
Definition shielded h : Prop := vm_shielded (vm h).

Lemma taken_shielded v : vm_shielded v -> vm_shielded (taken v).
Proof.
  intros [(K & Ht & Hs) Hu]. split; [| exact Hu]. exists K. by apply taken_keeps.
Qed.

Lemma step_shielded v v' : vm_shielded v -> vm_step v v' -> vm_shielded v'.
Proof.
  intros Hv [| virt Hr]; [by apply taken_shielded |]. apply taken_shielded in Hv as [(K & Ht & Hs) Hu].
  pose proof (Hu virt Hr) as Hvirt. split.
  - by destruct (map_page_keeps _ _ K _ virt (pa_alloc (vm_pages v)).1 (Z.lor PAGE_PRESENT PAGE_WRITE) Ht Hs Hvirt) as [_ ?].
  - intros x Hx. destruct (map_page_spec (taken v) virt (pa_alloc (vm_pages v)).1 (Z.lor PAGE_PRESENT PAGE_WRITE)) as [_ [Hm | [_ Hm]]];
      [by exists K | done | |]; by apply Hm, Hu.
Qed.

Lemma steps_shielded v v' : vm_shielded v -> rtc vm_step v v' -> vm_shielded v'.
Proof. intros Hv Hr. induction Hr as [| v v1 v' Hs _ IH]; [done |]. apply IH. by eapply step_shielded. Qed.

Lemma shielded_safe base n v : vm_shielded v -> HEAP_START <= base <= heap_limit -> ~ overwrites base n v.
Proof.
  intros Hv Hb (v' & i & Hr & Hi & Hl & Hw). apply (steps_shielded _ _ Hv) in Hr.
  apply taken_shielded in Hr as [(K & Ht & [H1 H2]) Hu].
  assert (Hs : sheltered HEAP_START base K (taken v')).
  { split; [intros f x Hf; specialize (H1 f x Hf) | intros f Hf; specialize (H2 f Hf)]; lia. }
  destruct (map_page_keeps _ _ K _ (base + i * VMM_PAGE_SIZE) 0 0 Ht Hs) as [Hno _];
    [apply Hu; unfold VMM_PAGE_SIZE in *; lia |]. congruence.
Qed.

Lemma heap_top_range h l : rep h l -> HEAP_START <= heap_top h <= heap_limit.
Proof. intros [_ _ Hp]. unfold heap_top, heap_limit, VMM_PAGE_SIZE. lia. Qed.

(** C7: [kmalloc] of at most 0xFFFFFFF8 bytes terminates, restores the interrupt
    flag and releases its lock on every path.  It returns either an area of at least
    [size] bytes that lies inside the heap and overlaps neither another area nor a
    block header, leaving every area already handed out as it was, or null, when no
    free block was large enough; the blocks always fill the heap exactly.  The one
    exception, without an outcome in the model: no free block was large enough, and a
    page-table entry that growing writes lands on the heap itself, which the 2 MB
    pages of the boot loader make possible; it cannot happen where 4 KB tables
    outside the heap serve its addresses, and that is kept. *)
Theorem kmalloc_correct fuel size h l :
  rep h l -> enough_fuel fuel -> 0 < size <= 0xFFFFFFF8 ->
  match kmalloc fuel size h with
  | Some (p, h') => exists l', rep h' l' /\ released h h' /\ (shielded h -> shielded h') /\
      (allocates size p l h' l' \/ (p = 0 /\ allocated l' = allocated l /\ no_fit (align8 size) l))
  | None => ~ shielded h /\ no_fit (align8 size) l /\ overwrites (heap_top h) (need_pages (align8 size)) (vm h)
  end.
Proof.
  intros Hrep Hf Hs. pose proof (kmalloc_spec fuel size h l Hrep Hf Hs) as H0.
  destruct (kmalloc fuel size h) as [[p h'] |].
  - destruct H0 as (l' & ? & ? & Hv & ?). exists l'. split; [done |]. split; [done |]. split; [| done].
    intros Hsh. by eapply steps_shielded.
  - split; [| exact H0]. intros Hsh. destruct H0 as [_ Ho]. eapply shielded_safe; [exact Hsh | | exact Ho].
    by eapply heap_top_range.
Qed.

(** Freeing the block in the middle of the list. *)
Lemma chain_free hs l1 : forall a b l2 lo hi,
  tiles lo (l1 ++ b :: l2) hi -> chain hs a (l1 ++ b :: l2) ->
  exists n, hs !! b_addr b = Some {| bh_size := b_size b; is_free := Z.b2z (b_free b); next := n |} /\
  chain (<[b_addr b := {| bh_size := b_size b; is_free := 1; next := n |}]> hs) a
    (l1 ++ Blk (b_addr b) (b_size b) true :: l2).
Proof.
  induction l1 as [| c l1 IH]; intros a b l2 lo hi Ht; simpl in *.
  - intros [-> (n & Hn & Hc)]. exists n. split; [done |]. split; [done |]. exists n.
    rewrite lookup_insert_eq. split; [done |]. destruct Ht as (Ha & Hb & _ & Ht).
    eapply chain_frame_insert; [exact Ht | unfold b_end, HEADER_SIZE; lia | done].
  - intros [-> (m & Hm & Hc)]. destruct Ht as (Ha & Hcs & _ & Ht).
    destruct (IH _ _ _ _ _ Ht Hc) as (n & Hn & Hch). exists n. split; [done |].
    split; [done |]. exists m. split; [| done].
    pose proof (tiles_bounds _ _ _ Ht) as [_ HF]. apply Forall_app in HF as [_ HF].
    inversion HF as [| ? ? [Hb _] _]. subst.
    rewrite lookup_insert_ne; [done |]. unfold b_end, HEADER_SIZE in Hb. lia.
Qed.

Lemma tiles_free l1 b l2 : forall lo hi,
  tiles lo (l1 ++ b :: l2) hi -> tiles lo (l1 ++ Blk (b_addr b) (b_size b) true :: l2) hi.
Proof. induction l1; intros lo hi; simpl; [done |]. intros (? & ? & ? & ?). eauto. Qed.

Lemma allocated_split l p s :
  (p, s) ∈ allocated l -> exists l1 b l2, l = l1 ++ b :: l2 /\ b_free b = false /\
    p = b_addr b + HEADER_SIZE /\ s = b_size b.
Proof.
  induction l as [| c l IH]; [set_solver |]. cbn. intros Hin.
  assert (Hcase : b_free c = false /\ (p, s) = (b_addr c + HEADER_SIZE, b_size c) \/ (p, s) ∈ allocated l)
    by (destruct (b_free c); set_solver).
  destruct Hcase as [[Hc [= -> ->]] | Hin']; [by exists [], c, l |].
  destruct (IH Hin') as (l1 & b & l2 & -> & ?). by exists (c :: l1), b, l2.
Qed.

Lemma kfree_spec fuel p s h l :
  rep h l -> enough_fuel fuel -> (p, s) ∈ allocated l ->
  exists h' l', kfree fuel p h = Some h' /\ rep h' l' /\ released h h' /\
    Permutation (allocated l) ((p, s) :: allocated l') /\ no_adjacent_free l'.
Proof.
  intros Hrep%rep_lock Hf Hin. pose proof Hrep as [Hch Ht Hp].
  pose proof (allocated_bounds _ _ _ _ Ht Hin) as [Hlo _]. simpl in Hlo.
  unfold HEAP_START, HEADER_SIZE in Hlo.
  destruct (allocated_split l p s Hin) as (l1 & b & l2 & -> & Hb & Hpa & ->).
  unfold kfree. rewrite (proj2 (Z.eqb_neq p 0)) by lia. cbv zeta.
  replace (p - HEADER_SIZE) with (b_addr b) by lia.
  destruct (chain_free _ _ _ _ _ _ _ Ht Hch) as (n & -> & Hch1).
  cbn [mbind option_bind is_free bh_size next]. rewrite b2z_eqb, Hb. cbn [negb].
  pose proof (tiles_free _ _ _ _ _ Ht) as Ht1. pose proof (rep_length _ _ Hrep) as Hlen.
  pose proof (rep_top _ _ Hrep) as Htop. unfold enough_fuel in Hf.
  assert (Hne : exists b0 l0, l1 ++ Blk (b_addr b) (b_size b) true :: l2 = b0 :: l0)
    by (destruct l1; simpl; eauto).
  assert (Hal : Permutation (allocated (l1 ++ b :: l2))
    ((p, b_size b) :: allocated (l1 ++ Blk (b_addr b) (b_size b) true :: l2))).
  { rewrite !allocated_app. cbn. rewrite Hb, Hpa. symmetry. apply Permutation_middle. }
  destruct Hne as (b0 & l0 & El). rewrite El in *.
  assert (Hl0 : length (b0 :: l0) = length (l1 ++ b :: l2))
    by (rewrite <- El, !length_app; done).
  destruct (coalesce_spec l0 b0 fuel _ _ HEAP_START _ ltac:(done) Htop ltac:(simpl in Hl0; lia) Ht1 Hch1)
    as (hs' & -> & Ht' & Hch' & _).
  cbn [mbind option_bind]. eexists _, _. split; [done |].
  split; [apply rep_unlock; by split |].
  split; [by apply unlock_released |]. rewrite l_coalesce_allocated.
  split; [done | apply l_coalesce_maximal].
Qed.

(** C8: [kfree] of an area that was handed out takes exactly that area back,
    merges free neighbours so that no two adjacent blocks are free, and
    restores the interrupt flag; all other areas stay as they were. *)
Theorem kfree_correct fuel p s h l :
  rep h l -> enough_fuel fuel -> (p, s) ∈ allocated l ->
  exists h' l', kfree fuel p h = Some h' /\ rep h' l' /\ released h h' /\
    Permutation (allocated l) ((p, s) :: allocated l') /\ no_adjacent_free l'.
Proof. exact (kfree_spec fuel p s h l). Qed.

(** Freeing null, or a block that is already free, changes no header. *)
Lemma kfree_ignored fuel p h b :
  p = 0 \/ hdrs h !! (p - HEADER_SIZE) = Some b /\ is_free b <> 0 ->
  exists h', kfree fuel p h = Some h' /\ hdrs h' = hdrs h /\ rflags h' = rflags h.
Proof.
  intros [-> | [Hb Hfree]]; [by exists h |]. unfold kfree.
  destruct (Z.eqb_spec p 0); [by exists h |]. simpl. rewrite Hb. simpl.
  rewrite (proj2 (Z.eqb_neq _ 0)) by done. simpl. eexists. split; [done |]. done.
Qed.

Lemma get_free_loop_spec hs l : forall fuel a lo hi acc,
  0 < lo -> hi < 2 ^ 31 -> 0 <= acc -> acc + hi - lo < 2 ^ 32 ->
  (length l < fuel)%nat -> tiles lo l hi -> chain hs a l ->
  exists f, get_free_loop fuel a acc hs = Some f /\
    f + zsum snd (allocated l) + HEADER_SIZE * Z.of_nat (length l) = acc + (hi - lo).
Proof.
  induction l as [| b l IH]; intros fuel a lo hi acc Hlo Hhi Hacc Hsum Hf Ht Hch;
    (destruct fuel as [| fuel]; [lia |]); simpl in Hf.
  - simpl in *. subst. exists acc. split; [done | lia].
  - destruct Hch as [-> (n & Hn & Hch)]. destruct Ht as (Ha & Hb & _ & Ht).
    pose proof (tiles_bounds _ _ _ Ht) as [Hle _]. unfold b_end, HEADER_SIZE in *.
    cbn [get_free_loop]. rewrite (proj2 (Z.eqb_neq _ 0)), Hn by lia.
    cbn [mbind option_bind is_free bh_size next]. rewrite b2z_eqb, negb_involutive.
    assert (Hacc' : (if b_free b then u32 (acc + b_size b) else acc) =
                    acc + (if b_free b then b_size b else 0))
      by (destruct (b_free b); rewrite ?u32_small; lia).
    rewrite Hacc'. set (d := if b_free b then b_size b else 0).
    assert (Hd : 0 <= d <= b_size b) by (unfold d; destruct (b_free b); lia).
    edestruct (IH fuel n (b_addr b + 16 + b_size b) hi (acc + d)) as (f & -> & E);
      [| exact Hhi | | | | exact Ht | exact Hch |]; [lia | lia | lia | lia |].
    exists f. split; [done |]. unfold d in E. cbn [length allocated omap list_omap].
    destruct (b_free b); cbn [zsum snd]; unfold allocated in *; lia.
Qed.

(** [get_free] reports the bytes in free blocks, and nothing is lost: free
    bytes, allocated bytes and headers add up to the pages of the heap. *)
Theorem heap_accounting fuel h l :
  rep h l -> enough_fuel fuel ->
  exists f, get_free fuel h = Some f /\
    f + zsum snd (allocated l) + HEADER_SIZE * Z.of_nat (length l) = HEAP_PAGES h * VMM_PAGE_SIZE.
Proof.
  intros Hrep Hf. pose proof (rep_length _ _ Hrep) as Hlen. destruct Hrep as [Hch Ht Hp].
  unfold enough_fuel in Hf. unfold get_free.
  destruct (get_free_loop_spec (hdrs h) l fuel (HEAP_HEAD h) HEAP_START (HEAP_START + HEAP_PAGES h * VMM_PAGE_SIZE) 0)
    as (f & E & Hs); try done; unfold HEAP_START, VMM_PAGE_SIZE, HEAP_MAX_PAGES in *; try lia.
  exists f. split; [done | lia].
Qed.

(** [init] establishes the representation, whatever was there before: there is no
    block yet that an entry could be written over. *)
Lemma init_rep fuel h :
  enough_fuel fuel -> exists h' l, init fuel h = Some h' /\ rep h' l /\ allocated l = [] /\ (shielded h -> shielded h').
Proof.
  intros Hf. unfold init.
  assert (Hrep : rep (Heap (hdrs h) 0 0 (HEAP_LOCK h) (rflags h) (vm h)) []).
  { split; cbn [hdrs HEAP_HEAD HEAP_PAGES]; [done | done | done]. }
  pose proof (expand_heap_spec fuel HEAP_INITIAL_PAGES _ _ Hrep Hf ltac:(done)) as Hex.
  destruct (expand_heap _ _ _) as [[ok h'] |].
  - destruct Hex as (l & Hrep' & _ & Hv & Hl). exists h', l. split; [done | split; [done |]]. split.
    + destruct ok; [| by subst]. by destruct Hl as [sz ->].
    + intros Hsh. eapply steps_shielded; [exact Hsh | exact Hv].
  - destruct Hex as (v & i & _ & _ & _ & Hw). by rewrite map_writes_empty in Hw by done.
Qed.
End operations.

(** ** The interface of the heap

    What the rest of the kernel relies on: [kh_rep h live] says that the areas
    in [live] are handed out. *)
Class KernelHeap (H : Type) := {
  kh_malloc : Z -> H -> option (Z * H);
  kh_free : Z -> H -> option H;
  kh_rep : H -> list (Z * Z) -> Prop;
  kh_malloc_law : forall size h live,
    kh_rep h live -> 0 < size <= 0xFFFFFFF8 ->
    exists p h', kh_malloc size h = Some (p, h') /\
      ((p = 0 /\ kh_rep h' live) \/
       (p <> 0 /\ exists s live', size <= s /\ kh_rep h' live' /\
          Permutation live' ((p, s) :: live) /\ ForallOrdPairs apart live'));
  kh_free_law : forall p s h live,
    kh_rep h live -> (p, s) ∈ live ->
    exists h' live', kh_free p h = Some h' /\ kh_rep h' live' /\
      Permutation live ((p, s) :: live')
}.

(** Enough for the largest heap. *)
Definition heap_fuel : nat := Z.to_nat (HEAP_MAX_PAGES * 256 + 3).
Lemma heap_fuel_ok : enough_fuel heap_fuel.
Proof. unfold enough_fuel, heap_fuel. rewrite Z2Nat.id; by vm_compute. Qed.

(** The heap keeps the promise behind 4 KB tables: see [kmalloc_correct] for what
    the boot loader's 2 MB pages do to it. *)
Definition holds_areas {P} `{PageAllocator P} (h : heap P) (live : list (Z * Z)) : Prop :=
  shielded h /\ exists l, rep h l /\ live = allocated l.

Lemma heap_malloc_law {P} `{PageAllocator P} size (h : heap P) live :
  holds_areas h live -> 0 < size <= 0xFFFFFFF8 ->
  exists p h', kmalloc heap_fuel size h = Some (p, h') /\
    ((p = 0 /\ holds_areas h' live) \/
     (p <> 0 /\ exists s live', size <= s /\ holds_areas h' live' /\
        Permutation live' ((p, s) :: live) /\ ForallOrdPairs apart live')).
Proof.
  intros (Hsh & l & Hrep & ->) Hs. pose proof (kmalloc_spec heap_fuel size h l Hrep heap_fuel_ok Hs) as Hk.
  destruct (kmalloc heap_fuel size h) as [[p h'] |].
  - destruct Hk as (l' & Hrep' & _ & Hv & Hcase). exists p, h'. split; [done |].
    assert (Hsh' : shielded h') by (by eapply steps_shielded).
    destruct Hcase as [(s & ? & ? & Hlo & ? & ?) | (-> & Hl & _)].
    + right. split; [unfold HEAP_START, HEADER_SIZE in Hlo; lia |].
      exists s, (allocated l'). split; [done |]. split; [split; [done | by exists l'] |]. by split.
    + left. split; [done |]. split; [done |]. exists l'. by rewrite Hl.
  - exfalso. destruct Hk as [_ Ho]. eapply shielded_safe; [exact Hsh | by eapply heap_top_range | exact Ho].
Qed.

Lemma kfree_vm {P} fuel p (h h' : heap P) : kfree fuel p h = Some h' -> vm h' = vm h.
Proof.
  unfold kfree. case_if; [by intros [= <-] |]. cbv zeta. destruct (_ !! _) as [b |]; cbn [mbind option_bind]; [| done].
  case_if; [by intros [= <-] |]. destruct (coalesce _ _ _); cbn [mbind option_bind]; [| done]. by intros [= <-].
Qed.

Lemma heap_free_law {P} `{PageAllocator P} p s (h : heap P) live :
  holds_areas h live -> (p, s) ∈ live ->
  exists h' live', kfree heap_fuel p h = Some h' /\ holds_areas h' live' /\
    Permutation live ((p, s) :: live').
Proof.
  intros (Hsh & l & Hrep & ->) Hin.
  destruct (kfree_spec heap_fuel p s h l Hrep heap_fuel_ok Hin) as (h' & l' & E & Hrep' & _ & Hp & _).
  exists h', (allocated l'). split; [done |]. split; [| done]. split; [| by exists l'].
  unfold shielded. by rewrite (kfree_vm _ _ _ _ E).
Qed.

#[export] Instance kernel_heap {P} `{PageAllocator P} : KernelHeap (heap P) := {
  kh_malloc := kmalloc heap_fuel; kh_free := kfree heap_fuel; kh_rep := holds_areas;
  kh_malloc_law := heap_malloc_law; kh_free_law := heap_free_law }.

(** A size near 2^32 wraps: the block is smaller than what was asked for. *)
Lemma kmalloc_size_wraps : align8 0xFFFFFFFF = 0 /\ align8 0x100000008 = 8.
Proof. split; reflexivity. Qed.

(** ** Witnesses *)

(** One page: a free block of 64 bytes, an area of 32 bytes, and the rest. *)
Definition demo_blocks : list blk :=
  [Blk 0x500000 64 true; Blk 0x500050 32 false; Blk 0x500080 3952 true].
Definition demo_heap : heap pmm :=
  Heap (<[0x500000 := {| bh_size := 64; is_free := 1; next := 0x500050 |}]>
       (<[0x500050 := {| bh_size := 32; is_free := 0; next := 0x500080 |}]>
       (<[0x500080 := {| bh_size := 3952; is_free := 1; next := 0 |}]> ∅)))
    0x500000 1 Spinlock_new 0x202 empty_tables.

Lemma demo_heap_rep : rep demo_heap demo_blocks.
Proof.
  split.
  - split; [done |]. eexists. split; [by vm_compute |].
    split; [done |]. eexists. split; [by vm_compute |].
    split; [done |]. eexists. split; [by vm_compute | done].
  - by vm_compute.
  - by vm_compute.
Qed.

Lemma few_free_low f : frame_free few_free f -> f + 4096 <= HEAP_START.
Proof.
  intros [(q & Hq & ->) Hu]. unfold PAGE_SIZE, HEAP_START in *. rewrite Z.div_mul in Hu by lia.
  destruct (Z.lt_ge_cases q 32) as [| Hge]; [lia |]. exfalso. unfold page_used, zget in Hu.
  rewrite (proj2 (Z.ltb_ge (q / 32) 0)) in Hu by mod_lia. cbn [few_free bitmap] in Hu.
  replace (Z.to_nat (q / 32)) with (S (Z.to_nat (q / 32 - 1))) in Hu by mod_lia. cbn [lookup list_lookup] in Hu.
  destruct (replicate (Z.to_nat 32767) 0xFFFFFFFF !! Z.to_nat (q / 32 - 1)) as [w |] eqn:E; [| done].
  apply lookup_replicate in E as [-> _]. change 0xFFFFFFFF with (Z.ones 32) in Hu.
  rewrite Z.ones_spec_low in Hu by mod_lia. done.
Qed.

Lemma empty_tables_shielded : vm_shielded empty_tables.
Proof.
  split; [| intros virt Hv; apply empty_tables_range; unfold heap_limit, HEAP_START, HEAP_MAX_PAGES, VMM_PAGE_SIZE in Hv; lia].
  exists (fun f => if f =? 0x1000 then Some (3%nat, 0) else None). split; [split |split].
  - done.
  - apply few_free_ok.
  - intros f x. destruct (Z.eqb_spec f 0x1000) as [-> |]; [| done]. intros _. split; [by exists 1 | intros [_ Hf]; by vm_compute in Hf].
  - intros f l pre i. unfold load64, present. simpl. done.
  - intros f x. destruct (Z.eqb_spec f 0x1000) as [-> |]; [| done]. intros _. left. by vm_compute.
  - intros f Hf. left. by apply few_free_low.
Qed.
Lemma demo_heap_shielded : shielded demo_heap.
Proof. exact empty_tables_shielded. Qed.

(** Behind 2 MB pages the first growth writes its entries into the new pages, before
    their header is made; the second one writes over the first. *)
Definition boot_heap_vm : vmm pmm := Vmm (store64 (vm_mem boot_like) 0x3018 0x600083) 0x1000 few_free.

Lemma second_growth_overwrites :
  forallb (fun i => negb (map_writes HEAP_START 0x600000 (0x600000 + i * VMM_PAGE_SIZE) boot_heap_vm)) (seqZ 0 16) = true /\
  map_writes HEAP_START 0x610000 0x610000 boot_heap_vm = true.
Proof. by vm_compute. Qed.

Lemma kmalloc_correct_witness :
  match kmalloc heap_fuel 20 demo_heap with
  | Some (p, h') => exists l', rep h' l' /\ shielded h' /\ allocates 20 p demo_blocks h' l'
  | None => False
  end.
Proof.
  pose proof (kmalloc_correct heap_fuel 20 demo_heap demo_blocks demo_heap_rep heap_fuel_ok ltac:(lia)) as H.
  destruct (kmalloc heap_fuel 20 demo_heap) as [[p h'] |].
  - destruct H as (l' & Hrep & _ & Hsh & [Ha | (_ & _ & Hno)]).
    + exists l'. split; [exact Hrep | split; [exact (Hsh demo_heap_shielded) | exact Ha]].
    + exfalso. apply Forall_inv in Hno. specialize (Hno eq_refl). by vm_compute in Hno.
  - destruct H as [Hsh _]. exact (Hsh demo_heap_shielded).
Defined.

Lemma kfree_correct_witness :
  exists h' l', kfree heap_fuel 0x500060 demo_heap = Some h' /\ rep h' l' /\
    Permutation [(0x500060, 32)] ((0x500060, 32) :: allocated l').
Proof.
  destruct (kfree_correct heap_fuel 0x500060 32 demo_heap demo_blocks demo_heap_rep heap_fuel_ok)
    as (h' & l' & E & Hrep & _ & Hp & _); [by left |].
  exists h', l'. split; [exact E | split; [exact Hrep | exact Hp]].
Defined.

Lemma heap_accounting_witness :
  exists f, get_free heap_fuel demo_heap = Some f /\ f + 32 + 16 * 3 = 4096.
Proof.
  destruct (heap_accounting heap_fuel demo_heap demo_blocks demo_heap_rep heap_fuel_ok)
    as (f & E & Hs).
  exists f. split; [exact E | exact Hs].
Defined.
