(* ===== verification/Thread.v ===== *)
(** Round-robin scheduler ([src/src/thread.rs]).

    The state is the table of 32 thread control blocks, the current slot, the
    identifier counter and the stack whose release is deferred, together with
    the parts of the machine the scheduler touches: memory (initial stack
    frames), RFLAGS, and the kernel heap, through the [KernelHeap] interface.
    [context_switch] is assembly: it stores the stack pointer of the thread
    that leaves and loads that of the thread that enters; the pointer it
    stores is the argument [sp] of the operations here. *)
From S2P Require Import Prelude StringRs Pmm Sync Vmm Heap.

Definition THREAD_STACK_SIZE : Z := 4096.
Definition MAX_THREADS : nat := 32.

Inductive ThreadState := Ready | Running | Blocked | Dead.
#[export] Instance ThreadState_eq_dec : EqDecision ThreadState.
Proof. solve_decision. Defined.

Record Thread := { id : Z; rsp : Z; state : ThreadState; stack_base : Z }.

Definition with_state (st : ThreadState) (t : Thread) : Thread :=
  {| id := id t; rsp := rsp t; state := st; stack_base := stack_base t |}.
Definition with_rsp (sp : Z) (t : Thread) : Thread :=
  {| id := id t; rsp := sp; state := state t; stack_base := stack_base t |}.
Definition with_stack (b : Z) (t : Thread) : Thread :=
  {| id := id t; rsp := rsp t; state := state t; stack_base := b |}.

Section code.
Context {H : Type} `{KernelHeap H}.

Record sched := Sched {
  THREADS : list Thread; CURRENT_THREAD : nat; NEXT_ID : Z; PENDING_FREE_STACK : Z;
  t_mem : mem; t_rflags : Z; t_heap : H }.

Definition set_threads (ts : list Thread) (s : sched) : sched :=
  Sched ts (CURRENT_THREAD s) (NEXT_ID s) (PENDING_FREE_STACK s) (t_mem s) (t_rflags s) (t_heap s).
Definition set_flags (f : Z) (s : sched) : sched :=
  Sched (THREADS s) (CURRENT_THREAD s) (NEXT_ID s) (PENDING_FREE_STACK s) (t_mem s) f (t_heap s).

Definition init (s : sched) : sched :=
  let ts := map (with_state Dead) (THREADS s) in
  let ts := alter (fun t => {| id := 0; rsp := 0; state := Running; stack_base := 0 |}) 0%nat ts in
  Sched ts 0 1 (PENDING_FREE_STACK s) (t_mem s) (t_rflags s) (t_heap s).

(** The first dead slot. *)
Fixpoint find_dead (ts : list Thread) (i : nat) : option nat :=
  match ts with
  | [] => None
  | t :: ts => if decide (state t = Dead) then Some i else find_dead ts (S i)
  end.

(** The frame a new thread starts from: six saved registers, the entry point
    as [context_switch]'s return address, and [exit] below it. *)
Definition initial_frame (stack entry exit_fn : Z) (m : mem) : mem * Z :=
  let m := memset m stack 0 (Z.to_nat THREAD_STACK_SIZE) in
  let sp := stack + THREAD_STACK_SIZE in
  let sp := sp - 8 in let m := store64 m sp exit_fn in
  let sp := sp - 8 in let m := store64 m sp entry in
  let sp := sp - 8 in let m := store64 m sp 0 in
  let sp := sp - 8 in let m := store64 m sp 0 in
  let sp := sp - 8 in let m := store64 m sp 0 in
  let sp := sp - 8 in let m := store64 m sp 0 in
  let sp := sp - 8 in let m := store64 m sp 0 in
  let sp := sp - 8 in let m := store64 m sp 0 in
  (m, sp).

(** [exit_fn] is the address of [exit]. *)
Definition create (exit_fn entry : Z) (s : sched) : option (Z * sched) :=
  match find_dead (THREADS s) 0 with
  | None => Some (-1, s)
  | Some slot =>
      '(stack, h) ← kh_malloc THREAD_STACK_SIZE (t_heap s);
      if stack =? 0 then
        Some (-1, Sched (THREADS s) (CURRENT_THREAD s) (NEXT_ID s) (PENDING_FREE_STACK s)
                    (t_mem s) (t_rflags s) h)
      else
        let '(m, sp) := initial_frame stack entry exit_fn (t_mem s) in
        let tid := NEXT_ID s in
        let t := {| id := tid; rsp := sp; state := Ready; stack_base := stack |} in
        Some (i32 tid, Sched (<[slot := t]> (THREADS s)) (CURRENT_THREAD s) (u32 (tid + 1))
                         (PENDING_FREE_STACK s) m (t_rflags s) h)
  end.

(** [for i in 1..=MAX_THREADS]: the first ready thread after [old]; [old]
    itself when there is none. *)
Fixpoint scan (n i old : nat) (ts : list Thread) : option nat :=
  match n with
  | O => Some old
  | S n =>
      let candidate := ((old + i) mod MAX_THREADS)%nat in
      t ← ts !! candidate;
      if decide (state t = Ready) then Some candidate else scan n (S i) old ts
  end.

(** The part of [schedule] after the deferred release. *)
Definition switch (sp : Z) (s : sched) : option sched :=
  let old := CURRENT_THREAD s in
  next ← scan MAX_THREADS 1 old (THREADS s);
  if decide (next = old) then Some s else
  t ← THREADS s !! old;
  let ts := if decide (state t = Running)
            then <[old := with_state Ready t]> (THREADS s) else THREADS s in
  t' ← ts !! next;
  let ts := <[next := with_state Running t']> ts in
  (* context_switch: the leaving thread's stack pointer is saved *)
  let ts := alter (with_rsp sp) old ts in
  Some (Sched ts next (NEXT_ID s) (PENDING_FREE_STACK s) (t_mem s) (t_rflags s) (t_heap s)).

Definition schedule (sp : Z) (s : sched) : option sched :=
  s ← (if negb (PENDING_FREE_STACK s =? 0) then
         h ← kh_free (PENDING_FREE_STACK s) (t_heap s);
         Some (Sched (THREADS s) (CURRENT_THREAD s) (NEXT_ID s) 0 (t_mem s) (t_rflags s) h)
       else Some s);
  switch sp s.

(** Up to the context switch; the returned flags stay on the stack of the
    thread that yields. *)
Definition yield_enter (sp : Z) (s : sched) : option (Z * sched) :=
  let flags := t_rflags s in
  s ← schedule sp (set_flags (cli (t_rflags s)) s);
  Some (flags, s).

(** When the thread that yielded runs again. *)
Definition yield_leave (flags : Z) (s : sched) : sched :=
  if negb (Z.land flags 0x200 =? 0) then set_flags (sti (t_rflags s)) s else s.

(** [true]: some other thread runs now.  [false]: no thread was ready, and the
    caller stays in the final [hlt] loop. *)
Definition exit (sp : Z) (s : sched) : option (bool * sched) :=
  let s := set_flags (cli (t_rflags s)) s in
  let cur := CURRENT_THREAD s in
  t ← THREADS s !! cur;
  let t := with_state Dead t in
  let '(t, pending) :=
    if negb (stack_base t =? 0) then (with_stack 0 t, stack_base t)
    else (t, PENDING_FREE_STACK s) in
  let s := Sched (<[cur := t]> (THREADS s)) cur (NEXT_ID s) pending
             (t_mem s) (t_rflags s) (t_heap s) in
  s ← schedule sp s;
  Some (negb (Nat.eqb (CURRENT_THREAD s) cur), s).

Definition get_current (s : sched) : option Z :=
  t ← THREADS s !! CURRENT_THREAD s; Some (i32 (id t)).

Definition live_id (n : Z) (t : Thread) : bool :=
  negb (bool_decide (state t = Dead)) && (id t =? u32 n).

Definition is_alive (n : Z) (s : sched) : bool := existsb (live_id n) (THREADS s).

Definition get_count (s : sched) : Z :=
  zsum (fun t => if decide (state t = Dead) then 0 else 1) (THREADS s).

(** [None] is the null pointer. *)
Definition get (index : Z) (s : sched) : option Thread :=
  if (index <? 0) || (index >=? Z.of_nat MAX_THREADS) then None
  else THREADS s !! Z.to_nat index.

Definition get_by_id (n : Z) (s : sched) : option Thread :=
  head (List.filter (live_id n) (THREADS s)).
End code.
Arguments sched H : clear implicits.

(** ** What the scan finds *)

Definition in_state (st : ThreadState) (ts : list Thread) (k : nat) : Prop :=
  exists t, ts !! k = Some t /\ state t = st.

(** The [j]-th slot after [old] in round-robin order. *)
Definition after (old j : nat) : nat := ((old + j) mod MAX_THREADS)%nat.

Lemma scan_spec n : forall i old ts,
  length ts = MAX_THREADS ->
  exists r, scan n i old ts = Some r /\
    ((exists j, (i <= j < i + n)%nat /\ r = after old j /\ in_state Ready ts r /\
        forall j', (i <= j' < j)%nat -> ~ in_state Ready ts (after old j')) \/
     (r = old /\ forall j, (i <= j < i + n)%nat -> ~ in_state Ready ts (after old j))).
Proof.
  induction n as [| n IH]; intros i old ts Hl; cbn [scan].
  { exists old. split; [done | right]. split; [done | lia]. }
  fold (after old i).
  destruct (lookup_lt_is_Some_2 ts (after old i)) as [t Ht].
  { rewrite Hl. apply Nat.mod_upper_bound. done. }
  rewrite Ht. cbn [mbind option_bind]. destruct (decide (state t = Ready)) as [Hr | Hr].
  - exists (after old i). split; [done | left]. exists i. split_and!; [lia | lia | done | by exists t |].
    lia.
  - assert (Hno : ~ in_state Ready ts (after old i)) by (intros (t' & Ht' & Hs); congruence).
    destruct (IH (S i) old ts Hl) as (r & E & [(j & Hj & Hrj & Hready & Hfirst) | [Hr0 Hnone]]);
      exists r; (split; [done |]).
    + left. exists j. split_and!; [lia | lia | done | done |]. intros j' Hj'.
      destruct (decide (j' = i)) as [-> |]; [done | apply Hfirst; lia].
    + right. split; [done |]. intros j Hj.
      destruct (decide (j = i)) as [-> |]; [done | apply Hnone; lia].
Qed.

(** Every other slot is [after old j] for exactly one [j] of the scan. *)
Lemma after_inj old j j' :
  (j < MAX_THREADS)%nat -> (j' < MAX_THREADS)%nat -> after old j = after old j' -> j = j'.
Proof.
  unfold after, MAX_THREADS. intros. 
  pose proof (Nat.div_mod_eq (old + j) 32). pose proof (Nat.div_mod_eq (old + j') 32). lia.
Qed.

Definition distance (old k : nat) : nat := ((k + MAX_THREADS - old) mod MAX_THREADS)%nat.

Lemma after_distance old k :
  (old < MAX_THREADS)%nat -> (k < MAX_THREADS)%nat -> after old (distance old k) = k.
Proof.
  unfold after, distance, MAX_THREADS. intros.
  pose proof (Nat.div_mod_eq (k + 32 - old) 32).
  pose proof (Nat.div_mod_eq (old + (k + 32 - old) mod 32) 32).
  pose proof (Nat.mod_upper_bound (k + 32 - old) 32 ltac:(lia)).
  pose proof (Nat.mod_upper_bound (old + (k + 32 - old) mod 32) 32 ltac:(lia)). lia.
Qed.

Lemma distance_pos old k :
  (old < MAX_THREADS)%nat -> (k < MAX_THREADS)%nat -> k <> old ->
  (1 <= distance old k < MAX_THREADS)%nat.
Proof.
  unfold distance, MAX_THREADS. intros.
  pose proof (Nat.div_mod_eq (k + 32 - old) 32).
  pose proof (Nat.mod_upper_bound (k + 32 - old) 32 ltac:(lia)). lia.
Qed.

(** Moving [j] slots forward shortens the distance by [j]. *)
Lemma distance_after old k j :
  (old < MAX_THREADS)%nat -> (k < MAX_THREADS)%nat -> (j <= distance old k)%nat ->
  distance (after old j) k = (distance old k - j)%nat.
Proof.
  unfold after, distance, MAX_THREADS. intros Ho Hk Hj.
  pose proof (Nat.div_mod_eq (k + 32 - old) 32).
  pose proof (Nat.mod_upper_bound (k + 32 - old) 32 ltac:(lia)).
  pose proof (Nat.div_mod_eq (old + j) 32).
  pose proof (Nat.mod_upper_bound (old + j) 32 ltac:(lia)).
  pose proof (Nat.div_mod_eq (k + 32 - (old + j) mod 32) 32).
  pose proof (Nat.mod_upper_bound (k + 32 - (old + j) mod 32) 32 ltac:(lia)). lia.
Qed.

(** ** One switch *)

Section switching.
Context {H : Type} `{KernelHeap H}.
Implicit Types s : sched H.

(** The table and the current slot are sound: one thread runs, the current
    one. *)
Record table_ok s : Prop := {
  ok_length : length (THREADS s) = MAX_THREADS;
  ok_current : in_state Running (THREADS s) (CURRENT_THREAD s);
  ok_running : forall k, in_state Running (THREADS s) k -> k = CURRENT_THREAD s }.

(** During [exit] no thread runs. *)
Record table_exiting s : Prop := {
  ex_length : length (THREADS s) = MAX_THREADS;
  ex_current : in_state Dead (THREADS s) (CURRENT_THREAD s);
  ex_running : forall k, ~ in_state Running (THREADS s) k }.

(** Thread [t] of slot [k] when the switch goes from [old] to [r]. *)
Definition switched (sp : Z) (old r k : nat) (t : Thread) : Thread :=
  {| id := id t; rsp := if decide (k = old) then sp else rsp t;
     state := if decide (k = r) then Running
              else if decide (state t = Running) then Ready else state t;
     stack_base := stack_base t |}.

Definition none_ready s : Prop :=
  forall j, (1 <= j <= MAX_THREADS)%nat -> ~ in_state Ready (THREADS s) (after (CURRENT_THREAD s) j).

(** The switch goes to the first ready thread after the current one. *)
Definition switches_to s j : Prop :=
  (1 <= j < MAX_THREADS)%nat /\
  in_state Ready (THREADS s) (after (CURRENT_THREAD s) j) /\
  forall j', (1 <= j' < j)%nat -> ~ in_state Ready (THREADS s) (after (CURRENT_THREAD s) j').

Lemma after_full old : (old < MAX_THREADS)%nat -> after old MAX_THREADS = old.
Proof.
  unfold after, MAX_THREADS. intros.
  pose proof (Nat.div_mod_eq (old + 32) 32).
  pose proof (Nat.mod_upper_bound (old + 32) 32 ltac:(lia)). lia.
Qed.

Lemma in_state_lt st ts k : in_state st ts k -> (k < length ts)%nat.
Proof. intros (t & Ht & _). by eapply lookup_lt_Some. Qed.

Lemma switch_table sp ts old r t t' :
  ts !! old = Some t -> ts !! r = Some t' -> r <> old ->
  (forall k u, ts !! k = Some u -> state u = Running -> k = old) ->
  alter (with_rsp sp) old
    (<[r := with_state Running t']>
       (if decide (state t = Running) then <[old := with_state Ready t]> ts else ts)) =
  imap (switched sp old r) ts.
Proof.
  intros Ht Ht' Hne Hrun. pose proof (lookup_lt_Some _ _ _ Ht) as Hl.
  pose proof (lookup_lt_Some _ _ _ Ht') as Hl'.
  apply list_eq. intros k. rewrite list_lookup_imap.
  destruct (decide (k = old)) as [-> | Hk].
  - rewrite list_lookup_alter_eq, list_lookup_insert_ne by done.
    destruct (decide (state t = Running)) as [Hd | Hd];
      [rewrite list_lookup_insert_eq by done |]; rewrite Ht; unfold switched; simpl;
      repeat case_decide; congruence || (by destruct t).
  - rewrite list_lookup_alter_ne by done. unfold switched.
    destruct (decide (k = r)) as [-> | Hkr].
    + rewrite list_lookup_insert_eq by (case_decide; by rewrite ?length_insert).
      rewrite Ht'. simpl. repeat case_decide; congruence || done.
    + rewrite list_lookup_insert_ne by done.
      assert (Hsame : (if decide (state t = Running)
        then <[old := with_state Ready t]> ts else ts) !! k = ts !! k)
        by (case_decide; [by rewrite list_lookup_insert_ne | done]).
      rewrite Hsame. destruct (ts !! k) as [u |] eqn:Hu; [| done]. simpl.
      assert (state u <> Running) by (intros Hur; by apply Hk, (Hrun k u)).
      repeat case_decide; congruence || (by destruct u).
Qed.

Lemma switch_spec sp s st :
  length (THREADS s) = MAX_THREADS ->
  in_state st (THREADS s) (CURRENT_THREAD s) -> st <> Ready ->
  (forall k, in_state Running (THREADS s) k -> k = CURRENT_THREAD s) ->
  let old := CURRENT_THREAD s in
  (none_ready s /\ switch sp s = Some s) \/
  (exists j, switches_to s j /\
     switch sp s = Some (Sched (imap (switched sp old (after old j)) (THREADS s)) (after old j)
       (NEXT_ID s) (PENDING_FREE_STACK s) (t_mem s) (t_rflags s) (t_heap s))).
Proof.
  intros Hl Hcur Hst Hrun old. unfold switch. fold old. pose proof (in_state_lt _ _ _ Hcur) as Hlt.
  rewrite Hl in Hlt.
  destruct (scan_spec MAX_THREADS 1 old (THREADS s) Hl)
    as (r & -> & [(j & Hj & -> & Hready & Hfirst) | [-> Hnone]]); cbn [mbind option_bind].
  - right. assert (Hjm : j <> MAX_THREADS).
    { intros ->. fold old in Hlt. rewrite after_full in Hready by done.
      destruct Hready as (t & Ht & Hs), Hcur as (t' & Ht' & Hs'). fold old in Ht'. congruence. }
    assert (Hne : after old j <> old).
    { intros E. rewrite E in Hready.
      destruct Hready as (t & Ht & Hs), Hcur as (t' & Ht' & Hs'). fold old in Ht'. congruence. }
    exists j. split; [split_and!; [lia | lia | done | done] |].
    rewrite decide_False by done. destruct Hcur as (t & Ht & Hs). fold old in Ht. rewrite Ht.
    cbn [mbind option_bind]. destruct Hready as (t' & Ht' & Hs').
    assert (Hnext : forall ts, ts = (if decide (state t = Running)
        then <[old := with_state Ready t]> (THREADS s) else THREADS s) -> ts !! after old j = Some t').
    { intros ts ->. case_decide; [by rewrite list_lookup_insert_ne | done]. }
    rewrite (Hnext _ eq_refl). cbn [mbind option_bind]. do 2 f_equal.
    apply switch_table; [done | done | congruence |].
    intros k u Hu Hru. apply Hrun. by exists u.
  - left. rewrite decide_True by done. split; [| done]. intros j Hj. apply Hnone. lia.
Qed.

Lemma in_state_imap sp old r ts st k :
  in_state st (imap (switched sp old r) ts) k <->
  exists t, ts !! k = Some t /\ state (switched sp old r k t) = st.
Proof.
  unfold in_state. setoid_rewrite list_lookup_imap. split.
  - intros (t & Ht & Hs). destruct (ts !! k) as [u |]; [| done]. injection Ht as <-. by exists u.
  - intros (t & -> & Hs). eexists. by split.
Qed.

(** After a switch the thread switched to is the only one that runs. *)
Lemma switched_ok sp s s' j :
  length (THREADS s) = MAX_THREADS -> switches_to s j ->
  THREADS s' = imap (switched sp (CURRENT_THREAD s) (after (CURRENT_THREAD s) j)) (THREADS s) ->
  CURRENT_THREAD s' = after (CURRENT_THREAD s) j -> table_ok s'.
Proof.
  intros Hl (_ & (t & Ht & _) & _) Hts Hc. split.
  - by rewrite Hts, length_imap.
  - rewrite Hts, Hc, in_state_imap. exists t. split; [done |]. simpl. by rewrite decide_True.
  - intros k. rewrite Hts, Hc, in_state_imap. intros (u & _ & Hs). simpl in Hs.
    repeat case_decide; congruence.
Qed.

Lemma yield_step sp s :
  table_ok s -> PENDING_FREE_STACK s = 0 ->
  exists s', yield_enter sp s = Some (t_rflags s, s') /\ table_ok s' /\ PENDING_FREE_STACK s' = 0 /\
    ((none_ready s /\ THREADS s' = THREADS s /\ CURRENT_THREAD s' = CURRENT_THREAD s) \/
     exists j, switches_to s j /\ CURRENT_THREAD s' = after (CURRENT_THREAD s) j /\
       THREADS s' = imap (switched sp (CURRENT_THREAD s) (after (CURRENT_THREAD s) j)) (THREADS s)).
Proof.
  intros Hok Hp. unfold yield_enter, schedule. simpl. rewrite Hp. simpl.
  set (s1 := set_flags (cli (t_rflags s)) s).
  destruct Hok as [Hl Hc Hr].
  destruct (switch_spec sp s1 Running) as [[Hn ->] | (j & Hj & ->)]; [done | done | done | done | |];
    cbn [mbind option_bind]; eexists; (split; [done |]).
  - split; [by split | split; [done |]]. by left.
  - split; [by eapply (switched_ok sp s) | split; [done |]]. right. by exists j.
Qed.

(** Consecutive yields, each by the thread the previous one switched to. *)
Fixpoint yields (sps : list Z) s : option (sched H) :=
  match sps with
  | [] => Some s
  | sp :: sps => '(_, s) ← yield_enter sp s; yields sps s
  end.

(** C9: round robin is fair.  A ready thread runs after at most as many yields
    as its slot is slots away from the running one, whatever the other threads
    are and whatever their stacks. *)
Theorem yield_fair s k sps :
  table_ok s -> PENDING_FREE_STACK s = 0 -> in_state Ready (THREADS s) k ->
  length sps = distance (CURRENT_THREAD s) k ->
  exists n s', (1 <= n <= length sps)%nat /\ yields (take n sps) s = Some s' /\
    table_ok s' /\ CURRENT_THREAD s' = k.
Proof.
  remember (length sps) as d eqn:Hd. revert s sps Hd.
  induction d as [d IH] using lt_wf_ind. intros s sps Hd Hok Hp Hk Hdist.
  pose proof Hok as [Hl Hc Hr]. pose proof (in_state_lt _ _ _ Hk) as Hkl.
  pose proof (in_state_lt _ _ _ Hc) as Hcl. rewrite Hl in Hkl, Hcl.
  assert (Hne : k <> CURRENT_THREAD s).
  { intros ->. destruct Hk as (t & Ht & Hs), Hc as (t' & Ht' & Hs'). congruence. }
  pose proof (distance_pos _ _ Hcl Hkl Hne) as Hpos.
  destruct sps as [| sp sps]; [simpl in Hd; lia |].
  destruct (yield_step sp s Hok Hp) as (s1 & E & Hok1 & Hp1 & [[Hn _] | (j & Hj & Hc1 & Hts)]).
  { exfalso. apply (Hn (distance (CURRENT_THREAD s) k)); [lia |]. by rewrite after_distance. }
  destruct Hj as (Hj & Hready & Hfirst).
  assert (Hjd : (j <= distance (CURRENT_THREAD s) k)%nat).
  { destruct (decide (j <= distance (CURRENT_THREAD s) k)%nat); [done |]. exfalso.
    apply (Hfirst (distance (CURRENT_THREAD s) k)); [lia |]. by rewrite after_distance. }
  destruct (decide (j = distance (CURRENT_THREAD s) k)) as [Ej | Ej].
  { exists 1%nat, s1. simpl. rewrite E. cbn [mbind option_bind]. split; [lia |].
    split; [done |]. split; [done |]. rewrite Hc1, Ej. by apply after_distance. }
  assert (Hk1 : in_state Ready (THREADS s1) k).
  { rewrite Hts, in_state_imap. destruct Hk as (t & Ht & Hs). exists t. split; [done |]. simpl.
    rewrite decide_False, Hs, decide_False; [done | done |]. intros ->.
    apply Ej, (after_inj (CURRENT_THREAD s)); [lia | lia | by rewrite after_distance]. }
  pose proof (distance_after _ _ j Hcl Hkl Hjd) as Hd1. rewrite <- Hc1 in Hd1.
  set (d1 := distance (CURRENT_THREAD s1) k) in *.
  assert (Hlt : (d1 < d)%nat) by lia. simpl in Hd.
  destruct (IH d1 Hlt s1 (take d1 sps)) as (n & s' & Hn & E' & Hok' & Hc');
    [rewrite length_take; lia | done | done | done | done |].
  exists (S n), s'. split; [lia |]. cbn [take yields]. rewrite E. cbn [mbind option_bind].
  rewrite take_take, Nat.min_l in E' by lia. done.
Qed.

(** ** Stacks: creation and exit *)

(** The stack of every thread is an area of its own in the heap. *)
Record stacks_ok (ts : list Thread) (live : list (Z * Z)) : Prop := {
  st_live : forall k t, ts !! k = Some t -> stack_base t <> 0 ->
    exists sz, THREAD_STACK_SIZE <= sz /\ (stack_base t, sz) ∈ live;
  st_own : forall k k' t t', ts !! k = Some t -> ts !! k' = Some t' ->
    stack_base t = stack_base t' -> stack_base t <> 0 -> k = k';
  st_dead : forall k t, ts !! k = Some t -> state t = Dead -> stack_base t = 0 }.

Record wf s (live : list (Z * Z)) : Prop := {
  wf_table : table_ok s;
  wf_pending : PENDING_FREE_STACK s = 0;
  wf_heap : kh_rep (t_heap s) live;
  wf_stacks : stacks_ok (THREADS s) live }.

Lemma find_dead_spec ts : forall i,
  match find_dead ts i with
  | Some k => (i <= k)%nat /\ in_state Dead ts (k - i) /\
              forall k', (i <= k' < k)%nat -> ~ in_state Dead ts (k' - i)
  | None => forall k, ~ in_state Dead ts k
  end.
Proof.
  induction ts as [| t ts IH]; intros i; cbn [find_dead].
  - intros k (t & Ht & _). done.
  - case_decide as Hd.
    + split_and!; [lia | exists t; by rewrite Nat.sub_diag | lia].
    + specialize (IH (S i)). destruct (find_dead ts (S i)) as [k |].
      * destruct IH as (Hk & Hdead & Hfirst). split_and!; [lia | |].
        -- replace (k - i)%nat with (S (k - S i)) by lia. done.
        -- intros k' Hk'. destruct (decide (k' = i)) as [-> |].
           { rewrite Nat.sub_diag. intros (u & [= <-] & Hu). done. }
           replace (k' - i)%nat with (S (k' - S i)) by lia. apply Hfirst. lia.
      * intros [| k] (u & Hu & Hs); [by injection Hu as <- | apply (IH k); by exists u].
Qed.

(** What [context_switch] pops from the frame of a thread that never ran. *)
Record starts_at (m : mem) (sp entry exit_fn : Z) : Prop := {
  fr_regs : forall j, 0 <= j < 6 -> load64 m (sp + 8 * j) = 0;
  fr_entry : load64 m (sp + 48) = entry;
  fr_exit : load64 m (sp + 56) = exit_fn }.

Lemma initial_frame_spec stack entry exit_fn m m' sp :
  0 <= entry < 2 ^ 64 -> 0 <= exit_fn < 2 ^ 64 ->
  initial_frame stack entry exit_fn m = (m', sp) ->
  starts_at m' sp entry exit_fn /\ sp = stack + THREAD_STACK_SIZE - 64.
Proof.
  intros He Hx. unfold initial_frame. cbv zeta. generalize (memset m stack 0 (Z.to_nat THREAD_STACK_SIZE)).
  intros m0 [= <- <-]. set (top := stack + THREAD_STACK_SIZE). split; [| lia].
  split; [intros j Hj | |];
    [assert (Hc : j = 0 \/ j = 1 \/ j = 2 \/ j = 3 \/ j = 4 \/ j = 5) by lia;
     destruct Hc as [-> | [-> | [-> | [-> | [-> | ->]]]]] | |];
    repeat first [rewrite load64_store64_eq by lia | rewrite load64_store64_other by lia]; done.
Qed.

Lemma apart_sym x y : apart x y -> apart y x.
Proof. unfold apart. tauto. Qed.

(** A new area starts where no stack starts. *)
Lemma fresh_area (live live' : list (Z * Z)) p w q sz :
  Permutation live' ((p, w) :: live) -> ForallOrdPairs apart live' ->
  0 < w -> 0 < sz -> (q, sz) ∈ live -> q <> p.
Proof.
  intros Hp Ha Hs Hsz Hin ->.
  apply (ForallOrdPairs_perm apart _ _ apart_sym Hp) in Ha.
  inversion Ha as [| ? ? Hx _]; subst. apply list_elem_of_In in Hin.
  rewrite List.Forall_forall in Hx. specialize (Hx _ Hin).
  unfold apart, HEADER_SIZE in Hx. simpl in Hx. lia.
Qed.

Lemma stacks_new ts live live' slot t w :
  stacks_ok ts live -> in_state Dead ts slot ->
  Permutation live' ((stack_base t, w) :: live) -> ForallOrdPairs apart live' ->
  THREAD_STACK_SIZE <= w -> state t <> Dead -> stacks_ok (<[slot := t]> ts) live'.
Proof.
  unfold THREAD_STACK_SIZE. intros Hok Hdead Hp Ha Hs Hst.
  pose proof (in_state_lt _ _ _ Hdead) as Hlt.
  assert (Hold : forall k u, ts !! k = Some u -> stack_base u <> 0 -> stack_base u <> stack_base t).
  { intros k u Hu Hne. destruct (st_live _ _ Hok k u Hu Hne) as (sz & Hsz & Hin).
    unfold THREAD_STACK_SIZE in Hsz. eapply fresh_area; [exact Hp | done | lia | | exact Hin]. lia. }
  split.
  - intros k u Hu Hne. destruct (decide (k = slot)) as [-> | Hk].
    + rewrite list_lookup_insert_eq in Hu by done. injection Hu as <-.
      exists w. split; [done |]. rewrite Hp. by left.
    + rewrite list_lookup_insert_ne in Hu by done.
      destruct (st_live _ _ Hok k u Hu Hne) as (sz & Hsz & Hin).
      exists sz. split; [done |]. rewrite Hp. by right.
  - intros k k' u u'. destruct (decide (k = slot)) as [-> | Hk], (decide (k' = slot)) as [-> | Hk'];
      rewrite ?list_lookup_insert_eq, ?list_lookup_insert_ne by done; intros Hu Hu' E Hne.
    + done.
    + injection Hu as <-. exfalso. rewrite E in Hne. by apply (Hold k' u').
    + injection Hu' as <-. exfalso. by apply (Hold k u).
    + by apply (st_own _ _ Hok k k' u u').
  - intros k u. destruct (decide (k = slot)) as [-> | Hk];
      rewrite ?list_lookup_insert_eq, ?list_lookup_insert_ne by done.
    + intros [= <-]. done.
    + apply (st_dead _ _ Hok).
Qed.

(** The slot [create] fills and the thread it puts there. *)
Definition created (exit_fn entry : Z) s s' : Prop :=
  exists slot t sz,
    in_state Dead (THREADS s) slot /\
    (forall k, (k < slot)%nat -> ~ in_state Dead (THREADS s) k) /\
    THREADS s' = <[slot := t]> (THREADS s) /\
    id t = NEXT_ID s /\ state t = Ready /\ THREAD_STACK_SIZE <= sz /\
    rsp t = stack_base t + THREAD_STACK_SIZE - 64 /\
    starts_at (t_mem s') (rsp t) entry exit_fn.

Lemma table_insert_ready s s' slot t :
  table_ok s -> in_state Dead (THREADS s) slot -> state t = Ready ->
  THREADS s' = <[slot := t]> (THREADS s) -> CURRENT_THREAD s' = CURRENT_THREAD s -> table_ok s'.
Proof.
  intros [Hl Hc Hr] Hdead Ht Hts Hcur. pose proof (in_state_lt _ _ _ Hdead) as Hlt.
  assert (Hne : CURRENT_THREAD s <> slot).
  { intros E. rewrite E in Hc. destruct Hc as (u & Hu & Hs), Hdead as (u' & Hu' & Hs'). congruence. }
  split; rewrite Hts, ?Hcur.
  - by rewrite length_insert.
  - destruct Hc as (u & Hu & Hs). exists u. by rewrite list_lookup_insert_ne.
  - intros k (u & Hu & Hs). apply Hr. destruct (decide (k = slot)) as [-> | Hk].
    + rewrite list_lookup_insert_eq in Hu by done. congruence.
    + rewrite list_lookup_insert_ne in Hu by done. by exists u.
Qed.

(** [create] takes the first dead slot and makes a ready thread there whose
    stack is a fresh heap area shared with no other thread, and whose first
    frame makes [context_switch] clear the six callee-saved registers, enter
    the thread's function and return into [exit]; it fails, changing no thread
    and keeping no memory, when the table is full or the heap is exhausted. *)
Theorem create_correct exit_fn entry s live :
  wf s live -> 0 <= entry < 2 ^ 64 -> 0 <= exit_fn < 2 ^ 64 ->
  exists r s' live', create exit_fn entry s = Some (r, s') /\ wf s' live' /\
    ((r = i32 (NEXT_ID s) /\ created exit_fn entry s s') \/
     (r = -1 /\ THREADS s' = THREADS s /\ live' = live)).
Proof.
  intros [Htab Hpend Hheap Hst] He Hx. unfold create.
  pose proof (find_dead_spec (THREADS s) 0) as Hf.
  destruct (find_dead (THREADS s) 0) as [slot |].
  2: { exists (-1), s, live. split; [done |]. split; [by split | by right]. }
  destruct Hf as (_ & Hdead & Hfirst). rewrite Nat.sub_0_r in Hdead.
  destruct (kh_malloc_law THREAD_STACK_SIZE _ _ Hheap) as
    (stack & h & E & [[-> Hh] | (Hnz & sz & live' & Hsz & Hh & Hperm & Hap)]);
    [unfold THREAD_STACK_SIZE; lia | |]; rewrite E; cbn [mbind option_bind].
  - exists (-1). simpl. eexists _, live. split; [done |].
    split; [split; [by destruct Htab | done | done | done] | by right].
  - rewrite (proj2 (Z.eqb_neq _ _) Hnz).
    destruct (initial_frame stack entry exit_fn (t_mem s)) as [m sp] eqn:Efr.
    destruct (initial_frame_spec _ _ _ _ _ _ He Hx Efr) as [Hstart Hsp].
    set (t := {| id := NEXT_ID s; rsp := sp; state := Ready; stack_base := stack |}).
    exists (i32 (NEXT_ID s)). eexists _, live'. split; [done |]. split.
    + split; [| done | done | by apply (stacks_new (THREADS s) live live' slot t sz)].
      by eapply (table_insert_ready s _ slot t).
    + left. split; [done |]. exists slot, t, sz. split_and!; try done.
      intros k Hk. specialize (Hfirst k ltac:(lia)). by rewrite Nat.sub_0_r in Hfirst.
Qed.

Lemma stacks_switched sp old r ts live :
  stacks_ok ts live -> ~ in_state Dead ts r -> stacks_ok (imap (switched sp old r) ts) live.
Proof.
  intros Hok Hr. split.
  - intros k t. rewrite list_lookup_imap. destruct (ts !! k) as [u |] eqn:Hu; [| done].
    intros [= <-]. by apply (st_live _ _ Hok k u).
  - intros k k' t t'. rewrite !list_lookup_imap.
    destruct (ts !! k) as [u |] eqn:Hu; [| done]. destruct (ts !! k') as [u' |] eqn:Hu'; [| done].
    intros [= <-] [= <-]. by apply (st_own _ _ Hok k k' u u').
  - intros k t. rewrite list_lookup_imap. destruct (ts !! k) as [u |] eqn:Hu; [| done].
    intros [= <-]. simpl. repeat case_decide; try done. by apply (st_dead _ _ Hok k u).
Qed.

(** Releasing the stack of the thread that exits. *)
Lemma stacks_exit ts live live' cur t :
  stacks_ok ts live -> ts !! cur = Some t ->
  (forall x, x ∈ live -> x.1 <> stack_base t -> x ∈ live') ->
  stacks_ok (<[cur := with_stack 0 (with_state Dead t)]> ts) live'.
Proof.
  intros Hok Ht Hin. pose proof (lookup_lt_Some _ _ _ Ht) as Hlt. split.
  - intros k u. destruct (decide (k = cur)) as [-> | Hk];
      rewrite ?list_lookup_insert_eq, ?list_lookup_insert_ne by done; [by intros [= <-] |].
    intros Hu Hune. destruct (st_live _ _ Hok k u Hu Hune) as (w & Hs & Hw).
    exists w. split; [done |]. apply Hin; [done |]. simpl. intros E.
    apply Hk. by apply (st_own _ _ Hok k cur u t).
  - intros k k' u u'. destruct (decide (k = cur)) as [-> | Hk], (decide (k' = cur)) as [-> | Hk'];
      rewrite ?list_lookup_insert_eq, ?list_lookup_insert_ne by done; intros Hu Hu' E Hnz.
    + done.
    + by injection Hu as <-.
    + injection Hu' as <-. simpl in E. congruence.
    + by apply (st_own _ _ Hok k k' u u').
  - intros k u. destruct (decide (k = cur)) as [-> | Hk];
      rewrite ?list_lookup_insert_eq, ?list_lookup_insert_ne by done; [by intros [= <-] |].
    apply (st_dead _ _ Hok).
Qed.

Lemma exiting_table s s1 t :
  table_ok s -> THREADS s !! CURRENT_THREAD s = Some t ->
  forall b, THREADS s1 = <[CURRENT_THREAD s := with_stack b (with_state Dead t)]> (THREADS s) ->
  CURRENT_THREAD s1 = CURRENT_THREAD s -> table_exiting s1.
Proof.
  intros [Hl Hc Hr] Ht b Hts Hcur. pose proof (lookup_lt_Some _ _ _ Ht) as Hlt.
  split; rewrite Hts, ?Hcur.
  - by rewrite length_insert.
  - eexists. by rewrite list_lookup_insert_eq.
  - intros k (u & Hu & Hs). destruct (decide (k = CURRENT_THREAD s)) as [-> | Hk].
    + rewrite list_lookup_insert_eq in Hu by done. by injection Hu as <-.
    + rewrite list_lookup_insert_ne in Hu by done. apply Hk, Hr. by exists u.
Qed.

(** [exit] up to the context switch: the thread is dead and its stack already
    released, although the processor is still running on that stack. *)
Definition after_release s h : sched H :=
  Sched (alter (fun t => with_stack 0 (with_state Dead t)) (CURRENT_THREAD s) (THREADS s))
    (CURRENT_THREAD s) (NEXT_ID s) 0 (t_mem s) (cli (t_rflags s)) h.

Lemma exit_releases sp s live :
  wf s live ->
  exists t h live', THREADS s !! CURRENT_THREAD s = Some t /\
    exit sp s = (s' ← switch sp (after_release s h);
                 Some (negb (Nat.eqb (CURRENT_THREAD s') (CURRENT_THREAD s)), s')) /\
    kh_rep h live' /\ stacks_ok (THREADS (after_release s h)) live' /\
    table_exiting (after_release s h) /\
    (if decide (stack_base t = 0) then h = t_heap s /\ live' = live
     else kh_free (stack_base t) (t_heap s) = Some h /\
          exists sz, Permutation live ((stack_base t, sz) :: live')).
Proof.
  intros [Htab Hpend Hheap Hst]. pose proof Htab as [Hl Hc _]. destruct Hc as (t & Ht & Hrun).
  pose proof (lookup_lt_Some _ _ _ Ht) as Hlt.
  assert (Hal : forall h, THREADS (after_release s h) =
    <[CURRENT_THREAD s := with_stack 0 (with_state Dead t)]> (THREADS s)).
  { intros h. unfold after_release. simpl. by rewrite (list_alter_insert _ _ _ _ Ht). }
  assert (Hex : forall h, table_exiting (after_release s h))
    by (intros h; by apply (exiting_table s _ t Htab Ht 0)).
  unfold exit. cbv zeta. change (CURRENT_THREAD (set_flags _ s)) with (CURRENT_THREAD s).
  change (THREADS (set_flags _ s)) with (THREADS s). rewrite Ht. cbn [mbind option_bind].
  destruct (decide (stack_base t = 0)) as [E0 | E0].
  - exists t, (t_heap s), live. rewrite Hal.
    assert (Hs0 : with_stack 0 (with_state Dead t) = with_state Dead t)
      by (unfold with_stack, with_state; simpl; by rewrite E0).
    split; [done |]. split; [| split; [done |]].
    + simpl. rewrite E0. simpl. rewrite Hpend. unfold schedule, after_release. simpl.
      rewrite (list_alter_insert _ _ _ _ Ht), Hs0. done.
    + split; [by apply (stacks_exit _ live) | split; [apply Hex | by rewrite decide_True]].
  - destruct (st_live _ _ Hst _ t Ht E0) as (sz & Hsz & Hin).
    destruct (kh_free_law (stack_base t) sz _ _ Hheap Hin) as (h & live' & Efree & Hh & Hp).
    exists t, h, live'. rewrite Hal. split; [done |]. split; [| split; [done |]].
    + simpl. rewrite (proj2 (Z.eqb_neq _ _) E0). cbn [negb]. unfold schedule. simpl.
      rewrite (proj2 (Z.eqb_neq _ _) E0), Efree. unfold after_release.
      rewrite (list_alter_insert _ _ _ _ Ht). done.
    + split; [| split; [apply Hex | rewrite decide_False by done; by split; [| exists sz]]].
      apply (stacks_exit _ live); [done | done |]. intros x Hx Hne. rewrite Hp in Hx.
      apply elem_of_cons in Hx as [-> | Hx]; done.
Qed.

(** C10: [exit], called while another thread is ready, switches to the next
    ready thread for good: its own slot is dead and free for reuse, exactly
    its stack is returned to the heap, and all invariants hold again. *)
Theorem exit_correct sp s live k :
  wf s live -> in_state Ready (THREADS s) k ->
  exists t s' live', THREADS s !! CURRENT_THREAD s = Some t /\
    exit sp s = Some (true, s') /\ wf s' live' /\
    in_state Dead (THREADS s') (CURRENT_THREAD s) /\
    (if decide (stack_base t = 0) then live' = live
     else exists sz, Permutation live ((stack_base t, sz) :: live')).
Proof.
  intros Hwf Hk. destruct (exit_releases sp s live Hwf) as
    (t & h & live' & Ht & -> & Hh & Hst & [Hl Hc Hr] & Hres).
  destruct Hwf as [[Hl0 Hc0 Hr0] _ _ _].
  set (s1 := after_release s h) in *. pose proof (in_state_lt _ _ _ Hc) as Hcl. rewrite Hl in Hcl.
  assert (Hne : k <> CURRENT_THREAD s).
  { intros ->. destruct Hk as (u & Hu & Hs), Hc0 as (u' & Hu' & Hs'). congruence. }
  assert (Hk1 : in_state Ready (THREADS s1) k).
  { destruct Hk as (u & Hu & Hs). exists u. split; [| done]. unfold s1, after_release. simpl.
    by rewrite list_lookup_alter_ne. }
  pose proof (in_state_lt _ _ _ Hk1) as Hkl. rewrite Hl in Hkl.
  destruct (switch_spec sp s1 Dead Hl Hc) as [[Hn _] | (j & Hj & E)];
    [done | by intros k' Hk'; exfalso; apply (Hr k') | |].
  { exfalso. apply (Hn (distance (CURRENT_THREAD s1) k)).
    - pose proof (distance_pos _ _ Hcl Hkl Hne). lia.
    - by rewrite after_distance. }
  rewrite E. cbn [mbind option_bind]. set (s2 := Sched _ _ _ _ _ _ _).
  destruct Hj as (Hj & Hready & Hfirst).
  assert (Hmoved : after (CURRENT_THREAD s1) j <> CURRENT_THREAD s1).
  { intros Eq. rewrite Eq in Hready.
    destruct Hready as (u & Hu & Hs), Hc as (u' & Hu' & Hs'). congruence. }
  exists t, s2, live'. split; [done |].
  assert (Hb : Nat.eqb (CURRENT_THREAD s2) (CURRENT_THREAD s) = false) by by apply Nat.eqb_neq.
  split; [by rewrite Hb |]. split; [split |].
  - by eapply (switched_ok sp s1 s2 j).
  - done.
  - done.
  - apply stacks_switched; [done |]. intros (u & Hu & Hs).
    destruct Hready as (u' & Hu' & Hs'). congruence.
  - split; [| case_decide; tauto]. unfold s2. simpl. rewrite in_state_imap.
    destruct Hc as (u & Hu & Hs). exists u. split; [done |]. simpl.
    rewrite decide_False by done. rewrite Hs. done.
Qed.

(** With no other ready thread [exit] has released the stack it goes on
    running on (in the [hlt] loop, and in every interrupt that arrives there). *)
Lemma exit_alone_frees_own_stack sp s live t :
  wf s live -> THREADS s !! CURRENT_THREAD s = Some t -> stack_base t <> 0 ->
  (forall k, ~ in_state Ready (THREADS s) k) ->
  exists s', exit sp s = Some (false, s') /\ CURRENT_THREAD s' = CURRENT_THREAD s /\
    kh_free (stack_base t) (t_heap s) = Some (t_heap s').
Proof.
  intros Hwf Ht Hnz Hno. destruct (exit_releases sp s live Hwf) as
    (t' & h & live' & Ht' & -> & _ & _ & [Hl Hc Hr] & Hres).
  rewrite Ht in Ht'. injection Ht' as <-. rewrite decide_False in Hres by done.
  destruct (switch_spec sp (after_release s h) Dead Hl Hc) as [[_ E] | (j & (_ & Hj & _) & _)];
    [done | by intros k' Hk'; exfalso; apply (Hr k') | |].
  - rewrite E. eexists. split; [simpl; by rewrite Nat.eqb_refl |]. split; [done | apply Hres].
  - exfalso. destruct Hj as (u & Hu & Hs). unfold after_release in Hu. simpl in Hu.
    destruct (decide (after (CURRENT_THREAD s) j = CURRENT_THREAD s)) as [Eq | Hne].
    + rewrite Eq, list_lookup_alter_eq, Ht in Hu. simpl in Hu. by injection Hu as <-.
    + rewrite list_lookup_alter_ne in Hu by done. apply (Hno (after (CURRENT_THREAD s) j)). by exists u.
Qed.
End switching.

(** [init] leaves thread 0 running and every other slot dead. *)
Lemma init_table_ok {H} `{KernelHeap H} (s : sched H) :
  length (THREADS s) = MAX_THREADS -> table_ok (init s).
Proof.
  intros Hl. unfold init. split; cbn [THREADS CURRENT_THREAD].
  - by rewrite length_alter, length_map.
  - destruct (THREADS s) as [| t ts] eqn:E; [done |]. eexists. by split.
  - intros k (t & Ht & Hs). destruct k as [| k]; [done |]. exfalso.
    rewrite list_lookup_alter_ne in Ht by done.
    change (map ?f ?l) with (f <$> l) in Ht. rewrite list_lookup_fmap in Ht.
    destruct (THREADS s !! S k); [| done]. by injection Ht as <-.
Qed.

(** ** Witnesses *)

Definition dead : Thread := {| id := 0; rsp := 0; state := Dead; stack_base := 0 |}.

(** Two pages of heap, the first of them the stack of the current thread. *)
Definition stack_heap : heap pmm :=
  Heap (<[0x500000 := {| bh_size := 4096; is_free := 0; next := 0x501010 |}]>
       (<[0x501010 := {| bh_size := 4064; is_free := 1; next := 0 |}]> ∅))
    0x500000 2 Spinlock_new 0x202 empty_tables.

Lemma stack_heap_rep : kh_rep stack_heap [(0x500010, 4096)].
Proof.
  split; [exact empty_tables_shielded |]. exists [Blk 0x500000 4096 false; Blk 0x501010 4064 true]. split; [| reflexivity]. split.
  - split; [done |]. eexists. split; [by vm_compute |].
    split; [done |]. eexists. split; [by vm_compute | done].
  - by vm_compute.
  - by vm_compute.
Qed.

(** The boot thread is ready, slot 1 runs, slot 5 is ready. *)
Definition demo_sched : sched (heap pmm) :=
  Sched ([{| id := 0; rsp := 0x9000; state := Ready; stack_base := 0 |};
          {| id := 1; rsp := 0; state := Running; stack_base := 0x500010 |}] ++
         [dead; dead; dead;
          {| id := 2; rsp := 0x8000; state := Ready; stack_base := 0 |}] ++ replicate 26 dead)
    1 3 0 (fun _ => 0) 0x202 stack_heap.

Lemma demo_lookup k t :
  THREADS demo_sched !! k = Some t ->
  (k = 0%nat /\ state t = Ready /\ stack_base t = 0) \/
  (k = 1%nat /\ state t = Running /\ stack_base t = 0x500010) \/
  (k = 5%nat /\ state t = Ready /\ stack_base t = 0) \/
  (state t = Dead /\ stack_base t = 0).
Proof.
  intros Ht. do 6 (destruct k as [| k]; [injection Ht as <-; simpl; tauto |]).
  apply lookup_replicate in Ht as [-> _]. simpl. tauto.
Qed.

Lemma demo_table_ok : table_ok demo_sched.
Proof.
  split; [done | eexists; by split |]. intros k (t & Ht & Hs).
  destruct (demo_lookup k t Ht) as [(-> & Hs' & _) | [(-> & _) | [(-> & Hs' & _) | (Hs' & _)]]];
    congruence || done.
Qed.

Lemma demo_wf : wf demo_sched [(0x500010, 4096)].
Proof.
  split; [apply demo_table_ok | done | apply stack_heap_rep |].
  split.
  - intros k t Ht Hne. exists 4096. split; [done |].
    destruct (demo_lookup k t Ht) as [(_ & _ & E) | [(_ & _ & E) | [(_ & _ & E) | (_ & E)]]];
      rewrite E in Hne |- *; [done | by left | done | done].
  - intros k k' t t' Ht Ht' E Hne.
    destruct (demo_lookup k t Ht) as [(_ & _ & E1) | [(-> & _ & E1) | [(_ & _ & E1) | (_ & E1)]]],
      (demo_lookup k' t' Ht') as [(_ & _ & E2) | [(-> & _ & E2) | [(_ & _ & E2) | (_ & E2)]]];
      congruence.
  - intros k t Ht Hs.
    destruct (demo_lookup k t Ht) as [(_ & E & _) | [(_ & E & _) | [(_ & E & _) | (_ & E)]]];
      congruence.
Qed.

Lemma yield_fair_witness :
  exists n s', (1 <= n <= 31)%nat /\ yields (take n (replicate 31 0x7000)) demo_sched = Some s' /\
    CURRENT_THREAD s' = 0%nat.
Proof.
  destruct (yield_fair demo_sched 0 (replicate 31 0x7000)) as (n & s' & Hn & E & _ & Hc);
    [apply demo_table_ok | reflexivity | eexists; by split | reflexivity |].
  exists n, s'. split; [exact Hn | split; [exact E | exact Hc]].
Defined.

Lemma create_correct_witness :
  exists r s' live', create 0x100500 0x100900 demo_sched = Some (r, s') /\ wf s' live'.
Proof.
  destruct (create_correct 0x100500 0x100900 demo_sched _ demo_wf)
    as (r & s' & live' & E & Hwf & _); [lia | lia |].
  exists r, s', live'. split; [exact E | exact Hwf].
Defined.

Lemma exit_correct_witness :
  exists s' live', exit 0x7000 demo_sched = Some (true, s') /\ wf s' live' /\
    in_state Dead (THREADS s') 1.
Proof.
  destruct (exit_correct 0x7000 demo_sched _ 5 demo_wf) as (t & s' & live' & _ & E & Hwf & Hd & _);
    [eexists; by split |].
  exists s', live'. split; [exact E | split; [exact Hwf | exact Hd]].
Defined.
