(* ===== verification/Keyboard.v ===== *)
(** PS/2 keyboard driver ([src/src/keyboard.rs]).

    The interrupt handler pushes characters into a ring buffer that the main
    loop drains; the two run concurrently, the handler preempting the reader
    between any two of its volatile accesses.  The first part models each
    routine as a function on the driver's state, the second the interleaving
    as a step relation. *)
From S2P Require Import Prelude Ring.

Definition BUFFER_SIZE : Z := 256.

Definition SCANCODE_ASCII : list Z :=
  [0; 0; 49; 50; 51; 52; 53; 54; 55; 56; 57; 48; 45; 61; 8;
   9; 113; 119; 101; 114; 116; 121; 117; 105; 111; 112; 91; 93; 10; 0;
   97; 115; 100; 102; 103; 104; 106; 107; 108; 59; 39; 96; 0; 92; 122;
   120; 99; 118; 98; 110; 109; 44; 46; 47; 0; 42; 0; 32].

Definition SCANCODE_SHIFT : list Z :=
  [0; 0; 33; 64; 35; 36; 37; 94; 38; 42; 40; 41; 95; 43; 8;
   9; 81; 87; 69; 82; 84; 89; 85; 73; 79; 80; 123; 125; 10; 0;
   65; 83; 68; 70; 71; 72; 74; 75; 76; 58; 34; 126; 0; 124; 90;
   88; 67; 86; 66; 78; 77; 60; 62; 63; 0; 42; 0; 32].

Definition SCANCODE_TABLE_SIZE : Z := 58.

Record kbd := Kbd { BUFFER : list Z; BUF_HEAD : Z; BUF_TAIL : Z; SHIFT_HELD : Z }.

(** ** Interrupt handler *)

(** [scancode] is the byte read from port 0x60. *)
Definition keyboard_handler (scancode : Z) (k : kbd) : option kbd :=
  if (scancode =? 0x2A) || (scancode =? 0x36)
  then Some (Kbd (BUFFER k) (BUF_HEAD k) (BUF_TAIL k) 1) else
  if (scancode =? 0xAA) || (scancode =? 0xB6)
  then Some (Kbd (BUFFER k) (BUF_HEAD k) (BUF_TAIL k) 0) else
  if negb (Z.land scancode 0x80 =? 0) then Some k else
  if scancode >=? SCANCODE_TABLE_SIZE then Some k else
  c ← (if negb (SHIFT_HELD k =? 0) then zget SCANCODE_SHIFT scancode
       else zget SCANCODE_ASCII scancode);
  if c =? 0 then Some k else
  let head := BUF_HEAD k in
  let tail := BUF_TAIL k in
  let next := (head + 1) mod BUFFER_SIZE in
  if negb (next =? tail) then
    b ← zset (BUFFER k) head c;
    Some (Kbd b next tail (SHIFT_HELD k))
  else Some k.

(** The registration of the handler is not part of the state. *)
Definition init (k : kbd) : kbd := Kbd (BUFFER k) 0 0 0.

(** ** Readers *)

Definition data_ready (k : kbd) : bool := negb (BUF_HEAD k =? BUF_TAIL k).

(** The two halves of a read once data is there: the character is fetched,
    then the tail is advanced. *)
Definition fetch (k : kbd) : option (Z * Z) :=
  let tail := BUF_TAIL k in
  c ← zget (BUFFER k) tail; Some (c, tail).
Definition advance (tail : Z) (k : kbd) : kbd :=
  Kbd (BUFFER k) (BUF_HEAD k) ((tail + 1) mod BUFFER_SIZE) (SHIFT_HELD k).

(** The outer option is the panic, the inner one the result. *)
Definition try_getchar (k : kbd) : option (option Z * kbd) :=
  if BUF_HEAD k =? BUF_TAIL k then Some (None, k) else
  '(c, tail) ← fetch k; Some (Some c, advance tail k).

(** [irqs] are the interrupts that end the successive [hlt]s; [None] when they
    are used up before a character arrives, that is, [getchar] still waits. *)
Fixpoint getchar (irqs : list Z) (k : kbd) : option (Z * kbd * list Z) :=
  if BUF_HEAD k =? BUF_TAIL k then
    match irqs with
    | [] => None
    | scancode :: irqs => k ← keyboard_handler scancode k; getchar irqs k
    end
  else '(c, tail) ← fetch k; Some (c, advance tail k, irqs).

(** ** The buffer as a queue *)

Record wf (k : kbd) : Prop := {
  wf_buffer : length (BUFFER k) = Z.to_nat BUFFER_SIZE;
  wf_head : 0 <= BUF_HEAD k < BUFFER_SIZE;
  wf_tail : 0 <= BUF_TAIL k < BUFFER_SIZE }.

(** Number of characters waiting, and the characters. *)
Definition waiting (k : kbd) : Z := ring_count BUFFER_SIZE (BUF_HEAD k) (BUF_TAIL k).
Definition queue (k : kbd) : list Z := ring_contents BUFFER_SIZE (BUFFER k) (BUF_HEAD k) (BUF_TAIL k).

(** The character a scancode stands for: none for a key release, a shift key
    or an unmapped key. *)
Definition key_char (shift : Z) (scancode : Z) : option Z :=
  if (scancode =? 0x2A) || (scancode =? 0x36) || (scancode >=? SCANCODE_TABLE_SIZE) then None else
  match zget (if negb (shift =? 0) then SCANCODE_SHIFT else SCANCODE_ASCII) scancode with
  | Some c => if c =? 0 then None else Some c
  | None => None
  end.

Definition capacity : Z := BUFFER_SIZE - 1.

Lemma buffer_size_pos : 1 < BUFFER_SIZE.
Proof. unfold BUFFER_SIZE. lia. Qed.

Lemma wf_ring k : wf k -> ring_wf BUFFER_SIZE (BUFFER k) (BUF_HEAD k) (BUF_TAIL k).
Proof. intros [Hb Hh Ht]. split; [| done | done]. rewrite Hb. done. Qed.

Lemma waiting_range k : 0 <= waiting k <= capacity.
Proof. apply ring_count_range, buffer_size_pos. Qed.

Lemma length_queue k : Z.of_nat (length (queue k)) = waiting k.
Proof. apply length_ring_contents, buffer_size_pos. Qed.

Lemma queue_empty k : wf k -> (BUF_HEAD k =? BUF_TAIL k) = true <-> queue k = [].
Proof. intros Hw. rewrite Z.eqb_eq. by apply ring_empty, wf_ring; [apply buffer_size_pos |]. Qed.

Lemma queue_cons k :
  wf k -> BUF_HEAD k <> BUF_TAIL k ->
  exists c, fetch k = Some (c, BUF_TAIL k) /\ wf (advance (BUF_TAIL k) k) /\
    queue k = c :: queue (advance (BUF_TAIL k) k).
Proof.
  intros Hw Hne. destruct (ring_contents_cons _ buffer_size_pos _ _ _ (wf_ring k Hw) Hne) as (c & Hc & [_ _ Ht] & Hq).
  exists c. unfold fetch. rewrite Hc. destruct Hw. done.
Qed.

Lemma queue_snoc k c b shift :
  wf k -> (BUF_HEAD k + 1) mod BUFFER_SIZE <> BUF_TAIL k ->
  zset (BUFFER k) (BUF_HEAD k) c = Some b ->
  let k' := Kbd b ((BUF_HEAD k + 1) mod BUFFER_SIZE) (BUF_TAIL k) shift in
  wf k' /\ queue k' = queue k ++ [c].
Proof.
  intros Hw Hne Hset k'.
  destruct (ring_contents_snoc _ buffer_size_pos _ _ _ c (wf_ring k Hw) Hne) as (E & [Hb Hh Ht] & Hq).
  rewrite E in Hset. injection Hset as <-. split; [split; cbn [BUFFER BUF_HEAD BUF_TAIL k'] | exact Hq]; [| done | done].
  rewrite length_insert. by destruct Hw.
Qed.

(** The handler appends the character of the key, or drops it when 255
    characters already wait; it never writes outside the buffer. *)
Lemma keyboard_handler_spec scancode k :
  wf k -> 0 <= scancode < 256 ->
  exists k', keyboard_handler scancode k = Some k' /\ wf k' /\ BUF_TAIL k' = BUF_TAIL k /\
    queue k' = queue k ++
      match key_char (SHIFT_HELD k) scancode with
      | Some c => if waiting k =? capacity then [] else [c]
      | None => []
      end.
Proof.
  intros Hwf Hs. unfold keyboard_handler, key_char, SCANCODE_TABLE_SIZE.
  destruct ((scancode =? 0x2A) || (scancode =? 0x36)) eqn:E1; cbn [orb].
  { eexists. split; [done |]. split; [by destruct Hwf; split | split; [done |]]. by rewrite app_nil_r. }
  destruct ((scancode =? 0xAA) || (scancode =? 0xB6)) eqn:E2.
  { eexists. split; [done |]. split; [by destruct Hwf; split | split; [done |]].
    assert ((scancode >=? 58) = true) as -> by (apply Z.geb_le; apply orb_prop in E2; destruct E2; breflect; lia).
    by rewrite app_nil_r. }
  destruct (Z.geb_spec scancode 58) as [Hge | Hlt].
  { exists k. rewrite app_nil_r. by case_if. }
  replace (Z.land scancode 0x80 =? 0) with true.
  2: { symmetry. change 0x80 with (Z.shiftl 1 7). rewrite land_bit by lia.
       by rewrite (bits_high 7) by lia. }
  cbn [negb].
  set (tbl := if negb (SHIFT_HELD k =? 0) then SCANCODE_SHIFT else SCANCODE_ASCII).
  assert (Htbl : (if negb (SHIFT_HELD k =? 0) then zget SCANCODE_SHIFT scancode
                  else zget SCANCODE_ASCII scancode) = zget tbl scancode)
    by (unfold tbl; by destruct (negb _)).
  rewrite Htbl. destruct (zget_Some tbl scancode) as [c Hc].
  { unfold tbl. destruct (negb _); simpl; lia. }
  rewrite Hc. cbn [mbind option_bind]. destruct (c =? 0); [exists k; by rewrite app_nil_r |].
  pose proof Hwf as [Hb Hh Ht].
  destruct (Z.eqb_spec ((BUF_HEAD k + 1) mod BUFFER_SIZE) (BUF_TAIL k)) as [Hfull | Hroom]; cbn [negb].
  - exists k. split_and!; [done | done | done |].
    rewrite (proj2 (Z.eqb_eq _ _)); [by rewrite app_nil_r |].
    by apply (ring_full _ buffer_size_pos).
  - rewrite zset_Some by (rewrite Hb; unfold BUFFER_SIZE in *; lia). cbn [mbind option_bind].
    eexists. split; [done |].
    destruct (queue_snoc k c (<[Z.to_nat (BUF_HEAD k):=c]> (BUFFER k)) (SHIFT_HELD k)) as [Hwf' Hq];
      [done | done | by apply zset_Some; rewrite Hb; unfold BUFFER_SIZE in *; lia |].
    split_and!; [done | done |]. rewrite Hq. rewrite (proj2 (Z.eqb_neq _ _)); [done |].
    intros Ew. by apply Hroom, (ring_full _ buffer_size_pos).
Qed.

(** ** Interrupts and the reader, interleaved *)

(** What the reader is about to store, the tail it has read; or the machine has
    panicked, in the reader or in the handler, on an index out of range. *)
Inductive reader := Idle | Holding (c tail : Z) | Panicked.

(** [typed] and [received] are histories: the characters that entered the
    buffer, and those [getchar] or [try_getchar] returned. *)
Record system := Sys { drv : kbd; rd : reader; typed : list Z; received : list Z }.

(** The character an interrupt stored, if any. *)
Definition stored (k k' : kbd) : list Z :=
  if BUF_HEAD k' =? BUF_HEAD k then [] else [default 0 (zget (BUFFER k') (BUF_HEAD k))].

Inductive step : system -> system -> Prop :=
| step_irq s scancode k' :
    rd s <> Panicked -> 0 <= scancode < 256 -> keyboard_handler scancode (drv s) = Some k' ->
    step s (Sys k' (rd s) (typed s ++ stored (drv s) k') (received s))
| step_irq_panic s scancode :
    rd s <> Panicked -> 0 <= scancode < 256 -> keyboard_handler scancode (drv s) = None ->
    step s (Sys (drv s) Panicked (typed s) (received s))
| step_fetch s c tail :
    rd s = Idle -> data_ready (drv s) = true -> fetch (drv s) = Some (c, tail) ->
    step s (Sys (drv s) (Holding c tail) (typed s) (received s))
| step_fetch_panic s :
    rd s = Idle -> data_ready (drv s) = true -> fetch (drv s) = None ->
    step s (Sys (drv s) Panicked (typed s) (received s))
| step_advance s c tail :
    rd s = Holding c tail ->
    step s (Sys (advance tail (drv s)) Idle (typed s) (received s ++ [c])).

Record inv (s : system) : Prop := {
  inv_wf : wf (drv s);
  inv_reader : match rd s with
               | Idle => True
               | Holding c tail => tail = BUF_TAIL (drv s) /\ exists q, queue (drv s) = c :: q
               | Panicked => False
               end;
  inv_history : typed s = received s ++ queue (drv s) }.

(** What the handler stores is what it appends to the queue. *)
Lemma stored_spec scancode k k' :
  wf k -> 0 <= scancode < 256 -> keyboard_handler scancode k = Some k' ->
  wf k' /\ BUF_TAIL k' = BUF_TAIL k /\ queue k' = queue k ++ stored k k'.
Proof.
  intros Hwf Hs E. destruct (keyboard_handler_spec scancode k Hwf Hs) as (k2 & E2 & Hwf' & Ht & Hq).
  rewrite E in E2. injection E2 as <-. split; [done | split; [done |]].
  pose proof (length_queue k) as L. pose proof (length_queue k') as L'.
  pose proof Hwf as [Hb Hh Htl]. pose proof Hwf' as [Hb' Hh' Htl'].
  unfold stored. destruct (Z.eqb_spec (BUF_HEAD k') (BUF_HEAD k)) as [Eh | Nh].
  - assert (Hw : waiting k' = waiting k) by (unfold waiting; congruence).
    rewrite Hq in L'. rewrite length_app in L'. rewrite Hq.
    destruct (key_char _ _); [case_if |]; simpl in L'; done || lia.
  - assert (Hlast : exists c, queue k' = queue k ++ [c]).
    { rewrite Hq. destruct (key_char _ _); [case_if; [| eauto] |];
        rewrite Hq, app_nil_r in L'; exfalso; apply Nh;
        unfold waiting, ring_count, BUFFER_SIZE in *; rewrite Ht in *; mod_lia. }
    destruct Hlast as [c Hc]. rewrite Hc. do 2 f_equal.
    rewrite Hc, length_app in L'. simpl in L'.
    assert (Hi : (ring_slot BUFFER_SIZE (BUFFER k') (BUF_TAIL k') <$> seqZ 0 (waiting k')) !! length (queue k) = Some c)
      by (change (queue k' !! length (queue k) = Some c);
          rewrite Hc, lookup_app_r, Nat.sub_diag by lia; done).
    rewrite list_lookup_fmap, lookup_seqZ_lt in Hi by lia. injection Hi as Hi.
    unfold ring_slot in Hi. rewrite <- Hi. do 2 f_equal.
    unfold waiting, ring_count, BUFFER_SIZE in *. rewrite Ht in *. mod_lia.
Qed.

Lemma inv_step s s' : inv s -> step s s' -> inv s'.
Proof.
  intros [Hwf Hrd Hh] Hstep.
  destruct Hstep as [s scancode k' Hp Hs E | s scancode Hp Hs E | s c tail Hi Hr E | s Hi Hr E | s c tail Hi].
  - destruct (stored_spec scancode _ _ Hwf Hs E) as (Hwf' & Ht & Hq). split; simpl.
    + done.
    + destruct (rd s) as [| c tail |]; [done | | done]. destruct Hrd as [-> [q Hc]].
      split; [done |]. rewrite Hq, Hc. eauto.
    + by rewrite Hh, Hq, app_assoc.
  - destruct (keyboard_handler_spec scancode _ Hwf Hs) as (k' & E' & _). congruence.
  - split; simpl; [done | | done]. unfold data_ready in Hr. breflect.
    destruct (queue_cons _ Hwf Hr) as (c' & E' & _ & Hq). rewrite E in E'. injection E' as -> ->. eauto.
  - unfold data_ready in Hr. breflect. destruct (queue_cons _ Hwf Hr) as (c' & E' & _). congruence.
  - rewrite Hi in Hrd. destruct Hrd as [-> [q Hc]].
    assert (Hne : BUF_HEAD (drv s) <> BUF_TAIL (drv s)).
    { intros Eq. apply Z.eqb_eq, (queue_empty _ Hwf) in Eq. congruence. }
    destruct (queue_cons _ Hwf Hne) as (c' & E' & Hwf' & Hq). split; simpl; [done | done |].
    rewrite Hh, Hc. rewrite Hc in Hq. injection Hq as -> ->. by rewrite <- app_assoc.
Qed.

Definition boot (buffer : list Z) : system := Sys (init (Kbd buffer 0 0 0)) Idle [] [].

Lemma inv_boot buffer : length buffer = Z.to_nat BUFFER_SIZE -> inv (boot buffer).
Proof. intros Hl. by split. Qed.

(** [try_getchar] returns the oldest waiting character, or nothing. *)
Lemma try_getchar_spec k :
  wf k -> exists k', try_getchar k = Some (head (queue k), k') /\ wf k' /\ queue k' = tail (queue k).
Proof.
  intros Hwf. unfold try_getchar. destruct (Z.eqb_spec (BUF_HEAD k) (BUF_TAIL k)) as [E | E].
  - pose proof (proj1 (queue_empty k Hwf) (proj2 (Z.eqb_eq _ _) E)) as Hq. exists k. by rewrite Hq.
  - destruct (queue_cons k Hwf E) as (c & -> & Hwf' & Hq). rewrite Hq. eexists. split; [done |]. done.
Qed.

(** C11: whatever the interleaving of keyboard interrupts with the steps of a
    read, the reader receives the stored characters in order, each once: what
    was received is a prefix of what was stored, and the rest, at most 255
    characters, is still in the buffer.  No access is out of range, neither the
    handler's nor the reader's: the machine never panics, an interrupt can always be
    handled, and a read started now returns the oldest waiting character. *)
Theorem keyboard_fifo buffer s :
  length buffer = Z.to_nat BUFFER_SIZE -> rtc step (boot buffer) s ->
  typed s = received s ++ queue (drv s) /\ waiting (drv s) <= capacity /\ rd s <> Panicked /\
  (forall scancode, 0 <= scancode < 256 -> is_Some (keyboard_handler scancode (drv s))) /\
  (rd s = Idle -> exists k', try_getchar (drv s) = Some (head (queue (drv s)), k') /\ queue k' = tail (queue (drv s))).
Proof.
  intros Hl Hr.
  assert (Hinv : inv s).
  { apply (rtc_ind_r (R := step) inv (boot buffer)); [by apply inv_boot | | done].
    intros x y _ Hstep Hx. by eapply inv_step. }
  destruct Hinv as [Hwf Hrd Hh]. split; [done | split; [apply waiting_range |]]. split; [by intros E; rewrite E in Hrd |]. split.
  - intros scancode Hs. destruct (keyboard_handler_spec scancode _ Hwf Hs) as (k' & E & _). by exists k'.
  - intros _. destruct (try_getchar_spec _ Hwf) as (k' & E & _ & Hq). by exists k'.
Qed.

(** Holding shift and typing 'a' and 'b' yields 'A', read, and 'B', waiting. *)
Lemma keyboard_fifo_witness :
  exists s, received s = [65] /\ [65; 66] = received s ++ queue (drv s) /\ rd s <> Panicked.
Proof.
  set (k0 := Kbd (replicate 256 0) 0 0 0).
  set (k1 := Kbd (replicate 256 0) 0 0 1).
  set (k2 := Kbd (<[0%nat := 65]> (replicate 256 0)) 1 0 1).
  set (k3 := Kbd (<[1%nat := 66]> (<[0%nat := 65]> (replicate 256 0))) 2 0 1).
  set (s2 := Sys (advance 0 k3) Idle [65; 66] [65]).
  assert (Hr : rtc step (boot (replicate 256 0)) s2).
  { eapply rtc_l; [apply (step_irq _ 0x2A k1); [done | lia | reflexivity] |].
    eapply rtc_l; [apply (step_irq _ 0x1E k2); [done | lia | reflexivity] |].
    eapply rtc_l; [apply (step_fetch _ 65 0); reflexivity |].
    eapply rtc_l; [apply (step_irq _ 0x30 k3); [done | lia | reflexivity] |].
    eapply rtc_l; [apply (step_advance _ 65 0); reflexivity |]. apply rtc_refl. }
  destruct (keyboard_fifo (replicate 256 0) s2 eq_refl Hr) as (H & _ & Hp & _).
  exists s2. split; [reflexivity | split; [exact H | exact Hp]].
Defined.
