(* ===== verification/Vga.v ===== *)
(** VGA text console ([src/src/vga.rs]).

    The text buffer at 0xB8000 is a list of 16-bit cells; a write through the
    raw pointer outside the list is a fault ([None]).  Port writes and the
    characters mirrored to the serial line are logs. *)
From S2P Require Import Prelude Sync.

(** [Color], by discriminant. *)
Inductive Color :=
| Black | Blue | Green | Cyan | Red | Magenta | Brown | LightGrey
| DarkGrey | LightBlue | LightGreen | LightCyan | LightRed | LightMagenta | Yellow | White.

Definition color_code (c : Color) : Z :=
  match c with
  | Black => 0 | Blue => 1 | Green => 2 | Cyan => 3 | Red => 4 | Magenta => 5
  | Brown => 6 | LightGrey => 7 | DarkGrey => 8 | LightBlue => 9 | LightGreen => 10
  | LightCyan => 11 | LightRed => 12 | LightMagenta => 13 | Yellow => 14 | White => 15
  end.

Record vga := Vga {
  VGA_BUFFER : list Z; VGA_WIDTH : Z; VGA_HEIGHT : Z; CURSOR_ROW : Z; CURSOR_COL : Z;
  CURRENT_COLOR : Z; SERIAL_MIRROR : bool; VGA_LOCK : Spinlock; v_flags : Z;
  ports : list (Z * Z); serial : list Z }.

Definition set_buffer (b : list Z) (v : vga) : vga :=
  Vga b (VGA_WIDTH v) (VGA_HEIGHT v) (CURSOR_ROW v) (CURSOR_COL v) (CURRENT_COLOR v)
    (SERIAL_MIRROR v) (VGA_LOCK v) (v_flags v) (ports v) (serial v).
Definition set_cursor (row col : Z) (v : vga) : vga :=
  Vga (VGA_BUFFER v) (VGA_WIDTH v) (VGA_HEIGHT v) row col (CURRENT_COLOR v)
    (SERIAL_MIRROR v) (VGA_LOCK v) (v_flags v) (ports v) (serial v).
Definition set_height (h : Z) (v : vga) : vga :=
  Vga (VGA_BUFFER v) (VGA_WIDTH v) h (CURSOR_ROW v) (CURSOR_COL v) (CURRENT_COLOR v)
    (SERIAL_MIRROR v) (VGA_LOCK v) (v_flags v) (ports v) (serial v).
Definition outb (port value : Z) (v : vga) : vga :=
  Vga (VGA_BUFFER v) (VGA_WIDTH v) (VGA_HEIGHT v) (CURSOR_ROW v) (CURSOR_COL v) (CURRENT_COLOR v)
    (SERIAL_MIRROR v) (VGA_LOCK v) (v_flags v) (ports v ++ [(port, value)]) (serial v).
Definition serial_putchar (c : Z) (v : vga) : vga :=
  Vga (VGA_BUFFER v) (VGA_WIDTH v) (VGA_HEIGHT v) (CURSOR_ROW v) (CURSOR_COL v) (CURRENT_COLOR v)
    (SERIAL_MIRROR v) (VGA_LOCK v) (v_flags v) (ports v) (serial v ++ [c]).

Definition lock (v : vga) : vga :=
  let '(l, f) := Spinlock_lock (VGA_LOCK v) (v_flags v) in
  Vga (VGA_BUFFER v) (VGA_WIDTH v) (VGA_HEIGHT v) (CURSOR_ROW v) (CURSOR_COL v) (CURRENT_COLOR v)
    (SERIAL_MIRROR v) l f (ports v) (serial v).
Definition unlock (v : vga) : vga :=
  let '(l, f) := Spinlock_unlock (VGA_LOCK v) (v_flags v) in
  Vga (VGA_BUFFER v) (VGA_WIDTH v) (VGA_HEIGHT v) (CURSOR_ROW v) (CURSOR_COL v) (CURRENT_COLOR v)
    (SERIAL_MIRROR v) l f (ports v) (serial v).

Definition vga_entry (c color : Z) : Z := Z.lor c (Z.shiftl color 8).

Definition write_cell (offset entry : Z) (v : vga) : option vga :=
  b ← zset (VGA_BUFFER v) offset entry; Some (set_buffer b v).

Definition update_cursor (v : vga) : vga :=
  let pos := u16 (CURSOR_ROW v * VGA_WIDTH v + CURSOR_COL v) in
  outb 0x3D5 (Z.land pos 0xFF) (outb 0x3D4 15
    (outb 0x3D5 (u8 (Z.shiftr pos 8)) (outb 0x3D4 14 v))).

(** [for i in 0..total]: [n] iterations are left. *)
Fixpoint shift_loop (n : nat) (i row_bytes : Z) (buf : list Z) : option (list Z) :=
  match n with
  | O => Some buf
  | S n =>
      val ← zget buf (i + row_bytes);
      buf ← zset buf i val;
      shift_loop n (i + 1) row_bytes buf
  end.

(** A loop that stores [entry] in [n] consecutive cells. *)
Fixpoint fill_loop (n : nat) (i entry : Z) (buf : list Z) : option (list Z) :=
  match n with
  | O => Some buf
  | S n => buf ← zset buf i entry; fill_loop n (i + 1) entry buf
  end.

Definition scroll (v : vga) : option vga :=
  if CURSOR_ROW v <? VGA_HEIGHT v then Some v else
  let row_bytes := VGA_WIDTH v in
  let total := (VGA_HEIGHT v - 1) * row_bytes in
  buf ← shift_loop (Z.to_nat total) 0 row_bytes (VGA_BUFFER v);
  let last_row_start := (VGA_HEIGHT v - 1) * row_bytes in
  buf ← fill_loop (Z.to_nat row_bytes) last_row_start (vga_entry 32 (CURRENT_COLOR v)) buf;
  Some (set_cursor (VGA_HEIGHT v - 1) (CURSOR_COL v) (set_buffer buf v)).

(** The part of [putchar_unlocked] before the scroll. *)
Definition put_cell (c : Z) (v : vga) : option vga :=
  if c =? 10 then Some (set_cursor (CURSOR_ROW v + 1) 0 v)
  else if c =? 8 then
    if CURSOR_COL v >? 0 then
      let v := set_cursor (CURSOR_ROW v) (CURSOR_COL v - 1) v in
      write_cell (CURSOR_ROW v * VGA_WIDTH v + CURSOR_COL v) (vga_entry 32 (CURRENT_COLOR v)) v
    else Some v
  else
    v ← write_cell (CURSOR_ROW v * VGA_WIDTH v + CURSOR_COL v) (vga_entry c (CURRENT_COLOR v)) v;
    let v := set_cursor (CURSOR_ROW v) (CURSOR_COL v + 1) v in
    if CURSOR_COL v >=? VGA_WIDTH v then Some (set_cursor (CURSOR_ROW v + 1) 0 v) else Some v.

Definition putchar_unlocked (c : Z) (v : vga) : option vga :=
  v ← put_cell c v;
  v ← scroll v;
  Some (update_cursor v).

Definition clear (v : vga) : option vga :=
  let v := lock v in
  let total := VGA_WIDTH v * VGA_HEIGHT v in
  buf ← fill_loop (Z.to_nat total) 0 (vga_entry 32 (CURRENT_COLOR v)) (VGA_BUFFER v);
  Some (unlock (update_cursor (set_cursor 0 0 (set_buffer buf v)))).

(** [buffer] is the memory at [VGA_ADDR]. *)
Definition init (buffer : list Z) (v : vga) : option vga :=
  clear (Vga buffer (VGA_WIDTH v) (VGA_HEIGHT v) 0 0
    (Z.lor (Z.shiftl (color_code Black) 4) (color_code LightGrey))
    (SERIAL_MIRROR v) (VGA_LOCK v) (v_flags v) (ports v) (serial v)).

Definition set_80x50 (v : vga) : option vga :=
  let v := lock v in
  let v := outb 0x3D5 0x07 (outb 0x3D4 0x09 v) in
  let v := outb 0x3D5 0x06 (outb 0x3D4 0x0A v) in
  let v := outb 0x3D5 0x07 (outb 0x3D4 0x0B v) in
  let v := set_height 50 v in
  let total := VGA_WIDTH v * VGA_HEIGHT v in
  buf ← fill_loop (Z.to_nat total) 0 (vga_entry 32 (CURRENT_COLOR v)) (VGA_BUFFER v);
  Some (unlock (update_cursor (set_cursor 0 0 (set_buffer buf v)))).

Definition mirror (c : Z) (v : vga) : vga :=
  if SERIAL_MIRROR v then serial_putchar c v else v.

Definition putchar (c : Z) (v : vga) : option vga :=
  v ← putchar_unlocked c (lock v);
  Some (unlock (mirror c v)).

(** The loop over the bytes; [stop] is the test that ends it early. *)
Fixpoint bytes_loop (stop : Z -> bool) (s : list Z) (v : vga) : option vga :=
  match s with
  | [] => Some v
  | c :: s =>
      if stop c then Some v else
      v ← putchar_unlocked c v; bytes_loop stop s (mirror c v)
  end.

Definition puts (s : list Z) (v : vga) : option vga :=
  v ← bytes_loop (fun c => c =? 0) s (lock v); Some (unlock v).

Definition write_bytes (s : list Z) (v : vga) : option vga :=
  v ← bytes_loop (fun _ => false) s (lock v); Some (unlock v).

Definition set_color (fg bg : Color) (v : vga) : vga :=
  Vga (VGA_BUFFER v) (VGA_WIDTH v) (VGA_HEIGHT v) (CURSOR_ROW v) (CURSOR_COL v)
    (Z.lor (Z.shiftl (color_code bg) 4) (color_code fg))
    (SERIAL_MIRROR v) (VGA_LOCK v) (v_flags v) (ports v) (serial v).

Definition set_serial_mirror (enable : bool) (v : vga) : vga :=
  Vga (VGA_BUFFER v) (VGA_WIDTH v) (VGA_HEIGHT v) (CURSOR_ROW v) (CURSOR_COL v) (CURRENT_COLOR v)
    enable (VGA_LOCK v) (v_flags v) (ports v) (serial v).

Definition get_serial_mirror (v : vga) : bool := SERIAL_MIRROR v.

(** ** The screen as a grid *)

Record wf (v : vga) : Prop := {
  wf_width : VGA_WIDTH v = 80;
  wf_height : VGA_HEIGHT v = 25 \/ VGA_HEIGHT v = 50;
  wf_row : 0 <= CURSOR_ROW v < VGA_HEIGHT v;
  wf_col : 0 <= CURSOR_COL v < VGA_WIDTH v;
  wf_buffer : VGA_WIDTH v * VGA_HEIGHT v <= Z.of_nat (length (VGA_BUFFER v)) }.

Definition cell (v : vga) (r x : Z) : Z := default 0 (zget (VGA_BUFFER v) (r * VGA_WIDTH v + x)).

Definition on_screen (v : vga) (r x : Z) : Prop := 0 <= r < VGA_HEIGHT v /\ 0 <= x < VGA_WIDTH v.

(** Where the cursor goes before a scroll. *)
Definition next_position (c : Z) (v : vga) : Z * Z :=
  if c =? 10 then (CURSOR_ROW v + 1, 0)
  else if c =? 8 then (CURSOR_ROW v, Z.max 0 (CURSOR_COL v - 1))
  else if CURSOR_COL v + 1 =? VGA_WIDTH v then (CURSOR_ROW v + 1, 0)
  else (CURSOR_ROW v, CURSOR_COL v + 1).

(** The cell of row [r], column [x] before a scroll. *)
Definition written (c : Z) (v : vga) (r x : Z) : Z :=
  if c =? 10 then cell v r x
  else if c =? 8 then
    if (0 <? CURSOR_COL v) && (r =? CURSOR_ROW v) && (x =? CURSOR_COL v - 1)
    then vga_entry 32 (CURRENT_COLOR v) else cell v r x
  else if (r =? CURSOR_ROW v) && (x =? CURSOR_COL v)
  then vga_entry c (CURRENT_COLOR v) else cell v r x.

Lemma shift_loop_spec rb n : forall i buf,
  0 <= i -> 0 < rb -> i + Z.of_nat n + rb <= Z.of_nat (length buf) ->
  exists buf', shift_loop n i rb buf = Some buf' /\ length buf' = length buf /\
    forall j, zget buf' j = if (i <=? j) && (j <? i + Z.of_nat n) then zget buf (j + rb) else zget buf j.
Proof.
  induction n as [| n IH]; intros i buf Hi Hrb Hl; cbn [shift_loop].
  - exists buf. split_and!; [done | done |]. intros j. case_if; [breflect; lia | done].
  - destruct (zget_Some buf (i + rb)) as [val Hv]; [lia |]. rewrite Hv. cbn [mbind option_bind].
    rewrite zset_Some by lia. cbn [mbind option_bind].
    destruct (IH (i + 1) (<[Z.to_nat i := val]> buf)) as (buf' & E & Hlen & Hj);
      [lia | done | rewrite length_insert; lia |].
    exists buf'. rewrite length_insert in Hlen. split_and!; [done | done |]. intros j.
    rewrite Hj, !zget_insert by lia.
    destruct (Z.eqb_spec j i) as [-> | Hne].
    + replace ((i + 1 <=? i) && _) with false by (symmetry; apply andb_false_iff; left; apply Z.leb_gt; lia).
      replace ((i <=? i) && _) with true by (symmetry; apply andb_true_iff; rewrite Z.leb_le, Z.ltb_lt; lia).
      done.
    + replace ((i + 1 <=? j) && (j <? i + 1 + Z.of_nat n)) with ((i <=? j) && (j <? i + Z.of_nat (S n))).
      2: { destruct (Z.leb_spec i j), (Z.ltb_spec j (i + Z.of_nat (S n))), (Z.leb_spec (i + 1) j),
             (Z.ltb_spec j (i + 1 + Z.of_nat n)); done || lia. }
      destruct (_ && _) eqn:E'; [| done]. breflect.
      destruct (Z.eqb_spec (j + rb) i); [lia | done].
Qed.

Lemma fill_loop_spec entry n : forall i buf,
  0 <= i -> i + Z.of_nat n <= Z.of_nat (length buf) ->
  exists buf', fill_loop n i entry buf = Some buf' /\ length buf' = length buf /\
    forall j, zget buf' j = if (i <=? j) && (j <? i + Z.of_nat n) then Some entry else zget buf j.
Proof.
  induction n as [| n IH]; intros i buf Hi Hl; cbn [fill_loop].
  - exists buf. split_and!; [done | done |]. intros j. case_if; [breflect; lia | done].
  - rewrite zset_Some by lia. cbn [mbind option_bind].
    destruct (IH (i + 1) (<[Z.to_nat i := entry]> buf)) as (buf' & E & Hlen & Hj);
      [lia | rewrite length_insert; lia |].
    exists buf'. rewrite length_insert in Hlen. split_and!; [done | done |]. intros j.
    rewrite Hj, zget_insert by lia.
    destruct (Z.leb_spec i j), (Z.ltb_spec j (i + Z.of_nat (S n))), (Z.leb_spec (i + 1) j),
      (Z.ltb_spec j (i + 1 + Z.of_nat n)), (Z.eqb_spec j i); simpl; done || lia.
Qed.

(** The state before the scroll. *)
Definition before_scroll (c : Z) (v v1 : vga) : Prop :=
  VGA_WIDTH v1 = VGA_WIDTH v /\ VGA_HEIGHT v1 = VGA_HEIGHT v /\ CURRENT_COLOR v1 = CURRENT_COLOR v /\
  ports v1 = ports v /\ length (VGA_BUFFER v1) = length (VGA_BUFFER v) /\
  (CURSOR_ROW v1, CURSOR_COL v1) = next_position c v /\
  (forall r x, on_screen v r x -> cell v1 r x = written c v r x) /\
  (forall j, VGA_WIDTH v * VGA_HEIGHT v <= j -> zget (VGA_BUFFER v1) j = zget (VGA_BUFFER v) j).

Lemma offset_inj w r x r' x' :
  0 <= x < w -> 0 <= x' < w -> r * w + x = r' * w + x' -> r = r' /\ x = x'.
Proof. intros. assert (r = r') by nia. split; [done | nia]. Qed.

Lemma offset_bound w h r x : 0 <= r < h -> 0 <= x < w -> 0 <= r * w + x < w * h.
Proof. nia. Qed.

Lemma write_cell_spec v r x e :
  wf v -> on_screen v r x ->
  exists b, write_cell (r * VGA_WIDTH v + x) e v = Some (set_buffer b v) /\
    length b = length (VGA_BUFFER v) /\
    (forall r' x', on_screen v r' x' ->
       cell (set_buffer b v) r' x' = if (r' =? r) && (x' =? x) then e else cell v r' x') /\
    (forall j, VGA_WIDTH v * VGA_HEIGHT v <= j -> zget b j = zget (VGA_BUFFER v) j).
Proof.
  intros [Hw Hh Hr Hc Hb] [Hr1 Hx1]. unfold write_cell.
  pose proof (offset_bound _ _ _ _ Hr1 Hx1) as Hoff.
  rewrite zset_Some by lia. cbn [mbind option_bind]. eexists. split; [done |].
  split; [apply length_insert |]. split.
  - intros r' x' [Hr' Hx']. unfold cell, set_buffer. cbn [VGA_BUFFER VGA_WIDTH].
    rewrite zget_insert by lia.
    destruct (Z.eqb_spec (r' * VGA_WIDTH v + x') (r * VGA_WIDTH v + x)) as [E | E].
    + destruct (offset_inj (VGA_WIDTH v) r' x' r x) as [-> ->]; [lia | lia | done |].
      by rewrite !Z.eqb_refl.
    + destruct (Z.eqb_spec r' r) as [-> |], (Z.eqb_spec x' x) as [-> |]; done.
  - intros j Hj. rewrite zget_insert by lia. by rewrite (proj2 (Z.eqb_neq j _)) by lia.
Qed.

Lemma put_cell_spec c v :
  wf v -> exists v1, put_cell c v = Some v1 /\ before_scroll c v v1.
Proof.
  intros Hwf. pose proof Hwf as [Hw Hh Hr Hc Hb]. unfold put_cell, before_scroll, next_position, written.
  destruct (c =? 10); [eexists; split; [done |]; by split_and! |].
  destruct (c =? 8).
  - destruct (Z.gtb_spec (CURSOR_COL v) 0) as [Hpos | Hzero].
    + set (v0 := set_cursor (CURSOR_ROW v) (CURSOR_COL v - 1) v).
      assert (Hwf0 : wf v0) by (split; simpl; lia || done).
      destruct (write_cell_spec v0 (CURSOR_ROW v) (CURSOR_COL v - 1) (vga_entry 32 (CURRENT_COLOR v)) Hwf0)
        as (b & E & Hl & Hcell & Hrest); [split; simpl; lia |].
      exists (set_buffer b v0). split; [exact E |]. split_and!; try done.
      * simpl. f_equal. lia.
      * intros r x Hon. rewrite Hcell by done. by rewrite (proj2 (Z.ltb_lt 0 _)) by lia.
    + exists v. split; [done |]. split_and!; try done.
      * f_equal. lia.
      * intros r x _. by rewrite (proj2 (Z.ltb_ge 0 _)) by lia.
  - destruct (write_cell_spec v (CURSOR_ROW v) (CURSOR_COL v) (vga_entry c (CURRENT_COLOR v)) Hwf)
      as (b & E & Hl & Hcell & Hrest); [by split |].
    rewrite E. cbn [mbind option_bind]. simpl.
    destruct (Z.geb_spec (CURSOR_COL v + 1) (VGA_WIDTH v)) as [Hge | Hlt].
    + rewrite (proj2 (Z.eqb_eq _ _)) by lia. eexists. split; [done |]. by split_and!.
    + rewrite (proj2 (Z.eqb_neq _ _)) by lia. eexists. split; [done |]. by split_and!.
Qed.

(** The cells after the scroll that a cursor past the last row causes. *)
Definition scrolled (row : Z) (v : vga) (old : Z -> Z -> Z) (r x : Z) : Z :=
  if row =? VGA_HEIGHT v then
    if r =? VGA_HEIGHT v - 1 then vga_entry 32 (CURRENT_COLOR v) else old (r + 1) x
  else old r x.

Lemma scroll_spec v :
  VGA_WIDTH v = 80 -> VGA_HEIGHT v = 25 \/ VGA_HEIGHT v = 50 -> 0 <= CURSOR_ROW v <= VGA_HEIGHT v ->
  VGA_WIDTH v * VGA_HEIGHT v <= Z.of_nat (length (VGA_BUFFER v)) ->
  exists b, let row := Z.min (CURSOR_ROW v) (VGA_HEIGHT v - 1) in
    let v' := set_cursor row (CURSOR_COL v) (set_buffer b v) in
    scroll v = Some v' /\ length b = length (VGA_BUFFER v) /\
    (forall r x, on_screen v r x -> cell v' r x = scrolled (CURSOR_ROW v) v (cell v) r x) /\
    (forall j, VGA_WIDTH v * VGA_HEIGHT v <= j -> zget b j = zget (VGA_BUFFER v) j).
Proof.
  intros Hw Hh Hr Hb. unfold scroll, scrolled.
  destruct (Z.ltb_spec (CURSOR_ROW v) (VGA_HEIGHT v)) as [Hlt | Hge].
  - exists (VGA_BUFFER v). cbv zeta. rewrite Z.min_l by lia. split; [by destruct v |].
    split; [done | split; [| done]]. intros r x _. by rewrite (proj2 (Z.eqb_neq _ _)) by lia.
  - assert (Hrow : CURSOR_ROW v = VGA_HEIGHT v) by lia. rewrite Hw in *.
    set (H := VGA_HEIGHT v) in *.
    destruct (shift_loop_spec 80 (Z.to_nat ((H - 1) * 80)) 0 (VGA_BUFFER v)) as (b1 & -> & Hl1 & Hj1);
      [lia | lia | lia |]. cbn [mbind option_bind].
    destruct (fill_loop_spec (vga_entry 32 (CURRENT_COLOR v)) (Z.to_nat 80) ((H - 1) * 80) b1)
      as (b2 & -> & Hl2 & Hj2); [lia | rewrite Hl1; lia |]. cbn [mbind option_bind].
    exists b2. cbv zeta. rewrite Z.min_r by lia. split; [done |]. split; [congruence |]. split.
    + intros r x [Hr' Hx']. rewrite Hw in Hx'. fold H in Hr'.
      unfold cell, set_cursor, set_buffer. cbn [VGA_BUFFER VGA_WIDTH]. rewrite Hw, Hj2, Hj1.
      rewrite (proj2 (Z.eqb_eq (CURSOR_ROW v) H) Hrow). rewrite !Z2Nat.id by lia.
      destruct (Z.eqb_spec r (H - 1)) as [-> | Hne].
      * replace ((_ <=? _) && _) with true; [done |]. symmetry.
        apply andb_true_iff. rewrite Z.leb_le, Z.ltb_lt. lia.
      * replace (((H - 1) * 80 <=? r * 80 + x) && _) with false.
        2: { symmetry. apply andb_false_iff. left. apply Z.leb_gt. nia. }
        replace ((0 <=? r * 80 + x) && _) with true.
        2: { symmetry. apply andb_true_iff. rewrite Z.leb_le, Z.ltb_lt. nia. }
        do 2 f_equal. lia.
    + intros j Hj. rewrite Hj2, Hj1, !Z2Nat.id by lia.
      destruct (Z.leb_spec ((H - 1) * 80) j), (Z.ltb_spec j ((H - 1) * 80 + 80)); simpl; try lia;
        (destruct (Z.leb_spec 0 j), (Z.ltb_spec j (0 + (H - 1) * 80)); simpl; done || lia).
Qed.

Lemma next_position_range c v :
  wf v -> let '(row, col) := next_position c v in
  0 <= row <= VGA_HEIGHT v /\ 0 <= col < VGA_WIDTH v.
Proof.
  intros [Hw Hh Hr Hc Hb]. unfold next_position.
  repeat case_if; breflect; lia.
Qed.

(** The four writes that move the hardware cursor to offset [pos]. *)
Definition cursor_writes (pos : Z) : list (Z * Z) :=
  [(0x3D4, 14); (0x3D5, pos / 256); (0x3D4, 15); (0x3D5, pos mod 256)].

Lemma update_cursor_spec v :
  wf v -> update_cursor v =
    Vga (VGA_BUFFER v) (VGA_WIDTH v) (VGA_HEIGHT v) (CURSOR_ROW v) (CURSOR_COL v) (CURRENT_COLOR v)
      (SERIAL_MIRROR v) (VGA_LOCK v) (v_flags v)
      (ports v ++ cursor_writes (CURSOR_ROW v * VGA_WIDTH v + CURSOR_COL v)) (serial v).
Proof.
  intros [Hw Hh Hr Hc Hb]. unfold update_cursor, outb, cursor_writes. simpl.
  rewrite <- !app_assoc. simpl.
  set (pos := CURSOR_ROW v * VGA_WIDTH v + CURSOR_COL v).
  assert (Hpos : 0 <= pos < 65536) by (unfold pos; rewrite Hw in *; lia).
  rewrite u16_small by lia. rewrite Z.shiftr_div_pow2, u8_small by (lia || (simpl; mod_lia)).
  change 0xFF with (Z.ones 8). rewrite Z.land_ones by lia. done.
Qed.

(** What one character does to the console. *)
Record put (c : Z) (v v' : vga) : Prop := {
  put_row : CURSOR_ROW v' = Z.min (next_position c v).1 (VGA_HEIGHT v - 1);
  put_col : CURSOR_COL v' = (next_position c v).2;
  put_cells : forall r x, on_screen v r x ->
    cell v' r x = scrolled (next_position c v).1 v (written c v) r x;
  put_outside : forall j, VGA_WIDTH v * VGA_HEIGHT v <= j ->
    zget (VGA_BUFFER v') j = zget (VGA_BUFFER v) j;
  put_ports : ports v' = ports v ++ cursor_writes (CURSOR_ROW v' * VGA_WIDTH v + CURSOR_COL v');
  put_mode : VGA_WIDTH v' = VGA_WIDTH v /\ VGA_HEIGHT v' = VGA_HEIGHT v /\
    CURRENT_COLOR v' = CURRENT_COLOR v }.

Lemma putchar_unlocked_spec c v :
  wf v -> exists v', putchar_unlocked c v = Some v' /\ wf v' /\ put c v v'.
Proof.
  intros Hwf. unfold putchar_unlocked.
  destruct (put_cell_spec c v Hwf) as (v1 & -> & Hw1 & Hh1 & Hc1 & Hp1 & Hl1 & Hpos & Hcell & Hrest).
  cbn [mbind option_bind].
  pose proof (next_position_range c v Hwf) as Hnp. rewrite <- Hpos in Hnp. destruct Hnp as [Hrow Hcol].
  destruct Hwf as [Hw Hh Hr Hc Hb].
  destruct (scroll_spec v1) as (b & -> & Hlb & Hcells & Hout);
    [congruence | by rewrite Hh1 | by rewrite Hh1 | rewrite Hw1, Hh1, Hl1; lia |].
  cbn [mbind option_bind]. set (v2 := set_cursor _ _ _).
  assert (Hwf2 : wf v2).
  { split; simpl; rewrite ?Hw1, ?Hh1, ?Hlb, ?Hl1; done || lia. }
  eexists. split; [done |]. rewrite update_cursor_spec by done.
  split; [by destruct Hwf2; split |]. split; rewrite <- ?Hpos; simpl.
  - by rewrite Hh1.
  - done.
  - intros r x Hon. change (cell _ r x) with (cell v2 r x).
    rewrite Hcells by (unfold on_screen; by rewrite Hw1, Hh1).
    unfold scrolled. rewrite Hh1, Hc1. destruct (CURSOR_ROW v1 =? VGA_HEIGHT v) eqn:E.
    + destruct (Z.eqb_spec r (VGA_HEIGHT v - 1)); [done |]. apply Hcell.
      destruct Hon. split; lia.
    + by apply Hcell.
  - intros j Hj. rewrite Hout by (by rewrite Hw1, Hh1). by apply Hrest.
  - by rewrite Hp1, Hw1.
  - split_and!; congruence.
Qed.

(** C12: putting a character (printable, newline or backspace) keeps the cursor
    on the screen, changes the one cell it should, scrolls by exactly one row
    with a blank last row when the cursor leaves the bottom, writes nothing
    outside the visible cells, and moves the hardware cursor to the software
    cursor, in both the 25 and the 50 line mode. *)
Theorem putchar_unlocked_correct c v :
  wf v -> exists v', putchar_unlocked c v = Some v' /\ wf v' /\ put c v v'.
Proof. exact (putchar_unlocked_spec c v). Qed.

Lemma wf_lock v : wf v -> wf (lock v).
Proof. by intros []; split. Qed.
Lemma wf_unlock v : wf v -> wf (unlock v).
Proof. by intros []; split. Qed.
Lemma wf_mirror c v : wf v -> wf (mirror c v).
Proof. intros Hwf. unfold mirror. destruct (SERIAL_MIRROR v); [by destruct Hwf; split | done]. Qed.

(** Printing any string succeeds and keeps the console sound. *)
Lemma write_bytes_total stop s v :
  wf v -> exists v', bytes_loop stop s v = Some v' /\ wf v'.
Proof.
  revert v; induction s as [| c s IH]; intros v Hwf; cbn [bytes_loop]; [eauto |].
  destruct (stop c); [eauto |]. destruct (putchar_unlocked_spec c v Hwf) as (v1 & -> & Hwf1 & _).
  cbn [mbind option_bind]. by apply IH, wf_mirror.
Qed.

Definition blank_console : vga :=
  Vga (replicate 4000 0) 80 25 24 79 7 false Spinlock_new 0x202 [] [].

(** A character in the last cell scrolls the screen. *)
Lemma putchar_unlocked_correct_witness :
  exists v', putchar_unlocked 65 blank_console = Some v' /\ CURSOR_ROW v' = 24 /\ CURSOR_COL v' = 0 /\
    cell v' 23 79 = 0x0741.
Proof.
  destruct (putchar_unlocked_correct 65 blank_console) as (v' & E & _ & [Hr Hc Hcell _ _ _]).
  { split; cbn; [done | by left | done | done | done]. }
  exists v'. split; [exact E | split; [exact Hr | split; [exact Hc |]]].
  rewrite (Hcell 23 79); [reflexivity | split; cbn; lia].
Defined.
