(* ===== verification/Block.v ===== *)
(** The block-device interface the file system is written against
    ([ata::read_sector] and [ata::write_sector] of [src/src/ata.rs]), and a
    RAM disk that satisfies it.

    A sector is 512 bytes.  [bd_data d lba] is what the medium holds,
    [bd_size] how many sectors it has; [bd_ready] is a device that serves
    transfers.  The laws say that a transfer inside a ready device succeeds and
    leaves it ready, that a read returns the medium's bytes and changes nothing,
    that a write changes one sector, and that a write past the end fails and
    changes none; it may leave the device refusing everything, as an ATA drive
    does whose error nobody clears. *)
From S2P Require Import Prelude.

Definition sector (l : list Z) : Prop := length l = 512%nat /\ byte_list l.

Class BlockDevice (D : Type) := {
  bd_read : Z -> D -> option (list Z) * D;
  bd_write : Z -> list Z -> D -> bool * D;
  bd_size : D -> Z;
  bd_data : D -> Z -> list Z;
  bd_ready : D -> Prop;
  bd_sector : forall d lba, sector (bd_data d lba);
  bd_read_law : forall lba d, bd_ready d -> 0 <= lba < bd_size d ->
    exists d', bd_read lba d = (Some (bd_data d lba), d') /\ bd_ready d' /\
      bd_size d' = bd_size d /\ forall x, bd_data d' x = bd_data d x;
  bd_write_law : forall lba l d, bd_ready d -> 0 <= lba < bd_size d -> sector l ->
    exists d', bd_write lba l d = (true, d') /\ bd_ready d' /\ bd_size d' = bd_size d /\
      forall x, bd_data d' x = if x =? lba then l else bd_data d x;
  (** Sector numbers have 28 bits. *)
  bd_write_out : forall lba l d, bd_ready d -> 0 <= lba < 2 ^ 28 -> bd_size d <= lba -> sector l ->
    exists d', bd_write lba l d = (false, d') /\ bd_size d' = bd_size d /\
      forall x, bd_data d' x = bd_data d x
}.

(** ** A RAM disk *)

Record ramdisk := { rd_size : Z; rd_data : gmap Z (list Z) }.

Definition blank_sector : list Z := replicate 512 0.
Definition rd_sector (d : ramdisk) (lba : Z) : list Z :=
  let l := default blank_sector (rd_data d !! lba) in
  if decide (length l = 512%nat /\ byte_list l) then l else blank_sector.

Definition rd_read (lba : Z) (d : ramdisk) : option (list Z) * ramdisk :=
  if (0 <=? lba) && (lba <? rd_size d) then (Some (rd_sector d lba), d) else (None, d).
Definition rd_write (lba : Z) (l : list Z) (d : ramdisk) : bool * ramdisk :=
  if (0 <=? lba) && (lba <? rd_size d)
  then (true, {| rd_size := rd_size d; rd_data := <[lba := l]> (rd_data d) |})
  else (false, d).

Lemma blank_sector_ok : sector blank_sector.
Proof. split; [done |]. apply Forall_replicate. unfold is_byte; lia. Qed.

Lemma rd_sector_ok d lba : sector (rd_sector d lba).
Proof. unfold rd_sector. case_decide; [done | apply blank_sector_ok]. Qed.

Lemma rd_read_law lba d :
  True -> 0 <= lba < rd_size d ->
  exists d', rd_read lba d = (Some (rd_sector d lba), d') /\ True /\
    rd_size d' = rd_size d /\ forall x, rd_sector d' x = rd_sector d x.
Proof.
  intros _ H. exists d. unfold rd_read.
  destruct (Z.leb_spec 0 lba), (Z.ltb_spec lba (rd_size d)); done || lia.
Qed.

Lemma rd_write_law lba l d :
  True -> 0 <= lba < rd_size d -> sector l ->
  exists d', rd_write lba l d = (true, d') /\ True /\ rd_size d' = rd_size d /\
    forall x, rd_sector d' x = if x =? lba then l else rd_sector d x.
Proof.
  intros _ H Hl. unfold rd_write.
  destruct (Z.leb_spec 0 lba), (Z.ltb_spec lba (rd_size d)); [| lia..].
  eexists. split; [done |]. split; [done |]. split; [done |]. intros x. unfold rd_sector; simpl.
  destruct (Z.eqb_spec x lba) as [-> | Hne].
  - rewrite lookup_insert_eq. simpl. by rewrite decide_True.
  - by rewrite lookup_insert_ne.
Qed.

Lemma rd_write_out lba l d :
  True -> 0 <= lba < 2 ^ 28 -> rd_size d <= lba -> sector l ->
  exists d', rd_write lba l d = (false, d') /\ rd_size d' = rd_size d /\
    forall x, rd_sector d' x = rd_sector d x.
Proof.
  intros _ _ H _. exists d. unfold rd_write.
  rewrite (proj2 (Z.ltb_ge lba (rd_size d))), andb_false_r by lia. done.
Qed.

#[export] Instance ramdisk_device : BlockDevice ramdisk := {
  bd_read := rd_read; bd_write := rd_write; bd_size := rd_size; bd_data := rd_sector;
  bd_ready := fun _ => True; bd_sector := rd_sector_ok; bd_read_law := rd_read_law;
  bd_write_law := rd_write_law; bd_write_out := rd_write_out }.
