(* ===== verification/Fat16.v ===== *)
(** FAT16 file system driver ([src/src/fat16.rs]).

    The driver keeps the boot sector's parameters and a cached copy of the
    file allocation table; directory entries and clusters are read and written
    through the [BlockDevice] interface, buffers come from [KernelHeap].
    Indexing the cached table out of its bounds is a fault ([None]).  Console
    messages are a log. *)
From Stdlib Require Import String.
From S2P Require Import Prelude StringRs Heap Block.

(** ** On-disk structures *)

Record Fat16DirEntry := Entry {
  name : list Z; attr : Z; reserved : list Z; time : Z; date : Z;
  first_cluster : Z; size : Z }.

Definition entry_bytes (e : Fat16DirEntry) : list Z :=
  name e ++ [attr e] ++ reserved e ++ le_bytes 2 (time e) ++ le_bytes 2 (date e) ++
  le_bytes 2 (first_cluster e) ++ le_bytes 4 (size e).

Definition bytes_entry (l : list Z) : Fat16DirEntry := {|
  name := slice 0 11 l; attr := default 0 (l !! 11%nat); reserved := slice 12 10 l;
  time := le_val (slice 22 2 l); date := le_val (slice 24 2 l);
  first_cluster := le_val (slice 26 2 l); size := le_val (slice 28 4 l) |}.

(** An entry of zero bytes. *)
Definition zeroed_entry : Fat16DirEntry :=
  Entry (replicate 11 0) 0 (replicate 10 0) 0 0 0 0.

Definition entry_size : Z := 32.

Record Bpb := {
  bytes_per_sector : Z; sectors_per_cluster : Z; reserved_sectors : Z; num_fats : Z;
  root_entry_count : Z; total_sectors_16 : Z; total_sectors_32 : Z; fat_size_16 : Z;
  first_fat_sector : Z; first_root_sector : Z; root_dir_sectors : Z;
  first_data_sector : Z; cluster_size : Z }.

(** ** 8.3 names *)

Definition upper (c : Z) : Z := if (97 <=? c) && (c <=? 122) then c - 97 + 65 else c.

(** [while name[i] != 0 && name[i] != '.' && j < 8]; the list is the rest of
    the C string. *)
Fixpoint base_loop (l : list Z) (j : nat) (out : list Z) : list Z * list Z :=
  match l with
  | [] => (l, out)
  | c :: l' =>
      if negb (c =? 46) && (j <? 8)%nat then base_loop l' (S j) (<[j := upper c]> out)
      else (l, out)
  end.

(** [while name[i] != 0 && name[i] != '.']. *)
Fixpoint skip_loop (l : list Z) : list Z :=
  match l with
  | [] => []
  | c :: l' => if negb (c =? 46) then skip_loop l' else l
  end.

(** [while name[i] != 0 && j < 11]. *)
Fixpoint ext_loop (l : list Z) (j : nat) (out : list Z) : list Z :=
  match l with
  | [] => out
  | c :: l => if (j <? 11)%nat then ext_loop l (S j) (<[j := upper c]> out) else out
  end.

Definition name_to_83 (nm : list Z) : list Z :=
  let out := replicate 11 32 in
  let '(rest, out) := base_loop nm 0 out in
  match skip_loop rest with
  | c :: rest => if c =? 46 then ext_loop rest 8 out else out
  | [] => out
  end.

(** The characters that are not spaces, appended to [out]. *)
Fixpoint copy_loop (l : list Z) (out : list Z) : list Z :=
  match l with
  | [] => out
  | c :: l => copy_loop l (if negb (c =? 32) then out ++ [c] else out)
  end.

(** The string written to [out], without the terminator. *)
Definition name_from_83 (fat_name : list Z) : list Z :=
  let out := copy_loop (slice 0 8 fat_name) [] in
  if negb (default 0 (fat_name !! 8%nat) =? 32)
  then copy_loop (slice 8 3 fat_name) (out ++ [46]) else out.

(** ** The driver *)

Section code.
Context {D Hp : Type} `{BlockDevice D} `{KernelHeap Hp}.

Record fat := Fat {
  dev : D; hp : Hp; BPB : Bpb; FAT_PTR : Z; FAT_TABLE : list Z; FAT_ENTRIES : Z;
  FAT16_READY : Z; SECTOR_BUF : list Z; console : list string }.

Definition set_dev (d : D) (s : fat) : fat :=
  Fat d (hp s) (BPB s) (FAT_PTR s) (FAT_TABLE s) (FAT_ENTRIES s) (FAT16_READY s) (SECTOR_BUF s) (console s).
Definition set_hp (h : Hp) (s : fat) : fat :=
  Fat (dev s) h (BPB s) (FAT_PTR s) (FAT_TABLE s) (FAT_ENTRIES s) (FAT16_READY s) (SECTOR_BUF s) (console s).
Definition set_bpb (b : Bpb) (s : fat) : fat :=
  Fat (dev s) (hp s) b (FAT_PTR s) (FAT_TABLE s) (FAT_ENTRIES s) (FAT16_READY s) (SECTOR_BUF s) (console s).
Definition set_table (p : Z) (t : list Z) (n : Z) (s : fat) : fat :=
  Fat (dev s) (hp s) (BPB s) p t n (FAT16_READY s) (SECTOR_BUF s) (console s).
Definition set_fat (t : list Z) (s : fat) : fat := set_table (FAT_PTR s) t (FAT_ENTRIES s) s.
Definition set_ready (r : Z) (s : fat) : fat :=
  Fat (dev s) (hp s) (BPB s) (FAT_PTR s) (FAT_TABLE s) (FAT_ENTRIES s) r (SECTOR_BUF s) (console s).
Definition set_buf (l : list Z) (s : fat) : fat :=
  Fat (dev s) (hp s) (BPB s) (FAT_PTR s) (FAT_TABLE s) (FAT_ENTRIES s) (FAT16_READY s) l (console s).
Definition puts (m : string) (s : fat) : fat :=
  Fat (dev s) (hp s) (BPB s) (FAT_PTR s) (FAT_TABLE s) (FAT_ENTRIES s) (FAT16_READY s) (SECTOR_BUF s)
    (console s ++ [m]).

(** Consecutive sectors read into one buffer; [None] is a failed read. *)
Fixpoint read_loop (n : nat) (lba : Z) (acc : list Z) (d : D) : option (list Z) * D :=
  match n with
  | O => (Some acc, d)
  | S n =>
      match bd_read lba d with
      | (Some l, d) => read_loop n (u32 (lba + 1)) (acc ++ l) d
      | (None, d) => (None, d)
      end
  end.

(** Consecutive sectors written from [buf]. *)
Fixpoint write_loop (n : nat) (lba : Z) (i : nat) (buf : list Z) (d : D) : bool * D :=
  match n with
  | O => (true, d)
  | S n =>
      match bd_write (u32 (lba + Z.of_nat i)) (slice (i * 512) 512 buf) d with
      | (true, d) => write_loop n lba (S i) buf d
      | (false, d) => (false, d)
      end
  end.

Definition cluster_lba (b : Bpb) (cluster : Z) : Z :=
  u32 (first_data_sector b + u32 (u32 (cluster - 2) * sectors_per_cluster b)).

Definition read_cluster (cluster : Z) (s : fat) : option (list Z) * fat :=
  if cluster <? 2 then (None, s) else
  let lba := cluster_lba (BPB s) cluster in
  let '(r, d) := read_loop (Z.to_nat (sectors_per_cluster (BPB s))) lba [] (dev s) in
  (r, set_dev d s).

Definition write_cluster (cluster : Z) (buf : list Z) (s : fat) : bool * fat :=
  if cluster <? 2 then (false, s) else
  let lba := cluster_lba (BPB s) cluster in
  let '(r, d) := write_loop (Z.to_nat (sectors_per_cluster (BPB s))) lba 0 buf (dev s) in
  (r, set_dev d s).

Definition fat_next (cluster : Z) (s : fat) : option Z :=
  if cluster >=? FAT_ENTRIES s then Some 0xFFFF else zget (FAT_TABLE s) cluster.

(** [for i in 2..FAT_ENTRIES as u16]. *)
Fixpoint alloc_loop (n : nat) (i : Z) (t : list Z) : option (Z * list Z) :=
  match n with
  | O => Some (0, t)
  | S n =>
      e ← zget t i;
      if e =? 0 then t ← zset t i 0xFFFF; Some (i, t)
      else alloc_loop n (i + 1) t
  end.

Definition fat_alloc (s : fat) : option (Z * fat) :=
  '(c, t) ← alloc_loop (Z.to_nat (u16 (FAT_ENTRIES s) - 2)) 2 (FAT_TABLE s);
  Some (c, set_fat t s).

(** The cached table as the bytes [fat_flush] writes. *)
Definition fat_raw (t : list Z) : list Z := concat (map (le_bytes 2) t).

Fixpoint flush_loop (n : nat) (f : Z) (b : Bpb) (raw : list Z) (d : D) : bool * D :=
  match n with
  | O => (true, d)
  | S n =>
      let base := u32 (first_fat_sector b + u32 (f * fat_size_16 b)) in
      match write_loop (Z.to_nat (fat_size_16 b)) base 0 raw d with
      | (true, d) => flush_loop n (f + 1) b raw d
      | (false, d) => (false, d)
      end
  end.

Definition fat_flush (s : fat) : bool * fat :=
  let '(r, d) := flush_loop (Z.to_nat (num_fats (BPB s))) 0 (BPB s) (fat_raw (FAT_TABLE s)) (dev s) in
  (r, set_dev d s).

Definition entries_per_sector : Z := 512 / entry_size.

Definition read_root_entry (index : Z) (s : fat) : option Fat16DirEntry * fat :=
  let sector_offset := index / entries_per_sector in
  let entry_offset := index mod entries_per_sector in
  match bd_read (u32 (first_root_sector (BPB s) + sector_offset)) (dev s) with
  | (Some l, d) =>
      let s := set_buf l (set_dev d s) in
      (Some (bytes_entry (slice (Z.to_nat (entry_offset * entry_size)) 32 (SECTOR_BUF s))), s)
  | (None, d) => (None, set_dev d s)
  end.

Definition write_root_entry (index : Z) (e : Fat16DirEntry) (s : fat) : bool * fat :=
  let sector_offset := index / entries_per_sector in
  let entry_offset := index mod entries_per_sector in
  let lba := u32 (first_root_sector (BPB s) + sector_offset) in
  match bd_read lba (dev s) with
  | (Some l, d) =>
      let s := set_dev d s in
      let s := set_buf (splice (Z.to_nat (entry_offset * entry_size)) (entry_bytes e) l) s in
      let '(ok, d) := bd_write lba (SECTOR_BUF s) (dev s) in
      (ok, set_dev d s)
  | (None, d) => (false, set_dev d s)
  end.

Definition skip_attr (e : Fat16DirEntry) : bool :=
  (attr e =? 0x0F) || negb (Z.land (attr e) 0x08 =? 0).

Definition first_byte (e : Fat16DirEntry) : Z := default 0 (name e !! 0%nat).

(** [for i in 0..BPB.root_entry_count]; [-1] when the file is not found. *)
Fixpoint find_loop (n : nat) (i : Z) (fat_name : list Z) (s : fat) : Z * Fat16DirEntry * fat :=
  match n with
  | O => (-1, zeroed_entry, s)
  | S n =>
      match read_root_entry i s with
      | (None, s) => (-1, zeroed_entry, s)
      | (Some e, s) =>
          if first_byte e =? 0x00 then (-1, zeroed_entry, s) else
          if first_byte e =? 0xE5 then find_loop n (i + 1) fat_name s else
          if skip_attr e then find_loop n (i + 1) fat_name s else
          if decide (name e = fat_name) then (i, e, s)
          else find_loop n (i + 1) fat_name s
      end
  end.

Definition find_root_entry (fat_name : list Z) (s : fat) : Z * Fat16DirEntry * fat :=
  find_loop (Z.to_nat (root_entry_count (BPB s))) 0 fat_name s.

Fixpoint free_slot_loop (n : nat) (i : Z) (s : fat) : Z * fat :=
  match n with
  | O => (-1, s)
  | S n =>
      match read_root_entry i s with
      | (None, s) => (-1, s)
      | (Some e, s) =>
          if (first_byte e =? 0x00) || (first_byte e =? 0xE5) then (i, s)
          else free_slot_loop n (i + 1) s
      end
  end.

Definition find_free_root_entry (s : fat) : Z * fat :=
  free_slot_loop (Z.to_nat (root_entry_count (BPB s))) 0 s.

(** ** Public operations *)

(** The fields [init] copies out of the boot sector. *)
Definition parse_bpb (b : list Z) (old : Bpb) : Bpb :=
  {| bytes_per_sector := le_val (slice 11 2 b); sectors_per_cluster := le_val (slice 13 1 b);
     reserved_sectors := le_val (slice 14 2 b); num_fats := le_val (slice 16 1 b);
     root_entry_count := le_val (slice 17 2 b); total_sectors_16 := le_val (slice 19 2 b);
     total_sectors_32 := le_val (slice 32 4 b); fat_size_16 := le_val (slice 22 2 b);
     first_fat_sector := first_fat_sector old; first_root_sector := first_root_sector old;
     root_dir_sectors := root_dir_sectors old; first_data_sector := first_data_sector old;
     cluster_size := cluster_size old |}.

(** The layout values it derives from them. *)
Definition derive_bpb (b : Bpb) : Bpb :=
  let root_secs := (root_entry_count b * 32 + 511) / 512 in
  let first_root := u32 (reserved_sectors b + u32 (num_fats b * fat_size_16 b)) in
  {| bytes_per_sector := bytes_per_sector b; sectors_per_cluster := sectors_per_cluster b;
     reserved_sectors := reserved_sectors b; num_fats := num_fats b;
     root_entry_count := root_entry_count b; total_sectors_16 := total_sectors_16 b;
     total_sectors_32 := total_sectors_32 b; fat_size_16 := fat_size_16 b;
     first_fat_sector := reserved_sectors b; first_root_sector := first_root;
     root_dir_sectors := root_secs; first_data_sector := u32 (first_root + root_secs);
     cluster_size := sectors_per_cluster b * 512 |}.

(** The 16-bit words of the raw table. *)
Fixpoint words (l : list Z) : list Z :=
  match l with
  | a :: b :: l => le_val [a; b] :: words l
  | _ => []
  end.

Definition init (s : fat) : option (Z * fat) :=
  let s := set_ready 0 s in
  match bd_read 0 (dev s) with
  | (None, d) => Some (-1, puts "FAT16: cannot read boot sector" (set_dev d s))
  | (Some l, d) =>
      let s := set_buf l (set_dev d s) in
      let b := parse_bpb (SECTOR_BUF s) (BPB s) in
      let s := set_bpb b s in
      if negb (bytes_per_sector b =? 512) then Some (-1, puts "FAT16: unsupported sector size" s) else
      if (fat_size_16 b =? 0) || (num_fats b =? 0) then Some (-1, puts "FAT16: invalid BPB" s) else
      let b := derive_bpb b in
      let s := set_bpb b s in
      let fat_bytes := fat_size_16 b * 512 in
      '(p, h) ← kh_malloc fat_bytes (hp s);
      let s := set_table p [] (fat_bytes / 2) (set_hp h s) in
      if p =? 0 then Some (-1, puts "FAT16: cannot allocate FAT cache" s) else
      match read_loop (Z.to_nat (fat_size_16 b)) (first_fat_sector b) [] (dev s) with
      | (None, d) =>
          h ← kh_free p (hp s);
          Some (-1, set_table 0 [] (FAT_ENTRIES s) (set_hp h (puts "FAT16: cannot read FAT" (set_dev d s))))
      | (Some raw, d) =>
          Some (0, puts "FAT16: mounted" (set_ready 1 (set_fat (words raw) (set_dev d s))))
      end
  end.

(** What the enumeration loops do with entry [e]: stop at the end mark, pass
    over what is not a regular file. *)
Inductive visit := Stop | Pass | File.
Definition visit_entry (e : Fat16DirEntry) : visit :=
  if first_byte e =? 0x00 then Stop else
  if first_byte e =? 0xE5 then Pass else
  if skip_attr e then Pass else
  if negb (Z.land (attr e) 0x10 =? 0) then Pass else File.

(** [callback] is the text it prints. *)
Fixpoint list_loop (n : nat) (i : Z) (callback : list Z -> Z -> string) (s : fat) : fat :=
  match n with
  | O => s
  | S n =>
      match read_root_entry i s with
      | (None, s) => s
      | (Some e, s) =>
          match visit_entry e with
          | Stop => s
          | Pass => list_loop n (i + 1) callback s
          | File => list_loop n (i + 1) callback (puts (callback (name_from_83 (name e)) (size e)) s)
          end
      end
  end.

Definition list_files (callback : list Z -> Z -> string) (s : fat) : fat :=
  if FAT16_READY s =? 0 then s else
  list_loop (Z.to_nat (root_entry_count (BPB s))) 0 callback s.

(** [while remaining > 0 && cluster >= 2 && cluster < 0xFFF8]; [out] is what
    has been copied to [buf]. *)
Fixpoint read_file_loop (fuel : nat) (cluster remaining : Z) (out : list Z) (s : fat)
    : option (option (list Z) * fat) :=
  match fuel with
  | O => None
  | S fuel =>
      if (remaining >? 0) && (cluster >=? 2) && (cluster <? 0xFFF8) then
        match read_cluster cluster s with
        | (None, s) => Some (None, s)
        | (Some cluster_buf, s) =>
            let copy_size := if cluster_size (BPB s) >? remaining then remaining
                             else cluster_size (BPB s) in
            let out := out ++ slice 0 (Z.to_nat copy_size) cluster_buf in
            cluster ← fat_next cluster s;
            read_file_loop fuel cluster (remaining - copy_size) out s
        end
      else Some (Some out, s)
  end.

(** The result code and the bytes left in [buf]. *)
Definition read_file (fuel : nat) (nm : list Z) (max_size : Z) (s : fat)
    : option (Z * list Z * fat) :=
  if FAT16_READY s =? 0 then Some (-1, [], s) else
  let fat_name := name_to_83 nm in
  let '(idx, entry, s) := find_root_entry fat_name s in
  if idx <? 0 then Some (-1, [], s) else
  if size entry =? 0 then Some (0, [], s) else
  let remaining := if size entry >? max_size then max_size else size entry in
  '(p, h) ← kh_malloc (cluster_size (BPB s)) (hp s);
  let s := set_hp h s in
  if p =? 0 then Some (-1, [], s) else
  '(r, s) ← read_file_loop fuel (first_cluster entry) remaining [] s;
  h ← kh_free p (hp s);
  let s := set_hp h s in
  match r with
  | None => Some (-1, [], s)
  | Some out => Some (i32 (Z.of_nat (List.length out)), out, s)
  end.

(** [while cluster >= 2 && cluster < 0xFFF8] of [write_file]: every cluster of
    the old chain is marked free. *)
Fixpoint free_chain (fuel : nat) (cluster : Z) (s : fat) : option fat :=
  match fuel with
  | O => None
  | S fuel =>
      if (cluster >=? 2) && (cluster <? 0xFFF8) then
        next ← fat_next cluster s;
        t ← zset (FAT_TABLE s) cluster 0;
        free_chain fuel next (set_fat t s)
      else Some s
  end.

(** [while offset < size]; the result is the first cluster, or [None] when the
    disk is full or a cluster cannot be written. *)
Fixpoint write_file_loop (fuel : nat) (buf : list Z) (sz first prev offset : Z) (s : fat)
    : option (option Z * fat) :=
  match fuel with
  | O => None
  | S fuel =>
      if offset <? sz then
        '(cluster, s) ← fat_alloc s;
        if cluster =? 0 then Some (None, s) else
        let first := if first =? 0 then cluster else first in
        s ← (if negb (prev =? 0)
             then t ← zset (FAT_TABLE s) prev cluster; Some (set_fat t s) else Some s);
        let write_size := if u32 (offset + cluster_size (BPB s)) >? sz then sz - offset
                          else cluster_size (BPB s) in
        let cluster_buf :=
          splice 0 (slice (Z.to_nat offset) (Z.to_nat write_size) buf)
            (replicate (Z.to_nat (cluster_size (BPB s))) 0) in
        match write_cluster cluster cluster_buf s with
        | (false, s) => Some (None, s)
        | (true, s) => write_file_loop fuel buf sz first cluster (u32 (offset + write_size)) s
        end
      else Some (Some first, s)
  end.

(** The directory slot [write_file] uses, with the entry to start from; the
    cluster chain of an existing file is released. *)
Definition prepare_entry (fuel : nat) (fat_name : list Z) (s : fat)
    : option (Z * Fat16DirEntry * fat) :=
  let '(idx, entry, s) := find_root_entry fat_name s in
  if idx >=? 0 then
    s ← free_chain fuel (first_cluster entry) s;
    Some (idx, entry, s)
  else
    let '(idx, s) := find_free_root_entry s in
    Some (idx, Entry fat_name 0x20 (replicate 10 0) 0 0 0 0, s).

Definition write_file (fuel : nat) (nm buf : list Z) (s : fat) : option (Z * fat) :=
  let sz := Z.of_nat (List.length buf) in
  if FAT16_READY s =? 0 then Some (-1, s) else
  let fat_name := name_to_83 nm in
  '(dir_index, entry, s) ← prepare_entry fuel fat_name s;
  if dir_index <? 0 then Some (-1, s) else
  '(p, h) ← kh_malloc (cluster_size (BPB s)) (hp s);
  let s := set_hp h s in
  if p =? 0 then Some (-1, s) else
  '(r, s) ← write_file_loop fuel buf sz 0 0 0 s;
  h ← kh_free p (hp s);
  let s := set_hp h s in
  match r with
  | None => Some (-1, s)
  | Some first =>
      let entry := Entry (name entry) (attr entry) (reserved entry) (time entry) (date entry)
                     first sz in
      let '(ok, s) := write_root_entry dir_index entry s in
      if negb ok then Some (-1, s) else
      let '(ok, s) := fat_flush s in
      Some (if ok then 0 else -1, s)
  end.

Fixpoint count_loop (n : nat) (i count : Z) (s : fat) : Z * fat :=
  match n with
  | O => (count, s)
  | S n =>
      match read_root_entry i s with
      | (None, s) => (count, s)
      | (Some e, s) =>
          match visit_entry e with
          | Stop => (count, s)
          | Pass => count_loop n (i + 1) count s
          | File => count_loop n (i + 1) (count + 1) s
          end
      end
  end.

Definition get_file_count (s : fat) : Z * fat :=
  if FAT16_READY s =? 0 then (0, s) else
  count_loop (Z.to_nat (root_entry_count (BPB s))) 0 0 s.

(** The entry of the [index]-th regular file. *)
Fixpoint nth_loop (n : nat) (i count index : Z) (s : fat) : option Fat16DirEntry * fat :=
  match n with
  | O => (None, s)
  | S n =>
      match read_root_entry i s with
      | (None, s) => (None, s)
      | (Some e, s) =>
          match visit_entry e with
          | Stop => (None, s)
          | Pass => nth_loop n (i + 1) count index s
          | File => if count =? index then (Some e, s) else nth_loop n (i + 1) (count + 1) index s
          end
      end
  end.

Definition get_file_name (index buf_size : Z) (s : fat) : option (list Z) * fat :=
  if (FAT16_READY s =? 0) || (buf_size <? 13) then (None, s) else
  let '(e, s) := nth_loop (Z.to_nat (root_entry_count (BPB s))) 0 0 index s in
  (e ← e; Some (name_from_83 (name e)), s).

Definition get_file_size (index : Z) (s : fat) : Z * fat :=
  if FAT16_READY s =? 0 then (0, s) else
  let '(e, s) := nth_loop (Z.to_nat (root_entry_count (BPB s))) 0 0 index s in
  (match e with Some e => size e | None => 0 end, s).
End code.
Arguments fat D Hp : clear implicits.
