(* ===== verification/Fat16Disk.v ===== *)
(** Properties of the FAT16 driver ([Fat16]): directory entries and 8.3 names;
    then its transfers as functions of the medium: runs of sectors, clusters,
    directory entries and the flushed table. *)
From S2P Require Import Prelude StringRs Heap Block Fat16.

(** ** Directory entries *)

Record entry_ok (e : Fat16DirEntry) : Prop := {
  eo_name : length (name e) = 11%nat; eo_reserved : length (reserved e) = 10%nat;
  eo_time : 0 <= time e < 65536; eo_date : 0 <= date e < 65536;
  eo_cluster : 0 <= first_cluster e < 65536; eo_size : 0 <= size e < 2 ^ 32;
  eo_bytes : byte_list (name e) /\ is_byte (attr e) /\ byte_list (reserved e) }.

Lemma entry_bytes_length e : entry_ok e -> length (entry_bytes e) = 32%nat.
Proof.
  intros []. unfold entry_bytes. rewrite !length_app, !length_le_bytes.
  by rewrite eo_name0, eo_reserved0.
Qed.

Lemma entry_bytes_byte e : entry_ok e -> byte_list (entry_bytes e).
Proof.
  intros []. destruct eo_bytes0 as (? & ? & ?). unfold entry_bytes, byte_list.
  repeat (apply Forall_app_2); try done; try apply le_bytes_byte_list; by constructor.
Qed.

Lemma slice_at {A} off n (l1 l2 l3 : list A) :
  length l1 = off -> length l2 = n -> slice off n (l1 ++ l2 ++ l3) = l2.
Proof. intros <- <-. unfold slice. rewrite drop_app_length. apply take_app_length. Qed.

Lemma bytes_entry_bytes e : entry_ok e -> bytes_entry (entry_bytes e) = e.
Proof.
  intros [Hn Hr Ht Hd Hc Hs _]. destruct e as [nm at_ rs tm dt fc sz]. simpl in *.
  do 11 (destruct nm as [| ? nm]; [done |]). destruct nm; [| done].
  do 10 (destruct rs as [| ? rs]; [done |]). destruct rs; [| done].
  unfold bytes_entry, entry_bytes, slice. simpl.
  f_equal; [apply (le_val_2 tm Ht) | apply (le_val_2 dt Hd) | apply (le_val_2 fc Hc) | apply (le_val_4 sz Hs)].
Qed.

Lemma bytes_entry_ok l : length l = 32%nat -> byte_list l -> entry_ok (bytes_entry l).
Proof.
  intros Hl Hb.
  assert (Hsl : forall off n, (off + n <= 32)%nat ->
    length (slice off n l) = n /\ 0 <= le_val (slice off n l) < 256 ^ Z.of_nat n).
  { intros off n H. assert (E : length (slice off n l) = n) by (apply length_slice; lia).
    split; [done |].
    pose proof (le_val_range (slice off n l) (slice_byte_list _ _ _ Hb)) as Hv. by rewrite E in Hv. }
  split; simpl; try apply Hsl; try lia.
  split_and!; try by apply slice_byte_list.
  destruct (l !! 11%nat) as [b |] eqn:E; simpl; [| unfold is_byte; lia].
  by apply (proj1 (Forall_lookup _ _) Hb 11%nat).
Qed.

(** ** 8.3 names *)

Lemma base_loop_spec l : forall j out,
  (j + length l <= 8)%nat -> length out = 11%nat -> Forall (fun c => c <> 46) l ->
  forall rest, (rest = [] \/ exists r, rest = 46 :: r) ->
  base_loop (l ++ rest) j out = (rest, splice j (map upper l) out).
Proof.
  induction l as [| c l IH]; intros j out Hj Hout Hdot rest Hrest; simpl in Hj.
  - simpl. rewrite splice_nil.
    destruct Hrest as [-> | [r ->]]; [done |]. by simpl.
  - apply Forall_cons in Hdot as [Hc Hdot]. cbn [base_loop app map].
    rewrite (proj2 (Z.eqb_neq c 46) Hc), (proj2 (Nat.ltb_lt j 8)) by lia. cbn [negb andb].
    rewrite IH by (rewrite ?length_insert; lia || done). f_equal.
    apply list_eq. intros i.
    rewrite !lookup_splice by (rewrite ?length_insert, ?length_map; simpl; rewrite ?length_map; lia).
    rewrite !length_map. simpl length. rewrite !length_map.
    destruct (decide (i = j)) as [-> | Hne].
    + rewrite decide_False, decide_True, Nat.sub_diag by lia. by rewrite list_lookup_insert_eq by lia.
    + destruct (decide (S j <= i < S j + length l)%nat).
      * rewrite decide_True by lia. by replace (i - j)%nat with (S (i - S j)) by lia.
      * rewrite decide_False by lia. by rewrite list_lookup_insert_ne by lia.
Qed.

Lemma ext_loop_spec l : forall j out,
  (j + length l <= 11)%nat -> length out = 11%nat ->
  ext_loop l j out = splice j (map upper l) out.
Proof.
  induction l as [| c l IH]; intros j out Hj Hout; simpl in Hj.
  - simpl. by rewrite splice_nil.
  - cbn [ext_loop map]. rewrite (proj2 (Nat.ltb_lt j 11)) by lia.
    rewrite IH by (rewrite ?length_insert; lia). apply list_eq. intros i.
    rewrite !lookup_splice by (rewrite ?length_insert, ?length_map; simpl; rewrite ?length_map; lia).
    simpl length. rewrite !length_map.
    destruct (decide (i = j)) as [-> | Hne].
    + rewrite decide_False, decide_True, Nat.sub_diag by lia. by rewrite list_lookup_insert_eq by lia.
    + destruct (decide (S j <= i < S j + length l)%nat).
      * rewrite decide_True by lia. by replace (i - j)%nat with (S (i - S j)) by lia.
      * rewrite decide_False by lia. by rewrite list_lookup_insert_ne by lia.
Qed.

(** A name the 8.3 format can hold: a base of at most 8 characters and an
    extension of 1 to 3, without spaces, dots or NULs. *)
Record short_name (base ext : list Z) : Prop := {
  sn_base : (length base <= 8)%nat;
  sn_ext : (length ext <= 3)%nat;
  sn_base_chars : Forall (fun c => c <> 46 /\ c <> 32 /\ c <> 0) base;
  sn_ext_chars : Forall (fun c => c <> 46 /\ c <> 32 /\ c <> 0) ext }.

Definition dotted (base ext : list Z) : list Z :=
  base ++ match ext with [] => [] | _ => 46 :: ext end.

Lemma splice_base_ext base ext out :
  (length base <= 8)%nat -> (length ext <= 3)%nat -> out = replicate 11 32 ->
  splice 8 ext (splice 0 base out) =
    base ++ replicate (8 - length base) 32 ++ ext ++ replicate (3 - length ext) 32.
Proof.
  intros Hb He ->. apply list_eq. intros i.
  rewrite lookup_splice by (rewrite length_splice; rewrite length_replicate; lia).
  rewrite lookup_splice by (rewrite length_replicate; lia).
  destruct (decide (8 <= i < 8 + length ext)%nat).
  - rewrite !lookup_app_r by (rewrite ?length_replicate; lia).
    rewrite lookup_app_l by (rewrite ?length_replicate; lia).
    rewrite length_replicate. f_equal. lia.
  - destruct (decide (0 <= i < 0 + length base)%nat).
    + rewrite lookup_app_l by lia. f_equal. lia.
    + rewrite lookup_app_r by lia.
      destruct (decide (i < 8)%nat).
      * rewrite lookup_app_l by (rewrite ?length_replicate; lia).
        by rewrite !lookup_replicate_2 by lia.
      * rewrite !lookup_app_r by (rewrite ?length_replicate; lia).
        rewrite length_replicate. destruct (decide (i < 11)%nat).
        -- by rewrite !lookup_replicate_2 by lia.
        -- by rewrite !lookup_ge_None_2 by (rewrite length_replicate; lia).
Qed.

Lemma name_to_83_spec base ext :
  short_name base ext ->
  name_to_83 (dotted base ext) =
    map upper base ++ replicate (8 - length base) 32 ++ map upper ext ++ replicate (3 - length ext) 32.
Proof.
  intros [Hb He Hbc Hec]. unfold name_to_83, dotted.
  assert (Hbd : Forall (fun c => c <> 46) base) by (eapply Forall_impl; [exact Hbc |]; simpl; tauto).
  pose proof (splice_base_ext (map upper base) (map upper ext) _ ltac:(by rewrite length_map)
    ltac:(by rewrite length_map) eq_refl) as E.
  rewrite !length_map in E. rewrite <- E. clear E.
  rewrite base_loop_spec; [| lia | done | done | destruct ext; eauto].
  destruct ext as [| c ext].
  - simpl. by rewrite splice_nil.
  - cbn [skip_loop]. change (negb (46 =? 46)) with false. cbn iota. change (46 =? 46) with true. cbn iota.
    rewrite ext_loop_spec; [done | simpl in *; lia |].
    rewrite length_splice; rewrite ?length_map, ?length_replicate; lia.
Qed.

Lemma copy_loop_app l : forall out, copy_loop l out = out ++ copy_loop l [].
Proof.
  induction l as [| c l IH]; intros out; simpl; [by rewrite app_nil_r |].
  destruct (negb _); [| done]. by rewrite IH, (IH [c]), <- app_assoc.
Qed.

Lemma copy_loop_chars l : Forall (fun c => c <> 32) l -> copy_loop l [] = l.
Proof.
  induction 1 as [| c l Hc Hl IH]; simpl; [done |].
  rewrite (proj2 (Z.eqb_neq c 32) Hc). simpl. by rewrite copy_loop_app, IH.
Qed.

Lemma copy_loop_spaces n l : copy_loop (l ++ replicate n 32) [] = copy_loop l [].
Proof.
  assert (H : forall out, copy_loop (replicate n 32) out = out) by (induction n; simpl; auto).
  induction l as [| c l IH]; simpl; [apply H |].
  rewrite copy_loop_app, IH, <- copy_loop_app. done.
Qed.

Lemma upper_char c : c <> 32 -> upper c <> 32.
Proof. unfold upper. intros. case_if; breflect; lia. Qed.

(** a short file name survives the conversion to the space-padded 8.3 form
    of a directory entry and back, up to the upper-casing of its letters. *)
Theorem name_83_roundtrip base ext :
  short_name base ext ->
  name_from_83 (name_to_83 (dotted base ext)) = map upper (dotted base ext).
Proof.
  intros Hs. rewrite (name_to_83_spec _ _ Hs). destruct Hs as [Hb He Hbc Hec].
  assert (Hub : Forall (fun c => c <> 32) (map upper base)).
  { apply Forall_map. eapply Forall_impl; [exact Hbc |]. simpl. intros c (_ & H & _). by apply upper_char. }
  assert (Hue : Forall (fun c => c <> 32) (map upper ext)).
  { apply Forall_map. eapply Forall_impl; [exact Hec |]. simpl. intros c (_ & H & _). by apply upper_char. }
  unfold name_from_83.
  set (B := map upper base ++ replicate (8 - length base) 32).
  set (X := map upper ext ++ replicate (3 - length ext) 32).
  assert (HB : length B = 8%nat) by (unfold B; rewrite length_app, length_map, length_replicate; lia).
  assert (HX : length X = 3%nat) by (unfold X; rewrite length_app, length_map, length_replicate; lia).
  replace (map upper base ++ _) with (B ++ X) by (unfold B, X; by rewrite <- app_assoc).
  assert (E1 : slice 0 8 (B ++ X) = B) by (rewrite <- HB; by apply (slice_at 0 _ [])).
  assert (E2 : slice 8 3 (B ++ X) = X).
  { rewrite <- HB. rewrite slice_app_r, <- HX. apply firstn_all. }
  assert (E3 : (B ++ X) !! 8%nat = X !! 0%nat) by (rewrite lookup_app_r by lia; by rewrite HB).
  rewrite E1, E2, E3. unfold B, X. rewrite !copy_loop_spaces, copy_loop_chars by done.
  unfold dotted. rewrite map_app. destruct ext as [| c ext].
  - simpl. by rewrite app_nil_r.
  - simpl lookup. cbn [default]. apply Forall_cons in Hue as [Hc Hue]. 
    rewrite copy_loop_app, copy_loop_spaces, copy_loop_chars by (by constructor).
    change (id (upper c)) with (upper c).
    rewrite (proj2 (Z.eqb_neq _ 32) Hc). simpl. by rewrite <- app_assoc.
Qed.

Lemma name_83_roundtrip_witness :
  name_from_83 (name_to_83 [104; 105; 46; 99]) = [72; 73; 46; 67].
Proof.
  apply (name_83_roundtrip [104; 105] [99]). split; simpl; try lia; repeat constructor; lia.
Defined.

Section disk.
Context {D Hp : Type} `{BlockDevice D} `{KernelHeap Hp}.
Implicit Types (d : D) (s : fat D Hp) (b : Bpb).

(** ** Runs of sectors *)

(** Two states of a device whose medium holds the same bytes. *)
Definition same_disk d d' : Prop :=
  (bd_ready d -> bd_ready d') /\ bd_size d' = bd_size d /\ forall x, bd_data d' x = bd_data d x.

#[export] Instance same_disk_refl : Reflexive same_disk.
Proof. by repeat split. Qed.
#[export] Instance same_disk_trans : Transitive same_disk.
Proof.
  intros d1 d2 d3 (R1 & E1 & F1) (R2 & E2 & F2). split; [auto |]. split; [congruence |].
  intros x. by rewrite F2.
Qed.

(** The bytes of [n] consecutive sectors. *)
Definition sectors (n : nat) (lba : Z) d : list Z :=
  concat (map (fun i => bd_data d (lba + Z.of_nat i)) (seq 0 n)).

Lemma sectors_S n lba d : sectors (S n) lba d = bd_data d lba ++ sectors n (lba + 1) d.
Proof.
  unfold sectors. cbn [seq map concat]. f_equal; [f_equal; lia |].
  rewrite <- seq_shift, map_map. f_equal. apply map_ext. intros i. f_equal. lia.
Qed.

Lemma length_sectors n : forall lba d, length (sectors n lba d) = (n * 512)%nat.
Proof.
  induction n as [| n IH]; intros; [done |]. rewrite sectors_S, length_app, IH.
  destruct (bd_sector d lba) as [-> _]. lia.
Qed.

Lemma sectors_same n lba d d' :
  (forall i, lba <= i < lba + Z.of_nat n -> bd_data d' i = bd_data d i) ->
  sectors n lba d' = sectors n lba d.
Proof.
  intros Hs. unfold sectors. f_equal. apply map_ext_in. intros i Hi%in_seq. apply Hs. lia.
Qed.

Lemma read_loop_spec n : forall lba acc d,
  bd_ready d -> 0 <= lba -> lba + Z.of_nat n <= bd_size d -> bd_size d <= 2 ^ 32 ->
  exists d', read_loop n lba acc d = (Some (acc ++ sectors n lba d), d') /\ same_disk d d'.
Proof.
  induction n as [| n IH]; intros lba acc d Hrd Hl Hn Hsz.
  - exists d. split; [| done]. unfold sectors. simpl. by rewrite app_nil_r.
  - cbn [read_loop]. destruct (bd_read_law lba d Hrd) as (d1 & -> & R1 & E1 & F1); [lia |].
    destruct n as [| n].
    + exists d1. split; [| by split]. rewrite sectors_S. unfold sectors. simpl. by rewrite app_nil_r.
    + rewrite u32_small by lia.
      destruct (IH (lba + 1) (acc ++ bd_data d lba) d1 R1 ltac:(lia) ltac:(lia) ltac:(lia)) as (d' & -> & Hd).
      exists d'. split; [| by transitivity d1].
      rewrite (sectors_S _ lba), <- app_assoc. do 4 f_equal. apply sectors_same. intros. by rewrite F1.
Qed.

(** [d'] is [d] with [n] sectors at [lba] holding the bytes of [buf]. *)
Definition wrote (n : nat) (lba : Z) (buf : list Z) d d' : Prop :=
  bd_ready d' /\ bd_size d' = bd_size d /\
  forall x, bd_data d' x =
    if (lba <=? x) && (x <? lba + Z.of_nat n) then slice (Z.to_nat (x - lba) * 512) 512 buf
    else bd_data d x.

Lemma write_loop_spec n : forall lba i buf d,
  bd_ready d -> 0 <= lba -> lba + Z.of_nat (i + n) <= bd_size d -> bd_size d <= 2 ^ 32 ->
  ((i + n) * 512 <= length buf)%nat -> byte_list buf ->
  exists d', write_loop n lba i buf d = (true, d') /\ bd_ready d' /\ bd_size d' = bd_size d /\
    forall x, bd_data d' x =
      if (lba + Z.of_nat i <=? x) && (x <? lba + Z.of_nat (i + n))
      then slice (Z.to_nat (x - lba) * 512) 512 buf else bd_data d x.
Proof.
  induction n as [| n IH]; intros lba i buf d Hrd Hl Hn Hsz Hbuf Hb.
  - exists d. split; [done |]. split; [done |]. split; [done |]. intros x.
    destruct (Z.leb_spec (lba + Z.of_nat i) x), (Z.ltb_spec x (lba + Z.of_nat (i + 0))); simpl; done || lia.
  - cbn [write_loop]. rewrite u32_small by lia.
    assert (Hs : sector (slice (i * 512) 512 buf)).
    { split; [apply length_slice; lia | by apply slice_byte_list]. }
    destruct (bd_write_law (lba + Z.of_nat i) (slice (i * 512) 512 buf) d Hrd) as (d1 & -> & R1 & E1 & F1); [lia | exact Hs |].
    destruct (IH lba (S i) buf d1 R1) as (d' & -> & R' & E' & F'); [lia.. | done |].
    exists d'. split; [done |]. split; [done |]. split; [lia |]. intros x. rewrite F', F1.
    destruct (Z.eqb_spec x (lba + Z.of_nat i)) as [-> | Hne].
    + replace (Z.to_nat (lba + Z.of_nat i - lba)) with i by lia.
      destruct (Z.leb_spec (lba + Z.of_nat (S i)) (lba + Z.of_nat i)); [lia |].
      destruct (Z.leb_spec (lba + Z.of_nat i) (lba + Z.of_nat i)); [| lia].
      destruct (Z.ltb_spec (lba + Z.of_nat i) (lba + Z.of_nat (i + S n))); [done | lia].
    + destruct (Z.leb_spec (lba + Z.of_nat (S i)) x), (Z.leb_spec (lba + Z.of_nat i) x); try lia; cbn [andb];
        destruct (Z.ltb_spec x (lba + Z.of_nat (S i + n))), (Z.ltb_spec x (lba + Z.of_nat (i + S n)));
        done || lia.
Qed.

Lemma write_loop_wrote n lba buf d :
  bd_ready d -> 0 <= lba -> lba + Z.of_nat n <= bd_size d -> bd_size d <= 2 ^ 32 ->
  (n * 512 <= length buf)%nat -> byte_list buf ->
  exists d', write_loop n lba 0 buf d = (true, d') /\ wrote n lba buf d d'.
Proof.
  intros Hrd Hl Hn Hsz Hbuf Hb.
  destruct (write_loop_spec n lba 0 buf d Hrd) as (d' & -> & R & E & F); [lia.. | done |].
  exists d'. split; [done |]. split; [done |]. split; [done |]. intros x. rewrite F. by rewrite Z.add_0_r.
Qed.

(** A run that passes the end of the medium fails, after the sectors before the end. *)
Lemma write_loop_out n : forall lba i buf d,
  bd_ready d -> 0 <= lba -> bd_size d < lba + Z.of_nat (i + n) -> (0 < n)%nat ->
  lba + Z.of_nat (i + n) <= 2 ^ 28 -> ((i + n) * 512 <= length buf)%nat -> byte_list buf ->
  exists d', write_loop n lba i buf d = (false, d') /\ bd_size d' = bd_size d /\
    forall x, x < lba + Z.of_nat i -> bd_data d' x = bd_data d x.
Proof.
  induction n as [| n IH]; intros lba i buf d Hrd Hl Hn Hpos Hsz Hbuf Hb; [lia |].
  assert (2 ^ 28 = 268435456) as Epow by reflexivity.
  cbn [write_loop]. rewrite u32_small by lia.
  assert (Hs : sector (slice (i * 512) 512 buf)).
  { split; [apply length_slice; lia | by apply slice_byte_list]. }
  destruct (Z.lt_ge_cases (lba + Z.of_nat i) (bd_size d)) as [Hin | Hout].
  - destruct (bd_write_law (lba + Z.of_nat i) (slice (i * 512) 512 buf) d Hrd) as (d1 & -> & R1 & E1 & F1); [lia | exact Hs |].
    destruct (IH lba (S i) buf d1 R1) as (d' & -> & E' & F'); [lia.. | done |].
    exists d'. split; [done |]. split; [lia |]. intros x Hx. rewrite F', F1 by lia.
    by rewrite (proj2 (Z.eqb_neq x _)) by lia.
  - destruct (bd_write_out (lba + Z.of_nat i) (slice (i * 512) 512 buf) d Hrd) as (d' & -> & E' & F'); [lia.. | exact Hs |].
    exists d'. split; [done |]. split; [done |]. intros. apply F'.
Qed.

Lemma wrote_outside n lba buf d d' x :
  wrote n lba buf d d' -> ~ (lba <= x < lba + Z.of_nat n) -> bd_data d' x = bd_data d x.
Proof.
  intros (_ & _ & F) Hx. rewrite F.
  destruct (Z.leb_spec lba x), (Z.ltb_spec x (lba + Z.of_nat n)); simpl; done || lia.
Qed.

Lemma concat_slices n : forall (buf : list Z),
  length buf = (n * 512)%nat ->
  concat (map (fun i => slice (i * 512) 512 buf) (seq 0 n)) = buf.
Proof.
  induction n as [| n IH]; intros buf Hl; [by destruct buf |].
  cbn [seq map concat]. rewrite <- seq_shift, map_map.
  rewrite (map_ext _ (fun i => slice (i * 512) 512 (drop 512 buf))).
  - rewrite IH by (rewrite length_drop; lia). apply take_drop.
  - intros i. unfold slice. rewrite drop_drop. do 2 f_equal; lia.
Qed.

Lemma wrote_sectors n lba buf d d' :
  wrote n lba buf d d' -> length buf = (n * 512)%nat -> sectors n lba d' = buf.
Proof.
  intros (_ & _ & F) Hl. unfold sectors. rewrite <- (concat_slices n buf Hl). f_equal.
  apply map_ext_in. intros i Hi%in_seq. rewrite F.
  destruct (Z.leb_spec lba (lba + Z.of_nat i)), (Z.ltb_spec (lba + Z.of_nat i) (lba + Z.of_nat n));
    simpl; try lia. do 2 f_equal. lia.
Qed.

(** ** A mounted volume *)

Definition spc b : nat := Z.to_nat (sectors_per_cluster b).
Definition csize b : nat := (spc b * 512)%nat.

(** The layout the driver derives from the boot sector, on a device of [n]
    sectors: the FAT copies, then the root directory, then the clusters.  The table may
    have entries for clusters past the end of the medium, as every table has that was
    rounded up to whole sectors. *)
Record layout b (entries n : Z) : Prop := {
  ly_entries : entries = fat_size_16 b * 256;
  ly_fat_size : 1 <= fat_size_16 b <= 255;
  ly_spc : 1 <= sectors_per_cluster b <= 128;
  ly_csize : cluster_size b = sectors_per_cluster b * 512;
  ly_fats : 1 <= num_fats b <= 255;
  ly_root_count : 0 <= root_entry_count b <= 65535;
  ly_first : 1 <= first_fat_sector b <= 65535;
  ly_root : first_root_sector b = first_fat_sector b + num_fats b * fat_size_16 b;
  ly_data : first_data_sector b = first_root_sector b + (root_entry_count b * 32 + 511) / 512;
  ly_size : first_data_sector b <= n;
  ly_dev : n <= 2 ^ 32 }.

(** [live] are the areas the kernel heap has handed out. *)
Record mounted s (live : list (Z * Z)) : Prop := {
  mt_ready : FAT16_READY s <> 0;
  mt_disk : bd_ready (dev s);
  mt_layout : layout (BPB s) (FAT_ENTRIES s) (bd_size (dev s));
  mt_len : Z.of_nat (length (FAT_TABLE s)) = FAT_ENTRIES s;
  mt_words : Forall (fun w => 0 <= w < 65536) (FAT_TABLE s);
  mt_heap : exists l, kh_rep (hp s) l /\ Permutation l live }.

(** Two states that differ in the transfer buffer and the device's internals. *)
Definition quiet s s' : Prop :=
  same_disk (dev s) (dev s') /\ hp s' = hp s /\ BPB s' = BPB s /\ FAT_PTR s' = FAT_PTR s /\
  FAT_TABLE s' = FAT_TABLE s /\ FAT_ENTRIES s' = FAT_ENTRIES s /\ FAT16_READY s' = FAT16_READY s /\
  console s' = console s.

#[export] Instance quiet_refl : Reflexive quiet.
Proof. by repeat split. Qed.
#[export] Instance quiet_trans : Transitive quiet.
Proof.
  intros s1 s2 s3 (A & B) (A' & B'). split; [by transitivity (dev s2) |].
  destruct_and!. split_and!; congruence.
Qed.

Lemma quiet_mounted s s' live : quiet s s' -> mounted s live -> mounted s' live.
Proof.
  intros ((R & E & F) & Eh & Eb & Ep & Et & En & Er & Ec) []. split.
  - by rewrite Er.
  - by apply R.
  - by rewrite Eb, En, E.
  - by rewrite Et, En.
  - by rewrite Et.
  - by rewrite Eh.
Qed.

(** ** Clusters *)

Definition cluster_data d b (c : Z) : list Z :=
  sectors (spc b) (first_data_sector b + (c - 2) * sectors_per_cluster b) d.

(** The cluster number behind the last cluster that lies on a medium of [n] sectors. *)
Definition vol_end b (n : Z) : Z := 2 + (n - first_data_sector b) / sectors_per_cluster b.

(** The cluster lies on the medium. *)
Definition on_disk b (n c : Z) : Prop := 2 <= c < vol_end b n.

#[export] Instance on_disk_dec b n c : Decision (on_disk b n c).
Proof. unfold on_disk. apply _. Defined.

Lemma vol_end_spec b entries n c :
  layout b entries n ->
  c < vol_end b n <-> first_data_sector b + (c - 2) * sectors_per_cluster b + sectors_per_cluster b <= n.
Proof.
  intros []. unfold vol_end.
  pose proof (Z.div_mod (n - first_data_sector b) (sectors_per_cluster b) ltac:(lia)).
  pose proof (Z.mod_pos_bound (n - first_data_sector b) (sectors_per_cluster b) ltac:(lia)). nia.
Qed.

Lemma length_cluster_data d b c : length (cluster_data d b c) = csize b.
Proof. apply length_sectors. Qed.

Lemma cluster_lba_spec b entries n c :
  layout b entries n -> 2 <= c < 65536 ->
  cluster_lba b c = first_data_sector b + (c - 2) * sectors_per_cluster b /\
  0 <= first_data_sector b <= cluster_lba b c /\ cluster_lba b c + sectors_per_cluster b <= 2 ^ 28.
Proof.
  intros [] [H1 H2]. unfold cluster_lba. assert (2 ^ 28 = 268435456) as Epow by reflexivity.
  assert (0 <= (root_entry_count b * 32 + 511) / 512 <= 4096) by mod_lia.
  assert (0 <= num_fats b * fat_size_16 b <= 65025) by nia.
  assert (0 <= (c - 2) * sectors_per_cluster b <= 65534 * 128) by nia.
  rewrite (u32_small (c - 2)) by lia.
  rewrite (u32_small ((c - 2) * _)) by lia. rewrite u32_small by lia. lia.
Qed.

Lemma cluster_apart c c' (k : Z) : 1 <= k -> c <> c' -> (c - 2) * k + k <= (c' - 2) * k \/ (c' - 2) * k + k <= (c - 2) * k.
Proof. intros. destruct (Z.lt_total c c') as [| [|]]; [left; nia | done | right; nia]. Qed.

Lemma read_cluster_spec s live c :
  mounted s live -> c < 65536 -> on_disk (BPB s) (bd_size (dev s)) c ->
  exists s', read_cluster c s = (Some (cluster_data (dev s) (BPB s) c), s') /\ quiet s s'.
Proof.
  intros Hm Hc' [Hc1 Hc2]. destruct (cluster_lba_spec _ _ _ c (mt_layout _ _ Hm)) as (E & Hlo & Hhi); [lia |].
  apply (vol_end_spec _ _ _ _ (mt_layout _ _ Hm)) in Hc2. rewrite <- E in Hc2.
  destruct (mt_layout _ _ Hm). unfold read_cluster.
  rewrite (proj2 (Z.ltb_ge c 2)) by lia.
  destruct (read_loop_spec (spc (BPB s)) (cluster_lba (BPB s) c) [] (dev s) (mt_disk _ _ Hm)) as (d' & Hr & Hd);
    [unfold spc; lia.. |].
  unfold spc in Hr. rewrite Hr. eexists. split; [by rewrite E |].
  split; [exact Hd | done].
Qed.

Lemma write_cluster_spec s live c buf :
  mounted s live -> c < 65536 -> on_disk (BPB s) (bd_size (dev s)) c -> length buf = csize (BPB s) -> byte_list buf ->
  exists d', write_cluster c buf s = (true, set_dev d' s) /\
    cluster_data d' (BPB s) c = buf /\
    (forall c', on_disk (BPB s) (bd_size (dev s)) c' -> c' <> c ->
       cluster_data d' (BPB s) c' = cluster_data (dev s) (BPB s) c') /\
    bd_ready d' /\ bd_size d' = bd_size (dev s) /\
    (forall x, x < first_data_sector (BPB s) -> bd_data d' x = bd_data (dev s) x).
Proof.
  intros Hm Hc' [Hc1 Hc2] Hl Hb. destruct (cluster_lba_spec _ _ _ c (mt_layout _ _ Hm)) as (E & Hlo & Hhi); [lia |].
  apply (vol_end_spec _ _ _ _ (mt_layout _ _ Hm)) in Hc2. rewrite <- E in Hc2.
  destruct (mt_layout _ _ Hm). unfold write_cluster.
  rewrite (proj2 (Z.ltb_ge c 2)) by lia.
  assert (Hspc : Z.of_nat (spc (BPB s)) = sectors_per_cluster (BPB s)) by (unfold spc; lia).
  destruct (write_loop_wrote (spc (BPB s)) (cluster_lba (BPB s) c) buf (dev s) (mt_disk _ _ Hm)) as (d' & Hr & Hw);
    [lia | lia | lia | unfold csize in Hl; lia | done |].
  unfold spc in Hr. rewrite Hr. exists d'. split; [done |].
  split; [| split; [| split; [| split]]].
  - unfold cluster_data. rewrite <- E. by apply (wrote_sectors _ _ _ _ _ Hw).
  - intros c' _ Hne. unfold cluster_data. apply sectors_same. intros i Hi.
    apply (wrote_outside _ _ _ _ _ _ Hw). rewrite Hspc in *.
    destruct (cluster_apart c c' (sectors_per_cluster (BPB s)) ltac:(lia) ltac:(congruence)); lia.
  - apply Hw.
  - apply Hw.
  - intros x Hx. apply (wrote_outside _ _ _ _ _ _ Hw). lia.
Qed.

(** A cluster of the table that is not on the medium cannot be written. *)
Lemma write_cluster_off s live c buf :
  mounted s live -> 2 <= c < 65536 -> ~ on_disk (BPB s) (bd_size (dev s)) c ->
  length buf = csize (BPB s) -> byte_list buf ->
  exists d', write_cluster c buf s = (false, set_dev d' s) /\ bd_size d' = bd_size (dev s) /\
    (forall c', on_disk (BPB s) (bd_size (dev s)) c' ->
       cluster_data d' (BPB s) c' = cluster_data (dev s) (BPB s) c') /\
    (forall x, x < first_data_sector (BPB s) -> bd_data d' x = bd_data (dev s) x).
Proof.
  intros Hm Hc Hoff Hl Hb. destruct (cluster_lba_spec _ _ _ c (mt_layout _ _ Hm) Hc) as (E & Hlo & Hhi).
  pose proof (vol_end_spec _ _ _ c (mt_layout _ _ Hm)) as Hend. rewrite <- E in Hend. unfold on_disk in Hoff.
  pose proof (mt_layout _ _ Hm) as Hly. destruct (Hly). unfold write_cluster.
  rewrite (proj2 (Z.ltb_ge c 2)) by lia.
  assert (Hspc : Z.of_nat (spc (BPB s)) = sectors_per_cluster (BPB s)) by (unfold spc; lia).
  destruct (write_loop_out (spc (BPB s)) (cluster_lba (BPB s) c) 0 buf (dev s) (mt_disk _ _ Hm)) as (d' & Hr & Hsz & Hd);
    [lia | lia | lia | lia | unfold csize in Hl; lia | done |].
  unfold spc in Hr. rewrite Hr. exists d'. split; [done |]. split; [done |]. split.
  - intros c' [Hc1 Hc2]. apply sectors_same. intros i Hi. apply Hd. rewrite Hspc in *.
    pose proof (proj1 (vol_end_spec _ _ _ c' Hly) Hc2). assert (c' < c) by lia. nia.
  - intros x Hx. apply Hd. lia.
Qed.

(** ** The root directory *)

Definition dir_entry d b (i : Z) : Fat16DirEntry :=
  bytes_entry (slice (Z.to_nat (i mod 16 * 32)) 32 (bd_data d (first_root_sector b + i / 16))).

Definition in_dir b (i : Z) : Prop := 0 <= i < root_entry_count b.

(** States that differ on the medium only. *)
Definition same_vars s s' : Prop :=
  hp s' = hp s /\ BPB s' = BPB s /\ FAT_PTR s' = FAT_PTR s /\
  FAT_TABLE s' = FAT_TABLE s /\ FAT_ENTRIES s' = FAT_ENTRIES s /\ FAT16_READY s' = FAT16_READY s /\
  console s' = console s /\ bd_size (dev s') = bd_size (dev s) /\ (bd_ready (dev s) -> bd_ready (dev s')).

Lemma same_vars_mounted s s' live : same_vars s s' -> mounted s live -> mounted s' live.
Proof.
  intros (Eh & Eb & Ep & Et & En & Er & Ec & E & R) []. split.
  - by rewrite Er.
  - by apply R.
  - by rewrite Eb, En, E.
  - by rewrite Et, En.
  - by rewrite Et.
  - by rewrite Eh.
Qed.

Lemma quiet_same_vars s s' : quiet s s' -> same_vars s s'.
Proof. intros ((R & E & F) & ?). unfold same_vars. tauto. Qed.

Lemma dir_sector_bound b entries n i :
  layout b entries n -> in_dir b i ->
  first_root_sector b <= first_root_sector b + i / 16 < first_data_sector b /\
  first_data_sector b <= n <= 2 ^ 32 /\ 1 <= first_root_sector b /\ 0 <= i mod 16 * 32 <= 480.
Proof.
  intros [] [H1 H2].
  assert (0 <= num_fats b * fat_size_16 b) by nia.
  split; [mod_lia |]. split; [lia |]. split; [lia | mod_lia].
Qed.

Lemma read_root_entry_spec s live i :
  mounted s live -> in_dir (BPB s) i ->
  exists s', read_root_entry i s = (Some (dir_entry (dev s) (BPB s) i), s') /\ quiet s s'.
Proof.
  intros Hm Hi. destruct (dir_sector_bound _ _ _ _ (mt_layout _ _ Hm) Hi) as (Hs & Hn & Hr & Ho).
  unfold read_root_entry, dir_entry. change entries_per_sector with 16. change entry_size with 32.
  rewrite u32_small by lia.
  destruct (bd_read_law (first_root_sector (BPB s) + i / 16) (dev s) (mt_disk _ _ Hm)) as (d' & -> & R & E & F); [lia |].
  eexists. split; [done |]. by repeat split.
Qed.

Lemma dir_entry_ok d b i : entry_ok (dir_entry d b i).
Proof.
  unfold dir_entry. destruct (bd_sector d (first_root_sector b + i / 16)) as [Hl Hb].
  apply bytes_entry_ok; [| by apply slice_byte_list].
  apply length_slice. rewrite Hl. mod_lia.
Qed.

Lemma dir_entry_same b d d' i :
  bd_data d' (first_root_sector b + i / 16) = bd_data d (first_root_sector b + i / 16) ->
  dir_entry d' b i = dir_entry d b i.
Proof. unfold dir_entry. by intros ->. Qed.

Lemma write_root_entry_spec s live i e :
  mounted s live -> in_dir (BPB s) i -> entry_ok e ->
  exists s', write_root_entry i e s = (true, s') /\ same_vars s s' /\
    dir_entry (dev s') (BPB s) i = e /\
    (forall j, in_dir (BPB s) j -> j <> i -> dir_entry (dev s') (BPB s) j = dir_entry (dev s) (BPB s) j) /\
    (forall x, ~ (first_root_sector (BPB s) <= x < first_data_sector (BPB s)) ->
       bd_data (dev s') x = bd_data (dev s) x).
Proof.
  intros Hm Hi He. destruct (dir_sector_bound _ _ _ _ (mt_layout _ _ Hm) Hi) as (Hs & Hn & Hr & Ho).
  unfold write_root_entry. change entries_per_sector with 16. change entry_size with 32.
  rewrite u32_small by lia.
  set (lba := first_root_sector (BPB s) + i / 16) in *.
  destruct (bd_read_law lba (dev s) (mt_disk _ _ Hm)) as (d1 & -> & R1 & E1 & F1); [lia |].
  destruct (bd_sector (dev s) lba) as [Hl Hb].
  pose proof (entry_bytes_length _ He) as Hlen.
  set (new := splice (Z.to_nat (i mod 16 * 32)) (entry_bytes e) (bd_data (dev s) lba)).
  assert (Hfit : (Z.to_nat (i mod 16 * 32) + length (entry_bytes e) <= length (bd_data (dev s) lba))%nat)
    by (rewrite Hlen, Hl; lia).
  assert (Hnew : sector new).
  { split; [by unfold new; rewrite length_splice |].
    apply splice_byte_list; [by apply entry_bytes_byte | done]. }
  cbn [set_dev set_buf SECTOR_BUF dev].
  destruct (bd_write_law lba new d1 R1) as (d2 & -> & R2 & E2 & F2); [lia | exact Hnew |].
  eexists. split; [done |]. cbn [dev set_dev set_buf].
  split; [by unfold same_vars; cbn; rewrite E2, E1; split_and! |]. split; [| split].
  - unfold dir_entry. fold lba. rewrite F2, Z.eqb_refl. unfold new. rewrite <- Hlen at 1.
    rewrite slice_splice_same by exact Hfit. by apply bytes_entry_bytes.
  - intros j Hj Hne. unfold dir_entry. rewrite F2.
    destruct (Z.eqb_spec (first_root_sector (BPB s) + j / 16) lba) as [Ej |]; [| by rewrite F1].
    rewrite Ej. unfold new.
    rewrite slice_splice_other; [done | exact Hfit |].
    rewrite Hlen. unfold lba in Ej. unfold in_dir in *. clear -Hj Hi Hne Ej. mod_lia.
  - intros x Hx. rewrite F2, F1. destruct (Z.eqb_spec x lba); [lia | done].
Qed.

(** ** Scans of the directory *)

(** The scan for [fat_name] over a directory [f] of [n] more entries. *)
Fixpoint find_pure (n : nat) (i : Z) (fat_name : list Z) (f : Z -> Fat16DirEntry) : option Z :=
  match n with
  | O => None
  | S n =>
      if first_byte (f i) =? 0x00 then None else
      if first_byte (f i) =? 0xE5 then find_pure n (i + 1) fat_name f else
      if skip_attr (f i) then find_pure n (i + 1) fat_name f else
      if decide (name (f i) = fat_name) then Some i else find_pure n (i + 1) fat_name f
  end.

Fixpoint slot_pure (n : nat) (i : Z) (f : Z -> Fat16DirEntry) : option Z :=
  match n with
  | O => None
  | S n =>
      if (first_byte (f i) =? 0x00) || (first_byte (f i) =? 0xE5) then Some i
      else slot_pure n (i + 1) f
  end.

Lemma find_pure_ext n : forall i nm f g,
  (forall j, i <= j < i + Z.of_nat n -> f j = g j) -> find_pure n i nm f = find_pure n i nm g.
Proof.
  induction n as [| n IH]; intros i nm f g Hfg; [done |]. cbn [find_pure].
  rewrite (Hfg i), (IH (i + 1) nm f g) by (intros; try apply Hfg; lia). done.
Qed.

Lemma slot_pure_ext n : forall i f g,
  (forall j, i <= j < i + Z.of_nat n -> f j = g j) -> slot_pure n i f = slot_pure n i g.
Proof.
  induction n as [| n IH]; intros i f g Hfg; [done |]. cbn [slot_pure].
  rewrite (Hfg i), (IH (i + 1) f g) by (intros; try apply Hfg; lia). done.
Qed.

Lemma find_pure_Some n : forall i nm f j,
  find_pure n i nm f = Some j ->
  i <= j < i + Z.of_nat n /\ name (f j) = nm /\ skip_attr (f j) = false /\
  first_byte (f j) <> 0x00 /\ first_byte (f j) <> 0xE5.
Proof.
  induction n as [| n IH]; intros i nm f j E; [done |]. cbn [find_pure] in E.
  assert (Hrec : find_pure n (i + 1) nm f = Some j -> i <= j < i + Z.of_nat (S n) /\ name (f j) = nm /\
    skip_attr (f j) = false /\ first_byte (f j) <> 0x00 /\ first_byte (f j) <> 0xE5).
  { intros Hr. destruct (IH _ _ _ _ Hr) as (? & ?). split; [lia | done]. }
  repeat case_if_in E; try case_decide; try done; auto. simplify_eq. breflect.
  split; [lia |]. done.
Qed.

Lemma slot_pure_Some n : forall i f j,
  slot_pure n i f = Some j ->
  i <= j < i + Z.of_nat n /\ (first_byte (f j) = 0x00 \/ first_byte (f j) = 0xE5).
Proof.
  induction n as [| n IH]; intros i f j E; [done |]. cbn [slot_pure] in E. case_if_in E.
  - simplify_eq. split; [lia |]. apply orb_prop in E0 as [?%Z.eqb_eq | ?%Z.eqb_eq]; auto.
  - destruct (IH _ _ _ E). split; [lia | done].
Qed.

(** Replacing the entry found by one of the same name. *)
Lemma find_pure_replace n : forall i nm f g j,
  find_pure n i nm f = Some j -> name (g j) = nm -> skip_attr (g j) = false ->
  (forall k, k <> j -> g k = f k) -> find_pure n i nm g = Some j.
Proof.
  induction n as [| n IH]; intros i nm f g j E Hn Hs Hg; [done |].
  destruct (find_pure_Some _ _ _ _ _ E) as (_ & Hnf & _ & H0f & H5f).
  assert (Hfb : first_byte (g j) = first_byte (f j)) by (unfold first_byte; by rewrite Hn, Hnf).
  cbn [find_pure] in *. destruct (decide (i = j)) as [-> | Hne].
  - rewrite Hfb, (proj2 (Z.eqb_neq _ _) H0f), (proj2 (Z.eqb_neq _ _) H5f), Hs. by rewrite decide_True.
  - rewrite Hg by done. repeat case_if; try case_decide; try done; simplify_eq; by apply (IH _ _ f).
Qed.

(** Filling the first free slot with a new name. *)
Lemma find_pure_fill n : forall i nm f g j,
  find_pure n i nm f = None -> slot_pure n i f = Some j ->
  name (g j) = nm -> skip_attr (g j) = false ->
  first_byte (g j) <> 0x00 -> first_byte (g j) <> 0xE5 ->
  (forall k, k <> j -> g k = f k) -> find_pure n i nm g = Some j.
Proof.
  induction n as [| n IH]; intros i nm f g j E Es Hn Hs H0g H5g Hg; [done |].
  cbn [find_pure slot_pure] in *. destruct (decide (i = j)) as [-> | Hne].
  - rewrite (proj2 (Z.eqb_neq _ _) H0g), (proj2 (Z.eqb_neq _ _) H5g), Hs. by rewrite decide_True.
  - rewrite Hg by done.
    destruct (first_byte (f i) =? 0x00); [simpl in Es; congruence |].
    destruct (first_byte (f i) =? 0xE5); [simpl in Es; congruence |]. simpl in Es.
    case_if; [by apply (IH _ _ f) |]. case_decide; [done |]. by apply (IH _ _ f).
Qed.

(** A change at [j] that leaves another name's entry findable. *)
Lemma find_pure_other n : forall i nm f g j k,
  find_pure n i nm f = Some k -> k <> j -> first_byte (g j) <> 0x00 -> name (g j) <> nm ->
  (forall k, k <> j -> g k = f k) -> find_pure n i nm g = Some k.
Proof.
  induction n as [| n IH]; intros i nm f g j k E Hk H0g Hn Hg; [done |].
  cbn [find_pure] in *. destruct (decide (i = j)) as [-> | Hne].
  - rewrite (proj2 (Z.eqb_neq _ _) H0g), decide_False by done.
    assert (find_pure n (j + 1) nm f = Some k).
    { repeat case_if_in E; try case_decide; try done. simplify_eq. }
    repeat case_if; by apply (IH _ _ f _ j).
  - rewrite Hg by done. repeat case_if; try case_decide; try done; by apply (IH _ _ f _ j).
Qed.

(** Reading an entry in a quiet state gives the same entry. *)
Lemma quiet_dir s s' i : quiet s s' -> dir_entry (dev s') (BPB s') i = dir_entry (dev s) (BPB s) i.
Proof. intros ((_ & E & F) & _ & -> & _). apply dir_entry_same. by rewrite F. Qed.

Lemma find_loop_spec n : forall i nm s live,
  mounted s live -> 0 <= i -> i + Z.of_nat n <= root_entry_count (BPB s) ->
  exists s', quiet s s' /\
    find_loop n i nm s =
      match find_pure n i nm (dir_entry (dev s) (BPB s)) with
      | Some j => (j, dir_entry (dev s) (BPB s) j, s')
      | None => (-1, zeroed_entry, s')
      end.
Proof.
  induction n as [| n IH]; intros i nm s live Hm Hi Hn; [by exists s |].
  cbn [find_loop find_pure].
  destruct (read_root_entry_spec s live i Hm) as (s1 & -> & Hq); [unfold in_dir; lia |].
  assert (Hrec : exists s', quiet s s' /\ find_loop n (i + 1) nm s1 =
      match find_pure n (i + 1) nm (dir_entry (dev s) (BPB s)) with
      | Some j => (j, dir_entry (dev s) (BPB s) j, s')
      | None => (-1, zeroed_entry, s')
      end).
  { destruct (IH (i + 1) nm s1 live) as (s' & Hq' & E); [by apply (quiet_mounted s) | lia | |].
    { assert (BPB s1 = BPB s) as -> by apply Hq. lia. }
    exists s'. split; [by transitivity s1 |]. rewrite E.
    rewrite (find_pure_ext n (i + 1) nm (dir_entry (dev s1) (BPB s1)) (dir_entry (dev s) (BPB s)))
      by (intros; by apply quiet_dir).
    destruct (find_pure n (i + 1) nm (dir_entry (dev s) (BPB s))) as [j |]; [by rewrite (quiet_dir _ _ j Hq) | done]. }
  repeat case_if; try case_decide; try exact Hrec; by exists s1.
Qed.

Lemma slot_loop_spec n : forall i s live,
  mounted s live -> 0 <= i -> i + Z.of_nat n <= root_entry_count (BPB s) ->
  exists s', quiet s s' /\
    free_slot_loop n i s = (default (-1) (slot_pure n i (dir_entry (dev s) (BPB s))), s').
Proof.
  induction n as [| n IH]; intros i s live Hm Hi Hn; [by exists s |].
  cbn [free_slot_loop slot_pure].
  destruct (read_root_entry_spec s live i Hm) as (s1 & -> & Hq); [unfold in_dir; lia |].
  case_if; [by exists s1 |].
  destruct (IH (i + 1) s1 live) as (s' & Hq' & E'); [by apply (quiet_mounted s) | lia | |].
  { assert (BPB s1 = BPB s) as -> by apply Hq. lia. }
  exists s'. split; [by transitivity s1 |]. rewrite E'.
  rewrite (slot_pure_ext n (i + 1) (dir_entry (dev s1) (BPB s1)) (dir_entry (dev s) (BPB s)))
    by (intros; by apply quiet_dir). done.
Qed.

(** The index of the entry called [fat_name], and of the first unused entry. *)
Definition find_name s (fat_name : list Z) : option Z :=
  find_pure (Z.to_nat (root_entry_count (BPB s))) 0 fat_name (dir_entry (dev s) (BPB s)).
Definition free_slot s : option Z :=
  slot_pure (Z.to_nat (root_entry_count (BPB s))) 0 (dir_entry (dev s) (BPB s)).

Lemma find_root_entry_spec s live nm :
  mounted s live ->
  exists s', quiet s s' /\
    find_root_entry nm s =
      match find_name s nm with
      | Some j => (j, dir_entry (dev s) (BPB s) j, s')
      | None => (-1, zeroed_entry, s')
      end.
Proof.
  intros Hm. pose proof (ly_root_count _ _ _ (mt_layout _ _ Hm)).
  by apply (find_loop_spec _ 0 nm s live Hm ltac:(lia)); lia.
Qed.

Lemma find_free_root_entry_spec s live :
  mounted s live ->
  exists s', quiet s s' /\ find_free_root_entry s = (default (-1) (free_slot s), s').
Proof.
  intros Hm. pose proof (ly_root_count _ _ _ (mt_layout _ _ Hm)).
  by apply (slot_loop_spec _ 0 s live Hm ltac:(lia)); lia.
Qed.

Lemma find_name_in_dir s live nm j : mounted s live -> find_name s nm = Some j -> in_dir (BPB s) j.
Proof.
  intros Hm E. apply find_pure_Some in E as (E & _). unfold in_dir.
  pose proof (ly_root_count _ _ _ (mt_layout _ _ Hm)). lia.
Qed.

Lemma free_slot_in_dir s live j : mounted s live -> free_slot s = Some j -> in_dir (BPB s) j.
Proof.
  intros Hm E. apply slot_pure_Some in E as (E & _). unfold in_dir.
  pose proof (ly_root_count _ _ _ (mt_layout _ _ Hm)). lia.
Qed.

(** ** The table on the medium *)

Lemma fat_raw_length t : length (fat_raw t) = (length t * 2)%nat.
Proof. induction t as [| w t IH]; [done |]. cbn [fat_raw map concat]. rewrite length_app, length_le_bytes. fold (fat_raw t). rewrite IH. simpl. lia. Qed.

Lemma fat_raw_byte t : byte_list (fat_raw t).
Proof.
  induction t as [| w t IH]; [constructor |]. cbn [fat_raw map concat].
  apply Forall_app_2; [apply le_bytes_byte_list | exact IH].
Qed.

Lemma sectors_bytes n : forall lba d, byte_list (sectors n lba d).
Proof.
  induction n as [| n IH]; intros; [constructor |]. rewrite sectors_S. apply Forall_app_2; [apply bd_sector | apply IH].
Qed.

(** The words of a raw table are its entries, and are written back as they were. *)
Lemma words_raw n : forall raw, length raw = (2 * n)%nat -> byte_list raw ->
  fat_raw (words raw) = raw /\ length (words raw) = n /\ Forall (fun w => 0 <= w < 65536) (words raw).
Proof.
  induction n as [| n IH]; intros raw Hl Hb; [destruct raw; [by repeat constructor | done] |].
  destruct raw as [| a [| b raw]]; simpl in Hl; try lia. cbn [words].
  apply Forall_cons in Hb as [Ha Hb]. apply Forall_cons in Hb as [Hb Hr]. unfold is_byte in *.
  destruct (IH raw) as (E & El & Hw); [lia | done |].
  assert (Hv : le_val [a; b] = a + 256 * b) by (cbn [le_val]; lia). rewrite Hv. split; [| split].
  - change (fat_raw (a + 256 * b :: words raw)) with
      ((a + 256 * b) mod 256 :: ((a + 256 * b) / 256) mod 256 :: fat_raw (words raw)).
    rewrite E. f_equal; [mod_lia |]. f_equal. mod_lia.
  - simpl. by rewrite El.
  - constructor; [lia | done].
Qed.

(** Reading the table back gives the table. *)
Lemma words_fat_raw t : Forall (fun w => 0 <= w < 65536) t -> words (fat_raw t) = t.
Proof.
  induction 1 as [| w t Hw Ht IH]; [done |]. change (fat_raw (w :: t)) with (w mod 256 :: (w / 256) mod 256 :: fat_raw t).
  cbn [words]. rewrite IH. f_equal. exact (le_val_2 w Hw).
Qed.

Lemma flush_loop_spec b entries raw : forall n f d,
  bd_ready d -> layout b entries (bd_size d) -> 0 <= f -> f + Z.of_nat n <= num_fats b ->
  length raw = (Z.to_nat (fat_size_16 b) * 512)%nat -> byte_list raw ->
  exists d', flush_loop n f b raw d = (true, d') /\ bd_ready d' /\ bd_size d' = bd_size d /\
    (forall x, ~ (first_fat_sector b + f * fat_size_16 b <= x <
                  first_fat_sector b + (f + Z.of_nat n) * fat_size_16 b) ->
       bd_data d' x = bd_data d x) /\
    forall g, f <= g < f + Z.of_nat n ->
      sectors (Z.to_nat (fat_size_16 b)) (first_fat_sector b + g * fat_size_16 b) d' = raw.
Proof.
  induction n as [| n IH]; intros f d Hrd Hly Hf Hn Hl Hb.
  - exists d. split; [done |]. split; [done |]. split; [done |]. split; [done |]. intros; lia.
  - destruct (Hly) as [He Hfs Hsp _ Hnf Hrc Hff Hr Hda Hsz Hdv].
    assert (Hdiv : 0 <= (root_entry_count b * 32 + 511) / 512) by (apply Z.div_pos; lia).
    assert (Hle : (f + 1) * fat_size_16 b <= num_fats b * fat_size_16 b) by nia.
    assert (0 <= f * fat_size_16 b) by nia.
    cbn [flush_loop]. rewrite (u32_small (f * _)), u32_small by lia.
    set (base := first_fat_sector b + f * fat_size_16 b) in *.
    destruct (write_loop_wrote (Z.to_nat (fat_size_16 b)) base raw d Hrd) as (d1 & -> & Hw); [lia.. | done |].
    assert (E1 : bd_size d1 = bd_size d) by apply Hw.
    destruct (IH (f + 1) d1) as (d' & -> & R' & E' & Hout & Hin); [apply Hw | by rewrite E1 | lia.. | done | done |].
    exists d'. split; [done |]. split; [done |]. split; [lia |]. split.
    + intros x Hx. rewrite Hout by nia. apply (wrote_outside _ _ _ _ _ _ Hw). nia.
    + intros g Hg. destruct (decide (g = f)) as [-> | Hne]; [| apply Hin; lia].
      rewrite <- (wrote_sectors _ _ _ _ _ Hw Hl). fold base. apply sectors_same. intros i Hi.
      apply Hout. nia.
Qed.

(** Every copy of the table on the medium is the cached one. *)
Definition synced s : Prop :=
  forall g, 0 <= g < num_fats (BPB s) ->
    sectors (Z.to_nat (fat_size_16 (BPB s))) (first_fat_sector (BPB s) + g * fat_size_16 (BPB s)) (dev s) =
    fat_raw (FAT_TABLE s).

Lemma fat_flush_spec s live :
  mounted s live ->
  exists d', fat_flush s = (true, set_dev d' s) /\ bd_ready d' /\ bd_size d' = bd_size (dev s) /\
    (forall x, first_root_sector (BPB s) <= x -> bd_data d' x = bd_data (dev s) x) /\
    synced (set_dev d' s).
Proof.
  intros Hm. pose proof (mt_layout _ _ Hm) as Hly. unfold fat_flush.
  pose proof (mt_len _ _ Hm) as Hlen.
  destruct (Hly) as [He Hfs Hsp _ Hnf Hrc Hff Hr Hda Hsz Hdv].
  destruct (flush_loop_spec (BPB s) (FAT_ENTRIES s) (fat_raw (FAT_TABLE s))
              (Z.to_nat (num_fats (BPB s))) 0 (dev s) (mt_disk _ _ Hm) Hly) as (d' & -> & R & E & Hout & Hin).
  { lia. } { lia. } { rewrite fat_raw_length. lia. } { apply fat_raw_byte. }
  exists d'. split; [done |]. split; [done |]. split; [done |]. split.
  - intros x Hx. apply Hout. rewrite Hr in Hx. lia.
  - intros g Hg. apply Hin. cbn in Hg. lia.
Qed.
End disk.
