(* ===== verification/Fat16Chain.v ===== *)
(** Cluster chains of the FAT16 driver ([Fat16]): following, releasing and
    extending a chain of the cached table, and the data of a chain. *)
From S2P Require Import Prelude StringRs Heap Block Fat16 Fat16Disk.

(** ** Chains

    [chain t c cs]: the clusters visited from [c] are [cs]; each is allocated
    (its table entry is not 0) and lies inside the table, and the last one's
    entry is no cluster number. *)
Inductive chain (t : list Z) : Z -> list Z -> Prop :=
| chain_end c : ~ (2 <= c < 0xFFF8) -> chain t c []
| chain_link c n cs :
    2 <= c < 0xFFF8 -> t !! Z.to_nat c = Some n -> n <> 0 -> chain t n cs -> chain t c (c :: cs).

Lemma chain_det t c cs1 : chain t c cs1 -> forall cs2, chain t c cs2 -> cs1 = cs2.
Proof.
  induction 1 as [c He | c n cs Hc Hn Hz Hch IH]; intros cs2 H2; inversion H2; subst; try lia; [done |].
  f_equal. apply IH. congruence.
Qed.

Lemma chain_suffix t c cs : chain t c cs -> forall c', c' ∈ cs ->
  exists cs', chain t c' (c' :: cs') /\ (length cs' < length cs)%nat.
Proof.
  induction 1 as [c He | c n cs Hc Hn Hz Hch IH]; intros c' Hin; [set_solver |].
  apply elem_of_cons in Hin as [-> | Hin].
  - exists cs. split; [by apply (chain_link t c n) | simpl; lia].
  - destruct (IH _ Hin) as (cs' & ? & ?). exists cs'. split; [done | simpl; lia].
Qed.

(** A chain that ends has no cluster twice. *)
Lemma chain_NoDup t c cs : chain t c cs -> NoDup cs.
Proof.
  induction 1 as [c He | c n cs Hc Hn Hz Hch IH]; constructor; [| done].
  intros Hin. destruct (chain_suffix _ _ _ Hch _ Hin) as (cs' & Hc' & Hlt).
  pose proof (chain_det _ _ _ (chain_link t c n cs Hc Hn Hz Hch) _ Hc') as E.
  injection E as ->. lia.
Qed.

Lemma chain_allocated t c cs : chain t c cs -> forall x, x ∈ cs ->
  2 <= x < 0xFFF8 /\ exists n, t !! Z.to_nat x = Some n /\ n <> 0.
Proof. induction 1 as [| c n cs Hc Hn Hz Hch IH]; intros x Hx; [set_solver |]. set_solver. Qed.

Lemma chain_ext t t' c cs :
  chain t c cs -> (forall x, x ∈ cs -> t' !! Z.to_nat x = t !! Z.to_nat x) -> chain t' c cs.
Proof.
  induction 1 as [c He | c n cs Hc Hn Hz Hch IH]; intros Ht; [by constructor |].
  apply (chain_link t' c n); [done | rewrite Ht; set_solver | done | apply IH; set_solver].
Qed.

(** Linking a fresh cluster behind the last one. *)
Lemma fat_chain_snoc t t' f cs p c :
  chain t f (cs ++ [p]) -> 2 <= c < 0xFFF8 ->
  t' !! Z.to_nat p = Some c -> t' !! Z.to_nat c = Some 0xFFFF ->
  (forall x, x ∈ cs -> t' !! Z.to_nat x = t !! Z.to_nat x) ->
  chain t' f (cs ++ [p; c]).
Proof.
  revert f. induction cs as [| x cs IH]; intros f Hch Hc Hp Hcc Ht; inversion Hch; subst; simpl.
  - apply (chain_link t' p c); [done.. | lia |].
    apply (chain_link t' c 0xFFFF); [done.. |]. apply chain_end; lia.
  - eapply (chain_link t' x); [done | rewrite Ht; [done | set_solver] | done |].
    apply IH; try done. intros y Hy. apply Ht; set_solver.
Qed.

(** ** Free entries *)

Definition free_count (t : list Z) : nat := length (filter (fun w => w = 0) (drop 2 t)).

Lemma filter_insert_zero (l : list Z) k v :
  l !! k = Some 0 -> v <> 0 ->
  length (filter (fun w => w = 0) l) = S (length (filter (fun w => w = 0) (<[k := v]> l))).
Proof.
  revert k; induction l as [| w l IH]; intros [| k] Hk Hv; try done.
  - injection Hk as ->. change (<[0%nat := v]> (0 :: l)) with (v :: l).
    by rewrite filter_cons_True, filter_cons_False.
  - change (<[S k := v]> (w :: l)) with (w :: <[k := v]> l).
    rewrite !filter_cons. case_decide; simpl; by rewrite (IH k).
Qed.

Lemma filter_insert_nonzero (l : list Z) k u v :
  l !! k = Some u -> u <> 0 -> v <> 0 ->
  filter (fun w => w = 0) (<[k := v]> l) = filter (fun w => w = 0) l.
Proof.
  revert k; induction l as [| w l IH]; intros [| k] Hk Hu Hv; try done.
  - injection Hk as ->. change (<[0%nat := v]> (u :: l)) with (v :: l).
    by rewrite !filter_cons_False.
  - change (<[S k := v]> (w :: l)) with (w :: <[k := v]> l). rewrite !filter_cons. by rewrite (IH k).
Qed.

Lemma free_count_alloc t (c : Z) v :
  2 <= c -> t !! Z.to_nat c = Some 0 -> v <> 0 ->
  free_count t = S (free_count (<[Z.to_nat c := v]> t)).
Proof.
  intros Hc Ht Hv. unfold free_count.
  rewrite drop_insert_ge by lia.
  apply filter_insert_zero; [| done]. rewrite lookup_drop. rewrite <- Ht. f_equal. lia.
Qed.

Lemma free_count_link t (p : Z) u v :
  2 <= p -> t !! Z.to_nat p = Some u -> u <> 0 -> v <> 0 ->
  free_count (<[Z.to_nat p := v]> t) = free_count t.
Proof.
  intros Hp Ht Hu Hv. unfold free_count. rewrite drop_insert_ge by lia.
  rewrite (filter_insert_nonzero _ _ u); [done | | done..].
  rewrite lookup_drop. rewrite <- Ht. f_equal. lia.
Qed.

Lemma free_count_release t (c : Z) v :
  2 <= c -> t !! Z.to_nat c = Some v -> v <> 0 ->
  free_count (<[Z.to_nat c := 0]> t) = S (free_count t).
Proof.
  intros Hc Ht Hv. pose proof (lookup_lt_Some _ _ _ Ht).
  rewrite (free_count_alloc _ c v) by (rewrite ?list_lookup_insert_eq; done).
  by rewrite list_insert_insert_eq, list_insert_id.
Qed.

(** The free entries of the clusters below [m], the end of the medium. *)
Definition room (m : Z) (t : list Z) : nat := free_count (take (Z.to_nat m) t).

Lemma cut_lookup (t : list Z) m c : c < m -> 0 <= c -> take (Z.to_nat m) t !! Z.to_nat c = t !! Z.to_nat c.
Proof. intros. apply lookup_take_lt. lia. Qed.

Lemma cut_insert (t : list Z) m c v :
  c < m -> 0 <= c -> take (Z.to_nat m) (<[Z.to_nat c := v]> t) = <[Z.to_nat c := v]> (take (Z.to_nat m) t).
Proof. intros. apply take_insert_lt. lia. Qed.

Lemma cut_insert_above (t : list Z) m c v :
  m <= c -> take (Z.to_nat m) (<[Z.to_nat c := v]> t) = take (Z.to_nat m) t.
Proof. intros. apply take_insert_ge. lia. Qed.

Lemma room_alloc m t (c : Z) v :
  2 <= c < m -> t !! Z.to_nat c = Some 0 -> v <> 0 ->
  room m t = S (room m (<[Z.to_nat c := v]> t)).
Proof.
  intros Hc Ht Hv. unfold room. rewrite cut_insert by lia.
  apply free_count_alloc; [lia | by rewrite cut_lookup by lia | done].
Qed.

Lemma room_link m t (p : Z) u v :
  2 <= p -> t !! Z.to_nat p = Some u -> u <> 0 -> v <> 0 -> room m (<[Z.to_nat p := v]> t) = room m t.
Proof.
  intros Hp Ht Hu Hv. unfold room. destruct (Z.lt_ge_cases p m).
  - rewrite cut_insert by lia. apply (free_count_link _ _ u); [lia | by rewrite cut_lookup by lia | done..].
  - by rewrite cut_insert_above.
Qed.

Lemma room_release m t (c : Z) v :
  2 <= c -> t !! Z.to_nat c = Some v -> v <> 0 ->
  room m (<[Z.to_nat c := 0]> t) = ((if decide (c < m)%Z then 1 else 0) + room m t)%nat.
Proof.
  intros Hc Ht Hv. unfold room. case_decide.
  - rewrite cut_insert by lia. apply (free_count_release _ _ v); [lia | by rewrite cut_lookup by lia | done].
  - rewrite cut_insert_above by lia. done.
Qed.

(** ** Allocation *)

Lemma alloc_loop_spec n : forall i t,
  0 <= i -> i + Z.of_nat n <= Z.of_nat (length t) ->
  exists c t', alloc_loop n i t = Some (c, t') /\
    ((c = 0 /\ t' = t /\ forall j, i <= j < i + Z.of_nat n -> t !! Z.to_nat j <> Some 0) \/
     (i <= c < i + Z.of_nat n /\ t !! Z.to_nat c = Some 0 /\ t' = <[Z.to_nat c := 0xFFFF]> t /\
      forall j, i <= j < c -> t !! Z.to_nat j <> Some 0)).
Proof.
  induction n as [| n IH]; intros i t Hi Hn.
  - exists 0, t. split; [done |]. left. repeat split; intros; lia.
  - cbn [alloc_loop]. destruct (zget_Some t i ltac:(lia)) as [e He]. rewrite He. cbn.
    assert (Ht : t !! Z.to_nat i = Some e).
    { revert He. unfold zget. by rewrite (proj2 (Z.ltb_ge i 0)) by lia. }
    destruct (Z.eqb_spec e 0) as [-> | Hne].
    + rewrite zset_Some by lia. cbn. eexists _, _. split; [done |]. right. split; [lia |]. split; [done |]. split; [done |]. intros; lia.
    + destruct (IH (i + 1) t ltac:(lia) ltac:(lia)) as (c & t' & E & Hcase).
      exists c, t'. split; [done |]. destruct Hcase as [(-> & -> & Hno) | (Hc & Hz & -> & Hno)].
      * left. repeat split. intros j Hj. destruct (decide (j = i)) as [-> | Hji]; [congruence |].
        apply Hno; lia.
      * right. split; [lia |]. split; [done |]. split; [done |]. intros j Hj.
        destruct (decide (j = i)) as [-> | Hji]; [congruence |]. apply Hno; lia.
Qed.


Lemma filter_none (l : list Z) : Forall (fun w => w <> 0) l -> filter (fun w => w = 0) l = [].
Proof. induction 1; [done |]. by rewrite filter_cons_False. Qed.

Lemma free_count_0 t :
  (forall j, 2 <= j < Z.of_nat (length t) -> t !! Z.to_nat j <> Some 0) -> free_count t = 0%nat.
Proof.
  intros Hno. unfold free_count. rewrite filter_none; [done |].
  apply Forall_lookup. intros i w. rewrite lookup_drop. intros Hi ->.
  apply (Hno (Z.of_nat (2 + i))); [apply lookup_lt_Some in Hi; lia | by rewrite Nat2Z.id].
Qed.

Lemma room_0 m t : (forall j, 2 <= j < m -> t !! Z.to_nat j <> Some 0) -> room m t = 0%nat.
Proof.
  intros Hno. apply free_count_0. intros j Hj. rewrite length_take in Hj.
  rewrite cut_lookup by lia. apply Hno. lia.
Qed.

Section files.
Context {D Hp : Type} `{BlockDevice D} `{KernelHeap Hp}.
Implicit Types (d : D) (s : fat D Hp) (b : Bpb).

Lemma set_fat_mounted s live t :
  mounted s live -> length t = length (FAT_TABLE s) -> Forall (fun w => 0 <= w < 65536) t ->
  mounted (set_fat t s) live.
Proof. intros [] Hl Hw. by split; cbn; rewrite ?Hl. Qed.

Lemma fat_next_spec s live c n :
  mounted s live -> 2 <= c -> FAT_TABLE s !! Z.to_nat c = Some n -> fat_next c s = Some n.
Proof.
  intros Hm Hc Ht. pose proof (mt_len _ _ Hm). unfold fat_next, zget.
  pose proof (lookup_lt_Some _ _ _ Ht).
  rewrite Z.geb_leb, (proj2 (Z.leb_gt _ _)), (proj2 (Z.ltb_ge _ _)) by lia. done.
Qed.

(** The cluster number behind the medium. *)
Definition limit s : Z := vol_end (BPB s) (bd_size (dev s)).

(** [fat_alloc] takes the first free entry of the table, whether or not its cluster
    is on the medium. *)
Lemma fat_alloc_spec s live :
  mounted s live ->
  exists c t', fat_alloc s = Some (c, set_fat t' s) /\
    ((c = 0 /\ t' = FAT_TABLE s /\ room (limit s) t' = 0%nat) \/
     (2 <= c < FAT_ENTRIES s /\ FAT_TABLE s !! Z.to_nat c = Some 0 /\
      t' = <[Z.to_nat c := 0xFFFF]> (FAT_TABLE s) /\ mounted (set_fat t' s) live /\
      (~ c < limit s -> room (limit s) (FAT_TABLE s) = 0%nat))).
Proof.
  intros Hm. pose proof (mt_len _ _ Hm). destruct (mt_layout _ _ Hm). unfold fat_alloc.
  rewrite (u16_small (FAT_ENTRIES s)) by lia.
  destruct (alloc_loop_spec (Z.to_nat (FAT_ENTRIES s - 2)) 2 (FAT_TABLE s)) as (c & t' & -> & Hcase); [lia.. |].
  exists c, t'. split; [done |]. destruct Hcase as [(-> & -> & Hno) | (Hc & Hz & -> & Hno)].
  - left. split; [done |]. split; [done |]. apply room_0. intros j Hj Hz.
    pose proof (lookup_lt_Some _ _ _ Hz). apply (Hno j); [lia | done].
  - right. split; [lia |]. split; [done |]. split; [done |]. split.
    + apply set_fat_mounted; [done | by rewrite length_insert |]. apply Forall_insert; [apply Hm | lia].
    + intros Hoff. apply room_0. intros j Hj. apply Hno. lia.
Qed.

(** ** Following a chain *)

(** The bytes of the clusters [cs]. *)
Definition chain_data s (cs : list Z) : list Z := concat (map (cluster_data (dev s) (BPB s)) cs).

Lemma length_chain_data s cs : length (chain_data s cs) = (length cs * csize (BPB s))%nat.
Proof.
  unfold chain_data. induction cs as [| c cs IH]; [done |]. cbn [map concat].
  rewrite length_app, IH, length_cluster_data. simpl. lia.
Qed.

Lemma quiet_chain_data s s' cs : quiet s s' -> chain_data s' cs = chain_data s cs.
Proof.
  intros ((_ & E & F) & _ & Eb & _). unfold chain_data. rewrite Eb. f_equal. apply map_ext. intros c.
  apply sectors_same. intros. by rewrite F.
Qed.

Lemma csize_spec s live : mounted s live ->
  Z.of_nat (csize (BPB s)) = cluster_size (BPB s) /\ 512 <= cluster_size (BPB s) <= 65536.
Proof. intros Hm. destruct (mt_layout _ _ Hm). unfold csize, spc. lia. Qed.

Lemma chain_in_fat s live c cs x :
  mounted s live -> chain (FAT_TABLE s) c cs -> x ∈ cs -> 2 <= x < FAT_ENTRIES s.
Proof.
  intros Hm Hch Hx. destruct (chain_allocated _ _ _ Hch _ Hx) as (Hr & n & Hn & _).
  apply lookup_lt_Some in Hn. pose proof (mt_len _ _ Hm). lia.
Qed.

(** The clusters [cs] lie on the medium. *)
Definition present s (cs : list Z) : Prop := forall c, c ∈ cs -> on_disk (BPB s) (bd_size (dev s)) c.

Lemma present_same s s' cs : BPB s' = BPB s -> bd_size (dev s') = bd_size (dev s) -> present s cs -> present s' cs.
Proof. unfold present. by intros -> ->. Qed.

Lemma read_file_loop_spec cs : forall fuel c remaining out s live,
  mounted s live -> chain (FAT_TABLE s) c cs -> present s cs ->
  0 <= remaining <= Z.of_nat (length cs * csize (BPB s)) -> (length cs < fuel)%nat ->
  exists s', quiet s s' /\
    read_file_loop fuel c remaining out s =
      Some (Some (out ++ take (Z.to_nat remaining) (chain_data s cs)), s').
Proof.
  induction cs as [| x cs IH]; intros fuel c remaining out s live Hm Hch Hpr Hr Hf;
    (destruct fuel as [| fuel]; [simpl in Hf; lia |]); cbn [read_file_loop].
  - simpl in Hr.
    replace (remaining >? 0) with false by (symmetry; rewrite Z.gtb_ltb; apply Z.ltb_ge; lia).
    exists s. split; [done |]. cbn [andb]. replace (Z.to_nat remaining) with 0%nat by lia.
    by rewrite take_0, app_nil_r.
  - destruct (csize_spec _ _ Hm) as [Hcs Hcb].
    inversion Hch as [| ? n ? Hc Hn Hz Hch']; subst.
    pose proof (chain_in_fat _ _ _ _ x Hm Hch ltac:(set_solver)) as Hin.
    destruct (Z.gtb_spec remaining 0) as [Hpos | Hzero]; cycle 1.
    { exists s. split; [done |]. cbn [andb]. replace (Z.to_nat remaining) with 0%nat by lia.
      by rewrite take_0, app_nil_r. }
    rewrite Z.geb_leb, (proj2 (Z.leb_le 2 x)), (proj2 (Z.ltb_lt x _)) by lia. cbn [andb].
    destruct (read_cluster_spec s live x Hm) as (s1 & -> & Hq); [lia | apply Hpr; set_solver |].
    assert (Hm1 : mounted s1 live) by by apply (quiet_mounted s).
    assert (Et : FAT_TABLE s1 = FAT_TABLE s) by apply Hq.
    assert (Eb : BPB s1 = BPB s) by apply Hq.
    rewrite (fat_next_spec s1 live x n); [| done | lia | by rewrite Et]. cbn.
    set (cp := if cluster_size (BPB s1) >? remaining then remaining else cluster_size (BPB s1)).
    assert (Hcp : cp = Z.min remaining (cluster_size (BPB s))).
    { unfold cp. rewrite Eb. destruct (Z.gtb_spec (cluster_size (BPB s)) remaining); lia. }
    destruct (IH fuel n (remaining - cp) (out ++ slice 0 (Z.to_nat cp) (cluster_data (dev s) (BPB s) x))
                s1 live) as (s' & Hq' & E).
    { done. } { by rewrite Et. }
    { apply (present_same s); [done | apply Hq | intros y Hy; apply Hpr; set_solver]. }
    { rewrite Eb. simpl in Hr. lia. } { simpl in Hf. lia. }
    exists s'. split; [by transitivity s1 |]. rewrite E. do 3 f_equal.
    rewrite <- app_assoc, (quiet_chain_data _ _ _ Hq). f_equal.
    change (chain_data s (x :: cs)) with (cluster_data (dev s) (BPB s) x ++ chain_data s cs).
    rewrite take_app, length_cluster_data. unfold slice. rewrite drop_0. f_equal.
    + destruct (Z.le_gt_cases remaining (cluster_size (BPB s))); [f_equal; lia |].
      rewrite !take_ge; [done | |]; rewrite length_cluster_data; lia.
    + f_equal. lia.
Qed.

(** ** Releasing a chain *)

Lemma set_fat_set_fat t t' s : set_fat t (set_fat t' s) = set_fat t s.
Proof. done. Qed.
Lemma set_fat_same s : set_fat (FAT_TABLE s) s = s.
Proof. by destruct s. Qed.

(** How many of the clusters [cs] lie on the medium. *)
Definition on_count s (cs : list Z) : nat := length (filter (on_disk (BPB s) (bd_size (dev s))) cs).

Lemma on_count_cons s c cs :
  on_count s (c :: cs) = ((if decide (on_disk (BPB s) (bd_size (dev s)) c) then 1 else 0) + on_count s cs)%nat.
Proof. unfold on_count. rewrite filter_cons. by case_decide. Qed.

Lemma free_chain_spec cs : forall fuel c s live,
  mounted s live -> chain (FAT_TABLE s) c cs -> (length cs < fuel)%nat ->
  exists t', free_chain fuel c s = Some (set_fat t' s) /\ mounted (set_fat t' s) live /\
    (forall x, x ∈ cs -> t' !! Z.to_nat x = Some 0) /\
    (forall y, 0 <= y -> y ∉ cs -> t' !! Z.to_nat y = FAT_TABLE s !! Z.to_nat y) /\
    room (limit s) t' = (on_count s cs + room (limit s) (FAT_TABLE s))%nat.
Proof.
  induction cs as [| x cs IH]; intros fuel c s live Hm Hch Hf;
    (destruct fuel as [| fuel]; [simpl in Hf; lia |]); cbn [free_chain].
  - inversion Hch as [? He |]; subst. exists (FAT_TABLE s). rewrite set_fat_same. split.
    + destruct (Z.geb_spec c 2), (Z.ltb_spec c 0xFFF8); simpl; done || lia.
    + split; [done |]. split; [set_solver | done].
  - inversion Hch as [| ? n ? Hc Hn Hz Hch']; subst.
    rewrite Z.geb_leb, (proj2 (Z.leb_le 2 x)), (proj2 (Z.ltb_lt x _)) by lia. cbn [andb].
    rewrite (fat_next_spec s live x n Hm ltac:(lia) Hn). cbn [mbind option_bind].
    pose proof (lookup_lt_Some _ _ _ Hn) as Hlt. rewrite zset_Some by lia. cbn [mbind option_bind].
    set (t1 := <[Z.to_nat x := 0]> (FAT_TABLE s)).
    assert (Hm1 : mounted (set_fat t1 s) live).
    { apply set_fat_mounted; [done | apply length_insert |]. apply Forall_insert; [apply Hm | lia]. }
    pose proof (chain_NoDup _ _ _ Hch) as [Hx Hnd]%NoDup_cons.
    assert (Ht1 : forall y, 0 <= y -> y <> x -> t1 !! Z.to_nat y = FAT_TABLE s !! Z.to_nat y).
    { intros y Hy Hne. apply list_lookup_insert_ne. lia. }
    destruct (IH fuel n (set_fat t1 s) live Hm1) as (t' & -> & Hm' & Hin & Hout & Hfc).
    { apply (chain_ext (FAT_TABLE s)); [done |]. intros y Hy.
      destruct (chain_allocated _ _ _ Hch' _ Hy). apply Ht1; [lia | congruence]. }
    { simpl in Hf. lia. }
    exists t'. rewrite set_fat_set_fat in *. split; [done |]. split; [done |]. split; [| split].
    + intros y [-> | Hy]%elem_of_cons; [| by apply Hin].
      rewrite Hout by (lia || done). apply list_lookup_insert_eq. done.
    + intros y Hy Hny. apply not_elem_of_cons in Hny as [Hne Hny].
      rewrite Hout by done. by apply Ht1.
    + assert (E : room (limit s) t' = (on_count s cs + room (limit s) t1)%nat)
        by exact Hfc.
      rewrite E. unfold t1. rewrite (room_release _ _ x n), on_count_cons by (lia || done).
      unfold on_disk. change (vol_end (BPB s) (bd_size (dev s))) with (limit s).
      repeat case_decide; lia.
Qed.

(** ** Writing a chain *)

(** What a write of fresh clusters [new] leaves alone: the variables but the
    cached table, every other cluster on the medium and every sector before the
    clusters. *)
Record extends s s' (new : list Z) : Prop := {
  ex_vars : hp s' = hp s /\ BPB s' = BPB s /\ FAT_ENTRIES s' = FAT_ENTRIES s /\
    console s' = console s /\ bd_size (dev s') = bd_size (dev s);
  ex_data : forall c, on_disk (BPB s) (bd_size (dev s)) c -> c ∉ new ->
    cluster_data (dev s') (BPB s) c = cluster_data (dev s) (BPB s) c;
  ex_low : forall x, x < first_data_sector (BPB s) -> bd_data (dev s') x = bd_data (dev s) x;
  ex_new : forall c, c ∈ new -> 2 <= c < FAT_ENTRIES s /\ FAT_TABLE s !! Z.to_nat c = Some 0 }.

Lemma extends_refl s : extends s s [].
Proof. split; auto; set_solver. Qed.

Lemma extends_mounted_eq s s' new : extends s s' new ->
  BPB s' = BPB s /\ FAT_ENTRIES s' = FAT_ENTRIES s /\ bd_size (dev s') = bd_size (dev s).
Proof. intros []. tauto. Qed.

Lemma extends_limit s s' new : extends s s' new -> limit s' = limit s.
Proof. intros (Eb & _ & Ez)%extends_mounted_eq. unfold limit. by rewrite Eb, Ez. Qed.

(** The clusters [cs] written so far, linked from [first] to [prev]. *)
Definition linked (t : list Z) (first prev : Z) (cs : list Z) : Prop :=
  chain t first cs /\
  match last cs with None => first = 0 /\ prev = 0 | Some p => first <> 0 /\ prev = p end.

(** The table after [fat_alloc] took [c] and [write_file] linked it behind
    [prev]. *)
Definition link_table (t : list Z) (prev c : Z) : list Z :=
  let t := <[Z.to_nat c := 0xFFFF]> t in
  if negb (prev =? 0) then <[Z.to_nat prev := c]> t else t.

Lemma linked_snoc t first prev cs c :
  linked t first prev cs -> 2 <= c < 0xFFF8 -> t !! Z.to_nat c = Some 0 ->
  linked (link_table t prev c) (if first =? 0 then c else first) c (cs ++ [c]) /\ c ∉ cs.
Proof.
  intros [Hch Hl] Hc Hz.
  assert (Hnc : c ∉ cs).
  { intros Hin. destruct (chain_allocated _ _ _ Hch _ Hin) as (_ & n & ? & ?). congruence. }
  split; [| done]. pose proof (lookup_lt_Some _ _ _ Hz) as Hlt.
  split; [| rewrite last_snoc; split; [destruct (Z.eqb_spec first 0); lia | done]].
  destruct (last cs) as [p |] eqn:El.
  - apply last_Some in El as [cs0 ->]. destruct Hl as [Hf0 ->].
    rewrite (proj2 (Z.eqb_neq first 0) Hf0).
    destruct (chain_allocated _ _ _ Hch p ltac:(set_solver)) as (Hpr & n & Hpn & _).
    apply lookup_lt_Some in Hpn.
    pose proof (chain_NoDup _ _ _ Hch) as (Hnd & Hdis & _)%NoDup_app.
    assert (Hpc : p <> c) by set_solver.
    unfold link_table. rewrite (proj2 (Z.eqb_neq p 0)) by lia. cbn [negb].
    rewrite <- app_assoc. apply (fat_chain_snoc t); [done | done | | |].
    + apply list_lookup_insert_eq. by rewrite length_insert.
    + rewrite list_lookup_insert_ne by lia. by apply list_lookup_insert_eq.
    + intros x Hx. destruct (chain_allocated _ _ _ Hch x ltac:(set_solver)) as (Hxr & _).
      assert (x <> p) by (intros ->; by apply (Hdis p); set_solver).
      assert (x <> c) by set_solver.
      rewrite !list_lookup_insert_ne by lia. done.
  - apply last_None in El as ->. destruct Hl as [-> ->]. simpl.
    apply (chain_link _ c 0xFFFF); [done | by apply list_lookup_insert_eq | done |].
    apply chain_end; lia.
Qed.

Lemma link_table_length t prev c : length (link_table t prev c) = length t.
Proof. unfold link_table. case_if; by rewrite ?length_insert. Qed.

Lemma link_table_other t prev c y :
  0 <= y -> 0 <= prev -> 0 <= c -> y <> c -> (prev = 0 \/ y <> prev) ->
  link_table t prev c !! Z.to_nat y = t !! Z.to_nat y.
Proof.
  intros. unfold link_table. case_if; breflect; rewrite !list_lookup_insert_ne by lia; done.
Qed.

Lemma link_table_free m t first prev cs c :
  linked t first prev cs -> 2 <= c < 0xFFF8 -> c < m -> t !! Z.to_nat c = Some 0 ->
  room m t = S (room m (link_table t prev c)).
Proof.
  intros [Hch Hl] Hc Hcm Hz. unfold link_table.
  rewrite (room_alloc m t c 0xFFFF) by (lia || done).
  case_if; [| done]. breflect. f_equal. destruct (last cs) as [p |] eqn:El; [| lia].
  destruct Hl as [_ ->]. apply last_Some in El as [cs0 ->].
  destruct (chain_allocated _ _ _ Hch p ltac:(set_solver)) as (Hpr & n & Hpn & Hn0).
  assert (p <> c) by congruence.
  symmetry. apply (room_link _ _ _ n); [lia | by rewrite list_lookup_insert_ne by lia | done | lia].
Qed.

Lemma linked_prev s live first prev cs :
  mounted s live -> linked (FAT_TABLE s) first prev cs ->
  (prev = 0 /\ cs = []) \/ (prev ∈ cs /\ 2 <= prev < FAT_ENTRIES s).
Proof.
  intros Hm [Hch Hl]. destruct (last cs) as [p |] eqn:El.
  - right. destruct Hl as [_ ->]. apply last_Some in El as [cs0 ->].
    assert (p ∈ cs0 ++ [p]) by set_solver. split; [done |]. by apply (chain_in_fat _ _ _ _ _ Hm Hch).
  - left. apply last_None in El. tauto.
Qed.

Lemma set_dev_mounted s d' live :
  mounted s live -> bd_ready d' -> bd_size d' = bd_size (dev s) -> mounted (set_dev d' s) live.
Proof. intros [] R E. split; cbn; try done. by rewrite E. Qed.

Lemma link_table_mounted s live prev c :
  mounted s live -> 0 <= c < 65536 -> mounted (set_fat (link_table (FAT_TABLE s) prev c) s) live.
Proof.
  intros Hm Hc. apply set_fat_mounted; [done | apply link_table_length |].
  unfold link_table. case_if; repeat apply Forall_insert; try apply Hm; lia.
Qed.

(** The buffer written to a cluster: [ws] bytes of the file, then zeros. *)
Definition chunk b (buf : list Z) (offset ws : Z) : list Z :=
  splice 0 (slice (Z.to_nat offset) (Z.to_nat ws) buf) (replicate (Z.to_nat (cluster_size b)) 0).

Definition chunk_size b (sz offset : Z) : Z :=
  if u32 (offset + cluster_size b) >? sz then sz - offset else cluster_size b.

Lemma chunk_size_spec s live sz offset :
  mounted s live -> 0 <= offset < sz -> sz < 2 ^ 31 ->
  chunk_size (BPB s) sz offset = Z.min (sz - offset) (Z.of_nat (csize (BPB s))).
Proof.
  intros Hm Ho Hs. destruct (csize_spec _ _ Hm) as [-> ?]. unfold chunk_size.
  rewrite u32_small by lia. destruct (Z.gtb_spec (offset + cluster_size (BPB s)) sz); lia.
Qed.

Lemma chunk_spec s live buf offset ws :
  mounted s live -> byte_list buf -> 0 <= offset -> 0 <= ws <= cluster_size (BPB s) ->
  offset + ws <= Z.of_nat (length buf) ->
  length (chunk (BPB s) buf offset ws) = csize (BPB s) /\ byte_list (chunk (BPB s) buf offset ws) /\
  take (Z.to_nat ws) (chunk (BPB s) buf offset ws) = slice (Z.to_nat offset) (Z.to_nat ws) buf.
Proof.
  intros Hm Hb Ho Hws Hfit. destruct (csize_spec _ _ Hm) as [Hcs ?]. unfold chunk.
  assert (Hl : length (slice (Z.to_nat offset) (Z.to_nat ws) buf) = Z.to_nat ws)
    by (apply length_slice; lia).
  split; [| split].
  - rewrite length_splice; rewrite ?Hl, length_replicate; lia.
  - apply splice_byte_list; [by apply slice_byte_list |]. apply Forall_replicate. unfold is_byte. lia.
  - rewrite <- Hl at 1. rewrite <- (drop_0 (splice _ _ _)). fold (slice 0 (length (slice (Z.to_nat offset) (Z.to_nat ws) buf))
      (splice 0 (slice (Z.to_nat offset) (Z.to_nat ws) buf) (replicate (Z.to_nat (cluster_size (BPB s))) 0))).
    apply slice_splice_same. rewrite Hl, length_replicate. lia.
Qed.

(** The state after [fat_alloc] took [c], [write_file] linked it behind [prev] and
    the device became [d']. *)
Definition took s prev c d' : fat D Hp := set_dev d' (set_fat (link_table (FAT_TABLE s) prev c) s).

(** One turn of the loop of [write_file]: no entry is free; the first free entry is
    of a cluster that is not on the medium; a cluster is written. *)
Lemma write_file_step s live fuel buf sz first prev offset cs :
  mounted s live -> byte_list buf -> sz = Z.of_nat (length buf) -> sz < 2 ^ 31 ->
  linked (FAT_TABLE s) first prev cs -> 0 <= offset < sz ->
  let ws := chunk_size (BPB s) sz offset in
  (write_file_loop (S fuel) buf sz first prev offset s = Some (None, s) /\
   room (limit s) (FAT_TABLE s) = 0%nat) \/
  exists c d', let s1 := took s prev c d' in
    extends s s1 [c] /\ (c ∉ cs) /\
    linked (FAT_TABLE s1) (if first =? 0 then c else first) c (cs ++ [c]) /\
    ((~ on_disk (BPB s) (bd_size (dev s)) c /\ room (limit s) (FAT_TABLE s) = 0%nat /\
      write_file_loop (S fuel) buf sz first prev offset s = Some (None, s1)) \/
     (on_disk (BPB s) (bd_size (dev s)) c /\ mounted s1 live /\
      cluster_data (dev s1) (BPB s) c = chunk (BPB s) buf offset ws /\
      room (limit s) (FAT_TABLE s) = S (room (limit s) (FAT_TABLE s1)) /\
      write_file_loop (S fuel) buf sz first prev offset s =
        write_file_loop fuel buf sz (if first =? 0 then c else first) c (u32 (offset + ws)) s1)).
Proof.
  intros Hm Hb Hsz Hsz31 Hlk Ho ws.
  pose proof (chunk_size_spec s live sz offset Hm Ho Hsz31) as Hws. fold ws in Hws.
  destruct (csize_spec _ _ Hm) as [Hcs Hcb].
  cbn [write_file_loop]. rewrite (proj2 (Z.ltb_lt _ _)) by lia.
  destruct (fat_alloc_spec s live Hm) as (c & t' & -> & Hcase). cbn [mbind option_bind].
  destruct Hcase as [(-> & -> & H0f) | (Hc & Hz & -> & Hm' & Hfull)].
  { left. rewrite set_fat_same. done. }
  right. pose proof (mt_layout _ _ Hm) as Hly.
  assert (Hcr : 2 <= c < 0xFFF8) by (destruct Hly; lia).
  destruct (linked_snoc _ _ _ _ c Hlk Hcr Hz) as [Hlk' Hnc].
  pose proof (link_table_mounted s live prev c Hm ltac:(lia)) as Hm2.
  destruct (chunk_spec s live buf offset ws Hm Hb) as (Hcl & Hcby & _); [lia.. |].
  rewrite (proj2 (Z.eqb_neq c 0)) by lia.
  assert (Hlink : (if negb (prev =? 0)
           then (t ← zset (<[Z.to_nat c := 0xFFFF]> (FAT_TABLE s)) prev c;
             Some (set_fat t (set_fat (<[Z.to_nat c := 0xFFFF]> (FAT_TABLE s)) s)))
           else Some (set_fat (<[Z.to_nat c := 0xFFFF]> (FAT_TABLE s)) s)) =
          Some (set_fat (link_table (FAT_TABLE s) prev c) s)).
  { unfold link_table. destruct (Z.eqb_spec prev 0) as [-> | Hp0]; cbn [negb]; [done |].
    destruct (linked_prev _ _ _ _ _ Hm Hlk) as [[? _] | [_ [Hp1 Hp2]]]; [done |].
    pose proof (mt_len _ _ Hm). rewrite zset_Some by (rewrite length_insert; lia). done. }
  change (FAT_TABLE (set_fat (<[Z.to_nat c := 0xFFFF]> (FAT_TABLE s)) s)) with (<[Z.to_nat c := 0xFFFF]> (FAT_TABLE s)).
  rewrite Hlink. cbn [mbind option_bind]. set (s1 := set_fat (link_table (FAT_TABLE s) prev c) s) in *.
  change (BPB s1) with (BPB s). fold (chunk_size (BPB s) sz offset). fold ws. fold (chunk (BPB s) buf offset ws).
  destruct (decide (on_disk (BPB s) (bd_size (dev s)) c)) as [Hon | Hoff].
  - destruct (write_cluster_spec s1 live c (chunk (BPB s) buf offset ws) Hm2 ltac:(lia) Hon Hcl Hcby)
      as (d' & -> & Hd & Hother & Hready & Hsize & Hlow).
    exists c, d'. cbv zeta. change (took s prev c d') with (set_dev d' s1).
    split; [| split; [exact Hnc |]; split; [exact Hlk' |]; right; split; [exact Hon |]; split; [| split; [exact Hd |]; split; [| done]]].
    + split; [done | | exact Hlow |].
      * intros y Hy Hyc. apply Hother; [done | set_solver].
      * intros y ->%list_elem_of_singleton. done.
    + by apply (set_dev_mounted s1).
    + apply (link_table_free _ _ first prev cs); [done.. | apply Hon | done].
  - destruct (write_cluster_off s1 live c (chunk (BPB s) buf offset ws) Hm2 ltac:(lia) Hoff Hcl Hcby)
      as (d' & -> & Hsize & Hother & Hlow).
    exists c, d'. cbv zeta. change (took s prev c d') with (set_dev d' s1).
    split; [| split; [exact Hnc |]; split; [exact Hlk' |]; left; split; [exact Hoff |]; split; [| done]].
    + split; [done | | exact Hlow |].
      * intros y Hy Hyc. by apply Hother.
      * intros y ->%list_elem_of_singleton. done.
    + apply Hfull. unfold on_disk in Hoff. unfold limit. lia.
Qed.

Lemma extends_trans s s1 s' new1 new2 :
  extends s s1 new1 -> extends s1 s' new2 ->
  (forall c, c ∈ new2 -> FAT_TABLE s1 !! Z.to_nat c = Some 0 -> FAT_TABLE s !! Z.to_nat c = Some 0) ->
  extends s s' (new1 ++ new2).
Proof.
  intros [] [] Hz. destruct_and!. split; [split_and!; congruence | | |].
  - intros c Hc Hn. rewrite <- ex_data0 by set_solver.
    replace (BPB s) with (BPB s1) by done. apply ex_data1; [congruence | set_solver].
  - intros x Hx. rewrite <- ex_low0 by done. apply ex_low1. congruence.
  - intros c [Hc | Hc]%elem_of_app; [by apply ex_new0 |].
    destruct (ex_new1 c Hc) as [? Hz1]. split; [lia | by apply Hz].
Qed.

Lemma extends_chain_data s s' new cs :
  extends s s' new -> present s cs -> (forall c, c ∈ cs -> c ∉ new) ->
  chain_data s' cs = chain_data s cs.
Proof.
  intros Hx Hpr Hcs. destruct (extends_mounted_eq _ _ _ Hx) as [Eb _]. unfold chain_data. rewrite Eb.
  f_equal. apply map_ext_in. intros c Hc%list_elem_of_In. apply (ex_data _ _ _ Hx); [by apply Hpr | by apply Hcs].
Qed.

Lemma take_extend {A} (l x y buf : list A) (o w : nat) :
  take o x = take o buf -> length x = o -> take w y = slice o w buf ->
  (o + w <= length buf)%nat -> take (o + w) (x ++ y) = take (o + w) buf.
Proof.
  intros Hx Hl Hy Hb. rewrite take_app, Hl. replace (o + w - o)%nat with w by lia.
  rewrite (take_ge x) by lia. rewrite <- (firstn_all x), Hl, Hx, Hy. unfold slice.
  by rewrite <- take_take_drop.
Qed.

Lemma took_other s live first prev cs c d' y :
  mounted s live -> linked (FAT_TABLE s) first prev cs -> 2 <= c -> 0 <= y -> y ∉ cs -> y <> c ->
  FAT_TABLE (took s prev c d') !! Z.to_nat y = FAT_TABLE s !! Z.to_nat y.
Proof.
  intros Hm Hlk Hc Hy Hyc Hne. change (FAT_TABLE (took s prev c d')) with (link_table (FAT_TABLE s) prev c).
  destruct (linked_prev _ _ _ _ _ Hm Hlk) as [[-> _] | [Hp1 [Hp2 _]]]; apply link_table_other; try lia.
  right. congruence.
Qed.

Lemma linked_taken t first prev cs x : linked t first prev cs -> x ∈ cs -> t !! Z.to_nat x <> Some 0.
Proof. intros [Hch _] Hx E. destruct (chain_allocated _ _ _ Hch x Hx) as (_ & n & ? & ?). congruence. Qed.

(** The loop of [write_file] ends: the chain holds the buffer, or the medium had
    less room than the [k] clusters it needs. *)
Lemma write_file_loop_spec buf sz live :
  byte_list buf -> sz = Z.of_nat (length buf) -> sz < 2 ^ 31 ->
  forall k fuel first prev offset cs s,
  mounted s live -> linked (FAT_TABLE s) first prev cs -> present s cs -> 0 <= offset <= sz ->
  match k with
  | O => offset = sz
  | S k => offset = Z.of_nat (length cs * csize (BPB s)) /\
           Z.of_nat (k * csize (BPB s)) < sz - offset <= Z.of_nat (S k * csize (BPB s))
  end ->
  take (Z.to_nat offset) (chain_data s cs) = take (Z.to_nat offset) buf -> (k < fuel)%nat ->
  exists r s' new, write_file_loop fuel buf sz first prev offset s = Some (r, s') /\
    extends s s' new /\
    (forall y, 0 <= y -> y ∉ cs -> y ∉ new -> FAT_TABLE s' !! Z.to_nat y = FAT_TABLE s !! Z.to_nat y) /\
    (mounted s' live \/ exists c, c ∈ new /\ ~ on_disk (BPB s) (bd_size (dev s)) c) /\
    match r with
    | Some f => mounted s' live /\ chain (FAT_TABLE s') f (cs ++ new) /\ present s new /\ length new = k /\
                take (Z.to_nat sz) (chain_data s' (cs ++ new)) = buf /\ (new = [] -> f = first)
    | None => (room (limit s) (FAT_TABLE s) < k)%nat
    end.
Proof.
  intros Hb Hsz H31 k. induction k as [| k IH]; intros fuel first prev offset cs s Hm Hlk Hpr Ho Hk Htk Hf;
    (destruct fuel as [| fuel]; [lia |]).
  - subst offset. exists (Some first), s, []. cbn [write_file_loop].
    rewrite (proj2 (Z.ltb_ge _ _)) by lia. split; [done |]. split; [by apply extends_refl |].
    split; [done |]. split; [by left |]. rewrite app_nil_r. split; [done |]. split; [apply Hlk |].
    split; [by intros c Hc%elem_of_nil |]. split; [done |].
    split; [| done]. rewrite Htk, Hsz, Nat2Z.id. apply firstn_all.
  - destruct Hk as [Hoff Hk]. destruct (csize_spec _ _ Hm) as [Hcs Hcb].
    assert (Ho' : 0 <= offset < sz) by lia.
    destruct (write_file_step s live fuel buf sz first prev offset cs Hm Hb Hsz H31 Hlk Ho')
      as [[-> Hz] | (c & d' & Hx & Hnc & Hlk1 & [(Hno & Hz & ->) | (Hon & Hm1 & Hd & Hfree & ->)])].
    { exists None, s, []. split; [done |]. split; [by apply extends_refl |]. split; [done |]. split; [by left | lia]. }
    { exists None, (took s prev c d'), [c]. split; [done |]. split; [done |]. split; [| split; [| lia]].
      - intros y Hy Hyc Hyn. destruct (ex_new _ _ _ Hx c ltac:(set_solver)) as [Hc2 _].
        apply (took_other s live first prev cs); [done.. | lia | done | done | set_solver].
      - right. exists c. split; [set_solver | done]. }
    set (s1 := took s prev c d') in *. set (ws := chunk_size (BPB s) sz offset) in *.
    pose proof (chunk_size_spec s live sz offset Hm Ho' H31) as Hws. fold ws in Hws.
    destruct (ex_new _ _ _ Hx c ltac:(set_solver)) as [Hc2 Hcz].
    destruct (extends_mounted_eq _ _ _ Hx) as (Eb & En & Ez).
    assert (Hoth : forall y, 0 <= y -> y ∉ cs -> y <> c -> FAT_TABLE s1 !! Z.to_nat y = FAT_TABLE s !! Z.to_nat y)
      by (intros; apply (took_other s live first prev cs); done || lia).
    assert (Hfresh : forall x, x ∈ cs -> x ∉ [c]) by set_solver.
    rewrite u32_small by lia.
    destruct (chunk_spec s live buf offset ws Hm Hb) as (Hcl & _ & Hctk); [lia.. |].
    destruct (IH fuel (if first =? 0 then c else first) c (offset + ws) (cs ++ [c]) s1)
      as (r & s' & new & E & Hx' & Hoth' & Hms & Hr).
    { done. } { done. }
    { apply (present_same s); [done.. |]. intros x [Hx1 | ->%list_elem_of_singleton]%elem_of_app; [by apply Hpr | done]. }
    { lia. }
    { rewrite Eb, length_app. simpl length. destruct k as [| k]; [lia |]. nia. }
    { unfold chain_data. rewrite map_app, concat_app. fold (chain_data s1 cs).
      rewrite (extends_chain_data _ _ _ _ Hx Hpr Hfresh). cbn [map concat]. rewrite app_nil_r, Eb, Hd.
      rewrite Z2Nat.inj_add by lia. apply (take_extend buf); [done | | done | lia].
      rewrite length_chain_data. lia. }
    { lia. }
    rewrite (extends_limit _ _ _ Hx), Eb, Ez in *.
    exists r, s', (c :: new). split; [done |]. split; [| split; [| split]].
    + apply (extends_trans s s1 s' [c] new); [done | done |].
      intros y Hy Hz1. destruct (ex_new _ _ _ Hx' y Hy) as [Hy2 _].
      rewrite <- Hz1. symmetry. apply Hoth; [lia | |].
      * intros Hin. by apply (linked_taken _ _ _ _ y Hlk1); [set_solver |].
      * intros ->. by apply (linked_taken _ _ _ _ c Hlk1); [set_solver |].
    + intros y Hy Hyc Hyn. apply not_elem_of_cons in Hyn as [Hyn1 Hyn2].
      rewrite Hoth' by (done || set_solver). by apply Hoth.
    + destruct Hms as [| (y & Hy & Hn)]; [by left | right]. exists y. split; [set_solver | done].
    + destruct r as [f |]; [| lia]. rewrite <- app_assoc in Hr. destruct Hr as (? & ? & Hp' & ? & ? & _).
      split; [done |]. split; [done |]. split; [| split; [simpl; lia | done]].
      intros x [-> | Hx1]%elem_of_cons; [done |]. unfold present in Hp'. rewrite Eb, Ez in Hp'. by apply Hp'.
Qed.

Lemma chain_short s live c cs :
  mounted s live -> chain (FAT_TABLE s) c cs -> Z.of_nat (length cs) < FAT_ENTRIES s.
Proof.
  intros Hm Hch. destruct (mt_layout _ _ Hm).
  assert (Hs : cs ⊆+ seqZ 2 (FAT_ENTRIES s - 2)).
  { apply NoDup_submseteq; [by apply (chain_NoDup _ _ _ Hch) |]. intros x Hx.
    apply elem_of_seqZ. pose proof (chain_in_fat _ _ _ _ _ Hm Hch Hx) as [? ?]. lia. }
  apply submseteq_length in Hs. rewrite length_seqZ in Hs. lia.
Qed.
End files.
