(* ===== verification/Fat16Files.v ===== *)
(** Files of the FAT16 driver ([Fat16]): what [read_file] returns and what
    [write_file] leaves on the volume. *)
From S2P Require Import Prelude StringRs Heap Block Fat16 Fat16Disk Fat16Chain.
From S2P Require Pmm.
#[local] Existing Instance Pmm.pmm_allocator.

(** ** Names *)

(** A name [write_file] can enter in the directory: a C string whose first
    character is not the mark of a deleted entry. *)
Record name_ok (nm : list Z) : Prop := {
  nk_bytes : byte_list nm; nk_nul : no_nul nm; nk_first : head nm <> Some 0xE5 }.

(** A name field that is found again once it is in a directory entry. *)
Definition field_ok (l : list Z) : Prop :=
  length l = 11%nat /\ byte_list l /\ default 0 (l !! 0%nat) <> 0 /\ default 0 (l !! 0%nat) <> 0xE5.

Lemma upper_byte c : is_byte c -> c <> 0 -> c <> 0xE5 ->
  is_byte (upper c) /\ upper c <> 0 /\ upper c <> 0xE5.
Proof. unfold is_byte, upper. intros. case_if; breflect; lia. Qed.

Lemma field_insert l j c : field_ok l -> is_byte c -> (j = 0%nat -> c <> 0 /\ c <> 0xE5) ->
  field_ok (<[j := c]> l).
Proof.
  intros (Hl & Hb & H0 & H5) Hc Hj. split; [by rewrite length_insert |]. split; [by apply Forall_insert |].
  destruct j as [| j]; [| by destruct l].
  destruct l; [done |]. simpl. by apply Hj.
Qed.

Lemma upper_is_byte c : is_byte c -> is_byte (upper c).
Proof. unfold is_byte, upper. intros. case_if; breflect; lia. Qed.

Lemma base_loop_field l : forall j out, byte_list l -> field_ok out ->
  (j = 0%nat -> forall c, head l = Some c -> c <> 0 /\ c <> 0xE5) ->
  field_ok (base_loop l j out).2 /\ byte_list (base_loop l j out).1.
Proof.
  induction l as [| c l IH]; intros j out Hb Ho Hj; [done |]. cbn [base_loop].
  apply Forall_cons in Hb as [Hc Hb]. case_if; [| split; [done | by constructor]].
  apply IH; [done | | done]. apply field_insert; [done | by apply upper_is_byte |].
  intros ->. destruct (Hj eq_refl c eq_refl). by apply upper_byte.
Qed.

Lemma ext_loop_field l : forall j out, byte_list l -> field_ok out -> (0 < j)%nat ->
  field_ok (ext_loop l j out).
Proof.
  induction l as [| c l IH]; intros j out Hb Ho Hj; [done |]. cbn [ext_loop].
  apply Forall_cons in Hb as [Hc Hb]. case_if; [| done].
  apply IH; [done | | lia]. apply field_insert; [done | by apply upper_is_byte | lia].
Qed.

Lemma skip_loop_byte l : byte_list l -> byte_list (skip_loop l).
Proof. induction 1; simpl; [constructor |]. case_if; [done | by constructor]. Qed.

Lemma name_to_83_field nm : name_ok nm -> field_ok (name_to_83 nm).
Proof.
  intros [Hb Hn Hf]. unfold name_to_83.
  destruct (base_loop_field nm 0 (replicate 11 32) Hb) as [H1 H2].
  { split; [done |]. split; [| done]. apply Forall_replicate. unfold is_byte. lia. }
  { intros _ c Hc. split; [| congruence]. destruct nm; [done |]. injection Hc as ->.
    by apply Forall_cons in Hn as [? _]. }
  destruct (base_loop nm 0 _) as [rest out]. simpl in *.
  pose proof (skip_loop_byte _ H2) as Hs. destruct (skip_loop rest) as [| c r]; [done |].
  case_if; [| done]. apply ext_loop_field; [by apply Forall_cons in Hs as [_ ?] | done | lia].
Qed.

Section files.
Context {D Hp : Type} `{BlockDevice D} `{KernelHeap Hp}.
Implicit Types (d : D) (s : fat D Hp) (b : Bpb).

(** ** Files on the volume *)

Definition entry_at s (j : Z) : Fat16DirEntry := dir_entry (dev s) (BPB s) j.

(** The volume has a file [nm] with contents [data] in the clusters [cs] of the medium. *)
Definition holds s (nm : list Z) (cs data : list Z) : Prop :=
  exists j, find_name s (name_to_83 nm) = Some j /\
    size (entry_at s j) = Z.of_nat (length data) /\
    chain (FAT_TABLE s) (first_cluster (entry_at s j)) cs /\ present s cs /\
    take (length data) (chain_data s cs) = data.

(** A temporary cluster buffer from the kernel heap. *)
Lemma cluster_buffer s live :
  mounted s live ->
  exists p h, kh_malloc (cluster_size (BPB s)) (hp s) = Some (p, h) /\
    (p = 0 -> exists l, kh_rep h l /\ Permutation l live) /\
    (p <> 0 -> (exists live2, kh_rep h live2) /\
       exists h', kh_free p h = Some h' /\ exists l, kh_rep h' l /\ Permutation l live).
Proof.
  intros Hm. destruct (csize_spec _ _ Hm) as [_ Hc]. destruct (mt_heap _ _ Hm) as (l & Hl & Hp1).
  destruct (kh_malloc_law (cluster_size (BPB s)) (hp s) l Hl ltac:(lia)) as (p & h & E & Hcase).
  exists p, h. split; [done |]. split; intros Hp0.
  - destruct Hcase as [[_ Hr] | [? _]]; [by exists l | done].
  - destruct Hcase as [[? _] | (_ & sz & l' & _ & Hr & Hpm & _)]; [done |].
    destruct (kh_free_law p sz h l' Hr) as (h' & l2 & Ef & Hr2 & Hp2).
    { rewrite Hpm. set_solver. }
    split; [by exists l' |]. exists h'. split; [done |]. exists l2. split; [done |].
    rewrite Hpm in Hp2. apply Permutation_cons_inv in Hp2. by rewrite <- Hp2.
Qed.

Definition malloc_fails s : Prop := exists h, kh_malloc (cluster_size (BPB s)) (hp s) = Some (0, h).

Lemma set_hp_mounted s live0 live h :
  mounted s live0 -> (exists l, kh_rep h l /\ Permutation l live) -> mounted (set_hp h s) live.
Proof. intros [] Hh. by split. Qed.

Lemma quiet_set_hp s s' h : quiet s s' -> quiet (set_hp h s) (set_hp h s').
Proof. unfold quiet. destruct s, s'. simpl. intuition. Qed.

(** [s'] is [s] up to the transfer buffer, the device's internals and the
    heap's. *)
Definition unchanged s s' : Prop := quiet (set_hp (hp s') s) s'.

Lemma read_file_spec fuel nm max_size cs data s live :
  mounted s live -> holds s nm cs data -> Z.of_nat (length data) < 2 ^ 31 -> 0 <= max_size ->
  FAT_ENTRIES s <= Z.of_nat fuel ->
  exists r out s', read_file fuel nm max_size s = Some (r, out, s') /\ mounted s' live /\ unchanged s s' /\
    ((r = Z.of_nat (length out) /\ out = take (Z.to_nat max_size) data) \/
     (r = -1 /\ out = [] /\ malloc_fails s)).
Proof.
  intros Hm (j & Hj & Hsz & Hch & Hpr & Hdata) H31 Hmax Hf. unfold read_file.
  rewrite (proj2 (Z.eqb_neq _ 0) (mt_ready _ _ Hm)).
  destruct (find_root_entry_spec s live (name_to_83 nm) Hm) as (s1 & Hq & ->). rewrite Hj.
  pose proof (find_name_in_dir _ _ _ _ Hm Hj) as [Hj0 _].
  rewrite (proj2 (Z.ltb_ge j 0)) by lia. fold (entry_at s j).
  assert (Hm1 : mounted s1 live) by by apply (quiet_mounted s).
  assert (Hhp : hp s1 = hp s) by apply Hq. assert (Eb : BPB s1 = BPB s) by apply Hq.
  assert (Et : FAT_TABLE s1 = FAT_TABLE s) by apply Hq.
  destruct (Z.eqb_spec (size (entry_at s j)) 0) as [E0 | E0].
  { exists 0, [], s1. split; [done |]. split; [done |]. split.
    - unfold unchanged. rewrite Hhp. destruct s. exact Hq.
    - left. assert (data = []) as -> by (apply length_zero_iff_nil; lia). by rewrite take_nil. }
  destruct (cluster_buffer s1 live Hm1) as (p & h & Ek & Hp0 & Hp1). rewrite Ek. cbn [mbind option_bind].
  destruct (Z.eqb_spec p 0) as [-> | Hpne].
  { eexists _, _, _. split; [done |]. split; [eapply set_hp_mounted; eauto |]. split.
    - by apply quiet_set_hp.
    - right. split; [done |]. split; [done |]. exists h. by rewrite <- Hhp, <- Eb. }
  destruct (Hp1 Hpne) as ((live2 & Hl2) & h' & Ef & Hrep).
  set (rem := if size (entry_at s j) >? max_size then max_size else size (entry_at s j)).
  assert (Hrem : rem = Z.min (Z.of_nat (length data)) max_size).
  { unfold rem. rewrite Hsz. destruct (Z.gtb_spec (Z.of_nat (length data)) max_size); lia. }
  assert (Hlen : (length data <= length cs * csize (BPB s))%nat).
  { pose proof (f_equal length Hdata) as Hl. rewrite length_take, length_chain_data in Hl. lia. }
  assert (Hm2 : mounted (set_hp h s1) live2) by (apply (set_hp_mounted s1 live); eauto).
  destruct (read_file_loop_spec cs fuel (first_cluster (entry_at s j)) rem [] (set_hp h s1) live2 Hm2)
    as (s3 & Hq3 & ->).
  { cbn. by rewrite Et. } { apply (present_same s); [done | apply Hq | done]. }
  { cbn. rewrite Eb. lia. } { pose proof (chain_short _ _ _ _ Hm Hch). lia. }
  assert (Hhp3 : hp s3 = h) by apply Hq3.
  cbn [mbind option_bind]. rewrite Hhp3, Ef. cbn [mbind option_bind].
  eexists _, _, _. split; [done |]. split; [| split].
  - apply (set_hp_mounted s3 live2); [by apply (quiet_mounted (set_hp h s1)) | done].
  - unfold unchanged. cbn [hp set_hp]. transitivity (set_hp h' s1); [by apply quiet_set_hp |].
    apply (quiet_set_hp _ _ h') in Hq3. exact Hq3.
  - left. assert (Eout : [] ++ take (Z.to_nat rem) (chain_data (set_hp h s1) cs) = take (Z.to_nat max_size) data).
    { change (chain_data (set_hp h s1) cs) with (chain_data s1 cs). rewrite (quiet_chain_data _ _ _ Hq).
      rewrite <- Hdata. rewrite take_take. simpl. f_equal. lia. }
    rewrite Eout. split; [| done].
    pose proof (length_take data (Z.to_nat max_size)) as Hlt.
    apply i32_small. lia.
Qed.

(** ** The directory slot of a write *)

(** The chain [write_file] releases before it writes [nm]. *)
Definition old_chain s (nm cs : list Z) : Prop :=
  match find_name s (name_to_83 nm) with
  | Some j => chain (FAT_TABLE s) (first_cluster (entry_at s j)) cs
  | None => cs = []
  end.

(** The entry a file of that name goes to. *)
Definition slot_for s (fat_name : list Z) (idx : Z) : Prop :=
  find_name s fat_name = Some idx \/ (find_name s fat_name = None /\ free_slot s = Some idx).

Lemma slot_for_in_dir s live fat_name idx : mounted s live -> slot_for s fat_name idx -> in_dir (BPB s) idx.
Proof.
  intros Hm [E | [_ E]]; [by apply (find_name_in_dir s live fat_name) | by apply (free_slot_in_dir s live)].
Qed.

(** Two states with the same directory. *)
Definition same_dir s s' : Prop :=
  BPB s' = BPB s /\
  forall x, first_root_sector (BPB s) <= x < first_data_sector (BPB s) -> bd_data (dev s') x = bd_data (dev s) x.

Lemma same_dir_entry s s' live j :
  mounted s live -> same_dir s s' -> in_dir (BPB s) j -> entry_at s' j = entry_at s j.
Proof.
  intros Hm [Eb Hd] Hj. unfold entry_at. rewrite Eb. apply dir_entry_same, Hd.
  destruct (dir_sector_bound _ _ _ _ (mt_layout _ _ Hm) Hj) as (? & _). lia.
Qed.

Lemma same_dir_find s s' live nm : mounted s live -> same_dir s s' -> find_name s' nm = find_name s nm.
Proof.
  intros Hm Hd. unfold find_name. rewrite (proj1 Hd). apply find_pure_ext. intros j Hj.
  rewrite <- (proj1 Hd) at 1. apply (same_dir_entry s s' live j Hm Hd). unfold in_dir. lia.
Qed.

Lemma same_dir_slot s s' live nm idx : mounted s live -> same_dir s s' -> slot_for s nm idx -> slot_for s' nm idx.
Proof.
  intros Hm Hd. unfold slot_for. rewrite (same_dir_find _ _ _ _ Hm Hd).
  assert (E : free_slot s' = free_slot s); [| by rewrite E].
  unfold free_slot. rewrite (proj1 Hd). apply slot_pure_ext. intros j Hj.
  rewrite <- (proj1 Hd) at 1. apply (same_dir_entry s s' live j Hm Hd). unfold in_dir. lia.
Qed.

(** [s1] is [s] with the clusters [cs] released. *)
Record released s s1 (live : list (Z * Z)) (cs : list Z) : Prop := {
  rl_mounted : mounted s1 live;
  rl_vars : hp s1 = hp s /\ BPB s1 = BPB s /\ FAT_ENTRIES s1 = FAT_ENTRIES s;
  rl_disk : same_disk (dev s) (dev s1);
  rl_table : forall y, 0 <= y -> y ∉ cs -> FAT_TABLE s1 !! Z.to_nat y = FAT_TABLE s !! Z.to_nat y;
  rl_free : room (limit s) (FAT_TABLE s1) = (on_count s cs + room (limit s) (FAT_TABLE s))%nat }.

Lemma prepare_spec fuel nm s live cs :
  mounted s live -> name_ok nm -> old_chain s nm cs -> FAT_ENTRIES s <= Z.of_nat fuel ->
  exists idx e s1, prepare_entry fuel (name_to_83 nm) s = Some (idx, e, s1) /\ released s s1 live cs /\
    ((idx = -1 /\ find_name s (name_to_83 nm) = None /\ free_slot s = None) \/
     (slot_for s (name_to_83 nm) idx /\ entry_ok e /\ name e = name_to_83 nm /\ skip_attr e = false)).
Proof.
  intros Hm Hnm Hold Hf. unfold prepare_entry, old_chain in *.
  destruct (find_root_entry_spec s live (name_to_83 nm) Hm) as (s1 & Hq & ->).
  assert (Hm1 : mounted s1 live) by by apply (quiet_mounted s).
  assert (Et : FAT_TABLE s1 = FAT_TABLE s) by apply Hq.
  destruct (find_name s (name_to_83 nm)) as [j |] eqn:Ej.
  - pose proof (find_name_in_dir _ _ _ _ Hm Ej) as [Hj0 _].
    rewrite Z.geb_leb, (proj2 (Z.leb_le 0 j)) by lia. fold (entry_at s j).
    destruct (free_chain_spec cs fuel (first_cluster (entry_at s j)) s1 live Hm1)
      as (t' & -> & Hm' & Hin & Hout & Hfc).
    { by rewrite Et. } { pose proof (chain_short _ _ _ _ Hm Hold). lia. }
    eexists j, (entry_at s j), _. split; [done |]. split.
    + split; [done | | apply Hq | |].
      * destruct Hq as (_ & Eh & Eb & _ & _ & En & _). cbn. auto.
      * intros y Hy Hyc. cbn. rewrite Hout by done. by rewrite Et.
      * rewrite <- Et. assert (Ez : bd_size (dev s1) = bd_size (dev s)) by apply Hq.
        unfold limit, on_count in *. destruct Hq as (_ & _ & Eb & _). rewrite Eb, Ez in Hfc. exact Hfc.
    + right. split; [by left |]. split; [apply dir_entry_ok |].
      by apply find_pure_Some in Ej as (_ & ? & ? & _).
  - subst cs. change (-1 >=? 0) with false. cbn iota.
    destruct (find_free_root_entry_spec s1 live Hm1) as (s2 & Hq2 & ->).
    assert (Hsd : same_dir s s1) by (split; [apply Hq | intros; apply Hq]).
    assert (Es : free_slot s1 = free_slot s).
    { unfold free_slot. rewrite (proj1 Hsd). apply slot_pure_ext. intros j Hj.
      rewrite <- (proj1 Hsd) at 1. apply (same_dir_entry s s1 live j Hm Hsd). unfold in_dir. lia. }
    rewrite Es. eexists _, _, s2. split; [done |]. split.
    + assert (Hq' : quiet s s2) by by transitivity s1.
      split; [by apply (quiet_mounted s) | | apply Hq' | |].
      * destruct Hq' as (_ & Eh & Eb & _ & _ & En & _). auto.
      * intros. f_equal. apply Hq'.
      * simpl. f_equal. apply Hq'.
    + destruct (free_slot s) as [j |] eqn:Efs; [right | by left].
      split; [by right |]. destruct (name_to_83_field _ Hnm) as (Hl & Hb & _).
      split; [| done]. split; simpl; try done; try lia. split_and!; [done | unfold is_byte; lia |].
      repeat constructor; unfold is_byte; lia.
Qed.

(** ** Committing the directory entry and the table *)

Lemma cluster_data_above s live c d' :
  mounted s live -> 2 <= c ->
  (forall x, first_data_sector (BPB s) <= x -> bd_data d' x = bd_data (dev s) x) ->
  cluster_data d' (BPB s) c = cluster_data (dev s) (BPB s) c.
Proof.
  intros Hm Hc1 Hd. apply sectors_same. intros i Hi. apply Hd.
  destruct (mt_layout _ _ Hm). nia.
Qed.

Lemma commit_spec s live idx e :
  mounted s live -> entry_ok e -> field_ok (name e) -> skip_attr e = false -> slot_for s (name e) idx ->
  exists s5 s6, write_root_entry idx e s = (true, s5) /\ fat_flush s5 = (true, s6) /\
    mounted s6 live /\ synced s6 /\ find_name s6 (name e) = Some idx /\ entry_at s6 idx = e /\
    BPB s6 = BPB s /\ hp s6 = hp s /\ bd_size (dev s6) = bd_size (dev s) /\ FAT_TABLE s6 = FAT_TABLE s /\
    (forall c, 2 <= c ->
       cluster_data (dev s6) (BPB s) c = cluster_data (dev s) (BPB s) c) /\
    (forall nm k, nm <> name e -> find_name s nm = Some k ->
       find_name s6 nm = Some k /\ entry_at s6 k = entry_at s k).
Proof.
  intros Hm He (Hnl & Hnb & Hn0 & Hn5) Hsk Hslot.
  pose proof (slot_for_in_dir _ _ _ _ Hm Hslot) as Hidx.
  destruct (write_root_entry_spec s live idx e Hm Hidx He) as (s5 & Ew & Hv & Hsame & Hoth & Hout).
  pose proof (same_vars_mounted _ _ _ Hv Hm) as Hm5.
  destruct (fat_flush_spec s5 live Hm5) as (d' & Ef & Erd & Esz & Hhigh & Hsync).
  destruct Hv as (Eh & Eb & Ep & Et & En & Er & Ec & Esz5 & _).
  rewrite Eb in Hhigh.
  assert (Hm6 : mounted (set_dev d' s5) live) by by apply set_dev_mounted.
  assert (Hent : forall j, in_dir (BPB s) j -> entry_at (set_dev d' s5) j = dir_entry (dev s5) (BPB s) j).
  { intros j Hj. unfold entry_at. cbn. rewrite Eb. apply dir_entry_same, Hhigh.
    destruct (dir_sector_bound _ _ _ _ (mt_layout _ _ Hm) Hj) as (? & _). lia. }
  assert (Hj : entry_at (set_dev d' s5) idx = e) by by rewrite Hent.
  assert (Hne : forall k, in_dir (BPB s) k -> k <> idx -> entry_at (set_dev d' s5) k = entry_at s k).
  { intros k Hk Hki. rewrite Hent by done. by apply Hoth. }
  pose proof (ly_root_count _ _ _ (mt_layout _ _ Hm)) as Hrc.
  set (g := fun k => if decide (k = idx) then e else entry_at s k).
  assert (Hg : forall nm, find_name (set_dev d' s5) nm =
    find_pure (Z.to_nat (root_entry_count (BPB s))) 0 nm g).
  { intros nm. unfold find_name. cbn [BPB set_dev]. rewrite Eb. apply find_pure_ext. intros j Hjr.
    assert (in_dir (BPB s) j) by (unfold in_dir; lia).
    rewrite <- Eb at 1. change (dir_entry _ _ j) with (entry_at (set_dev d' s5) j).
    unfold g. case_decide; [by subst | by apply Hne]. }
  assert (Hgi : g idx = e) by (unfold g; by rewrite decide_True).
  assert (Hgo : forall k, k <> idx -> g k = entry_at s k) by (intros; unfold g; by rewrite decide_False).
  exists s5, (set_dev d' s5). split; [done |]. split; [done |]. split; [done |]. split; [done |].
  split; [| split; [done |]; split; [done |]; split; [done |]; split; [cbn; congruence |]; split; [done |]; split].
  - rewrite Hg. destruct Hslot as [E | [E Es]].
    + apply (find_pure_replace _ _ _ (entry_at s)); rewrite ?Hgi; done.
    + apply (find_pure_fill _ _ _ (entry_at s)); rewrite ?Hgi; done.
  - intros c Hc. apply (cluster_data_above s live); [done.. |]. intros x Hx. cbn.
    pose proof (ly_data _ _ _ (mt_layout _ _ Hm)).
    assert (0 <= (root_entry_count (BPB s) * 32 + 511) / 512) by (apply Z.div_pos; lia).
    rewrite Hhigh by lia. apply Hout. lia.
  - intros nm k Hnm Hk.
    assert (Hki : k <> idx).
    { intros ->. pose proof (find_pure_Some _ _ _ _ _ Hk) as (_ & Hkn & _ & H0k & H5k).
      destruct Hslot as [E | [_ E]].
      - apply find_pure_Some in E as (_ & ? & _). congruence.
      - apply slot_pure_Some in E as (_ & [|]); congruence. }
    split; [| apply Hne; [by apply (find_name_in_dir s live nm) | done]].
    rewrite Hg. apply (find_pure_other _ _ _ (entry_at s) _ idx); rewrite ?Hgi; congruence || done.
Qed.

(** ** Files that a write leaves alone *)

Lemma holds_transfer s s' nm cs data :
  holds s nm cs data -> BPB s' = BPB s -> bd_size (dev s') = bd_size (dev s) ->
  (forall k, find_name s (name_to_83 nm) = Some k ->
     find_name s' (name_to_83 nm) = Some k /\ entry_at s' k = entry_at s k) ->
  (forall x, x ∈ cs -> FAT_TABLE s' !! Z.to_nat x = FAT_TABLE s !! Z.to_nat x) ->
  chain_data s' cs = chain_data s cs ->
  holds s' nm cs data.
Proof.
  intros (j & Hj & Hsz & Hch & Hpr & Hd) Eb Ez Hf Ht Hc. destruct (Hf _ Hj) as [Hj' Ee].
  exists j. rewrite Ee. split; [done |]. split; [done |]. split; [by apply (chain_ext (FAT_TABLE s)) |].
  split; [by apply (present_same s) |]. by rewrite Hc.
Qed.

Lemma holds_in_fat s live nm cs data x : mounted s live -> holds s nm cs data -> x ∈ cs ->
  2 <= x < FAT_ENTRIES s.
Proof. intros Hm (j & _ & _ & Hch & _) Hx. by apply (chain_in_fat _ _ _ _ _ Hm Hch). Qed.

Lemma same_dir_holds s s' live nm cs data :
  mounted s live -> same_dir s s' -> bd_size (dev s') = bd_size (dev s) -> holds s nm cs data ->
  (forall x, x ∈ cs -> FAT_TABLE s' !! Z.to_nat x = FAT_TABLE s !! Z.to_nat x) ->
  chain_data s' cs = chain_data s cs -> holds s' nm cs data.
Proof.
  intros Hm Hd Hz Hh Ht Hc. apply (holds_transfer s); [done | apply Hd | done | | done | done].
  intros k Hk. rewrite (same_dir_find s s' live) by done. split; [done |].
  apply (same_dir_entry s s' live); [done.. |]. by apply (find_name_in_dir s live (name_to_83 nm)).
Qed.

Lemma released_same_dir s s1 live cs : released s s1 live cs -> same_dir s s1.
Proof. intros []. split; [tauto |]. intros. apply rl_disk0. Qed.

Lemma released_holds s s1 live cs0 nm cs data :
  mounted s live -> released s s1 live cs0 -> holds s nm cs data ->
  (forall x, x ∈ cs -> x ∉ cs0) -> holds s1 nm cs data.
Proof.
  intros Hm Hr Hh Hdis. apply (same_dir_holds s s1 live); [done | by apply (released_same_dir s s1 live cs0) | apply Hr | done | |].
  - intros x Hx. apply Hr; [| by apply Hdis]. pose proof (holds_in_fat _ _ _ _ _ _ Hm Hh Hx). lia.
  - destruct Hr as [_ (_ & Eb & _) (_ & _ & Hd) _ _]. unfold chain_data. rewrite Eb. f_equal.
    apply map_ext. intros c. apply sectors_same. intros. apply Hd.
Qed.

Lemma extends_same_dir s s' new : extends s s' new -> same_dir s s'.
Proof.
  intros Hx. split; [apply (ex_vars _ _ _ Hx) |]. intros. apply (ex_low _ _ _ Hx). lia.
Qed.

Lemma extends_holds s s' live0 new nm cs data :
  mounted s live0 -> extends s s' new ->
  (forall y, 0 <= y -> y ∉ new -> FAT_TABLE s' !! Z.to_nat y = FAT_TABLE s !! Z.to_nat y) ->
  holds s nm cs data -> holds s' nm cs data.
Proof.
  intros Hm Hx Ht Hh. destruct Hh as (j & Hj & Hsz & Hch & Hpr & Hd).
  assert (Hh : holds s nm cs data) by by exists j.
  assert (Hn : forall x, x ∈ cs -> x ∉ new).
  { intros x Hin Hnew. destruct (ex_new _ _ _ Hx x Hnew) as [_ Hz].
    destruct (chain_allocated _ _ _ Hch x Hin) as (_ & n & ? & ?). congruence. }
  apply (same_dir_holds s s' live0); [done | by apply (extends_same_dir s s' new) | apply (ex_vars _ _ _ Hx) | done | |].
  - intros x Hin. apply Ht; [| by apply Hn]. pose proof (holds_in_fat _ _ _ _ _ _ Hm Hh Hin). lia.
  - by apply (extends_chain_data _ _ new).
Qed.

(** ** Writing a file *)

Lemma chunk_count s live sz :
  mounted s live -> 0 <= sz ->
  exists k, Z.of_nat k <= sz /\
    match k with
    | O => 0 = sz
    | S k => 0 = Z.of_nat (length (@nil Z) * csize (BPB s)) /\
             Z.of_nat (k * csize (BPB s)) < sz - 0 <= Z.of_nat (S k * csize (BPB s))
    end.
Proof.
  intros Hm Hs. destruct (csize_spec _ _ Hm) as [Hc Hb].
  set (c := Z.of_nat (csize (BPB s))) in *.
  assert (Hdiv : c * ((sz + c - 1) / c) <= sz + c - 1 < c * ((sz + c - 1) / c) + c).
  { pose proof (Z.div_mod (sz + c - 1) c ltac:(lia)). pose proof (Z.mod_pos_bound (sz + c - 1) c ltac:(lia)). lia. }
  set (q := (sz + c - 1) / c) in *. assert (0 <= q) by nia. exists (Z.to_nat q).
  split; [nia |]. destruct (Z.to_nat q) as [| k] eqn:E; [nia |].
  assert (q = Z.of_nat k + 1) by lia. simpl length. split; [lia |]. unfold c in *. nia.
Qed.

(** Entering a written chain in the directory. *)
Lemma commit_file s live nm buf idx e f cs :
  mounted s live -> name_ok nm -> Z.of_nat (length buf) < 2 ^ 31 ->
  entry_ok e -> name e = name_to_83 nm -> skip_attr e = false -> slot_for s (name_to_83 nm) idx ->
  0 <= f < 65536 -> chain (FAT_TABLE s) f cs -> present s cs -> take (length buf) (chain_data s cs) = buf ->
  exists s5 s6,
    write_root_entry idx (Entry (name e) (attr e) (reserved e) (time e) (date e) f (Z.of_nat (length buf))) s
      = (true, s5) /\ fat_flush s5 = (true, s6) /\ mounted s6 live /\ synced s6 /\ BPB s6 = BPB s /\ hp s6 = hp s /\ holds s6 nm cs buf /\
    forall nm2 cs2 data2, holds s nm2 cs2 data2 -> name_to_83 nm2 <> name_to_83 nm -> holds s6 nm2 cs2 data2.
Proof.
  intros Hm Hnm H31 He Hne Hsk Hslot Hf Hch Hpr Hdata.
  set (e' := Entry (name e) (attr e) (reserved e) (time e) (date e) f (Z.of_nat (length buf))).
  assert (He' : entry_ok e')
    by (destruct He; split; cbn [e' name attr reserved time date first_cluster size]; assumption || lia).
  assert (Hfield : field_ok (name e')) by (simpl; rewrite Hne; by apply name_to_83_field).
  destruct (commit_spec s live idx e' Hm He' Hfield Hsk) as
    (s5 & s6 & Ew & Ef & Hm6 & Hsync & Hfind & Hent & Eb6 & Eh6 & Ez6 & Et6 & Hcl & Hothers); [simpl; by rewrite Hne |].
  exists s5, s6. split; [done |]. split; [done |]. split; [done |]. split; [done |]. split; [done |]. split; [done |].
  assert (Hcd : forall cs, (forall c, c ∈ cs -> 2 <= c < FAT_ENTRIES s) -> chain_data s6 cs = chain_data s cs).
  { intros cs' Hcs. unfold chain_data. rewrite Eb6. f_equal. apply map_ext_in.
    intros c Hc%list_elem_of_In. by apply Hcl, Hcs. }
  simpl name in Hfind, Hothers. rewrite Hne in Hfind, Hothers. split.
  - exists idx. rewrite Hent, Et6. split; [done |]. split; [done |]. split; [done |]. split; [by apply (present_same s) |]. rewrite Hcd; [done |].
    intros c Hc. apply (chain_in_fat _ live f cs c Hm Hch Hc).
  - intros nm2 cs2 data2 Hh Hdiff.
    apply (holds_transfer s); [done | done | done | intros k2; by apply Hothers | by rewrite Et6 |].
    apply Hcd. intros c Hc. by apply (holds_in_fat _ live nm2 cs2 data2).
Qed.

(** Why a write may fail before it allocates: no directory entry is free, or the kernel
    heap has no buffer. *)
Definition cannot_start s (nm : list Z) : Prop :=
  (find_name s (name_to_83 nm) = None /\ free_slot s = None) \/ malloc_fails s.

(** The clusters of the medium that are free once the old file's are released do not
    hold the data. *)
Definition no_room s (cs0 buf : list Z) : Prop :=
  ((on_count s cs0 + room (limit s) (FAT_TABLE s)) * csize (BPB s) < length buf)%nat.

(** The table has an entry for a cluster past the end of the medium. *)
Definition overlong s : Prop := exists c, 2 <= c < FAT_ENTRIES s /\ ~ on_disk (BPB s) (bd_size (dev s)) c.

(** The heap areas [live] are still the ones in use. *)
Definition balanced s (live : list (Z * Z)) : Prop := exists l, kh_rep (hp s) l /\ Permutation l live.

(** How a write ends: the file is stored; nothing could be started; or the medium is
    full, after which the device may serve nothing if the driver tried a cluster past
    the end of the medium. *)
Definition write_outcome s live nm cs0 buf (r : Z) s' : Prop :=
  (r = 0 /\ mounted s' live /\ (exists cs, holds s' nm cs buf) /\ synced s') \/
  (r = -1 /\ mounted s' live /\ cannot_start s nm) \/
  (r = -1 /\ no_room s cs0 buf /\ (mounted s' live \/ overlong s)).

Lemma write_file_spec fuel nm buf cs0 s live :
  mounted s live -> name_ok nm -> byte_list buf -> Z.of_nat (length buf) < 2 ^ 31 -> old_chain s nm cs0 ->
  FAT_ENTRIES s + Z.of_nat (length buf) <= Z.of_nat fuel ->
  exists r s', write_file fuel nm buf s = Some (r, s') /\ BPB s' = BPB s /\ balanced s' live /\
    write_outcome s live nm cs0 buf r s' /\
    (forall nm2 cs2 data2, holds s nm2 cs2 data2 -> name_to_83 nm2 <> name_to_83 nm ->
       (forall x, x ∈ cs2 -> x ∉ cs0) -> holds s' nm2 cs2 data2).
Proof.
  intros Hm Hnm Hb H31 Hold Hf. unfold write_file, write_outcome.
  rewrite (proj2 (Z.eqb_neq _ 0) (mt_ready _ _ Hm)).
  destruct (prepare_spec fuel nm s live cs0 Hm Hnm Hold ltac:(lia)) as (idx & e & s1 & -> & Hrel & Hslot).
  cbn [mbind option_bind].
  assert (Hfr1 : forall nm2 cs2 data2, holds s nm2 cs2 data2 -> (forall x, x ∈ cs2 -> x ∉ cs0) -> holds s1 nm2 cs2 data2).
  { intros. by apply (released_holds s s1 live cs0). }
  destruct (rl_vars _ _ _ _ Hrel) as (Eh & Eb & En). pose proof (rl_mounted _ _ _ _ Hrel) as Hm1.
  destruct Hslot as [(-> & Hnone & Hfull) | (Hslot & He & Hne & Hsk)].
  { exists (-1), s1. split; [done |]. split; [done |]. split; [apply Hm1 |]. split; [| auto].
    right. left. split; [done |]. split; [done |]. by left. }
  pose proof (slot_for_in_dir _ _ _ _ Hm Hslot) as [Hidx _].
  rewrite (proj2 (Z.ltb_ge idx 0)) by lia.
  destruct (cluster_buffer s1 live Hm1) as (p & h & Ek & Hp0 & Hp1). rewrite Ek. cbn [mbind option_bind].
  destruct (Z.eqb_spec p 0) as [-> | Hpne].
  { assert (Hm2 : mounted (set_hp h s1) live) by (eapply set_hp_mounted; eauto).
    eexists (-1), _. split; [done |]. split; [done |]. split; [apply Hm2 |].
    split; [| intros nm2 cs2 data2 Hh _ Hd; exact (Hfr1 nm2 cs2 data2 Hh Hd)].
    right. left. split; [done |]. split; [done |]. right. exists h. by rewrite <- Eh, <- Eb. }
  destruct (Hp1 Hpne) as ((live2 & Hl2) & h' & Efr & Hrep).
  assert (Hm2 : mounted (set_hp h s1) live2) by (apply (set_hp_mounted s1 live); eauto).
  assert (Ez1 : bd_size (dev s1) = bd_size (dev s)) by apply (rl_disk _ _ _ _ Hrel).
  destruct (chunk_count (set_hp h s1) live2 (Z.of_nat (length buf)) Hm2 ltac:(lia)) as (k & Hkl & Hk).
  destruct (write_file_loop_spec buf _ live2 Hb eq_refl H31 k fuel 0 0 0 [] (set_hp h s1) Hm2)
    as (r & s3 & new & -> & Hx & Hoth & Hms & Hr).
  { split; [apply chain_end; lia | done]. } { by intros c Hc%elem_of_nil. } { lia. } { exact Hk. } { done. }
  { destruct (mt_layout _ _ Hm); lia. }
  cbn [mbind option_bind]. pose proof (ex_vars _ _ _ Hx) as (Eh3 & Eb3 & En3 & _ & Ez3).
  cbn [BPB set_hp dev] in Eb3, Ez3, Hms. rewrite Eh3. cbn [hp set_hp]. rewrite Efr. cbn [mbind option_bind].
  assert (Hoth' : forall y, 0 <= y -> y ∉ new ->
    FAT_TABLE s3 !! Z.to_nat y = FAT_TABLE (set_hp h s1) !! Z.to_nat y) by (intros; apply Hoth; set_solver).
  assert (Hfr3 : forall nm2 cs2 data2, holds s nm2 cs2 data2 -> (forall x, x ∈ cs2 -> x ∉ cs0) ->
    holds (set_hp h' s3) nm2 cs2 data2).
  { intros nm2 cs2 data2 Hh Hd. pose proof (Hfr1 _ _ _ Hh Hd) as Hh1.
    exact (extends_holds (set_hp h s1) s3 live2 new nm2 cs2 data2 Hm2 Hx Hoth' Hh1). }
  destruct r as [f |]; cycle 1.
  { eexists (-1), _. split; [done |]. split; [cbn; congruence |]. split; [done |]. split; [| auto].
    right. right. split; [done |]. split.
    - pose proof (rl_free _ _ _ _ Hrel) as Hfc.
      change (limit (set_hp h s1)) with (vol_end (BPB s1) (bd_size (dev s1))) in Hr. rewrite Eb, Ez1 in Hr.
      fold (limit s) in Hr. cbn [FAT_TABLE set_hp] in Hr. destruct k as [| k]; [lia |].
      destruct Hk as (_ & Hk & _). cbn [BPB set_hp] in Hk. rewrite Eb in Hk. unfold no_room.
      assert ((on_count s cs0 + room (limit s) (FAT_TABLE s)) * csize (BPB s) <= k * csize (BPB s))%nat
        by (apply Nat.mul_le_mono_r; rewrite <- Hfc; lia).
      lia.
    - destruct Hms as [Hm3 | (c & Hc & Hoff)]; [left; by apply (set_hp_mounted s3 live2) | right].
      rewrite Eb, Ez1 in Hoff. exists c. split; [| done].
      destruct (ex_new _ _ _ Hx c Hc) as [Hcr _]. cbn in Hcr. lia. }
  destruct Hr as (Hm3 & Hch & Hpr & Hlen & Hdata & Hfirst). cbn [app] in Hch, Hdata.
  pose proof (set_hp_mounted s3 live2 live h' Hm3 Hrep) as Hm4.
  assert (Hsd : same_dir s (set_hp h' s3)).
  { pose proof (released_same_dir _ _ _ _ Hrel) as [Ea Ha].
    pose proof (extends_same_dir _ _ _ Hx) as [Ec Hc]. split; [by rewrite <- Eb |].
    intros x Hxr. rewrite <- Ha by done. apply (Hc x). cbn. by rewrite Eb. }
  assert (Hfr : 0 <= f < 65536).
  { destruct new as [| c new]; [rewrite Hfirst by done; lia | inversion Hch; lia]. }
  rewrite Nat2Z.id in Hdata.
  destruct (commit_file (set_hp h' s3) live nm buf idx e f new)
    as (s5 & s6 & Ew & Ef & Hm6 & Hsync & Eb6 & Eh6 & Hholds & Hothers);
    [done.. | by apply (same_dir_slot s _ live) | done | done | | done |].
  { apply (present_same (set_hp h s1)); done. }
  rewrite Ew. cbn [negb]. rewrite Ef. exists 0, s6. split; [done |].
  split; [rewrite Eb6; cbn; congruence |]. split; [apply Hm6 |]. split; [left; eauto |].
  intros nm2 cs2 data2 Hh Hdiff Hdis. apply Hothers; [by apply Hfr3 | done].
Qed.

(** ** Mounting *)

(** The layout that the boot sector of the device gives. *)
Definition boot_layout s : Bpb := derive_bpb (parse_bpb (bd_data (dev s) 0) (BPB s)).

(** [init] mounts a volume whose boot sector gives a layout of the device, with the
    first copy of the table in the cache; it fails only for want of memory. *)
Lemma init_mounts s live :
  bd_ready (dev s) -> balanced s live -> bytes_per_sector (boot_layout s) = 512 ->
  layout (boot_layout s) (fat_size_16 (boot_layout s) * 256) (bd_size (dev s)) ->
  exists r s', init s = Some (r, s') /\ BPB s' = boot_layout s /\
    (forall x, bd_data (dev s') x = bd_data (dev s) x) /\
    ((r = 0 /\ (exists a, mounted s' (a :: live)) /\
      fat_raw (FAT_TABLE s') =
        sectors (Z.to_nat (fat_size_16 (BPB s'))) (first_fat_sector (BPB s')) (dev s)) \/
     (r = -1 /\ balanced s' live /\ exists h, kh_malloc (fat_size_16 (BPB s') * 512) (hp s) = Some (0, h))).
Proof.
  intros Hrd (l & Hl & Hlp) Hbps Hly. destruct (Hly) as [He Hfs Hsp Hcz Hnf Hrc Hff Hr Hda Hsz Hdv].
  assert (0 <= (root_entry_count (boot_layout s) * 32 + 511) / 512) by mod_lia.
  assert (fat_size_16 (boot_layout s) <= num_fats (boot_layout s) * fat_size_16 (boot_layout s)) by nia.
  unfold init. cbn [dev set_ready]. destruct (bd_read_law 0 (dev s) Hrd) as (d1 & -> & R1 & E1 & F1); [lia |].
  cbn [BPB set_ready set_dev set_buf SECTOR_BUF]. set (b0 := parse_bpb (bd_data (dev s) 0) (BPB s)).
  change (bytes_per_sector b0) with (bytes_per_sector (boot_layout s)).
  change (fat_size_16 b0) with (fat_size_16 (boot_layout s)). change (num_fats b0) with (num_fats (boot_layout s)).
  rewrite Hbps, (proj2 (Z.eqb_neq (fat_size_16 (boot_layout s)) 0)), (proj2 (Z.eqb_neq (num_fats (boot_layout s)) 0)) by lia.
  change (negb (512 =? 512)) with false. cbn iota. cbn [orb].
  fold (boot_layout s). change (derive_bpb b0) with (boot_layout s).
  cbn [hp set_bpb set_buf set_dev set_ready].
  destruct (kh_malloc_law (fat_size_16 (boot_layout s) * 512) (hp s) l Hl ltac:(lia)) as (p & h & Ek & Hcase).
  rewrite Ek. cbn [mbind option_bind].
  destruct (Z.eqb_spec p 0) as [-> | Hp0].
  { destruct Hcase as [[_ Hrep] | [? _]]; [| done]. eexists _, _. split; [done |]. split; [done |]. split; [exact F1 |].
    right. split; [done |]. split; [by exists l | by exists h]. }
  destruct Hcase as [[? _] | (_ & sz & l' & _ & Hrep & Hpm & _)]; [done |].
  cbn [dev set_table set_hp set_bpb set_buf set_dev set_ready].
  destruct (read_loop_spec (Z.to_nat (fat_size_16 (boot_layout s))) (first_fat_sector (boot_layout s)) [] d1 R1)
    as (d2 & -> & Hd2); [lia.. |].
  set (raw := sectors _ _ d1). cbn [app].
  assert (Eraw : raw = sectors (Z.to_nat (fat_size_16 (boot_layout s))) (first_fat_sector (boot_layout s)) (dev s))
    by (apply sectors_same; intros; apply F1).
  destruct (words_raw (Z.to_nat (fat_size_16 (boot_layout s)) * 256) raw) as (Hw1 & Hw2 & Hw3).
  { unfold raw. rewrite length_sectors. lia. } { apply sectors_bytes. }
  eexists _, _. split; [done |]. split; [done |]. split; [intros x; destruct Hd2 as (_ & _ & F2); cbn; by rewrite F2 |].
  left. split; [done |]. split; [| transitivity raw; [exact Hw1 | exact Eraw]].
  exists (p, sz). destruct Hd2 as (R2 & E2 & _). split; cbn [FAT16_READY dev BPB FAT_ENTRIES FAT_TABLE hp puts set_ready set_fat set_table set_dev set_hp set_bpb set_buf].
  - done.
  - by apply R2.
  - rewrite E2, E1. replace (fat_size_16 (boot_layout s) * 512 / 2) with (fat_size_16 (boot_layout s) * 256) by mod_lia.
    exact Hly.
  - rewrite Hw2. mod_lia.
  - exact Hw3.
  - exists l'. split; [done |]. by rewrite Hpm, Hlp.
Qed.

(** ** The properties *)

(** [read_file] of a file on a mounted volume terminates and returns its
    contents, up to the size of the caller's buffer, unless the kernel heap has
    no cluster buffer; nothing on the volume changes and no heap area leaks. *)
Theorem read_file_correct fuel nm max_size cs data s live :
  mounted s live -> holds s nm cs data -> Z.of_nat (length data) < 2 ^ 31 -> 0 <= max_size ->
  FAT_ENTRIES s <= Z.of_nat fuel ->
  exists r out s', read_file fuel nm max_size s = Some (r, out, s') /\ mounted s' live /\ unchanged s s' /\
    ((r = Z.of_nat (length out) /\ out = take (Z.to_nat max_size) data) \/
     (r = -1 /\ out = [] /\ malloc_fails s)).
Proof. apply read_file_spec. Qed.



End files.

(** ** Witnesses *)

(** The volume the repository's Makefile makes with [mkfs.fat -F 16] on a disk of 32 MB:
    2048-byte clusters, two tables of 64 sectors.  Its 16384 entries are 39 more than
    the medium has clusters for. *)
Definition mkfs_bpb : Bpb := {|
  bytes_per_sector := 512; sectors_per_cluster := 4; reserved_sectors := 4; num_fats := 2;
  root_entry_count := 512; total_sectors_16 := 0; total_sectors_32 := 65536; fat_size_16 := 64;
  first_fat_sector := 4; first_root_sector := 132; root_dir_sectors := 32; first_data_sector := 164;
  cluster_size := 2048 |}.
Example mkfs_layout : layout mkfs_bpb 16384 65536 /\ vol_end mkfs_bpb 65536 = 16345.
Proof. split; [split; vm_compute; split_and?; (done || discriminate) | reflexivity]. Qed.

(** A volume of 512-byte clusters on a disk of 200 sectors: one table of one sector,
    whose last entries are past the end of the disk, and 16 directory entries. *)
Definition demo_bpb : Bpb := {|
  bytes_per_sector := 512; sectors_per_cluster := 1; reserved_sectors := 1; num_fats := 1;
  root_entry_count := 16; total_sectors_16 := 200; total_sectors_32 := 0; fat_size_16 := 1;
  first_fat_sector := 1; first_root_sector := 2; root_dir_sectors := 1; first_data_sector := 3;
  cluster_size := 512 |}.
Definition demo_fat : fat ramdisk (heap Pmm.pmm) :=
  Fat {| rd_size := 200; rd_data := ∅ |} demo_heap demo_bpb 0x500010 (0xFFF8 :: 0xFFFF :: replicate 254 0)
    256 1 [] [].
Definition demo_live : list (Z * Z) := [(0x500060, 32)].

Lemma demo_mounted : mounted demo_fat demo_live.
Proof.
  split; [done | done | by split | done | |].
  - cbn [FAT_TABLE demo_fat]. constructor; [lia |]. constructor; [lia |]. apply Forall_replicate. lia.
  - exists demo_live. split; [| done]. split; [apply demo_heap_shielded |]. exists demo_blocks. split; [apply demo_heap_rep | done].
Qed.

(** The same on a disk that ends where the clusters begin: the driver takes an entry
    for a cluster that is not there, and the write fails. *)
Example demo_off_disk :
  fst <$> write_file 1000 [65; 66] [1; 2; 3] (set_dev {| rd_size := 3; rd_data := ∅ |} demo_fat) = Some (-1).
Proof. vm_compute. reflexivity. Qed.

Lemma demo_name_ok c1 c2 : (65 <= c1 <= 90) -> (65 <= c2 <= 90) -> name_ok [c1; c2].
Proof. intros. split; [| | simpl; congruence || (intros E; injection E; lia)]; repeat constructor; unfold is_byte; lia. Qed.

Lemma demo_no_file : old_chain demo_fat [65; 66] [].
Proof. unfold old_chain. assert (E : find_name demo_fat (name_to_83 [65; 66]) = None) by by vm_compute. by rewrite E. Qed.

Lemma demo_bytes : byte_list [1; 2; 3].
Proof. repeat constructor; unfold is_byte; lia. Qed.

Lemma demo_ab : name_ok [65; 66].
Proof. apply demo_name_ok; lia. Qed.
Lemma demo_small : Z.of_nat (length [1; 2; 3]) < 2 ^ 31.
Proof. reflexivity. Qed.
Lemma demo_room : FAT_ENTRIES demo_fat + Z.of_nat (length [1; 2; 3]) <= Z.of_nat 1000.
Proof. vm_compute. discriminate. Qed.

(** The volume with a file AB on it. *)
Definition demo_fat' : fat ramdisk (heap Pmm.pmm) :=
  match write_file 1000 [65; 66] [1; 2; 3] demo_fat with Some (_, s) => s | None => demo_fat end.

Lemma demo_write s' :
  write_file 1000 [65; 66] [1; 2; 3] demo_fat = Some (0, s') ->
  mounted s' demo_live /\ exists cs, holds s' [65; 66] cs [1; 2; 3].
Proof.
  intros E.
  destruct (write_file_spec 1000 [65; 66] [1; 2; 3] [] demo_fat demo_live demo_mounted)
    as (r & s2 & E' & _ & _ & Hr & _);
    [exact demo_ab | exact demo_bytes | exact demo_small | exact demo_no_file | exact demo_room |].
  rewrite E in E'. injection E' as <- <-.
  destruct Hr as [(_ & Hm & Hh & _) | [(Hr & _) | (Hr & _)]]; [by split | discriminate Hr..].
Qed.

Lemma demo_written : write_file 1000 [65; 66] [1; 2; 3] demo_fat = Some (0, demo_fat').
Proof.
  assert (E : fst <$> write_file 1000 [65; 66] [1; 2; 3] demo_fat = Some 0) by (vm_compute; reflexivity).
  unfold demo_fat'. destruct (write_file 1000 [65; 66] [1; 2; 3] demo_fat) as [[r s] |]; [| discriminate E].
  cbn in E. injection E as ->. reflexivity.
Qed.

Lemma demo_entries : FAT_ENTRIES demo_fat' <= Z.of_nat 1000.
Proof. vm_compute; discriminate. Qed.

Lemma demo_malloc : ~ malloc_fails demo_fat'.
Proof.
  intros [h Hf].
  assert (E : (p ← kh_malloc (cluster_size (BPB demo_fat')) (hp demo_fat'); Some (p.1 =? 0)) = Some false)
    by (vm_compute; reflexivity).
  rewrite Hf in E. discriminate E.
Qed.

Lemma read_file_correct_witness :
  exists s', read_file 1000 [65; 66] 2 demo_fat' = Some (2, [1; 2], s').
Proof.
  destruct (demo_write _ demo_written) as (Hm & cs & Hh).
  destruct (read_file_correct 1000 [65; 66] 2 cs [1; 2; 3] demo_fat' demo_live Hm Hh)
    as (r & out & s' & E & _ & _ & [(Hr & Ho) | (_ & _ & Hf)]);
    [exact demo_small | lia | exact demo_entries | |].
  - simpl in Ho. subst. exists s'. exact E.
  - exfalso. exact (demo_malloc Hf).
Defined.



