(* ===== verification/Lex.v ===== *)
(** The lexer of the built-in compiler ([src/src/rc/lex.rs]).

    [SRC] is the source text, the [SRC_LEN] bytes at the pointer [init] is
    given, and [POS] the index of the next character.  Loops over the text take
    fuel; [lex_fuel] is enough for every one of them.  What is printed on the
    console is the list [out]. *)
From Stdlib Require Import String Ascii.
From S2P Require Import Prelude StringRs.

(** ** Tokens *)

Inductive tok_type :=
  TOK_EOF | TOK_NUM | TOK_STR | TOK_IDENT
| TOK_I32 | TOK_U8 | TOK_VOID | TOK_IF | TOK_ELSE | TOK_WHILE | TOK_FOR | TOK_LOOP | TOK_RETURN
| TOK_BREAK | TOK_CONTINUE | TOK_STRUCT | TOK_ENUM | TOK_MATCH | TOK_UNDERSCORE_PAT | TOK_STATIC
| TOK_CONST | TOK_TYPE | TOK_U32 | TOK_USIZE | TOK_BOOL | TOK_ISIZE
| TOK_PLUS | TOK_MINUS | TOK_STAR | TOK_SLASH | TOK_PERCENT | TOK_AMP | TOK_PIPE | TOK_CARET
| TOK_BANG | TOK_ASSIGN | TOK_LT | TOK_GT
| TOK_EQ | TOK_NEQ | TOK_LTE | TOK_GTE | TOK_AND | TOK_OR | TOK_LSHIFT | TOK_RSHIFT
| TOK_PLUSEQ | TOK_MINUSEQ | TOK_STAREQ | TOK_SLASHEQ
| TOK_LPAREN | TOK_RPAREN | TOK_LBRACE | TOK_RBRACE | TOK_LBRACKET | TOK_RBRACKET | TOK_SEMI
| TOK_COMMA | TOK_COLON | TOK_DOT | TOK_ARROW
| TOK_FN | TOK_LET | TOK_MUT | TOK_TRUE | TOK_FALSE | TOK_AS | TOK_FAT_ARROW | TOK_DOUBLE_DOT
| TOK_IN | TOK_UNSAFE.

#[export] Instance tok_type_eq_dec : EqDecision tok_type.
Proof. solve_decision. Defined.

Record Token := Tok { tt : tok_type; num_val : Z; str_val : list Z; line : Z }.

Record lexer := Lexer {
  SRC : list Z; POS : nat; CUR_LINE : Z; CUR_TOK : Token; LEX_ERROR_FLAG : Z; out : list Z }.

Definition SRC_LEN (s : lexer) : nat := List.length (SRC s).

Definition set_pos (p : nat) (l : Z) (s : lexer) : lexer :=
  Lexer (SRC s) p l (CUR_TOK s) (LEX_ERROR_FLAG s) (out s).
Definition set_tok (t : Token) (s : lexer) : lexer :=
  Lexer (SRC s) (POS s) (CUR_LINE s) t (LEX_ERROR_FLAG s) (out s).
Definition set_type (ty : tok_type) (s : lexer) : lexer :=
  let t := CUR_TOK s in set_tok (Tok ty (num_val t) (str_val t) (line t)) s.
Definition set_num (n : Z) (s : lexer) : lexer :=
  let t := CUR_TOK s in set_tok (Tok (tt t) n (str_val t) (line t)) s.
(** [CUR_TOK.str_val[i] = c], with [i] at most 127. *)
Definition set_char (i : nat) (c : Z) (s : lexer) : lexer :=
  let t := CUR_TOK s in set_tok (Tok (tt t) (num_val t) (<[i := c]> (str_val t)) (line t)) s.
Definition set_line (n : Z) (s : lexer) : lexer :=
  let t := CUR_TOK s in set_tok (Tok (tt t) (num_val t) (str_val t) n) s.
Definition print (l : list Z) (s : lexer) : lexer :=
  Lexer (SRC s) (POS s) (CUR_LINE s) (CUR_TOK s) (LEX_ERROR_FLAG s) (out s ++ l).
Definition set_error (s : lexer) : lexer :=
  Lexer (SRC s) (POS s) (CUR_LINE s) (CUR_TOK s) 1 (out s).

(** ** Characters *)

Definition peek_char (s : lexer) : Z :=
  if (SRC_LEN s <=? POS s)%nat then 0 else nth (POS s) (SRC s) 0.

(** The character read, and the state after it. *)
Definition next_char (s : lexer) : Z * lexer :=
  if (SRC_LEN s <=? POS s)%nat then (0, s) else
  let c := nth (POS s) (SRC s) 0 in
  (c, set_pos (S (POS s)) (if c =? 10 then i32 (CUR_LINE s + 1) else CUR_LINE s) s).

Definition skip (s : lexer) : lexer := (next_char s).2.

(** [POS + 1 < SRC_LEN && SRC[POS + 1] == b]. *)
Definition followed_by (b : Z) (s : lexer) : bool :=
  (S (POS s) <? SRC_LEN s)%nat && (nth (S (POS s)) (SRC s) 0 =? b).

(** The inside of a block comment; the flag says that its end was found. *)
Fixpoint block_comment (fuel : nat) (s : lexer) : option (bool * lexer) :=
  match fuel with
  | O => None
  | S fuel =>
      if (SRC_LEN s <=? POS s)%nat then Some (false, s) else
      if (peek_char s =? 42) && followed_by 47 s then Some (true, skip (skip s))
      else block_comment fuel (skip s)
  end.

Fixpoint line_comment (fuel : nat) (s : lexer) : option lexer :=
  match fuel with
  | O => None
  | S fuel =>
      if (POS s <? SRC_LEN s)%nat && negb (peek_char s =? 10) then line_comment fuel (skip s)
      else Some s
  end.

Fixpoint skip_ws (fuel : nat) (s : lexer) : option lexer :=
  match fuel with
  | O => None
  | S fuel =>
      let c := peek_char s in
      if isspace c then skip_ws fuel (skip s) else
      if (c =? 47) && followed_by 42 s then
        '(closed, s) ← block_comment fuel (skip (skip s));
        if (closed : bool) then skip_ws fuel s else Some s
      else
      if (c =? 47) && followed_by 47 s then
        s ← line_comment fuel (skip (skip s)); skip_ws fuel s
      else Some s
  end.

(** ** Diagnostics *)

Definition had_error (s : lexer) : bool := negb (LEX_ERROR_FLAG s =? 0).

(** The digits of a positive [val], last one first ([buf[0..i]]). *)
Fixpoint int_digits (fuel : nat) (val : Z) : list Z :=
  match fuel with
  | O => []
  | S fuel => if val >? 0 then 48 + val mod 10 :: int_digits fuel (val / 10) else []
  end.

Definition print_int (n : Z) : list Z :=
  if n =? 0 then [48] else rev (int_digits 12 n).

Definition lex_error (msg : list Z) (s : lexer) : lexer :=
  print (str "rc: lex error line " ++ print_int (CUR_LINE s) ++ str ": " ++ msg ++ [10]) (set_error s).

(** ** Keywords *)

Definition KEYWORDS : list (list Z * tok_type) := [
  (str "fn", TOK_FN); (str "let", TOK_LET); (str "mut", TOK_MUT); (str "if", TOK_IF);
  (str "else", TOK_ELSE); (str "while", TOK_WHILE); (str "for", TOK_FOR); (str "loop", TOK_LOOP);
  (str "return", TOK_RETURN); (str "break", TOK_BREAK); (str "continue", TOK_CONTINUE);
  (str "struct", TOK_STRUCT); (str "enum", TOK_ENUM); (str "match", TOK_MATCH);
  (str "static", TOK_STATIC); (str "const", TOK_CONST); (str "type", TOK_TYPE);
  (str "unsafe", TOK_UNSAFE); (str "in", TOK_IN); (str "as", TOK_AS); (str "i32", TOK_I32);
  (str "u8", TOK_U8); (str "u32", TOK_U32); (str "bool", TOK_BOOL); (str "usize", TOK_USIZE);
  (str "isize", TOK_ISIZE); (str "true", TOK_TRUE); (str "false", TOK_FALSE);
  (str "void", TOK_VOID); (str "_", TOK_UNDERSCORE_PAT) ].

Fixpoint find_keyword (kws : list (list Z * tok_type)) (w : list Z) : option tok_type :=
  match kws with
  | [] => None
  | (word, ty) :: kws => if decide (w = word) then Some ty else find_keyword kws w
  end.

(** ** Scanning one token *)

Definition blank_token : Token := Tok TOK_EOF 0 (replicate 128 0) 0.
Definition init (source : list Z) (o : list Z) : lexer := Lexer source 0 1 blank_token 0 o.

Definition lex_fuel (s : lexer) : nat := S (S (SRC_LEN s - POS s)).

Definition unescape_char (c : Z) : Z :=
  if c =? 110 then 10 else if c =? 116 then 9 else if c =? 92 then 92 else
  if c =? 39 then 39 else if c =? 48 then 0 else c.

(** A character literal; the current character is the opening quote. *)
Definition char_literal (s : lexer) : lexer :=
  let s := skip s in
  let '(ch, s) := next_char s in
  let '(val, s) :=
    if ch =? 92 then let '(ch, s) := next_char s in (unescape_char ch, s) else (ch, s) in
  let s := if peek_char s =? 39 then skip s else s in
  set_num val (set_type TOK_NUM s).

Definition hex_digit (h : Z) : option Z :=
  if (48 <=? h) && (h <=? 57) then Some (h - 48) else
  if (97 <=? h) && (h <=? 102) then Some (h - 97 + 10) else
  if (65 <=? h) && (h <=? 70) then Some (h - 65 + 10) else None.

Fixpoint hex_loop (fuel : nat) (val : Z) (s : lexer) : option (Z * lexer) :=
  match fuel with
  | O => None
  | S fuel =>
      if (POS s <? SRC_LEN s)%nat then
        match hex_digit (peek_char s) with
        | Some d => hex_loop fuel (i32 (i32 (val * 16) + d)) (skip s)
        | None => Some (val, s)
        end
      else Some (val, s)
  end.

Fixpoint dec_loop (fuel : nat) (val : Z) (s : lexer) : option (Z * lexer) :=
  match fuel with
  | O => None
  | S fuel =>
      if (POS s <? SRC_LEN s)%nat && isdigit (peek_char s) then
        dec_loop fuel (i32 (i32 (val * 10) + (peek_char s - 48))) (skip s)
      else Some (val, s)
  end.

Definition number (s : lexer) : option lexer :=
  '(val, s) ←
    (if (peek_char s =? 48) && (followed_by 120 s || followed_by 88 s)
     then hex_loop (lex_fuel s) 0 (skip (skip s)) else dec_loop (lex_fuel s) 0 s);
  Some (set_num val (set_type TOK_NUM s)).

Definition ident_char (c : Z) : bool := isalnum c || (c =? 95).

(** The loop collects up to 127 characters; [si] is how many. *)
Fixpoint ident_loop (fuel si : nat) (s : lexer) : option (nat * lexer) :=
  match fuel with
  | O => None
  | S fuel =>
      if (POS s <? SRC_LEN s)%nat && ident_char (peek_char s) then
        if (si <? 127)%nat then
          let '(c, s) := next_char s in ident_loop fuel (S si) (set_char si c s)
        else ident_loop fuel si (skip s)
      else Some (si, s)
  end.

Definition identifier (s : lexer) : option lexer :=
  '(si, s) ← ident_loop (lex_fuel s) 0 s;
  let s := set_char si 0 s in
  match find_keyword KEYWORDS (cstr (str_val (CUR_TOK s))) with
  | Some ty => Some (set_type ty s)
  | None => Some (set_type TOK_IDENT s)
  end.

Definition unescape_str (c : Z) : Z :=
  if c =? 110 then 10 else if c =? 116 then 9 else if c =? 92 then 92 else
  if c =? 34 then 34 else if c =? 48 then 0 else c.

Fixpoint string_loop (fuel si : nat) (s : lexer) : option (nat * lexer) :=
  match fuel with
  | O => None
  | S fuel =>
      if (POS s <? SRC_LEN s)%nat && negb (peek_char s =? 34) then
        let '(sc, s) := next_char s in
        let '(sc, s) := if sc =? 92 then let '(sc, s) := next_char s in (unescape_str sc, s) else (sc, s) in
        if (si <? 127)%nat then string_loop fuel (S si) (set_char si sc s) else string_loop fuel si s
      else Some (si, s)
  end.

Definition string_literal (s : lexer) : option lexer :=
  '(si, s) ← string_loop (lex_fuel s) 0 (skip s);
  let s := set_char si 0 s in
  let s := if peek_char s =? 34 then skip s else s in
  Some (set_type TOK_STR s).

(** [if peek_char() == b { next_char(); two } else { one }]. *)
Definition either (b : Z) (two one : tok_type) (s : lexer) : lexer :=
  if peek_char s =? b then set_type two (skip s) else set_type one s.

(** An operator that starts with [c], which has been consumed. *)
Definition operator (c : Z) (s : lexer) : lexer :=
  if c =? 43 then either 61 TOK_PLUSEQ TOK_PLUS s else
  if c =? 45 then
    (if peek_char s =? 62 then set_type TOK_ARROW (skip s) else either 61 TOK_MINUSEQ TOK_MINUS s) else
  if c =? 42 then either 61 TOK_STAREQ TOK_STAR s else
  if c =? 47 then either 61 TOK_SLASHEQ TOK_SLASH s else
  if c =? 37 then set_type TOK_PERCENT s else
  if c =? 38 then either 38 TOK_AND TOK_AMP s else
  if c =? 124 then either 124 TOK_OR TOK_PIPE s else
  if c =? 94 then set_type TOK_CARET s else
  if c =? 33 then either 61 TOK_NEQ TOK_BANG s else
  if c =? 61 then
    (if peek_char s =? 62 then set_type TOK_FAT_ARROW (skip s) else either 61 TOK_EQ TOK_ASSIGN s) else
  if c =? 60 then
    (if peek_char s =? 61 then set_type TOK_LTE (skip s) else either 60 TOK_LSHIFT TOK_LT s) else
  if c =? 62 then
    (if peek_char s =? 61 then set_type TOK_GTE (skip s) else either 62 TOK_RSHIFT TOK_GT s) else
  if c =? 40 then set_type TOK_LPAREN s else
  if c =? 41 then set_type TOK_RPAREN s else
  if c =? 123 then set_type TOK_LBRACE s else
  if c =? 125 then set_type TOK_RBRACE s else
  if c =? 91 then set_type TOK_LBRACKET s else
  if c =? 93 then set_type TOK_RBRACKET s else
  if c =? 59 then set_type TOK_SEMI s else
  if c =? 44 then set_type TOK_COMMA s else
  if c =? 58 then set_type TOK_COLON s else
  if c =? 46 then either 46 TOK_DOUBLE_DOT TOK_DOT s else
  set_type TOK_EOF (lex_error (str "unexpected character") s).

Definition next (s : lexer) : option lexer :=
  s ← skip_ws (lex_fuel s) s;
  let s := set_char 0 0 (set_num 0 (set_line (CUR_LINE s) s)) in
  if (SRC_LEN s <=? POS s)%nat then Some (set_type TOK_EOF s) else
  let c := peek_char s in
  if c =? 39 then Some (char_literal s) else
  if isdigit c then number s else
  if isalpha c || (c =? 95) then identifier s else
  if c =? 34 then string_literal s else
  Some (operator c (skip s)).

(** ** The parser's interface *)

Definition peek (s : lexer) : Token := CUR_TOK s.

Definition tok_name (t : tok_type) : list Z :=
  match t with
  | TOK_SEMI => str "';'" | TOK_COMMA => str "','" | TOK_LPAREN => str "'('" | TOK_RPAREN => str "')'"
  | TOK_LBRACE => str "'{'" | TOK_RBRACE => str "'}'" | TOK_LBRACKET => str "'['"
  | TOK_RBRACKET => str "']'" | TOK_IDENT => str "identifier" | TOK_NUM => str "number"
  | TOK_STR => str "string" | TOK_ASSIGN => str "'='" | TOK_EOF => str "end of file"
  | _ => str "token"
  end.

Definition expect (expected_type : tok_type) (s : lexer) : option lexer :=
  let s :=
    if decide (tt (CUR_TOK s) = expected_type) then s else
    set_error (print (str "rc: line " ++ print_int (CUR_LINE s) ++ str ": expected " ++
      tok_name expected_type ++ str ", got " ++ tok_name (tt (CUR_TOK s)) ++ [10]) s) in
  next s.

(** ** The unread text *)

Definition unread (s : lexer) : list Z := drop (POS s) (SRC s).

Lemma length_unread s : length (unread s) = (SRC_LEN s - POS s)%nat.
Proof. apply length_drop. Qed.

Lemma unread_end s : (SRC_LEN s <=? POS s)%nat = match unread s with [] => true | _ => false end.
Proof.
  pose proof (length_unread s) as Hl. destruct (Nat.leb_spec (SRC_LEN s) (POS s)); destruct (unread s);
    simpl in Hl; done || lia.
Qed.

Lemma unread_more s : (POS s <? SRC_LEN s)%nat = match unread s with [] => false | _ => true end.
Proof. rewrite Nat.ltb_antisym, unread_end. by destruct (unread s). Qed.

Lemma unread_nth s i : nth (i + POS s) (SRC s) 0 = nth i (unread s) 0.
Proof. unfold unread. rewrite !nth_lookup, lookup_drop. do 2 f_equal. lia. Qed.

Lemma peek_unread s : peek_char s = hd 0 (unread s).
Proof.
  unfold peek_char. rewrite unread_end. pose proof (unread_nth s 0) as E. simpl in E. rewrite E.
  by destruct (unread s).
Qed.

Lemma next_char_eq s : next_char s = (peek_char s, skip s).
Proof. unfold skip, peek_char, next_char. by case_if. Qed.

Lemma SRC_skip s : SRC (skip s) = SRC s.
Proof. unfold skip, next_char. by case_if. Qed.

Lemma unread_skip s : unread (skip s) = tl (unread s).
Proof.
  unfold skip, next_char. case_if.
  - rewrite unread_end in E. by destruct (unread s) eqn:E'.
  - unfold unread. simpl.
    replace (S (POS s)) with (POS s + 1)%nat by lia. rewrite <- drop_drop.
    by destruct (drop (POS s) (SRC s)).
Qed.

Lemma followed_unread b s :
  followed_by b s = match unread s with _ :: x :: _ => x =? b | _ => false end.
Proof.
  unfold followed_by. pose proof (unread_nth s 1) as E. simpl in E. rewrite E. clear E.
  pose proof (length_unread s) as Hl.
  destruct (Nat.ltb_spec (S (POS s)) (SRC_LEN s)), (unread s) as [| c [| x l]]; simpl in *; done || lia.
Qed.

Lemma CUR_TOK_skip s : CUR_TOK (skip s) = CUR_TOK s.
Proof. unfold skip, next_char. by case_if. Qed.
Lemma flag_skip s : LEX_ERROR_FLAG (skip s) = LEX_ERROR_FLAG s.
Proof. unfold skip, next_char. by case_if. Qed.

(** ** Progress *)

(** The state between two operations of the lexer. *)
Record wf (s : lexer) : Prop := {
  wf_pos : (POS s <= SRC_LEN s)%nat; wf_str : length (str_val (CUR_TOK s)) = 128%nat;
  wf_nul : str_val (CUR_TOK s) !! 127%nat = Some 0 }.

(** [s'] has read at least [n] characters more than [s]. *)
Definition reads (n : nat) (s s' : lexer) : Prop :=
  SRC s' = SRC s /\ wf s' /\ (length (unread s') + n <= length (unread s))%nat.

Lemma reads_refl s : wf s -> reads 0 s s.
Proof. split; [done |]. split; [done | lia]. Qed.

Lemma reads_trans n n' s s1 s' : reads n s s1 -> reads n' s1 s' -> reads (n + n') s s'.
Proof. intros (E1 & W1 & H1) (E2 & W2 & H2). split; [congruence |]. split; [done | lia]. Qed.

Lemma reads_le n n' s s' : (n' <= n)%nat -> reads n s s' -> reads n' s s'.
Proof. intros H (E & W & L). split; [done |]. split; [done | lia]. Qed.

Lemma wf_skip s : wf s -> wf (skip s).
Proof.
  intros [Hp Hs Hn]. split; [| by rewrite CUR_TOK_skip | by rewrite CUR_TOK_skip].
  unfold SRC_LEN in *. rewrite SRC_skip. unfold skip, next_char. case_if; [done |].
  simpl. apply Nat.leb_gt in E. exact E.
Qed.

Lemma reads_skip s : wf s -> reads 0 s (skip s).
Proof.
  intros Hw. split; [apply SRC_skip |]. split; [by apply wf_skip |].
  rewrite unread_skip. destruct (unread s); simpl; lia.
Qed.

Lemma reads_skip1 s : wf s -> unread s <> [] -> reads 1 s (skip s).
Proof.
  intros Hw Hne. split; [apply SRC_skip |]. split; [by apply wf_skip |].
  rewrite unread_skip. destruct (unread s); simpl; done || lia.
Qed.

(** Updates of the token and of the console do not touch the text. *)
Lemma reads_tok n s s' f :
  (forall s, SRC (f s) = SRC s /\ POS (f s) = POS s /\
     length (str_val (CUR_TOK (f s))) = length (str_val (CUR_TOK s)) /\
     (str_val (CUR_TOK s) !! 127%nat = Some 0 -> str_val (CUR_TOK (f s)) !! 127%nat = Some 0)) ->
  reads n s s' -> reads n s (f s').
Proof.
  intros Hf (E & [Wp Ws Wn] & L). destruct (Hf s') as (Fs & Fp & Ft & Fn). split; [congruence |]. split.
  - split; [unfold SRC_LEN; by rewrite Fs, Fp | congruence | by apply Fn].
  - unfold unread in *. by rewrite Fs, Fp.
Qed.

Lemma reads_type n s s' ty : reads n s s' -> reads n s (set_type ty s').
Proof. by apply reads_tok. Qed.
Lemma reads_num n s s' v : reads n s s' -> reads n s (set_num v s').
Proof. by apply (reads_tok n s s' (set_num v)). Qed.
Lemma reads_nul n s s' i : reads n s s' -> reads n s (set_char i 0 s').
Proof.
  apply reads_tok. intros t. split; [done |]. split; [done |]. simpl. split; [apply length_insert |].
  intros Hn. destruct (decide (i = 127%nat)) as [-> |]; [| by rewrite list_lookup_insert_ne].
  apply list_lookup_insert_eq. by apply lookup_lt_Some in Hn.
Qed.
Lemma reads_char n s s' i c : (i <? 127)%nat = true -> reads n s s' -> reads n s (set_char i c s').
Proof.
  intros Hi%Nat.ltb_lt. apply reads_tok. intros t. split; [done |]. split; [done |]. simpl.
  split; [apply length_insert |]. by rewrite list_lookup_insert_ne by lia.
Qed.
#[local] Hint Resolve reads_refl reads_skip reads_type reads_num reads_nul reads_char wf_skip : core.

Lemma reads_then n s s1 s' : reads n s s1 -> reads 0 s1 s' -> reads n s s'.
Proof. intros H1 H2. rewrite <- (Nat.add_0_r n). by apply (reads_trans _ _ _ s1). Qed.

Lemma reads_skip_then n s s' : wf s -> unread s <> [] -> reads n (skip s) s' -> reads (S n) s s'.
Proof. intros Hw Hne Hr. by apply (reads_trans 1 n s (skip s)); [apply reads_skip1 |]. Qed.

Lemma reads_wf n s s' : reads n s s' -> wf s'.
Proof. by intros (_ & ? & _). Qed.

Lemma reads_len n s s' : reads n s s' -> (length (unread s') <= length (unread s))%nat.
Proof. intros (_ & _ & ?). lia. Qed.

Lemma peek_nonempty s c : peek_char s = c -> c <> 0 -> unread s <> [].
Proof. rewrite peek_unread. intros <- Hc E. by rewrite E in Hc. Qed.

Lemma block_comment_total fuel : forall s,
  wf s -> (length (unread s) < fuel)%nat -> exists b s', block_comment fuel s = Some (b, s') /\ reads 0 s s'.
Proof.
  induction fuel as [| fuel IH]; intros s Hw Hf; [lia |]. cbn [block_comment].
  rewrite unread_end. destruct (unread s) as [| c l] eqn:Eu; [eauto |].
  case_if.
  - eexists _, _. split; [done |]. apply (reads_trans 0 0 s (skip s)); auto.
  - destruct (IH (skip s)) as (b & s' & -> & Hr); [auto | |].
    { rewrite unread_skip, Eu. simpl in *. lia. }
    eexists _, _. split; [done |]. by apply (reads_then _ _ (skip s)); [apply reads_skip |].
Qed.

Lemma line_comment_total fuel : forall s,
  wf s -> (length (unread s) < fuel)%nat -> exists s', line_comment fuel s = Some s' /\ reads 0 s s'.
Proof.
  induction fuel as [| fuel IH]; intros s Hw Hf; [lia |]. cbn [line_comment].
  rewrite unread_more. destruct (unread s) as [| c l] eqn:Eu; [eauto |].
  case_if; [| eauto].
  destruct (IH (skip s)) as (s' & -> & Hr); [auto | |].
  { rewrite unread_skip, Eu. simpl in *. lia. }
  eexists. split; [done |]. by apply (reads_then _ _ (skip s)); [apply reads_skip |].
Qed.

Lemma isspace_0 : isspace 0 = false.
Proof. reflexivity. Qed.

Lemma skip_ws_total fuel : forall s,
  wf s -> (length (unread s) < fuel)%nat -> exists s', skip_ws fuel s = Some s' /\ reads 0 s s'.
Proof.
  induction fuel as [| fuel IH]; intros s Hw Hf; [lia |]. cbn [skip_ws].
  assert (Hstep : forall s1, reads 1 s s1 -> exists s', skip_ws fuel s1 = Some s' /\ reads 0 s s').
  { intros s1 Hr. destruct (IH s1) as (s' & -> & Hr'); [by apply (reads_wf 1 s) | destruct Hr as (_ & _ & ?); lia |].
    exists s'. split; [done |]. apply (reads_le 1); [lia |]. by apply (reads_then _ _ s1). }
  assert (Hskip2 : forall c, (peek_char s =? c) = true -> c <> 0 -> reads 1 s (skip (skip s))).
  { intros c Hc%Z.eqb_eq H0. apply (reads_then _ _ (skip s)); [| auto]. apply reads_skip1; [done |].
    by apply (peek_nonempty s c). }
  destruct (isspace (peek_char s)) eqn:Es.
  { apply Hstep, reads_skip1; [done |]. apply (peek_nonempty s (peek_char s)); [done |].
    intros E. by rewrite E in Es. }
  destruct (peek_char s =? 47) eqn:Ec; cbn [andb]; [| eauto].
  pose proof (Hskip2 47 Ec ltac:(lia)) as H2.
  assert (Hlen : (length (unread (skip (skip s))) < fuel)%nat) by (destruct H2 as (_ & _ & ?); lia).
  case_if.
  - destruct (block_comment_total fuel (skip (skip s))) as (b & s1 & -> & Hr); [auto | done |]. cbn.
    assert (Hr1 : reads 1 s s1) by by apply (reads_then _ _ (skip (skip s))).
    destruct b; [by apply Hstep |]. exists s1. split; [done |]. by apply (reads_le 1); [lia |].
  - case_if; [| eauto].
    destruct (line_comment_total fuel (skip (skip s))) as (s1 & -> & Hr); [auto | done |]. cbn.
    apply Hstep. by apply (reads_then _ _ (skip (skip s))).
Qed.

Lemma hex_loop_total fuel : forall val s,
  wf s -> (length (unread s) < fuel)%nat -> exists v s', hex_loop fuel val s = Some (v, s') /\ reads 0 s s'.
Proof.
  induction fuel as [| fuel IH]; intros val s Hw Hf; [lia |]. cbn [hex_loop].
  rewrite unread_more. destruct (unread s) as [| c l] eqn:Eu; [eauto |].
  destruct (hex_digit (peek_char s)) as [d |]; [| eauto].
  destruct (IH (i32 (i32 (val * 16) + d)) (skip s)) as (v & s' & -> & Hr); [auto | |].
  { rewrite unread_skip, Eu. simpl in *. lia. }
  eexists _, _. split; [done |]. by apply (reads_then _ _ (skip s)); [apply reads_skip |].
Qed.

Lemma dec_loop_total fuel : forall val s,
  wf s -> (length (unread s) < fuel)%nat -> exists v s', dec_loop fuel val s = Some (v, s') /\ reads 0 s s'.
Proof.
  induction fuel as [| fuel IH]; intros val s Hw Hf; [lia |]. cbn [dec_loop].
  rewrite unread_more. destruct (unread s) as [| c l] eqn:Eu; [eauto |]. case_if; [| eauto].
  destruct (IH (i32 (i32 (val * 10) + (peek_char s - 48))) (skip s)) as (v & s' & -> & Hr); [auto | |].
  { rewrite unread_skip, Eu. simpl in *. lia. }
  eexists _, _. split; [done |]. by apply (reads_then _ _ (skip s)); [apply reads_skip |].
Qed.

Lemma ident_loop_total fuel : forall si s,
  wf s -> (length (unread s) < fuel)%nat -> exists n s', ident_loop fuel si s = Some (n, s') /\ reads 0 s s'.
Proof.
  induction fuel as [| fuel IH]; intros si s Hw Hf; [lia |]. cbn [ident_loop].
  rewrite unread_more. destruct (unread s) as [| c l] eqn:Eu; [eauto |]. cbn [andb].
  case_if; [| eauto]. rewrite next_char_eq.
  assert (Hl : (length (unread (skip s)) < fuel)%nat) by (rewrite unread_skip, Eu; simpl in *; lia).
  case_if.
  - assert (Hs : reads 0 s (set_char si (peek_char s) (skip s))) by auto.
    destruct (IH (S si) (set_char si (peek_char s) (skip s))) as (n & s' & -> & Hr);
      [by apply (reads_wf 0 s) | done |].
    eexists _, _. split; [done |]. by apply (reads_then _ _ _ _ Hs).
  - destruct (IH si (skip s)) as (n & s' & -> & Hr); [auto | done |].
    eexists _, _. split; [done |]. by apply (reads_then _ _ (skip s)); [apply reads_skip |].
Qed.

Lemma string_loop_total fuel : forall si s,
  wf s -> (length (unread s) < fuel)%nat -> exists n s', string_loop fuel si s = Some (n, s') /\ reads 0 s s'.
Proof.
  induction fuel as [| fuel IH]; intros si s Hw Hf; [lia |]. cbn [string_loop].
  rewrite unread_more. destruct (unread s) as [| c l] eqn:Eu; [eauto |]. cbn [andb].
  case_if; [| eauto]. rewrite next_char_eq.
  assert (Hgo : forall sc s1, reads 1 s s1 -> exists n s',
    (if (si <? 127)%nat then string_loop fuel (S si) (set_char si sc s1) else string_loop fuel si s1)
      = Some (n, s') /\ reads 0 s s').
  { intros sc s1 Hr1. assert (Hl : (length (unread s1) < fuel)%nat) by (destruct Hr1 as (_ & _ & ?); rewrite Eu in *; simpl in *; lia).
    case_if.
    - assert (Hs : reads 1 s (set_char si sc s1)) by auto.
      destruct (IH (S si) (set_char si sc s1)) as (n & s' & -> & Hr); [by apply (reads_wf 1 s) | done |].
      eexists _, _. split; [done |]. apply (reads_le 1); [lia |]. by apply (reads_then _ _ _ _ Hs).
    - destruct (IH si s1) as (n & s' & -> & Hr); [by apply (reads_wf 1 s) | done |].
      eexists _, _. split; [done |]. apply (reads_le 1); [lia |]. by apply (reads_then _ _ s1). }
  assert (H1 : reads 1 s (skip s)) by (apply reads_skip1; [done | by rewrite Eu]).
  case_if; [rewrite next_char_eq |]; apply Hgo; [| done].
  apply (reads_then _ _ (skip s)); auto.
Qed.

Lemma lex_fuel_enough s : wf s -> (length (unread s) < lex_fuel s)%nat.
Proof. intros _. unfold lex_fuel. rewrite length_unread. lia. Qed.

Lemma char_literal_reads s : wf s -> unread s <> [] -> reads 1 s (char_literal s).
Proof.
  intros Hw Hne. unfold char_literal. cbv zeta. rewrite (next_char_eq (skip s)). cbv iota beta.
  assert (H1 : reads 1 s (skip s)) by by apply reads_skip1.
  assert (H2 : reads 1 s (skip (skip s))) by (apply (reads_then _ _ (skip s)); auto).
  assert (Hend : forall v s1, reads 1 s s1 ->
    reads 1 s (set_num v (set_type TOK_NUM (if peek_char s1 =? 39 then skip s1 else s1)))).
  { intros v s1 Hs. pose proof (reads_wf _ _ _ Hs). apply reads_num, reads_type. case_if; [| done].
    apply (reads_then _ _ s1); auto. }
  destruct (peek_char (skip s) =? 92); [| by apply Hend].
  rewrite next_char_eq. cbv iota beta. apply Hend. apply (reads_then _ _ (skip (skip s))); auto.
Qed.

Lemma number_total s :
  wf s -> isdigit (peek_char s) = true -> exists s', number s = Some s' /\ reads 1 s s'.
Proof.
  intros Hw Hd. unfold number.
  assert (Hne : unread s <> []).
  { apply (peek_nonempty s (peek_char s)); [done |]. intros E. by rewrite E in Hd. }
  assert (H1 : reads 1 s (skip s)) by by apply reads_skip1.
  assert (Hf : (length (unread (skip (skip s))) < lex_fuel s)%nat).
  { pose proof (lex_fuel_enough s Hw). rewrite !unread_skip. destruct (unread s) as [| ? [|]]; simpl in *; lia. }
  case_if.
  - destruct (hex_loop_total (lex_fuel s) 0 (skip (skip s))) as (v & s' & -> & Hr); [auto | done |].
    cbn. eexists. split; [done |]. apply reads_num, reads_type. apply (reads_then _ _ (skip s)); [done |].
    apply (reads_then _ _ (skip (skip s))); auto.
  - destruct (lex_fuel s) as [| fuel] eqn:Ef; [unfold lex_fuel in Ef; done |]. cbn [dec_loop].
    rewrite unread_more, Hd. destruct (unread s) as [| c l] eqn:Eu; [done |]. cbn [andb].
    destruct (dec_loop_total fuel (i32 (i32 (0 * 10) + (peek_char s - 48))) (skip s)) as (v & s' & -> & Hr); [auto | |].
    { pose proof (lex_fuel_enough s Hw) as Hl. rewrite unread_skip, Eu. rewrite Ef, Eu in Hl. simpl in *. lia. }
    cbn. eexists. split; [done |]. apply reads_num, reads_type. by apply (reads_then _ _ (skip s)).
Qed.

Lemma identifier_total s :
  wf s -> ident_char (peek_char s) = true -> exists s', identifier s = Some s' /\ reads 1 s s'.
Proof.
  intros Hw Hc. unfold identifier.
  assert (Hne : unread s <> []).
  { apply (peek_nonempty s (peek_char s)); [done |]. intros E. by rewrite E in Hc. }
  assert (H1 : reads 1 s (skip s)) by by apply reads_skip1.
  pose proof (lex_fuel_enough s Hw) as Hl.
  destruct (lex_fuel s) as [| fuel] eqn:Ef; [unfold lex_fuel in Ef; done |]. cbn [ident_loop].
  rewrite unread_more, Hc. destruct (unread s) as [| c l] eqn:Eu; [done |]. cbn [andb].
  change (0 <? 127)%nat with true. rewrite next_char_eq. cbn iota.
  assert (H2 : reads 1 s (set_char 0 (peek_char s) (skip s))) by auto.
  destruct (ident_loop_total fuel 1 (set_char 0 (peek_char s) (skip s))) as (n & s' & -> & Hr).
  { by apply (reads_wf 1 s). }
  { change (unread (set_char _ _ _)) with (unread (skip s)). rewrite unread_skip, Eu. simpl in *. lia. }
  cbn. assert (H3 : reads 1 s s') by by apply (reads_then _ _ _ _ H2).
  case_match; eexists; (split; [done |]); auto.
Qed.

Lemma string_literal_total s :
  wf s -> unread s <> [] -> exists s', string_literal s = Some s' /\ reads 1 s s'.
Proof.
  intros Hw Hne. unfold string_literal.
  assert (H1 : reads 1 s (skip s)) by by apply reads_skip1.
  destruct (string_loop_total (lex_fuel s) 0 (skip s)) as (n & s' & -> & Hr); [auto | |].
  { pose proof (lex_fuel_enough s Hw). pose proof (reads_len _ _ _ H1). lia. }
  cbn. eexists. split; [done |].
  assert (H2 : reads 1 s (set_char n 0 s')) by (apply reads_nul; by apply (reads_then _ _ (skip s))).
  case_if; [| auto]. apply reads_type. apply (reads_then _ _ _ _ H2).
  apply reads_skip. by apply (reads_wf 1 s).
Qed.

Lemma reads_either s s' b two one : reads 1 s s' -> reads 1 s (either b two one s').
Proof.
  intros Hr. pose proof (reads_wf _ _ _ Hr). unfold either. case_if; [| auto].
  apply reads_type. apply (reads_then _ _ s'); auto.
Qed.

Lemma operator_reads s c s' : reads 1 s s' -> reads 1 s (operator c s').
Proof.
  intros Hr. pose proof (reads_wf _ _ _ Hr). unfold operator.
  assert (Hskip : forall ty, reads 1 s (set_type ty (skip s'))).
  { intros. apply reads_type. apply (reads_then _ _ s'); auto. }
  repeat (case_if; [try (by apply reads_either); try (by apply reads_type);
                    (case_if; [apply Hskip | by apply reads_either]) |]).
  apply reads_type. unfold lex_error.
  apply (reads_tok 1 s s' (fun s => print _ (set_error s))); [| done]. done.
Qed.

(** [next] terminates on every text: each of its loops ends within the fuel
    it is given, it never leaves the text, and it reads at least one character
    unless the text is used up; the token's string stays a NUL-terminated array
    of 128 bytes. *)
Lemma next_progress s :
  wf s -> exists s', next s = Some s' /\ SRC s' = SRC s /\ wf s' /\ (POS s <= POS s' <= SRC_LEN s)%nat /\
    ((tt (CUR_TOK s') = TOK_EOF /\ POS s' = SRC_LEN s) \/ (POS s < POS s')%nat).
Proof.
  intros Hw. unfold next.
  destruct (skip_ws_total (lex_fuel s) s Hw (lex_fuel_enough s Hw)) as (s1 & -> & Hr). cbn [mbind option_bind].
  set (s2 := set_char 0 0 (set_num 0 (set_line (CUR_LINE s1) s1))).
  assert (Hr2 : reads 0 s s2).
  { apply reads_nul, reads_num. by apply (reads_tok 0 s s1 (set_line (CUR_LINE s1))). }
  pose proof (reads_wf _ _ _ Hr2) as Hw2.
  assert (Hdone : forall s', reads 0 s s' ->
    (tt (CUR_TOK s') = TOK_EOF /\ unread s' = []) \/ reads 1 s s' ->
    SRC s' = SRC s /\ wf s' /\ (POS s <= POS s' <= SRC_LEN s)%nat /\
    ((tt (CUR_TOK s') = TOK_EOF /\ POS s' = SRC_LEN s) \/ (POS s < POS s')%nat)).
  { intros s' (E & W & L) Hc. split; [done |]. split; [done |].
    destruct W as [Wp _], Hw as [Hp _]. assert (El : SRC_LEN s' = SRC_LEN s) by (unfold SRC_LEN; congruence).
    rewrite !length_unread, El in L. rewrite El in Wp. split; [lia |].
    destruct Hc as [[Ht Eu] | (_ & _ & L1)].
    - left. split; [done |]. pose proof (length_unread s') as Hl. rewrite Eu, El in Hl. simpl in Hl. lia.
    - right. rewrite !length_unread, El in L1. lia. }
  assert (Hsome : forall o, (exists s', o = Some s' /\ reads 1 s2 s') ->
    exists s', o = Some s' /\ SRC s' = SRC s /\ wf s' /\ (POS s <= POS s' <= SRC_LEN s)%nat /\
      ((tt (CUR_TOK s') = TOK_EOF /\ POS s' = SRC_LEN s) \/ (POS s < POS s')%nat)).
  { intros o (s' & -> & Hs). exists s'. split; [done |].
    pose proof (reads_trans 0 1 s s2 s' Hr2 Hs) as H1. apply Hdone; [by apply (reads_le 1); [lia |] | by right]. }
  rewrite unread_end. destruct (unread s2) as [| c l] eqn:Eu.
  { eexists. split; [done |]. apply Hdone; [by apply reads_type | by left]. }
  assert (Hne : unread s2 <> []) by by rewrite Eu.
  repeat case_if; apply Hsome.
  - eexists. split; [done |]. by apply char_literal_reads.
  - by apply number_total.
  - apply identifier_total; [done |]. unfold ident_char, isalnum.
    apply orb_prop in E1 as [-> | ->]; by rewrite ?orb_true_r.
  - by apply string_literal_total.
  - eexists. split; [done |]. by apply operator_reads, reads_skip1.
Qed.

(** ** Witness *)

Lemma next_progress_witness :
  exists s', next (init (str "x") []) = Some s' /\ wf s' /\ (0 < POS s')%nat.
Proof.
  destruct (next_progress (init (str "x") [])) as (s' & E & Es & Hw & Hp & Hc).
  - split; [vm_compute; lia | reflexivity | reflexivity].
  - exists s'. split; [exact E |]. split; [exact Hw |].
    assert (Ep : POS <$> next (init (str "x") []) = Some 1%nat) by (vm_compute; reflexivity).
    rewrite E in Ep. cbn in Ep. injection Ep as ->. lia.
Defined.
