(* ===== verification/LexText.v ===== *)
(** The lexer ([Lex]) read back from text: a token stream written out with
    arbitrary white space and comments is the token stream the lexer returns. *)
From Stdlib Require Import String.
From S2P Require Import Prelude StringRs Lex.

(** ** Consuming text *)

(** The line counter after the characters [l]. *)
Definition lines_after (n : Z) (l : list Z) : Z :=
  fold_left (fun n c => if c =? 10 then i32 (n + 1) else n) l n.

(** [s'] is [s] after the text [l] has been read; the token may differ. *)
Record took (l : list Z) (s s' : lexer) : Prop := {
  tk_src : SRC s' = SRC s; tk_text : unread s = l ++ unread s';
  tk_line : CUR_LINE s' = lines_after (CUR_LINE s) l;
  tk_flag : LEX_ERROR_FLAG s' = LEX_ERROR_FLAG s; tk_out : out s' = out s }.

Lemma took_nil s : took [] s s.
Proof. by split. Qed.

Lemma took_trans l1 l2 s s1 s' : took l1 s s1 -> took l2 s1 s' -> took (l1 ++ l2) s s'.
Proof.
  intros [A1 B1 C1 D1 E1] [A2 B2 C2 D2 E2]. split; try congruence.
  - by rewrite B1, B2, app_assoc.
  - unfold lines_after in *. by rewrite fold_left_app, <- C1.
Qed.

Lemma took_skip c l s : unread s = c :: l -> took [c] s (skip s) /\ unread (skip s) = l.
Proof.
  intros E. assert (Eu : unread (skip s) = l) by (by rewrite unread_skip, E).
  split; [| done]. split; [apply SRC_skip | by rewrite Eu | | apply flag_skip | ];
    unfold skip, next_char; rewrite unread_end, E; [| done].
  simpl. pose proof (peek_unread s) as Hp. unfold peek_char in Hp. rewrite unread_end, E in Hp.
  simpl in Hp. by rewrite Hp.
Qed.

Lemma took_skip2 c1 c2 l s :
  unread s = c1 :: c2 :: l -> took [c1; c2] s (skip (skip s)) /\ unread (skip (skip s)) = l.
Proof.
  intros E. destruct (took_skip _ _ _ E) as [T1 E1]. destruct (took_skip _ _ _ E1) as [T2 E2].
  split; [by apply (took_trans [c1] [c2] s (skip s)) | done].
Qed.

(** An update that keeps the text and the diagnostics. *)
Definition keeps (f : lexer -> lexer) : Prop := forall s,
  SRC (f s) = SRC s /\ POS (f s) = POS s /\ CUR_LINE (f s) = CUR_LINE s /\
  LEX_ERROR_FLAG (f s) = LEX_ERROR_FLAG s /\ out (f s) = out s.

Lemma took_keeps f l s s' : keeps f -> took l s s' -> took l s (f s').
Proof.
  intros Hf []. destruct (Hf s') as (A & B & C & D & E).
  split; try congruence. unfold unread in *. by rewrite A, B.
Qed.

Lemma took_keeps_l f l s s' : keeps f -> took l (f s) s' -> took l s s'.
Proof.
  intros Hf []. destruct (Hf s) as (A & B & C & D & E).
  split; try congruence. unfold unread in *. by rewrite <- tk_text0, A, B.
Qed.

Lemma keeps_type ty : keeps (set_type ty).
Proof. by repeat split. Qed.
Lemma keeps_num n : keeps (set_num n).
Proof. by repeat split. Qed.
Lemma keeps_char i c : keeps (set_char i c).
Proof. by repeat split. Qed.
Lemma keeps_line n : keeps (set_line n).
Proof. by repeat split. Qed.
#[local] Hint Resolve keeps_type keeps_num keeps_char keeps_line took_nil : core.

Lemma took_length l s s' : took l s s' -> length (unread s) = (length l + length (unread s'))%nat.
Proof. intros []. by rewrite tk_text0, length_app. Qed.

(** ** White space and comments *)

Inductive gap := Blank (c : Z) | LineComment (body : list Z) | BlockComment (body : list Z).

(** No comment end inside [l]. *)
Fixpoint no_close (l : list Z) : Prop :=
  match l with
  | [] => True
  | a :: l => match l with b :: _ => ~ (a = 42 /\ b = 47) | [] => True end /\ no_close l
  end.

Definition gap_ok (g : gap) : Prop :=
  match g with
  | Blank c => isspace c = true
  | LineComment body => Forall (fun c => c <> 10) body
  | BlockComment body => no_close (body ++ [42])
  end.

Definition gap_text (g : gap) : list Z :=
  match g with
  | Blank c => [c]
  | LineComment body => 47 :: 47 :: body ++ [10]
  | BlockComment body => 47 :: 42 :: body ++ [42; 47]
  end.

Definition gaps_text (gs : list gap) : list Z := concat (map gap_text gs).

(** Text at which [skip_ws] stops. *)
Definition stops (l : list Z) : Prop :=
  match l with
  | [] => True
  | c :: l => isspace c = false /\ (c = 47 -> match l with x :: _ => x <> 42 /\ x <> 47 | [] => True end)
  end.

Lemma block_comment_spec body : forall fuel s rest,
  no_close (body ++ [42]) -> unread s = body ++ 42 :: 47 :: rest -> (length (unread s) < fuel)%nat ->
  exists s', block_comment fuel s = Some (true, s') /\ took (body ++ [42; 47]) s s' /\ CUR_TOK s' = CUR_TOK s.
Proof.
  induction body as [| c body IH]; intros fuel s rest Hn Eu Hf; (destruct fuel as [| fuel]; [lia |]);
    cbn [block_comment]; rewrite unread_end, peek_unread, followed_unread, Eu.
  - cbn. destruct (took_skip2 _ _ _ _ Eu) as [T _]. eexists. split; [done |]. split; [done |].
    by rewrite !CUR_TOK_skip.
  - cbn [app hd]. destruct Hn as [Hn Hn']. assert (Hc : (c =? 42) && match body ++ 42 :: 47 :: rest with x :: _ => x =? 47 | [] => false end = false).
    { destruct (Z.eqb_spec c 42) as [-> |]; [| done]. cbn [andb].
      destruct body as [| b body]; [done |]. apply Z.eqb_neq. intros ->. by apply Hn. }
    rewrite Hc. rewrite <- app_comm_cons in Eu. destruct (took_skip _ _ _ Eu) as [T E1].
    destruct (IH fuel (skip s) rest Hn' E1) as (s' & -> & T' & Et).
    { rewrite E1. rewrite Eu in Hf. simpl in Hf. lia. }
    eexists. split; [done |]. split; [by apply (took_trans [c] _ s (skip s)) |].
    by rewrite Et, CUR_TOK_skip.
Qed.

Lemma line_comment_spec body : forall fuel s rest,
  Forall (fun c => c <> 10) body -> unread s = body ++ 10 :: rest -> (length (unread s) < fuel)%nat ->
  exists s', line_comment fuel s = Some s' /\ took body s s' /\ CUR_TOK s' = CUR_TOK s.
Proof.
  induction body as [| c body IH]; intros fuel s rest Hn Eu Hf; (destruct fuel as [| fuel]; [lia |]);
    cbn [line_comment]; rewrite unread_more, peek_unread, Eu.
  - simpl. exists s. auto.
  - apply Forall_cons in Hn as [Hc Hn]. cbn [app hd andb].
    rewrite (proj2 (Z.eqb_neq c 10) Hc). cbn [negb].
    rewrite <- app_comm_cons in Eu. destruct (took_skip _ _ _ Eu) as [T E1].
    destruct (IH fuel (skip s) rest Hn E1) as (s' & -> & T' & Et).
    { rewrite E1. rewrite Eu in Hf. simpl in Hf. lia. }
    eexists. split; [done |]. split; [by apply (took_trans [c] _ s (skip s)) |].
    by rewrite Et, CUR_TOK_skip.
Qed.

Lemma isspace_cases c : isspace c = true -> c = 32 \/ c = 9 \/ c = 10 \/ c = 13 \/ c = 12 \/ c = 11.
Proof. unfold isspace. intros H. repeat (apply orb_prop in H as [H | H]); breflect; lia. Qed.

Lemma skip_ws_stops fuel s : stops (unread s) -> skip_ws (S fuel) s = Some s.
Proof.
  intros Hs. cbn [skip_ws]. rewrite peek_unread, !followed_unread.
  destruct (unread s) as [| c l]; [done |]. cbn [hd]. destruct Hs as [-> Hc].
  destruct (Z.eqb_spec c 47) as [-> |]; [| done]. cbn [andb].
  destruct l as [| x l]; [done |]. destruct (Hc eq_refl) as [H1 H2].
  by rewrite (proj2 (Z.eqb_neq x 42) H1), (proj2 (Z.eqb_neq x 47) H2).
Qed.

Lemma took_rest l s s' rest : unread s = l ++ rest -> took l s s' -> unread s' = rest.
Proof. intros E []. rewrite E in tk_text0. by apply app_inv_head in tk_text0. Qed.

Lemma skip_ws_gap g : forall fuel s rest,
  gap_ok g -> unread s = gap_text g ++ rest -> (length (unread s) < fuel)%nat ->
  exists fuel1 s1, skip_ws fuel s = skip_ws fuel1 s1 /\ took (gap_text g) s s1 /\ CUR_TOK s1 = CUR_TOK s /\
    (length rest < fuel1)%nat.
Proof.
  intros fuel s rest Hg Eu Hf. destruct fuel as [| fuel]; [lia |].
  rewrite Eu, length_app in Hf. cbn [skip_ws]. rewrite peek_unread, !followed_unread, Eu.
  destruct g as [c | body | body]; cbn [gap_text length] in Hf; unfold gap_text in Eu |- *;
    rewrite <- ?app_comm_cons in Eu |- *; cbn [hd].
  - cbn in Hg. rewrite Hg. destruct (took_skip _ _ _ Eu) as [T _].
    exists fuel, (skip s). split; [done |]. split; [done |]. split; [apply CUR_TOK_skip | lia].
  - change (isspace 47) with false. change (47 =? 47) with true. change (47 =? 42) with false. cbn [andb].
    destruct (took_skip2 _ _ _ _ Eu) as [T E2]. rewrite <- app_assoc in E2. rewrite length_app in Hf.
    destruct (line_comment_spec body fuel (skip (skip s)) rest Hg E2) as (s1 & -> & T1 & Et).
    { rewrite E2. simpl. rewrite length_app. simpl in *. lia. }
    cbn [mbind option_bind]. pose proof (took_rest _ _ _ _ E2 T1) as E1.
    destruct (took_skip _ _ _ E1) as [T3 _].
    destruct fuel as [| fuel]; [simpl in Hf; lia |]. exists fuel, (skip s1). split; [| split; [| split]].
    + cbn [skip_ws]. by rewrite peek_unread, E1.
    + apply (took_trans (47 :: 47 :: body) [10] s s1); [| done].
      by apply (took_trans [47; 47] body s (skip (skip s))).
    + by rewrite CUR_TOK_skip, Et, !CUR_TOK_skip.
    + simpl in Hf. lia.
  - change (isspace 47) with false. change (47 =? 47) with true. change (42 =? 42) with true. cbn [andb].
    destruct (took_skip2 _ _ _ _ Eu) as [T E2]. rewrite <- app_assoc in E2. rewrite length_app in Hf.
    destruct (block_comment_spec body fuel (skip (skip s)) rest Hg E2) as (s1 & -> & T1 & Et).
    { rewrite E2. simpl. rewrite length_app. simpl in *. lia. }
    cbn [mbind option_bind]. exists fuel, s1. split; [done |]. split; [| split].
    + by apply (took_trans [47; 42] _ s (skip (skip s))).
    + by rewrite Et, !CUR_TOK_skip.
    + simpl in Hf. lia.
Qed.

Lemma skip_ws_gaps gs : forall fuel s rest,
  Forall gap_ok gs -> unread s = gaps_text gs ++ rest -> stops rest -> (length (unread s) < fuel)%nat ->
  exists s', skip_ws fuel s = Some s' /\ took (gaps_text gs) s s' /\ CUR_TOK s' = CUR_TOK s.
Proof.
  induction gs as [| g gs IH]; intros fuel s rest Hg Eu Hs Hf.
  - destruct fuel as [| fuel]; [lia |]. exists s. split; [| split; [apply took_nil | done]].
    apply skip_ws_stops. by rewrite Eu.
  - apply Forall_cons in Hg as [Hg Hgs]. unfold gaps_text in Eu. cbn [map concat] in Eu.
    rewrite <- app_assoc in Eu. fold (gaps_text gs) in Eu.
    destruct (skip_ws_gap g fuel s _ Hg Eu Hf) as (fuel1 & s1 & -> & T & Et & Hf1).
    pose proof (took_rest _ _ _ _ Eu T) as E1.
    destruct (IH fuel1 s1 rest Hgs E1 Hs) as (s' & -> & T' & Et'); [by rewrite E1 |].
    exists s'. split; [done |]. split; [by apply (took_trans _ _ s s1) | congruence].
Qed.

(** ** Spelling of tokens *)

Definition OPERATORS : list (list Z * tok_type) := [
  (str "+", TOK_PLUS); (str "+=", TOK_PLUSEQ); (str "-", TOK_MINUS); (str "-=", TOK_MINUSEQ);
  (str "->", TOK_ARROW); (str "*", TOK_STAR); (str "*=", TOK_STAREQ); (str "/", TOK_SLASH);
  (str "/=", TOK_SLASHEQ); (str "%", TOK_PERCENT); (str "&", TOK_AMP); (str "&&", TOK_AND);
  (str "|", TOK_PIPE); (str "||", TOK_OR); (str "^", TOK_CARET); (str "!", TOK_BANG);
  (str "!=", TOK_NEQ); (str "=", TOK_ASSIGN); (str "==", TOK_EQ); (str "=>", TOK_FAT_ARROW);
  (str "<", TOK_LT); (str "<=", TOK_LTE); (str "<<", TOK_LSHIFT); (str ">", TOK_GT);
  (str ">=", TOK_GTE); (str ">>", TOK_RSHIFT); (str "(", TOK_LPAREN); (str ")", TOK_RPAREN);
  (str "{", TOK_LBRACE); (str "}", TOK_RBRACE); (str "[", TOK_LBRACKET); (str "]", TOK_RBRACKET);
  (str ";", TOK_SEMI); (str ",", TOK_COMMA); (str ":", TOK_COLON); (str ".", TOK_DOT);
  (str "..", TOK_DOUBLE_DOT) ].

Inductive lexeme :=
| LDec (n : Z) | LHex (n : Z) | LChar (c : Z) | LStr (l : list Z) | LIdent (w : list Z)
| LKeyword (w : list Z) (ty : tok_type) | LOperator (w : list Z) (ty : tok_type).

Definition escape (quote c : Z) : list Z :=
  if c =? 10 then [92; 110] else if c =? 9 then [92; 116] else if c =? 92 then [92; 92] else
  if c =? quote then [92; quote] else if c =? 0 then [92; 48] else [c].

Definition hex_char (d : Z) : Z := if d <? 10 then 48 + d else 97 + (d - 10).
Fixpoint hex_digits (fuel : nat) (n : Z) : list Z :=
  match fuel with
  | O => []
  | S fuel => if n >? 0 then hex_char (n mod 16) :: hex_digits fuel (n / 16) else []
  end.

Definition spell (x : lexeme) : list Z :=
  match x with
  | LDec n => print_int n
  | LHex n => 48 :: 120 :: rev (hex_digits 8 n)
  | LChar c => 39 :: escape 39 c ++ [39]
  | LStr l => 34 :: concat (map (escape 34) l) ++ [34]
  | LIdent w | LKeyword w _ | LOperator w _ => w
  end.

Definition lexeme_ok (x : lexeme) : Prop :=
  match x with
  | LDec n => 0 <= n < 2 ^ 31
  | LHex n => 0 <= n < 2 ^ 32
  | LChar c => is_byte c
  | LStr l => (length l <= 127)%nat /\ no_nul l
  | LIdent w => (length w <= 127)%nat /\ Forall (fun c => ident_char c = true) w /\
      match w with c :: _ => isdigit c = false | [] => False end /\ find_keyword KEYWORDS w = None
  | LKeyword w ty => (w, ty) ∈ KEYWORDS
  | LOperator w ty => (w, ty) ∈ OPERATORS
  end.

(** What the token of a lexeme carries: its type, number and string. *)
Definition meaning (x : lexeme) : tok_type * Z * list Z :=
  match x with
  | LDec n => (TOK_NUM, n, [])
  | LHex n => (TOK_NUM, i32 n, [])
  | LChar c => (TOK_NUM, c, [])
  | LStr l => (TOK_STR, 0, l)
  | LIdent w => (TOK_IDENT, 0, w)
  | LKeyword w ty => (ty, 0, w)
  | LOperator w ty => (ty, 0, [])
  end.

Definition token_view (t : Token) : tok_type * Z * list Z := (tt t, num_val t, cstr (str_val t)).

(** ** Numbers *)

Definition dec_step (v c : Z) : Z := i32 (i32 (v * 10) + (c - 48)).
Definition hex_step (v c : Z) : Z := i32 (i32 (v * 16) + default 0 (hex_digit c)).

Lemma dec_loop_spec l : forall fuel v s rest,
  Forall (fun c => isdigit c = true) l -> match rest with c :: _ => isdigit c = false | [] => True end ->
  unread s = l ++ rest -> (length l < fuel)%nat ->
  exists s', dec_loop fuel v s = Some (fold_left dec_step l v, s') /\ took l s s' /\ CUR_TOK s' = CUR_TOK s.
Proof.
  induction l as [| c l IH]; intros fuel v s rest Hl Hr Eu Hf; (destruct fuel as [| fuel]; [simpl in *; lia |]);
    cbn [dec_loop]; rewrite unread_more, peek_unread, Eu.
  - exists s. split; [| split; [apply took_nil | done]]. destruct rest as [| c rest]; [done |].
    simpl. by rewrite Hr.
  - apply Forall_cons in Hl as [Hc Hl]. cbn [app hd andb]. rewrite Hc.
    rewrite <- app_comm_cons in Eu. destruct (took_skip _ _ _ Eu) as [T E1].
    destruct (IH fuel (i32 (i32 (v * 10) + (c - 48))) (skip s) rest Hl Hr E1) as (s' & -> & T' & Et);
      [simpl in Hf; lia |].
    exists s'. split; [done |]. split; [by apply (took_trans [c] l s (skip s)) |]. by rewrite Et, CUR_TOK_skip.
Qed.

Lemma hex_loop_spec l : forall fuel v s rest,
  Forall (fun c => is_Some (hex_digit c)) l -> match rest with c :: _ => hex_digit c = None | [] => True end ->
  unread s = l ++ rest -> (length l < fuel)%nat ->
  exists s', hex_loop fuel v s = Some (fold_left hex_step l v, s') /\ took l s s' /\ CUR_TOK s' = CUR_TOK s.
Proof.
  induction l as [| c l IH]; intros fuel v s rest Hl Hr Eu Hf; (destruct fuel as [| fuel]; [simpl in *; lia |]);
    cbn [hex_loop]; rewrite unread_more, peek_unread, Eu.
  - exists s. split; [| split; [apply took_nil | done]]. destruct rest as [| c rest]; [done |].
    simpl. by rewrite Hr.
  - apply Forall_cons in Hl as [[x Hc] Hl]. cbn [app hd]. rewrite Hc.
    rewrite <- app_comm_cons in Eu. destruct (took_skip _ _ _ Eu) as [T E1].
    destruct (IH fuel (i32 (i32 (v * 16) + x)) (skip s) rest Hl Hr E1) as (s' & -> & T' & Et);
      [simpl in Hf; lia |].
    exists s'. split.
    { cbn [fold_left]. assert (hex_step v c = i32 (i32 (v * 16) + x)) as -> by (unfold hex_step; by rewrite Hc). done. }
    split; [by apply (took_trans [c] l s (skip s)) |]. by rewrite Et, CUR_TOK_skip.
Qed.

Lemma int_digits_spec fuel : forall n, 0 <= n < 10 ^ Z.of_nat fuel -> n < 2 ^ 31 ->
  fold_left dec_step (rev (int_digits fuel n)) 0 = n /\ Forall (fun c => isdigit c = true) (int_digits fuel n) /\
  (length (int_digits fuel n) <= fuel)%nat.
Proof.
  induction fuel as [| fuel IH]; intros n Hn H31; [simpl in *; split; [lia |]; by split |].
  cbn [int_digits]. destruct (Z.gtb_spec n 0); [| split; [simpl; lia |]; by split; [| simpl; lia]].
  rewrite Nat2Z.inj_succ, Z.pow_succ_r in Hn by lia.
  destruct (IH (n / 10)) as (Ev & Hd & Hl); [mod_lia | mod_lia |].
  cbn [rev]. rewrite fold_left_app. cbn [fold_left]. rewrite Ev. split; [| split].
  - unfold dec_step. rewrite (i32_small (n / 10 * 10)) by mod_lia. rewrite i32_small by mod_lia. mod_lia.
  - constructor; [| done]. unfold isdigit. apply andb_true_intro. split; [apply Z.leb_le | apply Z.leb_le]; mod_lia.
  - simpl. lia.
Qed.

Lemma print_int_spec n : 0 <= n < 2 ^ 31 ->
  fold_left dec_step (print_int n) 0 = n /\ Forall (fun c => isdigit c = true) (print_int n) /\ print_int n <> [] /\
  (length (print_int n) <= 12)%nat.
Proof.
  intros Hn. unfold print_int. destruct (Z.eqb_spec n 0) as [-> |]; [by repeat constructor |].
  destruct (int_digits_spec 12 n) as (Ev & Hd & Hl); [simpl; lia.. |].
  split; [done |]. split; [by apply Forall_rev |]. split; [| by rewrite length_rev].
  cbn [int_digits rev]. rewrite (proj2 (Z.gtb_lt n 0)) by lia. intros E. apply app_eq_nil in E as [_ ?]. done.
Qed.

Lemma i32_idem z w : i32 (i32 z + w) = i32 (z + w).
Proof. unfold i32. mod_lia. Qed.

Lemma i32_mul_idem z k w : i32 (i32 (i32 z * k) + w) = i32 (z * k + w).
Proof.
  rewrite i32_idem. unfold i32. rewrite Z.mul_sub_distr_r. f_equal.
  set (H := 2147483648). set (M := 4294967296).
  rewrite <- (Z.add_mod_idemp_l (z * k + w)) by done.
  replace ((z + H) mod M * k - H * k + w + H) with (z * k + w + H + (- ((z + H) / M) * k) * M)
    by (rewrite (Z.mod_eq (z + H) M) by done; ring).
  rewrite Z.mod_add by done. by rewrite Z.add_mod_idemp_l by done.
Qed.

Lemma hex_char_digit d : 0 <= d < 16 -> hex_digit (hex_char d) = Some d.
Proof.
  intros. unfold hex_char, hex_digit. destruct (Z.ltb_spec d 10).
  - rewrite (proj2 (Z.leb_le 48 _)), (proj2 (Z.leb_le _ 57)) by lia. cbn [andb]. f_equal. lia.
  - rewrite (proj2 (Z.leb_gt _ 57)), andb_false_r by lia.
    rewrite (proj2 (Z.leb_le 97 _)), (proj2 (Z.leb_le _ 102)) by lia. cbn [andb]. f_equal. lia.
Qed.

Lemma hex_digits_spec fuel : forall n, 0 <= n < 16 ^ Z.of_nat fuel ->
  fold_left hex_step (rev (hex_digits fuel n)) 0 = i32 n /\ Forall (fun c => is_Some (hex_digit c)) (hex_digits fuel n) /\ (length (hex_digits fuel n) <= fuel)%nat.
Proof.
  induction fuel as [| fuel IH]; intros n Hn.
  { simpl in *. split; [| by split]. by replace n with 0 by lia. }
  cbn [hex_digits]. destruct (Z.gtb_spec n 0).
  2: { replace n with 0 by lia. split; [done |]. split; [done | simpl; lia]. }
  rewrite Nat2Z.inj_succ, Z.pow_succ_r in Hn by lia.
  destruct (IH (n / 16)) as (Ev & Hd & Hl); [mod_lia |].
  assert (Hm : 0 <= n mod 16 < 16) by mod_lia.
  cbn [rev]. rewrite fold_left_app. cbn [fold_left]. rewrite Ev. split; [| split].
  - unfold hex_step. rewrite hex_char_digit by done. cbn [default from_option id].
    rewrite i32_mul_idem. f_equal. mod_lia.
  - constructor; [| done]. rewrite hex_char_digit by done. eauto.
  - simpl. lia.
Qed.

Lemma not_space_digit d : isspace d = true -> isdigit d = false /\ hex_digit d = None /\ ident_char d = false.
Proof. intros H. apply isspace_cases in H. repeat (destruct H as [-> | H]; [done |]). by subst. Qed.

Lemma decimal_spec n s d rest :
  0 <= n < 2 ^ 31 -> isspace d = true -> unread s = print_int n ++ d :: rest ->
  exists s', number s = Some (set_num n (set_type TOK_NUM s')) /\ took (print_int n) s s' /\ CUR_TOK s' = CUR_TOK s.
Proof.
  intros Hn Hd Eu. destruct (print_int_spec n Hn) as (Ev & Hdig & Hne & Hlen).
  destruct (not_space_digit d Hd) as (Hd1 & _ & _).
  assert (Hf : (length (print_int n) < lex_fuel s)%nat).
  { unfold lex_fuel. rewrite <- length_unread, Eu, length_app. lia. }
  destruct (dec_loop_spec (print_int n) (lex_fuel s) 0 s (d :: rest) Hdig Hd1 Eu Hf) as (s' & E & T & Et).
  exists s'. unfold number. rewrite peek_unread, !followed_unread, Eu.
  assert (Hx : (hd 0 (print_int n ++ d :: rest) =? 48) &&
    (match print_int n ++ d :: rest with _ :: x :: _ => x =? 120 | _ => false end ||
     match print_int n ++ d :: rest with _ :: x :: _ => x =? 88 | _ => false end) = false).
  { destruct (print_int n) as [| a [| b l]]; [done | |].
    - simpl. apply isspace_cases in Hd. destruct (a =? 48); [| done].
      repeat (destruct Hd as [-> | Hd]; [done |]). by subst.
    - apply Forall_cons in Hdig as [_ [Hb _]%Forall_cons]. simpl. destruct (a =? 48); [| done].
      unfold isdigit in Hb. breflect. rewrite !(proj2 (Z.eqb_neq b _)) by lia. done. }
  rewrite Hx, E. cbn. by rewrite Ev.
Qed.

Lemma hexadecimal_spec n s d rest :
  0 <= n < 2 ^ 32 -> isspace d = true -> unread s = spell (LHex n) ++ d :: rest ->
  exists s', number s = Some (set_num (i32 n) (set_type TOK_NUM s')) /\ took (spell (LHex n)) s s' /\ CUR_TOK s' = CUR_TOK s.
Proof.
  intros Hn Hd Eu. destruct (hex_digits_spec 8 n) as (Ev & Hdig & Hlen); [simpl; lia |].
  destruct (not_space_digit d Hd) as (_ & Hd1 & _).
  cbn [spell] in Eu. rewrite <- !app_comm_cons in Eu. destruct (took_skip2 _ _ _ _ Eu) as [T2 E2].
  unfold number. rewrite peek_unread, !followed_unread, Eu. cbn [hd].
  change (48 =? 48) with true. change (120 =? 120) with true. cbn [andb orb].
  destruct (hex_loop_spec (rev (hex_digits 8 n)) (lex_fuel s) 0 (skip (skip s)) (d :: rest)) as (s' & E & T & Et).
  { by apply Forall_rev. } { done. } { done. }
  { rewrite length_rev. unfold lex_fuel. rewrite <- length_unread, Eu. simpl. rewrite length_app, length_rev. lia. }
  exists s'. rewrite E. cbn [mbind option_bind]. rewrite Ev. split; [done |]. split.
  - by apply (took_trans [48; 120] _ s (skip (skip s))).
  - by rewrite Et, !CUR_TOK_skip.
Qed.

(** ** Words and literals *)

(** [l] is what the token's string holds before index [n]. *)
Definition stored (n : nat) (l : list Z) (s : lexer) : Prop :=
  take n (str_val (CUR_TOK s)) = l /\ length (str_val (CUR_TOK s)) = 128%nat.

Lemma stored_char n l c s : stored n l s -> (n < 128)%nat -> stored (S n) (l ++ [c]) (set_char n c s).
Proof.
  intros [<- Hl] Hn. split; [| simpl; by rewrite length_insert]. simpl.
  rewrite (insert_take_drop _ n c) by lia.
  rewrite take_app, length_take, Hl. replace (S n - n `min` 128)%nat with 1%nat by lia.
  rewrite take_ge by (rewrite length_take; lia). done.
Qed.

Lemma stored_end n l s : stored n l s -> (n <= 127)%nat -> no_nul l -> cstr (str_val (CUR_TOK (set_char n 0 s))) = l.
Proof.
  intros [<- Hl] Hn Hnul. simpl. rewrite (insert_take_drop _ n 0) by lia. by apply cstr_app_nul.
Qed.

(** What the scanners keep of the token. *)
Definition same_head (s s' : lexer) : Prop :=
  num_val (CUR_TOK s') = num_val (CUR_TOK s) /\ line (CUR_TOK s') = line (CUR_TOK s).

Lemma ident_loop_spec l : forall fuel n w s rest,
  Forall (fun c => ident_char c = true) l -> match rest with c :: _ => ident_char c = false | [] => True end ->
  unread s = l ++ rest -> (length l < fuel)%nat -> (n + length l <= 127)%nat -> stored n w s ->
  exists s', ident_loop fuel n s = Some ((n + length l)%nat, s') /\ took l s s' /\
    stored (n + length l) (w ++ l) s' /\ same_head s s'.
Proof.
  induction l as [| c l IH]; intros fuel n w s rest Hl Hr Eu Hf Hn Hst;
    (destruct fuel as [| fuel]; [simpl in *; lia |]); cbn [ident_loop]; rewrite unread_more, peek_unread, Eu.
  - exists s. cbn [length app]. rewrite Nat.add_0_r, app_nil_r.
    split; [| split; [apply took_nil | by split]].
    destruct rest as [| c rest]; [done |]. cbn [hd andb]. by rewrite Hr.
  - apply Forall_cons in Hl as [Hc Hl]. cbn [app hd andb]. rewrite Hc. simpl in Hn.
    rewrite (proj2 (Nat.ltb_lt n 127)) by lia. rewrite next_char_eq, peek_unread, Eu. cbn [app hd].
    rewrite <- app_comm_cons in Eu. destruct (took_skip _ _ _ Eu) as [T E1].
    assert (Hst' : stored (S n) (w ++ [c]) (set_char n c (skip s))).
    { apply stored_char; [| lia]. unfold stored. by rewrite CUR_TOK_skip. }
    destruct (IH fuel (S n) (w ++ [c]) (set_char n c (skip s)) rest Hl Hr E1) as (s' & -> & T' & Hst'' & Hh);
      [simpl in Hf; lia | lia | done |].
    exists s'. split; [do 2 f_equal; simpl; lia |]. split; [| split].
    + apply (took_trans [c] l s (skip s)); [done |]. by apply (took_keeps_l (set_char n c)).
    + rewrite <- app_assoc in Hst''. simpl length. by rewrite Nat.add_succ_r.
    + unfold same_head in *. simpl in Hh. by rewrite CUR_TOK_skip in Hh.
Qed.

(** The escapes of a literal with that quote are undone. *)
Definition unescapes (quote : Z) (unesc : Z -> Z) : Prop := forall c,
  (c <> 10 /\ c <> 9 /\ c <> 92 /\ c <> quote /\ c <> 0 /\ escape quote c = [c]) \/
  exists e, escape quote c = [92; e] /\ unesc e = c.

Lemma unescapes_str : unescapes 34 unescape_str.
Proof.
  intros c. unfold escape. repeat case_if; breflect; subst; eauto 10.
Qed.

Lemma unescapes_char : unescapes 39 unescape_char.
Proof.
  intros c. unfold escape. repeat case_if; breflect; subst; eauto 10.
Qed.

Lemma string_loop_spec l : forall fuel n w s rest,
  unread s = concat (map (escape 34) l) ++ 34 :: rest -> (length l < fuel)%nat -> (n + length l <= 127)%nat ->
  stored n w s ->
  exists s', string_loop fuel n s = Some ((n + length l)%nat, s') /\ took (concat (map (escape 34) l)) s s' /\
    stored (n + length l) (w ++ l) s' /\ same_head s s'.
Proof.
  induction l as [| c l IH]; intros fuel n w s rest Eu Hf Hn Hst;
    (destruct fuel as [| fuel]; [simpl in *; lia |]); cbn [string_loop]; rewrite unread_more, peek_unread.
  - rewrite Eu. exists s. simpl. rewrite Nat.add_0_r, app_nil_r.
    split; [done |]. split; [apply took_nil | by split].
  - cbn [map concat] in Eu. rewrite <- app_assoc in Eu. simpl in Hn.
    (* what remains to do once the character is read *)
    assert (Hgo : forall s1, took (escape 34 c) s s1 -> CUR_TOK s1 = CUR_TOK s ->
      exists s', string_loop fuel (S n) (set_char n c s1) = Some ((n + S (length l))%nat, s') /\
        took (concat (map (escape 34) (c :: l))) s s' /\ stored (n + S (length l)) (w ++ c :: l) s' /\ same_head s s').
    { intros s1 T Et. pose proof (took_rest _ _ _ _ Eu T) as E1.
      assert (Hst' : stored (S n) (w ++ [c]) (set_char n c s1)).
      { apply stored_char; [| lia]. unfold stored. by rewrite Et. }
      destruct (IH fuel (S n) (w ++ [c]) (set_char n c s1) rest E1) as (s' & -> & T' & Hst'' & Hh);
        [simpl in Hf; lia | lia | done |].
      exists s'. split; [do 2 f_equal; lia |]. split; [| split].
      - apply (took_trans (escape 34 c) _ s s1); [done |]. by apply (took_keeps_l (set_char n c)).
      - rewrite <- app_assoc in Hst''. by rewrite Nat.add_succ_r.
      - unfold same_head in *. simpl in Hh. by rewrite Et in Hh. }
    destruct (unescapes_str c) as [(H1 & H2 & H3 & H4 & H5 & He) | (e & He & Hue)]; rewrite He in Eu;
      simpl app in Eu; rewrite Eu; cbn [hd andb].
    + rewrite (proj2 (Z.eqb_neq c 34) H4). cbn [negb].
      rewrite next_char_eq, peek_unread, Eu. cbn [hd]. rewrite (proj2 (Z.eqb_neq c 92) H3). cbn iota beta.
      rewrite (proj2 (Nat.ltb_lt n 127)) by lia.
      destruct (took_skip _ _ _ Eu) as [T _]. apply Hgo; [by rewrite He | apply CUR_TOK_skip].
    + change (negb (92 =? 34)) with true. cbn iota.
      rewrite next_char_eq, peek_unread, Eu. cbn [hd]. change (92 =? 92) with true. cbn iota beta.
      rewrite next_char_eq, peek_unread, unread_skip, Eu. cbn [tl hd]. cbn iota beta. rewrite Hue.
      rewrite (proj2 (Nat.ltb_lt n 127)) by lia.
      destruct (took_skip2 _ _ _ _ Eu) as [T _]. apply Hgo; [by rewrite He | by rewrite !CUR_TOK_skip].
Qed.

(** ** One token *)

(** [next] after the white space. *)
Definition reset (s : lexer) : lexer := set_char 0 0 (set_num 0 (set_line (CUR_LINE s) s)).
Definition scan (s : lexer) : option lexer :=
  if (SRC_LEN s <=? POS s)%nat then Some (set_type TOK_EOF s) else
  let c := peek_char s in
  if c =? 39 then Some (char_literal s) else
  if isdigit c then number s else
  if isalpha c || (c =? 95) then identifier s else
  if c =? 34 then string_literal s else
  Some (operator c (skip s)).

Lemma next_scan s : next s = (s1 ← skip_ws (lex_fuel s) s; scan (reset s1)).
Proof. reflexivity. Qed.

(** The token is blank, as [next] makes it before it scans. *)
Definition blank (s : lexer) : Prop :=
  num_val (CUR_TOK s) = 0 /\ head (str_val (CUR_TOK s)) = Some 0 /\ length (str_val (CUR_TOK s)) = 128%nat.

Lemma blank_cstr s : blank s -> cstr (str_val (CUR_TOK s)) = [].
Proof. intros (_ & Hh & _). destruct (str_val (CUR_TOK s)); [done |]. by injection Hh as ->. Qed.

Lemma blank_stored s : blank s -> stored 0 [] s.
Proof. intros (_ & _ & Hl). by split. Qed.

Lemma blank_reset s : length (str_val (CUR_TOK s)) = 128%nat -> blank (reset s).
Proof.
  intros Hl. split; [done |]. simpl. rewrite length_insert. split; [| done].
  destruct (str_val (CUR_TOK s)); [done |]. done.
Qed.

(** The scanner has recognised [x]. *)
Definition recognised (x : lexeme) (s s' : lexer) : Prop :=
  took (spell x) s s' /\ token_view (CUR_TOK s') = meaning x /\ line (CUR_TOK s') = line (CUR_TOK s) /\
  length (str_val (CUR_TOK s')) = 128%nat.

Lemma recognised_number x v s s' :
  meaning x = (TOK_NUM, v, []) -> blank s -> took (spell x) s s' -> CUR_TOK s' = CUR_TOK s ->
  recognised x s (set_num v (set_type TOK_NUM s')).
Proof.
  intros Hm Hb T Et. split; [by apply took_keeps, took_keeps |].
  unfold token_view. simpl. rewrite Et, Hm, (blank_cstr s Hb). split; [done |]. split; [done | apply Hb].
Qed.

Lemma scan_more s c l : unread s = c :: l -> scan s =
  (if c =? 39 then Some (char_literal s) else if isdigit c then number s else
   if isalpha c || (c =? 95) then identifier s else if c =? 34 then string_literal s else
   Some (operator c (skip s))).
Proof. intros E. unfold scan. by rewrite unread_end, peek_unread, E. Qed.

Lemma digit_not_quote c : isdigit c = true -> (c =? 39) = false.
Proof. unfold isdigit. intros. breflect. apply Z.eqb_neq. lia. Qed.

Lemma scan_dec n s d rest :
  0 <= n < 2 ^ 31 -> isspace d = true -> unread s = print_int n ++ d :: rest -> blank s ->
  exists s', scan s = Some s' /\ recognised (LDec n) s s'.
Proof.
  intros Hn Hd Eu Hb. destruct (decimal_spec n s d rest Hn Hd Eu) as (s' & E & T & Et).
  destruct (print_int_spec n Hn) as (_ & Hdig & Hne & _).
  destruct (print_int n) as [| c l] eqn:Ep; [done |]. apply Forall_cons in Hdig as [Hc _].
  rewrite <- app_comm_cons in Eu. rewrite (scan_more _ _ _ Eu), digit_not_quote, Hc, E by done.
  eexists. split; [done |]. apply recognised_number; simpl; try done. by rewrite Ep.
Qed.

Lemma scan_hex n s d rest :
  0 <= n < 2 ^ 32 -> isspace d = true -> unread s = spell (LHex n) ++ d :: rest -> blank s ->
  exists s', scan s = Some s' /\ recognised (LHex n) s s'.
Proof.
  intros Hn Hd Eu Hb. destruct (hexadecimal_spec n s d rest Hn Hd Eu) as (s' & E & T & Et).
  pose proof Eu as Eu'. cbn [spell] in Eu'. rewrite <- app_comm_cons in Eu'.
  rewrite (scan_more _ _ _ Eu'). change (48 =? 39) with false. change (isdigit 48) with true. cbn iota.
  rewrite E. eexists. split; [done |]. by apply recognised_number.
Qed.

Lemma scan_char c s d rest :
  unread s = spell (LChar c) ++ d :: rest -> blank s ->
  exists s', scan s = Some s' /\ recognised (LChar c) s s'.
Proof.
  intros Eu Hb. cbn [spell] in Eu. rewrite <- app_comm_cons, <- app_assoc in Eu.
  rewrite (scan_more _ _ _ Eu). change (39 =? 39) with true. cbn iota. eexists. split; [done |].
  destruct (took_skip _ _ _ Eu) as [T1 E1]. unfold char_literal. cbv zeta.
  rewrite (next_char_eq (skip s)). cbn iota beta.
  assert (Hend : forall s1, took (39 :: escape 39 c) s s1 -> CUR_TOK s1 = CUR_TOK s -> unread s1 = 39 :: d :: rest ->
    recognised (LChar c) s (set_num c (set_type TOK_NUM (if peek_char s1 =? 39 then skip s1 else s1)))).
  { intros s1 T Et E. rewrite peek_unread, E. cbn [hd]. change (39 =? 39) with true. cbn iota.
    destruct (took_skip _ _ _ E) as [T3 _].
    apply recognised_number; [done | done | | by rewrite CUR_TOK_skip].
    cbn [spell]. rewrite app_comm_cons. by apply (took_trans _ [39] s s1). }
  rewrite peek_unread, E1.
  destruct (unescapes_char c) as [(_ & _ & H92 & H39 & _ & He) | (e & He & Hue)]; rewrite He in *;
    simpl app in *; cbn [hd].
  - rewrite (proj2 (Z.eqb_neq c 92) H92). cbn iota beta.
    destruct (took_skip _ _ _ E1) as [T2 E2]. apply Hend; [| by rewrite !CUR_TOK_skip | done].
    by apply (took_trans [39] [c] s (skip s)).
  - change (92 =? 92) with true. cbn iota beta. rewrite next_char_eq. cbn iota beta.
    rewrite peek_unread, unread_skip, E1. cbn [tl hd]. rewrite Hue.
    destruct (took_skip2 _ _ _ _ E1) as [T2 E2]. apply Hend; [| by rewrite !CUR_TOK_skip | done].
    by apply (took_trans [39] [92; e] s (skip s)).
Qed.

Lemma scan_str l s d rest :
  (length l <= 127)%nat -> no_nul l -> unread s = spell (LStr l) ++ d :: rest -> blank s ->
  exists s', scan s = Some s' /\ recognised (LStr l) s s'.
Proof.
  intros Hl Hn Eu Hb. cbn [spell] in Eu. rewrite <- app_comm_cons, <- app_assoc in Eu.
  rewrite (scan_more _ _ _ Eu). cbn [Z.eqb Pos.eqb]. change (isdigit 34) with false.
  change (isalpha 34) with false. cbn [orb]. cbn iota. unfold string_literal.
  destruct (took_skip _ _ _ Eu) as [T1 E1].
  assert (Hst : stored 0 [] (skip s)) by (unfold stored; rewrite CUR_TOK_skip; by apply blank_stored).
  destruct (string_loop_spec l (lex_fuel s) 0 [] (skip s) (d :: rest) E1) as (s1 & -> & T2 & Hst' & Hh);
    [| simpl; lia | done |].
  { unfold lex_fuel. rewrite <- length_unread, Eu. simpl. rewrite length_app.
    assert (forall l, (length l <= length (concat (map (escape 34) l)))%nat); [| specialize (H l); lia].
    clear. intros l. induction l as [| c l IH]; [done |]. simpl. rewrite length_app.
    assert (1 <= length (escape 34 c))%nat by (unfold escape; repeat case_if; simpl; lia). lia. }
  cbn [mbind option_bind]. cbn [Nat.add] in *. pose proof (took_rest _ _ _ _ E1 T2) as E2.
  unfold same_head in Hh. rewrite CUR_TOK_skip in Hh.
  change (peek_char (set_char (length l) 0 s1)) with (peek_char s1).
  rewrite peek_unread, E2. change (hd 0 ([34] ++ d :: rest) =? 34) with true. cbn iota.
  eexists. split; [done |].
  assert (E2' : unread (set_char (length l) 0 s1) = 34 :: d :: rest) by done.
  destruct (took_skip _ _ _ E2') as [T3 _]. split; [| split; [| split]].
  - apply took_keeps; [done |]. cbn [spell]. rewrite app_comm_cons. apply (took_trans _ [34] s s1).
    + by apply (took_trans [34] _ s (skip s)).
    + by apply (took_keeps_l (set_char (length l) 0)).
  - unfold token_view. cbn [CUR_TOK set_type set_tok tt num_val str_val]. rewrite CUR_TOK_skip.
    rewrite (stored_end _ _ _ Hst') by done.
    change (num_val (CUR_TOK (set_char (length l) 0 s1))) with (num_val (CUR_TOK s1)).
    rewrite (proj1 Hh). by destruct Hb as (-> & _).
  - cbn [CUR_TOK set_type set_tok line]. rewrite CUR_TOK_skip. exact (proj2 Hh).
  - cbn [CUR_TOK set_type set_tok str_val]. rewrite CUR_TOK_skip. simpl. rewrite length_insert. apply Hst'.
Qed.

Lemma ident_not_nul w : Forall (fun c => ident_char c = true) w -> no_nul w.
Proof. intros Hw. eapply Forall_impl; [exact Hw |]. simpl. intros c Hc ->. discriminate Hc. Qed.

Lemma scan_word w ty s d rest :
  (length w <= 127)%nat -> Forall (fun c => ident_char c = true) w ->
  match w with c :: _ => isdigit c = false | [] => False end ->
  default TOK_IDENT (find_keyword KEYWORDS w) = ty ->
  isspace d = true -> unread s = w ++ d :: rest -> blank s ->
  exists s', scan s = Some s' /\ took w s s' /\ token_view (CUR_TOK s') = (ty, 0, w) /\
    line (CUR_TOK s') = line (CUR_TOK s) /\ length (str_val (CUR_TOK s')) = 128%nat.
Proof.
  intros Hl Hw Hc Hk Hd Eu Hb. pose proof (ident_not_nul _ Hw) as Hnul.
  destruct (ident_loop_spec w (lex_fuel s) 0 [] s (d :: rest) Hw) as (s1 & E & T & Hst & Hh);
    [by apply not_space_digit | done | | simpl; lia | by apply blank_stored |].
  { unfold lex_fuel. rewrite <- length_unread, Eu, length_app. lia. }
  cbn [Nat.add app] in E, Hst.
  assert (Hid : identifier s = Some (set_type ty (set_char (length w) 0 s1))).
  { unfold identifier. rewrite E. cbn [mbind option_bind].
    rewrite (stored_end _ _ _ Hst) by done. rewrite <- Hk. by destruct (find_keyword KEYWORDS w). }
  exists (set_type ty (set_char (length w) 0 s1)). split; [| split; [| split; [| split]]].
  - destruct w as [| c w]; [done |]. rewrite <- app_comm_cons in Eu. rewrite (scan_more _ _ _ Eu), Hid, Hc.
    apply Forall_cons in Hw as [Hcw _]. unfold ident_char, isalnum in Hcw. rewrite Hc, orb_false_r in Hcw.
    rewrite Hcw. destruct (Z.eqb_spec c 39) as [-> |]; [discriminate Hcw | done].
  - by apply took_keeps, took_keeps.
  - unfold token_view. cbn [CUR_TOK set_type set_tok tt num_val str_val].
    rewrite (stored_end _ _ _ Hst) by done. simpl num_val. rewrite (proj1 Hh). by destruct Hb as (-> & _).
  - exact (proj2 Hh).
  - simpl. rewrite length_insert. apply Hst.
Qed.

Definition keyword_ok (e : list Z * tok_type) : bool :=
  (length e.1 <=? 127)%nat && forallb ident_char e.1 &&
  match e.1 with c :: _ => negb (isdigit c) | [] => false end &&
  bool_decide (find_keyword KEYWORDS e.1 = Some e.2).

Lemma keywords_ok : forallb keyword_ok KEYWORDS = true.
Proof. by vm_compute. Qed.

Lemma keyword_spec w ty : (w, ty) ∈ KEYWORDS ->
  (length w <= 127)%nat /\ Forall (fun c => ident_char c = true) w /\
  match w with c :: _ => isdigit c = false | [] => False end /\ find_keyword KEYWORDS w = Some ty.
Proof.
  intros Hin%list_elem_of_In. pose proof (proj1 (forallb_forall _ _) keywords_ok _ Hin) as Hk.
  unfold keyword_ok in Hk. cbn [fst snd] in Hk. apply andb_prop in Hk as [Hk H4].
  apply andb_prop in Hk as [Hk H3]. apply andb_prop in Hk as [H1 H2].
  apply Nat.leb_le in H1. apply bool_decide_eq_true in H4. split; [done |]. split.
  - apply List.Forall_forall. by apply forallb_forall.
  - split; [| done]. destruct w; [done |]. by apply negb_true_iff.
Qed.

(** An operator followed by white space. *)
Definition operator_ok (e : list Z * tok_type) : Prop :=
  match e.1 with
  | [c] => forall s d, isspace d = true -> peek_char s = d -> operator c s = set_type e.2 s
  | [c; c2] => forall s, peek_char s = c2 -> operator c s = set_type e.2 (skip s)
  | _ => False
  end.

Lemma operators_ok : Forall operator_ok OPERATORS.
Proof.
  unfold OPERATORS. repeat apply Forall_cons_2; try apply Forall_nil_2; unfold operator_ok; cbn [fst snd str map];
    first
    [ intros s d Hd Hp; unfold operator, either; rewrite Hp; apply isspace_cases in Hd;
      repeat (destruct Hd as [-> | Hd]; [reflexivity |]); rewrite Hd; reflexivity
    | intros s Hp; unfold operator, either; rewrite Hp; reflexivity ].
Qed.

Definition op_head_ok (e : list Z * tok_type) : bool :=
  match e.1 with
  | c :: l => negb (isdigit c) && negb (isalpha c || (c =? 95)) && negb (c =? 39) && negb (c =? 34) &&
              negb (isspace c) && (length l <=? 1)%nat &&
              match l with x :: _ => negb (x =? 42) && negb (x =? 47) | [] => true end
  | [] => false
  end.
Lemma op_heads_ok : forallb op_head_ok OPERATORS = true.
Proof. by vm_compute. Qed.

Lemma scan_operator w ty s d rest :
  (w, ty) ∈ OPERATORS -> isspace d = true -> unread s = w ++ d :: rest -> blank s ->
  exists s', scan s = Some s' /\ recognised (LOperator w ty) s s'.
Proof.
  intros Hin Hd Eu Hb. pose proof (proj1 (Forall_forall _ _) operators_ok _ Hin) as Hop.
  apply list_elem_of_In in Hin. pose proof (proj1 (forallb_forall _ _) op_heads_ok _ Hin) as Hh.
  unfold operator_ok in Hop. unfold op_head_ok in Hh. cbn [fst snd] in *.
  destruct w as [| c l]; [done |]. breflect.
  rewrite <- app_comm_cons in Eu.
  assert (Hsc : scan s = Some (operator c (skip s))).
  { rewrite (scan_more _ _ _ Eu). repeat match goal with H : _ = false |- _ => rewrite H end.
    rewrite !(proj2 (Z.eqb_neq c _)) by done. done. }
  destruct (took_skip _ _ _ Eu) as [T1 E1].
  assert (Hdone : forall s1, took (c :: l) s s1 -> CUR_TOK s1 = CUR_TOK s ->
    recognised (LOperator (c :: l) ty) s (set_type ty s1)).
  { intros s1 T Et. split; [by apply took_keeps |]. unfold token_view. simpl. rewrite Et, (blank_cstr s Hb).
    destruct Hb as (-> & _ & ?). done. }
  destruct l as [| c2 [| c3 l]]; [| | done].
  - rewrite Hsc, (Hop (skip s) d Hd) by (by rewrite peek_unread, E1).
    eexists. split; [done |]. apply Hdone; [done | apply CUR_TOK_skip].
  - rewrite Hsc, (Hop (skip s)) by (by rewrite peek_unread, E1).
    destruct (took_skip2 _ _ _ _ Eu) as [T2 _].
    eexists. split; [done |]. apply Hdone; [done | by rewrite !CUR_TOK_skip].
Qed.

(** ** Token streams *)

(** The tokens up to the end of the text, with their lines. *)
Fixpoint lex_all (fuel : nat) (s : lexer) : option (list (tok_type * Z * list Z * Z) * lexer) :=
  match fuel with
  | O => None
  | S fuel =>
      s ← next s;
      if decide (tt (CUR_TOK s) = TOK_EOF) then Some ([], s)
      else
        let t := (token_view (CUR_TOK s), line (CUR_TOK s)) in
        '(l, s) ← lex_all fuel s; Some (t :: l, s)
  end.

Lemma lex_all_S fuel s : lex_all (S fuel) s =
  (s ← next s;
   if decide (tt (CUR_TOK s) = TOK_EOF) then Some ([], s)
   else '(l, s') ← lex_all fuel s; Some ((token_view (CUR_TOK s), line (CUR_TOK s)) :: l, s')).
Proof. reflexivity. Qed.

(** Each token is followed by a white-space character and a gap. *)
Definition item := (lexeme * Z * list gap)%type.
Definition item_ok (i : item) : Prop :=
  lexeme_ok i.1.1 /\ isspace i.1.2 = true /\ Forall gap_ok i.2.

Fixpoint stream_text (gs : list gap) (l : list item) : list Z :=
  gaps_text gs ++ match l with [] => [] | (x, d, gs') :: l => spell x ++ stream_text (Blank d :: gs') l end.

Fixpoint stream_tokens (n : Z) (gs : list gap) (l : list item) : list (tok_type * Z * list Z * Z) :=
  match l with
  | [] => []
  | (x, d, gs') :: l =>
      let n := lines_after n (gaps_text gs) in
      (meaning x, n) :: stream_tokens (lines_after n (spell x)) (Blank d :: gs') l
  end.

Lemma scan_lexeme x s d rest :
  lexeme_ok x -> isspace d = true -> unread s = spell x ++ d :: rest -> blank s ->
  exists s', scan s = Some s' /\ recognised x s s'.
Proof.
  intros Hx Hd Eu Hb. destruct x as [n | n | c | l | w | w ty | w ty]; cbn [lexeme_ok] in Hx.
  - by apply (scan_dec n s d rest).
  - by apply (scan_hex n s d rest).
  - by apply (scan_char c s d rest).
  - destruct Hx. by apply (scan_str l s d rest).
  - destruct Hx as (Hl & Hw & Hc & Hk). apply (scan_word w TOK_IDENT s d rest); try done. by rewrite Hk.
  - destruct (keyword_spec _ _ Hx) as (Hl & Hw & Hc & Hk).
    apply (scan_word w ty s d rest); try done. by rewrite Hk.
  - by apply (scan_operator w ty s d rest).
Qed.

(** White space ends where a lexeme starts. *)
Lemma spell_stops x d rest :
  lexeme_ok x -> isspace d = true -> stops (spell x ++ d :: rest).
Proof.
  intros Hx Hd.
  assert (Hword : forall w l, match w with c :: _ => ident_char c = true | [] => False end -> stops (w ++ l)).
  { intros [| c w] l Hc; [done |]. split.
    - destruct (isspace c) eqn:E; [| done]. apply not_space_digit in E as (_ & _ & E). congruence.
    - intros ->. discriminate Hc. }
  destruct x as [n | n | c | l | w | w ty | w ty]; cbn [lexeme_ok spell] in *; try (by split).
  - apply Hword. destruct (print_int_spec n Hx) as (_ & Hdig & Hne & _). destruct (print_int n); [done |].
    apply Forall_cons in Hdig as [Hc _]. unfold ident_char, isalnum. by rewrite Hc, orb_true_r.
  - apply Hword. destruct Hx as (_ & Hw & Hc & _). destruct w; [done |]. by apply Forall_cons in Hw as [? _].
  - apply Hword. destruct (keyword_spec _ _ Hx) as (_ & Hw & Hc & _). destruct w; [done |].
    by apply Forall_cons in Hw as [? _].
  - apply list_elem_of_In in Hx. pose proof (proj1 (forallb_forall _ _) op_heads_ok _ Hx) as Hh.
    unfold op_head_ok in Hh. cbn [fst] in Hh. destruct w as [| c l]; [done |]. breflect. split; [done |].
    intros ->. destruct l as [| x l].
    + simpl. apply isspace_cases in Hd. lia.
    + breflect. simpl. done.
Qed.

Lemma meaning_not_eof x : lexeme_ok x -> (meaning x).1.1 <> TOK_EOF.
Proof.
  assert (Htab : forall (tab : list (list Z * tok_type)) w ty, forallb (fun e => negb (bool_decide (e.2 = TOK_EOF))) tab = true ->
    (w, ty) ∈ tab -> ty <> TOK_EOF).
  { intros tab w ty Ht Hin%list_elem_of_In. pose proof (proj1 (forallb_forall _ _) Ht _ Hin) as Hn.
    apply negb_true_iff, bool_decide_eq_false in Hn. done. }
  destruct x as [n | n | c | l | w | w ty | w ty]; cbn [meaning fst lexeme_ok]; try done; intros Hx.
  - apply (Htab KEYWORDS w ty); [by vm_compute | done].
  - apply (Htab OPERATORS w ty); [by vm_compute | done].
Qed.

Lemma stream_text_unfold gs l : stream_text gs l =
  gaps_text gs ++ match l with [] => [] | (x, d, gs') :: l => spell x ++ stream_text (Blank d :: gs') l end.
Proof. by destruct l. Qed.

Lemma stream_head d gs l : exists rest, stream_text (Blank d :: gs) l = d :: rest.
Proof. rewrite stream_text_unfold. by eexists. Qed.

(** The end of the text. *)
Lemma next_eof gs s :
  Forall gap_ok gs -> unread s = gaps_text gs -> exists s', next s = Some s' /\ tt (CUR_TOK s') = TOK_EOF /\
    took (gaps_text gs) s s'.
Proof.
  intros Hg Eu. rewrite next_scan. rewrite <- (app_nil_r (gaps_text gs)) in Eu.
  destruct (skip_ws_gaps gs (lex_fuel s) s [] Hg Eu) as (s1 & -> & T & _); [done | |].
  { unfold lex_fuel. rewrite <- length_unread. lia. }
  cbn [mbind option_bind]. pose proof (took_rest _ _ _ _ Eu T) as E1.
  unfold scan. rewrite unread_end. change (unread (reset s1)) with (unread s1). rewrite E1.
  eexists. split; [done |]. split; [done |]. apply took_keeps; [done |].
  apply (took_keeps reset); [by repeat split | done].
Qed.

Lemma next_item gs x d gs' l s :
  Forall gap_ok gs -> item_ok (x, d, gs') -> unread s = stream_text gs ((x, d, gs') :: l) ->
  length (str_val (CUR_TOK s)) = 128%nat ->
  exists s', next s = Some s' /\ took (gaps_text gs ++ spell x) s s' /\ token_view (CUR_TOK s') = meaning x /\
    line (CUR_TOK s') = lines_after (CUR_LINE s) (gaps_text gs) /\ length (str_val (CUR_TOK s')) = 128%nat.
Proof.
  intros Hg (Hx & Hd & Hg') Eu Hl. cbn [fst snd] in *. rewrite stream_text_unfold in Eu.
  destruct (stream_head d gs' l) as [rest Er]. rewrite Er in Eu. rewrite next_scan.
  destruct (skip_ws_gaps gs (lex_fuel s) s _ Hg Eu) as (s1 & -> & T & Et).
  { by apply spell_stops. } { unfold lex_fuel. rewrite <- length_unread. lia. }
  cbn [mbind option_bind]. pose proof (took_rest _ _ _ _ Eu T) as E1.
  destruct (scan_lexeme x (reset s1) d rest Hx Hd E1) as (s' & -> & T' & Hv & Hline & Hlen);
    [apply blank_reset; by rewrite Et |].
  exists s'. split; [done |]. split; [| split; [done | split; [| done]]].
  - apply (took_trans _ _ s s1); [done |].
    apply (took_keeps_l reset); [by repeat split | done].
  - rewrite Hline. simpl. apply T.
Qed.

Lemma lex_all_stream l : forall gs s,
  Forall gap_ok gs -> Forall item_ok l -> unread s = stream_text gs l ->
  length (str_val (CUR_TOK s)) = 128%nat ->
  exists s', lex_all (S (length l)) s = Some (stream_tokens (CUR_LINE s) gs l, s') /\
    unread s' = [] /\ had_error s' = had_error s /\ out s' = out s.
Proof.
  induction l as [| [[x d] gs'] l IH]; intros gs s Hg Hl Eu Hlen; cbn [length].
  - cbn [stream_text] in Eu. rewrite app_nil_r in Eu.
    destruct (next_eof gs s Hg Eu) as (s' & E & Ht & T).
    exists s'. split; [cbn [lex_all]; rewrite E; cbn [mbind option_bind]; by rewrite decide_True |].
    rewrite <- (app_nil_r (gaps_text gs)) in Eu. split; [by apply (took_rest _ _ _ _ Eu T) |].
    destruct T. unfold had_error. by rewrite tk_flag0.
  - apply Forall_cons in Hl as [Hi Hl].
    destruct (next_item gs x d gs' l s Hg Hi Eu Hlen) as (s1 & E & T & Hv & Hline & Hlen1).
    destruct Hi as (Hx & Hd & Hg'). cbn [fst snd] in *.
    rewrite stream_text_unfold, app_assoc in Eu. pose proof (took_rest _ _ _ _ Eu T) as E1.
    destruct (IH (Blank d :: gs') s1) as (s' & E2 & Eu' & Herr & Hout); [by constructor | done | done | done |].
    exists s'. split; [| split; [done |]; destruct T as [_ _ _ Hf Ho]].
    + rewrite lex_all_S, E. cbn [mbind option_bind].
      rewrite decide_False.
      2: { pose proof (meaning_not_eof x Hx) as Hn. rewrite <- Hv in Hn. exact Hn. }
      rewrite E2. cbn [mbind option_bind stream_tokens]. rewrite Hv, Hline.
      destruct T as [_ _ Ht _ _]. unfold lines_after in Ht. rewrite fold_left_app in Ht. by rewrite Ht.
    + split; [rewrite Herr; unfold had_error; by rewrite Hf | by rewrite Hout].
Qed.

(** C16: a stream of tokens written out, with any white space and comments
    between them, is read back as those tokens in order: their types, values,
    names and line numbers, then the end of the text, without a diagnostic. *)
Theorem lex_roundtrip gs l o :
  Forall gap_ok gs -> Forall item_ok l ->
  exists s', lex_all (S (length l)) (init (stream_text gs l) o) = Some (stream_tokens 1 gs l, s') /\
    unread s' = [] /\ had_error s' = false /\ out s' = o.
Proof.
  intros Hg Hl.
  destruct (lex_all_stream l gs (init (stream_text gs l) o) Hg Hl eq_refl eq_refl) as (s' & E & Eu & He & Ho).
  exists s'. split; [done |]. split; [done |]. by rewrite He.
Qed.

(** ** Witness *)

(** A stream over three lines with both kinds of comment. *)
Definition demo_stream : list item := [
  (LKeyword (str "fn") TOK_FN, 32, []); (LIdent (str "f"), 32, []);
  (LOperator (str "(") TOK_LPAREN, 10, [BlockComment (str " a ")]); (LKeyword (str "return") TOK_RETURN, 32, []);
  (LHex 31, 9, []); (LOperator (str "+") TOK_PLUS, 32, []); (LChar 10, 32, []);
  (LStr (str "hi"), 32, [LineComment (str " end")]); (LDec 42, 32, []) ].

Lemma demo_stream_ok : Forall item_ok demo_stream.
Proof.
  assert (Hk : forall w ty tab, bool_decide ((w, ty) ∈ tab) = true -> (w, ty) ∈ (tab : list (list Z * tok_type)))
    by (intros w ty tab; apply bool_decide_eq_true).
  unfold demo_stream, item_ok, lexeme_ok.
  repeat apply Forall_cons_2; try apply Forall_nil_2; cbn [fst snd]; (split; [| split; [reflexivity |]]);
    try exact (Forall_nil_2 gap_ok); try (apply Hk; vm_compute; reflexivity); try lia.
  - split; [simpl; lia |]. split; [repeat constructor | by split].
  - apply Forall_cons_2; [| apply Forall_nil_2]. cbn. repeat split; intros [? ?]; discriminate.
  - unfold is_byte; lia.
  - split; [simpl; lia |]. repeat constructor; discriminate.
  - apply Forall_cons_2; [| apply Forall_nil_2]. repeat constructor; discriminate.
Qed.

Lemma lex_roundtrip_witness :
  exists s', lex_all 10 (init (stream_text [] demo_stream) []) =
    Some ([ (TOK_FN, 0, str "fn", 1); (TOK_IDENT, 0, str "f", 1); (TOK_LPAREN, 0, [], 1);
            (TOK_RETURN, 0, str "return", 2); (TOK_NUM, 31, [], 2); (TOK_PLUS, 0, [], 2); (TOK_NUM, 10, [], 2);
            (TOK_STR, 0, str "hi", 2); (TOK_NUM, 42, [], 3) ], s') /\ unread s' = [].
Proof.
  destruct (lex_roundtrip [] demo_stream [] (Forall_nil_2 gap_ok) demo_stream_ok) as (s' & E & Eu & _).
  exists s'. split; [exact E | exact Eu].
Defined.
