(* ===== verification/Emit.v ===== *)
(** The x86 machine-code emitter of the built-in compiler
    ([src/src/rc/emit.rs]): a 64 KB code buffer, one function per instruction,
    and back-patching of displacements. *)
From S2P Require Import Prelude.

(** ** The code buffer *)

Definition CC_LOAD_BASE : Z := 0x00A00000.
Definition CC_LOAD_BASE2 : Z := 0x00B00000.
Definition CC_CODE_MAX : Z := 65536.

Definition REG_EAX : Z := 0.
Definition REG_ECX : Z := 1.
Definition REG_EDX : Z := 2.
Definition REG_EBX : Z := 3.
Definition REG_ESP : Z := 4.
Definition REG_EBP : Z := 5.
Definition REG_ESI : Z := 6.
Definition REG_EDI : Z := 7.

Definition CC_E : Z := 0x04.
Definition CC_NE : Z := 0x05.
Definition CC_L : Z := 0x0C.
Definition CC_GE : Z := 0x0D.
Definition CC_LE : Z := 0x0E.
Definition CC_G : Z := 0x0F.

Record emitter := Emitter {
  CODE_BUF : list Z; CODE_POS : Z; LOAD_BASE : Z; EMIT_OVERFLOW_FLAG : Z }.

Definition set_base (base : Z) (s : emitter) : emitter :=
  Emitter (CODE_BUF s) (CODE_POS s) base (EMIT_OVERFLOW_FLAG s).
Definition get_base (s : emitter) : Z := LOAD_BASE s.

Definition init (s : emitter) : emitter :=
  Emitter (replicate (Z.to_nat CC_CODE_MAX) 0) 0 (LOAD_BASE s) 0.

Definition byte (b : Z) (s : emitter) : emitter :=
  if CODE_POS s <? CC_CODE_MAX
  then Emitter (<[Z.to_nat (CODE_POS s) := b]> (CODE_BUF s)) (u32 (CODE_POS s + 1)) (LOAD_BASE s)
         (EMIT_OVERFLOW_FLAG s)
  else Emitter (CODE_BUF s) (CODE_POS s) (LOAD_BASE s) 1.

Definition dword (d : Z) (s : emitter) : emitter :=
  let s := byte (Z.land d 0xFF) s in
  let s := byte (Z.land (Z.shiftr d 8) 0xFF) s in
  let s := byte (Z.land (Z.shiftr d 16) 0xFF) s in
  byte (Z.land (Z.shiftr d 24) 0xFF) s.

Definition pos (s : emitter) : Z := CODE_POS s.
Definition code (s : emitter) : list Z := CODE_BUF s.
Definition size (s : emitter) : Z := CODE_POS s.
Definition had_overflow (s : emitter) : bool := negb (EMIT_OVERFLOW_FLAG s =? 0).

(** [None] is the panic of an index out of range. *)
Definition patch_dword (p val : Z) (s : emitter) : option emitter :=
  if u32 (p + 4) <=? CC_CODE_MAX then
    b ← zset (CODE_BUF s) p (Z.land val 0xFF);
    b ← zset b (u32 (p + 1)) (Z.land (Z.shiftr val 8) 0xFF);
    b ← zset b (u32 (p + 2)) (Z.land (Z.shiftr val 16) 0xFF);
    b ← zset b (u32 (p + 3)) (Z.land (Z.shiftr val 24) 0xFF);
    Some (Emitter b (CODE_POS s) (LOAD_BASE s) (EMIT_OVERFLOW_FLAG s))
  else Some s.

(** ** Instructions

    Each of them is the sequence of [byte] and [dword] calls of its function. *)

Declare Scope emit_scope.
Delimit Scope emit_scope with emit.
Notation "f ;; g" := (fun s : emitter => g (f s)) (at level 100, right associativity) : emit_scope.
#[local] Open Scope emit_scope.

(** [(base | (r << 3) | rm) as u8]. *)
Definition modrm (base r rm : Z) : Z := u8 (Z.lor (Z.lor base (Z.shiftl r 3)) rm).

Definition push_imm (val : Z) : emitter -> emitter := byte 0x68 ;; dword (u32 val).
Definition push_reg (reg : Z) : emitter -> emitter := byte (u8 (0x50 + reg)).
Definition pop_reg (reg : Z) : emitter -> emitter := byte (u8 (0x58 + reg)).
Definition mov_reg_imm (reg val : Z) : emitter -> emitter := byte (u8 (0xB8 + reg)) ;; dword val.
Definition mov_reg_reg (dst src : Z) : emitter -> emitter := byte 0x89 ;; byte (modrm 0xC0 src dst).
Definition load_local (reg offset : Z) : emitter -> emitter :=
  byte 0x8B ;; byte (modrm 0x85 reg 0) ;; dword (u32 offset).
Definition store_local (offset reg : Z) : emitter -> emitter :=
  byte 0x89 ;; byte (modrm 0x85 reg 0) ;; dword (u32 offset).
Definition load_global (reg addr : Z) : emitter -> emitter :=
  byte 0x8B ;; byte (modrm 0x05 reg 0) ;; dword addr.
Definition store_global (addr reg : Z) : emitter -> emitter :=
  byte 0x89 ;; byte (modrm 0x05 reg 0) ;; dword addr.

(** The operand [[rm]] with register [r], as the four indirect accesses
    encode it. *)
Definition indirect (r rm : Z) : emitter -> emitter :=
  if rm =? REG_EBP then byte (modrm 0x45 r 0) ;; byte 0x00 else
  if rm =? REG_ESP then byte (modrm 0x04 r 0) ;; byte 0x24 else
  byte (modrm 0 r rm).

Definition load_indirect (dst src : Z) : emitter -> emitter := byte 0x8B ;; indirect dst src.
Definition load_indirect_byte (dst src : Z) : emitter -> emitter :=
  byte 0x0F ;; byte 0xB6 ;; indirect dst src.
Definition store_indirect_byte (dst src : Z) : emitter -> emitter := byte 0x88 ;; indirect src dst.
Definition store_indirect (dst src : Z) : emitter -> emitter := byte 0x89 ;; indirect src dst.

Definition add (dst src : Z) : emitter -> emitter := byte 0x01 ;; byte (modrm 0xC0 src dst).
Definition sub (dst src : Z) : emitter -> emitter := byte 0x29 ;; byte (modrm 0xC0 src dst).
Definition imul (dst src : Z) : emitter -> emitter :=
  byte 0x0F ;; byte 0xAF ;; byte (modrm 0xC0 dst src).
Definition idiv_ecx : emitter -> emitter := byte 0x99 ;; byte 0xF7 ;; byte 0xF9.
Definition neg (reg : Z) : emitter -> emitter := byte 0xF7 ;; byte (u8 (Z.lor 0xD8 reg)).
Definition not (reg : Z) : emitter -> emitter := byte 0xF7 ;; byte (u8 (Z.lor 0xD0 reg)).
Definition and (dst src : Z) : emitter -> emitter := byte 0x21 ;; byte (modrm 0xC0 src dst).
Definition or (dst src : Z) : emitter -> emitter := byte 0x09 ;; byte (modrm 0xC0 src dst).
Definition xor (dst src : Z) : emitter -> emitter := byte 0x31 ;; byte (modrm 0xC0 src dst).
Definition shl (dst : Z) : emitter -> emitter := byte 0xD3 ;; byte (u8 (Z.lor 0xE0 dst)).
Definition shr (dst : Z) : emitter -> emitter := byte 0xD3 ;; byte (u8 (Z.lor 0xE8 dst)).
Definition cmp (a b : Z) : emitter -> emitter := byte 0x39 ;; byte (modrm 0xC0 b a).
Definition setcc (cc reg : Z) : emitter -> emitter :=
  byte 0x0F ;; byte (u8 (0x90 + cc)) ;; byte (u8 (Z.lor 0xC0 reg)).
Definition call_abs (addr : Z) : emitter -> emitter :=
  mov_reg_imm REG_EAX addr ;; byte 0xFF ;; byte 0xD0.
Definition call_rel (offset : Z) : emitter -> emitter := byte 0xE8 ;; dword (u32 offset).
Definition ret : emitter -> emitter := byte 0xC3.
Definition jmp_rel (offset : Z) : emitter -> emitter := byte 0xE9 ;; dword (u32 offset).

Definition jmp_placeholder (s : emitter) : Z * emitter :=
  let s := byte 0xE9 s in (pos s, dword 0 s).
Definition jcc_placeholder (cc : Z) (s : emitter) : Z * emitter :=
  let s := (byte 0x0F ;; byte (u8 (0x80 + cc))) s in (pos s, dword 0 s).

Definition prologue (local_size : Z) : emitter -> emitter :=
  byte 0x55 ;; byte 0x89 ;; byte 0xE5 ;;
  (if local_size >? 0 then byte 0x81 ;; byte 0xEC ;; dword (u32 local_size) else fun s => s).
Definition epilogue : emitter -> emitter := byte 0x89 ;; byte 0xEC ;; byte 0x5D ;; byte 0xC3.
Definition add_esp (n : Z) : emitter -> emitter := byte 0x81 ;; byte 0xC4 ;; dword (u32 n).
Definition cmp_eax_imm (val : Z) : emitter -> emitter := byte 0x3D ;; dword (u32 val).
Definition movzx_eax_al : emitter -> emitter := byte 0x0F ;; byte 0xB6 ;; byte 0xC0.

(** ** What is in the buffer *)

(** A buffer of 64 KB, written up to [CODE_POS]. *)
Record wf (s : emitter) : Prop := {
  wf_len : Z.of_nat (length (CODE_BUF s)) = CC_CODE_MAX; wf_pos : 0 <= CODE_POS s <= CC_CODE_MAX }.

(** The code emitted so far. *)
Definition emitted (s : emitter) : list Z := take (Z.to_nat (CODE_POS s)) (CODE_BUF s).

Definition bytes (l : list Z) (s : emitter) : emitter := fold_left (fun s b => byte b s) l s.

Lemma bytes_app l1 l2 s : bytes (l1 ++ l2) s = bytes l2 (bytes l1 s).
Proof. apply fold_left_app. Qed.

Lemma byte_spec b s : wf s -> wf (byte b s) /\
  (CODE_POS s < CC_CODE_MAX -> emitted (byte b s) = emitted s ++ [b] /\ EMIT_OVERFLOW_FLAG (byte b s) = EMIT_OVERFLOW_FLAG s) /\
  (CODE_POS s = CC_CODE_MAX -> emitted (byte b s) = emitted s /\ EMIT_OVERFLOW_FLAG (byte b s) = 1).
Proof.
  intros [Hl Hp]. unfold byte, emitted. unfold CC_CODE_MAX in *.
  destruct (Z.ltb_spec (CODE_POS s) 65536); simpl.
  - rewrite u32_small by lia. split; [split; cbn; unfold CC_CODE_MAX; rewrite ?length_insert; lia |].
    split; [intros _ | lia]. split; [| done].
    replace (Z.to_nat (CODE_POS s + 1)) with (S (Z.to_nat (CODE_POS s))) by lia.
    rewrite (take_S_r _ _ b) by (apply list_lookup_insert_eq; lia). by rewrite take_insert_ge by lia.
  - split; [by split |]. split; [lia | done].
Qed.

(** Emitting [l]: as many of its bytes as fit; the flag tells whether one was
    dropped. *)
Lemma bytes_spec l : forall s, wf s -> wf (bytes l s) /\
  emitted (bytes l s) = emitted s ++ take (Z.to_nat (CC_CODE_MAX - CODE_POS s)) l /\
  EMIT_OVERFLOW_FLAG (bytes l s) =
    (if CODE_POS s + Z.of_nat (length l) <=? CC_CODE_MAX then EMIT_OVERFLOW_FLAG s else 1) /\
  CODE_POS (bytes l s) = Z.min CC_CODE_MAX (CODE_POS s + Z.of_nat (length l)).
Proof.
  induction l as [| b l IH]; intros s Hw.
  - destruct Hw as [Hl Hp]. simpl. rewrite take_nil, app_nil_r, Z.add_0_r, (proj2 (Z.leb_le _ _)) by lia.
    split; [by split | split; [done | split; [done | lia]]].
  - destruct (byte_spec b s Hw) as (Hw1 & Hlt & Heq). destruct (IH _ Hw1) as (Hw' & He & Hf & Hp').
    change (bytes (b :: l) s) with (bytes l (byte b s)). split; [done |].
    assert (Hc : CODE_POS (byte b s) = if CODE_POS s <? CC_CODE_MAX then CODE_POS s + 1 else CODE_POS s).
    { unfold byte. destruct Hw as [_ Hp]. case_if; [| done]. cbn. apply u32_small. unfold CC_CODE_MAX in *. breflect; lia. }
    destruct Hw as [_ Hp]. rewrite He, Hf, Hp', Hc. simpl length.
    destruct (Z.ltb_spec (CODE_POS s) CC_CODE_MAX).
    + destruct (Hlt ltac:(lia)) as [-> ->].
      replace (Z.to_nat (CC_CODE_MAX - CODE_POS s)) with (S (Z.to_nat (CC_CODE_MAX - (CODE_POS s + 1)))) by lia.
      rewrite <- app_assoc. split; [done |].
      replace (CODE_POS s + 1 + Z.of_nat (length l)) with (CODE_POS s + Z.of_nat (S (length l))) by lia.
      split; [done | lia].
    + destruct (Heq ltac:(lia)) as [-> ->].
      replace (Z.to_nat (CC_CODE_MAX - CODE_POS s)) with 0%nat by lia.
      split; [by rewrite !take_0 |]. split; [| lia].
      rewrite (proj2 (Z.leb_gt (CODE_POS s + Z.of_nat (S (length l))) _)) by lia. by case_if.
Qed.
