(* ===== verification/EmitDecode.v ===== *)
(** The emitter ([Emit]) against the x86 instruction encoding: a decoder for the
    instruction forms it uses, and the theorems that emitted code decodes to the
    instructions asked for and that a patched jump lands where it should. *)
From S2P Require Import Prelude Emit.
#[local] Open Scope emit_scope.

(** ** Instructions and their encoding

    The forms of the 32-bit instruction set, with ModR/M operands: a register,
    memory at a base register plus displacement, memory at an absolute
    address. *)
Inductive operand := OReg (r : Z) | OMem (base disp : Z) | OAbs (addr : Z).
Inductive alu := ADD | OR | AND | SUB | XOR | CMP.
Inductive x86 :=
| PUSH_imm (v : Z) | PUSH (r : Z) | POP (r : Z) | MOV_imm (r v : Z)
| MOV_to (o : operand) (r : Z) | MOV_from (r : Z) (o : operand)
| MOVB_to (o : operand) (r : Z) | MOVZXB (r : Z) (o : operand)
| ALU (f : alu) (o : operand) (r : Z) | ALU_imm (f : alu) (o : operand) (v : Z)
| IMUL (r : Z) (o : operand) | CDQ | IDIV (o : operand) | NEG (o : operand) | NOT (o : operand)
| SHL_cl (o : operand) | SHR_cl (o : operand) | SETCC (cc : Z) (o : operand)
| CALL_ind (o : operand) | CALL (rel : Z) | RET | JMP (rel : Z) | JCC (cc rel : Z).

Definition dec32 (l : list Z) : option (Z * list Z) :=
  match l with
  | a :: b :: c :: d :: l => Some (le_val [a; b; c; d], l)
  | _ => None
  end.

(** The register field, the operand and what follows a ModR/M byte. *)
Definition dec_modrm (l : list Z) : option (Z * operand * list Z) :=
  match l with
  | [] => None
  | m :: l =>
      let md := m / 64 in let r := m / 8 mod 8 in let rm := m mod 8 in
      if md =? 3 then Some (r, OReg rm, l) else
      '(base, l) ← (if rm =? 4 then match l with sib :: l => if sib =? 0x24 then Some (4, l) else None | [] => None end
                    else Some (rm, l));
      if md =? 0 then
        if rm =? 5 then '(a, l) ← dec32 l; Some (r, OAbs a, l) else Some (r, OMem base 0, l)
      else if md =? 1 then
        match l with d :: l => Some (r, OMem base (if d <? 128 then d else d - 256), l) | [] => None end
      else '(d, l) ← dec32 l; Some (r, OMem base (i32 d), l)
  end.

Definition dec_alu (op : Z) : option alu :=
  if op =? 0x01 then Some ADD else if op =? 0x09 then Some OR else if op =? 0x21 then Some AND else
  if op =? 0x29 then Some SUB else if op =? 0x31 then Some XOR else if op =? 0x39 then Some CMP else None.

(** Instructions with the two-byte opcode [0F op]. *)
Definition dec_0f (op : Z) (l : list Z) : option (x86 * list Z) :=
  if op =? 0xAF then '(r, o, l) ← dec_modrm l; Some (IMUL r o, l) else
  if op =? 0xB6 then '(r, o, l) ← dec_modrm l; Some (MOVZXB r o, l) else
  if (0x80 <=? op) && (op <=? 0x8F) then '(d, l) ← dec32 l; Some (JCC (op - 0x80) (i32 d), l) else
  if (0x90 <=? op) && (op <=? 0x9F) then '(_, o, l) ← dec_modrm l; Some (SETCC (op - 0x90) o, l) else None.

Definition decode1 (l : list Z) : option (x86 * list Z) :=
  match l with
  | [] => None
  | op :: l =>
      if op =? 0x0F then match l with op :: l => dec_0f op l | [] => None end else
      if (0x50 <=? op) && (op <=? 0x57) then Some (PUSH (op - 0x50), l) else
      if (0x58 <=? op) && (op <=? 0x5F) then Some (POP (op - 0x58), l) else
      if op =? 0x68 then '(v, l) ← dec32 l; Some (PUSH_imm (i32 v), l) else
      if (0xB8 <=? op) && (op <=? 0xBF) then '(v, l) ← dec32 l; Some (MOV_imm (op - 0xB8) v, l) else
      if op =? 0x89 then '(r, o, l) ← dec_modrm l; Some (MOV_to o r, l) else
      if op =? 0x8B then '(r, o, l) ← dec_modrm l; Some (MOV_from r o, l) else
      if op =? 0x88 then '(r, o, l) ← dec_modrm l; Some (MOVB_to o r, l) else
      if op =? 0x99 then Some (CDQ, l) else
      if op =? 0xF7 then
        '(r, o, l) ← dec_modrm l;
        if r =? 2 then Some (NOT o, l) else if r =? 3 then Some (NEG o, l) else
        if r =? 7 then Some (IDIV o, l) else None
      else
      if op =? 0xD3 then
        '(r, o, l) ← dec_modrm l;
        if r =? 4 then Some (SHL_cl o, l) else if r =? 5 then Some (SHR_cl o, l) else None
      else
      if op =? 0xFF then '(r, o, l) ← dec_modrm l; if r =? 2 then Some (CALL_ind o, l) else None else
      if op =? 0x81 then
        '(r, o, l) ← dec_modrm l; '(v, l) ← dec32 l;
        if r =? 0 then Some (ALU_imm ADD o (i32 v), l) else
        if r =? 5 then Some (ALU_imm SUB o (i32 v), l) else None
      else
      if op =? 0x3D then '(v, l) ← dec32 l; Some (ALU_imm CMP (OReg 0) (i32 v), l) else
      if op =? 0xE8 then '(d, l) ← dec32 l; Some (CALL (i32 d), l) else
      if op =? 0xE9 then '(d, l) ← dec32 l; Some (JMP (i32 d), l) else
      if op =? 0xC3 then Some (RET, l) else
      f ← dec_alu op; '(r, o, l) ← dec_modrm l; Some (ALU f o r, l)
  end.

(** The instructions of a piece of code. *)
Fixpoint decode (fuel : nat) (l : list Z) : option (list x86) :=
  match l with
  | [] => Some []
  | _ =>
      match fuel with
      | O => None
      | S fuel => '(i, l) ← decode1 l; js ← decode fuel l; Some (i :: js)
      end
  end.

(** ** The emitter's instructions *)

Inductive op :=
| Push_imm (v : Z) | Push_reg (r : Z) | Pop_reg (r : Z) | Mov_reg_imm (r v : Z) | Mov_reg_reg (d s : Z)
| Load_local (r off : Z) | Store_local (off r : Z) | Load_global (r a : Z) | Store_global (a r : Z)
| Load_indirect (d s : Z) | Load_indirect_byte (d s : Z) | Store_indirect_byte (d s : Z)
| Store_indirect (d s : Z) | Add (d s : Z) | Sub (d s : Z) | Imul (d s : Z) | Idiv_ecx | Neg (r : Z)
| Not (r : Z) | And (d s : Z) | Or (d s : Z) | Xor (d s : Z) | Shl (r : Z) | Shr (r : Z) | Cmp (a b : Z)
| Setcc (cc r : Z) | Call_abs (a : Z) | Call_rel (off : Z) | Ret | Jmp_rel (off : Z) | Prologue (n : Z)
| Epilogue | Add_esp (n : Z) | Cmp_eax_imm (v : Z) | Movzx_eax_al.

Definition emit_op (o : op) : emitter -> emitter :=
  match o with
  | Push_imm v => push_imm v | Push_reg r => push_reg r | Pop_reg r => pop_reg r
  | Mov_reg_imm r v => mov_reg_imm r v | Mov_reg_reg d s => mov_reg_reg d s
  | Load_local r off => load_local r off | Store_local off r => store_local off r
  | Load_global r a => load_global r a | Store_global a r => store_global a r
  | Load_indirect d s => load_indirect d s | Load_indirect_byte d s => load_indirect_byte d s
  | Store_indirect_byte d s => store_indirect_byte d s | Store_indirect d s => store_indirect d s
  | Add d s => add d s | Sub d s => sub d s | Imul d s => imul d s | Idiv_ecx => idiv_ecx
  | Neg r => neg r | Not r => not r | And d s => and d s | Or d s => or d s | Xor d s => xor d s
  | Shl r => shl r | Shr r => shr r | Cmp a b => cmp a b | Setcc cc r => setcc cc r
  | Call_abs a => call_abs a | Call_rel off => call_rel off | Ret => ret | Jmp_rel off => jmp_rel off
  | Prologue n => prologue n | Epilogue => epilogue | Add_esp n => add_esp n
  | Cmp_eax_imm v => cmp_eax_imm v | Movzx_eax_al => movzx_eax_al
  end.

(** What each of them is meant to be. *)
Definition meaning (o : op) : list x86 :=
  match o with
  | Push_imm v => [PUSH_imm v] | Push_reg r => [PUSH r] | Pop_reg r => [POP r]
  | Mov_reg_imm r v => [MOV_imm r v] | Mov_reg_reg d s => [MOV_to (OReg d) s]
  | Load_local r off => [MOV_from r (OMem REG_EBP off)] | Store_local off r => [MOV_to (OMem REG_EBP off) r]
  | Load_global r a => [MOV_from r (OAbs a)] | Store_global a r => [MOV_to (OAbs a) r]
  | Load_indirect d s => [MOV_from d (OMem s 0)] | Load_indirect_byte d s => [MOVZXB d (OMem s 0)]
  | Store_indirect_byte d s => [MOVB_to (OMem d 0) s] | Store_indirect d s => [MOV_to (OMem d 0) s]
  | Add d s => [ALU ADD (OReg d) s] | Sub d s => [ALU SUB (OReg d) s] | Imul d s => [IMUL d (OReg s)]
  | Idiv_ecx => [CDQ; IDIV (OReg REG_ECX)] | Neg r => [NEG (OReg r)] | Not r => [NOT (OReg r)]
  | And d s => [ALU AND (OReg d) s] | Or d s => [ALU OR (OReg d) s] | Xor d s => [ALU XOR (OReg d) s]
  | Shl r => [SHL_cl (OReg r)] | Shr r => [SHR_cl (OReg r)] | Cmp a b => [ALU CMP (OReg a) b]
  | Setcc cc r => [SETCC cc (OReg r)] | Call_abs a => [MOV_imm REG_EAX a; CALL_ind (OReg REG_EAX)]
  | Call_rel off => [CALL off] | Ret => [RET] | Jmp_rel off => [JMP off]
  | Prologue n =>
      [PUSH REG_EBP; MOV_to (OReg REG_EBP) REG_ESP] ++ (if n >? 0 then [ALU_imm SUB (OReg REG_ESP) n] else [])
  | Epilogue => [MOV_to (OReg REG_ESP) REG_EBP; POP REG_EBP; RET]
  | Add_esp n => [ALU_imm ADD (OReg REG_ESP) n] | Cmp_eax_imm v => [ALU_imm CMP (OReg REG_EAX) v]
  | Movzx_eax_al => [MOVZXB REG_EAX (OReg REG_EAX)]
  end.

Definition reg (r : Z) : Prop := 0 <= r < 8.
Definition int32 (v : Z) : Prop := -2147483648 <= v < 2147483648.
Definition word32 (v : Z) : Prop := 0 <= v < 4294967296.

Definition op_ok (o : op) : Prop :=
  match o with
  | Push_imm v | Call_rel v | Jmp_rel v | Prologue v | Add_esp v | Cmp_eax_imm v => int32 v
  | Push_reg r | Pop_reg r | Neg r | Not r | Shl r | Shr r => reg r
  | Mov_reg_imm r v | Load_global r v | Store_global v r => reg r /\ word32 v
  | Load_local r v | Store_local v r => reg r /\ int32 v
  | Mov_reg_reg a b | Load_indirect a b | Load_indirect_byte a b | Store_indirect_byte a b
  | Store_indirect a b | Add a b | Sub a b | Imul a b | And a b | Or a b | Xor a b | Cmp a b =>
      reg a /\ reg b
  | Setcc cc r => 0 <= cc < 16 /\ reg r
  | Call_abs a => word32 a
  | Idiv_ecx | Ret | Epilogue | Movzx_eax_al => True
  end.

(** [f] appends code that decodes to [js], whatever follows. *)
Fixpoint decodes_to (js : list x86) (l rest : list Z) : Prop :=
  match js with
  | [] => l = rest
  | i :: js => exists l', decode1 l = Some (i, l') /\ decodes_to js l' rest
  end.

Definition encodes (f : emitter -> emitter) (js : list x86) : Prop :=
  exists l, (forall s, f s = bytes l s) /\ forall rest, decodes_to js (l ++ rest) rest.

Lemma dword_bytes v s : word32 v -> dword v s = bytes (le_bytes 4 v) s.
Proof.
  intros Hv. unfold dword, bytes. cbn [le_bytes fold_left].
  change 0xFF with (Z.ones 8). rewrite !Z.land_ones, !Z.shiftr_div_pow2 by lia.
  change (2 ^ 8) with 256. change (2 ^ 16) with (256 * 256). change (2 ^ 24) with (256 * 256 * 256).
  by rewrite <- !Z.div_div by lia.
Qed.

Lemma dec32_le v rest : word32 v -> dec32 (le_bytes 4 v ++ rest) = Some (v, rest).
Proof. intros Hv. cbn [le_bytes app dec32]. do 2 f_equal. exact (le_val_4 v Hv). Qed.

Lemma i32_u32 v : int32 v -> i32 (u32 v) = v.
Proof. unfold int32, i32, u32. intros. mod_lia. Qed.
Lemma word32_u32 v : word32 (u32 v).
Proof. apply u32_range. Qed.

Lemma reg_cases r : reg r -> r = 0 \/ r = 1 \/ r = 2 \/ r = 3 \/ r = 4 \/ r = 5 \/ r = 6 \/ r = 7.
Proof. unfold reg. lia. Qed.

(** ** The bytes of an instruction *)

Definition indirect_code (r rm : Z) : list Z :=
  if rm =? REG_EBP then [modrm 0x45 r 0; 0x00] else
  if rm =? REG_ESP then [modrm 0x04 r 0; 0x24] else [modrm 0 r rm].

Definition op_code (o : op) : list Z :=
  match o with
  | Push_imm v => 0x68 :: le_bytes 4 (u32 v) | Push_reg r => [u8 (0x50 + r)] | Pop_reg r => [u8 (0x58 + r)]
  | Mov_reg_imm r v => u8 (0xB8 + r) :: le_bytes 4 v | Mov_reg_reg d s => [0x89; modrm 0xC0 s d]
  | Load_local r off => 0x8B :: modrm 0x85 r 0 :: le_bytes 4 (u32 off)
  | Store_local off r => 0x89 :: modrm 0x85 r 0 :: le_bytes 4 (u32 off)
  | Load_global r a => 0x8B :: modrm 0x05 r 0 :: le_bytes 4 a
  | Store_global a r => 0x89 :: modrm 0x05 r 0 :: le_bytes 4 a
  | Load_indirect d s => 0x8B :: indirect_code d s
  | Load_indirect_byte d s => 0x0F :: 0xB6 :: indirect_code d s
  | Store_indirect_byte d s => 0x88 :: indirect_code s d
  | Store_indirect d s => 0x89 :: indirect_code s d
  | Add d s => [0x01; modrm 0xC0 s d] | Sub d s => [0x29; modrm 0xC0 s d]
  | Imul d s => [0x0F; 0xAF; modrm 0xC0 d s] | Idiv_ecx => [0x99; 0xF7; 0xF9]
  | Neg r => [0xF7; u8 (Z.lor 0xD8 r)] | Not r => [0xF7; u8 (Z.lor 0xD0 r)]
  | And d s => [0x21; modrm 0xC0 s d] | Or d s => [0x09; modrm 0xC0 s d] | Xor d s => [0x31; modrm 0xC0 s d]
  | Shl r => [0xD3; u8 (Z.lor 0xE0 r)] | Shr r => [0xD3; u8 (Z.lor 0xE8 r)] | Cmp a b => [0x39; modrm 0xC0 b a]
  | Setcc cc r => [0x0F; u8 (0x90 + cc); u8 (Z.lor 0xC0 r)]
  | Call_abs a => u8 (0xB8 + REG_EAX) :: le_bytes 4 a ++ [0xFF; 0xD0]
  | Call_rel off => 0xE8 :: le_bytes 4 (u32 off) | Ret => [0xC3] | Jmp_rel off => 0xE9 :: le_bytes 4 (u32 off)
  | Prologue n => [0x55; 0x89; 0xE5] ++ (if n >? 0 then 0x81 :: 0xEC :: le_bytes 4 (u32 n) else [])
  | Epilogue => [0x89; 0xEC; 0x5D; 0xC3] | Add_esp n => 0x81 :: 0xC4 :: le_bytes 4 (u32 n)
  | Cmp_eax_imm v => 0x3D :: le_bytes 4 (u32 v) | Movzx_eax_al => [0x0F; 0xB6; 0xC0]
  end.

Lemma indirect_bytes r rm s : indirect r rm s = bytes (indirect_code r rm) s.
Proof. unfold indirect, indirect_code. by repeat case_if. Qed.

Lemma bytes_cons b l s : bytes (b :: l) s = bytes l (byte b s).
Proof. reflexivity. Qed.

Lemma bytes_nil s : bytes [] s = s.
Proof. reflexivity. Qed.

#[local] Opaque byte dword modrm u8 u32 le_bytes.

Lemma op_bytes o s : op_ok o -> emit_op o s = bytes (op_code o) s.
Proof.
  intros Ho.
  destruct o; cbn [emit_op op_code op_ok] in *;
    unfold push_imm, push_reg, pop_reg, mov_reg_imm, mov_reg_reg, load_local, store_local, load_global,
      store_global, load_indirect, load_indirect_byte, store_indirect_byte, store_indirect, add, sub, imul,
      idiv_ecx, neg, not, and, or, xor, shl, shr, cmp, setcc, call_abs, call_rel, ret, jmp_rel, prologue,
      epilogue, add_esp, cmp_eax_imm, movzx_eax_al, mov_reg_imm;
    try (destruct (_ >? 0)); rewrite ?bytes_cons, ?bytes_app, ?bytes_cons;
    rewrite ?dword_bytes, ?indirect_bytes by (apply word32_u32 || tauto); rewrite ?bytes_cons, ?bytes_nil;
    solve [done].
Qed.

#[local] Transparent byte dword modrm u8 u32 le_bytes.

(** Every register operand is decided by running the decoder. *)
Ltac each_reg :=
  repeat match goal with
  | H : reg _ /\ _ |- _ => destruct H
  | H : _ /\ reg _ |- _ => destruct H
  | H : reg ?r |- _ => apply reg_cases in H; repeat (destruct H as [H | H]); try (rewrite H in *; clear r H)
  end.

(** Run the decoder up to the next 32-bit field, and read the field. *)
Ltac fold_bytes :=
  repeat match goal with
  | |- context [modrm ?a ?b ?c] => let v := eval vm_compute in (modrm a b c) in change (modrm a b c) with v
  | |- context [u8 ?a] => let v := eval vm_compute in (u8 a) in change (u8 a) with v
  end.
Ltac fold_div :=
  repeat match goal with
  | |- context [?a / ?b] => is_ground a; let v := eval vm_compute in (a / b) in change (a / b) with v
  | |- context [?a mod ?b] => is_ground a; let v := eval vm_compute in (a mod b) in change (a mod b) with v
  end.
Ltac run_decoder :=
  cbn -[dec32 i32 u32 le_bytes]; fold_div; cbn -[dec32 i32 u32 le_bytes];
  rewrite <- ?app_assoc, ?dec32_le by (apply word32_u32 || tauto);
  cbn -[dec32 i32 u32 le_bytes]; rewrite ?i32_u32 by tauto.

Lemma cc_cases cc : 0 <= cc < 16 ->
  cc = 0 \/ cc = 1 \/ cc = 2 \/ cc = 3 \/ cc = 4 \/ cc = 5 \/ cc = 6 \/ cc = 7 \/ 
  cc = 8 \/ cc = 9 \/ cc = 10 \/ cc = 11 \/ cc = 12 \/ cc = 13 \/ cc = 14 \/ cc = 15.
Proof. lia. Qed.

Lemma setcc_decodes cc r rest : 0 <= cc < 16 -> reg r ->
  decode1 ([0x0F; u8 (0x90 + cc); u8 (Z.lor 0xC0 r)] ++ rest) = Some (SETCC cc (OReg r), rest).
Proof.
  intros Hc Hr. apply cc_cases in Hc.
  each_reg; repeat (destruct Hc as [-> | Hc]; [reflexivity |]); rewrite Hc; reflexivity.
Qed.

Lemma op_decodes o rest : op_ok o -> decodes_to (meaning o) (op_code o ++ rest) rest.
Proof.
  intros Ho.
  destruct o; cbn [op_ok meaning op_code] in *; unfold indirect_code;
    try (destruct (Z.gtb_spec n 0)); try (destruct Ho; eexists; split; [by apply setcc_decodes | done]);
    each_reg; cbn [decodes_to app]; fold_bytes;
    repeat (eexists; split; [run_decoder; reflexivity |]); reflexivity.
Qed.

(** ** Sequences of instructions *)

Definition emit_ops (os : list op) (s : emitter) : emitter := fold_left (fun s o => emit_op o s) os s.
Definition ops_code (os : list op) : list Z := concat (map op_code os).
Definition instructions (os : list op) : list x86 := concat (map meaning os).

Lemma emit_ops_bytes os : forall s, Forall op_ok os -> emit_ops os s = bytes (ops_code os) s.
Proof.
  induction os as [| o os IH]; intros s Ho; [done |]. apply Forall_cons in Ho as [Ho Hos].
  unfold emit_ops, ops_code. cbn [fold_left map concat]. rewrite op_bytes, bytes_app by done. by apply IH.
Qed.

Lemma decodes_to_decode js : forall l rest fuel,
  decodes_to js l rest -> decode (length js + fuel) l = (js' ← decode fuel rest; Some (js ++ js')).
Proof.
  induction js as [| j js IH]; intros l rest fuel Hd; cbn [decodes_to] in Hd.
  - subst. simpl. by destruct (decode fuel rest).
  - destruct Hd as (l' & E & Hd). cbn [length Nat.add]. destruct l as [| b l]; [done |].
    cbn [decode]. rewrite E. cbn [mbind option_bind]. rewrite (IH _ _ _ Hd).
    by destruct (decode fuel rest).
Qed.

Lemma ops_code_decode os : Forall op_ok os -> forall fuel rest,
  decode (length (instructions os) + fuel) (ops_code os ++ rest) =
    (js ← decode fuel rest; Some (instructions os ++ js)).
Proof.
  induction 1 as [| o os Ho Hos IH]; intros fuel rest.
  - simpl. by destruct (decode fuel rest).
  - unfold instructions, ops_code. cbn [map concat]. rewrite length_app, <- app_assoc, <- Nat.add_assoc.
    rewrite (decodes_to_decode _ _ _ _ (op_decodes o _ Ho)). fold (ops_code os). fold (instructions os).
    rewrite IH. destruct (decode fuel rest); [| done]. cbn. by rewrite app_assoc.
Qed.

Lemma decode_all os fuel : Forall op_ok os -> (length (instructions os) <= fuel)%nat ->
  decode fuel (ops_code os) = Some (instructions os).
Proof.
  intros Ho Hf. rewrite <- (app_nil_r (ops_code os)).
  replace fuel with (length (instructions os) + (fuel - length (instructions os)))%nat by lia.
  rewrite ops_code_decode by done. destruct (fuel - _)%nat; cbn; by rewrite app_nil_r.
Qed.

(** Without overflow the code is appended as it is. *)
Lemma emit_ops_spec os s : Forall op_ok os -> wf s -> had_overflow s = false -> had_overflow (emit_ops os s) = false ->
  wf (emit_ops os s) /\ emitted (emit_ops os s) = emitted s ++ ops_code os /\
  CODE_POS (emit_ops os s) = CODE_POS s + Z.of_nat (length (ops_code os)) /\
  CODE_POS s + Z.of_nat (length (ops_code os)) <= CC_CODE_MAX.
Proof.
  intros Ho Hw Hf0 Hf. rewrite emit_ops_bytes in * by done.
  destruct (bytes_spec (ops_code os) s Hw) as (Hw' & He & Hfl & Hp).
  unfold had_overflow in *. rewrite Hfl in Hf. breflect. case_if_in Hf; [| done]. breflect.
  split; [done |]. split; [| lia]. rewrite He, take_ge by lia. done.
Qed.

Lemma init_wf s : wf (init s).
Proof. split; [cbn; by rewrite length_replicate | cbn; unfold CC_CODE_MAX; lia]. Qed.

(** ** The properties *)

(** C17: code emitted from an empty buffer decodes, instruction by instruction,
    to the instructions that were asked for, when the buffer did not
    overflow. *)
Theorem emitted_code_decodes os s0 fuel :
  Forall op_ok os -> had_overflow (emit_ops os (init s0)) = false -> (length (instructions os) <= fuel)%nat ->
  decode fuel (take (Z.to_nat (size (emit_ops os (init s0)))) (code (emit_ops os (init s0)))) =
    Some (instructions os).
Proof.
  intros Ho Hf Hfuel.
  destruct (emit_ops_spec os (init s0) Ho (init_wf s0) eq_refl Hf) as (_ & He & _).
  change (take _ _) with (emitted (emit_ops os (init s0))). rewrite He. by apply decode_all.
Qed.

(** The emitter never writes outside its 64 KB: what does not fit is dropped
    and the overflow flag is raised, exactly then; code already emitted stays
    as it is. *)
Theorem emitter_bounds os s :
  Forall op_ok os -> wf s ->
  wf (emit_ops os s) /\ size (emit_ops os s) = Z.min CC_CODE_MAX (size s + Z.of_nat (length (ops_code os))) /\
  emitted (emit_ops os s) = emitted s ++ take (Z.to_nat (CC_CODE_MAX - size s)) (ops_code os) /\
  had_overflow (emit_ops os s) =
    had_overflow s || (CC_CODE_MAX <? size s + Z.of_nat (length (ops_code os))).
Proof.
  intros Ho Hw. rewrite emit_ops_bytes by done.
  destruct (bytes_spec (ops_code os) s Hw) as (Hw' & He & Hfl & Hp). unfold size.
  split; [done |]. split; [done |]. split; [done |]. unfold had_overflow. rewrite Hfl.
  destruct (Z.leb_spec (CODE_POS s + Z.of_nat (length (ops_code os))) CC_CODE_MAX);
    destruct (Z.ltb_spec CC_CODE_MAX (CODE_POS s + Z.of_nat (length (ops_code os)))); try lia;
    by rewrite ?orb_false_r, ?orb_true_r.
Qed.

Lemma splice_4 {A} (l : list A) p a b c d : (p + 4 <= length l)%nat ->
  <[(p + 3)%nat := d]> (<[(p + 2)%nat := c]> (<[(p + 1)%nat := b]> (<[p := a]> l))) = splice p [a; b; c; d] l.
Proof.
  intros Hl. apply list_eq. intros i. rewrite lookup_splice by (simpl; lia). simpl length.
  destruct (decide (p <= i < p + 4)%nat) as [Hi |].
  - assert (i = p \/ i = p + 1 \/ i = p + 2 \/ i = p + 3)%nat as [-> | [-> | [-> | ->]]] by lia.
    + rewrite !list_lookup_insert_ne by lia. rewrite list_lookup_insert_eq by lia. by rewrite Nat.sub_diag.
    + rewrite !list_lookup_insert_ne by lia. rewrite list_lookup_insert_eq by (rewrite ?length_insert; lia).
      by replace (p + 1 - p)%nat with 1%nat by lia.
    + rewrite list_lookup_insert_ne by lia. rewrite list_lookup_insert_eq by (rewrite ?length_insert; lia).
      by replace (p + 2 - p)%nat with 2%nat by lia.
    + rewrite list_lookup_insert_eq by (rewrite ?length_insert; lia).
      by replace (p + 3 - p)%nat with 3%nat by lia.
  - by rewrite !list_lookup_insert_ne by lia.
Qed.

Lemma patch_dword_spec p v s : wf s -> word32 v -> 0 <= p -> p + 4 <= CODE_POS s ->
  exists s', patch_dword p v s = Some s' /\ wf s' /\ CODE_POS s' = CODE_POS s /\
    had_overflow s' = had_overflow s /\ emitted s' = splice (Z.to_nat p) (le_bytes 4 v) (emitted s).
Proof.
  intros [Hl Hp] Hv Hp0 Hp4. unfold CC_CODE_MAX in *. unfold patch_dword, CC_CODE_MAX.
  rewrite !u32_small by lia. rewrite (proj2 (Z.leb_le _ _)) by lia.
  rewrite zset_Some by lia. cbn [mbind option_bind]. rewrite zset_Some by (rewrite length_insert; lia).
  cbn [mbind option_bind]. rewrite zset_Some by (rewrite !length_insert; lia). cbn [mbind option_bind].
  rewrite zset_Some by (rewrite !length_insert; lia). cbn [mbind option_bind].
  replace (Z.to_nat (p + 1)) with (Z.to_nat p + 1)%nat by lia.
  replace (Z.to_nat (p + 2)) with (Z.to_nat p + 2)%nat by lia.
  replace (Z.to_nat (p + 3)) with (Z.to_nat p + 3)%nat by lia.
  rewrite splice_4 by lia.
  assert (E : [Z.land v 255; Z.land (Z.shiftr v 8) 255; Z.land (Z.shiftr v 16) 255; Z.land (Z.shiftr v 24) 255]
              = le_bytes 4 v).
  { cbn [le_bytes]. change 0xFF with (Z.ones 8). rewrite !Z.land_ones, !Z.shiftr_div_pow2 by lia.
    change (2 ^ 8) with 256. change (2 ^ 16) with (256 * 256). change (2 ^ 24) with (256 * 256 * 256).
    by rewrite <- !Z.div_div by lia. }
  assert (Hb : length (le_bytes 4 v) = 4%nat) by apply length_le_bytes.
  assert (Hs : length (splice (Z.to_nat p) (le_bytes 4 v) (CODE_BUF s)) = length (CODE_BUF s))
    by (apply length_splice; lia).
  rewrite E. eexists. split; [done |]. split; [split; cbn [CODE_BUF CODE_POS]; unfold CC_CODE_MAX; lia |].
  split; [done |]. split; [done |]. unfold emitted. cbn [CODE_BUF CODE_POS]. apply take_splice; lia.
Qed.

Lemma jcc_decodes cc d rest : 0 <= cc < 16 -> 0 <= d <= CC_CODE_MAX ->
  decode1 ([0x0F; u8 (0x80 + cc)] ++ le_bytes 4 d ++ rest) = Some (JCC cc d, rest).
Proof.
  intros Hc Hd. unfold CC_CODE_MAX in Hd.
  assert (Hw : word32 d) by (unfold word32; lia).
  assert (Hi : i32 d = d) by (apply i32_small; lia).
  apply cc_cases in Hc.
  repeat (destruct Hc as [-> | Hc]); try rewrite Hc; cbn [app]; fold_bytes;
    cbn -[dec32 i32 le_bytes app]; rewrite dec32_le by done; cbn -[i32]; by rewrite Hi.
Qed.

(** C18: a conditional jump emitted with a placeholder and patched, as the parser
    does, with the distance to the current position jumps over exactly the code
    emitted in between; that code and all earlier code are unchanged. *)
Theorem patched_jump_lands cc body s fuel :
  0 <= cc < 16 -> Forall op_ok body -> wf s -> had_overflow s = false ->
  let '(p, s1) := jcc_placeholder cc s in
  let s2 := emit_ops body s1 in
  had_overflow s2 = false -> (length (instructions body) < fuel)%nat ->
  exists s3 jump, patch_dword p (u32 (pos s2 - (p + 4))) s2 = Some s3 /\ wf s3 /\
    emitted s3 = emitted s ++ jump ++ ops_code body /\
    decode fuel (jump ++ ops_code body) = Some (JCC cc (Z.of_nat (length (ops_code body))) :: instructions body).
Proof.
  intros Hcc Hb Hw Hf0. unfold jcc_placeholder. cbv zeta.
  set (hd := [0x0F; u8 (0x80 + cc)]).
  assert (Ep : byte (u8 (0x80 + cc)) (byte 0x0F s) = bytes hd s) by done. rewrite Ep.
  assert (E1 : dword 0 (bytes hd s) = bytes (hd ++ [0; 0; 0; 0]) s) by done. rewrite E1.
  intros Hf Hfuel. rewrite emit_ops_bytes in Hf |- * by done. rewrite <- bytes_app in Hf |- *.
  destruct (bytes_spec hd s Hw) as (_ & _ & _ & Hp1).
  destruct (bytes_spec ((hd ++ [0; 0; 0; 0]) ++ ops_code body) s Hw) as (Hw2 & He2 & Hfl & Hp2).
  unfold had_overflow in Hf, Hf0. rewrite Hfl in Hf.
  assert (Hlen : length ((hd ++ [0; 0; 0; 0]) ++ ops_code body) = (6 + length (ops_code body))%nat) by done.
  rewrite Hlen in *. set (n := length (ops_code body)) in *.
  assert (Hfit : CODE_POS s + Z.of_nat (6 + n) <= CC_CODE_MAX) by (case_if_in Hf; [by breflect | done]).
  assert (Hpp : pos (bytes hd s) = CODE_POS s + 2) by (unfold pos; rewrite Hp1; change (length hd) with 2%nat; lia).
  destruct Hw as [Hl Hpos].
  set (s2 := bytes ((hd ++ [0; 0; 0; 0]) ++ ops_code body) s) in *.
  assert (Hd : u32 (pos s2 - (pos (bytes hd s) + 4)) = Z.of_nat n).
  { unfold CC_CODE_MAX in *. change (pos s2) with (CODE_POS s2). rewrite Hp2, Hpp, u32_small; lia. }
  rewrite Hd. assert (Hn : word32 (Z.of_nat n)) by (unfold word32, CC_CODE_MAX in *; lia).
  destruct (patch_dword_spec (pos (bytes hd s)) (Z.of_nat n) s2 Hw2 Hn) as (s3 & Ep3 & Hw3 & _ & _ & He3); [lia | lia |].
  exists s3, (hd ++ le_bytes 4 (Z.of_nat n)). split; [done |]. split; [done |]. split.
  - rewrite He3, He2, take_ge by lia. rewrite Hpp.
    replace (Z.to_nat (CODE_POS s + 2)) with (length (emitted s ++ hd)).
    + rewrite <- !app_assoc, app_assoc, splice_app by (by rewrite length_le_bytes).
      by rewrite <- !app_assoc.
    + rewrite length_app. unfold emitted. rewrite length_take. change (length hd) with 2%nat. lia.
  - destruct fuel as [| fuel]; [lia |]. rewrite <- app_assoc.
    pose proof (jcc_decodes cc (Z.of_nat n) (ops_code body) Hcc ltac:(lia)) as Hj.
    cbn [app] in Hj. cbn [app hd decode]. rewrite Hj. cbn [mbind option_bind].
    rewrite decode_all by (done || lia). done.
Qed.

(** ** Witnesses *)

(** A function that returns 7 in [EAX]. *)
Definition ex_ops : list op := [Prologue 8; Mov_reg_imm REG_EAX 7; Store_local (-4) REG_EAX; Epilogue].

Lemma ex_ops_ok : Forall op_ok ex_ops.
Proof.
  unfold ex_ops, REG_EAX. repeat constructor; cbn [op_ok]; unfold int32, word32, reg; lia.
Qed.

Definition empty_emitter : emitter := init (Emitter [] 0 CC_LOAD_BASE 0).

Lemma emitted_code_decodes_witness : let s := emit_ops ex_ops empty_emitter in
  decode 20 (take (Z.to_nat (size s)) (code s)) =
    Some [PUSH 5; MOV_to (OReg 5) 4; ALU_imm SUB (OReg 4) 8; MOV_imm 0 7; MOV_to (OMem 5 (-4)) 0;
          MOV_to (OReg 4) 5; POP 5; RET].
Proof.
  refine (emitted_code_decodes ex_ops (Emitter [] 0 CC_LOAD_BASE 0) 20 ex_ops_ok _ _);
    [vm_compute; reflexivity | apply Nat.leb_le; vm_compute; reflexivity].
Defined.

Lemma emitter_bounds_witness : size (emit_ops ex_ops empty_emitter) = 24.
Proof.
  refine (eq_trans (proj1 (proj2 (emitter_bounds ex_ops empty_emitter ex_ops_ok (init_wf _)))) _).
  vm_compute. reflexivity.
Defined.

Lemma patched_jump_lands_witness : exists jump,
  decode 20 (jump ++ ops_code ex_ops) =
    Some [JCC CC_E 24; PUSH 5; MOV_to (OReg 5) 4; ALU_imm SUB (OReg 4) 8; MOV_imm 0 7; MOV_to (OMem 5 (-4)) 0;
          MOV_to (OReg 4) 5; POP 5; RET].
Proof.
  assert (Hcc : 0 <= CC_E < 16) by (unfold CC_E; lia).
  destruct (patched_jump_lands CC_E ex_ops empty_emitter 20 Hcc ex_ops_ok (init_wf _)) as (s3 & j & _ & _ & _ & Hd).
  - vm_compute; reflexivity.
  - vm_compute; reflexivity.
  - apply Nat.ltb_lt; vm_compute; reflexivity.
  - exists j. exact Hd.
Defined.
