(* ===== verification/Sym.v ===== *)
(** The compiler's symbol table ([src/src/rc/sym.rs]): a flat array of symbols
    with a scope depth each, searched from the newest entry, and the table of
    struct definitions; against an abstract stack of scopes.

    Names are 32-byte arrays filled by [strncpy] and read as C strings.  A
    pointer to an entry is the entry's index.  The addresses of the kernel
    functions the table starts with are the parameter [builtin_addr]; console
    messages are a log. *)
From Stdlib Require Import String.
From S2P Require Import Prelude StringRs.

(** ** The tables *)

Definition SYM_LOCAL : Z := 0.
Definition SYM_GLOBAL : Z := 1.
Definition SYM_FUNC : Z := 2.
Definition SYM_KERN_FUNC : Z := 3.
Definition SYM_PARAM : Z := 4.
Definition SYM_CONST : Z := 5.
Definition TYPE_INT : Z := 0.
Definition TYPE_CHAR : Z := 1.
Definition TYPE_VOID : Z := 2.
Definition TYPE_PTR : Z := 3.
Definition MAX_SYMBOLS : Z := 256.
Definition MAX_STRUCT_FIELDS : Z := 16.
Definition MAX_STRUCT_DEFS : Z := 16.

Record Symbol := Sym {
  name : list Z; kind : Z; sym_type : Z; is_ptr : Z; offset : Z; addr : Z; scope_depth : Z;
  struct_name : list Z; is_mutable : Z }.
Definition Symbol_new : Symbol := Sym (replicate 32 0) 0 0 0 0 0 0 (replicate 32 0) 0.

Record StructField := Field { f_name : list Z; field_type : Z; f_is_ptr : Z; f_offset : Z; elem_size : Z }.
Definition StructField_new : StructField := Field (replicate 32 0) 0 0 0 0.

Record StructDef := Def { d_name : list Z; fields : list StructField; field_count : Z; size : Z }.
Definition StructDef_new : StructDef :=
  Def (replicate 32 0) (replicate (Z.to_nat MAX_STRUCT_FIELDS) StructField_new) 0 0.

Record symtab := Symtab {
  SYMBOLS : list Symbol; SYM_COUNT : Z; CUR_SCOPE : Z;
  STRUCT_DEFS : list StructDef; STRUCT_DEF_COUNT : Z; console : list string }.

Definition puts (m : string) (s : symtab) : symtab :=
  Symtab (SYMBOLS s) (SYM_COUNT s) (CUR_SCOPE s) (STRUCT_DEFS s) (STRUCT_DEF_COUNT s) (console s ++ [m]).

(** ** Symbols *)

(** [strncpy(name, src, 31); name[31] = 0]. *)
Definition copy_name (src : list Z) : list Z := strncpy_list 31 src ++ [0].

(** [strcmp(entry, key) == 0]. *)
Definition name_is (entry key : list Z) : bool := strcmp_list (cstr entry) key =? 0.

(** [None] is the panic of an index out of range. *)
Definition add (nm : list Z) (k ty ptr off a : Z) (s : symtab) : option (Z * symtab) :=
  if MAX_SYMBOLS <=? SYM_COUNT s then Some (-1, puts "rc: symbol table full" s) else
  old ← zget (SYMBOLS s) (SYM_COUNT s);
  t ← zset (SYMBOLS s) (SYM_COUNT s)
        (Sym (copy_name nm) k ty ptr off a (CUR_SCOPE s) (<[0%nat := 0]> (struct_name old)) (is_mutable old));
  Some (0, Symtab t (SYM_COUNT s + 1) (CUR_SCOPE s) (STRUCT_DEFS s) (STRUCT_DEF_COUNT s) (console s)).

Fixpoint lookup_loop (fuel : nat) (nm : list Z) (i : Z) (s : symtab) : option (option Z) :=
  match fuel with
  | O => None
  | S fuel =>
      if 0 <=? i then
        e ← zget (SYMBOLS s) i;
        if name_is (name e) nm then Some (Some i) else lookup_loop fuel nm (i - 1) s
      else Some None
  end.
Definition lookup (nm : list Z) (s : symtab) : option (option Z) :=
  lookup_loop (S (Z.to_nat (SYM_COUNT s))) nm (SYM_COUNT s - 1) s.

Definition enter_scope (s : symtab) : symtab :=
  Symtab (SYMBOLS s) (SYM_COUNT s) (i32 (CUR_SCOPE s + 1)) (STRUCT_DEFS s) (STRUCT_DEF_COUNT s) (console s).

Fixpoint leave_loop (fuel : nat) (s : symtab) : option symtab :=
  match fuel with
  | O => None
  | S fuel =>
      if 0 <? SYM_COUNT s then
        e ← zget (SYMBOLS s) (SYM_COUNT s - 1);
        if scope_depth e =? CUR_SCOPE s then
          leave_loop fuel (Symtab (SYMBOLS s) (SYM_COUNT s - 1) (CUR_SCOPE s) (STRUCT_DEFS s)
                             (STRUCT_DEF_COUNT s) (console s))
        else Some s
      else Some s
  end.
Definition leave_scope (s : symtab) : option symtab :=
  s ← leave_loop (S (Z.to_nat (SYM_COUNT s))) s;
  Some (if 0 <? CUR_SCOPE s
        then Symtab (SYMBOLS s) (SYM_COUNT s) (CUR_SCOPE s - 1) (STRUCT_DEFS s) (STRUCT_DEF_COUNT s) (console s)
        else s).

(** The kernel functions in the order of their registration. *)
Definition BUILTINS : list string :=
  [ "puts"; "putchar"; "getchar"; "sleep"; "malloc"; "free"; "strlen"; "strcmp"; "strcpy"; "memset"; "memcpy";
    "serial_puts"; "serial_putchar"; "compile"; "run_program"; "run_protected"; "clear"; "set_color";
    "open"; "read"; "fwrite"; "close"; "create_file"; "get_ticks"; "heap_free"; "free_pages";
    "ip_to_string"; "tcp_connect"; "tcp_send"; "tcp_recv"; "tcp_close" ]%string.

Section init.
Variable builtin_addr : string -> Z.

Definition add_builtin (n : string) (s : symtab) : option symtab :=
  '(_, s) ← add (str n) SYM_KERN_FUNC TYPE_INT 0 0 (builtin_addr n) s; Some s.

Fixpoint add_builtins (l : list string) (s : symtab) : option symtab :=
  match l with
  | [] => Some s
  | n :: l => s ← add_builtin n s; add_builtins l s
  end.

Definition init (s : symtab) : option symtab :=
  add_builtins BUILTINS
    (Symtab (replicate (Z.to_nat MAX_SYMBOLS) Symbol_new) 0 0
       (replicate (Z.to_nat MAX_STRUCT_DEFS) StructDef_new) 0 (console s)).
End init.

(** ** Struct definitions *)

Definition struct_def_add (nm : list Z) (s : symtab) : option (option Z * symtab) :=
  if MAX_STRUCT_DEFS <=? STRUCT_DEF_COUNT s
  then Some (None, puts "rc: struct definition table full" s) else
  d ← zget (STRUCT_DEFS s) (STRUCT_DEF_COUNT s);
  t ← zset (STRUCT_DEFS s) (STRUCT_DEF_COUNT s) (Def (copy_name nm) (fields d) 0 0);
  Some (Some (STRUCT_DEF_COUNT s),
        Symtab (SYMBOLS s) (SYM_COUNT s) (CUR_SCOPE s) t (STRUCT_DEF_COUNT s + 1) (console s)).

(** [for i in from..from + n]. *)
Fixpoint struct_loop (n : nat) (nm : list Z) (i : Z) (s : symtab) : option (option Z) :=
  match n with
  | O => Some None
  | S n =>
      d ← zget (STRUCT_DEFS s) i;
      if name_is (d_name d) nm then Some (Some i) else struct_loop n nm (i + 1) s
  end.
Definition struct_def_lookup (nm : list Z) (s : symtab) : option (option Z) :=
  struct_loop (Z.to_nat (STRUCT_DEF_COUNT s)) nm 0 s.

Fixpoint field_loop (n : nat) (nm : list Z) (i : Z) (d : StructDef) : option (option Z) :=
  match n with
  | O => Some None
  | S n =>
      f ← zget (fields d) i;
      if name_is (f_name f) nm then Some (Some i) else field_loop n nm (i + 1) d
  end.
Definition struct_field_lookup (def : option Z) (nm : list Z) (s : symtab) : option (option Z) :=
  match def with
  | None => Some None
  | Some p => d ← zget (STRUCT_DEFS s) p; field_loop (Z.to_nat (field_count d)) nm 0 d
  end.

(** ** The abstract table: a stack of scopes

    Innermost scope first, newest binding first.  A name is kept to 31
    characters; a look-up compares with the whole name it is given. *)

Record info := Info { i_kind : Z; i_type : Z; i_ptr : Z; i_offset : Z; i_addr : Z }.
Definition binding : Type := list Z * info.
Definition scopes := list (list binding).

Definition spec_add (nm : list Z) (i : info) (e : scopes) : Z * scopes :=
  if decide (MAX_SYMBOLS <= Z.of_nat (List.length (concat e))) then (-1, e) else
  match e with
  | [] => (0, e)
  | sc :: e => (0, ((take 31 nm, i) :: sc) :: e)
  end.
Definition spec_lookup (nm : list Z) (e : scopes) : option info :=
  snd <$> List.find (fun b => bool_decide (b.1 = nm)) (concat e).
Definition spec_enter (e : scopes) : scopes := [] :: e.
(** The outermost scope is emptied, not left. *)
Definition spec_leave (e : scopes) : scopes :=
  match e with
  | _ :: (_ :: _) as e' => e'
  | _ => [[]]
  end.

Inductive op := OAdd (nm : list Z) (i : info) | OLookup (nm : list Z) | OEnter | OLeave.
Inductive answer := Added (r : Z) | Found (i : option info) | Done.

Definition spec_step (o : op) (e : scopes) : answer * scopes :=
  match o with
  | OAdd nm i => let '(r, e) := spec_add nm i e in (Added r, e)
  | OLookup nm => (Found (spec_lookup nm e), e)
  | OEnter => (Done, spec_enter e)
  | OLeave => (Done, spec_leave e)
  end.

Definition info_of (e : Symbol) : info := Info (kind e) (sym_type e) (is_ptr e) (offset e) (addr e).

Definition step (o : op) (s : symtab) : option (answer * symtab) :=
  match o with
  | OAdd nm i =>
      '(r, s) ← add nm (i_kind i) (i_type i) (i_ptr i) (i_offset i) (i_addr i) s; Some (Added r, s)
  | OLookup nm =>
      p ← lookup nm s;
      match p with
      | None => Some (Found None, s)
      | Some p => e ← zget (SYMBOLS s) p; Some (Found (Some (info_of e)), s)
      end
  | OEnter => Some (Done, enter_scope s)
  | OLeave => s ← leave_scope s; Some (Done, s)
  end.

Fixpoint spec_run (os : list op) (e : scopes) : list answer * scopes :=
  match os with
  | [] => ([], e)
  | o :: os => let '(a, e) := spec_step o e in let '(l, e) := spec_run os e in (a :: l, e)
  end.
Fixpoint run (os : list op) (s : symtab) : option (list answer * symtab) :=
  match os with
  | [] => Some ([], s)
  | o :: os => '(a, s) ← step o s; '(l, s) ← run os s; Some (a :: l, s)
  end.

(** ** Representation *)

(** An entry as a binding with its depth. *)
Definition view (e : Symbol) : binding * Z := ((cstr (name e), info_of e), scope_depth e).

Fixpoint layers (e : scopes) : list (binding * Z) :=
  match e with
  | [] => []
  | sc :: e => map (fun b => (b, Z.of_nat (List.length e))) sc ++ layers e
  end.

Definition live (s : symtab) : list Symbol := rev (take (Z.to_nat (SYM_COUNT s)) (SYMBOLS s)).

Record represents (s : symtab) (e : scopes) : Prop := {
  rep_len : Z.of_nat (List.length (SYMBOLS s)) = MAX_SYMBOLS;
  rep_count : 0 <= SYM_COUNT s <= MAX_SYMBOLS;
  rep_scope : CUR_SCOPE s = Z.of_nat (List.length e) - 1;
  rep_nonempty : e <> [];
  rep_view : map view (live s) = layers e }.

Lemma length_layers e : List.length (layers e) = List.length (concat e).
Proof. induction e; simpl; [done |]. by rewrite !length_app, length_map, IHe. Qed.

Lemma layers_bindings e : map fst (layers e) = concat e.
Proof.
  induction e as [| sc e IH]; simpl; [done |]. rewrite map_app, IH, map_map. f_equal. apply map_id.
Qed.

Lemma rep_size s e : represents s e -> SYM_COUNT s = Z.of_nat (List.length (concat e)).
Proof.
  intros [Hl Hc _ _ Hv]. apply (f_equal (@List.length _)) in Hv. unfold live in Hv.
  rewrite length_layers, length_map, length_rev, length_take in Hv. lia.
Qed.

(** The newest live entry. *)
Lemma live_S n (t : list Symbol) x : t !! n = Some x -> rev (take (S n) t) = x :: rev (take n t).
Proof. intros E. by rewrite (take_S_r _ _ _ E), rev_app_distr. Qed.

Lemma zget_nat {A} (l : list A) n : zget l (Z.of_nat n) = l !! n.
Proof. unfold zget. rewrite (proj2 (Z.ltb_ge _ _)) by lia. by rewrite Nat2Z.id. Qed.

Lemma name_is_eq entry key : no_nul key -> name_is entry key = bool_decide (cstr entry = key).
Proof.
  intros Hk. unfold name_is. rewrite strcmp_list_eqb by (done || apply cstr_no_nul).
  by case_bool_decide.
Qed.

(** ** Each operation implements its abstract one *)

Lemma add_represents s e nm i : represents s e -> no_nul nm ->
  exists r s', add nm (i_kind i) (i_type i) (i_ptr i) (i_offset i) (i_addr i) s = Some (r, s') /\
    (spec_add nm i e).1 = r /\ represents s' (spec_add nm i e).2.
Proof.
  intros Hr Hn. pose proof (rep_size _ _ Hr) as Hsz. pose proof Hr as [Hl Hc Hs He Hv].
  unfold add, spec_add. rewrite <- Hsz. destruct (Z.leb_spec MAX_SYMBOLS (SYM_COUNT s)).
  - rewrite decide_True by done. exists (-1), (puts "rc: symbol table full" s). by split_and!.
  - rewrite decide_False by lia. destruct e as [| sc e]; [done |].
    destruct (zget_Some (SYMBOLS s) (SYM_COUNT s)) as [old Ho]; [lia |]. rewrite Ho. cbn [mbind option_bind].
    rewrite zset_Some by lia. cbn [mbind option_bind]. eexists 0, _. split; [done |]. split; [done |].
    set (x := Sym _ _ _ _ _ _ _ _ _).
    assert (Hx : view x = ((take 31 nm, i), Z.of_nat (List.length e))).
    { unfold view, x, info_of, copy_name. cbn [name kind sym_type is_ptr offset addr scope_depth].
      rewrite cstr_strncpy_list, Hs by done. destruct i. cbn [List.length]. f_equal. lia. }
    split; cbn [SYMBOLS SYM_COUNT CUR_SCOPE snd]; [by rewrite length_insert | lia | done | done |].
    unfold live in Hv |- *. cbn [SYMBOLS SYM_COUNT].
    replace (Z.to_nat (SYM_COUNT s + 1)) with (S (Z.to_nat (SYM_COUNT s))) by lia.
    rewrite (live_S _ _ x) by (apply list_lookup_insert_eq; lia). rewrite take_insert_ge by lia.
    cbn [map]. rewrite Hx, Hv. done.
Qed.

Lemma lookup_loop_spec nm s k : no_nul nm -> (k <= List.length (SYMBOLS s))%nat ->
  match List.find (fun x => bool_decide (cstr (name x) = nm)) (rev (take k (SYMBOLS s))) with
  | None => lookup_loop (S k) nm (Z.of_nat k - 1) s = Some None
  | Some x => exists p, lookup_loop (S k) nm (Z.of_nat k - 1) s = Some (Some p) /\ zget (SYMBOLS s) p = Some x
  end.
Proof.
  intros Hn. induction k as [| k IH]; intros Hk; [done |].
  destruct (lookup_lt_is_Some_2 (SYMBOLS s) k) as [x Hx]; [lia |].
  rewrite (live_S k _ x Hx). cbn [List.find].
  replace (Z.of_nat (S k) - 1) with (Z.of_nat k) by lia.
  assert (Hu : lookup_loop (S (S k)) nm (Z.of_nat k) s =
               if name_is (name x) nm then Some (Some (Z.of_nat k)) else lookup_loop (S k) nm (Z.of_nat k - 1) s).
  { cbn [lookup_loop]. rewrite (proj2 (Z.leb_le 0 _)) by lia. by rewrite zget_nat, Hx. }
  rewrite Hu, name_is_eq by done. case_bool_decide; [| apply IH; lia].
  exists (Z.of_nat k). by rewrite zget_nat.
Qed.

Lemma find_map {A B} (f : A -> B) (p : B -> bool) l :
  List.find p (map f l) = f <$> List.find (fun x => p (f x)) l.
Proof. induction l as [| x l IH]; [done |]. cbn. by destruct (p (f x)). Qed.

Lemma lookup_represents s e nm : represents s e -> no_nul nm ->
  step (OLookup nm) s = Some (Found (spec_lookup nm e), s).
Proof.
  intros [Hl Hc Hs He Hv] Hn. unfold step, lookup.
  assert (E : spec_lookup nm e = info_of <$> List.find (fun x => bool_decide (cstr (name x) = nm)) (live s)).
  { unfold spec_lookup. rewrite <- layers_bindings, <- Hv, map_map, find_map. by destruct (List.find _ _). }
  pose proof (lookup_loop_spec nm s (Z.to_nat (SYM_COUNT s)) Hn ltac:(lia)) as H.
  rewrite Z2Nat.id in H by lia. rewrite E. unfold live. destruct (List.find _ _) as [x |].
  - destruct H as (p & -> & Hp). cbn [mbind option_bind]. by rewrite Hp.
  - by rewrite H.
Qed.

Lemma enter_represents s e : represents s e -> Z.of_nat (List.length e) < 2147483648 ->
  represents (enter_scope s) (spec_enter e).
Proof.
  intros [Hl Hc Hs He Hv] Hb. split; cbn [SYMBOLS SYM_COUNT CUR_SCOPE enter_scope spec_enter List.length]; try done.
  rewrite i32_small; lia.
Qed.

(** The loop of [leave_scope] drops the entries of depth [CUR_SCOPE]. *)
Lemma leave_loop_spec sc : forall s rest, Z.of_nat (List.length (SYMBOLS s)) = MAX_SYMBOLS ->
  0 <= SYM_COUNT s <= MAX_SYMBOLS ->
  map view (live s) = map (fun b => (b, CUR_SCOPE s)) sc ++ rest -> Forall (fun x => x.2 <> CUR_SCOPE s) rest ->
  exists s', leave_loop (S (Z.to_nat (SYM_COUNT s))) s = Some s' /\ map view (live s') = rest /\
    SYMBOLS s' = SYMBOLS s /\ CUR_SCOPE s' = CUR_SCOPE s /\ 0 <= SYM_COUNT s' <= SYM_COUNT s.
Proof.
  induction sc as [| b sc IH]; intros s rest Hl Hc Hv Hr.
  - exists s. split; [| by split_and!; try lia]. cbn [leave_loop].
    destruct (Z.ltb_spec 0 (SYM_COUNT s)) as [Hp |]; [| done].
    destruct (zget_Some (SYMBOLS s) (SYM_COUNT s - 1)) as [x Hx]; [lia |]. rewrite Hx. cbn [mbind option_bind].
    unfold zget in Hx. rewrite (proj2 (Z.ltb_ge _ _)) in Hx by lia.
    unfold live in Hv. replace (Z.to_nat (SYM_COUNT s)) with (S (Z.to_nat (SYM_COUNT s - 1))) in Hv by lia.
    rewrite (live_S _ _ _ Hx) in Hv. cbn [map app] in Hv. subst rest. apply Forall_cons in Hr as [Hr _].
    by rewrite (proj2 (Z.eqb_neq _ _)).
  - assert (Hp : 0 < SYM_COUNT s).
    { apply (f_equal (@List.length _)) in Hv. unfold live in Hv. simpl in Hv.
      rewrite length_map, length_rev, length_take in Hv. lia. }
    destruct (zget_Some (SYMBOLS s) (SYM_COUNT s - 1)) as [x Hx]; [lia |].
    assert (Hx' := Hx). unfold zget in Hx'. rewrite (proj2 (Z.ltb_ge _ _)) in Hx' by lia.
    unfold live in Hv. replace (Z.to_nat (SYM_COUNT s)) with (S (Z.to_nat (SYM_COUNT s - 1))) in Hv |- * by lia.
    rewrite (live_S _ _ _ Hx') in Hv. cbn [map app] in Hv. injection Hv as _ Hd Hv.
    set (s1 := Symtab (SYMBOLS s) (SYM_COUNT s - 1) (CUR_SCOPE s) (STRUCT_DEFS s) (STRUCT_DEF_COUNT s) (console s)).
    destruct (IH s1 rest) as (s' & E & Hv2 & Hs1 & Hs2 & Hc2); [done | cbn; lia | exact Hv | done |].
    change (SYM_COUNT s1) with (SYM_COUNT s - 1) in Hc2.
    exists s'. split; [| by split_and!; try lia].
    rewrite <- E. cbn [leave_loop]. rewrite (proj2 (Z.ltb_lt _ _)) by done. rewrite Hx. cbn [mbind option_bind].
    by rewrite Hd, Z.eqb_refl.
Qed.

Lemma layers_below e : Forall (fun x => x.2 < Z.of_nat (List.length e)) (layers e).
Proof.
  induction e as [| sc e IH]; [constructor |]. cbn [layers List.length]. apply Forall_app. split.
  - apply Forall_map, Forall_forall. intros b _. cbn. lia.
  - eapply Forall_impl; [exact IH |]. cbn. lia.
Qed.

Lemma leave_represents s e : represents s e ->
  exists s', leave_scope s = Some s' /\ represents s' (spec_leave e).
Proof.
  intros [Hl Hc Hs He Hv]. destruct e as [| sc e]; [done |]. cbn [layers List.length] in *.
  assert (Hcur : CUR_SCOPE s = Z.of_nat (List.length e)) by lia.
  destruct (leave_loop_spec sc s (layers e)) as (s' & E & Hv' & Hs1 & Hs2 & Hc'); [done | done | by rewrite Hcur | |].
  { rewrite Hcur. eapply Forall_impl; [apply layers_below |]. cbn. lia. }
  unfold leave_scope. rewrite E. cbn [mbind option_bind]. eexists. split; [done |]. rewrite Hs2.
  destruct e as [| sc' e].
  - cbn [List.length] in *. rewrite (proj2 (Z.ltb_ge _ _)) by lia. cbn [spec_leave layers map app List.length].
    split; rewrite ?Hs1, ?Hs2; try done; try lia.
  - cbn [List.length] in *. rewrite (proj2 (Z.ltb_lt _ _)) by lia.
    split; cbn [SYMBOLS SYM_COUNT CUR_SCOPE spec_leave];
      [by rewrite Hs1 | lia | cbn [List.length]; lia | done | exact Hv'].
Qed.

Lemma spec_step_depth o e : (List.length (spec_step o e).2 <= S (List.length e))%nat \/ e = [].
Proof.
  destruct e as [| sc e]; [by right | left]. destruct o; cbn; [| lia | lia |].
  - unfold spec_add. by case_decide; cbn; lia.
  - destruct e; cbn; lia.
Qed.

Definition op_ok (o : op) : Prop := match o with OAdd nm _ | OLookup nm => no_nul nm | _ => True end.

Lemma step_represents o s e : represents s e -> op_ok o -> Z.of_nat (List.length e) < 2147483648 ->
  exists s', step o s = Some ((spec_step o e).1, s') /\ represents s' (spec_step o e).2.
Proof.
  intros Hr Ho Hb. destruct o as [nm i | nm | |].
  - destruct (add_represents s e nm i Hr Ho) as (r & s' & E & Er & Hr'). exists s'. cbn [step].
    rewrite E. cbn. destruct (spec_add nm i e). cbn in *. by subst.
  - exists s. split; [by apply lookup_represents | done].
  - exists (enter_scope s). split; [done |]. by apply enter_represents.
  - destruct (leave_represents s e Hr) as (s' & E & Hr'). exists s'. cbn [step]. by rewrite E.
Qed.

Lemma run_represents os : forall s e, represents s e -> Forall op_ok os ->
  Z.of_nat (List.length e + List.length os) < 2147483648 ->
  exists s', run os s = Some ((spec_run os e).1, s') /\ represents s' (spec_run os e).2.
Proof.
  induction os as [| o os IH]; intros s e Hr Ho Hb; [by exists s |]. apply Forall_cons in Ho as [Ho Hos].
  cbn [List.length] in Hb. destruct (step_represents o s e Hr Ho) as (s1 & E1 & Hr1); [lia |].
  destruct (spec_step_depth o e) as [Hd | ->]; [| by destruct Hr].
  destruct (IH s1 (spec_step o e).2 Hr1 Hos) as (s' & E & Hr'); [lia |].
  exists s'. cbn [run spec_run]. rewrite E1. cbn [mbind option_bind]. rewrite E. cbn [mbind option_bind].
  destruct (spec_step o e) as [a e1]. cbn [fst snd] in *. by destruct (spec_run os e1).
Qed.

(** ** From the initial table *)

Section init_spec.
Variable builtin_addr : string -> Z.

Definition kernel_binding (n : string) : binding :=
  (take 31 (str n), Info SYM_KERN_FUNC TYPE_INT 0 0 (builtin_addr n)).
Definition kernel_scope : scopes := [map kernel_binding (List.rev BUILTINS)].

Lemma add_builtins_represents l : forall s sc, represents s [sc] -> Forall (fun n => no_nul (str n)) l ->
  (List.length sc + List.length l <= 256)%nat ->
  exists s', add_builtins builtin_addr l s = Some s' /\ represents s' [map kernel_binding (List.rev l) ++ sc].
Proof.
  induction l as [| n l IH]; intros s sc Hr Hn Hb; [by exists s |]. apply Forall_cons in Hn as [Hn Hns].
  cbn [List.length] in Hb.
  destruct (add_represents s [sc] (str n) (Info SYM_KERN_FUNC TYPE_INT 0 0 (builtin_addr n)) Hr Hn)
    as (r & s1 & E & _ & Hr1).
  unfold spec_add in Hr1. rewrite decide_False in Hr1 by (cbn [concat]; rewrite app_nil_r; unfold MAX_SYMBOLS; lia).
  destruct (IH s1 (kernel_binding n :: sc) Hr1 Hns) as (s' & E' & Hr');
    [unfold kernel_scope; cbn [List.length]; lia |].
  exists s'. cbn [add_builtins]. unfold add_builtin. cbn [i_kind i_type i_ptr i_offset i_addr] in E. rewrite E.
  cbn [mbind option_bind]. split; [done |]. cbn [List.rev]. rewrite map_app, <- app_assoc. done.
Qed.

Lemma init_represents s0 : exists s, init builtin_addr s0 = Some s /\ represents s kernel_scope.
Proof.
  destruct (add_builtins_represents BUILTINS
    (Symtab (replicate (Z.to_nat MAX_SYMBOLS) Symbol_new) 0 0
       (replicate (Z.to_nat MAX_STRUCT_DEFS) StructDef_new) 0 (console s0)) []) as (s & E & Hr).
  - split; try done.
  - unfold BUILTINS. repeat constructor; done.
  - cbn; lia.
  - exists s. split; [done |]. by rewrite app_nil_r in Hr.
Qed.

(** C19: the symbol table behaves as a stack of scopes: for every sequence of
    additions, look-ups, scope entries and exits after [init], each answer is
    that of the abstract stack, on which a look-up finds the innermost newest
    binding, leaving a scope removes exactly its bindings, and an addition
    fails exactly when 256 symbols are live. *)
Theorem symtab_refines_scopes os s0 :
  Forall op_ok os -> Z.of_nat (List.length os) < 2147483647 ->
  exists s s', init builtin_addr s0 = Some s /\ run os s = Some ((spec_run os kernel_scope).1, s') /\
    represents s' (spec_run os kernel_scope).2.
Proof.
  intros Ho Hb. destruct (init_represents s0) as (s & E & Hr).
  destruct (run_represents os s kernel_scope Hr Ho) as (s' & E' & Hr');
    [unfold kernel_scope; cbn [List.length]; lia |].
  exists s, s'. split; [exact E | split; [exact E' | exact Hr']].
Qed.
End init_spec.

(** A local shadows a global until its scope is left; a kernel function is
    always there. *)
Lemma symtab_refines_scopes_witness :
  let g := Info SYM_GLOBAL TYPE_INT 0 0 100 in let l := Info SYM_LOCAL TYPE_CHAR 1 (-4) 0 in
  let os := [OAdd (str "x") g; OEnter; OAdd (str "x") l; OLookup (str "x"); OLeave; OLookup (str "x");
             OLookup (str "free"); OLookup (str "y")] in
  exists s s', init (fun n => Z.of_nat (String.length n)) (Symtab [] 0 0 [] 0 []) = Some s /\
    run os s = Some ([Added 0; Done; Added 0; Found (Some l); Done; Found (Some g);
                      Found (Some (Info SYM_KERN_FUNC TYPE_INT 0 0 4)); Found None], s').
Proof.
  intros g l os.
  destruct (symtab_refines_scopes (fun n => Z.of_nat (String.length n)) os (Symtab [] 0 0 [] 0 []))
    as (s & s' & E & E' & _).
  - unfold os. repeat constructor; done.
  - done.
  - exists s, s'. split; [exact E |]. rewrite E'. vm_compute. reflexivity.
Defined.

(** ** Struct definitions *)

(** A name of at most 31 characters is found under the name it was added. *)
Definition def_name (d : StructDef) : list Z := cstr (d_name d).

Lemma struct_loop_spec nm s : no_nul nm -> forall n i, 0 <= i ->
  (Z.to_nat i + n <= List.length (STRUCT_DEFS s))%nat ->
  match list_find (fun d => def_name d = nm) (take n (drop (Z.to_nat i) (STRUCT_DEFS s))) with
  | None => struct_loop n nm i s = Some None
  | Some (k, _) => struct_loop n nm i s = Some (Some (i + Z.of_nat k))
  end.
Proof.
  intros Hn. induction n as [| n IH]; intros i Hi Hl; [done |].
  destruct (lookup_lt_is_Some_2 (STRUCT_DEFS s) (Z.to_nat i)) as [d Hd]; [lia |].
  rewrite (drop_S _ d) by done. cbn [take list_find struct_loop]. unfold zget.
  rewrite (proj2 (Z.ltb_ge _ _)), Hd by lia. cbn [mbind option_bind]. rewrite name_is_eq by done.
  unfold def_name at 1. case_decide as E.
  - rewrite bool_decide_true by done. do 2 f_equal. lia.
  - rewrite bool_decide_false by done. specialize (IH (i + 1)).
    replace (Z.to_nat (i + 1)) with (S (Z.to_nat i)) in IH by lia. specialize (IH ltac:(lia) ltac:(lia)).
    destruct (list_find _ _) as [[k x] |]; cbn; [| done]. rewrite IH. do 2 f_equal. lia.
Qed.
