(* ===== verification/NetWire.v ===== *)
(** Byte order and the Internet checksum ([src/src/net.rs], [checksum] of
    [src/src/ipv4.rs]).

    A packet is the list of its bytes, and its length is the list's. *)
From S2P Require Import Prelude.

Definition NET_IP_ADDR : Z := 0x0A00020F.
Definition NET_GATEWAY : Z := 0x0A000202.
Definition NET_SUBNET_MASK : Z := 0xFFFFFF00.
Definition ETH_TYPE_IP : Z := 0x0800.
Definition ETH_TYPE_ARP : Z := 0x0806.
Definition IP_PROTO_ICMP : Z := 1.
Definition IP_PROTO_TCP : Z := 6.
Definition IP_PROTO_UDP : Z := 17.
Definition ETH_BROADCAST : list Z := replicate 6 0xFF.

(** The interface of [ipv4::send] to the transport protocols: destination,
    protocol and payload, the result and the new state of the layers below. *)
Class IpLayer (N : Type) := ip_send : Z -> Z -> list Z -> N -> Z * N.

(** The same layer as a thread meets it that may have to wait: is the hardware address
    of the next hop to a destination known, the request for it, a packet given up
    because it did not become known, and what happens below during one [hlt] of so
    many ticks.  [ip_send] is the send once the address is known. *)
Class IpPath (N : Type) := {
  ip_known : Z -> N -> bool;
  ip_request : Z -> N -> N;
  ip_drop : N -> N;
  ip_wake : Z -> N -> N }.

(** ** Byte order *)

Definition htons (v : Z) : Z := u16 (Z.lor (Z.shiftr v 8) (Z.shiftl v 8)).
Definition ntohs (v : Z) : Z := htons v.
Definition htonl (v : Z) : Z :=
  Z.lor (Z.lor (Z.lor (Z.land (Z.shiftr v 24) 0xFF) (Z.land (Z.shiftr v 8) 0xFF00))
           (Z.land (u32 (Z.shiftl v 8)) 0xFF0000)) (Z.land (u32 (Z.shiftl v 24)) 0xFF000000).
Definition ntohl (v : Z) : Z := htonl v.

(** An unaligned read of a field at [off]. *)
Definition rd16 (off : nat) (l : list Z) : Z := le_val (slice off 2 l).
Definition rd32 (off : nat) (l : list Z) : Z := le_val (slice off 4 l).

Lemma land_mask_shift x k n : 0 <= k -> 0 <= n -> Z.land x (Z.shiftl (Z.ones n) k) = Z.shiftl (Z.land (Z.shiftr x k) (Z.ones n)) k.
Proof.
  intros Hk Hn. apply Z.bits_inj'. intros i Hi. rewrite Z.land_spec, !Z.shiftl_spec by lia.
  destruct (Z.lt_ge_cases i k).
  - rewrite !(Z.testbit_neg_r _ (i - k)) by lia. by rewrite andb_false_r.
  - rewrite Z.land_spec, Z.shiftr_spec by lia. f_equal. f_equal. lia.
Qed.

(** Disjoint bits: [lor] is addition. *)
Lemma lor_add_shift a b k : 0 <= k -> 0 <= a < 2 ^ k -> Z.lor a (Z.shiftl b k) = a + b * 2 ^ k.
Proof.
  intros Hk Ha. assert (Hd : Z.land a (Z.shiftl b k) = 0).
  { apply Z.bits_inj'. intros i Hi. rewrite Z.land_spec, Z.testbit_0_l. destruct (Z.lt_ge_cases i k).
    - rewrite (Z.shiftl_spec_low _ _ i) by lia. apply andb_false_r.
    - by rewrite (bits_high k a) by lia. }
  rewrite <- Z.shiftl_mul_pow2, Z.add_nocarry_lxor, Z.lxor_lor by done. done.
Qed.

(** A byte of a word, left where it is. *)
Lemma land_byte v j : 0 <= j -> Z.land v (Z.shiftl 255 j) = Z.shiftl (v / 2 ^ j mod 256) j.
Proof.
  intros Hj. change 255 with (Z.ones 8). rewrite land_mask_shift, Z.land_ones by lia.
  by rewrite Z.shiftr_div_pow2 by lia.
Qed.

Lemma htons_val v : 0 <= v < 65536 -> htons v = v / 256 + v mod 256 * 256.
Proof.
  intros Hv. unfold htons, u16. rewrite Z.shiftr_div_pow2, lor_add_shift by (lia || mod_lia). mod_lia.
Qed.

Lemma htonl_val v : 0 <= v < 4294967296 ->
  htonl v = v / 16777216 + v / 65536 mod 256 * 256 + v / 256 mod 256 * 65536 + v mod 256 * 16777216.
Proof.
  intros Hv. unfold htonl.
  assert (E0 : Z.land (Z.shiftr v 24) 0xFF = v / 16777216).
  { change 0xFF with (Z.ones 8). rewrite Z.land_ones, Z.shiftr_div_pow2 by lia. mod_lia. }
  assert (E1 : Z.land (Z.shiftr v 8) 0xFF00 = Z.shiftl (v / 65536 mod 256) 8).
  { change 0xFF00 with (Z.shiftl 255 8). rewrite land_byte, Z.shiftr_div_pow2 by lia. f_equal. mod_lia. }
  assert (E2 : Z.land (u32 (Z.shiftl v 8)) 0xFF0000 = Z.shiftl (v / 256 mod 256) 16).
  { change 0xFF0000 with (Z.shiftl 255 16). rewrite land_byte by lia. f_equal.
    rewrite Z.shiftl_mul_pow2 by lia. change (2 ^ 8) with 256. change (2 ^ 16) with 65536. unfold u32.
    assert (v * 256 mod 4294967296 = v mod 16777216 * 256) as -> by mod_lia. mod_lia. }
  assert (E3 : Z.land (u32 (Z.shiftl v 24)) 0xFF000000 = Z.shiftl (v mod 256) 24).
  { change 0xFF000000 with (Z.shiftl 255 24). rewrite land_byte by lia. f_equal.
    rewrite Z.shiftl_mul_pow2 by lia. change (2 ^ 24) with 16777216. unfold u32.
    assert (v * 16777216 mod 4294967296 = v mod 256 * 16777216) as -> by mod_lia. mod_lia. }
  rewrite E0, E1, E2, E3. change 16777216 with (2 ^ 24) at 2. change 65536 with (2 ^ 16) at 2.
  rewrite (lor_add_shift _ _ 8) by mod_lia. rewrite (lor_add_shift _ _ 16) by mod_lia.
  rewrite (lor_add_shift _ _ 24) by mod_lia. change (2 ^ 8) with 256. change (2 ^ 16) with 65536.
  change (2 ^ 24) with 16777216. lia.
Qed.

Lemma htonl_bytes a b c d : is_byte a -> is_byte b -> is_byte c -> is_byte d ->
  htonl (le_val [a; b; c; d]) = le_val [d; c; b; a].
Proof.
  unfold is_byte. intros. cbn [le_val]. rewrite htonl_val by lia.
  set (v := a + _).
  assert (v / 16777216 = d) as -> by (unfold v; mod_lia).
  assert (v / 65536 = c + 256 * d) as -> by (unfold v; mod_lia).
  assert (v / 256 = b + 256 * (c + 256 * d)) as -> by (unfold v; mod_lia).
  assert (v mod 256 = a) as -> by (unfold v; mod_lia).
  assert ((c + 256 * d) mod 256 = c) as -> by mod_lia.
  assert ((b + 256 * (c + 256 * d)) mod 256 = b) as -> by mod_lia. lia.
Qed.

(** In memory, a converted field is big-endian. *)
Lemma le_htons v : 0 <= v < 65536 -> le_bytes 2 (htons v) = be_bytes 2 v.
Proof.
  intros Hv. unfold be_bytes. cbn [le_bytes rev app]. rewrite htons_val by done.
  f_equal; [mod_lia | f_equal; mod_lia].
Qed.

Lemma le_htonl v : 0 <= v < 4294967296 -> le_bytes 4 (htonl v) = be_bytes 4 v.
Proof.
  intros Hv. rewrite <- (le_val_4 v Hv) at 1. unfold be_bytes.
  pose proof (le_bytes_byte_list 4 v) as Hb. remember (le_bytes 4 v) as l eqn:E.
  assert (Hl : length l = 4%nat) by (subst; apply length_le_bytes). clear E.
  destruct l as [| a [| b [| c [| d [|]]]]]; try done. unfold byte_list in Hb.
  rewrite !Forall_cons in Hb. destruct Hb as (Ha & Hb & Hc & Hd & _).
  rewrite htonl_bytes by done. exact (le_bytes_le_val [d; c; b; a] ltac:(unfold byte_list; auto using Forall_cons_2, Forall_nil_2)).
Qed.

Lemma htons_range v : 0 <= htons v < 65536.
Proof. apply u16_range. Qed.
Lemma htons_involutive v : 0 <= v < 65536 -> ntohs (htons v) = v.
Proof.
  intros Hv. unfold ntohs. rewrite (htons_val (htons v)) by apply htons_range. rewrite htons_val by done. mod_lia.
Qed.
Lemma htonl_range v : 0 <= v < 4294967296 -> 0 <= htonl v < 4294967296.
Proof. intros Hv. rewrite htonl_val by done. mod_lia. Qed.
Lemma htonl_involutive v : 0 <= v < 4294967296 -> ntohl (htonl v) = v.
Proof.
  intros Hv. unfold ntohl. rewrite <- (le_val_4 (htonl (htonl v))) by (by apply htonl_range, htonl_range).
  rewrite le_htonl by (by apply htonl_range). unfold be_bytes. rewrite le_htonl by done.
  unfold be_bytes. rewrite rev_involutive. by apply le_val_4.
Qed.

(** ** The Internet checksum *)

(** The sum of the 16-bit words, and of the last byte of an odd length. *)
Fixpoint sum_words (l : list Z) (sum : Z) : Z :=
  match l with
  | a :: b :: l => sum_words l (u32 (sum + (a + 256 * b)))
  | [a] => u32 (sum + a)
  | [] => sum
  end.

Definition checksum (l : list Z) : Z :=
  let sum := sum_words l 0 in
  let sum := u32 (Z.shiftr sum 16 + Z.land sum 0xFFFF) in
  let sum := u32 (sum + Z.shiftr sum 16) in
  u16 (not32 sum).

(** The same sum without wrap-around. *)
Fixpoint words_sum (l : list Z) : Z :=
  match l with
  | a :: b :: l => a + 256 * b + words_sum l
  | [a] => a
  | [] => 0
  end.

Lemma pair_ind (P : list Z -> Prop) :
  P [] -> (forall a, P [a]) -> (forall a b l, P l -> P (a :: b :: l)) -> forall l, P l.
Proof.
  intros H0 H1 H2 l. assert (H : P l /\ forall a, P (a :: l)); [| apply H].
  induction l as [| b l [IH1 IH2]]; split; auto.
Qed.

Lemma words_sum_bound l : byte_list l -> 0 <= words_sum l <= 65535 * Z.of_nat (length l).
Proof.
  induction l as [| a | a b l IH] using pair_ind; intros Hl; cbn [words_sum length].
  - lia.
  - apply Forall_cons in Hl as [Ha _]. unfold is_byte in Ha. lia.
  - apply Forall_cons in Hl as [Ha Hl]. apply Forall_cons in Hl as [Hb Hl]. unfold is_byte in *.
    specialize (IH Hl). lia.
Qed.

Lemma sum_words_val l : forall sum, byte_list l -> 0 <= sum -> sum + 65535 * Z.of_nat (length l) < 4294967296 ->
  sum_words l sum = sum + words_sum l.
Proof.
  induction l as [| a | a b l IH] using pair_ind; intros sum Hl Hs Hb; cbn [sum_words words_sum length] in *.
  - lia.
  - apply Forall_cons in Hl as [Ha _]. unfold is_byte in Ha. apply u32_small. lia.
  - apply Forall_cons in Hl as [Ha Hl]. apply Forall_cons in Hl as [Hb' Hl]. unfold is_byte in *.
    rewrite u32_small by lia. rewrite IH by (done || lia). lia.
Qed.

(** The ones'-complement value of a sum. *)
Definition fold16 (S : Z) : Z := if S =? 0 then 0 else (S - 1) mod 65535 + 1.

Lemma not32_u16 x : 0 <= x < 131072 -> u16 (not32 x) = 65535 - x mod 65536.
Proof.
  intros Hx. unfold u16, not32. change 65536 with (2 ^ 16). change 4294967295 with (Z.ones 32).
  rewrite <- (Z.land_ones (Z.lxor x (Z.ones 32)) 16) by lia.
  assert (E : Z.land (Z.lxor x (Z.ones 32)) (Z.ones 16) = Z.ldiff (Z.ones 16) (x mod 2 ^ 16)).
  { rewrite <- Z.land_ones by lia. apply Z.bits_inj'. intros i Hi.
    rewrite Z.land_spec, Z.lxor_spec, Z.ldiff_spec, Z.land_spec, !Z.testbit_ones_nonneg by lia.
    destruct (Z.ltb_spec i 16), (Z.ltb_spec i 32); try lia; by destruct (Z.testbit x i). }
  rewrite E, <- Z.sub_nocarry_ldiff; [done |].
  rewrite <- Z.land_ones by lia. apply Z.bits_inj'. intros i Hi.
  rewrite Z.ldiff_spec, Z.land_spec, Z.testbit_0_l. by destruct (Z.testbit x i), (Z.testbit (Z.ones 16) i).
Qed.

(** The ones' complement of the ones'-complement sum: two folds are enough for
    a length below 64 KB. *)
Lemma checksum_val l : byte_list l -> Z.of_nat (length l) <= 65535 -> checksum l = 65535 - fold16 (words_sum l).
Proof.
  intros Hl Hn. pose proof (words_sum_bound l Hl) as Hb. unfold checksum.
  rewrite sum_words_val by (done || lia). rewrite Z.add_0_l. set (S := words_sum l) in *.
  assert (HS : 0 <= S < 4294901761) by lia.
  change 0xFFFF with (Z.ones 16). rewrite Z.land_ones, Z.shiftr_div_pow2 by lia. change (2 ^ 16) with 65536.
  set (F := S / 65536 + S mod 65536). assert (HF : 0 <= F < 131070) by (unfold F; mod_lia).
  rewrite (u32_small F) by lia. rewrite Z.shiftr_div_pow2 by lia. change (2 ^ 16) with 65536.
  rewrite u32_small by mod_lia. rewrite not32_u16 by mod_lia. f_equal.
  unfold fold16. destruct (Z.eqb_spec S 0) as [E | E]; [unfold F; by rewrite E |].
  assert (HF0 : 0 < F) by (unfold F; mod_lia).
  assert (HFS : F mod 65535 = S mod 65535).
  { unfold F. rewrite (Z.div_mod S 65536) at 3 by lia.
    replace (65536 * (S / 65536) + S mod 65536) with (S / 65536 + S mod 65536 + S / 65536 * 65535) by lia.
    by rewrite Z.mod_add by lia. }
  assert (HFm : (S - 1) mod 65535 = (F - 1) mod 65535) by (rewrite Zminus_mod, <- HFS, <- Zminus_mod; done).
  rewrite HFm. clear - HF HF0. destruct (Z.lt_ge_cases F 65536).
  - assert (F / 65536 = 0) as -> by mod_lia. destruct (Z.eq_dec F 65535) as [-> |]; [done |]. mod_lia.
  - assert (F / 65536 = 1) as -> by mod_lia. mod_lia.
Qed.

Lemma fold16_range S : 0 <= fold16 S <= 65535.
Proof. unfold fold16. case_if; mod_lia. Qed.

Lemma checksum_range l : 0 <= checksum l < 65536.
Proof. apply u16_range. Qed.

(** A message whose words sum to a multiple of 65535, not all zero, is
    accepted. *)
Lemma checksum_zero l : byte_list l -> Z.of_nat (length l) <= 65535 -> words_sum l <> 0 ->
  words_sum l mod 65535 = 0 -> checksum l = 0.
Proof.
  intros Hl Hn H0 Hm. rewrite checksum_val by done. unfold fold16. rewrite (proj2 (Z.eqb_neq _ _)) by done.
  assert ((words_sum l - 1) mod 65535 = 65534) as ->; [| done].
  rewrite Zminus_mod, Hm. done.
Qed.

Lemma words_sum_app l1 : forall l2, Nat.even (length l1) = true -> words_sum (l1 ++ l2) = words_sum l1 + words_sum l2.
Proof.
  induction l1 as [| a | a b l IH] using pair_ind; intros l2 He; [done | done |].
  rewrite <- !app_comm_cons. cbn [words_sum]. rewrite IH; [lia | exact He].
Qed.

Lemma byte_list_app l1 l2 : byte_list (l1 ++ l2) <-> byte_list l1 /\ byte_list l2.
Proof. apply Forall_app. Qed.

(** The sender's procedure: the field, at an even offset, is filled with the
    checksum of the message with a zero field; then the message verifies. *)
Lemma checksum_fill pre post : byte_list pre -> byte_list post -> Nat.even (length pre) = true ->
  Z.of_nat (length pre + 2 + length post) <= 65535 ->
  let c := checksum (pre ++ [0; 0] ++ post) in checksum (pre ++ le_bytes 2 c ++ post) = 0.
Proof.
  intros Hpre Hpost He Hn c.
  assert (Hc : 0 <= c < 65536) by apply checksum_range.
  assert (Hb0 : byte_list (pre ++ [0; 0] ++ post)).
  { rewrite !byte_list_app. split_and!; [done | | done]. unfold byte_list, is_byte. repeat constructor; lia. }
  assert (Hs0 : words_sum (pre ++ [0; 0] ++ post) = words_sum pre + words_sum post).
  { rewrite words_sum_app by done. cbn [app words_sum]. lia. }
  assert (Hs : words_sum (pre ++ le_bytes 2 c ++ post) = words_sum pre + words_sum post + c).
  { rewrite words_sum_app by done. cbn [le_bytes app words_sum]. mod_lia. }
  pose proof (words_sum_bound pre Hpre). pose proof (words_sum_bound post Hpost).
  assert (Ec : c = 65535 - fold16 (words_sum pre + words_sum post)).
  { unfold c. rewrite checksum_val, Hs0 by (done || (rewrite !length_app; simpl; lia)). done. }
  apply checksum_zero.
  - rewrite !byte_list_app. auto using le_bytes_byte_list.
  - rewrite !length_app, length_le_bytes. lia.
  - rewrite Hs, Ec. unfold fold16. case_if; breflect; [lia | mod_lia].
  - rewrite Hs, Ec. unfold fold16. case_if; breflect; [by rewrite E | mod_lia].
Qed.
