(* ===== verification/Tcp.v ===== *)
(** TCP client ([src/src/tcp.rs]): four connections, the handshake, the circular
    receive buffer and the closing states.

    Segments go out through the interface [IpLayer] ([ipv4::send]) and come in
    through [rx], the handler the interrupt calls.  A blocking call waits with
    [hlt]; what happens until the processor wakes is one [wake] of the
    environment: the ticks that pass and the segments that are received then.
    A thread's send waits too, in [arp::resolve], while the next hop is not known
    ([IpPath]); an answer sent by [rx] cannot wait, with interrupts off.
    A call whose environment is used up is still waiting ([None]); [None] is also
    an index out of range and the overflow of [SEG_BUF]. *)
From S2P Require Import Prelude Waiting NetWire.

(** ** Data *)

Definition TCP_FIN : Z := 0x01.
Definition TCP_SYN : Z := 0x02.
Definition TCP_RST : Z := 0x04.
Definition TCP_PSH : Z := 0x08.
Definition TCP_ACK : Z := 0x10.
Definition TCP_CLOSED : Z := 0.
Definition TCP_SYN_SENT : Z := 1.
Definition TCP_ESTABLISHED : Z := 2.
Definition TCP_FIN_WAIT_1 : Z := 3.
Definition TCP_FIN_WAIT_2 : Z := 4.
Definition TCP_TIME_WAIT : Z := 5.
Definition TCP_MAX_CONNS : nat := 4.
Definition TCP_RX_BUF_SIZE : Z := 4096.
Definition TCP_WINDOW : Z := 4096.

Record TcpConn := Conn {
  in_use : bool; state : Z; remote_ip : Z; remote_port : Z; local_port : Z; send_seq : Z; send_ack : Z;
  rx_buf : list Z; rx_head : Z; rx_tail : Z; fin_received : bool; connected : bool }.

Definition TcpConn_new : TcpConn :=
  Conn false TCP_CLOSED 0 0 0 0 0 (replicate (Z.to_nat TCP_RX_BUF_SIZE) 0) 0 0 false false.

Definition with_state (st : Z) (c : TcpConn) : TcpConn :=
  Conn (in_use c) st (remote_ip c) (remote_port c) (local_port c) (send_seq c) (send_ack c) (rx_buf c)
    (rx_head c) (rx_tail c) (fin_received c) (connected c).
Definition with_seq (sq ak : Z) (c : TcpConn) : TcpConn :=
  Conn (in_use c) (state c) (remote_ip c) (remote_port c) (local_port c) sq ak (rx_buf c)
    (rx_head c) (rx_tail c) (fin_received c) (connected c).
Definition with_ring (b : list Z) (h t : Z) (c : TcpConn) : TcpConn :=
  Conn (in_use c) (state c) (remote_ip c) (remote_port c) (local_port c) (send_seq c) (send_ack c) b h t
    (fin_received c) (connected c).
Definition with_flags (u f cn : bool) (c : TcpConn) : TcpConn :=
  Conn u (state c) (remote_ip c) (remote_port c) (local_port c) (send_seq c) (send_ack c) (rx_buf c)
    (rx_head c) (rx_tail c) f cn.

(** [net] is the layer below; [TICKS] the clock of [timer::get_ticks]. *)
Record tcp (N : Type) := Tcp {
  CONNS : list TcpConn; NEXT_LOCAL_PORT : Z; SEG_BUF : list Z; TICKS : Z; net : N }.
Arguments Tcp {N}. Arguments CONNS {N}. Arguments NEXT_LOCAL_PORT {N}. Arguments SEG_BUF {N}.
Arguments TICKS {N}. Arguments net {N}.

Record wake := Wake { w_ticks : Z; w_segments : list (Z * list Z) }.

Section tcp.
Context {N : Type} `{IpLayer N} `{IpPath N}.
Implicit Types s : tcp N.

(** [CONNS[i]]; [i] is below [TCP_MAX_CONNS], the length of the array, wherever
    it is used. *)
Definition conn s (i : nat) : TcpConn := nth i (CONNS s) TcpConn_new.
Definition upd (i : nat) (f : TcpConn -> TcpConn) s : tcp N :=
  Tcp (<[i := f (conn s i)]> (CONNS s)) (NEXT_LOCAL_PORT s) (SEG_BUF s) (TICKS s) (net s).

(** ** Segments *)

Definition pseudo_header (src_ip dst_ip tcp_len : Z) : list Z :=
  le_bytes 4 (htonl src_ip) ++ le_bytes 4 (htonl dst_ip) ++ [0; 6] ++ le_bytes 2 (htons tcp_len).

Definition tcp_checksum (src_ip dst_ip : Z) (seg : list Z) : Z :=
  let tcp_len := Z.of_nat (length seg) in
  if 1480 <? tcp_len then 0 else checksum (pseudo_header src_ip dst_ip tcp_len ++ seg).

Definition tcp_header (c : TcpConn) (flags csum : Z) : list Z :=
  le_bytes 2 (htons (local_port c)) ++ le_bytes 2 (htons (remote_port c)) ++
  le_bytes 4 (htonl (send_seq c)) ++ le_bytes 4 (htonl (send_ack c)) ++ [0x50; flags] ++
  le_bytes 2 (htons TCP_WINDOW) ++ le_bytes 2 csum ++ [0; 0].

(** [SEG_BUF] with the segment, its checksum filled in.  [data] is [None] for the null
    pointer, else at least [data_len] bytes. *)
Definition fill_segment (c : TcpConn) (flags : Z) (data : option (list Z)) (data_len : Z) s : option (list Z) :=
  let tcp_len := u16 (20 + data_len) in
  let buf := splice 0 (tcp_header c flags 0) (SEG_BUF s) in
  buf ← match data with
        | Some d => if 0 <? data_len then
                      if 20 + data_len <=? 1480 then Some (splice 20 (take (Z.to_nat data_len) d) buf) else None
                    else Some buf
        | None => Some buf
        end;
  let csum := tcp_checksum NET_IP_ADDR (remote_ip c) (take (Z.to_nat tcp_len) buf) in
  Some (splice 16 (le_bytes 2 csum) buf).

Definition set_seg_buf (buf : list Z) s : tcp N := Tcp (CONNS s) (NEXT_LOCAL_PORT s) buf (TICKS s) (net s).
Definition set_net (n : N) s : tcp N := Tcp (CONNS s) (NEXT_LOCAL_PORT s) (SEG_BUF s) (TICKS s) n.

(** From the interrupt handler. *)
Definition tcp_send_segment (c : TcpConn) (flags : Z) (data : option (list Z)) (data_len : Z) s : option (tcp N) :=
  let tcp_len := u16 (20 + data_len) in
  if 1480 <? tcp_len then Some s else
  buf ← fill_segment c flags data data_len s;
  Some (Tcp (CONNS s) (NEXT_LOCAL_PORT s) buf (TICKS s)
          (ip_send (remote_ip c) IP_PROTO_TCP (take (Z.to_nat tcp_len) buf) (net s)).2).

(** A segment without data from connection [i]. *)
Definition send_empty (i : nat) (flags : Z) s : option (tcp N) := tcp_send_segment (conn s i) flags None 0 s.

(** ** Connections *)

(** [for i in 0..TCP_MAX_CONNS]: the first that [p] holds of. *)
Definition find_conn (p : TcpConn -> bool) s : option nat :=
  List.find (fun i => p (conn s i)) (seq 0 TCP_MAX_CONNS).

Definition tcp_alloc_conn s : option nat := find_conn (fun c => negb (in_use c)) s.

Definition matches (rip rport lport : Z) (c : TcpConn) : bool :=
  in_use c && (remote_ip c =? rip) && (remote_port c =? rport) && (local_port c =? lport).
Definition tcp_find_conn (rip rport lport : Z) s : option nat := find_conn (matches rip rport lport) s.

Definition init s : tcp N :=
  Tcp (replicate TCP_MAX_CONNS TcpConn_new) (NEXT_LOCAL_PORT s) (SEG_BUF s) (TICKS s) (net s).

(** ** Reception *)

(** The loop over the payload: [None] is an index out of range. *)
Fixpoint store_payload (p : list Z) (c : TcpConn) : option TcpConn :=
  match p with
  | [] => Some c
  | b :: p =>
      let next := u16 (rx_head c + 1) mod TCP_RX_BUF_SIZE in
      if next =? rx_tail c then Some c else
      buf ← zset (rx_buf c) (rx_head c) b;
      store_payload p (with_ring buf next (rx_tail c) c)
  end.

Definition has (flags bit : Z) : bool := negb (Z.land flags bit =? 0).

(** The answer to a segment that belongs to no connection. *)
Definition send_reset (src_ip src_port dst_port flags seq ack payload_len : Z) s : option (tcp N) :=
  if has flags TCP_RST then Some s else
  let tmp sq ak := with_seq sq ak (Conn false TCP_CLOSED src_ip src_port dst_port 0 0 (rx_buf TcpConn_new) 0 0 false false) in
  if has flags TCP_ACK then tcp_send_segment (tmp ack 0) TCP_RST None 0 s
  else
    let a := u32 (seq + payload_len) in
    let a := if has flags TCP_SYN then u32 (a + 1) else a in
    let a := if has flags TCP_FIN then u32 (a + 1) else a in
    tcp_send_segment (tmp 0 a) (Z.lor TCP_RST TCP_ACK) None 0 s.

(** The [match] on the connection's state. *)
Definition rx_state (i : nat) (flags seq ack : Z) (payload : list Z) s : option (tcp N) :=
  let payload_len := Z.of_nat (length payload) in
  let c := conn s i in
  if state c =? TCP_SYN_SENT then
    if Z.land flags (Z.lor TCP_SYN TCP_ACK) =? Z.lor TCP_SYN TCP_ACK then
      if negb (ack =? u32 (send_seq c + 1)) then Some s else
      s ← send_empty i TCP_ACK (upd i (with_seq ack (u32 (seq + 1))) s);
      Some (upd i (fun c => with_flags (in_use c) (fin_received c) true (with_state TCP_ESTABLISHED c)) s)
    else Some s
  else if state c =? TCP_ESTABLISHED then
    s ← (if 0 <? payload_len then
           c ← store_payload payload c;
           send_empty i TCP_ACK (upd i (fun _ => with_seq (send_seq c) (u32 (seq + payload_len)) c) s)
         else Some s);
    if has flags TCP_FIN then
      s ← send_empty i TCP_ACK (upd i (fun c => with_seq (send_seq c) (u32 (u32 (seq + payload_len) + 1)) c) s);
      Some (upd i (fun c => with_state TCP_TIME_WAIT (with_flags (in_use c) true (connected c) c)) s)
    else Some s
  else if state c =? TCP_FIN_WAIT_1 then
    if has flags TCP_ACK then
      if has flags TCP_FIN then
        s ← send_empty i TCP_ACK (upd i (fun c => with_seq (send_seq c) (u32 (seq + 1)) c) s);
        Some (upd i (with_state TCP_TIME_WAIT) s)
      else Some (upd i (with_state TCP_FIN_WAIT_2) s)
    else Some s
  else if state c =? TCP_FIN_WAIT_2 then
    if has flags TCP_FIN then
      s ← send_empty i TCP_ACK (upd i (fun c => with_seq (send_seq c) (u32 (seq + 1)) c) s);
      Some (upd i (fun c => with_flags (in_use c) true (connected c) (with_state TCP_TIME_WAIT c)) s)
    else Some s
  else Some s.

(** The header fields as [rx] reads them. *)
Record segment := Segment { sg_src : Z; sg_dst : Z; sg_flags : Z; sg_seq : Z; sg_ack : Z; sg_hdr_len : Z }.
Definition read_header (data : list Z) : segment :=
  Segment (ntohs (rd16 0 data)) (ntohs (rd16 2 data)) (nth 13 data 0) (ntohl (rd32 4 data)) (ntohl (rd32 8 data))
    (u8 (Z.shiftr (nth 12 data 0) 4 * 4)).

Definition rx (src_ip : Z) (data : list Z) s : option (tcp N) :=
  let len := Z.of_nat (length data) in
  if len <? 20 then Some s else
  if negb (tcp_checksum src_ip NET_IP_ADDR data =? 0) then Some s else
  let h := read_header data in
  if (sg_hdr_len h <? 20) || (len <? sg_hdr_len h) then Some s else
  let payload := drop (Z.to_nat (sg_hdr_len h)) data in
  match tcp_find_conn src_ip (sg_src h) (sg_dst h) s with
  | None => send_reset src_ip (sg_src h) (sg_dst h) (sg_flags h) (sg_seq h) (sg_ack h) (Z.of_nat (length payload)) s
  | Some i =>
      if has (sg_flags h) TCP_RST
      then Some (upd i (fun c => with_flags false true false (with_state TCP_CLOSED c)) s)
      else rx_state i (sg_flags h) (sg_seq h) (sg_ack h) payload s
  end.

(** ** Blocking calls *)

Fixpoint rx_all (l : list (Z * list Z)) s : option (tcp N) :=
  match l with
  | [] => Some s
  | (ip, seg) :: l => s ← rx ip seg s; rx_all l s
  end.

Definition tick (d : Z) s : tcp N :=
  Tcp (CONNS s) (NEXT_LOCAL_PORT s) (SEG_BUF s) (u32 (TICKS s + d)) (ip_wake d (net s)).

(** Wake up from [hlt]. *)
Definition wake_up (w : wake) s : option (tcp N) := rx_all (w_segments w) (tick (w_ticks w) s).

#[export] Instance tcp_clock : Clock (tcp N) wake := {| now := TICKS; wake_from := wake_up; wake_ticks := w_ticks |}.

(** [arp::resolve], called by [ipv4::send] in a thread: is the next hop known in the end? *)
Fixpoint hop_attempts (n : nat) (ip : Z) (env : list wake) s : option (bool * tcp N * list wake) :=
  match n with
  | O => Some (false, s, env)
  | S n =>
      let s := set_net (ip_request ip (net s)) s in
      '(r, s, env) ← wait (TICKS s) 20 (fun s => ip_known ip (net s)) env s;
      if r : bool then Some (true, s, env) else hop_attempts n ip env s
  end.
Definition resolve_hop (ip : Z) (env : list wake) s : option (bool * tcp N * list wake) :=
  if ip_known ip (net s) then Some (true, s, env) else hop_attempts 3 ip env s.

(** [tcp_send_segment] in a thread.  The packet is built before the wait. *)
Definition send_waiting (c : TcpConn) (flags : Z) (data : option (list Z)) (data_len : Z) (env : list wake) s
    : option (tcp N * list wake) :=
  let tcp_len := u16 (20 + data_len) in
  if 1480 <? tcp_len then Some (s, env) else
  buf ← fill_segment c flags data data_len s;
  '(r, s, env) ← resolve_hop (remote_ip c) env (set_seg_buf buf s);
  Some (set_net (if r : bool then (ip_send (remote_ip c) IP_PROTO_TCP (take (Z.to_nat tcp_len) buf) (net s)).2
                 else ip_drop (net s)) s, env).

Fixpoint syn_attempts (n : nat) (i : nat) (env : list wake) s : option (bool * tcp N * list wake) :=
  match n with
  | O => Some (false, s, env)
  | S n =>
      '(s, env) ← send_waiting (conn s i) TCP_SYN None 0 env s;
      '(r, s, env) ← wait (TICKS s) 200 (fun s => connected (conn s i)) env s;
      if r : bool then Some (true, s, env) else syn_attempts n i env s
  end.

Definition connect (ip port : Z) (env : list wake) s : option (Z * tcp N * list wake) :=
  match tcp_alloc_conn s with
  | None => Some (-1, s, env)
  | Some i =>
      let c := Conn true TCP_SYN_SENT ip port (NEXT_LOCAL_PORT s) (u32 (u32 (TICKS s * 12345) + 1)) 0
                 (rx_buf TcpConn_new) 0 0 false false in
      let s := upd i (fun _ => c) s in
      let p := u16 (NEXT_LOCAL_PORT s + 1) in
      let s := Tcp (CONNS s) (if p =? 0 then 49152 else p) (SEG_BUF s) (TICKS s) (net s) in
      '(r, s, env) ← syn_attempts 3 i env s;
      if r : bool then Some (Z.of_nat i, s, env) else
      Some (-1, upd i (fun c => with_state TCP_CLOSED (with_flags false (fin_received c) (connected c) c)) s, env)
  end.

Definition valid_id (id : Z) : bool := (0 <=? id) && (id <? Z.of_nat TCP_MAX_CONNS).

Definition send (id : Z) (data : option (list Z)) (len : Z) (env : list wake) s : option (Z * tcp N * list wake) :=
  if negb (valid_id id) then Some (-1, s, env) else
  let i := Z.to_nat id in
  if negb (in_use (conn s i)) || negb (state (conn s i) =? TCP_ESTABLISHED) then Some (-1, s, env) else
  '(s, env) ← send_waiting (conn s i) (Z.lor TCP_ACK TCP_PSH) data len env s;
  Some (0, upd i (fun c => with_seq (u32 (send_seq c + len)) (send_ack c) c) s, env).

(** The waiting loop of [recv]: [false] is the time-out. *)
Fixpoint recv_wait (start timeout : Z) (i : nat) (env : list wake) s : option (bool * tcp N * list wake) :=
  let c := conn s i in
  if (rx_head c =? rx_tail c) && negb (fin_received c) then
    if timeout <=? elapsed start s then Some (false, s, env) else
    match env with
    | [] => None
    | w :: env => s ← wake_up w s; recv_wait start timeout i env s
    end
  else Some (true, s, env).

(** [for j in j..j + n]: the bytes of the ring from [tail]. *)
Fixpoint copy_out (n : nat) (j tail : Z) (buf : list Z) : option (list Z) :=
  match n with
  | O => Some []
  | S n =>
      b ← zget buf (u16 (tail + j) mod TCP_RX_BUF_SIZE);
      l ← copy_out n (j + 1) tail buf;
      Some (b :: l)
  end.

Definition recv_copy (i : nat) (max_len : Z) s : option (list Z * tcp N) :=
  let c := conn s i in
  let head := rx_head c in
  let tail := rx_tail c in
  if head =? tail then Some ([], s) else
  let avail := if tail <? head then head - tail else u16 (u16 (TCP_RX_BUF_SIZE - tail) + head) in
  let count := if max_len <? avail then max_len else avail in
  l ← copy_out (Z.to_nat count) 0 tail (rx_buf c);
  Some (l, upd i (fun c => with_ring (rx_buf c) (rx_head c) (u16 (tail + count) mod TCP_RX_BUF_SIZE) c) s).

(** The bytes stored at [buf]; their number is the result. *)
Definition recv (id max_len timeout : Z) (env : list wake) s : option (list Z * tcp N * list wake) :=
  if negb (valid_id id) then Some ([], s, env) else
  let i := Z.to_nat id in
  if negb (in_use (conn s i)) then Some ([], s, env) else
  '(r, s, env) ← recv_wait (TICKS s) timeout i env s;
  if r : bool then '(l, s) ← recv_copy i max_len s; Some (l, s, env) else Some ([], s, env).

(** The wait for the peer's FIN. *)
Fixpoint close_wait (start : Z) (i : nat) (env : list wake) s : option (tcp N * list wake) :=
  if negb (state (conn s i) =? TCP_CLOSED) && negb (state (conn s i) =? TCP_TIME_WAIT) then
    if 200 <=? elapsed start s then Some (s, env) else
    match env with
    | [] => None
    | w :: env => s ← wake_up w s; close_wait start i env s
    end
  else Some (s, env).

Definition close (id : Z) (env : list wake) s : option (tcp N * list wake) :=
  if negb (valid_id id) then Some (s, env) else
  let i := Z.to_nat id in
  if negb (in_use (conn s i)) then Some (s, env) else
  '(s, env) ← (if (state (conn s i) =? TCP_ESTABLISHED) || (state (conn s i) =? TCP_SYN_SENT) then
                 '(s, env) ← send_waiting (conn s i) (Z.lor TCP_FIN TCP_ACK) None 0 env s;
                 let s := upd i (fun c => with_state TCP_FIN_WAIT_1 (with_seq (u32 (send_seq c + 1)) (send_ack c) c)) s in
                 close_wait (TICKS s) i env s
               else Some (s, env));
  '(s, env) ← (if state (conn s i) =? TCP_TIME_WAIT then
                 '(_, s, env) ← wait (TICKS s) 50 (fun _ => false) env s; Some (s, env)
               else Some (s, env));
  Some (upd i (fun c => with_state TCP_CLOSED (with_flags false (fin_received c) (connected c) c)) s, env).

(** The C-ABI wrappers for compiled programs. *)
Definition tcp_connect := connect.
Definition tcp_send := send.
Definition tcp_recv := recv.
Definition tcp_close := close.
End tcp.
