(* ===== verification/TcpSpec.v ===== *)
(** What the TCP client ([Tcp]) guarantees: segments it sends verify and parse at
    the peer, every operation keeps the connection table well formed without an
    index out of range, the handshake, and the receive buffer as a queue. *)
From S2P Require Import Prelude Waiting Ring NetWire Tcp.

(** ** Well-formed state *)

Definition word16 (v : Z) : Prop := 0 <= v < 65536.
Definition word32 (v : Z) : Prop := 0 <= v < 4294967296.

Record wf_conn (c : TcpConn) : Prop := {
  wf_state : 0 <= state c <= 5;
  wf_use : in_use c = negb (state c =? TCP_CLOSED);
  wf_syn : state c = TCP_SYN_SENT -> connected c = false;
  wf_ip : word32 (remote_ip c);
  wf_rport : word16 (remote_port c);
  wf_lport : word16 (local_port c);
  wf_seq : word32 (send_seq c);
  wf_ack : word32 (send_ack c);
  wf_ring : ring_wf TCP_RX_BUF_SIZE (rx_buf c) (rx_head c) (rx_tail c) }.

Section spec.
Context {N : Type} `{IpLayer N} `{IpPath N}.
Implicit Types s : tcp N.

Record wf s : Prop := {
  wf_conns : Forall wf_conn (CONNS s);
  wf_count : length (CONNS s) = TCP_MAX_CONNS;
  wf_port : word16 (NEXT_LOCAL_PORT s);
  wf_seg : length (SEG_BUF s) = 1480%nat;
  wf_segb : byte_list (SEG_BUF s);
  wf_ticks : word32 (TICKS s) }.

Lemma rx_size_pos : 1 < TCP_RX_BUF_SIZE.
Proof. unfold TCP_RX_BUF_SIZE. lia. Qed.

Lemma wf_new : wf_conn TcpConn_new.
Proof.
  split; cbn; unfold word16, word32, TCP_CLOSED; try lia; done.
Qed.

Lemma wf_get s i : wf s -> wf_conn (conn s i).
Proof.
  intros Hw. unfold conn. pose proof (wf_conns _ Hw) as Hc.
  destruct (decide (i < length (CONNS s))%nat) as [Hi | Hi].
  - destruct (lookup_lt_is_Some_2 (CONNS s) i Hi) as [c E]. rewrite (nth_lookup_Some _ _ _ _ E).
    by apply (Forall_lookup_1 _ _ _ _ Hc E).
  - rewrite nth_overflow by lia. apply wf_new.
Qed.

Lemma wf_upd s i f : wf s -> wf_conn (f (conn s i)) -> wf (upd i f s).
Proof. intros [] Hf. split; cbn; try done; [by apply Forall_insert | by rewrite length_insert]. Qed.

Lemma conn_upd s i j f : length (CONNS s) = TCP_MAX_CONNS -> (i < TCP_MAX_CONNS)%nat ->
  conn (upd i f s) j = if decide (j = i) then f (conn s i) else conn s j.
Proof.
  intros Hl Hi. unfold conn at 1, upd. cbn [CONNS]. rewrite nth_lookup. case_decide as E.
  - subst. by rewrite list_lookup_insert_eq by lia.
  - rewrite list_lookup_insert_ne by done. unfold conn. by rewrite nth_lookup.
Qed.

(** ** Segments *)

Lemma byte_word v : is_byte v -> byte_list [v].
Proof. intros. unfold byte_list. auto. Qed.

Lemma header_bytes c flags csum : is_byte flags -> byte_list (tcp_header c flags csum).
Proof.
  intros Hf. unfold tcp_header. rewrite !byte_list_app. split_and!; auto using le_bytes_byte_list;
    unfold byte_list, is_byte in *; repeat apply Forall_cons_2; try lia; constructor.
Qed.

Lemma length_header c flags csum : length (tcp_header c flags csum) = 20%nat.
Proof. reflexivity. Qed.

(** The segment in the buffer: header, then data. *)
Lemma take_splice2 (h d l : list Z) : (length h + length d <= length l)%nat ->
  take (length h + length d) (splice (length h) d (splice 0 h l)) = h ++ d.
Proof.
  intros Hl. rewrite take_splice by (rewrite ?length_splice; lia).
  assert (E : take (length h + length d) (splice 0 h l) = h ++ slice (length h) (length d) l ++ []).
  { unfold splice, slice. rewrite take_0, Nat.sub_0_r, (take_ge h), app_nil_r by lia. cbn [app].
    rewrite take_app_ge by lia. do 2 f_equal. lia. }
  rewrite E, splice_app by (by rewrite length_slice by lia). by rewrite app_nil_r.
Qed.

Lemma header_split c flags : exists pre, length pre = 16%nat /\
  forall x, tcp_header c flags x = pre ++ le_bytes 2 x ++ [0; 0].
Proof.
  exists (take 16 (tcp_header c flags 0)). split; [reflexivity |]. intros x. reflexivity.
Qed.

(** The segment that is built in [SEG_BUF] verifies. *)
Lemma fill_segment_spec c flags d s : wf s -> is_byte flags -> byte_list d -> (length d <= 1460)%nat ->
  exists csum buf, let seg := tcp_header c flags csum ++ d in
    fill_segment c flags (Some d) (Z.of_nat (length d)) s = Some buf /\
    take (Z.to_nat (u16 (20 + Z.of_nat (length d)))) buf = seg /\
    length buf = 1480%nat /\ byte_list buf /\ tcp_checksum NET_IP_ADDR (remote_ip c) seg = 0.
Proof.
  intros Hw Hf Hd Hl. unfold fill_segment. set (n := length d) in *.
  assert (Hu : u16 (20 + Z.of_nat n) = 20 + Z.of_nat n) by (apply u16_small; lia). rewrite Hu.
  set (h0 := tcp_header c flags 0). set (B := splice 20 d (splice 0 h0 (SEG_BUF s))).
  assert (HlB0 : length (splice 0 h0 (SEG_BUF s)) = 1480%nat).
  { rewrite length_splice; [apply (wf_seg _ Hw) |]. rewrite (wf_seg _ Hw). change (length h0) with 20%nat. lia. }
  assert (Hdata : (if 0 <? Z.of_nat n then
                     if 20 + Z.of_nat n <=? 1480
                     then Some (splice 20 (take (Z.to_nat (Z.of_nat n)) d) (splice 0 h0 (SEG_BUF s))) else None
                   else Some (splice 0 h0 (SEG_BUF s))) = Some B).
  { rewrite Nat2Z.id, take_ge by done. rewrite (proj2 (Z.leb_le _ _)) by lia.
    destruct (Z.ltb_spec 0 (Z.of_nat n)) as [| E]; [done |].
    assert (d = []) as -> by (apply length_zero_iff_nil; fold n; lia). unfold B. by rewrite splice_nil. }
  rewrite Hdata. cbn [mbind option_bind].
  assert (HlB : length B = 1480%nat) by (unfold B; rewrite length_splice; [done | fold n; rewrite HlB0; lia]).
  assert (HtB : take (Z.to_nat (20 + Z.of_nat n)) B = h0 ++ d).
  { replace (Z.to_nat (20 + Z.of_nat n)) with (length h0 + length d)%nat by (change (length h0) with 20%nat; fold n; lia).
    unfold B. change 20%nat with (length h0). apply take_splice2. rewrite (wf_seg _ Hw).
    change (length h0) with 20%nat. fold n. lia. }
  rewrite HtB. set (csum := tcp_checksum NET_IP_ADDR (remote_ip c) (h0 ++ d)).
  destruct (header_split c flags) as (pre & Hpre & Hh).
  assert (HtB' : take (Z.to_nat (20 + Z.of_nat n)) (splice 16 (le_bytes 2 csum) B) = tcp_header c flags csum ++ d).
  { rewrite take_splice, HtB by (rewrite ?length_le_bytes; lia). unfold h0. rewrite !Hh, <- !app_assoc.
    rewrite <- Hpre. by apply splice_app. }
  exists csum. eexists. split; [reflexivity |]. split; [exact HtB' |]. split; [| split].
  - rewrite length_splice; [done |]. rewrite length_le_bytes. lia.
  - pose proof (wf_segb _ Hw). unfold B, h0. auto 6 using splice_byte_list, le_bytes_byte_list, header_bytes.
  - assert (Hcs : forall x, tcp_checksum NET_IP_ADDR (remote_ip c) (tcp_header c flags x ++ d) =
        checksum ((pseudo_header NET_IP_ADDR (remote_ip c) (20 + Z.of_nat n) ++ pre) ++ le_bytes 2 x ++ ([0; 0] ++ d))).
    { intros x. unfold tcp_checksum. rewrite length_app, length_header. fold n.
      replace (Z.of_nat (20 + n)) with (20 + Z.of_nat n) by lia. rewrite (proj2 (Z.ltb_ge _ _)) by lia.
      rewrite Hh, <- !app_assoc. done. }
    rewrite Hcs. unfold csum, h0. rewrite Hcs. change (le_bytes 2 0) with [0; 0].
    apply checksum_fill.
    + rewrite byte_list_app. split; [unfold pseudo_header; rewrite !byte_list_app; split_and!; auto using le_bytes_byte_list |].
      * unfold byte_list, is_byte. repeat apply Forall_cons_2; try lia; constructor.
      * pose proof (header_bytes c flags 0 Hf) as Hb. rewrite Hh, byte_list_app in Hb. apply Hb.
    + rewrite byte_list_app. split; [| done]. unfold byte_list, is_byte. repeat apply Forall_cons_2; try lia; constructor.
    + rewrite length_app, Hpre. reflexivity.
    + rewrite !length_app, Hpre. change (length (pseudo_header _ _ _)) with 12%nat. simpl (length [0; 0]). fold n. lia.
Qed.

Lemma send_segment_spec c flags d s : wf s -> is_byte flags -> byte_list d -> (length d <= 1460)%nat ->
  exists csum buf, let seg := tcp_header c flags csum ++ d in
    tcp_send_segment c flags (Some d) (Z.of_nat (length d)) s =
      Some (Tcp (CONNS s) (NEXT_LOCAL_PORT s) buf (TICKS s) (ip_send (remote_ip c) IP_PROTO_TCP seg (net s)).2) /\
    length buf = 1480%nat /\ byte_list buf /\ tcp_checksum NET_IP_ADDR (remote_ip c) seg = 0.
Proof.
  intros Hw Hf Hd Hl. destruct (fill_segment_spec c flags d s Hw Hf Hd Hl) as (csum & buf & E & Et & Hr).
  exists csum, buf. unfold tcp_send_segment. rewrite E, (u16_small (20 + _)) by lia.
  rewrite (u16_small (20 + _)) in Et by lia. rewrite (proj2 (Z.ltb_ge _ _)) by lia. cbn [mbind option_bind]. by rewrite Et.
Qed.

Lemma read_header_spec c flags csum d : wf_conn c -> 
  read_header (tcp_header c flags csum ++ d) =
    Segment (local_port c) (remote_port c) flags (send_seq c) (send_ack c) 20.
Proof.
  intros Hw. unfold read_header.
  change (rd16 0 (tcp_header c flags csum ++ d)) with (le_val (le_bytes 2 (htons (local_port c)))).
  change (rd16 2 (tcp_header c flags csum ++ d)) with (le_val (le_bytes 2 (htons (remote_port c)))).
  change (rd32 4 (tcp_header c flags csum ++ d)) with (le_val (le_bytes 4 (htonl (send_seq c)))).
  change (rd32 8 (tcp_header c flags csum ++ d)) with (le_val (le_bytes 4 (htonl (send_ack c)))).
  change (nth 13 (tcp_header c flags csum ++ d) 0) with flags.
  change (u8 (Z.shiftr (nth 12 (tcp_header c flags csum ++ d) 0) 4 * 4)) with 20.
  pose proof (wf_lport _ Hw). pose proof (wf_rport _ Hw). pose proof (wf_seq _ Hw). pose proof (wf_ack _ Hw).
  rewrite !le_val_2, !le_val_4 by (apply htons_range || by apply htonl_range).
  by rewrite !htons_involutive, !htonl_involutive.
Qed.

Lemma send_empty_spec i flags s : wf s -> is_byte flags ->
  exists seg buf, send_empty i flags s = Some (Tcp (CONNS s) (NEXT_LOCAL_PORT s) buf (TICKS s)
      (ip_send (remote_ip (conn s i)) IP_PROTO_TCP seg (net s)).2) /\
    read_header seg = Segment (local_port (conn s i)) (remote_port (conn s i)) flags (send_seq (conn s i))
      (send_ack (conn s i)) 20 /\
    length buf = 1480%nat /\ byte_list buf.
Proof.
  intros Hw Hf. destruct (send_segment_spec (conn s i) flags [] s Hw Hf) as (csum & buf & E & Hl & Hb & _);
    [by constructor | simpl; lia |].
  exists (tcp_header (conn s i) flags csum ++ []), buf. unfold send_empty.
  split; [exact E |]. split; [by apply read_header_spec, wf_get | done].
Qed.

(** ** Steps that change one connection *)

Record changes (i : nat) (c : TcpConn) s s' : Prop := {
  ch_wf : wf s'; ch_conns : CONNS s' = <[i := c]> (CONNS s);
  ch_port : NEXT_LOCAL_PORT s' = NEXT_LOCAL_PORT s; ch_ticks : TICKS s' = TICKS s }.

Lemma conn_lookup s i : wf s -> (i < TCP_MAX_CONNS)%nat -> CONNS s !! i = Some (conn s i).
Proof.
  intros Hw Hi. destruct (lookup_lt_is_Some_2 (CONNS s) i) as [c E]; [by rewrite (wf_count _ Hw) |].
  rewrite E. unfold conn. by rewrite (nth_lookup_Some _ _ _ _ E).
Qed.

Lemma ch_refl i s : wf s -> (i < TCP_MAX_CONNS)%nat -> changes i (conn s i) s s.
Proof. intros Hw Hi. split; try done. symmetry. apply list_insert_id. by apply conn_lookup. Qed.

Lemma ch_conn i c s s' : wf s -> (i < TCP_MAX_CONNS)%nat -> changes i c s s' -> conn s' i = c.
Proof.
  intros Hw Hi Hc. unfold conn. rewrite (ch_conns _ _ _ _ Hc), nth_lookup, list_lookup_insert_eq; [done |].
  by rewrite (wf_count _ Hw).
Qed.

Lemma ch_other i c s s' j : wf s -> j <> i -> changes i c s s' -> conn s' j = conn s j.
Proof.
  intros Hw Hj Hc. unfold conn. rewrite (ch_conns _ _ _ _ Hc), !nth_lookup. by rewrite list_lookup_insert_ne.
Qed.

Lemma ch_upd i c f s s' : wf s -> (i < TCP_MAX_CONNS)%nat -> changes i c s s' -> wf_conn (f c) ->
  changes i (f c) s (upd i f s').
Proof.
  intros Hw Hi Hc Hf. pose proof (ch_conn _ _ _ _ Hw Hi Hc) as E. split; [| | apply Hc | apply Hc].
  - apply wf_upd; [apply Hc | by rewrite E].
  - cbn. rewrite E, (ch_conns _ _ _ _ Hc). apply list_insert_insert_eq.
Qed.

Lemma ch_send i c flags s s' : changes i c s s' -> is_byte flags ->
  exists s'', send_empty i flags s' = Some s'' /\ changes i c s s''.
Proof.
  intros Hc Hf. destruct (send_empty_spec i flags s' (ch_wf _ _ _ _ Hc) Hf) as (seg & buf & E & _ & Hl & Hb).
  eexists. split; [exact E |]. destruct Hc as [[] ? ? ?]. by split.
Qed.

(** ** The receive buffer *)

Definition received (c : TcpConn) : list Z := ring_contents TCP_RX_BUF_SIZE (rx_buf c) (rx_head c) (rx_tail c).
Definition rx_capacity : nat := 4095.

Lemma received_length c : (length (received c) <= rx_capacity)%nat.
Proof.
  pose proof (length_ring_contents _ rx_size_pos (rx_buf c) (rx_head c) (rx_tail c)) as Hl.
  pose proof (ring_count_range _ rx_size_pos (rx_head c) (rx_tail c)).
  unfold received, rx_capacity, TCP_RX_BUF_SIZE in *. lia.
Qed.

(** Storing a payload keeps what fits. *)
Lemma store_payload_spec p : forall c, ring_wf TCP_RX_BUF_SIZE (rx_buf c) (rx_head c) (rx_tail c) ->
  exists b h, store_payload p c = Some (with_ring b h (rx_tail c) c) /\
    ring_wf TCP_RX_BUF_SIZE b h (rx_tail c) /\
    ring_contents TCP_RX_BUF_SIZE b h (rx_tail c) = received c ++ take (rx_capacity - length (received c)) p.
Proof.
  induction p as [| x p IH]; intros c Hw.
  - exists (rx_buf c), (rx_head c). rewrite take_nil, app_nil_r. by destruct c.
  - cbn [store_payload]. destruct Hw as [Hb Hh Ht] eqn:E. clear E. unfold TCP_RX_BUF_SIZE in Hh.
    rewrite u16_small by lia.
    destruct (Z.eqb_spec ((rx_head c + 1) mod TCP_RX_BUF_SIZE) (rx_tail c)) as [Hfull | Hne].
    + exists (rx_buf c), (rx_head c). split; [by destruct c | split; [done |]].
      apply (ring_full _ rx_size_pos) in Hfull; [| done | done].
      pose proof (length_ring_contents _ rx_size_pos (rx_buf c) (rx_head c) (rx_tail c)) as Hl.
      rewrite Hfull in Hl. unfold TCP_RX_BUF_SIZE in Hl at 2.
      replace (rx_capacity - length (received c))%nat with 0%nat by (unfold received, rx_capacity; lia).
      by rewrite take_0, app_nil_r.
    + destruct (ring_contents_snoc _ rx_size_pos _ _ _ x Hw Hne) as (Es & Hw' & Hc). rewrite Es. cbn [mbind option_bind].
      destruct (IH (with_ring (<[Z.to_nat (rx_head c):=x]> (rx_buf c)) ((rx_head c + 1) mod TCP_RX_BUF_SIZE) (rx_tail c) c)
                  Hw') as (b & h & E & Hw2 & Hc2).
      exists b, h. split; [exact E |]. split; [exact Hw2 |]. cbn [rx_tail with_ring] in Hc2. rewrite Hc2.
      pose proof (received_length (with_ring (<[Z.to_nat (rx_head c):=x]> (rx_buf c))
        ((rx_head c + 1) mod TCP_RX_BUF_SIZE) (rx_tail c) c)) as Hcap.
      unfold received in Hcap |- *. cbn [rx_buf rx_head rx_tail with_ring] in Hcap |- *. rewrite Hc in Hcap |- *.
      rewrite length_app in Hcap |- *. cbn [length] in Hcap |- *.
      replace (rx_capacity - length (ring_contents TCP_RX_BUF_SIZE (rx_buf c) (rx_head c) (rx_tail c)))%nat
        with (S (rx_capacity - (length (ring_contents TCP_RX_BUF_SIZE (rx_buf c) (rx_head c) (rx_tail c)) + 1)))%nat by lia.
      cbn [take]. by rewrite <- app_assoc.
Qed.

(** ** What a segment does to its connection *)

Definition reset_conn (c : TcpConn) : TcpConn := with_flags false true false (with_state TCP_CLOSED c).

Definition rx_after (flags seq ack : Z) (payload : list Z) (c : TcpConn) : option TcpConn :=
  let len := Z.of_nat (length payload) in
  let acked a c := with_seq (send_seq c) a c in
  if has flags TCP_RST then Some (reset_conn c) else
  if state c =? TCP_SYN_SENT then
    Some (if (Z.land flags (Z.lor TCP_SYN TCP_ACK) =? Z.lor TCP_SYN TCP_ACK) && (ack =? u32 (send_seq c + 1))
          then with_flags (in_use c) (fin_received c) true (with_state TCP_ESTABLISHED (with_seq ack (u32 (seq + 1)) c))
          else c)
  else if state c =? TCP_ESTABLISHED then
    c ← (if 0 <? len then c' ← store_payload payload c; Some (acked (u32 (seq + len)) c') else Some c);
    Some (if has flags TCP_FIN
          then let c := acked (u32 (u32 (seq + len) + 1)) c in
               with_state TCP_TIME_WAIT (with_flags (in_use c) true (connected c) c)
          else c)
  else if state c =? TCP_FIN_WAIT_1 then
    Some (if has flags TCP_ACK then
            if has flags TCP_FIN then with_state TCP_TIME_WAIT (acked (u32 (seq + 1)) c)
            else with_state TCP_FIN_WAIT_2 c
          else c)
  else if state c =? TCP_FIN_WAIT_2 then
    Some (if has flags TCP_FIN then
            let c := acked (u32 (seq + 1)) c in with_flags (in_use c) true (connected c) (with_state TCP_TIME_WAIT c)
          else c)
  else Some c.

Lemma wf_with_seq c sq ak : wf_conn c -> word32 sq -> word32 ak -> wf_conn (with_seq sq ak c).
Proof. intros [] Hs Ha. by split. Qed.

Lemma wf_with_ring c b h t : wf_conn c -> ring_wf TCP_RX_BUF_SIZE b h t -> wf_conn (with_ring b h t c).
Proof. intros [] Hr. by split. Qed.

Lemma wf_acked c a : wf_conn c -> word32 a -> wf_conn (with_seq (send_seq c) a c).
Proof. intros Hc Ha. apply wf_with_seq; [done | apply (wf_seq _ Hc) | done]. Qed.

(** A live connection moves to another open state. *)
Lemma wf_open c st f cn : wf_conn c -> in_use c = true -> 0 < st <= 5 -> (st = TCP_SYN_SENT -> cn = false) ->
  wf_conn (with_flags (in_use c) f cn (with_state st c)).
Proof.
  intros [] Hu Hst Hcn. split; cbn; try done; [lia |]. rewrite Hu. unfold TCP_CLOSED.
  by rewrite (proj2 (Z.eqb_neq _ _)) by lia.
Qed.

Lemma in_use_state c : wf_conn c -> state c <> TCP_CLOSED -> in_use c = true.
Proof. intros Hw Hs. rewrite (wf_use _ Hw). by rewrite (proj2 (Z.eqb_neq _ _)). Qed.

Lemma wf_moved c st : wf_conn c -> in_use c = true -> TCP_SYN_SENT < st <= 5 -> wf_conn (with_state st c).
Proof.
  intros Hc Hu Hst. unfold TCP_SYN_SENT in Hst.
  pose proof (wf_open c st (fin_received c) (connected c) Hc Hu ltac:(lia)) as Hw.
  destruct c. apply Hw. unfold TCP_SYN_SENT. lia.
Qed.

(** Acknowledge, then move on. *)
Lemma ch_ack_then i g f c s s1 : wf s -> (i < TCP_MAX_CONNS)%nat -> changes i c s s1 ->
  wf_conn (g c) -> wf_conn (f (g c)) ->
  exists s', (s2 ← send_empty i TCP_ACK (upd i g s1); Some (upd i f s2)) = Some s' /\ changes i (f (g c)) s s'.
Proof.
  intros Hw Hi Hc Hg Hf. pose proof (ch_upd i c g s s1 Hw Hi Hc Hg) as Hc1.
  destruct (ch_send _ _ TCP_ACK _ _ Hc1) as (s2 & E & Hc2); [unfold is_byte, TCP_ACK; lia |].
  rewrite E. eexists. split; [done |]. by apply ch_upd.
Qed.

(** Data on an established connection. *)
Lemma rx_data i seq payload s : wf s -> (i < TCP_MAX_CONNS)%nat ->
  let c := conn s i in let len := Z.of_nat (length payload) in
  exists c1 s1,
    (if 0 <? len then c' ← store_payload payload c; Some (with_seq (send_seq c') (u32 (seq + len)) c')
     else Some c) = Some c1 /\
    (if 0 <? len then c' ← store_payload payload c;
       send_empty i TCP_ACK (upd i (fun _ => with_seq (send_seq c') (u32 (seq + len)) c') s)
     else Some s) = Some s1 /\
    wf_conn c1 /\ state c1 = state c /\ changes i c1 s s1.
Proof.
  intros Hw Hi c len. pose proof (wf_get s i Hw) as Hc. pose proof (ch_refl i s Hw Hi) as Hch. fold c in Hc, Hch.
  case_if; [| by exists c, s].
  destruct (store_payload_spec payload c (wf_ring _ Hc)) as (b & h & -> & Hr & _). cbn [mbind option_bind].
  set (c1 := with_seq _ _ _).
  assert (Hc1 : wf_conn c1) by (by apply wf_acked; [apply wf_with_ring | apply u32_range]).
  pose proof (ch_upd i c (fun _ => c1) s s Hw Hi Hch Hc1) as Hch1.
  destruct (ch_send _ _ TCP_ACK _ _ Hch1) as (s2 & E2 & Hch2); [unfold is_byte, TCP_ACK; lia |].
  by exists c1, s2.
Qed.

Lemma rx_state_spec i flags seq ack payload s : wf s -> (i < TCP_MAX_CONNS)%nat -> word32 ack ->
  has flags TCP_RST = false ->
  exists s' c, rx_state i flags seq ack payload s = Some s' /\
    rx_after flags seq ack payload (conn s i) = Some c /\ changes i c s s'.
Proof.
  intros Hw Hi Hack Hrst. pose proof (wf_get s i Hw) as Hc. pose proof (ch_refl i s Hw Hi) as Hch.
  assert (Hopen : forall st, 0 < st -> state (conn s i) = st -> in_use (conn s i) = true).
  { intros st Hst E. apply in_use_state; [done |]. unfold TCP_CLOSED. lia. }
  unfold rx_state, rx_after. rewrite Hrst. cbv zeta. set (c := conn s i) in *.
  destruct (Z.eqb_spec (state c) TCP_SYN_SENT) as [E1 |]; [| destruct (Z.eqb_spec (state c) TCP_ESTABLISHED) as [E2 |];
    [| destruct (Z.eqb_spec (state c) TCP_FIN_WAIT_1) as [E3 |]; [| destruct (Z.eqb_spec (state c) TCP_FIN_WAIT_2) as [E4 |]]]].
  - destruct (_ =? Z.lor TCP_SYN TCP_ACK); cbn [andb]; [| by exists s, c].
    destruct (ack =? u32 (send_seq c + 1)); cbn [negb]; [| by exists s, c].
    assert (Hg : wf_conn (with_seq ack (u32 (seq + 1)) c)) by (apply wf_with_seq; [done | done | apply u32_range]).
    destruct (ch_ack_then i (with_seq ack (u32 (seq + 1)))
      (fun c => with_flags (in_use c) (fin_received c) true (with_state TCP_ESTABLISHED c)) c s s Hw Hi Hch Hg) as (s' & E & ?).
    { apply wf_open; [done | by apply (Hopen TCP_SYN_SENT) | unfold TCP_ESTABLISHED; lia | done]. }
    by eexists s', _.
  - destruct (rx_data i seq payload s Hw Hi) as (c1 & s1 & Ec & Es & Hc1 & Hst & Hch1). fold c in Ec, Es, Hst.
    rewrite Ec, Es. cbn [mbind option_bind]. destruct (has flags TCP_FIN); [| by exists s1, c1].
    set (g := fun c => with_seq (send_seq c) (u32 (u32 (seq + Z.of_nat (length payload)) + 1)) c).
    assert (Hg : wf_conn (g c1)) by (apply wf_acked; [done | apply u32_range]).
    destruct (ch_ack_then i g (fun c => with_state TCP_TIME_WAIT (with_flags (in_use c) true (connected c) c))
                c1 s s1 Hw Hi Hch1 Hg) as (s' & E & ?).
    { apply (wf_open (g c1) TCP_TIME_WAIT true (connected c1)); [done | | unfold TCP_TIME_WAIT; lia | done].
      apply in_use_state; [done |]. cbn. rewrite Hst, E2. done. }
    by eexists s', _.
  - destruct (has flags TCP_ACK); [| by exists s, c]. destruct (has flags TCP_FIN).
    + set (g := fun c => with_seq (send_seq c) (u32 (seq + 1)) c).
      assert (Hg : wf_conn (g c)) by (apply wf_acked; [done | apply u32_range]).
      destruct (ch_ack_then i g (with_state TCP_TIME_WAIT) c s s Hw Hi Hch Hg) as (s' & E & ?).
      { apply wf_moved; [done | by apply (Hopen TCP_FIN_WAIT_1) | unfold TCP_SYN_SENT, TCP_TIME_WAIT; lia]. }
      by eexists s', _.
    + eexists _, _. split; [reflexivity | split; [reflexivity |]]. apply ch_upd; try done.
      apply wf_moved; [done | by apply (Hopen TCP_FIN_WAIT_1) | unfold TCP_SYN_SENT, TCP_FIN_WAIT_2; lia].
  - destruct (has flags TCP_FIN); [| by exists s, c].
    set (g := fun c => with_seq (send_seq c) (u32 (seq + 1)) c).
    assert (Hg : wf_conn (g c)) by (apply wf_acked; [done | apply u32_range]).
    destruct (ch_ack_then i g (fun c => with_flags (in_use c) true (connected c) (with_state TCP_TIME_WAIT c))
                c s s Hw Hi Hch Hg) as (s' & E & ?).
    { apply wf_open; [done | by apply (Hopen TCP_FIN_WAIT_2) | unfold TCP_TIME_WAIT; lia | done]. }
    by eexists s', _.
  - by exists s, c.
Qed.

(** ** Incoming segments *)

(** Header and payload of a segment that passes the checks of [rx]. *)
Definition valid_segment (src_ip : Z) (data : list Z) : option (segment * list Z) :=
  let len := Z.of_nat (length data) in let h := read_header data in
  if len <? 20 then None else
  if negb (tcp_checksum src_ip NET_IP_ADDR data =? 0) then None else
  if (sg_hdr_len h <? 20) || (len <? sg_hdr_len h) then None else
  Some (h, drop (Z.to_nat (sg_hdr_len h)) data).

(** The connection it belongs to. *)
Definition route (src_ip : Z) (data : list Z) s : option (nat * segment * list Z) :=
  '(h, p) ← valid_segment src_ip data;
  i ← tcp_find_conn src_ip (sg_src h) (sg_dst h) s;
  Some (i, h, p).

Lemma find_conn_Some p s i : find_conn p s = Some i -> (i < TCP_MAX_CONNS)%nat /\ p (conn s i) = true.
Proof. intros E. apply find_some in E as [Hi Hp]. apply in_seq in Hi. split; [lia | done]. Qed.

Record unchanged s s' : Prop := {
  un_wf : wf s'; un_conns : CONNS s' = CONNS s; un_port : NEXT_LOCAL_PORT s' = NEXT_LOCAL_PORT s;
  un_ticks : TICKS s' = TICKS s }.

Lemma unchanged_refl s : wf s -> unchanged s s.
Proof. by split. Qed.

Lemma send_none_spec c flags s : wf s -> is_byte flags ->
  exists s', tcp_send_segment c flags None 0 s = Some s' /\ unchanged s s'.
Proof.
  intros Hw Hf. destruct (send_segment_spec c flags [] s Hw Hf) as (csum & buf & E & Hl & Hb & _);
    [by constructor | simpl; lia |].
  eexists. split; [exact E |]. destruct Hw. by split.
Qed.

Lemma send_reset_spec ip sp dp fl sq ak n s : wf s ->
  exists s', send_reset ip sp dp fl sq ak n s = Some s' /\ unchanged s s'.
Proof.
  intros Hw. unfold send_reset. destruct (has fl TCP_RST); [by exists s |].
  destruct (has fl TCP_ACK); (apply send_none_spec; [done |]); unfold is_byte.
  - unfold TCP_RST. lia.
  - change (Z.lor TCP_RST TCP_ACK) with 20. lia.
Qed.

Lemma rd32_word k data : byte_list data -> (k + 4 <= length data)%nat -> word32 (ntohl (rd32 k data)).
Proof.
  intros Hb Hl. apply htonl_range. unfold rd32.
  pose proof (le_val_range (slice k 4 data) (slice_byte_list k 4 data Hb)) as Hr.
  rewrite length_slice in Hr by done. exact Hr.
Qed.

Lemma rx_spec ip data s : wf s -> byte_list data ->
  exists s', rx ip data s = Some s' /\
    match route ip data s with
    | None => unchanged s s'
    | Some (i, h, p) =>
        exists c, (i < TCP_MAX_CONNS)%nat /\ rx_after (sg_flags h) (sg_seq h) (sg_ack h) p (conn s i) = Some c /\ changes i c s s'
    end.
Proof.
  intros Hw Hb. unfold rx, route, valid_segment. cbv zeta.
  destruct (Z.ltb_spec (Z.of_nat (length data)) 20); [by exists s |].
  destruct (negb _); [by exists s |]. destruct (_ || _); [by exists s |].
  cbn [mbind option_bind]. destruct (tcp_find_conn _ _ _ s) as [i |] eqn:E; cbn [mbind option_bind].
  - destruct (find_conn_Some _ _ _ E) as [Hi Hm]. destruct (has _ TCP_RST) eqn:Er.
    + eexists. split; [done |]. exists (reset_conn (conn s i)). split; [done |]. unfold rx_after. rewrite Er. split; [done |].
      apply (ch_upd i (conn s i) reset_conn); [done | done | by apply ch_refl |].
      destruct (wf_get s i Hw). by split.
    + destruct (rx_state_spec i (sg_flags (read_header data)) (sg_seq (read_header data)) (sg_ack (read_header data))
        (drop (Z.to_nat (sg_hdr_len (read_header data))) data) s Hw Hi) as (s' & c & E1 & E2 & Hc); [| done |].
      { apply rd32_word; [done | lia]. }
      by exists s'; split; [| exists c].
  - by apply send_reset_spec.
Qed.

Definition segment_ok (x : Z * list Z) : Prop := byte_list x.2.

Lemma rx_wf ip data s : wf s -> byte_list data ->
  exists s', rx ip data s = Some s' /\ wf s' /\ TICKS s' = TICKS s.
Proof.
  intros Hw Hb. destruct (rx_spec ip data s Hw Hb) as (s' & E & Hr). exists s'. split; [done |].
  destruct (route ip data s) as [[[i h] p] |]; [destruct Hr as (c & _ & _ & []) | destruct Hr]; done.
Qed.

(** ** Waiting *)

(** [P] holds along a wait when every segment of the environment keeps it. *)
Definition wake_ok (w : wake) : Prop := 0 <= w_ticks w < 2147483648 /\ Forall segment_ok (w_segments w).
Definition segments (env : list wake) : list (Z * list Z) := concat (map w_segments env).

Section waiting.
Variable P : tcp N -> Prop.
Variable segs : list (Z * list Z).
Hypothesis P_rx : forall ip seg s, P s -> (ip, seg) ∈ segs -> exists s', rx ip seg s = Some s' /\ P s' /\ TICKS s' = TICKS s.
Hypothesis P_tick : forall d s, P s -> P (tick d s).

Lemma rx_all_P l : forall s, P s -> l ⊆ segs -> exists s', rx_all l s = Some s' /\ P s' /\ TICKS s' = TICKS s.
Proof using P_rx P_tick.
  induction l as [| [ip seg] l IH]; intros s Hs Hl; [by exists s |].
  destruct (P_rx ip seg s Hs) as (s1 & E1 & H1 & T1); [set_solver |].
  destruct (IH s1 H1) as (s2 & E2 & H2 & T2); [set_solver |].
  exists s2. cbn [rx_all]. rewrite E1. cbn [mbind option_bind]. split; [done | split; [done | congruence]].
Qed.

Lemma wake_up_P w s : P s -> w_segments w ⊆ segs ->
  exists s', wake_up w s = Some s' /\ P s' /\ TICKS s' = u32 (TICKS s + w_ticks w).
Proof using P_rx P_tick.
  intros Hs Hw. unfold wake_up. destruct (rx_all_P (w_segments w) (tick (w_ticks w) s)) as (s' & E & H' & T');
    [by apply P_tick | done |]. by exists s'.
Qed.

(** The wake-ups whose segments are among [segs]. *)
Definition wake_in (w : wake) : Prop := wake_ok w /\ w_segments w ⊆ segs.

Lemma wake_from_P w s : P s -> wake_in w ->
  exists s', wake_from w s = Some s' /\ P s' /\ now s' = u32 (now s + wake_ticks w).
Proof using P_rx P_tick. intros Hs [_ Hw]. by apply wake_up_P. Qed.

Lemma wake_in_ticks w : wake_in w -> 0 <= wake_ticks w < 2147483648.
Proof. intros [[Hw _] _]. exact Hw. Qed.

Lemma ticking_suffix (used env : list wake) n : n <= ticking (used ++ env) -> n - ticking used <= ticking env.
Proof. rewrite ticking_app. lia. Qed.

(** A thread's send, while what it may wait through keeps [P]: each of the three
    attempts to resolve the next hop takes at most 20 ticks. *)
Hypothesis P_net : forall n s, P s -> P (set_net n s).
Hypothesis P_buf : forall buf s, P s -> length buf = 1480%nat -> byte_list buf -> P (set_seg_buf buf s).
Hypothesis P_wf : forall s, P s -> wf s.

Lemma hop_attempts_spec ip n : forall env s, P s -> Forall wake_in env -> 20 * Z.of_nat n <= ticking env ->
  exists r s' used env', hop_attempts n ip env s = Some (r, s', env') /\ env = used ++ env' /\
    ticking used <= 20 * Z.of_nat n /\ P s'.
Proof using P_rx P_tick P_net.
  induction n as [| n IH]; intros env s Hs He Ht; [by exists false, s, [], env |]. cbn [hop_attempts].
  set (s1 := set_net _ s). assert (H1 : P s1) by by apply P_net.
  pose proof (elapsed_start s1) as Hel. cbn [now tcp_clock] in Hel.
  destruct (wait_spec P wake_in wake_from_P wake_in_ticks (TICKS s1) 20 (fun s => ip_known ip (net s)) env ltac:(lia) s1 H1 He)
    as (r & s2 & env' & E2 & H2 & Hr & used & -> & Hu); [lia |].
  rewrite E2. cbn [mbind option_bind]. destruct r.
  - exists true, s2, used, env'. split; [done |]. split; [done |]. split; [lia | done].
  - apply Forall_app in He as [_ He]. destruct (IH env' s2 H2 He) as (r & s3 & used' & env2 & E3 & -> & Hu' & H3);
      [rewrite ticking_app in Ht; lia |].
    exists r, s3, (used ++ used'), env2. rewrite app_assoc, ticking_app. split; [done |]. split; [done |]. split; [lia | done].
Qed.

Lemma send_waiting_spec c flags env s : P s -> is_byte flags -> Forall wake_in env -> 60 <= ticking env ->
  exists s' used env', send_waiting c flags None 0 env s = Some (s', env') /\ env = used ++ env' /\
    ticking used <= 60 /\ P s'.
Proof using P_rx P_tick P_net P_buf P_wf.
  intros Hs Hf He Ht. unfold send_waiting. change (1480 <? u16 (20 + 0)) with false. cbv iota zeta.
  destruct (fill_segment_spec c flags [] s (P_wf _ Hs) Hf) as (csum & buf & E & _ & Hl & Hb & _); [by constructor | simpl; lia |].
  assert (E' : fill_segment c flags None 0 s = Some buf) by exact E. rewrite E'. cbn [mbind option_bind].
  pose proof (P_buf buf s Hs Hl Hb) as H1. unfold resolve_hop. change (net (set_seg_buf buf s)) with (net s).
  destruct (ip_known (remote_ip c) (net s)).
  { eexists _, [], env. split; [done |]. split; [done |]. split; [done |]. by apply P_net. }
  destruct (hop_attempts_spec (remote_ip c) 3 env (set_seg_buf buf s) H1 He) as (r & s2 & used & env' & -> & -> & Hu & H2); [lia |].
  eexists _, used, env'. split; [done |]. split; [done |]. split; [lia |]. by apply P_net.
Qed.
End waiting.

(** To a known next hop it takes no time. *)
Lemma send_waiting_known c flags env s : wf s -> is_byte flags -> ip_known (remote_ip c) (net s) = true ->
  exists s', send_waiting c flags None 0 env s = Some (s', env) /\ wf s' /\ CONNS s' = CONNS s /\ TICKS s' = TICKS s.
Proof.
  intros Hw Hf Hk. unfold send_waiting. change (1480 <? u16 (20 + 0)) with false. cbv iota zeta.
  destruct (fill_segment_spec c flags [] s Hw Hf) as (csum & buf & E & _ & Hl & Hb & _); [by constructor | simpl; lia |].
  assert (E' : fill_segment c flags None 0 s = Some buf) by exact E. rewrite E'. cbn [mbind option_bind].
  unfold resolve_hop. change (net (set_seg_buf buf s)) with (net s). rewrite Hk. cbn [mbind option_bind].
  eexists. split; [done |]. destruct Hw. split; [by split | done].
Qed.

End spec.
