(* ===== verification/TcpProps.v ===== *)
(** The properties of the TCP client ([Tcp]), proved from the lemmas of
    [TcpSpec]: segment round trip, handshake, termination and safety of the
    blocking calls, and the receive buffer as a queue. *)
From S2P Require Import Prelude Waiting Ring NetWire Tcp TcpSpec.

Section props.
Context {N : Type} `{IpLayer N} `{IpPath N}.
Implicit Types s : tcp N.

(** A segment sent for a connection is handed to the IP layer once, passes
    the receiver's checksum, and its header fields and data read back as the
    connection's ports, sequence and acknowledgement numbers, the flags and the
    data; the connections do not change. *)
Theorem tcp_segment_roundtrip c flags d s :
  wf s -> wf_conn c -> is_byte flags -> byte_list d -> (length d <= 1460)%nat ->
  exists seg s', tcp_send_segment c flags (Some d) (Z.of_nat (length d)) s = Some s' /\ unchanged s s' /\
    net s' = (ip_send (remote_ip c) IP_PROTO_TCP seg (net s)).2 /\
    tcp_checksum NET_IP_ADDR (remote_ip c) seg = 0 /\
    read_header seg = Segment (local_port c) (remote_port c) flags (send_seq c) (send_ack c) 20 /\
    drop 20 seg = d.
Proof.
  intros Hw Hc Hf Hd Hl. destruct (send_segment_spec c flags d s Hw Hf Hd Hl) as (csum & buf & E & Hb & Hbb & Hcs).
  exists (tcp_header c flags csum ++ d). eexists. split; [exact E |].
  split; [destruct Hw; by split |]. split; [done | split; [done |]].
  split; [by apply read_header_spec | done].
Qed.

(** ** The handshake *)

(** A segment from [ip:port] to [lport] that acknowledges a SYN of sequence
    number [iss]. *)
Definition syn_ack (ip port lport iss : Z) (x : Z * list Z) : Prop :=
  x.1 = ip /\ exists h p, valid_segment x.1 x.2 = Some (h, p) /\ sg_src h = port /\ sg_dst h = lport /\
    has (sg_flags h) TCP_RST = false /\
    Z.land (sg_flags h) (Z.lor TCP_SYN TCP_ACK) = Z.lor TCP_SYN TCP_ACK /\ sg_ack h = u32 (iss + 1).

Lemma rx_after_facts flags seq ack p c c' : wf_conn c -> rx_after flags seq ack p c = Some c' ->
  remote_ip c' = remote_ip c /\ remote_port c' = remote_port c /\ local_port c' = local_port c /\
  (connected c' = true -> connected c = true \/
     (state c = TCP_SYN_SENT /\ has flags TCP_RST = false /\
      Z.land flags (Z.lor TCP_SYN TCP_ACK) = Z.lor TCP_SYN TCP_ACK /\ ack = u32 (send_seq c + 1))) /\
  (state c' = TCP_SYN_SENT -> state c = TCP_SYN_SENT /\ send_seq c' = send_seq c).
Proof.
  intros Hc. unfold rx_after. cbv zeta. destruct (has flags TCP_RST) eqn:Hr.
  { intros [= <-]. by split_and!. }
  destruct (Z.eqb_spec (state c) TCP_SYN_SENT).
  { intros [= <-]. destruct (Z.eqb_spec (Z.land flags (Z.lor TCP_SYN TCP_ACK)) (Z.lor TCP_SYN TCP_ACK)),
      (Z.eqb_spec ack (u32 (send_seq c + 1))); cbn [andb]; split_and!; try done; auto; by left. }
  destruct (state c =? TCP_ESTABLISHED).
  { destruct (store_payload_spec p c (wf_ring _ Hc)) as (b & h & -> & _). cbn [mbind option_bind].
    destruct (0 <? Z.of_nat (length p)), (has flags TCP_FIN); cbn [mbind option_bind];
      intros [= <-]; cbn; split_and!; try done; auto. }
  repeat case_if; intros [= <-]; split_and!; cbn; try done; by auto.
Qed.

Section handshake.
Variables (i : nat) (ip port lport iss : Z) (segs : list (Z * list Z)).
Hypothesis Hi : (i < TCP_MAX_CONNS)%nat.
Hypothesis Hsegs : Forall segment_ok segs.

(** What holds of the connection while [connect] waits. *)
Record dialing s : Prop := {
  dial_wf : wf s;
  dial_peer : remote_ip (conn s i) = ip /\ remote_port (conn s i) = port /\ local_port (conn s i) = lport;
  dial_seen : connected (conn s i) = true -> exists x, x ∈ segs /\ syn_ack ip port lport iss x;
  dial_iss : state (conn s i) = TCP_SYN_SENT -> send_seq (conn s i) = iss }.

Lemma dialing_tick d s : dialing s -> dialing (tick d s).
Proof. intros [[] ? ? ?]. split; try done. split; try done. apply u32_range. Qed.

Lemma dialing_net n s : dialing s -> dialing (set_net n s).
Proof. intros [[] ? ? ?]. split; try done. Qed.

Lemma dialing_buf buf s : dialing s -> length buf = 1480%nat -> byte_list buf -> dialing (set_seg_buf buf s).
Proof. intros [[] ? ? ?] Hl Hb. split; try done. Qed.

Lemma dialing_conns s s' : dialing s -> wf s' -> conn s' i = conn s i -> dialing s'.
Proof. intros [] Hw E. by split; rewrite ?E. Qed.

Lemma dialing_rx src data s : dialing s -> (src, data) ∈ segs ->
  exists s', rx src data s = Some s' /\ dialing s' /\ TICKS s' = TICKS s.
Proof using Hi Hsegs.
  intros Hd Hx. pose proof (dial_wf _ Hd) as Hw.
  assert (Hb : byte_list data) by exact (proj1 (Forall_forall _ _) Hsegs _ Hx).
  destruct (rx_spec src data s Hw Hb) as (s' & E & Hr). exists s'. split; [done |].
  destruct (route src data s) as [[[j h] p] |] eqn:Er.
  2: { destruct Hr as [Hw' Hc _ Ht]. split; [| done]. apply (dialing_conns s); [done | done |]. unfold conn. by rewrite Hc. }
  destruct Hr as (c & Hj & Ha & Hch). split; [| apply Hch].
  destruct (decide (i = j)) as [<- | Hne].
  2: { apply (dialing_conns s); [done | apply Hch | by eapply ch_other]. }
  pose proof (ch_conn _ _ _ _ Hw Hi Hch) as Ec.
  destruct (rx_after_facts _ _ _ _ _ _ (wf_get s i Hw) Ha) as (E1 & E2 & E3 & Hcon & Hsyn).
  destruct Hd as [_ (P1 & P2 & P3) Hseen Hiss]. split; rewrite ?Ec.
  - apply Hch.
  - split_and!; congruence.
  - intros Hct. destruct (Hcon Hct) as [Hct' | (Hst & Hnr & Hfl & Hak)]; [by apply Hseen |].
    exists (src, data). split; [done |]. unfold route in Er.
    destruct (valid_segment src data) as [[h' p'] |] eqn:Ev; [| done]. cbn [mbind option_bind] in Er.
    destruct (tcp_find_conn src (sg_src h') (sg_dst h') s) as [k |] eqn:Ef; [| done]. cbn [mbind option_bind] in Er.
    injection Er as -> -> ->. destruct (find_conn_Some _ _ _ Ef) as [_ Hm]. unfold matches in Hm. breflect.
    split; [cbn; congruence |]. exists h, p. cbn [fst snd]. split_and!; try done; try congruence.
    rewrite Hak, (Hiss Hst). done.
  - intros Hst. destruct (Hsyn Hst) as [Hst' ->]. by apply Hiss.
Qed.

Lemma syn_attempts_spec n : forall env s, dialing s -> Forall (wake_in segs) env ->
  260 * Z.of_nat n <= ticking env ->
  exists r s' env', syn_attempts n i env s = Some (r, s', env') /\ dialing s' /\ (r = true -> connected (conn s' i) = true).
Proof using Hi Hsegs.
  induction n as [| n IH]; intros env s Hd He Ht; [by exists false, s, env |]. cbn [syn_attempts].
  destruct (send_waiting_spec dialing segs dialing_rx dialing_tick dialing_net dialing_buf dial_wf (conn s i) TCP_SYN env s Hd)
    as (s1 & used1 & env1 & -> & -> & Hu1 & Hd1); [unfold is_byte, TCP_SYN; lia | done | lia |].
  apply Forall_app in He as [_ He]. rewrite ticking_app in Ht. cbn [mbind option_bind].
  pose proof (elapsed_start s1) as Hel. cbn [now tcp_clock] in Hel.
  destruct (wait_spec dialing (wake_in segs) (wake_from_P dialing segs dialing_rx dialing_tick) (wake_in_ticks segs)
              (TICKS s1) 200 (fun s => connected (conn s i)) env1 ltac:(lia) s1 Hd1 He)
    as (r & s2 & env' & -> & Hd2 & Hr & used & -> & Hu); [lia |]. cbn [mbind option_bind].
  destruct r; [by exists true, s2, env' |]. apply IH; [done | by apply Forall_app in He as [_ ?] |].
  rewrite ticking_app in Ht. lia.
Qed.
End handshake.

(** The connection [connect] sets up, and the table it dials from. *)
Definition iss_of s : Z := u32 (u32 (TICKS s * 12345) + 1).
Definition dial_conn (ip port : Z) s : TcpConn :=
  Conn true TCP_SYN_SENT ip port (NEXT_LOCAL_PORT s) (iss_of s) 0 (rx_buf TcpConn_new) 0 0 false false.
Definition next_port (p : Z) : Z := let p := u16 (p + 1) in if p =? 0 then 49152 else p.
Definition dial (i : nat) (ip port : Z) s : tcp N :=
  let s := upd i (fun _ => dial_conn ip port s) s in
  Tcp (CONNS s) (next_port (NEXT_LOCAL_PORT s)) (SEG_BUF s) (TICKS s) (net s).

Lemma next_port_word p : word16 (next_port p).
Proof. unfold next_port, word16. case_if; [lia | apply u16_range]. Qed.

Lemma dial_conn_wf ip port s : wf s -> word32 ip -> word16 port -> wf_conn (dial_conn ip port s).
Proof.
  intros Hw Hip Hpo. split; cbn; unfold TCP_SYN_SENT, TCP_CLOSED; try done; try lia; try apply Hw; try apply u32_range.
Qed.

Lemma dial_dialing i ip port s segs : wf s -> (i < TCP_MAX_CONNS)%nat -> word32 ip -> word16 port ->
  dialing i ip port (NEXT_LOCAL_PORT s) (iss_of s) segs (dial i ip port s).
Proof.
  intros Hw Hi Hip Hpo. pose proof (dial_conn_wf ip port s Hw Hip Hpo) as Hc.
  assert (E : conn (dial i ip port s) i = dial_conn ip port s).
  { pose proof (conn_upd s i i (fun _ => dial_conn ip port s) (wf_count _ Hw) Hi) as E. by rewrite decide_True in E. }
  split; rewrite ?E; try done.
  pose proof (wf_upd s i (fun _ => dial_conn ip port s) Hw Hc) as []. split; try done. apply next_port_word.
Qed.

Lemma alloc_bound s i : tcp_alloc_conn s = Some i -> (i < TCP_MAX_CONNS)%nat.
Proof. intros E. by apply find_conn_Some in E as [? _]. Qed.

Lemma hang_up i ip port lport iss segs s : (i < TCP_MAX_CONNS)%nat -> dialing i ip port lport iss segs s ->
  wf (upd i (fun c => with_state TCP_CLOSED (with_flags false (fin_received c) (connected c) c)) s) /\
  in_use (conn (upd i (fun c => with_state TCP_CLOSED (with_flags false (fin_received c) (connected c) c)) s) i) = false.
Proof.
  intros Hi [Hw _ _ _]. split.
  - apply wf_upd; [done |]. destruct (wf_get s i Hw). by split.
  - rewrite conn_upd by (exact Hi || by apply wf_count). by rewrite decide_True.
Qed.

(** No other connection uses the port. *)
Definition port_free (i : nat) (lport : Z) s : Prop :=
  forall j, (j < TCP_MAX_CONNS)%nat -> j <> i -> local_port (conn s j) = lport -> in_use (conn s j) = false.

Lemma find_conn_unique p s i : (i < TCP_MAX_CONNS)%nat -> p (conn s i) = true ->
  (forall j, (j < TCP_MAX_CONNS)%nat -> j <> i -> p (conn s j) = false) -> find_conn p s = Some i.
Proof.
  intros Hi Hp Hu. unfold find_conn. destruct (List.find _ _) as [j |] eqn:E.
  - apply find_some in E as [Hj Hpj]. apply in_seq in Hj. destruct (decide (j = i)) as [-> | Hne]; [done |].
    rewrite Hu in Hpj; [done | lia | done].
  - pose proof (find_none _ _ E i ltac:(apply in_seq; lia)) as Hf. cbn in Hf. congruence.
Qed.

(** The first attempt sees the answer, when the SYN goes out at once. *)
Lemma syn_attempts_accept i ip port lport iss d data env s h p segs n :
  dialing i ip port lport iss segs s -> (i < TCP_MAX_CONNS)%nat -> conn s i = Conn true TCP_SYN_SENT ip port lport iss 0
    (rx_buf TcpConn_new) 0 0 false false ->
  ip_known ip (net s) = true -> port_free i lport s -> 0 <= d < 200 -> byte_list data -> valid_segment ip data = Some (h, p) ->
  syn_ack ip port lport iss (ip, data) ->
  exists s', syn_attempts (S n) i (Wake d [(ip, data)] :: env) s = Some (true, s', env) /\
    state (conn s' i) = TCP_ESTABLISHED /\ send_seq (conn s' i) = u32 (iss + 1) /\ send_ack (conn s' i) = u32 (sg_seq h + 1).
Proof.
  intros Hd Hi Ec Hkn Hfree Hdt Hb Hv (_ & h' & p' & Hv' & Hsp & Hdp & Hnr & Hfl & Hak).
  cbn [fst snd] in Hv'. rewrite Hv in Hv'. injection Hv' as <- <-.
  destruct (send_waiting_known (conn s i) TCP_SYN (Wake d [(ip, data)] :: env) s (dial_wf _ _ _ _ _ _ _ Hd))
    as (s1 & E1 & Hw1 & Hc1 & Ht1); [unfold is_byte, TCP_SYN; lia | by rewrite Ec |].
  set (s2 := tick d s1).
  assert (Hw2 : wf s2) by (destruct Hw1; split; try done; apply u32_range).
  assert (Ec2 : forall j, conn s2 j = conn s j) by (intros j; unfold conn; cbn; by rewrite Hc1).
  destruct (rx_spec ip data s2 Hw2 Hb) as (s3 & E3 & Hr).
  assert (Er : route ip data s2 = Some (i, h, p)).
  { unfold route. rewrite Hv. cbn [mbind option_bind]. unfold tcp_find_conn.
    rewrite (find_conn_unique _ s2 i Hi); [done | |].
    - rewrite Ec2, Ec. unfold matches. cbn. by rewrite Hsp, Hdp, !Z.eqb_refl.
    - intros j Hj Hne. rewrite Ec2. unfold matches.
      destruct (Z.eqb_spec (local_port (conn s j)) (sg_dst h)) as [El |]; [| by rewrite andb_false_r].
      rewrite Hdp in El. by rewrite (Hfree j Hj Hne El). }
  rewrite Er in Hr. destruct Hr as (c & _ & Ha & Hch3). rewrite Ec2, Ec in Ha. unfold rx_after in Ha.
  rewrite Hnr in Ha. cbn [state send_seq] in Ha. change (TCP_SYN_SENT =? TCP_SYN_SENT) with true in Ha. cbv iota zeta in Ha.
  rewrite Hfl, Hak, !Z.eqb_refl in Ha. cbn [andb] in Ha. injection Ha as Ha.
  pose proof (ch_conn _ _ _ _ Hw2 Hi Hch3) as Ec3.
  assert (Hel3 : elapsed (TICKS s1) s3 = d).
  { unfold elapsed. cbn [now tcp_clock]. rewrite (ch_ticks _ _ _ _ Hch3). cbn. unfold u32. rewrite Zminus_mod_idemp_l.
    replace (TICKS s1 + d - TICKS s1) with d by lia. apply Z.mod_small. lia. }
  assert (Hwait : wait (TICKS s1) 200 (fun s => connected (conn s i)) (Wake d [(ip, data)] :: env) s1 = Some (true, s3, env)).
  { apply wait_first.
    - pose proof (elapsed_start s1) as Hel. cbn [now tcp_clock] in Hel. lia.
    - change (conn s1 i) with (conn s2 i). by rewrite Ec2, Ec.
    - cbn [wake_from tcp_clock]. unfold wake_up. cbn [w_segments w_ticks rx_all]. fold s2. by rewrite E3.
    - rewrite Hel3. lia.
    - by rewrite Ec3, <- Ha. }
  exists s3. cbn [syn_attempts]. rewrite E1. cbn [mbind option_bind]. rewrite Hwait, Ec3, <- Ha. by split_and!.
Qed.

(** C20: [connect] returns while the clock runs: within 780 wake-ups that advance
    it, three times 60 for a SYN to find the next hop and 200 for the answer. It
    returns the identifier of a connection only if the peer sent a
    checksum-correct segment with SYN and ACK that acknowledges the sequence
    number of this call's SYN, to this call's port; otherwise -1, and the
    slot it used is free again. Conversely, if the next hop is known when the call
    is made, such a segment is alone in the first wake-up, less than 200 ticks after
    the SYN, and no other connection in use has the port, the call
    returns with the connection established at the sequence numbers agreed. *)
Theorem connect_correct ip port env s :
  wf s -> word32 ip -> word16 port -> Forall wake_ok env -> 780 <= ticking env ->
  exists r s' env', connect ip port env s = Some (r, s', env') /\ wf s' /\
    match tcp_alloc_conn s with
    | None => r = -1 /\ s' = s
    | Some i =>
        ((r = -1 /\ in_use (conn s' i) = false) \/
         (r = Z.of_nat i /\ let c := conn s' i in connected c = true /\
          remote_ip c = ip /\ remote_port c = port /\ local_port c = NEXT_LOCAL_PORT s /\
          exists x, x ∈ segments env /\ syn_ack ip port (NEXT_LOCAL_PORT s) (iss_of s) x)) /\
        (forall d data rest h p, ip_known ip (net s) = true -> env = Wake d [(ip, data)] :: rest -> d < 200 ->
          port_free i (NEXT_LOCAL_PORT s) s -> valid_segment ip data = Some (h, p) ->
          syn_ack ip port (NEXT_LOCAL_PORT s) (iss_of s) (ip, data) ->
          r = Z.of_nat i /\ env' = rest /\ state (conn s' i) = TCP_ESTABLISHED /\
          send_seq (conn s' i) = u32 (iss_of s + 1) /\ send_ack (conn s' i) = u32 (sg_seq h + 1))
    end.
Proof.
  intros Hw Hip Hpo He Ht. unfold connect.
  destruct (tcp_alloc_conn s) as [i |] eqn:Ea; [| by exists (-1), s, env].
  pose proof (alloc_bound s i Ea) as Hi. cbv zeta. fold (iss_of s). fold (dial_conn ip port s).
  change (Tcp _ _ _ _ _) with (dial i ip port s).
  assert (Hs : Forall segment_ok (segments env)).
  { clear - He. unfold segments. induction He as [| w env [_ Hw] _ IH]; [constructor |].
    cbn [map concat]. by apply Forall_app. }
  pose proof (dial_dialing i ip port s (segments env) Hw Hi Hip Hpo) as Hd0.
  destruct (syn_attempts_spec i ip port (NEXT_LOCAL_PORT s) (iss_of s) (segments env) Hi Hs 3 env (dial i ip port s))
    as (r & s' & env' & E & Hd & Hr); [done | | lia |].
  { apply Forall_forall. intros w Hx. split; [by apply (proj1 (Forall_forall _ _) He) |].
    intros x Hx'. unfold segments. apply list_elem_of_In, in_concat. exists (w_segments w).
    split; [apply in_map; by apply list_elem_of_In | by apply list_elem_of_In]. }
  assert (Hconv : forall d data rest h p, ip_known ip (net s) = true -> env = Wake d [(ip, data)] :: rest -> d < 200 ->
    port_free i (NEXT_LOCAL_PORT s) s -> valid_segment ip data = Some (h, p) ->
    syn_ack ip port (NEXT_LOCAL_PORT s) (iss_of s) (ip, data) -> r = true /\ env' = rest /\
      state (conn s' i) = TCP_ESTABLISHED /\ send_seq (conn s' i) = u32 (iss_of s + 1) /\
      send_ack (conn s' i) = u32 (sg_seq h + 1)).
  { intros d data rest h p Hkn -> Hdt Hfree Hv Hsa. apply Forall_cons in He as [[[Hd1 Hd2] Hsg] _].
    apply Forall_cons in Hsg as [Hsg _]. cbn in Hd1.
    assert (Hcj : forall j, conn (dial i ip port s) j = if decide (j = i) then dial_conn ip port s else conn s j)
      by (intros j; exact (conn_upd s i j (fun _ => dial_conn ip port s) (wf_count _ Hw) Hi)).
    destruct (syn_attempts_accept i ip port (NEXT_LOCAL_PORT s) (iss_of s) d data rest (dial i ip port s) h p _ 2 Hd0 Hi)
      as (s2 & E2 & ? & ? & ?); [by rewrite Hcj, decide_True | done | | done | done | done | done |].
    - intros j Hj Hne. rewrite Hcj, decide_False by done. by apply Hfree.
    - rewrite E2 in E. injection E as <- <- <-. by split_and!. }
  rewrite E. cbn [mbind option_bind]. destruct r.
  - exists (Z.of_nat i), s', env'. split; [done |]. split; [apply Hd |]. split.
    + right. split; [done |]. specialize (Hr eq_refl). destruct Hd as [_ (P1 & P2 & P3) Hseen _]. cbv zeta. by auto 6.
    + intros d data rest h p Hkn He' Hdt Hf Hv Hsa. by destruct (Hconv d data rest h p Hkn He' Hdt Hf Hv Hsa) as (_ & ?).
  - eexists (-1), _, env'. split; [reflexivity |]. destruct (hang_up _ _ _ _ _ _ _ Hi Hd) as [Hw' Hu].
    split; [exact Hw' |]. split; [left; split; [done | exact Hu] |].
    intros d data rest h p Hkn He' Hdt Hf Hv Hsa. by destruct (Hconv d data rest h p Hkn He' Hdt Hf Hv Hsa) as (? & _).
Qed.

(** ** The receive buffer *)

Lemma copy_out_spec n : forall j tail buf head, 0 <= j -> tail < TCP_RX_BUF_SIZE -> j + Z.of_nat n <= TCP_RX_BUF_SIZE ->
  0 <= tail -> ring_wf TCP_RX_BUF_SIZE buf head ((tail + j) mod TCP_RX_BUF_SIZE) ->
  (n <= length (ring_contents TCP_RX_BUF_SIZE buf head ((tail + j) mod TCP_RX_BUF_SIZE)))%nat ->
  copy_out n j tail buf = Some (take n (ring_contents TCP_RX_BUF_SIZE buf head ((tail + j) mod TCP_RX_BUF_SIZE))).
Proof.
  induction n as [| n IH]; intros j tail buf head Hj Ht Hn Ht0 Hw Hl; [done |]. cbn [copy_out].
  unfold TCP_RX_BUF_SIZE in Ht, Hn. rewrite u16_small by lia.
  assert (Hne : head <> (tail + j) mod TCP_RX_BUF_SIZE).
  { intros E. apply (ring_empty _ rx_size_pos _ _ _ Hw) in E. rewrite E in Hl. simpl in Hl. lia. }
  destruct (ring_contents_cons _ rx_size_pos _ _ _ Hw Hne) as (c & Ec & Hw' & Hc).
  rewrite Zplus_mod_idemp_l in Hw', Hc. replace (tail + j + 1) with (tail + (j + 1)) in Hw', Hc by lia.
  rewrite Ec. cbn [mbind option_bind]. rewrite Hc in Hl |- *. cbn [length] in Hl.
  rewrite (IH (j + 1) tail buf head); [done | lia | unfold TCP_RX_BUF_SIZE; lia | unfold TCP_RX_BUF_SIZE; lia | lia | done | lia].
Qed.

(** A read takes what was asked for from the front of the queue. *)
Lemma recv_copy_spec i max_len s : wf s -> (i < TCP_MAX_CONNS)%nat -> 0 <= max_len ->
  exists s' c, recv_copy i max_len s = Some (take (Z.to_nat max_len) (received (conn s i)), s') /\
    changes i c s s' /\ received c = drop (Z.to_nat max_len) (received (conn s i)).
Proof.
  intros Hw Hi Hm. set (c0 := conn s i). pose proof (wf_get s i Hw) as Hc. fold c0 in Hc.
  pose proof (wf_ring _ Hc) as Hr. unfold recv_copy. cbv zeta. fold c0.
  pose proof (length_ring_contents _ rx_size_pos (rx_buf c0) (rx_head c0) (rx_tail c0)) as Hlen.
  fold (received c0) in Hlen.
  destruct (Z.eqb_spec (rx_head c0) (rx_tail c0)) as [E | E].
  { pose proof (proj1 (ring_empty _ rx_size_pos _ _ _ Hr) E) as Er. fold (received c0) in Er.
    exists s, c0. rewrite Er, take_nil, drop_nil. split; [done | split; [by apply ch_refl | done]]. }
  set (avail := if rx_tail c0 <? rx_head c0 then _ else _).
  assert (Ha : avail = ring_count TCP_RX_BUF_SIZE (rx_head c0) (rx_tail c0)).
  { destruct Hr as [_ Hh Ht]. unfold avail, ring_count. rewrite (mod_turn _ rx_size_pos) by lia.
    unfold TCP_RX_BUF_SIZE in *. destruct (Z.ltb_spec (rx_tail c0) (rx_head c0)), (Z.ltb_spec (rx_head c0 - rx_tail c0) 0),
      (Z.ltb_spec (rx_head c0 - rx_tail c0) 4096); try lia. rewrite (u16_small (4096 - _)), u16_small by lia. lia. }
  set (count := if max_len <? avail then max_len else avail).
  pose proof (ring_count_range _ rx_size_pos (rx_head c0) (rx_tail c0)) as Hrange.
  assert (Hcount : 0 <= count <= avail /\ (count = max_len \/ (count = avail /\ avail <= max_len))).
  { unfold count. destruct (Z.ltb_spec max_len avail); lia. }
  assert (Htail : (rx_tail c0 + 0) mod TCP_RX_BUF_SIZE = rx_tail c0) by (rewrite Z.add_0_r; apply Z.mod_small, Hr).
  assert (Hcopy : copy_out (Z.to_nat count) 0 (rx_tail c0) (rx_buf c0) = Some (take (Z.to_nat count) (received c0))).
  { unfold received. rewrite (copy_out_spec _ 0 _ _ (rx_head c0)); rewrite ?Htail; try done; try lia; try apply Hr.
    fold (received c0). lia. }
  rewrite Hcopy. cbn [mbind option_bind].
  destruct (ring_contents_drop _ rx_size_pos (Z.to_nat count) _ _ _ Hr) as [Hr' Hd]; [lia |].
  rewrite Z2Nat.id in Hr', Hd by lia. fold (received c0) in Hd.
  assert (Hu : u16 (rx_tail c0 + count) = rx_tail c0 + count).
  { apply u16_small. destruct Hr. unfold TCP_RX_BUF_SIZE in *. lia. }
  rewrite Hu. set (f := fun c => with_ring (rx_buf c) (rx_head c) ((rx_tail c0 + count) mod TCP_RX_BUF_SIZE) c).
  exists (upd i f s), (f c0). split; [| split].
  - f_equal. f_equal. destruct Hcount as [_ [-> | [-> Hle]]]; [done |]. by rewrite !take_ge by lia.
  - apply (ch_upd i c0 f s s Hw Hi (ch_refl i s Hw Hi)). by apply wf_with_ring.
  - unfold received at 1. cbn [rx_buf rx_head rx_tail f with_ring]. rewrite Hd.
    destruct Hcount as [_ [-> | [-> Hle]]]; [done |]. by rewrite !drop_ge by lia.
Qed.

(** Segments arriving and reads of connection [i], in any order. *)
Inductive event := Arrive (src_ip : Z) (data : list Z) | Read (max_len : Z).

(** The bytes a segment adds to connection [i]: the payload, as far as the
    buffer has room, when the connection is established. *)
Definition accepted (i : nat) (src_ip : Z) (data : list Z) s : list Z :=
  match route src_ip data s with
  | Some (j, h, p) =>
      if bool_decide (j = i) && negb (has (sg_flags h) TCP_RST) && (state (conn s i) =? TCP_ESTABLISHED)
      then take (rx_capacity - length (received (conn s i))) p else []
  | None => []
  end.

(** All bytes accepted, all bytes returned by reads. *)
Fixpoint traffic (i : nat) (evs : list event) s : option (list Z * list Z * tcp N) :=
  match evs with
  | [] => Some ([], [], s)
  | Arrive ip data :: evs =>
      s' ← rx ip data s; '(a, d, s'') ← traffic i evs s'; Some (accepted i ip data s ++ a, d, s'')
  | Read n :: evs => '(l, s) ← recv_copy i n s; '(a, d, s) ← traffic i evs s; Some (a, l ++ d, s)
  end.

Definition event_ok (e : event) : Prop := match e with Arrive _ data => byte_list data | Read n => 0 <= n end.

Lemma rx_after_received flags seq ack p c c' : wf_conn c -> rx_after flags seq ack p c = Some c' ->
  received c' = received c ++
    (if negb (has flags TCP_RST) && (state c =? TCP_ESTABLISHED)
     then take (rx_capacity - length (received c)) p else []).
Proof.
  intros Hc. unfold rx_after. cbv zeta. destruct (has flags TCP_RST); cbn [negb andb].
  { intros [= <-]. by rewrite app_nil_r. }
  destruct (Z.eqb_spec (state c) TCP_SYN_SENT) as [E |].
  { rewrite E. change (TCP_SYN_SENT =? TCP_ESTABLISHED) with false. cbv iota. rewrite app_nil_r.
    intros [= <-]. by destruct (_ && _). }
  destruct (state c =? TCP_ESTABLISHED).
  { destruct (store_payload_spec p c (wf_ring _ Hc)) as (b & h & -> & _ & Hq). cbn [mbind option_bind].
    destruct (Z.ltb_spec 0 (Z.of_nat (length p))); cbn [mbind option_bind].
    - intros [= <-]. destruct (has flags TCP_FIN); exact Hq.
    - assert (p = []) as -> by (apply length_zero_iff_nil; lia). rewrite take_nil, app_nil_r.
      intros [= <-]. by destruct (has flags TCP_FIN). }
  rewrite app_nil_r. repeat case_if; by intros [= <-].
Qed.

(** C21: the receive buffer is a first-in first-out queue of at most 4095 bytes:
    whatever the order of segments and reads, no operation fails, and the bytes
    that were waiting followed by those accepted since are the bytes returned by
    the reads followed by those still waiting. *)
Theorem tcp_receive_queue i evs s : wf s -> (i < TCP_MAX_CONNS)%nat -> Forall event_ok evs ->
  exists acc del s', traffic i evs s = Some (acc, del, s') /\ wf s' /\
    received (conn s i) ++ acc = del ++ received (conn s' i) /\ (length (received (conn s' i)) <= rx_capacity)%nat.
Proof.
  intros Hw Hi. revert s Hw. induction evs as [| e evs IH]; intros s Hw He.
  { exists [], [], s. rewrite app_nil_r. by split_and!; [| | | apply received_length]. }
  apply Forall_cons in He as [He Hes]. cbn [traffic]. destruct e as [ip data | n]; cbn [event_ok] in He.
  - destruct (rx_spec ip data s Hw He) as (s1 & E1 & Hr). rewrite E1. cbn [mbind option_bind].
    assert (H1 : wf s1 /\ received (conn s1 i) = received (conn s i) ++ accepted i ip data s).
    { unfold accepted. destruct (route ip data s) as [[[j h] p] |].
      - destruct Hr as (c & Hj & Ha & Hch). split; [apply Hch |]. case_bool_decide as Ej; cbn [andb].
        + subst j. rewrite (ch_conn _ _ _ _ Hw Hi Hch). by apply (rx_after_received _ _ _ _ _ _ (wf_get s i Hw) Ha).
        + by rewrite app_nil_r, (ch_other j c s s1 i Hw (not_eq_sym Ej) Hch).
      - split; [apply Hr |]. unfold conn. by rewrite (un_conns _ _ Hr), app_nil_r. }
    destruct H1 as [Hw1 Hq]. destruct (IH s1 Hw1 Hes) as (acc & del & s2 & E2 & Hw2 & Hf & Hl).
    exists (accepted i ip data s ++ acc), del, s2. rewrite E2. cbn [mbind option_bind]. split_and!; try done.
    by rewrite app_assoc, <- Hq.
  - destruct (recv_copy_spec i n s Hw Hi He) as (s1 & c & E1 & Hch & Hq). rewrite E1. cbn [mbind option_bind].
    destruct (IH s1 (ch_wf _ _ _ _ Hch) Hes) as (acc & del & s2 & E2 & Hw2 & Hf & Hl).
    exists acc, (take (Z.to_nat n) (received (conn s i)) ++ del), s2. rewrite E2. cbn [mbind option_bind].
    split_and!; try done. rewrite (ch_conn _ _ _ _ Hw Hi Hch), Hq in Hf.
    by rewrite <- app_assoc, <- Hf, app_assoc, take_drop.
Qed.

End props.

(** ** Witnesses: a layer below that logs what it is given *)

#[local] Instance ip_log : IpLayer (list (Z * Z * list Z)) := fun ip proto seg n => (0, n ++ [(ip, proto, seg)]).
#[local] Instance ip_log_path : IpPath (list (Z * Z * list Z)) :=
  {| ip_known := fun _ _ => true; ip_request := fun _ n => n; ip_drop := fun n => n; ip_wake := fun _ n => n |}.

Definition ex_tcp : tcp (list (Z * Z * list Z)) := Tcp (replicate 4 TcpConn_new) 49152 (replicate 1480 0) 7 [].

Lemma ex_tcp_wf : wf ex_tcp.
Proof.
  split; cbn [CONNS NEXT_LOCAL_PORT SEG_BUF TICKS ex_tcp].
  - apply Forall_replicate, wf_new.
  - done.
  - unfold word16. lia.
  - apply length_replicate.
  - apply Forall_replicate. unfold is_byte. lia.
  - unfold word32. lia.
Qed.

Definition ex_ip : Z := 0x0A000202.
Definition ex_conn : TcpConn := dial_conn ex_ip 80 ex_tcp.

Lemma ex_ip_word : word32 ex_ip.
Proof. unfold word32, ex_ip. lia. Qed.
Lemma ex_port_word : word16 80.
Proof. unfold word16. lia. Qed.
Lemma ex_conn_wf : wf_conn ex_conn.
Proof. apply dial_conn_wf; [apply ex_tcp_wf | apply ex_ip_word | apply ex_port_word]. Qed.

Lemma tcp_segment_roundtrip_witness : exists seg,
  tcp_checksum NET_IP_ADDR ex_ip seg = 0 /\
  read_header seg = Segment 49152 80 (Z.lor TCP_ACK TCP_PSH) 86416 0 20 /\ drop 20 seg = [71; 69; 84].
Proof.
  assert (Hd : byte_list [71; 69; 84]) by (unfold byte_list, is_byte; repeat apply Forall_cons_2; try lia; constructor).
  assert (Hf : is_byte (Z.lor TCP_ACK TCP_PSH)) by (change (Z.lor TCP_ACK TCP_PSH) with 24; unfold is_byte; lia).
  destruct (tcp_segment_roundtrip ex_conn _ [71; 69; 84] ex_tcp ex_tcp_wf ex_conn_wf Hf Hd ltac:(simpl; lia))
    as (seg & s' & _ & _ & _ & Hc & Hh & Hp).
  exists seg. split; [exact Hc | split; [exact Hh | exact Hp]].
Defined.

(** The peer's SYN+ACK, with sequence number 1000. *)
Definition ex_peer : TcpConn := Conn true 0 0 49152 80 1000 86417 [] 0 0 false false.
Definition ex_syn_ack : list Z :=
  tcp_header ex_peer 0x12 (tcp_checksum ex_ip NET_IP_ADDR (tcp_header ex_peer 0x12 0)).
Definition ex_env : list wake := Wake 5 [(ex_ip, ex_syn_ack)] :: replicate 780 (Wake 1 []).

Lemma ex_env_ok : Forall wake_ok ex_env.
Proof.
  apply Forall_cons_2.
  - split; [cbn; lia |]. apply Forall_cons_2; [| constructor]. unfold segment_ok. cbn [snd]. apply header_bytes.
    unfold is_byte. lia.
  - apply Forall_replicate. split; [cbn; lia | constructor].
Qed.

Lemma ex_valid : valid_segment ex_ip ex_syn_ack = Some (Segment 80 49152 0x12 1000 86417 20, []).
Proof. vm_compute. reflexivity. Qed.

Lemma ex_free : port_free 0 49152 ex_tcp.
Proof. intros j Hj _ _. unfold conn. destruct j as [| [| [| [| j]]]]; try reflexivity. unfold TCP_MAX_CONNS in Hj. lia. Qed.

Lemma connect_correct_witness : exists s' env',
  connect ex_ip 80 ex_env ex_tcp = Some (0, s', env') /\ state (conn s' 0) = TCP_ESTABLISHED /\
  send_seq (conn s' 0) = 86417 /\ send_ack (conn s' 0) = 1001.
Proof.
  assert (Ht : 780 <= ticking ex_env) by (apply Z.leb_le; vm_compute; reflexivity).
  destruct (connect_correct ex_ip 80 ex_env ex_tcp ex_tcp_wf ex_ip_word ex_port_word ex_env_ok Ht)
    as (r & s' & env' & E & _ & _ & Hconv).
  destruct (Hconv 5 ex_syn_ack (replicate 780 (Wake 1 [])) _ _ eq_refl eq_refl ltac:(lia) ex_free ex_valid)
    as (Hr & _ & Hst & Hsq & Hak).
  { split; [reflexivity |]. do 2 eexists. split; [exact ex_valid |]. repeat (split; [reflexivity |]). reflexivity. }
  exists s', env'. split; [rewrite E, Hr; reflexivity |]. split; [exact Hst |]. split; [exact Hsq | exact Hak].
Defined.

(** Over a layer that never finds the next hop the bound is exact. *)
#[local] Instance ip_dark : IpLayer unit := fun _ _ _ n => (-1, n).
#[local] Instance ip_dark_path : IpPath unit :=
  {| ip_known := fun _ _ => false; ip_request := fun _ n => n; ip_drop := fun n => n; ip_wake := fun _ n => n |}.
Definition dark_tcp : tcp unit := Tcp (replicate 4 TcpConn_new) 49152 (replicate 1480 0) 7 tt.

Example connect_unresolved :
  (fun x => x.1.1) <$> connect ex_ip 80 (replicate 780 (Wake 1 [])) dark_tcp = Some (-1) /\
  (fun x => x.1.1) <$> connect ex_ip 80 (replicate 779 (Wake 1 [])) dark_tcp = None.
Proof. split; vm_compute; reflexivity. Qed.

(** Two bytes arrive on an established connection and are read back. *)
Definition ex_est : tcp (list (Z * Z * list Z)) := upd 0 (fun _ => with_state TCP_ESTABLISHED ex_conn) ex_tcp.

Lemma ex_est_wf : wf ex_est.
Proof. apply wf_upd; [apply ex_tcp_wf |]. apply wf_moved; [apply ex_conn_wf | done | unfold TCP_SYN_SENT, TCP_ESTABLISHED; lia]. Qed.

Definition ex_data : list Z :=
  tcp_header ex_peer 0x10 (tcp_checksum ex_ip NET_IP_ADDR (tcp_header ex_peer 0x10 0 ++ [72; 105])) ++ [72; 105].

Lemma tcp_receive_queue_witness : exists acc del s',
  traffic 0 [Arrive ex_ip ex_data; Read 1; Read 9] ex_est = Some (acc, del, s') /\ acc = del ++ received (conn s' 0).
Proof.
  assert (Hd : byte_list ex_data).
  { unfold ex_data. apply byte_list_app. split; [apply header_bytes; unfold is_byte; lia |].
    unfold byte_list, is_byte. repeat apply Forall_cons_2; try lia; constructor. }
  destruct (tcp_receive_queue 0 [Arrive ex_ip ex_data; Read 1; Read 9] ex_est ex_est_wf)
    as (acc & del & s' & E & _ & Hq & _).
  - unfold TCP_MAX_CONNS. lia.
  - apply Forall_cons_2; [exact Hd |]. do 2 (apply Forall_cons_2; [unfold event_ok; lia |]). constructor.
  - exists acc, del, s'. split; [exact E |]. rewrite <- Hq. reflexivity.
Defined.
