(* ===== verification/Arp.v ===== *)
(** Ethernet frames ([send_ethernet] of [src/src/net.rs]) and the Address
    Resolution Protocol ([src/src/arp.rs]): the 16-entry table, packets, and the
    blocking [resolve].

    The network card is the interface [Nic]; [ARP_LOCK] makes a table operation
    atomic, which the model's operations are. *)
From S2P Require Import Prelude Waiting NetWire.

(** [rtl8139::get_mac] and [rtl8139::send]. *)
Class Nic (D : Type) := { get_mac : D -> list Z; nic_send : list Z -> D -> D }.

Definition ARP_TABLE_SIZE : nat := 16.

Record ArpEntry := Entry { e_ip : Z; e_mac : list Z; valid : bool }.

Definition empty_entry : ArpEntry := Entry 0 (replicate 6 0) false.

(** The state below IPv4: [OUR_MAC], [ARP_TABLE], the clock and the card. *)
Record link (D : Type) := Link { OUR_MAC : list Z; ARP_TABLE : list ArpEntry; CLOCK : Z; nic : D }.
Arguments Link {D}. Arguments OUR_MAC {D}. Arguments ARP_TABLE {D}. Arguments CLOCK {D}. Arguments nic {D}.

Record arp_wake := ArpWake { aw_ticks : Z; aw_packets : list (list Z) }.

(** ** The table *)

Definition holds (ip : Z) (e : ArpEntry) : bool := valid e && (e_ip e =? ip).

(** The loop of [arp_table_update]: the entry of [ip], or the first free slot. *)
Fixpoint find_slot (ip : Z) (i : nat) (free : option nat) (t : list ArpEntry) : nat + option nat :=
  match t with
  | [] => inr free
  | e :: t =>
      if holds ip e then inl i
      else find_slot ip (S i) (if negb (valid e) && bool_decide (free = None) then Some i else free) t
  end.

Definition arp_table_update (ip : Z) (mac : list Z) (t : list ArpEntry) : list ArpEntry :=
  match find_slot ip 0 None t with
  | inl i => alter (fun e => Entry (e_ip e) mac (valid e)) i t
  | inr (Some slot) => <[slot := Entry ip mac true]> t
  | inr None => t
  end.

Fixpoint arp_table_lookup (ip : Z) (t : list ArpEntry) : option (list Z) :=
  match t with
  | [] => None
  | e :: t => if holds ip e then Some (e_mac e) else arp_table_lookup ip t
  end.

Definition arp_init : list ArpEntry := replicate ARP_TABLE_SIZE empty_entry.

(** ** Packets *)

Definition read_ip (p : list Z) : Z :=
  Z.lor (Z.lor (Z.lor (Z.shiftl (nth 0 p 0) 24) (Z.shiftl (nth 1 p 0) 16)) (Z.shiftl (nth 2 p 0) 8)) (nth 3 p 0).

Definition write_ip (ip : Z) : list Z :=
  [u8 (Z.land (Z.shiftr ip 24) 0xFF); u8 (Z.land (Z.shiftr ip 16) 0xFF); u8 (Z.land (Z.shiftr ip 8) 0xFF);
   u8 (Z.land ip 0xFF)].

Definition arp_packet (opcode : Z) (sender_mac : list Z) (sender_ip : Z) (target_mac : list Z) (target_ip : Z) : list Z :=
  le_bytes 2 (htons 1) ++ le_bytes 2 (htons 0x0800) ++ [6; 4] ++ le_bytes 2 (htons opcode) ++
  sender_mac ++ write_ip sender_ip ++ target_mac ++ write_ip target_ip.

Section link.
Context {D : Type} `{Nic D}.
Implicit Types s : link D.

Definition set_table (t : list ArpEntry) s : link D := Link (OUR_MAC s) t (CLOCK s) (nic s).

Definition send_ethernet (dst_mac : list Z) (ethertype : Z) (payload : list Z) s : link D :=
  if 1518 <? Z.of_nat (length payload) + 14 then s else
  Link (OUR_MAC s) (ARP_TABLE s) (CLOCK s)
    (nic_send (dst_mac ++ OUR_MAC s ++ le_bytes 2 (htons ethertype) ++ payload) (nic s)).

Definition arp_send_request (target_ip : Z) s : link D :=
  send_ethernet ETH_BROADCAST ETH_TYPE_ARP
    (arp_packet 1 (get_mac (nic s)) NET_IP_ADDR (replicate 6 0) target_ip) s.

Definition arp_send_reply (dst_mac : list Z) (dst_ip : Z) s : link D :=
  send_ethernet dst_mac ETH_TYPE_ARP (arp_packet 2 (get_mac (nic s)) NET_IP_ADDR dst_mac dst_ip) s.

Definition arp_rx (data : list Z) s : link D :=
  if Z.of_nat (length data) <? 28 then s else
  if negb (ntohs (rd16 0 data) =? 1) then s else
  if negb (ntohs (rd16 2 data) =? 0x0800) then s else
  let opcode := ntohs (rd16 6 data) in
  let sender_ip := read_ip (slice 14 4 data) in
  let target_ip := read_ip (slice 24 4 data) in
  let s := set_table (arp_table_update sender_ip (slice 8 6 data) (ARP_TABLE s)) s in
  if (opcode =? 1) && (target_ip =? NET_IP_ADDR) then arp_send_reply (slice 8 6 data) sender_ip s else s.

(** ** Resolution *)

Definition link_tick (d : Z) s : link D := Link (OUR_MAC s) (ARP_TABLE s) (u32 (CLOCK s + d)) (nic s).
Definition link_wake (w : arp_wake) s : option (link D) :=
  Some (fold_left (fun s p => arp_rx p s) (aw_packets w) (link_tick (aw_ticks w) s)).

#[export] Instance link_clock : Clock (link D) arp_wake :=
  {| now := CLOCK; wake_from := link_wake; wake_ticks := aw_ticks |}.

Definition known (ip : Z) s : bool := match arp_table_lookup ip (ARP_TABLE s) with Some _ => true | None => false end.

(** The loop of the retries; the address is what the look-up that succeeded
    copied to [mac_out]. *)
Fixpoint resolve_attempts (n : nat) (ip : Z) (env : list arp_wake) s : option (option (list Z) * link D * list arp_wake) :=
  match n with
  | O => Some (None, s, env)
  | S n =>
      let s := arp_send_request ip s in
      '(r, s, env) ← wait (CLOCK s) 20 (known ip) env s;
      if r : bool then Some (arp_table_lookup ip (ARP_TABLE s), s, env) else resolve_attempts n ip env s
  end.

(** [Some mac] is the result 1 with [mac_out], [None] the result 0. *)
Definition resolve (ip : Z) (env : list arp_wake) s : option (option (list Z) * link D * list arp_wake) :=
  match arp_table_lookup ip (ARP_TABLE s) with
  | Some mac => Some (Some mac, s, env)
  | None => resolve_attempts 3 ip env s
  end.

Definition net_init s : link D := Link (get_mac (nic s)) arp_init (CLOCK s) (nic s).
End link.

(** ** The table as a map of at most 16 addresses *)

Definition binds (t : list ArpEntry) : list (Z * list Z) :=
  omap (fun e => if valid e then Some (e_ip e, e_mac e) else None) t.
Definition arp_map (t : list ArpEntry) : gmap Z (list Z) := list_to_map (binds t).

Record wf_table (t : list ArpEntry) : Prop := {
  wt_length : length t = ARP_TABLE_SIZE; wt_nodup : NoDup (binds t).*1;
  wt_macs : Forall (fun e => length (e_mac e) = 6%nat) t }.

(** What learning an address does to the map. *)
Definition learn (ip : Z) (mac : list Z) (m : gmap Z (list Z)) : gmap Z (list Z) :=
  if decide (is_Some (m !! ip) \/ (size m < ARP_TABLE_SIZE)%nat) then <[ip := mac]> m else m.

Lemma lookup_map ip t : arp_table_lookup ip t = arp_map t !! ip.
Proof.
  unfold arp_map, binds. induction t as [| e t IH]; [done |]. cbn [arp_table_lookup omap list_omap]. unfold holds.
  destruct (valid e); cbn [andb]; [| exact IH]. cbn [list_to_map foldr fst snd].
  destruct (Z.eqb_spec (e_ip e) ip) as [-> | Hne]; [by rewrite lookup_insert_eq |].
  by rewrite lookup_insert_ne by done.
Qed.

Lemma find_slot_spec ip t : forall i free,
  match find_slot ip i free t with
  | inl k => exists t1 e t2, t = t1 ++ e :: t2 /\ k = (i + length t1)%nat /\ valid e = true /\ e_ip e = ip /\
               arp_table_lookup ip t1 = None
  | inr f => arp_table_lookup ip t = None /\
      match free with
      | Some _ => f = free
      | None =>
          match f with
          | None => forallb valid t = true
          | Some k => exists t1 e t2, t = t1 ++ e :: t2 /\ k = (i + length t1)%nat /\ valid e = false
          end
      end
  end.
Proof.
  induction t as [| e t IH]; intros i free; [cbn; by destruct free |]. cbn [find_slot arp_table_lookup forallb].
  destruct (holds ip e) eqn:Eh.
  - unfold holds in Eh. breflect. exists [], e, t. split_and!; done || (cbn; lia).
  - specialize (IH (S i) (if negb (valid e) && bool_decide (free = None) then Some i else free)).
    destruct (find_slot ip (S i) _ t) as [k | f].
    + destruct IH as (t1 & e' & t2 & -> & -> & Hv & Hip & Hl). exists (e :: t1), e', t2.
      cbn [arp_table_lookup length]. rewrite Eh. split_and!; done || lia.
    + destruct IH as [Hl Hf]. split; [done |]. destruct free as [f0 |].
      * rewrite andb_false_r in Hf. done.
      * rewrite bool_decide_true, andb_true_r in Hf by done. destruct (valid e) eqn:Ev; cbn [negb andb] in Hf |- *.
        -- destruct f as [k |]; [| done]. destruct Hf as (t1 & e' & t2 & -> & -> & Hv). exists (e :: t1), e', t2.
           cbn [length]. split_and!; done || lia.
        -- subst f. exists [], e, t. split_and!; done || (cbn; lia).
Qed.

Lemma binds_app t1 t2 : binds (t1 ++ t2) = binds t1 ++ binds t2.
Proof. apply omap_app. Qed.

Lemma binds_none ip t : arp_table_lookup ip t = None -> ip ∉ (binds t).*1.
Proof. intros E. rewrite lookup_map in E. unfold arp_map in E. by apply not_elem_of_list_to_map in E. Qed.

Lemma list_to_map_middle (b1 b2 : list (Z * list Z)) ip mac : ip ∉ b1.*1 ->
  list_to_map (M := gmap Z (list Z)) (b1 ++ (ip, mac) :: b2) = <[ip := mac]> (list_to_map (b1 ++ b2)).
Proof.
  induction b1 as [| [k v] b1 IH]; intros Hn; [done |]. cbn [app list_to_map foldr fst snd].
  rewrite fmap_cons in Hn. apply not_elem_of_cons in Hn as [Hk Hn]. cbn in Hk.
  change (foldr _ _ (b1 ++ (ip, mac) :: b2)) with (list_to_map (M := gmap Z (list Z)) (b1 ++ (ip, mac) :: b2)).
  rewrite (IH Hn). by rewrite insert_insert_ne.
Qed.

Lemma omap_length {A B} (f : A -> option B) l : (length (omap f l) <= length l)%nat.
Proof. induction l as [| x l IH]; [done |]. cbn. destruct (f x); cbn in *; lia. Qed.

Lemma binds_full t : forallb valid t = true -> length (binds t) = length t.
Proof.
  unfold binds. induction t as [| e t IH]; [done |]. cbn. intros Hv. apply andb_prop in Hv as [-> Hv].
  cbn. f_equal. by apply IH.
Qed.

Lemma map_size t : wf_table t -> size (arp_map t) = length (binds t).
Proof. intros [_ Hn _]. unfold arp_map. by rewrite map_size_list_to_map. Qed.

Lemma nodup_middle (b1 b2 : list (Z * list Z)) ip mac : ip ∉ (b1 ++ b2).*1 -> NoDup (b1 ++ b2).*1 ->
  NoDup (b1 ++ (ip, mac) :: b2).*1.
Proof.
  rewrite !fmap_app, fmap_cons. intros Hni Hn. rewrite <- Permutation_middle. by apply NoDup_cons.
Qed.

Lemma middle_Forall {A} (P : A -> Prop) l1 x y l2 : Forall P (l1 ++ x :: l2) -> P y -> Forall P (l1 ++ y :: l2).
Proof. rewrite !Forall_app, !Forall_cons. tauto. Qed.

Lemma arp_table_update_spec ip mac t : wf_table t -> length mac = 6%nat ->
  wf_table (arp_table_update ip mac t) /\ arp_map (arp_table_update ip mac t) = learn ip mac (arp_map t).
Proof.
  intros Hw Hmac. pose proof (map_size t Hw) as Hsize. pose proof Hw as [Hl Hn Hm]. unfold arp_table_update, learn.
  pose proof (find_slot_spec ip t 0 None) as Hf. destruct (find_slot ip 0 None t) as [k | [k |]].
  - destruct Hf as (t1 & e & t2 & -> & -> & Hv & Hip & Hnone). cbn [Nat.add].
    rewrite <- (Nat.add_0_r (length t1)), alter_app_r. cbn [alter list_alter].
    destruct e as [ip' old v]. cbn [valid e_ip] in *. subst ip' v.
    assert (Hb : forall v, binds (t1 ++ Entry ip v true :: t2) = binds t1 ++ (ip, v) :: binds t2)
      by (intros v; by rewrite binds_app).
    rewrite Hb in Hn. pose proof (binds_none _ _ Hnone) as Hni. split.
    + split; [rewrite length_app in *; exact Hl | | by apply middle_Forall with (1 := Hm)].
      rewrite Hb. rewrite fmap_app, fmap_cons in *. exact Hn.
    + unfold arp_map. rewrite !Hb, !list_to_map_middle by done. rewrite decide_True, insert_insert_eq; [done |].
      left. rewrite lookup_insert_eq. by eexists.
  - destruct Hf as (Hnone & t1 & e & t2 & -> & -> & Hv). cbn [Nat.add].
    rewrite <- (Nat.add_0_r (length t1)), insert_app_r. cbn [insert list_insert].
    assert (Hb0 : binds (t1 ++ e :: t2) = binds t1 ++ binds t2) by (rewrite binds_app; unfold binds at 2; cbn; by rewrite Hv).
    assert (Hb : binds (t1 ++ Entry ip mac true :: t2) = binds t1 ++ (ip, mac) :: binds t2) by (by rewrite binds_app).
    pose proof (binds_none _ _ Hnone) as Hni. rewrite Hb0 in Hn, Hni, Hsize. split.
    + split; [rewrite length_app in *; exact Hl | | by apply middle_Forall with (1 := Hm)].
      rewrite Hb. by apply nodup_middle.
    + unfold arp_map in *. rewrite Hb, Hb0 in *. rewrite list_to_map_middle by (rewrite fmap_app in Hni; set_solver).
      rewrite decide_True; [done |]. right. rewrite Hsize, length_app.
      pose proof (omap_length (fun e => if valid e then Some (e_ip e, e_mac e) else None) t1).
      pose proof (omap_length (fun e => if valid e then Some (e_ip e, e_mac e) else None) t2).
      rewrite length_app in Hl. cbn in Hl. unfold binds. lia.
  - destruct Hf as [Hnone Hfull]. split; [done |]. rewrite decide_False; [done |].
    rewrite <- lookup_map, Hnone, Hsize, binds_full, Hl by done. intros [[] |]; [done | lia].
Qed.

(** ** Reception and resolution *)

(** The binding an ARP packet announces. *)
Definition announces (data : list Z) : option (Z * list Z) :=
  if (28 <=? Z.of_nat (length data)) && (ntohs (rd16 0 data) =? 1) && (ntohs (rd16 2 data) =? 0x0800)
  then Some (read_ip (slice 14 4 data), slice 8 6 data) else None.

Section link_spec.
Context {D : Type} `{Nic D}.
Implicit Types s : link D.

Lemma send_ethernet_table dst ty p s : ARP_TABLE (send_ethernet dst ty p s) = ARP_TABLE s /\
  CLOCK (send_ethernet dst ty p s) = CLOCK s /\ OUR_MAC (send_ethernet dst ty p s) = OUR_MAC s.
Proof. unfold send_ethernet. by case_if. Qed.

Lemma arp_rx_mac data s : OUR_MAC (arp_rx data s) = OUR_MAC s.
Proof.
  unfold arp_rx, arp_send_reply. cbv zeta. repeat case_if; try done.
  exact (proj2 (proj2 (send_ethernet_table _ _ _ _))).
Qed.

Lemma arp_rx_spec data s : wf_table (ARP_TABLE s) ->
  wf_table (ARP_TABLE (arp_rx data s)) /\ CLOCK (arp_rx data s) = CLOCK s /\
  arp_map (ARP_TABLE (arp_rx data s)) =
    match announces data with
    | Some (ip, mac) => learn ip mac (arp_map (ARP_TABLE s))
    | None => arp_map (ARP_TABLE s)
    end.
Proof.
  intros Hw. unfold arp_rx, announces. cbv zeta. rewrite Z.leb_antisym.
  destruct (Z.ltb_spec (Z.of_nat (length data)) 28); cbn [negb andb]; [done |].
  destruct (ntohs (rd16 0 data) =? 1); cbn [negb andb]; [| done].
  destruct (ntohs (rd16 2 data) =? 0x0800); cbn [negb andb]; [| done].
  destruct (arp_table_update_spec (read_ip (slice 14 4 data)) (slice 8 6 data) _ Hw) as [Hw' Hm];
    [apply length_slice; lia |].
  case_if; [| done]. unfold arp_send_reply.
  match goal with |- context [send_ethernet ?a ?b ?c ?d] => destruct (send_ethernet_table a b c d) as (-> & -> & _) end.
  done.
Qed.

Definition arp_wake_ok (w : arp_wake) : Prop := 0 <= aw_ticks w < 2147483648.
Definition packets (env : list arp_wake) : list (list Z) := concat (map aw_packets env).

Section resolving.
Variables (ip : Z) (t0 : list ArpEntry) (m0 : list Z) (heard : list (list Z)).

(** While [resolve] waits: what the table says of [ip] it said before, or a
    packet has announced. *)
Record resolving s : Prop := {
  rs_table : wf_table (ARP_TABLE s);
  rs_mac : OUR_MAC s = m0;
  rs_origin : forall mac, arp_map (ARP_TABLE s) !! ip = Some mac ->
    arp_map t0 !! ip = Some mac \/ exists p, p ∈ heard /\ announces p = Some (ip, mac) }.

Lemma resolving_rx p s : resolving s -> p ∈ heard -> resolving (arp_rx p s).
Proof.
  intros [Hw Hmac Ho] Hp. destruct (arp_rx_spec p s Hw) as (Hw' & _ & Hm). split; [done | by rewrite arp_rx_mac |]. intros mac. rewrite Hm.
  destruct (announces p) as [[ip' mac'] |] eqn:Ea; [| by apply Ho].
  unfold learn. case_decide; [| by apply Ho]. destruct (decide (ip' = ip)) as [-> | Hne].
  - rewrite lookup_insert_eq. intros [= <-]. right. by exists p.
  - rewrite lookup_insert_ne by done. by apply Ho.
Qed.

Definition heard_wake (w : arp_wake) : Prop := arp_wake_ok w /\ aw_packets w ⊆ heard.

Lemma resolving_wake w s : resolving s -> heard_wake w ->
  exists s', wake_from w s = Some s' /\ resolving s' /\ now s' = u32 (now s + wake_ticks w).
Proof.
  intros Hs [_ Hw]. cbn. unfold link_wake. eexists. split; [reflexivity |].
  assert (H0 : resolving (link_tick (aw_ticks w) s)) by (destruct Hs; by split).
  change (u32 (CLOCK s + aw_ticks w)) with (CLOCK (link_tick (aw_ticks w) s)).
  revert H0. generalize (link_tick (aw_ticks w) s). revert Hw.
  induction (aw_packets w) as [| p l IH]; intros Hsub s1 H1; [done |]. cbn [fold_left].
  destruct (IH ltac:(set_solver) (arp_rx p s1)) as [H2 ->]; [apply resolving_rx; [done | set_solver] |].
  split; [done |]. by apply arp_rx_spec, H1.
Qed.

Lemma heard_wake_ticks w : heard_wake w -> 0 <= wake_ticks w < 2147483648.
Proof. intros [Hw _]. exact Hw. Qed.

Lemma resolve_attempts_spec n : forall env s, resolving s -> Forall heard_wake env -> 20 * Z.of_nat n <= ticking env ->
  exists r s' env', resolve_attempts n ip env s = Some (r, s', env') /\ resolving s' /\
    match r with Some mac => arp_map (ARP_TABLE s') !! ip = Some mac | None => True end.
Proof.
  induction n as [| n IH]; intros env s Hs He Ht; [by exists None, s, env |]. cbn [resolve_attempts].
  set (s1 := arp_send_request ip s).
  assert (H1 : resolving s1 /\ CLOCK s1 = CLOCK s).
  { unfold s1, arp_send_request. match goal with |- context [send_ethernet ?a ?b ?c ?d] =>
      destruct (send_ethernet_table a b c d) as (Et & Ec & Em) end. split; [| done].
    destruct Hs. split; by rewrite ?Et, ?Em. }
  destruct H1 as [H1 _]. pose proof (elapsed_start s1) as Hel. cbn [now link_clock] in Hel.
  destruct (wait_spec resolving heard_wake resolving_wake heard_wake_ticks (CLOCK s1) 20 (known ip) env
              ltac:(lia) s1 H1 He) as (r & s2 & env' & E2 & Hs2 & Hr & used & -> & Hu); [lia |].
  rewrite E2. cbn [mbind option_bind]. destruct r.
  - exists (arp_table_lookup ip (ARP_TABLE s2)), s2, env'. split; [done | split; [done |]].
    rewrite lookup_map. by destruct (arp_map (ARP_TABLE s2) !! ip).
  - apply IH; [done | by apply Forall_app in He as [_ ?] |]. rewrite ticking_app in Ht. lia.
Qed.
End resolving.

Lemma map_mac_length t ip mac : wf_table t -> arp_map t !! ip = Some mac -> length mac = 6%nat.
Proof.
  intros [_ _ Hm] E. rewrite <- lookup_map in E. induction Hm as [| e t He _ IH]; [done |].
  cbn [arp_table_lookup] in E. destruct (holds ip e); [by simplify_eq | by apply IH].
Qed.

Lemma resolve_spec ip env s :
  wf_table (ARP_TABLE s) -> Forall arp_wake_ok env -> 60 <= ticking env ->
  exists r s' env', resolve ip env s = Some (r, s', env') /\ wf_table (ARP_TABLE s') /\ OUR_MAC s' = OUR_MAC s /\
    match r with
    | Some mac => length mac = 6%nat /\ arp_map (ARP_TABLE s') !! ip = Some mac /\
        (arp_map (ARP_TABLE s) !! ip = Some mac \/ exists p, p ∈ packets env /\ announces p = Some (ip, mac))
    | None => arp_map (ARP_TABLE s) !! ip = None
    end.
Proof.
  intros Hw He Ht. unfold resolve. destruct (arp_table_lookup ip (ARP_TABLE s)) as [mac |] eqn:El; rewrite lookup_map in El.
  { exists (Some mac), s, env. pose proof (map_mac_length _ _ _ Hw El). split_and!; try done. by left. }
  assert (Hh : Forall (heard_wake (packets env)) env).
  { apply Forall_forall. intros w Hx. split; [by apply (proj1 (Forall_forall _ _) He) |].
    intros p Hp. unfold packets. apply list_elem_of_In, in_concat. exists (aw_packets w).
    split; [apply in_map; by apply list_elem_of_In | by apply list_elem_of_In]. }
  assert (Hs0 : resolving ip (ARP_TABLE s) (OUR_MAC s) (packets env) s) by (split; [done | done | auto]).
  destruct (resolve_attempts_spec ip (ARP_TABLE s) (OUR_MAC s) (packets env) 3 env s Hs0 Hh)
    as (r & s' & env' & E & [Hw' Hmac Ho] & Hr); [lia |].
  exists r, s', env'. split_and!; try done. destruct r as [mac |]; [| done].
  pose proof (map_mac_length _ _ _ Hw' Hr). split_and!; try done. by apply Ho.
Qed.

Lemma resolve_attempts_first n ip env s d p mac : wf_table (ARP_TABLE s) -> arp_map (ARP_TABLE s) !! ip = None ->
  0 <= d < 20 -> announces p = Some (ip, mac) -> (size (arp_map (ARP_TABLE s)) < ARP_TABLE_SIZE)%nat ->
  exists s', resolve_attempts (S n) ip (ArpWake d [p] :: env) s = Some (Some mac, s', env).
Proof.
  intros Hw Hnone Hd Ha Hroom. cbn [resolve_attempts]. set (s1 := arp_send_request ip s).
  assert (Ht1 : ARP_TABLE s1 = ARP_TABLE s) by apply send_ethernet_table.
  set (s2 := arp_rx p (link_tick d s1)).
  destruct (arp_rx_spec p (link_tick d s1)) as (_ & Hc2 & Hm2); [cbn; by rewrite Ht1 |]. fold s2 in Hc2, Hm2.
  cbn [link_tick ARP_TABLE CLOCK] in Hc2, Hm2. rewrite Ha, Ht1 in Hm2. unfold learn in Hm2.
  rewrite decide_True in Hm2 by (by right).
  assert (Hl2 : arp_table_lookup ip (ARP_TABLE s2) = Some mac) by (by rewrite lookup_map, Hm2, lookup_insert_eq).
  assert (Hwait : wait (CLOCK s1) 20 (known ip) (ArpWake d [p] :: env) s1 = Some (true, s2, env)).
  { apply wait_first.
    - pose proof (elapsed_start s1) as Hel. cbn [now link_clock] in Hel. lia.
    - unfold known. by rewrite lookup_map, Ht1, Hnone.
    - reflexivity.
    - unfold elapsed. cbn [now link_clock]. rewrite Hc2. unfold u32. rewrite Zminus_mod_idemp_l.
      replace (CLOCK s1 + d - CLOCK s1) with d by lia. rewrite Z.mod_small; lia.
    - unfold known. by rewrite Hl2. }
  exists s2. rewrite Hwait. cbn [mbind option_bind]. by rewrite Hl2.
Qed.

(** [resolve] returns within 60 clock ticks, and the address it finds is
    the one the table maps the IP address to, which it did before the call or an
    ARP packet received during the wait has announced; learning goes by the map
    of at most 16 addresses. A known address is returned at once, and so is the
    one the first packet announces when the table has room. *)
Theorem resolve_correct ip env s :
  wf_table (ARP_TABLE s) -> Forall arp_wake_ok env -> 60 <= ticking env ->
  exists r s' env', resolve ip env s = Some (r, s', env') /\ wf_table (ARP_TABLE s') /\
    match r with
    | Some mac => arp_map (ARP_TABLE s') !! ip = Some mac /\
        (arp_map (ARP_TABLE s) !! ip = Some mac \/ exists p, p ∈ packets env /\ announces p = Some (ip, mac))
    | None => arp_map (ARP_TABLE s) !! ip = None
    end /\
    (forall d p mac rest, env = ArpWake d [p] :: rest -> d < 20 -> announces p = Some (ip, mac) ->
       (size (arp_map (ARP_TABLE s)) < ARP_TABLE_SIZE)%nat -> arp_map (ARP_TABLE s) !! ip = None -> r = Some mac).
Proof.
  intros Hw He Ht. destruct (resolve_spec ip env s Hw He Ht) as (r & s' & env' & E & Hw' & _ & Hr).
  exists r, s', env'. split; [done | split; [done |]]. split.
  { destruct r as [mac |]; [| done]. by destruct Hr as (_ & ? & ?). }
  intros d p mac rest -> Hd Ha Hroom Hnone. apply Forall_cons in He as [[Hd0 _] _]. cbn in Hd0.
  destruct (resolve_attempts_first 2 ip rest s d p mac Hw Hnone (conj Hd0 Hd) Ha Hroom) as (s2 & E2).
  unfold resolve in E. rewrite lookup_map, Hnone in E. congruence.
Qed.
End link_spec.

(** *** Witness: a card that logs the frames it sends *)

#[local] Instance ex_nic : Nic (list (list Z)) :=
  {| get_mac := fun _ => [0x52; 0x54; 0; 0x12; 0x34; 0x56]; nic_send := fun f l => l ++ [f] |}.

Definition ex_gateway_mac : list Z := [0x52; 0x55; 10; 0; 2; 2].
Definition ex_reply : list Z :=
  arp_packet 2 ex_gateway_mac NET_GATEWAY [0x52; 0x54; 0; 0x12; 0x34; 0x56] NET_IP_ADDR.
Definition ex_arp_env : list arp_wake := ArpWake 1 [ex_reply] :: replicate 60 (ArpWake 1 []).

Lemma resolve_correct_witness : exists s' env',
  resolve NET_GATEWAY ex_arp_env (Link (replicate 6 0) arp_init 0 []) = Some (Some ex_gateway_mac, s', env').
Proof.
  assert (Ht : 60 <= ticking ex_arp_env) by (apply Z.leb_le; vm_compute; reflexivity).
  destruct (resolve_correct NET_GATEWAY ex_arp_env (Link (replicate 6 0) arp_init 0 []))
    as (r & s' & env' & E & _ & _ & Hr).
  - split; [reflexivity | vm_compute; constructor | by apply Forall_replicate].
  - unfold ex_arp_env. apply Forall_cons_2; [| apply Forall_replicate]; unfold arp_wake_ok; cbn [aw_ticks]; lia.
  - exact Ht.
  - exists s', env'. rewrite E. repeat f_equal.
    apply (Hr 1 ex_reply _ _ eq_refl); [lia | vm_compute; reflexivity | apply Nat.ltb_lt; vm_compute; reflexivity | vm_compute; reflexivity].
Defined.
