(* ===== verification/Ipv4.v ===== *)
(** IPv4 ([src/src/ipv4.rs]) and the dispatch of Ethernet frames ([rx] of
    [src/src/net.rs]).

    Reception is the function from a packet to what is handed to the transport
    protocol: [rx] of ICMP, TCP or UDP is called with it.  Sending resolves the
    next hop, which may wait: its environment is that of [Arp.resolve]. *)
From S2P Require Import Prelude Waiting NetWire Arp.

(** ** Frames *)

Definition eth_rx (frame : list Z) : option (Z * list Z) :=
  if Z.of_nat (length frame) <? 14 then None else
  let ethertype := ntohs (rd16 12 frame) in
  if (ethertype =? ETH_TYPE_ARP) || (ethertype =? ETH_TYPE_IP) then Some (ethertype, drop 14 frame) else None.

(** ** Packets *)

Definition ip_header (total id proto src dst csum : Z) : list Z :=
  [0x45; 0] ++ le_bytes 2 (htons total) ++ le_bytes 2 (htons id) ++ le_bytes 2 (htons 0x4000) ++ [64; proto] ++
  le_bytes 2 csum ++ le_bytes 4 (htonl src) ++ le_bytes 4 (htonl dst).

(** What [rx] reads: source, destination, protocol and payload of a packet that
    passes its checks up to the checksum. *)
Definition ip_parse (data : list Z) : option (Z * Z * Z * list Z) :=
  let len := Z.of_nat (length data) in
  if len <? 20 then None else
  let b0 := nth 0 data 0 in
  if negb (Z.shiftr b0 4 =? 4) then None else
  let hdr_len := Z.land b0 0x0F * 4 in
  let total_len := ntohs (rd16 2 data) in
  if (len <? total_len) || (total_len <? hdr_len) then None else
  if negb (checksum (take (Z.to_nat hdr_len) data) =? 0) then None else
  Some (ntohl (rd32 12 data), ntohl (rd32 16 data), nth 9 data 0,
        slice (Z.to_nat hdr_len) (Z.to_nat (total_len - hdr_len)) data).

(** [Some (protocol, source, payload)] is the call of that protocol's [rx]. *)
Definition ip_rx (data : list Z) : option (Z * Z * list Z) :=
  '(src, dst, proto, payload) ← ip_parse data;
  if negb (dst =? NET_IP_ADDR) && negb (dst =? 0xFFFFFFFF) then None else
  if (proto =? IP_PROTO_ICMP) || (proto =? IP_PROTO_TCP) || (proto =? IP_PROTO_UDP)
  then Some (proto, src, payload) else None.

Record ip (D : Type) := Ip { IP_ID_COUNTER : Z; lower : link D }.
Arguments Ip {D}.
Arguments IP_ID_COUNTER {D}.
Arguments lower {D}.

Section ipv4.
Context {D : Type} `{Nic D}.
Implicit Types s : ip D.

Definition next_hop (dst_ip : Z) : Z :=
  if Z.land dst_ip NET_SUBNET_MASK =? Z.land NET_IP_ADDR NET_SUBNET_MASK then dst_ip else NET_GATEWAY.

(** [PKT_BUF] before the address is resolved. *)
Definition ip_packet (src_ip id dst_ip proto : Z) (payload : list Z) : list Z :=
  let total := u16 (20 + Z.of_nat (length payload)) in
  let csum := checksum (ip_header total id proto src_ip dst_ip 0) in
  ip_header total id proto src_ip dst_ip csum ++ payload.

Definition send (dst_ip proto : Z) (payload : list Z) (env : list arp_wake) s : option (Z * ip D * list arp_wake) :=
  if 1500 <? Z.of_nat (length payload) + 20 then Some (-1, s, env) else
  let pkt := ip_packet NET_IP_ADDR (IP_ID_COUNTER s) dst_ip proto payload in
  let s := Ip (u16 (IP_ID_COUNTER s + 1)) (lower s) in
  '(mac, l, env) ← resolve (next_hop dst_ip) env (lower s);
  match mac with
  | None => Some (-1, Ip (IP_ID_COUNTER s) l, env)
  | Some mac => Some (0, Ip (IP_ID_COUNTER s) (send_ethernet mac ETH_TYPE_IP pkt l), env)
  end.

(** The layer under the transport protocols: the environment of its waits is
    part of its state; [None] is a send that has not returned. *)
#[export] Instance ipv4_layer : IpLayer (option (ip D * list arp_wake)) := fun dst proto payload n =>
  match n with
  | None => (-1, None)
  | Some (s, env) =>
      match send dst proto payload env s with
      | None => (-1, None)
      | Some (r, s, env) => (r, Some (s, env))
      end
  end.

(** A thread's waits over it: the packets of one element of the environment arrive at
    each wake-up. *)
Definition on_link (f : link D -> link D) (n : option (ip D * list arp_wake)) : option (ip D * list arp_wake) :=
  '(s, env) ← n; Some (Ip (IP_ID_COUNTER s) (f (lower s)), env).
Definition path_wake (d : Z) (n : option (ip D * list arp_wake)) : option (ip D * list arp_wake) :=
  '(s, env) ← n;
  let w := ArpWake d (match env with w :: _ => aw_packets w | [] => [] end) in
  l ← link_wake w (lower s);
  Some (Ip (IP_ID_COUNTER s) l, tail env).

#[export] Instance ipv4_path : IpPath (option (ip D * list arp_wake)) := {|
  ip_known dst n := match n with Some (s, _) => known (next_hop dst) (lower s) | None => false end;
  ip_request dst := on_link (arp_send_request (next_hop dst));
  ip_drop n := '(s, env) ← n; Some (Ip (u16 (IP_ID_COUNTER s + 1)) (lower s), env);
  ip_wake := path_wake |}.

(** To a known next hop a packet goes out at once. *)
Lemma send_known dst proto payload s env :
  ip_known dst (Some (s, env)) = true -> (length payload <= 1480)%nat ->
  exists mac, arp_table_lookup (next_hop dst) (ARP_TABLE (lower s)) = Some mac /\
    ip_send dst proto payload (Some (s, env)) =
      (0, Some (Ip (u16 (IP_ID_COUNTER s + 1))
                  (send_ethernet mac ETH_TYPE_IP (ip_packet NET_IP_ADDR (IP_ID_COUNTER s) dst proto payload) (lower s)), env)).
Proof.
  cbn [ip_known ipv4_path]. unfold known, ip_send, ipv4_layer, send, resolve. intros Hk Hl.
  rewrite (proj2 (Z.ltb_ge _ _)) by lia. cbn [lower IP_ID_COUNTER].
  destruct (arp_table_lookup (next_hop dst) (ARP_TABLE (lower s))) as [mac |]; [| done].
  exists mac. cbn [mbind option_bind]. done.
Qed.

(** ** A packet that is sent reads back *)

Lemma length_ip_header total id proto src dst csum : length (ip_header total id proto src dst csum) = 20%nat.
Proof. reflexivity. Qed.

Lemma ip_header_bytes total id proto src dst csum : is_byte proto -> byte_list (ip_header total id proto src dst csum).
Proof.
  intros Hp. unfold ip_header, byte_list. repeat (apply Forall_app; split); try apply le_bytes_byte_list;
    repeat apply Forall_cons_2; try constructor; unfold is_byte in *; lia.
Qed.

Lemma ip_header_checksum total id proto src dst : is_byte proto ->
  checksum (ip_header total id proto src dst (checksum (ip_header total id proto src dst 0))) = 0.
Proof.
  intros Hp. set (pre := take 10 (ip_header total id proto src dst 0)).
  set (post := le_bytes 4 (htonl src) ++ le_bytes 4 (htonl dst)).
  assert (Hh : forall c, ip_header total id proto src dst c = pre ++ le_bytes 2 c ++ post) by reflexivity.
  rewrite !Hh. change (le_bytes 2 0) with [0; 0]. apply checksum_fill.
  - apply Forall_take, ip_header_bytes, Hp.
  - unfold post. apply byte_list_app. split; apply le_bytes_byte_list.
  - reflexivity.
  - simpl. lia.
Qed.

Definition word16 (v : Z) : Prop := 0 <= v < 65536.
Definition word32 (v : Z) : Prop := 0 <= v < 4294967296.

Lemma ip_packet_parse src id dst proto payload : word32 src -> word32 dst -> is_byte proto -> (length payload <= 1480)%nat ->
  ip_parse (ip_packet src id dst proto payload) = Some (src, dst, proto, payload).
Proof.
  intros Hs Hd Hp Hl. unfold ip_packet. cbv zeta. rewrite u16_small by lia.
  set (total := 20 + Z.of_nat (length payload)). assert (Ht : word16 total) by (unfold word16, total; lia).
  set (csum := checksum _). set (h := ip_header total id proto src dst csum).
  assert (Hlen : Z.of_nat (length (h ++ payload)) = total) by (rewrite length_app; change (length h) with 20%nat; lia).
  unfold ip_parse. cbv zeta. rewrite Hlen. rewrite (proj2 (Z.ltb_ge total 20)) by lia.
  change (nth 0 (h ++ payload) 0) with 0x45. change (nth 9 (h ++ payload) 0) with proto.
  change (negb (Z.shiftr 0x45 4 =? 4)) with false. change (Z.land 0x45 0x0F * 4) with 20. cbv iota.
  change (rd16 2 (h ++ payload)) with (le_val (le_bytes 2 (htons total))).
  change (rd32 12 (h ++ payload)) with (le_val (le_bytes 4 (htonl src))).
  change (rd32 16 (h ++ payload)) with (le_val (le_bytes 4 (htonl dst))).
  rewrite le_val_2, !le_val_4 by (apply htons_range || by apply htonl_range).
  rewrite htons_involutive, !htonl_involutive by done.
  rewrite (proj2 (Z.ltb_ge total total)), (proj2 (Z.ltb_ge total 20)) by lia. cbn [orb].
  change (take (Z.to_nat 20) (h ++ payload)) with h.
  unfold h at 1, csum. rewrite ip_header_checksum by done. cbn [Z.eqb negb].
  replace (Z.to_nat (total - 20)) with (length payload) by lia. do 2 f_equal.
  change (Z.to_nat 20) with (length h). rewrite slice_app_r. apply firstn_all.
Qed.

Lemma eth_frame_parse dst src ty p : length dst = 6%nat -> length src = 6%nat -> word16 ty ->
  ty = ETH_TYPE_ARP \/ ty = ETH_TYPE_IP ->
  eth_rx (dst ++ src ++ le_bytes 2 (htons ty) ++ p) = Some (ty, p).
Proof.
  intros Hd Hs Hw Ht. unfold eth_rx.
  destruct dst as [| a1 [| a2 [| a3 [| a4 [| a5 [| a6 [|]]]]]]]; try done.
  destruct src as [| b1 [| b2 [| b3 [| b4 [| b5 [| b6 [|]]]]]]]; try done.
  cbn [app]. change (rd16 12 _) with (le_val (le_bytes 2 (htons ty))). rewrite le_val_2 by apply htons_range.
  rewrite htons_involutive by done. rewrite (proj2 (Z.ltb_ge _ _)) by (cbn [length]; rewrite length_app, length_le_bytes; lia).
  by destruct Ht as [-> | ->].
Qed.

(** The frame of a packet that is sent. *)
Lemma sent_frame mac l id dst proto payload : length mac = 6%nat -> length (OUR_MAC l) = 6%nat -> word32 dst ->
  is_byte proto -> (length payload <= 1480)%nat ->
  exists frame p, nic (send_ethernet mac ETH_TYPE_IP (ip_packet NET_IP_ADDR id dst proto payload) l) =
      nic_send frame (nic l) /\ take 6 frame = mac /\
    eth_rx frame = Some (ETH_TYPE_IP, p) /\ ip_parse p = Some (NET_IP_ADDR, dst, proto, payload).
Proof.
  intros Hlm Hmac Hd Hp Hl. set (p := ip_packet NET_IP_ADDR id dst proto payload).
  assert (Hlp : Z.of_nat (length p) = 20 + Z.of_nat (length payload)).
  { unfold p, ip_packet. cbv zeta. rewrite length_app, length_ip_header. lia. }
  exists (mac ++ OUR_MAC l ++ le_bytes 2 (htons ETH_TYPE_IP) ++ p), p. split; [| split; [| split]].
  - unfold send_ethernet. by rewrite (proj2 (Z.ltb_ge _ _)) by lia.
  - rewrite <- Hlm. apply take_app_length.
  - apply eth_frame_parse; [done | done | unfold word16, ETH_TYPE_IP; lia | by right].
  - apply ip_packet_parse; [unfold word32, NET_IP_ADDR; lia | done | done | lia].
Qed.

(** [send] returns while the clock runs. It fails exactly for a payload of
    more than 1480 bytes, without an effect, or when the next hop - the
    destination itself inside the subnet, the gateway outside - does not
    resolve. Otherwise it sends one frame, and reading that back as a receiver
    does, frame and then packet with its header checksum, gives this host's
    address, the destination, the protocol and the payload. *)
Theorem ip_send_roundtrip dst proto payload env s :
  word32 dst -> is_byte proto -> wf_table (ARP_TABLE (lower s)) -> length (OUR_MAC (lower s)) = 6%nat ->
  Forall arp_wake_ok env -> 60 <= ticking env ->
  exists r s' env', send dst proto payload env s = Some (r, s', env') /\
    if decide (1480 < Z.of_nat (length payload)) then r = -1 /\ s' = s /\ env' = env else
    exists mac l, resolve (next_hop dst) env (lower s) = Some (mac, l, env') /\
      IP_ID_COUNTER s' = u16 (IP_ID_COUNTER s + 1) /\
      match mac with
      | None => r = -1 /\ lower s' = l
      | Some mac => r = 0 /\
          exists frame p, nic (lower s') = nic_send frame (nic l) /\ take 6 frame = mac /\
            eth_rx frame = Some (ETH_TYPE_IP, p) /\ ip_parse p = Some (NET_IP_ADDR, dst, proto, payload)
      end.
Proof.
  intros Hd Hp Hw Hm He Ht. unfold send. case_decide as Hl.
  { rewrite (proj2 (Z.ltb_lt _ _)) by lia. by exists (-1), s, env. }
  rewrite (proj2 (Z.ltb_ge _ _)) by lia. cbn [lower IP_ID_COUNTER].
  destruct (resolve_spec (next_hop dst) env (lower s) Hw He Ht) as (mac & l & env' & E & _ & Hmac & Hr).
  rewrite E. cbn [mbind option_bind]. destruct mac as [mac |].
  - destruct Hr as [Hlm _]. eexists 0, _, env'. split; [reflexivity |]. exists (Some mac), l.
    split; [done | split; [done | split; [done |]]]. cbn [lower].
    apply sent_frame; [done | by rewrite Hmac | done | done | lia].
  - eexists (-1), _, env'. split; [reflexivity |]. by exists None, l.
Qed.
End ipv4.

(** *** Witness *)

#[local] Instance ex_nic : Nic (list (list Z)) :=
  {| get_mac := fun _ => [0x52; 0x54; 0; 0x12; 0x34; 0x56]; nic_send := fun f l => l ++ [f] |}.

Definition ex_ip : ip (list (list Z)) :=
  Ip 7 (Link [0x52; 0x54; 0; 0x12; 0x34; 0x56]
          (arp_table_update NET_GATEWAY [0x52; 0x55; 10; 0; 2; 2] arp_init) 0 []).

Lemma ex_ip_table : wf_table (ARP_TABLE (lower ex_ip)).
Proof. apply arp_table_update_spec; [| reflexivity]. split; [reflexivity | vm_compute; constructor | by apply Forall_replicate]. Qed.

(** A datagram to 8.8.8.8 goes to the gateway and reads back. *)
Lemma ip_send_roundtrip_witness : exists s' env' frame p,
  send 0x08080808 IP_PROTO_UDP [1; 2; 3] (replicate 60 (ArpWake 1 [])) ex_ip = Some (0, s', env') /\
  nic (lower s') = [frame] /\ take 6 frame = [0x52; 0x55; 10; 0; 2; 2] /\
  eth_rx frame = Some (ETH_TYPE_IP, p) /\ ip_parse p = Some (NET_IP_ADDR, 0x08080808, 17, [1; 2; 3]).
Proof.
  destruct (ip_send_roundtrip 0x08080808 IP_PROTO_UDP [1; 2; 3] (replicate 60 (ArpWake 1 [])) ex_ip)
    as (r & s' & env' & E & Hr).
  - unfold word32. lia.
  - unfold is_byte, IP_PROTO_UDP. lia.
  - apply ex_ip_table.
  - reflexivity.
  - apply Forall_replicate. unfold arp_wake_ok. cbn [aw_ticks]. lia.
  - apply Z.leb_le. vm_compute. reflexivity.
  - rewrite decide_False in Hr by (cbn [length]; lia). destruct Hr as (mac & l & Er & _ & Hm).
    assert (Hres : resolve (next_hop 0x08080808) (replicate 60 (ArpWake 1 [])) (lower ex_ip) =
      Some (Some [0x52; 0x55; 10; 0; 2; 2], lower ex_ip, replicate 60 (ArpWake 1 []))) by (vm_compute; reflexivity).
    rewrite Hres in Er. injection Er as <- <- <-. destruct Hm as (-> & frame & p & Hn & Hf & He & Hp).
    exists s', (replicate 60 (ArpWake 1 [])), frame, p. split; [exact E |]. split; [exact Hn |]. split; [exact Hf |].
    split; [exact He | exact Hp].
Defined.
