(* ===== verification/Udp.v ===== *)
(** UDP ([src/src/udp.rs]) and ICMP echo ([src/src/icmp.rs]) over the interface
    [IpLayer].

    A UDP handler is a value of the type [Hd]; [rx] returns the call it makes.
    Overflow of the send buffer is [None]. *)
From S2P Require Import Prelude NetWire.

(** ** UDP *)

Module Udp.
Definition UDP_MAX_BINDS : nat := 16.

(** The table, [BIND_COUNT] of whose entries are in use; [net] is the layer
    below. *)
Record udp (Hd N : Type) := Mk { BIND_TABLE : list (Z * option Hd); BIND_COUNT : nat; net : N }.
Arguments Mk {Hd N}.
Arguments BIND_TABLE {Hd N}.
Arguments BIND_COUNT {Hd N}.
Arguments net {Hd N}.

Section udp.
Context {Hd N : Type} `{IpLayer N}.
Implicit Types s : udp Hd N.

(** [for i in 0..BIND_COUNT]: the first entry of [port]. *)
Definition find_port (port : Z) s : option (nat * (Z * option Hd)) :=
  list_find (fun e => e.1 = port) (take (BIND_COUNT s) (BIND_TABLE s)).

Definition bind (port : Z) (handler : Hd) s : Z * udp Hd N :=
  match find_port port s with
  | Some (i, _) => (1, Mk (<[i := (port, Some handler)]> (BIND_TABLE s)) (BIND_COUNT s) (net s))
  | None =>
      if (UDP_MAX_BINDS <=? BIND_COUNT s)%nat then (0, s) else
      (1, Mk (<[BIND_COUNT s := (port, Some handler)]> (BIND_TABLE s)) (S (BIND_COUNT s)) (net s))
  end.

(** The first entry of the port that has a handler. *)
Definition handler_of (port : Z) s : option Hd :=
  '(_, e) ← list_find (fun e => e.1 = port /\ is_Some e.2) (take (BIND_COUNT s) (BIND_TABLE s));
  e.2.

(** [Some (handler, src_ip, src_port, payload)] is the call made. *)
Definition rx (src_ip : Z) (data : list Z) s : option (Hd * Z * Z * list Z) :=
  let len := Z.of_nat (length data) in
  if len <? 8 then None else
  let dst_port := ntohs (rd16 2 data) in
  let udp_len := ntohs (rd16 4 data) in
  if (udp_len <? 8) || (len <? udp_len) then None else
  h ← handler_of dst_port s;
  Some (h, src_ip, ntohs (rd16 0 data), slice 8 (Z.to_nat (udp_len - 8)) data).

Definition udp_header (src_port dst_port udp_len : Z) : list Z :=
  le_bytes 2 (htons src_port) ++ le_bytes 2 (htons dst_port) ++ le_bytes 2 (htons udp_len) ++ [0; 0].

(** [data] is the [length] bytes at the pointer. *)
Definition send (dst_ip src_port dst_port : Z) (data : list Z) s : option (Z * udp Hd N) :=
  let len := Z.of_nat (length data) in
  let udp_len := u16 (8 + len) in
  if 1480 <? udp_len then Some (-1, s) else
  if 1500 <? 8 + len then None else
  let '(r, n) := ip_send dst_ip IP_PROTO_UDP (udp_header src_port dst_port udp_len ++ data) (net s) in
  Some (r, Mk (BIND_TABLE s) (BIND_COUNT s) n).

(** A datagram reads back as it was sent. *)
Lemma datagram_roundtrip src_ip src_port dst_port data s h :
  0 <= src_port < 65536 -> 0 <= dst_port < 65536 -> (length data <= 1472)%nat -> handler_of dst_port s = Some h ->
  rx src_ip (udp_header src_port dst_port (8 + Z.of_nat (length data)) ++ data) s = Some (h, src_ip, src_port, data).
Proof.
  intros Hs Hdp Hl Hh. unfold rx. cbv zeta. set (n := 8 + Z.of_nat (length data)).
  set (p := udp_header src_port dst_port n ++ data).
  assert (Hlen : Z.of_nat (length p) = n) by (unfold p, n; rewrite length_app; change (length (udp_header _ _ _)) with 8%nat; lia).
  change (rd16 0 p) with (le_val (le_bytes 2 (htons src_port))).
  change (rd16 2 p) with (le_val (le_bytes 2 (htons dst_port))).
  change (rd16 4 p) with (le_val (le_bytes 2 (htons n))).
  rewrite !le_val_2 by apply htons_range. rewrite !htons_involutive by (done || (unfold n; lia)).
  rewrite Hlen, (proj2 (Z.ltb_ge n 8)), (proj2 (Z.ltb_ge n n)), Hh by lia. cbn [orb mbind option_bind].
  do 2 f_equal. replace (Z.to_nat (n - 8)) with (length data) by lia.
  unfold p. change 8%nat with (length (udp_header src_port dst_port n)). rewrite slice_app_r. apply firstn_all.
Qed.
End udp.
End Udp.

(** ** ICMP echo *)

Module Icmp.
Definition ICMP_ECHO_REPLY : Z := 0.
Definition ICMP_ECHO_REQUEST : Z := 8.

Record icmp (N : Type) := Mk {
  REPLY_RECEIVED : Z; REPLY_ID : Z; REPLY_SEQ : Z; REPLY_SRC_IP : Z; net : N }.
Arguments Mk {N}.
Arguments REPLY_RECEIVED {N}.
Arguments REPLY_ID {N}.
Arguments REPLY_SEQ {N}.
Arguments REPLY_SRC_IP {N}.
Arguments net {N}.

Definition icmp_header (type_ code csum identifier sequence : Z) : list Z :=
  [type_; code] ++ le_bytes 2 csum ++ le_bytes 2 (htons identifier) ++ le_bytes 2 (htons sequence).

Section icmp.
Context {N : Type} `{IpLayer N}.
Implicit Types s : icmp N.

Definition set_net (n : N) s : icmp N := Mk (REPLY_RECEIVED s) (REPLY_ID s) (REPLY_SEQ s) (REPLY_SRC_IP s) n.

(** The reply: the same message with type 0 and a new checksum. *)
Definition echo_reply (data : list Z) : list Z :=
  let buf := splice 2 [0; 0] (<[0%nat := ICMP_ECHO_REPLY]> data) in
  splice 2 (le_bytes 2 (checksum buf)) buf.

Definition rx (src_ip : Z) (data : list Z) s : icmp N :=
  if Z.of_nat (length data) <? 8 then s else
  if negb (checksum data =? 0) then s else
  let type_ := nth 0 data 0 in
  let code := nth 1 data 0 in
  if (type_ =? ICMP_ECHO_REQUEST) && (code =? 0) then
    if 1500 <? Z.of_nat (length data) then s else
    set_net (ip_send src_ip IP_PROTO_ICMP (echo_reply data) (net s)).2 s
  else if (type_ =? ICMP_ECHO_REPLY) && (code =? 0) then
    Mk 1 (ntohs (rd16 4 data)) (ntohs (rd16 6 data)) src_ip (net s)
  else s.

Definition send_echo_request (dst_ip id seq : Z) s : Z * icmp N :=
  let csum := checksum (icmp_header ICMP_ECHO_REQUEST 0 0 id seq) in
  let '(r, n) := ip_send dst_ip IP_PROTO_ICMP (icmp_header ICMP_ECHO_REQUEST 0 csum id seq) (net s) in
  (r, set_net n s).

(** The out-parameters are written only when a reply is pending. *)
Definition got_reply s : Z * option (Z * Z * Z) * icmp N :=
  let got := REPLY_RECEIVED s in
  if negb (got =? 0) then
    (got, Some (REPLY_ID s, REPLY_SEQ s, REPLY_SRC_IP s), Mk 0 (REPLY_ID s) (REPLY_SEQ s) (REPLY_SRC_IP s) (net s))
  else (got, None, s).

(** A reply to an echo request carries its identifier, sequence number and data
    and verifies. *)
Lemma echo_reply_spec data : byte_list data -> (8 <= length data)%nat -> Z.of_nat (length data) <= 65535 ->
  checksum (echo_reply data) = 0 /\ nth 0 (echo_reply data) 0 = ICMP_ECHO_REPLY /\
  nth 1 (echo_reply data) 0 = nth 1 data 0 /\ drop 4 (echo_reply data) = drop 4 data.
Proof.
  intros Hb Hl Hn. destruct data as [| t [| c [| k0 [| k1 rest]]]]; try (simpl in Hl; lia).
  assert (E : forall x, splice 2 (le_bytes 2 x) (ICMP_ECHO_REPLY :: c :: 0 :: 0 :: rest) = [ICMP_ECHO_REPLY; c] ++ le_bytes 2 x ++ rest).
  { intros x. exact (splice_app [ICMP_ECHO_REPLY; c] [0; 0] rest (le_bytes 2 x) eq_refl). }
  assert (E0 : splice 2 [0; 0] (<[0%nat := ICMP_ECHO_REPLY]> (t :: c :: k0 :: k1 :: rest)) = ICMP_ECHO_REPLY :: c :: 0 :: 0 :: rest).
  { exact (splice_app [ICMP_ECHO_REPLY; c] [k0; k1] rest [0; 0] eq_refl). }
  unfold echo_reply. rewrite E0, E. split; [| done].
  unfold byte_list in Hb. rewrite !Forall_cons in Hb. destruct Hb as (_ & Hc & _ & _ & Hr). cbn [length] in Hn.
  apply (checksum_fill [ICMP_ECHO_REPLY; c] rest); [| done | done | cbn [length]; lia].
  unfold byte_list, ICMP_ECHO_REPLY. by repeat apply Forall_cons_2.
Qed.
End icmp.
End Icmp.
