(* ===== verification/Dns.v ===== *)
(** DNS stub resolver ([src/src/dns.rs]): names in label format, the parser of
    responses, and the blocking [resolve].

    A response is an arbitrary byte list: a read at an offset is [zget], and
    [None] is a read outside the packet.  The layer below is [udp_send]. *)
From S2P Require Import Prelude Waiting NetWire.

Definition DNS_SERVER : Z := 0x0A000203.
Definition DNS_PORT : Z := 53.
Definition DNS_LOCAL : Z := 1024.
Definition DNS_MAX_RESP : Z := 512.
Definition DNS_TYPE_A : Z := 1.
Definition DNS_CLASS_IN : Z := 1.

(** ** Names *)

(** Up to the next dot or the end. *)
Fixpoint label (name : list Z) : list Z * list Z :=
  match name with
  | [] => ([], [])
  | c :: rest => if c =? 46 then ([], name) else let '(l, r) := label rest in (c :: l, r)
  end.

(** [Some None] is the result 0; the name is given without its terminator. *)
Fixpoint encode_loop (fuel : nat) (name dst : list Z) : option (option (list Z)) :=
  match fuel with
  | O => None
  | S fuel =>
      match name with
      | [] => Some (Some (dst ++ [0]))
      | _ =>
          let '(l, rest) := label name in
          let len := u8 (Z.of_nat (length l)) in
          if (len =? 0) || (63 <? len) then Some None else
          encode_loop fuel (match rest with 46 :: rest => rest | _ => rest end) (dst ++ [len] ++ l)
      end
  end.
Definition dns_encode_name (name : list Z) : option (option (list Z)) := encode_loop (S (length name)) name [].

(** ** Responses *)

Fixpoint skip_loop (fuel : nat) (pkt : list Z) (start off : Z) (jumped : bool) (count hops : Z) : option Z :=
  match fuel with
  | O => None
  | S fuel =>
      let pkt_len := Z.of_nat (length pkt) in
      if off <? pkt_len then
        b ← zget pkt off;
        if b =? 0 then Some (if negb jumped then off - start + 1 else count) else
        if Z.land b 0xC0 =? 0xC0 then
          let hops := hops + 1 in
          if 64 <? hops then Some (-1) else
          let count := if negb jumped then off - start + 2 else count in
          if pkt_len <=? off + 1 then Some (-1) else
          b1 ← zget pkt (off + 1);
          skip_loop fuel pkt start (Z.lor (Z.shiftl (Z.land b 0x3F) 8) b1) true count hops
        else skip_loop fuel pkt start (i32 (off + (1 + b))) jumped count hops
      else Some (-1)
  end.

Definition skip_fuel (pkt : list Z) : nat := 66 * S (length pkt).
Definition dns_skip_name (pkt : list Z) (offset : Z) : option Z :=
  skip_loop (skip_fuel pkt) pkt offset offset false 0 0.

(** The inner option is the early return of [dns_rx]. *)
Fixpoint skip_questions (n : nat) (data : list Z) (offset : Z) : option (option Z) :=
  match n with
  | O => Some (Some offset)
  | S n =>
      skip ← dns_skip_name data offset;
      if skip <? 0 then Some None else
      let offset := i32 (i32 (offset + skip) + 4) in
      if Z.of_nat (length data) <? offset then Some None else skip_questions n data offset
  end.

Definition be16 (data : list Z) (offset : Z) : option Z :=
  a ← zget data offset; b ← zget data (offset + 1); Some (Z.lor (Z.shiftl a 8) b).

Definition be32 (data : list Z) (offset : Z) : option Z :=
  a ← zget data offset; b ← zget data (offset + 1); c ← zget data (offset + 2); d ← zget data (offset + 3);
  Some (Z.lor (Z.lor (Z.lor (Z.shiftl a 24) (Z.shiftl b 16)) (Z.shiftl c 8)) d).

(** The first A record. *)
Fixpoint find_answer (n : nat) (data : list Z) (offset : Z) : option (option Z) :=
  match n with
  | O => Some None
  | S n =>
      let len := Z.of_nat (length data) in
      skip ← dns_skip_name data offset;
      if skip <? 0 then Some None else
      let offset := i32 (offset + skip) in
      if len <? offset + 10 then Some None else
      rtype ← be16 data offset;
      rclass ← be16 data (offset + 2);
      rdlength ← be16 data (offset + 8);
      let offset := i32 (offset + 10) in
      if len <? offset + rdlength then Some None else
      if (rtype =? DNS_TYPE_A) && (rclass =? DNS_CLASS_IN) && (rdlength =? 4) then
        ip ← be32 data offset; Some (Some ip)
      else find_answer n data (i32 (offset + rdlength))
  end.

(** [read_unaligned] of a field of the header, converted: both bytes are read in the
    packet. *)
Definition field16 (data : list Z) (offset : Z) : option Z :=
  a ← zget data offset; b ← zget data (offset + 1); Some (ntohs (le_val [a; b])).

Record dns (N : Type) := Dns {
  DNS_REPLY_READY : Z; DNS_REPLY_IP : Z; DNS_REPLY_ID : Z; DNS_QUERY_ID : Z; CLOCK : Z; net : N }.
Arguments Dns {N}.
Arguments DNS_REPLY_READY {N}.
Arguments DNS_REPLY_IP {N}.
Arguments DNS_REPLY_ID {N}.
Arguments DNS_QUERY_ID {N}.
Arguments CLOCK {N}.
Arguments net {N}.

Record dns_wake := DnsWake { dw_ticks : Z; dw_datagrams : list (list Z) }.

Section dns.
Context {N : Type}.
(** [udp::send] of a datagram from [DNS_LOCAL] to [DNS_SERVER]:[DNS_PORT]; the
    result is ignored. *)
Variable udp_send : list Z -> N -> N.
Implicit Types s : dns N.

Definition dns_rx (data : list Z) s : option (dns N) :=
  if Z.of_nat (length data) <? 12 then Some s else
  id ← field16 data 0;
  flags ← field16 data 2;
  qdcount ← field16 data 4;
  ancount ← field16 data 6;
  if Z.land flags 0x8000 =? 0 then Some s else
  if negb (id =? DNS_QUERY_ID s) then Some s else
  q ← skip_questions (Z.to_nat qdcount) data 12;
  match q with
  | None => Some s
  | Some offset =>
      a ← find_answer (Z.to_nat ancount) data offset;
      match a with
      | None => Some s
      | Some ip => Some (Dns 1 ip id (DNS_QUERY_ID s) (CLOCK s) (net s))
      end
  end.

(** [init], less the binding of [dns_rx] to [DNS_LOCAL]. *)
Definition init s : dns N := Dns 0 (DNS_REPLY_IP s) (DNS_REPLY_ID s) 0 (CLOCK s) (net s).

Fixpoint rx_all (l : list (list Z)) s : option (dns N) :=
  match l with
  | [] => Some s
  | d :: l => s ← dns_rx d s; rx_all l s
  end.

#[export] Instance dns_clock : Clock (dns N) dns_wake := {|
  now := CLOCK;
  wake_from w s := rx_all (dw_datagrams w)
    (Dns (DNS_REPLY_READY s) (DNS_REPLY_IP s) (DNS_REPLY_ID s) (DNS_QUERY_ID s) (u32 (CLOCK s + dw_ticks w)) (net s));
  wake_ticks := dw_ticks |}.

Definition query (id : Z) (name : list Z) : list Z :=
  le_bytes 2 (htons id) ++ le_bytes 2 (htons 0x0100) ++ le_bytes 2 (htons 1) ++ replicate 6 0 ++
  name ++ [0; DNS_TYPE_A; 0; DNS_CLASS_IN].

Definition ready s : bool := negb (DNS_REPLY_READY s =? 0) && (DNS_REPLY_ID s =? DNS_QUERY_ID s).

(** [Some ip] is the result 1 with [ip_out], [None] the result 0. *)
Definition resolve (hostname : list Z) (env : list dns_wake) s : option (option Z * dns N * list dns_wake) :=
  if 253 <? Z.of_nat (length hostname) then Some (None, s, env) else
  let s := Dns 0 (DNS_REPLY_IP s) (DNS_REPLY_ID s) (u16 (DNS_QUERY_ID s + 1)) (CLOCK s) (net s) in
  name ← dns_encode_name hostname;
  match name with
  | None => Some (None, s, env)
  | Some name =>
      let s := Dns (DNS_REPLY_READY s) (DNS_REPLY_IP s) (DNS_REPLY_ID s) (DNS_QUERY_ID s) (CLOCK s)
                 (udp_send (query (DNS_QUERY_ID s) name) (net s)) in
      '(r, s, env) ← wait (CLOCK s) 200 ready env s;
      if r : bool then
        Some (Some (DNS_REPLY_IP s),
              Dns 0 (DNS_REPLY_IP s) (DNS_REPLY_ID s) (DNS_QUERY_ID s) (CLOCK s) (net s), env)
      else Some (None, s, env)
  end.
End dns.

(** ** Parsing an arbitrary response *)

Definition packet_ok (data : list Z) : Prop := byte_list data /\ Z.of_nat (length data) <= 65535.

Lemma zget_byte data i : byte_list data -> 0 <= i < Z.of_nat (length data) -> exists b, zget data i = Some b /\ is_byte b.
Proof.
  intros Hb Hi. destruct (zget_Some data i Hi) as [b E]. exists b. split; [done |].
  unfold zget in E. case_if_in E; [done |]. by apply (Forall_lookup_1 _ _ _ _ Hb E).
Qed.

Lemma pointer_range b b1 : is_byte b -> is_byte b1 -> 0 <= Z.lor (Z.shiftl (Z.land b 0x3F) 8) b1 < 65536.
Proof.
  intros Hb Hb1. unfold is_byte in *. rewrite Z.lor_comm, lor_add_shift by lia.
  change 0x3F with (Z.ones 6). rewrite Z.land_ones by lia. mod_lia.
Qed.

(** The loop over a name ends, reads inside the packet only, and consumes at
    most what is left of it. *)
Lemma skip_loop_spec pkt start : packet_ok pkt -> 0 <= start -> forall fuel off jumped count hops,
  0 <= off < 66000 -> 0 <= hops <= 64 ->
  (jumped = false -> start <= off) -> (jumped = true -> 0 <= count <= Z.of_nat (length pkt) - start) ->
  (64 - hops) * (Z.of_nat (length pkt) + 1) + Z.max 0 (Z.of_nat (length pkt) - off) < Z.of_nat fuel ->
  exists r, skip_loop fuel pkt start off jumped count hops = Some r /\
    (r = -1 \/ 0 <= r <= Z.of_nat (length pkt) - start).
Proof.
  intros [Hb Hlen] Hst. set (L := Z.of_nat (length pkt)) in *.
  induction fuel as [| fuel IH]; intros off jumped count hops Ho Hh Hj Hc Hf; [nia |].
  cbn [skip_loop]. cbv zeta. fold L. destruct (Z.ltb_spec off L) as [Hlt |]; [| exists (-1); auto].
  destruct (zget_byte pkt off Hb) as (b & -> & Hbb); [lia |]. cbn [mbind option_bind].
  destruct (b =? 0).
  { eexists. split; [done |]. right. destruct jumped; cbn [negb]; [by apply Hc | specialize (Hj eq_refl); lia]. }
  destruct (Z.land b 0xC0 =? 0xC0).
  - destruct (Z.ltb_spec 64 (hops + 1)); [exists (-1); auto |].
    destruct (Z.leb_spec L (off + 1)); [exists (-1); auto |].
    destruct (zget_byte pkt (off + 1) Hb) as (b1 & -> & Hbb1); [lia |]. cbn [mbind option_bind].
    pose proof (pointer_range b b1 Hbb Hbb1) as Hp. apply IH; [lia | lia | done | |].
    + intros _. destruct jumped; cbn [negb]; [by apply Hc | specialize (Hj eq_refl); lia].
    + set (off' := Z.lor _ _) in *. assert (Hk : (64 - (hops + 1)) * (L + 1) = (64 - hops) * (L + 1) - (L + 1)) by ring. lia.
  - unfold is_byte in Hbb. rewrite i32_small by lia.
    apply IH; [lia | lia | intros E; specialize (Hj E); lia | done | lia].
Qed.

Lemma dns_skip_name_spec pkt offset : packet_ok pkt -> 0 <= offset <= Z.of_nat (length pkt) ->
  exists r, dns_skip_name pkt offset = Some r /\ (r = -1 \/ 0 <= r <= Z.of_nat (length pkt) - offset).
Proof.
  intros Hp Ho. unfold dns_skip_name. apply skip_loop_spec; try done; try lia.
  - destruct Hp. lia.
  - unfold skip_fuel. lia.
Qed.

Lemma skip_questions_spec n data : packet_ok data -> forall offset, 0 <= offset <= Z.of_nat (length data) ->
  exists q, skip_questions n data offset = Some q /\
    match q with Some o => 0 <= o <= Z.of_nat (length data) | None => True end.
Proof.
  intros Hp. assert (Hl := proj2 Hp). induction n as [| n IH]; intros offset Ho; [by exists (Some offset) |].
  cbn [skip_questions]. cbv zeta. destruct (dns_skip_name_spec data offset Hp Ho) as (r & -> & Hr). cbn [mbind option_bind].
  destruct (Z.ltb_spec r 0); [by exists None |]. rewrite !i32_small by (rewrite ?i32_small; lia).
  destruct (Z.ltb_spec (Z.of_nat (length data)) (offset + r + 4)); [by exists None |]. apply IH. lia.
Qed.

Lemma be16_spec data o : packet_ok data -> 0 <= o -> o + 2 <= Z.of_nat (length data) ->
  exists v, be16 data o = Some v /\ 0 <= v < 65536.
Proof.
  intros [Hb Hl] H0 Ho. unfold be16.
  destruct (zget_byte data o Hb) as (a & -> & Ha); [lia |]. destruct (zget_byte data (o + 1) Hb) as (b & -> & Hbb); [lia |].
  cbn [mbind option_bind]. eexists. split; [done |]. unfold is_byte in *.
  rewrite Z.lor_comm, lor_add_shift by lia. lia.
Qed.

Lemma be32_spec data o : packet_ok data -> 0 <= o -> o + 4 <= Z.of_nat (length data) -> is_Some (be32 data o).
Proof.
  intros [Hb Hl] H0 Ho. unfold be32.
  destruct (zget_byte data o Hb) as (? & -> & _); [lia |]. destruct (zget_byte data (o + 1) Hb) as (? & -> & _); [lia |].
  destruct (zget_byte data (o + 2) Hb) as (? & -> & _); [lia |]. destruct (zget_byte data (o + 3) Hb) as (? & -> & _); [lia |].
  by eexists.
Qed.

(** An answer is four bytes of the packet. *)
Definition answer_in (data : list Z) (ip : Z) : Prop :=
  exists o, 0 <= o /\ o + 4 <= Z.of_nat (length data) /\ be32 data o = Some ip.

Lemma find_answer_spec n data : packet_ok data -> forall offset, 0 <= offset <= Z.of_nat (length data) ->
  exists a, find_answer n data offset = Some a /\ match a with Some ip => answer_in data ip | None => True end.
Proof.
  intros Hp. assert (Hl := proj2 Hp). induction n as [| n IH]; intros offset Ho; [by exists None |].
  cbn [find_answer]. cbv zeta. destruct (dns_skip_name_spec data offset Hp Ho) as (r & -> & Hr). cbn [mbind option_bind].
  destruct (Z.ltb_spec r 0); [by exists None |]. rewrite (i32_small (offset + r)) by lia.
  destruct (Z.ltb_spec (Z.of_nat (length data)) (offset + r + 10)) as [| Hin]; [by exists None |].
  destruct (be16_spec data (offset + r) Hp) as (rt & -> & _); [lia | lia |].
  destruct (be16_spec data (offset + r + 2) Hp) as (rc & -> & _); [lia | lia |].
  destruct (be16_spec data (offset + r + 8) Hp) as (rd & -> & Hrd); [lia | lia |]. cbn [mbind option_bind].
  rewrite (i32_small (offset + r + 10)) by lia.
  destruct (Z.ltb_spec (Z.of_nat (length data)) (offset + r + 10 + rd)) as [| Hin2]; [by exists None |].
  destruct ((rt =? DNS_TYPE_A) && (rc =? DNS_CLASS_IN) && (rd =? 4)) eqn:E.
  - breflect. destruct (be32_spec data (offset + r + 10) Hp) as (ip & Eip); [lia | lia |].
    exists (Some ip). rewrite Eip. split; [done |]. exists (offset + r + 10). split_and!; lia || done.
  - rewrite i32_small by lia. apply IH. lia.
Qed.

Lemma field16_spec data o : 0 <= o -> o + 2 <= Z.of_nat (length data) ->
  field16 data o = Some (ntohs (rd16 (Z.to_nat o) data)).
Proof.
  intros H0 Ho. unfold field16. destruct (zget_Some data o) as [a Ea]; [lia |].
  destruct (zget_Some data (o + 1)) as [b Eb]; [lia |]. rewrite Ea, Eb. cbn [mbind option_bind].
  unfold zget in Ea, Eb. rewrite (proj2 (Z.ltb_ge o 0)) in Ea by lia. rewrite (proj2 (Z.ltb_ge (o + 1) 0)) in Eb by lia.
  replace (Z.to_nat (o + 1)) with (S (Z.to_nat o)) in Eb by lia.
  unfold rd16, slice. do 3 f_equal. symmetry.
  by rewrite (drop_S data a (Z.to_nat o)), (drop_S data b (S (Z.to_nat o))).
Qed.

(** C22: whatever bytes a datagram to the resolver holds, parsing it ends and
    never reads outside it: circular compression pointers, labels and record
    lengths that point beyond its end, and wrong counts are rejected. The
    state changes only for a response (QR set) to the query that is
    outstanding, and then to four bytes of the datagram. *)
Theorem dns_rx_safe {N} data (s : dns N) :
  packet_ok data ->
  exists s', dns_rx data s = Some s' /\
    (s' = s \/ exists ip, ntohs (rd16 0 data) = DNS_QUERY_ID s /\ Z.land (ntohs (rd16 2 data)) 0x8000 <> 0 /\
       answer_in data ip /\ s' = Dns 1 ip (DNS_QUERY_ID s) (DNS_QUERY_ID s) (CLOCK s) (net s)).
Proof.
  intros Hp. unfold dns_rx. destruct (Z.ltb_spec (Z.of_nat (length data)) 12); [exists s; auto |].
  rewrite !field16_spec by lia. cbn [mbind option_bind]. change (Z.to_nat 0) with 0%nat. change (Z.to_nat 2) with 2%nat.
  change (Z.to_nat 4) with 4%nat. change (Z.to_nat 6) with 6%nat.
  destruct (Z.eqb_spec (Z.land (ntohs (rd16 2 data)) 0x8000) 0); [exists s; auto |].
  destruct (Z.eqb_spec (ntohs (rd16 0 data)) (DNS_QUERY_ID s)) as [Eid |]; cbn [negb]; [| exists s; auto].
  destruct (skip_questions_spec (Z.to_nat (ntohs (rd16 4 data))) data Hp 12) as (q & -> & Hq); [lia |].
  cbn [mbind option_bind]. destruct q as [o |]; [| exists s; auto].
  destruct (find_answer_spec (Z.to_nat (ntohs (rd16 6 data))) data Hp o Hq) as (a & -> & Ha). cbn [mbind option_bind].
  destruct a as [ip |]; [| exists s; auto]. eexists. split; [done |]. right. exists ip. by rewrite Eid.
Qed.

(** A response whose only name is a pointer to itself is rejected; one with an
    answer is taken. *)
Definition ex_response (name : list Z) (ip : list Z) : list Z :=
  [0; 5; 0x81; 0x80; 0; 0; 0; 1; 0; 0; 0; 0] ++ name ++ [0; 1; 0; 1; 0; 0; 0; 60; 0; 4] ++ ip.

Lemma dns_rx_safe_witness : let s := Dns 0 0 0 5 0 tt in
  (exists s', dns_rx (ex_response [0xC0; 12] [1; 2; 3; 4]) s = Some s' /\ DNS_REPLY_READY s' = 0) /\
  (exists s', dns_rx (ex_response [1; 97; 0] [1; 2; 3; 4]) s = Some s' /\ DNS_REPLY_IP s' = 0x01020304).
Proof.
  cbv zeta. assert (Hok : forall nm, byte_list nm -> (length nm <= 3)%nat -> packet_ok (ex_response nm [1; 2; 3; 4])).
  { intros nm Hb Hl. split; [| unfold ex_response; rewrite !length_app; cbn [length]; lia].
    unfold ex_response, byte_list in *. repeat (apply Forall_app; split); try exact Hb;
      repeat apply Forall_cons_2; try constructor; unfold is_byte; lia. }
  split.
  - destruct (dns_rx_safe (ex_response [0xC0; 12] [1; 2; 3; 4]) (Dns 0 0 0 5 0 tt)) as (s' & E & _).
    + apply Hok; [| cbn; lia]. unfold byte_list. repeat apply Forall_cons_2; try constructor; unfold is_byte; lia.
    + exists s'. split; [exact E |]. vm_compute in E. injection E as <-. reflexivity.
  - destruct (dns_rx_safe (ex_response [1; 97; 0] [1; 2; 3; 4]) (Dns 0 0 0 5 0 tt)) as (s' & E & _).
    + apply Hok; [| cbn; lia]. unfold byte_list. repeat apply Forall_cons_2; try constructor; unfold is_byte; lia.
    + exists s'. split; [exact E |]. vm_compute in E. injection E as <-. reflexivity.
Defined.
