(* ===== verification/Net.v ===== *)
(** The network stack put together ([src/src/net.rs]): frames from the card are
    dispatched to ARP, ICMP, TCP and UDP, which share the layers below; and the
    formatting of addresses. *)
From S2P Require Import Prelude Waiting NetWire Arp Ipv4 Tcp Udp.

(** ** Formatting *)

Definition octet_str (octet : Z) : list Z :=
  if 100 <=? octet then [48 + octet / 100; 48 + octet / 10 mod 10; 48 + octet mod 10]
  else if 10 <=? octet then [48 + octet / 10; 48 + octet mod 10]
  else [48 + octet].

(** [for i in (0..n).rev()]; the bytes written before the final NUL. *)
Fixpoint ip_to_str_loop (n : nat) (ip : Z) : list Z :=
  match n with
  | O => []
  | S i =>
      octet_str (Z.land (Z.shiftr ip (Z.of_nat i * 8)) 0xFF) ++ (if (0 <? i)%nat then [46] else []) ++ ip_to_str_loop i ip
  end.
Definition ip_to_str (ip : Z) : list Z := ip_to_str_loop 4 ip ++ [0].

Definition get_ip : Z := NET_IP_ADDR.
Definition get_gateway : Z := NET_GATEWAY.
Definition get_subnet : Z := NET_SUBNET_MASK.
(** The configuration is constant: these do nothing. *)
Definition set_ip {A} (ip : Z) (s : A) : A := s.
Definition set_gateway {A} (gw : Z) (s : A) : A := s.

(** ** The stack *)

Section stack.
Context {D Hd : Type} `{Nic D}.

(** The layers below the transport protocols: [None] is a send that waits for
    ever. *)
Definition lower_state : Type := option (ip D * list arp_wake).

Record stack := Stack {
  st_tcp : tcp unit; st_udp : Udp.udp Hd unit; st_icmp : Icmp.icmp unit; st_low : lower_state }.

(** A transport protocol on top of the shared layers. *)
Definition tcp_on {A B} (n : B) (t : tcp A) : tcp B :=
  Tcp (CONNS t) (NEXT_LOCAL_PORT t) (SEG_BUF t) (TICKS t) n.
Definition icmp_on {A B} (n : B) (i : Icmp.icmp A) : Icmp.icmp B :=
  Icmp.Mk (Icmp.REPLY_RECEIVED i) (Icmp.REPLY_ID i) (Icmp.REPLY_SEQ i) (Icmp.REPLY_SRC_IP i) n.

(** [ipv4::rx]: the call of the protocol; for UDP the handler's call is
    returned. *)
Definition ipv4_rx (data : list Z) (st : stack) : option (stack * option (Hd * Z * Z * list Z)) :=
  match ip_rx data with
  | None => Some (st, None)
  | Some (proto, src, payload) =>
      if proto =? IP_PROTO_ICMP then
        let i := Icmp.rx src payload (icmp_on (st_low st) (st_icmp st)) in
        Some (Stack (st_tcp st) (st_udp st) (icmp_on tt i) (Icmp.net i), None)
      else if proto =? IP_PROTO_TCP then
        t ← rx src payload (tcp_on (st_low st) (st_tcp st));
        Some (Stack (tcp_on tt t) (st_udp st) (st_icmp st) (net t), None)
      else Some (st, Udp.rx src payload (st_udp st))
  end.

Definition arp_frame (data : list Z) (n : lower_state) : lower_state :=
  match n with
  | None => None
  | Some (s, env) => Some (Ip (IP_ID_COUNTER s) (arp_rx data (lower s)), env)
  end.

Definition net_rx (frame : list Z) (st : stack) : option (stack * option (Hd * Z * Z * list Z)) :=
  match eth_rx frame with
  | None => Some (st, None)
  | Some (ethertype, payload) =>
      if ethertype =? ETH_TYPE_ARP
      then Some (Stack (st_tcp st) (st_udp st) (st_icmp st) (arp_frame payload (st_low st)), None)
      else ipv4_rx payload st
  end.

(** ** Answering a ping *)

Lemma resolve_known hop env (l : link D) mac : arp_map (ARP_TABLE l) !! hop = Some mac ->
  resolve hop env l = Some (Some mac, l, env).
Proof. intros E. unfold resolve. by rewrite lookup_map, E. Qed.

(** An echo request for this host. *)
Definition echo_request (frame : list Z) (src : Z) (msg : list Z) : Prop :=
  exists p, eth_rx frame = Some (ETH_TYPE_IP, p) /\ ip_parse p = Some (src, NET_IP_ADDR, IP_PROTO_ICMP, msg) /\
    byte_list msg /\ (8 <= length msg <= 1480)%nat /\ checksum msg = 0 /\
    nth 0 msg 0 = Icmp.ICMP_ECHO_REQUEST /\ nth 1 msg 0 = 0.

(** C23: a ping is answered through all layers: a frame with a valid echo request
    of at most 1480 bytes, from a host whose next hop is in the ARP table, makes
    the stack send exactly one frame, to that hop's hardware address, which
    reads back as an IP packet to the sender holding an echo reply that
    verifies and carries the request's identifier, sequence number and data;
    TCP, UDP and the pending-reply state do not change. *)
Theorem ping_answered frame src msg s env st mac :
  echo_request frame src msg -> word32 src -> st_low st = Some (s, env) ->
  arp_map (ARP_TABLE (lower s)) !! next_hop src = Some mac -> wf_table (ARP_TABLE (lower s)) ->
  length (OUR_MAC (lower s)) = 6%nat ->
  exists s' out p reply, net_rx frame st = Some (Stack (st_tcp st) (st_udp st) (st_icmp st) (Some (s', env)), None) /\
    nic (lower s') = nic_send out (nic (lower s)) /\ take 6 out = mac /\
    eth_rx out = Some (ETH_TYPE_IP, p) /\ ip_parse p = Some (NET_IP_ADDR, src, IP_PROTO_ICMP, reply) /\
    checksum reply = 0 /\ nth 0 reply 0 = Icmp.ICMP_ECHO_REPLY /\ nth 1 reply 0 = 0 /\ drop 4 reply = drop 4 msg.
Proof.
  intros (p & He & Hp & Hb & Hl & Hc & Ht & Hcode) Hs Hlow Hmac Hw Hm.
  destruct (Icmp.echo_reply_spec msg Hb) as (R1 & R2 & R3 & R4); [lia | lia |].
  set (reply := Icmp.echo_reply msg) in *.
  assert (Hlr : (length reply <= 1480)%nat).
  { assert (El : length (drop 4 reply) = length (drop 4 msg)) by (by rewrite R4). rewrite !length_drop in El. lia. }
  destruct (sent_frame mac (lower s) (IP_ID_COUNTER s) src IP_PROTO_ICMP reply) as (out & q & Hn & Hto & Heq & Hq);
    [by apply (map_mac_length (ARP_TABLE (lower s)) (next_hop src)) | done | done | unfold is_byte, IP_PROTO_ICMP; lia | done |].
  exists (Ip (u16 (IP_ID_COUNTER s + 1))
    (send_ethernet mac ETH_TYPE_IP (ip_packet NET_IP_ADDR (IP_ID_COUNTER s) src IP_PROTO_ICMP reply) (lower s))), out, q, reply.
  split; [| split; [exact Hn | by rewrite R3]].
  unfold net_rx. rewrite He. change (ETH_TYPE_IP =? ETH_TYPE_ARP) with false. cbv iota.
  unfold ipv4_rx, ip_rx. rewrite Hp. cbn [mbind option_bind]. rewrite Z.eqb_refl. cbn [negb andb].
  change ((IP_PROTO_ICMP =? IP_PROTO_ICMP) || _ || _) with true. cbv iota.
  change (IP_PROTO_ICMP =? IP_PROTO_ICMP) with true. cbv iota zeta.
  assert (Hrx : Icmp.rx src msg (icmp_on (st_low st) (st_icmp st)) =
    Icmp.set_net (ip_send src IP_PROTO_ICMP reply (st_low st)).2 (icmp_on (st_low st) (st_icmp st))).
  { unfold Icmp.rx. rewrite Hc, Ht, Hcode, (proj2 (Z.ltb_ge _ 8)), (proj2 (Z.ltb_ge 1500 _)) by lia. done. }
  assert (Hsend : ip_send src IP_PROTO_ICMP reply (st_low st) =
    (0, Some (Ip (u16 (IP_ID_COUNTER s + 1))
      (send_ethernet mac ETH_TYPE_IP (ip_packet NET_IP_ADDR (IP_ID_COUNTER s) src IP_PROTO_ICMP reply) (lower s)), env))).
  { rewrite Hlow. unfold ip_send, ipv4_layer, Ipv4.send. rewrite (proj2 (Z.ltb_ge 1500 _)) by lia. cbn [lower IP_ID_COUNTER].
    by rewrite (resolve_known _ env _ mac Hmac). }
  rewrite Hrx, Hsend. destruct st as [t u [? ? ? ? []] low]. reflexivity.
Qed.
End stack.

(** *** Witness: the gateway pings with two bytes of data *)

#[local] Instance ex_nic : Nic (list (list Z)) :=
  {| get_mac := fun _ => [0x52; 0x54; 0; 0x12; 0x34; 0x56]; nic_send := fun f l => l ++ [f] |}.

Definition ex_ping_msg : list Z :=
  let m c := Icmp.icmp_header Icmp.ICMP_ECHO_REQUEST 0 c 1 2 ++ [104; 105] in m (checksum (m 0)).
Definition ex_ping : list Z :=
  replicate 6 1 ++ replicate 6 2 ++ le_bytes 2 (htons ETH_TYPE_IP) ++
  ip_packet NET_GATEWAY 9 NET_IP_ADDR IP_PROTO_ICMP ex_ping_msg.
Definition ex_stack : @stack (list (list Z)) unit :=
  Stack (Tcp [] 0 [] 0 tt) (Udp.Mk [] 0 tt) (Icmp.Mk 0 0 0 0 tt)
    (Some (Ip 7 (Link (replicate 6 1) (arp_table_update NET_GATEWAY (replicate 6 2) arp_init) 0 []), [])).

Lemma ping_answered_witness : exists st' out p reply,
  net_rx ex_ping ex_stack = Some (st', None) /\ (fst <$> st_low st') ≫= (fun s => Some (nic (lower s))) = Some [out] /\
  eth_rx out = Some (ETH_TYPE_IP, p) /\ ip_parse p = Some (NET_IP_ADDR, NET_GATEWAY, IP_PROTO_ICMP, reply) /\
  drop 4 reply = [0; 1; 0; 2; 104; 105].
Proof.
  assert (Hreq : echo_request ex_ping NET_GATEWAY ex_ping_msg).
  { exists (ip_packet NET_GATEWAY 9 NET_IP_ADDR IP_PROTO_ICMP ex_ping_msg).
    split; [vm_compute; reflexivity |]. split; [vm_compute; reflexivity |].
    split; [apply (bool_decide_unpack _); vm_compute; exact I |].
    split; [split; apply Nat.leb_le; vm_compute; reflexivity |]. split; [vm_compute; reflexivity |].
    split; [reflexivity | reflexivity]. }
  destruct (ping_answered ex_ping NET_GATEWAY ex_ping_msg
    (Ip 7 (Link (replicate 6 1) (arp_table_update NET_GATEWAY (replicate 6 2) arp_init) 0 [])) [] ex_stack (replicate 6 2) Hreq)
    as (s' & out & p & reply & E & Hn & _ & Ho & Hp & _ & _ & _ & Hd).
  - unfold word32, NET_GATEWAY. lia.
  - reflexivity.
  - vm_compute. reflexivity.
  - apply arp_table_update_spec; [| reflexivity]. split; [reflexivity | vm_compute; constructor | by apply Forall_replicate].
  - reflexivity.
  - do 4 eexists. split; [exact E |]. split; [cbn [st_low fmap option_fmap option_map fst mbind option_bind]; rewrite Hn; reflexivity |].
    split; [exact Ho |]. split; [exact Hp |]. rewrite Hd. vm_compute. reflexivity.
Defined.
