(* ===== verification/BumpHeap.v ===== *)
(** A small instance of the heap's interface, for examples: areas are cut from a
    range in order, and an area that is freed is forgotten. *)
From S2P Require Import Prelude Heap.

Record bump := Bump { brk : Z; limit : Z; areas : list (Z * Z) }.

Definition bump_malloc (n : Z) (h : bump) : option (Z * bump) :=
  if limit h <? brk h + n + HEADER_SIZE then Some (0, h)
  else Some (brk h, Bump (brk h + n + HEADER_SIZE) (limit h) ((brk h, n) :: areas h)).

Fixpoint remove_area (p : Z) (l : list (Z * Z)) : option (list (Z * Z)) :=
  match l with
  | [] => None
  | a :: l => if a.1 =? p then Some l else l' ← remove_area p l; Some (a :: l')
  end.

Definition bump_free (p : Z) (h : bump) : option bump :=
  l ← remove_area p (areas h); Some (Bump (brk h) (limit h) l).

Definition bump_rep (h : bump) (live : list (Z * Z)) : Prop :=
  live = areas h /\ 0 < brk h /\ ForallOrdPairs apart live /\
  Forall (fun a => 0 <= a.2 /\ a.1 + a.2 + HEADER_SIZE <= brk h) live.

Lemma bump_malloc_law size h live :
  bump_rep h live -> 0 < size <= 0xFFFFFFF8 ->
  exists p h', bump_malloc size h = Some (p, h') /\
    ((p = 0 /\ bump_rep h' live) \/
     (p <> 0 /\ exists s live', size <= s /\ bump_rep h' live' /\
        Permutation live' ((p, s) :: live) /\ ForallOrdPairs apart live')).
Proof.
  intros (-> & Hb & Ha & Hl) Hs. unfold bump_malloc. case_if; [exists 0, h; split; [done | by left] |].
  eexists _, _. split; [done |]. right. split; [lia |]. exists size, ((brk h, size) :: areas h).
  assert (Hap : ForallOrdPairs apart ((brk h, size) :: areas h)).
  { constructor; [| done]. apply List.Forall_forall. intros a Hin%list_elem_of_In. rewrite Forall_forall in Hl.
    specialize (Hl a Hin). unfold apart. cbn. lia. }
  split; [lia |]. split; [| by split]. cbn. split; [done |]. unfold HEADER_SIZE in *. split; [cbn; lia |]. split; [done |].
  constructor; [cbn; lia |]. eapply Forall_impl; [done |]. cbn. intros a ?. lia.
Qed.

Lemma remove_area_spec p s l : ForallOrdPairs apart l -> Forall (fun a => 0 <= a.2) l -> (p, s) ∈ l ->
  exists l', remove_area p l = Some l' /\ Permutation l ((p, s) :: l') /\ sublist l' l /\ ForallOrdPairs apart l'.
Proof.
  intros Ha. induction Ha as [| a l Hal Ha IH]; intros Hp Hin; [set_solver |]. apply Forall_cons in Hp as [Hp0 Hp].
  cbn [remove_area]. apply elem_of_cons in Hin as [<- | Hin].
  - cbn. rewrite Z.eqb_refl. exists l. split_and!; [done | done | by apply sublist_cons | done].
  - assert (Hne : (a.1 =? p) = false).
    { apply Z.eqb_neq. intros E. rewrite List.Forall_forall in Hal. specialize (Hal (p, s)).
      rewrite <- list_elem_of_In in Hal. specialize (Hal Hin). rewrite Forall_forall in Hp. specialize (Hp _ Hin).
      unfold apart, HEADER_SIZE in Hal. cbn in *. lia. }
    rewrite Hne. destruct (IH Hp Hin) as (l' & -> & HP & Hsub & Ha'). cbn [mbind option_bind].
    exists (a :: l'). split_and!; [done | rewrite HP; constructor | by apply sublist_skip |].
    constructor; [| done]. apply List.Forall_forall. intros x Hx%list_elem_of_In. rewrite List.Forall_forall in Hal.
    apply Hal, list_elem_of_In. rewrite HP. by right.
Qed.

Lemma bump_free_law p s h live : bump_rep h live -> (p, s) ∈ live ->
  exists h' live', bump_free p h = Some h' /\ bump_rep h' live' /\ Permutation live ((p, s) :: live').
Proof.
  intros (-> & Hb & Ha & Hl) Hin. unfold bump_free.
  destruct (remove_area_spec p s (areas h) Ha) as (l' & -> & HP & Hsub & Ha'); [| done |].
  { eapply Forall_impl; [done |]. by intros a [? _]. }
  cbn [mbind option_bind]. eexists _, l'. split; [done |]. split; [| done]. split_and!; try done.
  cbn [brk]. rewrite HP in Hl. by apply Forall_cons in Hl as [_ ?].
Qed.

#[export] Instance bump_heap : KernelHeap bump := {
  kh_malloc := bump_malloc; kh_free := bump_free; kh_rep := bump_rep;
  kh_malloc_law := bump_malloc_law; kh_free_law := bump_free_law }.

(** An empty heap of one MiB. *)
Definition empty_heap : bump := Bump 0x500000 0x600000 [].
Lemma empty_heap_rep : bump_rep empty_heap [].
Proof. by split_and!; [| | constructor | constructor]. Qed.
