(* ===== verification/VfsNode.v ===== *)
(** The data of the virtual file system ([src/src/vfs.rs]): nodes, descriptors
    and the records of its back ends, and the operations on single nodes.

    The objects the file systems allocate from the kernel heap are the typed
    store [store]: a pointer is a node, the header of a RAM file or a byte
    buffer.  Reading an address that holds no such object, or bytes past the end
    of a buffer, is [None]; a null pointer is 0.  A function pointer is the name
    of the function it points to. *)
From Stdlib Require Import String.
From S2P Require Import Prelude StringRs Heap.

Definition VFS_FILE : Z := 0x01.
Definition VFS_DIRECTORY : Z := 0x02.
Definition VFS_DEVICE : Z := 0x04.
Definition VFS_MAX_CHILDREN : Z := 128.
Definition VFS_NAME_LEN : nat := 64.
Definition MAX_OPEN_FILES : nat := 32.
Definition INITRD_MAX_FILES : nat := 64.
Definition INITRD_NAME_LEN : nat := 64.
Definition FAT16_VFS_MAX_FILES : nat := 64.

(** The size of a [VfsNode] and of a [RamfsFileData] in memory ([repr(C)]). *)
Definition SIZEOF_NODE : Z := 1160.
Definition SIZEOF_RAM : Z := 16.

Inductive ReadFn := RamfsRead | InitrdRead | NullRead | ZeroRead | ConsoleRead | Fat16Read.
Inductive WriteFn := RamfsWrite | NullWrite | ZeroWrite | ConsoleWrite | Fat16Write.
Inductive DirFn := DefaultDir | RamfsDir | DevfsDir | Fat16Dir.

(** [private_data]: null, a [RamfsFileData], or an entry of the table of initrd files. *)
Inductive private := PNull | PRam (p : Z) | PInitrd (i : nat).

Record VfsNode := Node {
  name : list Z; flags : Z; n_size : Z; inode : Z;
  read_fn : option ReadFn; write_fn : option WriteFn; readdir_fn : option DirFn; finddir_fn : option DirFn;
  private_data : private; children : list Z; parent : Z }.

Record RamfsFileData := RamData { data : Z; size : Z; capacity : Z }.

Inductive obj := ONode (v : VfsNode) | ORam (d : RamfsFileData) | OBuf (l : list Z).

Record FdEntry := Fd { node : Z; offset : Z; in_use : bool }.
Definition EMPTY_FD : FdEntry := Fd 0 0 false.

Record InitrdFile := InitrdEntry { i_name : list Z; i_size : Z; i_data : Z }.
Definition EMPTY_FILE : InitrdFile := InitrdEntry (replicate INITRD_NAME_LEN 0) 0 0.

(** The state: the heap, the devices, the objects, and the statics of [vfs.rs],
    [ramfs.rs], [initrd.rs] (with the memory its module is loaded in) and
    [fat16_vfs.rs]. *)
Record vfs (H X : Type) := Vfs {
  hp : H; ext : X; store : gmap Z obj;
  VFS_ROOT : Z; FD_TABLE : list FdEntry;
  RAMFS_ROOT : Z;
  FILES : list InitrdFile; FILE_COUNT : Z; module_mem : mem;
  DISK_DIR : Z; FILE_NODES : list Z; NODE_COUNT : Z }.
Arguments Vfs {H X}.
Arguments hp {H X}.
Arguments ext {H X}.
Arguments store {H X}.
Arguments VFS_ROOT {H X}.
Arguments FD_TABLE {H X}.
Arguments RAMFS_ROOT {H X}.
Arguments FILES {H X}.
Arguments FILE_COUNT {H X}.
Arguments module_mem {H X}.
Arguments DISK_DIR {H X}.
Arguments FILE_NODES {H X}.
Arguments NODE_COUNT {H X}.

(** The devices below: the console ([keyboard::getchar], [vga::putchar]) and
    the FAT16 volume ([fat16::read_file], [write_file], [get_file_count],
    [get_file_name] and [get_file_size]). *)
Class Console (X : Type) := { getchar : X -> option (Z * X); putchar : Z -> X -> X }.
Class FatDisk (X : Type) := {
  fat_read_file : list Z -> Z -> X -> option (Z * list Z * X);
  fat_write_file : list Z -> list Z -> X -> option (Z * X);
  fat_file_count : X -> Z * X;
  fat_file_name : Z -> Z -> X -> option (list Z) * X;
  fat_file_size : Z -> X -> Z * X }.

Section state.
Context {H X : Type} `{KernelHeap H} `{Console X}.
Implicit Types s : vfs H X.

Definition set_hp (h : H) s : vfs H X :=
  Vfs h (ext s) (store s) (VFS_ROOT s) (FD_TABLE s) (RAMFS_ROOT s) (FILES s) (FILE_COUNT s) (module_mem s)
    (DISK_DIR s) (FILE_NODES s) (NODE_COUNT s).
Definition set_ext (x : X) s : vfs H X :=
  Vfs (hp s) x (store s) (VFS_ROOT s) (FD_TABLE s) (RAMFS_ROOT s) (FILES s) (FILE_COUNT s) (module_mem s)
    (DISK_DIR s) (FILE_NODES s) (NODE_COUNT s).
Definition set_store (m : gmap Z obj) s : vfs H X :=
  Vfs (hp s) (ext s) m (VFS_ROOT s) (FD_TABLE s) (RAMFS_ROOT s) (FILES s) (FILE_COUNT s) (module_mem s)
    (DISK_DIR s) (FILE_NODES s) (NODE_COUNT s).
Definition set_roots (r rr : Z) s : vfs H X :=
  Vfs (hp s) (ext s) (store s) r (FD_TABLE s) rr (FILES s) (FILE_COUNT s) (module_mem s)
    (DISK_DIR s) (FILE_NODES s) (NODE_COUNT s).
Definition set_fds (t : list FdEntry) s : vfs H X :=
  Vfs (hp s) (ext s) (store s) (VFS_ROOT s) t (RAMFS_ROOT s) (FILES s) (FILE_COUNT s) (module_mem s)
    (DISK_DIR s) (FILE_NODES s) (NODE_COUNT s).
Definition set_files (f : list InitrdFile) (n : Z) s : vfs H X :=
  Vfs (hp s) (ext s) (store s) (VFS_ROOT s) (FD_TABLE s) (RAMFS_ROOT s) f n (module_mem s)
    (DISK_DIR s) (FILE_NODES s) (NODE_COUNT s).
Definition set_disk (d : Z) (f : list Z) (n : Z) s : vfs H X :=
  Vfs (hp s) (ext s) (store s) (VFS_ROOT s) (FD_TABLE s) (RAMFS_ROOT s) (FILES s) (FILE_COUNT s) (module_mem s) d f n.

Definition puts (t : list Z) s : vfs H X := set_ext (fold_left (fun x c => putchar c x) t (ext s)) s.

(** ** Objects *)

Definition node_in (m : gmap Z obj) (p : Z) : option VfsNode :=
  match m !! p with Some (ONode v) => Some v | _ => None end.
Definition node_at (p : Z) s : option VfsNode := node_in (store s) p.
Definition ram_at (p : Z) s : option RamfsFileData :=
  match store s !! p with Some (ORam d) => Some d | _ => None end.
Definition buf_at (p : Z) s : option (list Z) :=
  match store s !! p with Some (OBuf l) => Some l | _ => None end.
Definition put (p : Z) (o : obj) s : vfs H X := set_store (<[p := o]> (store s)) s.

(** [heap::kmalloc] and what is stored in the new area; a null result stores nothing. *)
Definition alloc (n : Z) (o : obj) s : option (Z * vfs H X) :=
  '(p, h) ← kh_malloc n (hp s);
  if p =? 0 then Some (0, set_hp h s) else Some (p, put p o (set_hp h s)).

Definition release (p : Z) s : option (vfs H X) :=
  h ← kh_free p (hp s); Some (set_store (delete p (store s)) (set_hp h s)).

(** [memcpy] out of and into a buffer. *)
Definition buf_read (p : Z) (off n : Z) s : option (list Z) :=
  l ← buf_at p s;
  if Z.of_nat (List.length l) <? off + n then None else Some (slice (Z.to_nat off) (Z.to_nat n) l).
Definition buf_write (p : Z) (off : Z) (new : list Z) s : option (vfs H X) :=
  l ← buf_at p s;
  if Z.of_nat (List.length l) <? off + Z.of_nat (List.length new) then None
  else Some (put p (OBuf (splice (Z.to_nat off) new l)) s).

(** The first [min(strlen, 63)] bytes of a name. *)
Definition copy_name (nm : list Z) : list Z := take 63 nm.

Definition is_dir (v : VfsNode) : bool := negb (Z.land (flags v) VFS_DIRECTORY =? 0).

Definition set_size (n : Z) (v : VfsNode) : VfsNode :=
  Node (name v) (flags v) n (inode v) (read_fn v) (write_fn v) (readdir_fn v) (finddir_fn v) (private_data v)
    (children v) (parent v).
Definition set_private (d : private) (v : VfsNode) : VfsNode :=
  Node (name v) (flags v) (n_size v) (inode v) (read_fn v) (write_fn v) (readdir_fn v) (finddir_fn v) d
    (children v) (parent v).
Definition set_children (cs : list Z) (v : VfsNode) : VfsNode :=
  Node (name v) (flags v) (n_size v) (inode v) (read_fn v) (write_fn v) (readdir_fn v) (finddir_fn v)
    (private_data v) cs (parent v).
Definition set_parent (p : Z) (v : VfsNode) : VfsNode :=
  Node (name v) (flags v) (n_size v) (inode v) (read_fn v) (write_fn v) (readdir_fn v) (finddir_fn v)
    (private_data v) (children v) p.
Definition set_name (nm : list Z) (v : VfsNode) : VfsNode :=
  Node nm (flags v) (n_size v) (inode v) (read_fn v) (write_fn v) (readdir_fn v) (finddir_fn v) (private_data v)
    (children v) (parent v).

(** ** Directories *)

(** The loop over the children of the [finddir] functions: 0 is not found. *)
Fixpoint find_child (m : gmap Z obj) (nm : list Z) (cs : list Z) : option Z :=
  match cs with
  | [] => Some 0
  | c :: cs => v ← node_in m c; if strcmp_list (name v) nm =? 0 then Some c else find_child m nm cs
  end.

Definition child_at (v : VfsNode) (index : Z) : Z :=
  if Z.of_nat (List.length (children v)) <=? index then 0 else nth (Z.to_nat index) (children v) 0.

Definition default_readdir (dir index : Z) s : option Z :=
  v ← node_at dir s; if negb (is_dir v) then Some 0 else Some (child_at v index).

Definition default_finddir (dir : Z) (nm : list Z) s : option Z :=
  v ← node_at dir s; if negb (is_dir v) then Some 0 else find_child (store s) nm (children v).

Definition add_child (parent child : Z) s : option (Z * vfs H X) :=
  if (parent =? 0) || (child =? 0) then Some (-1, s) else
  v ← node_at parent s;
  if negb (is_dir v) then Some (-1, s) else
  if VFS_MAX_CHILDREN <=? Z.of_nat (List.length (children v)) then Some (-1, s) else
  let s := put parent (ONode (set_children (children v ++ [child]) v)) s in
  w ← node_at child s;
  Some (0, put child (ONode (set_parent parent w)) s).

Definition dir_node (nm : list Z) (fn : DirFn) : VfsNode :=
  Node (copy_name nm) VFS_DIRECTORY 0 0 None None (Some fn) (Some fn) PNull [] 0.

Definition make_dir (nm : list Z) s : option (Z * vfs H X) := alloc SIZEOF_NODE (ONode (dir_node nm DefaultDir)) s.
End state.
