(* ===== verification/Ramfs.v ===== *)
(** The file operations of the RAM file system ([src/src/ramfs.rs]); the
    operations on its directories are in [Vfs].

    A file is a [RamfsFileData] whose buffer grows by doubling.  A write returns
    the bytes taken or -1, a read the bytes it puts in the caller's buffer. *)
From S2P Require Import Prelude StringRs Heap VfsNode.

(** [while new_cap < needed { new_cap *= 2 }] on a [u32]: 26 rounds of fuel are
    enough up to 2^31 from the initial 256. *)
Fixpoint grow (fuel : nat) (new_cap needed : Z) : option Z :=
  match fuel with
  | O => None
  | S fuel => if new_cap <? needed then grow fuel (u32 (new_cap * 2)) needed else Some new_cap
  end.

Definition grow_fuel : nat := 33.

Section ramfs.
Context {H X : Type} `{KernelHeap H}.
Implicit Types s : vfs H X.

Definition ramfs_read (node offset size : Z) s : option (Z * list Z) :=
  if node =? 0 then Some (-1, []) else
  v ← node_at node s;
  match private_data v with
  | PNull => Some (-1, [])
  | PInitrd _ => None
  | PRam r =>
      fd ← ram_at r s;
      if VfsNode.size fd <=? offset then Some (0, []) else
      let sz := if 0xFFFFFFFF - offset <? size then VfsNode.size fd - offset else size in
      let sz := if VfsNode.size fd <? u32 (offset + sz) then VfsNode.size fd - offset else sz in
      b ← buf_read (data fd) offset sz s;
      Some (i32 sz, b)
  end.

(** The block that grows the buffer: [false] is [return -1]. *)
Definition ramfs_grow (r : Z) (fd : RamfsFileData) (needed : Z) s : option (bool * vfs H X) :=
  let new_cap := if capacity fd <? 256 then 256 else capacity fd in
  new_cap ← grow grow_fuel new_cap needed;
  '(new_buf, s) ← alloc new_cap (OBuf (replicate (Z.to_nat new_cap) 0)) s;
  if new_buf =? 0 then Some (false, s) else
  s ← (if data fd =? 0 then Some s else
       old ← buf_read (data fd) 0 (size fd) s;
       s ← buf_write new_buf 0 old s;
       release (data fd) s);
  Some (true, put r (ORam (RamData new_buf (size fd) new_cap)) s).

Definition ramfs_write (node offset : Z) (buffer : list Z) s : option (Z * vfs H X) :=
  let size := Z.of_nat (length buffer) in
  if node =? 0 then Some (-1, s) else
  v ← node_at node s;
  match private_data v with
  | PNull => Some (-1, s)
  | PInitrd _ => None
  | PRam r =>
      fd ← ram_at r s;
      if 0xFFFFFFFF - offset <? size then Some (-1, s) else
      let needed := offset + size in
      '(ok, s) ← (if capacity fd <? needed then ramfs_grow r fd needed s else Some (true, s));
      if negb ok then Some (-1, s) else
      fd ← ram_at r s;
      s ← buf_write (data fd) offset buffer s;
      let new_size := if VfsNode.size fd <? needed then needed else VfsNode.size fd in
      let s := put r (ORam (RamData (data fd) new_size (capacity fd))) s in
      v ← node_at node s;
      Some (i32 size, put node (ONode (set_size new_size v)) s)
  end.

Definition ramfs_readdir (dir index : Z) s : option Z :=
  v ← node_at dir s; if negb (is_dir v) then Some 0 else Some (child_at v index).

Definition ramfs_finddir (dir : Z) (nm : list Z) s : option Z :=
  v ← node_at dir s; if negb (is_dir v) then Some 0 else find_child (store s) nm (children v).
End ramfs.

(** ** The growth of a buffer *)

Lemma grow_ge fuel c needed c' : grow fuel c needed = Some c' -> needed <= c'.
Proof.
  revert c; induction fuel as [| fuel IH]; intros c; simpl; [done |].
  case_if; [apply IH |]. intros [= <-]. breflect. lia.
Qed.

(** No further than the first capacity that is enough. *)
Lemma grow_le fuel c needed c' : grow fuel c needed = Some c' -> 0 <= c -> c' <= Z.max c (2 * needed).
Proof.
  revert c. induction fuel as [| fuel IH]; intros c; cbn [grow]; [done |].
  destruct (Z.ltb_spec c needed); intros E Hc; [| injection E; lia].
  apply IH in E; unfold u32 in *; [| apply Z.mod_pos_bound; lia].
  pose proof (Z.mod_le (c * 2) 4294967296). lia.
Qed.

(** From at least 2^(31-n), [n + 1] rounds reach any size up to 2^31. *)
Lemma grow_terminates n c needed :
  2 ^ 31 <= c * 2 ^ Z.of_nat n -> 0 < c < 2 ^ 32 -> c mod 256 = 0 -> needed <= 2 ^ 31 ->
  exists c', grow (S n) c needed = Some c' /\ needed <= c' < 2 ^ 32 /\ c <= c' /\ c' mod 256 = 0.
Proof.
  revert c. induction n as [| n IH]; intros c Hc H0 Hm Hs; cbn [grow].
  - rewrite (proj2 (Z.ltb_ge _ _)) by (simpl in Hc; lia). exists c. simpl in Hc. repeat split; lia.
  - destruct (Z.ltb_spec c needed); [| exists c; repeat split; lia].
    rewrite Nat2Z.inj_succ, Z.pow_succ_r in Hc by lia.
    unfold u32. rewrite Z.mod_small by lia.
    destruct (IH (c * 2)) as (c' & E & ? & ? & ?); [lia | lia | mod_lia | lia |].
    exists c'. repeat split; [exact E | lia..].
Qed.

(** Beyond 2^31 the capacity, doubled, wraps to 0 and stays there. *)
Lemma grow_zero fuel needed : 0 < needed -> grow fuel 0 needed = None.
Proof.
  intros Hn. induction fuel as [| fuel IH]; [done |]. cbn [grow].
  by rewrite (proj2 (Z.ltb_lt _ _)).
Qed.

Lemma grow_diverges fuel n needed :
  (n <= 31)%nat -> 2 ^ 31 < needed -> grow fuel (2 ^ Z.of_nat n) needed = None.
Proof.
  intros Hn Hs. revert n Hn. induction fuel as [| fuel IH]; intros n Hn; [done |]. cbn [grow].
  rewrite (proj2 (Z.ltb_lt _ _)) by (pose proof (Z.pow_le_mono_r 2 (Z.of_nat n) 31); lia).
  destruct (decide (n = 31%nat)) as [-> | Hne].
  - change (u32 _) with 0. apply grow_zero. lia.
  - rewrite <- (IH (S n)) by lia. f_equal. rewrite Nat2Z.inj_succ, Z.pow_succ_r by lia.
    unfold u32. rewrite Z.mod_small; [lia |].
    pose proof (Z.pow_le_mono_r 2 (Z.of_nat n) 30). lia.
Qed.
