(* ===== verification/Initrd.v ===== *)
(** The initial RAM disk: the image the build tool writes ([src/tools/mkinitrd.rs])
    and the table the kernel builds from the loaded module, with its nodes
    ([src/src/initrd.rs]).

    The module is read in place, at its address in the memory [module_mem]; the
    kernel never checks it against the module's end. *)
From Stdlib Require Import String Ascii.
From S2P Require Import Prelude StringRs Heap VfsNode.

(** ** The image *)

(** One file of the image, and the image: a base name and the bytes of a file for
    each argument. *)
Definition NAME_LEN : nat := 64.
Definition pad_name (basename : list Z) : list Z :=
  let n := Nat.min (List.length basename) (NAME_LEN - 1) in
  splice 0 (take n basename) (replicate NAME_LEN 0).
Definition image_file (f : list Z * list Z) : list Z :=
  pad_name f.1 ++ le_bytes 4 (Z.of_nat (List.length f.2)) ++ f.2.
Definition mkinitrd (files : list (list Z * list Z)) : list Z :=
  le_bytes 4 (Z.of_nat (List.length files)) ++ concat (image_file <$> files).

(** ** Multiboot information ([src/src/multiboot.rs]) *)

Definition MULTIBOOT_FLAG_MODS : Z := Z.shiftl 1 3.
Record ModEntry := Mod { mod_start : Z; mod_end : Z; cmdline : Z; padding : Z }.
(** The fields [initrd::init] reads; [mods] is the entry at [mods_addr]. *)
Record MultibootInfo := Mb { mb_flags : Z; mods_count : Z; mods : ModEntry }.

(** ** The table *)

(** [n] bytes at [p]. *)
Definition mem_bytes (m : mem) (p : Z) (n : nat) : list Z := map (fun i => m (p + Z.of_nat i)) (seq 0 n).

(** The loop over the files: what is stored in [FILES[i]], [FILES[i + 1]], ... *)
Fixpoint read_files (n : nat) (m : mem) (ptr : Z) : list InitrdFile :=
  match n with
  | O => []
  | S n =>
      let name := take (INITRD_NAME_LEN - 1) (mem_bytes m ptr INITRD_NAME_LEN) ++ [0] in
      let ptr := ptr + Z.of_nat INITRD_NAME_LEN in
      let size := le_val (mem_bytes m ptr 4) in
      let ptr := ptr + 4 in
      InitrdEntry name size ptr :: read_files n m (ptr + size)
  end.

(** The digits of a [u32], most significant first; nothing for 0. *)
Fixpoint digits (fuel : nat) (v : Z) (acc : list Z) : list Z :=
  match fuel with
  | O => acc
  | S fuel => if 0 <? v then digits fuel (v / 10) ((48 + v mod 10) :: acc) else acc
  end.

Section initrd.
Context {H X : Type} `{KernelHeap H} `{Console X}.
Implicit Types s : vfs H X.

Definition init (mb : MultibootInfo) s : vfs H X :=
  let s := set_files (FILES s) 0 s in
  if (Z.land (mb_flags mb) MULTIBOOT_FLAG_MODS =? 0) || (mods_count mb =? 0)
  then puts (str "initrd: no modules loaded" ++ [10]) s else
  let ptr := mod_start (mods mb) in
  let count := le_val (mem_bytes (module_mem s) ptr 4) in
  let count := if Z.of_nat INITRD_MAX_FILES <? count then Z.of_nat INITRD_MAX_FILES else count in
  let files := read_files (Z.to_nat count) (module_mem s) (ptr + 4) in
  let s := set_files (splice 0 files (FILES s)) count s in
  let s := puts (str "initrd: ") s in
  let s := puts (if count =? 0 then [48] else digits 12 count []) s in
  puts (str " files" ++ [10]) s.

Definition get_count s : Z := FILE_COUNT s.
Definition get_file (index : Z) s : option InitrdFile :=
  if FILE_COUNT s <=? index then None else FILES s !! Z.to_nat index.

Definition find (nm : list Z) s : option InitrdFile :=
  List.find (fun f => strcmp_list (cstr (i_name f)) nm =? 0) (take (Z.to_nat (FILE_COUNT s)) (FILES s)).

(** ** Nodes *)

Definition initrd_vfs_read (node offset size : Z) s : option (Z * list Z) :=
  v ← node_at node s;
  match private_data v with
  | PNull => Some (-1, [])
  | PRam _ => None
  | PInitrd i =>
      f ← FILES s !! i;
      if i_size f <=? offset then Some (0, []) else
      let sz := if 0xFFFFFFFF - offset <? size then i_size f - offset else size in
      let sz := if i_size f <? u32 (offset + sz) then i_size f - offset else sz in
      Some (i32 sz, mem_bytes (module_mem s) (i_data f + offset) (Z.to_nat sz))
  end.

Definition file_node (f : InitrdFile) (i : nat) : VfsNode :=
  Node (copy_name (cstr (i_name f))) VFS_FILE (i_size f) (Z.of_nat i) (Some InitrdRead) None None None
    (PInitrd i) [] 0.

(** [for i in i..count], with [n] rounds left. *)
Fixpoint init_vfs_loop (n i : nat) (root : Z) s : option (vfs H X) :=
  match n with
  | O => Some s
  | S n =>
      match get_file (Z.of_nat i) s with
      | None => init_vfs_loop n (S i) root s
      | Some f =>
          '(node, s) ← alloc SIZEOF_NODE (ONode (file_node f i)) s;
          if node =? 0 then init_vfs_loop n (S i) root s else
          '(_, s) ← add_child root node s;
          init_vfs_loop n (S i) root s
      end
  end.
Definition init_vfs (root : Z) s : option (vfs H X) := init_vfs_loop (Z.to_nat (get_count s)) 0 root s.
End initrd.
