(* ===== verification/Devfs.v ===== *)
(** The device file system ([src/src/devfs.rs]): /dev/null, /dev/zero and
    /dev/console. *)
From Stdlib Require Import String.
From S2P Require Import Prelude StringRs Heap VfsNode.

Section devfs.
Context {H X : Type} `{KernelHeap H} `{Console X}.
Implicit Types s : vfs H X.

Definition null_read : Z * list Z := (0, []).
Definition null_write (buffer : list Z) : Z := i32 (Z.of_nat (List.length buffer)).

Definition zero_read (size : Z) : Z * list Z := (i32 size, replicate (Z.to_nat size) 0).
Definition zero_write (buffer : list Z) : Z := i32 (Z.of_nat (List.length buffer)).

(** Bytes up to and including a newline, at most [n]. *)
Fixpoint console_loop (n : nat) (x : X) : option (list Z * X) :=
  match n with
  | O => Some ([], x)
  | S n =>
      '(c, x) ← getchar x;
      let c := u8 c in
      if c =? 10 then Some ([c], x) else
      '(l, x) ← console_loop n x; Some (c :: l, x)
  end.

Definition console_read (size : Z) s : option (Z * list Z * vfs H X) :=
  '(l, x) ← console_loop (Z.to_nat size) (ext s); Some (i32 (Z.of_nat (List.length l)), l, set_ext x s).

Definition console_write (buffer : list Z) s : Z * vfs H X :=
  (i32 (Z.of_nat (List.length buffer)), puts buffer s).

Definition devfs_readdir (dir index : Z) s : option Z := v ← node_at dir s; Some (child_at v index).
Definition devfs_finddir (dir : Z) (nm : list Z) s : option Z :=
  v ← node_at dir s; find_child (store s) nm (children v).

Definition make_device (nm : list Z) (r : ReadFn) (w : WriteFn) s : option (Z * vfs H X) :=
  alloc SIZEOF_NODE
    (ONode (Node (copy_name nm) (Z.lor VFS_FILE VFS_DEVICE) 0 0 (Some r) (Some w) None None PNull [] 0)) s.

Definition devfs_init (root : Z) s : option (vfs H X) :=
  '(dev_dir, s) ← alloc SIZEOF_NODE (ONode (dir_node (str "dev") DevfsDir)) s;
  if dev_dir =? 0 then Some s else
  '(null_node, s) ← make_device (str "null") NullRead NullWrite s;
  '(zero_node, s) ← make_device (str "zero") ZeroRead ZeroWrite s;
  '(console_node, s) ← make_device (str "console") ConsoleRead ConsoleWrite s;
  '(_, s) ← add_child dev_dir null_node s;
  '(_, s) ← add_child dev_dir zero_node s;
  '(_, s) ← add_child dev_dir console_node s;
  '(_, s) ← add_child root dev_dir s;
  Some s.
End devfs.
