(* ===== verification/Fat16Vfs.v ===== *)
(** The FAT16 volume as a directory of the virtual file system
    ([src/src/fat16_vfs.rs]).  The nodes of /disk are a cache, refreshed from the
    volume by every look-up. *)
From Stdlib Require Import String.
From S2P Require Import Prelude StringRs Heap VfsNode.

Section fat16_vfs.
Context {H X : Type} `{KernelHeap H} `{FatDisk X}.
Implicit Types s : vfs H X.

(** ** Files *)

Definition fat16_vfs_read (node offset size : Z) s : option (Z * list Z * vfs H X) :=
  if node =? 0 then Some (-1, [], s) else
  v ← node_at node s;
  if n_size v =? 0 then Some (0, [], s) else
  if n_size v <=? offset then Some (0, [], s) else
  '(file_buf, s) ← alloc (n_size v) (OBuf []) s;
  if file_buf =? 0 then Some (-1, [], s) else
  '(bytes_read, bytes, x) ← fat_read_file (name v) (n_size v) (ext s);
  s ← release file_buf (set_ext x s);
  if bytes_read <? 0 then Some (-1, [], s) else
  if bytes_read <=? offset then Some (0, [], s) else
  let sz := if bytes_read - offset <? size then bytes_read - offset else size in
  Some (i32 sz, slice (Z.to_nat offset) (Z.to_nat sz) bytes, s).

Definition fat16_vfs_write (node offset : Z) (buffer : list Z) s : option (Z * vfs H X) :=
  let size := Z.of_nat (List.length buffer) in
  if node =? 0 then Some (-1, s) else
  v ← node_at node s;
  if offset =? 0 then
    '(ret, x) ← fat_write_file (name v) buffer (ext s);
    if ret <? 0 then Some (-1, set_ext x s) else
    Some (i32 size, put node (ONode (set_size size v)) (set_ext x s))
  else
    let new_size := u32 (offset + size) in
    let new_size := if new_size <? n_size v then n_size v else new_size in
    '(file_buf, s) ← alloc new_size (OBuf (replicate (Z.to_nat new_size) 0)) s;
    if file_buf =? 0 then Some (-1, s) else
    s ← (if 0 <? n_size v then
           '(_, bytes, x) ← fat_read_file (name v) (n_size v) (ext s);
           buf_write file_buf 0 bytes (set_ext x s)
         else Some s);
    s ← buf_write file_buf offset buffer s;
    content ← buf_at file_buf s;
    '(ret, x) ← fat_write_file (name v) content (ext s);
    s ← release file_buf (set_ext x s);
    if ret <? 0 then Some (-1, s) else
    Some (i32 size, put node (ONode (set_size new_size v)) s).

(** ** The directory *)

(** A [FatDisk] operation that cannot fail, on the state. *)
Definition on_disk {A} (f : X -> A * X) s : A * vfs H X := let '(a, x) := f (ext s) in (a, set_ext x s).

(** The loop from file [i], with [n] files left; the result is the final [i]. *)
Fixpoint refresh_loop (n i : nat) s : option (nat * vfs H X) :=
  match n with
  | O => Some (i, s)
  | S n =>
      match on_disk (fat_file_name (Z.of_nat i) 13) s with
      | (None, s) => Some (i, s)
      | (Some nm, s) =>
          p ← FILE_NODES s !! i;
          if (Z.of_nat i <? NODE_COUNT s) && negb (p =? 0) then
            v ← node_at p s;
            let s := put p (ONode (set_name (copy_name nm) v)) s in
            let '(n_sz, s) := on_disk (fat_file_size (Z.of_nat i)) s in
            v ← node_at p s;
            refresh_loop n (S i) (put p (ONode (set_size n_sz v)) s)
          else
            '(p, s) ← alloc SIZEOF_NODE (ONode (Node (copy_name nm) VFS_FILE 0 (Z.of_nat i) (Some Fat16Read)
                                                  (Some Fat16Write) None None PNull [] 0)) s;
            if p =? 0 then Some (i, s) else
            let '(n_sz, s) := on_disk (fat_file_size (Z.of_nat i)) s in
            v ← node_at p s;
            let s := put p (ONode (set_size n_sz v)) s in
            refresh_loop n (S i) (set_disk (DISK_DIR s) (<[i := p]> (FILE_NODES s)) (NODE_COUNT s) s)
      end
  end.

Definition refresh_nodes s : option (vfs H X) :=
  let '(count, s) := on_disk fat_file_count s in
  let count := if Z.of_nat FAT16_VFS_MAX_FILES <? count then Z.of_nat FAT16_VFS_MAX_FILES else count in
  '(i, s) ← refresh_loop (Z.to_nat count) 0 s;
  Some (set_disk (DISK_DIR s) (FILE_NODES s) (Z.of_nat i) s).

Definition fat16_vfs_readdir (index : Z) s : option (Z * vfs H X) :=
  s ← refresh_nodes s;
  if NODE_COUNT s <=? index then Some (0, s) else p ← zget (FILE_NODES s) index; Some (p, s).

Definition fat16_vfs_finddir (nm : list Z) s : option (Z * vfs H X) :=
  s ← refresh_nodes s;
  p ← find_child (store s) nm (take (Z.to_nat (NODE_COUNT s)) (FILE_NODES s));
  Some (p, s).

Definition fat16_vfs_init s : option (vfs H X) :=
  '(dir, s) ← alloc SIZEOF_NODE (ONode (dir_node (str "disk") Fat16Dir)) s;
  let s := set_disk dir (FILE_NODES s) (NODE_COUNT s) s in
  if dir =? 0 then Some s else
  s ← refresh_nodes s;
  '(_, s) ← add_child (VFS_ROOT s) (DISK_DIR s) s;
  Some s.
End fat16_vfs.
