(* ===== verification/Vfs.v ===== *)
(** The virtual file system ([src/src/vfs.rs]): dispatch through the function
    pointers of a node, paths, descriptors; and the creation of RAM files and
    directories ([src/src/ramfs.rs]), which calls it.

    A path or name argument is [None] when the pointer is null and otherwise the
    bytes before the terminating NUL. *)
From Stdlib Require Import String.
From S2P Require Import Prelude StringRs Heap VfsNode Ramfs Initrd Devfs Fat16Vfs.

Section vfs.
Context {H X : Type} `{KernelHeap H} `{Console X} `{FatDisk X}.
Implicit Types s : vfs H X.

(** ** Dispatch *)

(** A read-only operation as one that returns the state. *)
Definition pure {A} (r : option A) s : option (A * vfs H X) := a ← r; Some (a, s).

Definition read (node offset size : Z) s : option (Z * list Z * vfs H X) :=
  if node =? 0 then Some (-1, [], s) else
  v ← node_at node s;
  match read_fn v with
  | Some RamfsRead => pure (ramfs_read node offset size s) s
  | Some InitrdRead => pure (initrd_vfs_read node offset size s) s
  | Some NullRead => Some (null_read, s)
  | Some ZeroRead => Some (zero_read size, s)
  | Some ConsoleRead => console_read size s
  | Some Fat16Read => fat16_vfs_read node offset size s
  | None => Some (-1, [], s)
  end.

Definition write (node offset : Z) (buffer : list Z) s : option (Z * vfs H X) :=
  if node =? 0 then Some (-1, s) else
  v ← node_at node s;
  match write_fn v with
  | Some RamfsWrite => ramfs_write node offset buffer s
  | Some NullWrite => Some (null_write buffer, s)
  | Some ZeroWrite => Some (zero_write buffer, s)
  | Some ConsoleWrite => Some (console_write buffer s)
  | Some Fat16Write => fat16_vfs_write node offset buffer s
  | None => Some (-1, s)
  end.

Definition readdir (dir index : Z) s : option (Z * vfs H X) :=
  if dir =? 0 then Some (0, s) else
  v ← node_at dir s;
  match readdir_fn v with
  | Some DefaultDir => pure (default_readdir dir index s) s
  | Some RamfsDir => pure (ramfs_readdir dir index s) s
  | Some DevfsDir => pure (devfs_readdir dir index s) s
  | Some Fat16Dir => fat16_vfs_readdir index s
  | None => Some (0, s)
  end.

Definition finddir (dir : Z) (nm : list Z) s : option (Z * vfs H X) :=
  if dir =? 0 then Some (0, s) else
  v ← node_at dir s;
  match finddir_fn v with
  | Some DefaultDir => pure (default_finddir dir nm s) s
  | Some RamfsDir => pure (ramfs_finddir dir nm s) s
  | Some DevfsDir => pure (devfs_finddir dir nm s) s
  | Some Fat16Dir => fat16_vfs_finddir nm s
  | None => Some (0, s)
  end.

Definition finddir_root (nm : list Z) s : option (option Z * vfs H X) :=
  '(node, s) ← finddir (VFS_ROOT s) nm s;
  Some (if node =? 0 then None else Some node, s).

(** ** Creating directories and files *)

Definition mkdir (parent : Z) (nm : option (list Z)) s : option (Z * vfs H X) :=
  if parent =? 0 then Some (0, s) else
  match nm with
  | None => Some (0, s)
  | Some nm =>
      v ← node_at parent s;
      if negb (is_dir v) then Some (0, s) else
      '(existing, s) ← finddir parent nm s;
      if negb (existing =? 0) then
        w ← node_at existing s; Some (if is_dir w then existing else 0, s)
      else
        '(dir, s) ← make_dir nm s;
        if dir =? 0 then Some (0, s) else
        '(r, s) ← add_child parent dir s;
        if r <? 0 then s ← release dir s; Some (0, s) else Some (dir, s)
  end.

Definition create_file_in (parent : Z) (nm : option (list Z)) s : option (Z * vfs H X) :=
  if parent =? 0 then Some (0, s) else
  match nm with
  | None => Some (0, s)
  | Some nm =>
      '(existing, s) ← finddir parent nm s;
      if negb (existing =? 0) then Some (existing, s) else
      let v := Node (copy_name nm) VFS_FILE 0 0 (Some RamfsRead) (Some RamfsWrite) None None PNull [] 0 in
      '(node, s) ← alloc SIZEOF_NODE (ONode v) s;
      if node =? 0 then Some (0, s) else
      '(fd, s) ← alloc SIZEOF_RAM (ORam (RamData 0 0 256)) s;
      if fd =? 0 then s ← release node s; Some (0, s) else
      '(data_buf, s) ← alloc 256 (OBuf (replicate 256 0)) s;
      if data_buf =? 0 then s ← release fd s; s ← release node s; Some (0, s) else
      let s := put fd (ORam (RamData data_buf 0 256)) s in
      let s := put node (ONode (set_private (PRam fd) v)) s in
      '(r, s) ← add_child parent node s;
      if r <? 0 then
        s ← release data_buf s; s ← release fd s; s ← release node s; Some (0, s)
      else Some (node, s)
  end.

Definition create_file (nm : option (list Z)) s : option (Z * vfs H X) := create_file_in (RAMFS_ROOT s) nm s.

Definition create_dir_in (parent : Z) (nm : option (list Z)) s : option (Z * vfs H X) :=
  if parent =? 0 then Some (0, s) else
  match nm with
  | None => Some (0, s)
  | Some nm =>
      '(existing, s) ← finddir parent nm s;
      if negb (existing =? 0) then
        w ← node_at existing s; Some (if is_dir w then existing else 0, s)
      else
        '(node, s) ← alloc SIZEOF_NODE (ONode (dir_node nm RamfsDir)) s;
        if node =? 0 then Some (0, s) else
        '(r, s) ← add_child parent node s;
        if r <? 0 then s ← release node s; Some (0, s) else Some (node, s)
  end.

Definition create_dir (nm : option (list Z)) s : option (Z * vfs H X) := create_dir_in (RAMFS_ROOT s) nm s.

(** ** Paths *)

(** [while *p == b'/'] *)
Fixpoint skip_slashes (p : list Z) : list Z :=
  match p with c :: p' => if c =? 47 then skip_slashes p' else p | [] => [] end.

(** The two loops that read a component, from its [ci]th byte, and then what is
    left of it. *)
Fixpoint component (ci : nat) (p : list Z) : list Z * list Z :=
  match p with
  | [] => ([], [])
  | c :: p' =>
      if (c =? 47) || (63 <=? Z.of_nat ci) then ([], p) else let '(w, r) := component (S ci) p' in (c :: w, r)
  end.
Fixpoint skip_component (p : list Z) : list Z :=
  match p with c :: p' => if c =? 47 then p else skip_component p' | [] => [] end.

(** One round of the loops over a path: a component and the rest of the path. *)
Definition next_component (p : list Z) : list Z * list Z :=
  let '(w, r) := component 0 p in (w, skip_slashes (skip_component r)).

(** A round reads at least a byte: the length of the path is fuel enough. *)
Fixpoint resolve_loop (fuel : nat) (p : list Z) (cur : Z) s : option (Z * vfs H X) :=
  match fuel with
  | O => None
  | S fuel =>
      match p with
      | [] => Some (cur, s)
      | _ =>
          if cur =? 0 then Some (cur, s) else
          let '(w, p) := next_component p in
          '(cur, s) ← finddir cur w s; resolve_loop fuel p cur s
      end
  end.

Definition resolve_path (path : option (list Z)) s : option (Z * vfs H X) :=
  match path with
  | None => Some (0, s)
  | Some path => let p := skip_slashes path in resolve_loop (S (List.length p)) p (VFS_ROOT s) s
  end.

Fixpoint mkdir_p_loop (fuel : nat) (p : list Z) (cur : Z) s : option (Z * vfs H X) :=
  match fuel with
  | O => None
  | S fuel =>
      match p with
      | [] => Some (cur, s)
      | _ =>
          if cur =? 0 then Some (cur, s) else
          let '(w, p) := next_component p in
          '(child, s) ← finddir cur w s;
          '(cur, s) ← (if child =? 0 then mkdir cur (Some w) s else Some (child, s));
          mkdir_p_loop fuel p cur s
      end
  end.

Definition mkdir_p (path : option (list Z)) s : option (Z * vfs H X) :=
  match path with
  | None => Some (0, s)
  | Some path => let p := skip_slashes path in mkdir_p_loop (S (List.length p)) p (VFS_ROOT s) s
  end.

(** ** Removing *)

Fixpoint find_idx (m : gmap Z obj) (nm : list Z) (i : nat) (cs : list Z) : option (option nat) :=
  match cs with
  | [] => Some None
  | c :: cs =>
      if c =? 0 then find_idx m nm (S i) cs else
      v ← node_in m c; if strcmp_list (name v) nm =? 0 then Some (Some i) else find_idx m nm (S i) cs
  end.

(** Any private data is taken for a [RamfsFileData]; that of an initrd file is
    not one, nor from the heap. *)
Definition free_private (d : private) s : option (vfs H X) :=
  match d with
  | PNull => Some s
  | PInitrd _ => None
  | PRam r =>
      fd ← ram_at r s;
      s ← (if data fd =? 0 then Some s else release (data fd) s);
      release r s
  end.

Definition unlink (parent : Z) (nm : option (list Z)) s : option (Z * vfs H X) :=
  if parent =? 0 then Some (-1, s) else
  match nm with
  | None => Some (-1, s)
  | Some nm =>
      v ← node_at parent s;
      if negb (is_dir v) then Some (-1, s) else
      idx ← find_idx (store s) nm 0 (children v);
      match idx with
      | None => Some (-1, s)
      | Some idx =>
          child ← children v !! idx;
          w ← node_at child s;
          s ← free_private (private_data w) s;
          s ← release child s;
          v ← node_at parent s;
          Some (0, put parent (ONode (set_children (delete idx (children v)) v)) s)
      end
  end.

(** The index of the last '/' among the bytes from the [i]th. *)
Fixpoint last_slash (i : Z) (p : list Z) : Z :=
  match p with
  | [] => -1
  | c :: p => let r := last_slash (i + 1) p in if 0 <=? r then r else if c =? 47 then i else -1
  end.

Definition unlink_path (path : option (list Z)) s : option (Z * vfs H X) :=
  match path with
  | None => Some (-1, s)
  | Some path =>
      if Z.of_nat (List.length path) =? 0 then Some (-1, s) else
      let sl := last_slash 0 path in
      let nm := drop (Z.to_nat (sl + 1)) path in
      if sl <=? 0 then
        if Z.of_nat (List.length nm) =? 0 then Some (-1, s) else unlink (VFS_ROOT s) (Some nm) s
      else
        if 255 <=? sl then Some (-1, s) else
        '(parent, s) ← resolve_path (Some (take (Z.to_nat sl) path)) s;
        if parent =? 0 then Some (-1, s) else
        if Z.of_nat (List.length nm) =? 0 then Some (-1, s) else unlink parent (Some nm) s
  end.

(** ** Descriptors *)

Fixpoint first_free (i : nat) (t : list FdEntry) : option nat :=
  match t with [] => None | e :: t => if in_use e then first_free (S i) t else Some i end.

Definition vfs_open (path : option (list Z)) s : option (Z * vfs H X) :=
  '(node, s) ← resolve_path path s;
  if node =? 0 then Some (-1, s) else
  match first_free 0 (FD_TABLE s) with
  | None => Some (-1, s)
  | Some i => Some (Z.of_nat i, set_fds (<[i := Fd node 0 true]> (FD_TABLE s)) s)
  end.

(** [fd] is a valid index of an entry in use. *)
Definition open_fd (fd : Z) s : option FdEntry :=
  if (fd <? 0) || (Z.of_nat MAX_OPEN_FILES <=? fd) then None else
  e ← FD_TABLE s !! Z.to_nat fd; if in_use e then Some e else None.

(** [FD_TABLE[fd].offset += bytes] when bytes were moved. *)
Definition advance (fd : Z) (e : FdEntry) (bytes : Z) s : vfs H X :=
  if 0 <? bytes
  then set_fds (<[Z.to_nat fd := Fd (VfsNode.node e) (u32 (offset e + bytes)) true]> (FD_TABLE s)) s else s.

Definition vfs_fd_read (fd size : Z) s : option (Z * list Z * vfs H X) :=
  match open_fd fd s with
  | None => Some (-1, [], s)
  | Some e =>
      '(bytes, l, s) ← read (VfsNode.node e) (offset e) size s; Some (bytes, l, advance fd e bytes s)
  end.

Definition vfs_fd_write (fd : Z) (buf : list Z) s : option (Z * vfs H X) :=
  match open_fd fd s with
  | None => Some (-1, s)
  | Some e => '(bytes, s) ← write (VfsNode.node e) (offset e) buf s; Some (bytes, advance fd e bytes s)
  end.

Definition vfs_close (fd : Z) s : vfs H X :=
  if (fd <? 0) || (Z.of_nat MAX_OPEN_FILES <=? fd) then s else
  set_fds (<[Z.to_nat fd := EMPTY_FD]> (FD_TABLE s)) s.

Definition vfs_lseek (fd off whence : Z) s : option (Z * vfs H X) :=
  match open_fd fd s with
  | None => Some (-1, s)
  | Some e =>
      if VfsNode.node e =? 0 then Some (-1, s) else
      base ← (if whence =? 0 then Some (Some 0) else if whence =? 1 then Some (Some (offset e))
              else if whence =? 2 then v ← node_at (VfsNode.node e) s; Some (Some (n_size v)) else Some None);
      match base with
      | None => Some (-1, s)
      | Some base =>
          let new_off := i64 (base + off) in
          if new_off <? 0 then Some (-1, s) else
          Some (new_off, set_fds (<[Z.to_nat fd := Fd (VfsNode.node e) (u32 new_off) true]> (FD_TABLE s)) s)
      end
  end.

(** ** Initialisation *)

Definition ramfs_init s : vfs H X := set_roots (VFS_ROOT s) (VFS_ROOT s) s.

Definition vfs_init s : option (vfs H X) :=
  let s := set_fds (replicate MAX_OPEN_FILES EMPTY_FD) s in
  '(root, s) ← make_dir [47] s;
  let s := set_roots root (RAMFS_ROOT s) s in
  if root =? 0 then Some (puts (str "VFS: fatal: failed to allocate root directory" ++ [10]) s) else
  s ← init_vfs (VFS_ROOT s) s;
  s ← devfs_init (VFS_ROOT s) s;
  Some (puts (str "VFS: initialized" ++ [10]) (ramfs_init s)).
End vfs.
