(* ===== verification/VfsStore.v ===== *)
(** The object store of the virtual file system and the kernel heap: allocation
    and release keep them in step, and what a RAM file holds survives them. *)
From S2P Require Import Prelude StringRs Heap VfsNode.

Section store.
Context {H X : Type} `{KernelHeap H}.
Implicit Types s : vfs H X.

(** [live] are the areas handed out: every object is one of them. *)
Record heap_ok s (live : list (Z * Z)) : Prop := {
  ho_rep : kh_rep (hp s) live;
  ho_nodup : NoDup live.*1;
  ho_size : Forall (fun a => 0 <= a.2) live;
  ho_null : store s !! 0 = None;
  ho_dom : forall p, is_Some (store s !! p) -> p ∈ live.*1 }.

(** [k] calls of the heap, of at most [B] bytes, from one state of it to another. *)
Inductive calls (B : Z) : nat -> H -> H -> Prop :=
| calls_none h : calls B 0 h h
| calls_malloc k n p h h1 h2 : 0 < n <= B -> kh_malloc n h = Some (p, h1) -> calls B k h1 h2 -> calls B (S k) h h2
| calls_free k p h h1 h2 : kh_free p h = Some h1 -> calls B k h1 h2 -> calls B (S k) h h2.

(** The heap refuses an area of at most [B] bytes, after at most [k] other calls. *)
Definition short (B : Z) (k : nat) (h : H) : Prop :=
  exists j h1 n h2, (j <= k)%nat /\ calls B j h h1 /\ 0 < n <= B /\ kh_malloc n h1 = Some (0, h2).

Lemma calls_le B B' k h h' : B <= B' -> calls B k h h' -> calls B' k h h'.
Proof.
  intros HB Hc. induction Hc as [| k n p h h1 h2 Hn E Hc IH | k p h h1 h2 E Hc IH]; [constructor | |].
  - eapply calls_malloc; [| exact E | exact IH]. lia.
  - by eapply calls_free.
Qed.

Lemma calls_app B j k h h1 h2 : calls B j h h1 -> calls B k h1 h2 -> calls B (j + k) h h2.
Proof.
  intros Hc Hk. induction Hc as [| j n p h h1 h3 Hn E Hc IH | j p h h1 h3 E Hc IH]; [done | |]; cbn [Nat.add].
  - eapply calls_malloc; [exact Hn | exact E | by apply IH].
  - eapply calls_free; [exact E | by apply IH].
Qed.

Lemma short_now B n h h' : 0 < n <= B -> kh_malloc n h = Some (0, h') -> short B 0 h.
Proof. intros Hn E. exists 0%nat, h, n, h'. split; [lia |]. split; [constructor | done]. Qed.

Lemma short_le B B' k k' h : B <= B' -> (k <= k')%nat -> short B k h -> short B' k' h.
Proof.
  intros HB Hk (j & h1 & n & h2 & Hj & Hc & Hn & E). exists j, h1, n, h2. split; [lia |]. split; [by apply (calls_le B) |].
  split; [lia | done].
Qed.

Lemma short_after B j k h h1 : calls B j h h1 -> short B k h1 -> short B (j + k) h.
Proof.
  intros Hc (i & h2 & n & h3 & Hi & Hc2 & Hn & E). exists (j + i)%nat, h2, n, h3. split; [lia |].
  split; [by eapply calls_app | done].
Qed.

Lemma alloc_calls B n o s p s' : alloc n o s = Some (p, s') -> 0 < n <= B -> calls B 1 (hp s) (hp s').
Proof.
  unfold alloc. intros E Hn. apply bind_Some in E as ([q h] & Em & E).
  assert (hp s' = h) as -> by (destruct (q =? 0); by simplify_eq). by eapply calls_malloc; [| | constructor].
Qed.

Lemma release_calls B p s s' : release p s = Some s' -> calls B 1 (hp s) (hp s').
Proof. unfold release. intros E. apply bind_Some in E as (h & Ef & [= <-]). by eapply calls_free; [| constructor]. Qed.

Lemma heap_ok_store s s' live :
  heap_ok s live -> hp s' = hp s -> dom (store s') ⊆ dom (store s) -> heap_ok s' live.
Proof.
  intros [Hr Hn Hs Hz0 Hd] Eh Hsub. split; try done.
  - by rewrite Eh.
  - apply not_elem_of_dom. apply not_elem_of_dom in Hz0. set_solver.
  - intros p Hp. apply Hd. apply elem_of_dom. apply elem_of_dom in Hp. set_solver.
Qed.

Lemma heap_ok_put s live p o : heap_ok s live -> is_Some (store s !! p) -> heap_ok (put p o s) live.
Proof.
  intros Ho Hp. apply (heap_ok_store s); [done | done |]. cbn. rewrite dom_insert.
  apply elem_of_dom in Hp. set_solver.
Qed.

Lemma alloc_spec n o s live :
  heap_ok s live -> 0 < n <= 0xFFFFFFF8 ->
  exists p h, alloc n o s = Some (p, if p =? 0 then set_hp h s else put p o (set_hp h s)) /\
    ((p = 0 /\ kh_malloc n (hp s) = Some (0, h) /\ heap_ok (set_hp h s) live) \/
     (p <> 0 /\ store s !! p = None /\
      exists z live', Permutation live' ((p, z) :: live) /\ heap_ok (put p o (set_hp h s)) live')).
Proof.
  intros [Hr Hn Hs Hz0 Hd] Hsz.
  destruct (kh_malloc_law n (hp s) live Hr Hsz) as (p & h & E & Hcase).
  exists p, h. unfold alloc. rewrite E. cbn [mbind option_bind]. split; [by destruct (p =? 0) eqn:E0; [apply Z.eqb_eq in E0 as -> |] |].
  destruct Hcase as [[-> Hr'] | (Hp & z & live' & Hz & Hr' & Hperm & Hap)].
  - left. split; [done |]. split; [done |]. split; done.
  - right. split; [done |].
    assert (Hsz' : Forall (fun a => 0 <= a.2) live') by (rewrite Hperm; constructor; [simpl; lia | done]).
    assert (Hnd : NoDup live'.*1).
    { clear -Hap Hsz'. induction Hap as [| x l Hx Hl IH]; [constructor |].
      apply Forall_cons in Hsz' as [Hx0 Hsz']. cbn. constructor; [| by apply IH].
      intros (y & E & Hy)%list_elem_of_fmap. rewrite List.Forall_forall in Hx.
      specialize (Hx y (proj1 (list_elem_of_In _ _) Hy)).
      rewrite Forall_forall in Hsz'. specialize (Hsz' y Hy). unfold apart, HEADER_SIZE in Hx. lia. }
    assert (Hnew : p ∉ live.*1).
    { assert (Hnd2 : NoDup ((p, z) :: live).*1) by (by rewrite <- Hperm). by apply NoDup_cons in Hnd2 as []. }
    assert (Hfree : store s !! p = None).
    { destruct (store s !! p) eqn:E'; [| done]. exfalso. apply Hnew, Hd. by rewrite E'. }
    split; [done |]. exists z, live'. split; [done |]. split; try done.
    + cbn. by rewrite lookup_insert_ne.
    + intros q Hq. cbn in Hq. rewrite Hperm. cbn. apply list_elem_of_In.
      destruct (decide (q = p)) as [-> | Hne]; [by left |]. right.
      apply list_elem_of_In, Hd. by rewrite lookup_insert_ne in Hq.
Qed.

Lemma release_spec p s live :
  heap_ok s live -> is_Some (store s !! p) ->
  exists h z live', release p s = Some (set_store (delete p (store s)) (set_hp h s)) /\
    Permutation live ((p, z) :: live') /\ heap_ok (set_store (delete p (store s)) (set_hp h s)) live'.
Proof.
  intros [Hr Hn Hs Hz0 Hd] Hp. pose proof (Hd p Hp) as Hin.
  apply list_elem_of_fmap in Hin as ([q z] & -> & Hin). simpl in *.
  destruct (kh_free_law q z (hp s) live Hr Hin) as (h & live' & E & Hr' & Hperm).
  exists h, z, live'. unfold release. rewrite E. simpl. split; [done |]. split; [done |].
  rewrite Hperm in Hn, Hs. cbn in Hn. apply NoDup_cons in Hn as [Hni Hn]. apply Forall_cons in Hs as [_ Hs].
  split; try done.
  - cbn. by rewrite lookup_delete_None; right.
  - intros r Hr2. cbn in Hr2. apply lookup_delete_is_Some in Hr2 as [Hne Hr2].
    specialize (Hd r Hr2). rewrite Hperm in Hd. cbn in Hd. by apply elem_of_cons in Hd as [|].
Qed.

(** The same, when the size of the area is known. *)
Lemma release_perm p z s live rest :
  heap_ok s live -> Permutation live ((p, z) :: rest) -> is_Some (store s !! p) ->
  exists h live', release p s = Some (set_store (delete p (store s)) (set_hp h s)) /\
    Permutation live' rest /\ heap_ok (set_store (delete p (store s)) (set_hp h s)) live'.
Proof.
  intros Ho Hperm Hp. destruct (release_spec p s live Ho Hp) as (h & z' & live' & E & Hperm' & Ho').
  exists h, live'. split; [done |]. split; [| done].
  assert (z' = z) as ->; [| rewrite Hperm in Hperm'; by apply Permutation_cons_inv in Hperm'].
  pose proof (ho_nodup _ _ Ho) as Hnd. rewrite Hperm' in Hnd. apply NoDup_cons in Hnd as [Hni _].
  assert (Hin : (p, z) ∈ (p, z') :: live') by (rewrite <- Hperm', Hperm; by left).
  apply elem_of_cons in Hin as [[= ->] | Hin]; [done |]. exfalso. apply Hni.
  apply list_elem_of_fmap. by exists (p, z).
Qed.
End store.
