(* ===== verification/RamFiles.v ===== *)
(** RAM files as byte sequences: the invariant of their headers and buffers, and
    what a read and a write do to the contents. *)
From S2P Require Import Prelude StringRs Heap VfsNode VfsStore Ramfs.

(** [buf] is the buffer of [fd]; what lies past the end of the file is zero. *)
Record ram_ok (fd : RamfsFileData) (buf : list Z) : Prop := {
  ro_len : Z.of_nat (length buf) = capacity fd;
  ro_size : 0 <= size fd <= capacity fd;
  ro_cap : capacity fd < 2 ^ 32;
  ro_mod : capacity fd mod 256 = 0;
  ro_zero : drop (Z.to_nat (size fd)) buf = replicate (length buf - Z.to_nat (size fd)) 0 }.

(** Every file has its own header and buffer.  The size in its node is that of the
    file, unless somebody has stored another one there ([sized]). *)
Record files_ok (m : gmap Z obj) : Prop := {
  fo_ram : forall p v r, m !! p = Some (ONode v) -> private_data v = PRam r ->
    exists fd buf, m !! r = Some (ORam fd) /\ m !! data fd = Some (OBuf buf) /\ ram_ok fd buf;
  fo_node : forall p q v w r, m !! p = Some (ONode v) -> m !! q = Some (ONode w) ->
    private_data v = PRam r -> private_data w = PRam r -> p = q;
  fo_buf : forall r f, m !! r = Some (ORam f) -> exists buf, m !! data f = Some (OBuf buf);
  fo_data : forall r1 r2 f1 f2, m !! r1 = Some (ORam f1) -> m !! r2 = Some (ORam f2) ->
    data f1 = data f2 -> r1 = r2 }.

Definition file_of (fd : RamfsFileData) (buf : list Z) : list Z := take (Z.to_nat (size fd)) buf.

(** The contents of the RAM file of node [p]. *)
Definition content (m : gmap Z obj) (p : Z) : option (list Z) :=
  v ← node_in m p;
  match private_data v with
  | PRam r =>
      match m !! r with
      | Some (ORam fd) => match m !! data fd with Some (OBuf buf) => Some (file_of fd buf) | _ => None end
      | _ => None
      end
  | _ => None
  end.

(** The size in the node is the number of bytes. *)
Definition sized (v : VfsNode) (c : list Z) : bool := n_size v =? Z.of_nat (length c).

(** A buffer that is no file's. *)
Definition orphan (m : gmap Z obj) (q : Z) : Prop := forall r f, m !! r = Some (ORam f) -> data f <> q.

(** A write at [off]: a gap after the end reads as zeros. *)
Definition overlay (off : nat) (d c : list Z) : list Z :=
  take off (c ++ replicate (off - length c) 0) ++ d ++ drop (off + length d) c.

Lemma length_overlay off d c : length (overlay off d c) = Nat.max (length c) (off + length d).
Proof.
  unfold overlay. rewrite !length_app, length_take, length_app, length_replicate, length_drop. lia.
Qed.

(** ** One file *)

Lemma ram_ok_split fd buf : ram_ok fd buf ->
  buf = file_of fd buf ++ replicate (length buf - Z.to_nat (size fd)) 0.
Proof. intros Hr. unfold file_of. rewrite <- (ro_zero _ _ Hr). by rewrite take_drop. Qed.

Lemma length_file_of fd buf : ram_ok fd buf -> length (file_of fd buf) = Z.to_nat (size fd).
Proof. intros [Hl Hs Hc _ _]. unfold file_of. rewrite length_take. lia. Qed.

Lemma ram_ok_intro d c cap : Z.of_nat (length c) <= cap < 2 ^ 32 -> cap mod 256 = 0 ->
  ram_ok (RamData d (Z.of_nat (length c)) cap) (c ++ replicate (Z.to_nat cap - length c) 0).
Proof.
  intros Hc Hm. split; simpl; rewrite ?length_app, ?length_replicate; try lia.
  rewrite Nat2Z.id, drop_app_length. f_equal. lia.
Qed.

Lemma file_of_intro d c cap n :
  file_of (RamData d (Z.of_nat (length c)) cap) (c ++ replicate n 0) = c.
Proof. unfold file_of; simpl. by rewrite Nat2Z.id, take_app_length. Qed.

(** The buffer after the copy of a write that fits. *)
Lemma splice_overlay off d c n :
  (off + length d <= length c + n)%nat ->
  splice off d (c ++ replicate n 0) =
    overlay off d c ++ replicate (length c + n - length (overlay off d c)) 0.
Proof.
  intros Hn. apply list_eq. intros i. rewrite length_overlay.
  rewrite lookup_splice by (rewrite length_app, length_replicate; lia). unfold overlay.
  destruct (decide (i < length c + n)%nat) as [Hi |].
  2:{ rewrite decide_False by lia. trans (@None Z); [| symmetry]; apply lookup_ge_None_2;
      rewrite !length_app, ?length_take, ?length_app, !length_replicate, ?length_drop; lia. }
  assert (Hz : forall j k, (j < k)%nat -> replicate k 0 !! j = Some 0) by (intros; by apply lookup_replicate_2).
  case_decide as Hin.
  - rewrite <- app_assoc, lookup_app_r by (rewrite length_take, length_app, length_replicate; lia).
    rewrite length_take, length_app, length_replicate, <- app_assoc, lookup_app_l by lia. f_equal. lia.
  - destruct (decide (i < off)%nat).
    + rewrite <- app_assoc, (lookup_app_l (take off _)) by (rewrite length_take, length_app, length_replicate; lia).
      rewrite lookup_take_lt by lia. destruct (decide (i < length c)%nat).
      * by rewrite !lookup_app_l by lia.
      * rewrite !lookup_app_r by lia. by rewrite !Hz by lia.
    + rewrite <- app_assoc, (lookup_app_r (take off _)) by (rewrite length_take, length_app, length_replicate; lia).
      rewrite length_take, length_app, length_replicate, <- app_assoc, (lookup_app_r d) by lia.
      destruct (decide (i < length c)%nat).
      * rewrite (lookup_app_l c), lookup_app_l by (rewrite ?length_drop; lia). rewrite lookup_drop. f_equal. lia.
      * rewrite (lookup_app_r c), lookup_app_r by (rewrite ?length_drop; lia). by rewrite length_drop, !Hz by lia.
Qed.

(** ** The store *)

Lemma content_intro m p v r fd buf :
  m !! p = Some (ONode v) -> private_data v = PRam r -> m !! r = Some (ORam fd) ->
  m !! data fd = Some (OBuf buf) -> content m p = Some (file_of fd buf).
Proof. intros Hv Hp Hr Hb. unfold content, node_in. rewrite Hv. simpl. by rewrite Hp, Hr, Hb. Qed.

Lemma content_inv m p c : files_ok m -> content m p = Some c ->
  exists v r fd buf, m !! p = Some (ONode v) /\ private_data v = PRam r /\ m !! r = Some (ORam fd) /\
    m !! data fd = Some (OBuf buf) /\ ram_ok fd buf /\ c = file_of fd buf.
Proof.
  intros Hf. unfold content, node_in. destruct (m !! p) as [[v | |] |] eqn:Ep; try done. simpl.
  destruct (private_data v) as [| r |] eqn:Ev; try done.
  destruct (fo_ram _ Hf p v r Ep Ev) as (fd & buf & Er & Eb & Hok). rewrite Er, Eb. intros [= <-].
  by exists v, r, fd, buf.
Qed.

(** Storing a file's new header, buffer and size; the buffer is the old one, or
    a new one that replaces it. *)
Section update.
Variables (m m0 : gmap Z obj) (p r : Z) (v : VfsNode) (fd : RamfsFileData) (nb : Z) (c : list Z) (cap : Z).
Hypothesis Hfiles : files_ok m.
Hypothesis Hp : m !! p = Some (ONode v).
Hypothesis Hpriv : private_data v = PRam r.
Hypothesis Hr : m !! r = Some (ORam fd).
Hypothesis Hother : forall q, q <> data fd -> q <> nb -> q <> r -> m0 !! q = m !! q.
Hypothesis Hnb : nb = data fd \/ m !! nb = None.
Hypothesis Hold : nb <> data fd -> m0 !! data fd = None.
Hypothesis Hcap : Z.of_nat (length c) <= cap < 2 ^ 32.
Hypothesis Hmod : cap mod 256 = 0.

Definition updated : gmap Z obj :=
  <[p := ONode (set_size (Z.of_nat (length c)) v)]>
  (<[r := ORam (RamData nb (Z.of_nat (length c)) cap)]>
  (<[nb := OBuf (c ++ replicate (Z.to_nat cap - length c) 0)]> m0)).

Lemma data_is_buf : exists buf, m !! data fd = Some (OBuf buf).
Proof using Hfiles Hp Hpriv Hr.
  destruct (fo_ram _ Hfiles p v r Hp Hpriv) as (fd' & buf & Er & Eb & _). exists buf. congruence.
Qed.

Lemma update_ne : p <> r /\ p <> nb /\ r <> nb /\ p <> data fd /\ r <> data fd.
Proof using Hfiles Hp Hpriv Hr Hnb.
  clear Hother Hold. destruct data_is_buf as [buf Eb]. split_and!; intros ->; try congruence; destruct Hnb; congruence.
Qed.

Lemma updated_node q w : updated !! q = Some (ONode w) ->
  (q = p /\ w = set_size (Z.of_nat (length c)) v) \/ (q <> p /\ m !! q = Some (ONode w)).
Proof using Hfiles Hp Hpriv Hr Hnb Hother Hold.
  destruct update_ne as (?&?&?&?&?). unfold updated. intros Hq.
  apply lookup_insert_Some in Hq as [[<- [= <-]] | [Hne Hq]]; [by left |]. right.
  apply lookup_insert_Some in Hq as [[<- [=]] | [Hne2 Hq]].
  apply lookup_insert_Some in Hq as [[<- [=]] | [Hne3 Hq]].
  split; [done |]. destruct (decide (q = data fd)) as [-> |]; [| by rewrite <- Hother].
  rewrite Hold in Hq by done. done.
Qed.

Lemma updated_ram q f : updated !! q = Some (ORam f) ->
  (q = r /\ data f = nb) \/ (q <> r /\ m !! q = Some (ORam f)).
Proof using Hfiles Hp Hpriv Hr Hnb Hother Hold.
  destruct update_ne as (?&?&?&?&?). unfold updated. intros Hq.
  apply lookup_insert_Some in Hq as [[<- [=]] | [Hne Hq]].
  apply lookup_insert_Some in Hq as [[<- [= <-]] | [Hne2 Hq]]; [by left |]. right.
  apply lookup_insert_Some in Hq as [[<- [=]] | [Hne3 Hq]].
  split; [done |]. destruct (decide (q = data fd)) as [-> |]; [| by rewrite <- Hother].
  rewrite Hold in Hq by done. done.
Qed.

(** The header and buffer of another file are where they were. *)
Lemma updated_buf rq fq bq : rq <> r ->
  m !! rq = Some (ORam fq) -> m !! data fq = Some (OBuf bq) -> updated !! data fq = Some (OBuf bq).
Proof using Hfiles Hp Hpriv Hr Hnb Hother Hold.
  destruct update_ne as (?&?&?&?&?). intros Hne Hfq Hbq.
  assert (data fq <> data fd) by (intros E; by eapply (fo_data _ Hfiles _ _ _ _ Hfq Hr) in E).
  assert (data fq <> p) by congruence. assert (data fq <> r) by congruence.
  assert (data fq <> nb) by (intros E; destruct Hnb; congruence).
  unfold updated. rewrite !(lookup_insert_ne _ p), !(lookup_insert_ne _ r), !(lookup_insert_ne _ nb) by done.
  by rewrite !Hother.
Qed.

Lemma updated_other q w rq fq bq : q <> p ->
  m !! q = Some (ONode w) -> private_data w = PRam rq -> m !! rq = Some (ORam fq) ->
  m !! data fq = Some (OBuf bq) -> updated !! rq = Some (ORam fq) /\ updated !! data fq = Some (OBuf bq).
Proof using Hfiles Hp Hpriv Hr Hnb Hother Hold.
  destruct update_ne as (?&?&?&?&?). destruct data_is_buf as [buf Eb]. intros Hq Hw Hrq Hfq Hbq.
  assert (rq <> r) by (intros ->; by eapply Hq, (fo_node _ Hfiles)).
  split; [| by apply (updated_buf rq)].
  assert (rq <> p) by congruence. assert (rq <> data fd) by congruence.
  assert (rq <> nb) by (intros ->; destruct Hnb; congruence).
  unfold updated. rewrite !(lookup_insert_ne _ p), !(lookup_insert_ne _ r), !(lookup_insert_ne _ nb) by done.
  by rewrite !Hother.
Qed.

Lemma updated_self :
  updated !! p = Some (ONode (set_size (Z.of_nat (length c)) v)) /\
  updated !! r = Some (ORam (RamData nb (Z.of_nat (length c)) cap)) /\
  updated !! nb = Some (OBuf (c ++ replicate (Z.to_nat cap - length c) 0)).
Proof using Hfiles Hp Hpriv Hr Hnb.
  destruct update_ne as (?&?&?&?&?). unfold updated.
  split; [by rewrite lookup_insert_eq |]. rewrite !(lookup_insert_ne _ p) by done.
  split; [by rewrite lookup_insert_eq |]. by rewrite lookup_insert_ne, lookup_insert_eq by done.
Qed.

Lemma updated_files_ok : files_ok updated.
Proof using All.
  destruct updated_self as (Sp & Sr & Sb). split.
  - intros q w rq Hq Hw. destruct (updated_node q w Hq) as [[-> ->] | [Hne Hq']].
    + cbn in Hw. rewrite Hpriv in Hw. injection Hw as <-.
      eexists _, _. split; [exact Sr |]. split; [exact Sb |]. by apply ram_ok_intro.
    + destruct (fo_ram _ Hfiles q w rq Hq' Hw) as (fq & bq & Er & Eb & Hok).
      destruct (updated_other q w rq fq bq Hne Hq' Hw Er Eb) as [? ?]. by exists fq, bq.
  - intros q q' w w' rq Hq Hq' Hw Hw'.
    destruct (updated_node q w Hq) as [[-> ->] | [Hne Hq0]], (updated_node q' w' Hq') as [[-> ->] | [Hne' Hq0']];
      try done.
    + by apply (fo_node _ Hfiles _ _ v w' rq).
    + by apply (fo_node _ Hfiles _ _ w v rq).
    + by apply (fo_node _ Hfiles _ _ w w' rq).
  - intros q f Hq. destruct (updated_ram q f Hq) as [[-> ->] | [Hne Hq']]; [by eexists |].
    destruct (fo_buf _ Hfiles _ _ Hq') as [b Eb]. exists b. by apply (updated_buf q).
  - intros r1 r2 f1 f2 H1 H2 E.
    assert (Hnew : forall q f, q <> r -> m !! q = Some (ORam f) -> data f <> nb).
    { intros q f Hne Hq Ed. destruct Hnb as [En |].
      - apply Hne, (fo_data _ Hfiles _ _ f fd); congruence.
      - destruct (fo_buf _ Hfiles _ _ Hq) as [b Eb]. congruence. }
    destruct (updated_ram r1 f1 H1) as [[-> E1] | [Hne1 H1']], (updated_ram r2 f2 H2) as [[-> E2] | [Hne2 H2']];
      try done.
    + exfalso. apply (Hnew r2 f2); congruence.
    + exfalso. apply (Hnew r1 f1); congruence.
    + by apply (fo_data _ Hfiles _ _ f1 f2).
Qed.
End update.

(** *** What changes *)

Section update_content.
Variables (m m0 : gmap Z obj) (p r : Z) (v : VfsNode) (fd : RamfsFileData) (nb : Z) (c : list Z) (cap : Z).
Hypothesis Hfiles : files_ok m.
Hypothesis Hp : m !! p = Some (ONode v).
Hypothesis Hpriv : private_data v = PRam r.
Hypothesis Hr : m !! r = Some (ORam fd).
Hypothesis Hother : forall q, q <> data fd -> q <> nb -> q <> r -> m0 !! q = m !! q.
Hypothesis Hnb : nb = data fd \/ m !! nb = None.
Hypothesis Hold : nb <> data fd -> m0 !! data fd = None.

Let m' := updated m0 p r v nb c cap.

Lemma updated_node_in q :
  node_in m' q = if decide (q = p) then Some (set_size (Z.of_nat (length c)) v) else node_in m q.
Proof using Hfiles Hp Hpriv Hr Hnb Hother Hold.
  destruct (updated_self m m0 p r v fd nb c cap Hfiles Hp Hpriv Hr Hnb) as (Sp & _ & _).
  unfold node_in, m'. case_decide as Hq; [by rewrite Hq, Sp |].
  destruct (update_ne m p r v fd nb Hfiles Hp Hpriv Hr Hnb) as (?&?&?&?&?).
  destruct (data_is_buf m p r v fd Hfiles Hp Hpriv Hr) as [b Eb].
  destruct (updated m0 p r v nb c cap !! q) as [[w | |] |] eqn:Eq';
    try (destruct (updated_node m m0 p r v fd nb c cap Hfiles Hp Hpriv Hr Hother Hnb Hold q w Eq') as [[? _] | [_ ->]];
         done);
    destruct (m !! q) as [[w | |] |] eqn:Eq; try done; exfalso;
    (assert (E : updated m0 p r v nb c cap !! q = m !! q); [| congruence]);
    unfold updated; rewrite !lookup_insert_ne; try (apply Hother); try congruence; intros ->; destruct Hnb; congruence.
Qed.

Lemma updated_content q : content m' q = if decide (q = p) then Some c else content m q.
Proof using Hfiles Hp Hpriv Hr Hnb Hother Hold.
  destruct (updated_self m m0 p r v fd nb c cap Hfiles Hp Hpriv Hr Hnb) as (Sp & Sr & Sb).
  pose proof (updated_node_in q) as En. case_decide as Hq.
  - subst q. unfold m'. rewrite (content_intro _ p _ r _ _ Sp Hpriv Sr Sb). f_equal. apply file_of_intro.
  - unfold content. rewrite En. destruct (node_in m q) as [w |] eqn:Ew; [| done]. simpl.
    unfold node_in in Ew. destruct (m !! q) as [[w' | |] |] eqn:Eq; try done. injection Ew as ->.
    destruct (private_data w) as [| rq |] eqn:Ew; try done.
    destruct (fo_ram _ Hfiles q w rq Eq Ew) as (fq & bq & Er & Eb & _).
    destruct (updated_other m m0 p r v fd nb c cap Hfiles Hp Hpriv Hr Hother Hnb Hold q w rq fq bq Hq Eq Ew Er Eb)
      as [Er' Eb'].
    unfold m'. by rewrite Er, Eb, Er', Eb'.
Qed.

Lemma updated_orphan q l : m !! q = Some (OBuf l) -> orphan m q -> m' !! q = Some (OBuf l) /\ orphan m' q.
Proof using Hfiles Hp Hpriv Hr Hnb Hother Hold.
  intros Eq Ho. destruct (update_ne m p r v fd nb Hfiles Hp Hpriv Hr Hnb) as (?&?&?&?&?).
  assert (Hqd : q <> data fd) by (intros ->; by apply (Ho r fd)).
  assert (Hqn : q <> nb) by (intros ->; destruct Hnb; congruence).
  split; [unfold m', updated; rewrite !lookup_insert_ne by congruence; rewrite Hother; congruence |].
  intros rq fq Erq. unfold m', updated in Erq. rewrite lookup_insert in Erq. case_decide; [done |].
  rewrite lookup_insert in Erq. case_decide; [by simplify_eq/= |].
  rewrite lookup_insert in Erq. case_decide; [done |].
  destruct (decide (rq = data fd)) as [-> |]; [rewrite Hold in Erq; congruence |].
  rewrite Hother in Erq by done. by apply (Ho rq).
Qed.
End update_content.

(** ** Reading and writing *)

Lemma splice_zeros d n : (length d <= n)%nat -> splice 0 d (replicate n 0) = d ++ replicate (n - length d) 0.
Proof.
  intros Hn. rewrite <- (app_nil_l (replicate n 0)), splice_overlay by (simpl; lia).
  unfold overlay. rewrite take_0, drop_nil, app_nil_r. simpl. done.
Qed.

Section operations.
Context {H X : Type} `{KernelHeap H}.
Implicit Types s : vfs H X.

(** [s'] is [s] with another heap and store. *)
Definition framed s s' : Prop := s' = set_store (store s') (set_hp (hp s') s).

Lemma framed_refl s : framed s s.
Proof. by destruct s. Qed.
Lemma framed_store s s' m : framed s s' -> framed s (set_store m s').
Proof. unfold framed. intros E. rewrite E. done. Qed.
Lemma framed_hp s s' h : framed s s' -> framed s (set_hp h s').
Proof. unfold framed. intros E. rewrite E. done. Qed.
Lemma framed_put s s' p o : framed s s' -> framed s (put p o s').
Proof. apply framed_store. Qed.

Lemma ramfs_grow_spec r fd buf needed s live :
  heap_ok s live -> store s !! r = Some (ORam fd) -> store s !! data fd = Some (OBuf buf) -> ram_ok fd buf ->
  capacity fd < needed <= 2 ^ 31 ->
  exists ok s1 live', ramfs_grow r fd needed s = Some (ok, s1) /\ heap_ok s1 live' /\ framed s s1 /\
    length live' = length live /\
    if ok : bool then exists nb cap, needed <= cap < 2 ^ 32 /\ cap mod 256 = 0 /\ nb <> data fd /\
      store s !! nb = None /\
      store s1 = <[r := ORam (RamData nb (size fd) cap)]> (delete (data fd)
        (<[nb := OBuf (file_of fd buf ++ replicate (Z.to_nat cap - length (file_of fd buf)) 0)]> (store s)))
    else store s1 = store s /\ short (Z.max 256 (2 * needed)) 0 (hp s).
Proof.
  intros Hho Hr Hb Hok Hn. pose proof (length_file_of _ _ Hok) as Hlen.
  destruct Hok as [Hl Hs Hc Hm Hz]. unfold ramfs_grow, grow_fuel.
  set (c0 := if capacity fd <? 256 then 256 else capacity fd).
  assert (Hc0 : 256 <= c0 < 2 ^ 32 /\ c0 mod 256 = 0) by (unfold c0; case_if; breflect; (split; [lia | done])).
  destruct (grow_terminates 32 c0 needed) as (cap & Eg & Hcap & Hle & Hcm); [lia.. |].
  rewrite Eg. cbn [mbind option_bind].
  destruct (alloc_spec cap (OBuf (replicate (Z.to_nat cap) 0)) s live Hho) as (nb & h & Ea & Hcase).
  { change (2 ^ 32) with 4294967296 in *. clear -Hcap Hle Hcm Hc0. mod_lia. }
  rewrite Ea. cbn [mbind option_bind].
  destruct Hcase as [(-> & Em & Hho') | (Hnz & Hfree & z & live' & Hperm & Hho')].
  { exists false, (set_hp h s), live. split_and!; try done. apply (short_now _ cap _ h); [| done].
    apply grow_le in Eg; [| lia]. split; [lia |]. etrans; [exact Eg |]. unfold c0 in *. case_if; breflect; lia. }
  rewrite (proj2 (Z.eqb_neq nb 0)) by done.
  assert (Hd0 : data fd <> 0) by (intros E; rewrite E, (ho_null _ _ Hho) in Hb; done).
  assert (Hne : nb <> data fd) by congruence. assert (Hnr : nb <> r) by congruence.
  rewrite (proj2 (Z.eqb_neq (data fd) 0)) by done.
  unfold buf_read, buf_at. cbn [put set_store set_hp store]. rewrite lookup_insert_ne, Hb by done.
  cbn [mbind option_bind]. rewrite (proj2 (Z.ltb_ge _ _)) by lia. cbn [mbind option_bind].
  change (slice (Z.to_nat 0) (Z.to_nat (size fd)) buf) with (file_of fd buf).
  set (s1 := put nb (OBuf (replicate (Z.to_nat cap) 0)) (set_hp h s)) in *.
  unfold buf_write, buf_at. change (store s1) with (<[nb := OBuf (replicate (Z.to_nat cap) 0)]> (store s)).
  rewrite lookup_insert_eq. cbn [mbind option_bind].
  rewrite length_replicate, (proj2 (Z.ltb_ge _ _)) by lia. cbn [mbind option_bind].
  change (Z.to_nat 0) with 0%nat. rewrite splice_zeros by lia.
  set (s2 := put nb _ s1).
  assert (Hs2 : store s2 = <[nb := OBuf (file_of fd buf ++ replicate (Z.to_nat cap - length (file_of fd buf)) 0)]> (store s)).
  { unfold s2, s1. cbn. by rewrite insert_insert_eq. }
  assert (Hho2 : heap_ok s2 live').
  { apply heap_ok_put; [done |]. unfold s1. cbn. rewrite lookup_insert_eq. by eexists. }
  assert (Hf2 : framed s s2) by done. clearbody s2.
  destruct (release_spec (data fd) s2 live' Hho2) as (h3 & z3 & live3 & E3 & Hperm3 & Hho3).
  { rewrite Hs2, lookup_insert_ne, Hb by done. by eexists. }
  rewrite E3. cbn [mbind option_bind].
  eexists true, _, live3. split; [reflexivity |].
  split; [apply heap_ok_put; [done |]; cbn; rewrite Hs2, lookup_delete_ne, lookup_insert_ne, Hr by congruence; by eexists |].
  split; [by apply framed_put, framed_store, framed_hp |]. split.
  { apply Permutation_length in Hperm, Hperm3. cbn [length] in Hperm, Hperm3. congruence. }
  exists nb, cap. cbn. rewrite Hs2. split; [lia |]. exact (conj Hcm (conj Hne (conj Hfree eq_refl))).
Qed.

(** [s'] is [s] with the contents of [p] replaced. *)
Record rewritten s s' (p : Z) (v : VfsNode) (c : list Z) : Prop := {
  rw_frame : framed s s';
  rw_content : forall q, content (store s') q = if decide (q = p) then Some c else content (store s) q;
  rw_node : forall q, node_in (store s') q =
    if decide (q = p) then Some (set_size (Z.of_nat (length c)) v) else node_in (store s) q;
  rw_orphan : forall q l, store s !! q = Some (OBuf l) -> orphan (store s) q ->
    store s' !! q = Some (OBuf l) /\ orphan (store s') q }.

(** The last part of a write, once the buffer is large enough. *)
Lemma ramfs_store_spec s s1 live p v r fd d c off nb cap m0 :
  files_ok (store s) -> store s !! p = Some (ONode v) -> private_data v = PRam r ->
  store s !! r = Some (ORam fd) -> framed s s1 -> heap_ok s1 live ->
  (forall q, q <> data fd -> q <> nb -> q <> r -> m0 !! q = store s !! q) ->
  nb = data fd \/ store s !! nb = None -> (nb <> data fd -> m0 !! data fd = None) ->
  store s1 = <[r := ORam (RamData nb (Z.of_nat (length c)) cap)]>
    (<[nb := OBuf (c ++ replicate (Z.to_nat cap - length c) 0)]> m0) ->
  0 <= off -> Z.of_nat (length c) <= cap < 2 ^ 32 -> cap mod 256 = 0 -> off + Z.of_nat (length d) <= cap ->
  exists s', (fd ← ram_at r s1;
      s2 ← buf_write (data fd) off d s1;
      let new_size := if size fd <? off + Z.of_nat (length d) then off + Z.of_nat (length d) else size fd in
      let s2 := put r (ORam (RamData (data fd) new_size (capacity fd))) s2 in
      v ← node_at p s2;
      Some (i32 (Z.of_nat (length d)), put p (ONode (set_size new_size v)) s2))
    = Some (i32 (Z.of_nat (length d)), s') /\
    heap_ok s' live /\ files_ok (store s') /\ rewritten s s' p v (overlay (Z.to_nat off) d c).
Proof.
  intros Hf Hp Hv Hr Hfr Hho Hother Hnb Hold Hs1 Hoff Hc Hm Hfit.
  destruct (update_ne (store s) p r v fd nb Hf Hp Hv Hr Hnb) as (Hpr & Hpn & Hrn & Hpd & Hrd).
  set (c' := overlay (Z.to_nat off) d c).
  assert (Hc' : Z.of_nat (length c') <= cap < 2 ^ 32) by (unfold c'; rewrite length_overlay; lia).
  assert (Hb1 : buf_at nb s1 = Some (c ++ replicate (Z.to_nat cap - length c) 0)).
  { unfold buf_at. rewrite Hs1, lookup_insert_ne, lookup_insert_eq by done. done. }
  unfold ram_at at 1. rewrite Hs1, lookup_insert_eq. cbn [mbind option_bind data size capacity].
  unfold buf_write. rewrite Hb1. cbn [mbind option_bind].
  rewrite (proj2 (Z.ltb_ge (Z.of_nat (length (c ++ _))) _)) by (rewrite length_app, length_replicate; lia).
  cbn [mbind option_bind]. rewrite splice_overlay by lia. fold c'.
  replace (if Z.of_nat (length c) <? off + Z.of_nat (length d) then off + Z.of_nat (length d)
           else Z.of_nat (length c)) with (Z.of_nat (length c'))
    by (unfold c'; rewrite length_overlay; case_if; breflect; lia).
  replace (length c + (Z.to_nat cap - length c) - length c')%nat with (Z.to_nat cap - length c')%nat by lia.
  unfold node_at, node_in. cbn [put set_store store].
  assert (Hp1 : store s1 !! p = Some (ONode v)).
  { rewrite Hs1, !lookup_insert_ne by done. by rewrite Hother. }
  rewrite !lookup_insert_ne, Hp1 by done. cbn [mbind option_bind].
  eexists. split; [reflexivity |].
  assert (Em : <[p := ONode (set_size (Z.of_nat (length c')) v)]>
      (<[r := ORam (RamData nb (Z.of_nat (length c')) cap)]>
      (<[nb := OBuf (c' ++ replicate (Z.to_nat cap - length c') 0)]> (store s1)))
      = updated m0 p r v nb c' cap).
  { unfold updated. f_equal. rewrite Hs1.
    rewrite (insert_insert_ne _ nb r), insert_insert_eq by done. f_equal. by rewrite insert_insert_eq. }
  match goal with |- heap_ok ?x _ /\ _ => set (s' := x) end.
  assert (Es : store s' = updated m0 p r v nb c' cap) by exact Em.
  assert (Hfr' : framed s s') by (by apply framed_store, framed_put, framed_put).
  assert (Hh' : hp s' = hp s1) by done. clearbody s'. split; [| split].
  - apply (heap_ok_store s1); [done | done |]. rewrite Es, <- Em, !dom_insert.
    assert (nb ∈ dom (store s1)) by (rewrite Hs1; set_solver).
    assert (r ∈ dom (store s1)) by (rewrite Hs1; set_solver).
    assert (p ∈ dom (store s1)) by (apply elem_of_dom; by rewrite Hp1). set_solver.
  - rewrite Es. by apply (updated_files_ok (store s) m0 p r v fd nb c' cap).
  - split; [done | | |]; intros q; rewrite Es.
    + by apply (updated_content (store s) m0 p r v fd nb c' cap).
    + by apply (updated_node_in (store s) m0 p r v fd nb c' cap).
    + intros l. by apply (updated_orphan (store s) m0 p r v fd nb c' cap).
Qed.

Lemma ramfs_write_spec s live p v c off d :
  heap_ok s live -> files_ok (store s) -> node_at p s = Some v -> content (store s) p = Some c ->
  0 <= off -> off + Z.of_nat (length d) <= 2 ^ 31 ->
  exists s' live', heap_ok s' live' /\ length live' = length live /\ files_ok (store s') /\
    ((ramfs_write p off d s = Some (i32 (Z.of_nat (length d)), s') /\
      rewritten s s' p v (overlay (Z.to_nat off) d c)) \/
     (ramfs_write p off d s = Some (-1, s') /\ framed s s' /\ store s' = store s /\
      Z.of_nat (length c) < off + Z.of_nat (length d) /\
      short (Z.max 256 (2 * (off + Z.of_nat (length d)))) 0 (hp s))).
Proof.
  intros Hho Hf Hv Hc Hoff Hfit.
  destruct (content_inv _ _ _ Hf Hc) as (v' & r & fd & buf & Hp & Hpriv & Hr & Hb & Hok & ->).
  assert (v' = v) as -> by (unfold node_at, node_in in Hv; rewrite Hp in Hv; congruence).
  assert (Hram : ram_at r s = Some fd) by (unfold ram_at; by rewrite Hr).
  assert (Hp0 : p <> 0) by (intros ->; by rewrite (ho_null _ _ Hho) in Hp).
  pose proof (length_file_of _ _ Hok) as Hlen. pose proof (ram_ok_split _ _ Hok) as Hbuf.
  pose proof Hok as [Hl Hs Hcap Hm Hz].
  unfold ramfs_write. rewrite (proj2 (Z.eqb_neq p 0)) by done.
  rewrite Hv. cbn [mbind option_bind]. rewrite Hpriv, Hram. cbn [mbind option_bind].
  rewrite (proj2 (Z.ltb_ge (0xFFFFFFFF - off) _)) by lia.
  assert (Hfc : Z.of_nat (length (file_of fd buf)) = size fd) by lia.
  destruct (Z.ltb_spec (capacity fd) (off + Z.of_nat (length d))) as [Hgrow | Hroom].
  - destruct (ramfs_grow_spec r fd buf (off + Z.of_nat (length d)) s live Hho Hr Hb Hok) as (ok & s1 & live' & E & Hho1 & Hfr & Hll & Hs1); [lia |].
    rewrite E. cbn [mbind option_bind]. destruct ok; cbn [negb].
    + destruct Hs1 as (nb & cap & Hcap1 & Hm1 & Hne & Hfree & Hs1).
      assert (Hnr : nb <> r) by congruence. assert (Hrd : r <> data fd) by congruence.
      destruct (ramfs_store_spec s s1 live' p v r fd d (file_of fd buf) off nb cap (delete (data fd) (store s)))
        as (s' & Es & Hho' & Hf' & Hrw); try done; try lia.
      * intros q ? ? ?. by rewrite lookup_delete_ne.
      * by right.
      * intros _. apply lookup_delete_eq.
      * by rewrite Hs1, Hfc, delete_insert_ne.
      * exists s', live'. split_and!; [done | done | done |]. left. split; [exact Es | done].
    + destruct Hs1 as [Hs1 Hno]. exists s1, live'. rewrite Hs1. split_and!; [done | done | done |]. right. split_and!; try done. lia.
  - cbn [mbind option_bind negb].
    destruct (ramfs_store_spec s s live p v r fd d (file_of fd buf) off (data fd) (capacity fd) (store s))
      as (s' & Es & Hho' & Hf' & Hrw); try done; try lia.
    * apply framed_refl.
    * rewrite Hfc. replace (Z.to_nat (capacity fd) - length (file_of fd buf))%nat with (length buf - Z.to_nat (size fd))%nat by lia.
      rewrite <- Hbuf. rewrite (insert_id (store s)) by done. symmetry. apply insert_id. rewrite Hr. by destruct fd.
    * exists s', live. split_and!; [done | done | done |]. left. split; [exact Es | done].
Qed.

Lemma ramfs_write_overflow s p v r fd off d :
  p <> 0 -> node_at p s = Some v -> private_data v = PRam r -> ram_at r s = Some fd ->
  2 ^ 32 <= off + Z.of_nat (length d) -> ramfs_write p off d s = Some (-1, s).
Proof.
  intros Hp Hv Hpriv Hr Hov. unfold ramfs_write. rewrite (proj2 (Z.eqb_neq p 0)), Hv by done.
  cbn [mbind option_bind]. rewrite Hpriv, Hr. cbn [mbind option_bind].
  by rewrite (proj2 (Z.ltb_lt (0xFFFFFFFF - off) _)) by lia.
Qed.

(** The bytes a file has at [off], at most [n]. *)
Definition file_slice (off n : Z) (c : list Z) : list Z := take (Z.to_nat n) (drop (Z.to_nat off) c).

(** The clamping of a read, shared by the RAM files and the initrd: it never
    passes the end, whatever [offset + size] wraps to. *)
Lemma clamp_spec off n len : 0 <= n < 2 ^ 32 -> 0 <= off < len -> len < 2 ^ 32 ->
  let sz := if 0xFFFFFFFF - off <? n then len - off else n in
  (if len <? u32 (off + sz) then len - off else sz) = Z.min n (len - off).
Proof.
  intros Hn Ho Hl. cbn zeta. destruct (Z.ltb_spec (0xFFFFFFFF - off) n) as [Hov | Hov]; unfold u32;
    rewrite Z.mod_small by lia; case_if; breflect; lia.
Qed.

Lemma ramfs_read_at s p v r fd buf off n :
  p <> 0 -> node_at p s = Some v -> private_data v = PRam r -> store s !! r = Some (ORam fd) ->
  store s !! data fd = Some (OBuf buf) -> ram_ok fd buf -> 0 <= off -> 0 <= n < 2 ^ 32 ->
  ramfs_read p off n s =
    Some (i32 (Z.of_nat (length (file_slice off n (file_of fd buf)))), file_slice off n (file_of fd buf)).
Proof.
  intros Hp0 Hp Hpriv Hr Hb Hok Hoff Hn.
  pose proof (length_file_of _ _ Hok) as Hlen. pose proof Hok as [Hl Hs Hcap _ _].
  unfold ramfs_read. rewrite (proj2 (Z.eqb_neq p 0)), Hp by done. cbn [mbind option_bind]. rewrite Hpriv.
  unfold ram_at. rewrite Hr. cbn [mbind option_bind]. unfold file_slice.
  destruct (Z.leb_spec (size fd) off) as [Hge | Hlt].
  - rewrite (drop_ge (file_of fd buf)) by lia. by rewrite take_nil.
  - cbn zeta. rewrite clamp_spec by lia. unfold buf_read, buf_at. rewrite Hb. cbn [mbind option_bind].
    rewrite (proj2 (Z.ltb_ge _ _)) by lia. cbn [mbind option_bind].
    rewrite length_take, length_drop, Hlen. do 2 f_equal; [f_equal; lia |].
    unfold slice, file_of. rewrite !take_drop_commute, take_take. do 2 f_equal. lia.
Qed.

Lemma ramfs_read_spec s p c off n :
  files_ok (store s) -> p <> 0 -> content (store s) p = Some c -> 0 <= off -> 0 <= n < 2 ^ 32 ->
  ramfs_read p off n s = Some (i32 (Z.of_nat (length (file_slice off n c))), file_slice off n c).
Proof.
  intros Hf Hp0 Hc Hoff Hn.
  destruct (content_inv _ _ _ Hf Hc) as (v & r & fd & buf & Hp & Hpriv & Hr & Hb & Hok & ->).
  eapply ramfs_read_at; try done. unfold node_at, node_in. by rewrite Hp.
Qed.
End operations.
