(* ===== verification/VfsTree.v ===== *)
(** The directory tree: paths as lists of components, the walk they describe,
    and what looking up and creating directories does to it. *)
From S2P Require Import Prelude StringRs Heap VfsNode VfsStore Ramfs RamFiles Initrd Devfs Fat16Vfs Vfs.

(** ** Paths *)

Fixpoint split_on (s : list Z) : list (list Z) :=
  match s with
  | [] => [[]]
  | b :: s =>
      if b =? 47 then [] :: split_on s
      else match split_on s with w :: ws => (b :: w) :: ws | [] => [[b]] end
  end.

(** The components of a path: what lies between slashes, cut at 63 bytes, the
    empty ones left out. *)
Definition components (path : list Z) : list (list Z) := take 63 <$> filter (fun w => w <> []) (split_on path).

Fixpoint word (p : list Z) : list Z :=
  match p with [] => [] | b :: p => if b =? 47 then [] else b :: word p end.

Lemma component_spec ci p :
  component ci p = (take (63 - ci) (word p), (component ci p).2) /\
  skip_component (component ci p).2 = skip_component p /\ (length (component ci p).2 <= length p)%nat.
Proof.
  revert ci; induction p as [| c p IH]; intros ci; [cbn; by rewrite take_nil |]. cbn [component word skip_component].
  destruct (Z.eqb_spec c 47) as [-> | Hc]; cbn [orb].
  - rewrite take_nil. by split_and!.
  - destruct (Z.leb_spec 63 (Z.of_nat ci)).
    + replace (63 - ci)%nat with 0%nat by lia. cbn. rewrite (proj2 (Z.eqb_neq c 47)) by done. by split_and!.
    + destruct (IH (S ci)) as (E & Es & El). rewrite E. cbn [fst snd].
      replace (63 - ci)%nat with (S (63 - S ci)) by lia. cbn. split_and!; [done | done | lia].
Qed.

Lemma skip_component_length p : (length (skip_component p) <= length p)%nat.
Proof. induction p as [| c p IH]; simpl; [lia |]. case_if; simpl; lia. Qed.
Lemma skip_slashes_length p : (length (skip_slashes p) <= length p)%nat.
Proof. induction p as [| c p IH]; simpl; [lia |]. case_if; simpl; lia. Qed.

Definition no_slash_start (p : list Z) : Prop := head p <> Some 47.

Lemma skip_slashes_start p : no_slash_start (skip_slashes p).
Proof.
  unfold no_slash_start. induction p as [| c p IH]; [done |]. simpl.
  case_if; [done |]. breflect. simpl. congruence.
Qed.

Lemma split_on_word p :
  split_on p = word p :: match skip_component p with [] => [] | _ :: r => split_on r end.
Proof.
  induction p as [| c p IH]; [done |]. cbn [split_on word skip_component]. case_if; [done |]. by rewrite IH.
Qed.

Lemma components_slash p : components (47 :: p) = components p.
Proof. done. Qed.
Lemma components_skip p : components (skip_slashes p) = components p.
Proof.
  induction p as [| c p IH]; [done |]. cbn [skip_slashes]. case_if; [| done]. breflect. subst c.
  by rewrite components_slash.
Qed.

(** What follows the first component. *)
Lemma skip_component_cases p : skip_component p = [] \/ exists r, skip_component p = 47 :: r.
Proof.
  induction p as [| c p IH]; [by left |]. simpl. case_if; [| done]. breflect. right. exists p. by subst.
Qed.

Lemma next_component_spec p : p <> [] -> no_slash_start p ->
  components p = (next_component p).1 :: components (next_component p).2 /\
  (next_component p).1 <> [] /\ (length (next_component p).1 <= 63)%nat /\
  (length (next_component p).2 < length p)%nat /\ no_slash_start (next_component p).2.
Proof.
  intros Hne Hns. destruct p as [| c p]; [done |].
  assert (Hc : (c =? 47) = false) by (apply Z.eqb_neq; intros ->; by apply Hns).
  unfold next_component. destruct (component_spec 0 (c :: p)) as (E & Es & El).
  rewrite E. cbn [fst snd]. rewrite Es.
  assert (Hw : word (c :: p) = c :: word p) by (cbn; by rewrite Hc).
  assert (Hsk : skip_component (c :: p) = skip_component p) by (cbn; by rewrite Hc).
  rewrite Hsk, components_skip, Hw.
  split; [| split; [done | split; [rewrite length_take; lia | split; [| apply skip_slashes_start]]]].
  - unfold components at 1. rewrite split_on_word, Hw, Hsk. rewrite filter_cons_True by done. rewrite fmap_cons.
    f_equal. destruct (skip_component_cases p) as [-> | [r ->]]; [done |]. by rewrite components_slash.
  - pose proof (skip_slashes_length (skip_component p)). pose proof (skip_component_length p).
    cbn [length]. lia.
Qed.

Lemma components_no_nul p : no_nul p -> Forall no_nul (components p).
Proof.
  intros Hp. unfold components. apply Forall_fmap. apply Forall_impl with (P := no_nul); [| intros; by apply no_nul_take].
  assert (Hs : Forall no_nul (split_on p)); [| rewrite Forall_forall in Hs; apply Forall_forall;
    intros w Hw; apply Hs; by apply list_elem_of_filter in Hw as [_ Hw]].
  induction Hp as [| c p Hc Hp IH]; [by repeat constructor |]. cbn [split_on].
  case_if; [by constructor; [constructor |] |].
  destruct IH as [| w ws Hw Hws]; repeat constructor; auto.
Qed.

(** ** Look-up *)

(** The directory of a FAT16 volume answers from the disk, not from its children. *)
Definition on_volume (v : VfsNode) : bool := match finddir_fn v with Some Fat16Dir => true | _ => false end.

(** [None]: the store does not say what the directory has. *)
Definition lookup_name (m : gmap Z obj) (dir : Z) (nm : list Z) : option Z :=
  if dir =? 0 then Some 0 else
  v ← node_in m dir;
  if on_volume v then None else if is_dir v then find_child m nm (children v) else Some 0.

Fixpoint walk (m : gmap Z obj) (cur : Z) (ws : list (list Z)) : option Z :=
  match ws with [] => Some cur | w :: ws => c ← lookup_name m cur w; walk m c ws end.

(** The tree: children are nodes, names are C strings that fit, and a node has a
    look-up function when it is a directory.  A mounted volume is a node of it. *)
Record tree_ok (m : gmap Z obj) (root : Z) : Prop := {
  to_null : m !! 0 = None;
  to_root : exists v, node_in m root = Some v;
  to_child : forall p v c, node_in m p = Some v -> c ∈ children v -> exists w, node_in m c = Some w;
  to_name : forall p v, node_in m p = Some v -> no_nul (name v) /\ (length (name v) <= 63)%nat;
  to_dir : forall p v, node_in m p = Some v -> is_dir v = true ->
    exists f, finddir_fn v = Some f;
  to_file : forall p v, node_in m p = Some v -> is_dir v = false -> finddir_fn v = None }.

Lemma find_child_total m nm cs : (forall c, c ∈ cs -> exists w, node_in m c = Some w) ->
  exists c, find_child m nm cs = Some c /\ (c = 0 \/ exists w, node_in m c = Some w).
Proof.
  induction cs as [| c cs IH]; intros Hcs; [exists 0; by split; [| left] |]. cbn [find_child].
  destruct (Hcs c) as [w Ew]; [by left |]. rewrite Ew. cbn [mbind option_bind].
  case_if; [exists c; split; [done | right; by exists w] |]. apply IH. intros; apply Hcs; by right.
Qed.

Lemma find_child_same m m' nm cs : (forall c, c ∈ cs -> node_in m' c = node_in m c) ->
  find_child m' nm cs = find_child m nm cs.
Proof.
  induction cs as [| c cs IH]; intros Hcs; [done |]. cbn [find_child]. rewrite (Hcs c) by (by left).
  destruct (node_in m c); [| done]. cbn [mbind option_bind]. case_if; [done |]. apply IH. intros; apply Hcs; by right.
Qed.

(** A node stored where there was none changes no look-up. *)
Lemma lookup_name_fresh m m' root n dir nm v : tree_ok m root -> node_in m n = None ->
  (forall q, q <> n -> node_in m' q = node_in m q) -> node_in m dir = Some v ->
  lookup_name m' dir nm = lookup_name m dir nm.
Proof.
  intros Ht Hn E Hd. unfold lookup_name. rewrite E, Hd by (intros ->; congruence). cbn [mbind option_bind].
  destruct (dir =? 0); [done |]. destruct (on_volume v); [done |]. destruct (is_dir v); [| done].
  apply find_child_same. intros c Hc. apply E.
  intros ->. destruct (to_child _ _ Ht dir v n Hd Hc). congruence.
Qed.

Lemma lookup_name_total m root dir v nm : tree_ok m root -> node_in m dir = Some v -> on_volume v = false ->
  exists c, lookup_name m dir nm = Some c.
Proof.
  intros Ht Ev Hv. unfold lookup_name. case_if; [by eexists |]. rewrite Ev. cbn [mbind option_bind]. rewrite Hv.
  destruct (is_dir v); [| by eexists]. destruct (find_child_total m nm (children v)) as (c & ? & _); [| by exists c].
  intros c Hc. by apply (to_child _ _ Ht dir v).
Qed.

(** What is found is a node. *)
Lemma lookup_name_node m root dir nm c : tree_ok m root -> lookup_name m dir nm = Some c ->
  c = 0 \/ exists w, node_in m c = Some w.
Proof.
  intros Ht. unfold lookup_name. case_if; [intros [= <-]; by left |].
  destruct (node_in m dir) as [v |] eqn:Ev; [| done]. cbn [mbind option_bind].
  case_if; [done |]. case_if; [| intros [= <-]; by left].
  destruct (find_child_total m nm (children v)) as (d & -> & Hd); [intros c' Hc; by apply (to_child _ _ Ht dir v) |].
  by intros [= <-].
Qed.

Lemma node_ne_0 m root p v : tree_ok m root -> node_in m p = Some v -> p <> 0.
Proof. intros Ht Hp ->. unfold node_in in Hp. by rewrite (to_null _ _ Ht) in Hp. Qed.

Section tree.
Context {H X : Type} `{KernelHeap H} `{Console X} `{FatDisk X}.
Implicit Types s : vfs H X.

Lemma finddir_lookup s root dir nm c : tree_ok (store s) root ->
  lookup_name (store s) dir nm = Some c -> finddir dir nm s = Some (c, s).
Proof.
  intros Ht. unfold lookup_name, finddir, node_at. destruct (dir =? 0); [by intros [= <-] |].
  destruct (node_in (store s) dir) as [v |] eqn:Ev; [| done]. cbn [mbind option_bind].
  destruct (on_volume v) eqn:Hv; [done |]. unfold on_volume in Hv. destruct (is_dir v) eqn:Ed.
  - destruct (to_dir _ _ Ht dir v Ev Ed) as (f & Ef). rewrite Ef in *. intros Ec.
    unfold pure, default_finddir, ramfs_finddir, devfs_finddir, node_at. rewrite Ev. cbn [mbind option_bind].
    rewrite Ed. cbn [negb]. destruct f; try done; by rewrite Ec.
  - rewrite (to_file _ _ Ht dir v Ev Ed). by intros [= <-].
Qed.

Lemma resolve_loop_walk s root fuel p cur c : tree_ok (store s) root ->
  no_slash_start p -> (length p < fuel)%nat ->
  walk (store s) cur (components p) = Some c -> resolve_loop fuel p cur s = Some (c, s).
Proof.
  intros Ht. revert p cur. induction fuel as [| fuel IH]; intros p cur Hns Hlen; [lia |].
  destruct p as [| b p]; [by intros [= <-] |]. cbn [resolve_loop].
  destruct (next_component_spec (b :: p)) as (Ec & _ & _ & Hl & Hns'); [done | done |]. rewrite Ec.
  destruct (next_component (b :: p)) as [w r]. cbn [fst snd] in *. cbn [walk]. case_if.
  - breflect. subst cur. cbn [lookup_name Z.eqb mbind option_bind].
    intros Hw. assert (c = 0) as ->; [| done].
    clear -Hw. induction (components r) as [| ? ? IHl]; cbn in Hw; [congruence | auto].
  - destruct (lookup_name (store s) cur w) as [c' |] eqn:El; [| done]. cbn [mbind option_bind].
    rewrite (finddir_lookup s root cur w c' Ht El). cbn [mbind option_bind]. apply IH; [done | lia].
Qed.

(** [resolve_path] walks down the components of the path. *)
Lemma resolve_path_walk s path c : tree_ok (store s) (VFS_ROOT s) ->
  walk (store s) (VFS_ROOT s) (components path) = Some c -> resolve_path (Some path) s = Some (c, s).
Proof.
  intros Ht Hw. unfold resolve_path. apply (resolve_loop_walk _ (VFS_ROOT s)); [done | apply skip_slashes_start | lia |].
  by rewrite components_skip.
Qed.
End tree.

Lemma walk_node m root cur ws c : tree_ok m root -> (cur = 0 \/ exists v, node_in m cur = Some v) ->
  walk m cur ws = Some c -> c = 0 \/ exists w, node_in m c = Some w.
Proof.
  intros Ht. revert cur. induction ws as [| w ws IH]; intros cur Hc; [by intros [= <-] |]. cbn [walk].
  destruct (lookup_name m cur w) as [d |] eqn:El; [| done]. cbn [mbind option_bind]. apply IH. by eapply lookup_name_node.
Qed.

Lemma walk_zero m ws : walk m 0 ws = Some 0.
Proof. induction ws as [| w ws IH]; [done |]. cbn [walk lookup_name Z.eqb mbind option_bind]. exact IH. Qed.
