(* ===== verification/VfsMake.v ===== *)
(** Adding nodes to the tree: a new node keeps every path and every file as they
    were; [mkdir] and [mkdir_p]. *)
From S2P Require Import Prelude StringRs Heap VfsNode VfsStore Ramfs RamFiles Initrd Devfs Fat16Vfs Vfs VfsTree.

(** ** Growth of the tree *)

(** Nodes stay, and directories only gain entries at the end. *)
Definition extends (m m' : gmap Z obj) : Prop := forall p v, node_in m p = Some v ->
  exists v', node_in m' p = Some v' /\ name v' = name v /\ flags v' = flags v /\ finddir_fn v' = finddir_fn v /\
    exists new, children v' = children v ++ new.

#[export] Instance extends_preorder : PreOrder extends.
Proof.
  split.
  - intros m p v Hv. exists v. split_and!; try done. exists []. by rewrite app_nil_r.
  - intros m1 m2 m3 H1 H2 p v Hv. destruct (H1 p v Hv) as (v2 & Hv2 & N2 & F2 & D2 & l2 & C2).
    destruct (H2 p v2 Hv2) as (v3 & Hv3 & N3 & F3 & D3 & l3 & C3).
    exists v3. split_and!; [done | congruence | congruence | congruence |]. exists (l2 ++ l3).
    by rewrite C3, C2, app_assoc.
Qed.

Lemma find_child_extends m m' nm cs new c : extends m m' -> find_child m nm cs = Some c -> c <> 0 ->
  find_child m' nm (cs ++ new) = Some c.
Proof.
  intros He Hf Hc. induction cs as [| d cs IH]; [simpl in Hf; congruence |]. cbn [find_child app] in *.
  destruct (node_in m d) as [v |] eqn:Ev; [| done]. cbn [mbind option_bind] in Hf.
  destruct (He d v Ev) as (v' & Ev' & En & _). rewrite Ev'. cbn [mbind option_bind]. rewrite En.
  destruct (strcmp_list (name v) nm =? 0); auto.
Qed.

Lemma lookup_extends m m' dir nm c : extends m m' -> lookup_name m dir nm = Some c -> c <> 0 ->
  lookup_name m' dir nm = Some c.
Proof.
  intros He Hl Hc. unfold lookup_name in *. destruct (dir =? 0); [congruence |].
  destruct (node_in m dir) as [v |] eqn:Ev; [| done]. cbn [mbind option_bind] in Hl.
  destruct (He dir v Ev) as (v' & Ev' & _ & Hfl & Hfn & new & Ec). rewrite Ev'. cbn [mbind option_bind]. rewrite Ec.
  unfold is_dir, on_volume in *. rewrite Hfl, Hfn. destruct (match finddir_fn v with Some Fat16Dir => true | _ => false end); [done |].
  destruct (negb _); [by apply (find_child_extends m) | congruence].
Qed.

Lemma walk_extends m m' cur ws c : extends m m' -> walk m cur ws = Some c -> c <> 0 -> walk m' cur ws = Some c.
Proof.
  intros He. revert cur. induction ws as [| w ws IH]; intros cur Hw Hc; [done |]. cbn [walk] in *.
  destruct (lookup_name m cur w) as [d |] eqn:El; [| done]. cbn [mbind option_bind] in Hw.
  assert (d <> 0) by (intros ->; rewrite walk_zero in Hw; congruence).
  rewrite (lookup_extends m m' cur w d) by done. cbn [mbind option_bind]. by apply IH.
Qed.

Lemma walk_app m cur ws1 ws2 : walk m cur (ws1 ++ ws2) = (c ← walk m cur ws1; walk m c ws2).
Proof.
  revert cur; induction ws1 as [| w ws1 IH]; intros cur; [done |]. cbn [walk app].
  destruct (lookup_name m cur w) as [c |]; [| done]. cbn [mbind option_bind]. apply IH.
Qed.

(** ** A new node *)

Definition name_ok (nm : list Z) : Prop := no_nul nm /\ (length nm <= 63)%nat.

Record fresh_node (v : VfsNode) : Prop := {
  fn_name : name_ok (name v);
  fn_children : children v = [];
  fn_dir : is_dir v = true -> exists f, finddir_fn v = Some f;
  fn_file : is_dir v = false -> finddir_fn v = None }.

Lemma node_in_insert m p v q : node_in (<[p := ONode v]> m) q = if decide (q = p) then Some v else node_in m q.
Proof.
  unfold node_in. case_decide as E; [subst; by rewrite lookup_insert_eq | by rewrite lookup_insert_ne].
Qed.

Lemma node_in_insert_other m p o q : node_in m p = None -> (forall v, o <> ONode v) ->
  node_in (<[p := o]> m) q = node_in m q.
Proof.
  intros Hp Ho. unfold node_in in *. destruct (decide (q = p)) as [-> |]; [| by rewrite lookup_insert_ne].
  rewrite lookup_insert_eq. destruct o; [by destruct (Ho v) | |]; by rewrite Hp.
Qed.

Lemma tree_ok_ext m m' root : (forall q, node_in m' q = node_in m q) -> m' !! 0 = None ->
  tree_ok m root -> tree_ok m' root.
Proof.
  intros E H0 [_ Hr Hc Hn Hd Hf]. split; [done | | intros p v c | intros p v | intros p v | intros p v];
    rewrite ?E; eauto.
Qed.

Lemma tree_ok_new m root p v : p <> 0 -> m !! p = None -> fresh_node v -> tree_ok m root ->
  tree_ok (<[p := ONode v]> m) root.
Proof.
  intros Hp Hm [Hn Hc Hd Hf] [T0 Tr Tc Tn Td Tf]. split.
  - by rewrite lookup_insert_ne.
  - destruct Tr as [w Ew]. rewrite node_in_insert. case_decide; eauto.
  - intros q w c. rewrite node_in_insert. case_decide.
    + intros [= <-] Hin. rewrite Hc in Hin. set_solver.
    + intros Hw Hin. destruct (Tc q w c Hw Hin) as [w' Ew']. rewrite node_in_insert. case_decide; eauto.
  - intros q w. rewrite node_in_insert. case_decide; [intros [= <-]; done | apply Tn].
  - intros q w. rewrite node_in_insert. case_decide; [intros [= <-]; done | apply Td].
  - intros q w. rewrite node_in_insert. case_decide; [intros [= <-]; done | apply Tf].
Qed.

Lemma extends_insert m p o : m !! p = None -> extends m (<[p := o]> m).
Proof.
  intros Hp q v Hv. assert (q <> p) by (intros ->; unfold node_in in Hv; by rewrite Hp in Hv).
  exists v. unfold node_in in *. rewrite lookup_insert_ne by done. split_and!; try done. exists []. by rewrite app_nil_r.
Qed.

(** ** Linking a node below a directory *)

Definition linked (m : gmap Z obj) (par : Z) (v : VfsNode) (child : Z) (w : VfsNode) : gmap Z obj :=
  <[child := ONode (set_parent par w)]> (<[par := ONode (set_children (children v ++ [child]) v)]> m).

Section linked.
Variables (m : gmap Z obj) (root par child : Z) (v w : VfsNode).
Hypothesis Hpar : node_in m par = Some v.
Hypothesis Hchild : node_in m child = Some w.
Hypothesis Hne : par <> child.

Lemma linked_node q : node_in (linked m par v child w) q =
  if decide (q = child) then Some (set_parent par w)
  else if decide (q = par) then Some (set_children (children v ++ [child]) v) else node_in m q.
Proof using Type. unfold linked. by rewrite !node_in_insert. Qed.

Lemma linked_extends : extends m (linked m par v child w).
Proof using All.
  intros q u Hu. rewrite linked_node. case_decide as E1; [| case_decide as E2].
  - subst q. eexists. split; [done |]. assert (u = w) as -> by congruence. split_and!; try done.
    exists []. cbn. by rewrite app_nil_r.
  - subst q. eexists. split; [done |]. assert (u = v) as -> by congruence. split_and!; try done. by eexists.
  - exists u. split_and!; try done. exists []. by rewrite app_nil_r.
Qed.

Lemma linked_tree_ok : tree_ok m root -> tree_ok (linked m par v child w) root.
Proof using All.
  intros Ht. pose proof Ht as [T0 Tr Tc Tn Td Tf].
  assert (Hsome : forall q u, node_in m q = Some u -> exists u', node_in (linked m par v child w) q = Some u').
  { intros q u Hq. destruct (linked_extends q u Hq) as (u' & ? & _). by exists u'. }
  split.
  - unfold linked. assert (child <> 0) by (by eapply node_ne_0). assert (par <> 0) by (by eapply node_ne_0).
    by rewrite !lookup_insert_ne.
  - destruct Tr as [u Hu]. by eapply Hsome.
  - intros q u c. rewrite linked_node. case_decide; [| case_decide].
    + intros [= <-] Hin. destruct (Tc child w c Hchild Hin) as [u' Hu']. by eapply Hsome.
    + intros [= <-] Hin. cbn in Hin. apply elem_of_app in Hin as [Hin | ->%list_elem_of_singleton].
      * destruct (Tc par v c Hpar Hin) as [u' Hu']. by eapply Hsome.
      * by eapply Hsome.
    + intros Hq Hin. destruct (Tc q u c Hq Hin) as [u' Hu']. by eapply Hsome.
  - intros q u. rewrite linked_node. case_decide; [| case_decide]; [intros [= <-].. |]; [exact (Tn child w Hchild) | exact (Tn par v Hpar) | apply Tn].
  - intros q u. rewrite linked_node. case_decide; [| case_decide]; [intros [= <-].. |]; [exact (Td child w Hchild) | exact (Td par v Hpar) | apply Td].
  - intros q u. rewrite linked_node. case_decide; [| case_decide]; [intros [= <-].. |]; [exact (Tf child w Hchild) | exact (Tf par v Hpar) | apply Tf].
Qed.

(** A name that was not there finds the new node. *)
Lemma linked_lookup : tree_ok m root -> is_dir v = true -> lookup_name m par (name w) = Some 0 -> no_nul (name w) ->
  lookup_name (linked m par v child w) par (name w) = Some child.
Proof using All.
  intros Ht Hd. assert (Hp0 : par <> 0) by (by eapply node_ne_0).
  unfold lookup_name. rewrite (proj2 (Z.eqb_neq par 0)), Hpar by done. cbn [mbind option_bind].
  rewrite Hd, linked_node, decide_False, decide_True by done. cbn [mbind option_bind].
  change (is_dir (set_children (children v ++ [child]) v)) with (is_dir v). rewrite Hd. cbn [children set_children].
  change (on_volume (set_children (children v ++ [child]) v)) with (on_volume v). destruct (on_volume v); [done |].
  intros Hf Hn.
  assert (Hcs : forall c, c ∈ children v -> exists u, node_in m c = Some u) by (intros; by eapply (to_child _ _ Ht par)).
  pose proof linked_extends as He.
  induction (children v) as [| c cs IH].
  - cbn [find_child app]. rewrite linked_node, decide_True by done. cbn [mbind option_bind].
    change (name (set_parent par w)) with (name w). by rewrite strcmp_list_refl.
  - cbn [find_child app] in *. destruct (Hcs c) as [u Hu]; [by left |]. rewrite Hu in Hf. cbn [mbind option_bind] in Hf.
    destruct (He c u Hu) as (u' & Hu' & En & _). rewrite Hu'. cbn [mbind option_bind]. rewrite En.
    destruct (strcmp_list (name u) (name w) =? 0).
    + injection Hf as ->. exfalso. by eapply (node_ne_0 _ _ _ _ Ht Hu).
    + apply IH; [done |]. intros; apply Hcs; by right.
Qed.
End linked.

(** ** What the files are made of *)

(** What [files_ok] and [content] look at in an object. *)
Definition obj_view (o : obj) : option ((private * Z) + (RamfsFileData + list Z)) :=
  match o with
  | ONode v => match private_data v with PNull => None | d => Some (inl (d, n_size v)) end
  | ORam d => Some (inr (inl d))
  | OBuf l => Some (inr (inr l))
  end.
Definition file_view (m : gmap Z obj) (p : Z) := o ← m !! p; obj_view o.
Definition same_files (m m' : gmap Z obj) : Prop := forall p, file_view m' p = file_view m p.

Lemma file_view_node m p v r : m !! p = Some (ONode v) -> private_data v = PRam r ->
  file_view m p = Some (inl (PRam r, n_size v)).
Proof. intros Hp Hv. unfold file_view. rewrite Hp. cbn. by rewrite Hv. Qed.
Lemma file_view_node_inv m p r n : file_view m p = Some (inl (PRam r, n)) ->
  exists v, m !! p = Some (ONode v) /\ private_data v = PRam r /\ n_size v = n.
Proof.
  unfold file_view. destruct (m !! p) as [[v | |] |]; cbn; try done.
  destruct (private_data v) eqn:E; try done. intros [= <- <-]. by exists v.
Qed.
Lemma file_view_ram m p d : file_view m p = Some (inr (inl d)) <-> m !! p = Some (ORam d).
Proof.
  unfold file_view. split; [| by intros ->]. destruct (m !! p) as [[v | |] |]; cbn; try done.
  - by destruct (private_data v).
  - by intros [= ->].
Qed.
Lemma file_view_buf m p l : file_view m p = Some (inr (inr l)) <-> m !! p = Some (OBuf l).
Proof.
  unfold file_view. split; [| by intros ->]. destruct (m !! p) as [[v | |] |]; cbn; try done.
  - by destruct (private_data v).
  - by intros [= ->].
Qed.

Lemma file_view_insert m p o q :
  file_view (<[p := o]> m) q = if decide (q = p) then obj_view o else file_view m q.
Proof.
  unfold file_view. case_decide as E; [subst; by rewrite lookup_insert_eq | by rewrite lookup_insert_ne].
Qed.

Lemma same_files_ok m m' : same_files m m' -> files_ok m -> files_ok m'.
Proof.
  intros Hs [Hr Hn Hb Hd].
  assert (Node : forall p v r, m' !! p = Some (ONode v) -> private_data v = PRam r ->
    exists v0, m !! p = Some (ONode v0) /\ private_data v0 = PRam r /\ n_size v0 = n_size v).
  { intros p v r Hp Hv. apply file_view_node_inv. rewrite <- (Hs p). by apply file_view_node. }
  assert (Ram : forall p d, m' !! p = Some (ORam d) <-> m !! p = Some (ORam d)).
  { intros. by rewrite <- !file_view_ram, Hs. }
  assert (Buf : forall p l, m' !! p = Some (OBuf l) <-> m !! p = Some (OBuf l)).
  { intros. by rewrite <- !file_view_buf, Hs. }
  split.
  - intros p v r Hp Hv. destruct (Node p v r Hp Hv) as (v0 & Hp0 & Hv0 & _).
    destruct (Hr p v0 r Hp0 Hv0) as (fd & buf & ? & ? & ?). exists fd, buf. by rewrite Ram, Buf.
  - intros p q v w r Hp Hq Hv Hw. destruct (Node p v r Hp Hv) as (v0 & Hp0 & Hv0 & _).
    destruct (Node q w r Hq Hw) as (w0 & Hq0 & Hw0 & _). by apply (Hn p q v0 w0 r).
  - intros r f Hf%Ram. destruct (Hb r f Hf) as [buf Hbuf]. exists buf. by apply Buf.
  - intros r1 r2 f1 f2 H1%Ram H2%Ram. by apply Hd.
Qed.

Lemma content_view m p : content m p =
  match file_view m p with
  | Some (inl (PRam r, _)) =>
      match file_view m r with
      | Some (inr (inl fd)) => match file_view m (data fd) with Some (inr (inr b)) => Some (file_of fd b) | _ => None end
      | _ => None
      end
  | _ => None
  end.
Proof.
  unfold content, node_in. unfold file_view at 1. destruct (m !! p) as [[v | |] |]; try done.
  cbn [mbind option_bind obj_view]. destruct (private_data v) as [| r | i]; try done.
  unfold file_view at 1. destruct (m !! r) as [[u | |] |]; try done; cbn [mbind option_bind obj_view].
  - by destruct (private_data u).
  - unfold file_view. destruct (m !! data d) as [[u | |] |]; try done. cbn. by destruct (private_data u).
Qed.

Lemma same_files_content m m' q : same_files m m' -> content m' q = content m q.
Proof.
  intros Hs. rewrite !content_view, Hs. destruct (file_view m q) as [[[[| r |] n] | ] |]; try done.
  rewrite Hs. destruct (file_view m r) as [[| [fd |]] |]; try done. by rewrite Hs.
Qed.

Lemma same_files_new m p v : m !! p = None -> private_data v = PNull -> same_files m (<[p := ONode v]> m).
Proof.
  intros Hp Hv q. rewrite file_view_insert. case_decide as E; [| done]. subst q. cbn. rewrite Hv.
  unfold file_view. by rewrite Hp.
Qed.

Lemma linked_same_files m par v child w : node_in m par = Some v -> node_in m child = Some w ->
  same_files m (linked m par v child w).
Proof.
  intros Hp Hc q. unfold linked. rewrite !file_view_insert.
  assert (V : forall r u u', node_in m r = Some u -> obj_view (ONode u') = obj_view (ONode u) ->
    obj_view (ONode u') = file_view m r).
  { intros r u u' Hr Hv. unfold file_view, node_in in *. destruct (m !! r) as [[|  |] |]; try done. by injection Hr as ->. }
  case_decide as E; [subst; by apply (V child w) |]. case_decide as E2; [subst; by apply (V par v) | done].
Qed.

Lemma next_component_no_nul p : no_nul p -> no_nul (next_component p).2.
Proof.
  intros Hp. unfold next_component. destruct (component_spec 0 p) as (E & Es & _). rewrite E. cbn [fst snd].
  rewrite Es. clear E Es. induction Hp as [| c p Hc Hp IH]; [constructor |]. cbn [skip_component].
  destruct (c =? 47); [| done]. cbn [skip_slashes]. clear IH.
  assert (Hs : no_nul (skip_slashes p)).
  { induction Hp as [| d p Hd Hp IH]; [constructor |]. cbn [skip_slashes]. case_if; [done | by constructor]. }
  case_if; [done | by constructor].
Qed.

(** ** [mkdir] *)

Section mkdir.
Context {H X : Type} `{KernelHeap H} `{Console X} `{FatDisk X}.
Implicit Types s : vfs H X.

Record vfs_ok s (live : list (Z * Z)) : Prop := {
  vo_heap : heap_ok s live;
  vo_tree : tree_ok (store s) (VFS_ROOT s);
  vo_files : files_ok (store s) }.

(** The path does not lead through the directory of a FAT16 volume. *)
Definition off_volume s (path : list Z) : Prop := is_Some (walk (store s) (VFS_ROOT s) (components path)).

(** [s'] has what [s] has, and perhaps more entries in its directories. *)
Record grows s s' : Prop := {
  gr_frame : framed s s';
  gr_tree : extends (store s) (store s');
  gr_files : same_files (store s) (store s') }.

Lemma framed_trans s1 s2 s3 : framed s1 s2 -> framed s2 s3 -> framed s1 s3.
Proof. unfold framed. intros E1 E2. rewrite E2, E1. done. Qed.

#[export] Instance grows_preorder : PreOrder grows.
Proof.
  split.
  - intros s. split; [apply framed_refl | reflexivity | by intros p].
  - intros s1 s2 s3 [F1 T1 S1] [F2 T2 S2]. split; [by eapply framed_trans | by etrans |].
    intros p. by rewrite S2, S1.
Qed.

Lemma framed_root s s' : framed s s' -> VFS_ROOT s' = VFS_ROOT s.
Proof. unfold framed. intros ->. done. Qed.

Lemma add_child_linked s par v child w :
  node_at par s = Some v -> is_dir v = true -> (length (children v) < 128)%nat -> par <> 0 ->
  node_at child s = Some w -> child <> 0 -> par <> child ->
  add_child par child s = Some (0, set_store (linked (store s) par v child w) s).
Proof.
  intros Hp Hd Hl Hp0 Hc Hc0 Hne. unfold add_child. rewrite (proj2 (Z.eqb_neq par 0)), (proj2 (Z.eqb_neq child 0)) by done.
  cbn [orb]. rewrite Hp. cbn [mbind option_bind]. rewrite Hd. cbn [negb].
  rewrite (proj2 (Z.leb_gt _ _)) by (unfold VFS_MAX_CHILDREN; lia).
  unfold node_at, put. cbn [store set_store]. rewrite node_in_insert, decide_False by done.
  unfold node_at in Hc. rewrite Hc. done.
Qed.

Lemma add_child_full s par v child :
  node_at par s = Some v -> (128 <= length (children v))%nat -> add_child par child s = Some (-1, s).
Proof.
  intros Hp Hl. unfold add_child. case_if; [done |]. rewrite Hp. cbn [mbind option_bind]. case_if; [done |].
  by rewrite (proj2 (Z.leb_le _ _)) by (unfold VFS_MAX_CHILDREN; lia).
Qed.

(** Linking a node that has just been stored. *)
Lemma vfs_ok_link s live par v child w :
  vfs_ok s live -> node_at par s = Some v -> node_at child s = Some w -> par <> child ->
  vfs_ok (set_store (linked (store s) par v child w) s) live /\
  grows s (set_store (linked (store s) par v child w) s).
Proof.
  intros [Hh Ht Hf] Hp Hc Hne. unfold node_at in *.
  assert (Hd : dom (linked (store s) par v child w) = dom (store s)).
  { assert (child ∈ dom (store s) /\ par ∈ dom (store s)) as [? ?].
    { unfold node_in in *. split; apply elem_of_dom.
      - destruct (store s !! child); [by eexists | done].
      - destruct (store s !! par); [by eexists | done]. }
    unfold linked. rewrite !dom_insert_L. set_solver. }
  split; split; cbn [store set_store].
  - by apply (heap_ok_store s); [| | cbn; rewrite Hd].
  - by apply linked_tree_ok.
  - by apply (same_files_ok (store s)); [apply linked_same_files |].
  - apply framed_store, framed_refl.
  - by apply linked_extends.
  - by apply linked_same_files.
Qed.

(** Storing a fresh node that is no file. *)
Lemma vfs_ok_new s live h p v live' :
  vfs_ok s live -> p <> 0 -> store s !! p = None -> fresh_node v -> private_data v = PNull ->
  heap_ok (put p (ONode v) (set_hp h s)) live' ->
  vfs_ok (put p (ONode v) (set_hp h s)) live' /\ grows s (put p (ONode v) (set_hp h s)).
Proof.
  intros [Hh Ht Hf] Hp Hfree Hn Hpriv Hh'. split; split; cbn [store put set_store set_hp VFS_ROOT].
  - done.
  - by apply tree_ok_new.
  - by apply (same_files_ok (store s)); [apply same_files_new |].
  - by apply framed_put, framed_hp, framed_refl.
  - by apply extends_insert.
  - by apply same_files_new.
Qed.

(** The last part of [mkdir] and of [create_dir_in]. *)
Definition add_dir (par : Z) (nm : list Z) (fn : DirFn) s : option (Z * vfs H X) :=
  '(dir, s) ← alloc SIZEOF_NODE (ONode (dir_node nm fn)) s;
  if dir =? 0 then Some (0, s) else
  '(r, s) ← add_child par dir s;
  if r <? 0 then s ← release dir s; Some (0, s) else Some (dir, s).

(** Why no node was made: the directory is full, or the heap had no room. *)
Definition no_room (v : VfsNode) (h : H) : Prop :=
  (128 <= length (children v))%nat \/ exists h0, kh_malloc SIZEOF_NODE h0 = Some (0, h).

Lemma dir_node_fresh nm fn : name_ok nm -> fresh_node (dir_node nm fn) /\ name (dir_node nm fn) = nm.
Proof.
  intros [Hn Hl]. assert (E : name (dir_node nm fn) = nm) by (cbn; unfold copy_name; by rewrite take_ge by lia).
  split; [| done]. split; [by rewrite E | done | | done]. intros _. by exists fn.
Qed.

Lemma add_dir_spec s live par v nm fn :
  vfs_ok s live -> node_at par s = Some v -> is_dir v = true -> name_ok nm ->
  lookup_name (store s) par nm = Some 0 ->
  exists d s' live', add_dir par nm fn s = Some (d, s') /\ vfs_ok s' live' /\ grows s s' /\
    ((d <> 0 /\ lookup_name (store s') par nm = Some d /\
      exists w, node_at d s' = Some w /\ is_dir w = true /\ children w = [] /\ finddir_fn w = Some fn) \/
     (d = 0 /\ store s' = store s /\ no_room v (hp s'))).
Proof.
  intros Hok Hp Hd Hn Hl. destruct (dir_node_fresh nm fn Hn) as [Hfr Hnm].
  pose proof Hok as [Hh Ht Hf].
  assert (Hp0 : par <> 0) by (by eapply node_ne_0).
  unfold add_dir. destruct (alloc_spec SIZEOF_NODE (ONode (dir_node nm fn)) s live Hh) as (p & h & E & Hcase); [done |].
  rewrite E. cbn [mbind option_bind]. destruct Hcase as [(-> & Em & Hh') | (Hnz & Hfree & z & live' & Hperm & Hh')].
  { exists 0, (set_hp h s), live. split; [done |]. split; [by split |].
    split; [split; [by apply framed_hp, framed_refl | done | by intros q] |]. right. split_and!; try done. right. by exists (hp s). }
  rewrite (proj2 (Z.eqb_neq p 0)) by done. set (s1 := put p _ _) in *.
  assert (Hpp : par <> p) by (intros ->; unfold node_at, node_in in Hp; by rewrite Hfree in Hp).
  destruct (vfs_ok_new s live h p (dir_node nm fn) live') as [Hok1 Hg1]; try done. fold s1 in Hok1, Hg1.
  assert (Hp1 : node_at par s1 = Some v) by (unfold node_at, s1, put; cbn [store set_store]; by rewrite node_in_insert, decide_False).
  assert (Hc1 : node_at p s1 = Some (dir_node nm fn)) by (unfold node_at, s1, put; cbn [store set_store]; by rewrite node_in_insert, decide_True).
  assert (Hl1 : lookup_name (store s1) par nm = Some 0).
  { rewrite <- Hl. apply (lookup_name_fresh _ _ (VFS_ROOT s) p _ _ v); try done.
    - unfold node_in. by rewrite Hfree.
    - intros q Hq. unfold s1, put. cbn [store set_store]. by rewrite node_in_insert, decide_False. }
  destruct (decide (length (children v) < 128)%nat) as [Hroom | Hfull].
  - rewrite (add_child_linked s1 par v p (dir_node nm fn)) by done. cbn [mbind option_bind Z.ltb Z.compare].
    destruct (vfs_ok_link s1 live' par v p (dir_node nm fn) Hok1 Hp1 Hc1 Hpp) as [Hok2 Hg2].
    eexists p, _, live'. split; [reflexivity |]. split; [done |]. split; [by trans s1 |]. left. split; [done |].
    split.
    + cbn [store set_store]. rewrite <- Hnm at 2. apply (linked_lookup _ (VFS_ROOT s)); try done; rewrite ?Hnm; try done.
      * exact (vo_tree _ _ Hok1).
      * by destruct Hn.
    + exists (set_parent par (dir_node nm fn)). split; [| done]. unfold node_at. cbn [store set_store].
      by rewrite (linked_node _ par p), decide_True.
  - rewrite (add_child_full s1 par v) by (done || lia). cbn [mbind option_bind Z.ltb Z.compare].
    destruct (release_spec p s1 live' Hh') as (h2 & z2 & live2 & E2 & Hperm2 & Hh2).
    { unfold s1, put. cbn. rewrite lookup_insert_eq. by eexists. }
    rewrite E2. cbn [mbind option_bind]. eexists 0, _, live2. split; [reflexivity |].
    assert (Es : delete p (store s1) = store s) by (unfold s1, put; cbn; by apply delete_insert_id).
    rewrite Es in *. split; [split; [done | done | done] |].
    split; [split; [by apply framed_store, framed_hp, framed_put, framed_hp, framed_refl | done | by intros q] |]. 
    right. split_and!; [done | done |]. left. lia.
Qed.

Lemma mkdir_spec s live par v nm :
  vfs_ok s live -> node_at par s = Some v -> name_ok nm -> lookup_name (store s) par nm = Some 0 ->
  exists d s' live', mkdir par (Some nm) s = Some (d, s') /\ vfs_ok s' live' /\ grows s s' /\
    ((d <> 0 /\ lookup_name (store s') par nm = Some d /\
      exists w, node_at d s' = Some w /\ children w = [] /\ on_volume w = false) \/
     (d = 0 /\ node_at par s' = Some v /\ (is_dir v = false \/ no_room v (hp s')))).
Proof.
  intros Hok Hp Hn Hl. pose proof (vo_tree _ _ Hok) as Ht.
  assert (Hp0 : par <> 0) by (by eapply node_ne_0).
  unfold mkdir. rewrite (proj2 (Z.eqb_neq par 0)), Hp by done. cbn [mbind option_bind].
  destruct (is_dir v) eqn:Hd; cbn [negb].
  - rewrite (finddir_lookup s _ par nm 0 Ht Hl). cbn [mbind option_bind Z.eqb negb].
    destruct (add_dir_spec s live par v nm DefaultDir) as (d & s' & live' & E & Hok' & Hg & Hcase); try done.
    exists d, s', live'. split; [exact E |]. split; [done |]. split; [done |].
    destruct Hcase as [(? & ? & w & ? & _ & ? & Ew) | (? & Es & ?)]; [left | right].
    { split; [done |]. split; [done |]. exists w. split; [done |]. split; [done |]. unfold on_volume. by rewrite Ew. }
    split; [done |]. split; [unfold node_at; by rewrite Es | by right].
  - exists 0, s, live. split; [done |]. split; [done |]. split; [done |]. right. by split_and!; [| | left].
Qed.

Lemma mkdir_p_loop_zero fuel p s : (0 < fuel)%nat -> mkdir_p_loop fuel p 0 s = Some (0, s).
Proof. destruct fuel; [lia |]. by destruct p. Qed.

(** An empty directory has nothing below it. *)
Lemma walk_empty m cur v ws : node_in m cur = Some v -> children v = [] -> on_volume v = false -> is_Some (walk m cur ws).
Proof.
  intros Hv Hc Hn. destruct ws as [| w ws]; [by eexists |]. cbn [walk]. unfold lookup_name. case_if.
  - cbn [mbind option_bind]. rewrite walk_zero. by eexists.
  - rewrite Hv. cbn [mbind option_bind]. rewrite Hn, Hc. destruct (is_dir v); cbn [find_child mbind option_bind];
      rewrite walk_zero; by eexists.
Qed.

(** Where creating the components [ws] from [cur] stops. *)
Definition blocked_at s (cur : Z) (ws : list (list Z)) : Prop :=
  exists ws1 ws2 q v, ws = ws1 ++ ws2 /\ ws2 <> [] /\ walk (store s) cur ws1 = Some q /\
    node_at q s = Some v /\ (is_dir v = false \/ no_room v (hp s)).

Lemma blocked_later s cur c w ws :
  lookup_name (store s) cur w = Some c -> blocked_at s c ws -> blocked_at s cur (w :: ws).
Proof.
  intros Hl (ws1 & ws2 & q & v & -> & Hne & Hw & Hq & Hv). exists (w :: ws1), ws2, q, v.
  split_and!; try done. cbn [walk]. by rewrite Hl.
Qed.

Lemma mkdir_p_loop_spec fuel p cur s live v :
  vfs_ok s live -> node_at cur s = Some v -> no_nul p -> no_slash_start p -> (length p < fuel)%nat ->
  is_Some (walk (store s) cur (components p)) ->
  exists d s' live', mkdir_p_loop fuel p cur s = Some (d, s') /\ vfs_ok s' live' /\ grows s s' /\
    ((d <> 0 /\ walk (store s') cur (components p) = Some d) \/ (d = 0 /\ blocked_at s' cur (components p))).
Proof.
  revert p cur s live v. induction fuel as [| fuel IH]; intros p cur s live v Hok Hc Hnn Hns Hlen Hwalk; [lia |].
  pose proof (vo_tree _ _ Hok) as Ht. assert (Hc0 : cur <> 0) by (by eapply node_ne_0).
  destruct p as [| b p]; [exists cur, s, live; split_and!; [done.. | left; done] |]. cbn [mkdir_p_loop].
  rewrite (proj2 (Z.eqb_neq cur 0)) by done.
  pose proof (components_no_nul _ Hnn) as Hcn.
  destruct (next_component_spec (b :: p)) as (Ec & _ & H63 & Hl & Hns'); [done | done |]. rewrite Ec in *.
  assert (Hnr : no_nul (next_component (b :: p)).2) by (by apply next_component_no_nul).
  destruct (next_component (b :: p)) as [w r]. cbn [fst snd] in *.
  apply Forall_cons in Hcn as [Hw _].
  cbn [walk] in Hwalk. destruct (lookup_name (store s) cur w) as [c |] eqn:Hlk; [| by destruct Hwalk].
  cbn [mbind option_bind] in Hwalk. pose proof (lookup_name_node _ _ cur w c Ht Hlk) as Hcn.
  rewrite (finddir_lookup s _ cur w c Ht Hlk). cbn [mbind option_bind].
  assert (Next : forall s1 live1 c1, vfs_ok s1 live1 -> grows s s1 -> lookup_name (store s1) cur w = Some c1 -> c1 <> 0 ->
    (exists u, node_at c1 s1 = Some u) -> is_Some (walk (store s1) c1 (components r)) ->
    exists d s' live', mkdir_p_loop fuel r c1 s1 = Some (d, s') /\ vfs_ok s' live' /\ grows s s' /\
      ((d <> 0 /\ walk (store s') cur (w :: components r) = Some d) \/ (d = 0 /\ blocked_at s' cur (w :: components r)))).
  { intros s1 live1 c1 Hok1 Hg1 Hl1 Hc1 [u Hu] Hwk.
    destruct (IH r c1 s1 live1 u) as (d & s' & live' & E & Hok' & Hg' & Hcase); try done; [cbn [length] in *; lia |].
    exists d, s', live'. split; [done |]. split; [done |]. split; [by trans s1 |].
    assert (Hl' : lookup_name (store s') cur w = Some c1) by (by apply (lookup_extends (store s1)); [apply Hg' | |]).
    destruct Hcase as [[? ?] | [? ?]]; [left | right]; (split; [done |]).
    - cbn [walk]. by rewrite Hl'.
    - by apply (blocked_later s' cur c1). }
  destruct (Z.eqb_spec c 0) as [-> | Hcz].
  - destruct (mkdir_spec s live cur v w Hok Hc) as (d & s1 & live1 & E & Hok1 & Hg1 & Hcase); [by split | done |].
    rewrite E. cbn [mbind option_bind]. destruct Hcase as [(Hd & Hl1 & Hu) | (-> & Hv1 & Hwhy)].
    + destruct Hu as (u & Hu & Hue & Huv). apply (Next s1 live1 d); try done; [by exists u | by eapply walk_empty].
    + rewrite mkdir_p_loop_zero by (cbn [length] in *; lia). exists 0, s1, live1. split_and!; [done | done | done |].
      right. split; [done |]. by exists [], (w :: components r), cur, v.
  - cbn [mbind option_bind]. apply (Next s live c); try done. destruct Hcn; done.
Qed.
End mkdir.
