(* ===== verification/VfsFile.v ===== *)
(** Creating a RAM file and unlinking it. *)
From S2P Require Import Prelude StringRs Heap VfsNode VfsStore Ramfs RamFiles Initrd Devfs Fat16Vfs Vfs VfsTree VfsMake.

Definition file_node (nm : list Z) (d : private) : VfsNode :=
  Node (copy_name nm) VFS_FILE 0 0 (Some RamfsRead) (Some RamfsWrite) None None d [] 0.

Lemma file_node_fresh nm d : name_ok nm -> fresh_node (file_node nm d) /\ name (file_node nm d) = nm.
Proof.
  intros [Hn Hl]. assert (E : name (file_node nm d) = nm) by (cbn; unfold copy_name; by rewrite take_ge by lia).
  split; [| done]. by split; [rewrite E | | |].
Qed.

(** ** The three objects of a new file *)

Section new_file.
Variables (m : gmap Z obj) (n f b : Z) (nm : list Z).
Hypothesis Hn : m !! n = None.
Hypothesis Hf : m !! f = None.
Hypothesis Hb : m !! b = None.
Hypothesis Hnf : n <> f.
Hypothesis Hnb : n <> b.
Hypothesis Hfb : f <> b.

Definition new_file : gmap Z obj :=
  <[n := ONode (file_node nm (PRam f))]> (<[f := ORam (RamData b 0 256)]> (<[b := OBuf (replicate 256 0)]> m)).

Lemma new_file_lookup q : new_file !! q =
  if decide (q = n) then Some (ONode (file_node nm (PRam f)))
  else if decide (q = f) then Some (ORam (RamData b 0 256))
  else if decide (q = b) then Some (OBuf (replicate 256 0)) else m !! q.
Proof using Type.
  clear Hnf Hnb Hfb Hn Hf Hb. unfold new_file. rewrite !lookup_insert. repeat case_decide; congruence.
Qed.

Lemma new_file_node_in q : node_in new_file q = if decide (q = n) then Some (file_node nm (PRam f)) else node_in m q.
Proof using Hf Hb.
  unfold node_in. rewrite new_file_lookup. repeat case_decide; subst; by rewrite ?Hf, ?Hb.
Qed.

Lemma new_file_tree root : n <> 0 -> f <> 0 -> b <> 0 -> name_ok nm -> tree_ok m root -> tree_ok new_file root.
Proof using Hn Hf Hb Hnf Hnb.
  intros Hn0 Hf0 Hb0 Hnm Ht. apply tree_ok_new; [done | | by apply file_node_fresh |].
  - by rewrite !lookup_insert_ne.
  - apply (tree_ok_ext m); [| by rewrite !lookup_insert_ne, (to_null _ _ Ht) | done].
    intros q. unfold node_in. destruct (decide (q = f)) as [-> |]; [by rewrite lookup_insert_eq, Hf |].
    rewrite lookup_insert_ne by done. destruct (decide (q = b)) as [-> |]; [by rewrite lookup_insert_eq, Hb |].
    by rewrite lookup_insert_ne.
Qed.

Lemma new_file_old q : is_Some (m !! q) -> new_file !! q = m !! q.
Proof using Hn Hf Hb.
  intros [o Eo]. rewrite new_file_lookup. repeat case_decide; subst; congruence.
Qed.

Lemma new_file_files : files_ok m -> files_ok new_file.
Proof using Hn Hf Hb Hnf Hnb Hfb.
  intros [Fr Fn Fb Fd].
  assert (Ram : forall q d, new_file !! q = Some (ORam d) -> (q = f /\ d = RamData b 0 256) \/ m !! q = Some (ORam d)).
  { intros q d. rewrite new_file_lookup. repeat case_decide; [done | intros [= <-]; by left | done | by right]. }
  assert (Nod : forall q v, new_file !! q = Some (ONode v) ->
    (q = n /\ v = file_node nm (PRam f)) \/ (q <> n /\ m !! q = Some (ONode v))).
  { intros q v. rewrite new_file_lookup. repeat case_decide; [intros [= <-]; by left | done | done | by right]. }
  assert (Ef : new_file !! f = Some (ORam (RamData b 0 256))).
  { rewrite new_file_lookup. by rewrite decide_False, decide_True. }
  assert (Eb : new_file !! b = Some (OBuf (replicate 256 0))).
  { rewrite new_file_lookup. by rewrite !decide_False, decide_True by done. }
  split.
  - intros p v r Hp Hv. destruct (Nod p v Hp) as [[-> ->] | [_ Hp']].
    + injection Hv as <-. exists (RamData b 0 256), (replicate 256 0). split_and!; [done | done |].
      by apply (ram_ok_intro b [] 256).
    + destruct (Fr p v r Hp' Hv) as (fd & buf & Hr & Hbuf & ?). exists fd, buf.
      rewrite !new_file_old by (by eexists). done.
  - intros p q v w r Hp Hq Hv Hw.
    assert (Old : forall x u, m !! x = Some (ONode u) -> private_data u <> PRam f).
    { intros x u Hx Hu. destruct (Fr x u f Hx Hu) as (fd & buf & Hr & _). congruence. }
    destruct (Nod p v Hp) as [[-> ->] | [_ Hp']], (Nod q w Hq) as [[-> ->] | [_ Hq']]; try done.
    + injection Hv as <-. by destruct (Old q w Hq').
    + injection Hw as <-. by destruct (Old p v Hp').
    + by apply (Fn p q v w r).
  - intros r fd Hr. destruct (Ram r fd Hr) as [[-> ->] | Hr']; [by eexists |].
    destruct (Fb r fd Hr') as [buf Hbuf]. exists buf. by rewrite new_file_old by (by eexists).
  - intros r1 r2 f1 f2 H1 H2 E.
    assert (Old : forall x u, m !! x = Some (ORam u) -> data u <> b).
    { intros x u Hx Hu. destruct (Fb x u Hx) as [buf Hbuf]. congruence. }
    destruct (Ram r1 f1 H1) as [[-> ->] | H1'], (Ram r2 f2 H2) as [[-> ->] | H2']; try done.
    + by destruct (Old r2 f2 H2').
    + by destruct (Old r1 f1 H1').
    + by apply (Fd r1 r2 f1 f2).
Qed.

Lemma new_file_content q : files_ok m ->
  content new_file q = if decide (q = n) then Some [] else content m q.
Proof using Hn Hf Hb Hnf Hnb Hfb.
  intros HF. case_decide as E.
  - subst q. apply (content_intro _ _ (file_node nm (PRam f)) f (RamData b 0 256) (replicate 256 0)); try done;
      rewrite new_file_lookup; repeat case_decide; done.
  - unfold content. rewrite new_file_node_in, decide_False by done.
    destruct (node_in m q) as [v |] eqn:Ev; [| done]. cbn [mbind option_bind].
    destruct (private_data v) as [| r |] eqn:Er; try done.
    unfold node_in in Ev. destruct (m !! q) as [[u | |] |] eqn:Eq; try done. injection Ev as ->.
    destruct (fo_ram _ HF q v r Eq Er) as (fd & buf & Hr & Hbuf & _).
    rewrite (new_file_old r), Hr by (by eexists). by rewrite new_file_old by (by eexists).
Qed.

Lemma new_file_extends : extends m new_file.
Proof using Hn Hf Hb.
  intros q v Hv. exists v. rewrite new_file_node_in, decide_False.
  - split_and!; try done. exists []. by rewrite app_nil_r.
  - intros ->. unfold node_in in Hv. by rewrite Hn in Hv.
Qed.
End new_file.

(** ** [create_file_in] *)

Section create.
Context {H X : Type} `{KernelHeap H} `{Console X} `{FatDisk X}.
Implicit Types s : vfs H X.

(** What [create_file_in] allocates: the node, the header and the buffer, or
    nothing. *)
Definition alloc_file (nm : list Z) s : option (option (Z * Z * Z) * vfs H X) :=
  '(node, s) ← alloc SIZEOF_NODE (ONode (file_node nm PNull)) s;
  if node =? 0 then Some (None, s) else
  '(fd, s) ← alloc SIZEOF_RAM (ORam (RamData 0 0 256)) s;
  if fd =? 0 then s ← release node s; Some (None, s) else
  '(data_buf, s) ← alloc 256 (OBuf (replicate 256 0)) s;
  if data_buf =? 0 then s ← release fd s; s ← release node s; Some (None, s) else
  let s := put fd (ORam (RamData data_buf 0 256)) s in
  Some (Some (node, fd, data_buf), put node (ONode (file_node nm (PRam fd))) s).

Lemma create_file_in_unfold par nm s : create_file_in par (Some nm) s =
  if par =? 0 then Some (0, s) else
  '(existing, s) ← finddir par nm s;
  if negb (existing =? 0) then Some (existing, s) else
  '(a, s) ← alloc_file nm s;
  match a with
  | None => Some (0, s)
  | Some (node, fd, data_buf) =>
      '(r, s) ← add_child par node s;
      if r <? 0 then s ← release data_buf s; s ← release fd s; s ← release node s; Some (0, s) else Some (node, s)
  end.
Proof.
  unfold create_file_in, alloc_file. destruct (par =? 0); [done |].
  destruct (finddir par nm s) as [[e s1] |]; [| done]. cbn [mbind option_bind]. destruct (negb (e =? 0)); [done |].
  change (Node (copy_name nm) VFS_FILE 0 0 (Some RamfsRead) (Some RamfsWrite) None None PNull [] 0)
    with (file_node nm PNull).
  destruct (alloc SIZEOF_NODE _ s1) as [[n s2] |]; [| done]. cbn [mbind option_bind]. destruct (n =? 0); [done |].
  destruct (alloc SIZEOF_RAM _ s2) as [[f s3] |]; [| done]. cbn [mbind option_bind].
  destruct (f =? 0); [by destruct (release n s3) |].
  destruct (alloc 256 _ s3) as [[b s4] |]; [| done]. cbn [mbind option_bind].
  destruct (b =? 0); [| done]. destruct (release f s4) as [s5 |]; [| done]. cbn [mbind option_bind].
  by destruct (release n s5).
Qed.

Lemma alloc_file_spec nm s live :
  heap_ok s live ->
  exists a s', alloc_file nm s = Some (a, s') /\ framed s s' /\
    match a with
    | None => store s' = store s /\ short SIZEOF_NODE 2 (hp s) /\ exists live', heap_ok s' live' /\ Permutation live' live
    | Some (n, f, b) =>
        n <> 0 /\ f <> 0 /\ b <> 0 /\ n <> f /\ n <> b /\ f <> b /\
        store s !! n = None /\ store s !! f = None /\ store s !! b = None /\
        store s' = new_file (store s) n f b nm /\ calls SIZEOF_NODE 3 (hp s) (hp s') /\
        exists zn zf zb live', heap_ok s' live' /\ Permutation live' ((b, zb) :: (f, zf) :: (n, zn) :: live)
    end.
Proof.
  intros Ho. unfold alloc_file.
  destruct (alloc_spec SIZEOF_NODE (ONode (file_node nm PNull)) s live Ho) as (n & h1 & E1 & C1); [done |].
  rewrite E1. cbn [mbind option_bind]. destruct C1 as [(-> & Em & Ho1) | (Hn0 & Hn & zn & live1 & P1 & Ho1)].
  { exists None, (set_hp h1 s). split_and!; [done | by apply framed_hp, framed_refl | done | | by exists live].
    apply (short_le SIZEOF_NODE _ 0); [lia.. |]. by apply (short_now _ SIZEOF_NODE _ h1). }
  rewrite (proj2 (Z.eqb_neq n 0)) in * by done. set (s1 := put n _ _) in *.
  pose proof (alloc_calls SIZEOF_NODE _ _ _ _ _ E1 ltac:(done)) as K1.
  assert (F1 : framed s s1) by (by apply framed_put, framed_hp, framed_refl).
  assert (S1 : store s1 = <[n := ONode (file_node nm PNull)]> (store s)) by done. clearbody s1.
  destruct (alloc_spec SIZEOF_RAM (ORam (RamData 0 0 256)) s1 live1 Ho1) as (f & h2 & E2 & C2); [done |].
  rewrite E2. cbn [mbind option_bind]. destruct C2 as [(-> & Em & Ho2) | (Hf0 & Hf & zf & live2 & P2 & Ho2)].
  { cbn [Z.eqb]. set (s2 := set_hp h2 s1) in *.
    destruct (release_perm n zn s2 live1 live Ho2 P1) as (h3 & live3 & E3 & P3 & Ho3); [unfold s2; cbn; rewrite S1, lookup_insert_eq; by eexists |].
    rewrite E3. eexists None, _. split; [done |]. split; [by apply framed_store, framed_hp, framed_hp |].
    split; [unfold s2; cbn; rewrite S1; by apply delete_insert_id |]. split; [| by exists live3].
    apply (short_le SIZEOF_NODE _ 1); [lia.. |]. apply (short_after _ 1 0 _ _ K1). by apply (short_now _ SIZEOF_RAM _ h2). }
  rewrite (proj2 (Z.eqb_neq f 0)) in * by done. set (s2 := put f _ _) in *.
  pose proof (calls_app _ _ _ _ _ _ K1 (alloc_calls SIZEOF_NODE _ _ _ _ _ E2 ltac:(done))) as K2.
  assert (F2 : framed s s2) by (by apply framed_put, framed_hp).
  assert (S2 : store s2 = <[f := ORam (RamData 0 0 256)]> (store s1)) by done. clearbody s2.
  assert (Hnf : n <> f) by (intros ->; by rewrite S1, lookup_insert_eq in Hf).
  rewrite S1, lookup_insert_ne in Hf by done.
  destruct (alloc_spec 256 (OBuf (replicate 256 0)) s2 live2 Ho2) as (b & h3 & E3 & C3); [done |].
  rewrite E3. cbn [mbind option_bind]. destruct C3 as [(-> & Em & Ho3) | (Hb0 & Hb & zb & live3 & P3 & Ho3)].
  { cbn [Z.eqb]. set (s3 := set_hp h3 s2) in *.
    assert (S3 : store s3 = store s2) by done. assert (F3 : framed s s3) by (by apply framed_hp). clearbody s3.
    destruct (release_perm f zf s3 live2 live1 Ho3 P2) as (h4 & live4 & E4 & P4 & Ho4); [rewrite S3, S2, lookup_insert_eq; by eexists |].
    rewrite E4. cbn [mbind option_bind]. set (s4 := set_store _ _) in *.
    assert (S4 : store s4 = store s1).
    { unfold s4. cbn. rewrite S3, S2, delete_insert_id; [done |]. by rewrite S1, lookup_insert_ne. }
    assert (F4 : framed s s4) by (by apply framed_store, framed_hp). clearbody s4.
    destruct (release_perm n zn s4 live4 live Ho4) as (h5 & live5 & E5 & P5 & Ho5);
      [by rewrite P4 | rewrite S4, S1, lookup_insert_eq; by eexists |].
    rewrite E5. eexists None, _. split; [done |]. split; [by apply framed_store, framed_hp |].
    split; [cbn; rewrite S4, S1; by apply delete_insert_id |]. split; [| by exists live5].
    apply (short_after _ 2 0 _ _ K2). by apply (short_now _ 256 _ h3). }
  rewrite (proj2 (Z.eqb_neq b 0)) in * by done. set (s3 := put b _ _) in *.
  pose proof (calls_app _ _ _ _ _ _ K2 (alloc_calls SIZEOF_NODE _ _ _ _ _ E3 ltac:(done))) as K3.
  assert (F3 : framed s s3) by (by apply framed_put, framed_hp).
  assert (S3 : store s3 = <[b := OBuf (replicate 256 0)]> (store s2)) by done. clearbody s3.
  assert (Hbf : f <> b) by (intros ->; by rewrite S2, lookup_insert_eq in Hb).
  rewrite S2, lookup_insert_ne in Hb by done.
  assert (Hbn : n <> b) by (intros ->; by rewrite S1, lookup_insert_eq in Hb).
  rewrite S1, lookup_insert_ne in Hb by done.
  eexists (Some (n, f, b)), _. split; [reflexivity |]. split; [by apply framed_put, framed_put |].
  split_and!; try done.
  - cbn. rewrite S3, S2, S1. apply map_eq. intros q. rewrite new_file_lookup, !lookup_insert.
    repeat case_decide; congruence.
  - exists zn, zf, zb, live3. split; [| by rewrite P3, P2, P1].
    apply heap_ok_put; [apply heap_ok_put; [done |] |]; cbn; rewrite ?lookup_insert_ne by done; rewrite S3, S2, S1.
    + rewrite lookup_insert_ne, lookup_insert_eq by done. by eexists.
    + rewrite !lookup_insert_ne, lookup_insert_eq by done. by eexists.
Qed.

(** The objects of a file created below [par], and the areas they take. *)
Record created s live par v nm s1 live1 (n f b : Z) : Prop := {
  cr_ne0 : n <> 0 /\ f <> 0 /\ b <> 0;
  cr_ne : n <> f /\ n <> b /\ f <> b;
  cr_free : store s !! n = None /\ store s !! f = None /\ store s !! b = None;
  cr_store : store s1 = linked (new_file (store s) n f b nm) par v n (file_node nm (PRam f));
  cr_heap : heap_ok s1 live1;
  cr_live : exists zn zf zb, Permutation live1 ((b, zb) :: (f, zf) :: (n, zn) :: live) }.

Lemma create_file_spec s live par v nm :
  vfs_ok s live -> node_at par s = Some v -> is_dir v = true -> name_ok nm ->
  lookup_name (store s) par nm = Some 0 ->
  exists p s1 live1, create_file_in par (Some nm) s = Some (p, s1) /\ framed s s1 /\
    ((p = 0 /\ store s1 = store s /\ heap_ok s1 live1 /\ Permutation live1 live /\
      ((128 <= length (children v))%nat \/ short SIZEOF_NODE 2 (hp s))) \/
     exists f b, calls SIZEOF_NODE 3 (hp s) (hp s1) /\ created s live par v nm s1 live1 p f b).
Proof.
  intros Hok Hp Hd Hnm Hl. pose proof Hok as [Hh Ht Hf].
  assert (Hp0 : par <> 0) by (by eapply node_ne_0).
  rewrite create_file_in_unfold, (proj2 (Z.eqb_neq par 0)), (finddir_lookup s _ par nm 0 Ht Hl) by done.
  cbn [mbind option_bind Z.eqb negb].
  destruct (alloc_file_spec nm s live Hh) as (a & s2 & E & F2 & Ha). rewrite E. cbn [mbind option_bind].
  destruct a as [[[n f] b] |].
  2:{ destruct Ha as (Es & Hoom & live' & Ho & HP). exists 0, s2, live'. split; [done |]. split; [done |]. left.
      split_and!; try done. by right. }
  destruct Ha as (Hn0 & Hf0 & Hb0 & Hnf & Hnb & Hfb & Hn & Hfr & Hb & S2 & K2 & zn & zf & zb & live' & Ho & HP).
  assert (Hpn : par <> n) by (intros ->; unfold node_at, node_in in Hp; by rewrite Hn in Hp).
  assert (Hp2 : node_at par s2 = Some v).
  { unfold node_at. rewrite S2. by rewrite new_file_node_in, decide_False. }
  assert (Hn2 : node_at n s2 = Some (file_node nm (PRam f))).
  { unfold node_at. rewrite S2. by rewrite new_file_node_in, decide_True. }
  destruct (decide (length (children v) < 128)%nat) as [Hroom | Hfull].
  - rewrite (add_child_linked s2 par v n (file_node nm (PRam f))) by done. cbn [mbind option_bind Z.ltb Z.compare].
    eexists n, _, live'. split; [reflexivity |]. split; [by apply framed_store |]. right. exists f, b.
    split; [exact K2 |]. split; [done | done | done | cbn; by rewrite S2 | | by exists zn, zf, zb].
    apply (heap_ok_store s2); [done | done |]. cbn. unfold linked. rewrite !dom_insert.
    assert (n ∈ dom (store s2) /\ par ∈ dom (store s2)) as [? ?]; [| set_solver].
    unfold node_at, node_in in *. split; apply elem_of_dom.
    + destruct (store s2 !! n); [by eexists | done].
    + destruct (store s2 !! par); [by eexists | done].
  - rewrite (add_child_full s2 par v) by (done || lia). cbn [mbind option_bind Z.ltb Z.compare].
    destruct (release_perm b zb s2 live' _ Ho HP) as (h3 & live3 & E3 & P3 & Ho3).
    { rewrite S2, new_file_lookup, !decide_False, decide_True by done. by eexists. }
    rewrite E3. cbn [mbind option_bind]. set (s3 := set_store _ _) in *.
    assert (S3 : store s3 = delete b (store s2)) by done. assert (F3 : framed s s3) by (by apply framed_store, framed_hp).
    clearbody s3.
    destruct (release_perm f zf s3 live3 _ Ho3 P3) as (h4 & live4 & E4 & P4 & Ho4).
    { rewrite S3, S2, lookup_delete_ne, new_file_lookup, decide_False, decide_True by done. by eexists. }
    rewrite E4. cbn [mbind option_bind]. set (s4 := set_store _ _) in *.
    assert (S4 : store s4 = delete f (store s3)) by done. assert (F4 : framed s s4) by (by apply framed_store, framed_hp).
    clearbody s4.
    destruct (release_perm n zn s4 live4 _ Ho4 P4) as (h5 & live5 & E5 & P5 & Ho5).
    { rewrite S4, S3, S2, !lookup_delete_ne, new_file_lookup, decide_True by done. by eexists. }
    rewrite E5. cbn [mbind option_bind]. eexists 0, _, live5. split; [reflexivity |].
    split; [by apply framed_store, framed_hp |]. left. split_and!; try done; [| left; lia].
    cbn. rewrite S4, S3, S2. apply map_eq. intros q. rewrite !lookup_delete, new_file_lookup.
    repeat case_decide; congruence.
Qed.

Lemma created_ok s live par v nm s1 live1 n f b :
  vfs_ok s live -> node_at par s = Some v -> is_dir v = true -> name_ok nm ->
  lookup_name (store s) par nm = Some 0 -> framed s s1 -> created s live par v nm s1 live1 n f b ->
  vfs_ok s1 live1 /\ extends (store s) (store s1) /\ lookup_name (store s1) par nm = Some n /\
  forall q, content (store s1) q = if decide (q = n) then Some [] else content (store s) q.
Proof.
  intros Hok Hp Hd Hnm Hl F1 [(Hn0 & Hf0 & Hb0) (Hnf & Hnb & Hfb) (Hn & Hf & Hb) Es Hh1 _].
  pose proof Hok as [Hh Ht HF]. unfold node_at in Hp. set (m := store s) in *.
  assert (Hpn : par <> n) by (intros ->; unfold node_in in Hp; by rewrite Hn in Hp).
  set (m1 := new_file m n f b nm) in *.
  assert (Hp2 : node_in m1 par = Some v) by (unfold m1; by rewrite new_file_node_in, decide_False).
  assert (Hn2 : node_in m1 n = Some (file_node nm (PRam f))) by (unfold m1; by rewrite new_file_node_in, decide_True).
  assert (Ht1 : tree_ok m1 (VFS_ROOT s)) by (by apply new_file_tree).
  assert (HF1 : files_ok m1) by (by apply new_file_files).
  assert (Hext : extends m m1) by (by apply new_file_extends).
  assert (Hsame : same_files m1 (store s1)) by (rewrite Es; by apply linked_same_files).
  split; [split |].
  - done.
  - rewrite (framed_root _ _ F1), Es. by apply linked_tree_ok.
  - by apply (same_files_ok m1).
  - split; [trans m1; [done |]; rewrite Es; by apply linked_extends |]. split.
    + rewrite Es. destruct (file_node_fresh nm (PRam f) Hnm) as [_ En]. rewrite <- En at 2.
      apply (linked_lookup m1 (VFS_ROOT s)); try done; rewrite En; [| by destruct Hnm].
      rewrite <- Hl. apply (lookup_name_fresh _ _ (VFS_ROOT s) n _ _ v); try done.
      * unfold node_in. by rewrite Hn.
      * intros q Hq. unfold m1. by rewrite new_file_node_in, decide_False.
    + intros q. rewrite (same_files_content m1) by done. unfold m1. by rewrite new_file_content.
Qed.

(** ** [unlink] of a file just created *)

Lemma find_idx_last m nm i cs n w :
  (forall c, c ∈ cs -> c <> 0) -> find_child m nm (cs ++ [n]) = Some n -> n ∉ cs -> n <> 0 ->
  node_in m n = Some w -> find_idx m nm i (cs ++ [n]) = Some (Some (i + length cs)%nat).
Proof.
  intros Hz Hf Hni Hn0 Hn. revert i Hz Hf Hni. induction cs as [| c cs IH]; intros i Hz Hf Hni; cbn [find_idx find_child app] in *.
  - rewrite (proj2 (Z.eqb_neq n 0)), Hn by done. rewrite Hn in Hf. cbn [mbind option_bind] in *.
    destruct (strcmp_list (name w) nm =? 0); [by rewrite Nat.add_0_r | congruence].
  - rewrite (proj2 (Z.eqb_neq c 0)) by (apply Hz; by left).
    destruct (node_in m c) as [u |]; [| done]. cbn [mbind option_bind] in *.
    destruct (strcmp_list (name u) nm =? 0); [injection Hf as ->; set_solver |].
    rewrite IH; [cbn [length]; do 2 f_equal; lia | set_solver | done | set_solver].
Qed.

Lemma unlink_created s live par v nm s1 live1 n f b :
  vfs_ok s live -> node_at par s = Some v -> is_dir v = true -> name_ok nm ->
  lookup_name (store s) par nm = Some 0 -> framed s s1 -> created s live par v nm s1 live1 n f b ->
  exists s2 live2, unlink par (Some nm) s1 = Some (0, s2) /\ framed s s2 /\ store s2 = store s /\
    heap_ok s2 live2 /\ Permutation live2 live.
Proof.
  intros Hok Hp Hd Hnm Hl F1 Hcr.
  destruct (created_ok s live par v nm s1 live1 n f b Hok Hp Hd Hnm Hl F1 Hcr) as (Hok1 & _ & Hl1 & _).
  destruct Hcr as [(Hn0 & Hf0 & Hb0) (Hnf & Hnb & Hfb) (Hn & Hf & Hb) Es Hh1 (zn & zf & zb & HP)].
  pose proof (vo_tree _ _ Hok) as Ht. assert (Hp0 : par <> 0) by (by eapply node_ne_0).
  unfold node_at, node_in in Hp. destruct (store s !! par) as [[v' | |] |] eqn:Epar; try done. injection Hp as ->.
  assert (Hpn : par <> n) by congruence. assert (Hpf : par <> f) by congruence. assert (Hpb : par <> b) by congruence.
  assert (L : forall q, store s1 !! q =
    if decide (q = n) then Some (ONode (set_parent par (file_node nm (PRam f))))
    else if decide (q = par) then Some (ONode (set_children (children v ++ [n]) v))
    else if decide (q = f) then Some (ORam (RamData b 0 256))
    else if decide (q = b) then Some (OBuf (replicate 256 0)) else store s !! q).
  { intros q. rewrite Es. unfold linked. rewrite !lookup_insert, new_file_lookup. repeat case_decide; congruence. }
  assert (Lp : node_at par s1 = Some (set_children (children v ++ [n]) v)).
  { unfold node_at, node_in. by rewrite L, decide_False, decide_True. }
  assert (Ln : node_in (store s1) n = Some (set_parent par (file_node nm (PRam f)))).
  { unfold node_in. by rewrite L, decide_True. }
  assert (Hcs : forall c, c ∈ children v -> is_Some (store s !! c)).
  { intros c Hc. destruct (to_child _ _ Ht par v c) as [u Hu]; [unfold node_in; by rewrite Epar | done |].
    unfold node_in in Hu. destruct (store s !! c); [by eexists | done]. }
  unfold unlink. rewrite (proj2 (Z.eqb_neq par 0)), Lp by done. cbn [mbind option_bind].
  change (is_dir (set_children (children v ++ [n]) v)) with (is_dir v). rewrite Hd. cbn [negb children set_children].
  rewrite (find_idx_last _ _ 0 (children v) n (set_parent par (file_node nm (PRam f)))); [| | | | done | exact Ln].
  2:{ intros c Hc ->. destruct (Hcs 0 Hc) as [? E0]. by rewrite (to_null _ _ Ht) in E0. }
  2:{ unfold lookup_name in Hl1. rewrite (proj2 (Z.eqb_neq par 0)) in Hl1 by done. unfold node_at in Lp. rewrite Lp in Hl1.
      cbn [mbind option_bind] in Hl1. change (is_dir (set_children (children v ++ [n]) v)) with (is_dir v) in Hl1.
      destruct (on_volume _); [done |]. by rewrite Hd in Hl1. }
  2:{ intros Hin. destruct (Hcs n Hin) as [? ?]. congruence. }
  cbn [mbind option_bind]. rewrite lookup_app_r, Nat.sub_diag by lia. cbn [lookup list_lookup mbind option_bind].
  change (node_in (store s1) n) with (node_at n s1) in Ln. rewrite Ln. cbn [mbind option_bind private_data set_parent file_node free_private].
  unfold ram_at. rewrite L, !decide_False, decide_True by done. cbn [mbind option_bind data].
  rewrite (proj2 (Z.eqb_neq b 0)) by done.
  destruct (release_perm b zb s1 live1 _ Hh1 HP) as (h3 & live3 & E3 & P3 & Ho3).
  { rewrite L, !decide_False, decide_True by done. by eexists. }
  rewrite E3. cbn [mbind option_bind]. set (s3 := set_store _ _) in *.
  assert (S3 : store s3 = delete b (store s1)) by done. assert (F3 : framed s s3) by (by apply framed_store, framed_hp).
  clearbody s3.
  destruct (release_perm f zf s3 live3 _ Ho3 P3) as (h4 & live4 & E4 & P4 & Ho4).
  { rewrite S3, lookup_delete_ne, L, !decide_False, decide_True by done. by eexists. }
  rewrite E4. cbn [mbind option_bind]. set (s4 := set_store _ _) in *.
  assert (S4 : store s4 = delete f (store s3)) by done. assert (F4 : framed s s4) by (by apply framed_store, framed_hp).
  clearbody s4.
  destruct (release_perm n zn s4 live4 _ Ho4 P4) as (h5 & live5 & E5 & P5 & Ho5).
  { rewrite S4, S3, !lookup_delete_ne, L, decide_True by done. by eexists. }
  rewrite E5. cbn [mbind option_bind]. set (s5 := set_store _ _) in *.
  assert (S5 : store s5 = delete n (store s4)) by done. assert (F5 : framed s s5) by (by apply framed_store, framed_hp).
  clearbody s5.
  assert (Lp5 : node_at par s5 = Some (set_children (children v ++ [n]) v)).
  { unfold node_at, node_in. rewrite S5, S4, S3, !lookup_delete_ne by done. by rewrite L, decide_False, decide_True. }
  rewrite Lp5. cbn [mbind option_bind children set_children]. eexists _, live5. split; [reflexivity |].
  split; [by apply framed_put |]. assert (Ef : delete (0 + length (children v))%nat (children v ++ [n]) = children v).
  { rewrite Nat.add_0_l, delete_middle. apply app_nil_r. }
  split; [| split; [| done]].
  - cbn [put store set_store]. rewrite Ef, S5, S4, S3. apply map_eq. intros q.
    rewrite lookup_insert, !lookup_delete, L. repeat case_decide; subst; try congruence.
    rewrite Epar. by destruct v.
  - apply heap_ok_put; [done |]. unfold node_at, node_in in Lp5. destruct (store s5 !! par); [by eexists | done].
Qed.
End create.
