(* ===== verification/InitrdProps.v ===== *)
(** The initial RAM disk: what the build tool writes is what the kernel reads. *)
From S2P Require Import Prelude StringRs Heap BumpHeap VfsNode VfsStore Ramfs RamFiles Initrd.

(** ** Bytes in memory *)

Lemma length_mem_bytes m p n : length (mem_bytes m p n) = n.
Proof. unfold mem_bytes. by rewrite length_map, length_seq. Qed.

Lemma lookup_mem_bytes m p n i : (i < n)%nat -> mem_bytes m p n !! i = Some (m (p + Z.of_nat i)).
Proof.
  intros Hi. unfold mem_bytes. rewrite list_lookup_fmap. rewrite lookup_seq_lt by done. done.
Qed.

Lemma mem_bytes_at m p l : bytes_at m p l -> mem_bytes m p (length l) = l.
Proof.
  intros Hl. apply list_eq. intros i. destruct (decide (i < length l)%nat) as [Hi |].
  - rewrite lookup_mem_bytes by done. destruct (lookup_lt_is_Some_2 l i Hi) as [b Hb].
    by rewrite Hb, (Hl i b Hb).
  - rewrite !lookup_ge_None_2; rewrite ?length_mem_bytes; lia || done.
Qed.

Lemma bytes_at_app m p l1 l2 : bytes_at m p (l1 ++ l2) <-> bytes_at m p l1 /\ bytes_at m (p + Z.of_nat (length l1)) l2.
Proof.
  split.
  - intros Hl. split; intros i b Hb.
    + apply Hl. by apply lookup_app_l_Some.
    + replace (p + Z.of_nat (length l1) + Z.of_nat i) with (p + Z.of_nat (length l1 + i)) by lia.
      apply Hl. rewrite lookup_app_r by lia. rewrite <- Hb. f_equal. lia.
  - intros [H1 H2] i b [Hb | [Hi Hb]]%lookup_app_Some; [by apply H1 |].
    rewrite <- (H2 (i - length l1)%nat b Hb). f_equal. lia.
Qed.

Lemma mem_bytes_slice m p off n len : 0 <= off -> 0 <= n <= len - off ->
  mem_bytes m (p + off) (Z.to_nat n) = file_slice off n (mem_bytes m p (Z.to_nat len)).
Proof.
  intros Ho Hn. unfold file_slice. apply list_eq. intros i.
  destruct (decide (i < Z.to_nat n)%nat) as [Hi |].
  - rewrite lookup_mem_bytes, lookup_take_lt, lookup_drop, lookup_mem_bytes by lia. do 2 f_equal. lia.
  - rewrite lookup_take_ge by lia. apply lookup_ge_None_2. rewrite length_mem_bytes. lia.
Qed.

(** ** Reading *)

Section read.
Context {H X : Type} `{KernelHeap H}.
Implicit Types s : vfs H X.

(** The bytes of entry [f]. *)
Definition file_data (s : vfs H X) (f : InitrdFile) : list Z := mem_bytes (module_mem s) (i_data f) (Z.to_nat (i_size f)).

Lemma initrd_read_spec s p v i f off n :
  node_at p s = Some v -> private_data v = PInitrd i -> FILES s !! i = Some f -> 0 <= i_size f < 2 ^ 32 ->
  0 <= off -> 0 <= n < 2 ^ 32 ->
  initrd_vfs_read p off n s =
    Some (i32 (Z.of_nat (length (file_slice off n (file_data s f)))), file_slice off n (file_data s f)).
Proof.
  intros Hv Hp Hf Hs Ho Hn. unfold initrd_vfs_read. rewrite Hv. cbn [mbind option_bind]. rewrite Hp, Hf.
  cbn [mbind option_bind]. unfold file_data.
  destruct (Z.leb_spec (i_size f) off).
  - unfold file_slice. rewrite drop_ge by (rewrite length_mem_bytes; lia). by rewrite take_nil.
  - cbn zeta. rewrite clamp_spec by lia. rewrite (mem_bytes_slice _ _ _ _ (i_size f)) by lia.
    assert (E : file_slice off (Z.min n (i_size f - off)) (mem_bytes (module_mem s) (i_data f) (Z.to_nat (i_size f)))
              = file_slice off n (mem_bytes (module_mem s) (i_data f) (Z.to_nat (i_size f)))).
    { unfold file_slice. destruct (Z.min_spec n (i_size f - off)) as [[_ ->] | [? ->]]; [done |].
      rewrite !take_ge; rewrite ?length_drop, ?length_mem_bytes; lia || done. }
    rewrite E. do 3 f_equal. unfold file_slice. rewrite length_take, length_drop, length_mem_bytes. lia.
Qed.
End read.

(** ** The image *)

Definition file_ok (f : list Z * list Z) : Prop :=
  no_nul f.1 /\ Z.of_nat (length f.2) < 2 ^ 32.

Lemma pad_name_spec nm : exists pad, pad_name nm = take 63 nm ++ replicate (S pad) 0 /\
  (length (take 63 nm) + S pad = 64)%nat.
Proof.
  exists (63 - length (take 63 nm))%nat. unfold pad_name, NAME_LEN. cbn [Nat.sub].
  assert (E : take (Nat.min (length nm) 63) nm = take 63 nm).
  { destruct (Nat.min_spec (length nm) 63) as [[? ->] | [? ->]]; [rewrite !take_ge; done || lia | done]. }
  rewrite E. assert (length (take 63 nm) <= 63)%nat by (rewrite length_take; lia).
  rewrite splice_zeros by lia. split; [do 2 f_equal; lia | lia].
Qed.

Lemma length_pad_name nm : length (pad_name nm) = 64%nat.
Proof. destruct (pad_name_spec nm) as (pad & -> & E). by rewrite length_app, length_replicate. Qed.

(** What the loop stores for a file that is at [ptr]. *)
Lemma read_files_image m ptr f fs n :
  file_ok f -> bytes_at m ptr (concat (image_file <$> f :: fs)) ->
  exists e, read_files (S n) m ptr = e :: read_files n m (ptr + Z.of_nat (length (image_file f))) /\
    cstr (i_name e) = take 63 f.1 /\ i_size e = Z.of_nat (length f.2) /\
    mem_bytes m (i_data e) (length f.2) = f.2 /\
    bytes_at m (ptr + Z.of_nat (length (image_file f))) (concat (image_file <$> fs)).
Proof.
  intros (Hnn & Hlen) Hat. cbn [fmap list_fmap concat] in Hat. apply bytes_at_app in Hat as [Hf Hrest].
  pose proof Hf as Hf0. unfold image_file in Hf. apply bytes_at_app in Hf as [Hname Hf]. apply bytes_at_app in Hf as [Hsize Hdata].
  rewrite length_pad_name, length_le_bytes in *.
  cbn [read_files]. unfold INITRD_NAME_LEN.
  pose proof (mem_bytes_at _ _ _ Hname) as En. pose proof (mem_bytes_at _ _ _ Hsize) as Es.
  rewrite length_pad_name in En. rewrite length_le_bytes in Es.
  rewrite En, Es, le_val_4 by lia.
  eexists. split; [f_equal; f_equal; unfold image_file; rewrite !length_app, length_pad_name, length_le_bytes; lia |].
  cbn [i_name i_size i_data]. split_and!; [| done | | done].
  - destruct (pad_name_spec f.1) as (pad & -> & Hpad). change (64 - 1)%nat with 63%nat.
    rewrite take_app, (take_ge (take 63 f.1)) by lia. rewrite take_replicate, <- app_assoc.
    destruct (Nat.min (63 - length (take 63 f.1)) (S pad)) as [| k]; cbn [replicate app];
      apply cstr_app_nul; by apply no_nul_take.
  - by apply mem_bytes_at.
Qed.

Lemma read_files_images m ptr fs n i f :
  Forall file_ok fs -> bytes_at m ptr (concat (image_file <$> fs)) -> fs !! i = Some f -> (i < n)%nat ->
  exists e, read_files n m ptr !! i = Some e /\ cstr (i_name e) = take 63 f.1 /\
    i_size e = Z.of_nat (length f.2) /\ mem_bytes m (i_data e) (length f.2) = f.2.
Proof.
  intros Hok. revert ptr n i. induction Hok as [| g fs Hg Hok IH]; intros ptr n i Hat Hi Hn; [done |].
  destruct n as [| n]; [lia |].
  destruct (read_files_image m ptr g fs n Hg Hat) as (e & -> & E1 & E2 & E3 & Hat').
  destruct i as [| i]; [injection Hi as ->; by exists e |]. apply (IH _ n i Hat'); [done | lia].
Qed.

Lemma length_read_files n m ptr : length (read_files n m ptr) = n.
Proof. revert ptr; induction n as [| n IH]; intros; cbn; [done | by rewrite IH]. Qed.

(** ** The table after [init] *)

Section init.
Context {H X : Type} `{KernelHeap H} `{Console X}.
Implicit Types s : vfs H X.

(** The first entry with a name is the one that has it, when names differ. *)
Lemma find_unique {A} (key : A -> list Z) (l : list A) i x :
  Forall (fun y => no_nul (key y)) l -> NoDup (key <$> l) -> l !! i = Some x ->
  List.find (fun y => strcmp_list (key y) (key x) =? 0) l = Some x.
Proof.
  intros Hn. revert i. induction Hn as [| y l Hy Hl IH]; intros i Hnd Hi; [done |].
  cbn [fmap list_fmap] in Hnd. apply NoDup_cons in Hnd as [Hni Hnd]. cbn [List.find].
  destruct i as [| i]; [injection Hi as ->; by rewrite strcmp_list_refl |]. cbn in Hi.
  destruct (Z.eqb_spec (strcmp_list (key y) (key x)) 0) as [E |]; [| by apply (IH i)].
  exfalso. apply Hni. apply strcmp_list_eq in E; [| done |].
  - rewrite E. apply list_elem_of_fmap. exists x. split; [done | by apply list_elem_of_lookup_2 with i].
  - rewrite Forall_forall in Hl. apply Hl. by apply list_elem_of_lookup_2 with i.
Qed.

Lemma init_files mb s files :
  Z.of_nat (length files) < 2 ^ 32 -> Z.land (mb_flags mb) MULTIBOOT_FLAG_MODS <> 0 -> mods_count mb <> 0 ->
  bytes_at (module_mem s) (mod_start (mods mb)) (mkinitrd files) -> length (FILES s) = 64%nat ->
  let n := Nat.min 64 (length files) in
  FILE_COUNT (init mb s) = Z.of_nat n /\ module_mem (init mb s) = module_mem s /\
  length (FILES (init mb s)) = 64%nat /\
  take n (FILES (init mb s)) = read_files n (module_mem s) (mod_start (mods mb) + 4) /\
  bytes_at (module_mem s) (mod_start (mods mb) + 4) (concat (image_file <$> files)).
Proof.
  intros Hlen Hfl Hmc Hat H64 n. unfold mkinitrd in Hat. apply bytes_at_app in Hat as [Hcount Hat].
  rewrite length_le_bytes in Hat. change (Z.of_nat 4) with 4 in Hat.
  pose proof (mem_bytes_at _ _ _ Hcount) as Ec. rewrite length_le_bytes in Ec.
  unfold init. rewrite (proj2 (Z.eqb_neq _ 0) Hfl), (proj2 (Z.eqb_neq _ 0) Hmc). cbn [orb].
  change (module_mem (set_files (FILES s) 0 s)) with (module_mem s). rewrite Ec, le_val_4 by lia.
  set (count := if Z.of_nat INITRD_MAX_FILES <? Z.of_nat (length files) then _ else _).
  assert (En : count = Z.of_nat n) by (unfold count, n, INITRD_MAX_FILES; case_if; breflect; lia).
  clearbody count. subst count. rewrite Nat2Z.id.
  set (rf := read_files n (module_mem s) (mod_start (mods mb) + 4)).
  assert (Hrf : length rf = n) by apply length_read_files.
  unfold puts. cbn [FILE_COUNT module_mem FILES set_ext set_files].
  split_and!; try done.
  - rewrite length_splice by (rewrite Hrf; unfold n; lia). done.
  - assert (Hle : (length rf <= length (FILES s) - 0)%nat) by (rewrite Hrf; unfold n; lia).
    rewrite <- Hrf at 1. unfold splice. rewrite take_0, app_nil_l. rewrite (take_ge rf) by exact Hle.
    apply take_app_length.
Qed.
End init.

(** C27: an image written by [mkinitrd] and loaded as the first module gives
    [init] its files back, the first 64 of them: their count, their names cut at 63
    bytes, found by name when the cut names differ, and, through the read function
    of their nodes, their bytes, any range of them, clipped at the end. *)
Theorem initrd_roundtrip {H X} `{KernelHeap H} `{Console X} (s : vfs H X) mb files :
  Forall file_ok files -> Z.of_nat (length files) < 2 ^ 32 ->
  Z.land (mb_flags mb) MULTIBOOT_FLAG_MODS <> 0 -> mods_count mb <> 0 ->
  bytes_at (module_mem s) (mod_start (mods mb)) (mkinitrd files) -> length (FILES s) = 64%nat ->
  get_count (init mb s) = Z.of_nat (Nat.min 64 (length files)) /\
  forall i nm bytes, files !! i = Some (nm, bytes) -> (i < 64)%nat ->
    exists e, get_file (Z.of_nat i) (init mb s) = Some e /\
      cstr (i_name e) = take 63 nm /\ i_size e = Z.of_nat (length bytes) /\
      (NoDup ((fun f => take 63 f.1) <$> files) -> find (take 63 nm) (init mb s) = Some e) /\
      (forall p v off n, node_at p (init mb s) = Some v -> private_data v = PInitrd i ->
         0 <= off -> 0 <= n < 2 ^ 32 ->
         initrd_vfs_read p off n (init mb s) =
           Some (i32 (Z.of_nat (length (file_slice off n bytes))), file_slice off n bytes)).
Proof.
  intros Hok Hlen Hfl Hmc Hat H64.
  destruct (init_files mb s files Hlen Hfl Hmc Hat H64) as (Ec & Em & Hl & Et & Hat').
  split; [done |]. set (s' := init mb s) in *. set (n := Nat.min 64 (length files)) in *. intros i nm bytes Hi Hi64.
  assert (Hin : (i < n)%nat) by (apply lookup_lt_Some in Hi; unfold n; lia).
  destruct (read_files_images _ _ files n i (nm, bytes) Hok Hat' Hi Hin) as (e & He & E1 & E2 & E3).
  assert (Hfi : FILES s' !! i = Some e) by (rewrite <- (lookup_take_lt _ n i Hin), Et; done).
  exists e. cbn [fst snd] in *. split; [| split; [done | split; [done | split]]].
  - unfold get_file. rewrite Ec, (proj2 (Z.leb_gt _ _)), Nat2Z.id by lia. done.
  - intros Hnd. unfold find. rewrite Ec, Nat2Z.id, Et, <- E1.
    assert (Hkeys : (fun f => cstr (i_name f)) <$> read_files n (module_mem s) (mod_start (mods mb) + 4)
        = take n ((fun f => take 63 f.1) <$> files)).
    { apply list_eq. intros j. rewrite list_lookup_fmap. destruct (decide (j < n)%nat) as [Hj |].
      - destruct (lookup_lt_is_Some_2 files j) as [g Hg]; [unfold n in Hj; lia |].
        destruct (read_files_images _ _ files n j g Hok Hat' Hg Hj) as (e' & He' & E1' & _).
        rewrite lookup_take_lt, list_lookup_fmap, Hg, He' by done. cbn. by rewrite E1'.
      - rewrite lookup_take_ge by lia. rewrite (lookup_ge_None_2 (read_files _ _ _)); [done |].
        rewrite length_read_files. lia. }
    apply (find_unique (fun f => cstr (i_name f)) _ i); [| | done].
    + apply Forall_forall. intros. apply cstr_no_nul.
    + rewrite Hkeys. eapply sublist_NoDup; [exact Hnd | apply sublist_take].
  - intros p v off k Hp Hv Ho Hk.
    assert (Hsz : Z.of_nat (length bytes) < 2 ^ 32) by (rewrite Forall_lookup in Hok; by destruct (Hok i _ Hi)).
    rewrite (initrd_read_spec s' p v i e) by (done || lia).
    replace (file_data s' e) with bytes; [done |]. unfold file_data. by rewrite E2, Nat2Z.id, Em, E3.
Qed.

(** An image of two files in memory at 0x200000. *)
Definition demo_files : list (list Z * list Z) := [([104; 105], [1; 2; 3]); ([97], [])].
Definition demo_image : list Z := mkinitrd demo_files.
Definition demo_mb : MultibootInfo := Mb 8 1 (Mod 0x200000 0x200100 0 0).
#[export] Instance list_console : Console (list Z) := {| getchar := fun _ => None; putchar := fun c x => x ++ [c] |}.
Definition demo_boot : vfs bump (list Z) :=
  Vfs empty_heap [] {[ 0x700000 := ONode (file_node (InitrdEntry (replicate 64 0) 3 0) 0) ]} 0 [] 0
    (replicate 64 EMPTY_FILE) 0 (fun a => nth (Z.to_nat (a - 0x200000)) demo_image 0) 0 [] 0.

Lemma demo_image_at : bytes_at (module_mem demo_boot) 0x200000 demo_image.
Proof.
  intros i b Hb. cbn [module_mem demo_boot]. replace (Z.to_nat (0x200000 + Z.of_nat i - 0x200000)) with i by lia.
  by apply nth_lookup_Some.
Qed.

Lemma initrd_roundtrip_witness :
  get_count (init demo_mb demo_boot) = 2 /\
  initrd_vfs_read 0x700000 1 100 (init demo_mb demo_boot) = Some (2, [2; 3]).
Proof.
  destruct (initrd_roundtrip demo_boot demo_mb demo_files) as [Hc Hf];
    [by repeat constructor | done | done | done | exact demo_image_at | done |].
  split; [exact Hc |]. destruct (Hf 0%nat [104; 105] [1; 2; 3] eq_refl) as (e & _ & _ & _ & _ & Hr); [lia |].
  apply (Hr 0x700000 (file_node (InitrdEntry (replicate 64 0) 3 0) 0) 1 100); [reflexivity | reflexivity | lia | lia].
Defined.
