(* ===== verification/VfsSpec.v ===== *)
(** What the descriptor operations promise: a table of open files over files
    that are byte sequences.  The specification is executable; the refinement
    theorem is in [VfsProps]. *)
From S2P Require Import Prelude StringRs VfsNode RamFiles VfsTree.

(** A RAM file, a read-only file, /dev/null, /dev/zero, and a node without
    operations on its bytes. *)
Inductive afile := ARam (c : list Z) | ARom (c : list Z) | ANull | AZero | ADir.

(** Paths (by their components) that are known to lead to a node, 0 when they
    lead nowhere; files; and the open descriptors with their offsets. *)
Record afs := Afs {
  a_names : gmap (list (list Z)) Z;
  a_files : gmap Z afile;
  a_fds : list (option (Z * Z)) }.

Inductive op :=
  OOpen (path : list Z) | ORead (fd n : Z) | OWrite (fd : Z) (d : list Z) | OSeek (fd off whence : Z) | OClose (fd : Z).

Inductive res := RInt (r : Z) | RBytes (r : Z) (l : list Z).

Definition a_size (f : afile) : Z := match f with ARam c | ARom c => Z.of_nat (length c) | _ => 0 end.

Definition a_read (f : afile) (off n : Z) : Z * list Z :=
  match f with
  | ARam c | ARom c => (Z.of_nat (length (file_slice off n c)), file_slice off n c)
  | ANull => (0, [])
  | AZero => (n, replicate (Z.to_nat n) 0)
  | ADir => (-1, [])
  end.

(** [oom]: the heap refuses to grow the file, which only a longer file needs. *)
Definition a_write (oom : bool) (f : afile) (off : Z) (d : list Z) : Z * afile :=
  match f with
  | ARam c =>
      if oom && (Z.of_nat (length c) <? off + Z.of_nat (length d)) then (-1, f)
      else (Z.of_nat (length d), ARam (overlay (Z.to_nat off) d c))
  | ANull | AZero => (Z.of_nat (length d), f)
  | ARom _ | ADir => (-1, f)
  end.

Definition a_fd (fd : Z) (A : afs) : option (Z * Z) :=
  if (fd <? 0) || (32 <=? fd) then None else match a_fds A !! Z.to_nat fd with Some e => e | None => None end.
Definition set_a_fd (fd : Z) (e : option (Z * Z)) (A : afs) : afs :=
  Afs (a_names A) (a_files A) (<[Z.to_nat fd := e]> (a_fds A)).
Definition set_a_file (p : Z) (f : afile) (A : afs) : afs := Afs (a_names A) (<[p := f]> (a_files A)) (a_fds A).

Fixpoint a_free (i : nat) (t : list (option (Z * Z))) : option nat :=
  match t with [] => None | Some _ :: t => a_free (S i) t | None :: _ => Some i end.

(** One operation; [None] when a path or file is not among the known ones. *)
Definition a_step (oom : bool) (o : op) (A : afs) : option (res * afs) :=
  match o with
  | OOpen path =>
      p ← a_names A !! components path;
      if p =? 0 then Some (RInt (-1), A) else
      Some (match a_free 0 (a_fds A) with
            | None => (RInt (-1), A)
            | Some i => (RInt (Z.of_nat i), set_a_fd (Z.of_nat i) (Some (p, 0)) A)
            end)
  | ORead fd n =>
      match a_fd fd A with
      | None => Some (RBytes (-1) [], A)
      | Some (p, off) =>
          f ← a_files A !! p;
          let '(r, l) := a_read f off n in
          Some (RBytes r l, if 0 <? r then set_a_fd fd (Some (p, off + r)) A else A)
      end
  | OWrite fd d =>
      match a_fd fd A with
      | None => Some (RInt (-1), A)
      | Some (p, off) =>
          f ← a_files A !! p;
          let '(r, f) := a_write oom f off d in
          let A := set_a_file p f A in
          Some (RInt r, if 0 <? r then set_a_fd fd (Some (p, off + r)) A else A)
      end
  | OSeek fd off whence =>
      match a_fd fd A with
      | None => Some (RInt (-1), A)
      | Some (p, cur) =>
          f ← a_files A !! p;
          if negb ((whence =? 0) || (whence =? 1) || (whence =? 2)) then Some (RInt (-1), A) else
          let new := (if whence =? 0 then 0 else if whence =? 1 then cur else a_size f) + off in
          if new <? 0 then Some (RInt (-1), A) else Some (RInt new, set_a_fd fd (Some (p, new)) A)
      end
  | OClose fd => Some (RInt 0, if (fd <? 0) || (32 <=? fd) then A else set_a_fd fd None A)
  end.

Fixpoint a_run (os : list (bool * op)) (A : afs) : option (list res * afs) :=
  match os with
  | [] => Some ([], A)
  | (oom, o) :: os => '(r, A) ← a_step oom o A; '(rs, A) ← a_run os A; Some (r :: rs, A)
  end.

(** ** Bounds

    How far an operation can move an offset or lengthen a file. *)
Definition op_cost (o : op) : Z :=
  match o with
  | OOpen _ | OClose _ => 0
  | ORead _ n => n
  | OWrite _ d => Z.of_nat (length d)
  | OSeek _ off _ => Z.abs off
  end.
Definition op_ok (A : afs) (o : op) : Prop :=
  match o with OOpen path => no_nul path /\ is_Some (a_names A !! components path) | ORead _ n => 0 <= n | _ => True end.

(** No file is longer, and no offset larger, than [b]. *)
Record within (A : afs) (b : Z) : Prop := {
  wi_file : forall p f, a_files A !! p = Some f -> a_size f <= b;
  wi_fd : forall i p off, a_fds A !! i = Some (Some (p, off)) -> 0 <= off <= b }.

(** Every known path and descriptor is that of a known file. *)
Record closed (A : afs) : Prop := {
  cl_names : forall ws p, a_names A !! ws = Some p -> p = 0 \/ is_Some (a_files A !! p);
  cl_fds : forall i p off, a_fds A !! i = Some (Some (p, off)) -> is_Some (a_files A !! p);
  cl_len : length (a_fds A) = 32%nat }.

Lemma within_mono A b b' : within A b -> b <= b' -> within A b'.
Proof. intros [Hf Hd] Hb. split; [intros p f E; specialize (Hf p f E); lia | intros i p off E; specialize (Hd i p off E); lia]. Qed.

Lemma set_a_fd_within A b i p off : within A b -> 0 <= off <= b -> within (set_a_fd i (Some (p, off)) A) b.
Proof.
  intros [Hf Hd] Ho. split; [done |]. intros j q o'. cbn. intros [(_ & [= <- <-] & _) | [_ E]]%list_lookup_insert_Some; [done |].
  by apply (Hd j q).
Qed.
Lemma set_a_fd_none_within A b i : within A b -> within (set_a_fd i None A) b.
Proof.
  intros [Hf Hd]. split; [done |]. intros j q o'. cbn. intros [(_ & [=] & _) | [_ E]]%list_lookup_insert_Some.
  by apply (Hd j q).
Qed.
Lemma set_a_file_within A b p f : within A b -> a_size f <= b -> within (set_a_file p f A) b.
Proof.
  intros [Hf Hd] Ho. split; [| done]. intros q g. cbn. intros [[<- <-] | [_ E]]%lookup_insert_Some; [done |].
  by apply (Hf q).
Qed.

Lemma set_a_fd_closed A i e : closed A -> (forall p off, e = Some (p, off) -> is_Some (a_files A !! p)) -> closed (set_a_fd i e A).
Proof.
  intros [Hn Hd Hl] He. split; [done | | cbn; by rewrite length_insert]. intros j q o'. cbn.
  intros [(_ & E & _) | [_ E]]%list_lookup_insert_Some; [by eapply He | by apply (Hd j q o')].
Qed.
Lemma set_a_file_closed A p f : closed A -> closed (set_a_file p f A).
Proof.
  intros [Hn Hd Hl].
  assert (Hs : forall q, is_Some (a_files A !! q) -> is_Some (a_files (set_a_file p f A) !! q)).
  { intros q Hq. cbn. rewrite lookup_insert. case_decide; [by eexists | done]. }
  split; [intros ws q E; destruct (Hn ws q E); [by left | right; by apply Hs] | | done].
  intros j q o' E. apply Hs. by apply (Hd j q o').
Qed.

Lemma a_fd_Some A fd p off : a_fd fd A = Some (p, off) -> 0 <= fd < 32 /\ a_fds A !! Z.to_nat fd = Some (Some (p, off)).
Proof.
  unfold a_fd. destruct (_ || _) eqn:E; [done |]. breflect. destruct (a_fds A !! Z.to_nat fd) as [e |]; [| done].
  intros ->. split; [lia | done].
Qed.

(** An operation stays within the bound its cost allows, and is defined. *)
Lemma a_step_ok oom o A b : closed A -> within A b -> op_ok A o -> 0 <= b ->
  exists r A', a_step oom o A = Some (r, A') /\ closed A' /\ within A' (b + op_cost o) /\ a_names A' = a_names A.
Proof.
  intros Hc Hw Ho Hb. destruct o as [path | fd n | fd d | fd off whence | fd]; cbn [a_step op_cost op_ok] in *.
  - destruct Ho as [_ [p Hp]]. rewrite Hp. cbn [mbind option_bind].
    rewrite Z.add_0_r. case_if; [by eexists _, A |]. breflect.
    destruct (a_free 0 (a_fds A)) as [i |]; [| by eexists _, A]. eexists _, _. split; [done |].
    split; [| split; [by apply set_a_fd_within; [| lia] | done]].
    apply set_a_fd_closed; [done |]. intros q o' [= <- <-]. by destruct (cl_names _ Hc _ _ Hp).
  - destruct (a_fd fd A) as [[p off] |] eqn:Ef; [| eexists _, A; split_and!; [done | done | eapply within_mono; [done | lia] | done]].
    apply a_fd_Some in Ef as [Hfd Ef]. destruct (cl_fds _ Hc _ _ _ Ef) as [f Hf]. rewrite Hf. cbn [mbind option_bind].
    pose proof (wi_fd _ _ Hw _ _ _ Ef). destruct (a_read f off n) as [r l] eqn:Er.
    assert (Hr : r <= n).
    { unfold a_read in Er. destruct f; injection Er as <- <-; unfold file_slice; rewrite ?length_take; lia. }
    eexists _, _. split; [done |]. case_if; breflect.
    + split; [apply set_a_fd_closed; [done | intros ? ? [= <- <-]; by eexists] |]. split; [| done].
      apply set_a_fd_within; [eapply within_mono; [done | lia] | lia].
    + split_and!; [done | eapply within_mono; [done | lia] | done].
  - destruct (a_fd fd A) as [[p off] |] eqn:Ef; [| eexists _, A; split_and!; [done | done | eapply within_mono; [done | lia] | done]].
    apply a_fd_Some in Ef as [Hfd Ef]. destruct (cl_fds _ Hc _ _ _ Ef) as [f Hf]. rewrite Hf. cbn [mbind option_bind].
    pose proof (wi_fd _ _ Hw _ _ _ Ef). pose proof (wi_file _ _ Hw _ _ Hf).
    destruct (a_write oom f off d) as [r g] eqn:Er.
    assert (Hr : r <= Z.of_nat (length d) /\ a_size g <= b + Z.of_nat (length d)).
    { unfold a_write in Er. destruct f; try case_if_in Er; injection Er as <- <-; cbn [a_size] in *;
        rewrite ?length_overlay; lia. }
    assert (Hc' : closed (set_a_file p g A)) by (by apply set_a_file_closed).
    assert (Hw' : within (set_a_file p g A) (b + Z.of_nat (length d)))
      by (apply set_a_file_within; [eapply within_mono; [done | lia] | lia]).
    eexists _, _. split; [done |]. case_if; breflect.
    + split; [apply set_a_fd_closed; [done |] |]; [| split; [by apply set_a_fd_within; [| lia] | done]].
      intros q o' [= <- <-]. cbn. rewrite lookup_insert_eq. by eexists.
    + by split_and!.
  - assert (Hmono : within A (b + Z.abs off)) by (eapply within_mono; [done | lia]).
    destruct (a_fd fd A) as [[p cur] |] eqn:Ef; [| eexists _, A; by split_and!].
    apply a_fd_Some in Ef as [Hfd Ef]. destruct (cl_fds _ Hc _ _ _ Ef) as [f Hf]. rewrite Hf. cbn [mbind option_bind].
    pose proof (wi_fd _ _ Hw _ _ _ Ef). pose proof (wi_file _ _ Hw _ _ Hf).
    case_if; [eexists _, A; by split_and! |]. set (new := _ + off).
    assert (new <= b + Z.abs off) by (unfold new; repeat case_if; lia). clearbody new.
    case_if; [eexists _, A; by split_and! |]. breflect. eexists _, _. split; [done |].
    split; [apply set_a_fd_closed; [done | intros ? ? [= <- <-]; by eexists] |]. split; [| done].
    apply set_a_fd_within; [done | lia].
  - rewrite Z.add_0_r. eexists _, _. split; [done |]. case_if; [by split_and! |].
    split; [by apply set_a_fd_closed | split; [by apply set_a_fd_none_within | done]].
Qed.
