(* ===== verification/VfsProps.v ===== *)
(** The theorems about the virtual file system: descriptors implement [VfsSpec],
    paths that are made are found, a file that is unlinked leaves nothing. *)
From S2P Require Import Prelude StringRs Heap BumpHeap VfsNode VfsStore Ramfs RamFiles Initrd InitrdProps Devfs Fat16Vfs Vfs VfsTree VfsMake VfsFile VfsSpec.

(** ** The tree does not depend on sizes *)

Definition same_shape (m m' : gmap Z obj) : Prop := forall p, set_size 0 <$> node_in m' p = set_size 0 <$> node_in m p.

Lemma same_shape_node m m' p v : same_shape m m' -> node_in m p = Some v ->
  exists v', node_in m' p = Some v' /\ set_size 0 v' = set_size 0 v.
Proof.
  intros Hs Hp. specialize (Hs p). rewrite Hp in Hs. destruct (node_in m' p) as [v' |]; [| done].
  exists v'. split; [done |]. cbn in Hs. congruence.
Qed.

Lemma same_shape_sym m m' : same_shape m m' -> same_shape m' m.
Proof. intros Hs p. by rewrite Hs. Qed.

Lemma find_child_shape m m' nm cs : same_shape m m' -> find_child m' nm cs = find_child m nm cs.
Proof.
  intros Hs. induction cs as [| c cs IH]; [done |]. cbn [find_child].
  destruct (node_in m c) as [v |] eqn:Ev.
  - destruct (same_shape_node m m' c v Hs Ev) as (v' & -> & E). cbn [mbind option_bind].
    assert (name v' = name v) as -> by exact (f_equal name E). by rewrite IH.
  - specialize (Hs c). rewrite Ev in Hs. by destruct (node_in m' c).
Qed.

Lemma lookup_name_shape m m' dir nm : same_shape m m' -> lookup_name m' dir nm = lookup_name m dir nm.
Proof.
  intros Hs. unfold lookup_name. destruct (dir =? 0); [done |]. destruct (node_in m dir) as [v |] eqn:Ev.
  - destruct (same_shape_node m m' dir v Hs Ev) as (v' & -> & E). cbn [mbind option_bind].
    assert (children v' = children v) as -> by exact (f_equal children E).
    assert (is_dir v' = is_dir v) as -> by exact (f_equal is_dir E).
    assert (on_volume v' = on_volume v) as -> by exact (f_equal on_volume E). by rewrite (find_child_shape m).
  - specialize (Hs dir). rewrite Ev in Hs. by destruct (node_in m' dir).
Qed.

Lemma walk_shape m m' cur ws : same_shape m m' -> walk m' cur ws = walk m cur ws.
Proof.
  intros Hs. revert cur. induction ws as [| w ws IH]; intros cur; [done |]. cbn [walk].
  rewrite (lookup_name_shape m) by done. destruct (lookup_name m cur w); [apply IH | done].
Qed.

Lemma tree_ok_shape m m' root : same_shape m m' -> m' !! 0 = None -> tree_ok m root -> tree_ok m' root.
Proof.
  intros Hs Hz [_ Tr Tc Tn Td Tf]. pose proof (same_shape_sym _ _ Hs) as Hs'.
  split; [done | | intros p v c Hp Hin | intros p v Hp | intros p v Hp Hd | intros p v Hp Hd].
  - destruct Tr as [v Hv]. destruct (same_shape_node m m' root v Hs Hv) as (v' & ? & _). by exists v'.
  - destruct (same_shape_node m' m p v Hs' Hp) as (v0 & Hp0 & E).
    destruct (Tc p v0 c Hp0) as [w Hw]; [assert (children v0 = children v) as -> by exact (f_equal children E); done |].
    destruct (same_shape_node m m' c w Hs Hw) as (w' & ? & _). by exists w'.
  - destruct (same_shape_node m' m p v Hs' Hp) as (v0 & Hp0 & E).
    assert (name v = name v0) as -> by exact (f_equal name (eq_sym E)). by apply (Tn p).
  - destruct (same_shape_node m' m p v Hs' Hp) as (v0 & Hp0 & E).
    assert (finddir_fn v = finddir_fn v0) as -> by exact (f_equal finddir_fn (eq_sym E)).
    apply (Td p v0 Hp0). assert (is_dir v0 = is_dir v) as -> by exact (f_equal is_dir E). done.
  - destruct (same_shape_node m' m p v Hs' Hp) as (v0 & Hp0 & E).
    assert (finddir_fn v = finddir_fn v0) as -> by exact (f_equal finddir_fn (eq_sym E)).
    apply (Tf p v0 Hp0). assert (is_dir v0 = is_dir v) as -> by exact (f_equal is_dir E). done.
Qed.

(** ** The files the nodes stand for *)

Section abs.
Context {H X : Type} `{KernelHeap H} `{Console X} `{FatDisk X}.
Implicit Types s : vfs H X.

(** [None]: the console, a file of a FAT16 volume, or a node whose size is not that of
    its file. *)
Definition abs_node s (p : Z) (v : VfsNode) : option afile :=
  match private_data v, read_fn v, write_fn v with
  | PRam _, Some RamfsRead, Some RamfsWrite => c ← content (store s) p; if sized v c then Some (ARam c) else None
  | PInitrd i, Some InitrdRead, None =>
      f ← FILES s !! i;
      if (n_size v =? i_size f) && (0 <=? i_size f) && (i_size f <? 2 ^ 32) then Some (ARom (file_data s f)) else None
  | PNull, Some NullRead, Some NullWrite => if n_size v =? 0 then Some ANull else None
  | PNull, Some ZeroRead, Some ZeroWrite => if n_size v =? 0 then Some AZero else None
  | PNull, None, None => if n_size v =? 0 then Some ADir else None
  | _, _, _ => None
  end.
Definition abs s (p : Z) : option afile := v ← node_at p s; abs_node s p v.

Lemma abs_node_at s p f : abs s p = Some f -> exists v, node_at p s = Some v /\ abs_node s p v = Some f.
Proof. unfold abs. destruct (node_at p s) as [v |]; [| done]. by exists v. Qed.

Lemma abs_size s live p v f : vfs_ok s live -> node_at p s = Some v -> abs_node s p v = Some f -> n_size v = a_size f.
Proof.
  intros Hok Hv. unfold abs_node.
  destruct (private_data v) as [| r | i] eqn:Ep; destruct (read_fn v) as [[] |] eqn:Er; try done;
    destruct (write_fn v) as [[] |] eqn:Ew; try done; try (case_if; [intros [= <-]; breflect; done | done]).
  - destruct (content (store s) p) as [c |] eqn:Ec; [| done]. cbn [mbind option_bind]. unfold sized.
    case_if; [| done]. intros [= <-]. by breflect.
  - destruct (FILES s !! i) as [f' |]; [| done]. cbn [mbind option_bind]. case_if; [| done]. intros [= <-]. breflect.
    cbn [a_size]. unfold file_data. rewrite length_mem_bytes. lia.
Qed.

Lemma file_slice_length off n (c : list Z) : 0 <= off -> 0 <= n -> (length (file_slice off n c) <= length c)%nat.
Proof. intros. unfold file_slice. rewrite length_take, length_drop. lia. Qed.

Lemma read_refines s live p f off n : vfs_ok s live -> abs s p = Some f ->
  0 <= off -> 0 <= n < 2 ^ 31 -> a_size f < 2 ^ 31 ->
  read p off n s = Some (a_read f off n, s).
Proof.
  intros Hok Hf Ho Hn Hs. destruct (abs_node_at s p f Hf) as (v & Hv & Hav).
  assert (Hp0 : p <> 0) by (eapply node_ne_0; [apply Hok | exact Hv]).
  assert (Hi : forall c : list Z, Z.of_nat (length c) < 2 ^ 31 ->
    i32 (Z.of_nat (length (file_slice off n c))) = Z.of_nat (length (file_slice off n c))).
  { intros c Hc. apply i32_small. pose proof (file_slice_length off n c). lia. }
  unfold read. rewrite (proj2 (Z.eqb_neq p 0)), Hv by done. cbn [mbind option_bind]. unfold abs_node in Hav.
  destruct (private_data v) as [| r | i] eqn:Ep; destruct (read_fn v) as [[] |] eqn:Er; try done;
    destruct (write_fn v) as [[] |] eqn:Ew; try done; try (case_if_in Hav; [injection Hav as <- | done]).
  - done.
  - unfold zero_read. cbn [a_read]. by rewrite i32_small by lia.
  - done.
  - destruct (content (store s) p) as [c |] eqn:Ec; [| done]. cbn [mbind option_bind] in Hav. case_if_in Hav; [| done].
    injection Hav as <-. cbn [a_size a_read] in *.
    unfold pure. rewrite (ramfs_read_spec s p c off n) by (done || apply Hok || lia). cbn [mbind option_bind].
    by rewrite Hi by done.
  - destruct (FILES s !! i) as [f' |] eqn:Ef; [| done]. cbn [mbind option_bind] in Hav. case_if_in Hav; [| done].
    injection Hav as <-. breflect. cbn [a_size a_read] in *. unfold pure.
    rewrite (initrd_read_spec s p v i f' off n) by (done || lia). cbn [mbind option_bind]. by rewrite Hi.
Qed.

Lemma abs_framed s s' q : framed s s' -> node_at q s' = node_at q s -> content (store s') q = content (store s) q ->
  abs s' q = abs s q.
Proof.
  intros Hf Hn Hc. unfold abs. rewrite Hn. destruct (node_at q s) as [v |]; [| done]. cbn [mbind option_bind].
  assert (FILES s' = FILES s /\ module_mem s' = module_mem s) as [E1 E2] by (unfold framed in Hf; rewrite Hf; done).
  unfold abs_node, file_data. by rewrite Hc, E1, E2.
Qed.

(** What a write leaves as it was. *)
Record untouched s s' (p : Z) : Prop := {
  un_frame : framed s s';
  un_shape : same_shape (store s) (store s');
  un_files : forall q, q <> p -> abs s' q = abs s q }.

Lemma untouched_refl s p : untouched s s p.
Proof. split; [apply framed_refl | by intros q | done]. Qed.

Lemma rewritten_untouched s s' p v c : node_at p s = Some v -> rewritten s s' p v c -> untouched s s' p.
Proof.
  intros Hv [Hf Hc Hn]. split; [done | |].
  - intros q. rewrite Hn. case_decide as E; [| done]. subst q. unfold node_at in Hv. by rewrite Hv.
  - intros q Hq. apply abs_framed; [done | unfold node_at; by rewrite Hn, decide_False | by rewrite Hc, decide_False].
Qed.

Lemma write_refines s live p f off d : vfs_ok s live -> abs s p = Some f ->
  0 <= off -> off + Z.of_nat (length d) < 2 ^ 31 ->
  exists oom s' live', write p off d s = Some ((a_write oom f off d).1, s') /\ vfs_ok s' live' /\
    untouched s s' p /\ abs s' p = Some (a_write oom f off d).2.
Proof.
  intros Hok Hf Ho Hn. destruct (abs_node_at s p f Hf) as (v & Hv & Hav).
  assert (Hp0 : p <> 0) by (eapply node_ne_0; [apply Hok | exact Hv]).
  assert (Hi : i32 (Z.of_nat (length d)) = Z.of_nat (length d)) by (apply i32_small; lia).
  assert (Same : forall r, write p off d s = Some (r, s) -> r = (a_write false f off d).1 -> (a_write false f off d).2 = f ->
    exists oom s' live', write p off d s = Some ((a_write oom f off d).1, s') /\ vfs_ok s' live' /\
      untouched s s' p /\ abs s' p = Some (a_write oom f off d).2).
  { intros r Ew -> E2. exists false, s, live. rewrite E2. split; [done |]. split; [done |]. by split; [apply untouched_refl |]. }
  unfold write in *. rewrite (proj2 (Z.eqb_neq p 0)), Hv in * by done. cbn [mbind option_bind] in *. unfold abs_node in Hav.
  destruct (private_data v) as [| r | i] eqn:Ep; destruct (read_fn v) as [[] |] eqn:Er; try done;
    destruct (write_fn v) as [[] |] eqn:Ew; try done; try (case_if_in Hav; [injection Hav as <- | done]).
  - apply (Same (null_write d)); [done | exact Hi | done].
  - apply (Same (zero_write d)); [done | exact Hi | done].
  - by apply (Same (-1)).
  - destruct (content (store s) p) as [c |] eqn:Ec; [| done]. cbn [mbind option_bind] in Hav. case_if_in Hav; [| done].
    injection Hav as <-. rename E into Hsized.
    destruct (ramfs_write_spec s live p v c off d) as (s' & live' & Hh' & _ & Hf' & Hcase); try done; try apply Hok; [lia |].
    destruct Hcase as [[E Hrw] | (E & Hfr & Hst & Hlt & _)].
    + exists false, s', live'. rewrite E. cbn [a_write andb fst snd]. rewrite Hi. split; [done |].
      pose proof (rewritten_untouched s s' p v _ Hv Hrw) as Hun. split; [| split; [done |]].
      * split; [done | | done]. rewrite (framed_root _ _ (un_frame _ _ _ Hun)).
        apply (tree_ok_shape (store s)); [apply Hun | apply Hh' | apply Hok].
      * unfold abs. unfold node_at. rewrite (rw_node _ _ _ _ _ Hrw), decide_True by done. cbn [mbind option_bind].
        unfold abs_node. cbn [private_data read_fn write_fn set_size]. rewrite Ep, Er, Ew.
        rewrite (rw_content _ _ _ _ _ Hrw), decide_True by done. cbn [mbind option_bind]. unfold sized.
        cbn [n_size set_size]. by rewrite Z.eqb_refl.
    + exists true, s', live'. rewrite E. cbn [a_write andb]. rewrite (proj2 (Z.ltb_lt _ _)) by done. cbn [fst snd].
      split; [done |]. assert (Habs : forall q, abs s' q = abs s q).
      { intros q. apply abs_framed; [done | unfold node_at; by rewrite Hst | by rewrite Hst]. }
      split; [| split; [| by rewrite Habs]].
      * split; [exact Hh' | | exact Hf']. rewrite (framed_root _ _ Hfr), Hst. apply Hok.
      * split; [done | intros q; by rewrite Hst | done].
  - apply (Same (-1)); [done | |]; destruct (FILES s !! i) as [f' |] eqn:Ef; try done; cbn [mbind option_bind] in Hav;
      case_if_in Hav; try done; injection Hav as <-; done.
Qed.
End abs.

(** ** Descriptors *)

Section descriptors.
Context {H X : Type} `{KernelHeap H} `{Console X} `{FatDisk X}.
Implicit Types s : vfs H X.

Definition fd_view (e : FdEntry) : option (Z * Z) := if in_use e then Some (node e, offset e) else None.

(** The state implements [A]. *)
Record sim s (A : afs) : Prop := {
  sm_ok : exists live, vfs_ok s live;
  sm_names : forall ws p, a_names A !! ws = Some p -> walk (store s) (VFS_ROOT s) ws = Some p;
  sm_files : forall p f, a_files A !! p = Some f -> abs s p = Some f;
  sm_fds : a_fds A = fd_view <$> FD_TABLE s }.

Definition step (o : op) s : option (res * vfs H X) :=
  match o with
  | OOpen path => '(r, s) ← vfs_open (Some path) s; Some (RInt r, s)
  | ORead fd n => '(r, l, s) ← vfs_fd_read fd n s; Some (RBytes r l, s)
  | OWrite fd d => '(r, s) ← vfs_fd_write fd d s; Some (RInt r, s)
  | OSeek fd off whence => '(r, s) ← vfs_lseek fd off whence s; Some (RInt r, s)
  | OClose fd => Some (RInt 0, vfs_close fd s)
  end.

Fixpoint run (os : list op) s : option (list res * vfs H X) :=
  match os with
  | [] => Some ([], s)
  | o :: os => '(r, s) ← step o s; '(rs, s) ← run os s; Some (r :: rs, s)
  end.

Lemma a_fd_view s A fd : sim s A -> a_fd fd A = (fun e => (node e, offset e)) <$> open_fd fd s.
Proof.
  intros Hs. unfold a_fd, open_fd. change (Z.of_nat MAX_OPEN_FILES) with 32. case_if; [done |].
  rewrite (sm_fds _ _ Hs), list_lookup_fmap. destruct (FD_TABLE s !! Z.to_nat fd) as [e |]; [| done].
  cbn. unfold fd_view. by destruct (in_use e).
Qed.

Lemma open_fd_in_use fd s e : open_fd fd s = Some e -> 0 <= fd < 32 /\ FD_TABLE s !! Z.to_nat fd = Some e /\ in_use e = true.
Proof.
  unfold open_fd. change (Z.of_nat MAX_OPEN_FILES) with 32. case_if; [done |]. breflect.
  destruct (FD_TABLE s !! Z.to_nat fd) as [e' |]; [| done]. cbn [mbind option_bind]. case_if; [| done]. intros [= ->].
  split; [lia | done].
Qed.

(** Storing an entry of the table. *)
Lemma sim_set_fd s A i e : sim s A ->
  sim (set_fds (<[i := e]> (FD_TABLE s)) s) (set_a_fd (Z.of_nat i) (fd_view e) A).
Proof.
  intros [[live Hok] Hn Hf Hd]. split; [exists live | exact Hn | exact Hf |].
  - destruct Hok as [Hh Ht HF]. split; [| exact Ht | exact HF]. by apply (heap_ok_store s).
  - cbn. by rewrite Nat2Z.id, Hd, list_fmap_insert.
Qed.

Lemma a_free_view i t : a_free i (fd_view <$> t) = first_free i t.
Proof.
  revert i; induction t as [| e t IH]; intros i; [done |]. cbn. unfold fd_view at 1. destruct (in_use e); [apply IH | done].
Qed.

(** A write to file [p] that leaves the rest of the tree and files alone. *)
Lemma sim_untouched s A s' live' p f : sim s A -> vfs_ok s' live' -> untouched s s' p -> abs s' p = Some f ->
  sim s' (set_a_file p f A).
Proof.
  intros [_ Hn Hf Hd] Hok' [Hfr Hsh Hot] Hp. split; [by exists live' | | |].
  - intros ws q Hq. rewrite (framed_root _ _ Hfr), (walk_shape (store s)) by done. by apply Hn.
  - intros q g. cbn. intros [[<- <-] | [Hne Hg]]%lookup_insert_Some; [done |]. rewrite Hot by done. by apply Hf.
  - cbn. assert (FD_TABLE s' = FD_TABLE s) as -> by (unfold framed in Hfr; by rewrite Hfr). done.
Qed.

Lemma untouched_fds s s' p : untouched s s' p -> FD_TABLE s' = FD_TABLE s.
Proof. intros [Hf _ _]. unfold framed in Hf. by rewrite Hf. Qed.

Lemma set_a_fd_Z fd e A : 0 <= fd -> set_a_fd fd e A = set_a_fd (Z.of_nat (Z.to_nat fd)) e A.
Proof. intros. by rewrite Z2Nat.id. Qed.

(** What a descriptor in use stands for. *)
Lemma open_fd_abs s A b fd e : sim s A -> closed A -> within A b -> open_fd fd s = Some e ->
  0 <= fd < 32 /\ 0 <= offset e <= b /\
  exists f, a_files A !! node e = Some f /\ abs s (node e) = Some f /\ 0 <= a_size f <= b.
Proof.
  intros Hs Hc Hw Ee. apply open_fd_in_use in Ee as (Hfd & He & Hu).
  assert (Ea : a_fds A !! Z.to_nat fd = Some (Some (node e, offset e)))
    by (rewrite (sm_fds _ _ Hs), list_lookup_fmap, He; cbn; unfold fd_view; by rewrite Hu).
  split; [done |]. split; [by apply (wi_fd _ _ Hw _ _ _ Ea) |].
  destruct (cl_fds _ Hc _ _ _ Ea) as [f Hf]. exists f. split; [done |]. split; [by apply (sm_files _ _ Hs) |].
  split; [destruct f; cbn; lia | by apply (wi_file _ _ Hw _ _ Hf)].
Qed.

(** [advance] moves the offset as the specification does. *)
Lemma sim_advance s A fd e r : sim s A -> 0 <= fd -> 0 <= offset e -> offset e + r < 2 ^ 32 ->
  sim (advance fd e r s) (if 0 <? r then set_a_fd fd (Some (node e, offset e + r)) A else A).
Proof.
  intros Hs Hfd Ho Hr. unfold advance. case_if; [| done]. breflect.
  rewrite set_a_fd_Z, u32_small by lia. apply (sim_set_fd s A (Z.to_nat fd) (Fd (node e) (offset e + r) true) Hs).
Qed.

Definition step_ok s A (o : op) : Prop :=
  exists oom r s' A', step o s = Some (r, s') /\ a_step oom o A = Some (r, A') /\ sim s' A'.

Lemma step_open s A path : sim s A -> is_Some (a_names A !! components path) -> step_ok s A (OOpen path).
Proof.
  intros Hs [p Hp]. pose proof (sm_ok _ _ Hs) as [live Hok]. exists false. cbn [step a_step].
  rewrite Hp. cbn [mbind option_bind]. unfold vfs_open.
  rewrite (resolve_path_walk s path p) by (apply Hok || by apply (sm_names _ _ Hs)). cbn [mbind option_bind].
  case_if; [by eexists _, s, A |]. rewrite (sm_fds _ _ Hs), a_free_view.
  destruct (first_free 0 (FD_TABLE s)) as [i |]; cbn [mbind option_bind]; [| by eexists _, s, A].
  eexists _, _, _. split; [reflexivity |]. split; [reflexivity |]. apply (sim_set_fd s A i (Fd p 0 true) Hs).
Qed.

Lemma step_read s A b fd n : sim s A -> closed A -> within A b -> 0 <= n -> 0 <= b -> b + n < 2 ^ 31 ->
  step_ok s A (ORead fd n).
Proof.
  intros Hs Hc Hw Hn Hb Hcost. pose proof (sm_ok _ _ Hs) as [live Hok]. exists false. cbn [step a_step].
  rewrite (a_fd_view s A fd Hs). unfold vfs_fd_read.
  destruct (open_fd fd s) as [e |] eqn:Ee; cbn [fmap option_fmap option_map]; [| by eexists _, s, A].
  destruct (open_fd_abs s A b fd e Hs Hc Hw Ee) as (Hfd & Ho & f & Hf & Habs & Hsz).
  rewrite Hf. cbn [mbind option_bind]. rewrite (read_refines s live (node e) f) by (done || lia).
  destruct (a_read f (offset e) n) as [r l] eqn:Er. cbn [mbind option_bind].
  assert (r <= n) by (unfold a_read in Er; destruct f; injection Er as <- <-; unfold file_slice; rewrite ?length_take; lia).
  eexists _, _, _. split; [reflexivity |]. split; [reflexivity |]. apply sim_advance; done || lia.
Qed.

Lemma step_write s A b fd d : sim s A -> closed A -> within A b -> 0 <= b -> b + Z.of_nat (length d) < 2 ^ 31 ->
  step_ok s A (OWrite fd d).
Proof.
  intros Hs Hc Hw Hb Hcost. pose proof (sm_ok _ _ Hs) as [live Hok]. unfold step_ok. cbn [step a_step].
  rewrite (a_fd_view s A fd Hs). unfold vfs_fd_write.
  destruct (open_fd fd s) as [e |] eqn:Ee; cbn [fmap option_fmap option_map]; [| by eexists false, _, s, A].
  destruct (open_fd_abs s A b fd e Hs Hc Hw Ee) as (Hfd & Ho & f & Hf & Habs & Hsz).
  rewrite Hf. cbn [mbind option_bind].
  destruct (write_refines s live (node e) f (offset e) d) as (oom & s' & live' & E & Hok' & Hun & Habs'); [done | done | lia | lia |].
  rewrite E. cbn [mbind option_bind]. destruct (a_write oom f (offset e) d) as [r g] eqn:Er. cbn [fst snd] in *.
  assert (r <= Z.of_nat (length d)).
  { unfold a_write in Er. destruct f; try case_if_in Er; injection Er as <- <-; lia. }
  pose proof (sim_untouched s A s' live' _ _ Hs Hok' Hun Habs') as Hs'.
  exists oom. rewrite Er. eexists _, _, _. split; [reflexivity |]. split; [reflexivity |]. apply sim_advance; done || lia.
Qed.

Lemma step_seek s A b fd off whence : sim s A -> closed A -> within A b -> 0 <= b -> b + Z.abs off < 2 ^ 31 ->
  step_ok s A (OSeek fd off whence).
Proof.
  intros Hs Hc Hw Hb Hcost. pose proof (sm_ok _ _ Hs) as [live Hok]. exists false. cbn [step a_step].
  rewrite (a_fd_view s A fd Hs). unfold vfs_lseek.
  destruct (open_fd fd s) as [e |] eqn:Ee; cbn [fmap option_fmap option_map]; [| by eexists _, s, A].
  destruct (open_fd_abs s A b fd e Hs Hc Hw Ee) as (Hfd & Ho & f & Hf & Habs & Hsz).
  rewrite Hf. cbn [mbind option_bind]. destruct (abs_node_at s _ f Habs) as (v & Hv & Hav).
  assert (Hp0 : node e <> 0) by (eapply node_ne_0; [apply Hok | exact Hv]).
  rewrite (proj2 (Z.eqb_neq _ 0) Hp0), Hv. cbn [mbind option_bind]. rewrite (abs_size s live _ v f Hok Hv Hav).
  assert (Fin : forall base, 0 <= base <= b -> exists r s' A',
    ('(r, s0) ← (let new_off := i64 (base + off) in if new_off <? 0 then Some (-1, s) else
       Some (new_off, set_fds (<[Z.to_nat fd := Fd (node e) (u32 new_off) true]> (FD_TABLE s)) s)); Some (RInt r, s0))
      = Some (r, s') /\
    (if base + off <? 0 then Some (RInt (-1), A) else Some (RInt (base + off), set_a_fd fd (Some (node e, base + off)) A))
      = Some (r, A') /\ sim s' A').
  { intros base Hbase. cbn zeta. rewrite i64_small by lia. case_if; [by eexists _, s, A |]. breflect.
    eexists _, _, _. split; [reflexivity |]. split; [reflexivity |]. rewrite set_a_fd_Z, (u32_small (base + off)) by lia.
    apply (sim_set_fd s A (Z.to_nat fd) (Fd (node e) (base + off) true) Hs). }
  destruct (whence =? 0); [cbn [orb negb mbind option_bind]; apply Fin; lia |].
  destruct (whence =? 1); [cbn [orb negb mbind option_bind]; apply Fin; lia |].
  destruct (whence =? 2); cbn [orb negb mbind option_bind]; [apply Fin; lia | by eexists _, s, A].
Qed.

Lemma step_close s A fd : sim s A -> step_ok s A (OClose fd).
Proof.
  intros Hs. exists false. eexists _, _, _. split; [reflexivity |]. split; [reflexivity |].
  unfold vfs_close. change (Z.of_nat MAX_OPEN_FILES) with 32. case_if; [done |]. breflect.
  rewrite set_a_fd_Z by lia. apply (sim_set_fd s A (Z.to_nat fd) EMPTY_FD Hs).
Qed.

Lemma step_refines s A b o : sim s A -> closed A -> within A b -> op_ok A o -> 0 <= b -> b + op_cost o < 2 ^ 31 ->
  step_ok s A o.
Proof.
  intros Hs Hc Hw Ho Hb Hcost. destruct o as [path | fd n | fd d | fd off whence | fd]; cbn [op_ok op_cost] in *.
  - apply step_open; [done | apply Ho].
  - by apply (step_read s A b).
  - by apply (step_write s A b).
  - by apply (step_seek s A b).
  - by apply step_close.
Qed.
End descriptors.

(** ** Properties *)

(** C24: descriptors implement open files over byte sequences.  The files are RAM files
    whose node has their size (the editor can break that), files of the initrd, the null
    and zero devices and directories; not the console, nor the files of a FAT16 volume,
    although one may be mounted (a write at offset 0 of one of its files cuts the file
    to what is written).  In a state that implements a specification state, any sequence
    of opens (of known paths), reads, writes, seeks and closes, on any descriptors, valid
    or not and several of them on one file, returns what the specification returns, for
    some choice of the writes that find no memory (each of which would have lengthened
    its file), and leaves a state that implements the specification's; as long as offsets
    and lengths together stay below 2^31, where the descriptors' 32-bit results are
    exact. *)
Theorem descriptors_refine {H X} `{KernelHeap H} `{Console X} `{FatDisk X} (s : vfs H X) A b os :
  sim s A -> closed A -> within A b -> 0 <= b -> Forall (op_ok A) os -> b + zsum op_cost os < 2 ^ 31 ->
  exists rs s' ooms A', run os s = Some (rs, s') /\ length ooms = length os /\
    a_run (zip ooms os) A = Some (rs, A') /\ sim s' A'.
Proof.
  intros Hs Hc Hw Hb Hok Hcost. revert s A b Hs Hc Hw Hb Hok Hcost.
  induction os as [| o os IH]; intros s A b Hs Hc Hw Hb Hok Hcost; [by exists [], s, [], A |].
  apply Forall_cons in Hok as [Ho Hos]. cbn [zsum] in Hcost.
  assert (Hnn : forall l, Forall (op_ok A) l -> 0 <= zsum op_cost l).
  { intros l Hl. induction Hl as [| x l Hx Hl IHl]; cbn [zsum]; [lia |].
    assert (0 <= op_cost x) by (destruct x; cbn in *; lia). lia. }
  pose proof (Hnn os Hos). assert (0 <= op_cost o) by (destruct o; cbn in *; lia).
  destruct (step_refines s A b o) as (oom & r & s1 & A1 & E & Ea & Hs1); try done; [lia |].
  destruct (a_step_ok oom o A b Hc Hw Ho Hb) as (r' & A1' & Ea' & Hc1 & Hw1 & En1).
  assert (A1' = A1) as -> by congruence.
  destruct (IH s1 A1 (b + op_cost o)) as (rs & s' & ooms & A' & Er & El & Ear & Hs'); try done; [lia | | lia |].
  { eapply Forall_impl; [exact Hos |]. intros x. destruct x; cbn; by rewrite ?En1. }
  exists (r :: rs), s', (oom :: ooms), A'. cbn [run zip zip_with a_run length]. rewrite E, Ea. cbn [mbind option_bind].
  rewrite Er. cbn [mbind option_bind]. split; [done |]. split; [by rewrite El |].
  split; [| done]. change (zip_with pair ooms os) with (zip ooms os). by rewrite Ear.
Qed.

(** C25: [mkdir_p] makes a path that does not lead through the directory of a FAT16
    volume.  It always returns; what it returns, when not null, is the node
    [resolve_path] then finds at the path, cut to 63 bytes per component and with
    repeated slashes ignored; null is returned only where a component is not a
    directory, its directory is full or the heap refused a node.  Every path off the
    volumes that led to a node still leads there, no file's contents change, and the
    tree stays well-formed.  (On a volume it makes what no path finds:
    [mkdir_on_volume] below.) *)
Theorem mkdir_p_correct {H X} `{KernelHeap H} `{Console X} `{FatDisk X} (s : vfs H X) live path :
  vfs_ok s live -> no_nul path -> off_volume s path ->
  exists d s' live', mkdir_p (Some path) s = Some (d, s') /\ vfs_ok s' live' /\ framed s s' /\
    (forall q, content (store s') q = content (store s) q) /\
    (forall other q, off_volume s other -> resolve_path (Some other) s = Some (q, s) -> q <> 0 ->
       resolve_path (Some other) s' = Some (q, s')) /\
    ((d <> 0 /\ resolve_path (Some path) s' = Some (d, s')) \/
     (d = 0 /\ blocked_at s' (VFS_ROOT s') (components path))).
Proof.
  intros Hok Hnn Hoff. pose proof (vo_tree _ _ Hok) as Ht. destruct (to_root _ _ Ht) as [v Hv].
  destruct (mkdir_p_loop_spec (S (length (skip_slashes path))) (skip_slashes path) (VFS_ROOT s) s live v)
    as (d & s' & live' & E & Hok' & Hg & Hcase); [done | done | | apply skip_slashes_start | lia | by rewrite components_skip |].
  { clear -Hnn. induction Hnn as [| c p Hc Hp IH]; [constructor |]. cbn. case_if; [done | by constructor]. }
  pose proof (framed_root _ _ (gr_frame _ _ Hg)) as Hroot. rewrite components_skip in Hcase.
  exists d, s', live'. split; [exact E |]. split; [done |]. split; [apply Hg |].
  split; [intros q; by apply same_files_content, Hg |]. split.
  - intros other q [c Hw] Hr Hq. apply resolve_path_walk; [apply Hok' |]. rewrite Hroot.
    rewrite (resolve_path_walk s other c Ht Hw) in Hr. injection Hr as ->.
    apply (walk_extends (store s)); [apply Hg | done | done].
  - rewrite Hroot. destruct Hcase as [[? ?] | ?]; [left | by right]. split; [done |].
    apply resolve_path_walk; [apply Hok' | by rewrite Hroot].
Qed.

(** C26: a RAM file that is created and unlinked leaves nothing.  Under a directory,
    not that of a FAT16 volume, and a name of at most 63 bytes it does not have,
    [create_file_in] either makes an empty file, found under its name, every other file
    keeping its contents, and [unlink] then gives back exactly the three areas it took
    and the very tree there was; or it returns null with all memory given back, because
    the directory is full or the heap refused one of the three areas.  (A file made in
    the directory of a volume is not found: [create_on_volume] below; a longer name is
    cut: [long_name_lost].) *)
Theorem create_unlink_restores {H X} `{KernelHeap H} `{Console X} `{FatDisk X} (s : vfs H X) live par v nm :
  vfs_ok s live -> node_at par s = Some v -> is_dir v = true -> name_ok nm ->
  lookup_name (store s) par nm = Some 0 ->
  exists p s1 live1, create_file_in par (Some nm) s = Some (p, s1) /\ vfs_ok s1 live1 /\
    ((p = 0 /\ store s1 = store s /\ Permutation live1 live /\
      ((128 <= length (children v))%nat \/ short SIZEOF_NODE 2 (hp s))) \/
     (p <> 0 /\ finddir par nm s1 = Some (p, s1) /\ length live1 = (3 + length live)%nat /\
      (forall q, content (store s1) q = if decide (q = p) then Some [] else content (store s) q) /\
      exists s2 live2, unlink par (Some nm) s1 = Some (0, s2) /\ store s2 = store s /\ vfs_ok s2 live2 /\
        Permutation live2 live)).
Proof.
  intros Hok Hp Hd Hnm Hl.
  destruct (create_file_spec s live par v nm Hok Hp Hd Hnm Hl) as (p & s1 & live1 & E & F1 & Hcase).
  exists p, s1, live1. split; [exact E |]. destruct Hcase as [(-> & Es & Hh & HP & Hwhy) | (f & b & _ & Hcr)].
  - split; [| by left]. split; [done | rewrite (framed_root _ _ F1), Es; apply Hok | rewrite Es; apply Hok].
  - destruct (created_ok s live par v nm s1 live1 p f b Hok Hp Hd Hnm Hl F1 Hcr) as (Hok1 & _ & Hl1 & Hc).
    destruct (unlink_created s live par v nm s1 live1 p f b Hok Hp Hd Hnm Hl F1 Hcr) as (s2 & live2 & E2 & F2 & S2 & Hh2 & P2).
    split; [done |]. right. split; [apply Hcr |]. split; [by apply (finddir_lookup s1 (VFS_ROOT s1)); [apply Hok1 |] |].
    split; [destruct (cr_live _ _ _ _ _ _ _ _ _ _ Hcr) as (? & ? & ? & HP); by rewrite HP |].
    split; [done |]. exists s2, live2. split; [done |]. split; [done |]. split; [| done].
    split; [done | rewrite (framed_root _ _ F2), S2; apply Hok | rewrite S2; apply Hok].
Qed.

(** ** A small file system: the root directory and nothing else *)

#[export] Instance no_disk : FatDisk (list Z) := {|
  fat_read_file := fun _ _ x => Some (-1, [], x); fat_write_file := fun _ _ x => Some (-1, x);
  fat_file_count := fun x => (0, x); fat_file_name := fun _ _ x => (None, x); fat_file_size := fun _ x => (0, x) |}.

Definition demo_root : VfsNode := dir_node [47] DefaultDir.
Definition demo_vfs : vfs bump (list Z) :=
  Vfs (Bump 0x501000 0x600000 [(0x500000, SIZEOF_NODE)]) [] {[ 0x500000 := ONode demo_root ]} 0x500000
    (replicate 32 EMPTY_FD) 0x500000 (replicate 64 EMPTY_FILE) 0 (fun _ => 0) 0 (replicate 64 0) 0.

Lemma demo_node p v : node_in (store demo_vfs) p = Some v -> p = 0x500000 /\ v = demo_root.
Proof.
  unfold node_in. cbn [store demo_vfs]. destruct (decide (p = 0x500000)) as [-> | Hne].
  - rewrite lookup_singleton_eq. by intros [= <-].
  - by rewrite lookup_singleton_ne.
Qed.

Lemma demo_root_at : node_at 0x500000 demo_vfs = Some demo_root.
Proof. unfold node_at, node_in. cbn [store demo_vfs]. by rewrite lookup_singleton_eq. Qed.

Lemma demo_ok : vfs_ok demo_vfs [(0x500000, SIZEOF_NODE)].
Proof.
  split; split.
  - split_and!; [done | done | by repeat constructor | repeat constructor; done].
  - by apply NoDup_singleton.
  - by repeat constructor.
  - cbn [store demo_vfs]. by rewrite lookup_singleton_ne.
  - intros p [o Ho]. cbn [store demo_vfs] in Ho. apply lookup_singleton_Some in Ho as [<- _]. by left.
  - cbn [store demo_vfs]. by rewrite lookup_singleton_ne.
  - exists demo_root. exact demo_root_at.
  - intros p v c [-> ->]%demo_node Hin. by apply elem_of_nil in Hin.
  - intros p v [-> ->]%demo_node. split; [by repeat constructor | cbn; lia].
  - intros p v [-> ->]%demo_node _. by exists DefaultDir.
  - intros p v [-> ->]%demo_node Hd. done.
  - intros p v r Hp Hv. destruct (demo_node p v) as [_ ->]; [unfold node_in; by rewrite Hp | done].
  - intros p q v w r Hp _ Hv _. destruct (demo_node p v) as [_ ->]; [unfold node_in; by rewrite Hp | done].
  - intros r f Hr. cbn [store demo_vfs] in Hr. by apply lookup_singleton_Some in Hr as [_ ?].
  - intros r r' f f' Hr. cbn [store demo_vfs] in Hr. by apply lookup_singleton_Some in Hr as [_ ?].
Qed.

Lemma demo_absent : lookup_name (store demo_vfs) 0x500000 [102] = Some 0.
Proof. unfold lookup_name. pose proof demo_root_at as E. unfold node_at in E. by rewrite E. Qed.

Lemma create_unlink_restores_witness :
  exists p s1 live1, create_file_in 0x500000 (Some [102]) demo_vfs = Some (p, s1) /\ p <> 0 /\
    exists s2 live2, unlink 0x500000 (Some [102]) s1 = Some (0, s2) /\ store s2 = store demo_vfs /\
      Permutation live2 [(0x500000, SIZEOF_NODE)] /\ length (live1 : list (Z * Z)) = 4%nat.
Proof.
  destruct (create_unlink_restores demo_vfs [(0x500000, SIZEOF_NODE)] 0x500000 demo_root [102] demo_ok demo_root_at eq_refl)
    as (p & s1 & live1 & E & _ & Hcase); [split; [by repeat constructor | cbn; lia] | exact demo_absent |].
  exists p, s1, live1. split; [exact E |].
  destruct Hcase as [(-> & _) | (Hp & _ & Hl & _ & s2 & live2 & Eu & Es & _ & HP)].
  - exfalso. assert (E' : fst <$> create_file_in 0x500000 (Some [102]) demo_vfs = Some 0) by (by rewrite E).
    vm_compute in E'. discriminate E'.
  - split; [exact Hp |]. exists s2, live2. split; [exact Eu |]. split; [exact Es |]. split; [exact HP | exact Hl].
Defined.

(** The same with an empty FAT16 volume mounted. *)
Definition demo_mounted : vfs bump (list Z) := default demo_vfs (fat16_vfs_init demo_vfs).

Lemma vfs_ok_same {H X} `{KernelHeap H} (s s' : vfs H X) live :
  vfs_ok s live -> hp s' = hp s -> store s' = store s -> VFS_ROOT s' = VFS_ROOT s -> vfs_ok s' live.
Proof.
  intros [Hh Ht Hf] Eh Es Er. split; [| by rewrite Es, Er | by rewrite Es].
  apply (heap_ok_store s); [done | done | by rewrite Es].
Qed.

Lemma mounted_ok : exists live, vfs_ok demo_mounted live.
Proof.
  assert (Hnm : name_ok [100; 105; 115; 107]) by (split; [by repeat constructor | cbn; lia]).
  assert (Hl : lookup_name (store demo_vfs) 0x500000 [100; 105; 115; 107] = Some 0) by (vm_compute; reflexivity).
  destruct (add_dir_spec demo_vfs _ 0x500000 demo_root _ Fat16Dir demo_ok demo_root_at eq_refl Hnm Hl)
    as (d & s' & live' & E & Hok & _).
  exists live'. apply (vfs_ok_same s'); [done | | |].
  - transitivity (hp (default demo_vfs (snd <$> add_dir 0x500000 [100; 105; 115; 107] Fat16Dir demo_vfs)));
      [vm_compute; reflexivity | by rewrite E].
  - transitivity (store (default demo_vfs (snd <$> add_dir 0x500000 [100; 105; 115; 107] Fat16Dir demo_vfs)));
      [vm_compute; reflexivity | by rewrite E].
  - transitivity (VFS_ROOT (default demo_vfs (snd <$> add_dir 0x500000 [100; 105; 115; 107] Fat16Dir demo_vfs)));
      [vm_compute; reflexivity | by rewrite E].
Qed.

Lemma mkdir_p_correct_witness :
  exists live d s' live', vfs_ok demo_mounted live /\ mkdir_p (Some [47; 97; 47; 98]) demo_mounted = Some (d, s') /\
    d <> 0 /\ vfs_ok s' live' /\ resolve_path (Some [47; 97; 47; 98]) s' = Some (d, s').
Proof.
  destruct mounted_ok as [live Hok]. exists live.
  destruct (mkdir_p_correct demo_mounted live [47; 97; 47; 98] Hok) as (d & s' & live' & E & Hok' & _ & _ & _ & Hcase);
    [by repeat constructor | exists 0; vm_compute; reflexivity |].
  exists d, s', live'. split; [exact Hok |]. split; [exact E |]. destruct Hcase as [[Hd Hr] | [-> _]].
  - split; [exact Hd |]. split; [exact Hok' | exact Hr].
  - exfalso. assert (E' : fst <$> mkdir_p (Some [47; 97; 47; 98]) demo_mounted = Some 0) by (by rewrite E).
    vm_compute in E'. discriminate E'.
Defined.

(** [mkdir_p] of /disk/x makes a directory that is in the children of /disk, where no
    look-up goes; neither is a file found that [create_file_in] makes there. *)
Example mkdir_on_volume :
  ('(d, s) ← mkdir_p (Some [47; 100; 105; 115; 107; 47; 120]) demo_mounted;
   '(q, _) ← resolve_path (Some [47; 100; 105; 115; 107; 47; 120]) s;
   Some (0 <? d, q)) = Some (true, 0).
Proof. vm_compute. reflexivity. Qed.

Example create_on_volume :
  ('(dir, s) ← resolve_path (Some [47; 100; 105; 115; 107]) demo_mounted;
   '(p, s) ← create_file_in dir (Some [120]) s;
   '(q, _) ← finddir dir [120] s;
   Some (0 <? p, q)) = Some (true, 0).
Proof. vm_compute. reflexivity. Qed.

(** The small file system with an empty file "f", and its specification. *)
Definition demo_spec (p : Z) : afs := Afs {[ [[102]] := p ]} {[ p := ARam [] ]} (replicate 32 None).

Lemma demo_file : exists p s1, p <> 0 /\ create_file_in 0x500000 (Some [102]) demo_vfs = Some (p, s1) /\ sim s1 (demo_spec p).
Proof.
  assert (Hnm : name_ok [102]) by (split; [by repeat constructor | cbn; lia]).
  destruct (create_file_spec demo_vfs _ 0x500000 demo_root [102] demo_ok demo_root_at eq_refl Hnm demo_absent)
    as (p & s1 & live1 & E & F1 & [(-> & _) | (f & b & _ & Hcr)]).
  { exfalso. assert (E' : fst <$> create_file_in 0x500000 (Some [102]) demo_vfs = Some 0) by (by rewrite E).
    vm_compute in E'. discriminate E'. }
  destruct (created_ok _ _ _ _ _ _ _ _ _ _ demo_ok demo_root_at eq_refl Hnm demo_absent F1 Hcr) as (Hok1 & _ & Hl1 & Hc).
  exists p, s1. split; [apply Hcr |]. split; [exact E |]. split.
  - by exists live1.
  - intros ws q Hq. cbn [a_names a_files demo_spec] in Hq; apply lookup_singleton_Some in Hq as [<- <-]. rewrite (framed_root _ _ F1). cbn [walk].
    change (VFS_ROOT demo_vfs) with 0x500000. by rewrite Hl1.
  - intros q g Hq. cbn [a_names a_files demo_spec] in Hq; apply lookup_singleton_Some in Hq as [<- <-]. unfold abs, node_at.
    rewrite (cr_store _ _ _ _ _ _ _ _ _ _ Hcr). unfold linked. rewrite node_in_insert, decide_True by done.
    cbn [mbind option_bind]. unfold abs_node. cbn [private_data read_fn write_fn set_parent file_node].
    rewrite Hc, decide_True by done. reflexivity.
  - cbn [a_fds demo_spec]. unfold framed in F1. rewrite F1. reflexivity.
Qed.

Lemma descriptors_refine_witness :
  let os := [OOpen [47; 102]; OWrite 0 [1; 2; 3]; OSeek 0 1 0; ORead 0 10] in
  exists p s, p <> 0 /\ sim s (demo_spec p) /\
    exists rs s' ooms A', run os s = Some (rs, s') /\ length ooms = length os /\
      a_run (zip ooms os) (demo_spec p) = Some (rs, A') /\ sim s' A'.
Proof.
  intros os. destruct demo_file as (p & s & Hp & _ & Hs). exists p, s. split; [exact Hp |]. split; [exact Hs |].
  apply (descriptors_refine s (demo_spec p) 0 os Hs).
  - split; [| | reflexivity].
    + intros ws q Hq. right. cbn [a_names a_files demo_spec] in Hq; apply lookup_singleton_Some in Hq as [_ <-]. exists (ARam []). apply lookup_singleton_eq.
    + intros i q o Hq. cbn [a_fds demo_spec] in Hq. by apply lookup_replicate_1 in Hq as [? _].
  - split.
    + intros q g Hq. cbn [a_names a_files demo_spec] in Hq; apply lookup_singleton_Some in Hq as [_ <-]. cbn. lia.
    + intros i q o Hq. cbn [a_fds demo_spec] in Hq. by apply lookup_replicate_1 in Hq as [? _].
  - lia.
  - repeat constructor; done || (exists p; apply lookup_singleton_eq).
  - vm_compute. done.
Defined.

(** ** Where the code does less than it says *)

(** A seek past 4 GiB returns an offset the descriptor does not get. *)
Lemma lseek_offset_wraps {H X} `{KernelHeap H} (s : vfs H X) fd e :
  open_fd fd s = Some e -> node e <> 0 ->
  vfs_lseek fd (2 ^ 32) 0 s = Some (2 ^ 32, set_fds (<[Z.to_nat fd := Fd (node e) 0 true]> (FD_TABLE s)) s).
Proof. intros Ho Hn. unfold vfs_lseek. by rewrite Ho, (proj2 (Z.eqb_neq _ 0) Hn). Qed.

(** The stored name of a long name is another name: the file is not found by the
    name it was created with, and creating it again makes a second one. *)
Lemma long_name_lost nm d : no_nul nm -> (63 < length nm)%nat -> strcmp_list (name (file_node nm d)) nm <> 0.
Proof.
  intros Hn Hl. cbn [name file_node]. unfold copy_name. intros E. apply strcmp_list_eq in E; [| by apply no_nul_take | done].
  apply (f_equal length) in E. rewrite length_take in E. lia.
Qed.

(** [unlink] of a file of the initial RAM disk takes the table entry for the
    header of a RAM file. *)
Lemma unlink_initrd_faults {H X} `{KernelHeap H} (s : vfs H X) par v child w i nm :
  par <> 0 -> child <> 0 -> node_at par s = Some v -> is_dir v = true -> children v = [child] ->
  node_at child s = Some w -> strcmp_list (name w) nm = 0 -> private_data w = PInitrd i ->
  unlink par (Some nm) s = None.
Proof.
  intros Hp Hc Hv Hd Hcs Hw Hn Hi. unfold unlink. rewrite (proj2 (Z.eqb_neq par 0)), Hv by done. cbn [mbind option_bind].
  rewrite Hd, Hcs. cbn [negb find_idx]. rewrite (proj2 (Z.eqb_neq child 0)) by done.
  change (node_in (store s) child) with (node_at child s). rewrite Hw. cbn [mbind option_bind]. rewrite Hn.
  cbn [Z.eqb mbind option_bind lookup list_lookup]. rewrite Hw. cbn [mbind option_bind]. by rewrite Hi.
Qed.
