(* ===== verification/Elf.v ===== *)
(** The loader of static ELF executables ([src/src/elf.rs]).

    The loader reads the file in memory and writes the segments through the
    address space, the interface [AddressSpace] ([pmm::alloc_page], [vmm::map_page]
    and memory as the processor sees it).  Below 4 GiB memory is mapped one to
    one; that is the law the theorem uses. *)
From S2P Require Import Prelude StringRs.

(** ** The address space *)

Class AddressSpace (M : Type) := {
  vread : Z -> M -> Z;
  vstore : Z -> Z -> M -> M;
  as_alloc_page : M -> Z * M;
  as_map_page : Z -> Z -> Z -> M -> M;
  vread_store : forall a b x m, 0 <= a < 2 ^ 32 -> 0 <= x < 2 ^ 32 ->
    vread x (vstore a b m) = if x =? a then b else vread x m
}.

Definition ELF_MAG0 : Z := 0x7F.
Definition ELF_MAG1 : Z := 69.
Definition ELF_MAG2 : Z := 76.
Definition ELF_MAG3 : Z := 70.
Definition EI_CLASS : Z := 4.
Definition EI_DATA : Z := 5.
Definition ELFCLASS32 : Z := 1.
Definition ELFCLASS64 : Z := 2.
Definition ELFDATA2LSB : Z := 1.
Definition ET_EXEC : Z := 2.
Definition EM_386 : Z := 3.
Definition EM_X86_64 : Z := 62.
Definition PT_LOAD : Z := 1.

Inductive elf_error :=
  TooSmall | BadMagic | NotLittleEndian | UnsupportedClass | TooSmall32 | TooSmall64 | NotExecutable
| NotI386 | NotX86_64 | NoProgramHeaders | SegmentPastFile | OutOfMemory | NoLoadableSegments.

(** The fields of the headers the loader reads. *)
Record Ehdr := MkEhdr { e_type : Z; e_machine : Z; e_entry : Z; e_phoff : Z; e_phentsize : Z; e_phnum : Z }.
Record Phdr := MkPhdr { p_type : Z; p_offset : Z; p_vaddr : Z; p_filesz : Z; p_memsz : Z }.
Record ElfInfo := Info { entry : Z; brk : Z }.

(** [!0xFFF] on 64 bits. *)
Definition page_mask : Z := 0xFFFFFFFFFFFFF000.

Section elf.
Context {M : Type} `{AddressSpace M}.
Implicit Types m : M.

Fixpoint vbytes (n : nat) (a : Z) m : list Z :=
  match n with O => [] | S n => vread a m :: vbytes n (a + 1) m end.

(** An [n]-byte field at [a]. *)
Definition field (n : nat) (a : Z) m : Z := le_val (vbytes n a m).

(** [memcpy] and [memset]: [i] bytes are done. *)
Fixpoint vcopy (n : nat) (dest src i : Z) m : M :=
  match n with O => m | S n => vcopy n dest src (i + 1) (vstore (dest + i) (vread (src + i) m) m) end.
Fixpoint vfill (n : nat) (dest val i : Z) m : M :=
  match n with O => m | S n => vfill n dest val (i + 1) (vstore (dest + i) val m) end.

Definition ehdr32 (d : Z) m : Ehdr :=
  MkEhdr (field 2 (d + 16) m) (field 2 (d + 18) m) (field 4 (d + 24) m) (field 4 (d + 28) m)
    (field 2 (d + 42) m) (field 2 (d + 44) m).
Definition ehdr64 (d : Z) m : Ehdr :=
  MkEhdr (field 2 (d + 16) m) (field 2 (d + 18) m) (field 8 (d + 24) m) (field 8 (d + 32) m)
    (field 2 (d + 54) m) (field 2 (d + 56) m).
Definition phdr32 (a : Z) m : Phdr :=
  MkPhdr (field 4 a m) (field 4 (a + 4) m) (field 4 (a + 8) m) (field 4 (a + 16) m) (field 4 (a + 20) m).
Definition phdr64 (a : Z) m : Phdr :=
  MkPhdr (field 4 a m) (field 8 (a + 8) m) (field 8 (a + 16) m) (field 8 (a + 32) m) (field 8 (a + 40) m).

Definition is_elf (d : Z) m : bool :=
  (vread d m =? ELF_MAG0) && (vread (d + 1) m =? ELF_MAG1) && (vread (d + 2) m =? ELF_MAG2) &&
  (vread (d + 3) m =? ELF_MAG3).

(** [while page < end_page]: [n] pages are left; [false] is out of memory. *)
Fixpoint map_pages (n : nat) (page : Z) m : bool * M :=
  match n with
  | O => (true, m)
  | S n =>
      let '(phys, m) := as_alloc_page m in
      if phys =? 0 then (false, m) else
      let m := as_map_page page phys 3 m in
      map_pages n (page + 0x1000) (vfill 0x1000%nat page 0 0 m)
  end.

(** One [PT_LOAD] segment that takes memory. *)
Definition load_segment (d size : Z) (ph : Phdr) m : option elf_error * M :=
  let '(vaddr, memsz, filesz, offset) := (p_vaddr ph, p_memsz ph, p_filesz ph, p_offset ph) in
  if size <? u64 (offset + filesz) then (Some SegmentPastFile, m) else
  let start_page := Z.land vaddr page_mask in
  let end_page := Z.land (u64 (vaddr + memsz + 0xFFF)) page_mask in
  let '(ok, m) := if 0x100000000 <=? start_page
                  then map_pages (Z.to_nat ((end_page - start_page) / 0x1000)) start_page m else (true, m) in
  if negb ok then (Some OutOfMemory, m) else
  let m := if 0 <? filesz then vcopy (Z.to_nat filesz) vaddr (d + offset) 0 m else m in
  let m := if filesz <? memsz then vfill (Z.to_nat (memsz - filesz)) (u64 (vaddr + filesz)) 0 0 m else m in
  (None, m).

(** The loop over the program headers, the [i]th of which [phdr] reads: the
    highest address and the count of segments. *)
Fixpoint load_loop (n : nat) (phdr : Z -> M -> Phdr) (d size i highest_addr segments_loaded : Z) m
    : (elf_error + Z * Z) * M :=
  match n with
  | O => (inr (highest_addr, segments_loaded), m)
  | S n =>
      let ph := phdr i m in
      if negb (p_type ph =? PT_LOAD) || (p_memsz ph =? 0)
      then load_loop n phdr d size (i + 1) highest_addr segments_loaded m else
      match load_segment d size ph m with
      | (Some e, m) => (inl e, m)
      | (None, m) =>
          let seg_end := u64 (p_vaddr ph + p_memsz ph) in
          load_loop n phdr d size (i + 1) (if highest_addr <? seg_end then seg_end else highest_addr)
            (segments_loaded + 1) m
      end
  end.

(** What the loaders of both classes do once the header is read. *)
Definition load_with (eh : Ehdr) (machine : Z) (wrong : elf_error) (phdr : Z -> M -> Phdr) (d size : Z) m
    : (elf_error + ElfInfo) * M :=
  if negb (e_type eh =? ET_EXEC) then (inl NotExecutable, m) else
  if negb (e_machine eh =? machine) then (inl wrong, m) else
  if e_phnum eh =? 0 then (inl NoProgramHeaders, m) else
  match load_loop (Z.to_nat (e_phnum eh)) phdr d size 0 0 0 m with
  | (inl e, m) => (inl e, m)
  | (inr (highest_addr, segments_loaded), m) =>
      if segments_loaded =? 0 then (inl NoLoadableSegments, m)
      else (inr (Info (e_entry eh) (Z.land (u64 (highest_addr + 0xFFF)) page_mask)), m)
  end.

Definition load_elf32 (d size : Z) m : (elf_error + ElfInfo) * M :=
  if size <? 52 then (inl TooSmall32, m) else
  let eh := ehdr32 d m in
  load_with eh EM_386 NotI386 (fun i m => phdr32 (d + u32 (e_phoff eh + i * e_phentsize eh)) m) d size m.

Definition load_elf64 (d size : Z) m : (elf_error + ElfInfo) * M :=
  if size <? 64 then (inl TooSmall64, m) else
  let eh := ehdr64 d m in
  load_with eh EM_X86_64 NotX86_64 (fun i m => phdr64 (d + u64 (e_phoff eh + i * e_phentsize eh)) m) d size m.

Definition load (d size : Z) m : (elf_error + ElfInfo) * M :=
  if size <? 16 then (inl TooSmall, m) else
  if negb (is_elf d m) then (inl BadMagic, m) else
  if negb (vread (d + EI_DATA) m =? ELFDATA2LSB) then (inl NotLittleEndian, m) else
  let class := vread (d + EI_CLASS) m in
  if class =? ELFCLASS32 then load_elf32 d size m
  else if class =? ELFCLASS64 then load_elf64 d size m
  else (inl UnsupportedClass, m).
End elf.

(** What the ELF loader ([Elf]) does with a file whose segments lie in the low
    4 GiB: the memory it leaves, the break it computes, and what it refuses. *)

Lemma page_mask_spec x : 0 <= x < 2 ^ 64 -> Z.land x page_mask = x / 4096 * 4096.
Proof.
  intros Hx. change 4096 with (2 ^ 12). rewrite <- Z.shiftl_mul_pow2, <- Z.shiftr_div_pow2 by lia.
  apply Z.bits_inj'. intros i Hi. rewrite Z.land_spec, Z.shiftl_spec by done.
  change page_mask with (Z.shiftl (2 ^ 52 - 1) 12). rewrite Z.shiftl_spec by done.
  destruct (Z.lt_ge_cases i 12).
  - rewrite !(Z.testbit_neg_r _ (i - 12)) by lia. apply andb_false_r.
  - rewrite Z.shiftr_spec, testbit_ones by lia. replace (i - 12 + 12) with i by lia.
    destruct (Z.ltb_spec (i - 12) 52); [apply andb_true_r |]. by rewrite (bits_high 64 x) by lia.
Qed.

Section props.
Context {M : Type} `{AddressSpace M}.
Implicit Types m : M.

(** Reads in the low 4 GiB. *)
Definition low (x : Z) : Prop := 0 <= x < 2 ^ 32.

Lemma vcopy_spec n dest src i m x :
  0 <= i -> 0 <= dest -> 0 <= src -> dest + i + Z.of_nat n <= 2 ^ 32 -> src + i + Z.of_nat n <= 2 ^ 32 ->
  (dest + i + Z.of_nat n <= src + i \/ src + i + Z.of_nat n <= dest + i) -> low x ->
  vread x (vcopy n dest src i m) =
    if (dest + i <=? x) && (x <? dest + i + Z.of_nat n) then vread (src + (x - dest)) m else vread x m.
Proof.
  revert i m. induction n as [| n IH]; intros i m Hi Hd Hs Hdn Hsn Hdis Hx; cbn [vcopy].
  - case_if; [breflect; lia | done].
  - rewrite IH by (done || lia). unfold low in Hx.
    destruct (Z.leb_spec (dest + (i + 1)) x), (Z.ltb_spec x (dest + (i + 1) + Z.of_nat n)),
      (Z.leb_spec (dest + i) x), (Z.ltb_spec x (dest + i + Z.of_nat (S n))); cbn [andb]; try lia;
      rewrite vread_store by lia; case_if; breflect; try lia; try done; f_equal; lia.
Qed.

Lemma vfill_spec n dest v i m x :
  0 <= i -> 0 <= dest -> dest + i + Z.of_nat n <= 2 ^ 32 -> low x ->
  vread x (vfill n dest v i m) = if (dest + i <=? x) && (x <? dest + i + Z.of_nat n) then v else vread x m.
Proof.
  revert i m. induction n as [| n IH]; intros i m Hi Hd Hdn Hx; cbn [vfill].
  - case_if; [breflect; lia | done].
  - rewrite IH by (done || lia). unfold low in Hx. rewrite vread_store by lia.
    destruct (Z.leb_spec (dest + (i + 1)) x), (Z.ltb_spec x (dest + (i + 1) + Z.of_nat n)),
      (Z.leb_spec (dest + i) x), (Z.ltb_spec x (dest + i + Z.of_nat (S n))); cbn [andb]; try lia;
      repeat (case_if; breflect); try lia; done.
Qed.

Lemma vbytes_ext n a m m' : (forall k, 0 <= k < Z.of_nat n -> vread (a + k) m' = vread (a + k) m) ->
  vbytes n a m' = vbytes n a m.
Proof.
  revert a. induction n as [| n IH]; intros a Hk; [done |]. cbn [vbytes]. f_equal.
  - specialize (Hk 0 ltac:(lia)). by rewrite Z.add_0_r in Hk.
  - apply IH. intros k Hkn. replace (a + 1 + k) with (a + (k + 1)) by lia. apply Hk. lia.
Qed.

Lemma field_ext n a m m' : (forall k, 0 <= k < Z.of_nat n -> vread (a + k) m' = vread (a + k) m) ->
  field n a m' = field n a m.
Proof. intros Hk. unfold field. by rewrite (vbytes_ext n a m m'). Qed.

Lemma phdr32_ext a m m' : (forall k, 0 <= k < 32 -> vread (a + k) m' = vread (a + k) m) -> phdr32 a m' = phdr32 a m.
Proof.
  intros Hk. unfold phdr32. f_equal; apply field_ext; intros k Hkn; rewrite <- ?Z.add_assoc; apply Hk; lia.
Qed.
Lemma phdr64_ext a m m' : (forall k, 0 <= k < 56 -> vread (a + k) m' = vread (a + k) m) -> phdr64 a m' = phdr64 a m.
Proof.
  intros Hk. unfold phdr64. f_equal; apply field_ext; intros k Hkn; rewrite <- ?Z.add_assoc; apply Hk; lia.
Qed.

Section file.
Variables (d size : Z) (m0 : M).
Hypothesis Hd : 0 <= d.
Hypothesis Hsize : 0 <= size /\ d + size <= 2 ^ 32.

Definition loadable (ph : Phdr) : bool := (p_type ph =? PT_LOAD) && negb (p_memsz ph =? 0).
Definition past_file (ph : Phdr) : bool := size <? p_offset ph + p_filesz ph.

(** The segment is in low memory, outside the file. *)
Record seg_ok (ph : Phdr) : Prop := {
  so_off : 0 <= p_offset ph /\ p_offset ph + p_filesz ph < 2 ^ 64;
  so_size : 0 <= p_filesz ph <= p_memsz ph;
  so_addr : 0 <= p_vaddr ph /\ p_vaddr ph + p_memsz ph <= 2 ^ 32;
  so_image : p_vaddr ph + p_memsz ph <= d \/ d + size <= p_vaddr ph }.

Definition seg_apart (a b : Phdr) : Prop :=
  p_vaddr a + p_memsz a <= p_vaddr b \/ p_vaddr b + p_memsz b <= p_vaddr a.
Definition inside (x : Z) (ph : Phdr) : Prop := p_vaddr ph <= x < p_vaddr ph + p_memsz ph.

(** Byte [k] of a segment: from the file, then zeros. *)
Definition seg_byte (ph : Phdr) (k : Z) : Z :=
  if k <? p_filesz ph then vread (d + p_offset ph + k) m0 else 0.

Definition image_kept (m : M) : Prop := forall x, d <= x < d + size -> vread x m = vread x m0.

(** The segments are in memory and the rest is as it was. *)
Record placed (segs : list Phdr) (m m' : M) : Prop := {
  pl_seg : forall ph k, ph ∈ segs -> 0 <= k < p_memsz ph -> vread (p_vaddr ph + k) m' = seg_byte ph k;
  pl_rest : forall x, low x -> (forall ph, ph ∈ segs -> ~ inside x ph) -> vread x m' = vread x m }.

Lemma load_segment_spec ph m : seg_ok ph -> loadable ph = true -> past_file ph = false -> image_kept m ->
  exists m', load_segment d size ph m = (None, m') /\
    (forall k, 0 <= k < p_memsz ph -> vread (p_vaddr ph + k) m' = seg_byte ph k) /\
    (forall x, low x -> ~ inside x ph -> vread x m' = vread x m).
Proof using Hd Hsize.
  intros [Ho Hs Ha Hi] Hlo Hpf Hk. unfold past_file, loadable in *. breflect. unfold load_segment.
  rewrite (u64_small (p_offset ph + p_filesz ph)), (proj2 (Z.ltb_ge _ _)) by lia.
  rewrite (page_mask_spec (p_vaddr ph)) by lia. rewrite (proj2 (Z.leb_gt 0x100000000 _)) by (apply (Z.le_lt_trans _ (p_vaddr ph)); [mod_lia | lia]). cbn [negb].
  rewrite (u64_small (p_vaddr ph + p_filesz ph)) by lia.
  eexists. split; [reflexivity |].
  set (m1 := if 0 <? p_filesz ph then _ else m).
  assert (R1 : forall x, low x -> vread x m1 = if (p_vaddr ph <=? x) && (x <? p_vaddr ph + p_filesz ph)
      then vread (d + p_offset ph + (x - p_vaddr ph)) m0 else vread x m).
  { intros x Hx. unfold m1. destruct (Z.ltb_spec 0 (p_filesz ph)) as [Hp | Hp].
    - rewrite vcopy_spec by (done || lia). rewrite Z.add_0_r, Z2Nat.id by lia. case_if; [| done]. breflect. apply Hk. lia.
    - case_if; [breflect; lia | done]. }
  assert (R2 : forall x, low x -> vread x (if p_filesz ph <? p_memsz ph
      then vfill (Z.to_nat (p_memsz ph - p_filesz ph)) (p_vaddr ph + p_filesz ph) 0 0 m1 else m1)
      = if (p_vaddr ph + p_filesz ph <=? x) && (x <? p_vaddr ph + p_memsz ph) then 0 else vread x m1).
  { intros x Hx. destruct (Z.ltb_spec (p_filesz ph) (p_memsz ph)) as [Hp | Hp].
    - rewrite vfill_spec by (done || lia). rewrite Z.add_0_r, Z2Nat.id by lia.
      by replace (p_vaddr ph + p_filesz ph + (p_memsz ph - p_filesz ph)) with (p_vaddr ph + p_memsz ph) by lia.
    - case_if; [breflect; lia | done]. }
  split.
  - intros k Hkr. rewrite R2 by (unfold low; lia). unfold seg_byte.
    destruct (Z.ltb_spec k (p_filesz ph)).
    + rewrite (proj2 (Z.leb_gt _ _)) by lia. cbn [andb]. rewrite R1 by (unfold low; lia).
      rewrite (proj2 (Z.leb_le _ _)), (proj2 (Z.ltb_lt _ _)) by lia. cbn [andb]. f_equal. lia.
    + by rewrite (proj2 (Z.leb_le _ _)), (proj2 (Z.ltb_lt _ _)) by lia.
  - intros x Hx Hin. unfold inside in Hin. rewrite R2, R1 by done.
    destruct (Z.leb_spec (p_vaddr ph + p_filesz ph) x), (Z.ltb_spec x (p_vaddr ph + p_memsz ph)),
      (Z.leb_spec (p_vaddr ph) x), (Z.ltb_spec x (p_vaddr ph + p_filesz ph)); cbn [andb]; done || lia.
Qed.

(** ** The loop *)

Definition seg_end (ph : Phdr) : Z := p_vaddr ph + p_memsz ph.
Fixpoint highest (h : Z) (segs : list Phdr) : Z :=
  match segs with [] => h | ph :: segs => highest (Z.max h (seg_end ph)) segs end.

Variables (phdr : Z -> M -> Phdr) (N : Z).
Hypothesis Hphdr : forall i m, 0 <= i < N -> image_kept m -> phdr i m = phdr i m0.

(** The headers from the [i]th. *)
Definition headers (n : nat) (i : Z) : list Phdr := map (fun j => phdr (i + Z.of_nat j) m0) (seq 0 n).

Lemma headers_S n i : headers (S n) i = phdr i m0 :: headers n (i + 1).
Proof using Type.
  unfold headers. cbn [seq map]. f_equal; [f_equal; lia |]. rewrite <- seq_shift, map_map. apply map_ext.
  intros j. f_equal. lia.
Qed.

Lemma load_loop_spec n i h cnt m segs :
  0 <= i -> i + Z.of_nat n <= N -> image_kept m -> segs = filter (fun ph => loadable ph = true) (headers n i) ->
  Forall seg_ok segs -> ForallOrdPairs seg_apart segs ->
  if existsb past_file segs then exists m', load_loop n phdr d size i h cnt m = (inl SegmentPastFile, m')
  else exists m', load_loop n phdr d size i h cnt m = (inr (highest h segs, cnt + Z.of_nat (length segs)), m') /\
    image_kept m' /\ placed segs m m'.
Proof using Hd Hsize Hphdr.
  revert i h cnt m segs. induction n as [| n IH]; intros i h cnt m segs Hi HN Hk -> Hok Hap.
  - cbn. exists m. split; [by rewrite Z.add_0_r |]. split; [done |]. split; [| done].
    intros ph k Hin. by apply elem_of_nil in Hin.
  - rewrite headers_S in *. cbn [load_loop]. rewrite (Hphdr i m) by (done || lia). set (ph := phdr i m0) in *.
    assert (El : negb (p_type ph =? PT_LOAD) || (p_memsz ph =? 0) = negb (loadable ph)).
    { unfold loadable. by destruct (p_type ph =? PT_LOAD), (p_memsz ph =? 0). }
    rewrite El. destruct (loadable ph) eqn:Elo; cbn [negb].
    + rewrite filter_cons_True in * by done. apply Forall_cons in Hok as [Hph Hok].
      inversion Hap as [| ? ? Hph_ap Hap2]; subst; clear Hap; rename Hap2 into Hap. cbn [existsb].
      destruct (past_file ph) eqn:Epf; cbn [orb].
      * unfold load_segment. destruct Hph as [Ho Hs Ha Him]. unfold past_file in Epf. breflect.
        rewrite (u64_small (p_offset ph + p_filesz ph)), (proj2 (Z.ltb_lt _ _)) by lia. by eexists.
      * destruct (load_segment_spec ph m Hph Elo Epf Hk) as (m1 & E1 & Hseg & Hrest). rewrite E1.
        assert (Hk1 : image_kept m1).
        { intros x Hx. rewrite Hrest; [by apply Hk | unfold low; lia |]. unfold inside. destruct Hph as [_ _ _ Him]. lia. }
        assert (Eh : (if h <? u64 (p_vaddr ph + p_memsz ph) then u64 (p_vaddr ph + p_memsz ph) else h) = Z.max h (seg_end ph)).
        { unfold seg_end. rewrite u64_small by (destruct Hph as [_ ? ? _]; lia). destruct (Z.ltb_spec h (p_vaddr ph + p_memsz ph)); lia. }
        rewrite Eh. specialize (IH (i + 1) (Z.max h (seg_end ph)) (cnt + 1) m1 _ ltac:(lia) ltac:(lia) Hk1 eq_refl Hok Hap).
        destruct (existsb past_file _); [done |]. destruct IH as (m' & E' & Hk' & Hpl). exists m'.
        split; [rewrite E'; do 3 f_equal; cbn [length]; lia |]. split; [done |]. rewrite List.Forall_forall in Hph_ap.
        split.
        -- intros q k [-> | Hq]%elem_of_cons Hkq; [| by apply (pl_seg _ _ _ Hpl)].
           rewrite (pl_rest _ _ _ Hpl), Hseg; [done | done | destruct Hph as [_ ? ? _]; unfold low; lia |].
           intros q Hq. specialize (Hph_ap q (proj1 (list_elem_of_In _ _) Hq)). unfold seg_apart, inside in *. lia.
        -- intros x Hx Hnin. rewrite (pl_rest _ _ _ Hpl); [| done | intros q Hq; apply Hnin; by right].
           apply Hrest; [done | apply Hnin; by left].
    + rewrite filter_cons_False in * by congruence. apply IH; [lia | lia | done..].
Qed.
End file.

(** ** Executable files *)

Definition ident (d class : Z) m : Prop := is_elf d m = true /\ vread (d + EI_DATA) m = 1 /\ vread (d + EI_CLASS) m = class.

(** A header the loader accepts, with the table of program headers inside the
    file: the header and the table. *)
Inductive elf_file (d size : Z) m : Ehdr -> list Phdr -> Prop :=
| elf_file32 eh phs : 52 <= size -> ident d ELFCLASS32 m -> eh = ehdr32 d m ->
    e_type eh = ET_EXEC -> e_machine eh = EM_386 -> 0 < e_phnum eh ->
    (forall i, 0 <= i < e_phnum eh ->
       0 <= e_phoff eh + i * e_phentsize eh /\ e_phoff eh + i * e_phentsize eh + 32 <= size) ->
    phs = map (fun i => phdr32 (d + (e_phoff eh + Z.of_nat i * e_phentsize eh)) m) (seq 0 (Z.to_nat (e_phnum eh))) ->
    elf_file d size m eh phs
| elf_file64 eh phs : 64 <= size -> ident d ELFCLASS64 m -> eh = ehdr64 d m ->
    e_type eh = ET_EXEC -> e_machine eh = EM_X86_64 -> 0 < e_phnum eh ->
    (forall i, 0 <= i < e_phnum eh ->
       0 <= e_phoff eh + i * e_phentsize eh /\ e_phoff eh + i * e_phentsize eh + 56 <= size) ->
    phs = map (fun i => phdr64 (d + (e_phoff eh + Z.of_nat i * e_phentsize eh)) m) (seq 0 (Z.to_nat (e_phnum eh))) ->
    elf_file d size m eh phs.

(** What [load] must answer for the loadable segments [segs]. *)
Definition load_answer (d size : Z) m (eh : Ehdr) (segs : list Phdr) (r : (elf_error + ElfInfo) * M) : Prop :=
  if existsb (past_file size) segs then r.1 = inl SegmentPastFile
  else match segs with
       | [] => r = (inl NoLoadableSegments, m)
       | _ => r.1 = inr (Info (e_entry eh) ((highest 0 segs + 4095) / 4096 * 4096)) /\ placed d m segs m r.2
       end.

Lemma highest_bound h segs b : 0 <= h <= b -> Forall (fun ph => seg_end ph <= b) segs -> 0 <= highest h segs <= b.
Proof.
  intros Hh Hs. revert h Hh. induction Hs as [| ph segs Hph Hs IH]; intros h Hh; [done |]. cbn [highest]. apply IH. lia.
Qed.

Lemma load_loop_zero n phdr d size i h cnt m m' :
  load_loop n phdr d size i h cnt m = (inr (h, cnt), m') ->
  filter (fun ph => loadable ph = true) (map (fun j => phdr (i + Z.of_nat j) m) (seq 0 n)) = [] -> m' = m.
Proof.
  revert i. induction n as [| n IH]; intros i E Hf; [by injection E as <- |]. cbn [seq map] in Hf. cbn [load_loop] in E.
  rewrite Z.add_0_r in Hf. set (ph := phdr i m) in *.
  assert (El : negb (p_type ph =? PT_LOAD) || (p_memsz ph =? 0) = negb (loadable ph)).
  { unfold loadable. by destruct (p_type ph =? PT_LOAD), (p_memsz ph =? 0). }
  rewrite El in E. destruct (loadable ph) eqn:Elo; [by rewrite filter_cons_True in Hf |].
  rewrite filter_cons_False in Hf by congruence. cbn [negb] in E. apply (IH (i + 1) E).
  rewrite <- Hf, <- seq_shift, map_map. f_equal. apply map_ext. intros j. f_equal. lia.
Qed.

Lemma load_with_spec d size m eh machine wrong phdr segs :
  0 <= d -> 0 <= size /\ d + size <= 2 ^ 32 ->
  e_type eh = ET_EXEC -> e_machine eh = machine -> 0 < e_phnum eh ->
  (forall i m', 0 <= i < e_phnum eh -> image_kept d size m m' -> phdr i m' = phdr i m) ->
  segs = filter (fun ph => loadable ph = true) (map (fun j => phdr (Z.of_nat j) m) (seq 0 (Z.to_nat (e_phnum eh)))) ->
  Forall (seg_ok d size) segs -> ForallOrdPairs seg_apart segs ->
  load_answer d size m eh segs (load_with eh machine wrong phdr d size m).
Proof.
  intros Hd Hs Ht Hm Hn Hph Esegs Hok Hap. unfold load_with. rewrite Ht, Hm, !Z.eqb_refl. cbn [negb].
  rewrite (proj2 (Z.eqb_neq (e_phnum eh) 0)) by lia.
  pose proof (load_loop_spec d size m Hd Hs phdr (e_phnum eh) Hph (Z.to_nat (e_phnum eh)) 0 0 0 m segs) as Hl.
  specialize (Hl ltac:(lia) ltac:(lia) ltac:(by intros x) Esegs Hok Hap). unfold load_answer.
  destruct (existsb (past_file size) segs); [by destruct Hl as (m' & ->) |].
  destruct Hl as (m' & E & Hk' & Hpl). rewrite E.
  assert (Hb : 0 <= highest 0 segs <= 2 ^ 32).
  { apply highest_bound; [lia |]. eapply Forall_impl; [exact Hok |]. intros ph [_ _ ? _]. unfold seg_end. lia. }
  destruct segs as [| ph segs].
  - assert (m' = m) as ->; [| done].
    by apply (load_loop_zero _ _ _ _ _ _ _ _ _ E).
  - rewrite (proj2 (Z.eqb_neq _ 0)) by (cbn [length]; lia). cbn [fst snd].
    by rewrite (u64_small (highest _ _ + _)), page_mask_spec by lia.
Qed.
End props.

(** C28: the loader does what an executable file says.  For a file with a valid
    header, of either class, whose loadable segments lie below 4 GiB, outside the
    file and apart from each other, [load] refuses the file if a segment's bytes
    extend past it, or if there is no segment, then leaving memory alone; otherwise
    it returns the entry point and, as the break, the end of the highest segment
    rounded up to a page, every segment is in memory at its address, its bytes of the
    file followed by zeros, and no other byte of memory has changed. *)
Theorem elf_load_correct {M} `{AddressSpace M} (d size : Z) (m : M) eh phs segs :
  0 <= d -> 0 <= size /\ d + size <= 2 ^ 32 -> elf_file d size m eh phs ->
  segs = filter (fun ph => loadable ph = true) phs -> Forall (seg_ok d size) segs -> ForallOrdPairs seg_apart segs ->
  load_answer d size m eh segs (load d size m).
Proof.
  intros Hd Hs Hf Esegs Hok Hap. unfold load.
  destruct Hf as [eh phs H52 (Hm & Hdata & Hcl) Eeh Ht Hma Hn Htab Ephs | eh phs H64 (Hm & Hdata & Hcl) Eeh Ht Hma Hn Htab Ephs];
    rewrite (proj2 (Z.ltb_ge size 16)), Hm, Hdata, Hcl by lia; cbn [negb Z.eqb].
  - change (ELFCLASS32 =? ELFCLASS32) with true. cbn iota. unfold load_elf32.
    rewrite (proj2 (Z.ltb_ge size 52)), <- Eeh by lia. cbn zeta.
    apply load_with_spec; try done.
    + intros i m' Hi Hk. apply phdr32_ext. intros k Hkr. specialize (Htab i Hi). rewrite u32_small by lia. apply Hk. lia.
    + rewrite Esegs, Ephs. f_equal. apply map_ext_in. intros i [_ Hi]%in_seq. specialize (Htab (Z.of_nat i) ltac:(lia)).
      by rewrite u32_small by lia.
  - change (ELFCLASS64 =? ELFCLASS32) with false. change (ELFCLASS64 =? ELFCLASS64) with true. cbn iota. unfold load_elf64.
    rewrite (proj2 (Z.ltb_ge size 64)), <- Eeh by lia. cbn zeta.
    apply load_with_spec; try done.
    + intros i m' Hi Hk. apply phdr64_ext. intros k Hkr. specialize (Htab i Hi). rewrite u64_small by lia. apply Hk. lia.
    + rewrite Esegs, Ephs. f_equal. apply map_ext_in. intros i [_ Hi]%in_seq. specialize (Htab (Z.of_nat i) ltac:(lia)).
      by rewrite u64_small by lia.
Qed.

(** A flat memory, and a file of one segment: four bytes of the file at 0x10000,
    then four zeros. *)
#[export] Program Instance flat_space : AddressSpace mem := {|
  vread := fun x m => m x; vstore := fun a b m => upd m a b; as_alloc_page := fun m => (0, m); as_map_page := fun _ _ _ m => m |}.
Next Obligation. done. Qed.

Definition demo_elf : list Z :=
  [0x7F; 69; 76; 70; 1; 1; 1] ++ replicate 9 0 ++ le_bytes 2 2 ++ le_bytes 2 3 ++ le_bytes 4 1 ++
  le_bytes 4 0x10000 ++ le_bytes 4 52 ++ le_bytes 4 0 ++ le_bytes 4 0 ++ le_bytes 2 52 ++ le_bytes 2 32 ++ le_bytes 2 1 ++
  replicate 6 0 ++
  le_bytes 4 1 ++ le_bytes 4 84 ++ le_bytes 4 0x10000 ++ le_bytes 4 0 ++ le_bytes 4 4 ++ le_bytes 4 8 ++ le_bytes 4 5 ++
  le_bytes 4 0x1000 ++ [0xB8; 1; 2; 3].
Definition demo_mem : mem := fun x => nth (Z.to_nat (x - 0x1000)) demo_elf 0.

Lemma elf_load_correct_witness :
  load_answer 0x1000 88 demo_mem (ehdr32 0x1000 demo_mem) [MkPhdr 1 84 0x10000 4 8] (load 0x1000 88 demo_mem) /\
  (load 0x1000 88 demo_mem).1 = inr (Info 0x10000 0x11000).
Proof.
  assert (Ha : load_answer 0x1000 88 demo_mem (ehdr32 0x1000 demo_mem) [MkPhdr 1 84 0x10000 4 8] (load 0x1000 88 demo_mem)).
  { apply (elf_load_correct 0x1000 88 demo_mem (ehdr32 0x1000 demo_mem) [MkPhdr 1 84 0x10000 4 8]); [lia | lia | | by vm_compute | |].
    - eapply elf_file32; [lia | by vm_compute | done | by vm_compute | by vm_compute | by vm_compute | | by vm_compute].
      intros i Hi. assert (i = 0) as -> by (change (e_phnum (ehdr32 0x1000 demo_mem)) with 1 in Hi; lia). by vm_compute.
    - repeat constructor; cbn; lia.
    - repeat constructor. }
  split; [exact Ha |]. destruct Ha as [Ha _]. exact Ha.
Defined.
