(* ===== verification/ParseState.v ===== *)
(** The state of the compiler's parser ([src/src/rc/parse.rs]): its static tables,
    the monad in which it is written, and its helpers up to [parse_type].

    The parser drives the lexer ([Lex]), the emitter ([Emit]) and the symbol table
    ([Sym]).  A loop or a recursion of the parser gets fuel from the text that is
    left ([text_fuel]); [ParseTotal] proves that it is always enough. *)
From Stdlib Require Import String.
From S2P Require Import Prelude StringRs Lex Emit Sym.

(** ** The tables *)

(** A static array with the number of its entries in use. *)
Record table (A : Type) := Table { entries : list A; count : Z }.
Arguments Table {A}. Arguments entries {A}. Arguments count {A}.

Record TypedefEntry := Typedef { td_name : list Z; td_type : Z; td_is_ptr : Z }.
Record Fixup := MkFixup { fx_name : list Z; fx_patch_pos : Z }.
Record GlobalInit := MkInit { gi_addr : Z; gi_value : Z }.
Record StringEntry := MkString { text : list Z; len : Z; st_patch_pos : Z }.
Record LoopCtx := MkLoop { continue_target : Z; break_patches : list Z; break_count : Z }.

Definition MAX_TYPEDEFS : Z := 32.
Definition MAX_FIXUPS : Z := 256.
Definition MAX_GLOBAL_INITS : Z := 128.
Definition MAX_STRINGS : Z := 128.
Definition MAX_LOOP_DEPTH : Z := 16.
Definition MAX_BREAKS : Z := 32.

(** What is known of the value of the last expression. *)
Record expr_info := ExprInfo {
  EXPR_PTR_SCALE : Z; EXPR_STRUCT_NAME : list Z; EXPR_STRUCT_IS_PTR : Z; EXPR_STRUCT_KIND : Z;
  EXPR_STRUCT_OFFSET : Z; EXPR_STRUCT_ADDR : Z }.
(** What [parse_type] leaves besides its result. *)
Record type_info := TypeInfo { PARSED_STRUCT_NAME : list Z; IS_ARRAY : bool; ARRAY_COUNT : Z }.

Record pstate := PState {
  lx : lexer; em : emitter; sy : symtab;
  ex : expr_info; ti : type_info;
  TYPEDEFS : table TypedefEntry; FIXUPS : table Fixup; GLOBAL_INITS : table GlobalInit;
  STRINGS : table StringEntry; LOOPS : table LoopCtx;
  HAD_ERROR : bool; LOCAL_OFFSET : Z; GLOBAL_OFFSET : Z }.

Definition set_lx v s := PState v (em s) (sy s) (ex s) (ti s) (TYPEDEFS s) (FIXUPS s) (GLOBAL_INITS s)
  (STRINGS s) (LOOPS s) (HAD_ERROR s) (LOCAL_OFFSET s) (GLOBAL_OFFSET s).
Definition set_em v s := PState (lx s) v (sy s) (ex s) (ti s) (TYPEDEFS s) (FIXUPS s) (GLOBAL_INITS s)
  (STRINGS s) (LOOPS s) (HAD_ERROR s) (LOCAL_OFFSET s) (GLOBAL_OFFSET s).
Definition set_sy v s := PState (lx s) (em s) v (ex s) (ti s) (TYPEDEFS s) (FIXUPS s) (GLOBAL_INITS s)
  (STRINGS s) (LOOPS s) (HAD_ERROR s) (LOCAL_OFFSET s) (GLOBAL_OFFSET s).
Definition set_ex v s := PState (lx s) (em s) (sy s) v (ti s) (TYPEDEFS s) (FIXUPS s) (GLOBAL_INITS s)
  (STRINGS s) (LOOPS s) (HAD_ERROR s) (LOCAL_OFFSET s) (GLOBAL_OFFSET s).
Definition set_ti v s := PState (lx s) (em s) (sy s) (ex s) v (TYPEDEFS s) (FIXUPS s) (GLOBAL_INITS s)
  (STRINGS s) (LOOPS s) (HAD_ERROR s) (LOCAL_OFFSET s) (GLOBAL_OFFSET s).
Definition set_typedefs v s := PState (lx s) (em s) (sy s) (ex s) (ti s) v (FIXUPS s) (GLOBAL_INITS s)
  (STRINGS s) (LOOPS s) (HAD_ERROR s) (LOCAL_OFFSET s) (GLOBAL_OFFSET s).
Definition set_fixups v s := PState (lx s) (em s) (sy s) (ex s) (ti s) (TYPEDEFS s) v (GLOBAL_INITS s)
  (STRINGS s) (LOOPS s) (HAD_ERROR s) (LOCAL_OFFSET s) (GLOBAL_OFFSET s).
Definition set_inits v s := PState (lx s) (em s) (sy s) (ex s) (ti s) (TYPEDEFS s) (FIXUPS s) v
  (STRINGS s) (LOOPS s) (HAD_ERROR s) (LOCAL_OFFSET s) (GLOBAL_OFFSET s).
Definition set_strings v s := PState (lx s) (em s) (sy s) (ex s) (ti s) (TYPEDEFS s) (FIXUPS s) (GLOBAL_INITS s)
  v (LOOPS s) (HAD_ERROR s) (LOCAL_OFFSET s) (GLOBAL_OFFSET s).
Definition set_loops v s := PState (lx s) (em s) (sy s) (ex s) (ti s) (TYPEDEFS s) (FIXUPS s) (GLOBAL_INITS s)
  (STRINGS s) v (HAD_ERROR s) (LOCAL_OFFSET s) (GLOBAL_OFFSET s).
Definition set_had_error v s := PState (lx s) (em s) (sy s) (ex s) (ti s) (TYPEDEFS s) (FIXUPS s) (GLOBAL_INITS s)
  (STRINGS s) (LOOPS s) v (LOCAL_OFFSET s) (GLOBAL_OFFSET s).
Definition set_local_offset v s := PState (lx s) (em s) (sy s) (ex s) (ti s) (TYPEDEFS s) (FIXUPS s) (GLOBAL_INITS s)
  (STRINGS s) (LOOPS s) (HAD_ERROR s) v (GLOBAL_OFFSET s).
Definition set_global_offset v s := PState (lx s) (em s) (sy s) (ex s) (ti s) (TYPEDEFS s) (FIXUPS s) (GLOBAL_INITS s)
  (STRINGS s) (LOOPS s) (HAD_ERROR s) (LOCAL_OFFSET s) v.

(** ** The parser's monad

    State passing with faults: [None] is a panic, or no fuel. *)

(** The value of [()]; [tt] is a field of [Token]. *)
Abbreviation unit_ := Datatypes.tt (only parsing).

Definition M (A : Type) : Type := pstate -> option (A * pstate).
#[export] Instance M_ret : MRet M := fun A x s => Some (x, s).
#[export] Instance M_bind : MBind M := fun A B k m s => '(x, s) ← m s; k x s.

Definition fault {A} : M A := fun _ => None.
Definition get {A} (f : pstate -> A) : M A := fun s => Some (f s, s).
Definition modify (f : pstate -> pstate) : M unit := fun s => Some (unit_, f s).
(** What may fault. *)
Definition lift {A} (o : option A) : M A := fun s => x ← o; Some (x, s).
Definition skip_ : M unit := mret unit_.
Definition when (b : bool) (m : M unit) : M unit := if b then m else skip_.

Definition unread_text (s : pstate) : list Z := unread (lx s).
Definition text_fuel (s : pstate) : nat := S (S (S (List.length (unread_text s)))).

(** A loop whose body says whether to go on. *)
Fixpoint loop_n {X} (fuel : nat) (body : X -> M (bool * X)) (x : X) : M X :=
  match fuel with
  | O => fault
  | S n => '(go, x) ← body x; if (go : bool) then loop_n n body x else mret x
  end.
Definition loop {X} (body : X -> M (bool * X)) (x : X) : M X := fun s => loop_n (text_fuel s) body x s.
Definition while (c : pstate -> bool) (body : M unit) : M unit :=
  loop (fun _ => b ← get c; if (b : bool) then body;; mret (true, unit_) else mret (false, unit_)) unit_.

(** ** The lexer, the emitter and the symbol table *)

Definition tok (s : pstate) : Token := peek (lx s).
Definition at_tok (t : tok_type) (s : pstate) : bool := bool_decide (Lex.tt (tok s) = t).
(** [if tok_is(t) { a } else { b }]. *)
Definition if_tok {A} (t : tok_type) (a b : M A) : M A := fun s => if at_tok t s then a s else b s.
Definition tok_is (t : tok_type) : M bool := get (at_tok t).
(** [if HAD_ERROR { return; }]. *)
Definition unless_error (m : M unit) : M unit := fun s => if HAD_ERROR s then Some (unit_, s) else m s.

Definition next : M unit := fun s => l ← Lex.next (lx s); Some (unit_, set_lx l s).
Definition expect (t : tok_type) : M unit := fun s => l ← Lex.expect t (lx s); Some (unit_, set_lx l s).
Definition skip_tok (t : tok_type) : M unit := if_tok t next skip_.

Definition emit (f : emitter -> emitter) : M unit := modify (fun s => set_em (f (em s)) s).
Definition pos : M Z := get (fun s => Emit.pos (em s)).
(** The [_placeholder] instructions, which give the place to patch. *)
Definition placeholder (f : emitter -> Z * emitter) : M Z :=
  fun s => let '(p, e) := f (em s) in Some (p, set_em e s).
Definition patch_dword (p v : Z) : M unit := fun s => e ← Emit.patch_dword p v (em s); Some (unit_, set_em e s).
(** [emit::patch_dword(p, emit::pos() - (p + 4))]. *)
Definition patch_here (p : Z) : M unit := here ← pos; patch_dword p (u32 (here - u32 (p + 4))).
(** [emit::jmp_rel((target as i32) - (emit::pos() as i32 + 5))]. *)
Definition jmp_back (target : Z) : M unit :=
  here ← pos; emit (Emit.jmp_rel (i32 (i32 target - i32 (i32 here + 5)))).

(** The text of the current token, up to its NUL. *)
Definition tok_str : M (list Z) := get (fun s => cstr (str_val (tok s))).
(** [let mut name = [0u8; 32]; strncpy(name, src, 31); name[31] = 0]. *)
Definition tok_name : M (list Z) := w ← tok_str; mret (copy_name w).

(** Symbols do not move or change while an expression is parsed: a pointer to
    one is its entry. *)
Definition lookup (w : list Z) : M (option Symbol) := fun s =>
  p ← Sym.lookup w (sy s);
  match p with
  | None => Some (None, s)
  | Some p => e ← zget (SYMBOLS (sy s)) p; Some (Some e, s)
  end.
(** [let s = lookup(w); if !s.is_null() ... }], changing the entry by [f]. *)
Definition update_sym (w : list Z) (f : Symbol -> Symbol) : M unit := fun s =>
  p ← Sym.lookup w (sy s);
  match p with
  | None => Some (unit_, s)
  | Some p =>
      e ← zget (SYMBOLS (sy s)) p; t ← zset (SYMBOLS (sy s)) p (f e);
      Some (unit_, set_sy (Symtab t (SYM_COUNT (sy s)) (CUR_SCOPE (sy s)) (STRUCT_DEFS (sy s))
                          (STRUCT_DEF_COUNT (sy s)) (console (sy s))) s)
  end.
Definition sym_add (w : list Z) (k ty ptr off a : Z) : M unit := fun s =>
  '(_, t) ← Sym.add w k ty ptr off a (sy s); Some (unit_, set_sy t s).
Definition enter_scope : M unit := modify (fun s => set_sy (Sym.enter_scope (sy s)) s).
Definition leave_scope : M unit := fun s => t ← Sym.leave_scope (sy s); Some (unit_, set_sy t s).
Definition struct_def_lookup (w : list Z) : M (option Z) := fun s =>
  p ← Sym.struct_def_lookup w (sy s); Some (p, s).
Definition struct_field_lookup (d : option Z) (w : list Z) : M (option StructField) := fun s =>
  p ← Sym.struct_field_lookup d w (sy s);
  match d, p with
  | Some d, Some p => e ← zget (STRUCT_DEFS (sy s)) d; f ← zget (fields e) p; Some (Some f, s)
  | _, _ => Some (None, s)
  end.

(** ** Typedefs *)

Fixpoint typedef_loop (n : nat) (w : list Z) (i : Z) (l : list TypedefEntry) : option (option TypedefEntry) :=
  match n with
  | O => Some None
  | S n =>
      e ← zget l i;
      if name_is (td_name e) w then Some (Some e) else typedef_loop n w (i + 1) l
  end.
Definition find_typedef (w : list Z) : M (option TypedefEntry) := fun s =>
  p ← typedef_loop (Z.to_nat (count (TYPEDEFS s))) w 0 (entries (TYPEDEFS s)); Some (p, s).

(** ** Errors *)

Definition print_line (n : Z) : list Z := print_int n.
Definition puts (l : list Z) : M unit := modify (fun s => set_lx (print l (lx s)) s).
Definition rc_error (msg : list Z) : M unit :=
  n ← get (fun s => line (tok s));
  puts (str "rc: line " ++ print_line n ++ str ": " ++ msg ++ [10]);;
  modify (set_had_error true).

(** ** Forward references, string literals, global initialisers *)

Definition add_fixup (name : list Z) (patch_pos : Z) : M unit :=
  t ← get FIXUPS;
  if count t <? MAX_FIXUPS then
    l ← lift (zset (entries t) (count t) (MkFixup (copy_name name) patch_pos));
    modify (set_fixups (Table l (count t + 1)))
  else rc_error (str "too many forward references").

(** [text[len] = 0] panics past the end of the array. *)
Definition add_string (w : list Z) (n patch_pos : Z) : M unit :=
  t ← get STRINGS;
  if count t <? MAX_STRINGS then
    old ← lift (zget (entries t) (count t));
    x ← lift (zset (splice 0 (take (Z.to_nat n) w) (text old)) n 0);
    l ← lift (zset (entries t) (count t) (MkString x n patch_pos));
    modify (set_strings (Table l (count t + 1)))
  else rc_error (str "too many string literals").

Definition add_init (addr value : Z) : M unit :=
  t ← get GLOBAL_INITS;
  if count t <? MAX_GLOBAL_INITS then
    l ← lift (zset (entries t) (count t) (MkInit addr value));
    modify (set_inits (Table l (count t + 1)))
  else skip_.

(** ** Loops being compiled *)

Definition loop_push (target : Z) : M unit :=
  t ← get LOOPS;
  if count t <? MAX_LOOP_DEPTH then
    c ← lift (zget (entries t) (count t));
    l ← lift (zset (entries t) (count t) (MkLoop target (break_patches c) 0));
    modify (set_loops (Table l (count t + 1)))
  else skip_.

(** Patch every place of the list to jump here. *)
Fixpoint patch_all (l : list Z) : M unit :=
  match l with
  | [] => skip_
  | p :: l => patch_here p;; patch_all l
  end.

Definition loop_pop : M unit :=
  t ← get LOOPS;
  if count t <=? 0 then skip_ else
  modify (set_loops (Table (entries t) (count t - 1)));;
  c ← lift (zget (entries t) (count t - 1));
  if Z.of_nat (List.length (break_patches c)) <? break_count c then fault
  else patch_all (take (Z.to_nat (break_count c)) (break_patches c)).

Definition loop_add_break (patch_pos : Z) : M unit :=
  t ← get LOOPS;
  if count t <=? 0 then rc_error (str "break outside loop") else
  c ← lift (zget (entries t) (count t - 1));
  if break_count c <? MAX_BREAKS then
    b ← lift (zset (break_patches c) (break_count c) patch_pos);
    l ← lift (zset (entries t) (count t - 1) (MkLoop (continue_target c) b (break_count c + 1)));
    modify (set_loops (Table l (count t)))
  else skip_.

(** ** Types *)

Definition set_struct_name (w : list Z) : M unit :=
  modify (fun s => set_ti (TypeInfo w (IS_ARRAY (ti s)) (ARRAY_COUNT (ti s))) s).

Definition is_int_type (s : pstate) : bool :=
  at_tok TOK_I32 s || at_tok TOK_U32 s || at_tok TOK_USIZE s || at_tok TOK_ISIZE s.
Definition is_char_type (s : pstate) : bool := at_tok TOK_U8 s || at_tok TOK_BOOL s.

(** The result is the flag returned and the two out-parameters, of which the
    first starts as [ty0]. *)
Fixpoint parse_type_n (fuel : nat) (ty0 : Z) : M (bool * Z * Z) :=
  match fuel with
  | O => fault
  | S fuel =>
      modify (fun s => set_ti (TypeInfo (<[0%nat := 0]> (PARSED_STRUCT_NAME (ti s))) false 0) s);;
      if_tok TOK_STAR
        (next;; if_tok TOK_MUT next (skip_tok TOK_CONST);;
         '(_, ty, _) ← parse_type_n fuel 0; mret (true, ty, 1)) (
      if_tok TOK_AMP
        (next;; skip_tok TOK_MUT;; '(_, ty, _) ← parse_type_n fuel 0; mret (true, ty, 1)) (
      if_tok TOK_LBRACKET
        (next;; '(_, ty, _) ← parse_type_n fuel 0; expect TOK_SEMI;;
         if_tok TOK_NUM
           (n ← get (fun s => num_val (tok s));
            modify (fun s => set_ti (TypeInfo (PARSED_STRUCT_NAME (ti s)) (IS_ARRAY (ti s)) n) s);;
            next;; expect TOK_RBRACKET;;
            modify (fun s => set_ti (TypeInfo (PARSED_STRUCT_NAME (ti s)) true (ARRAY_COUNT (ti s))) s);;
            mret (true, ty, 1))
           (rc_error (str "expected array size");; mret (false, ty0, 0))) (
      i ← get is_int_type; if (i : bool) then next;; mret (true, TYPE_INT, 0) else
      c ← get is_char_type; if (c : bool) then next;; mret (true, TYPE_CHAR, 0) else
      if_tok TOK_VOID (next;; mret (true, TYPE_VOID, 0)) (
      if_tok TOK_STRUCT
        (next;;
         if_tok TOK_IDENT
           (w ← tok_name; set_struct_name w;; next;; mret (true, TYPE_INT, 0))
           (rc_error (str "expected struct name");; mret (false, ty0, 0))) (
      if_tok TOK_IDENT
        (w ← tok_str; td ← find_typedef w;
         match td with
         | Some e => next;; mret (true, td_type e, td_is_ptr e)
         | None =>
             d ← struct_def_lookup w;
             match d with
             | Some _ => set_struct_name (copy_name w);; next;; mret (true, TYPE_INT, 0)
             | None => mret (false, ty0, 0)
             end
         end)
        (mret (false, ty0, 0)))))))
  end.
Definition parse_type (ty0 : Z) : M (bool * Z * Z) := fun s => parse_type_n (text_fuel s) ty0 s.

Definition set_sym_struct (w sname : list Z) : M unit :=
  update_sym w (fun e => Sym (name e) (kind e) (sym_type e) (is_ptr e) (Sym.offset e) (addr e) (scope_depth e)
    (copy_name sname) (is_mutable e)).
Definition set_mutable (w : list Z) (m : bool) : M unit :=
  update_sym w (fun e => Sym (name e) (kind e) (sym_type e) (is_ptr e) (Sym.offset e) (addr e) (scope_depth e)
    (struct_name e) (Z.b2z m)).
