(* ===== verification/ParseExpr.v ===== *)
(** Expressions ([src/src/rc/parse.rs], from [emit_reverse_args] to
    [parse_primary]): the recursive-descent parser that emits the code of an
    expression while it reads it.

    Every function of the parser is a definition; the ones that call [parse_expr]
    again take it as the variable of the section, and [parse_expr_n] ties the
    knot. *)
From Stdlib Require Import String.
From S2P Require Import Prelude StringRs Lex Emit Sym ParseState.

(** ** Operators *)

Definition e_push : M unit := emit (Emit.push_reg REG_EAX).
Definition e_pop (r : Z) : M unit := emit (Emit.pop_reg r).

(** The right operand: left to the stack, right to ECX, left back to EAX. *)
Definition right_operand (right : M unit) : M unit :=
  e_push;; right;; emit (Emit.mov_reg_reg REG_ECX REG_EAX);; e_pop REG_EAX.

Definition op_or (right : M unit) : M unit :=
  next;; emit (Emit.cmp_eax_imm 0);; emit (Emit.byte 0x0F);; emit (Emit.byte 0x85);;
  skip ← pos; emit (Emit.dword 0);;
  right;;
  emit (Emit.cmp_eax_imm 0);; emit (Emit.setcc CC_NE REG_EAX);; emit Emit.movzx_eax_al;;
  end_ ← placeholder Emit.jmp_placeholder;
  patch_here skip;; emit (Emit.mov_reg_imm REG_EAX 1);; patch_here end_.

Definition op_and (right : M unit) : M unit :=
  next;; emit (Emit.cmp_eax_imm 0);; skip ← placeholder (Emit.jcc_placeholder CC_E);
  right;;
  emit (Emit.cmp_eax_imm 0);; emit (Emit.setcc CC_NE REG_EAX);; emit Emit.movzx_eax_al;;
  patch_here skip.

Definition op_bitor (right : M unit) : M unit := next;; right_operand right;; emit (Emit.or REG_EAX REG_ECX).
Definition op_bitxor (right : M unit) : M unit := next;; right_operand right;; emit (Emit.xor REG_EAX REG_ECX).
Definition op_bitand (right : M unit) : M unit := next;; right_operand right;; emit (Emit.and REG_EAX REG_ECX).

Definition compare (cc : Z) (right : M unit) : M unit :=
  next;; right_operand right;; emit (Emit.cmp REG_EAX REG_ECX);; emit (Emit.setcc cc REG_EAX);;
  emit Emit.movzx_eax_al.

Definition is_equality (s : pstate) : bool := at_tok TOK_EQ s || at_tok TOK_NEQ s.
Definition equality_cc (s : pstate) : Z := if at_tok TOK_EQ s then CC_E else CC_NE.
Definition op_equal (right : M unit) : M unit := cc ← get equality_cc; compare cc right.

Definition is_relation (s : pstate) : bool := at_tok TOK_LT s || at_tok TOK_GT s || at_tok TOK_LTE s || at_tok TOK_GTE s.
Definition relation_cc (s : pstate) : Z :=
  if at_tok TOK_LT s then CC_L else if at_tok TOK_GT s then CC_G else if at_tok TOK_LTE s then CC_LE else CC_GE.
Definition op_relational (right : M unit) : M unit := cc ← get relation_cc; compare cc right.

Definition is_shift (s : pstate) : bool := at_tok TOK_LSHIFT s || at_tok TOK_RSHIFT s.
Definition op_shift (right : M unit) : M unit :=
  is_left ← tok_is TOK_LSHIFT; next;; right_operand right;;
  emit (if (is_left : bool) then Emit.shl REG_EAX else Emit.shr REG_EAX).

Definition set_scale (n : Z) : M unit :=
  modify (fun s => let e := ex s in set_ex (ExprInfo n (EXPR_STRUCT_NAME e) (EXPR_STRUCT_IS_PTR e)
    (EXPR_STRUCT_KIND e) (EXPR_STRUCT_OFFSET e) (EXPR_STRUCT_ADDR e)) s).
Definition scale : M Z := get (fun s => EXPR_PTR_SCALE (ex s)).
(** [EXPR_STRUCT_NAME[0] = 0]. *)
Definition clear_struct : M unit :=
  modify (fun s => let e := ex s in set_ex (ExprInfo (EXPR_PTR_SCALE e) (<[0%nat := 0]> (EXPR_STRUCT_NAME e))
    (EXPR_STRUCT_IS_PTR e) (EXPR_STRUCT_KIND e) (EXPR_STRUCT_OFFSET e) (EXPR_STRUCT_ADDR e)) s).

Definition is_additive (s : pstate) : bool := at_tok TOK_PLUS s || at_tok TOK_MINUS s.
(** The right operand is scaled when the left one is a pointer. *)
Definition op_add (right : M unit) : M unit :=
  is_sub ← tok_is TOK_MINUS; left_scale ← scale; set_scale 0;; next;;
  e_push;; right;;
  when (1 <? left_scale) (emit (Emit.mov_reg_imm REG_EDX (u32 left_scale));; emit (Emit.imul REG_EAX REG_EDX));;
  emit (Emit.mov_reg_reg REG_ECX REG_EAX);; e_pop REG_EAX;;
  emit (if (is_sub : bool) then Emit.sub REG_EAX REG_ECX else Emit.add REG_EAX REG_ECX);;
  when (negb (left_scale =? 0)) (set_scale left_scale).

Definition is_factor (s : pstate) : bool := at_tok TOK_STAR s || at_tok TOK_SLASH s || at_tok TOK_PERCENT s.
Definition op_mul (right : M unit) : M unit :=
  op ← get (fun s => Lex.tt (tok s)); next;; right_operand right;;
  if decide (op = TOK_STAR) then emit (Emit.imul REG_EAX REG_ECX)
  else emit Emit.idiv_ecx;; when (bool_decide (op = TOK_PERCENT)) (emit (Emit.mov_reg_reg REG_EAX REG_EDX)).

(** ** Symbols *)

(** [lea eax, [ebp+offset]]. *)
Definition e_lea (off : Z) : M unit := emit (Emit.byte 0x8D);; emit (Emit.byte 0x85);; emit (Emit.dword (u32 off)).

Definition is_frame (k : Z) : bool := (k =? SYM_LOCAL) || (k =? SYM_PARAM).

(** The address of a variable. *)
Definition e_address (k off a : Z) : M unit :=
  if is_frame k then e_lea off else when (k =? SYM_GLOBAL) (emit (Emit.mov_reg_imm REG_EAX a)).

(** The scale of a pointer to elements of a type. *)
Definition ptr_scale (ptr ty : Z) : Z := if negb (ptr =? 0) then (if ty =? TYPE_CHAR then 1 else 4) else 0.

Definition has_struct (e : Symbol) : bool := negb (nth 0 (struct_name e) 0 =? 0).

Definition emit_load_sym (e : Symbol) : M unit :=
  set_scale (ptr_scale (is_ptr e) (sym_type e));;
  (if has_struct e then
     modify (fun s => set_ex (ExprInfo (EXPR_PTR_SCALE (ex s)) (copy_name (cstr (struct_name e))) (is_ptr e) (kind e)
                                (Sym.offset e) (addr e)) s)
   else clear_struct);;
  if kind e =? SYM_CONST then emit (Emit.mov_reg_imm REG_EAX (addr e));; set_scale 0 else
  if is_frame (kind e) then emit (Emit.load_local REG_EAX (Sym.offset e)) else
  if kind e =? SYM_GLOBAL then emit (Emit.load_global REG_EAX (addr e)) else
  if kind e =? SYM_FUNC then
    base ← get (fun s => get_base (em s)); emit (Emit.mov_reg_imm REG_EAX (u32 (base + u32 (Sym.offset e)))) else
  when (kind e =? SYM_KERN_FUNC) (emit (Emit.mov_reg_imm REG_EAX (addr e))).

Definition emit_store_sym (e : Symbol) : M unit :=
  if is_frame (kind e) then emit (Emit.store_local (Sym.offset e) REG_EAX)
  else when (kind e =? SYM_GLOBAL) (emit (Emit.store_global (addr e) REG_EAX)).

(** Load and store through a pointer to bytes or to words. *)
Definition e_load (byte : bool) : M unit :=
  emit (if byte then Emit.load_indirect_byte REG_EAX REG_EAX else Emit.load_indirect REG_EAX REG_EAX).
Definition e_store (byte : bool) : M unit :=
  emit (if byte then Emit.store_indirect_byte REG_ECX REG_EAX else Emit.store_indirect REG_ECX REG_EAX).

(** A move between EAX or ECX and [[esp+off]]. *)
Definition esp_move (op modrm off : Z) : M unit :=
  emit (Emit.byte op);; emit (Emit.byte modrm);; emit (Emit.byte 0x24);; emit (Emit.dword (u32 off)).

Fixpoint reverse_loop (n : nat) (ai argc : Z) : M unit :=
  match n with
  | O => skip_
  | S n =>
      let lo := ai * 4 in let hi := (argc - 1 - ai) * 4 in
      esp_move 0x8B 0x84 lo;; esp_move 0x8B 0x8C hi;; esp_move 0x89 0x8C lo;; esp_move 0x89 0x84 hi;;
      reverse_loop n (ai + 1) argc
  end.
Definition emit_reverse_args (argc : Z) : M unit := reverse_loop (Z.to_nat (argc / 2)) 0 argc.

(** The displacement of a call placed at [p]. *)
Definition call_disp (target p : Z) : Z := u32 (i32 (i32 target - i32 (i32 p + 4))).

(** After [.] or [->]: the name of a field of the struct. *)
Definition field_of (sname msg : list Z) : M (option StructField) :=
  d ← struct_def_lookup sname;
  next;;
  if_tok TOK_IDENT
    (fname ← tok_name; next;; fld ← struct_field_lookup d (cstr fname);
     match fld with
     | Some f => mret (Some f)
     | None => rc_error (str "unknown struct field");; mret None
     end)
    (rc_error msg;; mret None).
Definition dot_msg : list Z := str "expected field name after '.'".
Definition arrow_msg : list Z := str "expected field name after '->'".

Definition add_field_offset (f : StructField) : M unit :=
  when (0 <? f_offset f)
    (emit (Emit.mov_reg_imm REG_ECX (u32 (f_offset f)));; emit (Emit.add REG_EAX REG_ECX)).
(** Read the field whose address is in EAX. *)
Definition read_field (f : StructField) : M unit :=
  e_load false;; set_scale (ptr_scale (f_is_ptr f) (field_type f)).

(** ** The parser of expressions *)

Section expr.
Variable parse_expr : M unit.

(** The arguments of a call; the result is their number. *)
Definition parse_args : M Z :=
  if_tok TOK_RPAREN (mret 0)
    (parse_expr;; e_push;;
     argc ← loop (fun argc => if_tok TOK_COMMA (next;; parse_expr;; e_push;; mret (true, argc + 1)) (mret (false, argc))) 1;
     when (1 <? argc) (emit_reverse_args argc);; mret argc).

Definition emit_func_call (fname : list Z) (s : option Symbol) : M unit :=
  argc ← parse_args;
  expect TOK_RPAREN;;
  match s with
  | Some e =>
      if kind e =? SYM_KERN_FUNC then emit (Emit.call_abs (addr e)) else
      if kind e =? SYM_FUNC then
        emit (Emit.byte 0xE8);; p ← pos; emit (Emit.dword (call_disp (u32 (Sym.offset e)) p))
      else emit (Emit.byte 0xE8);; p ← pos; emit (Emit.dword 0);; add_fixup (cstr fname) p
  | None => emit (Emit.byte 0xE8);; p ← pos; emit (Emit.dword 0);; add_fixup (cstr fname) p
  end;;
  when (0 <? argc) (emit (Emit.add_esp (argc * 4)));;
  set_scale 0;; clear_struct.

Definition parse_literal (v : M Z) : M unit :=
  n ← v; emit (Emit.mov_reg_imm REG_EAX n);; set_scale 0;; clear_struct;; next.

Definition parse_primary : M unit := unless_error (
  if_tok TOK_NUM (parse_literal (get (fun s => u32 (num_val (tok s))))) (
  if_tok TOK_TRUE (parse_literal (mret 1)) (
  if_tok TOK_FALSE (parse_literal (mret 0)) (
  if_tok TOK_STR
    (emit (Emit.byte 0xB8);; p ← pos; emit (Emit.dword 0);;
     w ← tok_str; add_string w (Z.of_nat (List.length w)) p;; set_scale 1;; clear_struct;; next) (
  if_tok TOK_IDENT
    (fname ← tok_name; s ← lookup (cstr fname); next;;
     if_tok TOK_LPAREN (next;; emit_func_call fname s)
       match s with
       | Some e => emit_load_sym e
       | None => rc_error (str "undefined symbol");; emit (Emit.mov_reg_imm REG_EAX 0)
       end) (
  if_tok TOK_LPAREN (next;; parse_expr;; expect TOK_RPAREN)
    (rc_error (str "expected expression")))))))).

(** One round of the loop of [parse_postfix]: whether to go on. *)
Definition postfix_step : M bool :=
  err ← get HAD_ERROR; if (err : bool) then mret false else
  if_tok TOK_LBRACKET
    (save_scale ← scale; next;; e_push;; parse_expr;; expect TOK_RBRACKET;;
     when (1 <? save_scale) (emit (Emit.mov_reg_imm REG_ECX (u32 save_scale));; emit (Emit.imul REG_EAX REG_ECX));;
     emit (Emit.mov_reg_reg REG_ECX REG_EAX);; e_pop REG_EAX;; emit (Emit.add REG_EAX REG_ECX);;
     e_load (save_scale =? 1);; mret true) (
  info ← get ex;
  let in_struct := negb (nth 0 (EXPR_STRUCT_NAME info) 0 =? 0) in
  let through_ptr := negb (EXPR_STRUCT_IS_PTR info =? 0) in
  arrow ← tok_is TOK_ARROW; dot ← tok_is TOK_DOT;
  if (arrow : bool) && in_struct && through_ptr then
    fld ← field_of (cstr (EXPR_STRUCT_NAME info)) arrow_msg;
    match fld with
    | None => mret false
    | Some f => add_field_offset f;; read_field f;; clear_struct;; mret true
    end
  else if (dot : bool) && in_struct && negb through_ptr then
    fld ← field_of (cstr (EXPR_STRUCT_NAME info)) dot_msg;
    match fld with
    | None => mret false
    | Some f =>
        e_address (EXPR_STRUCT_KIND info) (EXPR_STRUCT_OFFSET info) (EXPR_STRUCT_ADDR info);;
        add_field_offset f;; read_field f;; clear_struct;; mret true
    end
  else
  if_tok TOK_AS
    (next;; '(_, ty, ptr) ← parse_type 0; set_scale (ptr_scale ptr ty);; mret true)
    (mret false)).

Definition parse_postfix : M unit := unless_error (
  parse_primary;; loop (fun _ => go ← postfix_step; mret (go, unit_)) unit_).

(** [&ident]. *)
Definition parse_address_of : M unit :=
  next;; skip_tok TOK_MUT;;
  if_tok TOK_IDENT
    (w ← tok_str; s ← lookup w;
     match s with
     | None => rc_error (str "undefined variable");; next
     | Some e => next;; e_address (kind e) (Sym.offset e) (addr e)
     end)
    (rc_error (str "expected identifier after '&'")).

Fixpoint parse_unary_n (fuel : nat) : M unit :=
  match fuel with
  | O => fault
  | S fuel => unless_error (
      if_tok TOK_MINUS (next;; parse_unary_n fuel;; emit (Emit.neg REG_EAX)) (
      if_tok TOK_BANG (next;; parse_unary_n fuel;; emit (Emit.not REG_EAX)) (
      if_tok TOK_STAR (next;; parse_unary_n fuel;; n ← scale; e_load (n =? 1);; set_scale 0) (
      if_tok TOK_AMP parse_address_of
      parse_postfix))))
  end.
Definition parse_unary : M unit := fun s => parse_unary_n (text_fuel s) s.

(** A level of the precedence chain. *)
Definition chain (sub : M unit) (is_op : pstate -> bool) (op : M unit) : M unit :=
  unless_error (sub;; while is_op op).

Definition parse_mul : M unit := chain parse_unary is_factor (op_mul parse_unary).
Definition parse_add_expr : M unit := chain parse_mul is_additive (op_add parse_mul).
Definition parse_shift : M unit := chain parse_add_expr is_shift (op_shift parse_add_expr).
Definition parse_relational : M unit := chain parse_shift is_relation (op_relational parse_shift).
Definition parse_equal : M unit := chain parse_relational is_equality (op_equal parse_relational).
Definition parse_bitand : M unit := chain parse_equal (at_tok TOK_AMP) (op_bitand parse_equal).
Definition parse_bitxor : M unit := chain parse_bitand (at_tok TOK_CARET) (op_bitxor parse_bitand).
Definition parse_bitor : M unit := chain parse_bitxor (at_tok TOK_PIPE) (op_bitor parse_bitxor).
Definition parse_and_expr : M unit := chain parse_bitor (at_tok TOK_AND) (op_and parse_bitor).
Definition parse_or : M unit := chain parse_and_expr (at_tok TOK_OR) (op_or parse_and_expr).

(** One round of the loop of [parse_binops]: whether to go on. *)
Definition binop_step : M bool :=
  err ← get HAD_ERROR; if (err : bool) then mret false else
  if_tok TOK_OR (op_or parse_or;; mret true) (
  if_tok TOK_AND (op_and parse_and_expr;; mret true) (
  if_tok TOK_PIPE (op_bitor parse_bitor;; mret true) (
  if_tok TOK_CARET (op_bitxor parse_bitand;; mret true) (
  if_tok TOK_AMP (op_bitand parse_equal;; mret true) (
  eq ← get is_equality; if (eq : bool) then op_equal parse_relational;; mret true else
  rel ← get is_relation; if (rel : bool) then op_relational parse_shift;; mret true else
  sh ← get is_shift; if (sh : bool) then op_shift parse_add_expr;; mret true else
  ad ← get is_additive; if (ad : bool) then op_add parse_mul;; mret true else
  mu ← get is_factor; if (mu : bool) then op_mul parse_unary;; mret true else
  mret false))))).
Definition parse_binops : M unit := loop (fun _ => go ← binop_step; mret (go, unit_)) unit_.

(** EAX holds an address: assign to it, or else read it by [read] and go on. *)
Definition assign_or (byte : bool) (read : M unit) : M unit :=
  if_tok TOK_ASSIGN (next;; e_push;; parse_expr;; e_pop REG_ECX;; e_store byte) (read;; parse_binops).

Definition is_byte_ptr (e : Symbol) : bool := (sym_type e =? TYPE_CHAR) && negb (is_ptr e =? 0).

(** [*ident], [*ident = expr], [*unary] and [*unary = expr]. *)
Definition deref_unary : M unit :=
  parse_unary;; n ← scale; assign_or (n =? 1) (e_load (n =? 1);; set_scale 0).
Definition parse_deref : M unit :=
  next;;
  if_tok TOK_IDENT
    (w ← tok_str; s ← lookup w;
     match s with
     | None => deref_unary
     | Some e =>
         next;;
         if_tok TOK_ASSIGN
           (next;; emit_load_sym e;; e_push;; parse_expr;; e_pop REG_ECX;; e_store (is_byte_ptr e))
           (emit_load_sym e;; e_load (is_byte_ptr e);; set_scale 0;; parse_binops)
     end)
    deref_unary.

(** [ident.field] and [ident->field]. *)
Definition parse_member (e : Symbol) (msg : list Z) (base : M unit) : M unit :=
  fld ← field_of (cstr (struct_name e)) msg;
  match fld with
  | None => skip_
  | Some f => base;; add_field_offset f;; assign_or false (read_field f)
  end.

Definition is_compound (s : pstate) : bool :=
  at_tok TOK_PLUSEQ s || at_tok TOK_MINUSEQ s || at_tok TOK_STAREQ s || at_tok TOK_SLASHEQ s.

(** [ident += expr] and the like. *)
Definition parse_compound (e : Symbol) : M unit :=
  op ← get (fun s => Lex.tt (tok s)); next;; emit_load_sym e;;
  right_operand parse_expr;;
  when (negb (is_ptr e =? 0) && (bool_decide (op = TOK_PLUSEQ) || bool_decide (op = TOK_MINUSEQ)) &&
        negb (sym_type e =? TYPE_CHAR))
    (emit (Emit.mov_reg_imm REG_EDX 4);; emit (Emit.imul REG_ECX REG_EDX));;
  (if decide (op = TOK_PLUSEQ) then emit (Emit.add REG_EAX REG_ECX) else
   if decide (op = TOK_MINUSEQ) then emit (Emit.sub REG_EAX REG_ECX) else
   if decide (op = TOK_STAREQ) then emit (Emit.imul REG_EAX REG_ECX) else emit Emit.idiv_ecx);;
  emit_store_sym e.

(** [ident[index]]. *)
Definition parse_index (e : Symbol) : M unit :=
  let byte := sym_type e =? TYPE_CHAR in
  (if negb (is_ptr e =? 0) then emit_load_sym e else e_lea (Sym.offset e));;
  e_push;; next;; parse_expr;; expect TOK_RBRACKET;;
  when (negb byte) (emit (Emit.mov_reg_imm REG_ECX 4);; emit (Emit.imul REG_EAX REG_ECX));;
  emit (Emit.mov_reg_reg REG_ECX REG_EAX);; e_pop REG_EAX;; emit (Emit.add REG_EAX REG_ECX);;
  assign_or byte (e_load byte).

(** An expression that starts with a name the table knows. *)
Definition parse_known (fname : list Z) (e : Symbol) : M unit :=
  next;;
  if_tok TOK_ASSIGN (next;; parse_expr;; emit_store_sym e) (
  dot ← tok_is TOK_DOT; arrow ← tok_is TOK_ARROW; compound ← get is_compound;
  if (dot : bool) && has_struct e then parse_member e dot_msg (e_address (kind e) (Sym.offset e) (addr e)) else
  if (arrow : bool) && has_struct e then parse_member e arrow_msg (emit_load_sym e) else
  if (compound : bool) then parse_compound e else
  if_tok TOK_LBRACKET (parse_index e) (
  if_tok TOK_LPAREN (next;; emit_func_call fname (Some e);; parse_binops)
  (emit_load_sym e;; parse_binops))).

Definition parse_unknown (fname : list Z) : M unit :=
  next;;
  if_tok TOK_LPAREN (next;; emit_func_call fname None;; parse_binops)
    (rc_error (str "undefined symbol");; emit (Emit.mov_reg_imm REG_EAX 0);; parse_binops).

Definition parse_expr_body : M unit := unless_error (
  if_tok TOK_STAR parse_deref (
  if_tok TOK_IDENT
    (fname ← tok_name; s ← lookup (cstr fname);
     match s with
     | Some e => parse_known fname e
     | None => parse_unknown fname
     end)
    parse_or)).
End expr.

Fixpoint parse_expr_n (fuel : nat) : M unit :=
  match fuel with
  | O => fault
  | S fuel => parse_expr_body (parse_expr_n fuel)
  end.
Definition parse_expr : M unit := fun s => parse_expr_n (text_fuel s) s.
