(* ===== verification/ParseStmt.v ===== *)
(** Statements, declarations and the whole program ([src/src/rc/parse.rs], from
    [parse_enum] to [parse_program]).

    Statements nest through [parse_stmt], the variable of the section;
    [parse_stmt_n] ties the knot. *)
From Stdlib Require Import String.
From S2P Require Import Prelude StringRs Lex Emit Sym ParseState ParseExpr.

(** A name, or the error. *)
Definition name_or (msg : list Z) (k : list Z -> M unit) : M unit :=
  if_tok TOK_IDENT (w ← tok_name; next;; k w) (rc_error msg).

(** Not at [close], at the end, or after an error. *)
Definition inside (close : tok_type) (s : pstate) : bool :=
  negb (at_tok close s) && negb (at_tok TOK_EOF s) && negb (HAD_ERROR s).
(** [while !tok_is(close) && !tok_is(TOK_EOF) && !HAD_ERROR] over a body that may
    [break]. *)
Definition until {X} (close : tok_type) (body : X -> M (bool * X)) (x : X) : M X :=
  loop (fun x => b ← get (inside close); if (b : bool) then body x else mret (false, x)) x.

Definition local_offset : M Z := get LOCAL_OFFSET.
(** [LOCAL_OFFSET -= n]; the result is the new offset. *)
Definition alloc_local (n : Z) : M Z :=
  off ← local_offset; let off := i32 (off - n) in modify (set_local_offset off);; mret off.

(** ** Enumerations *)

(** One constant, whose value is [value] unless it is given; the next value. *)
Definition enum_constant (value : Z) : M (bool * Z) :=
  if_tok TOK_IDENT
    (w ← tok_name; next;;
     v ← if_tok TOK_ASSIGN
           (next;; if_tok TOK_NUM (n ← get (fun s => num_val (tok s)); next;; mret (Some n))
                     (rc_error (str "expected integer value");; mret None))
           (mret (Some value));
     match v with
     | None => mret (false, value)
     | Some v =>
         sym_add (cstr w) SYM_CONST TYPE_INT 0 0 (u32 v);;
         skip_tok TOK_COMMA;; mret (true, i32 (v + 1))
     end)
    (rc_error (str "expected enum constant name");; mret (false, value)).

Definition parse_enum : M unit :=
  next;; skip_tok TOK_IDENT;; expect TOK_LBRACE;;
  until TOK_RBRACE enum_constant 0;;
  expect TOK_RBRACE.

(** ** Statements *)

Section stmt.
Variable parse_stmt : M unit.

Definition parse_block : M unit := unless_error (
  expect TOK_LBRACE;; enter_scope;;
  while (inside TOK_RBRACE) parse_stmt;;
  leave_scope;; expect TOK_RBRACE).

Fixpoint parse_if_n (fuel : nat) : M unit :=
  match fuel with
  | O => fault
  | S fuel =>
      next;; parse_expr;; emit (Emit.cmp_eax_imm 0);;
      false_jump ← placeholder (Emit.jcc_placeholder CC_E);
      parse_block;;
      if_tok TOK_ELSE
        (next;; end_jump ← placeholder Emit.jmp_placeholder;
         patch_here false_jump;;
         if_tok TOK_IF (parse_if_n fuel) parse_block;;
         patch_here end_jump)
        (patch_here false_jump)
  end.
Definition parse_if : M unit := fun s => parse_if_n (text_fuel s) s.

(** The body of an arm, and the jump to the end of the match, for as long as
    [break_patches] has room; [breaks] holds the jumps so far. *)
Definition arm_body (breaks : list Z) : M (list Z) :=
  expect TOK_FAT_ARROW;;
  if_tok TOK_LBRACE parse_block parse_stmt;;
  skip_tok TOK_COMMA;;
  if Z.of_nat (List.length breaks) <? MAX_BREAKS
  then p ← placeholder Emit.jmp_placeholder; mret (breaks ++ [p]) else mret breaks.

(** One arm; [next_arm_jump], when not zero, is the jump of the previous one. *)
Definition match_arm (match_local : Z) (st : Z * list Z) : M (bool * (Z * list Z)) :=
  let '(next_arm_jump, breaks) := st in
  when (negb (next_arm_jump =? 0)) (patch_here next_arm_jump);;
  if_tok TOK_UNDERSCORE_PAT
    (next;; breaks ← arm_body breaks; mret (true, (0, breaks)))
    (parse_expr;; emit (Emit.load_local REG_ECX match_local);; emit (Emit.cmp REG_ECX REG_EAX);;
     jump ← placeholder (Emit.jcc_placeholder CC_NE);
     breaks ← arm_body breaks; mret (true, (jump, breaks))).

Definition parse_match : M unit :=
  old_local_offset ← local_offset;
  next;; parse_expr;;
  match_local ← alloc_local 4;
  emit (Emit.store_local match_local REG_EAX);;
  expect TOK_LBRACE;;
  '(next_arm_jump, breaks) ← until TOK_RBRACE (match_arm match_local) (0, []);
  expect TOK_RBRACE;;
  when (negb (next_arm_jump =? 0)) (patch_here next_arm_jump);;
  patch_all breaks;;
  modify (set_local_offset old_local_offset).

Definition parse_loop : M unit :=
  next;; loop_start ← pos; loop_push loop_start;; parse_block;; jmp_back loop_start;; loop_pop.

Definition parse_while : M unit :=
  next;; loop_start ← pos; parse_expr;; emit (Emit.cmp_eax_imm 0);;
  exit_jump ← placeholder (Emit.jcc_placeholder CC_E);
  loop_push loop_start;; parse_block;; jmp_back loop_start;; patch_here exit_jump;; loop_pop.

Definition parse_for : M unit :=
  next;; enter_scope;;
  name_or (str "expected iterator variable") (fun iter_name =>
    expect TOK_IN;;
    parse_expr;; iter_off ← alloc_local 4;
    sym_add (cstr iter_name) SYM_LOCAL TYPE_INT 0 iter_off 0;; set_mutable (cstr iter_name) true;;
    emit (Emit.store_local iter_off REG_EAX);;
    expect TOK_DOUBLE_DOT;;
    parse_expr;; end_off ← alloc_local 4;
    emit (Emit.store_local end_off REG_EAX);;
    cond_start ← pos;
    emit (Emit.load_local REG_EAX iter_off);; e_push;; emit (Emit.load_local REG_EAX end_off);;
    emit (Emit.mov_reg_reg REG_ECX REG_EAX);; e_pop REG_EAX;; emit (Emit.cmp REG_EAX REG_ECX);;
    exit_jump ← placeholder (Emit.jcc_placeholder CC_GE);
    skip_update ← placeholder Emit.jmp_placeholder;
    update_start ← pos;
    emit (Emit.load_local REG_EAX iter_off);; emit (Emit.mov_reg_imm REG_ECX 1);;
    emit (Emit.add REG_EAX REG_ECX);; emit (Emit.store_local iter_off REG_EAX);;
    jmp_back cond_start;;
    patch_here skip_update;;
    loop_push update_start;; parse_block;; jmp_back update_start;;
    patch_here exit_jump;; loop_pop;; leave_scope).

(** ** Declarations of variables *)

(** One element of an array initialiser, the [idx]th. *)
Definition array_element (elem_sz idx : Z) : M (bool * Z) :=
  base ← local_offset; let off := i32 (base + i32 (idx * elem_sz)) in
  parse_expr;; emit (Emit.store_local off REG_EAX);; skip_tok TOK_COMMA;; mret (true, i32 (idx + 1)).

Definition let_array (vname : list Z) (is_mut : bool) (vtype : Z) : M unit :=
  let elem_sz := if vtype =? TYPE_CHAR then 1 else 4 in
  n ← get (fun s => ARRAY_COUNT (ti s));
  off ← alloc_local (Z.land (i32 (i32 (n * elem_sz) + 3)) (-4));
  sym_add (cstr vname) SYM_LOCAL vtype 1 off 0;; set_mutable (cstr vname) is_mut;;
  if_tok TOK_ASSIGN
    (next;;
     if_tok TOK_LBRACKET
       (next;; until TOK_RBRACKET (array_element elem_sz) 0;; expect TOK_RBRACKET)
       (rc_error (str "expected '[' for array initializer")))
    skip_.

Definition let_struct (vname : list Z) (is_mut : bool) (vtype : Z) (sname : list Z) : M unit :=
  d ← struct_def_lookup (cstr sname);
  sz ← match d with
       | None => mret 4
       | Some p => e ← get (fun s => zget (STRUCT_DEFS (sy s)) p); e ← lift e; mret (Sym.size e)
       end;
  off ← alloc_local sz;
  sym_add (cstr vname) SYM_LOCAL vtype 0 off 0;; set_sym_struct (cstr vname) (cstr sname);;
  set_mutable (cstr vname) is_mut.

Definition let_scalar (vname : list Z) (is_mut : bool) (vtype vptr : Z) (sname : list Z) : M unit :=
  off ← alloc_local 4;
  sym_add (cstr vname) SYM_LOCAL vtype vptr off 0;;
  when (negb (nth 0 sname 0 =? 0)) (set_sym_struct (cstr vname) (cstr sname));;
  set_mutable (cstr vname) is_mut;;
  if_tok TOK_ASSIGN
    (next;; parse_expr;; off ← local_offset; emit (Emit.store_local off REG_EAX))
    skip_.

Definition parse_let : M unit :=
  next;;
  is_mut ← if_tok TOK_MUT (next;; mret true) (mret false);
  name_or (str "expected variable name") (fun vname =>
    expect TOK_COLON;;
    '(ok, vtype, vptr) ← parse_type 0;
    if negb ok then rc_error (str "expected type") else
    sname ← get (fun s => copy_name (cstr (PARSED_STRUCT_NAME (ti s))));
    is_array ← get (fun s => IS_ARRAY (ti s));
    (if (is_array : bool) then let_array vname is_mut vtype else
     if negb (nth 0 sname 0 =? 0) && (vptr =? 0) then let_struct vname is_mut vtype sname
     else let_scalar vname is_mut vtype vptr sname);;
    expect TOK_SEMI).

(** ** One statement *)

Definition parse_return : M unit :=
  next;; if_tok TOK_SEMI skip_ parse_expr;; emit Emit.epilogue;; expect TOK_SEMI.

Definition parse_break : M unit :=
  next;; p ← placeholder Emit.jmp_placeholder; loop_add_break p;; expect TOK_SEMI.

Definition parse_continue : M unit :=
  next;;
  t ← get LOOPS;
  (if 0 <? count t then c ← lift (zget (entries t) (count t - 1)); jmp_back (continue_target c)
   else rc_error (str "continue outside loop"));;
  expect TOK_SEMI.

Definition parse_stmt_body : M unit := unless_error (
  if_tok TOK_LBRACE parse_block (
  if_tok TOK_RETURN parse_return (
  if_tok TOK_IF parse_if (
  if_tok TOK_WHILE parse_while (
  if_tok TOK_LOOP parse_loop (
  if_tok TOK_FOR parse_for (
  if_tok TOK_MATCH parse_match (
  if_tok TOK_LET parse_let (
  if_tok TOK_UNSAFE (next;; parse_block) (
  if_tok TOK_BREAK parse_break (
  if_tok TOK_CONTINUE parse_continue (
  if_tok TOK_ENUM parse_enum (
  if_tok TOK_SEMI next
  (parse_expr;; expect TOK_SEMI)))))))))))))).
End stmt.

Fixpoint parse_stmt_n (fuel : nat) : M unit :=
  match fuel with
  | O => fault
  | S fuel => parse_stmt_body (parse_stmt_n fuel)
  end.
Definition parse_stmt : M unit := fun s => parse_stmt_n (text_fuel s) s.
