(* ===== verification/ParseProg.v ===== *)
(** Top-level declarations and the whole program ([src/src/rc/parse.rs], from
    [parse_function] to [parse_program]). *)
From Stdlib Require Import String.
From S2P Require Import Prelude StringRs Lex Emit Sym ParseState ParseExpr ParseStmt.

Definition global_data_base (s : pstate) : Z := u32 (get_base (em s) + CC_CODE_MAX).

(** One parameter, the [n]th. *)
Definition parameter (n : Z) : M (bool * Z) :=
  if_tok TOK_IDENT
    (pname ← tok_name; next;; expect TOK_COLON;;
     '(ok, ptype, pis_ptr) ← parse_type 0;
     if negb ok then rc_error (str "expected parameter type");; mret (false, n) else
     sym_add (cstr pname) SYM_PARAM ptype pis_ptr (i32 (8 + n * 4)) 0;;
     set_mutable (cstr pname) true;;
     sname ← get (fun s => PARSED_STRUCT_NAME (ti s));
     when (negb (nth 0 sname 0 =? 0)) (set_sym_struct (cstr pname) (cstr sname));;
     skip_tok TOK_COMMA;; mret (true, n + 1))
    (rc_error (str "expected parameter name");; mret (false, n)).

Definition set_return_type (w : list Z) (ty ptr : Z) : M unit :=
  update_sym w (fun e => Sym (name e) (kind e) ty ptr (Sym.offset e) (addr e) (scope_depth e)
    (struct_name e) (is_mutable e)).

Definition parse_function : M unit :=
  next;;
  name_or (str "expected function name") (fun fname =>
    func_start ← pos;
    sym_add (cstr fname) SYM_FUNC TYPE_VOID 0 (i32 func_start) 0;;
    expect TOK_LPAREN;; enter_scope;;
    until TOK_RPAREN parameter 0;;
    expect TOK_RPAREN;;
    '(_, ret_type, ret_is_ptr) ← if_tok TOK_ARROW (next;; parse_type TYPE_VOID) (mret (true, TYPE_VOID, 0));
    set_return_type (cstr fname) ret_type ret_is_ptr;;
    emit (Emit.byte 0x55);; emit (Emit.byte 0x89);; emit (Emit.byte 0xE5);;
    emit (Emit.byte 0x81);; emit (Emit.byte 0xEC);;
    prologue_patch ← pos; emit (Emit.dword 0);;
    modify (set_local_offset 0);;
    parse_block parse_stmt;;
    emit (Emit.mov_reg_imm REG_EAX 0);; emit Emit.epilogue;;
    off ← local_offset;
    patch_dword prologue_patch (u32 (Z.land (i32 (i32 (- off) + 15)) (-16)));;
    leave_scope).

(** An optional minus sign. *)
Definition minus_sign : M bool := if_tok TOK_MINUS (next;; mret true) (mret false).

Definition parse_global_static : M unit :=
  next;; skip_tok TOK_MUT;;
  name_or (str "expected variable name") (fun vname =>
    expect TOK_COLON;;
    '(ok, vtype, vptr) ← parse_type 0;
    if negb ok then rc_error (str "expected type") else
    a ← get (fun s => u32 (global_data_base s + GLOBAL_OFFSET s));
    modify (fun s => set_global_offset (u32 (GLOBAL_OFFSET s + 4)) s);;
    sym_add (cstr vname) SYM_GLOBAL vtype vptr 0 a;;
    sname ← get (fun s => PARSED_STRUCT_NAME (ti s));
    when (negb (nth 0 sname 0 =? 0)) (set_sym_struct (cstr vname) (cstr sname));;
    if_tok TOK_ASSIGN
      (next;; neg ← minus_sign;
       if_tok TOK_NUM
         (n ← get (fun s => num_val (tok s)); next;; add_init a (if (neg : bool) then i32 (- n) else n))
         (rc_error (str "expected constant initializer")))
      skip_;;
    expect TOK_SEMI).

Definition parse_global_const : M unit :=
  next;;
  name_or (str "expected constant name") (fun cname =>
    expect TOK_COLON;;
    '(ok, vtype, vptr) ← parse_type 0;
    if negb ok then rc_error (str "expected type") else
    expect TOK_ASSIGN;;
    neg ← minus_sign;
    if_tok TOK_NUM
      (n ← get (fun s => num_val (tok s)); next;;
       sym_add (cstr cname) SYM_CONST vtype vptr 0 (u32 (if (neg : bool) then i32 (- n) else n));;
       expect TOK_SEMI)
      (rc_error (str "expected constant value"))).

Definition add_typedef (w : list Z) (ty ptr : Z) : M unit :=
  t ← get TYPEDEFS;
  if count t <? MAX_TYPEDEFS then
    l ← lift (zset (entries t) (count t) (Typedef (copy_name w) ty ptr));
    modify (set_typedefs (Table l (count t + 1)))
  else skip_.

Definition parse_type_alias : M unit :=
  next;;
  name_or (str "expected type alias name") (fun tname =>
    expect TOK_ASSIGN;;
    '(ok, ty, ptr) ← parse_type 0;
    if negb ok then rc_error (str "expected type") else
    add_typedef (cstr tname) ty ptr;; expect TOK_SEMI).

(** ** Structs *)

(** Replace the definition at index [p] by [f] of it. *)
Definition update_def (p : Z) (f : StructDef -> option StructDef) : M unit := fun s =>
  d ← zget (STRUCT_DEFS (sy s)) p; d ← f d; t ← zset (STRUCT_DEFS (sy s)) p d;
  Some (unit_, set_sy (Symtab (SYMBOLS (sy s)) (SYM_COUNT (sy s)) (CUR_SCOPE (sy s)) t
                         (STRUCT_DEF_COUNT (sy s)) (console (sy s))) s).

Definition struct_def_add (w : list Z) : M (option Z) := fun s =>
  let n := STRUCT_DEF_COUNT (sy s) in
  if MAX_STRUCT_DEFS <=? n
  then Some (None, set_sy (Sym.puts "rc: struct definition table full" (sy s)) s)
  else
    '(_, s) ← update_def n (fun d => Some (Def (copy_name w) (fields d) 0 0)) s;
    Some (Some n, set_sy (Symtab (SYMBOLS (sy s)) (SYM_COUNT (sy s)) (CUR_SCOPE (sy s)) (STRUCT_DEFS (sy s))
                            (n + 1) (console (sy s))) s).

Definition add_field (p : Z) (w : list Z) (ty ptr off : Z) : M unit :=
  update_def p (fun d =>
    l ← zset (fields d) (field_count d) (Field (copy_name w) ty ptr off 4);
    Some (Def (d_name d) l (field_count d + 1) (Sym.size d))).

(** One field, at offset [foffset]. *)
Definition struct_field (p foffset : Z) : M (bool * Z) :=
  if_tok TOK_IDENT
    (fname ← tok_name; next;; expect TOK_COLON;;
     '(ok, ftype, fptr) ← parse_type 0;
     if negb ok then rc_error (str "expected field type");; mret (false, foffset) else
     d ← get (fun s => zget (STRUCT_DEFS (sy s)) p); d ← lift d;
     if MAX_STRUCT_FIELDS <=? field_count d
     then rc_error (str "too many struct fields");; mret (false, foffset)
     else
       add_field p (cstr fname) ftype fptr foffset;;
       skip_tok TOK_COMMA;; mret (true, foffset + 4))
    (rc_error (str "expected field name");; mret (false, foffset)).

Definition struct_size (foffset : Z) : Z :=
  if negb (Z.rem foffset 4 =? 0) then Z.land (i32 (foffset + 3)) (-4) else foffset.

Definition parse_struct_def : M unit :=
  next;;
  name_or (str "expected struct name") (fun sname =>
    d ← struct_def_add (cstr sname);
    match d with
    | None => skip_
    | Some p =>
        expect TOK_LBRACE;;
        foffset ← until TOK_RBRACE (struct_field p) 0;
        update_def p (fun d => Some (Def (d_name d) (fields d) (field_count d) (struct_size foffset)));;
        expect TOK_RBRACE
    end).

(** ** The program *)

(** What [parse_program] resets. *)
Definition reset_state (s : pstate) : option pstate :=
  t ← zset (entries (TYPEDEFS s)) 0 (Typedef (copy_name (str "uint8")) TYPE_CHAR 0);
  Some (PState (lx s) (em s) (sy s) (ex s) (ti s) (Table t 1) (Table (entries (FIXUPS s)) 0)
          (Table (entries (GLOBAL_INITS s)) 0) (Table (entries (STRINGS s)) 0) (Table (entries (LOOPS s)) 0)
          false 0 0).

Definition at_top (s : pstate) : bool := negb (at_tok TOK_EOF s) && negb (HAD_ERROR s).
Definition top_msg : list Z := str "expected fn, struct, enum, static, const, or type at top level".

(** One declaration: whether to go on. *)
Definition declaration : M bool :=
  if_tok TOK_FN (parse_function;; mret true) (
  if_tok TOK_STRUCT (parse_struct_def;; mret true) (
  if_tok TOK_ENUM (parse_enum;; mret true) (
  if_tok TOK_STATIC (parse_global_static;; mret true) (
  if_tok TOK_CONST (parse_global_const;; mret true) (
  if_tok TOK_TYPE (parse_type_alias;; mret true) (
  if_tok TOK_UNSAFE (next;; mret true)
  (rc_error top_msg;; mret false))))))).
Definition declarations : M unit :=
  loop (fun _ => b ← get at_top; if (b : bool) then go ← declaration; mret (go, unit_) else mret (false, unit_)) unit_.

(** Patch the calls of functions that were not yet defined; whether all are. *)
Fixpoint resolve (l : list Fixup) : M bool :=
  match l with
  | [] => mret true
  | f :: l =>
      e ← lookup (cstr (fx_name f));
      match e with
      | None => puts (str "rc: undefined function: " ++ cstr (fx_name f) ++ [10]);; mret false
      | Some e =>
          patch_dword (fx_patch_pos f) (call_disp (u32 (Sym.offset e)) (fx_patch_pos f));; resolve l
      end
  end.

Definition emit_bytes (l : list Z) : M unit := emit (Emit.bytes l).

(** Append the string literals and patch their addresses. *)
Fixpoint place_strings (l : list StringEntry) : M unit :=
  match l with
  | [] => skip_
  | e :: l =>
      a ← get (fun s => u32 (get_base (em s) + Emit.pos (em s)));
      emit_bytes (take (Z.to_nat (len e)) (text e));; emit (Emit.byte 0);;
      patch_dword (st_patch_pos e) a;; place_strings l
  end.

Fixpoint store_inits (l : list GlobalInit) : M unit :=
  match l with
  | [] => skip_
  | g :: l =>
      emit (Emit.mov_reg_imm REG_EAX (u32 (gi_value g)));; emit (Emit.store_global (gi_addr g) REG_EAX);;
      store_inits l
  end.

Definition used {A} (t : table A) : list A := take (Z.to_nat (count t)) (entries t).

(** The entry code: stores, call of main, return. *)
Definition emit_entry (main_call_patch : Z) : M Z :=
  init_pos ← pos;
  t ← get GLOBAL_INITS; store_inits (used t);;
  m ← lookup (str "main");
  match m with
  | None => rc_error (str "undefined reference to 'main'");; mret (-1)
  | Some e =>
      emit (Emit.byte 0xE8);; call_patch ← pos; emit (Emit.dword 0);; emit Emit.ret;;
      patch_dword call_patch (call_disp (u32 (Sym.offset e)) call_patch);;
      patch_dword main_call_patch (call_disp init_pos main_call_patch);;
      mret 0
  end.

Definition parse_program : M Z :=
  (fun s => s ← reset_state s; Some (unit_, s));;
  emit (Emit.byte 0xE9);; main_call_patch ← pos; emit (Emit.dword 0);;
  declarations;;
  err ← get (fun s => HAD_ERROR s || had_error (lx s));
  if (err : bool) then mret (-1) else
  t ← get FIXUPS; resolved ← resolve (used t);
  if negb (resolved : bool) then mret (-1) else
  t ← get STRINGS; place_strings (used t);;
  emit_entry main_call_patch.

(** ** What the driver sets up ([rc_compile] of [src/src/rc/mod.rs])

    The emitter, the symbol table and the lexer are initialised and the first
    token is read; the parser's tables are as an earlier compilation left them. *)
Definition set_up (builtin_addr : string -> Z) (source : list Z) (s : pstate) : option pstate :=
  t ← Sym.init builtin_addr (sy s);
  l ← Lex.next (Lex.init source (out (lx s)));
  Some (set_lx l (set_sy t (set_em (Emit.init (em s)) s))).

Definition compile_text (builtin_addr : string -> Z) (source : list Z) (s : pstate) : option (Z * pstate) :=
  s ← set_up builtin_addr source s; parse_program s.
