(* ===== verification/ParseWp.v ===== *)
(** Weakest preconditions for the parser's monad, the invariant of its state and
    the specifications of its primitives, from which [ParseTotal] proves that the
    parser always returns. *)
From Stdlib Require Import String.
From S2P Require Import Prelude StringRs Lex Emit Sym ParseState ParseExpr.

(** ** Weakest preconditions *)

Definition wp {A} (m : M A) (Q : A -> pstate -> Prop) (s : pstate) : Prop :=
  exists x s', m s = Some (x, s') /\ Q x s'.

Section rules.
Context {A : Type}.
Implicit Types (Q : A -> pstate -> Prop) (s : pstate).

Lemma wp_ret (x : A) Q s : Q x s -> wp (mret x) Q s.
Proof. by exists x, s. Qed.

Lemma wp_bind {B} (m : M B) (k : B -> M A) Q s : wp m (fun x => wp (k x) Q) s -> wp (m ≫= k) Q s.
Proof.
  intros (x & s1 & E & y & s2 & E2 & HQ). exists y, s2. split; [| done].
  unfold mbind, M_bind. rewrite E. exact E2.
Qed.

Lemma wp_mono (m : M A) (P Q : A -> pstate -> Prop) s : wp m P s -> (forall x s', P x s' -> Q x s') -> wp m Q s.
Proof. intros (x & s' & E & HP) H. exists x, s'. auto. Qed.

Lemma wp_get (f : pstate -> A) Q s : Q (f s) s -> wp (get f) Q s.
Proof. by exists (f s), s. Qed.

Lemma wp_lift (o : option A) x Q s : o = Some x -> Q x s -> wp (lift o) Q s.
Proof. intros -> HQ. by exists x, s. Qed.

Lemma wp_if_tok t (a b : M A) Q s :
  (at_tok t s = true -> wp a Q s) -> (at_tok t s = false -> wp b Q s) -> wp (if_tok t a b) Q s.
Proof. intros Ha Hb. unfold wp, if_tok. destruct (at_tok t s); [by apply Ha | by apply Hb]. Qed.
End rules.

Lemma wp_modify f (Q : unit -> pstate -> Prop) s : Q unit_ (f s) -> wp (modify f) Q s.
Proof. by exists unit_, (f s). Qed.

Lemma wp_unless m (Q : unit -> pstate -> Prop) s :
  (HAD_ERROR s = true -> Q unit_ s) -> (HAD_ERROR s = false -> wp m Q s) -> wp (unless_error m) Q s.
Proof.
  intros Hq Hm. unfold wp, unless_error. destruct (HAD_ERROR s); [exists unit_, s; auto | by apply Hm].
Qed.

Lemma wp_when b m (Q : unit -> pstate -> Prop) s :
  (b = true -> wp m Q s) -> (b = false -> Q unit_ s) -> wp (when b m) Q s.
Proof. destruct b; intros Ht Hf; [by apply Ht |]. apply wp_ret. by apply Hf. Qed.

(** A recursion whose fuel is the text that is left. *)
Lemma wp_fuel {A} (f : nat -> M A) Q s : wp (f (text_fuel s)) Q s -> wp (fun s => f (text_fuel s) s) Q s.
Proof. done. Qed.

(** ** What is left to read

    [left] is the number of characters not yet read, [live] is 1 unless the
    current token is the end of the file, and [noerr] is 1 until an error is
    reported.  None of their sums grows. *)

Definition left (s : pstate) : nat := List.length (unread_text s).
Definition live (s : pstate) : nat := if at_tok TOK_EOF s then 0 else 1.
Definition rem (s : pstate) : nat := (left s + live s)%nat.
Definition noerr (s : pstate) : nat := if HAD_ERROR s then 0 else 1.

Lemma live_le s : (live s <= 1)%nat.
Proof. unfold live. case_if; lia. Qed.
Lemma noerr_le s : (noerr s <= 1)%nat.
Proof. unfold noerr. case_if; lia. Qed.
Lemma live_eof s : at_tok TOK_EOF s = true -> live s = 0%nat.
Proof. unfold live. by intros ->. Qed.
Lemma live_not_eof s : at_tok TOK_EOF s = false -> live s = 1%nat.
Proof. unfold live. by intros ->. Qed.
Lemma live_tok t s : at_tok t s = true -> t <> TOK_EOF -> live s = 1%nat.
Proof.
  unfold live, at_tok. intros Ht%bool_decide_eq_true Hne. rewrite Ht. by rewrite bool_decide_false.
Qed.
Lemma noerr_true s : HAD_ERROR s = true -> noerr s = 0%nat.
Proof. unfold noerr. by intros ->. Qed.
Lemma noerr_false s : HAD_ERROR s = false -> noerr s = 1%nat.
Proof. unfold noerr. by intros ->. Qed.

(** ** The invariant *)

Definition place (p : Z) : Prop := 0 <= p <= CC_CODE_MAX.

Record table_ok {A} (max : Z) (P : A -> Prop) (t : table A) : Prop := {
  table_len : Z.of_nat (List.length (entries t)) = max;
  table_count : 0 <= count t <= max;
  table_all : Forall P (entries t) }.

Definition fixup_ok (f : Fixup) : Prop := place (fx_patch_pos f).
Definition string_ok (e : StringEntry) : Prop := List.length (text e) = 128%nat /\ place (st_patch_pos e).
Definition loop_ok (c : LoopCtx) : Prop :=
  Z.of_nat (List.length (break_patches c)) = MAX_BREAKS /\ 0 <= break_count c <= MAX_BREAKS /\
  Forall place (break_patches c).
Definition def_ok (d : StructDef) : Prop :=
  Z.of_nat (List.length (fields d)) = MAX_STRUCT_FIELDS /\ 0 <= field_count d <= MAX_STRUCT_FIELDS.

Record syms_ok (t : symtab) : Prop := {
  syms_len : Z.of_nat (List.length (SYMBOLS t)) = MAX_SYMBOLS;
  syms_count : 0 <= SYM_COUNT t <= MAX_SYMBOLS;
  defs_len : Z.of_nat (List.length (STRUCT_DEFS t)) = MAX_STRUCT_DEFS;
  defs_count : 0 <= STRUCT_DEF_COUNT t <= MAX_STRUCT_DEFS;
  defs_ok : Forall def_ok (STRUCT_DEFS t) }.

Record ok (s : pstate) : Prop := {
  ok_lx : Lex.wf (lx s); ok_em : Emit.wf (em s); ok_sy : syms_ok (sy s);
  ok_typedefs : table_ok MAX_TYPEDEFS (fun _ => True) (TYPEDEFS s);
  ok_fixups : table_ok MAX_FIXUPS fixup_ok (FIXUPS s);
  ok_inits : table_ok MAX_GLOBAL_INITS (fun _ => True) (GLOBAL_INITS s);
  ok_strings : table_ok MAX_STRINGS string_ok (STRINGS s);
  ok_loops : table_ok MAX_LOOP_DEPTH loop_ok (LOOPS s) }.

(** From [s] to [s']: the invariant holds and nothing unread has come back. *)
Definition post (s s' : pstate) : Prop :=
  ok s' /\ (left s' <= left s)%nat /\ (rem s' <= rem s)%nat /\ (noerr s' <= noerr s)%nat.

Lemma post_refl s : ok s -> post s s.
Proof. intros. split; [done | lia]. Qed.
Lemma post_trans s1 s2 s3 : post s1 s2 -> post s2 s3 -> post s1 s3.
Proof. intros (_ & ? & ? & ?) (? & ? & ? & ?). split; [done | lia]. Qed.
Lemma post_ok s s' : post s s' -> ok s'.
Proof. by intros [? _]. Qed.

(** A change that touches neither the text nor the error flag. *)
Lemma post_same s s' : ok s' -> lx s' = lx s -> HAD_ERROR s' = HAD_ERROR s -> post s s'.
Proof.
  intros Ho El Ee. split; [done |].
  unfold left, rem, noerr, live, unread_text, at_tok, tok. unfold left, unread_text. rewrite El, Ee. lia.
Qed.

(** ** Tables *)

Lemma table_get {A} max P (t : table A) i :
  table_ok max P t -> 0 <= i < max -> exists x, zget (entries t) i = Some x /\ P x.
Proof.
  intros [Hl _ Hp] Hi. destruct (zget_Some (entries t) i) as [x E]; [lia |]. exists x. split; [done |].
  unfold zget in E. case_if_in E; [done |]. by apply (Forall_lookup_1 _ _ _ _ Hp E).
Qed.

Lemma table_set {A} max P (t : table A) i x n :
  table_ok max P t -> 0 <= i < max -> P x -> 0 <= n <= max ->
  exists l, zset (entries t) i x = Some l /\ table_ok max P (Table l n).
Proof.
  intros [Hl Hc Hp] Hi Hx Hn. rewrite zset_Some by lia. eexists. split; [done |].
  split; cbn; [by rewrite length_insert | done |]. by apply Forall_insert.
Qed.

Lemma table_count_ok {A} max P (t : table A) n :
  table_ok max P t -> 0 <= n <= max -> table_ok max P (Table (entries t) n).
Proof. by intros [? ? ?] ?. Qed.

(** ** The lexer *)

Lemma keep_lx s l : ok s -> Lex.wf l -> ok (set_lx l s).
Proof. by intros [] ?. Qed.

Lemma expect_next (t : tok_type) (l : lexer) : exists l1, Lex.expect t l = Lex.next l1 /\
  SRC l1 = SRC l /\ POS l1 = POS l /\ CUR_TOK l1 = CUR_TOK l.
Proof. unfold Lex.expect. case_decide; eexists; (split; [done |]); done. Qed.

(** [next] and [expect] read a token, unless the file is at its end. *)
Definition read_post (s s' : pstate) : Prop := post s s' /\ (rem s' + live s <= rem s)%nat.

Lemma read_total l s : ok s -> SRC l = SRC (lx s) -> POS l = POS (lx s) -> CUR_TOK l = CUR_TOK (lx s) ->
  exists l', Lex.next l = Some l' /\ read_post s (set_lx l' s).
Proof.
  intros Ho Es Ep Et. pose proof (ok_lx s Ho) as [Hp Hs Hn].
  assert (Hw : Lex.wf l) by (split; unfold SRC_LEN; rewrite ?Es, ?Ep, ?Et; done).
  destruct (next_progress l Hw) as (l' & E & Esrc & Hw' & Hpos & Hprog). exists l'. split; [done |].
  assert (Hl : left s = (SRC_LEN l - POS l)%nat).
  { unfold left, unread_text. rewrite length_unread. unfold SRC_LEN. by rewrite Es, Ep. }
  assert (Hl' : left (set_lx l' s) = (SRC_LEN l - POS l')%nat).
  { unfold left, unread_text. cbn. rewrite length_unread. unfold SRC_LEN. by rewrite Esrc. }
  assert (Hlive : (live (set_lx l' s) = 0 /\ POS l' = SRC_LEN l \/ POS l < POS l')%nat).
  { destruct Hprog as [[Ht He] |]; [left | by right]. split; [| done].
    apply live_eof. unfold at_tok, tok. cbn. unfold peek. by rewrite Ht. }
  pose proof (live_le s). pose proof (live_le (set_lx l' s)).
  split; [split |]; [by apply keep_lx | | unfold rem; rewrite Hl, Hl'; lia].
  unfold rem. rewrite Hl, Hl'. change (noerr (set_lx l' s)) with (noerr s). lia.
Qed.

Lemma next_wp s : ok s -> wp next (fun _ => read_post s) s.
Proof.
  intros Ho. destruct (read_total (lx s) s Ho) as (l' & E & Hr); try done.
  exists unit_, (set_lx l' s). split; [| done]. unfold next. by rewrite E.
Qed.

Lemma expect_wp t s : ok s -> wp (expect t) (fun _ => read_post s) s.
Proof.
  intros Ho. destruct (expect_next t (lx s)) as (l1 & E1 & Es & Ep & Et).
  destruct (read_total l1 s Ho Es Ep Et) as (l' & E & Hr).
  exists unit_, (set_lx l' s). split; [| done]. unfold expect. by rewrite E1, E.
Qed.

(** ** The emitter *)

Definition emit_ok (f : emitter -> emitter) : Prop := forall e, Emit.wf e -> Emit.wf (f e).

Lemma byte_ok b : emit_ok (Emit.byte b).
Proof. intros e He. by destruct (byte_spec b e He). Qed.
Lemma dword_ok d : emit_ok (Emit.dword d).
Proof. intros e He. unfold dword. by repeat apply byte_ok. Qed.
Lemma bytes_ok l : emit_ok (Emit.bytes l).
Proof. intros e He. by destruct (bytes_spec l e He). Qed.

Create HintDb emit discriminated.
#[export] Hint Constants Opaque : emit.
#[export] Hint Resolve byte_ok dword_ok bytes_ok : emit.

(** Unfold an instruction into its bytes. *)
Ltac emit_bytes_ok :=
  intros e He; unfold mov_reg_imm, mov_reg_reg, load_local, store_local, load_global, store_global,
    load_indirect, load_indirect_byte, store_indirect, store_indirect_byte, indirect, push_reg, pop_reg,
    Emit.add, Emit.sub, Emit.imul, idiv_ecx, Emit.neg, Emit.not, Emit.and, Emit.or, Emit.xor, Emit.shl, Emit.shr,
    Emit.cmp, setcc, call_abs, mov_reg_imm, Emit.ret, jmp_rel, epilogue, add_esp, cmp_eax_imm, movzx_eax_al;
  repeat case_if; repeat (apply byte_ok || apply dword_ok); done.

Lemma mov_imm_ok r v : emit_ok (mov_reg_imm r v). Proof. emit_bytes_ok. Qed.
Lemma mov_reg_ok a b : emit_ok (mov_reg_reg a b). Proof. emit_bytes_ok. Qed.
Lemma load_local_ok r o : emit_ok (load_local r o). Proof. emit_bytes_ok. Qed.
Lemma store_local_ok o r : emit_ok (store_local o r). Proof. emit_bytes_ok. Qed.
Lemma load_global_ok r a : emit_ok (load_global r a). Proof. emit_bytes_ok. Qed.
Lemma store_global_ok a r : emit_ok (store_global a r). Proof. emit_bytes_ok. Qed.
Lemma load_ind_ok a b : emit_ok (load_indirect a b). Proof. emit_bytes_ok. Qed.
Lemma load_ind_byte_ok a b : emit_ok (load_indirect_byte a b). Proof. emit_bytes_ok. Qed.
Lemma store_ind_ok a b : emit_ok (store_indirect a b). Proof. emit_bytes_ok. Qed.
Lemma store_ind_byte_ok a b : emit_ok (store_indirect_byte a b). Proof. emit_bytes_ok. Qed.
Lemma push_ok r : emit_ok (push_reg r). Proof. emit_bytes_ok. Qed.
Lemma pop_ok r : emit_ok (pop_reg r). Proof. emit_bytes_ok. Qed.
Lemma add_ok a b : emit_ok (Emit.add a b). Proof. emit_bytes_ok. Qed.
Lemma sub_ok a b : emit_ok (Emit.sub a b). Proof. emit_bytes_ok. Qed.
Lemma imul_ok a b : emit_ok (Emit.imul a b). Proof. emit_bytes_ok. Qed.
Lemma idiv_ok : emit_ok idiv_ecx. Proof. emit_bytes_ok. Qed.
Lemma neg_ok r : emit_ok (Emit.neg r). Proof. emit_bytes_ok. Qed.
Lemma not_ok r : emit_ok (Emit.not r). Proof. emit_bytes_ok. Qed.
Lemma and_ok a b : emit_ok (Emit.and a b). Proof. emit_bytes_ok. Qed.
Lemma or_ok a b : emit_ok (Emit.or a b). Proof. emit_bytes_ok. Qed.
Lemma xor_ok a b : emit_ok (Emit.xor a b). Proof. emit_bytes_ok. Qed.
Lemma shl_ok r : emit_ok (Emit.shl r). Proof. emit_bytes_ok. Qed.
Lemma shr_ok r : emit_ok (Emit.shr r). Proof. emit_bytes_ok. Qed.
Lemma cmp_ok a b : emit_ok (Emit.cmp a b). Proof. emit_bytes_ok. Qed.
Lemma setcc_ok c r : emit_ok (setcc c r). Proof. emit_bytes_ok. Qed.
Lemma call_abs_ok a : emit_ok (call_abs a). Proof. emit_bytes_ok. Qed.
Lemma ret_ok : emit_ok Emit.ret. Proof. emit_bytes_ok. Qed.
Lemma jmp_rel_ok n : emit_ok (jmp_rel n). Proof. emit_bytes_ok. Qed.
Lemma epilogue_ok : emit_ok epilogue. Proof. emit_bytes_ok. Qed.
Lemma add_esp_ok n : emit_ok (add_esp n). Proof. emit_bytes_ok. Qed.
Lemma cmp_imm_ok n : emit_ok (cmp_eax_imm n). Proof. emit_bytes_ok. Qed.
Lemma movzx_ok : emit_ok movzx_eax_al. Proof. emit_bytes_ok. Qed.
Lemma if_emit_ok (b : bool) f g : emit_ok f -> emit_ok g -> emit_ok (if b then f else g).
Proof. by destruct b. Qed.
#[export] Hint Resolve mov_imm_ok mov_reg_ok load_local_ok store_local_ok load_global_ok store_global_ok load_ind_ok
  load_ind_byte_ok store_ind_ok store_ind_byte_ok push_ok pop_ok add_ok sub_ok imul_ok idiv_ok neg_ok not_ok and_ok
  or_ok xor_ok shl_ok shr_ok cmp_ok setcc_ok call_abs_ok ret_ok jmp_rel_ok epilogue_ok add_esp_ok cmp_imm_ok
  movzx_ok if_emit_ok : emit.

Lemma keep_em s e : ok s -> Emit.wf e -> post s (set_em e s).
Proof. intros Ho He. apply post_same; [by destruct Ho | done | done]. Qed.

Lemma emit_wp f s : ok s -> emit_ok f -> wp (emit f) (fun _ => post s) s.
Proof. intros Ho Hf. apply wp_modify, keep_em; [done |]. apply Hf, Ho. Qed.

Lemma place_pos e : Emit.wf e -> place (Emit.pos e).
Proof. by intros []. Qed.

Lemma pos_wp s : ok s -> wp pos (fun p s' => s' = s /\ place p) s.
Proof. intros Ho. apply wp_get. split; [done |]. apply place_pos, Ho. Qed.

(** A placeholder gives a place and keeps the buffer. *)
Definition place_ok (f : emitter -> Z * emitter) : Prop :=
  forall e, Emit.wf e -> place (f e).1 /\ Emit.wf (f e).2.
Lemma jmp_place_ok : place_ok jmp_placeholder.
Proof. intros e He. unfold jmp_placeholder. cbn. split; [by apply place_pos, byte_ok |]. by apply dword_ok, byte_ok. Qed.
Lemma jcc_place_ok cc : place_ok (jcc_placeholder cc).
Proof.
  intros e He. unfold jcc_placeholder. cbn. split; [by apply place_pos; repeat apply byte_ok |].
  by apply dword_ok; repeat apply byte_ok.
Qed.
#[export] Hint Resolve jmp_place_ok jcc_place_ok : emit.

Lemma placeholder_wp f s : ok s -> place_ok f -> wp (placeholder f) (fun p s' => post s s' /\ place p) s.
Proof.
  intros Ho Hf. destruct (Hf (em s) (ok_em s Ho)) as [Hp He]. destruct (f (em s)) as [p e] eqn:E.
  exists p, (set_em e s). split; [unfold placeholder; by rewrite E |]. split; [by apply keep_em | done].
Qed.

Lemma patch_total p v e : Emit.wf e -> place p -> exists e', Emit.patch_dword p v e = Some e' /\ Emit.wf e'.
Proof.
  intros [Hl Hp] Hpl. unfold place, CC_CODE_MAX in *. unfold Emit.patch_dword, CC_CODE_MAX.
  rewrite u32_small by lia. destruct (Z.leb_spec (p + 4) 65536); [| by exists e].
  rewrite !u32_small, zset_Some by lia. cbn [mbind option_bind].
  rewrite zset_Some by (rewrite length_insert; lia). cbn [mbind option_bind].
  rewrite zset_Some by (rewrite !length_insert; lia). cbn [mbind option_bind].
  rewrite zset_Some by (rewrite !length_insert; lia). cbn [mbind option_bind].
  eexists. split; [done |]. split; cbn [CODE_BUF CODE_POS]; unfold CC_CODE_MAX; rewrite ?length_insert; lia.
Qed.

Lemma patch_dword_wp p v s : ok s -> place p -> wp (patch_dword p v) (fun _ => post s) s.
Proof.
  intros Ho Hp. destruct (patch_total p v (em s) (ok_em s Ho) Hp) as (e & E & He).
  exists unit_, (set_em e s). split; [unfold patch_dword; by rewrite E |]. by apply keep_em.
Qed.

Lemma patch_here_wp p s : ok s -> place p -> wp (patch_here p) (fun _ => post s) s.
Proof. intros Ho Hp. apply wp_bind, wp_get. by apply patch_dword_wp. Qed.

Lemma jmp_back_wp p s : ok s -> wp (jmp_back p) (fun _ => post s) s.
Proof. intros Ho. apply wp_bind, wp_get. apply emit_wp; auto with emit. Qed.

Lemma patch_all_wp l s : ok s -> Forall place l -> wp (patch_all l) (fun _ => post s) s.
Proof.
  intros Ho Hl. revert s Ho. induction Hl as [| p l Hp Hl IH]; intros s Ho; [by apply wp_ret, post_refl |].
  apply wp_bind. eapply wp_mono; [by apply patch_here_wp |]. cbv beta. intros _ s1 H1.
  eapply wp_mono; [by apply IH, H1 |]. cbv beta. intros _ s2 H2. by eapply post_trans.
Qed.

(** ** The symbol table *)

Lemma keep_sy s t : ok s -> syms_ok t -> post s (set_sy t s).
Proof. intros Ho Ht. apply post_same; [by destruct Ho | done | done]. Qed.

Lemma lookup_loop_total w t fuel : forall i, syms_ok t -> -1 <= i < SYM_COUNT t -> i < Z.of_nat fuel - 1 ->
  exists p, lookup_loop fuel w i t = Some p /\ from_option (fun p => 0 <= p < SYM_COUNT t) True p.
Proof.
  induction fuel as [| fuel IH]; intros i Hs Hi Hf; [lia |]. cbn [lookup_loop].
  destruct (Z.leb_spec 0 i); [| by exists None].
  destruct (zget_Some (SYMBOLS t) i) as [e E]; [destruct Hs; lia |]. rewrite E. cbn [mbind option_bind].
  case_if; [exists (Some i); cbn; split; [done | lia] |]. apply IH; [done | lia | lia].
Qed.

Lemma sym_lookup_total w t : syms_ok t ->
  exists p, Sym.lookup w t = Some p /\ from_option (fun p => 0 <= p < Z.of_nat (List.length (SYMBOLS t))) True p.
Proof.
  intros Hs. destruct (lookup_loop_total w t (S (Z.to_nat (SYM_COUNT t))) (SYM_COUNT t - 1) Hs) as (p & E & Hp);
    [destruct Hs; lia | destruct Hs; lia |].
  exists p. split; [done |]. destruct p; [| done]. cbn in *. destruct Hs. lia.
Qed.

Lemma lookup_wp w s : ok s -> wp (lookup w) (fun _ s' => s' = s) s.
Proof.
  intros Ho. destruct (sym_lookup_total w (sy s) (ok_sy s Ho)) as (p & E & Hp).
  destruct p as [p |]; cbn in Hp.
  - destruct (zget_Some (SYMBOLS (sy s)) p Hp) as [e Ee]. exists (Some e), s.
    unfold lookup. rewrite E. cbn [mbind option_bind]. rewrite Ee. done.
  - exists None, s. unfold lookup. rewrite E. done.
Qed.

Lemma update_sym_wp w f s : ok s -> wp (update_sym w f) (fun _ => post s) s.
Proof.
  intros Ho. pose proof (ok_sy s Ho) as Hs. destruct (sym_lookup_total w (sy s) Hs) as (p & E & Hp).
  destruct p as [p |]; cbn in Hp.
  - destruct (zget_Some (SYMBOLS (sy s)) p Hp) as [e Ee]. eexists _, _.
    unfold update_sym. rewrite E. cbn [mbind option_bind]. rewrite Ee. cbn [mbind option_bind].
    rewrite zset_Some by done. split; [done |]. apply keep_sy; [done |]. destruct Hs. split; cbn; try done.
    by rewrite length_insert.
  - exists unit_, s. unfold update_sym. rewrite E. split; [done | by apply post_refl].
Qed.

Lemma sym_add_total w k ty ptr off a t : syms_ok t ->
  exists r t', Sym.add w k ty ptr off a t = Some (r, t') /\ syms_ok t'.
Proof.
  intros Hs. unfold Sym.add. destruct (Z.leb_spec MAX_SYMBOLS (SYM_COUNT t)).
  - eexists _, _. split; [done |]. by destruct Hs.
  - destruct Hs. destruct (zget_Some (SYMBOLS t) (SYM_COUNT t)) as [e Ee]; [lia |].
    rewrite Ee. cbn [mbind option_bind]. rewrite zset_Some by lia. cbn [mbind option_bind].
    eexists _, _. split; [done |]. split; cbn; try done; [by rewrite length_insert | lia].
Qed.

Lemma sym_add_wp w k ty ptr off a s : ok s -> wp (sym_add w k ty ptr off a) (fun _ => post s) s.
Proof.
  intros Ho. destruct (sym_add_total w k ty ptr off a (sy s) (ok_sy s Ho)) as (r & t & E & Ht).
  exists unit_, (set_sy t s). split; [unfold sym_add; by rewrite E |]. by apply keep_sy.
Qed.

Lemma enter_scope_wp s : ok s -> wp enter_scope (fun _ => post s) s.
Proof. intros Ho. apply wp_modify. apply keep_sy; [done |]. by destruct (ok_sy s Ho). Qed.

Lemma leave_loop_total fuel : forall t, syms_ok t -> SYM_COUNT t < Z.of_nat fuel ->
  exists t', leave_loop fuel t = Some t' /\ syms_ok t'.
Proof.
  induction fuel as [| fuel IH]; intros t Hs Hf; [destruct Hs; lia |]. cbn [leave_loop].
  destruct (Z.ltb_spec 0 (SYM_COUNT t)); [| by exists t].
  destruct (zget_Some (SYMBOLS t) (SYM_COUNT t - 1)) as [e E]; [destruct Hs; lia |]. rewrite E.
  cbn [mbind option_bind]. case_if; [| by exists t]. apply IH; [| cbn; lia]. destruct Hs. split; cbn; done || lia.
Qed.

Lemma leave_scope_wp s : ok s -> wp leave_scope (fun _ => post s) s.
Proof.
  intros Ho. pose proof (ok_sy s Ho) as Hs.
  destruct (leave_loop_total (S (Z.to_nat (SYM_COUNT (sy s)))) (sy s) Hs) as (t & E & Ht); [destruct Hs; lia |].
  eexists unit_, _. unfold leave_scope, Sym.leave_scope. rewrite E. split; [done |].
  apply keep_sy; [done |]. case_if; [| done]. by destruct Ht.
Qed.

Lemma defs_get t p : syms_ok t -> 0 <= p < MAX_STRUCT_DEFS ->
  exists d, zget (STRUCT_DEFS t) p = Some d /\ def_ok d.
Proof.
  intros Hs Hp. apply (table_get MAX_STRUCT_DEFS def_ok (Table (STRUCT_DEFS t) (STRUCT_DEF_COUNT t))); [| done].
  by destruct Hs.
Qed.

Lemma struct_loop_total w t n : forall i, syms_ok t -> 0 <= i -> i + Z.of_nat n <= MAX_STRUCT_DEFS ->
  exists p, struct_loop n w i t = Some p /\ from_option (fun p => 0 <= p < i + Z.of_nat n) True p.
Proof.
  induction n as [| n IH]; intros i Hs Hi Hn; [by exists None |]. cbn [struct_loop].
  destruct (defs_get t i Hs) as (d & -> & _); [lia |]. cbn [mbind option_bind].
  case_if; [exists (Some i); cbn; split; [done | lia] |].
  destruct (IH (i + 1) Hs) as (p & -> & Hp); [lia | lia |]. exists p. split; [done |].
  destruct p; cbn in *; [lia | done].
Qed.

Definition def_index (p : option Z) : Prop := from_option (fun p => 0 <= p < MAX_STRUCT_DEFS) True p.

Lemma struct_def_lookup_wp w s : ok s -> wp (struct_def_lookup w) (fun p s' => s' = s /\ def_index p) s.
Proof.
  intros Ho. pose proof (ok_sy s Ho) as Hs.
  destruct (struct_loop_total w (sy s) (Z.to_nat (STRUCT_DEF_COUNT (sy s))) 0 Hs) as (p & E & Hp);
    [lia | destruct Hs; lia |].
  exists p, s. unfold struct_def_lookup, Sym.struct_def_lookup. rewrite E. split; [done |].
  split; [done |]. destruct p; cbn in *; [| done]. destruct Hs. lia.
Qed.

Lemma field_loop_total w d n : forall i, def_ok d -> 0 <= i -> i + Z.of_nat n <= MAX_STRUCT_FIELDS ->
  exists p, field_loop n w i d = Some p /\ from_option (fun p => 0 <= p < i + Z.of_nat n) True p.
Proof.
  induction n as [| n IH]; intros i Hs Hi Hn; [by exists None |]. cbn [field_loop].
  destruct (zget_Some (fields d) i) as [f ->]; [destruct Hs; lia |]. cbn [mbind option_bind].
  case_if; [exists (Some i); cbn; split; [done | lia] |].
  destruct (IH (i + 1) Hs) as (p & -> & Hp); [lia | lia |]. exists p. split; [done |].
  destruct p; cbn in *; [lia | done].
Qed.

Lemma struct_field_lookup_wp d w s : ok s -> def_index d -> wp (struct_field_lookup d w) (fun _ s' => s' = s) s.
Proof.
  intros Ho Hd. unfold wp, struct_field_lookup, Sym.struct_field_lookup. destruct d as [d |]; cbn in Hd.
  - destruct (defs_get (sy s) d (ok_sy s Ho) Hd) as (e & -> & He). cbn [mbind option_bind].
    destruct (field_loop_total w e (Z.to_nat (field_count e)) 0 He) as (p & -> & Hp); [lia | destruct He; lia |].
    cbn [mbind option_bind]. destruct p as [p |]; cbn in Hp.
    + destruct (zget_Some (fields e) p) as [f ->]; [destruct He; lia |]. eexists _, _. done.
    + eexists _, _. done.
  - eexists _, _. done.
Qed.

(** ** Typedefs, errors and the other tables *)

Lemma typedef_loop_total w l n : forall i, 0 <= i -> i + Z.of_nat n <= Z.of_nat (List.length l) ->
  exists p, typedef_loop n w i l = Some p.
Proof.
  induction n as [| n IH]; intros i Hi Hn; [by exists None |]. cbn [typedef_loop].
  destruct (zget_Some l i) as [f ->]; [lia |]. cbn [mbind option_bind].
  case_if; [by eexists |]. apply IH; lia.
Qed.

Lemma find_typedef_wp w s : ok s -> wp (find_typedef w) (fun _ s' => s' = s) s.
Proof.
  intros Ho. destruct (ok_typedefs s Ho) as [Hl Hc _].
  destruct (typedef_loop_total w (entries (TYPEDEFS s)) (Z.to_nat (count (TYPEDEFS s))) 0) as (p & E); [lia | lia |].
  exists p, s. unfold find_typedef. rewrite E. done.
Qed.

Lemma puts_wp l s : ok s -> wp (puts l) (fun _ => post s) s.
Proof.
  intros Ho. apply wp_modify. split; [apply keep_lx; [done |]; by destruct (ok_lx s Ho) |].
  by change (left (set_lx (print l (lx s)) s)) with (left s).
Qed.

(** An error leaves the text alone and sets the flag. *)
Lemma rc_error_wp msg s : ok s -> wp (rc_error msg) (fun _ s' => post s s' /\ noerr s' = 0%nat) s.
Proof.
  intros Ho. apply wp_bind, wp_get. apply wp_bind. eapply wp_mono; [by apply puts_wp |].
  cbv beta. intros _ s1 (Ho1 & H1). apply wp_modify. split; [| done]. split; [by destruct Ho1 |].
  change (left (set_had_error true s1)) with (left s1). change (rem (set_had_error true s1)) with (rem s1).
  change (noerr (set_had_error true s1)) with 0%nat. lia.
Qed.

Lemma error_post_wp msg s : ok s -> wp (rc_error msg) (fun _ => post s) s.
Proof. intros Ho. eapply wp_mono; [by apply rc_error_wp |]. cbv beta. by intros _ s' [? _]. Qed.

Lemma add_fixup_wp w p s : ok s -> place p -> wp (add_fixup w p) (fun _ => post s) s.
Proof.
  intros Ho Hp. pose proof (ok_fixups s Ho) as Ht. apply wp_bind, wp_get.
  destruct (Z.ltb_spec (count (FIXUPS s)) MAX_FIXUPS); [| by apply error_post_wp].
  destruct (table_set _ _ _ (count (FIXUPS s)) (MkFixup (copy_name w) p) (count (FIXUPS s) + 1) Ht) as (l & E & Hl);
    [destruct Ht; lia | done | destruct Ht; lia |].
  apply wp_bind. eapply wp_lift; [exact E |]. apply wp_modify, post_same; [by destruct Ho | done | done].
Qed.

(** The text of a token fits into a string entry. *)
Definition short (w : list Z) : Prop := (List.length w < 128)%nat.

Lemma add_string_wp w p s : ok s -> place p -> short w ->
  wp (add_string w (Z.of_nat (List.length w)) p) (fun _ => post s) s.
Proof.
  unfold short. intros Ho Hp Hw. pose proof (ok_strings s Ho) as Ht. apply wp_bind, wp_get.
  destruct (Z.ltb_spec (count (STRINGS s)) MAX_STRINGS); [| by apply error_post_wp].
  destruct (table_get _ _ _ (count (STRINGS s)) Ht) as (old & E & Hl & _); [destruct Ht; lia |].
  apply wp_bind. eapply wp_lift; [exact E |]. rewrite Nat2Z.id, take_ge by lia.
  assert (Hs : List.length (splice 0 w (text old)) = 128%nat) by (rewrite length_splice; lia).
  apply wp_bind. eapply wp_lift; [apply zset_Some; lia |].
  destruct (table_set _ _ _ (count (STRINGS s))
    (MkString (<[Z.to_nat (Z.of_nat (List.length w)) := 0]> (splice 0 w (text old))) (Z.of_nat (List.length w)) p)
    (count (STRINGS s) + 1) Ht) as (l & E2 & Hl2);
    [destruct Ht; lia | split; [cbn; rewrite length_insert; lia | done] | destruct Ht; lia |].
  apply wp_bind. eapply wp_lift; [exact E2 |]. apply wp_modify, post_same; [by destruct Ho | done | done].
Qed.

Lemma add_init_wp a v s : ok s -> wp (add_init a v) (fun _ => post s) s.
Proof.
  intros Ho. pose proof (ok_inits s Ho) as Ht. apply wp_bind, wp_get.
  destruct (Z.ltb_spec (count (GLOBAL_INITS s)) MAX_GLOBAL_INITS); [| by apply wp_ret, post_refl].
  destruct (table_set _ _ _ (count (GLOBAL_INITS s)) (MkInit a v) (count (GLOBAL_INITS s) + 1) Ht) as (l & E & Hl);
    [destruct Ht; lia | done | destruct Ht; lia |].
  apply wp_bind. eapply wp_lift; [exact E |]. apply wp_modify, post_same; [by destruct Ho | done | done].
Qed.

Lemma loop_push_wp p s : ok s -> wp (loop_push p) (fun _ => post s) s.
Proof.
  intros Ho. pose proof (ok_loops s Ho) as Ht. apply wp_bind, wp_get.
  destruct (Z.ltb_spec (count (LOOPS s)) MAX_LOOP_DEPTH); [| by apply wp_ret, post_refl].
  destruct (table_get _ _ _ (count (LOOPS s)) Ht) as (c & E & Hb & Hn & Hp); [destruct Ht; lia |].
  apply wp_bind. eapply wp_lift; [exact E |].
  destruct (table_set _ _ _ (count (LOOPS s)) (MkLoop p (break_patches c) 0) (count (LOOPS s) + 1) Ht) as (l & E2 & Hl2);
    [destruct Ht; lia | split; [done | split; [done | done]] | destruct Ht; lia |].
  apply wp_bind. eapply wp_lift; [exact E2 |]. apply wp_modify, post_same; [by destruct Ho | done | done].
Qed.

Lemma loop_pop_wp s : ok s -> wp loop_pop (fun _ => post s) s.
Proof.
  intros Ho. pose proof (ok_loops s Ho) as Ht. apply wp_bind, wp_get.
  destruct (Z.leb_spec (count (LOOPS s)) 0); [by apply wp_ret, post_refl |].
  apply wp_bind, wp_modify. destruct (table_get _ _ _ (count (LOOPS s) - 1) Ht) as (c & E & Hb & Hn & Hp); [destruct Ht; lia |].
  apply wp_bind. eapply wp_lift; [exact E |]. rewrite (proj2 (Z.ltb_ge _ _)) by lia.
  set (s1 := set_loops _ s). assert (H1 : post s s1).
  { apply post_same; [| done | done]. destruct Ho. split; try done. exact (table_count_ok _ _ _ (count (LOOPS s) - 1) Ht ltac:(destruct Ht; lia)). }
  eapply wp_mono; [apply patch_all_wp; [by apply H1 | by apply Forall_take] |]. cbv beta. intros _ s2 H2. exact (post_trans _ _ _ H1 H2).
Qed.

Lemma loop_add_break_wp p s : ok s -> place p -> wp (loop_add_break p) (fun _ => post s) s.
Proof.
  intros Ho Hp. pose proof (ok_loops s Ho) as Ht. apply wp_bind, wp_get.
  destruct (Z.leb_spec (count (LOOPS s)) 0); [by apply error_post_wp |].
  destruct (table_get _ _ _ (count (LOOPS s) - 1) Ht) as (c & E & Hb & Hn & Hc); [destruct Ht; lia |].
  apply wp_bind. eapply wp_lift; [exact E |].
  destruct (Z.ltb_spec (break_count c) MAX_BREAKS); [| by apply wp_ret, post_refl].
  apply wp_bind. eapply wp_lift; [apply zset_Some; lia |].
  destruct (table_set _ _ _ (count (LOOPS s) - 1)
    (MkLoop (continue_target c) (<[Z.to_nat (break_count c) := p]> (break_patches c)) (break_count c + 1))
    (count (LOOPS s)) Ht) as (l & E2 & Hl2); [destruct Ht; lia | | destruct Ht; lia |].
  { unfold loop_ok. cbn [break_patches break_count]. rewrite length_insert. split; [done |]. split; [lia |].
    by apply Forall_insert. }
  apply wp_bind. eapply wp_lift; [exact E2 |]. apply wp_modify, post_same; [by destruct Ho | done | done].
Qed.

(** ** Loops *)

(** What strictly decreases in every round but the last one of a loop. *)
Definition variant (s : pstate) : nat := (rem s + noerr s)%nat.

Lemma loop_n_wp {X} (I Q : X -> pstate -> Prop) (body : X -> M (bool * X)) fuel : forall x s,
  (forall x s, I x s -> wp (body x) (fun r s' => if r.1 then I r.2 s' /\ (variant s' < variant s)%nat else Q r.2 s') s) ->
  I x s -> (variant s < fuel)%nat -> wp (loop_n fuel body x) Q s.
Proof.
  induction fuel as [| fuel IH]; intros x s Hb Hi Hf; [lia |]. cbn [loop_n]. apply wp_bind.
  eapply wp_mono; [by apply Hb |]. cbv beta. intros [go x'] s'. cbn [fst snd]. destruct go.
  - intros [Hi' Hv]. apply IH; [done | done | lia].
  - intros Hq. by apply wp_ret.
Qed.

Lemma variant_fuel s : (variant s < text_fuel s)%nat.
Proof. pose proof (live_le s). pose proof (noerr_le s). unfold variant, rem, text_fuel, left in *. lia. Qed.

Lemma loop_wp {X} (I Q : X -> pstate -> Prop) (body : X -> M (bool * X)) x s :
  (forall x s, I x s -> wp (body x) (fun r s' => if r.1 then I r.2 s' /\ (variant s' < variant s)%nat else Q r.2 s') s) ->
  I x s -> wp (loop body x) Q s.
Proof. intros Hb Hi. unfold wp, loop. apply (loop_n_wp I Q body (text_fuel s)); [done | done |]. apply variant_fuel. Qed.

(** A loop from [s0] whose rounds keep [post] and a fact [V] on the value carried. *)
Lemma loop_post_wp {X} (V : X -> Prop) (body : X -> M (bool * X)) x s0 :
  (forall x s, post s0 s -> V x ->
     wp (body x) (fun r s' => post s s' /\ V r.2 /\ (r.1 = true -> (variant s' < variant s)%nat)) s) ->
  ok s0 -> V x -> wp (loop body x) (fun x s' => post s0 s' /\ V x) s0.
Proof.
  intros Hb Ho Hx. apply (loop_wp (fun x s => post s0 s /\ V x)); [| by split; [apply post_refl |]].
  intros y s [Hs Hy]. eapply wp_mono; [by apply Hb |]. cbv beta. intros [go z] s' (H1 & H2 & H3). cbn in *.
  destruct go; split_and?; try done; [eapply post_trans; eauto | auto | eapply post_trans; eauto].
Qed.

Lemma while_wp c m s0 :
  (forall s, post s0 s -> c s = true -> wp m (fun _ s' => post s s' /\ (variant s' < variant s)%nat) s) ->
  ok s0 -> wp (while c m) (fun _ => post s0) s0.
Proof.
  intros Hm Ho. eapply wp_mono; [apply (loop_post_wp (fun _ => True)); [| done | done] | by intros ? ? []].
  intros _ s Hs _. apply wp_bind, wp_get. destruct (c s) eqn:Ec.
  - apply wp_bind. eapply wp_mono; [by apply Hm |]. cbv beta. intros _ s' [H1 H2]. by apply wp_ret.
  - apply wp_ret. by destruct Hs as [? _]; split_and!; [apply post_refl | |].
Qed.

(** ** What parsers promise *)

(** A parser of expressions reads something, or reports an error. *)
Definition expr_post (s s' : pstate) : Prop := post s s' /\ (noerr s = 1%nat -> (variant s' < variant s)%nat).
(** A parser of statements reads something, unless it is at the end or after an
    error. *)
Definition stmt_post (s s' : pstate) : Prop :=
  post s s' /\ (live s = 1%nat -> noerr s = 1%nat -> (rem s' < rem s)%nat).
(** At [s], where an operand starts. *)
Definition parses (r : nat) (m : M unit) : Prop :=
  forall s, ok s -> (rem s <= r)%nat -> wp m (fun _ => expr_post s) s.

(** ** Automation *)

Lemma set_ex_wp (g : pstate -> expr_info) s : ok s -> wp (modify (fun s => set_ex (g s) s)) (fun _ => post s) s.
Proof. intros Ho. apply wp_modify, post_same; [by destruct Ho | done | done]. Qed.
Lemma set_ti_wp (g : pstate -> type_info) s : ok s -> wp (modify (fun s => set_ti (g s) s)) (fun _ => post s) s.
Proof. intros Ho. apply wp_modify, post_same; [by destruct Ho | done | done]. Qed.
Lemma set_local_wp n s : ok s -> wp (modify (set_local_offset n)) (fun _ => post s) s.
Proof. intros Ho. apply wp_modify, post_same; [by destruct Ho | done | done]. Qed.
Lemma set_global_wp (g : pstate -> Z) s : ok s -> wp (modify (fun s => set_global_offset (g s) s)) (fun _ => post s) s.
Proof. intros Ho. apply wp_modify, post_same; [by destruct Ho | done | done]. Qed.
Lemma skip_wp s : ok s -> wp skip_ (fun _ => post s) s.
Proof. intros Ho. by apply wp_ret, post_refl. Qed.

Lemma cstr_nul l n : l !! n = Some 0 -> (List.length (cstr l) <= n)%nat.
Proof.
  revert n. induction l as [| b l IH]; intros n Hn; [done |]. cbn [cstr]. case_if; [cbn; lia |].
  destruct n; cbn in *; [breflect; congruence | apply IH in Hn; lia].
Qed.

Lemma tok_str_wp s : ok s -> wp tok_str (fun w s' => s' = s /\ short w) s.
Proof.
  intros Ho. apply wp_get. split; [done |]. pose proof (cstr_nul _ _ (wf_nul _ (ok_lx s Ho))) as H.
  unfold short, tok, peek. lia.
Qed.
Lemma tok_name_wp s : ok s -> wp tok_name (fun _ s' => s' = s) s.
Proof. intros Ho. by apply wp_bind, wp_get, wp_ret. Qed.
Lemma set_struct_name_wp w s : ok s -> wp (set_struct_name w) (fun _ => post s) s.
Proof. intros Ho. apply (set_ti_wp (fun s => TypeInfo w _ _) s Ho). Qed.

Create HintDb parse discriminated.
#[export] Hint Constants Opaque : parse.
#[export] Hint Resolve tok_str_wp tok_name_wp set_struct_name_wp next_wp expect_wp emit_wp pos_wp placeholder_wp patch_dword_wp patch_here_wp jmp_back_wp
  patch_all_wp lookup_wp update_sym_wp sym_add_wp enter_scope_wp leave_scope_wp struct_def_lookup_wp
  struct_field_lookup_wp find_typedef_wp puts_wp rc_error_wp add_fixup_wp add_string_wp add_init_wp loop_push_wp
  loop_pop_wp loop_add_break_wp set_ex_wp set_ti_wp set_local_wp set_global_wp skip_wp : parse.
#[export] Hint Extern 3 (_ < _)%nat => unfold rem in *; lia : parse.
#[export] Hint Extern 3 (_ <= _)%nat => unfold rem in *; lia : parse.

(** Take a specification apart into the invariant and inequalities. *)
Ltac unpack :=
  repeat match goal with
  | H : _ /\ _ |- _ => destruct H
  | H : ?s' = ?s :> pstate |- _ => subst s'
  | H : (_ && _) = true |- _ => apply andb_prop in H; destruct H
  | H : post _ _ |- _ => destruct H as (? & ? & ? & ?)
  | H : expr_post _ _ |- _ => destruct H as ((? & ? & ? & ?) & ?)
  | H : stmt_post _ _ |- _ => destruct H as ((? & ? & ? & ?) & ?)
  | H : read_post _ _ |- _ => destruct H as ((? & ? & ? & ?) & ?)
  | H : at_tok TOK_EOF ?s = true |- _ => apply live_eof in H
  | H : at_tok TOK_EOF ?s = false |- _ => apply live_not_eof in H
  | H : at_tok ?t ?s = true |- _ => apply live_tok in H; [| discriminate]
  | H : HAD_ERROR ?s = true |- _ => apply noerr_true in H
  | H : HAD_ERROR ?s = false |- _ => apply noerr_false in H
  end.

(** The end of a path: the invariant and arithmetic. *)
Ltac wp_leaf := unpack; unfold expr_post, stmt_post, read_post, post, variant, rem in *; split_and?; solve [assumption | lia | trivial].

Ltac wp_step :=
  lazymatch goal with
  | |- wp (mbind _ _) _ _ => apply wp_bind
  | |- wp (if_tok _ _ _) _ _ => apply wp_if_tok; intros ?; unpack
  | |- wp (skip_tok _) _ _ => unfold skip_tok
  | |- wp (unless_error _) _ _ => apply wp_unless; intros ?; unpack
  | |- wp (when _ _) _ _ => apply wp_when; intros ?
  | |- wp (mret _) _ _ => apply wp_ret; cbn [fst snd]
  | |- wp (get _) _ _ => apply wp_get; cbv beta
  | |- wp (tok_is _) _ _ => apply wp_get; cbv beta
  | |- wp (match ?x with _ => _ end) _ _ => first [is_var x; destruct x; cbn [fst snd] in * | destruct x eqn:?]; unpack
  | |- wp _ _ _ => eapply wp_mono; [solve [eauto with parse emit] | cbv beta; intros; unpack]
  end.
Ltac wp_go := repeat wp_step; try solve [wp_leaf].
