(* ===== verification/ParseTotal.v ===== *)
(** The parser always returns ([ParseState] to [ParseProg]): for every text, the
    fuel that its loops and recursions get is enough, and no index is out of
    range. *)
From Stdlib Require Import String.
From S2P Require Import Prelude StringRs Lex Emit Sym ParseState ParseExpr ParseStmt ParseProg ParseWp EmitDecode.

(** ** Types *)

Lemma parse_type_n_wp fuel : forall ty s, ok s -> (rem s < fuel)%nat -> wp (parse_type_n fuel ty) (fun _ => post s) s.
Proof.
  induction fuel as [| fuel IH]; intros ty s Ho Hf; [lia |]. cbn [parse_type_n]. wp_go.
Qed.

Lemma rem_fuel s : (rem s < text_fuel s)%nat.
Proof. pose proof (variant_fuel s). unfold variant in *. lia. Qed.

Lemma parse_type_wp ty s : ok s -> wp (parse_type ty) (fun _ => post s) s.
Proof. intros Ho. apply (wp_fuel (fun n => parse_type_n n ty)). apply parse_type_n_wp; [done |]. apply rem_fuel. Qed.

Lemma set_sym_struct_wp w n s : ok s -> wp (set_sym_struct w n) (fun _ => post s) s.
Proof. intros Ho. by apply update_sym_wp. Qed.
Lemma set_mutable_wp w b s : ok s -> wp (set_mutable w b) (fun _ => post s) s.
Proof. intros Ho. by apply update_sym_wp. Qed.
Lemma set_return_type_wp w a b s : ok s -> wp (set_return_type w a b) (fun _ => post s) s.
Proof. intros Ho. by apply update_sym_wp. Qed.
#[export] Hint Resolve parse_type_wp set_sym_struct_wp set_mutable_wp set_return_type_wp : parse.

(** ** Pieces of expressions *)

Lemma set_scale_wp n s : ok s -> wp (set_scale n) (fun _ => post s) s.
Proof. intros Ho. apply (set_ex_wp (fun s => ExprInfo n _ _ _ _ _) s Ho). Qed.
Lemma clear_struct_wp s : ok s -> wp clear_struct (fun _ => post s) s.
Proof. intros Ho. apply (set_ex_wp (fun s => ExprInfo _ _ _ _ _ _) s Ho). Qed.
#[export] Hint Resolve set_scale_wp clear_struct_wp : parse.

Lemma e_push_wp s : ok s -> wp e_push (fun _ => post s) s.
Proof. unfold e_push. eauto with parse emit. Qed.
Lemma e_pop_wp r s : ok s -> wp (e_pop r) (fun _ => post s) s.
Proof. unfold e_pop. eauto with parse emit. Qed.
Lemma e_load_wp b s : ok s -> wp (e_load b) (fun _ => post s) s.
Proof. unfold e_load. eauto with parse emit. Qed.
Lemma e_store_wp b s : ok s -> wp (e_store b) (fun _ => post s) s.
Proof. unfold e_store. eauto with parse emit. Qed.
#[export] Hint Resolve e_push_wp e_pop_wp e_load_wp e_store_wp : parse.

Lemma e_lea_wp n s : ok s -> wp (e_lea n) (fun _ => post s) s.
Proof. intros. unfold e_lea. wp_go. Qed.
#[export] Hint Resolve e_lea_wp : parse.
Lemma e_address_wp k o a s : ok s -> wp (e_address k o a) (fun _ => post s) s.
Proof. intros. unfold e_address. wp_go. Qed.
Lemma emit_load_sym_wp e s : ok s -> wp (emit_load_sym e) (fun _ => post s) s.
Proof. intros. unfold emit_load_sym. wp_go. Qed.
Lemma emit_store_sym_wp e s : ok s -> wp (emit_store_sym e) (fun _ => post s) s.
Proof. intros. unfold emit_store_sym. wp_go. Qed.
Lemma esp_move_wp a b c s : ok s -> wp (esp_move a b c) (fun _ => post s) s.
Proof. intros. unfold esp_move. wp_go. Qed.
#[export] Hint Resolve e_address_wp emit_load_sym_wp emit_store_sym_wp esp_move_wp : parse.

Lemma reverse_loop_wp n : forall i argc s, ok s -> wp (reverse_loop n i argc) (fun _ => post s) s.
Proof. induction n; intros; cbn [reverse_loop]; wp_go. Qed.
Lemma emit_reverse_args_wp n s : ok s -> wp (emit_reverse_args n) (fun _ => post s) s.
Proof. intros. by apply reverse_loop_wp. Qed.
Lemma field_of_wp w msg s : ok s -> live s = 1%nat -> wp (field_of w msg) (fun _ => read_post s) s.
Proof. intros. unfold field_of. wp_go. Qed.
Lemma add_field_offset_wp f s : ok s -> wp (add_field_offset f) (fun _ => post s) s.
Proof. intros. unfold add_field_offset. wp_go. Qed.
#[export] Hint Resolve emit_reverse_args_wp field_of_wp add_field_offset_wp : parse.
Lemma read_field_wp f s : ok s -> wp (read_field f) (fun _ => post s) s.
Proof. intros. unfold read_field. wp_go. Qed.
#[export] Hint Resolve read_field_wp : parse.

(** ** Operators: a token is read first, the right operand is read next. *)

Section operators.
Variable (r0 : nat) (right : M unit).
Hypothesis right_parses : parses r0 right.
Lemma right_wp s : ok s -> (rem s < r0)%nat -> wp right (fun _ => post s) s.
Proof using right_parses. intros. eapply wp_mono; [apply right_parses; [done | lia] |]. by intros ? ? []. Qed.
#[local] Hint Resolve right_wp : parse.

Lemma right_operand_wp s : ok s -> (rem s < r0)%nat -> wp (right_operand right) (fun _ => post s) s.
Proof using right_parses. intros. unfold right_operand. wp_go. Qed.
#[local] Hint Resolve right_operand_wp : parse.

(** What the operators promise. *)
Definition op_reads (m : M unit) : Prop :=
  forall s, ok s -> live s = 1%nat -> (rem s <= r0)%nat -> wp m (fun _ => read_post s) s.

Lemma op_or_wp : op_reads (op_or right).
Proof using right_parses. intros s Ho Hl Hr. unfold op_or. wp_go. Qed.
Lemma op_and_wp : op_reads (op_and right).
Proof using right_parses. intros s Ho Hl Hr. unfold op_and. wp_go. Qed.
Lemma op_bitor_wp : op_reads (op_bitor right).
Proof using right_parses. intros s Ho Hl Hr. unfold op_bitor. wp_go. Qed.
Lemma op_bitxor_wp : op_reads (op_bitxor right).
Proof using right_parses. intros s Ho Hl Hr. unfold op_bitxor. wp_go. Qed.
Lemma op_bitand_wp : op_reads (op_bitand right).
Proof using right_parses. intros s Ho Hl Hr. unfold op_bitand. wp_go. Qed.
Lemma op_equal_wp : op_reads (op_equal right).
Proof using right_parses. intros s Ho Hl Hr. unfold op_equal, compare. wp_go. Qed.
Lemma op_relational_wp : op_reads (op_relational right).
Proof using right_parses. intros s Ho Hl Hr. unfold op_relational, compare. wp_go. Qed.
Lemma op_shift_wp : op_reads (op_shift right).
Proof using right_parses. intros s Ho Hl Hr. unfold op_shift. wp_go. Qed.
Lemma op_add_wp : op_reads (op_add right).
Proof using right_parses. intros s Ho Hl Hr. unfold op_add, scale. wp_go. Qed.
Lemma op_mul_wp : op_reads (op_mul right).
Proof using right_parses. intros s Ho Hl Hr. unfold op_mul. wp_go. Qed.
End operators.

(** ** The parser of expressions

    [parse_expr] is only called again after a token has been read: it may be
    assumed to work on texts that are shorter than [r0]. *)

Section expr.
Variable (r0 : nat) (parse_expr : M unit).
Hypothesis parse_expr_wp : forall s, ok s -> (rem s < r0)%nat -> wp parse_expr (fun _ => post s) s.
#[local] Hint Resolve parse_expr_wp : parse.

Lemma args_loop_wp n s : ok s -> (rem s < r0)%nat ->
  wp (loop (fun argc => if_tok TOK_COMMA (next;; parse_expr;; e_push;; mret (true, argc + 1)) (mret (false, argc))) n)
    (fun _ => post s) s.
Proof using parse_expr_wp.
  intros. eapply wp_mono; [apply (loop_post_wp (fun _ => True)); [| done | done] | by intros ? ? []].
  intros. unpack. wp_go.
Qed.
#[local] Hint Resolve args_loop_wp : parse.

Lemma parse_args_wp s : ok s -> (rem s < r0)%nat -> wp (parse_args parse_expr) (fun _ => post s) s.
Proof using parse_expr_wp. intros. unfold parse_args. wp_go. Qed.
#[local] Hint Resolve parse_args_wp : parse.

Lemma emit_func_call_wp f e s : ok s -> (rem s < r0)%nat -> wp (emit_func_call parse_expr f e) (fun _ => post s) s.
Proof using parse_expr_wp. intros. unfold emit_func_call. wp_go. Qed.
#[local] Hint Resolve emit_func_call_wp : parse.

Lemma parse_literal_wp v s : ok s -> live s = 1%nat -> wp v (fun _ => post s) s -> 
  wp (parse_literal v) (fun _ => read_post s) s.
Proof using. clear. intros. unfold parse_literal. wp_step. eapply wp_mono; [eassumption |]. cbv beta. intros. unpack. wp_go. Qed.

Lemma parse_primary_wp : parses r0 (parse_primary parse_expr).
Proof using parse_expr_wp.
  intros s Ho Hr. unfold parse_primary, expr_post.
  assert (Hlit : forall v, live s = 1%nat -> wp v (fun _ => post s) s ->
    wp (parse_literal v) (fun _ s' => post s s' /\ (noerr s = 1%nat -> (variant s' < variant s)%nat)) s).
  { intros v Hl Hv. eapply wp_mono; [by apply parse_literal_wp |]. cbv beta. intros. unpack. wp_leaf. }
  repeat (wp_step; [try (apply Hlit; [done | wp_step; wp_leaf]) |]); wp_go.
Qed.
#[local] Hint Resolve parse_primary_wp : parse.

(** A round of a loop over the tokens: what goes on has read one. *)
Definition round (r : nat) (m : M bool) : Prop :=
  forall s, ok s -> (rem s <= r)%nat ->
    wp m (fun go s' => post s s' /\ (go = true -> (variant s' < variant s)%nat)) s.

Lemma postfix_step_wp : round r0 (postfix_step parse_expr).
Proof using parse_expr_wp. intros s Ho Hr. unfold postfix_step, scale. wp_go. Qed.

Lemma rounds_wp m s : round r0 m -> ok s -> (rem s <= r0)%nat ->
  wp (loop (fun _ => go ← m; mret (go, unit_)) unit_) (fun _ => post s) s.
Proof using.
  clear. intros Hm Ho Hr.
  eapply wp_mono; [apply (loop_post_wp (fun _ => True)); [| done | done] | by intros ? ? []].
  intros _ s1 H1 _. unpack. apply wp_bind. eapply wp_mono; [apply Hm; [done | lia] |]. cbv beta.
  intros go s2 [? ?]. by apply wp_ret.
Qed.

Lemma parse_postfix_wp : parses r0 (parse_postfix parse_expr).
Proof using parse_expr_wp.
  intros s Ho Hr. unfold parse_postfix, expr_post. wp_step; [wp_leaf |]. wp_step.
  eapply wp_mono; [by apply parse_primary_wp |]. cbv beta. intros _ s1 [H1 H2]. unpack.
  eapply wp_mono; [apply rounds_wp; [apply postfix_step_wp | done | lia] |]. cbv beta. intros. unpack. wp_leaf.
Qed.

Lemma parse_address_of_wp s : ok s -> live s = 1%nat -> wp parse_address_of (fun _ => read_post s) s.
Proof using. clear. intros. unfold parse_address_of. wp_go. Qed.
#[local] Hint Resolve parse_address_of_wp : parse.

Lemma parse_unary_n_wp fuel : forall s, ok s -> (rem s <= r0)%nat -> (rem s < fuel)%nat ->
  wp (parse_unary_n parse_expr fuel) (fun _ => expr_post s) s.
Proof using parse_expr_wp.
  unfold expr_post. induction fuel as [| fuel IH]; intros s Ho Hr Hf; [lia |]. cbn [parse_unary_n].
  assert (Hp : wp (parse_postfix parse_expr) (fun _ => expr_post s) s) by by apply parse_postfix_wp.
  unfold scale, expr_post in *. wp_go.
Qed.

Lemma parse_unary_wp : parses r0 (parse_unary parse_expr).
Proof using parse_expr_wp.
  intros s Ho Hr. apply (wp_fuel (parse_unary_n parse_expr)). apply parse_unary_n_wp; [done | done |]. apply rem_fuel.
Qed.

(** ** The precedence chain *)

Lemma chain_wp sub is_op op : parses r0 sub -> op_reads r0 op -> (forall s, is_op s = true -> live s = 1%nat) ->
  parses r0 (chain sub is_op op).
Proof using.
  clear. intros Hs Hop Hl s Ho Hr. unfold chain, expr_post. wp_step; [wp_leaf |]. wp_step.
  eapply wp_mono; [by apply Hs |]. cbv beta. intros _ s1 [H1 H2]. unpack.
  eapply wp_mono; [apply while_wp; [| done] |].
  - intros s2 Hs2 Hop2. unpack. eapply wp_mono; [apply Hop; [done | by apply Hl | lia] |]. cbv beta.
    pose proof (Hl _ Hop2). intros. unpack. wp_leaf.
  - cbv beta. intros. unpack. wp_leaf.
Qed.


Lemma factor_live s : is_factor s = true -> live s = 1%nat.
Proof using. clear. unfold is_factor. intros H. repeat (apply orb_true_iff in H as [H | H]); by eapply live_tok. Qed.
Lemma additive_live s : is_additive s = true -> live s = 1%nat.
Proof using. clear. unfold is_additive. intros H. repeat (apply orb_true_iff in H as [H | H]); by eapply live_tok. Qed.
Lemma shift_live s : is_shift s = true -> live s = 1%nat.
Proof using. clear. unfold is_shift. intros H. repeat (apply orb_true_iff in H as [H | H]); by eapply live_tok. Qed.
Lemma relation_live s : is_relation s = true -> live s = 1%nat.
Proof using. clear. unfold is_relation. intros H. repeat (apply orb_true_iff in H as [H | H]); by eapply live_tok. Qed.
Lemma equality_live s : is_equality s = true -> live s = 1%nat.
Proof using. clear. unfold is_equality. intros H. repeat (apply orb_true_iff in H as [H | H]); by eapply live_tok. Qed.
Lemma tok_live t s : t <> TOK_EOF -> at_tok t s = true -> live s = 1%nat.
Proof using. clear. intros Ht H. by eapply live_tok. Qed.

Lemma parse_mul_wp : parses r0 (parse_mul parse_expr).
Proof using parse_expr_wp.
  refine (chain_wp _ _ _ parse_unary_wp (@op_mul_wp _ _ parse_unary_wp) factor_live).
Qed.
Lemma parse_add_expr_wp : parses r0 (parse_add_expr parse_expr).
Proof using parse_expr_wp.
  refine (chain_wp _ _ _ parse_mul_wp (@op_add_wp _ _ parse_mul_wp) additive_live).
Qed.
Lemma parse_shift_wp : parses r0 (parse_shift parse_expr).
Proof using parse_expr_wp.
  refine (chain_wp _ _ _ parse_add_expr_wp (@op_shift_wp _ _ parse_add_expr_wp) shift_live).
Qed.
Lemma parse_relational_wp : parses r0 (parse_relational parse_expr).
Proof using parse_expr_wp.
  refine (chain_wp _ _ _ parse_shift_wp (@op_relational_wp _ _ parse_shift_wp) relation_live).
Qed.
Lemma parse_equal_wp : parses r0 (parse_equal parse_expr).
Proof using parse_expr_wp.
  refine (chain_wp _ _ _ parse_relational_wp (@op_equal_wp _ _ parse_relational_wp) equality_live).
Qed.
Lemma parse_bitand_wp : parses r0 (parse_bitand parse_expr).
Proof using parse_expr_wp.
  refine (chain_wp _ _ _ parse_equal_wp (@op_bitand_wp _ _ parse_equal_wp) (fun s => tok_live _ s _)); discriminate.
Qed.
Lemma parse_bitxor_wp : parses r0 (parse_bitxor parse_expr).
Proof using parse_expr_wp.
  refine (chain_wp _ _ _ parse_bitand_wp (@op_bitxor_wp _ _ parse_bitand_wp) (fun s => tok_live _ s _)); discriminate.
Qed.
Lemma parse_bitor_wp : parses r0 (parse_bitor parse_expr).
Proof using parse_expr_wp.
  refine (chain_wp _ _ _ parse_bitxor_wp (@op_bitor_wp _ _ parse_bitxor_wp) (fun s => tok_live _ s _)); discriminate.
Qed.
Lemma parse_and_expr_wp : parses r0 (parse_and_expr parse_expr).
Proof using parse_expr_wp.
  refine (chain_wp _ _ _ parse_bitor_wp (@op_and_wp _ _ parse_bitor_wp) (fun s => tok_live _ s _)); discriminate.
Qed.
Lemma parse_or_wp : parses r0 (parse_or parse_expr).
Proof using parse_expr_wp.
  refine (chain_wp _ _ _ parse_and_expr_wp (@op_or_wp _ _ parse_and_expr_wp) (fun s => tok_live _ s _)); discriminate.
Qed.

(** ** Whole expressions *)

Lemma op_round op s : op_reads r0 op -> ok s -> live s = 1%nat -> (rem s <= r0)%nat ->
  wp (op;; mret true) (fun go s' => post s s' /\ (go = true -> (variant s' < variant s)%nat)) s.
Proof using. clear. intros Hop Ho Hl Hr. wp_step. eapply wp_mono; [by apply Hop |]. cbv beta. intros. unpack. wp_go. Qed.

Lemma binop_step_wp : round r0 (binop_step parse_expr).
Proof using parse_expr_wp.
  intros s Ho Hr. unfold binop_step. do 3 wp_step; [solve [wp_go] |].
  wp_step; [apply op_round; [apply op_or_wp, parse_or_wp | done..] |].
  wp_step; [apply op_round; [apply op_and_wp, parse_and_expr_wp | done..] |].
  wp_step; [apply op_round; [apply op_bitor_wp, parse_bitor_wp | done..] |].
  wp_step; [apply op_round; [apply op_bitxor_wp, parse_bitand_wp | done..] |].
  wp_step; [apply op_round; [apply op_bitand_wp, parse_equal_wp | done..] |].
  do 3 wp_step; [apply op_round; [apply op_equal_wp, parse_relational_wp | done | by apply equality_live | done] |].
  do 3 wp_step; [apply op_round; [apply op_relational_wp, parse_shift_wp | done | by apply relation_live | done] |].
  do 3 wp_step; [apply op_round; [apply op_shift_wp, parse_add_expr_wp | done | by apply shift_live | done] |].
  do 3 wp_step; [apply op_round; [apply op_add_wp, parse_mul_wp | done | by apply additive_live | done] |].
  do 3 wp_step; [apply op_round; [apply op_mul_wp, parse_unary_wp | done | by apply factor_live | done] |].
  wp_go.
Qed.

Lemma parse_binops_wp s : ok s -> (rem s <= r0)%nat -> wp (parse_binops parse_expr) (fun _ => post s) s.
Proof using parse_expr_wp. intros. apply rounds_wp; [apply binop_step_wp | done | done]. Qed.
#[local] Hint Resolve parse_binops_wp : parse.

Lemma assign_or_wp b rd s : ok s -> (rem s <= r0)%nat -> (forall s, ok s -> wp rd (fun _ => post s) s) ->
  wp (assign_or parse_expr b rd) (fun _ => post s) s.
Proof using parse_expr_wp. intros. unfold assign_or. wp_go. Qed.

Lemma deref_read_wp n s : ok s -> wp (e_load n;; set_scale 0) (fun _ => post s) s.
Proof using. clear. intros. wp_go. Qed.
#[local] Hint Resolve assign_or_wp deref_read_wp : parse.

Lemma unary_wp s : ok s -> (rem s <= r0)%nat -> wp (parse_unary parse_expr) (fun _ => post s) s.
Proof using parse_expr_wp. intros. eapply wp_mono; [by apply parse_unary_wp |]. by intros ? ? []. Qed.
#[local] Hint Resolve unary_wp : parse.

Lemma deref_unary_wp s : ok s -> (rem s <= r0)%nat -> wp (deref_unary parse_expr) (fun _ => post s) s.
Proof using parse_expr_wp. intros. unfold deref_unary, scale. wp_go. Qed.
#[local] Hint Resolve deref_unary_wp : parse.

Lemma parse_deref_wp s : ok s -> live s = 1%nat -> (rem s <= r0)%nat ->
  wp (parse_deref parse_expr) (fun _ => read_post s) s.
Proof using parse_expr_wp. intros. unfold parse_deref. wp_go. Qed.

Lemma parse_member_wp e msg base s : ok s -> live s = 1%nat -> (rem s <= r0)%nat ->
  (forall s, ok s -> wp base (fun _ => post s) s) -> wp (parse_member parse_expr e msg base) (fun _ => post s) s.
Proof using parse_expr_wp. intros. unfold parse_member. wp_go. Qed.

Lemma parse_compound_wp e s : ok s -> live s = 1%nat -> (rem s <= r0)%nat ->
  wp (parse_compound parse_expr e) (fun _ => post s) s.
Proof using parse_expr_wp. intros. unfold parse_compound, right_operand. wp_go. Qed.

Lemma parse_index_wp e s : ok s -> live s = 1%nat -> (rem s <= r0)%nat ->
  wp (parse_index parse_expr e) (fun _ => post s) s.
Proof using parse_expr_wp. intros. unfold parse_index. wp_go. Qed.
#[local] Hint Resolve parse_member_wp parse_compound_wp parse_index_wp : parse.

Lemma compound_live s : is_compound s = true -> live s = 1%nat.
Proof using. clear. unfold is_compound. intros H. repeat (apply orb_true_iff in H as [H | H]); by eapply live_tok. Qed.
#[local] Hint Resolve compound_live : parse.

Lemma parse_known_wp f e s : ok s -> live s = 1%nat -> (rem s <= r0)%nat ->
  wp (parse_known parse_expr f e) (fun _ => read_post s) s.
Proof using parse_expr_wp. intros. unfold parse_known. wp_go. Qed.

Lemma parse_unknown_wp f s : ok s -> live s = 1%nat -> (rem s <= r0)%nat ->
  wp (parse_unknown parse_expr f) (fun _ => read_post s) s.
Proof using parse_expr_wp. intros. unfold parse_unknown. wp_go. Qed.
#[local] Hint Resolve parse_deref_wp parse_known_wp parse_unknown_wp : parse.

Lemma parse_expr_body_wp : parses r0 (parse_expr_body parse_expr).
Proof using parse_expr_wp.
  intros s Ho Hr. unfold parse_expr_body, expr_post.
  assert (Hor : wp (parse_or parse_expr) (fun _ => expr_post s) s) by by apply parse_or_wp.
  unfold expr_post in Hor. wp_go.
Qed.
End expr.

Lemma parse_expr_n_wp fuel : forall s, ok s -> (rem s < fuel)%nat -> wp (parse_expr_n fuel) (fun _ => expr_post s) s.
Proof.
  induction fuel as [| fuel IH]; intros s Ho Hf; [lia |]. cbn [parse_expr_n].
  apply (parse_expr_body_wp fuel); [| done | lia]. intros s1 H1 H2. eapply wp_mono; [by apply IH |]. by intros ? ? [].
Qed.

#[local] Opaque text_fuel.
Lemma parse_expr_wp s : ok s -> wp parse_expr (fun _ => expr_post s) s.
Proof. intros Ho. unfold parse_expr. apply (wp_fuel parse_expr_n). apply parse_expr_n_wp; [done |]. apply rem_fuel. Qed.
#[export] Hint Resolve parse_expr_wp : parse.

(** ** Statements *)

Lemma inside_true t s : inside t s = true -> live s = 1%nat /\ noerr s = 1%nat.
Proof.
  unfold inside. intros H. apply andb_prop in H as [H H1]. apply andb_prop in H as [_ H2].
  apply negb_true_iff in H1, H2. split; [by apply live_not_eof | by apply noerr_false].
Qed.

Lemma until_wp {X} (V : X -> Prop) t (body : X -> M (bool * X)) x s0 :
  (forall x s, post s0 s -> V x -> live s = 1%nat -> noerr s = 1%nat ->
     wp (body x) (fun r s' => post s s' /\ V r.2 /\ (r.1 = true -> (variant s' < variant s)%nat)) s) ->
  ok s0 -> V x -> wp (until t body x) (fun x s' => post s0 s' /\ V x) s0.
Proof.
  intros Hb Ho Hx. apply loop_post_wp; [| done | done]. intros y s Hs Hy. apply wp_bind, wp_get.
  destruct (inside t s) eqn:E; [apply inside_true in E as []; by apply Hb |].
  apply wp_ret. by destruct Hs as [? _]; split_and!; [apply post_refl | |].
Qed.

(** A loop whose value does not matter. *)
Lemma until_any_wp {X} t (body : X -> M (bool * X)) x s0 :
  (forall x s, post s0 s -> live s = 1%nat -> noerr s = 1%nat ->
     wp (body x) (fun r s' => post s s' /\ (r.1 = true -> (variant s' < variant s)%nat)) s) ->
  ok s0 -> wp (until t body x) (fun _ => post s0) s0.
Proof.
  intros Hb Ho. eapply wp_mono; [apply (until_wp (fun _ => True)); [| done | done] | by intros ? ? []].
  intros y s Hs _ Hl He. eapply wp_mono; [by apply Hb |]. by intros ? ? [].
Qed.

Lemma alloc_local_wp n s : ok s -> wp (alloc_local n) (fun _ => post s) s.
Proof. intros. unfold alloc_local, local_offset. wp_go. Qed.
#[export] Hint Resolve alloc_local_wp : parse.

Lemma enum_constant_wp v s : ok s -> live s = 1%nat -> noerr s = 1%nat ->
  wp (enum_constant v) (fun r s' => post s s' /\ (r.1 = true -> (variant s' < variant s)%nat)) s.
Proof. intros. unfold enum_constant. wp_go. Qed.

Lemma enum_loop_wp s : ok s -> wp (until TOK_RBRACE enum_constant 0) (fun _ => post s) s.
Proof. intros Ho. apply until_any_wp; [| done]. intros. unpack. by apply enum_constant_wp. Qed.
#[export] Hint Resolve enum_loop_wp : parse.

Lemma parse_enum_wp s : ok s -> live s = 1%nat -> wp parse_enum (fun _ => read_post s) s.
Proof. intros. unfold parse_enum. wp_go. Qed.
#[export] Hint Resolve parse_enum_wp : parse.

Lemma name_or_wp msg k s : ok s ->
  (forall w s', post s s' -> wp (k w) (fun _ => post s') s') -> wp (name_or msg k) (fun _ => post s) s.
Proof.
  intros Ho Hk. unfold name_or. wp_step; [| wp_go]. wp_step. wp_step. wp_step. wp_step.
  eapply wp_mono; [apply Hk; wp_leaf |]. cbv beta. intros. wp_leaf.
Qed.

Section stmt.
Variable (r0 : nat) (parse_stmt : M unit).
Hypothesis parse_stmt_wp : forall s, ok s -> (rem s < r0)%nat -> wp parse_stmt (fun _ => stmt_post s) s.
#[local] Hint Resolve parse_stmt_wp : parse.

Lemma stmts_wp s : ok s -> (rem s < r0)%nat -> wp (while (inside TOK_RBRACE) parse_stmt) (fun _ => post s) s.
Proof using parse_stmt_wp.
  intros Ho Hr. apply while_wp; [| done]. intros s1 H1 E. apply inside_true in E as []. unpack.
  eapply wp_mono; [apply parse_stmt_wp; [done | lia] |]. cbv beta. intros. unpack. 
  assert (rem s' < rem s1)%nat by auto. wp_leaf.
Qed.
#[local] Hint Resolve stmts_wp : parse.

Lemma parse_block_wp s : ok s -> (rem s < r0 + live s)%nat ->
  wp (parse_block parse_stmt) (fun _ s' => post s s' /\ (noerr s = 1 -> rem s' + live s <= rem s)%nat) s.
Proof using parse_stmt_wp. intros. unfold parse_block. wp_go. Qed.
#[local] Hint Resolve parse_block_wp : parse.

Lemma parse_if_n_wp fuel : forall s, ok s -> live s = 1%nat -> (rem s <= r0)%nat -> (rem s < fuel)%nat ->
  wp (parse_if_n parse_stmt fuel) (fun _ => read_post s) s.
Proof using parse_stmt_wp.
  induction fuel as [| fuel IH]; intros s Ho Hl Hr Hf; [lia |]. cbn [parse_if_n]. wp_go.
Qed.

Lemma parse_if_wp s : ok s -> live s = 1%nat -> (rem s <= r0)%nat -> wp (parse_if parse_stmt) (fun _ => read_post s) s.
Proof using parse_stmt_wp.
  intros Ho Hl Hr. unfold parse_if. apply (wp_fuel (parse_if_n parse_stmt)). apply parse_if_n_wp; [done.. |]. apply rem_fuel.
Qed.

(** The jumps of a match are places, at most as many as there is room for. *)
Abbreviation breaks_ok b := (Forall place b) (only parsing).
Abbreviation arms_ok x := (place x.1 /\ breaks_ok x.2) (only parsing).

Lemma breaks_ok_snoc b p : breaks_ok b -> place p -> breaks_ok (b ++ [p]).
Proof using. clear. intros. apply Forall_app. by split; [| constructor]. Qed.
#[local] Hint Resolve breaks_ok_snoc : parse.

Lemma arm_body_wp b s : ok s -> (rem s < r0)%nat -> breaks_ok b ->
  wp (arm_body parse_stmt b) (fun b s' => post s s' /\ (rem s' + live s <= rem s)%nat /\ breaks_ok b) s.
Proof using parse_stmt_wp.
  intros. unfold arm_body. wp_go; unpack; split_and!; try wp_leaf; auto with parse.
Qed.
#[local] Hint Resolve arm_body_wp : parse.

Lemma place_0 : place 0.
Proof using. clear. unfold place, CC_CODE_MAX. lia. Qed.

Lemma match_arm_wp n x s : ok s -> (rem s < r0)%nat -> live s = 1%nat -> arms_ok x ->
  wp (match_arm parse_stmt n x)
    (fun r s' => post s s' /\ arms_ok r.2 /\ (r.1 = true -> (variant s' < variant s)%nat)) s.
Proof using parse_stmt_wp.
  intros Ho Hr Hl [Hp Hb]. destruct x as [p b]. cbn [fst snd] in *. pose proof place_0. unfold match_arm. wp_go.
Qed.

Lemma arms_wp n s : ok s -> (rem s < r0)%nat ->
  wp (until TOK_RBRACE (match_arm parse_stmt n) (0, [])) (fun x s' => post s s' /\ arms_ok x) s.
Proof using parse_stmt_wp.
  intros Ho Hr. apply (until_wp (fun x => arms_ok x)); [| done | split; [apply place_0 | constructor]].
  intros x s1 H1 Hx Hl He. unpack. apply match_arm_wp; [done | lia | done | done].
Qed.
#[local] Hint Resolve arms_wp : parse.

Lemma parse_match_wp s : ok s -> live s = 1%nat -> (rem s <= r0)%nat -> wp (parse_match parse_stmt) (fun _ => read_post s) s.
Proof using parse_stmt_wp.
  intros. unfold parse_match, local_offset. wp_go.
Qed.

Lemma parse_loop_wp s : ok s -> live s = 1%nat -> (rem s <= r0)%nat -> wp (parse_loop parse_stmt) (fun _ => read_post s) s.
Proof using parse_stmt_wp. intros. unfold parse_loop. wp_go. Qed.

Lemma parse_while_wp s : ok s -> live s = 1%nat -> (rem s <= r0)%nat -> wp (parse_while parse_stmt) (fun _ => read_post s) s.
Proof using parse_stmt_wp. intros. unfold parse_while. wp_go. Qed.

Lemma parse_for_wp s : ok s -> live s = 1%nat -> (rem s <= r0)%nat -> wp (parse_for parse_stmt) (fun _ => read_post s) s.
Proof using parse_stmt_wp.
  intros. unfold parse_for. do 4 wp_step. eapply wp_mono; [apply name_or_wp; [done |] | cbv beta; intros; wp_leaf].
  intros. unpack. wp_go.
Qed.

Lemma array_element_wp n i s : ok s -> live s = 1%nat -> noerr s = 1%nat ->
  wp (array_element n i) (fun r s' => post s s' /\ (r.1 = true -> (variant s' < variant s)%nat)) s.
Proof using. clear. intros. unfold array_element, local_offset. wp_go. Qed.

Lemma array_elements_wp n s : ok s -> wp (until TOK_RBRACKET (array_element n) 0) (fun _ => post s) s.
Proof using. clear. intros Ho. apply until_any_wp; [| done]. intros. unpack. by apply array_element_wp. Qed.
#[local] Hint Resolve array_elements_wp : parse.

Lemma let_array_wp v b t s : ok s -> wp (let_array v b t) (fun _ => post s) s.
Proof using. clear. intros. unfold let_array. wp_go. Qed.

Lemma let_scalar_wp v b t p n s : ok s -> wp (let_scalar v b t p n) (fun _ => post s) s.
Proof using. clear. intros. unfold let_scalar, local_offset. wp_go. Qed.

Lemma let_struct_wp v b t n s : ok s -> wp (let_struct v b t n) (fun _ => post s) s.
Proof using.
  clear. intros. unfold let_struct. wp_step. wp_step. wp_step.
  destruct x as [p |]; wp_step.
  - destruct (defs_get (sy s) p (ok_sy s H)) as (d & E & _); [done |].
    wp_step. wp_step. eapply wp_lift; [exact E |]. wp_go.
  - wp_go.
Qed.
#[local] Hint Resolve let_array_wp let_scalar_wp let_struct_wp : parse.

Lemma flag_wp t s : ok s -> wp (if_tok t (next;; mret true) (mret false)) (fun _ => post s) s.
Proof using. clear. intros. wp_go. Qed.

Lemma parse_let_wp s : ok s -> live s = 1%nat -> wp parse_let (fun _ => read_post s) s.
Proof using.
  clear. intros. unfold parse_let. wp_step. wp_step. wp_step. eapply wp_mono; [by apply flag_wp |].
  cbv beta. intros. unpack.
  eapply wp_mono; [apply name_or_wp; [done |] | cbv beta; intros; wp_leaf]. intros. unpack. wp_go.
Qed.

Lemma parse_return_wp s : ok s -> live s = 1%nat -> wp parse_return (fun _ => read_post s) s.
Proof using. clear. intros. unfold parse_return. wp_go. Qed.

Lemma parse_break_wp s : ok s -> live s = 1%nat -> wp parse_break (fun _ => read_post s) s.
Proof using. clear. intros. unfold parse_break. wp_go. Qed.

Lemma parse_continue_wp s : ok s -> live s = 1%nat -> wp parse_continue (fun _ => read_post s) s.
Proof using.
  clear. intros. unfold parse_continue. do 4 wp_step. destruct (Z.ltb_spec 0 (count (LOOPS s'))); [| wp_go].
  pose proof (ok_loops s' ltac:(done)) as Ht.
  destruct (table_get _ _ _ (count (LOOPS s') - 1) Ht) as (c & E & _); [destruct Ht; lia |].
  wp_step. wp_step. eapply wp_lift; [exact E |]. wp_go.
Qed.
#[local] Hint Resolve parse_if_wp parse_match_wp parse_loop_wp parse_while_wp parse_for_wp parse_let_wp parse_return_wp
  parse_break_wp parse_continue_wp : parse.

Lemma parse_stmt_body_wp s : ok s -> (rem s <= r0)%nat -> wp (parse_stmt_body parse_stmt) (fun _ => stmt_post s) s.
Proof using parse_stmt_wp. intros. unfold parse_stmt_body. wp_go. Qed.
End stmt.

Lemma parse_stmt_n_wp fuel : forall s, ok s -> (rem s < fuel)%nat -> wp (parse_stmt_n fuel) (fun _ => stmt_post s) s.
Proof.
  induction fuel as [| fuel IH]; intros s Ho Hf; [lia |]. cbn [parse_stmt_n].
  apply (parse_stmt_body_wp fuel); [by apply IH | done | lia].
Qed.

Lemma parse_stmt_wp s : ok s -> wp parse_stmt (fun _ => stmt_post s) s.
Proof. intros Ho. unfold parse_stmt. apply (wp_fuel parse_stmt_n). apply parse_stmt_n_wp; [done |]. apply rem_fuel. Qed.
#[export] Hint Resolve parse_stmt_wp : parse.

(** ** Declarations *)

Lemma block_wp s : ok s -> wp (parse_block parse_stmt) (fun _ => post s) s.
Proof.
  intros Ho. eapply wp_mono; [apply (parse_block_wp (S (rem s))); [| done | lia] | cbv beta; intros; wp_leaf].
  intros. by apply parse_stmt_wp.
Qed.
#[export] Hint Resolve block_wp : parse.

(** A declaration starts with its keyword and then goes on with a name. *)
Ltac wp_decl := eapply wp_mono; [apply name_or_wp; [done |] | cbv beta; intros; wp_leaf]; intros; unpack.

Lemma parameter_wp n s : ok s -> live s = 1%nat -> noerr s = 1%nat ->
  wp (parameter n) (fun r s' => post s s' /\ (r.1 = true -> (variant s' < variant s)%nat)) s.
Proof. intros. unfold parameter. wp_go. Qed.

Lemma parameters_wp s : ok s -> wp (until TOK_RPAREN parameter 0) (fun _ => post s) s.
Proof. intros Ho. apply until_any_wp; [| done]. intros. unpack. by apply parameter_wp. Qed.
#[export] Hint Resolve parameters_wp : parse.

Lemma return_type_wp s : ok s ->
  wp (if_tok TOK_ARROW (next;; parse_type TYPE_VOID) (mret (true, TYPE_VOID, 0))) (fun _ => post s) s.
Proof. intros. wp_go. Qed.

Lemma parse_function_wp s : ok s -> live s = 1%nat -> wp parse_function (fun _ => read_post s) s.
Proof.
  intros. unfold parse_function, local_offset. do 2 wp_step. wp_decl. do 13 wp_step.
  eapply wp_mono; [by apply return_type_wp |]. cbv beta. intros. unpack. wp_go.
Qed.

Lemma initializer_wp a s : ok s ->
  wp (if_tok TOK_ASSIGN
      (next;; neg ← minus_sign;
       if_tok TOK_NUM
         (n ← get (fun s => num_val (tok s)); next;; add_init a (if (neg : bool) then i32 (- n) else n))
         (rc_error (str "expected constant initializer")))
      skip_) (fun _ => post s) s.
Proof.
  intros. unfold minus_sign. wp_step; [| wp_go]. do 3 wp_step.
  eapply wp_mono; [by apply flag_wp |]. cbv beta. intros. unpack. wp_go.
Qed.

Lemma parse_global_static_wp s : ok s -> live s = 1%nat -> wp parse_global_static (fun _ => read_post s) s.
Proof.
  intros. unfold parse_global_static. do 2 wp_step.
  assert (Hn : forall s1, ok s1 -> wp (skip_tok TOK_MUT) (fun _ => post s1) s1) by (intros; wp_go).
  wp_step. eapply wp_mono; [by apply Hn |]. cbv beta. intros. unpack. wp_decl.
  do 7 wp_step; [wp_go |]. 
  repeat (lazymatch goal with |- wp (if_tok TOK_ASSIGN _ _) _ _ => fail | _ => wp_step end).
  all: eapply wp_mono; [by apply initializer_wp |]; cbv beta; intros; unpack; wp_go.
Qed.

Lemma parse_global_const_wp s : ok s -> live s = 1%nat -> wp parse_global_const (fun _ => read_post s) s.
Proof.
  intros. unfold parse_global_const, minus_sign. do 2 wp_step. wp_decl.
  do 7 wp_step; [wp_go |]. do 3 wp_step. eapply wp_mono; [by apply flag_wp |]. cbv beta. intros. unpack. wp_go.
Qed.

Lemma add_typedef_wp w a b s : ok s -> wp (add_typedef w a b) (fun _ => post s) s.
Proof.
  intros Ho. pose proof (ok_typedefs s Ho) as Ht. apply wp_bind, wp_get.
  destruct (Z.ltb_spec (count (TYPEDEFS s)) MAX_TYPEDEFS); [| by apply wp_ret, post_refl].
  destruct (table_set _ _ _ (count (TYPEDEFS s)) (Typedef (copy_name w) a b) (count (TYPEDEFS s) + 1) Ht) as (l & E & Hl);
    [destruct Ht; lia | done | destruct Ht; lia |].
  apply wp_bind. eapply wp_lift; [exact E |]. apply wp_modify, post_same; [by destruct Ho | done | done].
Qed.
#[export] Hint Resolve add_typedef_wp : parse.

Lemma parse_type_alias_wp s : ok s -> live s = 1%nat -> wp parse_type_alias (fun _ => read_post s) s.
Proof. intros. unfold parse_type_alias. do 2 wp_step. wp_decl. wp_go. Qed.

(** ** Structs *)

Lemma update_def_wp p f s d d' : ok s -> 0 <= p < MAX_STRUCT_DEFS -> zget (STRUCT_DEFS (sy s)) p = Some d ->
  f d = Some d' -> def_ok d' -> wp (update_def p f) (fun _ => post s) s.
Proof.
  intros Ho Hp Ed Ef Hd. pose proof (ok_sy s Ho) as Hs. unfold wp, update_def. rewrite Ed. cbn [mbind option_bind].
  rewrite Ef. cbn [mbind option_bind]. rewrite zset_Some by (destruct Hs; lia). cbn [mbind option_bind].
  eexists _, _. split; [done |]. apply keep_sy; [done |].
  destruct Hs. split; cbn; try done; [by rewrite length_insert | by apply Forall_insert].
Qed.

Lemma struct_def_add_wp w s : ok s -> wp (struct_def_add w) (fun p s' => post s s' /\ def_index p) s.
Proof.
  intros Ho. pose proof (ok_sy s Ho) as Hs. unfold wp, struct_def_add. cbv beta zeta.
  set (n := STRUCT_DEF_COUNT (sy s)). destruct (Z.leb_spec MAX_STRUCT_DEFS n).
  - eexists None, _. split; [done |]. split; [| done]. apply keep_sy; [done |]. by destruct Hs.
  - assert (Hn : 0 <= n < MAX_STRUCT_DEFS) by (destruct Hs; lia).
    destruct (defs_get (sy s) n Hs Hn) as (d & Ed & Hd).
    destruct (update_def_wp n (fun d => Some (Def (copy_name w) (fields d) 0 0)) s d _ Ho Hn Ed eq_refl) as (u & s1 & E & H1).
    { destruct Hd. split; cbn [fields field_count]; [done | unfold MAX_STRUCT_FIELDS; lia]. }
    rewrite E. cbn [mbind option_bind].
    eexists (Some n), _. split; [done |]. split; [| exact Hn]. eapply post_trans; [exact H1 |].
    destruct H1 as [Ho1 _]. apply keep_sy; [done |]. destruct (ok_sy s1 Ho1). split; cbn; try done. lia.
Qed.

Lemma struct_field_wp p off s : ok s -> 0 <= p < MAX_STRUCT_DEFS -> live s = 1%nat -> noerr s = 1%nat ->
  wp (struct_field p off) (fun r s' => post s s' /\ (r.1 = true -> (variant s' < variant s)%nat)) s.
Proof.
  intros Ho Hp Hl He. unfold struct_field. wp_step; [| wp_go]. do 11 wp_step; [wp_go |]. do 2 wp_step.
  assert (Hi : 0 <= p < MAX_STRUCT_DEFS) by done.
  destruct (defs_get (sy s'1) p (ok_sy s'1 ltac:(done)) Hi) as (d & Ed & Hd).
  apply wp_bind. eapply wp_lift; [exact Ed |]. destruct (Z.leb_spec MAX_STRUCT_FIELDS (field_count d)); [wp_go |].
  wp_step. eapply wp_mono.
  - eapply update_def_wp; [done | exact Hi | exact Ed | cbn beta; rewrite zset_Some by (destruct Hd; lia); reflexivity |].
    destruct Hd. split; cbn [fields field_count]; [by rewrite length_insert | lia].
  - cbv beta. intros. unpack. wp_go.
Qed.

Lemma struct_fields_wp p s : ok s -> 0 <= p < MAX_STRUCT_DEFS -> wp (until TOK_RBRACE (struct_field p) 0) (fun _ => post s) s.
Proof. intros Ho Hp. apply until_any_wp; [| done]. intros. unpack. by apply struct_field_wp. Qed.

Lemma set_size_wp p n s : ok s -> 0 <= p < MAX_STRUCT_DEFS ->
  wp (update_def p (fun d => Some (Def (d_name d) (fields d) (field_count d) n))) (fun _ => post s) s.
Proof.
  intros Ho Hp. destruct (defs_get (sy s) p (ok_sy s Ho) Hp) as (d & Ed & Hd).
  eapply update_def_wp; [done | done | exact Ed | reflexivity | by destruct Hd].
Qed.
#[export] Hint Resolve struct_def_add_wp struct_fields_wp set_size_wp : parse.

Lemma parse_struct_def_wp s : ok s -> live s = 1%nat -> wp parse_struct_def (fun _ => read_post s) s.
Proof. intros. unfold parse_struct_def. do 2 wp_step. wp_decl. wp_go. Qed.
#[export] Hint Resolve parse_function_wp parse_global_static_wp parse_global_const_wp parse_type_alias_wp
  parse_struct_def_wp : parse.

(** ** The program *)

Lemma declaration_wp s : ok s -> live s = 1%nat ->
  wp declaration (fun go s' => post s s' /\ (go = true -> (variant s' < variant s)%nat)) s.
Proof. intros. unfold declaration. wp_go. Qed.

Lemma declarations_wp s : ok s -> wp declarations (fun _ => post s) s.
Proof.
  intros Ho. eapply wp_mono; [apply (loop_post_wp (fun _ => True)); [| done | done] | by intros ? ? []].
  intros _ s1 H1 _. unpack. wp_step. wp_step. destruct (at_top s1) eqn:E; [| wp_go].
  unfold at_top in E. apply andb_prop in E as [E _]. apply negb_true_iff, live_not_eof in E.
  wp_step. eapply wp_mono; [by apply declaration_wp |]. cbv beta. intros. unpack. by apply wp_ret.
Qed.

Lemma resolve_wp l : Forall fixup_ok l -> forall s, ok s -> wp (resolve l) (fun _ => post s) s.
Proof. unfold fixup_ok. induction 1 as [| f l Hf Hl IH]; intros s Ho; cbn [resolve]; wp_go. Qed.

Lemma place_strings_wp l : Forall string_ok l -> forall s, ok s -> wp (place_strings l) (fun _ => post s) s.
Proof.
  unfold string_ok. induction 1 as [| e l [_ He] Hl IH]; intros s Ho; cbn [place_strings]; unfold emit_bytes; wp_go.
Qed.

Lemma store_inits_wp l : forall s, ok s -> wp (store_inits l) (fun _ => post s) s.
Proof. induction l as [| g l IH]; intros s Ho; cbn [store_inits]; wp_go. Qed.
#[export] Hint Resolve declarations_wp store_inits_wp : parse.

(** Code that reports nothing and reads nothing, except when it fails. *)
Definition quiet {A} (good : A -> Prop) (m : M A) : Prop :=
  forall s x s', m s = Some (x, s') -> good x -> lx s' = lx s /\ HAD_ERROR s' = HAD_ERROR s.
Definition any {A} (_ : A) : Prop := True.

Lemma quiet_bind {A B} (good : B -> Prop) (m : M A) (k : A -> M B) :
  quiet any m -> (forall x, quiet good (k x)) -> quiet good (m ≫= k).
Proof.
  intros Hm Hk s x s' E Hg. unfold mbind, M_bind in E. destruct (m s) as [[y s1] |] eqn:E1; [| done].
  destruct (Hm _ _ _ E1 I) as [<- <-]. exact (Hk y _ _ _ E Hg).
Qed.
Lemma quiet_ret {A} (good : A -> Prop) x : quiet good (mret x).
Proof. intros s y s' E _. by injection E as _ <-. Qed.
Lemma quiet_get {A} (good : A -> Prop) f : quiet good (get f).
Proof. intros s y s' E _. by injection E as _ <-. Qed.
Lemma quiet_emit good f : quiet good (emit f).
Proof. intros s y s' E _. by injection E as _ <-. Qed.
Lemma quiet_patch good p v : quiet good (patch_dword p v).
Proof.
  intros s y s' E _. unfold patch_dword in E. destruct (Emit.patch_dword p v (em s)); [| done].
  by injection E as _ <-.
Qed.
Lemma quiet_lookup good w : quiet good (lookup w).
Proof.
  intros s y s' E _. unfold lookup in E. destruct (Sym.lookup w (sy s)) as [[p |] |]; [| by injection E as _ <- | done].
  cbn [mbind option_bind] in E. destruct (zget _ p); [| done]. by injection E as _ <-.
Qed.
(** What ends badly may do what it likes. *)
Lemma quiet_bad {A B} (good : B -> Prop) (m : M A) b : ~ good b -> quiet good (m;; mret b).
Proof.
  intros Hb s y s' E Hg. unfold mbind, M_bind in E. destruct (m s) as [[z s1] |]; [| done].
  assert (b = y) as -> by (injection E; auto). done.
Qed.
Create HintDb quiet.
#[export] Hint Resolve quiet_bind quiet_ret quiet_get quiet_emit quiet_patch quiet_lookup : quiet.

Lemma resolve_quiet l : quiet (fun b => b = true) (resolve l).
Proof.
  induction l as [| f l IH]; cbn [resolve]; [apply quiet_ret |]. apply quiet_bind; [apply quiet_lookup |].
  intros [e |]; [apply quiet_bind; auto with quiet |].
  by apply quiet_bad.
Qed.
Lemma place_strings_quiet l : quiet any (place_strings l).
Proof. induction l; cbn [place_strings]; unfold skip_, emit_bytes; auto 10 with quiet. Qed.
Lemma store_inits_quiet l : quiet any (store_inits l).
Proof. induction l; cbn [store_inits]; unfold skip_; auto 10 with quiet. Qed.

Lemma emit_entry_quiet p : quiet (fun r => r = 0) (emit_entry p).
Proof.
  unfold emit_entry, pos. apply quiet_bind; [apply quiet_get |]. intros i. apply quiet_bind; [apply quiet_get |].
  intros t. apply quiet_bind; [apply store_inits_quiet |]. intros _. apply quiet_bind; [apply quiet_lookup |].
  intros [e |]; [repeat (apply quiet_bind; [auto with quiet | intros ?]); apply quiet_ret |].
  by apply quiet_bad.
Qed.

Lemma emit_entry_wp p s : ok s -> place p -> wp (emit_entry p) (fun r s' => post s s' /\ (r = 0 \/ r = -1)) s.
Proof. intros. unfold emit_entry. wp_go; split; wp_leaf || auto. Qed.

Lemma resolve_used_wp s : ok s -> wp (resolve (used (FIXUPS s))) (fun _ => post s) s.
Proof. intros Ho. apply resolve_wp; [| done]. by apply Forall_take, (ok_fixups s Ho). Qed.
Lemma place_used_wp s : ok s -> wp (place_strings (used (STRINGS s))) (fun _ => post s) s.
Proof. intros Ho. apply place_strings_wp; [| done]. by apply Forall_take, (ok_strings s Ho). Qed.

Lemma reset_wp s : ok s -> wp (fun s => s ← reset_state s; Some (unit_, s)) (fun _ => ok) s.
Proof.
  intros [Hlx Hem Hsy Ht Hf Hi Hs Hl]. unfold wp, reset_state.
  destruct (table_set _ _ _ 0 (Typedef (copy_name (str "uint8")) TYPE_CHAR 0) 1 Ht) as (l & -> & Hl');
    [unfold MAX_TYPEDEFS; lia | done | unfold MAX_TYPEDEFS; lia |].
  eexists _, _. split; [done |].
  split; try done; (eapply table_count_ok; [eassumption | destruct Hf, Hi, Hs, Hl; lia]).
Qed.

(** What the parser ends with: 0 only when nothing was reported. *)
Definition program_post (r : Z) (s : pstate) : Prop :=
  ok s /\ (r = 0 \/ r = -1) /\ (r = 0 -> HAD_ERROR s = false /\ had_error (lx s) = false).

(** A specification with what a quiet run leaves alone. *)
Lemma wp_quiet {A} (good : A -> Prop) (m : M A) (Q : A -> pstate -> Prop) s : quiet good m -> wp m Q s ->
  wp m (fun x s' => Q x s' /\ (good x -> lx s' = lx s /\ HAD_ERROR s' = HAD_ERROR s)) s.
Proof. intros Hq (x & s' & E & HQ). exists x, s'. split; [done |]. split; [done |]. by apply Hq. Qed.

Lemma finish_wp p s : ok s -> place p -> HAD_ERROR s = false -> had_error (lx s) = false ->
  wp (t ← get FIXUPS; resolved ← resolve (used t);
      if negb (resolved : bool) then mret (-1) else
      t ← get STRINGS; place_strings (used t);; emit_entry p) program_post s.
Proof.
  intros Ho Hp He Hl. unfold program_post. apply wp_bind, wp_get, wp_bind.
  eapply wp_mono; [eapply wp_quiet; [apply resolve_quiet | by apply resolve_used_wp] |]. cbv beta.
  intros [] s1 [(Ho1 & _) Hq]; cbn [negb]; [| apply wp_ret; split_and!; auto; lia].
  destruct (Hq eq_refl) as [El1 Ee1]. apply wp_bind, wp_get, wp_bind.
  eapply wp_mono; [eapply wp_quiet; [apply place_strings_quiet | by apply place_used_wp] |]. cbv beta.
  intros u s2 [(Ho2 & _) Hq2]. destruct (Hq2 I) as [El2 Ee2].
  eapply wp_mono; [eapply wp_quiet; [apply emit_entry_quiet | by apply emit_entry_wp] |]. cbv beta.
  intros r s3 [[(Ho3 & _) Hr] Hq3]. split_and!; [done | done |]. intros E. destruct (Hq3 E) as [-> ->]. split; congruence.
Qed.

Lemma parse_program_wp s : ok s -> wp parse_program program_post s.
Proof.
  intros Ho. unfold parse_program. wp_step. eapply wp_mono; [by apply reset_wp |]. cbv beta. intros _ s1 H1.
  do 8 wp_step. wp_step. wp_step.
  destruct (HAD_ERROR s'1 || had_error (lx s'1)) eqn:E.
  - apply wp_ret. split_and!; [done | auto | lia].
  - apply orb_false_elim in E as []. by apply finish_wp.
Qed.

(** ** From any text *)

Lemma add_builtins_total addr l : forall t, syms_ok t -> exists t', add_builtins addr l t = Some t' /\ syms_ok t'.
Proof.
  induction l as [| n l IH]; intros t Ht; [by exists t |]. cbn [add_builtins]. unfold add_builtin.
  destruct (sym_add_total (str n) SYM_KERN_FUNC TYPE_INT 0 0 (addr n) t Ht) as (r & t1 & -> & H1).
  cbn [mbind option_bind]. by apply IH.
Qed.

Lemma empty_syms c : syms_ok (Symtab (replicate (Z.to_nat MAX_SYMBOLS) Symbol_new) 0 0
  (replicate (Z.to_nat MAX_STRUCT_DEFS) StructDef_new) 0 c).
Proof.
  split; cbn [SYMBOLS SYM_COUNT STRUCT_DEFS STRUCT_DEF_COUNT]; rewrite ?length_replicate; try (by vm_compute; lia); try done.
  apply Forall_replicate. split; [by vm_compute | vm_compute; done].
Qed.

Lemma set_up_ok addr source s : ok s -> exists s', set_up addr source s = Some s' /\ ok s'.
Proof.
  intros Ho. unfold set_up, Sym.init.
  destruct (add_builtins_total addr BUILTINS _ (empty_syms (console (sy s)))) as (t & -> & Ht). cbn [mbind option_bind].
  assert (Hw : Lex.wf (Lex.init source (out (lx s)))) by (split; [unfold SRC_LEN; cbn; lia | done | done]).
  destruct (next_progress _ Hw) as (l & -> & _ & Hl & _). cbn [mbind option_bind]. eexists. split; [done |].
  pose proof (EmitDecode.init_wf (em s)). by destruct Ho.
Qed.

(** C29: the compiler ends on every text.  Whatever the bytes of the source and
    wherever the kernel's functions are, with the static tables as an earlier run
    may have left them, the compilation returns 0 or -1: no loop or recursion
    exhausts its fuel, no table, patch or stack of loops is indexed out of range,
    and the code stays inside its buffer; it returns 0 only when neither the
    parser nor the lexer has reported an error. *)
Theorem compile_total addr source s :
  ok s -> exists r s', compile_text addr source s = Some (r, s') /\ program_post r s'.
Proof.
  intros Ho. destruct (set_up_ok addr source s Ho) as (s1 & E & H1).
  destruct (parse_program_wp s1 H1) as (r & s' & E' & Hp). exists r, s'. split; [| done].
  unfold compile_text. by rewrite E.
Qed.

(** ** Witness *)

(** The compiler's statics when the kernel starts. *)
Definition initial_state : pstate :=
  PState (Lex.init [] []) (Emit.init (Emitter [] 0 CC_LOAD_BASE 0)) (Symtab (replicate 256 Symbol_new) 0 0
      (replicate 16 StructDef_new) 0 [])
    (ExprInfo 0 (replicate 32 0) 0 0 0 0) (TypeInfo (replicate 32 0) false 0)
    (Table (replicate 32 (Typedef (replicate 32 0) 0 0)) 0) (Table (replicate 256 (MkFixup (replicate 32 0) 0)) 0)
    (Table (replicate 128 (MkInit 0 0)) 0) (Table (replicate 128 (MkString (replicate 128 0) 0 0)) 0)
    (Table (replicate 16 (MkLoop 0 (replicate 32 0) 0)) 0) false 0 0.

Lemma initial_ok : ok initial_state.
Proof.
  assert (Ht : forall A (P : A -> Prop) n x, P x -> table_ok (Z.of_nat n) P (Table (replicate n x) 0)).
  { intros A P n x Hx. split; cbn; [by rewrite length_replicate | lia | by apply Forall_replicate]. }
  pose proof place_0. split.
  - split; [cbn; unfold SRC_LEN; cbn; lia | done | done].
  - apply EmitDecode.init_wf.
  - apply empty_syms.
  - by apply (Ht _ _ 32%nat).
  - by apply (Ht _ _ 256%nat).
  - by apply (Ht _ _ 128%nat).
  - by apply (Ht _ _ 128%nat).
  - apply (Ht _ _ 16%nat). split; [done |]. split; [cbn; unfold MAX_BREAKS; lia | by apply Forall_replicate].
Qed.

Definition demo_source : list Z := str "fn main() -> i32 { let mut x: i32 = 3; while x < 10 { x += 2; } return x * 2; }".

Lemma compile_total_witness :
  exists s', compile_text (fun _ => 0x100000) demo_source initial_state = Some (0, s') /\ program_post 0 s'.
Proof.
  destruct (compile_total (fun _ => 0x100000) demo_source initial_state initial_ok) as (r & s' & E & Hp).
  assert (Er : fst <$> compile_text (fun _ => 0x100000) demo_source initial_state = Some 0) by (vm_compute; reflexivity).
  rewrite E in Er. cbn in Er. injection Er as ->. exists s'. split; [exact E | exact Hp].
Defined.
