(* ===== verification/X86.v ===== *)
(** The part of the 32-bit x86 processor that the code of the built-in compiler
    uses: registers, flags, byte memory, and one step of execution of the
    instructions that [EmitDecode] decodes.  It gives the code emitted by
    [src/src/rc/emit.rs] its meaning. *)
From S2P Require Import Prelude Emit EmitDecode.

(** ** State *)

Record flags := Flags { ZF : bool; SF : bool; OF : bool; CF : bool }.
(** [fl] is [None] where the manual leaves the flags undefined. *)
Record cpu := Cpu { regs : Z -> Z; eip : Z; fl : option flags; mem : Z -> Z }.

Definition rset (r v : Z) (f : Z -> Z) : Z -> Z := fun x => if x =? r then v else f x.
Definition set_reg (r v : Z) (c : cpu) : cpu := Cpu (rset r v (regs c)) (eip c) (fl c) (mem c).
Definition set_eip (v : Z) (c : cpu) : cpu := Cpu (regs c) v (fl c) (mem c).
Definition set_fl (f : option flags) (c : cpu) : cpu := Cpu (regs c) (eip c) f (mem c).
Definition set_mem (m : Z -> Z) (c : cpu) : cpu := Cpu (regs c) (eip c) (fl c) m.

(** [n] bytes from [a] on; addresses wrap at 4 GB. *)
Definition fetch (n : nat) (m : Z -> Z) (a : Z) : list Z := map (fun i => m (u32 (a + Z.of_nat i))) (seq 0 n).
Definition load32 (m : Z -> Z) (a : Z) : Z := le_val (fetch 4 m a).
Definition store8 (a v : Z) (m : Z -> Z) : Z -> Z := rset a v m.
Definition store32 (a v : Z) (m : Z -> Z) : Z -> Z := fun x =>
  let d := u32 (x - a) in if d <? 4 then nth (Z.to_nat d) (le_bytes 4 v) 0 else m x.

(** ** Operands and flags *)

Definition address (o : operand) (c : cpu) : option Z :=
  match o with
  | OReg _ => None
  | OMem base disp => Some (u32 (regs c base + disp))
  | OAbs a => Some a
  end.
Definition read32 (o : operand) (c : cpu) : Z :=
  match o with
  | OReg r => regs c r
  | OMem base disp => load32 (mem c) (u32 (regs c base + disp))
  | OAbs a => load32 (mem c) a
  end.
Definition write32 (o : operand) (v : Z) (c : cpu) : cpu :=
  match o with
  | OReg r => set_reg r v c
  | OMem base disp => set_mem (store32 (u32 (regs c base + disp)) v (mem c)) c
  | OAbs a => set_mem (store32 a v (mem c)) c
  end.
(** Byte operands: the registers AL, CL, DL and BL, or memory. *)
Definition read8 (o : operand) (c : cpu) : option Z :=
  match o with
  | OReg r => if r <? 4 then Some (u8 (regs c r)) else None
  | _ => a ← address o c; Some (mem c a)
  end.
Definition write8 (o : operand) (v : Z) (c : cpu) : option cpu :=
  match o with
  | OReg r => if r <? 4 then Some (set_reg r (regs c r - u8 (regs c r) + v) c) else None
  | _ => a ← address o c; Some (set_mem (store8 a v (mem c)) c)
  end.

Definition sign (v : Z) : bool := Z.testbit v 31.
Definition logic_flags (v : Z) : option flags := Some (Flags (v =? 0) (sign v) false false).
Definition add_flags (a b : Z) : option flags :=
  let v := u32 (a + b) in
  Some (Flags (v =? 0) (sign v) (negb (i32 a + i32 b =? i32 v)) (4294967296 <=? a + b)).
Definition sub_flags (a b : Z) : option flags :=
  let v := u32 (a - b) in Some (Flags (v =? 0) (sign v) (negb (i32 a - i32 b =? i32 v)) (a <? b)).

(** The condition codes; parity is not modelled. *)
Definition condition (cc : Z) (f : flags) : option bool :=
  if cc =? 0 then Some (OF f) else if cc =? 1 then Some (negb (OF f)) else
  if cc =? 2 then Some (CF f) else if cc =? 3 then Some (negb (CF f)) else
  if cc =? 4 then Some (ZF f) else if cc =? 5 then Some (negb (ZF f)) else
  if cc =? 6 then Some (CF f || ZF f) else if cc =? 7 then Some (negb (CF f || ZF f)) else
  if cc =? 8 then Some (SF f) else if cc =? 9 then Some (negb (SF f)) else
  if cc =? 12 then Some (xorb (SF f) (OF f)) else if cc =? 13 then Some (negb (xorb (SF f) (OF f))) else
  if cc =? 14 then Some (ZF f || xorb (SF f) (OF f)) else
  if cc =? 15 then Some (negb (ZF f || xorb (SF f) (OF f))) else None.

(** ** Execution *)

Inductive outcome := Next (c : cpu) | Divide_error.

Definition push32 (v : Z) (c : cpu) : cpu :=
  let sp := u32 (regs c REG_ESP - 4) in set_mem (store32 sp v (mem c)) (set_reg REG_ESP sp c).
Definition pop32 (c : cpu) : Z * cpu :=
  (load32 (mem c) (regs c REG_ESP), set_reg REG_ESP (u32 (regs c REG_ESP + 4)) c).

Definition exec_alu (f : alu) (o : operand) (b : Z) (c : cpu) : cpu :=
  let a := read32 o c in
  match f with
  | ADD => write32 o (u32 (a + b)) (set_fl (add_flags a b) c)
  | SUB => write32 o (u32 (a - b)) (set_fl (sub_flags a b) c)
  | CMP => set_fl (sub_flags a b) c
  | AND => write32 o (Z.land a b) (set_fl (logic_flags (Z.land a b)) c)
  | OR => write32 o (Z.lor a b) (set_fl (logic_flags (Z.lor a b)) c)
  | XOR => write32 o (Z.lxor a b) (set_fl (logic_flags (Z.lxor a b)) c)
  end.

(** EDX:EAX as a signed number by a signed operand. *)
Definition exec_idiv (b : Z) (c : cpu) : outcome :=
  let n := i64 (regs c REG_EDX * 4294967296 + regs c REG_EAX) in
  let d := i32 b in
  if d =? 0 then Divide_error else
  let q := Z.quot n d in
  if (q <? -2147483648) || (2147483647 <? q) then Divide_error else
  Next (set_reg REG_EAX (u32 q) (set_reg REG_EDX (u32 (Z.rem n d)) (set_fl None c))).

Definition shift_count (c : cpu) : Z := Z.land (regs c REG_ECX) 31.

(** [c] is the state with EIP after the instruction; [None] is what is not
    modelled. *)
Definition exec (i : x86) (c : cpu) : option outcome :=
  match i with
  | PUSH_imm v => Some (Next (push32 (u32 v) c))
  | PUSH r => Some (Next (push32 (regs c r) c))
  | POP r => let '(v, c) := pop32 c in Some (Next (set_reg r v c))
  | MOV_imm r v => Some (Next (set_reg r v c))
  | MOV_to o r => Some (Next (write32 o (regs c r) c))
  | MOV_from r o => Some (Next (set_reg r (read32 o c) c))
  | MOVB_to o r => if r <? 4 then c ← write8 o (u8 (regs c r)) c; Some (Next c) else None
  | MOVZXB r o => v ← read8 o c; Some (Next (set_reg r v c))
  | ALU f o r => Some (Next (exec_alu f o (regs c r) c))
  | ALU_imm f o v => Some (Next (exec_alu f o (u32 v) c))
  | IMUL r o => Some (Next (set_reg r (u32 (regs c r * read32 o c)) (set_fl None c)))
  | CDQ => Some (Next (set_reg REG_EDX (if sign (regs c REG_EAX) then 4294967295 else 0) c))
  | IDIV o => Some (exec_idiv (read32 o c) c)
  | NEG o => Some (Next (write32 o (u32 (- read32 o c)) (set_fl (sub_flags 0 (read32 o c)) c)))
  | NOT o => Some (Next (write32 o (u32 (Z.lnot (read32 o c))) c))
  | SHL_cl o => Some (Next (write32 o (u32 (Z.shiftl (read32 o c) (shift_count c))) (set_fl None c)))
  | SHR_cl o => Some (Next (write32 o (Z.shiftr (read32 o c) (shift_count c)) (set_fl None c)))
  | SETCC cc o => f ← fl c; b ← condition cc f; c ← write8 o (Z.b2z b) c; Some (Next c)
  | CALL_ind o => let t := read32 o c in Some (Next (set_eip t (push32 (eip c) c)))
  | CALL rel => Some (Next (set_eip (u32 (eip c + rel)) (push32 (eip c) c)))
  | RET => let '(t, c) := pop32 c in Some (Next (set_eip t c))
  | JMP rel => Some (Next (set_eip (u32 (eip c + rel)) c))
  | JCC cc rel =>
      f ← fl c; b ← condition cc f; Some (Next (if (b : bool) then set_eip (u32 (eip c + rel)) c else c))
  end.

(** An instruction is at most 15 bytes. *)
Definition max_instr : nat := 15.
Definition step (c : cpu) : option outcome :=
  '(i, rest) ← decode1 (fetch max_instr (mem c) (eip c));
  exec i (set_eip (u32 (eip c + Z.of_nat (max_instr - length rest))) c).

Definition steps_to (c c' : cpu) : Prop := step c = Some (Next c').
Definition steps : cpu -> cpu -> Prop := rtc steps_to.

Lemma steps_trans a b c : steps a b -> steps b c -> steps a c.
Proof. intros. by etrans. Qed.

(** A run of at most [n] steps, for concrete machines. *)
Fixpoint run (n : nat) (stop : Z) (c : cpu) : option outcome :=
  if eip c =? stop then Some (Next c) else
  match n with
  | O => None
  | S n =>
      match step c with
      | Some (Next c) => run n stop c
      | o => o
      end
  end.

Lemma run_steps n stop : forall c c', run n stop c = Some (Next c') -> steps c c' /\ eip c' = stop.
Proof.
  induction n as [| n IH]; intros c c'; cbn [run]; destruct (Z.eqb_spec (eip c) stop).
  - intros [= <-]. split; [apply rtc_refl | done].
  - done.
  - intros [= <-]. split; [apply rtc_refl | done].
  - destruct (step c) as [[c1 |] |] eqn:E; try done. intros H. apply IH in H as [H ?].
    split; [by eapply rtc_l | done].
Qed.

(** ** Memory *)

Lemma rset_eq r v f : rset r v f r = v.
Proof. unfold rset. by rewrite Z.eqb_refl. Qed.
Lemma rset_ne r v f x : x <> r -> rset r v f x = f x.
Proof. intros Hn. unfold rset. by rewrite (proj2 (Z.eqb_neq _ _) Hn). Qed.

Lemma length_fetch n m a : length (fetch n m a) = n.
Proof. unfold fetch. by rewrite length_map, length_seq. Qed.

Lemma fetch_lookup n m a i : (i < n)%nat -> fetch n m a !! i = Some (m (u32 (a + Z.of_nat i))).
Proof. intros Hi. unfold fetch. rewrite list_lookup_fmap, lookup_seq_lt by done. done. Qed.

Lemma fetch_ext n m m' a : (forall i, (i < n)%nat -> m (u32 (a + Z.of_nat i)) = m' (u32 (a + Z.of_nat i))) ->
  fetch n m a = fetch n m' a.
Proof. intros H. unfold fetch. apply map_ext_in. intros i [_ Hi]%in_seq. by apply H. Qed.

Lemma load32_ext m m' a : (forall i, 0 <= i < 4 -> m (u32 (a + i)) = m' (u32 (a + i))) -> load32 m a = load32 m' a.
Proof. intros H. unfold load32. f_equal. apply fetch_ext. intros. apply H. lia. Qed.

Lemma load32_range m a : (forall x, is_byte (m x)) -> word32 (load32 m a).
Proof.
  intros H. pose proof (le_val_range (fetch 4 m a)) as Hr. rewrite length_fetch in Hr. apply Hr.
  apply Forall_forall. intros x Hx. apply list_elem_of_fmap in Hx as (i & -> & _). apply H.
Qed.

Lemma store32_out a v m x : 4 <= u32 (x - a) -> store32 a v m x = m x.
Proof. intros H. unfold store32. cbv zeta. by rewrite (proj2 (Z.ltb_ge _ _)). Qed.

Lemma load32_store32 a v m : word32 v -> load32 (store32 a v m) a = v.
Proof.
  intros Hv. unfold load32. transitivity (le_val (le_bytes 4 v)); [f_equal | by apply le_val_4].
  apply list_eq. intros i. destruct (decide (i < 4)%nat) as [Hi |].
  - rewrite fetch_lookup by done. unfold store32. cbv zeta.
    assert (E : u32 (u32 (a + Z.of_nat i) - a) = Z.of_nat i).
    { unfold u32. rewrite Zminus_mod_idemp_l. rewrite Z.mod_small by lia. lia. }
    rewrite E, (proj2 (Z.ltb_lt _ _)) by lia. rewrite Nat2Z.id.
    destruct i as [| [| [| [| i]]]]; [done.. | lia].
  - rewrite !lookup_ge_None_2; [done | rewrite length_le_bytes; lia | rewrite length_fetch; lia].
Qed.
