(* ===== verification/ExprSpec.v ===== *)
(** The expressions of the built-in compiler's language, as far as they are
    about integers: their syntax, the tokens they are written with and their
    values.  It is the specification of the expression parser of
    [src/src/rc/parse.rs]: what the code it emits has to compute. *)
From S2P Require Import Prelude StringRs Lex Emit EmitDecode Sym ParseState ParseExpr X86.

(** ** Syntax *)

Inductive binop :=
| LOr | LAnd | BOr | BXor | BAnd | EQ | NE | LT | GT | LE | GE | LSh | RSh | Plus | Minus | Times | Quot | Rem.
#[export] Instance binop_eq_dec : EqDecision binop.
Proof. solve_decision. Defined.
(** Parentheses are part of the syntax. *)
Inductive expr :=
| Num (v : Z) | Bool (b : bool) | Var (w : list Z) | Paren (e : expr)
| Opp (e : expr) | Compl (e : expr) | Bin (o : binop) (l r : expr).

(** Precedence: a higher level binds tighter. *)
Definition lvl (o : binop) : nat :=
  match o with
  | LOr => 0 | LAnd => 1 | BOr => 2 | BXor => 3 | BAnd => 4 | EQ | NE => 5 | LT | GT | LE | GE => 6
  | LSh | RSh => 7 | Plus | Minus => 8 | Times | Quot | Rem => 9
  end%nat.
Definition level (e : expr) : nat := match e with Bin o _ _ => lvl o | _ => 10 end.

(** The parentheses that precedence and left association require are there. *)
Fixpoint grouped (e : expr) : bool :=
  match e with
  | Num _ | Bool _ | Var _ => true
  | Paren e => grouped e
  | Opp e | Compl e => grouped e && (10 <=? level e)%nat
  | Bin o l r => grouped l && grouped r && (lvl o <=? level l)%nat && (lvl o <? level r)%nat
  end.

Definition op_token (o : binop) : tok_type :=
  match o with
  | LOr => TOK_OR | LAnd => TOK_AND | BOr => TOK_PIPE | BXor => TOK_CARET | BAnd => TOK_AMP
  | EQ => TOK_EQ | NE => TOK_NEQ | LT => TOK_LT | GT => TOK_GT | LE => TOK_LTE | GE => TOK_GTE
  | LSh => TOK_LSHIFT | RSh => TOK_RSHIFT | Plus => TOK_PLUS | Minus => TOK_MINUS
  | Times => TOK_STAR | Quot => TOK_SLASH | Rem => TOK_PERCENT
  end.

(** What is read of a token. *)
Inductive tk := T (t : tok_type) | TNum (v : Z) | TId (w : list Z).
Definition tk_type (x : tk) : tok_type := match x with T t => t | TNum _ => TOK_NUM | TId _ => TOK_IDENT end.
Definition is_token (x : tk) (t : Token) : Prop :=
  Lex.tt t = tk_type x /\
  match x with T _ => True | TNum v => num_val t = v | TId w => cstr (str_val t) = w end.

Fixpoint toks (e : expr) : list tk :=
  match e with
  | Num v => [TNum v]
  | Bool b => [T (if b then TOK_TRUE else TOK_FALSE)]
  | Var w => [TId w]
  | Paren e => T TOK_LPAREN :: toks e ++ [T TOK_RPAREN]
  | Opp e => T TOK_MINUS :: toks e
  | Compl e => T TOK_BANG :: toks e
  | Bin o l r => toks l ++ T (op_token o) :: toks r
  end.

(** The lexer is about to give these tokens. *)
Fixpoint lexes (l : list tk) (s : lexer) : Prop :=
  match l with
  | [] => True
  | x :: l => is_token x (peek s) /\ exists s', Lex.next s = Some s' /\ lexes l s'
  end.

(** ** Values

    Words of 32 bits; [None] is a division that faults. *)

Definition divides (x y : Z) : bool := negb (y =? 0) && negb ((i32 x =? -2147483648) && (i32 y =? -1)).
Definition strict_word (o : binop) (x y : Z) : option Z :=
  match o with
  | LOr | LAnd => None
  | BOr => Some (Z.lor x y) | BXor => Some (Z.lxor x y) | BAnd => Some (Z.land x y)
  | EQ => Some (Z.b2z (x =? y)) | NE => Some (Z.b2z (negb (x =? y)))
  | LT => Some (Z.b2z (i32 x <? i32 y)) | GT => Some (Z.b2z (i32 y <? i32 x))
  | LE => Some (Z.b2z (i32 x <=? i32 y)) | GE => Some (Z.b2z (i32 y <=? i32 x))
  | LSh => Some (u32 (Z.shiftl x (y mod 32))) | RSh => Some (Z.shiftr x (y mod 32))
  | Plus => Some (u32 (x + y)) | Minus => Some (u32 (x - y)) | Times => Some (u32 (x * y))
  | Quot => if divides x y then Some (u32 (Z.quot (i32 x) (i32 y))) else None
  | Rem => if divides x y then Some (u32 (Z.rem (i32 x) (i32 y))) else None
  end.
(** The right operand of [||] and [&&] counts only when it is needed. *)
Definition bin_word (o : binop) (x y : option Z) : option Z :=
  x ← x;
  match o with
  | LOr => if x =? 0 then y ← y; Some (Z.b2z (negb (y =? 0))) else Some 1
  | LAnd => if x =? 0 then Some 0 else y ← y; Some (Z.b2z (negb (y =? 0)))
  | _ => y ← y; strict_word o x y
  end.

Fixpoint eval (rho : list Z -> Z) (e : expr) : option Z :=
  match e with
  | Num v => Some (u32 v)
  | Bool b => Some (Z.b2z b)
  | Var w => Some (rho w)
  | Paren e => eval rho e
  | Opp e => x ← eval rho e; Some (u32 (- x))
  | Compl e => x ← eval rho e; Some (u32 (Z.lnot x))
  | Bin o l r => bin_word o (eval rho l) (eval rho r)
  end.

(** ** Variables *)

(** The entry of a name, which is cut to 31 characters. *)
Definition entry_of (t : symtab) (w : list Z) : option Symbol :=
  p ← Sym.lookup (cstr (copy_name w)) t;
  match p with None => None | Some p => zget (SYMBOLS t) p end.

(** An integer variable or constant: neither a pointer nor a struct nor a
    function. *)
Definition scalar (e : Symbol) : bool :=
  (is_ptr e =? 0) && negb (has_struct e) &&
  ((is_frame (kind e) && (-2147483648 <=? Sym.offset e) && (Sym.offset e <=? 2147483647)) ||
   ((kind e =? SYM_GLOBAL) || (kind e =? SYM_CONST)) && (0 <=? addr e) && (addr e <=? 4294967295)).
(** The four bytes it is kept in. *)
Definition home (e : Symbol) (ebp : Z) : Z := if is_frame (kind e) then u32 (ebp + Sym.offset e) else addr e.
Definition value_of (e : Symbol) (m : Z -> Z) (ebp : Z) : Z :=
  if kind e =? SYM_CONST then addr e else load32 m (home e ebp).
Definition valuation (t : symtab) (m : Z -> Z) (ebp : Z) (w : list Z) : Z :=
  match entry_of t w with Some e => value_of e m ebp | None => 0 end.

Fixpoint all_vars (P : list Z -> Prop) (e : expr) : Prop :=
  match e with
  | Num _ | Bool _ => True
  | Var w => P w
  | Paren e | Opp e | Compl e => all_vars P e
  | Bin _ l r => all_vars P l /\ all_vars P r
  end.
Lemma all_vars_impl e (P Q : list Z -> Prop) : (forall w, P w -> Q w) -> all_vars P e -> all_vars Q e.
Proof. intros H. induction e; cbn; tauto || auto. Qed.
Definition declared (t : symtab) (w : list Z) : Prop := from_option scalar false (entry_of t w).

(** ** Sizes: the code of an expression, and the words it pushes at most *)

Definition op_size (o : binop) : Z :=
  match o with
  | LOr => 32 | LAnd => 22 | BOr | BXor | BAnd | Plus | Minus | LSh | RSh => 6
  | EQ | NE | LT | GT | LE | GE => 12 | Times | Quot => 7 | Rem => 9
  end.
Definition var_size (t : symtab) (w : list Z) : Z :=
  match entry_of t w with Some e => if kind e =? SYM_CONST then 5 else 6 | None => 0 end.
Fixpoint code_size (t : symtab) (e : expr) : Z :=
  match e with
  | Num _ | Bool _ => 5
  | Var w => var_size t w
  | Paren e => code_size t e
  | Opp e | Compl e => code_size t e + 2
  | Bin o l r => code_size t l + code_size t r + op_size o
  end.
Fixpoint operators (e : expr) : nat :=
  match e with
  | Num _ | Bool _ | Var _ => 0
  | Paren e | Opp e | Compl e => operators e
  | Bin _ l r => S (operators l + operators r)
  end.

(** The four bytes of each variable are in a set of addresses. *)
Definition homes (t : symtab) (safe : Z -> Prop) (ebp : Z) : expr -> Prop :=
  all_vars (fun w => forall y i, entry_of t w = Some y -> kind y <> SYM_CONST -> 0 <= i < 4 -> safe (u32 (home y ebp + i))).

Lemma op_size_nonneg o : 0 <= op_size o.
Proof. by destruct o. Qed.
Lemma code_size_nonneg t e : 0 <= code_size t e.
Proof.
  induction e; cbn [code_size]; try lia.
  - unfold var_size. destruct (entry_of t w); [case_if |]; lia.
  - pose proof (op_size_nonneg o). lia.
Qed.
