(* ===== verification/ExprCode.v ===== *)
(** The code of an expression computes its value: the pieces of machine code that
    the expression parser emits, executed by the processor of [X86]. *)
From S2P Require Import Prelude Sym ParseState ParseExpr Emit EmitDecode X86 ExprSpec.

(** ** Arithmetic of words *)

Lemma sign_i32 v : word32 v -> sign v = (i32 v <? 0).
Proof.
  intros Hv. unfold sign, word32 in *. rewrite Z.testbit_eqb by lia. change (2 ^ 31) with 2147483648.
  unfold i32. destruct (Z.ltb_spec ((v + 2147483648) mod 4294967296 - 2147483648) 0) as [H | H];
    [rewrite (proj2 (Z.eqb_eq _ _)) | rewrite (proj2 (Z.eqb_neq _ _))]; try done; mod_lia.
Qed.

Lemma i32_range z : -2147483648 <= i32 z < 2147483648.
Proof. unfold i32. mod_lia. Qed.
Lemma i32_mod z : word32 z -> i32 z = z \/ i32 z = z - 4294967296.
Proof. unfold word32, i32. intros. mod_lia. Qed.
Lemma u32_i32 z : u32 (i32 z) = u32 z.
Proof.
  unfold i32, u32. rewrite Zminus_mod_idemp_l. f_equal. lia.
Qed.

(** Signed comparison by the flags of a subtraction. *)
Lemma less_flags x y : word32 x -> word32 y ->
  xorb (sign (u32 (x - y))) (negb (i32 x - i32 y =? i32 (u32 (x - y)))) = (i32 x <? i32 y).
Proof.
  intros Hx Hy. pose proof (u32_range (x - y)) as Hr. rewrite sign_i32 by done.
  pose proof (i32_range x). pose proof (i32_range y). pose proof (i32_range (u32 (x - y))).
  assert (E : exists k, u32 (x - y) = x - y + k * 4294967296) by (exists (- ((x - y) / 4294967296)); unfold u32; mod_lia).
  destruct E as [k Ek].
  destruct (Z.eqb_spec (i32 x - i32 y) (i32 (u32 (x - y)))), (Z.ltb_spec (i32 (u32 (x - y))) 0),
    (Z.ltb_spec (i32 x) (i32 y)); cbn; try done; exfalso;
    destruct (i32_mod x Hx), (i32_mod y Hy), (i32_mod _ Hr); lia.
Qed.
Lemma equal_flags x y : word32 x -> word32 y -> (u32 (x - y) =? 0) = (x =? y).
Proof.
  unfold word32, u32. intros Hx Hy. destruct (Z.eqb_spec x y) as [-> |].
  - by rewrite Z.sub_diag.
  - apply Z.eqb_neq. mod_lia.
Qed.
Lemma i32_inj x y : word32 x -> word32 y -> i32 x = i32 y -> x = y.
Proof. intros Hx Hy. unfold word32 in *. destruct (i32_mod x Hx), (i32_mod y Hy); lia. Qed.

Lemma strict_word_range o x y v : word32 x -> word32 y -> strict_word o x y = Some v -> word32 v.
Proof.
  intros Hx Hy. unfold word32 in *. pose proof (fun z => u32_range z) as Hu.
  assert (Hb : forall b, 0 <= Z.b2z b < 4294967296) by (intros []; cbn; lia).
  assert (Hl : 0 <= Z.lor x y < 2 ^ 32) by (apply lor_bound; lia).
  assert (Ha : 0 <= Z.land x y < 2 ^ 32) by (apply land_bound_l; lia).
  assert (Hxor : 0 <= Z.lxor x y < 2 ^ 32).
  { assert (0 <= Z.lxor x y) by (apply Z.lxor_nonneg; lia). split; [done |].
    apply bits_bound; [lia | done |]. intros i Hi. rewrite Z.lxor_spec.
    by rewrite (bits_high 32 x), (bits_high 32 y) by lia. }
  assert (Hsh : 0 <= Z.shiftr x (y mod 32) < 4294967296).
  { assert (0 <= y mod 32) by (apply Z.mod_pos_bound; lia). rewrite Z.shiftr_div_pow2 by lia.
    assert (0 < 2 ^ (y mod 32)) by (apply Z.pow_pos_nonneg; lia). split; [apply Z.div_pos; lia |].
    apply Z.div_lt_upper_bound; nia. }
  destruct o; cbn [strict_word]; try (case_if); intros [=]; subst; auto.
Qed.
Lemma bin_word_range o x y v : (forall a, x = Some a -> word32 a) -> (forall a, y = Some a -> word32 a) ->
  bin_word o x y = Some v -> word32 v.
Proof.
  intros Hx Hy. unfold bin_word. destruct x as [a |]; cbn [mbind option_bind]; [| done].
  assert (Hb : forall b, word32 (Z.b2z b)) by (intros []; unfold word32; cbn; lia).
  specialize (Hx a eq_refl).
  destruct o; try (destruct y as [b |]; cbn [mbind option_bind]; [exact (strict_word_range _ _ _ _ Hx (Hy b eq_refl)) | done]);
    case_if; try (intros [= <-]; unfold word32; lia);
    (destruct y as [b |]; cbn [mbind option_bind]; [intros [= <-]; auto | done]).
Qed.

(** ** Pieces of code

    A piece is an instruction with its encoding. *)

Definition piece : Type := list Z * x86.
Definition piece_ok (p : piece) : Prop :=
  (length p.1 <= max_instr)%nat /\ forall rest, decode1 (p.1 ++ rest) = Some (p.2, rest).
Definition code_of (ps : list piece) : list Z := concat (map fst ps).

(** Instructions that write only EAX, ECX, EDX, ESP and the flags, and do not
    jump. *)
Definition calm (i : x86) : bool :=
  match i with
  | POP r | MOV_imm r _ | MOV_from r _ | MOVZXB r _ | IMUL r _ => r <? 3
  | MOV_to (OReg r) _ | ALU _ (OReg r) _ | ALU_imm _ (OReg r) _ | NEG (OReg r) | NOT (OReg r) | SHL_cl (OReg r)
  | SHR_cl (OReg r) | SETCC _ (OReg r) => r <? 3
  | CDQ | IDIV _ => true
  | _ => false
  end.
Definition pieces_ok (ps : list piece) : Prop := Forall (fun p => piece_ok p /\ calm p.2 = true) ps.

Fixpoint exec_all (ps : list piece) (c : cpu) : option outcome :=
  match ps with
  | [] => Some (Next c)
  | p :: ps =>
      match exec p.2 (set_eip (eip c + Z.of_nat (length p.1)) c) with
      | Some (Next c) => exec_all ps c
      | o => o
      end
  end.

(** What a calm instruction leaves alone. *)
Definition kept (c c' : cpu) : Prop := mem c' = mem c /\ eip c' = eip c /\ regs c' REG_EBP = regs c REG_EBP.
Lemma kept_refl c : kept c c.
Proof. done. Qed.
Lemma kept_reg r v c c' : r <> REG_EBP -> kept c c' -> kept c (set_reg r v c').
Proof. intros Hr (? & ? & ?). split_and!; [done | done |]. cbn. by rewrite rset_ne. Qed.
Lemma kept_fl f c c' : kept c c' -> kept c (set_fl f c').
Proof. done. Qed.
Create HintDb kept discriminated.
#[local] Hint Resolve kept_refl kept_reg kept_fl : kept.
#[local] Hint Extern 2 (_ <> REG_EBP) => unfold REG_EBP, REG_EAX, REG_EDX, REG_ESP; lia : kept.

Lemma kept_alu f r b c : r < 3 -> kept c (exec_alu f (OReg r) b c).
Proof. intros Hr. destruct f; cbn [exec_alu write32]; auto 6 with kept. Qed.
Lemma kept_idiv b c c' : exec_idiv b c = Next c' -> kept c c'.
Proof. unfold exec_idiv. cbv zeta. repeat case_if; intros [= <-]. auto 6 with kept. Qed.
#[local] Hint Resolve kept_alu : kept.

Lemma calm_exec i c c' : calm i = true -> exec i c = Some (Next c') -> kept c c'.
Proof.
  intros Hc. destruct i; try discriminate; try (destruct o; try discriminate); cbn [calm exec] in *; breflect;
    try (by intros [= <-]; auto 6 with kept); try (intros [= H]; by eapply kept_idiv).
  - destruct (read8 _ c); cbn; [intros [= <-]; auto with kept | done].
  - destruct (fl c) as [fs |]; cbn; [| done]. destruct (condition cc fs); cbn; [| done].
    case_if; cbn; [intros [= <-]; auto with kept | done].
Qed.

(** ** What follows the operands

    The left operand is on the stack, the right one in EAX. *)

Definition boolean : list piece := [
  (op_code (Setcc CC_NE REG_EAX), SETCC CC_NE (OReg REG_EAX));
  (op_code Movzx_eax_al, MOVZXB REG_EAX (OReg REG_EAX))].
Definition compare_pieces (cc : Z) : list piece := [
  (op_code (Cmp REG_EAX REG_ECX), ALU CMP (OReg REG_EAX) REG_ECX);
  (op_code (Setcc cc REG_EAX), SETCC cc (OReg REG_EAX));
  (op_code Movzx_eax_al, MOVZXB REG_EAX (OReg REG_EAX))].
Definition alu_piece (f : alu) (o : op) : list piece := [(op_code o, ALU f (OReg REG_EAX) REG_ECX)].
Definition idiv_pieces : list piece := [([0x99], CDQ); ([0xF7; 0xF9], IDIV (OReg REG_ECX))].

Definition op_pieces (o : binop) : list piece :=
  match o with
  | LOr | LAnd => []
  | BOr => alu_piece OR (Or REG_EAX REG_ECX) | BXor => alu_piece XOR (Xor REG_EAX REG_ECX)
  | BAnd => alu_piece AND (And REG_EAX REG_ECX) | Plus => alu_piece ADD (Add REG_EAX REG_ECX)
  | Minus => alu_piece SUB (Sub REG_EAX REG_ECX)
  | Times => [(op_code (Imul REG_EAX REG_ECX), IMUL REG_EAX (OReg REG_ECX))]
  | LSh => [(op_code (Shl REG_EAX), SHL_cl (OReg REG_EAX))]
  | RSh => [(op_code (Shr REG_EAX), SHR_cl (OReg REG_EAX))]
  | EQ => compare_pieces CC_E | NE => compare_pieces CC_NE | LT => compare_pieces CC_L
  | GT => compare_pieces CC_G | LE => compare_pieces CC_LE | GE => compare_pieces CC_GE
  | Quot => idiv_pieces
  | Rem => idiv_pieces ++ [(op_code (Mov_reg_reg REG_EAX REG_EDX), MOV_to (OReg REG_EAX) REG_EDX)]
  end.
Definition swap_pieces : list piece := [
  (op_code (Mov_reg_reg REG_ECX REG_EAX), MOV_to (OReg REG_ECX) REG_EAX); (op_code (Pop_reg REG_EAX), POP REG_EAX)].

Lemma piece_of_op o i : op_ok o -> meaning o = [i] -> (length (op_code o) <= max_instr)%nat -> piece_ok (op_code o, i).
Proof.
  intros Ho Em Hl. split; [done |]. intros rest. pose proof (op_decodes o rest Ho) as Hd. rewrite Em in Hd.
  destruct Hd as (l' & E & <-). exact E.
Qed.

Ltac op_piece := apply piece_of_op; [cbn; unfold word32, int32, reg, REG_EAX, REG_ECX, REG_EDX, CC_E, CC_NE, CC_L, CC_G, CC_LE, CC_GE; lia | reflexivity | apply Nat.leb_le; reflexivity].
Lemma idiv_pieces_ok : pieces_ok idiv_pieces.
Proof. repeat constructor. Qed.
Lemma op_pieces_ok o : pieces_ok (op_pieces o).
Proof.
  destruct o; cbn [op_pieces]; try apply idiv_pieces_ok; try apply Forall_app_2; try apply idiv_pieces_ok;
    repeat (apply List.Forall_nil || apply List.Forall_cons); (split; [cbn [fst snd]; op_piece | reflexivity]).
Qed.
Lemma swap_ok : pieces_ok swap_pieces.
Proof. repeat (apply List.Forall_nil || apply List.Forall_cons); (split; [op_piece | reflexivity]). Qed.
Lemma boolean_ok : pieces_ok boolean.
Proof. repeat (apply List.Forall_nil || apply List.Forall_cons); (split; [op_piece | reflexivity]). Qed.

Lemma set_byte a b : u8 (a - u8 a + Z.b2z b) = Z.b2z b.
Proof. destruct b; unfold u8, Z.b2z; mod_lia. Qed.

(** Executed to the end, the pieces leave [v] in EAX and do not move the stack. *)
Definition leaves (ps : list piece) (c : cpu) (v : option Z) : Prop :=
  match v with
  | Some v => exists c', exec_all ps c = Some (Next c') /\ regs c' REG_EAX = v /\ regs c' REG_ESP = regs c REG_ESP
  | None => exec_all ps c = Some Divide_error
  end.

Lemma compare_leaves cc c x y b : word32 x -> word32 y -> regs c REG_EAX = x -> regs c REG_ECX = y ->
  (forall f, sub_flags x y = Some f -> condition cc f = Some b) -> leaves (compare_pieces cc) c (Some (Z.b2z b)).
Proof.
  intros Hx Hy Ex Ey Hb. specialize (Hb _ eq_refl). cbv zeta in Hb.
  eexists. split; [| split].
  - cbn -[sub_flags condition u8 sign u32]. rewrite Ex, Ey. unfold sub_flags. cbv zeta. cbn -[condition u8 sign u32].
    rewrite Hb. cbn -[u8]. reflexivity.
  - cbn -[u8]. apply set_byte.
  - done.
Qed.
Lemma boolean_leaves c x f : fl c = Some f -> ZF f = (x =? 0) -> leaves boolean c (Some (Z.b2z (negb (x =? 0)))).
Proof.
  intros Ef Ez. eexists. split; [| split].
  - cbn -[u8]. rewrite Ef. cbn -[u8]. reflexivity.
  - cbn -[u8]. rewrite Ez. apply set_byte.
  - done.
Qed.

(** Sign extension into EDX gives the signed dividend. *)
Lemma cdq_dividend x : word32 x -> i64 ((if sign x then 4294967295 else 0) * 4294967296 + x) = i32 x.
Proof.
  intros Hx. rewrite (sign_i32 x Hx). unfold word32 in Hx. unfold i64.
  destruct (i32_mod x Hx); destruct (Z.ltb_spec (i32 x) 0); pose proof (i32_range x);
    rewrite ?Z.mod_small by lia; try lia; mod_lia.
Qed.
Lemma quot_overflow a b : -2147483648 <= a <= 2147483647 -> -2147483648 <= b <= 2147483647 -> b <> 0 ->
  (Z.quot a b <? -2147483648) || (2147483647 <? Z.quot a b) = ((a =? -2147483648) && (b =? -1)).
Proof.
  intros Ha Hb Hn. destruct (Z.eqb_spec b (-1)) as [-> |].
  - change (-1) with (- (1)). rewrite Z.quot_opp_r, Z.quot_1_r by lia.
    destruct (Z.eqb_spec a (-2147483648)) as [-> |]; [done |]. cbn [andb].
    apply orb_false_intro; apply Z.ltb_ge; lia.
  - rewrite andb_false_r. pose proof (Z.quot_abs a b Hn) as Hq.
    destruct (decide (b = 1)) as [-> |].
    { rewrite Z.quot_1_r. apply orb_false_intro; apply Z.ltb_ge; lia. }
    assert (Z.quot (Z.abs a) (Z.abs b) <= 1073741824).
    { rewrite Z.quot_div_nonneg by lia. apply Z.div_le_upper_bound; lia. }
    apply orb_false_intro; apply Z.ltb_ge; lia.
Qed.
Lemma i32_zero y : word32 y -> (i32 y =? 0) = (y =? 0).
Proof.
  intros Hy. pose proof (i32_range y). destruct (i32_mod y Hy); unfold word32 in Hy; destruct (Z.eqb_spec y 0);
    [apply Z.eqb_eq | apply Z.eqb_neq | apply Z.eqb_eq | apply Z.eqb_neq]; lia.
Qed.

(** IDIV after CDQ: the quotient and the remainder of signed words, or the
    fault. *)
Lemma exec_idiv_spec c x y : word32 x -> word32 y -> regs c REG_EAX = x ->
  regs c REG_EDX = (if sign x then 4294967295 else 0) ->
  exec_idiv y c =
    if divides x y
    then Next (set_reg REG_EAX (u32 (Z.quot (i32 x) (i32 y)))
                (set_reg REG_EDX (u32 (Z.rem (i32 x) (i32 y))) (set_fl None c)))
    else Divide_error.
Proof.
  intros Hx Hy Ex Ed. unfold exec_idiv, divides. cbv zeta. rewrite Ex, Ed, cdq_dividend, i32_zero by done.
  destruct (Z.eqb_spec y 0) as [| Hn]; [done |]. cbn [negb andb].
  pose proof (i32_range x). pose proof (i32_range y).
  rewrite quot_overflow; [by destruct (_ && _) | lia | lia |].
  intros E. apply Hn. pose proof (i32_zero y Hy) as Ez. rewrite E in Ez. by apply Z.eqb_eq.
Qed.

Lemma div_leaves o c x y : o = Quot \/ o = Rem -> word32 x -> word32 y -> regs c REG_EAX = x -> regs c REG_ECX = y ->
  leaves (op_pieces o) c (strict_word o x y).
Proof.
  intros Ho Hx Hy Ex Ey.
  assert (E : exists c1, regs c1 REG_EAX = x /\ regs c1 REG_EDX = (if sign x then 4294967295 else 0) /\
    regs c1 REG_ESP = regs c REG_ESP /\
    forall ps, exec_all (idiv_pieces ++ ps) c = match exec_idiv y c1 with Next c' => exec_all ps c' | o => Some o end).
  { eexists. split; [| split; [| split]]; [| | | intros ps; cbn -[exec_idiv sign]; rewrite Ex, Ey; reflexivity];
      cbn -[sign]; by rewrite ?Ex. }
  destruct E as (c1 & Ea & Ed & Es & E). pose proof (exec_idiv_spec c1 x y Hx Hy Ea Ed) as Ei.
  destruct Ho as [-> | ->]; cbn [op_pieces strict_word].
  - rewrite <- (app_nil_r idiv_pieces). unfold leaves. rewrite E, Ei. destruct (divides x y); [| done].
    eexists. by split.
  - unfold leaves. rewrite E, Ei. destruct (divides x y); [| done]. eexists. by split.
Qed.

Lemma order_cases x y : word32 x -> word32 y ->
  negb ((x =? y) || (i32 x <? i32 y)) = (i32 y <? i32 x) /\
  ((x =? y) || (i32 x <? i32 y)) = (i32 x <=? i32 y) /\ negb (i32 x <? i32 y) = (i32 y <=? i32 x).
Proof.
  intros Hx Hy. destruct (Z.eqb_spec x y) as [-> | Hn].
  - by rewrite Z.ltb_irrefl, Z.leb_refl.
  - assert (i32 x <> i32 y) by (intros E; by apply Hn, i32_inj).
    destruct (Z.ltb_spec (i32 x) (i32 y)), (Z.ltb_spec (i32 y) (i32 x)), (Z.leb_spec (i32 x) (i32 y)),
      (Z.leb_spec (i32 y) (i32 x)); cbn; split_and!; try done; lia.
Qed.
Lemma count_mod y : Z.land y 31 = y mod 32.
Proof. change 31 with (Z.ones 5). by rewrite Z.land_ones. Qed.

Lemma op_leaves o c x y : word32 x -> word32 y -> regs c REG_EAX = x -> regs c REG_ECX = y ->
  o <> LOr -> o <> LAnd -> leaves (op_pieces o) c (strict_word o x y).
Proof.
  intros Hx Hy Ex Ey H1 H2.
  destruct o; try done; try (apply div_leaves; auto; fail); cbn [strict_word];
    try (eexists; split; [reflexivity | split; [cbn -[u32]; by rewrite Ex, Ey | done]]; fail).
  all: try (apply compare_leaves with (x := x) (y := y); auto; intros f [= <-]; cbn -[u32 i32 sign];
            rewrite ?less_flags, ?equal_flags by done; f_equal; destruct (order_cases x y Hx Hy) as (? & ? & ?); done).
  - eexists. split; [reflexivity | split; [| done]]. cbn -[u32 Z.shiftl shift_count]. unfold shift_count. cbn -[u32 Z.shiftl Z.land]. by rewrite Ex, Ey, count_mod.
  - eexists. split; [reflexivity | split; [| done]]. cbn -[u32 Z.shiftr shift_count]. unfold shift_count. cbn -[u32 Z.shiftr Z.land]. by rewrite Ex, Ey, count_mod.
Qed.

(** ** Code in memory

    [m0] is the memory when the expression starts, of which the addresses in
    [safe] hold the code and the variables; [ebp0] is the frame. *)

Section code.
Context (m0 : Z -> Z) (safe : Z -> Prop) (ebp0 : Z).
Context (safe_word : forall a, safe a -> word32 a).

Record good (c : cpu) : Prop := {
  good_ebp : regs c REG_EBP = ebp0; good_mem : forall a, safe a -> mem c a = m0 a }.

Definition len (l : list Z) : Z := Z.of_nat (length l).
Definition placed (B : Z) (l : list Z) : Prop :=
  0 <= B /\ B + len l < 4294967296 /\ forall i b, l !! i = Some b -> m0 (B + Z.of_nat i) = b /\ safe (B + Z.of_nat i).

Lemma len_app l1 l2 : len (l1 ++ l2) = len l1 + len l2.
Proof. unfold len. rewrite length_app. lia. Qed.
Lemma len_nonneg l : 0 <= len l.
Proof. unfold len. lia. Qed.

Lemma placed_app B l1 l2 : placed B (l1 ++ l2) -> placed B l1 /\ placed (B + len l1) l2.
Proof.
  intros (H0 & H1 & H). rewrite len_app in H1. pose proof (len_nonneg l1). pose proof (len_nonneg l2). split.
  - split; [done |]. split; [lia |]. intros i b E. apply H. by apply lookup_app_l_Some.
  - split; [lia |]. split; [lia |]. intros i b E. unfold len.
    replace (B + Z.of_nat (length l1) + Z.of_nat i) with (B + Z.of_nat (length l1 + i)) by lia.
    apply H. rewrite lookup_app_r by lia. by replace (length l1 + i - length l1)%nat with i by lia.
Qed.

Lemma fetch_placed n c l : good c -> placed (eip c) l -> (length l <= n)%nat ->
  exists rest, fetch n (mem c) (eip c) = l ++ rest /\ length rest = (n - length l)%nat.
Proof.
  intros Hg (H0 & H1 & H) Hn. exists (drop (length l) (fetch n (mem c) (eip c))).
  rewrite length_drop, length_fetch. split; [| done].
  rewrite <- (take_drop (length l) (fetch n (mem c) (eip c))) at 1. f_equal.
  apply list_eq. intros i. destruct (decide (i < length l)%nat) as [Hi |].
  - rewrite lookup_take_lt, fetch_lookup by lia. destruct (lookup_lt_is_Some_2 l i Hi) as [b Eb]. rewrite Eb.
    destruct (H i b Eb) as [Hm Hs]. unfold len in H1. rewrite u32_small by lia. rewrite (good_mem c Hg) by done.
    by rewrite Hm.
  - rewrite !lookup_ge_None_2; [done | lia | rewrite length_take; lia].
Qed.

Lemma step_piece p c : good c -> placed (eip c) p.1 -> piece_ok p ->
  step c = exec p.2 (set_eip (eip c + len p.1) c).
Proof.
  intros Hg Hp [Hl Hd]. unfold step. destruct (fetch_placed max_instr c p.1 Hg Hp Hl) as (rest & -> & Hr).
  rewrite Hd. cbn [mbind option_bind]. rewrite Hr. destruct Hp as (H0 & H1 & _).
  replace (max_instr - (max_instr - length p.1))%nat with (length p.1) by lia.
  fold (len p.1). pose proof (len_nonneg p.1). by rewrite u32_small by lia.
Qed.

Lemma good_kept c c' : good c -> kept c c' -> good c'.
Proof. intros [H1 H2] (E1 & _ & E2). split; [by rewrite E2 | by rewrite E1]. Qed.
Lemma good_eip n c : good c -> good (set_eip n c).
Proof. intros [H1 H2]. by split. Qed.

Lemma exec_all_steps ps : forall c, pieces_ok ps -> good c -> placed (eip c) (code_of ps) ->
  match exec_all ps c with
  | Some (Next c') =>
      steps c c' /\ good c' /\ eip c' = eip c + len (code_of ps) /\ mem c' = mem c
  | Some Divide_error => exists c', steps c c' /\ step c' = Some Divide_error
  | None => True
  end.
Proof.
  induction ps as [| p ps IH]; intros c Hok Hg Hp; cbn [exec_all].
  { split_and!; [apply rtc_refl | done | unfold len; cbn; lia | done]. }
  apply Forall_cons in Hok as [[Hpo Hc] Hps]. apply placed_app in Hp as [Hp1 Hp2].
  pose proof (step_piece p c Hg Hp1 Hpo) as Es. fold (len p.1).
  destruct (exec p.2 (set_eip (eip c + len p.1) c)) as [[c1 |] |] eqn:E; [| by exists c; split; [apply rtc_refl |] | done].
  pose proof (calm_exec _ _ _ Hc E) as Hk. pose proof Hk as (Em & Ee & _). cbn in Em, Ee.
  specialize (IH c1 Hps (good_kept _ _ (good_eip _ _ Hg) Hk)). rewrite Ee in IH. specialize (IH Hp2).
  destruct (exec_all ps c1) as [[c2 |] |]; [| | done].
  - destruct IH as (H1 & H2 & H3 & H4). split_and!; [by eapply rtc_l | done | | congruence].
    rewrite H3. change (code_of (p :: ps)) with (p.1 ++ code_of ps). rewrite len_app. lia.
  - destruct IH as (c' & H1 & H2). exists c'. split; [by eapply rtc_l | done].
Qed.

(** ** Code that computes a value

    From any state with room for [n] words on the stack the code leaves the value
    in EAX and the stack as it was, or else runs into a divide error. *)

Record room (n : nat) (sp : Z) : Prop := {
  room_range : 4 * Z.of_nat n <= sp < 4294967296;
  room_safe : forall a, sp - 4 * Z.of_nat n <= a < sp -> ~ safe a }.

(** From [c] to [c'], [L] bytes further on, with [n] words of stack at most. *)
Record via (n : nat) (L : Z) (c c' : cpu) : Prop := {
  via_eip : eip c' = eip c + L;
  via_esp : regs c' REG_ESP = regs c REG_ESP;
  via_good : good c';
  via_mem : forall a, word32 a -> regs c REG_ESP <= a \/ a < regs c REG_ESP - 4 * Z.of_nat n -> mem c' a = mem c a }.

Lemma via_mono n m L c c' : (n <= m)%nat -> via n L c c' -> via m L c c'.
Proof. intros Hn [H1 H2 H3 H4]. split; try done. intros a Hw Ha. apply H4; [done | lia]. Qed.
Lemma via_trans n L1 L2 c1 c2 c3 : via n L1 c1 c2 -> via n L2 c2 c3 -> via n (L1 + L2) c1 c3.
Proof.
  intros [H1 H2 H3 H4] [G1 G2 G3 G4]. split; [lia | congruence | done |].
  intros a Hw Ha. rewrite G4, H4; [done | done | done | done | by rewrite H2].
Qed.

Definition computes (n : nat) (l : list Z) (v : option Z) : Prop :=
  (forall a, v = Some a -> word32 a) /\
  forall c, good c -> placed (eip c) l -> room n (regs c REG_ESP) ->
  match v with
  | Some v => exists c', steps c c' /\ via n (len l) c c' /\ regs c' REG_EAX = v
  | None => exists c', steps c c' /\ step c' = Some Divide_error
  end.

Lemma room_mono n m sp : (n <= m)%nat -> room m sp -> room n sp.
Proof. intros Hn [H1 H2]. split; [lia |]. intros a Ha. apply H2. lia. Qed.

Lemma computes_mono n m l v : (n <= m)%nat -> computes n l v -> computes m l v.
Proof.
  intros Hn [Hw Hc]. split; [done |]. intros c Hg Hp Hr. specialize (Hc c Hg Hp (room_mono _ _ _ Hn Hr)).
  destruct v as [v |]; [| done]. destruct Hc as (c' & Hs & Hv & Ha). exists c'. split; [done |].
  split; [by apply (via_mono n) | done].
Qed.
(** Straight code. *)
Lemma computes_leaf ps v : pieces_ok ps -> word32 v -> (forall c, good c -> leaves ps c (Some v)) ->
  computes 0 (code_of ps) (Some v).
Proof.
  intros Hps Hv Hl. split; [by intros ? [= <-] |]. intros c Hg Hp Hr.
  destruct (Hl c Hg) as (c' & E & Ea & Es). pose proof (exec_all_steps ps c Hps Hg Hp) as H. rewrite E in H.
  destruct H as (H1 & H2 & H3 & H4). exists c'. split; [done |]. split; [| done]. split; try done. intros. by rewrite H4.
Qed.

Lemma computes_then n l v ps (f : Z -> Z) : computes n l v -> pieces_ok ps -> (forall x, word32 x -> word32 (f x)) ->
  (forall x c, word32 x -> regs c REG_EAX = x -> leaves ps c (Some (f x))) ->
  computes n (l ++ code_of ps) (f <$> v).
Proof.
  intros [Hw Hc] Hps Hf Hl. split.
  { intros a. destruct v as [x |]; cbn; [intros [= <-]; auto | done]. }
  intros c Hg Hp Hr. apply placed_app in Hp as [Hp1 Hp2]. specialize (Hc c Hg Hp1 Hr).
  destruct v as [x |]; cbn; [| done]. destruct Hc as (c1 & Hs & Hv & H2).
  destruct (Hl x c1 (Hw x eq_refl) H2) as (c2 & E & Ea & Es). rewrite <- (via_eip _ _ _ _ Hv) in Hp2.
  pose proof (exec_all_steps ps c1 Hps (via_good _ _ _ _ Hv) Hp2) as H. rewrite E in H. destruct H as (G1 & G2 & G3 & G4).
  exists c2. split; [by eapply steps_trans |]. split; [| done]. rewrite len_app. eapply via_trans; [exact Hv |].
  split; [done | done | done |]. intros. by rewrite G4.
Qed.

(** A word pushed on the stack. *)
Definition push_piece : piece := (op_code (Push_reg REG_EAX), PUSH REG_EAX).
Lemma push_piece_ok : piece_ok push_piece.
Proof. op_piece. Qed.

Lemma below_window sp a : word32 a -> 4 <= sp < 4294967296 -> sp <= a \/ a < sp - 4 -> 4 <= u32 (a - (sp - 4)).
Proof. unfold word32, u32. intros. mod_lia. Qed.

Lemma push_step n c : good c -> placed (eip c) push_piece.1 -> room (S n) (regs c REG_ESP) ->
  exists c', steps c c' /\ eip c' = eip c + 1 /\ good c' /\ regs c' REG_ESP = regs c REG_ESP - 4 /\
    room n (regs c REG_ESP - 4) /\
    (word32 (regs c REG_EAX) -> load32 (mem c') (regs c REG_ESP - 4) = regs c REG_EAX) /\
    forall a, word32 a -> regs c REG_ESP <= a \/ a < regs c REG_ESP - 4 -> mem c' a = mem c a.
Proof.
  intros Hg Hp [Hr1 Hr2]. eexists. split; [apply rtc_once; unfold steps_to; rewrite (step_piece _ c Hg Hp push_piece_ok); reflexivity |].
  assert (Eu : u32 (regs c REG_ESP - 4) = regs c REG_ESP - 4) by (apply u32_small; lia).
  assert (Hw : 4 <= regs c REG_ESP < 4294967296) by lia.
  assert (Hm : forall a, word32 a -> regs c REG_ESP <= a \/ a < regs c REG_ESP - 4 ->
    store32 (regs c REG_ESP - 4) (regs c REG_EAX) (mem c) a = mem c a).
  { intros. by apply store32_out, below_window. }
  cbn -[u32 store32]. rewrite Eu. split; [done |]. split.
  { destruct Hg as [H1 H2]. split; [done |]. cbn -[u32 store32]. intros a Ha. rewrite Eu, Hm; [by apply H2 | by apply safe_word |].
    specialize (Hr2 a). destruct (decide (regs c REG_ESP <= a)); [by left | right].
    apply Z.nle_gt. intros Hle. apply Hr2; [lia | done]. }
  split; [done |]. split.
  { split; [lia |]. intros a Ha. apply Hr2. lia. }
  split; [intros; by apply load32_store32 | done].
Qed.

(** Operators that need both operands. *)
Definition strict (o : binop) : Prop := o <> LOr /\ o <> LAnd.
Lemma bin_word_strict o x y : strict o -> bin_word o (Some x) (Some y) = strict_word o x y.
Proof. intros [H1 H2]. by destruct o. Qed.

Lemma swap_leaves c : exists c', exec_all swap_pieces c = Some (Next c') /\
  regs c' REG_ECX = regs c REG_EAX /\ regs c' REG_EAX = load32 (mem c) (regs c REG_ESP) /\
  regs c' REG_ESP = u32 (regs c REG_ESP + 4).
Proof. eexists. split; [reflexivity |]. done. Qed.

Lemma swap_op o x y c : strict o -> word32 x -> word32 y -> regs c REG_EAX = y ->
  load32 (mem c) (regs c REG_ESP) = x ->
  match strict_word o x y with
  | Some v => exists c', exec_all (swap_pieces ++ op_pieces o) c = Some (Next c') /\ regs c' REG_EAX = v /\
      regs c' REG_ESP = u32 (regs c REG_ESP + 4)
  | None => exec_all (swap_pieces ++ op_pieces o) c = Some Divide_error
  end.
Proof.
  intros [H1 H2] Hx Hy Ey Ex. destruct (swap_leaves c) as (c1 & E & Ec & Ea & Es).
  assert (Eapp : forall ps, exec_all (swap_pieces ++ ps) c = exec_all ps c1).
  { intros ps. revert E. cbn -[u32]. by intros [= <-]. }
  pose proof (op_leaves o c1 x y Hx Hy) as H. rewrite !Eapp. unfold leaves in H.
  destruct (strict_word o x y) as [v |].
  - destruct H as (c2 & G1 & G2 & G3); [congruence | congruence | done | done |]. exists c2. split_and!; congruence.
  - apply H; congruence.
Qed.

Definition strict_code (o : binop) (r : list Z) : list Z := push_piece.1 ++ r ++ code_of (swap_pieces ++ op_pieces o).

Lemma computes_strict o n m l r x y : strict o -> computes n l x -> computes m r y ->
  computes (max n (S m)) (l ++ strict_code o r) (bin_word o x y).
Proof.
  intros Ho [Hw1 Hc1] [Hw2 Hc2]. split; [intros a; by apply bin_word_range |].
  intros c Hg Hp Hr. apply placed_app in Hp as [Hp1 Hp]. apply placed_app in Hp as [Hp2 Hp]. apply placed_app in Hp as [Hp3 Hp4].
  specialize (Hc1 c Hg Hp1 (room_mono _ _ _ (Nat.le_max_l _ _) Hr)).
  destruct x as [x |]; [| done]. destruct Hc1 as (c1 & Hs1 & [H1 H3 H4 H5] & H2).
  rewrite <- H1 in Hp2. rewrite <- H3 in Hr.
  destruct (push_step m c1 H4 Hp2 (room_mono _ _ _ (Nat.le_max_r _ _) Hr)) as (c2 & Hs2 & G1 & G2 & G3 & G4 & G5 & G6).
  change (len push_piece.1) with 1 in Hp3, Hp4. rewrite <- G3 in G4. rewrite <- H1, <- G1 in Hp3.
  specialize (Hc2 c2 G2 Hp3 G4).
  assert (Hs : steps c c2) by (by eapply steps_trans).
  destruct y as [y |].
  2: { destruct Hc2 as (c3 & Hs3 & E). unfold bin_word. cbn [mbind option_bind].
       assert (E' : match o with LOr | LAnd => False | _ => True end) by (destruct Ho; by destruct o).
       destruct o; try done; (exists c3; split; [by eapply steps_trans | done]). }
  destruct Hc2 as (c3 & Hs3 & [K1 K3 K4 K5] & K2). rewrite bin_word_strict by done.
  assert (Hx : word32 x) by auto. assert (Hy : word32 y) by auto. destruct Hr as [Hr1 Hr2].
  pose proof (swap_op o x y c3 Ho Hx Hy K2) as Hop.
  assert (El : load32 (mem c3) (regs c3 REG_ESP) = x).
  { rewrite K3, G3. transitivity (load32 (mem c2) (regs c1 REG_ESP - 4)); [| rewrite G5; congruence].
    apply load32_ext. intros i Hi. apply K5; [apply u32_range |]. left. rewrite G3, u32_small; lia. }
  specialize (Hop El). rewrite <- H1, <- G1, <- K1 in Hp4.
  pose proof (exec_all_steps _ c3 (proj2 (Forall_app _ _ _) (conj swap_ok (op_pieces_ok o))) K4 Hp4) as Hrun.
  destruct (strict_word o x y) as [v |].
  - destruct Hop as (c4 & E & Ea & Es). rewrite E in Hrun. destruct Hrun as (J1 & J2 & J3 & J4).
    exists c4. split; [eapply steps_trans; [exact Hs |]; by eapply steps_trans |].
    split; [| done]. split; [| | done |].
    + unfold strict_code. rewrite !len_app in *. change (len push_piece.1) with 1. lia.
    + rewrite Es, K3, G3, u32_small by lia. rewrite <- H3. lia.
    + intros a Ha Hout. rewrite J4, K5, G6, H5; [done | done | lia | done | lia | done | rewrite G3; lia].
  - rewrite Hop in Hrun. destruct Hrun as (c4 & J1 & J2). exists c4.
    split; [eapply steps_trans; [exact Hs |]; by eapply steps_trans | done].
Qed.

(** ** Operators that may skip the right operand *)

Definition cmp0_piece : piece := (op_code (Cmp_eax_imm 0), ALU_imm CMP (OReg REG_EAX) 0).
Definition jcc_piece (cc d : Z) : piece := ([0x0F; u8 (0x80 + cc)] ++ le_bytes 4 d, JCC cc d).
Definition jmp_piece (d : Z) : piece := (op_code (Jmp_rel d), JMP d).
Definition one_piece : piece := (op_code (Mov_reg_imm REG_EAX 1), MOV_imm REG_EAX 1).
Definition test_code : list Z := code_of (cmp0_piece :: boolean).

(** The test of EAX and the jump over [d] bytes. *)
Definition skip_code (cc d : Z) : list Z := cmp0_piece.1 ++ (jcc_piece cc d).1.
Definition and_code (r : list Z) : list Z := skip_code CC_E (len (r ++ test_code)) ++ r ++ test_code.
Definition or_code (r : list Z) : list Z :=
  let body := (r ++ test_code) ++ (jmp_piece 5).1 in skip_code CC_NE (len body) ++ body ++ one_piece.1.

Lemma cmp0_ok : piece_ok cmp0_piece.
Proof. op_piece. Qed.
Lemma one_ok : piece_ok one_piece.
Proof. op_piece. Qed.
Lemma jmp_ok : piece_ok (jmp_piece 5).
Proof. op_piece. Qed.
Lemma jcc_ok cc d : 0 <= cc < 16 -> 0 <= d <= CC_CODE_MAX -> piece_ok (jcc_piece cc d).
Proof.
  intros Hc Hd. split; [cbn; unfold max_instr; lia |]. intros rest. cbn [jcc_piece fst snd]. rewrite <- app_assoc.
  by apply jcc_decodes.
Qed.

Lemma test_leaves x c : word32 x -> regs c REG_EAX = x -> leaves (cmp0_piece :: boolean) c (Some (Z.b2z (negb (x =? 0)))).
Proof.
  intros Hx Ex. set (c1 := set_fl (sub_flags x 0) (set_eip (eip c + 5) c)).
  destruct (boolean_leaves c1 x _ eq_refl) as (c2 & E & Ea & Es).
  { cbn -[u32]. by rewrite equal_flags. }
  exists c2. split_and!; [| done | done]. rewrite <- E. cbn -[exec_all boolean sub_flags]. cbn [exec_all].
  cbn -[exec_all boolean sub_flags]. by rewrite Ex.
Qed.

(** Code that turns its value into 0 or 1. *)
Lemma computes_test n r y : computes n r y -> computes n (r ++ test_code) ((fun y => Z.b2z (negb (y =? 0))) <$> y).
Proof.
  intros Hr. apply computes_then; [done | | | apply test_leaves].
  - apply Forall_cons_2; [split; [apply cmp0_ok | done] | apply boolean_ok].
  - intros x _. destruct (negb _); unfold word32; cbn; lia.
Qed.

Lemma len_skip cc d : len (skip_code cc d) = 11.
Proof. done. Qed.

Definition taken (cc x : Z) : bool := if cc =? CC_E then x =? 0 else negb (x =? 0).
Lemma branch_step cc d c : cc = CC_E \/ cc = CC_NE -> 0 <= d <= CC_CODE_MAX -> good c ->
  placed (eip c) (skip_code cc d) -> eip c + 11 + d < 4294967296 -> word32 (regs c REG_EAX) ->
  exists c', steps c c' /\ via 0 (11 + (if taken cc (regs c REG_EAX) then d else 0)) c c' /\ regs c' REG_EAX = regs c REG_EAX.
Proof.
  intros Hcc Hd Hg Hp Hb Hx. apply placed_app in Hp as [Hp1 Hp2].
  pose proof (step_piece _ c Hg Hp1 cmp0_ok) as E1.
  set (x := regs c REG_EAX) in *. set (c1 := set_fl (sub_flags x 0) (set_eip (eip c + 5) c)).
  assert (E1' : step c = Some (Next c1)) by (rewrite E1; done).
  assert (Hg1 : good c1) by (by destruct Hg; split).
  assert (Hcr : 0 <= cc < 16) by (destruct Hcc as [-> | ->]; unfold CC_E, CC_NE; lia).
  pose proof (step_piece (jcc_piece cc d) c1 Hg1 Hp2 (jcc_ok cc d Hcr Hd)) as E2.
  assert (E3 : exists F, sub_flags x 0 = Some F /\ condition cc F = Some (taken cc x)).
  { assert (E0 : (u32 (x - 0) =? 0) = (x =? 0)) by (apply equal_flags; [done | unfold word32; lia]).
    eexists. split; [reflexivity |]. destruct Hcc as [-> | ->]; cbn -[u32]; by rewrite E0. }
  destruct E3 as (F & EF & E3).
  assert (E4 : exec (JCC cc d) (set_eip (eip c + 5 + 6) c1) =
    Some (Next (if taken cc x then set_eip (u32 (eip c + 5 + 6 + d)) (set_eip (eip c + 5 + 6) c1) else set_eip (eip c + 5 + 6) c1))).
  { cbn [exec]. change (fl (set_eip (eip c + 5 + 6) c1)) with (sub_flags x 0). rewrite EF. cbn [mbind option_bind].
    by rewrite E3. }
  eexists. split; [eapply rtc_l; [exact E1' |]; apply rtc_once; unfold steps_to; rewrite E2; exact E4 |].
  destruct Hp1 as [H0 _]. rewrite u32_small by lia.
  destruct (taken cc x); (split; [split; cbn; [lia | done | by destruct Hg; split | done] | done]).
Qed.

(** The left operand, and the branch on its value. *)
Lemma computes_skip n l x cc d rest c : computes n l (Some x) -> cc = CC_E \/ cc = CC_NE -> 0 <= d <= len rest -> d <= CC_CODE_MAX ->
  good c -> placed (eip c) (l ++ skip_code cc d ++ rest) -> room n (regs c REG_ESP) ->
  exists c', steps c c' /\ via n (len l + 11 + (if taken cc x then d else 0)) c c' /\ regs c' REG_EAX = x /\
    placed (eip c + len l + 11) rest.
Proof.
  intros [Hw Hc] Hcc Hd Hd' Hg Hp Hr. apply placed_app in Hp as [Hp1 Hp]. pose proof Hp as [_ [Hb _]].
  apply placed_app in Hp as [Hp2 Hp3]. rewrite len_app, len_skip in *. destruct (Hc c Hg Hp1 Hr) as (c1 & Hs1 & Hv1 & Ha1).
  pose proof (via_eip _ _ _ _ Hv1) as H1. rewrite <- H1 in Hp2.
  destruct (branch_step cc d c1) as (c2 & Hs2 & Hv2 & Ha2); try done; [lia | by destruct Hv1 | lia | rewrite Ha1; auto |].
  exists c2. split; [by eapply steps_trans |]. rewrite Ha1 in Hv2.
  split; [| split; [congruence | done]]. rewrite <- Z.add_assoc. eapply via_trans; [exact Hv1 |].
  by apply (via_mono 0); [lia |].
Qed.

Lemma computes_and n m l r x y : computes n l x -> computes m r y -> len (and_code r) <= CC_CODE_MAX ->
  computes (max n m) (l ++ and_code r) (bin_word LAnd x y).
Proof.
  intros Hl Hr Hlen. split; [intros a; apply bin_word_range; [by destruct Hl | by destruct Hr] |].
  intros c Hg Hp Hroom. unfold and_code in *. set (R := r ++ test_code) in *. rewrite !len_app, len_skip in *.
  destruct x as [x |].
  2: { apply placed_app in Hp as [Hp _]. destruct Hl as [_ Hl].
       by specialize (Hl c Hg Hp (room_mono _ _ _ (Nat.le_max_l _ _) Hroom)). }
  destruct (computes_skip n l x CC_E (len R) R c) as (c2 & Hs & Hv & Ha & Hp3); try done; [by left | pose proof (len_nonneg R); lia | lia | by eapply room_mono; [apply Nat.le_max_l |] |].
  change (taken CC_E x) with (x =? 0) in Hv. unfold bin_word. cbn [mbind option_bind].
  destruct (Z.eqb_spec x 0) as [Hx0 | Hx0].
  - exists c2. split; [done |]. split; [| congruence]. apply (via_mono n); [lia |]. by rewrite Z.add_assoc.
  - rewrite Z.add_0_r in Hv. destruct (computes_test _ _ _ Hr) as [_ Hc2]. fold R in Hc2.
    pose proof (via_esp _ _ _ _ Hv) as Esp. rewrite <- Esp in Hroom.
    rewrite <- Z.add_assoc, <- (via_eip _ _ _ _ Hv) in Hp3.
    specialize (Hc2 c2 (via_good _ _ _ _ Hv) Hp3 (room_mono _ _ _ (Nat.le_max_r _ _) Hroom)).
    destruct y as [y |]; cbn in Hc2 |- *.
    + destruct Hc2 as (c3 & Hs3 & Hv3 & Ha3). exists c3. split; [by eapply steps_trans |]. split; [| done].
      rewrite Z.add_assoc. eapply via_trans; (eapply via_mono; [| eassumption]); lia.
    + destruct Hc2 as (c3 & Hs3 & E). exists c3. split; [by eapply steps_trans | done].
Qed.

(** Any two states: code that only jumps, or loads EAX. *)
Lemma via_piece p c c' : good c -> placed (eip c) p.1 -> piece_ok p ->
  exec p.2 (set_eip (eip c + len p.1) c) = Some (Next c') -> steps c c'.
Proof. intros Hg Hp Hok E. apply rtc_once. unfold steps_to. by rewrite (step_piece p c Hg Hp Hok). Qed.

Lemma one_step c : good c -> placed (eip c) one_piece.1 -> exists c', steps c c' /\ via 0 5 c c' /\ regs c' REG_EAX = 1.
Proof.
  intros Hg Hp. eexists. split; [apply (via_piece one_piece c); [done | done | apply one_ok | reflexivity] |].
  split; [| done]. split; [done | done | by destruct Hg; split | done].
Qed.
Lemma jmp_step c : good c -> placed (eip c) (jmp_piece 5).1 -> eip c + 10 < 4294967296 ->
  exists c', steps c c' /\ via 0 10 c c' /\ regs c' REG_EAX = regs c REG_EAX.
Proof.
  intros Hg Hp Hb. eexists. split; [apply (via_piece (jmp_piece 5) c); [done | done | apply jmp_ok | reflexivity] |].
  split; [| done]. split; [| done | by destruct Hg; split | done]. destruct Hp as [H0 _].
  cbn [set_eip eip]. change (len (jmp_piece 5).1) with 5. rewrite u32_small; lia.
Qed.

Lemma computes_or n m l r x y : computes n l x -> computes m r y -> len (or_code r) <= CC_CODE_MAX ->
  computes (max n m) (l ++ or_code r) (bin_word LOr x y).
Proof.
  intros Hl Hr Hlen. split; [intros a; apply bin_word_range; [by destruct Hl | by destruct Hr] |].
  intros c Hg Hp Hroom. unfold or_code in *. cbv zeta in *. set (R := r ++ test_code) in *.
  change (one_piece.1) with (code_of [one_piece]) in *.
  assert (Ej : len (jmp_piece 5).1 = 5) by done. assert (E1 : len (code_of [one_piece]) = 5) by done.
  pose proof (len_nonneg R). rewrite !len_app, len_skip, Ej, E1 in Hlen.
  destruct x as [x |].
  2: { apply placed_app in Hp as [Hp _]. destruct Hl as [_ Hl].
       by specialize (Hl c Hg Hp (room_mono _ _ _ (Nat.le_max_l _ _) Hroom)). }
  destruct (computes_skip n l x CC_NE (len (R ++ (jmp_piece 5).1)) ((R ++ (jmp_piece 5).1) ++ code_of [one_piece]) c)
    as (c2 & Hs & Hv & Ha & Hp3); try done; [by right | rewrite !len_app, Ej, E1; lia | rewrite len_app, Ej; lia | by eapply room_mono; [apply Nat.le_max_l |] |].
  change (taken CC_NE x) with (negb (x =? 0)) in Hv. unfold bin_word. cbn [mbind option_bind].
  pose proof (via_esp _ _ _ _ Hv) as Esp. pose proof (via_eip _ _ _ _ Hv) as Eip. pose proof (via_good _ _ _ _ Hv) as Hg2.
  pose proof Hp3 as [_ [Hb _]]. rewrite !len_app, Ej, E1 in Hb. apply placed_app in Hp3 as [Hp3 Hp5]. apply placed_app in Hp3 as [Hp3 Hp4].
  rewrite !len_app, len_skip, ?len_app, Ej, ?E1 in *.
  destruct (Z.eqb_spec x 0) as [Hx0 | Hx0]; cbn [negb] in *.
  - destruct (computes_test _ _ _ Hr) as [_ Hc2]. fold R in Hc2. rewrite <- Esp in Hroom.
    replace (eip c + len l + 11) with (eip c2) in * by lia.
    specialize (Hc2 c2 Hg2 Hp3 (room_mono _ _ _ (Nat.le_max_r _ _) Hroom)).
    destruct y as [y |]; cbn in Hc2 |- *.
    + destruct Hc2 as (c3 & Hs3 & Hv3 & Ha3). rewrite <- (via_eip _ _ _ _ Hv3) in Hp4.
      destruct (jmp_step c3) as (c4 & Hs4 & Hv4 & Ha4); [by destruct Hv3 | done | rewrite (via_eip _ _ _ _ Hv3); lia |].
      exists c4. split; [eapply steps_trans; [exact Hs |]; by eapply steps_trans |]. split; [| congruence].
      replace (len l + _) with (len l + 11 + 0 + (len R + 10)) by lia.
      eapply via_trans; [eapply via_mono; [| exact Hv]; lia |].
      eapply via_trans; (eapply via_mono; [| eassumption]); lia.
    + destruct Hc2 as (c3 & Hs3 & E). exists c3. split; [by eapply steps_trans | done].
  - replace (eip c + len l + 11 + (len R + 5)) with (eip c2) in Hp5 by lia.
    destruct (one_step c2 Hg2 Hp5) as (c3 & Hs3 & Hv3 & Ha3). exists c3. split; [by eapply steps_trans |]. split; [| done].
    replace (len l + _) with (len l + 11 + (len R + 5) + 5) by lia.
    eapply via_trans; (eapply via_mono; [| eassumption]); lia.
Qed.

End code.

(** ** The code of a whole expression *)

(** The code of an operator, given the code of its right operand; it follows the
    code of the left one. *)
Definition op_frag (o : binop) (r : list Z) : list Z :=
  match o with LOr => or_code r | LAnd => and_code r | _ => strict_code o r end.

Lemma len_frag o r : len (op_frag o r) = len r + op_size o.
Proof.
  assert (Ec : len test_code = 11) by done.
  destruct o; cbn [op_frag op_size]; unfold strict_code, and_code, or_code; cbv zeta; rewrite !len_app, ?len_skip, ?Ec;
    unfold len; cbn -[Z.of_nat]; lia.
Qed.

Lemma computes_bin m0 safe ebp0 o n m l r x y : (forall a, safe a -> word32 a) ->
  computes m0 safe ebp0 n l x -> computes m0 safe ebp0 m r y -> len (op_frag o r) <= CC_CODE_MAX ->
  computes m0 safe ebp0 (S (n + m)) (l ++ op_frag o r) (bin_word o x y).
Proof.
  intros Hs Hl Hr Hlen.
  destruct o; cbn [op_frag] in *;
    try (eapply computes_mono; [| by apply computes_strict; [done | split | |]]; lia);
    (eapply computes_mono; [| by (apply computes_or || apply computes_and)]; lia).
Qed.

(** [l] is code for [e], whatever the memory, the frame and the place of the
    code are. *)
Definition code_ok (t : symtab) (e : expr) (l : list Z) : Prop :=
  len l = code_size t e /\
  forall m0 safe ebp0, (forall a, is_byte (m0 a)) -> (forall a, safe a -> word32 a) -> homes t safe ebp0 e ->
    computes m0 safe ebp0 (operators e) l (eval (valuation t m0 ebp0) e).

Lemma code_ok_bin t o l r cl cr : code_ok t l cl -> code_ok t r cr -> code_size t r + op_size o <= CC_CODE_MAX ->
  code_ok t (Bin o l r) (cl ++ op_frag o cr).
Proof.
  intros [El Hl] [Er Hr] Hs. split; [rewrite len_app, len_frag; cbn; lia |].
  intros m0 safe ebp0 Hm Hsafe [Hvl Hvr]. cbn [operators eval]. apply computes_bin; auto. rewrite len_frag. lia.
Qed.

Definition mov_piece (v : Z) : piece := (op_code (Mov_reg_imm REG_EAX v), MOV_imm REG_EAX v).
Lemma mov_ok v : word32 v -> pieces_ok [mov_piece v].
Proof.
  intros Hv. apply Forall_singleton. split; [| done]. apply piece_of_op; [| done | apply Nat.leb_le; reflexivity].
  split; [unfold reg, REG_EAX; lia | done].
Qed.
Lemma computes_mov m0 safe ebp0 v : word32 v -> computes m0 safe ebp0 0 (op_code (Mov_reg_imm REG_EAX v)) (Some v).
Proof.
  intros Hv. rewrite <- (app_nil_r (op_code _)). apply (computes_leaf _ _ _ [mov_piece v] v (mov_ok v Hv) Hv).
  intros c _. eexists. done.
Qed.
Lemma mov_size v : len (op_code (Mov_reg_imm REG_EAX v)) = 5.
Proof. done. Qed.
Lemma code_ok_num t v : code_ok t (Num v) (op_code (Mov_reg_imm REG_EAX (u32 v))).
Proof. split; [apply mov_size |]. intros. apply computes_mov, u32_range. Qed.
Lemma code_ok_bool t b : code_ok t (Bool b) (op_code (Mov_reg_imm REG_EAX (Z.b2z b))).
Proof. split; [apply mov_size |]. intros. apply computes_mov. unfold word32. destruct b; cbn; lia. Qed.
Lemma code_ok_paren t e l : code_ok t e l -> code_ok t (Paren e) l.
Proof. done. Qed.

Lemma code_ok_neg t e l : code_ok t e l -> code_ok t (Opp e) (l ++ op_code (Neg REG_EAX)).
Proof.
  intros [El Hl]. split; [rewrite len_app, El; done |]. intros m0 safe ebp0 Hm Hs Hv. cbn [operators eval].
  apply (computes_then m0 safe ebp0 _ l _ [(op_code (Neg REG_EAX), NEG (OReg REG_EAX))] (fun x => u32 (- x))); auto.
  - apply Forall_singleton. split; [op_piece | done].
  - intros x _. apply u32_range.
  - intros x c _ Ex. eexists. split; [done |]. cbn -[u32]. by rewrite Ex.
Qed.
Lemma code_ok_not t e l : code_ok t e l -> code_ok t (Compl e) (l ++ op_code (Not REG_EAX)).
Proof.
  intros [El Hl]. split; [rewrite len_app, El; done |]. intros m0 safe ebp0 Hm Hs Hv. cbn [operators eval].
  apply (computes_then m0 safe ebp0 _ l _ [(op_code (Not REG_EAX), NOT (OReg REG_EAX))] (fun x => u32 (Z.lnot x))); auto.
  - apply Forall_singleton. split; [op_piece | done].
  - intros x _. apply u32_range.
  - intros x c _ Ex. eexists. split; [done |]. cbn -[u32 Z.lnot]. by rewrite Ex.
Qed.

(** The load of a variable. *)
Definition load_op (y : Symbol) : op :=
  if kind y =? SYM_CONST then Mov_reg_imm REG_EAX (addr y) else
  if is_frame (kind y) then Load_local REG_EAX (Sym.offset y) else Load_global REG_EAX (addr y).

Lemma frame_mov_ok off : int32 off ->
  pieces_ok [(op_code (Load_local REG_EAX off), MOV_from REG_EAX (OMem REG_EBP off))].
Proof.
  intros Ho. apply Forall_singleton. split; [| done]. apply piece_of_op; [| done | apply Nat.leb_le; reflexivity].
  split; [unfold reg, REG_EAX; lia | done].
Qed.
Lemma global_mov_ok a : word32 a -> pieces_ok [(op_code (Load_global REG_EAX a), MOV_from REG_EAX (OAbs a))].
Proof.
  intros Ha. apply Forall_singleton. split; [| done]. apply piece_of_op; [| done | apply Nat.leb_le; reflexivity].
  split; [unfold reg, REG_EAX; lia | done].
Qed.

Lemma scalar_range y : scalar y = true -> kind y <> SYM_CONST ->
  (is_frame (kind y) = true -> int32 (Sym.offset y)) /\ (is_frame (kind y) = false -> kind y = SYM_GLOBAL /\ word32 (addr y)).
Proof.
  unfold scalar. intros Hs Hk. apply andb_prop in Hs as [_ Hs]. rewrite (proj2 (Z.eqb_neq _ _) Hk), orb_false_r in Hs.
  assert (Hg : is_frame (kind y) = true -> kind y <> SYM_GLOBAL).
  { unfold is_frame, SYM_LOCAL, SYM_PARAM, SYM_GLOBAL. intros Hf%orb_prop. destruct Hf; breflect; lia. }
  apply orb_prop in Hs as [Hs | Hs]; breflect; unfold int32, word32; (split; intros E; [| split]); try congruence; try lia.
  exfalso. by apply (Hg E).
Qed.

Lemma computes_load m0 safe ebp0 y : (forall a, is_byte (m0 a)) -> scalar y = true -> kind y <> SYM_CONST ->
  (forall i, 0 <= i < 4 -> safe (u32 (home y ebp0 + i))) ->
  computes m0 safe ebp0 0 (op_code (load_op y)) (Some (load32 m0 (home y ebp0))).
Proof.
  intros Hb Hy Hk Hh. destruct (scalar_range y Hy Hk) as [Hf Hg]. unfold load_op, home in *.
  rewrite (proj2 (Z.eqb_neq _ _) Hk). rewrite <- (app_nil_r (op_code _)). pose proof (load32_range m0) as Hr.
  destruct (is_frame (kind y)).
  - apply (computes_leaf _ _ _ [_] _ (frame_mov_ok _ (Hf eq_refl)) (Hr _ Hb)). intros c Hc. eexists. split; [reflexivity |].
    split; [| done]. destruct Hc as [Eb Em]. cbn -[u32 load32]. rewrite Eb. apply load32_ext. auto.
  - apply (computes_leaf _ _ _ [_] _ (global_mov_ok _ (proj2 (Hg eq_refl))) (Hr _ Hb)). intros c Hc. eexists. split; [reflexivity |].
    split; [| done]. destruct Hc as [Eb Em]. cbn -[u32 load32]. apply load32_ext. auto.
Qed.

Lemma scalar_const y : scalar y = true -> kind y = SYM_CONST -> word32 (addr y).
Proof.
  unfold scalar. intros Hs Hk. rewrite Hk in Hs. apply andb_prop in Hs as [_ Hs]. cbn in Hs. breflect. unfold word32. lia.
Qed.

Lemma code_ok_var t w y : entry_of t w = Some y -> scalar y = true -> code_ok t (Var w) (op_code (load_op y)).
Proof.
  intros Ey Hy. split.
  - cbn [code_size]. unfold var_size, load_op. rewrite Ey. by repeat case_if.
  - intros m0 safe ebp0 Hm Hs Hv. cbn [operators eval]. unfold valuation, value_of. rewrite Ey.
    destruct (Z.eqb_spec (kind y) SYM_CONST) as [E | E].
    + unfold load_op. rewrite E. by apply computes_mov, scalar_const.
    + apply computes_load; [done | done | done |]. intros i Hi. by apply (Hv y i).
Qed.

(** Regrouping an operator that associates does not change what its code has to
    do. *)
Record equiv (t : symtab) (e e' : expr) : Prop := {
  equiv_size : code_size t e = code_size t e'; equiv_ops : operators e = operators e';
  equiv_vars : forall P, all_vars P e <-> all_vars P e';
  equiv_eval : forall rho, eval rho e = eval rho e' }.

Lemma code_ok_equiv t e e' l : equiv t e e' -> code_ok t e l -> code_ok t e' l.
Proof.
  intros [E1 E2 E3 E4] [El Hl]. split; [congruence |]. intros m0 safe ebp0 Hm Hs Hv. rewrite <- E2, <- E4. apply Hl; auto.
  by apply E3.
Qed.
Lemma equiv_refl t e : equiv t e e.
Proof. done. Qed.
Lemma equiv_trans t a b c : equiv t a b -> equiv t b c -> equiv t a c.
Proof.
  intros [H1 H2 H3 H4] [G1 G2 G3 G4]. split; try congruence. intros. by rewrite H3.
Qed.
Lemma equiv_bin_l t o a b r : equiv t a b -> equiv t (Bin o a r) (Bin o b r).
Proof.
  intros [H1 H2 H3 H4]. split; cbn; try congruence.
  - intros P. by rewrite (H3 P).
Qed.

Definition associates (o : binop) : bool := match o with LOr | LAnd | BOr => true | _ => false end.
Lemma bin_word_assoc o x y z : associates o = true ->
  bin_word o (bin_word o x y) z = bin_word o x (bin_word o y z).
Proof.
  intros Ho. destruct o; try done; unfold bin_word; (destruct x as [x |]; cbn; [| done]);
    (destruct y as [y |]; cbn; [| by destruct (x =? 0)]); (destruct z as [z |]; cbn; [| by repeat case_if]).
  - destruct (x =? 0), (y =? 0), (z =? 0); done.
  - destruct (x =? 0), (y =? 0), (z =? 0); done.
  - by rewrite Z.lor_assoc.
Qed.
Lemma equiv_assoc t o a b c : associates o = true -> equiv t (Bin o a (Bin o b c)) (Bin o (Bin o a b) c).
Proof.
  intros Ho. split; cbn [code_size operators]; try lia.
  - intros P. cbn. tauto.
  - intros rho. cbn [eval]. by rewrite bin_word_assoc.
Qed.
