(* ===== verification/ExprParse.v ===== *)
(** The expression parser ([ParseExpr]) on the tokens of an expression of
    [ExprSpec]: it reads exactly these tokens and appends code for the
    expression, in the sense of [ExprCode]. *)
From S2P Require Import Prelude StringRs Lex Sym ParseState ParseExpr ParseWp ParseTotal Emit EmitDecode X86 ExprSpec ExprCode.

Section parse.
Context (t : symtab).

(** ** States and what is appended *)

Record ready (s : pstate) : Prop := {
  ready_sy : sy s = t; ready_err : HAD_ERROR s = false; ready_lx : Lex.wf (lx s); ready_em : Emit.wf (em s) }.
Definition at_pos (s : pstate) : Z := CODE_POS (em s).
Definition scale_of (s : pstate) : Z := EXPR_PTR_SCALE (ex s).
(** Code [c] has been appended between [s] and [s']. *)
Definition moves (s s' : pstate) (c : list Z) : Prop := ready s' /\ emitted (em s') = emitted (em s) ++ c.

Lemma length_emitted e : Emit.wf e -> len (emitted e) = CODE_POS e.
Proof. intros [Hl Hp]. unfold len, emitted. rewrite length_take. lia. Qed.
Lemma moves_pos s s' c : ready s -> moves s s' c -> at_pos s' = at_pos s + len c.
Proof.
  intros Hs [Hs' E]. unfold at_pos. rewrite <- !length_emitted by (by apply ready_em).
  by rewrite E, len_app.
Qed.
Lemma moves_nil s s' : ready s' -> em s' = em s -> moves s s' [].
Proof. intros Hs E. split; [done |]. by rewrite E, app_nil_r. Qed.
Lemma moves_trans s1 s2 s3 c1 c2 : moves s1 s2 c1 -> moves s2 s3 c2 -> moves s1 s3 (c1 ++ c2).
Proof. intros [H1 E1] [H2 E2]. split; [done |]. by rewrite E2, E1, app_assoc. Qed.
Lemma at_pos_range s : ready s -> 0 <= at_pos s <= CC_CODE_MAX.
Proof. intros Hs. by apply wf_pos, ready_em. Qed.

(** ** Tokens *)

Lemma at_tok_head x l s k : lexes (x :: l) (lx s) -> at_tok k s = bool_decide (tk_type x = k).
Proof. intros [[Ht _] _]. unfold at_tok, tok. by rewrite Ht. Qed.

Lemma next_rule x l (Q : unit -> pstate -> Prop) s : ready s -> lexes (x :: l) (lx s) ->
  (forall s', ready s' -> lexes l (lx s') -> em s' = em s -> ex s' = ex s -> Q () s') -> wp ParseState.next Q s.
Proof.
  intros Hs [_ (l' & E & Hl)] HQ. exists (), (set_lx l' s). split; [unfold ParseState.next; by rewrite E |].
  apply HQ; try done. destruct Hs as [H1 H2 H3 H4]. split; try done.
  destruct (next_progress (lx s) H3) as (l2 & E2 & _ & Hw & _). cbn. congruence.
Qed.

Lemma wp_expect ty l Q s : lexes (T ty :: l) (lx s) -> wp ParseState.next Q s -> wp (ParseState.expect ty) Q s.
Proof.
  intros [[Ht _] _] H. unfold wp in *. cbn [tk_type] in Ht. unfold ParseState.expect, Lex.expect, peek in *.
  by rewrite decide_True.
Qed.

(** ** The text is enough fuel *)

(** Tokens that are not the end of the file take at least a character each. *)
Lemma lexes_length l : forall s, Lex.wf s -> lexes l s -> Forall (fun x => tk_type x <> TOK_EOF) l ->
  (length l <= S (length (unread s)))%nat.
Proof.
  induction l as [| x l IH]; intros s Hw Hl Hne; [cbn; lia |].
  destruct l as [| y l]; [cbn; lia |]. destruct Hl as [_ (s' & E & Hl)]. apply Forall_cons in Hne as [_ Hne].
  destruct (next_progress s Hw) as (s2 & E2 & Es & Hw2 & Hp & Hc). assert (s2 = s') by congruence. subst s2.
  specialize (IH s' Hw2 Hl Hne). rewrite length_unread in *. unfold SRC_LEN in *. rewrite Es in IH.
  destruct Hc as [[Ht _] |]; [| cbn [length] in *; lia].
  exfalso. apply Forall_cons in Hne as [Hy _]. apply Hy. destruct Hl as [[Ht' _] _]. unfold peek in Ht'. congruence.
Qed.
Lemma lexes_app l1 l2 : forall s, lexes (l1 ++ l2) s -> lexes l1 s.
Proof.
  induction l1 as [| x l1 IH]; intros s; [done |]. intros [Hx (s' & E & H)]. split; [done |]. exists s'. split; [done | by apply IH].
Qed.
Lemma toks_not_eof e : Forall (fun x => tk_type x <> TOK_EOF) (toks e).
Proof.
  induction e as [v | b | w | e IH | e IH | e IH | o l IHl r IHr]; cbn [toks]; repeat (apply List.Forall_cons || apply List.Forall_nil || apply Forall_app_2); try done.
  - by destruct b.
  - by destruct o.
Qed.
Lemma toks_fuel e rest s : ready s -> lexes (toks e ++ rest) (lx s) -> (length (toks e) < text_fuel s)%nat.
Proof.
  intros Hs Hl%lexes_app. pose proof (lexes_length _ _ (ready_lx _ Hs) Hl (toks_not_eof e)).
  unfold text_fuel, unread_text. lia.
Qed.

(** ** Code that does not depend on the input *)

Definition emits (m : M unit) (l : list Z) : Prop := forall s (Q : unit -> pstate -> Prop),
  ready s -> at_pos s + len l <= CC_CODE_MAX ->
  (forall s', moves s s' l -> lx s' = lx s -> ex s' = ex s -> Q () s') -> wp m Q s.

Lemma emits_bytes f l : (forall e, f e = bytes l e) -> emits (emit f) l.
Proof.
  intros Hf s Q Hs Hr HQ. unfold emit. apply wp_modify. rewrite Hf. apply HQ; [| done | done].
  destruct Hs as [H1 H2 H3 H4]. destruct (bytes_spec l (em s) H4) as (Hw & He & _ & _).
  split; [by split |]. cbn. rewrite He, take_ge; [done |]. unfold at_pos, len in Hr. lia.
Qed.
Lemma emits_op o : op_ok o -> emits (emit (emit_op o)) (op_code o).
Proof. intros Ho. apply emits_bytes. intros e. by apply op_bytes. Qed.
Lemma emits_seq m1 m2 l1 l2 : emits m1 l1 -> emits m2 l2 -> emits (m1;; m2) (l1 ++ l2).
Proof.
  intros H1 H2 s Q Hs Hr HQ. rewrite len_app in Hr. pose proof (len_nonneg l2). apply wp_bind, H1; [done | lia |]. intros s1 M1 E1 X1.
  apply H2; [by destruct M1 | rewrite (moves_pos _ _ _ Hs M1); lia |]. intros s2 M2 E2 X2.
  apply HQ; [by eapply moves_trans | congruence | congruence].
Qed.
Lemma emits_skip : emits skip_ [].
Proof. intros s Q Hs _ HQ. apply wp_ret, HQ; [by apply moves_nil | done | done]. Qed.
Lemma emits_eq m l l' : emits m l -> l = l' -> emits m l'.
Proof. by intros H <-. Qed.

(** The rules for a sequence. *)
Lemma emits_bind m l k (Q : unit -> pstate -> Prop) s : emits m l -> ready s -> at_pos s + len l <= CC_CODE_MAX ->
  (forall s', ready s' -> moves s s' l -> at_pos s' = at_pos s + len l -> lx s' = lx s -> ex s' = ex s -> wp k Q s') ->
  wp (m;; k) Q s.
Proof.
  intros Hm Hs Hroom Hk. apply wp_bind, Hm; [done | done |]. intros s' M E X.
  apply Hk; [by destruct M | done | by apply moves_pos | done | done].
Qed.
Lemma next_bind x l k (Q : unit -> pstate -> Prop) s : ready s -> lexes (x :: l) (lx s) ->
  (forall s', ready s' -> moves s s' [] -> at_pos s' = at_pos s -> lexes l (lx s') -> ex s' = ex s -> wp k Q s') ->
  wp (ParseState.next;; k) Q s.
Proof.
  intros Hs Hl Hk. apply wp_bind. eapply next_rule; [done | exact Hl |]. intros s' R L E X.
  apply Hk; [done | by apply moves_nil | unfold at_pos; by rewrite E | done | done].
Qed.
Ltac emit_with E n := eapply (emits_bind _ _ _ _ _ E); [assumption | change (len _) with n; lia | change (len _) with n].

Ltac op_side := cbn; unfold word32, int32, reg, REG_EAX, REG_ECX, REG_EDX, CC_E, CC_NE, CC_L, CC_G, CC_LE, CC_GE; lia.
Lemma test_bind k (Q : unit -> pstate -> Prop) s : ready s -> at_pos s + 11 <= CC_CODE_MAX ->
  (forall s', ready s' -> moves s s' test_code -> at_pos s' = at_pos s + 11 -> lx s' = lx s -> ex s' = ex s -> wp k Q s') ->
  wp (emit (Emit.cmp_eax_imm 0);; emit (Emit.setcc CC_NE REG_EAX);; emit Emit.movzx_eax_al;; k) Q s.
Proof.
  intros Hs Hroom Hk. pose proof (emits_op (Cmp_eax_imm 0) ltac:(op_side)) as E1.
  pose proof (emits_op (Setcc CC_NE REG_EAX) ltac:(op_side)) as E2. pose proof (emits_op Movzx_eax_al I) as E3.
  emit_with E1 5. intros s1 R1 M1 P1 F1 X1. emit_with E2 3. intros s2 R2 M2 P2 F2 X2. emit_with E3 3. intros s3 R3 M3 P3 F3 X3.
  apply Hk; [done | | lia | congruence | congruence].
  change test_code with (op_code (Cmp_eax_imm 0) ++ op_code (Setcc CC_NE REG_EAX) ++ op_code Movzx_eax_al).
  eapply moves_trans; [exact M1 |]. by eapply moves_trans.
Qed.

(** What the parser emits after the right operand of a strict operator. *)
Definition emit_compare (cc : Z) : M unit :=
  emit (Emit.cmp REG_EAX REG_ECX);; emit (Emit.setcc cc REG_EAX);; emit Emit.movzx_eax_al.
Definition emit_tail (o : binop) : M unit :=
  match o with
  | LOr | LAnd => skip_
  | BOr => emit (Emit.or REG_EAX REG_ECX) | BXor => emit (Emit.xor REG_EAX REG_ECX)
  | BAnd => emit (Emit.and REG_EAX REG_ECX) | Plus => emit (Emit.add REG_EAX REG_ECX)
  | Minus => emit (Emit.sub REG_EAX REG_ECX) | Times => emit (Emit.imul REG_EAX REG_ECX)
  | LSh => emit (Emit.shl REG_EAX) | RSh => emit (Emit.shr REG_EAX)
  | EQ => emit_compare CC_E | NE => emit_compare CC_NE | LT => emit_compare CC_L | GT => emit_compare CC_G
  | LE => emit_compare CC_LE | GE => emit_compare CC_GE
  | Quot => emit Emit.idiv_ecx;; skip_
  | Rem => emit Emit.idiv_ecx;; emit (Emit.mov_reg_reg REG_EAX REG_EDX)
  end.

Lemma emits_compare cc : 0 <= cc < 16 -> emits (emit_compare cc) (code_of (compare_pieces cc)).
Proof.
  intros Hc. eapply emits_eq.
  - apply emits_seq; [apply (emits_op (Cmp REG_EAX REG_ECX)); op_side |].
    apply emits_seq; [apply (emits_op (Setcc cc REG_EAX)); op_side | by apply (emits_op Movzx_eax_al)].
  - reflexivity.
Qed.
Lemma emits_tail o : emits (emit_tail o) (code_of (op_pieces o)).
Proof.
  destruct o; cbn [emit_tail]; lazymatch goal with |- emits (emit_compare _) _ => apply emits_compare; op_side | _ => idtac end.
  - apply emits_skip.
  - apply emits_skip.
  - apply (emits_op (Or REG_EAX REG_ECX)). op_side.
  - apply (emits_op (Xor REG_EAX REG_ECX)). op_side.
  - apply (emits_op (And REG_EAX REG_ECX)). op_side.
  - apply (emits_op (Shl REG_EAX)). op_side.
  - apply (emits_op (Shr REG_EAX)). op_side.
  - apply (emits_op (Add REG_EAX REG_ECX)). op_side.
  - apply (emits_op (Sub REG_EAX REG_ECX)). op_side.
  - apply (emits_op (Imul REG_EAX REG_ECX)). op_side.
  - eapply emits_eq; [apply emits_seq; [by apply (emits_op Idiv_ecx) | apply emits_skip] | done].
  - eapply emits_eq; [apply emits_seq; [by apply (emits_op Idiv_ecx) | apply (emits_op (Mov_reg_reg REG_EAX REG_EDX)); op_side] | done].
Qed.

(** ** Operands and operators *)

(** The parser [m], followed by the tokens [rest], compiles [e]. *)
Definition reads (m : M unit) (e : expr) (rest : list tk) : Prop := forall s,
  ready s -> lexes (toks e ++ rest) (lx s) -> at_pos s + code_size t e <= CC_CODE_MAX ->
  wp m (fun _ s' => exists c, code_ok t e c /\ moves s s' c /\ lexes rest (lx s') /\ scale_of s' = 0) s.

Lemma reads_bind m e rest k (Q : unit -> pstate -> Prop) s : reads m e rest -> ready s ->
  lexes (toks e ++ rest) (lx s) -> at_pos s + code_size t e <= CC_CODE_MAX ->
  (forall s' c, ready s' -> code_ok t e c -> moves s s' c -> at_pos s' = at_pos s + code_size t e ->
     lexes rest (lx s') -> scale_of s' = 0 -> wp k Q s') -> wp (m;; k) Q s.
Proof.
  intros Hm Hs Hl Hroom Hk. apply wp_bind. eapply wp_mono; [by apply Hm |]. cbv beta. intros _ s' (c & Hc & M & L & S).
  apply (Hk s' c); try done; [by destruct M |]. rewrite (moves_pos _ _ _ Hs M). by destruct Hc as [-> _].
Qed.
(** What the parser of an operator does after the left operand. *)
Definition extends (s : pstate) (r : expr) (rest : list tk) (frag : list Z -> list Z) : unit -> pstate -> Prop :=
  fun _ s' => exists c, code_ok t r c /\ moves s s' (frag c) /\ lexes rest (lx s') /\ scale_of s' = 0.

Lemma right_operand_bind right r rest k (Q : unit -> pstate -> Prop) s : reads right r rest -> ready s ->
  lexes (toks r ++ rest) (lx s) -> at_pos s + code_size t r + 4 <= CC_CODE_MAX ->
  (forall s' c, ready s' -> code_ok t r c -> moves s s' (push_piece.1 ++ c ++ code_of swap_pieces) ->
     at_pos s' = at_pos s + code_size t r + 4 -> lexes rest (lx s') -> scale_of s' = 0 -> wp k Q s') ->
  wp (right_operand right;; k) Q s.
Proof.
  intros Hr Hs Hl Hroom Hk.
  pose proof (emits_op (Push_reg REG_EAX) ltac:(op_side)) as Epush.
  pose proof (emits_op (Mov_reg_reg REG_ECX REG_EAX) ltac:(op_side)) as Emov.
  pose proof (emits_op (Pop_reg REG_EAX) ltac:(op_side)) as Epop.
  pose proof (code_size_nonneg t r). apply wp_bind. unfold right_operand.
  emit_with Epush 1. intros s1 R1 M1 P1 E1 X1.
  eapply (reads_bind right r rest); [done | done | by rewrite E1 | lia |]. intros s2 c R2 Hc M2 P2 L2 S2.
  emit_with Emov 2. intros s3 R3 M3 P3 E3 X3. apply Epop; [done | change (len _) with 1; lia |]. intros s4 M4 E4 X4.
  pose proof (moves_pos _ _ _ R3 M4) as P4. change (len _) with 1 in P4.
  apply (Hk s4 c); [by destruct M4 | done | | lia | by rewrite E4, E3 | unfold scale_of in *; congruence].
  eapply moves_trans; [exact M1 |]. eapply moves_trans; [exact M2 |].
  apply (moves_trans _ _ _ _ _ M3 M4).
Qed.

Lemma strict_wp o right r rest s : strict o -> reads right r rest -> ready s ->
  lexes (T (op_token o) :: toks r ++ rest) (lx s) -> at_pos s + code_size t r + op_size o <= CC_CODE_MAX ->
  wp (ParseState.next;; right_operand right;; emit_tail o) (extends s r rest (op_frag o)) s.
Proof.
  intros Ho Hr Hs Hl Hroom. eapply next_bind; [done | exact Hl |]. intros s1 R1 M1 P1 L1 X1.
  assert (Hsz : op_size o = 4 + len (code_of (op_pieces o))) by (destruct Ho; by destruct o).
  pose proof (len_nonneg (code_of (op_pieces o))).
  eapply (right_operand_bind right r rest); [done | done | done | lia |]. intros s2 c R2 Hc M2 P2 L2 S2.
  apply (emits_tail o); [done | lia |]. intros s3 M3 E3 X3. exists c. split; [done |].
  split; [| split; [by rewrite E3 | unfold scale_of in *; congruence]].
  assert (Ec : op_frag o c = [] ++ (push_piece.1 ++ c ++ code_of swap_pieces) ++ code_of (op_pieces o)).
  { destruct Ho. unfold code_of. rewrite <- !app_assoc. destruct o; try done; cbn [op_frag app]; unfold strict_code, code_of;
      by rewrite map_app, concat_app. }
  rewrite Ec. eapply moves_trans; [exact M1 |]. by eapply moves_trans.
Qed.

(** The parser of one operator and its right operand. *)
Definition op_action (o : binop) (right : M unit) : M unit :=
  match o with
  | LOr => op_or right | LAnd => op_and right | BOr => op_bitor right | BXor => op_bitxor right | BAnd => op_bitand right
  | EQ | NE => op_equal right | LT | GT | LE | GE => op_relational right | LSh | RSh => op_shift right
  | Plus | Minus => op_add right | Times | Quot | Rem => op_mul right
  end.

(** A conditional test of the current token, decided. *)
Lemma wp_get_at {B} (f : pstate -> B) v (k : B -> M unit) (Q : unit -> pstate -> Prop) s :
  f s = v -> wp (k v) Q s -> wp (x ← get f; k x) Q s.
Proof. intros <- H. by apply wp_bind, wp_get. Qed.

Lemma simple_wp o right r rest s : strict o -> o <> Plus -> o <> Minus -> reads right r rest -> ready s ->
  lexes (T (op_token o) :: toks r ++ rest) (lx s) -> at_pos s + code_size t r + op_size o <= CC_CODE_MAX ->
  wp (op_action o right) (extends s r rest (op_frag o)) s.
Proof.
  intros Ho H1 H2 Hr Hs Hl Hroom. pose proof (strict_wp o right r rest s Ho Hr Hs Hl Hroom) as H.
  pose proof (fun k => at_tok_head _ _ _ k Hl) as Ht. cbn [tk_type] in Ht. destruct Ho.
  destruct o; try congruence; cbn [op_action op_token emit_tail] in *; unfold emit_compare in H;
    lazymatch goal with
    | |- wp (op_equal _) _ _ => unfold op_equal, compare; eapply wp_get_at; [unfold equality_cc; rewrite ?Ht; reflexivity |]
    | |- wp (op_relational _) _ _ =>
        unfold op_relational, compare; eapply wp_get_at; [unfold relation_cc; rewrite ?Ht; reflexivity |]
    | |- wp (op_shift _) _ _ => unfold op_shift, tok_is; eapply wp_get_at; [rewrite Ht; reflexivity |]
    | |- wp (op_mul _) _ _ =>
        unfold op_mul; eapply wp_get_at; [unfold tok; destruct Hl as [[-> _] _]; reflexivity |];
        rewrite ?decide_True, ?decide_False by done; rewrite ?bool_decide_true, ?bool_decide_false by done
    | |- _ => unfold op_bitor, op_bitxor, op_bitand
    end.
  all: exact H.
Qed.
(** [op_add] when the left operand is not a pointer. *)
Lemma add_wp o right r rest s : o = Plus \/ o = Minus -> reads right r rest -> ready s -> scale_of s = 0 ->
  lexes (T (op_token o) :: toks r ++ rest) (lx s) -> at_pos s + code_size t r + op_size o <= CC_CODE_MAX ->
  wp (op_add right) (extends s r rest (op_frag o)) s.
Proof.
  intros Ho Hr Hs Hz Hl Hroom. pose proof (fun k => at_tok_head _ _ _ k Hl) as Ht. cbn [tk_type] in Ht.
  pose proof (emits_op (Push_reg REG_EAX) ltac:(op_side)) as Epush.
  pose proof (emits_op (Mov_reg_reg REG_ECX REG_EAX) ltac:(op_side)) as Emov.
  pose proof (emits_op (Pop_reg REG_EAX) ltac:(op_side)) as Epop.
  pose proof (code_size_nonneg t r). assert (Hsz : op_size o = 6) by (by destruct Ho as [-> | ->]).
  unfold op_add, tok_is. apply wp_get_at with (v := bool_decide (o = Minus)).
  { rewrite Ht. destruct Ho as [-> | ->]; reflexivity. }
  apply wp_get_at with (v := 0); [exact Hz |]. change (1 <? 0) with false. change (negb (0 =? 0)) with false. cbn [when].
  apply wp_bind, wp_modify. set (s0 := set_ex _ s). assert (R0 : ready s0) by (by destruct Hs; split).
  eapply (next_bind _ _ _ _ s0); [done | exact Hl |]. intros s1 R1 M1 P1 L1 X1.
  change (at_pos s0) with (at_pos s) in P1. emit_with Epush 1. intros s2 R2 M2 P2 E2 X2.
  eapply (reads_bind right r rest); [done | done | by rewrite E2 | lia |]. intros s3 c R3 Hc M3 P3 L3 S3.
  apply wp_bind, wp_ret. emit_with Emov 2. intros s4 R4 M4 P4 E4 X4. emit_with Epop 1. intros s5 R5 M5 P5 E5 X5.
  assert (El : len (code_of (op_pieces o)) = 2) by (by destruct Ho as [-> | ->]).
  assert (Et : emit (if bool_decide (o = Minus) then Emit.sub REG_EAX REG_ECX else Emit.add REG_EAX REG_ECX) = emit_tail o)
    by (by destruct Ho as [-> | ->]).
  rewrite Et. eapply (emits_bind _ _ _ _ _ (emits_tail o)); [done | lia |]. intros s6 R6 M6 P6 E6 X6. apply wp_ret.
  exists c. split; [done |]. split; [| split; [by rewrite E6, E5, E4 | unfold scale_of in *; congruence]].
  assert (Ec : op_frag o c = [] ++ push_piece.1 ++ c ++ op_code (Mov_reg_reg REG_ECX REG_EAX) ++ op_code (Pop_reg REG_EAX) ++ code_of (op_pieces o))
    by (by destruct Ho as [-> | ->]).
  rewrite Ec. repeat (eapply moves_trans; [eassumption |]). done.
Qed.

(** ** Jumps that are patched *)

Lemma placeholder_rule f hd s (k : Z -> M unit) (Q : unit -> pstate -> Prop) :
  (forall e, f e = (CODE_POS (bytes hd e), bytes (hd ++ [0; 0; 0; 0]) e)) -> ready s ->
  at_pos s + len hd + 4 <= CC_CODE_MAX ->
  (forall s', moves s s' (hd ++ [0; 0; 0; 0]) -> lx s' = lx s -> ex s' = ex s -> wp (k (at_pos s + len hd)) Q s') ->
  wp (p ← placeholder f; k p) Q s.
Proof.
  intros Hf Hs Hroom Hk. apply wp_bind. destruct (bytes_spec hd (em s) (ready_em _ Hs)) as (_ & _ & _ & Hp).
  eexists _, _. split; [unfold placeholder; rewrite Hf; reflexivity |]. rewrite Hp. unfold at_pos, len in *.
  rewrite Z.min_r by lia. apply Hk; [| done | done]. destruct Hs as [H1 H2 H3 H4].
  destruct (bytes_spec (hd ++ [0; 0; 0; 0]) (em s) H4) as (Hw & He & _ & _). split; [by split |]. cbn. rewrite He, take_ge; [done |].
  rewrite length_app. cbn. lia.
Qed.

Lemma patch_rule pre body s0 s p (Q : unit -> pstate -> Prop) : ready s0 -> moves s0 s (pre ++ [0; 0; 0; 0] ++ body) ->
  p = at_pos s0 + len pre ->
  (forall s', ready s' -> moves s0 s' (pre ++ le_bytes 4 (len body) ++ body) -> at_pos s' = at_pos s ->
     lx s' = lx s -> ex s' = ex s -> Q () s') ->
  wp (patch_here p) Q s.
Proof.
  intros Hs0 HM -> HQ. pose proof (moves_pos _ _ _ Hs0 HM) as P. destruct HM as [Hs E].
  rewrite !len_app in P. change (len [0; 0; 0; 0]) with 4 in P.
  pose proof (len_nonneg pre). pose proof (len_nonneg body). pose proof (at_pos_range _ Hs0). pose proof (at_pos_range _ Hs).
  unfold CC_CODE_MAX in *. unfold patch_here. apply wp_bind, wp_get.
  assert (Ev : u32 (Emit.pos (em s) - u32 (at_pos s0 + len pre + 4)) = len body).
  { change (Emit.pos (em s)) with (at_pos s). rewrite (u32_small (_ + 4)) by lia. rewrite u32_small by lia. lia. }
  rewrite Ev. destruct (patch_dword_spec (at_pos s0 + len pre) (len body) (em s) (ready_em _ Hs)) as (e & Ee & Hw & Hpos & _ & Hem);
    [unfold word32; lia | lia | change (CODE_POS (em s)) with (at_pos s); lia |].
  eexists (), _. split; [unfold ParseState.patch_dword; rewrite Ee; reflexivity |]. apply HQ; [| | exact Hpos | done | done].
  { by destruct Hs as [? ? ? ?]; split. }
  split; [by destruct Hs as [? ? ? ?]; split |]. cbn -[le_bytes splice app]. rewrite Hem, E.
  replace (Z.to_nat (at_pos s0 + len pre)) with (length (emitted (em s0) ++ pre)).
  2: { rewrite length_app. unfold at_pos. rewrite <- (length_emitted _ (ready_em _ Hs0)). unfold len. lia. }
  rewrite app_assoc, splice_app by (by rewrite length_le_bytes). by rewrite <- !app_assoc.
Qed.

Definition jcc_head (cc : Z) : list Z := [0x0F; u8 (0x80 + cc)].
Lemma jcc_placeholder_bytes cc e :
  jcc_placeholder cc e = (CODE_POS (bytes (jcc_head cc) e), bytes (jcc_head cc ++ [0; 0; 0; 0]) e).
Proof. reflexivity. Qed.
Lemma jmp_placeholder_bytes e : jmp_placeholder e = (CODE_POS (bytes [0xE9] e), bytes ([0xE9] ++ [0; 0; 0; 0]) e).
Proof. reflexivity. Qed.

Lemma and_wp right r rest s : reads right r rest -> ready s ->
  lexes (T TOK_AND :: toks r ++ rest) (lx s) -> at_pos s + code_size t r + 22 <= CC_CODE_MAX ->
  wp (op_and right) (extends s r rest and_code) s.
Proof.
  intros Hr Hs Hl Hroom. pose proof (emits_op (Cmp_eax_imm 0) ltac:(op_side)) as Ecmp. pose proof (code_size_nonneg t r).
  eapply next_bind; [done | exact Hl |]. intros s1 R1 M1 P1 L1 X1. emit_with Ecmp 5. intros s2 R2 M2 P2 E2 X2.
  apply (placeholder_rule _ _ _ _ _ (jcc_placeholder_bytes CC_E)); [done | change (len _) with 2; lia |].
  change (len _) with 2. intros s3 M3 E3 X3. pose proof (moves_pos _ _ _ R2 M3) as P3. change (len _) with 6 in P3.
  eapply (reads_bind right r rest); [done | by destruct M3 | by rewrite E3, E2 | lia |]. intros s4 c R4 Hc M4 P4 L4 S4.
  apply (test_bind (patch_here (at_pos s2 + 2))); [done | lia |]. intros s5 R5 M5 P5 E5 X5.
  assert (M : moves s1 s5 ((op_code (Cmp_eax_imm 0) ++ jcc_head CC_E) ++ [0; 0; 0; 0] ++ c ++ test_code)).
  { rewrite <- app_assoc. eapply moves_trans; [exact M2 |]. rewrite app_assoc. eapply moves_trans; [exact M3 |]. by eapply moves_trans. }
  eapply (patch_rule _ _ _ _ _ _ R1 M); [rewrite len_app; change (len (op_code _)) with 5; change (len (jcc_head _)) with 2; lia |].
  intros s6 R6 M6 P6 E6 X6. exists c. split; [done |]. split; [| split; [by rewrite E6, E5 | unfold scale_of in *; congruence]].
  unfold and_code, skip_code. cbn [jcc_piece fst]. rewrite <- !app_assoc in *.
  apply (moves_trans s s1 s6 []); done.
Qed.

Lemma or_wp right r rest s : reads right r rest -> ready s ->
  lexes (T TOK_OR :: toks r ++ rest) (lx s) -> at_pos s + code_size t r + 32 <= CC_CODE_MAX ->
  wp (op_or right) (extends s r rest or_code) s.
Proof.
  intros Hr Hs Hl Hroom. pose proof (emits_op (Cmp_eax_imm 0) ltac:(op_side)) as Ecmp. pose proof (code_size_nonneg t r).
  pose proof (emits_op (Mov_reg_imm REG_EAX 1) ltac:(op_side)) as Eone.
  eapply next_bind; [done | exact Hl |]. intros s1 R1 M1 P1 L1 X1. emit_with Ecmp 5. intros s2 R2 M2 P2 E2 X2.
  assert (E0F : emits (emit (Emit.byte 0x0F)) [0x0F]) by (by apply emits_bytes).
  assert (E85 : emits (emit (Emit.byte 0x85)) [0x85]) by (by apply emits_bytes).
  assert (E0 : emits (emit (Emit.dword 0)) [0; 0; 0; 0]) by (by apply emits_bytes).
  emit_with E0F 1. intros s3 R3 M3 P3 E3 X3. emit_with E85 1. intros s4 R4 M4 P4 E4 X4.
  apply wp_get_at with (v := at_pos s4); [done |]. emit_with E0 4. intros s5 R5 M5 P5 E5 X5.
  eapply (reads_bind right r rest); [done | done | by rewrite E5, E4, E3, E2 | lia |]. intros s6 c R6 Hc M6 P6 L6 S6.
  apply (test_bind (end_ ← placeholder Emit.jmp_placeholder; patch_here (at_pos s4);; emit (Emit.mov_reg_imm REG_EAX 1);; patch_here end_));
    [done | lia |]. intros s7 R7 M7 P7 E7 X7.
  apply (placeholder_rule _ _ _ _ _ jmp_placeholder_bytes); [done | change (len _) with 1; lia |].
  change (len _) with 1. intros s8 M8 E8 X8. pose proof (moves_pos _ _ _ R7 M8) as P8. change (len _) with 5 in P8.
  assert (M : moves s1 s8 ((op_code (Cmp_eax_imm 0) ++ jcc_head CC_NE) ++ [0; 0; 0; 0] ++ (c ++ test_code) ++ [0xE9; 0; 0; 0; 0])).
  { rewrite <- !app_assoc. eapply moves_trans; [exact M2 |]. change (jcc_head CC_NE ++ ?l) with ([0x0F] ++ [0x85] ++ l).
    repeat (eapply moves_trans; [eassumption |]). done. }
  apply wp_bind. eapply (patch_rule _ _ _ _ _ _ R1 M); [rewrite len_app; change (len (op_code _)) with 5; change (len (jcc_head _)) with 2; lia |].
  intros s9 R9 M9 P9 E9 X9. emit_with Eone 5. intros s10 R10 M10 P10 E10 X10.
  set (d := len ((c ++ test_code) ++ [0xE9; 0; 0; 0; 0])) in *.
  set (pre := op_code (Cmp_eax_imm 0) ++ jcc_head CC_NE ++ le_bytes 4 d ++ c ++ test_code ++ [0xE9]).
  assert (M' : moves s1 s10 (pre ++ [0; 0; 0; 0] ++ op_code (Mov_reg_imm REG_EAX 1))).
  { pose proof (moves_trans _ _ _ _ _ M9 M10) as M'. unfold pre. rewrite <- !app_assoc in M' |- *. exact M'. }
  eapply (patch_rule _ _ _ _ _ _ R1 M').
  { unfold pre. rewrite !len_app. change (len (op_code _)) with 5. change (len (jcc_head _)) with 2.
    change (len (le_bytes 4 d)) with 4. change (len test_code) with 11. change (len [0xE9]) with 1. rewrite (proj1 Hc). lia. }
  intros s11 R11 M11 P11 E11 X11. exists c. split; [done |].
  split; [| split; [by rewrite E11, E10, E9, E8, E7 | unfold scale_of in *; congruence]].
  unfold or_code, skip_code. cbv zeta. cbn [jcc_piece fst].
  assert (Ed : len ((c ++ test_code) ++ (jmp_piece 5).1) = d) by (unfold d; by rewrite !len_app).
  rewrite Ed. unfold pre in M11. rewrite <- !app_assoc in *. apply (moves_trans s s1 s11 []); done.
Qed.

Lemma op_action_wp o right r rest s : reads right r rest -> ready s -> scale_of s = 0 ->
  lexes (T (op_token o) :: toks r ++ rest) (lx s) -> at_pos s + code_size t r + op_size o <= CC_CODE_MAX ->
  wp (op_action o right) (extends s r rest (op_frag o)) s.
Proof.
  intros Hr Hs Hz Hl Hroom. destruct (decide (o = LOr)) as [-> |]; [by apply or_wp |].
  destruct (decide (o = LAnd)) as [-> |]; [by apply and_wp |].
  destruct (decide (o = Plus)) as [-> |]; [by apply (add_wp Plus); [left | ..] |].
  destruct (decide (o = Minus)) as [-> |]; [by apply (add_wp Minus); [right | ..] |].
  by apply simple_wp.
Qed.

(** ** What follows an expression

    At level [k] it is a token that ends expressions, or an operator of a lower
    level. *)

Definition stop_tok (ty : tok_type) : bool :=
  bool_decide (ty ∈ [TOK_SEMI; TOK_COMMA; TOK_RPAREN; TOK_RBRACKET; TOK_LBRACE; TOK_RBRACE; TOK_EOF]).
Definition follow (k : nat) (rest : list tk) : Prop := exists x l, rest = x :: l /\
  (stop_tok (tk_type x) = true \/ exists o, tk_type x = op_token o /\ (lvl o < k)%nat).

Lemma follow_mono k k' rest : (k <= k')%nat -> follow k rest -> follow k' rest.
Proof. intros Hk (x & l & -> & [H | (o & E & H)]); exists x, l; (split; [done |]); [by left | right; exists o; split; [done | lia]]. Qed.
Lemma follow_not k rest s ty : follow k rest -> lexes rest (lx s) -> stop_tok ty = false ->
  (forall o, (lvl o < k)%nat -> op_token o <> ty) -> at_tok ty s = false.
Proof.
  intros (x & l & -> & H) Hl Hs Ho. rewrite (at_tok_head _ _ _ _ Hl). apply bool_decide_eq_false. intros E.
  destruct H as [H | (o & E2 & H)]; [congruence | apply (Ho o H); congruence].
Qed.
(** A token that is no operator and does not end expressions. *)
Definition outside (ty : tok_type) : Prop := stop_tok ty = false /\ forall o, op_token o <> ty.
Lemma follow_outside k rest s ty : follow k rest -> lexes rest (lx s) -> outside ty -> at_tok ty s = false.
Proof. intros Hf Hl [H1 H2]. by apply (follow_not k rest). Qed.
Ltac outside := split; [reflexivity | intros []; discriminate].

Lemma wp_if_yes {A} ty (a b : M A) Q s : at_tok ty s = true -> wp a Q s -> wp (if_tok ty a b) Q s.
Proof. intros E H. unfold wp, if_tok. by rewrite E. Qed.
Lemma wp_if_no {A} ty (a b : M A) Q s : at_tok ty s = false -> wp b Q s -> wp (if_tok ty a b) Q s.
Proof. intros E H. unfold wp, if_tok. by rewrite E. Qed.
Lemma wp_loop {X} (body : X -> M (bool * X)) x Q s : wp (loop_n (text_fuel s) body x) Q s -> wp (loop body x) Q s.
Proof. done. Qed.
Lemma text_fuel_S s : exists n, text_fuel s = S n.
Proof. by eexists. Qed.
(** Decide the tests of the current token by the first token of [H]. *)
Ltac tests H := repeat lazymatch goal with
  | |- wp (if_tok ?k _ _) _ _ =>
      first [apply wp_if_yes; [rewrite (at_tok_head _ _ _ _ H); reflexivity |]
            | apply wp_if_no; [rewrite (at_tok_head _ _ _ _ H); reflexivity |]]
  end.

Lemma wp_no_error m (Q : unit -> pstate -> Prop) s : ready s -> wp m Q s -> wp (unless_error m) Q s.
Proof. intros Hs Hm. apply wp_unless; [by rewrite (ready_err _ Hs) | done]. Qed.

(** A change of what is known of the last expression. *)
Lemma set_ex_bind (g : pstate -> expr_info) k (Q : unit -> pstate -> Prop) s : ready s ->
  (forall s', ready s' -> moves s s' [] -> at_pos s' = at_pos s -> lx s' = lx s -> ex s' = g s -> wp k Q s') ->
  wp (modify (fun s => set_ex (g s) s);; k) Q s.
Proof.
  intros Hs Hk. apply wp_bind, wp_modify. assert (ready (set_ex (g s) s)) by (by destruct Hs; split).
  apply Hk; try done. by apply moves_nil.
Qed.

(** ** Primary expressions *)

Section primary.
Variable pe : M unit.

Lemma literal_reads v (g : M Z) e x rest s : ready s -> lexes (x :: rest) (lx s) -> g s = Some (v, s) -> word32 v ->
  code_ok t e (op_code (Mov_reg_imm REG_EAX v)) -> at_pos s + 5 <= CC_CODE_MAX ->
  wp (parse_literal g) (fun _ s' => exists c, code_ok t e c /\ moves s s' c /\ lexes rest (lx s') /\ scale_of s' = 0) s.
Proof.
  intros Hs Hl Hg Hv Hc Hroom. pose proof (emits_op (Mov_reg_imm REG_EAX v)) as Em.
  specialize (Em (conj (conj (Z.le_refl 0) eq_refl) Hv)).
  unfold parse_literal. apply wp_bind. exists v, s. split; [done |].
  emit_with Em 5. intros s1 R1 M1 P1 E1 X1. apply set_ex_bind; [done |]. intros s2 R2 M2 P2 E2 X2.
  apply set_ex_bind; [done |]. intros s3 R3 M3 P3 E3 X3.
  eapply next_rule; [done | by rewrite E3, E2, E1 |]. intros s4 R4 L4 E4 X4. exists (op_code (Mov_reg_imm REG_EAX v)). split; [done |].
  split; [| split; [done | unfold scale_of; by rewrite X4, X3, X2]].
  rewrite <- (app_nil_r (op_code _)). eapply moves_trans; [exact M1 |].
  apply (moves_trans _ s2 _ [] [] M2). apply (moves_trans _ s3 _ [] [] M3). by apply moves_nil.
Qed.

Lemma load_sym_wp y s : ready s -> scalar y = true -> at_pos s + len (op_code (load_op y)) <= CC_CODE_MAX ->
  wp (emit_load_sym y) (fun _ s' => moves s s' (op_code (load_op y)) /\ lx s' = lx s /\ scale_of s' = 0) s.
Proof.
  intros Hs Hy Hroom. assert (Hp : is_ptr y = 0 /\ has_struct y = false) by (unfold scalar in Hy; breflect; auto).
  destruct Hp as [Hp Hst]. unfold emit_load_sym. rewrite Hst. unfold ptr_scale. rewrite Hp. cbn [negb Z.eqb].
  apply set_ex_bind; [done |]. intros s1 R1 M1 P1 E1 X1. apply set_ex_bind; [done |]. intros s2 R2 M2 P2 E2 X2.
  assert (Hm : forall s' c, moves s2 s' c -> moves s s' c).
  { intros s' c H. apply (moves_trans _ s1 _ [] c M1). by apply (moves_trans _ s2 _ [] c M2). }
  assert (Z2 : scale_of s2 = 0) by (unfold scale_of; by rewrite X2, X1).
  pose proof (scalar_range y Hy) as Hr. unfold load_op in *.
  destruct (Z.eqb_spec (kind y) SYM_CONST) as [Ek | Ek].
  - pose proof (emits_op (Mov_reg_imm REG_EAX (addr y)) (conj (conj (Z.le_refl 0) eq_refl) (scalar_const y Hy Ek))) as Em.
    change (len _) with 5 in Hroom. emit_with Em 5. intros s3 R3 M3 P3 E3 X3.
    apply wp_modify. split; [apply Hm; exact (moves_trans _ s3 _ _ [] M3 (moves_nil s3 (set_ex _ s3) ltac:(by destruct R3; split) eq_refl)) |].
    split; [cbn; congruence | done].
  - specialize (Hr Ek). destruct Hr as [Hf Hg]. destruct (is_frame (kind y)).
    + apply (emits_op (Load_local REG_EAX (Sym.offset y)) (conj (conj (Z.le_refl 0) eq_refl) (Hf eq_refl)));
        [done | lia |]. intros s3 M3 E3 X3. split; [by apply Hm |]. split; [congruence | unfold scale_of in *; congruence].
    + destruct (Hg eq_refl) as [Ek' Ha]. rewrite Ek'. cbn [Z.eqb SYM_GLOBAL].
      apply (emits_op (Load_global REG_EAX (addr y)) (conj (conj (Z.le_refl 0) eq_refl) Ha));
        [done | lia |]. intros s3 M3 E3 X3. split; [by apply Hm |]. split; [congruence | unfold scale_of in *; congruence].
Qed.

Lemma declared_entry w : declared t w -> exists y, entry_of t w = Some y /\ scalar y = true.
Proof. unfold declared. destruct (entry_of t w) as [y |]; cbn; [intros H%Is_true_true_1; by exists y | done]. Qed.

(** The name of the current token, looked up. *)
Lemma lookup_bind w y l (k : list Z -> option Symbol -> M unit) (Q : unit -> pstate -> Prop) s : ready s ->
  lexes (TId w :: l) (lx s) -> entry_of t w = Some y -> wp (k (copy_name w) (Some y)) Q s ->
  wp (fname ← ParseState.tok_name; y ← ParseState.lookup (cstr fname); k fname y) Q s.
Proof.
  intros Hs [[_ Hw] _] Ey Hk. unfold ParseState.tok_name. apply wp_bind, wp_bind, wp_get. unfold tok. rewrite Hw.
  apply wp_ret. apply wp_bind. exists (Some y), s. split; [| done]. unfold ParseState.lookup. rewrite (ready_sy _ Hs).
  unfold entry_of in Ey. destruct (Sym.lookup (cstr (copy_name w)) t) as [[p |] |]; cbn in *; try done. by rewrite Ey.
Qed.

Lemma postfix_step_stop k rest s (Q : bool -> pstate -> Prop) : ready s -> follow k rest -> lexes rest (lx s) -> Q false s ->
  wp (postfix_step pe) Q s.
Proof.
  intros Hs Hf Hl HQ. unfold postfix_step. apply wp_bind, wp_get. rewrite (ready_err _ Hs).
  apply wp_if_no; [by apply (follow_outside k rest); [| | outside] |].
  apply wp_bind, wp_get. cbv zeta. apply wp_bind, wp_get. apply wp_bind, wp_get.
  rewrite (follow_outside k rest s TOK_ARROW), (follow_outside k rest s TOK_DOT) by (done || outside). cbn [andb].
  apply wp_if_no; [by apply (follow_outside k rest); [| | outside] |]. by apply wp_ret.
Qed.
Lemma postfix_stop k rest s (Q : unit -> pstate -> Prop) : ready s -> follow k rest -> lexes rest (lx s) -> Q () s ->
  wp (loop (fun _ => go ← postfix_step pe; mret (go, ())) ()) Q s.
Proof.
  intros Hs Hf Hl HQ. apply wp_loop. destruct (text_fuel_S s) as [n ->].
  cbn [loop_n]. apply wp_bind, wp_bind. apply (postfix_step_stop k rest); [done | done | done |]. by apply wp_ret, wp_ret.
Qed.

(** The conclusion of [reads]. *)
Definition got (e : expr) (rest : list tk) (s : pstate) : unit -> pstate -> Prop :=
  fun _ s' => exists c, code_ok t e c /\ moves s s' c /\ lexes rest (lx s') /\ scale_of s' = 0.

(** The parser of expressions may be used on the text between parentheses. *)
Variable N : nat.
Hypothesis inner : forall e rest, (length (toks e) < N)%nat -> grouped e = true -> all_vars (declared t) e ->
  follow 0 rest -> reads pe e rest.

Lemma var_reads w rest k s : ready s -> follow k rest -> declared t w -> lexes (TId w :: rest) (lx s) ->
  at_pos s + var_size t w <= CC_CODE_MAX -> wp (parse_primary pe) (got (Var w) rest s) s.
Proof.
  intros Hs Hf Hd Hl Hroom. destruct (declared_entry w Hd) as (y & Ey & Hy). pose proof (code_ok_var t w y Ey Hy) as Hc.
  unfold parse_primary. apply wp_no_error; [done |]. tests Hl. eapply lookup_bind; [done | exact Hl | exact Ey |].
  eapply next_bind; [done | exact Hl |]. intros s1 R1 M1 P1 L1 X1.
  apply wp_if_no; [by apply (follow_outside k rest); [| | outside] |].
  eapply wp_mono; [apply load_sym_wp; [done | done |] |].
  - rewrite (proj1 Hc). cbn. lia.
  - cbv beta. intros ? s2 (M2 & E2 & S2). exists (op_code (load_op y)). split; [done |].
    split; [exact (moves_trans _ s1 _ [] _ M1 M2) | split; [by rewrite E2 | done]].
Qed.

Lemma primary_reads e rest k s : (10 <= level e)%nat -> (forall e', e <> Opp e' /\ e <> Compl e') ->
  (length (toks e) <= N)%nat -> grouped e = true -> all_vars (declared t) e -> ready s -> follow k rest ->
  lexes (toks e ++ rest) (lx s) -> at_pos s + code_size t e <= CC_CODE_MAX ->
  wp (parse_primary pe) (got e rest s) s.
Proof.
  intros Hlv Hu HN Hg Hv Hs Hf Hl Hroom. destruct e as [v | b | w | e | e | e | o l r].
  - unfold parse_primary. apply wp_no_error; [done |]. cbn [toks app] in Hl. tests Hl.
    apply (literal_reads (u32 v) _ _ (TNum v)); [done | done | | apply u32_range | apply code_ok_num | done].
    unfold get, tok. by destruct Hl as [[_ ->] _].
  - unfold parse_primary. apply wp_no_error; [done |]. cbn [toks app] in Hl. pose proof (code_ok_bool t b) as Hc.
    destruct b; tests Hl; (eapply literal_reads; [done | exact Hl | done | by unfold word32; lia | exact Hc | done]).
  - by apply (var_reads w rest k).
  - unfold parse_primary. apply wp_no_error; [done |]. cbn [toks app] in Hl. rewrite <- app_assoc in Hl. tests Hl.
    eapply next_bind; [done | exact Hl |]. intros s1 R1 M1 P1 L1 X1. cbn [toks length] in HN. rewrite length_app in HN.
    eapply (reads_bind pe e); [| done | exact L1 | by rewrite P1 |].
    { apply inner; [lia | done | done |]. eexists _, _. split; [reflexivity | by left]. }
    intros s2 c R2 Hc M2 P2 L2 S2. cbn [app] in L2. eapply wp_expect; [exact L2 |].
    eapply (next_rule _ _ _ s2); [done | exact L2 |]. intros s3 R3 L3 E3 X3.
    exists c. split; [done |]. split; [| split; [done | unfold scale_of in *; congruence]].
    apply (moves_trans _ s1 _ [] c M1). rewrite <- (app_nil_r c). eapply moves_trans; [exact M2 | by apply moves_nil].
  - by destruct (Hu e).
  - by destruct (Hu e).
  - destruct o; cbn in Hlv; lia.
Qed.

Lemma postfix_reads e rest k s : (10 <= level e)%nat -> (forall e', e <> Opp e' /\ e <> Compl e') ->
  (length (toks e) <= N)%nat -> grouped e = true -> all_vars (declared t) e -> ready s -> follow k rest ->
  lexes (toks e ++ rest) (lx s) -> at_pos s + code_size t e <= CC_CODE_MAX ->
  wp (parse_postfix pe) (got e rest s) s.
Proof.
  intros Hlv Hu HN Hg Hv Hs Hf Hl Hroom. unfold parse_postfix. apply wp_no_error; [done |]. apply wp_bind.
  eapply wp_mono; [by apply (primary_reads e rest k) |]. cbv beta. intros ? s1 (c & Hc & M1 & L1 & S1).
  apply (postfix_stop k rest); [by destruct M1 | done | done |]. by exists c.
Qed.

Lemma prefix_reads e e' m op rest s : ready s -> lexes (T op :: toks e ++ rest) (lx s) -> reads m e rest ->
  at_pos s + code_size t e + 2 <= CC_CODE_MAX -> forall f o, emits (emit f) (op_code o) -> len (op_code o) = 2 ->
  (forall l, code_ok t e l -> code_ok t e' (l ++ op_code o)) ->
  wp (ParseState.next;; m;; emit f) (got e' rest s) s.
Proof.
  intros Hs Hl Hm Hroom f o Hf Ho Hc. eapply next_bind; [done | exact Hl |]. intros s1 R1 M1 P1 L1 X1.
  eapply (reads_bind m e rest); [done | done | done | lia |]. intros s2 c R2 Hok M2 P2 L2 S2.
  apply Hf; [done | lia |]. intros s3 M3 E3 X3. exists (c ++ op_code o). split; [auto |].
  split; [| split; [by rewrite E3 | unfold scale_of in *; congruence]].
  apply (moves_trans _ s1 _ [] _ M1). by eapply moves_trans.
Qed.

Lemma unary_n_reads rest k : follow k rest -> forall e fuel, (10 <= level e)%nat -> (length (toks e) <= N)%nat ->
  grouped e = true -> all_vars (declared t) e -> (length (toks e) < fuel)%nat -> reads (parse_unary_n pe fuel) e rest.
Proof.
  intros Hf e. induction e as [v | b | w | e IH | e IH | e IH | o l IHl r IHr]; intros fuel Hlv HN Hg Hv Hfuel s Hs Hl Hroom;
    (destruct fuel as [| fuel]; [cbn in Hfuel; lia |]); cbn [parse_unary_n]; (apply wp_no_error; [done |]); cbn [toks app] in Hl.
  - tests Hl. by apply (postfix_reads (Num v) rest k).
  - pose proof (fun Hu => postfix_reads (Bool b) rest k s Hlv Hu HN Hg Hv Hs Hf Hl Hroom) as H.
    destruct b; tests Hl; by apply H.
  - tests Hl. by apply (postfix_reads (Var w) rest k).
  - pose proof Hl as Hl'. rewrite <- app_assoc in Hl'. cbn [app] in Hl'. tests Hl. by apply (postfix_reads (Paren e) rest k).
  - cbn [grouped] in Hg. apply andb_prop in Hg as [Hg Hlv']. apply Nat.leb_le in Hlv'. cbn [toks length] in HN, Hfuel.
    cbn [code_size] in Hroom. tests Hl.
    apply (prefix_reads e _ _ TOK_MINUS rest s) with (o := Neg REG_EAX);
      [done | exact Hl | apply IH; [done | lia | done | done | lia] | lia | | reflexivity | apply code_ok_neg].
    apply (emits_op (Neg REG_EAX)). op_side.
  - cbn [grouped] in Hg. apply andb_prop in Hg as [Hg Hlv']. apply Nat.leb_le in Hlv'. cbn [toks length] in HN, Hfuel.
    cbn [code_size] in Hroom. tests Hl.
    apply (prefix_reads e _ _ TOK_BANG rest s) with (o := Not REG_EAX);
      [done | exact Hl | apply IH; [done | lia | done | done | lia] | lia | | reflexivity | apply code_ok_not].
    apply (emits_op (Not REG_EAX)). op_side.
  - destruct o; cbn in Hlv; lia.
Qed.


(** ** Chains of operators *)

Definition ops_toks (L : list (binop * expr)) : list tk := concat (map (fun p => T (op_token p.1) :: toks p.2) L).
Definition fold_ops (e : expr) (L : list (binop * expr)) : expr := foldl (fun e p => Bin p.1 e p.2) e L.

Lemma fold_ops_size L : forall e, code_size t e <= code_size t (fold_ops e L).
Proof.
  induction L as [| [o r] L IH]; intros e; cbn [fold_ops foldl]; [done |]. etrans; [| apply IH]. cbn [code_size fst snd].
  pose proof (op_size_nonneg o). pose proof (code_size_nonneg t r). lia.
Qed.
Lemma fold_ops_vars P L : forall e, all_vars P (fold_ops e L) <-> all_vars P e /\ Forall (fun p => all_vars P p.2) L.
Proof.
  induction L as [| [o r] L IH]; intros e; cbn [fold_ops foldl].
  - split; [done | tauto].
  - change (foldl _ ?a L) with (fold_ops a L). rewrite IH. cbn. rewrite Forall_cons. cbn. tauto.
Qed.
Lemma ops_toks_length L : (2 * length L <= length (ops_toks L))%nat.
Proof.
  induction L as [| [o r] L IH]; [done |]. unfold ops_toks in *. cbn [map concat length fst snd]. rewrite length_app. cbn [length].
  assert (1 <= length (toks r))%nat by (destruct r; cbn; rewrite ?length_app; cbn; lia). lia.
Qed.
Lemma ops_fuel L rest s : ready s -> lexes (ops_toks L ++ rest) (lx s) -> (length L < text_fuel s)%nat.
Proof.
  intros Hs Hl%lexes_app. pose proof (ops_toks_length L).
  assert (Hne : Forall (fun x => tk_type x <> TOK_EOF) (ops_toks L)).
  { apply Forall_concat, Forall_map, Forall_true. intros [o r]. constructor; [by destruct o | apply toks_not_eof]. }
  pose proof (lexes_length _ _ (ready_lx _ Hs) Hl Hne). unfold text_fuel, unread_text. lia.
Qed.

(** The body of a loop does the round of each operator, and stops after the last. *)
Definition round_ok (body : unit -> M (bool * unit)) (o : binop) (r : expr) (rest : list tk) : Prop := forall s,
  ready s -> scale_of s = 0 -> lexes (T (op_token o) :: toks r ++ rest) (lx s) ->
  at_pos s + code_size t r + op_size o <= CC_CODE_MAX ->
  wp (body ()) (fun x s' => x = (true, ()) /\ extends s r rest (op_frag o) () s') s.
Fixpoint rounds (body : unit -> M (bool * unit)) (L : list (binop * expr)) (rest : list tk) : Prop :=
  match L with
  | [] => forall s (Q : bool * unit -> pstate -> Prop), ready s -> lexes rest (lx s) -> Q (false, ()) s -> wp (body ()) Q s
  | (o, r) :: L => round_ok body o r (ops_toks L ++ rest) /\ rounds body L rest
  end.

Lemma loop_rounds body rest s0 : ready s0 -> forall L fuel e c s, rounds body L rest -> ready s -> moves s0 s c -> code_ok t e c ->
  scale_of s = 0 -> lexes (ops_toks L ++ rest) (lx s) -> at_pos s0 + code_size t (fold_ops e L) <= CC_CODE_MAX ->
  (length L < fuel)%nat -> wp (loop_n fuel body ()) (got (fold_ops e L) rest s0) s.
Proof.
  intros Hs0. induction L as [| [o r] L IH]; intros fuel e c s Hb Hs M Hc Hz Hl Hroom Hf;
    (destruct fuel as [| fuel]; [lia |]); cbn [loop_n].
  - apply wp_bind, Hb; [done | done |]. apply wp_ret. by exists c.
  - destruct Hb as [Hr Hb]. cbn [fold_ops foldl] in Hroom |- *. change (foldl _ ?a L) with (fold_ops a L) in *.
    pose proof (fold_ops_size L (Bin o e r)) as Hsz. cbn [fst snd code_size] in Hsz, Hroom.
    pose proof (moves_pos _ _ _ Hs0 M) as P. rewrite (proj1 Hc) in P. pose proof (at_pos_range s0 Hs0). pose proof (code_size_nonneg t e).
    apply wp_bind. unfold ops_toks in Hl. cbn [map concat fst snd app] in Hl. rewrite <- app_assoc in Hl.
    eapply wp_mono; [apply Hr; [done | done | exact Hl | lia] |]. cbv beta.
    intros x s1 (-> & c1 & Hc1 & M1 & L1 & S1). cbn [length] in Hf.
    apply (IH fuel (Bin o e r) (c ++ op_frag o c1)); try done; [by destruct M1 | by eapply moves_trans | | lia].
    apply code_ok_bin; [done | done | lia].
Qed.

(** ** The levels of precedence *)

Definition parser (k : nat) : M unit :=
  match k with
  | 0 => parse_or pe | 1 => parse_and_expr pe | 2 => parse_bitor pe | 3 => parse_bitxor pe | 4 => parse_bitand pe
  | 5 => parse_equal pe | 6 => parse_relational pe | 7 => parse_shift pe | 8 => parse_add_expr pe | 9 => parse_mul pe
  | _ => parse_unary pe
  end%nat.
Definition is_op_at (k : nat) : pstate -> bool :=
  match k with
  | 0 => at_tok TOK_OR | 1 => at_tok TOK_AND | 2 => at_tok TOK_PIPE | 3 => at_tok TOK_CARET | 4 => at_tok TOK_AMP
  | 5 => is_equality | 6 => is_relation | 7 => is_shift | 8 => is_additive | _ => is_factor
  end%nat.
Definition act_at (k : nat) (right : M unit) : M unit :=
  match k with
  | 0 => op_or right | 1 => op_and right | 2 => op_bitor right | 3 => op_bitxor right | 4 => op_bitand right
  | 5 => op_equal right | 6 => op_relational right | 7 => op_shift right | 8 => op_add right | _ => op_mul right
  end%nat.

Lemma below_10 k : (k < 10)%nat -> k = 0%nat \/ k = 1%nat \/ k = 2%nat \/ k = 3%nat \/ k = 4%nat \/ k = 5%nat \/
  k = 6%nat \/ k = 7%nat \/ k = 8%nat \/ k = 9%nat.
Proof. lia. Qed.
Ltac each_level H := apply below_10 in H; repeat (destruct H as [H | H]); subst.

Lemma parser_chain k : (k < 10)%nat -> parser k = chain (parser (S k)) (is_op_at k) (act_at k (parser (S k))).
Proof. intros Hk. each_level Hk; reflexivity. Qed.
Lemma act_at_op o right : act_at (lvl o) right = op_action o right.
Proof. by destruct o. Qed.
Lemma is_op_at_head o l s : lexes (T (op_token o) :: l) (lx s) -> is_op_at (lvl o) s = true.
Proof.
  intros Hl. pose proof (fun k => at_tok_head _ _ _ k Hl) as Ht. cbn [tk_type] in Ht.
  destruct o; cbn [lvl is_op_at op_token] in *; unfold is_equality, is_relation, is_shift, is_additive, is_factor; by rewrite ?Ht.
Qed.
Lemma is_op_at_stop k rest s : (k < 10)%nat -> follow k rest -> lexes rest (lx s) -> is_op_at k s = false.
Proof.
  intros Hk Hf Hl. pose proof (fun ty => follow_not k rest s ty Hf Hl) as Hn.
  each_level Hk; cbn [is_op_at]; unfold is_equality, is_relation, is_shift, is_additive, is_factor;
    rewrite !Hn by (reflexivity || (intros []; cbn; intros ?; try lia; discriminate)); reflexivity.
Qed.

(** The operators of one level at the top of an expression. *)
Lemma spine k e : grouped e = true -> (k <= level e)%nat -> (k < 10)%nat -> exists e0 L,
  e = fold_ops e0 L /\ toks e = toks e0 ++ ops_toks L /\ grouped e0 = true /\ (S k <= level e0)%nat /\
  Forall (fun p => lvl p.1 = k /\ grouped p.2 = true /\ (S k <= level p.2)%nat) L.
Proof.
  intros Hg Hk H10.
  assert (Hflat : (S k <= level e)%nat -> exists e0 L,
    e = fold_ops e0 L /\ toks e = toks e0 ++ ops_toks L /\ grouped e0 = true /\ (S k <= level e0)%nat /\
    Forall (fun p => lvl p.1 = k /\ grouped p.2 = true /\ (S k <= level p.2)%nat) L).
  { intros. exists e, []. by rewrite app_nil_r. }
  induction e as [v | b | w | e _ | e _ | e _ | o l IHl r _]; try (by apply Hflat; cbn; lia).
  destruct (decide (lvl o = k)) as [Eo |]; [| apply Hflat; cbn in *; lia]. clear Hflat.
  cbn [grouped] in Hg. apply andb_prop in Hg as [Hg Hr]. apply andb_prop in Hg as [Hg Hl]. apply andb_prop in Hg as [Hgl Hgr].
  apply Nat.leb_le in Hl. apply Nat.ltb_lt in Hr.
  assert (Hlv : (k <= level l)%nat) by lia.
  destruct (IHl Hgl Hlv) as (e0 & L & E & Et & H0 & H1 & HL).
  { intros. exists l, []. by rewrite app_nil_r. }
  exists e0, (L ++ [(o, r)]). split_and!; [| | done | done |].
  - unfold fold_ops in *. rewrite foldl_app. cbn. by rewrite <- E.
  - cbn [toks]. unfold ops_toks in *. rewrite Et, map_app, concat_app, <- app_assoc. cbn. by rewrite app_nil_r.
  - apply Forall_app_2; [done |]. apply Forall_singleton. split; [done |]. split; [done | cbn; lia].
Qed.

Lemma follow_ops k k' L rest : follow k' rest -> (k' <= k)%nat -> (forall o r L', L = (o, r) :: L' -> (lvl o < k)%nat) -> follow k (ops_toks L ++ rest).
Proof.
  intros Hf Hk Ho. destruct L as [| [o r] L]; [by apply (follow_mono k') |].
  eexists _, _. split; [reflexivity |]. right. exists o. split; [done | by eapply Ho].
Qed.

Lemma level_reads j : forall k e rest, (k + j = 10)%nat -> grouped e = true -> (k <= level e)%nat ->
  all_vars (declared t) e -> (length (toks e) <= N)%nat -> follow k rest -> reads (parser k) e rest.
Proof.
  induction j as [| j IH]; intros k e rest Hj Hg Hk Hv HN Hf s Hs Hl Hroom.
  { replace k with 10%nat in * by lia. unfold parser, parse_unary. apply wp_fuel.
    apply (unary_n_reads rest 10); try done. by eapply toks_fuel. }
  assert (H10 : (k < 10)%nat) by lia. rewrite (parser_chain k H10). apply wp_no_error; [done |].
  destruct (spine k e Hg Hk H10) as (e0 & L & E & Et & Hg0 & Hk0 & HL). apply wp_bind.
  assert (Hsz : code_size t e0 <= code_size t e) by (rewrite E; apply fold_ops_size).
  rewrite E in Hv. apply fold_ops_vars in Hv as [Hv0 HvL]. rewrite Et, length_app in HN. rewrite Et, <- app_assoc in Hl.
  eapply wp_mono; [apply (IH (S k) e0 (ops_toks L ++ rest)); try done; [lia | lia | | lia] |].
  { eapply follow_ops; [exact Hf | lia |]. intros o r L' ->. apply Forall_cons in HL as [[Ho _] _]. cbn in Ho. lia. }
  cbv beta. intros _ s1 (c & Hc & M1 & L1 & S1). unfold while. apply wp_loop. rewrite E.
  apply (loop_rounds _ rest s Hs L _ e0 c s1); try done; [| by destruct M1 | by rewrite <- E | by eapply ops_fuel; [by destruct M1 |]].
  clear E Et Hc M1 L1 Hl Hsz Hroom. assert (HNL : (length (ops_toks L) <= N)%nat) by lia. clear HN.
  induction L as [| [o r] L IHL].
  - intros s' Q R' Hl' HQ. apply wp_bind, wp_get. rewrite (is_op_at_stop k rest) by done. by apply wp_ret.
  - apply Forall_cons in HL as [(Ho & Hgr & Hkr) HL]. apply Forall_cons in HvL as [Hvr HvL]. cbn [fst snd] in *.
    unfold ops_toks in HNL. cbn [map concat length fst snd] in HNL. rewrite length_app in HNL. cbn [length] in HNL.
    split; [| apply IHL; [done | done | unfold ops_toks; lia]].
    intros s' R' Hz' Hl' Hroom'. apply wp_bind, wp_get. rewrite <- Ho, (is_op_at_head o _ _ Hl').
    apply wp_bind. rewrite act_at_op. eapply wp_mono; [apply (op_action_wp o _ r (ops_toks L ++ rest)); try done |].
    { apply IH; try done; [lia | lia | lia |]. rewrite Ho. eapply follow_ops; [exact Hf | lia |].
      intros o' r' L' ->. apply Forall_cons in HL as [[Ho' _] _]. cbn in Ho'. lia. }
    cbv beta. intros ? s2 H2. apply wp_ret. split; [done |]. exact H2.
Qed.

(** ** The loop of [parse_binops]

    It goes on after an operand with any operator, and gives [||], [&&] and [|]
    a right operand of their own level: chains of these group to the right. *)

Definition right_level (o : binop) : nat := if associates o then lvl o else S (lvl o).

(** Operators with right operands, as this loop takes them. *)
Fixpoint parts (L : list (binop * expr)) : Prop :=
  match L with
  | [] => True
  | (o, r) :: L => grouped r = true /\ (right_level o <= level r)%nat /\
      match L with [] => True | (o', _) :: _ => (lvl o' < right_level o)%nat end /\ parts L
  end.

Lemma parts_snoc L o1 r1 o r : parts (L ++ [(o1, r1)]) -> grouped r = true -> (right_level o <= level r)%nat ->
  (lvl o < right_level o1)%nat -> parts (L ++ [(o1, r1); (o, r)]).
Proof.
  induction L as [| [o' r'] L IH]; cbn; [tauto |]. intros (H1 & H2 & H3 & H4) Hg Hr Ho.
  split_and!; [done | done | | by apply IH]. by destruct L as [| [??] L].
Qed.
Lemma parts_last L o r0 r : parts (L ++ [(o, r0)]) -> grouped r = true -> (right_level o <= level r)%nat -> parts (L ++ [(o, r)]).
Proof.
  induction L as [| [o' r'] L IH]; cbn; [tauto |]. intros (H1 & H2 & H3 & H4) Hg Hr.
  split_and!; [done | done | | by apply IH]. by destruct L as [| [??] L].
Qed.
Lemma parts_in L o r : parts (L ++ [(o, r)]) -> grouped r = true /\ (right_level o <= level r)%nat.
Proof. induction L as [| [o' r'] L IH]; cbn; [tauto |]. intros (_ & _ & _ & H). by apply IH. Qed.
Lemma associates_level o o' : associates o = true -> lvl o' = lvl o -> o' = o.
Proof. destruct o, o'; done. Qed.

Lemma fold_ops_snoc e L o r : fold_ops e (L ++ [(o, r)]) = Bin o (fold_ops e L) r.
Proof. unfold fold_ops. by rewrite foldl_app. Qed.
Lemma ops_toks_snoc L o r : ops_toks (L ++ [(o, r)]) = ops_toks L ++ T (op_token o) :: toks r.
Proof. unfold ops_toks. rewrite map_app, concat_app. cbn. by rewrite app_nil_r. Qed.

Definition high (k : nat) (L : list (binop * expr)) : Prop := Forall (fun p => (k <= lvl p.1)%nat) L.

(** One more operator after those of a left operand. *)
Lemma parts_extend w o r L l : parts L -> high (level l) L -> (lvl o <= level l)%nat -> (lvl o < level r)%nat ->
  grouped r = true -> equiv t (fold_ops (Var w) L) l -> exists L',
  ops_toks L' = ops_toks L ++ T (op_token o) :: toks r /\ parts L' /\ high (lvl o) L' /\
  equiv t (fold_ops (Var w) L') (Bin o l r).
Proof.
  intros HL Hh Hl Hr Hg He.
  assert (Hrl : (right_level o <= level r)%nat) by (unfold right_level; case_if; lia).
  assert (Hh' : high (lvl o) L) by (eapply Forall_impl; [exact Hh | cbn; lia]).
  destruct L as [| [o1 r1] L _] using rev_ind.
  { exists [(o, r)]. split; [unfold ops_toks; cbn; by rewrite app_nil_r |]. split; [done |].
    split; [by apply Forall_singleton | by apply equiv_bin_l]. }
  destruct (decide (associates o1 = true /\ lvl o = lvl o1)) as [[Ha El] | Hn].
  - apply associates_level in El as ->; [| done]. exists (L ++ [(o1, Bin o1 r1 r)]).
    destruct (parts_in _ _ _ HL) as [Hg1 Hr1]. unfold right_level in Hr1. rewrite Ha in Hr1.
    rewrite !ops_toks_snoc, !fold_ops_snoc in *. split; [cbn [toks]; by rewrite <- app_assoc |]. split; [| split].
    + eapply parts_last; [exact HL | |].
      * cbn [grouped]. rewrite Hg1, Hg. cbn [andb]. apply andb_true_intro. split; [by apply Nat.leb_le | by apply Nat.ltb_lt].
      * unfold right_level. by rewrite Ha.
    + apply Forall_app in Hh' as [Hh1 _]. apply Forall_app_2; [done |]. by apply Forall_singleton.
    + eapply equiv_trans; [by apply equiv_assoc | by apply equiv_bin_l].
  - exists ((L ++ [(o1, r1)]) ++ [(o, r)]). rewrite ops_toks_snoc, fold_ops_snoc. split; [done |]. split; [| split].
    + rewrite <- app_assoc. apply parts_snoc; try done. unfold right_level. apply Forall_app in Hh as [_ Hh].
      apply Forall_inv in Hh. cbn [fst] in Hh. destruct (associates o1); [| lia].
      assert (lvl o <> lvl o1) by tauto. lia.
    + apply Forall_app_2; [done | by apply Forall_singleton].
    + by apply equiv_bin_l.
Qed.

Lemma regroup e w ts : grouped e = true -> toks e = TId w :: ts -> exists L,
  ts = ops_toks L /\ parts L /\ high (level e) L /\ equiv t (fold_ops (Var w) L) e.
Proof.
  revert ts. induction e as [v | b | w' | e _ | e _ | e _ | o l IHl r _]; intros ts Hg Ht; cbn [toks] in Ht; try discriminate.
  - injection Ht as -> <-. exists []. split; [done |]. split; [done |]. split; [by apply Forall_nil | apply equiv_refl].
  - cbn [grouped] in Hg. apply andb_prop in Hg as [Hg Hr]. apply andb_prop in Hg as [Hg Hl]. apply andb_prop in Hg as [Hgl Hgr].
    apply Nat.leb_le in Hl. apply Nat.ltb_lt in Hr.
    destruct (toks l) as [| x tl] eqn:El; [by destruct l as [| | | | | | ? l2 ?]; try done; destruct (toks l2) |].
    cbn [app] in Ht. injection Ht as -> <-. destruct (IHl tl Hgl eq_refl) as (L & -> & HL & Hh & He).
    destruct (parts_extend w o r L l HL Hh Hl Hr Hgr He) as (L' & E & H1 & H2 & H3). by exists L'.
Qed.

Lemma right_parser o : (right_level o <= 10)%nat.
Proof. by destruct o; cbn; lia. Qed.

Lemma binop_step_op o r rest : reads (parser (right_level o)) r rest ->
  round_ok (fun _ => go ← binop_step pe; mret (go, ())) o r rest.
Proof.
  intros Hr s Hs Hz Hl Hroom. pose proof (fun k => at_tok_head _ _ _ k Hl) as Ht. cbn [tk_type] in Ht.
  assert (H : wp (op_action o (parser (right_level o));; mret true) (fun b s' => b = true /\ extends s r rest (op_frag o) () s') s).
  { apply wp_bind. eapply wp_mono; [by apply (op_action_wp o _ r rest) |]. cbv beta. intros ? s' H. by apply wp_ret. }
  apply wp_bind.
  assert (Hstep : wp (binop_step pe) (fun b s' => b = true /\ extends s r rest (op_frag o) () s') s).
  2: { eapply wp_mono; [exact Hstep |]. cbv beta. intros b s' (-> & H'). by apply wp_ret. }
  unfold binop_step. apply wp_bind, wp_get. rewrite (ready_err _ Hs).
  assert (Hb : forall (b : bool) m1 m2 Q, b = true -> wp m1 Q s -> wp (if b then m1 else m2 : M bool) Q s) by (by intros ? ? ? ? ->).
  assert (Hn : forall (b : bool) m1 m2 Q, b = false -> wp m2 Q s -> wp (if b then m1 else m2 : M bool) Q s) by (by intros ? ? ? ? ->).
  destruct o; cbn [op_action op_token right_level associates lvl parser] in *; tests Hl; lazymatch goal with
    | |- wp (_ ← get is_equality; _) _ _ =>
        repeat (apply wp_bind, wp_get; first
          [apply Hb; [unfold is_equality, is_relation, is_shift, is_additive, is_factor; rewrite ?Ht; reflexivity | exact H]
          |apply Hn; [unfold is_equality, is_relation, is_shift, is_additive, is_factor; rewrite ?Ht; reflexivity |]])
    | |- _ => exact H
    end.
Qed.

Lemma binop_step_stop rest s (Q : bool * unit -> pstate -> Prop) : ready s -> follow 0 rest -> lexes rest (lx s) ->
  Q (false, ()) s -> wp (go ← binop_step pe; mret (go, ())) Q s.
Proof.
  intros Hs Hf Hl HQ. pose proof (fun k Hk => is_op_at_stop k rest s Hk (follow_mono 0 k rest ltac:(lia) Hf) Hl) as Hn.
  pose proof (Hn 0%nat ltac:(lia)) as H0. pose proof (Hn 1%nat ltac:(lia)) as H1. pose proof (Hn 2%nat ltac:(lia)) as H2.
  pose proof (Hn 3%nat ltac:(lia)) as H3. pose proof (Hn 4%nat ltac:(lia)) as H4. pose proof (Hn 5%nat ltac:(lia)) as H5.
  pose proof (Hn 6%nat ltac:(lia)) as H6. pose proof (Hn 7%nat ltac:(lia)) as H7. pose proof (Hn 8%nat ltac:(lia)) as H8.
  pose proof (Hn 9%nat ltac:(lia)) as H9. cbn [is_op_at] in *. apply wp_bind. unfold binop_step.
  apply wp_bind, wp_get. rewrite (ready_err _ Hs). do 5 (apply wp_if_no; [assumption |]).
  do 5 (apply wp_bind, wp_get; cbv beta; rewrite ?H5, ?H6, ?H7, ?H8, ?H9). apply wp_ret. by apply wp_ret.
Qed.

Lemma parts_rounds rest L : follow 0 rest -> parts L -> Forall (fun p => all_vars (declared t) p.2) L ->
  (length (ops_toks L) <= N)%nat -> rounds (fun _ => go ← binop_step pe; mret (go, ())) L rest.
Proof.
  intros Hf. induction L as [| [o r] L IH]; intros HL Hv HN.
  - intros s Q Hs Hl HQ. by apply (binop_step_stop rest).
  - destruct HL as (Hg & Hr & Hn & HL). apply Forall_cons in Hv as [Hvr Hv]. cbn [fst snd] in *.
    unfold ops_toks in HN. cbn [map concat length fst snd] in HN. rewrite length_app in HN. cbn [length] in HN.
    split; [| apply IH; [done | done | unfold ops_toks; lia]].
    apply binop_step_op. pose proof (right_parser o).
    apply (level_reads (10 - right_level o)); [lia | done | done | done | lia |].
    eapply follow_ops; [exact Hf | lia |]. by intros o' r' L' ->.
Qed.

(** ** Expressions *)

Lemma toks_head e : (exists w ts, toks e = TId w :: ts) \/
  (exists x ts, toks e = x :: ts /\ tk_type x <> TOK_IDENT /\ tk_type x <> TOK_STAR).
Proof.
  induction e as [v | b | w | e _ | e _ | e _ | o l IHl r _]; cbn [toks].
  - right. by eexists _, _.
  - right. eexists _, _. split; [done |]. by destruct b.
  - left. by eexists _, _.
  - right. by eexists _, _.
  - right. by eexists _, _.
  - right. by eexists _, _.
  - destruct IHl as [(w & ts & ->) | (x & ts & -> & H)]; [left | right]; [by eexists _, _ |].
    eexists _, _. split; [done | exact H].
Qed.

Lemma known_reads e w ts y fname rest s : (length (toks e) <= N)%nat -> grouped e = true -> all_vars (declared t) e ->
  follow 0 rest -> toks e = TId w :: ts -> entry_of t w = Some y -> scalar y = true -> ready s ->
  lexes (toks e ++ rest) (lx s) -> at_pos s + code_size t e <= CC_CODE_MAX ->
  wp (parse_known pe fname y) (got e rest s) s.
Proof.
  intros HN Hg Hv Hf Et Ey Hy Hs Hl Hroom. destruct (regroup e w ts Hg Et) as (L & -> & HL & Hh & He).
  pose proof (code_ok_var t w y Ey Hy) as Hc. rewrite <- (equiv_size _ _ _ He) in Hroom.
  pose proof (fold_ops_size L (Var w)) as Hsz. apply (equiv_vars _ _ _ He) in Hv. apply fold_ops_vars in Hv as [_ Hv].
  rewrite Et in Hl, HN. cbn [app length] in Hl, HN. unfold parse_known.
  eapply next_bind; [done | exact Hl |]. intros s1 R1 M1 P1 L1 X1.
  assert (Hf' : follow 10 (ops_toks L ++ rest)).
  { eapply follow_ops; [exact Hf | lia |]. intros o r L' _. destruct o; cbn; lia. }
  assert (Hout : forall ty, outside ty -> at_tok ty s1 = false) by (intros ty; by apply (follow_outside 10 (ops_toks L ++ rest))).
  apply wp_if_no; [apply Hout; outside |]. unfold tok_is. apply wp_bind, wp_get. apply wp_bind, wp_get. apply wp_bind, wp_get.
  unfold is_compound. rewrite !Hout by outside. cbn [andb orb].
  apply wp_if_no; [apply Hout; outside |]. apply wp_if_no; [apply Hout; outside |].
  apply wp_bind. eapply wp_mono; [apply load_sym_wp; [done | done |] |].
  { rewrite (proj1 Hc). lia. }
  cbv beta. intros _ s2 (M2 & E2 & S2). pose proof (moves_trans _ _ _ _ _ M1 M2) as M. cbn [app] in M.
  unfold parse_binops. apply wp_loop. rewrite <- E2 in L1.
  eapply wp_mono; [eapply (loop_rounds _ rest s Hs L _ (Var w) (op_code (load_op y)) s2); try done; [by apply parts_rounds; [| | | lia] | by destruct M2 | by eapply ops_fuel; [by destruct M2 |]] |].
  cbv beta. intros ? s3 (c & Hc3 & H3). exists c. split; [by eapply code_ok_equiv | exact H3].
Qed.

Lemma body_reads e rest : (length (toks e) <= N)%nat -> grouped e = true -> all_vars (declared t) e -> follow 0 rest ->
  reads (parse_expr_body pe) e rest.
Proof.
  intros HN Hg Hv Hf s Hs Hl Hroom. unfold parse_expr_body. apply wp_no_error; [done |].
  destruct (toks_head e) as [(w & ts & Et) | (x & ts & Et & H1 & H2)].
  - pose proof Hl as Hl'. rewrite Et in Hl'. cbn [app] in Hl'. tests Hl'.
    assert (Hd : declared t w).
    { destruct (regroup e w ts Hg Et) as (L & _ & _ & _ & He). apply (equiv_vars _ _ _ He) in Hv. by apply fold_ops_vars in Hv as [Hv _]. }
    destruct (declared_entry w Hd) as (y & Ey & Hy). eapply lookup_bind; [done | exact Hl' | exact Ey |].
    by apply (known_reads e w ts y _ rest s).
  - pose proof Hl as Hl'. rewrite Et in Hl'. cbn [app] in Hl'.
    do 2 (apply wp_if_no; [rewrite (at_tok_head _ _ _ _ Hl'); by apply bool_decide_eq_false |]).
    apply (level_reads 10 0); try done; lia.
Qed.
End primary.

Lemma parse_expr_n_reads n : forall e rest, (length (toks e) < n)%nat -> grouped e = true -> all_vars (declared t) e ->
  follow 0 rest -> reads (parse_expr_n n) e rest.
Proof.
  induction n as [| n IH]; intros e rest Hn; [lia |]. intros Hg Hv Hf. cbn [parse_expr_n].
  by apply (body_reads (parse_expr_n n) n IH); [lia | ..].
Qed.
Lemma parse_expr_reads e rest : grouped e = true -> all_vars (declared t) e -> follow 0 rest -> reads parse_expr e rest.
Proof.
  intros Hg Hv Hf s Hs Hl Hroom. unfold parse_expr. apply wp_fuel.
  apply (parse_expr_n_reads (text_fuel s)); try done. by eapply toks_fuel.
Qed.
End parse.
