(* ===== verification/ExprCorrect.v ===== *)
(** Correctness of the compiler on expressions: [parse_expr] on the text of an
    expression appends machine code that, executed by the processor of [X86],
    computes the value that [ExprSpec] gives the expression. *)
From Stdlib Require Import String.
From S2P Require Import Prelude StringRs Lex Sym ParseState ParseExpr ParseTotal Emit EmitDecode X86 ExprSpec ExprCode ExprParse.

(** ** A processor about to run a piece of code *)

(** The [n] words below the stack pointer. *)
Definition scratch (n : nat) (c : cpu) (a : Z) : Prop := regs c REG_ESP - 4 * Z.of_nat n <= a < regs c REG_ESP.

(** [code] is at EIP, the stack has room for [n] words, and neither the code nor
    the variables of [e] are in that room. *)
Record loaded (t : symtab) (e : expr) (n : nat) (code : list Z) (c : cpu) : Prop := {
  loaded_memory : forall a, is_byte (mem c a);
  loaded_place : 0 <= eip c /\ eip c + len code < 4294967296;
  loaded_code : forall i b, code !! i = Some b -> mem c (eip c + Z.of_nat i) = b /\ ~ scratch n c (eip c + Z.of_nat i);
  loaded_stack : 4 * Z.of_nat n <= regs c REG_ESP < 4294967296;
  loaded_vars : homes t (fun a => ~ scratch n c a) (regs c REG_EBP) e }.

(** The code has run to its end: the value is in EAX, the stack and frame pointers
    are where they were, and memory is as it was but for the words below the stack
    pointer. *)
Record finished (n : nat) (code : list Z) (v : Z) (c c' : cpu) : Prop := {
  finished_eip : eip c' = eip c + len code;
  finished_eax : regs c' REG_EAX = v;
  finished_esp : regs c' REG_ESP = regs c REG_ESP;
  finished_ebp : regs c' REG_EBP = regs c REG_EBP;
  finished_mem : forall a, word32 a -> ~ scratch n c a -> mem c' a = mem c a }.

(** The values of the variables in the memory and the frame of [c]. *)
Definition variables (t : symtab) (c : cpu) : list Z -> Z := valuation t (mem c) (regs c REG_EBP).

Lemma code_ok_runs t e code c : code_ok t e code -> loaded t e (operators e) code c ->
  match eval (variables t c) e with
  | Some v => exists c', steps c c' /\ finished (operators e) code v c c'
  | None => exists c', steps c c' /\ step c' = Some Divide_error
  end.
Proof.
  intros [_ Hc] [H1 H2 H3 H4 H5]. set (n := operators e) in *.
  destruct (Hc (mem c) (fun a => word32 a /\ ~ scratch n c a) (regs c REG_EBP) H1 ltac:(tauto)) as [_ Hrun].
  - revert H5. unfold homes. generalize (all_vars_impl e). intros H. apply H. intros w Hw y i Ey Hk Hi.
    split; [apply u32_range | by apply (Hw y i)].
  - specialize (Hrun c (Build_good _ _ _ c eq_refl (fun a _ => eq_refl))). unfold variables.
    assert (Hp : placed (mem c) (fun a => word32 a /\ ~ scratch n c a) (eip c) code).
    { split; [lia |]. split; [lia |]. intros i b Ei. destruct (H3 i b Ei) as [Em Hs]. split; [done |]. split; [| done].
      apply lookup_lt_Some in Ei. unfold word32, len in *. lia. }
    specialize (Hrun Hp (Build_room _ n _ H4 (fun a Ha Hb => proj2 Hb Ha))). fold n in Hrun.
    destruct (eval _ e) as [v |]; [| done]. destruct Hrun as (c' & Hs & [G1 G2 G3 G4] & Ha). exists c'. split; [done |].
    split; [done | done | done | by destruct G3 |]. intros a Hw Hn. apply G4; [done |]. unfold scratch in Hn. lia.
Qed.

(** C1: code generated for an expression computes its value.  When the lexer is
    about to give the tokens of an expression [e] over integer literals, variables
    and all the unary and binary operators, followed by a token that ends an
    expression, and [e]'s code fits into the buffer, [parse_expr] returns, has read
    exactly these tokens, reports no error and has appended [code_size] bytes of
    code.  Executed by the processor from any state in which the code is loaded and
    the stack has room, this code ends right behind its last byte with the value of
    [e] in EAX, the stack and frame pointers restored and no memory changed but the
    scratch words below the stack pointer; or it stops with a divide error, exactly
    when the value of [e] needs a division by zero or the one that overflows.  The
    value follows precedence and left association, with [||] and [&&] skipping
    their right operand, whatever way the parser groups the chains. *)
Theorem compiled_expr_correct e rest s :
  Lex.wf (lx s) -> Emit.wf (em s) -> HAD_ERROR s = false ->
  grouped e = true -> all_vars (declared (sy s)) e -> lexes (toks e ++ rest) (lx s) -> follow 0 rest ->
  CODE_POS (em s) + code_size (sy s) e <= CC_CODE_MAX ->
  exists s' code, parse_expr s = Some ((), s') /\ emitted (em s') = emitted (em s) ++ code /\
    lexes rest (lx s') /\ HAD_ERROR s' = false /\ len code = code_size (sy s) e /\
    forall c, loaded (sy s) e (operators e) code c ->
      match eval (variables (sy s) c) e with
      | Some v => exists c', steps c c' /\ finished (operators e) code v c c'
      | None => exists c', steps c c' /\ step c' = Some Divide_error
      end.
Proof.
  intros Hl He Hn Hg Hv Ht Hf Hroom.
  assert (Hs : ready (sy s) s) by done.
  destruct (parse_expr_reads (sy s) e rest Hg Hv Hf s Hs Ht Hroom) as ([] & s' & E & code & Hc & [Hr Hem] & Hrest & _).
  exists s', code. split; [done |]. split; [done |]. split; [done |]. split; [by destruct Hr |]. split; [by destruct Hc |].
  intros c. by apply code_ok_runs.
Qed.

(** ** Witness *)

Fixpoint lexesb (l : list tk) (s : lexer) : bool :=
  match l with
  | [] => true
  | x :: l =>
      bool_decide (Lex.tt (peek s) = tk_type x) &&
      match x with T _ => true | TNum v => num_val (peek s) =? v | TId w => bool_decide (cstr (str_val (peek s)) = w) end &&
      match Lex.next s with Some s => lexesb l s | None => false end
  end.
Lemma lexesb_lexes l : forall s, lexesb l s = true -> lexes l s.
Proof.
  induction l as [| x l IH]; intros s; cbn [lexesb lexes]; [done |].
  intros [[H1%bool_decide_eq_true H2]%andb_prop H3]%andb_prop. split.
  - split; [done |]. destruct x; [done | by apply Z.eqb_eq | by apply bool_decide_eq_true in H2].
  - destruct (Lex.next s) as [s' |]; [| done]. exists s'. auto.
Qed.

(** [x + y * 2 > 9 && -x < 0;] with [x] and [y] in the frame. *)
Definition demo_text : list Z := str "x + y * 2 > 9 && -x < 0;".
Definition demo_expr : expr :=
  Bin LAnd (Bin GT (Bin Plus (Var (str "x")) (Bin Times (Var (str "y")) (Num 2))) (Num 9))
           (Bin LT (Opp (Var (str "x"))) (Num 0)).
Definition demo_symbols : option symtab :=
  '(_, t) ← Sym.add (str "x") SYM_LOCAL TYPE_INT 0 (-4) 0 (sy initial_state);
  '(_, t) ← Sym.add (str "y") SYM_LOCAL TYPE_INT 0 (-8) 0 t; Some t.
Definition demo_state : pstate :=
  set_lx (default (lx initial_state) (Lex.next (Lex.init demo_text [])))
    (set_sy (default (sy initial_state) demo_symbols) initial_state).

(** The machine: the code at 10 MB, [x = 3], [y = 4]. *)
Definition demo_cpu (code : list Z) : cpu :=
  Cpu (fun r => if r =? REG_ESP then 0x90000 else if r =? REG_EBP then 0x90010 else 0) 0xA00000 None
    (fun a => if (0xA00000 <=? a) && (a <? 0xA00000 + len code) then u8 (nth (Z.to_nat (a - 0xA00000)) code 0)
              else if a =? 0x9000C then 3 else if a =? 0x90008 then 4 else 0).

Lemma demo_entry w y : w = str "x" \/ w = str "y" -> entry_of (sy demo_state) w = Some y ->
  kind y = SYM_LOCAL /\ (Sym.offset y = -4 \/ Sym.offset y = -8).
Proof. intros [-> | ->] H; vm_compute in H; injection H as <-; cbn; auto. Qed.
Lemma demo_declared : all_vars (declared (sy demo_state)) demo_expr.
Proof. cbn [all_vars demo_expr]. unfold declared. split_and!; vm_compute; exact I. Qed.

Lemma demo_loaded code : Forall (fun b => u8 b = b) code -> len code = 94 ->
  loaded (sy demo_state) demo_expr (operators demo_expr) code (demo_cpu code).
Proof.
  intros Hb Hlen. change (operators demo_expr) with 5%nat.
  assert (Hscr : forall a, scratch 5 (demo_cpu code) a <-> 589804 <= a < 589824) by (intros a; unfold scratch; cbn; lia).
  split.
  - intros a. cbn -[Z.leb Z.ltb]. repeat case_if; unfold is_byte; try lia. apply u8_range.
  - change (eip (demo_cpu code)) with 10485760. lia.
  - intros i b Ei. rewrite Hscr. change (eip (demo_cpu code)) with 10485760. pose proof (lookup_lt_Some _ _ _ Ei).
    split; [| lia]. cbn -[Z.add Z.leb Z.ltb Z.sub]. unfold len in *.
    rewrite (proj2 (Z.leb_le _ _)), (proj2 (Z.ltb_lt _ _)) by lia. cbn [andb].
    replace (Z.to_nat _) with i by lia. rewrite (nth_lookup_Some _ _ _ _ Ei).
    by apply (Forall_lookup_1 _ _ _ _ Hb Ei).
  - cbn. lia.
  - assert (Hv : forall w, w = str "x" \/ w = str "y" -> forall y i, entry_of (sy demo_state) w = Some y ->
      kind y <> SYM_CONST -> 0 <= i < 4 -> ~ scratch 5 (demo_cpu code) (u32 (home y 589840 + i))).
    { intros w Hw y i Ey _ Hi. destruct (demo_entry w y Hw Ey) as [Ek Eo]. unfold home. rewrite Ek, Hscr.
      change (is_frame SYM_LOCAL) with true. cbv iota. destruct Eo as [-> | ->]; rewrite (u32_small (589840 + _)) by lia; rewrite u32_small; lia. }
    unfold homes. cbn [demo_expr all_vars]. change (regs (demo_cpu code) REG_EBP) with 589840.
    split_and!; first [exact I | exact (Hv _ (or_introl eq_refl)) | exact (Hv _ (or_intror eq_refl))].
Qed.

Lemma compiled_expr_correct_witness : exists s' code c', parse_expr demo_state = Some ((), s') /\
  steps (demo_cpu code) c' /\ regs c' REG_EAX = 1.
Proof.
  destruct (compiled_expr_correct demo_expr [T TOK_SEMI] demo_state) as (s' & code & E & Hem & _ & _ & Hlen & Hrun).
  - split; [apply Nat.leb_le; vm_compute; reflexivity | vm_compute; reflexivity | vm_compute; reflexivity].
  - exact (EmitDecode.init_wf (Emitter [] 0 CC_LOAD_BASE 0)).
  - reflexivity.
  - reflexivity.
  - exact demo_declared.
  - apply lexesb_lexes. vm_compute. reflexivity.
  - exists (T TOK_SEMI), []. split; [reflexivity | left; reflexivity].
  - apply Z.leb_le. vm_compute. reflexivity.
  - assert (Eb : (fun r => forallb (fun b => u8 b =? b) (emitted (em r.2))) <$> parse_expr demo_state = Some true)
      by (vm_compute; reflexivity).
    assert (E0 : emitted (em demo_state) = []) by (vm_compute; reflexivity).
    rewrite E in Eb. cbn [fmap option_fmap option_map snd] in Eb. rewrite Hem, E0 in Eb. cbn [app] in Eb. injection Eb as Eb.
    assert (Hb : Forall (fun b => u8 b = b) code).
    { apply Forall_forall. intros b Hin. rewrite forallb_forall in Eb. apply Z.eqb_eq, Eb. by apply list_elem_of_In. }
    assert (Hsz : code_size (sy demo_state) demo_expr = 94) by (vm_compute; reflexivity). rewrite Hsz in Hlen.
    specialize (Hrun (demo_cpu code) (demo_loaded code Hb Hlen)).
    assert (Ev : eval (variables (sy demo_state) (demo_cpu code)) demo_expr = Some 1) by (vm_compute; reflexivity).
    rewrite Ev in Hrun. destruct Hrun as (c' & Hs & [_ Ha _ _ _]).
    exists s', code, c'. split; [exact E |]. split; [exact Hs | exact Ha].
Defined.
