(* ===== verification/UserHeap.v ===== *)
(** The allocator of user programs ([sysrust-rt/src/allocator.rs]): a list of
    blocks, each behind a header of 24 bytes, in the memory that [sys::brk] gives.

    The headers are a store from addresses to records, as in [Heap]; sizes and
    addresses are 64-bit.  The system call is the interface [Brk], which
    [Uspace] implements.  A list is walked with one round of fuel per header of
    the store and one more. *)
From S2P Require Import Prelude.

Definition HEADER_SIZE : Z := 24.
Definition HEADER_ALIGN : Z := 8.
Definition MIN_USABLE : Z := 16.
Definition PAGE_SIZE : Z := 4096.

Record BlockHeader := Header { h_size : Z; h_free : bool; h_next : Z }.

(** [brk 0] is a query; a request at or above the break moves it there or
    leaves it below the request. *)
Class Brk (K : Type) := {
  brk : Z -> K -> Z * K;
  brk_cur : K -> Z;
  brk_query : forall k, brk 0 k = (brk_cur k, k);
  brk_law : forall a k, a <> 0 -> brk_cur k <= a ->
    exists k', (brk a k = (a, k') /\ brk_cur k' = a) \/
               (brk a k = (brk_cur k, k') /\ brk_cur k' = brk_cur k /\ brk_cur k < a)
}.

Definition align_up (addr align : Z) : Z := Z.land (u64 (addr + align - 1)) (not64 (align - 1)).

Section code.
Context {K : Type} `{Brk K}.

Record uheap := UHeap {
  hdrs : gmap Z BlockHeader; HEAD : Z; HEAP_END : Z; LOCKED : bool; os : K }.
Implicit Types s : uheap.

Definition set_hdrs (hs : gmap Z BlockHeader) s : uheap := UHeap hs (HEAD s) (HEAP_END s) (LOCKED s) (os s).
Definition set_os (k : K) s : uheap := UHeap (hdrs s) (HEAD s) (HEAP_END s) (LOCKED s) k.
Definition set_locked (b : bool) s : uheap := UHeap (hdrs s) (HEAD s) (HEAP_END s) b (os s).
Definition put (p : Z) (b : BlockHeader) s : uheap := set_hdrs (<[p := b]> (hdrs s)) s.
Definition walk_fuel s : nat := S (size (hdrs s)).

Definition heap_init (initial_size : Z) s : uheap :=
  let '(current, k) := brk 0 (os s) in
  let s := set_os k s in
  let start := Z.land (u64 (current + 0xFFF)) (not64 0xFFF) in
  let size := align_up initial_size PAGE_SIZE in
  let new_end := u64 (start + size) in
  let '(result, k) := brk new_end (os s) in
  let s := set_os k s in
  if result <? new_end then s else
  UHeap (<[start := Header (u64 (size - HEADER_SIZE)) true 0]> (hdrs s)) start new_end (LOCKED s) (os s).

(** The walk to the last block. *)
Fixpoint last_block (fuel : nat) (cur : Z) (hs : gmap Z BlockHeader) : option Z :=
  match fuel with
  | O => None
  | S fuel => b ← hs !! cur; if h_next b =? 0 then Some cur else last_block fuel (h_next b) hs
  end.

Definition heap_grow (min_bytes : Z) s : option (Z * uheap) :=
  let total := align_up (u64 (min_bytes + HEADER_SIZE)) PAGE_SIZE in
  let new_end := u64 (HEAP_END s + total) in
  let '(result, k) := brk new_end (os s) in
  let s := set_os k s in
  if result <? new_end then Some (0, s) else
  let block := HEAP_END s in
  let hs := <[block := Header (u64 (total - HEADER_SIZE)) true 0]> (hdrs s) in
  let s := UHeap hs (HEAD s) new_end (LOCKED s) (os s) in
  if HEAD s =? 0 then Some (block, UHeap hs block new_end (LOCKED s) (os s)) else
  cur ← last_block (walk_fuel s) (HEAD s) (hdrs s);
  c ← hdrs s !! cur;
  let s := put cur (Header (h_size c) (h_free c) block) s in
  if (u64 (cur + u64 (HEADER_SIZE + h_size c)) =? block) && h_free c then
    b ← hdrs s !! block;
    Some (cur, put cur (Header (u64 (h_size c + u64 (HEADER_SIZE + h_size b))) (h_free c) (h_next b)) s)
  else Some (block, s).

(** The aligned start of the data of a block and the bytes needed from it. *)
Definition aligned_start (cur align : Z) : Z := align_up (u64 (cur + HEADER_SIZE)) align.
Definition needed_for (cur size align : Z) : Z :=
  u64 (size + u64 (aligned_start cur align - u64 (cur + HEADER_SIZE))).

Fixpoint find_free_block (fuel : nat) (cur size align : Z) (hs : gmap Z BlockHeader) : option Z :=
  match fuel with
  | O => None
  | S fuel =>
      if cur =? 0 then Some 0 else
      b ← hs !! cur;
      if h_free b && (needed_for cur size align <=? h_size b) then Some cur else
      find_free_block fuel (h_next b) size align hs
  end.

Definition split_block (block needed : Z) (hs : gmap Z BlockHeader) : option (gmap Z BlockHeader) :=
  b ← hs !! block;
  let remaining := u64 (h_size b - needed) in
  if HEADER_SIZE + MIN_USABLE <=? remaining then
    let new_block := u64 (block + u64 (HEADER_SIZE + needed)) in
    let hs := <[new_block := Header (u64 (remaining - HEADER_SIZE)) true (h_next b)]> hs in
    b ← hs !! block;
    Some (<[block := Header needed (h_free b) new_block]> hs)
  else Some hs.

Definition coalesce (block : Z) (hs : gmap Z BlockHeader) : option (gmap Z BlockHeader) :=
  b ← hs !! block;
  if h_next b =? 0 then Some hs else
  n ← hs !! h_next b;
  if negb (h_free n) then Some hs else
  if u64 (block + u64 (HEADER_SIZE + h_size b)) =? h_next b
  then Some (<[block := Header (u64 (h_size b + u64 (HEADER_SIZE + h_size n))) (h_free b) (h_next n)]> hs)
  else Some hs.

(** The part of [alloc] from the search of the free list. *)
Definition alloc_block (size align : Z) s : option (Z * uheap) :=
  block ← find_free_block (walk_fuel s) (HEAD s) size align (hdrs s);
  '(block, s) ← (if block =? 0 then heap_grow size s else Some (block, s));
  if block =? 0 then Some (0, set_locked false s) else
  hs ← split_block block (needed_for block size align) (hdrs s);
  b ← hs !! block;
  Some (aligned_start block align,
        set_locked false (set_hdrs (<[block := Header (h_size b) false (h_next b)]> hs) s)).

Definition alloc (l_size l_align : Z) s : option (Z * uheap) :=
  if LOCKED s then Some (0, s) else
  let s := set_locked true s in
  let align := Z.max l_align HEADER_ALIGN in
  let size := Z.max l_size MIN_USABLE in
  let s := if HEAD s =? 0 then heap_init 65536 s else s in
  if HEAD s =? 0 then Some (0, set_locked false s) else alloc_block size align s.

(** The walk from the head that merges [cur] into a free block before it. *)
Fixpoint coalesce_prev (fuel : nat) (prev cur : Z) (hs : gmap Z BlockHeader) : option (gmap Z BlockHeader) :=
  match fuel with
  | O => None
  | S fuel =>
      if prev =? 0 then Some hs else
      b ← hs !! prev;
      if h_free b && (h_next b =? cur) then coalesce prev hs else
      if h_next b =? cur then Some hs else coalesce_prev fuel (h_next b) cur hs
  end.

(** The block whose data contain [ptr]; 0 when there is none. *)
Fixpoint find_owner (fuel : nat) (cur ptr : Z) (hs : gmap Z BlockHeader) : option Z :=
  match fuel with
  | O => None
  | S fuel =>
      if cur =? 0 then Some 0 else
      b ← hs !! cur;
      let data_start := u64 (cur + HEADER_SIZE) in
      let data_end := u64 (data_start + h_size b) in
      if (data_start <=? ptr) && (ptr <? data_end) then Some cur else find_owner fuel (h_next b) ptr hs
  end.

Definition dealloc (ptr : Z) s : option uheap :=
  if ptr =? 0 then Some s else
  if LOCKED s then Some s else
  let s := set_locked true s in
  cur ← find_owner (walk_fuel s) (HEAD s) ptr (hdrs s);
  if cur =? 0 then Some (set_locked false s) else
  b ← hdrs s !! cur;
  let s := put cur (Header (h_size b) true (h_next b)) s in
  hs ← coalesce cur (hdrs s);
  hs ← coalesce_prev (walk_fuel s) (HEAD s) cur hs;
  Some (set_locked false (set_hdrs hs s)).
End code.
Arguments uheap K : clear implicits.

(** ** Lists of blocks

    A used block records the pointer and the size that were promised for it. *)
Record ublk := UBlk { u_addr : Z; u_size : Z; u_own : option (Z * Z) }.

Definition u_end (b : ublk) : Z := u_addr b + HEADER_SIZE + u_size b.
Definition u_free (b : ublk) : bool := match u_own b with None => true | Some _ => false end.
Definition own_ok (b : ublk) : Prop :=
  match u_own b with
  | None => True
  | Some (p, n) => u_addr b + HEADER_SIZE <= p /\ 0 < n /\ p + n <= u_end b
  end.

(** The blocks fill the addresses from [lo] to [hi] without a gap. *)
Fixpoint tiles (lo : Z) (l : list ublk) (hi : Z) : Prop :=
  match l with
  | [] => lo = hi
  | b :: l => u_addr b = lo /\ 0 <= u_size b /\ own_ok b /\ tiles (u_end b) l hi
  end.

(** The headers linked from [a], up to the link to [z], are those of the list. *)
Fixpoint seg (hs : gmap Z BlockHeader) (a : Z) (l : list ublk) (z : Z) : Prop :=
  match l with
  | [] => a = z
  | b :: l => a = u_addr b /\ exists n, hs !! a = Some (Header (u_size b) (u_free b) n) /\ seg hs n l z
  end.

Fixpoint no_adjacent_free (l : list ublk) : Prop :=
  match l with
  | b :: ((c :: _) as l') => (u_free b = true -> u_free c = false) /\ no_adjacent_free l'
  | _ => True
  end.

(** The areas in use: pointer and size. *)
Definition owners (l : list ublk) : list (Z * Z) := omap u_own l.
Definition apart (x y : Z * Z) : Prop := x.1 + x.2 <= y.1 \/ y.1 + y.2 <= x.1.

Definition link (b c : option ublk) : Prop :=
  match b, c with Some b, Some c => u_free b = true -> u_free c = false | _, _ => True end.

Lemma naf_cons b l : no_adjacent_free (b :: l) <-> link (Some b) (head l) /\ no_adjacent_free l.
Proof. destruct l; simpl; tauto. Qed.

Lemma naf_mid l1 b l2 :
  no_adjacent_free (l1 ++ b :: l2) <->
  no_adjacent_free l1 /\ no_adjacent_free l2 /\ link (last l1) (Some b) /\ link (Some b) (head l2).
Proof.
  induction l1 as [| c l1 IH]; cbn [app]; rewrite naf_cons; [simpl; tauto |].
  rewrite IH, naf_cons, last_cons. destruct l1 as [| d l1]; [simpl; tauto |].
  destruct (last (d :: l1)) eqn:E; [simpl; tauto | by apply last_None in E].
Qed.

Lemma owners_app l1 l2 : owners (l1 ++ l2) = owners l1 ++ owners l2.
Proof. apply omap_app. Qed.
Lemma owners_free b l : u_own b = None -> owners (b :: l) = owners l.
Proof. unfold owners. simpl. by intros ->. Qed.
Lemma owners_used b l o : u_own b = Some o -> owners (b :: l) = o :: owners l.
Proof. unfold owners. simpl. by intros ->. Qed.
Lemma free_own b : u_free b = true -> u_own b = None.
Proof. unfold u_free. by destruct (u_own b). Qed.

Lemma tiles_app lo l1 l2 hi : tiles lo (l1 ++ l2) hi <-> exists m, tiles lo l1 m /\ tiles m l2 hi.
Proof.
  revert lo; induction l1 as [| b l1 IH]; intros lo; simpl.
  - split; [eauto | by intros (m & -> & ?)].
  - rewrite IH. split; [intros (? & ? & ? & m & ? & ?) | intros (m & (? & ? & ? & ?) & ?)]; eauto 8.
Qed.

Lemma tiles_inside lo l hi : tiles lo l hi -> lo <= hi /\ Forall (fun b => lo <= u_addr b /\ u_end b <= hi) l.
Proof.
  revert lo; induction l as [| b l IH]; intros lo; simpl; [intros ->; split; [lia | constructor] |].
  intros (Ha & Hs & _ & Ht). destruct (IH _ Ht) as [Hle HF].
  assert (lo <= u_end b) by (unfold u_end, HEADER_SIZE; lia).
  split; [lia |]. constructor; [lia |]. eapply Forall_impl; [exact HF |]. simpl; intros; lia.
Qed.

Lemma tiles_lt lo l hi : tiles lo l hi -> l <> [] -> lo + HEADER_SIZE <= hi.
Proof.
  destruct l as [| b l]; [done |]. intros (Ha & Hs & _ & Ht) _. destruct (tiles_inside _ _ _ Ht) as [Hle _].
  unfold u_end in Hle. lia.
Qed.

Lemma tiles_own lo l hi b : tiles lo l hi -> b ∈ l -> own_ok b.
Proof.
  revert lo; induction l as [| c l IH]; intros lo; [by intros _ ?%elem_of_nil |].
  intros (_ & _ & Ho & Ht) [-> | Hin]%elem_of_cons; eauto.
Qed.

Lemma seg_app hs a l1 l2 z : seg hs a (l1 ++ l2) z <-> exists m, seg hs a l1 m /\ seg hs m l2 z.
Proof.
  revert a; induction l1 as [| b l1 IH]; intros a; simpl.
  - split; [eauto | by intros (m & -> & ?)].
  - setoid_rewrite IH. split; [intros (? & n & ? & m & ? & ?) | intros (m & (? & n & ? & ?) & ?)]; eauto 8.
Qed.

(** Headers changed outside the range of a list leave it as it is. *)
Lemma seg_frame hs hs' a l z lo hi :
  tiles lo l hi -> (forall x, lo <= x < hi -> hs' !! x = hs !! x) -> seg hs a l z -> seg hs' a l z.
Proof.
  revert a lo; induction l as [| b l IH]; intros a lo; simpl; [done |].
  intros (Ha & Hs & _ & Ht) Hf [-> (n & Hn & Hc)]. destruct (tiles_inside _ _ _ Ht) as [Hle _].
  unfold u_end, HEADER_SIZE in *. split; [done |]. exists n. split; [by rewrite Hf by lia |].
  eapply IH; [exact Ht | | done]. unfold u_end, HEADER_SIZE. intros x Hx. apply Hf. lia.
Qed.

Lemma seg_insert hs a l z lo hi x v :
  tiles lo l hi -> x < lo \/ hi <= x -> seg hs a l z -> seg (<[x := v]> hs) a l z.
Proof.
  intros Ht Hx. apply seg_frame with lo hi; [done |]. intros y Hy. apply lookup_insert_ne. lia.
Qed.

Lemma seg_end hs a l z lo hi : tiles lo l hi -> l <> [] -> seg hs a l z -> a = lo.
Proof. destruct l as [| b l]; [done |]. simpl. intros (? & _) _ (-> & _). done. Qed.

(** A block in the middle of a list. *)
Record mid (hs : gmap Z BlockHeader) (a : Z) (l1 : list ublk) (b : ublk) (n : Z) (l2 : list ublk) (lo hi : Z) : Prop := {
  md_l1 : seg hs a l1 (u_addr b);
  md_t1 : tiles lo l1 (u_addr b);
  md_b : hs !! u_addr b = Some (Header (u_size b) (u_free b) n);
  md_size : 0 <= u_size b;
  md_own : own_ok b;
  md_l2 : seg hs n l2 0;
  md_t2 : tiles (u_end b) l2 hi
}.

Lemma mid_iff hs a l1 b l2 lo hi :
  seg hs a (l1 ++ b :: l2) 0 /\ tiles lo (l1 ++ b :: l2) hi <-> exists n, mid hs a l1 b n l2 lo hi.
Proof.
  rewrite seg_app, tiles_app. split.
  - intros [(m & H1 & -> & n & E & H2) (k & H3 & <- & Hs & Ho & H4)]. exists n. by constructor.
  - intros (n & [H1 H2 H3 H4 H5 H6 H7]). simpl. eauto 12.
Qed.

Lemma mid_bounds hs a l1 b n l2 lo hi : mid hs a l1 b n l2 lo hi -> lo <= u_addr b /\ u_end b <= hi.
Proof.
  intros [_ H1 _ _ _ _ H2]. destruct (tiles_inside _ _ _ H1) as [? _]. destruct (tiles_inside _ _ _ H2) as [? _]. done.
Qed.

Lemma mid_next hs a l1 b n l2 lo hi : mid hs a l1 b n l2 lo hi -> l2 <> [] -> n = u_end b.
Proof. intros [_ _ _ _ _ H1 H2] Hn. by eapply seg_end. Qed.

(** There are at least as many headers as blocks. *)
Lemma seg_length hs a l z lo hi : tiles lo l hi -> seg hs a l z -> (length l <= size hs)%nat.
Proof.
  intros Ht Hs.
  assert (Hin : forall x, x ∈ map u_addr l -> is_Some (hs !! x)).
  { clear Ht. revert a Hs. induction l as [| b l IH]; intros a; simpl; [by intros _ x Hx%elem_of_nil |].
    intros (-> & n & E & Hs) x [-> | Hx]%elem_of_cons; [eauto | by eapply IH]. }
  assert (Hnd : NoDup (map u_addr l)).
  { clear Hs Hin. revert lo Ht. induction l as [| b l IH]; intros lo; simpl; [constructor |].
    intros (Ha & Hb & _ & Ht). constructor; [| by eapply IH]. intros (c & Hc & Hin)%list_elem_of_fmap.
    destruct (tiles_inside _ _ _ Ht) as [_ HF]. rewrite Forall_forall in HF. destruct (HF _ Hin).
    unfold u_end, HEADER_SIZE in *. lia. }
  rewrite <- (length_map u_addr l), <- (size_list_to_set (C := gset Z)) by done.
  rewrite <- size_dom. apply subseteq_size. intros x Hx%elem_of_list_to_set. apply elem_of_dom. auto.
Qed.

Definition pow2 (a : Z) : Prop := exists k, 0 <= k <= 61 /\ a = 2 ^ k.

Lemma pow2_pos a : pow2 a -> 1 <= a <= 2 ^ 61.
Proof. intros (k & Hk & ->). split; [apply (Z.pow_le_mono_r 2 0 k) | apply Z.pow_le_mono_r]; lia. Qed.

Lemma pow2_max a : pow2 a -> pow2 (Z.max a HEADER_ALIGN).
Proof.
  intros (k & Hk & ->). change HEADER_ALIGN with (2 ^ 3).
  destruct (Z.max_spec (2 ^ k) (2 ^ 3)) as [[_ ->] | [_ ->]]; [exists 3 | exists k]; lia.
Qed.

Lemma pow2_mod a b x : pow2 a -> pow2 b -> a <= b -> x mod b = 0 -> x mod a = 0.
Proof.
  intros (j & Hj & ->) (k & Hk & ->) Hle Hx.
  assert (j <= k) by (apply (Z.pow_le_mono_r_iff 2); lia).
  apply Z.mod_divide; [apply Z.pow_nonzero; lia |]. apply Z.mod_divide in Hx; [| apply Z.pow_nonzero; lia].
  transitivity (2 ^ k); [| done]. exists (2 ^ (k - j)). rewrite <- Z.pow_add_r by lia. f_equal; lia.
Qed.

Lemma mod8_below p x align : p mod 8 = 0 -> x mod 8 = 0 -> align mod 8 = 0 -> p < x + align -> p <= x + (align - 8).
Proof. intros. mod_lia. Qed.

(** Where the data of a block at [cur] start for an alignment, and what is needed of the block. *)
Lemma needed_spec cur size align :
  pow2 align -> 0 < cur -> 0 <= size -> cur + HEADER_SIZE + align + size < 2 ^ 63 ->
  let p := aligned_start cur align in
  cur + HEADER_SIZE <= p < cur + HEADER_SIZE + align /\ p mod align = 0 /\
  needed_for cur size align = size + (p - (cur + HEADER_SIZE)).
Proof.
  intros Hal Hc Hs Hb. pose proof (pow2_pos _ Hal) as Hp. destruct Hal as (k & Hk & ->).
  assert (2 ^ 63 + 2 ^ 63 = 18446744073709551616) by reflexivity.
  unfold needed_for, aligned_start, HEADER_SIZE in *. rewrite (u64_small (cur + 24)) by lia.
  destruct (align_up_spec (cur + 24) k) as (y & Ey & Hy & Hm); [lia | lia |].
  unfold align_up. rewrite Ey. rewrite !u64_small by (rewrite ?u64_small; lia). auto.
Qed.

(** The pages for a request, rounded up. *)
Lemma page_round x : 0 <= x < 2 ^ 63 ->
  x <= align_up x PAGE_SIZE < x + PAGE_SIZE /\ align_up x PAGE_SIZE mod PAGE_SIZE = 0.
Proof.
  intros Hx. destruct (align_up_spec x 12) as (y & Ey & Hy); [lia | done |].
  unfold align_up, PAGE_SIZE. change 4096 with (2 ^ 12). by rewrite Ey.
Qed.

(** The alignment padding of a new block fits in what rounding to pages adds. *)
Definition padding_fits (size align : Z) : Prop :=
  size + HEADER_SIZE + (align - HEADER_ALIGN) <= align_up (size + HEADER_SIZE) PAGE_SIZE.

(** A free block that cannot hold a request. *)
Definition too_small (size align : Z) (b : ublk) : Prop :=
  u_free b = true -> u_size b < needed_for (u_addr b) size align.

Section proofs.
Context {K : Type} `{Brk K}.
Implicit Types s : uheap K.

Lemma find_free_block_spec size align l : forall fuel hs a lo hi,
  seg hs a l 0 -> tiles lo l hi -> 0 < lo -> (length l < fuel)%nat ->
  (find_free_block fuel a size align hs = Some 0 /\ Forall (too_small size align) l) \/
  exists l1 b l2, l = l1 ++ b :: l2 /\ find_free_block fuel a size align hs = Some (u_addr b) /\
    u_free b = true /\ needed_for (u_addr b) size align <= u_size b.
Proof.
  induction l as [| b l IH]; intros fuel hs a lo hi Hs Ht Hlo Hf; (destruct fuel as [| fuel]; [simpl in Hf; lia |]).
  - simpl in Hs. subst a. left. split; [done | constructor].
  - destruct Hs as (-> & n & E & Hs). destruct Ht as (Ha & Hb & _ & Ht). simpl in Hf. cbn [find_free_block].
    rewrite (proj2 (Z.eqb_neq _ 0)), E by lia. cbn [mbind option_bind h_free h_size h_next].
    destruct (u_free b && _) eqn:Efit.
    + right. breflect. by exists [], b, l.
    + assert (0 < u_end b) by (unfold u_end, HEADER_SIZE; lia).
      destruct (IH fuel hs n _ _ Hs Ht) as [[E' HF] | (l1 & c & l2 & -> & E' & Hc)]; [done | lia | |].
      * left. split; [done |]. constructor; [| done]. intros Hfree. rewrite Hfree in Efit. breflect. lia.
      * right. by exists (b :: l1), c, l2.
Qed.

Lemma last_header_spec l b : forall fuel hs a lo hi,
  seg hs a (l ++ [b]) 0 -> tiles lo (l ++ [b]) hi -> 0 < lo -> (length l < fuel)%nat ->
  last_block fuel a hs = Some (u_addr b).
Proof.
  induction l as [| c l IH]; intros fuel hs a lo hi; simpl; intros (-> & n & E & Hs) (Ha & Hb & _ & Ht) Hlo Hf;
    (destruct fuel as [| fuel]; [lia |]); cbn [last_block]; rewrite E; cbn [mbind option_bind h_next].
  - by rewrite Hs.
  - assert (n = u_end c) as -> by (eapply seg_end; [exact Ht | by destruct l | exact Hs]).
    unfold u_end, HEADER_SIZE in *. rewrite (proj2 (Z.eqb_neq _ 0)) by lia. eapply IH; eauto; lia.
Qed.

Lemma find_owner_spec l b p n : forall fuel hs a lo hi,
  seg hs a l 0 -> tiles lo l hi -> 0 < lo -> hi < 2 ^ 63 ->
  b ∈ l -> u_own b = Some (p, n) -> (length l <= fuel)%nat -> find_owner fuel a p hs = Some (u_addr b).
Proof.
  assert (Hpow : 2 ^ 63 + 2 ^ 63 = 18446744073709551616) by reflexivity.
  induction l as [| c l IH]; intros fuel hs a lo hi; [by intros _ _ _ _ ?%elem_of_nil |].
  intros (-> & nx & E & Hs) Ht Hlo Hhi Hin Hown Hf; simpl in Hf; (destruct fuel as [| fuel]; [lia |]).
  pose proof (tiles_own _ _ _ _ Ht Hin) as Ho. unfold own_ok in Ho. rewrite Hown in Ho.
  destruct Ht as (Ha & Hb & _ & Ht). destruct (tiles_inside _ _ _ Ht) as [Hle HF]. cbn [find_owner].
  assert (u_end c = u_addr c + HEADER_SIZE + u_size c) by done. unfold HEADER_SIZE in *.
  rewrite (proj2 (Z.eqb_neq _ 0)), E by lia. cbn [mbind option_bind h_size h_next].
  rewrite !u64_small by (rewrite ?u64_small; lia).
  apply elem_of_cons in Hin as [-> | Hin].
  - rewrite (proj2 (Z.leb_le _ _)), (proj2 (Z.ltb_lt _ _)) by lia. done.
  - rewrite Forall_forall in HF. destruct (HF _ Hin).
    rewrite (proj2 (Z.ltb_ge _ _)), andb_false_r by lia. eapply IH; eauto; lia.
Qed.

(** A block that takes a request: split if it is long enough, then marked. *)
Lemma place_spec hs a l1 b n l2 lo hi needed p k :
  mid hs a l1 b n l2 lo hi -> 0 < lo -> hi < 2 ^ 63 -> u_free b = true -> 0 <= needed <= u_size b ->
  u_addr b + HEADER_SIZE <= p -> 0 < k -> p + k <= u_addr b + HEADER_SIZE + needed ->
  no_adjacent_free (l1 ++ b :: l2) ->
  exists hs' h used rest, split_block (u_addr b) needed hs = Some hs' /\ hs' !! u_addr b = Some h /\
    (exists n', mid (<[u_addr b := Header (h_size h) false (h_next h)]> hs') a l1 used n' (rest ++ l2) lo hi) /\
    u_own used = Some (p, k) /\ owners rest = [] /\ no_adjacent_free (l1 ++ used :: rest ++ l2).
Proof.
  intros Hm Hlo Hhi Hfree Hn Hp Hk Hpk Hnaf. destruct (mid_bounds _ _ _ _ _ _ _ _ Hm) as [Hb1 Hb2].
  pose proof Hm as [H1 T1 E Hs _ H2 T2]. rewrite Hfree in E.
  assert (Hpow : 2 ^ 63 + 2 ^ 63 = 18446744073709551616) by reflexivity.
  assert (Hend : u_end b = u_addr b + HEADER_SIZE + u_size b) by done.
  apply naf_mid in Hnaf as (N1 & N2 & L1 & L2).
  unfold split_block. rewrite E. cbn [mbind option_bind h_size h_next h_free]. unfold HEADER_SIZE, MIN_USABLE in *.
  rewrite !u64_small by (rewrite ?u64_small; lia). destruct (Z.leb_spec (24 + 16) (u_size b - needed)) as [Hbig | Hsmall].
  - set (nb := u_addr b + (24 + needed)).
    rewrite lookup_insert_ne, E by lia. cbn [mbind option_bind h_free].
    exists (<[u_addr b := Header needed true nb]> (<[nb := Header (u_size b - needed - 24) true n]> hs)),
      (Header needed true nb), (UBlk (u_addr b) needed (Some (p, k))), [UBlk nb (u_size b - needed - 24) None].
    split; [by rewrite u64_small by lia |]. split; [apply lookup_insert_eq |]. split; [| split_and!; [done | done |]].
    + exists nb. cbn [h_size h_next]. rewrite insert_insert_eq.
      constructor; cbn [u_addr u_size u_own u_free app]; unfold own_ok, u_end, HEADER_SIZE;
        cbn [u_addr u_size u_own]; try lia.
      * eapply seg_insert; [exact T1 | lia |]. eapply seg_insert; [exact T1 | lia | done].
      * done.
      * by rewrite lookup_insert_eq.
      * split; [done |]. exists n. cbn [u_free u_own u_size]. rewrite lookup_insert_ne, lookup_insert_eq by lia.
        split; [done |]. eapply seg_insert; [exact T2 | lia |]. eapply seg_insert; [exact T2 | lia | done].
      * cbn [tiles u_addr u_size own_ok u_own]. unfold u_end, HEADER_SIZE. cbn [u_addr u_size].
        split_and!; [lia | lia | done |]. by replace (nb + 24 + (u_size b - needed - 24)) with (u_end b) by lia.
    + apply naf_mid. split_and!; [done | | by destruct (last l1) | done].
      apply naf_cons. split; [| done]. intros. unfold link in *. destruct (head l2); [| done].
      intros _. by apply L2.
  - exists hs, (Header (u_size b) true n), (UBlk (u_addr b) (u_size b) (Some (p, k))), [].
    split; [done |]. split; [done |]. split; [| split_and!; [done | done |]].
    + exists n. constructor; cbn [u_addr u_size u_own u_free app h_size h_next]; unfold own_ok, u_end, HEADER_SIZE;
        cbn [u_addr u_size u_own]; try lia.
      * eapply seg_insert; [exact T1 | lia | done].
      * done.
      * by rewrite lookup_insert_eq.
      * eapply seg_insert; [exact T2 | lia | done].
      * done.
    + apply naf_mid. split; [done |]. split; [done |].
      split; [by destruct (last l1) | unfold link; cbn [app]; by destruct (head l2)].
Qed.

(** A free block merged with a free successor. *)
Lemma merge_next_spec hs a l1 b n l2 lo hi :
  mid hs a l1 b n l2 lo hi -> 0 < lo -> hi < 2 ^ 63 -> u_free b = true -> no_adjacent_free l2 ->
  exists hs' b' l2' n', coalesce (u_addr b) hs = Some hs' /\ u_addr b' = u_addr b /\ u_own b' = None /\
    mid hs' a l1 b' n' l2' lo hi /\ owners l2' = owners l2 /\ (length l2' <= length l2)%nat /\ no_adjacent_free l2' /\ link (Some b') (head l2').
Proof.
  intros Hm Hlo Hhi Hfree Hnaf. destruct (mid_bounds _ _ _ _ _ _ _ _ Hm) as [Hb1 Hb2].
  assert (Hown : u_own b = None) by (unfold u_free in Hfree; by destruct (u_own b)).
  pose proof Hm as [H1 T1 E Hs _ H2 T2]. rewrite Hfree in E.
  assert (Hpow : 2 ^ 63 + 2 ^ 63 = 18446744073709551616) by reflexivity.
  assert (Hend : u_end b = u_addr b + HEADER_SIZE + u_size b) by done.
  unfold coalesce. rewrite E. cbn [mbind option_bind h_size h_next h_free].
  destruct l2 as [| c l2].
  { simpl in H2. subst n. cbn. exists hs, b, [], 0. by split_and!. }
  destruct H2 as (-> & n' & E2 & H2). pose proof T2 as (Hc & Hcs & _ & T2'). destruct (tiles_inside _ _ _ T2') as [Hc2 _].
  assert (Hcend : u_end c = u_addr c + HEADER_SIZE + u_size c) by done. unfold HEADER_SIZE in *.
  rewrite (proj2 (Z.eqb_neq _ 0)), E2 by lia. cbn [mbind option_bind h_size h_next h_free].
  apply naf_cons in Hnaf as [L2 N2]. destruct (u_free c) eqn:Ec; cbn [negb].
  - rewrite !u64_small by (rewrite ?u64_small; lia). rewrite (proj2 (Z.eqb_eq _ _)) by lia.
    eexists _, (UBlk (u_addr b) (u_size b + (24 + u_size c)) None), l2, n'.
    split; [done |]. split; [done |]. split; [done |]. split; [| split_and!; [| simpl; lia | done |]].
    + constructor; cbn [u_addr u_size u_own u_free]; unfold own_ok, u_end, HEADER_SIZE; cbn [u_addr u_size u_own]; try lia.
      * eapply seg_insert; [exact T1 | lia | done].
      * done.
      * by rewrite lookup_insert_eq.
      * eapply seg_insert; [exact T2' | lia | done].
      * by replace (u_addr b + 24 + (u_size b + (24 + u_size c))) with (u_end c) by lia.
    + unfold owners. simpl. unfold u_free in Ec. by destruct (u_own c).
    + unfold link in *. destruct (head l2); [| done]. intros _. by apply L2.
  - exists hs, b, (c :: l2), (u_addr c). split_and!; try done; [by apply naf_cons | by intros _].
Qed.

Lemma coalesce_prev_none l : forall fuel hs a cur lo hi,
  seg hs a l 0 -> tiles lo l hi -> 0 < cur -> cur <= lo -> (length l < fuel)%nat ->
  coalesce_prev fuel a cur hs = Some hs.
Proof.
  induction l as [| b l IH]; intros [| fuel] hs a cur lo hi Hs Ht Hc Hlo Hf; simpl in Hf; try lia.
  - simpl in Hs. by subst a.
  - destruct Hs as (-> & n & E & Hs). destruct Ht as (Ha & Hb & _ & Ht). cbn [coalesce_prev].
    rewrite (proj2 (Z.eqb_neq _ 0)), E by lia. cbn [mbind option_bind h_free h_next].
    assert (Hn : n <> cur).
    { destruct l; [simpl in Hs; lia |]. apply seg_end with (lo := u_end b) (hi := hi) in Hs; [| done | done].
      unfold u_end, HEADER_SIZE in *. lia. }
    rewrite (proj2 (Z.eqb_neq _ _) Hn), andb_false_r. eapply IH; eauto; [| lia]. unfold u_end, HEADER_SIZE. lia.
Qed.

Lemma coalesce_prev_at l c : forall fuel hs a lo cur,
  seg hs a (l ++ [c]) cur -> tiles lo (l ++ [c]) cur -> 0 < lo -> (length l < fuel)%nat ->
  coalesce_prev fuel a cur hs = if u_free c then coalesce (u_addr c) hs else Some hs.
Proof.
  induction l as [| b l IH]; intros [| fuel] hs a lo cur; cbn [app length]; intros Hs Ht Hlo Hf; try lia;
    destruct Hs as (-> & n & E & Hs), Ht as (Ha & Hb & _ & Ht); cbn [coalesce_prev];
    rewrite (proj2 (Z.eqb_neq _ 0)), E by lia; cbn [mbind option_bind h_free h_next].
  - simpl in Hs. subst n. rewrite Z.eqb_refl, andb_true_r. by destruct (u_free c).
  - assert (n = u_end b) as -> by (eapply seg_end; [exact Ht | by destruct l | exact Hs]).
    pose proof (tiles_lt _ _ _ Ht ltac:(by destruct l)) as Hlt. unfold HEADER_SIZE in Hlt.
    rewrite (proj2 (Z.eqb_neq _ cur)), andb_false_r by lia. eapply IH; eauto; [| lia].
    unfold u_end, HEADER_SIZE. lia.
Qed.

(** ** States *)

(** The allocator holds the blocks of [l], from the head to the break. *)
Record rep (l : list ublk) s : Prop := {
  rp_locked : LOCKED s = false;
  rp_seg : seg (hdrs s) (HEAD s) l 0;
  rp_tiles : 0 < HEAD s /\ tiles (HEAD s) l (HEAP_END s);
  rp_page : HEAP_END s mod PAGE_SIZE = 0;
  rp_brk : brk_cur (os s) = HEAP_END s;
  rp_naf : no_adjacent_free l
}.

(** Before the first allocation there are no blocks. *)
Definition heap_ok (l : list ublk) s : Prop :=
  (l = [] /\ LOCKED s = false /\ HEAD s = 0 /\ 0 < brk_cur (os s)) \/ rep l s.

(** The end of the memory the allocator may grow into. *)
Definition top s : Z := if HEAD s =? 0 then brk_cur (os s) else HEAP_END s.

(** [k] is what the system has become by refusing to move its break, where it is now,
    up by at most [n] bytes. *)
Definition refused (n : Z) (k : K) : Prop :=
  exists a k0, brk a k0 = (brk_cur k0, k) /\ brk_cur k = brk_cur k0 /\ brk_cur k < a <= brk_cur k + n.

Lemma refused_weaken n m k : n <= m -> refused n k -> refused m k.
Proof. intros Hn (a & k0 & E & Hk & Ha). exists a, k0. split_and!; auto; lia. Qed.

Lemma rep_nonempty l s : rep l s -> l <> [].
Proof. intros [_ Hs [Hh _] _ _ _] ->. simpl in Hs. lia. Qed.

Lemma heap_init_spec s :
  LOCKED s = true -> HEAD s = 0 -> 0 < brk_cur (os s) -> brk_cur (os s) + 2 ^ 17 < 2 ^ 63 ->
  exists s', heap_init 65536 s = s' /\ LOCKED s' = true /\
    ((HEAD s' = 0 /\ brk_cur (os s') = brk_cur (os s) /\ refused (2 ^ 17) (os s')) \/
     exists b, u_free b = true /\ u_size b = 65512 /\ rep [b] (set_locked false s') /\
       brk_cur (os s) <= HEAP_END s' < brk_cur (os s) + 2 ^ 17).
Proof.
  intros Hl Hh Hb0 Hb. unfold heap_init. rewrite brk_query.
  assert (Hpow : 2 ^ 63 + 2 ^ 63 = 18446744073709551616) by reflexivity. assert (2 ^ 17 = 131072) by reflexivity.
  destruct (page_round (brk_cur (os s))) as [Hr Hm]; [lia |].
  assert (Er : Z.land (u64 (brk_cur (os s) + 0xFFF)) (not64 0xFFF) = align_up (brk_cur (os s)) PAGE_SIZE)
    by (unfold align_up, PAGE_SIZE; f_equal; f_equal; lia).
  rewrite Er. set (start := align_up (brk_cur (os s)) PAGE_SIZE) in *. unfold PAGE_SIZE in Hr, Hm.
  change (align_up 65536 PAGE_SIZE) with 65536. cbv zeta. cbn [os set_os]. rewrite (u64_small (start + 65536)) by lia.
  destruct (brk_law (start + 65536) (os s)) as (k' & [[E Ek] | (E & Ek & Hlt)]); [lia | lia | |]; rewrite E.
  - rewrite (proj2 (Z.ltb_ge _ _)) by lia. eexists; split; [done |]. cbn [LOCKED set_os]. split; [done |]. right.
    exists (UBlk start 65512 None). split; [done |]. split; [done |]. split; [| cbn; lia].
    constructor; cbn [LOCKED HEAD HEAP_END os hdrs set_locked].
    + done.
    + split; [done |]. exists 0. by rewrite lookup_insert_eq.
    + split; [lia |]. cbn. unfold own_ok, u_end, HEADER_SIZE; simpl. lia.
    + unfold PAGE_SIZE. rewrite Z.add_mod, Hm by lia. done.
    + done.
    + done.
  - rewrite (proj2 (Z.ltb_lt _ _)) by lia. eexists; split; [done |]. cbn [LOCKED HEAD os set_os].
    split; [done |]. left. split_and!; [done | lia |].
    exists (start + 65536), (os s). rewrite E. cbn [os set_os]. split_and!; [done | done | lia | lia].
Qed.

(** Growing appends a free block or extends a free last one; or the break stays where it is. *)
Lemma heap_grow_spec l s size :
  rep l (set_locked false s) -> LOCKED s = true -> 0 <= size -> HEAP_END s + size + 2 * PAGE_SIZE < 2 ^ 62 ->
  (exists s', heap_grow size s = Some (0, s') /\ rep l (set_locked false s') /\ LOCKED s' = true /\
     refused (size + HEADER_SIZE + PAGE_SIZE) (os s')) \/
  exists s' l1 b, heap_grow size s = Some (u_addr b, s') /\ LOCKED s' = true /\ u_own b = None /\
    rep (l1 ++ [b]) (set_locked false s') /\ owners l1 = owners l /\
    HEAP_END s < HEAP_END s' < HEAP_END s + size + HEADER_SIZE + PAGE_SIZE /\
    (u_addr b = HEAP_END s /\ u_size b = align_up (size + HEADER_SIZE) PAGE_SIZE - HEADER_SIZE \/
     align_up (size + HEADER_SIZE) PAGE_SIZE <= u_size b).
Proof.
  intros Hrep Hl Hs Hb. pose proof (rep_nonempty _ _ Hrep) as Hne.
  destruct Hrep as [_ Hseg [Hh Ht] Hpg Hbrk Hnaf]. cbn [LOCKED HEAD HEAP_END os hdrs set_locked] in *.
  assert (Hpow : 2 ^ 62 + 2 ^ 62 = 2 ^ 63) by reflexivity.
  assert (Hpow' : 2 ^ 63 + 2 ^ 63 = 18446744073709551616) by reflexivity.
  destruct (tiles_inside _ _ _ Ht) as [Hle _]. unfold heap_grow. unfold HEADER_SIZE, PAGE_SIZE in *.
  rewrite (u64_small (size + 24)) by lia. destruct (page_round (size + 24)) as [Hr Hm]; [lia |].
  unfold PAGE_SIZE in *. set (total := align_up (size + 24) 4096) in *. rewrite (u64_small (HEAP_END s + total)) by lia.
  assert (Hpt : (HEAP_END s + total) mod 4096 = 0) by (rewrite Z.add_mod, Hpg, Hm by lia; done).
  destruct (brk_law (HEAP_END s + total) (os s)) as (k' & [[E Ek] | (E & Ek & Hlt)]); [lia | lia | |]; rewrite E.
  2: { left. rewrite (proj2 (Z.ltb_lt _ _)) by lia. eexists; split; [done |]. split; [| split; [done |]].
       - constructor; cbn [LOCKED HEAD HEAP_END os hdrs set_locked set_os]; auto. lia.
       - exists (HEAP_END s + total), (os s). rewrite E. cbn [os set_os]. unfold HEADER_SIZE, PAGE_SIZE.
         split_and!; [done | done | lia | lia]. }
  right. rewrite (proj2 (Z.ltb_ge _ _)) by lia. cbn [LOCKED HEAD HEAP_END os hdrs set_locked set_os].
  rewrite (proj2 (Z.eqb_neq _ 0)) by lia. rewrite (u64_small (total - 24)) by lia.
  set (hs := <[HEAP_END s := Header (total - 24) true 0]> (hdrs s)).
  assert (HB : hs !! HEAP_END s = Some (Header (total - 24) true 0)) by apply lookup_insert_eq.
  destruct (exists_last Hne) as (l0 & c & ->).
  assert (Hseg' : seg hs (HEAD s) (l0 ++ [c]) 0) by (eapply seg_insert; [exact Ht | lia | done]).
  pose proof (seg_length _ _ _ _ _ _ Ht Hseg') as Hlen. rewrite length_app in Hlen. simpl in Hlen.
  rewrite (last_header_spec l0 c _ _ _ _ _ Hseg' Ht) by (unfold walk_fuel; cbn [hdrs]; lia).
  destruct (proj1 (mid_iff _ _ _ _ _ _ _) (conj Hseg' Ht)) as (n & Hmid).
  destruct (mid_bounds _ _ _ _ _ _ _ _ Hmid) as [Hc1 Hc2].
  destruct Hmid as [M1 MT1 ME Ms Mo M2 MT2]. simpl in M2, MT2. subst n.
  cbn [mbind option_bind]. rewrite ME. cbn [mbind option_bind h_size h_free].
  assert (Hce : u_end c = u_addr c + 24 + u_size c) by done.
  rewrite !u64_small by (rewrite ?u64_small; lia). rewrite (proj2 (Z.eqb_eq _ _)), andb_true_l by lia.
  assert (HX : forall v, seg (<[u_addr c := v]> hs) (HEAD s) l0 (u_addr c)) by (intros v; eapply seg_insert; [exact MT1 | lia | done]).
  destruct (u_free c) eqn:Ec; cbn [hdrs put set_hdrs HEAD HEAP_END LOCKED os].
  - rewrite lookup_insert_ne, HB by lia. cbn [mbind option_bind h_size h_next].
    rewrite (u64_small (24 + (total - 24))) by lia. rewrite (u64_small (u_size c + _)) by lia.
    unfold put, set_hdrs. cbn [hdrs HEAD HEAP_END LOCKED os]. rewrite insert_insert_eq.
    assert (Hnone : u_own c = None) by (unfold u_free in Ec; by destruct (u_own c)).
    eexists _, l0, (UBlk (u_addr c) (u_size c + (24 + (total - 24))) None). split; [done |].
    split; [done |]. split; [done |]. split; [constructor; cbn [LOCKED HEAD HEAP_END os hdrs set_locked] | split; [| split]].
    + done.
    + apply seg_app. exists (u_addr c). split; [apply HX |]. simpl. split; [done |]. exists 0. by rewrite lookup_insert_eq.
    + split; [done |]. apply tiles_app. exists (u_addr c). split; [done |]. cbn. unfold own_ok, u_end, HEADER_SIZE. simpl. lia.
    + done.
    + done.
    + apply naf_mid in Hnaf as (N1 & _ & L1 & _). apply naf_mid. split; [done |]. split; [done |].
      split; [| done]. unfold link in *. destruct (last l0); [| done]. intros Hf. by rewrite L1 in Ec.
    + unfold owners. rewrite omap_app. simpl. rewrite Hnone. by rewrite app_nil_r.
    + cbn [HEAP_END]. lia.
    + right. cbn [u_size]. lia.
  - eexists _, (l0 ++ [c]), (UBlk (HEAP_END s) (total - 24) None). split; [done |].
    split; [done |]. split; [done |]. split; [constructor; cbn [LOCKED HEAD HEAP_END os hdrs set_locked] | split; [done | split; [| by left]]].
    + done.
    + apply seg_app. exists (HEAP_END s). split; [apply seg_app; exists (u_addr c); split; [apply HX |] |].
      * simpl. split; [done |]. exists (HEAP_END s). by rewrite lookup_insert_eq, Ec.
      * simpl. split; [done |]. exists 0. by rewrite lookup_insert_ne, HB by lia.
    + split; [done |]. apply tiles_app. exists (HEAP_END s). split; [done |]. cbn. unfold own_ok, u_end, HEADER_SIZE. simpl. lia.
    + done.
    + done.
    + apply naf_mid. split; [done |]. split; [done |]. split; [| done]. rewrite last_snoc. unfold link. by rewrite Ec.
    + cbn [HEAP_END put set_hdrs]. lia.
Qed.

Lemma rep_set_locked l s b : rep l s -> rep l (set_locked false (set_locked b s)).
Proof. by intros []. Qed.

(** The block found or made takes the request. *)
Lemma take_block l1 b l2 s size align :
  rep (l1 ++ b :: l2) (set_locked false s) -> LOCKED s = true -> u_free b = true -> pow2 align -> 0 < size ->
  HEAP_END s + HEADER_SIZE + align + size < 2 ^ 62 -> needed_for (u_addr b) size align <= u_size b ->
  exists hs h l', split_block (u_addr b) (needed_for (u_addr b) size align) (hdrs s) = Some hs /\
    hs !! u_addr b = Some h /\
    rep l' (set_locked false (set_hdrs (<[u_addr b := Header (h_size h) false (h_next h)]> hs) s)) /\
    owners l' ≡ₚ (aligned_start (u_addr b) align, size) :: owners (l1 ++ b :: l2) /\
    0 < aligned_start (u_addr b) align /\ aligned_start (u_addr b) align mod align = 0.
Proof.
  intros [_ Hseg [Hh Ht] Hpg Hbrk Hnaf] Hl Hfree Hal Hs Hb Hn.
  cbn [LOCKED HEAD HEAP_END os hdrs set_locked] in *.
  assert (Hpow : 2 ^ 62 + 2 ^ 62 = 2 ^ 63) by reflexivity. pose proof (pow2_pos _ Hal).
  destruct (proj1 (mid_iff _ _ _ _ _ _ _) (conj Hseg Ht)) as (n & Hmid).
  destruct (mid_bounds _ _ _ _ _ _ _ _ Hmid) as [Hb1 Hb2]. pose proof (md_size _ _ _ _ _ _ _ _ Hmid).
  assert (u_end b = u_addr b + HEADER_SIZE + u_size b) by done. unfold HEADER_SIZE in *.
  destruct (needed_spec (u_addr b) size align) as (Hp & Hpm & En); [done | lia | lia | unfold HEADER_SIZE; lia |].
  unfold HEADER_SIZE in *.
  destruct (place_spec _ _ _ _ _ _ _ _ (needed_for (u_addr b) size align) (aligned_start (u_addr b) align) size Hmid)
    as (hs' & h & used & rest & E1 & E2 & (n' & Hm') & Ho & Hr & Hnaf'); unfold HEADER_SIZE; try done; try lia.
  exists hs', h, (l1 ++ used :: rest ++ l2). split; [done |]. split; [done |]. split; [| split; [| split; [lia | done]]].
  - destruct (proj2 (mid_iff _ _ _ _ _ _ _) (ex_intro _ _ Hm')) as [HS HT].
    by constructor; cbn [LOCKED HEAD HEAP_END os hdrs set_locked set_hdrs].
  - assert (u_own b = None) as Hob by (unfold u_free in Hfree; by destruct (u_own b)).
    rewrite !owners_app, (owners_used _ _ _ Ho), (owners_free b), owners_app, Hr by done.
    by rewrite <- Permutation_middle.
Qed.

Lemma split_block_total a needed hs : is_Some (hs !! a) ->
  exists hs' h, split_block a needed hs = Some hs' /\ hs' !! a = Some h.
Proof.
  intros [b E]. unfold split_block. rewrite E. cbn [mbind option_bind]. case_if; [| eauto].
  set (n := u64 (a + u64 (HEADER_SIZE + needed))).
  assert (Hn : exists c, <[n := Header (u64 (u64 (h_size b - needed) - HEADER_SIZE)) true (h_next b)]> hs !! a = Some c).
  { destruct (Z.eq_dec n a) as [-> |]; [rewrite lookup_insert_eq | rewrite lookup_insert_ne, E by done]; eauto. }
  destruct Hn as [c ->]. cbn [mbind option_bind]. eexists _, _. split; [done |]. apply lookup_insert_eq.
Qed.

(** The part of [alloc] after the first allocation has set the heap up. *)
Lemma alloc_ready l s size align :
  rep l (set_locked false s) -> LOCKED s = true -> pow2 align -> HEADER_ALIGN <= align -> MIN_USABLE <= size ->
  HEAP_END s + 2 * size + align + 4 * PAGE_SIZE < 2 ^ 62 ->
  exists p s',
    alloc_block size align s = Some (p, s') /\
    ((p = 0 /\ rep l s' /\ Forall (too_small size align) l /\ refused (size + HEADER_SIZE + PAGE_SIZE) (os s')) \/
     (exists l', rep l' s' /\ 0 < p /\ p mod align = 0 /\ owners l' ≡ₚ (p, size) :: owners l) \/
     (~ padding_fits size align /\ Forall (too_small size align) l /\ HEAP_END s < HEAP_END s' < p + size)).
Proof.
  intros Hrep Hl Hal Ha8 Hs Hb. pose proof Hrep as [_ Hseg [Hh Ht] Hpg Hbrk Hnaf].
  cbn [LOCKED HEAD HEAP_END os hdrs set_locked] in *.
  assert (Hpow : 2 ^ 62 + 2 ^ 62 = 2 ^ 63) by reflexivity. pose proof (pow2_pos _ Hal).
  pose proof (seg_length _ _ _ _ _ _ Ht Hseg) as Hlen. unfold HEADER_SIZE, PAGE_SIZE, MIN_USABLE, HEADER_ALIGN in *.
  unfold alloc_block.
  destruct (find_free_block_spec size align l (walk_fuel s) _ _ _ _ Hseg Ht Hh) as [[-> Hno] | (l1 & b & l2 & -> & -> & Hf & Hn)];
    [unfold walk_fuel; lia | |]; cbn [mbind option_bind].
  - rewrite Z.eqb_refl.
    destruct (heap_grow_spec l s size Hrep Hl) as [(s' & -> & Hrep' & Hl' & Hrf) | (s' & l1 & b & -> & Hl' & Hob & Hrep' & Hol & Htop & Hsz)];
      [lia | unfold PAGE_SIZE; lia | |]; cbn [mbind option_bind].
    + rewrite Z.eqb_refl. eexists _, _. split; [done |]. left. split_and!; done.
    + assert (Hfree : u_free b = true) by (unfold u_free; by rewrite Hob).
      pose proof Hrep' as [_ Hseg' [Hh' Ht'] Hpg' _ _]. cbn [LOCKED HEAD HEAP_END os hdrs set_locked] in *.
      destruct (proj1 (mid_iff _ _ _ _ _ _ _) (conj Hseg' Ht')) as (n & Hmid).
      destruct (mid_bounds _ _ _ _ _ _ _ _ Hmid) as [Hb1 Hb2]. unfold HEADER_SIZE, PAGE_SIZE in *.
      assert (u_end b = u_addr b + 24 + u_size b) by done. pose proof (md_size _ _ _ _ _ _ _ _ Hmid).
      destruct (needed_spec (u_addr b) size align) as (Hp & Hpm & En); [done | lia | lia | unfold HEADER_SIZE; lia |].
      unfold HEADER_SIZE in *.
      assert (Hpad : u_addr b = HEAP_END s -> aligned_start (u_addr b) align <= u_addr b + 24 + (align - 8)).
      { intros Eb. apply mod8_below.
        - eapply (pow2_mod 8 align); [by exists 3 | done | done | done].
        - rewrite Eb. assert (HEAP_END s mod 8 = 0); [| mod_lia].
          apply (pow2_mod 8 4096); [by exists 3 | by exists 12 | done | done].
        - eapply (pow2_mod 8 align); [by exists 3 | done | done |]. apply Z.mod_same; lia.
        - lia. }
      rewrite (proj2 (Z.eqb_neq _ 0)) by lia.
      destruct (Z.le_gt_cases (needed_for (u_addr b) size align) (u_size b)) as [Hn | Hn].
      2: { destruct (split_block_total (u_addr b) (needed_for (u_addr b) size align) (hdrs s')) as (hs & h & E1 & E2);
             [rewrite (md_b _ _ _ _ _ _ _ _ Hmid); eauto |].
           rewrite E1. cbn [mbind option_bind]. rewrite E2. cbn [mbind option_bind].
           eexists _, _. split; [done |]. right. right. pose proof (md_t2 _ _ _ _ _ _ _ _ Hmid) as Hend. simpl in Hend.
           cbn [HEAP_END set_locked set_hdrs]. split; [| split; [done | lia]].
           unfold padding_fits, HEADER_SIZE, HEADER_ALIGN, PAGE_SIZE. intros Hfit.
           destruct Hsz as [[Eb Es] | Es]; [specialize (Hpad Eb) |]; lia. }
      destruct (take_block l1 b [] s' size align Hrep' Hl' Hfree Hal) as (hs & h & l' & E1 & E2 & Hrep'' & Hown & Hp0 & Hpa);
        [lia | unfold HEADER_SIZE; lia | done |].
      rewrite E1. cbn [mbind option_bind]. rewrite E2. cbn [mbind option_bind].
      eexists _, _. split; [done |]. right. left. exists l'. split; [exact Hrep'' |]. split; [done |]. split; [done |].
      rewrite Hown. unfold owners in *. rewrite omap_app, Hol. simpl. rewrite Hob. by rewrite app_nil_r.
  - destruct (proj1 (mid_iff _ _ _ _ _ _ _) (conj Hseg Ht)) as (n & Hmid).
    destruct (mid_bounds _ _ _ _ _ _ _ _ Hmid) as [Hb1 Hb2]. rewrite (proj2 (Z.eqb_neq _ 0)) by lia. cbn [mbind option_bind].
    rewrite (proj2 (Z.eqb_neq _ 0)) by lia.
    destruct (take_block l1 b l2 s size align Hrep Hl Hf Hal) as (hs & h & l' & E1 & E2 & Hrep'' & Hown & Hp0 & Hpa);
      [lia | unfold HEADER_SIZE; lia | done |].
    rewrite E1. cbn [mbind option_bind]. rewrite E2. cbn [mbind option_bind].
    eexists _, _. split; [done |]. right. left. exists l'. split; [exact Hrep'' | done].
Qed.

Lemma owners_own_ok lo l hi p n :
  tiles lo l hi -> (p, n) ∈ owners l -> exists b, b ∈ l /\ u_own b = Some (p, n) /\ own_ok b.
Proof.
  intros Ht (b & Hb & E)%list_elem_of_omap. exists b. split; [done |]. split; [done |]. by eapply tiles_own.
Qed.

(** Areas in use lie inside the heap and apart from each other. *)
Lemma owners_bounds lo l hi : tiles lo l hi -> Forall (fun x => lo <= x.1 /\ 0 < x.2 /\ x.1 + x.2 <= hi) (owners l).
Proof.
  intros Ht. apply Forall_forall. intros [p n] Hin. destruct (owners_own_ok _ _ _ _ _ Ht Hin) as (b & Hb & E & Ho).
  destruct (tiles_inside _ _ _ Ht) as [_ HF]. rewrite Forall_forall in HF. destruct (HF _ Hb).
  unfold own_ok, HEADER_SIZE in Ho. rewrite E in Ho. simpl. lia.
Qed.

Lemma owners_apart lo l hi : tiles lo l hi -> ForallOrdPairs apart (owners l).
Proof.
  revert lo; induction l as [| b l IH]; intros lo; [constructor |]. intros (Ha & Hs & Ho & Ht).
  unfold owners; simpl. unfold own_ok in Ho. destruct (u_own b) as [[p n] |]; [| by eapply IH].
  constructor; [| by eapply IH]. eapply Forall_impl; [by eapply owners_bounds |].
  intros [q k] (? & ? & ?). left. simpl in *. lia.
Qed.

(** C30: A request, of at most 2^61 bytes of a power of two's alignment, with the
    heap below 2^62.  Either it is refused with a null pointer, which happens only when
    no free block takes it and the system has just refused to move the break up by what
    is needed, and the areas in use stay; or an aligned area of its size is handed out,
    inside the heap and apart from all areas in use, which stay; sizes below 16 count as
    16.  Or, when no free block takes it and the padding of its alignment does not fit
    in the pages the heap grows by, the area that is handed out reaches past the end of
    the heap ([grow_ignores_padding] below). *)
Theorem alloc_correct l s size align :
  heap_ok l s -> 0 <= size -> pow2 align -> top s + 2 * size + align + 2 ^ 18 < 2 ^ 62 ->
  let size' := Z.max size MIN_USABLE in
  let align' := Z.max align HEADER_ALIGN in
  exists p s', alloc size align s = Some (p, s') /\
    ((exists l', heap_ok l' s' /\
       ((p = 0 /\ owners l' = owners l /\ Forall (too_small size' align') l' /\ refused (size' + 2 ^ 17) (os s')) \/
        (0 < p /\ p mod align = 0 /\ owners l' ≡ₚ (p, size') :: owners l /\
         ForallOrdPairs apart (owners l') /\
         Forall (fun x => HEAD s' <= x.1 /\ x.1 + x.2 <= HEAP_END s') (owners l')))) \/
     (~ padding_fits size' align' /\ Forall (too_small size' align') l /\ top s < HEAP_END s' < p + size')).
Proof.
  intros Hok Hsz Hal Htop. cbv zeta. pose proof (pow2_pos _ Hal) as Hap. pose proof (pow2_max _ Hal) as Hal'.
  unfold alloc.
  set (sz := Z.max size MIN_USABLE) in *. set (al := Z.max align HEADER_ALIGN) in *.
  assert (Hal8 : HEADER_ALIGN <= al /\ align <= al <= align + 8) by (unfold al, HEADER_ALIGN; lia).
  assert (Hs16 : MIN_USABLE <= sz <= size + 16) by (unfold sz, MIN_USABLE; lia).
  assert (Hmod : forall p, p mod al = 0 -> p mod align = 0) by (intros p; apply pow2_mod; tauto).
  assert (2 ^ 62 + 2 ^ 62 = 2 ^ 63) by reflexivity. assert (2 ^ 18 = 262144) by reflexivity.
  assert (Hfin : forall l0 s0, owners l0 = owners l -> (Forall (too_small sz al) l0 -> Forall (too_small sz al) l) ->
    rep l0 (set_locked false s0) -> LOCKED s0 = true ->
    top s <= HEAP_END s0 < top s + 2 ^ 17 -> exists p s',
    alloc_block sz al s0 = Some (p, s') /\
    ((exists l', heap_ok l' s' /\
       ((p = 0 /\ owners l' = owners l /\ Forall (too_small sz al) l' /\ refused (sz + 2 ^ 17) (os s')) \/
        (0 < p /\ p mod align = 0 /\ owners l' ≡ₚ (p, sz) :: owners l /\ ForallOrdPairs apart (owners l') /\
         Forall (fun x => HEAD s' <= x.1 /\ x.1 + x.2 <= HEAP_END s') (owners l')))) \/
     (~ padding_fits sz al /\ Forall (too_small sz al) l /\ top s < HEAP_END s' < p + sz))).
  { intros l0 s0 Hol Hfew Hrep Hl Ht0. change (2 ^ 17) with 131072 in Ht0.
    destruct (alloc_ready l0 s0 sz al Hrep Hl Hal') as (p & s' & -> & Hcase); try tauto; [unfold PAGE_SIZE; lia |].
    exists p, s'. split; [done |].
    destruct Hcase as [(-> & Hrep' & Hno & Hrf) | [(l' & Hrep' & Hp & Hpm & Hown) | (Hpf & Hno & He)]].
    - left. exists l0. split; [by right |]. left. split_and!; try done. eapply refused_weaken; [| exact Hrf].
      unfold HEADER_SIZE, PAGE_SIZE. change (2 ^ 17) with 131072. lia.
    - left. exists l'. split; [by right |]. right.
      rewrite <- Hol. destruct Hrep' as [_ _ [_ Ht] _ _ _].
      split_and!; auto; [by eapply owners_apart |]. eapply Forall_impl; [by eapply owners_bounds |]. simpl; tauto.
    - right. split; [done |]. split; [by apply Hfew | lia]. }
  destruct Hok as [(-> & Hl & Hh & Hb) | Hrep].
  - rewrite Hl. cbn [HEAD set_locked]. rewrite Hh, Z.eqb_refl. unfold top in Htop, Hfin. rewrite Hh, Z.eqb_refl in Htop, Hfin.
    destruct (heap_init_spec (set_locked true s)) as (s1 & E1 & Hl1 & [(Hh1 & Hb1 & Hrf) | (b & Hbf & Hbs & Hrep & Ht1)]);
      [done | done | done | cbn [os set_locked]; lia | |]; rewrite E1; cbn [os set_locked] in *.
    + rewrite Hh1, Z.eqb_refl. eexists _, _. split; [done |]. left. exists [].
      split; [left; split_and!; auto; cbn [os set_locked]; lia |].
      left. split_and!; try done. eapply refused_weaken; [| exact Hrf]. unfold MIN_USABLE in *. lia.
    + pose proof (rp_tiles _ _ Hrep) as [Hhead _]. cbn [HEAD set_locked] in Hhead.
      rewrite (proj2 (Z.eqb_neq _ 0)) by lia. unfold top. rewrite Hh, Z.eqb_refl. apply (Hfin [b]); auto.
      * unfold owners. simpl. unfold u_free in Hbf. by destruct (u_own b).
  - pose proof (rp_locked _ _ Hrep) as Hl. rewrite Hl. pose proof (rp_tiles _ _ Hrep) as [Hhead _].
    cbn [HEAD set_locked]. rewrite (proj2 (Z.eqb_neq (HEAD s) 0)) by lia. cbn [HEAD set_locked].
    rewrite (proj2 (Z.eqb_neq (HEAD s) 0)) by lia. apply (Hfin l); auto.
    + by destruct Hrep.
    + unfold top. rewrite (proj2 (Z.eqb_neq (HEAD s) 0)) by lia. cbn [HEAP_END set_locked]. lia.
Qed.

Lemma owners_split l p n :
  (p, n) ∈ owners l -> exists l1 b l2, l = l1 ++ b :: l2 /\ u_own b = Some (p, n).
Proof.
  intros (b & Hb & E)%list_elem_of_omap. apply list_elem_of_split in Hb as (l1 & l2 & ->). eauto.
Qed.

(** Freeing the block in the middle of a list, merging it with its neighbours. *)
Lemma free_block hs a l1 b n l2 lo hi fuel :
  mid hs a l1 b n l2 lo hi -> 0 < lo -> hi < 2 ^ 63 -> no_adjacent_free (l1 ++ b :: l2) ->
  (length (l1 ++ b :: l2) < fuel)%nat ->
  exists hs' hs'' l', coalesce (u_addr b) (<[u_addr b := Header (u_size b) true n]> hs) = Some hs' /\
    coalesce_prev fuel a (u_addr b) hs' = Some hs'' /\
    seg hs'' a l' 0 /\ tiles lo l' hi /\ no_adjacent_free l' /\ owners l' = owners (l1 ++ l2).
Proof.
  intros Hm Hlo Hhi Hnaf Hf. destruct (mid_bounds _ _ _ _ _ _ _ _ Hm) as [Hb1 Hb2].
  assert (Hend : u_end b = u_addr b + HEADER_SIZE + u_size b) by done.
  apply naf_mid in Hnaf as (N1 & N2 & L1 & L2). pose proof Hm as [H1 T1 E Hs _ H2 T2]. unfold HEADER_SIZE in Hend.
  assert (Hm0 : mid (<[u_addr b := Header (u_size b) true n]> hs) a l1 (UBlk (u_addr b) (u_size b) None) n l2 lo hi).
  { constructor; cbn [u_addr u_size u_own u_free]; unfold own_ok; cbn [u_own]; try done.
    - eapply seg_insert; [exact T1 | lia | done].
    - by rewrite lookup_insert_eq.
    - eapply seg_insert; [exact T2 | lia | done]. }
  destruct (merge_next_spec _ _ _ _ _ _ _ _ Hm0 Hlo Hhi eq_refl N2) as (hs' & b' & l2' & n' & E1 & Ea & Eo & Hm' & Ho2 & Hlen & N2' & Lb).
  cbn [u_addr] in E1, Ea. exists hs'. destruct (proj2 (mid_iff _ _ _ _ _ _ _) (ex_intro _ _ Hm')) as [HS HT].
  rewrite length_app in Hf. simpl in Hf.
  assert (Hfree' : u_free b' = true) by (unfold u_free; by rewrite Eo).
  destruct l1 as [| x l1'] using rev_ind; [| clear IHl1'].
  - exists hs', (b' :: l2'). split; [done |]. simpl in HS, HT.
    split.
    + eapply coalesce_prev_none with (l := b' :: l2'); [exact HS | exact HT | lia | | simpl; lia].
      destruct T1 as []. simpl in *. lia.
    + split; [done |]. split; [done |]. split; [apply naf_cons; done |]. unfold owners in *. simpl. by rewrite Eo.
  - assert (Hb'free : no_adjacent_free (b' :: l2')) by by apply naf_cons.
    pose proof Hm' as [H1' T1' E' Hs' Ho' H2' T2']. rewrite Ea in H1', T1'.
    assert (Eprev : coalesce_prev fuel a (u_addr b) hs' = if u_free x then coalesce (u_addr x) hs' else Some hs').
    { eapply coalesce_prev_at; eauto. rewrite length_app in Hf. simpl in Hf. lia. }
    apply naf_mid in N1 as (N1 & _ & Lx & _). rewrite Eprev. rewrite <- app_assoc in HS, HT. cbn [app] in HS, HT.
    destruct (u_free x) eqn:Ex.
    + destruct (proj1 (mid_iff _ _ _ _ _ _ _) (conj HS HT)) as (nx & Hmx).
      destruct (merge_next_spec _ _ _ _ _ _ _ _ Hmx Hlo Hhi Ex Hb'free)
        as (hs'' & x' & l3 & nx' & E2 & Eax & Eox & Hmx' & Ho3 & _ & N3 & Lx').
      destruct (proj2 (mid_iff _ _ _ _ _ _ _) (ex_intro _ _ Hmx')) as [HS' HT'].
      exists hs'', (l1' ++ x' :: l3). split_and!; try done.
      * apply naf_mid. split; [done |]. split; [done |]. split; [| done].
        unfold link in *. destruct (last l1'); [| done]. intros Hu. by rewrite Lx in Ex.
      * by rewrite !owners_app, !owners_free, Ho3, owners_free, Ho2, app_nil_r by (done || by apply free_own).
    + exists hs', ((l1' ++ [x]) ++ b' :: l2'). rewrite <- app_assoc. cbn [app]. split_and!; try done.
      * apply naf_mid. split; [done |]. split; [done |]. split; [done |]. unfold link. simpl. by rewrite Ex.
      * rewrite !owners_app, <- Ho2. destruct (u_own x) eqn:Eox; [| by apply (f_equal negb) in Ex; unfold u_free in Ex; rewrite Eox in Ex].
        by rewrite !(owners_used x _ _ Eox), (owners_free b'), <- app_assoc by done.
Qed.

(** C31: An area in use is given back: the other areas stay, the free block is merged
    with its free neighbours, so that a heap without areas in use is a single block. *)
Theorem dealloc_correct l s p n :
  rep l s -> HEAP_END s < 2 ^ 63 -> (p, n) ∈ owners l ->
  exists s' l', dealloc p s = Some s' /\ rep l' s' /\ owners l ≡ₚ (p, n) :: owners l' /\
    HEAD s' = HEAD s /\ HEAP_END s' = HEAP_END s /\
    (owners l' = [] -> l' = [UBlk (HEAD s) (HEAP_END s - HEAD s - HEADER_SIZE) None]).
Proof.
  intros [Hl Hseg [Hh Ht] Hpg Hbrk Hnaf] Hend Hin. pose proof (seg_length _ _ _ _ _ _ Ht Hseg) as Hlen.
  destruct (owners_split _ _ _ Hin) as (l1 & b & l2 & -> & Eo).
  destruct (owners_own_ok _ _ _ _ _ Ht Hin) as (c & Hc & Ec & Hco). unfold own_ok in Hco. rewrite Ec in Hco.
  destruct (tiles_inside _ _ _ Ht) as [_ HF]. rewrite Forall_forall in HF. destruct (HF _ Hc) as [Hc1 _].
  unfold dealloc. unfold HEADER_SIZE in Hco. rewrite (proj2 (Z.eqb_neq p 0)), Hl by lia.
  cbn [set_locked hdrs HEAD HEAP_END LOCKED os walk_fuel].
  assert (Hb : b ∈ l1 ++ b :: l2) by (apply elem_of_app; right; left).
  rewrite (find_owner_spec _ b p n _ _ _ _ _ Hseg Ht Hh Hend Hb Eo) by (unfold walk_fuel; cbn [hdrs set_locked]; lia).
  cbn [mbind option_bind]. destruct (HF _ Hb) as [Hb1 _]. rewrite (proj2 (Z.eqb_neq _ 0)) by lia.
  destruct (proj1 (mid_iff _ _ _ _ _ _ _) (conj Hseg Ht)) as (nx & Hm). rewrite (md_b _ _ _ _ _ _ _ _ Hm).
  cbn [mbind option_bind h_size h_next put set_hdrs hdrs HEAD HEAP_END LOCKED os].
  set (st := set_locked true s).
  destruct (free_block _ _ _ _ _ _ _ _ (walk_fuel (put (u_addr b) (Header (u_size b) true nx) st)) Hm Hh Hend Hnaf)
    as (hs' & hs'' & l' & E1 & E2 & HS & HT & Hn & Ho).
  { unfold walk_fuel, put, st. cbn [hdrs set_hdrs set_locked].
    rewrite map_size_insert_Some by (by rewrite (md_b _ _ _ _ _ _ _ _ Hm)). lia. }
  eexists _, l'. split; [eapply bind_step; [exact E1 |]; eapply bind_step; [exact E2 | reflexivity] |].
  split; [by constructor | split; [| split; [done | split; [done |]]]].
  - rewrite Ho, !owners_app, (owners_used _ _ _ Eo). symmetry. apply Permutation_middle.
  - intros Hnil. assert (Hfr : Forall (fun b => u_free b = true) l').
    { clear -Hnil. induction l' as [| d l' IH]; constructor; unfold owners in *; simpl in *; unfold u_free;
        destruct (u_own d); try done; by apply IH. }
    destruct l' as [| d [| e l']].
    + simpl in HS. lia.
    + destruct HT as (Hd1 & Hd2 & _ & Hd3). simpl in Hd3. unfold u_end in Hd3. apply Forall_inv in Hfr.
      destruct d as [ad sd [o |]]; [done |]. simpl in *. f_equal. f_equal; lia.
    + destruct Hn as [Hn _]. inversion Hfr as [| ? ? Hd Hfr']; subst. inversion Hfr' as [| ? ? He _]; subst.
      by rewrite Hn in He.
Qed.

(** A pointer that no block contains changes nothing. *)
Lemma dealloc_foreign l s p :
  rep l s -> HEAP_END s < 2 ^ 63 -> Forall (fun b => ~ (u_addr b + HEADER_SIZE <= p < u_end b)) l ->
  dealloc p s = Some s.
Proof.
  intros [Hl Hseg [Hh Ht] _ _ _] Hend Hno. unfold dealloc. case_if; [done |]. rewrite Hl.
  assert (Hs : set_locked false (set_locked true s) = s) by (destruct s; simpl in *; by subst).
  pose proof (seg_length _ _ _ _ _ _ Ht Hseg) as Hlen. change (hdrs (set_locked true s)) with (hdrs s).
  change (HEAD (set_locked true s)) with (HEAD s). change (walk_fuel (set_locked true s)) with (walk_fuel s).
  assert (E0 : forall fuel a lo, seg (hdrs s) a l 0 -> tiles lo l (HEAP_END s) -> 0 < lo -> (length l < fuel)%nat ->
    find_owner fuel a p (hdrs s) = Some 0).
  { clear Hseg Ht Hlen Hh. assert (Hpow : 2 ^ 63 + 2 ^ 63 = 18446744073709551616) by reflexivity.
    induction Hno as [| b l Hb Hno IH]; intros [| fuel] a lo; simpl; intros Hseg Ht Hlo Hf; try lia.
    - by subst.
    - destruct Hseg as (-> & n & E1 & Hseg), Ht as (Ha & Hs0 & _ & Ht). destruct (tiles_inside _ _ _ Ht) as [Hle _].
      unfold u_end, HEADER_SIZE in *. rewrite (proj2 (Z.eqb_neq _ 0)), E1 by lia. cbn [mbind option_bind h_size h_next].
      rewrite !u64_small by (rewrite ?u64_small; lia).
      replace ((u_addr b + 24 <=? p) && (p <? u_addr b + 24 + u_size b)) with false
        by (symmetry; apply andb_false_iff; rewrite Z.leb_gt, Z.ltb_ge; lia).
      eapply IH; eauto; lia. }
  rewrite (E0 _ _ _ Hseg Ht Hh) by (unfold walk_fuel; lia). cbn [mbind option_bind]. by rewrite Z.eqb_refl, Hs.
Qed.
End proofs.

(** ** A break up to 2^40, and what the allocator does on it *)

Definition flat_brk (a k : Z) : Z * Z := if a =? 0 then (k, k) else if (k <=? a) && (a <? 2 ^ 40) then (a, a) else (k, k).

Lemma flat_brk_law a k : a <> 0 -> k <= a ->
  exists k', (flat_brk a k = (a, k') /\ k' = a) \/ (flat_brk a k = (k, k') /\ k' = k /\ k < a).
Proof.
  intros Ha Hk. unfold flat_brk. rewrite (proj2 (Z.eqb_neq a 0)), (proj2 (Z.leb_le k a)) by lia. cbn [andb].
  destruct (Z.ltb_spec a (2 ^ 40)); [eauto |]. exists k.
  destruct (Z.eq_dec k a) as [-> |]; [by left | right; split_and!; auto; lia].
Qed.

#[export] Instance flat_brk_ok : Brk Z := {
  brk := flat_brk; brk_cur := fun k => k; brk_query := fun k => eq_refl; brk_law := flat_brk_law }.

Definition fresh_heap : uheap Z := UHeap ∅ 0 0 false 0x400010.

(** The blocks of a heap, by their headers. *)
Fixpoint blocks_of (fuel : nat) (a : Z) (hs : gmap Z BlockHeader) : list (Z * Z * bool) :=
  match fuel with
  | O => []
  | S fuel =>
      if a =? 0 then [] else
      match hs !! a with None => [] | Some b => (a, h_size b, h_free b) :: blocks_of fuel (h_next b) hs end
  end.

(** The padding of an alignment is not part of what [heap_grow] asks for: with the
    first 64 KB taken, a request of 4072 bytes aligned to 16 gets a block 8 bytes too
    short, [split_block] wraps and makes a free block of almost 2^64 bytes past the
    break. *)
Example grow_ignores_padding :
  ('(p, s) ← alloc 65512 8 fresh_heap;
   '(q, s) ← alloc 4072 16 s;
   Some (p, q, HEAP_END s, blocks_of 4 (HEAD s) (hdrs s))) =
  Some (0x401018, 0x411020, 0x412000,
        [(0x401000, 65512, false); (0x411000, 4080, false); (0x412008, 18446744073709551584, true)]).
Proof. vm_compute. reflexivity. Qed.

Lemma alloc_correct_witness : exists p s',
  alloc 100 16 fresh_heap = Some (p, s') /\
    ((exists l', heap_ok l' s' /\
       ((p = 0 /\ owners l' = [] /\ Forall (too_small 100 16) l' /\ refused (100 + 2 ^ 17) (os s')) \/
        (0 < p /\ p mod 16 = 0 /\ owners l' ≡ₚ [(p, 100)] /\ ForallOrdPairs apart (owners l') /\
         Forall (fun x => HEAD s' <= x.1 /\ x.1 + x.2 <= HEAP_END s') (owners l')))) \/
     (~ padding_fits 100 16 /\ Forall (too_small 100 16) [] /\ top fresh_heap < HEAP_END s' < p + 100)).
Proof.
  apply (alloc_correct [] fresh_heap 100 16); [left; done | lia | by exists 4 | by vm_compute].
Defined.

(** A heap of one page with two areas in use. *)
Definition two_areas : uheap Z :=
  UHeap {[ 0x401000 := Header 100 false 0x40107C; 0x40107C := Header 32 false 0x4010B4; 0x4010B4 := Header 3892 true 0 ]}
    0x401000 0x402000 false 0x402000.
Definition two_blocks : list ublk :=
  [UBlk 0x401000 100 (Some (0x401018, 100)); UBlk 0x40107C 32 (Some (0x401098, 16)); UBlk 0x4010B4 3892 None].

Lemma dealloc_correct_witness : exists s' l',
  dealloc 0x401098 two_areas = Some s' /\ rep l' s' /\ owners two_blocks ≡ₚ (0x401098, 16) :: owners l' /\
    HEAD s' = 0x401000 /\ HEAP_END s' = 0x402000 /\
    (owners l' = [] -> l' = [UBlk 0x401000 (0x402000 - 0x401000 - HEADER_SIZE) None]).
Proof.
  apply (dealloc_correct two_blocks two_areas 0x401098 16); [| done | right; left].
  constructor; [done | | | done | done | by split_and!].
  - simpl. split_and!; try done. exists 0x40107C. split; [done |]. split; [done |]. exists 0x4010B4. split; [done |].
    split; [done |]. by exists 0.
  - split; [done |]. simpl. unfold own_ok, u_end, HEADER_SIZE; simpl. lia.
Defined.
