(* ===== verification/PortIO.v ===== *)
(** The port instructions of [src/src/io.rs] and the console as the drivers see
    them: a device, or the machine with all its devices, is a state [D] that every
    access may change. *)
From S2P Require Import Prelude.

(** [inb] to [outl] are one instruction each; what a device answers is its own. *)
Class PortIO (D : Type) := {
  inb : Z -> D -> Z * D; outb : Z -> Z -> D -> D;
  inw : Z -> D -> Z * D; outw : Z -> Z -> D -> D;
  inl : Z -> D -> Z * D; outl : Z -> Z -> D -> D }.

(** [vga::putchar], for the messages of the drivers. *)
Class Screen (D : Type) := vga_putchar : Z -> D -> D.

Definition vga_write_bytes {D} `{Screen D} (t : list Z) (d : D) : D := fold_left (fun d c => vga_putchar c d) t d.
Definition vga_puts {D} `{Screen D} (t : list Z) (d : D) : D := vga_write_bytes (cstr t) d.

(** [io_wait] *)
Definition io_wait {D} `{PortIO D} (d : D) : D := outb 0x80 0 d.
