(* ===== verification/Ata.v ===== *)
(** The ATA disk driver ([src/src/ata.rs]) over port accesses, and the proof
    that with a drive that follows the PIO protocol it is a [BlockDevice].

    A drive is a [PortIO] state with a view: task-file registers, the phase of the
    command, for how many more status reads it stays busy, and the medium.  The laws
    of [AtaDrive] are the PIO protocol for commands on one sector; a drive in memory
    satisfies them. *)
From Stdlib Require Import String.
From S2P Require Import Prelude StringRs PortIO Block.

Definition ATA_SECTOR_SIZE : Z := 512.
Definition ATA_DATA : Z := 0x1F0.
Definition ATA_SECT_COUNT : Z := 0x1F2.
Definition ATA_LBA_LOW : Z := 0x1F3.
Definition ATA_LBA_MID : Z := 0x1F4.
Definition ATA_LBA_HIGH : Z := 0x1F5.
Definition ATA_DRIVE_HEAD : Z := 0x1F6.
Definition ATA_STATUS : Z := 0x1F7.
Definition ATA_COMMAND : Z := 0x1F7.
Definition ATA_SR_BSY : Z := 0x80.
Definition ATA_SR_DRDY : Z := 0x40.
Definition ATA_SR_DRQ : Z := 0x08.
Definition ATA_SR_ERR : Z := 0x01.
Definition ATA_CMD_READ : Z := 0x20.
Definition ATA_CMD_WRITE : Z := 0x30.
Definition ATA_CMD_IDENTIFY : Z := 0xEC.
Definition ATA_CMD_FLUSH : Z := 0xE7.
Definition ATA_TIMEOUT : Z := 100000.

(** Bytes as little-endian 16-bit words: the buffer seen as [*mut u16]. *)
Fixpoint words_of (l : list Z) : list Z :=
  match l with a :: b :: l => (a + 256 * b) :: words_of l | _ => [] end.
Definition bytes_of (ws : list Z) : list Z := mjoin (map (le_bytes 2) ws).

Section driver.
Context {D : Type} `{PortIO D} `{Screen D}.

Record ata := Ata { ATA_PRESENT : Z; dev : D }.
Implicit Types (d : D) (a : ata).

(** [for _ in 0..ATA_TIMEOUT]: [test] is the body's [return]. *)
Fixpoint poll (n : nat) (test : Z -> option Z) d : Z * D :=
  match n with
  | O => (-1, d)
  | S n => let '(status, d) := inb ATA_STATUS d in match test status with Some r => (r, d) | None => poll n test d end
  end.

Definition clear (status bit : Z) : bool := Z.land status bit =? 0.

Definition test_bsy (status : Z) : option Z := if clear status ATA_SR_BSY then Some 0 else None.
Definition test_drq (status : Z) : option Z :=
  if negb (clear status ATA_SR_ERR) then Some (-1) else
  if clear status ATA_SR_BSY && negb (clear status ATA_SR_DRQ) then Some 0 else None.
Definition test_ready (status : Z) : option Z :=
  if negb (clear status ATA_SR_ERR) then Some (-1) else
  if clear status ATA_SR_BSY && negb (clear status ATA_SR_DRDY) then Some 0 else None.

Definition ata_wait_bsy d : Z * D := poll (Z.to_nat ATA_TIMEOUT) test_bsy d.
Definition ata_wait_drq d : Z * D := poll (Z.to_nat ATA_TIMEOUT) test_drq d.
Definition ata_wait_ready d : Z * D := poll (Z.to_nat ATA_TIMEOUT) test_ready d.

Definition ata_select_sector (lba : Z) d : D :=
  let d := outb ATA_DRIVE_HEAD (Z.lor 0xE0 (Z.land (Z.shiftr lba 24) 0x0F)) d in
  let d := outb ATA_SECT_COUNT 1 d in
  let d := outb ATA_LBA_LOW (Z.land lba 0xFF) d in
  let d := outb ATA_LBA_MID (Z.land (Z.shiftr lba 8) 0xFF) d in
  outb ATA_LBA_HIGH (Z.land (Z.shiftr lba 16) 0xFF) d.

(** [for _ in 0..256] around [inw] and around [outw]. *)
Fixpoint read_words (n : nat) d : list Z * D :=
  match n with O => ([], d) | S n => let '(w, d) := inw ATA_DATA d in let '(ws, d) := read_words n d in (w :: ws, d) end.
Fixpoint write_words (ws : list Z) d : D :=
  match ws with [] => d | w :: ws => write_words ws (outw ATA_DATA w d) end.

Definition init a : Z * ata :=
  let d := dev a in
  let fail msg d := (-1, Ata 0 (vga_puts (msg ++ [10]) d)) in
  let d := outb ATA_DRIVE_HEAD 0xE0 d in
  let d := outb ATA_SECT_COUNT 0 d in
  let d := outb ATA_LBA_LOW 0 d in
  let d := outb ATA_LBA_MID 0 d in
  let d := outb ATA_LBA_HIGH 0 d in
  let d := outb ATA_COMMAND ATA_CMD_IDENTIFY d in
  let '(status, d) := inb ATA_STATUS d in
  if status =? 0 then fail (str "ATA: no drive detected") d else
  let '(r, d) := ata_wait_bsy d in
  if r <? 0 then fail (str "ATA: timeout waiting for drive") d else
  let '(mid, d) := inb ATA_LBA_MID d in
  let '(high, d) := if negb (mid =? 0) then (1, d) else inb ATA_LBA_HIGH d in
  if negb (high =? 0) then fail (str "ATA: not an ATA drive") d else
  let '(r, d) := ata_wait_drq d in
  if r <? 0 then fail (str "ATA: IDENTIFY failed") d else
  let '(_, d) := read_words 256 d in
  (0, Ata 1 (vga_puts (str "ATA: drive detected" ++ [10]) d)).

(** The result and the bytes stored in the caller's buffer. *)
Definition read_sector (lba : Z) a : Z * list Z * ata :=
  if ATA_PRESENT a =? 0 then (-1, [], a) else
  let '(r, d) := ata_wait_ready (dev a) in
  if r <? 0 then (-1, [], Ata (ATA_PRESENT a) d) else
  let d := ata_select_sector lba d in
  let d := outb ATA_COMMAND ATA_CMD_READ d in
  let '(r, d) := ata_wait_drq d in
  if r <? 0 then (-1, [], Ata (ATA_PRESENT a) d) else
  let '(ws, d) := read_words 256 d in
  (0, bytes_of ws, Ata (ATA_PRESENT a) d).

Definition write_sector (lba : Z) (buf : list Z) a : Z * ata :=
  if ATA_PRESENT a =? 0 then (-1, a) else
  let '(r, d) := ata_wait_ready (dev a) in
  if r <? 0 then (-1, Ata (ATA_PRESENT a) d) else
  let d := ata_select_sector lba d in
  let d := outb ATA_COMMAND ATA_CMD_WRITE d in
  let '(r, d) := ata_wait_drq d in
  if r <? 0 then (-1, Ata (ATA_PRESENT a) d) else
  let d := write_words (take 256 (words_of buf)) d in
  let d := outb ATA_COMMAND ATA_CMD_FLUSH d in
  let '(r, d) := ata_wait_bsy d in
  if r <? 0 then (-1, Ata (ATA_PRESENT a) d) else (0, Ata (ATA_PRESENT a) d).

Fixpoint read_loop (n : nat) (lba : Z) a : Z * list Z * ata :=
  match n with
  | O => (0, [], a)
  | S n =>
      let '(r, l, a) := read_sector (u32 lba) a in
      if r <? 0 then (-1, l, a) else let '(r, l', a) := read_loop n (lba + 1) a in (r, l ++ l', a)
  end.
Definition read_sectors (lba count : Z) a : Z * list Z * ata := read_loop (Z.to_nat count) lba a.

Fixpoint write_loop (n : nat) (lba : Z) (buf : list Z) a : Z * ata :=
  match n with
  | O => (0, a)
  | S n =>
      let '(r, a) := write_sector (u32 lba) (take 512 buf) a in
      if r <? 0 then (-1, a) else write_loop n (lba + 1) (drop 512 buf) a
  end.
Definition write_sectors (lba count : Z) (buf : list Z) a : Z * ata := write_loop (Z.to_nat count) lba buf a.
End driver.
Arguments ata D : clear implicits.

(** ** Drives *)

Record regs := Regs { r_count : Z; r_low : Z; r_mid : Z; r_high : Z; r_head : Z }.

(** Waiting for a command; a command has failed; words to be read; words received
    for a sector. *)
Inductive phase := PIdle | PError | PIn (ws : list Z) | POut (lba : Z) (ws : list Z).

#[export] Instance phase_eq_dec : EqDecision phase.
Proof. solve_decision. Defined.

Definition set_reg (port v : Z) (r : regs) : regs :=
  if port =? ATA_SECT_COUNT then Regs v (r_low r) (r_mid r) (r_high r) (r_head r) else
  if port =? ATA_LBA_LOW then Regs (r_count r) v (r_mid r) (r_high r) (r_head r) else
  if port =? ATA_LBA_MID then Regs (r_count r) (r_low r) v (r_high r) (r_head r) else
  if port =? ATA_LBA_HIGH then Regs (r_count r) (r_low r) (r_mid r) v (r_head r) else
  if port =? ATA_DRIVE_HEAD then Regs (r_count r) (r_low r) (r_mid r) (r_high r) v else r.

Definition lba_of (r : regs) : Z := r_low r + 256 * r_mid r + 65536 * r_high r + 16777216 * Z.land (r_head r) 0x0F.
(** One sector, drive 0, LBA addressing. *)
Definition one_sector (r : regs) : Prop := r_count r = 1 /\ Z.land (r_head r) 0xF0 = 0xE0.

(** What a ready drive shows in its status register. *)
Definition status_of (p : phase) (st : Z) : Prop :=
  st <> 0 /\ Z.land st ATA_SR_BSY = 0 /\ Z.land st ATA_SR_DRDY <> 0 /\
  (Z.land st ATA_SR_ERR <> 0 <-> p = PError) /\
  (Z.land st ATA_SR_DRQ <> 0 <-> match p with PIn _ | POut _ _ => True | _ => False end).

Class AtaDrive (D : Type) `{PortIO D} `{Screen D} := {
  ad_regs : D -> regs; ad_phase : D -> phase; ad_delay : D -> nat; ad_size : D -> Z; ad_medium : D -> Z -> list Z;
  ad_sector : forall d x, sector (ad_medium d x);
  ad_same (d d' : D) : Prop := ad_size d' = ad_size d /\ forall x, ad_medium d' x = ad_medium d x;
  ad_soon (d : D) : Prop := Z.of_nat (ad_delay d) < ATA_TIMEOUT;
  (** The status register: busy and nothing else counts, then the phase. *)
  ad_busy : forall d n, ad_delay d = S n -> exists st d', inb ATA_STATUS d = (st, d') /\ st <> 0 /\
    Z.land st ATA_SR_BSY <> 0 /\ Z.land st ATA_SR_ERR = 0 /\ (ad_delay d' <= n)%nat /\
    ad_regs d' = ad_regs d /\ ad_phase d' = ad_phase d /\ ad_same d d';
  ad_ready : forall d, ad_delay d = 0%nat -> exists st d', inb ATA_STATUS d = (st, d') /\ status_of (ad_phase d) st /\
    ad_delay d' = 0%nat /\ ad_regs d' = ad_regs d /\ ad_phase d' = ad_phase d /\ ad_same d d';
  (** Registers. *)
  ad_outb : forall d port v, ad_delay d = 0%nat -> 0x1F2 <= port <= 0x1F6 ->
    let d' := outb port v d in
    ad_regs d' = set_reg port v (ad_regs d) /\ ad_phase d' = ad_phase d /\ ad_delay d' = 0%nat /\ ad_same d d';
  ad_inb : forall d, ad_delay d = 0%nat -> exists d1 d2, inb ATA_LBA_MID d = (r_mid (ad_regs d), d1) /\
    inb ATA_LBA_HIGH d = (r_high (ad_regs d), d2) /\ forall d', d' = d1 \/ d' = d2 ->
    ad_regs d' = ad_regs d /\ ad_phase d' = ad_phase d /\ ad_delay d' = 0%nat /\ ad_same d d';
  (** Commands. *)
  ad_read : forall d, ad_delay d = 0%nat -> ad_phase d = PIdle -> one_sector (ad_regs d) ->
    let d' := outb ATA_COMMAND ATA_CMD_READ d in let lba := lba_of (ad_regs d) in
    ad_phase d' = (if lba <? ad_size d then PIn (words_of (ad_medium d lba)) else PError) /\ ad_soon d' /\ ad_same d d';
  ad_write : forall d, ad_delay d = 0%nat -> ad_phase d = PIdle -> one_sector (ad_regs d) ->
    let d' := outb ATA_COMMAND ATA_CMD_WRITE d in let lba := lba_of (ad_regs d) in
    ad_phase d' = (if lba <? ad_size d then POut lba [] else PError) /\ ad_soon d' /\ ad_same d d';
  ad_identify : forall d, ad_delay d = 0%nat -> (ad_phase d = PIdle \/ ad_phase d = PError) ->
    let d' := outb ATA_COMMAND ATA_CMD_IDENTIFY d in exists ws, length ws = 256%nat /\
    ad_regs d' = ad_regs d /\ ad_phase d' = PIn ws /\ ad_soon d' /\ ad_same d d';
  ad_flush : forall d, ad_delay d = 0%nat -> ad_phase d = PIdle ->
    let d' := outb ATA_COMMAND ATA_CMD_FLUSH d in ad_phase d' = PIdle /\ ad_soon d' /\ ad_same d d';
  (** A drive that is busy ignores a command. *)
  ad_deaf : forall d n c, ad_delay d = S n ->
    let d' := outb ATA_COMMAND c d in
    ad_regs d' = ad_regs d /\ ad_phase d' = ad_phase d /\ ad_delay d' = ad_delay d /\ ad_same d d';
  (** Data. *)
  ad_inw : forall d w ws, ad_delay d = 0%nat -> ad_phase d = PIn (w :: ws) -> exists d', inw ATA_DATA d = (w, d') /\
    ad_same d d' /\ match ws with
                    | [] => ad_phase d' = PIdle /\ ad_soon d'
                    | _ => ad_phase d' = PIn ws /\ ad_delay d' = 0%nat
                    end;
  ad_outw : forall d lba ws w, ad_delay d = 0%nat -> ad_phase d = POut lba ws -> (length ws < 256)%nat ->
    let d' := outw ATA_DATA w d in ad_size d' = ad_size d /\
    if decide (length ws = 255)%nat
    then ad_phase d' = PIdle /\ ad_soon d' /\
         forall x, ad_medium d' x = if x =? lba then bytes_of (ws ++ [w]) else ad_medium d x
    else ad_phase d' = POut lba (ws ++ [w]) /\ ad_delay d' = 0%nat /\ forall x, ad_medium d' x = ad_medium d x;
  (** The console is another device. *)
  ad_screen : forall d c, let d' := vga_putchar c d in
    ad_regs d' = ad_regs d /\ ad_phase d' = ad_phase d /\ ad_delay d' = ad_delay d /\ ad_same d d'
}.

Section correctness.
Context {D : Type} `{AtaDrive D}.
Implicit Types (d : D) (a : ata D).

Lemma ad_same_refl d : ad_same d d.
Proof. by split. Qed.
Lemma ad_same_trans d1 d2 d3 : ad_same d1 d2 -> ad_same d2 d3 -> ad_same d1 d3.
Proof. intros [E1 M1] [E2 M2]. split; [congruence |]. intros x. by rewrite M2. Qed.

(** A loop over the status register that ignores busy reads ends with the
    verdict on the first other one. *)
Lemma poll_spec test r n d :
  (ad_delay d < n)%nat ->
  (forall st, Z.land st ATA_SR_BSY <> 0 -> Z.land st ATA_SR_ERR = 0 -> test st = None) ->
  (forall st, status_of (ad_phase d) st -> test st = Some r) ->
  exists d', poll n test d = (r, d') /\ ad_delay d' = 0%nat /\ ad_regs d' = ad_regs d /\
    ad_phase d' = ad_phase d /\ ad_same d d'.
Proof.
  intros Hn Hbusy. revert d Hn. induction n as [| n IH]; intros d Hn Hst; [lia |]. cbn [poll].
  destruct (ad_delay d) as [| k] eqn:Ed.
  - destruct (ad_ready d Ed) as (st & d' & -> & Hs & ?). rewrite (Hst st Hs). eauto.
  - destruct (ad_busy d k Ed) as (st & d1 & -> & _ & Hb & He & Hk & Hr & Hp & Hsame). rewrite (Hbusy st Hb He).
    destruct (IH d1) as (d' & -> & Hd' & Hr' & Hp' & Hs'); [lia | by rewrite Hp |].
    exists d'. split_and!; try congruence. by eapply ad_same_trans.
Qed.

Lemma soon_fuel d : ad_soon d -> (ad_delay d < Z.to_nat ATA_TIMEOUT)%nat.
Proof. unfold ad_soon. lia. Qed.

(** FLUSH, heard by a drive that is ready or lost on one that is busy. *)
Lemma flush_spec d : ad_phase d = PIdle -> ad_soon d ->
  let d' := outb ATA_COMMAND ATA_CMD_FLUSH d in ad_phase d' = PIdle /\ ad_soon d' /\ ad_same d d'.
Proof.
  intros Hp Hs. destruct (ad_delay d) as [| n] eqn:Ed; [by apply ad_flush |].
  destruct (ad_deaf d n ATA_CMD_FLUSH Ed) as (_ & Hp' & Hd' & Hsm). split; [congruence |]. split; [| done].
  unfold ad_soon in *. by rewrite Hd'.
Qed.

(** The waits, by the phase of the drive. *)
Definition settled d d' : Prop :=
  ad_delay d' = 0%nat /\ ad_regs d' = ad_regs d /\ ad_phase d' = ad_phase d /\ ad_same d d'.

Ltac status_bits :=
  intros st; unfold status_of, test_bsy, test_drq, test_ready, clear; intros (_ & Hb & Hr & He & Hq);
  rewrite ?Hb; cbn [Z.eqb andb];
  repeat match goal with |- context [Z.eqb ?x 0] => destruct (Z.eqb_spec x 0) end; cbn [negb]; (done || (exfalso; naive_solver)).

Lemma wait_bsy_spec d : ad_soon d -> exists d', ata_wait_bsy d = (0, d') /\ settled d d'.
Proof.
  intros Hs. apply poll_spec; [by apply soon_fuel | |].
  - intros st Hb _. unfold test_bsy, clear. by rewrite (proj2 (Z.eqb_neq _ _) Hb).
  - intros st (_ & Hb & _). unfold test_bsy, clear. by rewrite Hb.
Qed.

Lemma wait_ready_spec d : ad_soon d -> ad_phase d = PIdle \/ ad_phase d = PError ->
  exists d', ata_wait_ready d = (if decide (ad_phase d = PIdle) then 0 else -1, d') /\ settled d d'.
Proof.
  intros Hs Hp. apply poll_spec; [by apply soon_fuel | |].
  - intros st Hb He. unfold test_ready, clear. by rewrite He, (proj2 (Z.eqb_neq _ _) Hb).
  - destruct Hp as [-> | ->]; [rewrite decide_True by done | rewrite decide_False by done]; status_bits.
Qed.

Definition asks (p : phase) : bool := match p with PIn _ | POut _ _ => true | _ => false end.

Lemma wait_drq_spec d : ad_soon d -> ad_phase d <> PIdle ->
  exists d', ata_wait_drq d = (if asks (ad_phase d) then 0 else -1, d') /\ settled d d'.
Proof.
  intros Hs Hp. apply poll_spec; [by apply soon_fuel | |].
  - intros st Hb He. unfold test_drq, clear. by rewrite He, (proj2 (Z.eqb_neq _ _) Hb).
  - destruct (ad_phase d) eqn:E; cbn [asks]; [done | status_bits..].
Qed.

Lemma land_low x n : 0 <= n -> Z.land x (Z.ones n) = x mod 2 ^ n.
Proof. intros. by apply Z.land_ones. Qed.

(** The five writes to the task file. *)
Lemma task_file d h c l m g : ad_delay d = 0%nat ->
  let d' := outb ATA_LBA_HIGH g (outb ATA_LBA_MID m (outb ATA_LBA_LOW l (outb ATA_SECT_COUNT c (outb ATA_DRIVE_HEAD h d)))) in
  ad_regs d' = Regs c l m g h /\ ad_phase d' = ad_phase d /\ ad_delay d' = 0%nat /\ ad_same d d'.
Proof.
  intros Hd. cbv zeta.
  destruct (ad_outb d ATA_DRIVE_HEAD h Hd) as (R1 & P1 & D1 & S1); [done |]. set (d1 := outb ATA_DRIVE_HEAD h d) in *.
  destruct (ad_outb d1 ATA_SECT_COUNT c D1) as (R2 & P2 & D2 & S2); [done |]. set (d2 := outb ATA_SECT_COUNT c d1) in *.
  destruct (ad_outb d2 ATA_LBA_LOW l D2) as (R3 & P3 & D3 & S3); [done |]. set (d3 := outb ATA_LBA_LOW l d2) in *.
  destruct (ad_outb d3 ATA_LBA_MID m D3) as (R4 & P4 & D4 & S4); [done |]. set (d4 := outb ATA_LBA_MID m d3) in *.
  destruct (ad_outb d4 ATA_LBA_HIGH g D4) as (R5 & P5 & D5 & S5); [done |].
  split; [rewrite R5, R4, R3, R2, R1; by destruct (ad_regs d) |].
  split; [congruence | split; [done |]]. eauto using ad_same_trans.
Qed.

(** The task file addresses one sector by 28 bits. *)
Lemma select_spec lba d : 0 <= lba -> ad_delay d = 0%nat ->
  let d' := ata_select_sector lba d in
  one_sector (ad_regs d') /\ lba_of (ad_regs d') = lba mod 2 ^ 28 /\ ad_phase d' = ad_phase d /\
  ad_delay d' = 0%nat /\ ad_same d d'.
Proof.
  intros Hl Hd. unfold ata_select_sector. cbv zeta.
  destruct (task_file d (Z.lor 0xE0 (Z.land (Z.shiftr lba 24) 0x0F)) 1 (Z.land lba 0xFF)
              (Z.land (Z.shiftr lba 8) 0xFF) (Z.land (Z.shiftr lba 16) 0xFF) Hd) as (Hr & Hp & Hd' & Hs).
  rewrite Hr. split; [split; [done |] | split; [| split; [done | split; done]]].
  - cbn [r_head]. rewrite Z.land_lor_distr_l, <- Z.land_assoc. change (Z.land 0x0F 0xF0) with 0.
    by rewrite Z.land_0_r.
  - unfold lba_of. cbn [r_low r_mid r_high r_head]. rewrite Z.land_lor_distr_l, <- Z.land_assoc.
    change (Z.land 0xE0 0x0F) with 0. change (Z.land 0x0F 0x0F) with (Z.ones 4). change 0xFF with (Z.ones 8).
    rewrite Z.lor_0_l, !land_low, !Z.shiftr_div_pow2 by lia. change (2 ^ 28) with 268435456.
    change (2 ^ 4) with 16. change (2 ^ 8) with 256. change (2 ^ 24) with 16777216. change (2 ^ 16) with 65536. mod_lia.
Qed.

(** The words of a sector, in and out. *)
Lemma read_words_spec n : forall d ws, ad_delay d = 0%nat -> ad_phase d = PIn ws -> length ws = S n ->
  exists d', read_words (S n) d = (ws, d') /\ ad_phase d' = PIdle /\ ad_soon d' /\ ad_same d d'.
Proof.
  induction n as [| n IH]; intros d [| w ws] Hd Hp Hl; try done; cbn [read_words]; simpl in Hl.
  - destruct ws; [| done]. destruct (ad_inw d w [] Hd Hp) as (d' & -> & Hs & Hp' & Hs'). eauto.
  - destruct (ad_inw d w ws Hd Hp) as (d1 & -> & Hs & Hw). destruct ws as [| w' ws]; [done |]. destruct Hw as [Hp1 Hd1].
    destruct (IH d1 _ Hd1 Hp1) as (d' & E & Hp' & Hs' & Hsm); [simpl in *; lia |]. cbn [read_words] in E. rewrite E.
    exists d'. split_and!; try done. by eapply ad_same_trans.
Qed.

Lemma write_words_spec lba : forall ws d sent, ad_delay d = 0%nat -> ad_phase d = POut lba sent -> ws <> [] ->
  (length sent + length ws = 256)%nat ->
  let d' := write_words ws d in ad_phase d' = PIdle /\ ad_soon d' /\ ad_size d' = ad_size d /\
    forall x, ad_medium d' x = if x =? lba then bytes_of (sent ++ ws) else ad_medium d x.
Proof.
  induction ws as [| w ws IH]; intros d sent Hd Hp Hne Hl; [done |]. cbn [write_words]. simpl in Hl.
  destruct (ad_outw d lba sent w Hd Hp) as (Hsz & Hw); [lia |]. destruct ws as [| w' ws].
  - rewrite decide_True in Hw by (simpl in Hl; lia). tauto.
  - rewrite decide_False in Hw by (simpl in Hl; lia). destruct Hw as (Hp1 & Hd1 & Hm1).
    destruct (IH (outw ATA_DATA w d) (sent ++ [w]) Hd1 Hp1) as (Hp' & Hs' & Hz & Hm);
      [done | rewrite length_app; simpl in *; lia |].
    cbn [write_words] in *. split_and!; try done; [congruence |]. intros x. rewrite Hm, Hm1, <- app_assoc. done.
Qed.
End correctness.

Lemma words_bytes n : forall l, length l = (2 * n)%nat -> byte_list l ->
  bytes_of (words_of l) = l /\ length (words_of l) = n.
Proof.
  induction n as [| n IH]; intros l Hl Hb; [by destruct l |]. destruct l as [| a [| b l]]; simpl in Hl; try lia.
  apply Forall_cons in Hb as [Ha Hb]. apply Forall_cons in Hb as [Hb Hbl]. unfold is_byte in *.
  destruct (IH l) as [E1 E2]; [lia | done |]. cbn [words_of length]. split; [| by rewrite E2].
  change (bytes_of (a + 256 * b :: words_of l)) with (le_bytes 2 (a + 256 * b) ++ bytes_of (words_of l)).
  rewrite E1. cbn [le_bytes app].
  f_equal; [mod_lia |]. f_equal. mod_lia.
Qed.

Section device.
Context {D : Type} `{AtaDrive D}.
Implicit Types (d : D) (a : ata D).

(** Between two calls the drive waits for a command, or a command has failed and
    its error stays in the status register. *)
Definition idle a : Prop := ATA_PRESENT a <> 0 /\ ad_phase (dev a) = PIdle /\ ad_soon (dev a).
Definition failed a : Prop := ATA_PRESENT a <> 0 /\ ad_phase (dev a) = PError /\ ad_soon (dev a).
Definition same_disk a a' : Prop := ad_same (dev a) (dev a').

Lemma settled_soon d d' : settled d d' -> ad_soon d'.
Proof. intros [Hd _]. unfold ad_soon. rewrite Hd. done. Qed.

(** Up to the answer to a command, a transfer out of and into the drive go alike. *)
Lemma command_spec cmd lba d (ph : phase) :
  ad_soon d -> ad_phase d = PIdle -> 0 <= lba ->
  (forall d1, ad_delay d1 = 0%nat -> ad_phase d1 = PIdle -> one_sector (ad_regs d1) ->
     lba_of (ad_regs d1) = lba mod 2 ^ 28 -> ad_same d d1 ->
     let d' := outb ATA_COMMAND cmd d1 in ad_phase d' = ph /\ ad_soon d' /\ ad_same d1 d') -> ph <> PIdle ->
  exists d1 d2, ata_wait_ready d = (0, d1) /\
    ata_wait_drq (outb ATA_COMMAND cmd (ata_select_sector lba d1)) = (if asks ph then 0 else -1, d2) /\
    ad_delay d2 = 0%nat /\ ad_phase d2 = ph /\ ad_same d d2.
Proof.
  intros Hs Hp Hl Hcmd Hph. destruct (wait_ready_spec d Hs (or_introl Hp)) as (d1 & E1 & (Hd1 & _ & Hp1 & Hs1)).
  rewrite decide_True in E1 by done. exists d1. rewrite Hp in Hp1.
  destruct (select_spec lba d1 Hl Hd1) as (Ho & Hlba & Hp2 & Hd2 & Hs2).
  set (d2 := ata_select_sector lba d1) in *. rewrite Hp1 in Hp2.
  destruct (Hcmd d2 Hd2 Hp2 Ho Hlba) as (Hp3 & Hs3 & Hsm3); [by eapply ad_same_trans |].
  set (d3 := outb ATA_COMMAND cmd d2) in *.
  destruct (wait_drq_spec d3 Hs3) as (d4 & E4 & (Hd4 & _ & Hp4 & Hs4)); [congruence |]. rewrite Hp3 in E4, Hp4.
  exists d4. split_and!; try done. eauto using ad_same_trans.
Qed.

Lemma read_sector_in a lba : idle a -> 0 <= lba -> lba mod 2 ^ 28 < ad_size (dev a) ->
  exists a', read_sector lba a = (0, ad_medium (dev a) (lba mod 2 ^ 28), a') /\ idle a' /\ same_disk a a'.
Proof.
  intros (Hpr & Hp & Hs) Hl Hsz. unfold read_sector. rewrite (proj2 (Z.eqb_neq _ _) Hpr).
  set (ws := words_of (ad_medium (dev a) (lba mod 2 ^ 28))).
  destruct (command_spec ATA_CMD_READ lba (dev a) (PIn ws) Hs Hp Hl) as (d1 & d2 & E1 & E2 & Hd2 & Hp2 & Hs2); [| done |].
  { intros d Hd Hpd Ho Hlba [Hz Hm]. destruct (ad_read d Hd Hpd Ho) as (Hp' & Hs' & Hsm').
    rewrite Hlba, Hz, (proj2 (Z.ltb_lt _ _) Hsz), Hm in Hp'. done. }
  rewrite E1. cbn [Z.ltb Z.compare]. rewrite E2. cbn [asks]. change (0 <? 0) with false. cbn iota.
  destruct (ad_sector (dev a) (lba mod 2 ^ 28)) as [Hlen Hbytes].
  destruct (words_bytes 256 _ Hlen Hbytes) as [Eb Ew].
  destruct (read_words_spec 255 d2 ws Hd2 Hp2 Ew) as (d' & -> & Hp' & Hs' & Hsm').
  fold ws in Eb. eexists. split; [by rewrite Eb |]. split; [done |]. unfold same_disk. simpl. by eapply ad_same_trans.
Qed.

Lemma write_sector_in a lba l : idle a -> 0 <= lba -> lba mod 2 ^ 28 < ad_size (dev a) -> sector l ->
  exists a', write_sector lba l a = (0, a') /\ idle a' /\ ad_size (dev a') = ad_size (dev a) /\
    forall x, ad_medium (dev a') x = if x =? lba mod 2 ^ 28 then l else ad_medium (dev a) x.
Proof.
  intros (Hpr & Hp & Hs) Hl Hsz [Hlen Hbytes]. unfold write_sector. rewrite (proj2 (Z.eqb_neq _ _) Hpr).
  destruct (command_spec ATA_CMD_WRITE lba (dev a) (POut (lba mod 2 ^ 28) []) Hs Hp Hl)
    as (d1 & d2 & E1 & E2 & Hd2 & Hp2 & [Hz2 Hm2]); [| done |].
  { intros d Hd Hpd Ho Hlba [Hz Hm]. destruct (ad_write d Hd Hpd Ho) as (Hp' & Hs' & Hsm').
    rewrite Hlba, Hz, (proj2 (Z.ltb_lt _ _) Hsz) in Hp'. done. }
  rewrite E1. cbn [Z.ltb Z.compare]. rewrite E2. cbn [asks]. change (0 <? 0) with false. cbn iota.
  destruct (words_bytes 256 _ Hlen Hbytes) as [Eb Ew].
  assert (Et : take 256 (words_of l) = words_of l) by (apply take_ge; lia). rewrite Et.
  destruct (write_words_spec (lba mod 2 ^ 28) (words_of l) d2 [] Hd2 Hp2) as (Hp3 & Hs3 & Hz3 & Hm3);
    [intros E; by rewrite E in Ew | by rewrite Ew |].
  set (d3 := write_words (words_of l) d2) in *. cbn [app] in Hm3. rewrite Eb in Hm3.
  destruct (flush_spec d3 Hp3 Hs3) as (Hp4 & Hs4 & [Hz4 Hm4]). set (d4 := outb ATA_COMMAND ATA_CMD_FLUSH d3) in *.
  destruct (wait_bsy_spec d4 Hs4) as (d5 & -> & Hset). pose proof (settled_soon _ _ Hset).
  destruct Hset as (Hd5 & _ & Hp5 & [Hz5 Hm5]). change (0 <? 0) with false. cbn iota.
  eexists. split; [done |]. split; [split; [done | split; [simpl; congruence | done]] |].
  split; [simpl; congruence |]. intros x. simpl. by rewrite Hm5, Hm4, Hm3, Hm2.
Qed.

(** Past the end of the disk the drive refuses the command. *)
Lemma command_refused cmd lba a :
  idle a -> 0 <= lba -> ad_size (dev a) <= lba mod 2 ^ 28 -> cmd = ATA_CMD_READ \/ cmd = ATA_CMD_WRITE ->
  exists d1 d2, ata_wait_ready (dev a) = (0, d1) /\
    ata_wait_drq (outb ATA_COMMAND cmd (ata_select_sector lba d1)) = (-1, d2) /\
    ad_phase d2 = PError /\ ad_soon d2 /\ ad_same (dev a) d2.
Proof.
  intros (Hpr & Hp & Hs) Hl Hsz Hc.
  destruct (command_spec cmd lba (dev a) PError Hs Hp Hl) as (d1 & d2 & E1 & E2 & Hd2 & Hp2 & Hs2); [| done |].
  - intros d Hd Hpd Ho Hlba [Hz Hm].
    destruct Hc as [-> | ->]; [destruct (ad_read d Hd Hpd Ho) as (Hp' & ?) | destruct (ad_write d Hd Hpd Ho) as (Hp' & ?)];
      rewrite Hlba, Hz, (proj2 (Z.ltb_ge _ _) Hsz) in Hp'; done.
  - exists d1, d2. split_and!; try done. unfold ad_soon. by rewrite Hd2.
Qed.

Lemma failed_wait a : failed a -> exists d1, ata_wait_ready (dev a) = (-1, d1) /\ ad_phase d1 = PError /\
  ad_soon d1 /\ ad_same (dev a) d1.
Proof.
  intros (Hpr & Hp & Hs). destruct (wait_ready_spec (dev a) Hs (or_intror Hp)) as (d1 & E & Hset).
  pose proof (settled_soon _ _ Hset). destruct Hset as (Hd & _ & Hp' & Hsm). rewrite decide_False in E by congruence.
  exists d1. split_and!; try done. congruence.
Qed.

Lemma read_sector_out a lba : idle a -> 0 <= lba -> ad_size (dev a) <= lba mod 2 ^ 28 ->
  exists a', read_sector lba a = (-1, [], a') /\ failed a' /\ same_disk a a'.
Proof.
  intros Hi Hl Hsz. destruct (command_refused ATA_CMD_READ lba a Hi Hl Hsz) as (d1 & d2 & E1 & E2 & Hp & Hs & Hsm); [by left |].
  destruct Hi as (Hpr & _). unfold read_sector. rewrite (proj2 (Z.eqb_neq _ _) Hpr), E1.
  change (0 <? 0) with false. cbn iota. rewrite E2. change (-1 <? 0) with true. cbn iota. by eexists.
Qed.

Lemma write_sector_out a lba l : idle a -> 0 <= lba -> ad_size (dev a) <= lba mod 2 ^ 28 ->
  exists a', write_sector lba l a = (-1, a') /\ failed a' /\ same_disk a a'.
Proof.
  intros Hi Hl Hsz. destruct (command_refused ATA_CMD_WRITE lba a Hi Hl Hsz) as (d1 & d2 & E1 & E2 & Hp & Hs & Hsm); [by right |].
  destruct Hi as (Hpr & _). unfold write_sector. rewrite (proj2 (Z.eqb_neq _ _) Hpr), E1.
  change (0 <? 0) with false. cbn iota. rewrite E2. change (-1 <? 0) with true. cbn iota. by eexists.
Qed.

Lemma failed_stays a lba l : failed a ->
  (exists a', read_sector lba a = (-1, [], a') /\ failed a' /\ same_disk a a') /\
  (exists a', write_sector lba l a = (-1, a') /\ failed a' /\ same_disk a a').
Proof.
  intros Hf. destruct (failed_wait a Hf) as (d1 & E & Hp & Hs & Hsm). destruct Hf as (Hpr & _).
  unfold read_sector, write_sector. rewrite (proj2 (Z.eqb_neq _ _) Hpr), E. change (-1 <? 0) with true. cbn iota.
  split; by eexists.
Qed.

Lemma puts_keeps t d : let d' := vga_puts t d in
  ad_phase d' = ad_phase d /\ ad_delay d' = ad_delay d /\ ad_same d d'.
Proof.
  unfold vga_puts, vga_write_bytes. generalize (cstr t) as t'. clear t. intros t. cbv zeta. revert d. induction t as [| c t IH]; intros d; cbn [fold_left]; [by split_and! |].
  destruct (ad_screen d c) as (_ & Hp & Hd & Hs). destruct (IH (vga_putchar c d)) as (Hp' & Hd' & Hs').
  split; [congruence |]. split; [congruence |]. by eapply ad_same_trans.
Qed.

(** [init] finds the drive and clears an error. *)
Lemma init_spec a : ad_delay (dev a) = 0%nat -> ad_phase (dev a) = PIdle \/ ad_phase (dev a) = PError ->
  exists a', init a = (0, a') /\ idle a' /\ same_disk a a'.
Proof.
  intros Hd Hp. unfold init. cbv zeta.
  destruct (task_file (dev a) 0xE0 0 0 0 0 Hd) as (R1 & P1 & D1 & S1). set (d1 := outb ATA_LBA_HIGH 0 _) in *.
  destruct (ad_identify d1 D1) as (ws & Hws & R2 & P2 & So2 & S2); [by rewrite P1 |].
  set (d2 := outb ATA_COMMAND ATA_CMD_IDENTIFY d1) in *.
  assert (exists st d3, inb ATA_STATUS d2 = (st, d3) /\ st <> 0 /\ ad_soon d3 /\ ad_regs d3 = ad_regs d2 /\
    ad_phase d3 = ad_phase d2 /\ ad_same d2 d3) as (st & d3 & -> & Hst & So3 & R3 & P3 & S3).
  { destruct (ad_delay d2) as [| n] eqn:Ed.
    - destruct (ad_ready d2 Ed) as (st & d3 & E & (Hst & _) & Hd3 & R3 & P3 & S3). exists st, d3.
      split_and!; try done. unfold ad_soon. by rewrite Hd3.
    - destruct (ad_busy d2 n Ed) as (st & d3 & E & Hst & _ & _ & Hd3 & R3 & P3 & S3). exists st, d3.
      split_and!; try done. unfold ad_soon in *. lia. }
  rewrite (proj2 (Z.eqb_neq _ _) Hst).
  destruct (wait_bsy_spec d3 So3) as (d4 & -> & (D4 & R4 & P4 & S4)). change (0 <? 0) with false. cbn iota.
  assert (Hr4 : ad_regs d4 = Regs 0 0 0 0 0xE0) by congruence.
  destruct (ad_inb d4 D4) as (d5 & dx & E5 & _ & K5). rewrite E5, Hr4. cbn [r_mid]. change (0 =? 0) with true. cbn [negb].
  destruct (K5 d5) as (R5 & P5 & D5 & S5); [by left |].
  destruct (ad_inb d5 D5) as (dy & d6 & _ & E6 & K6). rewrite E6, R5, Hr4. cbn [r_high]. change (0 =? 0) with true. cbn [negb].
  destruct (K6 d6) as (R6 & P6 & D6 & S6); [by right |].
  destruct (wait_drq_spec d6) as (d7 & E7 & (D7 & R7 & P7 & S7)); [unfold ad_soon; by rewrite D6 | congruence |].
  rewrite E7. assert (Hp6 : ad_phase d6 = PIn ws) by congruence. rewrite Hp6. cbn [asks].
  change (0 <? 0) with false. cbn iota.
  destruct (read_words_spec 255 d7 ws D7) as (d8 & E8 & P8 & So8 & S8); [congruence | done |]. rewrite E8.
  destruct (puts_keeps (str "ATA: drive detected" ++ [10]) d8) as (P9 & D9 & S9).
  eexists. split; [done |]. unfold idle, same_disk. cbn [dev ATA_PRESENT].
  split; [split; [done | split; [congruence | unfold ad_soon in *; by rewrite D9]] |].
  eauto 12 using ad_same_trans.
Qed.

(** C32: A detected drive that waits for a command, and is never busy for [ATA_TIMEOUT]
    status reads on end (a law of [AtaDrive], so no wait of the driver times out).  The
    driver addresses a sector by the low 28 bits of its number.  If these lie inside the
    disk, a read returns the sector and a write replaces it and no other, for the reads
    that follow; if not, the access is refused and the error then makes every access
    fail, until [init] is called on a drive that is not busy.  So below 2^28 out-of-range
    sectors are refused, while sector 2^28 is served as sector 0. *)
Theorem ata_driver_correct a lba l :
  0 <= lba < 2 ^ 32 -> sector l -> idle a ->
  (lba mod 2 ^ 28 < ad_size (dev a) ->
     (exists a', read_sector lba a = (0, ad_medium (dev a) (lba mod 2 ^ 28), a') /\ idle a' /\ same_disk a a') /\
     (exists a', write_sector lba l a = (0, a') /\ idle a' /\ ad_size (dev a') = ad_size (dev a) /\
        forall x, ad_medium (dev a') x = if x =? lba mod 2 ^ 28 then l else ad_medium (dev a) x)) /\
  (ad_size (dev a) <= lba mod 2 ^ 28 ->
     (exists a', read_sector lba a = (-1, [], a') /\ failed a' /\ same_disk a a') /\
     (exists a', write_sector lba l a = (-1, a') /\ failed a' /\ same_disk a a')) /\
  (forall a1 x, failed a1 -> exists a2 a3,
     read_sector x a1 = (-1, [], a2) /\ failed a2 /\ same_disk a1 a2 /\
     write_sector x l a1 = (-1, a3) /\ failed a3 /\ same_disk a1 a3) /\
  (forall a1, failed a1 -> ad_delay (dev a1) = 0%nat -> exists a2, init a1 = (0, a2) /\ idle a2 /\ same_disk a1 a2).
Proof.
  intros Hl Hs Hi. split_and!.
  - intros Hsz. split; [apply read_sector_in | apply write_sector_in]; done || lia.
  - intros Hsz. split; [apply read_sector_out | apply write_sector_out]; done || lia.
  - intros a1 x Hf. destruct (failed_stays a1 x l Hf) as [(a2 & ?) (a3 & ?)]. exists a2, a3. tauto.
  - intros a1 (_ & Hp & _) Hd. apply init_spec; auto.
Qed.

(** ** The driver as a block device *)

Definition steady a : Prop := ATA_PRESENT a = 0 \/ idle a \/ failed a.

Lemma read_steady a lba : steady a -> steady (read_sector (u32 lba) a).2.
Proof.
  intros [Hp | [Hi | Hf]].
  - unfold read_sector. rewrite Hp. by left.
  - destruct (u32_range lba) as [Hl _]. destruct (Z.lt_ge_cases (u32 lba mod 2 ^ 28) (ad_size (dev a))).
    + destruct (read_sector_in a (u32 lba)) as (a' & -> & ?); auto. right. left. tauto.
    + destruct (read_sector_out a (u32 lba)) as (a' & -> & ?); auto. right. right. tauto.
  - destruct (failed_stays a (u32 lba) [] Hf) as [(a' & -> & ?) _]. right. right. tauto.
Qed.

Lemma write_steady a lba l : steady a -> sector l -> steady (write_sector (u32 lba) l a).2.
Proof.
  intros [Hp | [Hi | Hf]] Hs.
  - unfold write_sector. rewrite Hp. by left.
  - destruct (u32_range lba) as [Hl _]. destruct (Z.lt_ge_cases (u32 lba mod 2 ^ 28) (ad_size (dev a))).
    + destruct (write_sector_in a (u32 lba) l) as (a' & -> & ?); auto. right. left. tauto.
    + destruct (write_sector_out a (u32 lba) l) as (a' & -> & ?); auto. right. right. tauto.
  - destruct (failed_stays a (u32 lba) l Hf) as [_ (a' & -> & ?)]. right. right. tauto.
Qed.
End device.

#[export] Instance sector_dec l : Decision (sector l).
Proof. unfold sector, byte_list, is_byte. apply _. Defined.

Record ata_disk (D : Type) `{AtaDrive D} := AtaDisk { ad_dev : ata D; ad_steady : steady ad_dev }.
Arguments AtaDisk {D _ _ _}.
Arguments ad_dev {D _ _ _}.
Arguments ad_steady {D _ _ _}.

Section block.
Context {D : Type} `{AtaDrive D}.
Implicit Types k : ata_disk D.

Definition disk_read (lba : Z) k : option (list Z) * ata_disk D :=
  let r := read_sector (u32 lba) (ad_dev k) in
  (if r.1.1 <? 0 then None else Some r.1.2, AtaDisk r.2 (read_steady _ lba (ad_steady k))).

(** A caller's buffer is a sector. *)
Definition disk_write (lba : Z) (l : list Z) k : bool * ata_disk D :=
  match decide (sector l) with
  | left Hl =>
      let r := write_sector (u32 lba) l (ad_dev k) in
      (0 <=? r.1, AtaDisk r.2 (write_steady _ lba l (ad_steady k) Hl))
  | right _ => (false, k)
  end.

(** The sectors that 28 bits address. *)
Definition disk_size k : Z := Z.min (2 ^ 28) (ad_size (dev (ad_dev k))).

Lemma disk_lba lba : 0 <= lba < 2 ^ 28 -> u32 lba = lba /\ lba mod 2 ^ 28 = lba.
Proof.
  intros Hl. assert (2 ^ 28 = 268435456) as Epow by reflexivity.
  rewrite u32_small, Z.mod_small by lia. done.
Qed.

Lemma disk_read_law lba k : idle (ad_dev k) -> 0 <= lba < disk_size k ->
  exists k', disk_read lba k = (Some (ad_medium (dev (ad_dev k)) lba), k') /\ idle (ad_dev k') /\
    disk_size k' = disk_size k /\ forall x, ad_medium (dev (ad_dev k')) x = ad_medium (dev (ad_dev k)) x.
Proof.
  unfold disk_size. intros Hi Hl. destruct (disk_lba lba) as (Hu & Hm); [lia |]. unfold disk_read. cbv zeta.
  generalize (read_steady (ad_dev k) lba (ad_steady k)). rewrite Hu.
  destruct (read_sector_in (ad_dev k) lba Hi) as (a' & -> & Hi' & [Hz Hd]); [lia | rewrite Hm; lia |]. rewrite Hm. cbn [fst snd].
  intros St. eexists. split; [done |]. split; [done |]. split; [simpl; by rewrite Hz | done].
Qed.

Lemma disk_write_law lba l k : idle (ad_dev k) -> 0 <= lba < disk_size k -> sector l ->
  exists k', disk_write lba l k = (true, k') /\ idle (ad_dev k') /\ disk_size k' = disk_size k /\
    forall x, ad_medium (dev (ad_dev k')) x = if x =? lba then l else ad_medium (dev (ad_dev k)) x.
Proof.
  unfold disk_size. intros Hi Hl Hsec. destruct (disk_lba lba) as (Hu & Hm); [lia |]. unfold disk_write.
  destruct (decide (sector l)) as [Hl' |]; [| done]. cbv zeta. generalize (write_steady (ad_dev k) lba l (ad_steady k) Hl').
  rewrite Hu. destruct (write_sector_in (ad_dev k) lba l Hi) as (a' & -> & Hi' & Hz & Hd); [lia | rewrite Hm; lia | done |].
  rewrite Hm in Hd. cbn [fst snd]. intros St. eexists. split; [done |]. split; [done |].
  split; [simpl; by rewrite Hz | done].
Qed.

Lemma disk_write_out lba l k : idle (ad_dev k) -> 0 <= lba < 2 ^ 28 -> disk_size k <= lba -> sector l ->
  exists k', disk_write lba l k = (false, k') /\ disk_size k' = disk_size k /\
    forall x, ad_medium (dev (ad_dev k')) x = ad_medium (dev (ad_dev k)) x.
Proof.
  unfold disk_size. intros Hi Hl Hge Hsec.
  destruct (disk_lba lba) as (Hu & Hm); [done |]. unfold disk_write.
  destruct (decide (sector l)) as [Hl' |]; [| done]. cbv zeta. generalize (write_steady (ad_dev k) lba l (ad_steady k) Hl').
  rewrite Hu. destruct (write_sector_out (ad_dev k) lba l Hi) as (a' & -> & _ & [Hz Hd]); [lia | rewrite Hm; lia |].
  cbn [fst snd]. intros St. eexists. split; [done |]. split; [simpl; by rewrite Hz | done].
Qed.

#[export] Instance ata_block_device : BlockDevice (ata_disk D) := {
  bd_read := disk_read; bd_write := disk_write; bd_size := disk_size;
  bd_data := fun k => ad_medium (dev (ad_dev k)); bd_ready := fun k => idle (ad_dev k);
  bd_sector := fun k => ad_sector (dev (ad_dev k)); bd_read_law := disk_read_law;
  bd_write_law := disk_write_law; bd_write_out := disk_write_out }.
End block.

(** ** A drive in memory *)

Record sim_drive := Sim { sm_regs : regs; sm_phase : phase; sm_delay : nat; sm_disk : ramdisk }.

(** Busy for at most three reads of the status register. *)
Definition sm_busy (d : sim_drive) : nat := Nat.min (sm_delay d) 3.

Definition sm_status (p : phase) : Z := match p with PIdle => 0x50 | PError => 0x51 | _ => 0x58 end.

Definition sm_command (c : Z) (d : sim_drive) : sim_drive :=
  let lba := lba_of (sm_regs d) in
  let inside := lba <? rd_size (sm_disk d) in
  let phase :=
    if c =? ATA_CMD_READ then if inside then PIn (words_of (rd_sector (sm_disk d) lba)) else PError else
    if c =? ATA_CMD_WRITE then if inside then POut lba [] else PError else
    if c =? ATA_CMD_IDENTIFY then PIn (replicate 256 0) else
    if c =? ATA_CMD_FLUSH then PIdle else PError in
  Sim (sm_regs d) phase 3 (sm_disk d).

Definition sm_outb (port v : Z) (d : sim_drive) : sim_drive :=
  match sm_busy d with
  | S _ => d
  | O => if port =? ATA_COMMAND then sm_command v d
         else Sim (set_reg port v (sm_regs d)) (sm_phase d) 0 (sm_disk d)
  end.

Definition sm_inb (port : Z) (d : sim_drive) : Z * sim_drive :=
  if port =? ATA_STATUS then
    match sm_busy d with
    | S n => (0x80, Sim (sm_regs d) (sm_phase d) n (sm_disk d))
    | O => (sm_status (sm_phase d), d)
    end
  else (if port =? ATA_LBA_MID then r_mid (sm_regs d) else if port =? ATA_LBA_HIGH then r_high (sm_regs d) else 0, d).

Definition sm_inw (port : Z) (d : sim_drive) : Z * sim_drive :=
  match sm_phase d with
  | PIn (w :: ws) => (w, Sim (sm_regs d) (match ws with [] => PIdle | _ => PIn ws end) 0 (sm_disk d))
  | _ => (0, d)
  end.

Definition sm_outw (port v : Z) (d : sim_drive) : sim_drive :=
  match sm_phase d with
  | POut lba ws =>
      if (length ws =? 255)%nat
      then Sim (sm_regs d) PIdle 3
             {| rd_size := rd_size (sm_disk d); rd_data := <[lba := bytes_of (ws ++ [v])]> (rd_data (sm_disk d)) |}
      else Sim (sm_regs d) (POut lba (ws ++ [v])) 0 (sm_disk d)
  | _ => d
  end.

#[export] Instance sim_ports : PortIO sim_drive := {
  inb := sm_inb; outb := sm_outb; inw := sm_inw; outw := sm_outw; inl := fun _ d => (0, d); outl := fun _ _ d => d }.
#[export] Instance sim_screen : Screen sim_drive := fun _ d => d.

Lemma length_bytes_of ws : length (bytes_of ws) = (2 * length ws)%nat.
Proof.
  induction ws as [| w ws IH]; [done |]. change (bytes_of (w :: ws)) with (le_bytes 2 w ++ bytes_of ws).
  rewrite length_app, length_le_bytes, IH. simpl. lia.
Qed.

Lemma bytes_of_sector ws : length ws = 256%nat -> sector (bytes_of ws).
Proof.
  intros Hl. split; [rewrite length_bytes_of; lia |]. clear Hl.
  induction ws as [| w ws IH]; [constructor |]. apply Forall_app_2; [apply le_bytes_byte_list | done].
Qed.

Lemma sm_status_ok p : status_of p (sm_status p).
Proof. unfold status_of, sm_status. destruct p; split_and!; try done; vm_compute; intuition congruence. Qed.

#[export] Instance sim_ata_drive : AtaDrive sim_drive.
Proof.
  refine {| ad_regs := sm_regs; ad_phase := sm_phase; ad_delay := sm_busy; ad_size := fun d => rd_size (sm_disk d);
            ad_medium := fun d => rd_sector (sm_disk d) |}.
  - intros d. apply rd_sector_ok.
  - intros d n Hd. exists 0x80, (Sim (sm_regs d) (sm_phase d) n (sm_disk d)). cbn. unfold sm_inb. cbn. rewrite Hd.
    split_and!; try done. unfold sm_busy. cbn. lia.
  - intros d Hd. exists (sm_status (sm_phase d)), d. cbn. unfold sm_inb. cbn. rewrite Hd.
    split_and!; try done; apply sm_status_ok.
  - intros d port v Hd Hp. cbn. unfold sm_outb. rewrite Hd, (proj2 (Z.eqb_neq port ATA_COMMAND)) by (unfold ATA_COMMAND; lia).
    by split_and!.
  - intros d Hd. exists d, d. split; [done |]. split; [done |]. intros d' [-> | ->]; by split_and!.
  - intros d Hd Hp Hr. cbn. unfold sm_outb. rewrite Hd. cbn. by split_and!.
  - intros d Hd Hp Hr. cbn. unfold sm_outb. rewrite Hd. cbn. by split_and!.
  - intros d Hd Hp. exists (replicate 256 0). cbn. unfold sm_outb. rewrite Hd. by split_and!.
  - intros d Hd Hp. cbn. unfold sm_outb. rewrite Hd. cbn. by split_and!.
  - intros d n c Hd. cbn. unfold sm_outb. rewrite Hd. by split_and!.
  - intros d w ws Hd Hp. cbn. unfold sm_inw. rewrite Hp. eexists. split; [done |]. split; [done |]. by destruct ws.
  - intros d lba ws w Hd Hp Hl. cbn. unfold sm_outw. rewrite Hp. case_decide as E.
    + rewrite (proj2 (Nat.eqb_eq _ _) E). cbn. split; [done |]. split; [done |]. split; [done |]. intros x.
      unfold rd_sector. cbn. destruct (Z.eqb_spec x lba) as [-> | Hne].
      * rewrite lookup_insert_eq. cbn [default from_option]. rewrite decide_True; [done |].
        apply bytes_of_sector. rewrite length_app. simpl. lia.
      * by rewrite lookup_insert_ne.
    + rewrite (proj2 (Nat.eqb_neq _ _) E). by split_and!.
  - by intros d c.
Defined.

(** A disk of 2048 sectors whose sixth holds sevens. *)
Definition sample_sector : list Z := replicate 512 7.
Definition sample_drive : ata sim_drive :=
  Ata 1 (Sim (Regs 0 0 0 0 0) PIdle 2 {| rd_size := 2048; rd_data := {[5 := sample_sector]} |}).

Lemma sample_idle : idle sample_drive.
Proof. by split_and!. Qed.

Lemma ata_driver_correct_witness : exists a',
  read_sector 5 sample_drive = (0, sample_sector, a') /\ idle a' /\ same_disk sample_drive a'.
Proof.
  destruct (ata_driver_correct sample_drive 5 sample_sector) as [Hin _].
  - lia.
  - split; [done | apply Forall_replicate; unfold is_byte; lia].
  - apply sample_idle.
  - destruct Hin as [Hr _]; [done | exact Hr].
Defined.

(** A read past the end fails, and so does every access after it. *)
Example error_sticks :
  (read_sector 9999 sample_drive).1 = (-1, []) /\
  (read_sector 5 (read_sector 9999 sample_drive).2).1 = (-1, []).
Proof. split; vm_compute; reflexivity. Qed.
