(* ===== verification/Term.v ===== *)
(** The terminal as the shell, the editor and the compiler's driver use it: keys
    one by one, lines with backspace, decimal numbers, colours.

    A read that waits for a key that never comes is [None]; the laws of [Typist]
    say which keys a console has left. *)
From S2P Require Import Prelude StringRs Heap VfsNode Initrd.

(** [vga::set_color]; the colours are their codes. *)
Class Colors (X : Type) := set_color : Z -> Z -> X -> X.

Definition Black : Z := 0.
Definition Cyan : Z := 3.
Definition LightGrey : Z := 7.
Definition LightGreen : Z := 10.
Definition LightCyan : Z := 11.

Class Typist (X : Type) `{Console X} `{Colors X} := {
  keys : X -> list Z;
  keys_getchar : forall x, match keys x with
    | [] => getchar x = None
    | c :: cs => exists x', getchar x = Some (c, x') /\ keys x' = cs
    end;
  keys_putchar : forall c x, keys (putchar c x) = keys x;
  keys_color : forall f b x, keys (set_color f b x) = keys x }.

(** A buffer seen as memory, for the string routines on pointers into it. *)
Definition mem_of (l : list Z) : mem := fun i => nth (Z.to_nat i) l 0.

Section term.
Context {H X : Type} `{KernelHeap H} `{Console X} `{Colors X}.
Implicit Types s : vfs H X.

Definition key s : option (Z * vfs H X) := '(c, x) ← getchar (ext s); Some (c, set_ext x s).
Definition echo (c : Z) s : vfs H X := set_ext (putchar c (ext s)) s.
Definition paint (fg bg : Z) s : vfs H X := set_ext (set_color fg bg (ext s)) s.

(** [vga::puts] of a buffer: up to the NUL. *)
Definition cputs (l : list Z) s : vfs H X := puts (cstr l) s.

(** The functions that print a [u32] in decimal. *)
Definition print_uint (v : Z) s : vfs H X := if v =? 0 then echo 48 s else puts (digits 12 v []) s.

(** A line into [buf] from index [len]; [cap - 1] characters are kept. *)
Fixpoint read_line (fuel : nat) (enter erase : Z -> bool) (cap : Z) (buf : list Z) (len : Z) s
    : option (list Z * Z * vfs H X) :=
  match fuel with
  | O => None
  | S fuel =>
      '(c, s) ← key s;
      if enter c then buf ← zset buf len 0; Some (buf, len, echo 10 s) else
      if erase c then
        if 0 <? len then read_line fuel enter erase cap buf (len - 1) (echo 8 s)
        else read_line fuel enter erase cap buf len s
      else if len <? cap - 1 then
        buf ← zset buf len c; read_line fuel enter erase cap buf (len + 1) (echo c s)
      else read_line fuel enter erase cap buf len s
  end.

(** *** What a line holds *)

(** The keys before the end of the line, edited. *)
Fixpoint line_edit (erase : Z -> bool) (cap : Z) (acc cs : list Z) : list Z :=
  match cs with
  | [] => acc
  | c :: cs =>
      if erase c then line_edit erase cap (removelast acc) cs else
      if Z.of_nat (length acc) <? cap - 1 then line_edit erase cap (acc ++ [c]) cs else line_edit erase cap acc cs
  end.

Lemma line_edit_length erase cap cs : forall acc,
  Z.of_nat (length acc) < cap -> Z.of_nat (length (line_edit erase cap acc cs)) < cap.
Proof.
  induction cs as [| c cs IH]; intros acc Ha; [done |]. cbn [line_edit].
  destruct (erase c); [| case_if; breflect]; apply IH; auto.
  - rewrite removelast_firstn_len, length_take. lia.
  - rewrite length_app. simpl. lia.
Qed.

(** Everything but the console is as it was. *)
Definition same_files s s' : Prop := s' = set_ext (ext s') s.

Lemma same_files_refl s : same_files s s.
Proof. by destruct s. Qed.
Lemma same_files_trans s1 s2 s3 : same_files s1 s2 -> same_files s2 s3 -> same_files s1 s3.
Proof. unfold same_files. intros E1 E2. rewrite E2, E1. done. Qed.
Lemma same_files_store s s' : same_files s s' -> store s' = store s.
Proof. by intros ->. Qed.
End term.

Section lines.
Context {H X : Type} `{KernelHeap H} `{Typist X}.
Implicit Types s : vfs H X.

Definition typed s : list Z := keys (ext s).

Lemma typed_echo c s : typed (echo c s) = typed s.
Proof. apply keys_putchar. Qed.
Lemma typed_paint f b s : typed (paint f b s) = typed s.
Proof. exact (keys_color f b (ext s)). Qed.
Lemma typed_puts t s : typed (puts t s) = typed s.
Proof.
  unfold typed, puts. cbn [ext set_ext]. generalize (ext s). induction t as [| c t IH]; intros x; [done |].
  cbn [fold_left]. by rewrite IH, keys_putchar.
Qed.
Lemma typed_cputs t s : typed (cputs t s) = typed s.
Proof. apply typed_puts. Qed.
Lemma typed_print_uint v s : typed (print_uint v s) = typed s.
Proof. unfold print_uint. case_if; [apply typed_echo | apply typed_puts]. Qed.

Lemma same_echo c s : same_files s (echo c s).
Proof. done. Qed.
Lemma same_puts t s : same_files s (puts t s).
Proof. done. Qed.
Lemma same_cputs t s : same_files s (cputs t s).
Proof. done. Qed.
Lemma same_paint f b s : same_files s (paint f b s).
Proof. done. Qed.
Lemma same_print_uint v s : same_files s (print_uint v s).
Proof. unfold print_uint. by case_if. Qed.

Lemma key_spec c cs s : typed s = c :: cs -> exists s', key s = Some (c, s') /\ typed s' = cs /\ same_files s s'.
Proof.
  unfold typed, key. intros E. pose proof (keys_getchar (ext s)) as Hk. rewrite E in Hk.
  destruct Hk as (x' & -> & Hx). cbn [mbind option_bind]. by eexists.
Qed.

(** A line is read up to its end; the buffer holds what was kept and a NUL. *)
Lemma read_line_spec enter erase cap e rest cs : forall fuel buf len s,
  typed s = cs ++ e :: rest -> enter e = true -> Forall (fun c => enter c = false) cs -> (length cs < fuel)%nat ->
  Z.of_nat (length buf) = cap -> 0 <= len < cap ->
  exists buf' s', let l := line_edit erase cap (take (Z.to_nat len) buf) cs in
    read_line fuel enter erase cap buf len s = Some (buf', Z.of_nat (length l), s') /\
    typed s' = rest /\ same_files s s' /\ length buf' = length buf /\ take (S (length l)) buf' = l ++ [0].
Proof.
  induction cs as [| c cs IH]; intros fuel buf len s Hk He Hcs Hf Hb Hl; (destruct fuel as [| fuel]; [simpl in Hf; lia |]);
    cbn [app] in Hk; destruct (key_spec _ _ _ Hk) as (s1 & E1 & T1 & S1); cbn [read_line]; rewrite E1; cbn [mbind option_bind line_edit].
  - rewrite He, zset_Some by lia. cbn [mbind option_bind]. eexists _, _. cbv zeta.
    assert (El : length (take (Z.to_nat len) buf) = Z.to_nat len) by (rewrite length_take; lia).
    split; [rewrite El, Z2Nat.id by lia; reflexivity |]. split; [by rewrite typed_echo |].
    split; [by eapply same_files_trans |]. split; [by rewrite length_insert |].
    rewrite El. erewrite take_S_r by (apply list_lookup_insert_eq; lia). by rewrite take_insert_ge by lia.
  - apply Forall_cons in Hcs as [Hc Hcs]. rewrite Hc. simpl in Hf. destruct (erase c).
    + destruct (Z.ltb_spec 0 len).
      * destruct (IH fuel buf (len - 1) (echo 8 s1)) as (buf' & s' & E & T & Sm & L & W);
          [by rewrite typed_echo | done | done | lia | done | lia |].
        assert (Er : removelast (take (Z.to_nat len) buf) = take (Z.to_nat (len - 1)) buf).
        { replace (Z.to_nat len) with (S (Z.to_nat (len - 1))) by lia. apply removelast_firstn. lia. }
        exists buf', s'. cbv zeta. rewrite Er. split_and!; try done. eapply same_files_trans; [exact S1 | exact Sm].
      * replace len with 0 in * by lia. destruct (IH fuel buf 0 s1) as (buf' & s' & E & T & Sm & L & W); [done.. | lia | done | lia |].
        exists buf', s'. split_and!; try done. by eapply same_files_trans.
    + assert (El : Z.of_nat (length (take (Z.to_nat len) buf)) = len) by (rewrite length_take; lia). rewrite El.
      destruct (Z.ltb_spec len (cap - 1)).
      * rewrite zset_Some by lia. cbn [mbind option_bind].
        destruct (IH fuel (<[Z.to_nat len := c]> buf) (len + 1) (echo c s1)) as (buf' & s' & E & T & Sm & L & W);
          [by rewrite typed_echo | done | done | lia | by rewrite length_insert | lia |].
        assert (Er : take (Z.to_nat (len + 1)) (<[Z.to_nat len := c]> buf) = take (Z.to_nat len) buf ++ [c]).
        { replace (Z.to_nat (len + 1)) with (S (Z.to_nat len)) by lia.
          erewrite take_S_r by (apply list_lookup_insert_eq; lia). by rewrite take_insert_ge by lia. }
        rewrite Er in E, W. rewrite length_insert in L.
        exists buf', s'. split_and!; try done. eapply same_files_trans; [exact S1 | exact Sm].
      * destruct (IH fuel buf len s1) as (buf' & s' & E & T & Sm & L & W); [done.. | lia | done | lia |].
        exists buf', s'. split_and!; try done. by eapply same_files_trans.
Qed.
End lines.

Create HintDb term.
#[export] Hint Resolve same_files_refl same_echo same_puts same_cputs same_paint same_print_uint : term.
