(* ===== verification/Editor.v ===== *)
(** The line editor ([src/src/editor.rs]): 256 lines of 80 bytes over the virtual
    file system and the console.

    [fuel] bounds the keys of a line, the lines of an insertion and the commands of
    a session; the number of keys typed is enough.  A line holds a C string: what the
    code sees of it is [cstr]. *)
From Stdlib Require Import String.
From S2P Require Import Prelude StringRs Heap VfsNode VfsStore Ramfs RamFiles Initrd Devfs Fat16Vfs Vfs VfsTree VfsMake Term.

Definition EDITOR_MAX_LINES : Z := 256.
Definition EDITOR_LINE_LEN : Z := 80.
Definition EDITOR_CMD_LEN : Z := 80.

Section code.
Context {H X : Type} `{KernelHeap H} `{Console X} `{Colors X} `{FatDisk X}.

Record ed := Ed { LINES : list (list Z); LINE_COUNT : Z; EDIT_FILENAME : list Z; fs : vfs H X }.
Implicit Types e : ed.

Definition set_fs (s : vfs H X) e : ed := Ed (LINES e) (LINE_COUNT e) (EDIT_FILENAME e) s.
Definition set_lines (l : list (list Z)) (n : Z) e : ed := Ed l n (EDIT_FILENAME e) (fs e).
Definition on_fs (f : vfs H X -> vfs H X) e : ed := set_fs (f (fs e)) e.
Definition say (t : list Z) e : ed := on_fs (puts t) e.

Definition ed_print_uint (val : Z) e : ed := on_fs (print_uint val) e.

(** The digits go into an array of 4: a fifth is out of range. *)
Definition ed_print_uint3 (val : Z) e : option ed :=
  if val <=? 0 then Some (say (str "  0") e) else
  if 9999 <? val then None else
  let ds := digits 4 val [] in Some (say (replicate (3 - List.length ds) 32 ++ ds) e).

Definition editor_readline (fuel : nat) (buf : list Z) e : option (list Z * ed) :=
  '(buf, _, s) ← read_line fuel (fun c => c =? 10) (fun c => c =? 8) EDITOR_CMD_LEN buf 0 (fs e);
  Some (buf, set_fs s e).

(** ** Operations *)

Definition print_one (i : Z) e : option ed :=
  e ← ed_print_uint3 (i + 1) e;
  l ← zget (LINES e) i;
  Some (say [10] (on_fs (cputs l) (say (str ": ") e))).

Fixpoint print_loop (n : nat) (i : Z) e : option ed :=
  match n with O => Some e | S n => e ← print_one i e; print_loop n (i + 1) e end.

Definition editor_print_all e : option ed :=
  if LINE_COUNT e =? 0 then Some (say (str "(empty buffer)" ++ [10]) e) else print_loop (Z.to_nat (LINE_COUNT e)) 0 e.

Definition out_of_range e : ed :=
  say (str ")" ++ [10]) (ed_print_uint (u32 (LINE_COUNT e)) (say (str "Error: line number out of range (1-") e)).

Definition editor_print_line (n : Z) e : option ed :=
  if (n <? 1) || (LINE_COUNT e <? n) then Some (out_of_range e) else print_one (n - 1) e.

(** [LINES[i] = LINES[i + 1]] for [n] lines from the [i]th. *)
Fixpoint shift_up (n : nat) (i : Z) (l : list (list Z)) : option (list (list Z)) :=
  match n with O => Some l | S n => x ← zget l (i + 1); l ← zset l i x; shift_up n (i + 1) l end.

Definition editor_delete_line (n : Z) e : option ed :=
  if (n <? 1) || (LINE_COUNT e <? n) then Some (out_of_range e) else
  l ← shift_up (Z.to_nat (LINE_COUNT e - 1 - (n - 1))) (n - 1) (LINES e);
  let e := set_lines l (LINE_COUNT e - 1) e in
  Some (say [10] (ed_print_uint (u32 n) (say (str "Deleted line ") e))).

(** [LINES[i] = LINES[i - 1]] for [n] lines down from the [i]th. *)
Fixpoint shift_down (n : nat) (i : Z) (l : list (list Z)) : option (list (list Z)) :=
  match n with O => Some l | S n => x ← zget l (i - 1); l ← zset l i x; shift_down n (i - 1) l end.

(** [strncpy(LINES[i], buf, 79); LINES[i][79] = 0] *)
Definition store_line (i : Z) (buf : list Z) (l : list (list Z)) : option (list (list Z)) :=
  zset l i (strncpy_list 79 (cstr buf) ++ [0]).

Fixpoint insert_loop (fuel lines : nat) (insert_at : Z) (buf : list Z) e : option ed :=
  match lines with
  | O => None
  | S lines =>
      '(buf, e) ← editor_readline fuel buf e;
      if strcmp_list (cstr buf) (str ".") =? 0 then Some e else
      if EDITOR_MAX_LINES <=? LINE_COUNT e then Some (say (str "Buffer full (max 256 lines)" ++ [10]) e) else
      l ← shift_down (Z.to_nat (LINE_COUNT e - insert_at)) (LINE_COUNT e) (LINES e);
      l ← store_line insert_at buf l;
      insert_loop fuel lines (insert_at + 1) buf (set_lines l (LINE_COUNT e + 1) e)
  end.

Definition editor_insert_mode (fuel : nat) (n : Z) e : option ed :=
  let n := if n <? 1 then 1 else n in
  let n := if LINE_COUNT e + 1 <? n then LINE_COUNT e + 1 else n in
  let e := say (str "Insert mode (end with '.' on its own line):" ++ [10]) e in
  insert_loop fuel fuel (n - 1) (replicate 80 0) e.

(** The loop that joins the lines in the buffer: [off] bytes are there. *)
Fixpoint save_loop (lines : list (list Z)) (buf off : Z) (s : vfs H X) : option (Z * vfs H X) :=
  match lines with
  | [] => Some (off, s)
  | l :: lines =>
      s ← buf_write buf off (cstr l ++ [10]) s;
      save_loop lines buf (off + Z.of_nat (List.length (cstr l)) + 1) s
  end.

Definition set_node_size (node n : Z) (s : vfs H X) : option (vfs H X) :=
  v ← node_at node s; Some (put node (ONode (set_size n v)) s).

(** The part of [editor_save] that writes, once there is a node. *)
Definition save_to (node : Z) e : option ed :=
  let alloc_size := EDITOR_MAX_LINES * EDITOR_LINE_LEN in
  '(buf, s) ← alloc alloc_size (OBuf (replicate (Z.to_nat alloc_size) 0)) (fs e);
  if buf =? 0 then Some (say (str "Error: out of memory" ++ [10]) (set_fs s e)) else
  '(total_len, s) ← save_loop (take (Z.to_nat (LINE_COUNT e)) (LINES e)) buf 0 s;
  text ← buf_read buf 0 total_len s;
  '(_, s) ← Vfs.write node 0 text s;
  s ← set_node_size node total_len s;
  s ← release buf s;
  let e := say (str "Saved: ") (set_fs s e) in
  let e := say (str " (") (on_fs (cputs (EDIT_FILENAME e)) e) in
  let e := say (str " lines, ") (ed_print_uint (u32 (LINE_COUNT e)) e) in
  Some (say (str " bytes)" ++ [10]) (ed_print_uint total_len e)).

Definition editor_save e : option ed :=
  let nm := cstr (EDIT_FILENAME e) in
  '(node, s) ← finddir (VFS_ROOT (fs e)) nm (fs e);
  '(node, s) ← (if node =? 0 then create_file (Some nm) s else Some (node, s));
  if node =? 0 then Some (say (str "Error: could not create file" ++ [10]) (set_fs s e)) else save_to node (set_fs s e).

(** One line of the file, [start] to [i], cut at 79 bytes and stored. *)
Definition load_line (text : list Z) (start i : Z) (lines : list (list Z)) (n : Z) : option (list (list Z) * Z) :=
  let seg_len := if EDITOR_LINE_LEN <=? i - start then EDITOR_LINE_LEN - 1 else i - start in
  old ← zget lines n;
  let new := splice 0 (slice (Z.to_nat start) (Z.to_nat seg_len) text) old in
  new ← zset new seg_len 0;
  lines ← zset lines n new;
  Some (lines, seg_len).

(** [while i <= total && LINE_COUNT < 256] *)
Fixpoint load_loop (fuel : nat) (text : list Z) (start i : Z) (lines : list (list Z)) (n : Z)
    : option (list (list Z) * Z) :=
  match fuel with
  | O => None
  | S fuel =>
      if (Z.of_nat (List.length text) <=? i) || (EDITOR_MAX_LINES <=? n) then Some (lines, n) else
      c ← zget text i;
      if (c =? 10) || (c =? 0) then
        '(lines, seg_len) ← load_line text start i lines n;
        if (c =? 0) && (seg_len =? 0) then Some (lines, n) else load_loop fuel text (i + 1) (i + 1) lines (n + 1)
      else load_loop fuel text start (i + 1) lines n
  end.

Definition editor_load (node : Z) e : option ed :=
  if node =? 0 then Some e else
  v ← node_at node (fs e);
  if n_size v =? 0 then Some e else
  let file_size := n_size v in
  '(buf, s) ← alloc (file_size + 1) (OBuf (replicate (Z.to_nat (file_size + 1)) 0)) (fs e);
  if buf =? 0 then Some (set_fs s e) else
  '(bytes_read, l, s) ← Vfs.read node 0 file_size s;
  if bytes_read <=? 0 then s ← release buf s; Some (set_fs s e) else
  s ← buf_write buf 0 l s;
  s ← buf_write buf bytes_read [0] s;
  text ← buf_read buf 0 (bytes_read + 1) s;
  '(lines, n) ← load_loop (S (S (List.length text))) text 0 0 (LINES e) (LINE_COUNT e);
  s ← release buf s;
  Some (set_lines lines n (set_fs s e)).

(** ** Commands *)

Definition number_after (cmd : list Z) : option Z := atoi (mem_of (drop 2 cmd)) 80 0.

Definition editor_replace (fuel : nat) (n : Z) e : option ed :=
  if (n <? 1) || (LINE_COUNT e <? n) then Some (out_of_range e) else
  old ← zget (LINES e) (n - 1);
  let e := say (str "New: ") (say [10] (on_fs (cputs old) (say (str "Old: ") e))) in
  '(newline, e) ← editor_readline fuel (replicate 80 0) e;
  l ← store_line (n - 1) newline (LINES e);
  Some (set_lines l (LINE_COUNT e) e).

Definition editor_append (cmd : list Z) e : option ed :=
  if LINE_COUNT e <? EDITOR_MAX_LINES then
    l ← store_line (LINE_COUNT e) cmd (LINES e); Some (set_lines l (LINE_COUNT e + 1) e)
  else Some (say (str "Buffer full (max 256 lines)" ++ [10]) e).

(** [cmd_buf[0] == c && cmd_buf[1] == b' '] *)
Definition starts (c : Z) (cmd : list Z) : bool := (nth 0 cmd 0 =? c) && (nth 1 cmd 0 =? 32).
Definition is_cmd (w : string) (cmd : list Z) : bool := strcmp_list (cstr cmd) (str w) =? 0.

(** One command; [true] leaves the editor. *)
Definition command (fuel : nat) (cmd : list Z) e : option (bool * ed) :=
  let stay (r : option ed) := e ← r; Some (false, e) in
  if is_cmd "q" cmd then Some (true, e) else
  if is_cmd "w" cmd then stay (editor_save e) else
  if is_cmd "wq" cmd then e ← editor_save e; Some (true, e) else
  if is_cmd "p" cmd then stay (editor_print_all e) else
  if starts 112 cmd then n ← number_after cmd; stay (editor_print_line n e) else
  if starts 100 cmd then n ← number_after cmd; stay (editor_delete_line n e) else
  if starts 105 cmd then n ← number_after cmd; stay (editor_insert_mode fuel n e) else
  if starts 101 cmd then n ← number_after cmd; stay (editor_replace fuel n e) else
  stay (editor_append cmd e).

Definition prompt e : ed :=
  let e := say (str "ed:") (on_fs (paint Cyan Black) e) in
  on_fs (paint LightGrey Black) (say (str "> ") (ed_print_uint (u32 (LINE_COUNT e)) e)).

Fixpoint edit_loop (fuel rounds : nat) (cmd : list Z) e : option ed :=
  match rounds with
  | O => None
  | S rounds =>
      '(cmd, e) ← editor_readline fuel cmd (prompt e);
      '(quit, e) ← command fuel cmd e;
      if quit : bool then Some e else edit_loop fuel rounds cmd e
  end.

Definition banner e : ed :=
  let e := say (str "Editing: ") (on_fs (paint LightCyan Black) e) in
  let e := say (str " (") (on_fs (cputs (EDIT_FILENAME e)) e) in
  let e := say (str " lines)" ++ [10]) (ed_print_uint (u32 (LINE_COUNT e)) e) in
  let e := say (str "Commands: p (print), e N (edit line), d N (delete),") (on_fs (paint LightGrey Black) e) in
  say (str " i N (insert before), w (save), q (quit)" ++ [10]) e.

Definition edit (fuel : nat) (filename : list Z) e : option ed :=
  let e := Ed (LINES e) 0 (strncpy_list 63 filename ++ [0]) (fs e) in
  '(existing, s) ← finddir (VFS_ROOT (fs e)) filename (fs e);
  e ← (if existing =? 0 then Some (set_fs s e) else editor_load existing (set_fs s e));
  edit_loop fuel fuel (replicate 80 0) (banner e).
End code.
Arguments ed H X : clear implicits.

(** What the editor promises: a document is a list of at most 256 lines of at
    most 79 bytes, and a session of commands is a function on documents; saving and
    loading a document gives it back. *)

Abbreviation document := (list (list Z)).

(** ** The specification *)

(** The keys up to the end of the line, and those after it. *)
Fixpoint raw_line (ks : list Z) : option (list Z * list Z) :=
  match ks with
  | [] => None
  | c :: ks => if c =? 10 then Some ([], ks) else '(l, r) ← raw_line ks; Some (c :: l, r)
  end.

(** The line they make: backspace erases, what follows 79 bytes or a NUL is lost. *)
Definition next_line (ks : list Z) : option (list Z * list Z) :=
  '(l, r) ← raw_line ks; Some (cstr (line_edit (fun c => c =? 8) 80 [] l), r).

Definition in_range (n : Z) (d : document) : bool := (1 <=? n) && (n <=? Z.of_nat (List.length d)).

(** Lines are inserted until a line with a single dot, or until the document is full. *)
Fixpoint spec_insert (fuel : nat) (at_ : nat) (ks : list Z) (d : document) : option (document * list Z) :=
  match fuel with
  | O => None
  | S fuel =>
      '(t, ks) ← next_line ks;
      if bool_decide (t = str ".") || (256 <=? Z.of_nat (List.length d)) then Some (d, ks)
      else spec_insert fuel (S at_) ks (take at_ d ++ t :: drop at_ d)
  end.

(** A command other than saving: whether it ends the session, the document, the
    keys it leaves. *)
Definition spec_command (fuel : nat) (l ks : list Z) (d : document) : option (bool * document * list Z) :=
  if bool_decide (l = str "q") then Some (true, d, ks) else
  if bool_decide (l = str "w" \/ l = str "wq") then None else
  if bool_decide (l = str "p") || starts 112 l then Some (false, d, ks) else
  if starts 100 l then
    n ← number_after l; Some (false, if in_range n d then delete (Z.to_nat (n - 1)) d else d, ks)
  else if starts 105 l then
    n ← number_after l;
    '(d, ks) ← spec_insert fuel (Z.to_nat (Z.min (Z.max n 1) (Z.of_nat (List.length d) + 1) - 1)) ks d; Some (false, d, ks)
  else if starts 101 l then
    n ← number_after l;
    if in_range n d then '(t, ks) ← next_line ks; Some (false, <[Z.to_nat (n - 1) := t]> d, ks) else Some (false, d, ks)
  else Some (false, if Z.of_nat (List.length d) <? 256 then d ++ [l] else d, ks).

Fixpoint spec_session (fuel rounds : nat) (ks : list Z) (d : document) : option (document * list Z) :=
  match rounds with
  | O => None
  | S rounds =>
      '(l, ks) ← next_line ks;
      '(quit, d, ks) ← spec_command fuel l ks d;
      if quit : bool then Some (d, ks) else spec_session fuel rounds ks d
  end.

(** ** Lines *)

Definition line_ok (l : list Z) : Prop := List.length l = 80%nat /\ l !! 79%nat = Some 0 /\ 10 ∉ cstr l.

Lemma cstr_prefix l r : cstr (l ++ 0 :: r) = cstr l.
Proof. induction l as [| b l IH]; [done |]. simpl. case_if; [done |]. by rewrite IH. Qed.

Lemma cstr_take l n : l !! n = Some 0 -> cstr l = cstr (take n l).
Proof.
  intros Hn. rewrite <- (take_drop_middle l n 0 Hn) at 1. apply cstr_prefix.
Qed.

Lemma cstr_take_eq l r n : take n l = r ++ [0] -> cstr l = cstr r.
Proof. intros E. rewrite <- (take_drop n l), E, <- app_assoc. apply cstr_prefix. Qed.

(** A buffer that ends with NUL and its string have the same bytes up to it. *)
Lemma nth_cstr l k : (exists n, l !! n = Some 0) -> (k <= List.length (cstr l))%nat -> nth k l 0 = nth k (cstr l) 0.
Proof.
  intros [n Hn]. revert n k Hn. induction l as [| b l IH]; intros n k Hn Hk; [done |]. cbn [cstr] in *.
  destruct (Z.eqb_spec b 0) as [-> | Hb]; [by destruct k; simpl in *; [| lia] |].
  destruct n as [| n]; [simpl in Hn; congruence |]. destruct k as [| k]; [done |]. simpl in *. apply (IH n); [done | lia].
Qed.

Lemma store_line_ok buf : 10 ∉ cstr buf -> line_ok (strncpy_list 79 (cstr buf) ++ [0]).
Proof.
  intros Hn. split; [by rewrite length_app, length_strncpy_list |]. split.
  - rewrite lookup_app_r by (by rewrite length_strncpy_list). by rewrite length_strncpy_list.
  - rewrite cstr_strncpy_list by apply cstr_no_nul. intros Hi. apply Hn. by eapply elem_of_take in Hi as (i & ? & _); eapply list_elem_of_lookup_2.
Qed.

Lemma store_line_cstr buf : (List.length (cstr buf) <= 79)%nat -> cstr (strncpy_list 79 (cstr buf) ++ [0]) = cstr buf.
Proof. intros Hl. rewrite cstr_strncpy_list by apply cstr_no_nul. by rewrite take_ge. Qed.

(** ** Numbers in a command *)

Lemma skip_space_ext m m' k : m k = 0 -> (forall i, 0 <= i <= k -> m' i = m i) ->
  forall fuel s, 0 <= s <= k -> (Z.to_nat (k - s) < fuel)%nat ->
  exists r, skip_space m fuel s = Some r /\ skip_space m' fuel s = Some r /\ s <= r <= k.
Proof.
  intros Hk Hm. induction fuel as [| fuel IH]; intros s Hs Hf; [lia |]. cbn [skip_space]. rewrite (Hm s) by lia.
  destruct (isspace (m s)) eqn:E; [| exists s; split_and!; done || lia].
  assert (s <> k) by (intros ->; rewrite Hk in E; done).
  destruct (IH (s + 1)) as (r & ? & ? & ?); [lia | lia |]. exists r. split_and!; done || lia.
Qed.

Lemma atoi_digits_ext m m' k : m k = 0 -> (forall i, 0 <= i <= k -> m' i = m i) ->
  forall fuel s acc, 0 <= s <= k -> (Z.to_nat (k - s) < fuel)%nat ->
  exists r, atoi_digits m fuel s acc = Some r /\ atoi_digits m' fuel s acc = Some r.
Proof.
  intros Hk Hm. induction fuel as [| fuel IH]; intros s acc Hs Hf; [lia |]. cbn [atoi_digits]. rewrite (Hm s) by lia.
  destruct (isdigit (m s)) eqn:E; [| eauto].
  assert (s <> k) by (intros ->; rewrite Hk in E; done). apply IH; lia.
Qed.

(** A command buffer as [editor_readline] leaves it, and the string in it. *)
Definition cmd_ok (cmd : list Z) : Prop :=
  List.length cmd = 80%nat /\ cmd !! List.length (cstr cmd) = Some 0 /\ 10 ∉ cstr cmd.

Lemma elem_of_cstr x l : x ∈ cstr l -> x ∈ l.
Proof.
  induction l as [| b l IH]; [done |]. cbn [cstr]. case_if; [by intros ?%elem_of_nil |].
  rewrite !elem_of_cons. intros [-> | Hx]; auto.
Qed.

Lemma line_edit_in erase cap x cs : forall acc, x ∈ line_edit erase cap acc cs -> x ∈ acc \/ x ∈ cs.
Proof.
  induction cs as [| c cs IH]; intros acc; [by left |]. cbn [line_edit]. rewrite elem_of_cons.
  destruct (erase c); [| case_if]; intros Hx; apply IH in Hx as [Hx | Hx]; auto.
  - left. rewrite removelast_firstn_len in Hx. by apply elem_of_take in Hx as (i & ? & _); eapply list_elem_of_lookup_2.
  - apply elem_of_app in Hx as [| Hx%list_elem_of_singleton]; auto.
Qed.

Lemma read_cmd_ok cmd l : 10 ∉ l -> List.length cmd = 80%nat -> (List.length l < 80)%nat -> take (S (List.length l)) cmd = l ++ [0] ->
  cmd_ok cmd /\ cstr cmd = cstr l.
Proof.
  intros H10 Hl Hlt E. pose proof (cstr_take_eq _ _ _ E) as Ec. split; [| exact Ec]. split; [done |]. rewrite Ec.
  split; [| intros Hx; by apply H10, elem_of_cstr].
  assert (Hk : (List.length (cstr l) <= List.length l)%nat) by apply length_cstr.
  rewrite <- (lookup_take_lt cmd (S (List.length l))) by lia. rewrite E. clear.
  induction l as [| b l IH]; [done |]. cbn [cstr]. destruct (Z.eqb_spec b 0) as [-> |]; [done |]. exact IH.
Qed.

Lemma mem_of_cmd cmd i : cmd_ok cmd -> (2 <= List.length (cstr cmd))%nat -> 0 <= i <= Z.of_nat (List.length (cstr cmd)) - 2 ->
  mem_of (drop 2 (cstr cmd)) i = mem_of (drop 2 cmd) i.
Proof.
  intros (Hl & Hn & _) Hk Hi. unfold mem_of.
  assert (Ed : forall (l : list Z) k, nth k (drop 2 l) 0 = nth (2 + k) l 0) by (intros [| ? [| ? ?]] [| ?]; done).
  rewrite !Ed. symmetry. apply nth_cstr; [eauto | lia].
Qed.

(** The number is the same for what follows the NUL, and it is there. *)
Lemma number_after_cmd cmd : cmd_ok cmd -> (2 <= List.length (cstr cmd))%nat ->
  exists n, number_after cmd = Some n /\ number_after (cstr cmd) = Some n.
Proof.
  intros Hc Hk. pose proof Hc as (Hl & Hn & _). pose proof (lookup_lt_Some _ _ _ Hn) as Hlt.
  set (k := Z.of_nat (List.length (cstr cmd)) - 2). set (m := mem_of (drop 2 cmd)).
  assert (Hm0 : m k = 0).
  { unfold m, mem_of, k. rewrite nth_lookup, lookup_drop. replace (2 + _)%nat with (List.length (cstr cmd)) by lia. by rewrite Hn. }
  assert (Hm : forall i, 0 <= i <= k -> mem_of (drop 2 (cstr cmd)) i = m i) by (intros; by apply mem_of_cmd; unfold k in *).
  unfold number_after, atoi. fold m.
  destruct (skip_space_ext m _ k Hm0 Hm 80 0) as (r & E1 & E2 & Hr); [unfold k; lia.. |]. rewrite E1, E2, (Hm r) by lia.
  assert (Hs : forall a, a = 45 \/ a = 43 -> m r = a -> r < k).
  { intros a Ha E. destruct (Z.eq_dec r k) as [-> |]; [rewrite Hm0 in E; lia | lia]. }
  assert (Hd : forall (sg s : Z), 0 <= s <= k -> exists n,
    match atoi_digits m 80 s 0 with Some x => Some (i32 (sg * x)) | None => None end = Some n /\
    match atoi_digits (mem_of (drop 2 (cstr cmd))) 80 s 0 with Some x => Some (i32 (sg * x)) | None => None end = Some n).
  { intros sg s Hs'. destruct (atoi_digits_ext m _ k Hm0 Hm 80 s 0) as (x & -> & ->); [lia | unfold k in *; lia | eauto]. }
  case_if; breflect; [apply Hd; specialize (Hs 45); lia |]. case_if; breflect; [apply Hd; specialize (Hs 43); lia | apply Hd; lia].
Qed.

Lemma starts_cmd c cmd : cmd_ok cmd -> c <> 0 -> starts c (cstr cmd) = starts c cmd /\
  (starts c cmd = true -> (2 <= List.length (cstr cmd))%nat).
Proof.
  intros (Hl & Hn & _) Hc. unfold starts.
  destruct cmd as [| a [| b cmd]]; [done | done |]. cbn [cstr nth].
  assert (E0 : (0 =? c) = false) by lia.
  destruct (Z.eqb_spec a 0) as [-> |]; [cbn [nth]; by rewrite E0 |].
  cbn [nth]. destruct (Z.eqb_spec b 0) as [-> |]; simpl; split; try done; [by rewrite andb_false_r | lia].
Qed.

Lemma is_cmd_spec w cmd : no_nul (str w) -> is_cmd w cmd = bool_decide (cstr cmd = str w).
Proof. intros Hw. apply strcmp_list_eqb; [apply cstr_no_nul | done]. Qed.

(** ** Shifting lines *)

Lemma zget_app_r {A} (a : list A) x c i : i = Z.of_nat (List.length a) -> zget (a ++ x :: c) i = Some x.
Proof.
  intros ->. unfold zget. destruct (Z.ltb_spec (Z.of_nat (List.length a)) 0); [lia |].
  rewrite Nat2Z.id, lookup_app_r, Nat.sub_diag by done. done.
Qed.
Lemma zset_app_r {A} (a : list A) x c i y : i = Z.of_nat (List.length a) -> zset (a ++ x :: c) i y = Some (a ++ y :: c).
Proof.
  intros ->. rewrite zset_Some by (rewrite length_app; simpl; lia).
  by rewrite Nat2Z.id, insert_app_r_alt, Nat.sub_diag by lia.
Qed.

Lemma shift_down_spec (P : list Z -> Prop) k : forall a b x c i,
  List.length b = k -> i = Z.of_nat (List.length a + k) -> Forall P b -> P x ->
  exists y, P y /\ shift_down k i (a ++ b ++ x :: c) = Some (a ++ y :: b ++ c).
Proof.
  induction k as [| k IH]; intros a b x c i Hb -> HP Hx.
  - destruct b; [| done]. eauto.
  - destruct b as [| z b _] using rev_ind; [done |]. rewrite length_app in Hb. simpl in Hb.
    apply Forall_app in HP as [HP Hz]. apply Forall_inv in Hz. cbn [shift_down].
    rewrite <- app_assoc. cbn [app]. rewrite (app_assoc a b (z :: x :: c)).
    rewrite zget_app_r by (rewrite length_app; lia). cbn [mbind option_bind].
    replace ((a ++ b) ++ z :: x :: c) with ((a ++ b ++ [z]) ++ x :: c) by (by rewrite <- !app_assoc).
    rewrite zset_app_r by (rewrite !length_app; simpl; lia). cbn [mbind option_bind].
    replace ((a ++ b ++ [z]) ++ z :: c) with (a ++ b ++ z :: z :: c) by (by rewrite <- !app_assoc).
    destruct (IH a b z (z :: c) (Z.of_nat (List.length a + S k) - 1)) as (y & Hy & E); [lia | lia | done | done |].
    exists y. split; [done |]. rewrite E, <- app_assoc. done.
Qed.

Lemma shift_up_spec (P : list Z -> Prop) k : forall a b x c i,
  List.length b = k -> i = Z.of_nat (List.length a) -> Forall P b -> P x ->
  exists y, P y /\ shift_up k i (a ++ x :: b ++ c) = Some (a ++ b ++ y :: c).
Proof.
  induction k as [| k IH]; intros a b x c i Hb -> HP Hx.
  - destruct b; [| done]. eauto.
  - destruct b as [| z b]; [done |]. simpl in Hb. apply Forall_cons in HP as [Hz HP]. cbn [shift_up app].
    replace (a ++ x :: z :: b ++ c) with ((a ++ [x]) ++ z :: b ++ c) by (by rewrite <- app_assoc).
    rewrite zget_app_r by (rewrite length_app; simpl; lia). cbn [mbind option_bind].
    replace ((a ++ [x]) ++ z :: b ++ c) with (a ++ x :: z :: b ++ c) by (by rewrite <- app_assoc).
    rewrite zset_app_r by done. cbn [mbind option_bind].
    replace (a ++ z :: z :: b ++ c) with ((a ++ [z]) ++ z :: b ++ c) by (by rewrite <- app_assoc).
    destruct (IH (a ++ [z]) b z c (Z.of_nat (List.length a) + 1)) as (y & Hy & E); [lia | rewrite length_app; simpl; lia | done | done |].
    exists y. split; [done |]. rewrite E, <- app_assoc. done.
Qed.

(** ** Commands on documents *)

Section doc.
Context {H X : Type} `{KernelHeap H} `{Typist X} `{FatDisk X}.
Implicit Types e : ed H X.

Definition ed_ok e : Prop :=
  List.length (LINES e) = 256%nat /\ Forall line_ok (LINES e) /\ 0 <= LINE_COUNT e <= 256.

Definition doc e : document := cstr <$> take (Z.to_nat (LINE_COUNT e)) (LINES e).

(** Only the console changed; [ks] are the keys left. *)
Definition shown (ks : list Z) e e' : Prop :=
  e' = set_fs (fs e') e /\ typed (fs e') = ks /\ Term.same_files (fs e) (fs e').

Lemma shown_say ks t e e' : shown ks e e' -> shown ks e (say t e').
Proof.
  intros (E1 & E2 & E3). split; [rewrite E1; done |]. split; [unfold say, on_fs; cbn [set_fs fs]; by rewrite typed_puts |].
  by eapply same_files_trans.
Qed.
Lemma shown_cputs ks t e e' : shown ks e e' -> shown ks e (on_fs (cputs t) e').
Proof. apply shown_say. Qed.
Lemma shown_paint ks f b e e' : shown ks e e' -> shown ks e (on_fs (paint f b) e').
Proof.
  intros (E1 & E2 & E3). split; [rewrite E1; done |]. split; [unfold on_fs; cbn [set_fs fs]; by rewrite typed_paint |].
  by eapply same_files_trans.
Qed.
Lemma shown_uint ks v e e' : shown ks e e' -> shown ks e (ed_print_uint v e').
Proof.
  intros (E1 & E2 & E3). split; [rewrite E1; done |].
  split; [unfold ed_print_uint, on_fs; cbn [set_fs fs]; by rewrite typed_print_uint |].
  eapply same_files_trans; [exact E3 | apply same_print_uint].
Qed.
Lemma shown_refl e : shown (typed (fs e)) e e.
Proof. split; [by destruct e |]. split; [done | apply same_files_refl]. Qed.
Lemma shown_trans ks ks' e1 e2 e3 : shown ks e1 e2 -> shown ks' e2 e3 -> shown ks' e1 e3.
Proof.
  intros (E1 & _ & S1) (E2 & T & S2). split; [rewrite E2, E1; done |]. split; [done |]. by eapply same_files_trans.
Qed.
Lemma shown_ok ks e e' : shown ks e e' -> ed_ok e -> ed_ok e' /\ doc e' = doc e.
Proof. by intros (-> & _ & _) Ho. Qed.

#[local] Hint Resolve shown_say shown_cputs shown_paint shown_uint shown_refl : term.

Lemma raw_line_split ks l r : raw_line ks = Some (l, r) -> ks = l ++ 10 :: r /\ Forall (fun c => (c =? 10) = false) l.
Proof.
  revert l r. induction ks as [| c ks IH]; intros l r E; [done |]. cbn [raw_line] in E.
  destruct (Z.eqb_spec c 10) as [-> | Hc]; [by simplify_eq |].
  destruct (raw_line ks) as [[l' r'] |]; [| done]. cbn [mbind option_bind] in E. simplify_eq.
  destruct (IH l' r eq_refl) as [-> Hl]. split; [done |]. constructor; [lia | done].
Qed.

Lemma next_line_rest ks t ks' : next_line ks = Some (t, ks') -> (List.length ks' < List.length ks)%nat.
Proof.
  unfold next_line. intros E. apply bind_Some in E as ([l r] & E & ?). simplify_eq.
  apply raw_line_split in E as [-> _]. rewrite length_app. simpl. lia.
Qed.

Lemma readline_spec fuel buf e t ks : next_line (typed (fs e)) = Some (t, ks) -> List.length buf = 80%nat ->
  (List.length (typed (fs e)) <= fuel)%nat ->
  exists buf' e', editor_readline fuel buf e = Some (buf', e') /\ cmd_ok buf' /\ cstr buf' = t /\ shown ks e e'.
Proof.
  unfold next_line. intros E Hb Hf. apply bind_Some in E as ([l r] & E & ?). simplify_eq.
  apply raw_line_split in E as [E Hl]. pose proof (f_equal List.length E) as Hlen. rewrite length_app in Hlen. simpl in Hlen.
  destruct (read_line_spec (fun c => c =? 10) (fun c => c =? 8) EDITOR_CMD_LEN 10 ks l fuel buf 0 (fs e))
    as (buf' & s' & E' & T & Sm & L & W); [done | done | done | lia | by rewrite Hb | done |].
  set (t := line_edit (fun c => c =? 8) EDITOR_CMD_LEN (take (Z.to_nat 0) buf) l) in *.
  assert (Ht : Z.of_nat (List.length t) < 80) by (apply line_edit_length; done).
  destruct (read_cmd_ok buf' t) as [C1 C2]; [| congruence | lia | done |].
  { intros [Hx | Hx]%line_edit_in; [by apply elem_of_nil in Hx |]. rewrite Forall_forall in Hl. by apply Hl in Hx. }
  exists buf', (set_fs s' e). unfold editor_readline. rewrite E'. cbn [mbind option_bind]. split_and!; try done.
Qed.

Lemma cmd_ok_line cmd : cmd_ok cmd -> (List.length (cstr cmd) <= 79)%nat.
Proof. intros (Hl & Hn & _). apply lookup_lt_Some in Hn. lia. Qed.

(** ** Showing lines *)

Lemma uint3_shown ks v e e' : v <= 256 -> shown ks e e' -> exists e'', ed_print_uint3 v e' = Some e'' /\ shown ks e e''.
Proof.
  intros Hv Hs. unfold ed_print_uint3. case_if; [eauto with term |].
  destruct (Z.ltb_spec 9999 v); [lia |]. eexists. split; [reflexivity |]. by apply shown_say.
Qed.

Lemma print_one_shown ks i e e' : ed_ok e -> 0 <= i < 256 -> shown ks e e' ->
  exists e'', print_one i e' = Some e'' /\ shown ks e e''.
Proof.
  intros (Hl & _ & _) Hi Hs. unfold print_one.
  destruct (uint3_shown ks (i + 1) e e') as (e1 & -> & S1); [lia | done |]. cbn [mbind option_bind].
  assert (EL : LINES e1 = LINES e) by (by destruct S1 as (-> & _)).
  destruct (zget_Some (LINES e1) i) as [l ->]; [rewrite EL, Hl; lia |]. cbn [mbind option_bind].
  eexists. split; [reflexivity |]. eauto with term.
Qed.

Lemma print_loop_shown ks n : forall i e e', ed_ok e -> 0 <= i -> i + Z.of_nat n <= 256 -> shown ks e e' ->
  exists e'', print_loop n i e' = Some e'' /\ shown ks e e''.
Proof.
  induction n as [| n IH]; intros i e e' Ho Hi Hn Hs; cbn [print_loop]; [eauto |].
  destruct (print_one_shown ks i e e') as (e1 & -> & S1); [done | lia | done |]. cbn [mbind option_bind].
  apply IH; done || lia.
Qed.

Lemma print_all_shown e : ed_ok e -> exists e', editor_print_all e = Some e' /\ shown (typed (fs e)) e e'.
Proof.
  intros Ho. unfold editor_print_all. case_if; [eauto with term |]. destruct Ho as (Hl & Hf & Hc).
  apply print_loop_shown; [done | lia | lia | apply shown_refl].
Qed.

Lemma out_of_range_shown ks e e' : shown ks e e' -> shown ks e (out_of_range e').
Proof. intros Hs. unfold out_of_range. eauto with term. Qed.

Lemma in_range_doc n e : ed_ok e -> in_range n (doc e) = negb ((n <? 1) || (LINE_COUNT e <? n)).
Proof.
  intros (Hl & _ & Hc). unfold in_range, doc. rewrite length_map, length_take, Hl.
  destruct (Z.ltb_spec n 1), (Z.ltb_spec (LINE_COUNT e) n), (Z.leb_spec 1 n), (Z.leb_spec n (Z.of_nat (Z.to_nat (LINE_COUNT e) `min` 256))); simpl; done || lia.
Qed.

Lemma print_line_shown n e : ed_ok e -> exists e', editor_print_line n e = Some e' /\ shown (typed (fs e)) e e'.
Proof.
  intros Ho. unfold editor_print_line. case_if; [eauto using out_of_range_shown, shown_refl |].
  destruct Ho as (Hl & Hf & Hc). breflect. apply print_one_shown; [done | lia | apply shown_refl].
Qed.
End doc.

#[export] Hint Resolve shown_say shown_cputs shown_paint shown_uint shown_refl : term.

Section commands.
Context {H X : Type} `{KernelHeap H} `{Typist X} `{FatDisk X}.
Implicit Types e : ed H X.

(** The editor after a command: the document, the keys left, and the same files. *)
Definition did (d : document) (ks : list Z) e e' : Prop :=
  ed_ok e' /\ doc e' = d /\ typed (fs e') = ks /\ Term.same_files (fs e) (fs e') /\ EDIT_FILENAME e' = EDIT_FILENAME e.

Lemma did_shown ks e e' : ed_ok e -> shown ks e e' -> did (doc e) ks e e'.
Proof.
  intros Ho Hs. destruct (shown_ok ks e e' Hs Ho) as [Ho' Ed]. destruct Hs as (E & T & S). unfold did. split_and!; try done.
  by rewrite E.
Qed.

Lemma shown_did ks ks' d e1 e2 e3 : shown ks e1 e2 -> did d ks' e2 e3 -> did d ks' e1 e3.
Proof.
  intros (E1 & _ & S1) (Ho & Ed & T & S2 & F). unfold did. split_and!; try done; [by eapply same_files_trans | by rewrite F, E1].
Qed.

Lemma did_after ks ks' d e1 e2 e3 : did d ks e1 e2 -> shown ks' e2 e3 -> did d ks' e1 e3.
Proof.
  intros (Ho & Ed & T & S2 & F) Hs. destruct (shown_ok ks' e2 e3 Hs Ho) as [Ho' Ed']. destruct Hs as (E & T' & S).
  unfold did. split_and!; try done; [congruence | by eapply same_files_trans | by rewrite E].
Qed.

Lemma did_trans ks ks' d d' e1 e2 e3 : did d ks e1 e2 -> did d' ks' e2 e3 -> did d' ks' e1 e3.
Proof.
  intros (Ho & Ed & T & S2 & F) (Ho' & Ed' & T' & S3 & F'). unfold did.
  split_and!; try done; [by eapply same_files_trans | congruence].
Qed.

Lemma did_lines e l a b n d : d = cstr <$> a -> List.length l = 256%nat -> Forall line_ok l -> l = a ++ b ->
  n = Z.of_nat (List.length a) -> did d (typed (fs e)) e (set_lines l n e).
Proof.
  intros -> Hl Hf -> ->. unfold did, ed_ok, doc. cbn [LINES LINE_COUNT set_lines fs EDIT_FILENAME].
  rewrite length_app in Hl. split; [| split; [| split_and!; done || apply same_files_refl]].
  - rewrite length_app. split_and!; done || lia.
  - by rewrite Nat2Z.id, take_app_length.
Qed.

Lemma lines_split e : ed_ok e ->
  LINES e = take (Z.to_nat (LINE_COUNT e)) (LINES e) ++ drop (Z.to_nat (LINE_COUNT e)) (LINES e) /\
  List.length (take (Z.to_nat (LINE_COUNT e)) (LINES e)) = Z.to_nat (LINE_COUNT e).
Proof. intros (Hl & Hf & Hc). rewrite take_drop, length_take. split; [done | lia]. Qed.

Lemma delete_did n e : ed_ok e ->
  exists e', editor_delete_line n e = Some e' /\
    did (if in_range n (doc e) then delete (Z.to_nat (n - 1)) (doc e) else doc e) (typed (fs e)) e e'.
Proof.
  intros Ho. rewrite in_range_doc by done. unfold editor_delete_line.
  destruct ((n <? 1) || (LINE_COUNT e <? n)) eqn:En; cbn [negb].
  - eexists. split; [reflexivity |]. apply did_shown; [done |]. apply out_of_range_shown, shown_refl.
  - destruct (lines_split e Ho) as [EL Hlen]. destruct Ho as (Hl & Hf & Hc). breflect.
    set (L := take (Z.to_nat (LINE_COUNT e)) (LINES e)) in *. set (R := drop _ (LINES e)) in *.
    assert (Hi : (Z.to_nat (n - 1) < List.length L)%nat) by lia.
    destruct (lookup_lt_is_Some_2 L _ Hi) as [x Ex].
    assert (EL' : L = take (Z.to_nat (n - 1)) L ++ x :: drop (S (Z.to_nat (n - 1))) L) by (symmetry; by apply take_drop_middle).
    rewrite EL in Hf. apply Forall_app in Hf as [Hf HR]. pose proof Hf as Hf0. rewrite EL' in Hf.
    apply Forall_app in Hf as [Ha Hb]. apply Forall_cons in Hb as [Hx Hb].
    destruct (shift_up_spec line_ok (Z.to_nat (LINE_COUNT e - 1 - (n - 1))) (take (Z.to_nat (n - 1)) L)
      (drop (S (Z.to_nat (n - 1))) L) x R (n - 1)) as (y & Hy & E); [rewrite length_drop; lia | rewrite length_take; lia | done | done |].
    replace (LINES e) with (take (Z.to_nat (n - 1)) L ++ x :: drop (S (Z.to_nat (n - 1))) L ++ R)
      by (rewrite EL at 1; rewrite EL' at 3; by rewrite <- app_assoc).
    rewrite E. cbn [mbind option_bind]. eexists. split; [reflexivity |].
    eapply did_after; [eapply (did_lines e _ (take (Z.to_nat (n - 1)) L ++ drop (S (Z.to_nat (n - 1))) L) (y :: R) (LINE_COUNT e - 1)) |];
      [| | | by rewrite <- app_assoc | |].
    + unfold doc. fold L. by rewrite delete_take_drop, fmap_app, fmap_drop, fmap_take.
    + apply (f_equal List.length) in EL. rewrite !length_app, length_take, length_drop in *. simpl. lia.
    + rewrite !Forall_app. auto.
    + rewrite length_app, length_take, length_drop. lia.
    + apply shown_say, shown_uint, shown_say. exact (shown_refl (set_lines _ _ e)).
Qed.

Lemma doc_length e : ed_ok e -> Z.of_nat (List.length (doc e)) = LINE_COUNT e.
Proof. intros Ho. unfold doc. rewrite length_map. destruct (lines_split e Ho) as [_ ->]. destruct Ho as (_ & _ & ?). lia. Qed.

(** Room is made for a line and the line stored there. *)
Lemma store_at at_ buf e : ed_ok e -> 0 <= at_ <= LINE_COUNT e -> LINE_COUNT e < 256 -> cmd_ok buf ->
  exists l1 l, shift_down (Z.to_nat (LINE_COUNT e - at_)) (LINE_COUNT e) (LINES e) = Some l1 /\ store_line at_ buf l1 = Some l /\
    did (take (Z.to_nat at_) (doc e) ++ cstr buf :: drop (Z.to_nat at_) (doc e)) (typed (fs e)) e (set_lines l (LINE_COUNT e + 1) e).
Proof.
  intros Ho Ha Hmax Hc. destruct (lines_split e Ho) as [EL Hlen]. pose proof Ho as (Hl & HF & Hcount).
  set (L := take (Z.to_nat (LINE_COUNT e)) (LINES e)) in *. set (R := drop _ (LINES e)) in *.
  destruct R as [| x R'] eqn:ER; [apply (f_equal List.length) in EL; rewrite length_app in EL; simpl in EL; lia |].
  rewrite EL in HF. apply Forall_app in HF as [HL HR]. apply Forall_cons in HR as [Hx HR].
  pose proof (take_drop (Z.to_nat at_) L) as ELL. pose proof HL as HL0. rewrite <- ELL in HL0. apply Forall_app in HL0 as [Ht Hd].
  destruct (shift_down_spec line_ok (Z.to_nat (LINE_COUNT e - at_)) (take (Z.to_nat at_) L) (drop (Z.to_nat at_) L) x R' (LINE_COUNT e))
    as (y & Hy & Es); [rewrite length_drop; lia | rewrite length_take; lia | done | done |].
  replace (LINES e) with (take (Z.to_nat at_) L ++ drop (Z.to_nat at_) L ++ x :: R') by (rewrite EL, app_assoc, ELL; done).
  eexists _, _. split; [exact Es |]. unfold store_line. rewrite zset_app_r by (rewrite length_take; lia). split; [done |].
  set (new := strncpy_list 79 (cstr buf) ++ [0]).
  apply did_lines with (a := take (Z.to_nat at_) L ++ new :: drop (Z.to_nat at_) L) (b := R').
  - rewrite fmap_app, fmap_cons, fmap_take, fmap_drop. unfold doc. fold L. do 2 f_equal.
    unfold new. by rewrite store_line_cstr by (by apply cmd_ok_line).
  - apply (f_equal List.length) in EL. rewrite length_app in *. simpl in *. rewrite length_app, length_take, length_drop. lia.
  - apply Forall_app. split; [done |]. constructor; [by apply store_line_ok, Hc |]. apply Forall_app. split; done.
  - by rewrite <- app_assoc.
  - rewrite length_app. simpl. rewrite length_take, length_drop. lia.
Qed.

Lemma insert_did fuel : forall lines at_ buf e d ks, ed_ok e -> List.length buf = 80%nat -> 0 <= at_ <= LINE_COUNT e ->
  (List.length (typed (fs e)) <= fuel)%nat ->
  spec_insert lines (Z.to_nat at_) (typed (fs e)) (doc e) = Some (d, ks) ->
  exists e', insert_loop fuel lines at_ buf e = Some e' /\ did d ks e e'.
Proof.
  induction lines as [| lines IH]; intros at_ buf e d ks Ho Hb Ha Hf E; [done |]. cbn [spec_insert insert_loop] in *.
  apply bind_Some in E as ([t ks1] & Et & E).
  destruct (readline_spec fuel buf e t ks1 Et Hb Hf) as (buf' & e1 & -> & Hc & Ec & S1). cbn [mbind option_bind].
  destruct (shown_ok _ _ _ S1 Ho) as [Ho1 Ed1].
  assert (E2 : (strcmp_list (cstr buf') (str ".") =? 0) = bool_decide (t = str ".")).
  { rewrite <- Ec. apply (is_cmd_spec "."). by repeat constructor. }
  rewrite E2. destruct (bool_decide (t = str ".")); cbn [orb] in E.
  { simplify_eq. eexists. split; [reflexivity |]. by apply did_shown. }
  rewrite <- Ed1, doc_length in E by done. unfold EDITOR_MAX_LINES. destruct (Z.leb_spec 256 (LINE_COUNT e1)) as [Hmax | Hmax].
  { simplify_eq. eexists. split; [reflexivity |]. rewrite Ed1. apply did_shown; [done | by apply shown_say]. }
  assert (EC : LINE_COUNT e1 = LINE_COUNT e) by (by destruct S1 as (-> & _)).
  destruct (store_at at_ buf' e1) as (l1 & l & -> & E1 & D); [done | lia | lia | done |].
  cbn [mbind option_bind]. rewrite E1. cbn [mbind option_bind]. rewrite Ec in D.
  apply (shown_did _ _ _ _ _ _ S1) in D. assert (T1 : typed (fs e1) = ks1) by (by destruct S1 as (_ & ? & _)).
  pose proof D as (D1 & D2 & D3 & _ & _).
  destruct (IH (at_ + 1) buf' (set_lines l (LINE_COUNT e1 + 1) e1) d ks) as (e' & Ee & De).
  - done.
  - by destruct Hc.
  - cbn [set_lines LINE_COUNT]. lia.
  - rewrite D3, T1. apply next_line_rest in Et. lia.
  - rewrite D3, D2, T1. replace (Z.to_nat (at_ + 1)) with (S (Z.to_nat at_)) by lia. exact E.
  - exists e'. split; [exact Ee |]. by eapply did_trans.
Qed.

Lemma append_did cmd e : ed_ok e -> cmd_ok cmd ->
  exists e', editor_append cmd e = Some e' /\
    did (if Z.of_nat (List.length (doc e)) <? 256 then doc e ++ [cstr cmd] else doc e) (typed (fs e)) e e'.
Proof.
  intros Ho Hc. rewrite doc_length by done. unfold editor_append, EDITOR_MAX_LINES. destruct (Z.ltb_spec (LINE_COUNT e) 256).
  - pose proof Ho as (_ & _ & Hcount).
    destruct (store_at (LINE_COUNT e) cmd e) as (l1 & l & E & E1 & D); [done | lia | done | done |].
    rewrite Z.sub_diag in E. injection E as <-. rewrite E1. cbn [mbind option_bind].
    eexists. split; [reflexivity |]. rewrite take_ge, drop_ge in D by (pose proof (doc_length e Ho); lia). exact D.
  - eexists. split; [reflexivity |]. apply did_shown; [done |]. apply shown_say, shown_refl.
Qed.

Lemma replace_did fuel n e d ks : ed_ok e -> (List.length (typed (fs e)) <= fuel)%nat ->
  (if in_range n (doc e) then '(t, ks) ← next_line (typed (fs e)); Some (<[Z.to_nat (n - 1) := t]> (doc e), ks)
   else Some (doc e, typed (fs e))) = Some (d, ks) ->
  exists e', editor_replace fuel n e = Some e' /\ did d ks e e'.
Proof.
  intros Ho Hf. rewrite in_range_doc by done. unfold editor_replace.
  destruct ((n <? 1) || (LINE_COUNT e <? n)) eqn:En; cbn [negb]; intros E.
  { simplify_eq. eexists. split; [reflexivity |]. apply did_shown; [done |]. apply out_of_range_shown, shown_refl. }
  apply bind_Some in E as ([t ks1] & Et & E). simplify_eq. pose proof Ho as (Hl & HF & Hc). breflect.
  destruct (zget_Some (LINES e) (n - 1)) as [old ->]; [lia |]. cbn [mbind option_bind].
  set (e1 := say (str "New: ") _).
  assert (S1 : shown (typed (fs e)) e e1) by (apply shown_say, shown_say, shown_cputs, shown_say, shown_refl).
  destruct (readline_spec fuel (replicate 80 0) e1 t ks) as (buf' & e2 & -> & Hb & Eb & S2);
    [by rewrite (proj1 (proj2 S1)) | done | by rewrite (proj1 (proj2 S1)) |].
  cbn [mbind option_bind]. pose proof (shown_trans _ _ _ _ _ S1 S2) as S3. destruct (shown_ok _ _ _ S3 Ho) as [Ho2 Ed2].
  assert (EL : LINES e2 = LINES e /\ LINE_COUNT e2 = LINE_COUNT e) by (by destruct S3 as (-> & _)). destruct EL as [EL EC].
  unfold store_line. rewrite EL, zset_Some by lia. cbn [mbind option_bind]. eexists. split; [reflexivity |].
  eapply shown_did; [exact S3 |]. destruct S3 as (_ & <- & _). rewrite EC.
  apply did_lines with (a := take (Z.to_nat (LINE_COUNT e)) (<[Z.to_nat (n - 1) := strncpy_list 79 (cstr buf') ++ [0]]> (LINES e)))
    (b := drop (Z.to_nat (LINE_COUNT e)) (<[Z.to_nat (n - 1) := strncpy_list 79 (cstr buf') ++ [0]]> (LINES e))).
  - unfold doc. rewrite take_insert_lt, list_fmap_insert, store_line_cstr, Eb by (lia || by apply cmd_ok_line). done.
  - by rewrite length_insert.
  - apply Forall_insert; [done | by apply store_line_ok, Hb].
  - by rewrite take_drop.
  - rewrite length_take, length_insert. lia.
Qed.

Lemma number_in_cmd c cmd : cmd_ok cmd -> c <> 0 -> starts c cmd = true -> number_after cmd = number_after (cstr cmd).
Proof.
  intros Hc Hc0 Hs. destruct (starts_cmd c cmd Hc Hc0) as [_ Hk]. destruct (number_after_cmd cmd Hc (Hk Hs)) as (n & -> & ->). done.
Qed.

(** One command does to the document what the specification says. *)
Lemma command_did fuel cmd e quit d ks : ed_ok e -> cmd_ok cmd -> (List.length (typed (fs e)) <= fuel)%nat ->
  spec_command fuel (cstr cmd) (typed (fs e)) (doc e) = Some (quit, d, ks) ->
  exists e', command fuel cmd e = Some (quit, e') /\ did d ks e e'.
Proof.
  intros Ho Hc Hf. unfold spec_command, command.
  rewrite !is_cmd_spec by (by repeat constructor).
  assert (Hst : forall c, c <> 0 -> starts c (cstr cmd) = starts c cmd) by (intros c Hc0; by apply (starts_cmd c cmd)).
  rewrite !Hst by lia. clear Hst. case_bool_decide as Eq.
  { intros. simplify_eq. eexists. split; [reflexivity |]. apply did_shown; [done | apply shown_refl]. }
  rewrite bool_decide_or. do 2 (case_bool_decide; [done |]). cbn [orb].
  assert (Hsh : forall c r, (c = false) -> (exists e', r = Some e' /\ shown (typed (fs e)) e e') ->
    Some (c, doc e, typed (fs e)) = Some (quit, d, ks) ->
    exists e', (e ← r; Some (false, e)) = Some (quit, e') /\ did d ks e e').
  { intros c r -> (e' & -> & Hs) E. simplify_eq. eexists. split; [reflexivity |]. by apply did_shown. }
  case_bool_decide; cbn [orb]; [by apply Hsh; [| apply print_all_shown] |].
  destruct (starts 112 cmd) eqn:E112.
  { destruct (starts_cmd 112 cmd Hc) as [_ Hk]; [done |]. destruct (number_after_cmd cmd Hc (Hk E112)) as (n & -> & _).
    cbn [mbind option_bind]. apply Hsh; [done | by apply print_line_shown]. }
  destruct (starts 100 cmd) eqn:E100.
  { rewrite <- (number_in_cmd 100) by done. destruct (number_after cmd) as [n |]; [| done]. cbn [mbind option_bind]. intros E.
    destruct (delete_did n e Ho) as (e' & -> & D). cbn [mbind option_bind]. simplify_eq. eauto. }
  destruct (starts 105 cmd) eqn:E105.
  { rewrite <- (number_in_cmd 105) by done. destruct (number_after cmd) as [n |]; [| done]. cbn [mbind option_bind]. intros E.
    apply bind_Some in E as ([d' ks'] & E & ?). simplify_eq. unfold editor_insert_mode. rewrite doc_length in E by done.
    set (e1 := say _ e). assert (S1 : shown (typed (fs e)) e e1) by (apply shown_say, shown_refl).
    destruct (shown_ok _ _ _ S1 Ho) as [Ho1 Ed1]. pose proof Ho as (_ & _ & Hcount). pose proof (proj1 (proj2 S1)) as ET.
    replace ((if LINE_COUNT e + 1 <? (if n <? 1 then 1 else n) then LINE_COUNT e + 1 else if n <? 1 then 1 else n) - 1)
      with (Z.min (Z.max n 1) (LINE_COUNT e + 1) - 1)
      by (destruct (Z.ltb_spec n 1); [destruct (Z.ltb_spec (LINE_COUNT e + 1) 1) | destruct (Z.ltb_spec (LINE_COUNT e + 1) n)]; lia).
    destruct (insert_did fuel fuel (Z.min (Z.max n 1) (LINE_COUNT e + 1) - 1) (replicate 80 0) e1 d ks) as (e' & -> & D);
      [done | done | change (LINE_COUNT e1) with (LINE_COUNT e); lia | by rewrite ET | by rewrite ET, Ed1 |].
    eexists. split; [reflexivity |]. by eapply shown_did. }
  destruct (starts 101 cmd) eqn:E101.
  { rewrite <- (number_in_cmd 101) by done. destruct (number_after cmd) as [n |]; [| done]. cbn [mbind option_bind]. intros E.
    destruct (replace_did fuel n e d ks Ho Hf) as (e' & -> & D).
    - destruct (in_range n (doc e)); [| congruence]. destruct (next_line _) as [[t ks'] |]; [| done]. cbn [mbind option_bind] in *. congruence.
    - cbn [mbind option_bind]. exists e'. split; [| done].
      destruct (in_range n (doc e)); [destruct (next_line _) as [[t ks'] |]; [| done] |]; cbn [mbind option_bind] in E; congruence. }
  intros E. destruct (append_did cmd e Ho Hc) as (e' & -> & D). cbn [mbind option_bind]. simplify_eq. eauto.
Qed.

Lemma prompt_shown e : shown (typed (fs e)) e (prompt e).
Proof. unfold prompt. eauto 10 using shown_say, shown_paint, shown_uint, shown_refl. Qed.

Lemma spec_insert_keys lines : forall at_ ks d d' ks', spec_insert lines at_ ks d = Some (d', ks') ->
  (List.length ks' <= List.length ks)%nat.
Proof.
  induction lines as [| lines IH]; intros at_ ks d d' ks' E; [done |]. cbn [spec_insert] in E.
  apply bind_Some in E as ([t ks1] & Et & E). apply next_line_rest in Et.
  destruct (bool_decide _ || _) in E; [simplify_eq; lia |]. apply IH in E. lia.
Qed.

Lemma spec_command_keys fuel l ks d q d' ks' : spec_command fuel l ks d = Some (q, d', ks') ->
  (List.length ks' <= List.length ks)%nat.
Proof.
  unfold spec_command. intros E.
  repeat match type of E with (if ?b then _ else _) = _ => destruct b; [try by simplify_eq |] end; [| | | by simplify_eq].
  - apply bind_Some in E as (n & _ & E). simplify_eq. lia.
  - apply bind_Some in E as (n & _ & E). apply bind_Some in E as ([d1 ks1] & E & ?). simplify_eq. by eapply spec_insert_keys.
  - apply bind_Some in E as (n & _ & E). destruct (in_range n d); [| simplify_eq; lia].
    apply bind_Some in E as ([t ks1] & Et & ?). simplify_eq. apply next_line_rest in Et. lia.
Qed.

(** From any document, the editor's loop does to it what the session's keys say,
    command by command, and stops having read exactly those keys; it changes no file,
    and its lines are strings in arrays of 80 bytes throughout. *)
Lemma session_run fuel rounds : forall cmd e d ks, ed_ok e -> List.length cmd = 80%nat ->
  (List.length (typed (fs e)) <= fuel)%nat ->
  spec_session fuel rounds (typed (fs e)) (doc e) = Some (d, ks) ->
  exists e', edit_loop fuel rounds cmd e = Some e' /\ ed_ok e' /\ doc e' = d /\ typed (fs e') = ks /\
    Term.same_files (fs e) (fs e').
Proof.
  induction rounds as [| rounds IH]; intros cmd e d ks Ho Hl Hf E; [done |]. cbn [spec_session edit_loop] in *.
  apply bind_Some in E as ([t ks1] & Et & E). apply bind_Some in E as ([[quit d1] ks2] & Ecmd & E).
  pose proof (prompt_shown e) as S1. pose proof (proj1 (proj2 S1)) as T1.
  destruct (readline_spec fuel cmd (prompt e) t ks1) as (cmd' & e2 & -> & Hc & <- & S2); [by rewrite T1 | done | by rewrite T1 |].
  cbn [mbind option_bind]. pose proof (shown_trans _ _ _ _ _ S1 S2) as S3. destruct (shown_ok _ _ _ S3 Ho) as [Ho2 Ed2].
  pose proof (proj1 (proj2 S3)) as T2. pose proof (next_line_rest _ _ _ Et) as Hlt.
  destruct (command_did fuel cmd' e2 quit d1 ks2) as (e3 & -> & D); [done | done | rewrite T2; lia | by rewrite T2, Ed2 |].
  cbn [mbind option_bind]. apply (shown_did _ _ _ _ _ _ S3) in D. destruct D as (D1 & D2 & D3 & D4 & _). destruct quit.
  - simplify_eq. eauto 10.
  - assert (Hk : (List.length ks2 <= List.length ks1)%nat) by (eapply spec_command_keys; exact Ecmd).
    destruct (IH cmd' e3 d ks) as (e' & -> & R1 & R2 & R3 & R4); [done | by destruct Hc | rewrite D3; lia | by rewrite D3, D2 |].
    exists e'. split_and!; try done. by eapply same_files_trans.
Qed.
End commands.
