(* ===== verification/EditorFile.v ===== *)
(** The editor and its file: a document is loaded from the lines of a file's text,
    and saving it and loading it again gives it back. *)
From Stdlib Require Import String.
From S2P Require Import Prelude StringRs Heap BumpHeap VfsNode VfsStore Ramfs RamFiles Initrd Devfs Fat16Vfs Vfs VfsTree VfsMake VfsFile VfsSpec VfsProps Term Editor.

(** ** Text *)

Definition text_of (d : document) : list Z := concat (map (fun l => l ++ [10]) d).

(** The lines of a text, cut at 79 bytes; [cur] is what the first one has so far.  An
    empty line that a NUL ends is the end. *)
Fixpoint parse_text (cur text : list Z) : document :=
  match text with
  | [] => []
  | c :: text =>
      if c =? 10 then take 79 cur :: parse_text [] text else
      if c =? 0 then match cur with [] => [] | _ => take 79 cur :: parse_text [] text end
      else parse_text (cur ++ [c]) text
  end.

Definition load_doc (text : list Z) : document := take 256 (parse_text [] (text ++ [0])).

(** A line as the editor has them. *)
Definition clean (l : list Z) : Prop := no_nul l /\ 10 ∉ l.

Lemma parse_line l r : clean l -> forall cur, parse_text cur (l ++ r) = parse_text (cur ++ l) r.
Proof.
  intros [Hn Ht]. induction l as [| c l IH]; intros cur; [by rewrite app_nil_r |].
  apply Forall_cons in Hn as [Hc Hn]. apply not_elem_of_cons in Ht as [Hc' Ht]. cbn [app parse_text].
  rewrite (proj2 (Z.eqb_neq c 10)), (proj2 (Z.eqb_neq c 0)), IH, <- app_assoc by (done || lia). done.
Qed.

(** A document whose lines fit comes back from its text. *)
Lemma parse_text_of d : Forall (fun l => clean l /\ (List.length l <= 79)%nat) d -> parse_text [] (text_of d ++ [0]) = d.
Proof.
  induction 1 as [| l d [Hl Hlen] Hd IH]; [done |]. unfold text_of. cbn [map concat]. rewrite <- !app_assoc, parse_line by done.
  cbn [app parse_text Z.eqb Pos.eqb]. rewrite take_ge by done. f_equal. exact IH.
Qed.

Lemma text_of_length d : Forall (fun l => clean l /\ (List.length l <= 79)%nat) d ->
  (List.length (text_of d) <= 80 * List.length d)%nat.
Proof.
  induction 1 as [| l d [Hl Hlen] Hd IH]; [done |]. unfold text_of in *. cbn [map concat List.length].
  rewrite !length_app. simpl. lia.
Qed.

(** ** Loading *)

Lemma load_line_spec text start i lines n cur old : cur = slice (Z.to_nat start) (Z.to_nat (i - start)) text -> clean cur ->
  0 <= start <= i -> (Z.to_nat i <= List.length text)%nat -> zget lines n = Some old -> Forall line_ok lines ->
  exists new, load_line text start i lines n = Some (<[Z.to_nat n := new]> lines, Z.min (i - start) 79) /\
    line_ok new /\ cstr new = take 79 cur.
Proof.
  intros Hcur [Hn Ht] Hi Hle Hg Hf. unfold load_line, EDITOR_LINE_LEN. rewrite Hg. cbn [mbind option_bind].
  assert (Hin : (Z.to_nat n < List.length lines)%nat /\ 0 <= n).
  { unfold zget in Hg. destruct (Z.ltb_spec n 0); [done |]. by apply lookup_lt_Some in Hg. }
  assert (Ho : line_ok old).
  { rewrite Forall_lookup in Hf. apply (Hf (Z.to_nat n)). unfold zget in Hg. by destruct (n <? 0). }
  set (k := if 80 <=? i - start then 80 - 1 else i - start).
  assert (Ek : k = Z.min (i - start) 79) by (unfold k; destruct (Z.leb_spec 80 (i - start)); lia).
  clearbody k. destruct Ho as (Hl & H79 & _).
  assert (Hlc : List.length cur = Z.to_nat (i - start)) by (rewrite Hcur, length_slice; lia).
  assert (Es : slice (Z.to_nat start) (Z.to_nat k) text = take 79 cur).
  { rewrite Hcur. unfold slice. rewrite take_take. destruct (decide (i - start <= 79)).
    - f_equal. lia.
    - f_equal. lia. }
  assert (Hlt : List.length (take 79 cur) = Z.to_nat k) by (rewrite length_take; lia).
  rewrite Es, zset_Some by (rewrite length_splice; lia). cbn [mbind option_bind].
  rewrite zset_Some by lia. cbn [mbind option_bind]. rewrite <- Ek.
  set (new := <[Z.to_nat k := 0]> (splice 0 (take 79 cur) old)). exists new. split; [done |].
  assert (En : take (S (List.length (take 79 cur))) new = take 79 cur ++ [0]).
  { unfold new. rewrite Hlt. erewrite take_S_r by (apply list_lookup_insert_eq; rewrite length_splice; lia).
    rewrite take_insert_ge by lia. f_equal. unfold splice. rewrite take_0, Nat.sub_0_r. cbn [app].
    rewrite (take_ge (take 79 cur)) by lia. rewrite take_app_le, take_ge by lia. done. }
  assert (Ec : cstr new = take 79 cur).
  { rewrite (cstr_take_eq _ _ _ En). apply cstr_id. by apply Forall_take. }
  split; [| done]. split; [| split].
  - unfold new. rewrite length_insert, length_splice; lia.
  - unfold new. destruct (decide (Z.to_nat k = 79%nat)) as [-> |]; [apply list_lookup_insert_eq; rewrite length_splice; lia |].
    rewrite list_lookup_insert_ne, lookup_splice by lia. case_decide; [lia | done].
  - rewrite Ec. intros Hx. apply Ht. by apply elem_of_take in Hx as (j & ? & _); eapply list_elem_of_lookup_2.
Qed.

(** The loop over the text, from byte [i] of the line that starts at [start]. *)
Lemma split_text_spec text : forall fuel start i lines n cur,
  cur = slice (Z.to_nat start) (Z.to_nat (i - start)) text -> clean cur -> 0 <= start <= i ->
  (Z.to_nat i <= List.length text)%nat -> (List.length text - Z.to_nat i < fuel)%nat ->
  List.length lines = 256%nat -> Forall line_ok lines -> 0 <= n <= 256 ->
  exists lines' n', load_loop fuel text start i lines n = Some (lines', n') /\
    List.length lines' = 256%nat /\ Forall line_ok lines' /\ 0 <= n' <= 256 /\
    cstr <$> take (Z.to_nat n') lines' =
    take 256 ((cstr <$> take (Z.to_nat n) lines) ++ parse_text cur (drop (Z.to_nat i) text)).
Proof.
  induction fuel as [| fuel IH]; intros start i lines n cur Hcur Hcl Hi Hle Hf Hl HF Hn; [lia |].
  assert (Hlen : List.length (cstr <$> take (Z.to_nat n) lines) = Z.to_nat n) by (rewrite length_fmap, length_take; lia).
  cbn [load_loop]. unfold EDITOR_MAX_LINES.
  destruct (Z.leb_spec (Z.of_nat (List.length text)) i) as [Hend | Hlt]; cbn [orb].
  { exists lines, n. rewrite drop_ge by lia. cbn [parse_text]. rewrite app_nil_r, (take_ge _ 256) by lia. done. }
  destruct (Z.leb_spec 256 n) as [Hfull | Hroom].
  { exists lines, n. rewrite take_app_le, (take_ge _ 256) by lia. done. }
  destruct (lookup_lt_is_Some_2 text (Z.to_nat i)) as [c Hc]; [lia |].
  assert (Eg : zget text i = Some c) by (unfold zget; by destruct (Z.ltb_spec i 0); [lia |]).
  rewrite Eg, (drop_S _ _ _ Hc). cbn [mbind option_bind parse_text].
  assert (Hnext : forall lines1 (n1 : Z), List.length lines1 = 256%nat -> Forall line_ok lines1 -> 0 <= n1 <= 256 ->
    exists lines' n', load_loop fuel text (i + 1) (i + 1) lines1 n1 = Some (lines', n') /\
      List.length lines' = 256%nat /\ Forall line_ok lines' /\ 0 <= n' <= 256 /\
      cstr <$> take (Z.to_nat n') lines' =
      take 256 ((cstr <$> take (Z.to_nat n1) lines1) ++ parse_text [] (drop (S (Z.to_nat i)) text))).
  { intros lines1 n1 H1 H2 H3. replace (S (Z.to_nat i)) with (Z.to_nat (i + 1)) by lia. apply IH; try done; try lia.
    - by rewrite Z.sub_diag.
    - split; [constructor | by intros ?%elem_of_nil]. }
  destruct (zget_Some lines n) as [old Ho]; [lia |].
  destruct (load_line_spec text start i lines n cur old) as (new & El & Hnew & Ec); [done.. |].
  assert (Hins : List.length (<[Z.to_nat n := new]> lines) = 256%nat /\ Forall line_ok (<[Z.to_nat n := new]> lines)).
  { rewrite length_insert. split; [done | by apply Forall_insert]. }
  assert (Hadd : cstr <$> take (Z.to_nat (n + 1)) (<[Z.to_nat n := new]> lines) = (cstr <$> take (Z.to_nat n) lines) ++ [take 79 cur]).
  { replace (Z.to_nat (n + 1)) with (S (Z.to_nat n)) by lia. erewrite take_S_r by (apply list_lookup_insert_eq; lia).
    rewrite take_insert_ge by lia. rewrite fmap_app. cbn [fmap list_fmap]. by rewrite Ec. }
  assert (Hk : List.length cur = Z.to_nat (i - start)) by (rewrite Hcur, length_slice; lia).
  destruct (Z.eqb_spec c 10) as [-> | H10]; cbn [orb].
  { rewrite El. cbn [mbind option_bind Z.eqb andb].
    destruct (Hnext (<[Z.to_nat n := new]> lines) (n + 1)) as (l' & n' & E & ? & ? & ? & Ed); [apply Hins.. | lia |].
    exists l', n'. rewrite E, Ed, Hadd, <- app_assoc. done. }
  destruct (Z.eqb_spec c 0) as [-> | H0].
  { rewrite El. cbn [mbind option_bind andb]. destruct (Z.eqb_spec (Z.min (i - start) 79) 0).
    - destruct cur; [| simpl in Hk; lia]. exists (<[Z.to_nat n := new]> lines), n. split; [done |].
      split; [apply Hins |]. split; [apply Hins |]. split; [done |]. rewrite take_insert_ge, app_nil_r, (take_ge _ 256) by lia. done.
    - destruct cur as [| c0 cur']; [simpl in Hk; lia |].
      destruct (Hnext (<[Z.to_nat n := new]> lines) (n + 1)) as (l' & n' & E & ? & ? & ? & Ed); [apply Hins.. | lia |].
      exists l', n'. rewrite E, Ed, Hadd, <- app_assoc. done. }
  destruct (IH start (i + 1) lines n (cur ++ [c])) as (l' & n' & E & ? & ? & ? & Ed); try done; try lia.
  - rewrite Hcur. unfold slice. replace (Z.to_nat (i + 1 - start)) with (S (Z.to_nat (i - start))) by lia. symmetry. apply take_S_r.
    rewrite lookup_drop. replace (Z.to_nat start + Z.to_nat (i - start))%nat with (Z.to_nat i) by lia. done.
  - destruct Hcl as [A B]. split; [apply Forall_app; split; [done | by repeat constructor] |].
    rewrite not_elem_of_app, list_elem_of_singleton. auto.
  - exists l', n'. rewrite E, Ed. replace (Z.to_nat (i + 1)) with (S (Z.to_nat i)) by lia. done.
Qed.

Section file.
Context {H X : Type} `{KernelHeap H} `{Typist X} `{FatDisk X}.
Implicit Types (s : vfs H X) (e : ed H X).

(** Node [p] is the RAM file with the bytes [c]; the size in the node need not be theirs. *)
Definition holds (m : gmap Z obj) (p : Z) (v : VfsNode) (c : list Z) : Prop :=
  exists r fd buf, m !! p = Some (ONode v) /\ private_data v = PRam r /\ m !! r = Some (ORam fd) /\
    m !! data fd = Some (OBuf buf) /\ ram_ok fd buf /\ c = file_of fd buf.

Lemma holds_fresh m p v c q o : holds m p v c -> m !! q = None -> holds (<[q := o]> m) p v c.
Proof.
  intros (r & fd & buf & E1 & E2 & E3 & E4 & E5 & E6) Hq. exists r, fd, buf.
  rewrite !lookup_insert_ne by congruence. done.
Qed.

Lemma holds_size m p v c n : holds m p v c -> holds (<[p := ONode (set_size n v)]> m) p (set_size n v) c.
Proof.
  intros (r & fd & buf & E1 & E2 & E3 & E4 & E5 & E6). exists r, fd, buf.
  rewrite lookup_insert_eq, !lookup_insert_ne by congruence. done.
Qed.

Lemma holds_content m p v c : files_ok m -> node_in m p = Some v -> content m p = Some c -> holds m p v c.
Proof.
  intros Hf Hv Hc. destruct (content_inv _ _ _ Hf Hc) as (v' & r & fd & buf & Hp & Hpriv & Hr & Hb & Hok & ->).
  unfold node_in in Hv. rewrite Hp in Hv. injection Hv as ->. by exists r, fd, buf.
Qed.

Lemma holds_node m p v c : holds m p v c -> node_in m p = Some v.
Proof. intros (r & fd & buf & E & _). unfold node_in. by rewrite E. Qed.

Lemma holds_length m p v c : holds m p v c -> Z.of_nat (List.length c) < 2 ^ 32.
Proof. intros (r & fd & buf & _ & _ & _ & _ & Hok & ->). rewrite length_file_of by done. destruct Hok. lia. Qed.

Lemma read_holds s p v c n : holds (store s) p v c -> p <> 0 -> read_fn v = Some RamfsRead -> 0 <= n < 2 ^ 31 ->
  Vfs.read p 0 n s = Some (Z.of_nat (List.length (take (Z.to_nat n) c)), take (Z.to_nat n) c, s).
Proof.
  intros Hh Hp Hr Hn. unfold Vfs.read. rewrite (proj2 (Z.eqb_neq p 0)) by done.
  pose proof (holds_node _ _ _ _ Hh) as Hv. unfold node_at. rewrite Hv. cbn [mbind option_bind]. rewrite Hr.
  destruct Hh as (r & fd & buf & E1 & E2 & E3 & E4 & E5 & ->). unfold pure.
  rewrite (ramfs_read_at s p v r fd buf 0 n) by (done || lia). cbn [mbind option_bind]. unfold file_slice. rewrite drop_0.
  rewrite i32_small; [done |]. rewrite length_take. lia.
Qed.

(** The buffer of the text: filled from the front. *)
Lemma splice_front {A} (d l : list A) : (List.length d <= List.length l)%nat -> splice 0 d l = d ++ drop (List.length d) l.
Proof. intros Hl. unfold splice. rewrite take_0, Nat.sub_0_r, (take_ge d) by lia. done. Qed.

Lemma buf_read_take q s l n : store s !! q = Some (OBuf l) -> 0 <= n <= Z.of_nat (List.length l) ->
  buf_read q 0 n s = Some (take (Z.to_nat n) l).
Proof.
  intros E Hn. unfold buf_read, buf_at. rewrite E. cbn [mbind option_bind].
  destruct (Z.ltb_spec (Z.of_nat (List.length l)) (0 + n)); [lia | done].
Qed.

Lemma buf_write_at q s l off new : store s !! q = Some (OBuf l) -> 0 <= off -> off + Z.of_nat (List.length new) <= Z.of_nat (List.length l) ->
  buf_write q off new s = Some (put q (OBuf (splice (Z.to_nat off) new l)) s).
Proof.
  intros E Ho Hn. unfold buf_write, buf_at. rewrite E. cbn [mbind option_bind].
  destruct (Z.ltb_spec (Z.of_nat (List.length l)) (off + Z.of_nat (List.length new))); [lia | done].
Qed.

(** The file's lines are in the editor, unless the heap has no room for its text. *)
Lemma load_spec e live p v c : ed_ok e -> LINE_COUNT e = 0 -> heap_ok (fs e) live -> holds (store (fs e)) p v c ->
  read_fn v = Some RamfsRead -> 0 <= n_size v < 2 ^ 31 ->
  exists e', editor_load p e = Some e' /\ ed_ok e' /\ EDIT_FILENAME e' = EDIT_FILENAME e /\
    framed (fs e) (fs e') /\ store (fs e') = store (fs e) /\
    (exists live', heap_ok (fs e') live' /\ Permutation live' live) /\
    (doc e' = load_doc (take (Z.to_nat (n_size v)) c) \/
     doc e' = [] /\ exists h, kh_malloc (n_size v + 1) (hp (fs e)) = Some (0, h)).
Proof.
  intros Ho Hn0 Hh Hc Hr Hsz. pose proof (holds_node _ _ _ _ Hc) as Hv.
  assert (Hp : p <> 0) by (intros ->; unfold node_in in Hv; by rewrite (ho_null _ _ Hh) in Hv).
  assert (Hdoc0 : doc e = []) by (unfold doc; by rewrite Hn0).
  unfold editor_load. rewrite (proj2 (Z.eqb_neq p 0)) by done. unfold node_at. rewrite Hv. cbn [mbind option_bind].
  destruct (Z.eqb_spec (n_size v) 0) as [Hz | Hnz].
  { exists e. split_and!; try done; [apply framed_refl | by exists live |]. left. by rewrite Hz, Hdoc0. }
  destruct (alloc_spec (n_size v + 1) (OBuf (replicate (Z.to_nat (n_size v + 1)) 0)) (fs e) live Hh) as (q & h & E & Hcase); [lia |].
  rewrite E. cbn [mbind option_bind]. destruct Hcase as [(-> & Em & Hh1) | (Hq & Hfree & z & live1 & P1 & Hh1)].
  { cbn [Z.eqb]. exists (set_fs (set_hp h (fs e)) e). split; [done |]. split; [exact Ho |]. split; [done |].
    split; [apply framed_hp, framed_refl |]. split; [done |]. split; [by exists live |]. right. split; [exact Hdoc0 | by exists h]. }
  rewrite (proj2 (Z.eqb_neq q 0)) by done. set (s1 := put q _ _) in *.
  assert (F1 : framed (fs e) s1) by (apply framed_put, framed_hp, framed_refl).
  assert (L1 : store s1 !! q = Some (OBuf (replicate (Z.to_nat (n_size v + 1)) 0))) by (cbn; by rewrite lookup_insert_eq).
  assert (Hback : forall s2, framed (fs e) s2 -> hp s2 = hp s1 -> (exists o, store s2 = <[q := o]> (store (fs e))) ->
    exists s3, release q s2 = Some s3 /\ framed (fs e) s3 /\ store s3 = store (fs e) /\
      exists live', heap_ok s3 live' /\ Permutation live' live).
  { intros s2 F2 Eh (o & Es). assert (Hh2 : heap_ok s2 live1).
    { apply (heap_ok_store s1); [done | done |]. rewrite Es. cbn. rewrite !dom_insert. done. }
    destruct (release_perm q z s2 live1 live Hh2 P1) as (h3 & live3 & E3 & P3 & Hh3); [rewrite Es, lookup_insert_eq; by eexists |].
    eexists. split; [exact E3 |]. split; [by apply framed_store, framed_hp |]. split; [| by exists live3].
    cbn. rewrite Es. by apply delete_insert_id. }
  rewrite (read_holds s1 p v c (n_size v)) by (done || by apply holds_fresh). cbn [mbind option_bind].
  set (t := take (Z.to_nat (n_size v)) c). assert (Ht : Z.of_nat (List.length t) <= n_size v) by (unfold t; rewrite length_take; lia).
  destruct (Z.leb_spec (Z.of_nat (List.length t)) 0) as [Hle | Hgt].
  { destruct (Hback s1) as (s3 & -> & F3 & S3 & Hh3); [done | done | by eexists |]. cbn [mbind option_bind].
    exists (set_fs s3 e). split; [done |]. split; [exact Ho |]. split_and!; try done. left. destruct t; [| simpl in Hle; lia]. exact Hdoc0. }
  rewrite (buf_write_at q s1 _ 0 t L1) by (rewrite ?length_replicate; lia). cbn [mbind option_bind].
  rewrite splice_front by (rewrite length_replicate; lia). set (l2 := t ++ _).
  assert (Hl2 : Z.of_nat (List.length l2) = n_size v + 1) by (unfold l2; rewrite length_app, length_drop, length_replicate; lia).
  rewrite (buf_write_at q _ l2 (Z.of_nat (List.length t)) [0]) by (cbn; rewrite ?lookup_insert_eq; done || lia).
  cbn [mbind option_bind]. set (s2 := put q _ _).
  assert (Es2 : store s2 = <[q := OBuf (splice (Z.to_nat (Z.of_nat (List.length t))) [0] l2)]> (store (fs e))).
  { unfold s2, put, s1. cbn. by rewrite !insert_insert_eq. }
  rewrite (buf_read_take q s2 (splice (Z.to_nat (Z.of_nat (List.length t))) [0] l2));
    [| by rewrite Es2, lookup_insert_eq | rewrite length_splice; simpl; lia].
  cbn [mbind option_bind]. replace (take _ (splice _ [0] l2)) with (t ++ [0]).
  2:{ unfold splice, l2. rewrite Nat2Z.id, take_app_length, (take_ge [0]) by (rewrite length_app, length_drop, length_replicate; simpl; lia).
      rewrite app_assoc, take_app_le by (rewrite length_app; simpl; lia). by rewrite take_ge by (rewrite length_app; simpl; lia). }
  destruct Ho as (Hl & HF & Hcount).
  destruct (split_text_spec (t ++ [0]) (S (S (List.length (t ++ [0])))) 0 0 (LINES e) (LINE_COUNT e) [])
    as (l' & n' & -> & R1 & R2 & R3 & R4); try done; try lia; [split; [constructor | by intros ?%elem_of_nil] |].
  cbn [mbind option_bind]. destruct (Hback s2) as (s3 & -> & F3 & S3 & Hh3); [by apply framed_put, framed_put | done | by eexists |].
  cbn [mbind option_bind]. eexists. split; [reflexivity |]. split_and!; try done.
  left. unfold doc. cbn [LINES LINE_COUNT set_lines]. rewrite R4, Hn0. done.
Qed.

(** ** Saving *)

Lemma files_ok_fresh m q l : files_ok m -> m !! q = None -> files_ok (<[q := OBuf l]> m) /\ orphan (<[q := OBuf l]> m) q.
Proof.
  intros [F1 F2 F3 F4] Hq.
  assert (Hnode : forall p v, <[q := OBuf l]> m !! p = Some (ONode v) -> m !! p = Some (ONode v)).
  { intros p v. rewrite lookup_insert. case_decide; [done |]. done. }
  assert (Hram : forall r f, <[q := OBuf l]> m !! r = Some (ORam f) -> m !! r = Some (ORam f)).
  { intros r f. rewrite lookup_insert. case_decide; done. }
  split; [split |].
  - intros p v r Hp Hv. destruct (F1 p v r) as (fd & buf & E1 & E2 & E3); [auto | done |]. exists fd, buf.
    rewrite !lookup_insert_ne by congruence. done.
  - intros p p' v w r Hp Hp'. apply (F2 p p' v w r); auto.
  - intros r f Hr. destruct (F3 r f) as [buf E]; [auto |]. exists buf. rewrite lookup_insert_ne; congruence.
  - intros r1 r2 f1 f2 H1' H2'. apply F4; auto.
  - intros r f Hr. destruct (F3 r f) as [buf E]; [auto |]. congruence.
Qed.

Lemma files_ok_delete m q l : files_ok m -> m !! q = Some (OBuf l) -> orphan m q -> files_ok (delete q m).
Proof.
  intros [F1 F2 F3 F4] Hq Ho.
  assert (Hkeep : forall p o, delete q m !! p = Some o -> m !! p = Some o) by (intros p o Ho'; by apply lookup_delete_Some in Ho' as []).
  split.
  - intros p v r Hp Hv. destruct (F1 p v r) as (fd & buf & E1 & E2 & E3); [by apply Hkeep | done |]. exists fd, buf.
    assert (q <> r) by congruence. assert (q <> data fd) by (intros ->; by apply (Ho r fd)).
    by rewrite !lookup_delete_ne.
  - intros p p' v w r Hp Hp'. apply (F2 p p' v w r); by apply Hkeep.
  - intros r f Hr. apply Hkeep in Hr. destruct (F3 r f) as [buf E]; [done |]. exists buf.
    rewrite lookup_delete_ne; [done | intros ->; by apply (Ho r f)].
  - intros r1 r2 f1 f2 H1' H2'. apply F4; by apply Hkeep.
Qed.

Lemma files_ok_size m p v n : files_ok m -> m !! p = Some (ONode v) -> files_ok (<[p := ONode (set_size n v)]> m).
Proof.
  intros [F1 F2 F3 F4] Hp.
  assert (Hnode : forall q w, <[p := ONode (set_size n v)]> m !! q = Some (ONode w) ->
    exists w', m !! q = Some (ONode w') /\ private_data w' = private_data w).
  { intros q w [[<- [= <-]] | [_ Hq]]%lookup_insert_Some; [by exists v | by exists w]. }
  assert (Hother : forall q o, (forall w, o <> ONode w) -> m !! q = Some o -> <[p := ONode (set_size n v)]> m !! q = Some o).
  { intros q o Ho Hq. rewrite lookup_insert_ne; [done | intros ->; rewrite Hp in Hq; injection Hq as <-; by destruct (Ho v)]. }
  assert (Hram : forall r f, <[p := ONode (set_size n v)]> m !! r = Some (ORam f) -> m !! r = Some (ORam f))
    by (intros r f [[_ ?] | [_ ?]]%lookup_insert_Some; done).
  split.
  - intros q w r Hq Hw. destruct (Hnode q w Hq) as (w' & Hq' & Ew). destruct (F1 q w' r Hq') as (fd & buf & E1 & E2 & E3); [congruence |].
    exists fd, buf. split; [by apply Hother | split; [by apply Hother | done]].
  - intros q q' w w' r Hq Hq' Hw Hw'. destruct (Hnode q w Hq) as (u & Hu & Eu). destruct (Hnode q' w' Hq') as (u' & Hu' & Eu').
    apply (F2 q q' u u' r); congruence.
  - intros r f Hr. destruct (F3 r f) as [buf E]; [auto |]. exists buf. by apply Hother.
  - intros r1 r2 f1 f2 H1' H2'. apply F4; auto.
Qed.

Lemma content_holds m p v c : holds m p v c -> content m p = Some c.
Proof. intros (r & fd & buf & E1 & E2 & E3 & E4 & E5 & ->). by eapply content_intro. Qed.

Lemma holds_delete m p v c q : holds m p v c -> q <> p -> (forall d, m !! q <> Some (ORam d)) -> orphan m q -> holds (delete q m) p v c.
Proof.
  intros (r & fd & buf & E1 & E2 & E3 & E4 & E5 & E6) Hp Hr Ho. exists r, fd, buf.
  assert (q <> data fd) by (intros ->; by apply (Ho r fd)). assert (q <> r) by (intros ->; by apply (Hr fd)).
  rewrite !lookup_delete_ne by done. done.
Qed.

Lemma save_loop_spec q lines : forall off s l, store s !! q = Some (OBuf l) -> 0 <= off ->
  off + Z.of_nat (List.length (text_of (cstr <$> lines))) <= Z.of_nat (List.length l) ->
  exists l', save_loop lines q off s = Some (off + Z.of_nat (List.length (text_of (cstr <$> lines))), put q (OBuf l') s) /\
    List.length l' = List.length l /\
    take (Z.to_nat off + List.length (text_of (cstr <$> lines))) l' = take (Z.to_nat off) l ++ text_of (cstr <$> lines).
Proof.
  induction lines as [| x lines IH]; intros off s l E Ho Hl.
  - exists l. cbn. rewrite Z.add_0_r. unfold put. rewrite (insert_id (store s)) by done. rewrite Nat.add_0_r, app_nil_r. by destruct s.
  - cbn [save_loop]. unfold text_of in *. cbn [fmap list_fmap map concat] in *. rewrite !length_app in Hl. simpl in Hl.
    rewrite (buf_write_at q s l) by (rewrite ?length_app; simpl; done || lia). cbn [mbind option_bind].
    set (l1 := splice (Z.to_nat off) (cstr x ++ [10]) l).
    assert (Hl1 : List.length l1 = List.length l) by (unfold l1; rewrite length_splice; rewrite ?length_app; simpl; lia).
    destruct (IH (off + Z.of_nat (List.length (cstr x)) + 1) (put q (OBuf l1) s) l1) as (l' & Es & Hl' & Et);
      [cbn; by rewrite lookup_insert_eq | lia | unfold text_of; rewrite Hl1; cbn [fmap] in *; lia |].
    exists l'. rewrite Es. split; [| split].
    + do 2 f_equal; [rewrite !length_app; simpl; lia |]. unfold put. cbn. by rewrite insert_insert_eq.
    + congruence.
    + replace (Z.to_nat (off + Z.of_nat (List.length (cstr x)) + 1)) with (Z.to_nat off + List.length (cstr x ++ [10%Z]))%nat in Et
        by (rewrite length_app; simpl; lia).
      assert (Hw : (Z.to_nat off + List.length (cstr x ++ [10%Z]) <= List.length l)%nat) by (rewrite length_app; simpl; lia).
      unfold text_of in Et. unfold l1 in Et. clear -Et Hw. revert Et Hw. generalize (cstr x ++ [10]). intros w Et Hw.
      rewrite length_app, Nat.add_assoc, Et, app_assoc. f_equal.
      unfold splice. rewrite (take_ge w) by lia. rewrite app_assoc. apply take_app_length'. rewrite length_app, length_take. lia.
Qed.

Lemma content_delete m q l x : m !! q = Some (OBuf l) -> orphan m q -> content (delete q m) x = content m x.
Proof.
  intros Hq Ho. unfold content, node_in. rewrite lookup_delete. case_decide as E; [subst x; by rewrite Hq |].
  destruct (m !! x) as [[w | |] |]; try done. cbn [mbind option_bind]. destruct (private_data w) as [| r |]; try done.
  rewrite lookup_delete. case_decide as E2; [subst r; by rewrite Hq |].
  destruct (m !! r) as [[| f |] |] eqn:Er; try done. rewrite lookup_delete_ne; [done |]. intros E3. by apply (Ho r f).
Qed.

Lemma content_size m p v n x : m !! p = Some (ONode v) -> content (<[p := ONode (set_size n v)]> m) x = content m x.
Proof.
  intros Hp. unfold content, node_in. rewrite lookup_insert.
  assert (E : forall w, (match private_data w with
    | PRam r => match <[p := ONode (set_size n v)]> m !! r with
       | Some (ORam fd) => match <[p := ONode (set_size n v)]> m !! data fd with Some (OBuf buf) => Some (file_of fd buf) | _ => None end
       | _ => None end | _ => None end) =
    match private_data w with
    | PRam r => match m !! r with
       | Some (ORam fd) => match m !! data fd with Some (OBuf buf) => Some (file_of fd buf) | _ => None end
       | _ => None end | _ => None end).
  { intros w. destruct (private_data w) as [| r |]; try done. rewrite lookup_insert. case_decide as E1; [subst r; by rewrite Hp |].
    destruct (m !! r) as [[| f |] |]; try done. rewrite lookup_insert. case_decide as E2; [| done]. rewrite <- E2, Hp. done. }
  case_decide as Ex; [subst x; rewrite Hp; exact (E (set_size n v)) |].
  destruct (m !! x) as [[w | |] |]; try done. exact (E w).
Qed.

Lemma same_shape_size m p v n : m !! p = Some (ONode v) -> same_shape m (<[p := ONode (set_size n v)]> m).
Proof. intros Hp q. rewrite node_in_insert. case_decide as E; [| done]. subst q. unfold node_in. by rewrite Hp. Qed.
Lemma same_shape_delete m q l : m !! q = Some (OBuf l) -> same_shape m (delete q m).
Proof. intros Hq x. unfold node_in. rewrite lookup_delete. case_decide as E; [subst x; by rewrite Hq | done]. Qed.
Lemma same_shape_fresh m q l : m !! q = None -> same_shape m (<[q := OBuf l]> m).
Proof. intros Hq x. unfold node_in. rewrite lookup_insert. case_decide as E; [subst x; by rewrite Hq | done]. Qed.
Lemma same_shape_trans m1 m2 m3 : same_shape m1 m2 -> same_shape m2 m3 -> same_shape m1 m3.
Proof. intros E1 E2 x. by rewrite E2. Qed.

Lemma doc_lines e : ed_ok e -> Forall (fun l => clean l /\ (List.length l <= 79)%nat) (doc e).
Proof.
  intros (Hl & HF & Hc). unfold doc. apply Forall_fmap, Forall_take. eapply Forall_impl; [exact HF |].
  intros l (Hlen & H79 & H10). split; [split; [apply cstr_no_nul | exact H10] |].
  rewrite (cstr_take l 79 H79). etrans; [apply length_cstr |]. rewrite length_take. lia.
Qed.

Lemma doc_text_length e : ed_ok e -> Z.of_nat (List.length (text_of (doc e))) <= 20480.
Proof.
  intros Ho. pose proof (text_of_length _ (doc_lines e Ho)). pose proof (doc_length e Ho). destruct Ho as (_ & _ & Hc). lia.
Qed.

(** What saving does to the files: [p] has the text over what it had, and its node
    the length of the text; or the heap refused memory and the contents are as before. *)
Record saved s s' (p : Z) (v : VfsNode) (c text : list Z) : Prop := {
  sv_frame : exists x, framed (set_ext x s) s';
  sv_shape : same_shape (store s) (store s');
  sv_other : forall q, q <> p -> content (store s') q = content (store s) q;
  sv_this : exists v', read_fn v' = read_fn v /\
    ((holds (store s') p v' (overlay 0 text c) /\ n_size v' = Z.of_nat (List.length text)) \/
     (short 40960 1 (hp s) /\ holds (store s') p v' c)) }.

(** The write into the file, and the length stored in its node. *)
Lemma save_write s live p v c q z l text : heap_ok s live -> files_ok (store s) -> node_in (store s) p = Some v ->
  write_fn v = Some RamfsWrite -> content (store s) p = Some c -> store s !! q = Some (OBuf l) -> orphan (store s) q ->
  (exists live0, Permutation live ((q, z) :: live0)) -> Z.of_nat (List.length text) <= 20480 ->
  exists r s1 s2 s3 live', Vfs.write p 0 text s = Some (r, s1) /\
    set_node_size p (Z.of_nat (List.length text)) s1 = Some s2 /\ release q s2 = Some s3 /\
    heap_ok s3 live' /\ files_ok (store s3) /\ S (List.length live') = List.length live /\ framed s s3 /\
    same_shape (store s) (store s3) /\ (forall x, x <> p -> content (store s3) x = content (store s) x) /\
    exists v', read_fn v' = read_fn v /\
      ((holds (store s3) p v' (overlay 0 text c) /\ n_size v' = Z.of_nat (List.length text)) \/
       (short 40960 0 (hp s) /\ holds (store s3) p v' c)).
Proof.
  intros Hh Hf Hv Hw Hc Hq Horph [live0 HP] Ht.
  assert (Hp : p <> 0) by (intros ->; unfold node_in in Hv; by rewrite (ho_null _ _ Hh) in Hv).
  destruct (ramfs_write_spec s live p v c 0 text Hh Hf Hv Hc) as (s1 & live1 & Hh1 & Hl1 & Hf1 & Hcase); [lia | lia |].
  assert (R : exists r v1 c1, ramfs_write p 0 text s = Some (r, s1) /\ framed s s1 /\ same_shape (store s) (store s1) /\
    (forall x, x <> p -> content (store s1) x = content (store s) x) /\ node_in (store s1) p = Some v1 /\
    read_fn v1 = read_fn v /\ content (store s1) p = Some c1 /\ (c1 = overlay 0 text c \/ short 40960 0 (hp s) /\ c1 = c) /\
    store s1 !! q = Some (OBuf l) /\ orphan (store s1) q).
  { destruct Hcase as [[E Hrw] | (E & Hfr & Es & _ & Href)].
    - destruct (rw_orphan _ _ _ _ _ Hrw q l Hq Horph) as [Hq1 Ho1].
      eexists _, (set_size (Z.of_nat (List.length (overlay 0 text c))) v), _. split; [exact E |]. split; [apply Hrw |].
      split; [apply (rewritten_untouched s s1 p v _ Hv Hrw) |].
      split; [intros x Hx; by rewrite (rw_content _ _ _ _ _ Hrw), decide_False |].
      split; [by rewrite (rw_node _ _ _ _ _ Hrw), decide_True |]. split; [done |].
      split; [by rewrite (rw_content _ _ _ _ _ Hrw), decide_True |]. split; [by left | done].
    - eexists _, v, c. rewrite Es. split; [exact E |]. split; [done |]. split; [by intros x |]. split; [done |]. split; [done |].
      split; [done |]. split; [done |]. split; [right; split; [by eapply (short_le _ _ 0); [| | exact Href]; lia | done] | done]. }
  destruct R as (r & v1 & c1 & E & F1 & Sh1 & Ho1 & Hv1 & Er1 & Hc1 & Hc1' & Hq1 & Horph1). clear Hcase.
  assert (Hp1 : store s1 !! p = Some (ONode v1)).
  { unfold node_in in Hv1. destruct (store s1 !! p) as [[w | |] |]; try done. congruence. }
  set (s2 := put p (ONode (set_size (Z.of_nat (List.length text)) v1)) s1).
  assert (Hh2 : heap_ok s2 live1) by (apply heap_ok_put; [done | by rewrite Hp1]).
  assert (Hqp : q <> p) by congruence.
  assert (Hq2 : store s2 !! q = Some (OBuf l)) by (cbn; by rewrite lookup_insert_ne).
  assert (Horph2 : orphan (store s2) q).
  { intros x f Hx. cbn in Hx. rewrite lookup_insert in Hx. case_decide; [done |]. by apply (Horph1 x). }
  destruct (release_spec q s2 live1 Hh2) as (h3 & z3 & live3 & E3 & P3 & Hh3); [by rewrite Hq2 |].
  eexists r, s1, s2, _, live3. split.
  { unfold Vfs.write. rewrite (proj2 (Z.eqb_neq p 0)) by done. unfold node_at. rewrite Hv. cbn [mbind option_bind]. by rewrite Hw. }
  split; [unfold set_node_size, node_at; by rewrite Hv1 |]. split; [exact E3 |]. split; [exact Hh3 |].
  split; [cbn [store set_store]; apply (files_ok_delete _ q l); [by apply files_ok_size | done | done] |].
  split; [apply Permutation_length in P3; cbn in P3; congruence |].
  split; [by apply framed_store, framed_hp, framed_put |]. cbn [store set_store].
  split; [eapply same_shape_trans; [exact Sh1 |]; eapply same_shape_trans; [by apply same_shape_size | by eapply same_shape_delete] |].
  split; [intros x Hx; rewrite (content_delete _ q l) by done; cbn; by rewrite content_size, Ho1 |].
  exists (set_size (Z.of_nat (List.length text)) v1). split; [done |].
  assert (Hh' : holds (delete q (store s2)) p (set_size (Z.of_nat (List.length text)) v1) c1).
  { apply holds_delete; [| done | by intros d; rewrite Hq2 | done]. cbn. by apply holds_size, holds_content. }
  destruct Hc1' as [-> | [? ->]]; [left | right]; done.
Qed.

(** [e'] has the lines of [e], and the keys. *)
Definition same_doc e e' : Prop :=
  LINES e' = LINES e /\ LINE_COUNT e' = LINE_COUNT e /\ EDIT_FILENAME e' = EDIT_FILENAME e /\ typed (fs e') = typed (fs e).

Lemma same_doc_ok e e' : same_doc e e' -> ed_ok e -> ed_ok e' /\ doc e' = doc e.
Proof. intros (E1 & E2 & _) Ho. unfold ed_ok, doc. by rewrite E1, E2. Qed.

Lemma said e s e' : (exists x, framed (set_ext x (fs e)) s) -> typed s = typed (fs e) -> shown (typed s) (set_fs s e) e' ->
  same_doc e e' /\ store (fs e') = store s /\ hp (fs e') = hp s /\ exists x, framed (set_ext x (fs e)) (fs e').
Proof.
  intros [x Fx] Ht (E1 & E2 & E3). assert (Es : fs e' = set_ext (ext (fs e')) s) by exact E3.
  split; [rewrite E1; split_and!; try done; cbn; congruence |]. rewrite Es. split; [done |]. split; [done |].
  exists (ext (fs e')). unfold framed in *. rewrite Fx. done.
Qed.

Lemma framed_typed s s' : framed s s' -> typed s' = typed s.
Proof. unfold framed. intros ->. done. Qed.

Lemma save_to_spec e live p v c : ed_ok e -> vfs_ok (fs e) live -> node_in (store (fs e)) p = Some v ->
  write_fn v = Some RamfsWrite -> content (store (fs e)) p = Some c ->
  exists e1 live1, save_to p e = Some e1 /\ same_doc e e1 /\ heap_ok (fs e1) live1 /\ files_ok (store (fs e1)) /\ List.length live1 = List.length live /\
    saved (fs e) (fs e1) p v c (text_of (doc e)).
Proof.
  intros Ho [Hh Ht Hf] Hv Hw Hc. unfold save_to. change (EDITOR_MAX_LINES * EDITOR_LINE_LEN) with 20480.
  set (b0 := replicate (Z.to_nat 20480) 0). assert (Hb0 : List.length b0 = Z.to_nat 20480) by apply length_replicate. clearbody b0.
  destruct (alloc_spec 20480 (OBuf b0) (fs e) live Hh) as (q & h & E & Hcase); [lia |]. rewrite E. cbn [mbind option_bind].
  destruct Hcase as [(-> & Em & Hh1) | (Hq & Hfree & z & live1 & P1 & Hh1)].
  { cbn [Z.eqb]. set (s1 := set_hp h (fs e)). eexists _, live. split; [reflexivity |].
    assert (F1 : framed (set_ext (ext (fs e)) (fs e)) s1) by (destruct (fs e); apply framed_hp, framed_refl).
    destruct (said e s1 (say (str "Error: out of memory" ++ [10]) (set_fs s1 e))) as (D & Es & Eh & Fx);
      [by eexists | done | apply shown_say, shown_refl |].
    split; [done |]. split; [by apply (heap_ok_store s1); [| | rewrite Es] |]. split; [by rewrite Es |]. split; [done |].
    split; [exact Fx | by rewrite Es | by rewrite Es |]. exists v. split; [done |]. right. rewrite Es.
    split; [| by apply holds_content]. apply (short_le 40960 _ 0); [lia.. |]. apply (short_now _ 20480 _ h); [lia | done]. }
  rewrite (proj2 (Z.eqb_neq q 0)) in * by done. set (s1 := put q _ _) in *.
  pose proof (alloc_calls 40960 _ _ _ _ _ E ltac:(lia)) as K1.
  assert (L1 : store s1 !! q = Some (OBuf b0)) by (cbn; by rewrite lookup_insert_eq).
  pose proof (doc_text_length e Ho) as Hlen. unfold doc in Hlen.
  destruct (save_loop_spec q (take (Z.to_nat (LINE_COUNT e)) (LINES e)) 0 s1 b0 L1) as (l' & El & Hl' & Et); [lia | rewrite Hb0; lia |].
  fold (doc e) in *. rewrite El. cbn [mbind option_bind]. rewrite Z.add_0_l. set (s2 := put q (OBuf l') s1).
  assert (L2 : store s2 !! q = Some (OBuf l')) by (cbn; by rewrite lookup_insert_eq).
  rewrite (buf_read_take q s2 l') by (done || lia). cbn [mbind option_bind].
  change (Z.to_nat 0) with 0%nat in Et. rewrite Nat.add_0_l, take_0 in Et. rewrite Nat2Z.id, Et. cbn [app].
  assert (Es2 : store s2 = <[q := OBuf l']> (store (fs e))) by (unfold s2, s1; cbn; by rewrite insert_insert_eq).
  destruct (files_ok_fresh (store (fs e)) q l' Hf Hfree) as [Hf2 Horph]. rewrite <- Es2 in Hf2, Horph.
  assert (Hh2 : heap_ok s2 live1) by (apply heap_ok_put; [done | by rewrite L1]).
  assert (Hhold : holds (store s2) p v c) by (rewrite Es2; apply holds_fresh; [by apply holds_content | done]).
  destruct (save_write s2 live1 p v c q z l' (text_of (doc e)) Hh2 Hf2) as (r & s3 & s4 & s5 & live5 & E3 & E4 & E5 & Hh5 & Hf5 & Hl5 & F5 & Sh5 & Ho5 & Hc5);
    [by eapply holds_node | done | by eapply content_holds | done | done | by exists live | done |].
  rewrite E3. cbn [mbind option_bind]. rewrite E4. cbn [mbind option_bind]. rewrite E5. cbn [mbind option_bind].
  assert (Fx : framed (set_ext (ext (fs e)) (fs e)) s5).
  { apply (framed_trans _ s2); [| done]. destruct (fs e); by apply framed_put, framed_put, framed_hp, framed_refl. }
  assert (Ty : typed s5 = typed (fs e)) by (by rewrite (framed_typed _ _ F5)).
  eexists _, live5. split; [reflexivity |]. match goal with |- same_doc _ ?x /\ _ => set (e1 := x) end.
  destruct (said e s5 e1) as (D & Es & Eh & Fx1);
    [by eexists | done | unfold e1; apply shown_say, shown_uint, shown_say, shown_uint, shown_say, shown_cputs, shown_say, shown_refl |].
  split; [done |]. split; [by apply (heap_ok_store s5); [| | rewrite Es] |]. split; [by rewrite Es |].
  split; [apply Permutation_length in P1; cbn in P1; congruence |]. split; [done | | |]; rewrite Es.
  - eapply same_shape_trans; [by apply (same_shape_fresh _ q l') |]. rewrite <- Es2. exact Sh5.
  - intros x Hx. rewrite Ho5 by done. rewrite Es2. rewrite <- (content_delete _ q l' x), delete_insert_id; [done | done | by rewrite lookup_insert_eq |].
    by rewrite <- Es2.
  - destruct Hc5 as (v' & Hr' & [Hc5 | [Hs5 Hc5]]); exists v'; (split; [done |]); [by left | right; split; [| done]].
    exact (short_after _ 1 0 _ _ K1 Hs5).
Qed.

Lemma overlay_front text c : overlay 0 text c = text ++ drop (List.length text) c.
Proof. unfold overlay. rewrite take_0. done. Qed.

Lemma holds_ext s x p v c : holds (store (set_ext x s)) p v c <-> holds (store s) p v c.
Proof. done. Qed.

Lemma heap_ok_same s s' live : heap_ok s live -> hp s' = hp s -> store s' = store s -> heap_ok s' live.
Proof. intros Hh E1 E2. apply (heap_ok_store s); [done | done | by rewrite E2]. Qed.

(** What a save leaves is read back whole by a load, whoever loads. *)
Lemma load_saved e1 live p v c d : heap_ok (fs e1) live -> Forall (fun l => clean l /\ (List.length l <= 79)%nat) d ->
  (List.length d <= 256)%nat -> holds (store (fs e1)) p v (overlay 0 (text_of d) c) -> n_size v = Z.of_nat (List.length (text_of d)) ->
  read_fn v = Some RamfsRead ->
  forall e2, fs e2 = fs e1 -> ed_ok e2 -> LINE_COUNT e2 = 0 ->
  exists e3, editor_load p e2 = Some e3 /\ ed_ok e3 /\ (doc e3 = d \/ short 40960 0 (hp (fs e2))).
Proof.
  intros Hh Hd Hlen Hc Hn Hr e2 E2 Ho H0'. pose proof (text_of_length d Hd) as Ht.
  destruct (load_spec e2 live p v (overlay 0 (text_of d) c)) as (e3 & E & Ho3 & _ & _ & _ & _ & Hcase);
    [done | done | by rewrite E2 | by rewrite E2 | done | lia |].
  exists e3. split; [done |]. split; [done |]. destruct Hcase as [-> | (_ & h & Em)]; [left | right; apply (short_now _ (n_size v + 1) _ h); [lia | done]].
  rewrite Hn, Nat2Z.id, overlay_front, take_app_length. unfold load_doc. rewrite parse_text_of by done. by rewrite take_ge.
Qed.

(** The file a save goes to: a RAM file, or none yet and room for it in the root. *)
Inductive target (s : vfs H X) (nm : list Z) : list Z -> Prop :=
| target_file p v c : lookup_name (store s) (VFS_ROOT s) nm = Some p -> p <> 0 -> node_in (store s) p = Some v ->
    read_fn v = Some RamfsRead -> write_fn v = Some RamfsWrite -> content (store s) p = Some c -> target s nm c
| target_new v : lookup_name (store s) (VFS_ROOT s) nm = Some 0 -> RAMFS_ROOT s = VFS_ROOT s -> name_ok nm ->
    node_at (VFS_ROOT s) s = Some v -> is_dir v = true -> (List.length (children v) < 128)%nat -> target s nm [].

(** The entry is found, or made. *)
Lemma find_or_create e live c : vfs_ok (fs e) live -> target (fs e) (cstr (EDIT_FILENAME e)) c ->
  exists s1 live1, vfs_ok s1 live1 /\ framed (fs e) s1 /\
    (editor_save e = Some (say (str "Error: could not create file" ++ [10]) (set_fs s1 e)) /\ short SIZEOF_NODE 2 (hp (fs e)) \/
     (exists j, (j <= 3)%nat /\ calls SIZEOF_NODE j (hp (fs e)) (hp s1)) /\
     exists p v, editor_save e = save_to p (set_fs s1 e) /\ lookup_name (store s1) (VFS_ROOT s1) (cstr (EDIT_FILENAME e)) = Some p /\
       node_in (store s1) p = Some v /\ read_fn v = Some RamfsRead /\ write_fn v = Some RamfsWrite /\
       content (store s1) p = Some c /\ forall q, q <> p -> content (store s1) q = content (store (fs e)) q).
Proof.
  intros Hok Ht. pose proof Hok as [Hh Htree Hf]. unfold editor_save. destruct Ht as [p v c Hl Hp Hv Hr Hw Hc | v Hl Hroot Hnm Hv Hd Hch].
  - rewrite (finddir_lookup (fs e) (VFS_ROOT (fs e)) _ _ p Htree Hl). cbn [mbind option_bind].
    rewrite (proj2 (Z.eqb_neq p 0)) by done. cbn [mbind option_bind]. rewrite (proj2 (Z.eqb_neq p 0)) by done.
    exists (fs e), live. split; [done |]. split; [apply framed_refl |]. right. split; [exists 0%nat; split; [lia | constructor] |]. exists p, v. done.
  - rewrite (finddir_lookup (fs e) (VFS_ROOT (fs e)) _ _ 0 Htree Hl). cbn [mbind option_bind Z.eqb].
    unfold create_file. rewrite Hroot.
    destruct (create_file_spec (fs e) live _ v _ Hok Hv Hd Hnm Hl) as (p & s1 & live1 & E & F1 & Hcase).
    rewrite E. cbn [mbind option_bind]. destruct Hcase as [(-> & Es & Hh1 & HP & Hwhy) | (f & b & K & Hcr)].
    + cbn [Z.eqb]. exists s1, live1. split; [split; [done | by rewrite (framed_root _ _ F1), Es | by rewrite Es] |]. split; [done |].
      left. split; [done |]. by destruct Hwhy as [Hfull | Hoom]; [lia |].
    + destruct (created_ok (fs e) live _ v _ s1 live1 p f b Hok Hv Hd Hnm Hl F1 Hcr) as (Hok1 & _ & Hl1 & Hc1).
      pose proof (cr_ne0 _ _ _ _ _ _ _ _ _ _ Hcr) as (Hp0 & _). rewrite (proj2 (Z.eqb_neq p 0)) by done.
      exists s1, live1. split; [done |]. split; [done |]. right. split; [by exists 3%nat |].
      exists p, (set_parent (VFS_ROOT (fs e)) (file_node (cstr (EDIT_FILENAME e)) (PRam f))).
      split; [done |]. split; [by rewrite (framed_root _ _ F1) |]. split.
      { pose proof (cr_store _ _ _ _ _ _ _ _ _ _ Hcr) as Es. rewrite Es. unfold node_in, linked. by rewrite lookup_insert_eq. }
      split; [done |]. split; [done |]. split; [by rewrite Hc1, decide_True |]. intros q Hq. by rewrite Hc1, decide_False.
Qed.

(** C34: A saved document comes back.  The name is that of a RAM file of the root
    directory, whatever it holds and whatever size its node has, or is not there, is of
    at most 63 bytes and the root has room.  (A file of the initrd is not written:
    [save_to_initrd] below.)  Saving writes the text of the document over the file's,
    making the file when there is none, and leaves the document and every other file as
    they were, and the file system fit for the next command; opened again, the file
    gives the document back, unless the heap refuses one of the areas of at most 40960
    bytes that are asked for.  What the file had past the text is still in it. *)
Theorem save_load e live c : ed_ok e -> vfs_ok (fs e) live -> target (fs e) (cstr (EDIT_FILENAME e)) c ->
  exists e1 live1, editor_save e = Some e1 /\ same_doc e e1 /\ vfs_ok (fs e1) live1 /\
    (short 40960 4 (hp (fs e)) \/
     exists p, finddir (VFS_ROOT (fs e1)) (cstr (EDIT_FILENAME e)) (fs e1) = Some (p, fs e1) /\
       content (store (fs e1)) p = Some (text_of (doc e) ++ drop (List.length (text_of (doc e))) c) /\
       (forall q, q <> p -> content (store (fs e1)) q = content (store (fs e)) q) /\
       forall e2, fs e2 = fs e1 -> ed_ok e2 -> LINE_COUNT e2 = 0 ->
         exists e3, editor_load p e2 = Some e3 /\ ed_ok e3 /\ (doc e3 = doc e \/ short 40960 0 (hp (fs e2)))).
Proof.
  intros Ho Hok Ht. destruct (find_or_create e live c Hok Ht) as (s1 & live1 & Hok1 & F1 & Hcase).
  assert (Hty : typed s1 = typed (fs e)) by by apply framed_typed.
  assert (Fx : exists x, framed (set_ext x (fs e)) s1) by (exists (ext (fs e)); destruct (fs e); exact F1).
  destruct Hcase as [[E Href] | ((j & Hj & K) & p & v & E & Hl & Hv & Hr & Hw & Hc & Hother)].
  { destruct (said e s1 (say (str "Error: could not create file" ++ [10]) (set_fs s1 e)) Fx Hty) as (D & Es & Eh & (x & Fx1));
      [apply shown_say, shown_refl |].
    eexists _, live1. split; [exact E |]. split; [exact D |]. split.
    - pose proof Hok1 as [Hh1 Ht1 Hf1]. split; [by apply (heap_ok_same s1) | | by rewrite Es].
      rewrite Es, (framed_root _ _ Fx1). change (VFS_ROOT (set_ext x (fs e))) with (VFS_ROOT (fs e)).
      by rewrite <- (framed_root _ _ F1).
    - left. eapply short_le; [| | exact Href]; unfold SIZEOF_NODE; lia. }
  destruct (save_to_spec (set_fs s1 e) live1 p v c) as (e1 & live2 & E1 & D1 & Hh2 & Hf2 & Hlen & [(x & Fx1) Sh Ho1 (v' & Hr' & Hc')]); try done.
  assert (Hdoc : same_doc e e1) by (destruct D1 as (D1 & D2 & D3 & D4); split_and!; try done; by rewrite D4, <- Hty).
  change (fs (set_fs s1 e)) with s1 in *. change (doc (set_fs s1 e)) with (doc e) in *.
  assert (Er : VFS_ROOT (fs e1) = VFS_ROOT s1) by (by rewrite (framed_root _ _ Fx1)).
  assert (Ht2 : tree_ok (store (fs e1)) (VFS_ROOT s1)) by (apply (tree_ok_shape (store s1)); [done | apply Hh2 | apply Hok1]).
  exists e1, live2. split; [by rewrite E |]. split; [done |]. split; [split; [done | by rewrite Er | done] |].
  destruct Hc' as [[Hh' Hn'] | [Hs _]]; [right | left].
  2:{ apply (short_le 40960 _ (j + 1)); [lia.. |]. apply (short_after _ j 1 _ (hp s1)); [apply (calls_le SIZEOF_NODE); [done | exact K] | exact Hs]. }
  exists p. split; [| split; [by rewrite <- overlay_front; apply (content_holds _ _ v') | split; [intros q Hq; by rewrite Ho1, Hother |]]].
  - apply (finddir_lookup _ (VFS_ROOT s1)); [exact Ht2 | by rewrite Er, (lookup_name_shape (store s1))].
  - apply (load_saved e1 live2 p v' c); try done; [by apply doc_lines | | congruence].
    pose proof (doc_length e Ho). destruct Ho as (_ & _ & ?). lia.
Qed.

(** What there is under a name: nothing, or a RAM file with its bytes. *)
Inductive stored (s : vfs H X) (nm : list Z) : option (list Z) -> Prop :=
| stored_none : lookup_name (store s) (VFS_ROOT s) nm = Some 0 -> stored s nm None
| stored_file p v c : lookup_name (store s) (VFS_ROOT s) nm = Some p -> p <> 0 -> node_in (store s) p = Some v ->
    read_fn v = Some RamfsRead -> content (store s) p = Some c -> sized v c = true -> Z.of_nat (List.length c) < 2 ^ 31 ->
    stored s nm (Some c).

Definition size_of (t : option (list Z)) : Z := match t with Some c => Z.of_nat (List.length c) | None => 0 end.
Definition opened (t : option (list Z)) : document := match t with Some c => load_doc c | None => [] end.

Lemma banner_shown e : shown (typed (fs e)) e (banner e).
Proof. unfold banner. apply shown_say, shown_say, shown_paint, shown_say, shown_uint, shown_say, shown_cputs, shown_say, shown_paint, shown_refl. Qed.

(** The editor before its first command. *)
Lemma open_spec e live nm t : ed_ok e -> LINE_COUNT e = 0 -> vfs_ok (fs e) live -> stored (fs e) nm t ->
  exists existing e1, finddir (VFS_ROOT (fs e)) nm (fs e) = Some (existing, fs e) /\
    (if existing =? 0 then Some (set_fs (fs e) e) else editor_load existing (set_fs (fs e) e)) = Some e1 /\
    ed_ok e1 /\ typed (fs e1) = typed (fs e) /\ store (fs e1) = store (fs e) /\
    (doc e1 = opened t \/ short (size_of t + 1) 0 (hp (fs e)) /\ doc e1 = []).
Proof.
  intros Ho Hn [Hh Htree Hf] [El | p v c El Hp Hv Hr Hc Hsz Hlen].
  - exists 0, e. split; [by apply (finddir_lookup _ (VFS_ROOT (fs e))) |]. cbn [Z.eqb]. split; [by destruct e |].
    split_and!; try done. left. unfold doc. by rewrite Hn.
  - unfold sized in Hsz. apply Z.eqb_eq in Hsz.
    destruct (load_spec e live p v c) as (e1 & E & Ho1 & _ & F & Es & _ & Hcase); [done | done | done | by apply holds_content | done | lia |].
    exists p, e1. split; [by apply (finddir_lookup _ (VFS_ROOT (fs e))) |]. rewrite (proj2 (Z.eqb_neq p 0)) by done.
    replace (set_fs (fs e) e) with e by (by destruct e). split; [done |]. split; [done |]. split; [by apply framed_typed |]. split; [done |].
    destruct Hcase as [-> | (-> & h & Em)]; [left | right].
    + rewrite Hsz, Nat2Z.id. by rewrite take_ge.
    + split; [| done]. cbn [size_of]. rewrite <- Hsz. apply (short_now _ (n_size v + 1) _ h); [lia | done].
Qed.

(** C33: The editor on a file: it opens the document the file holds (a RAM file of the
    size its node has), an empty one when
    there is no file, does to it what the session's keys say, and leaves every file as
    it was while nothing is saved; when the heap has no room for the text, it starts
    from an empty document. *)
Theorem edit_correct fuel filename e live t : List.length (LINES e) = 256%nat -> Forall line_ok (LINES e) ->
  vfs_ok (fs e) live -> (List.length (typed (fs e)) <= fuel)%nat -> stored (fs e) filename t ->
  exists d0, (d0 = opened t \/ short (size_of t + 1) 0 (hp (fs e)) /\ d0 = []) /\
    forall d ks, spec_session fuel fuel (typed (fs e)) d0 = Some (d, ks) ->
    exists e', edit fuel filename e = Some e' /\ ed_ok e' /\ doc e' = d /\ typed (fs e') = ks /\ store (fs e') = store (fs e).
Proof.
  intros Hl HF Hok Hfuel Hst. set (e0 := Ed (LINES e) 0 (strncpy_list 63 filename ++ [0]) (fs e)).
  assert (Ho0 : ed_ok e0) by (unfold ed_ok, e0; cbn; split_and!; done || lia).
  destruct (open_spec e0 live filename t Ho0 eq_refl Hok Hst) as (p & e1 & Ef & El & Ho1 & Ty1 & Es1 & Hd).
  exists (doc e1). split; [done |]. intros d ks Hs.
  pose proof (banner_shown e1) as Sb. destruct (shown_ok _ _ _ Sb Ho1) as [Hob Edb].
  pose proof (proj1 (proj2 Sb)) as Tb. rewrite Ty1 in Tb. change (fs e0) with (fs e) in *.
  destruct (session_run fuel fuel (replicate 80 0) (banner e1) d ks) as (e' & E & A1 & A2 & A3 & A4);
    [done | done | by rewrite Tb | by rewrite Tb, Edb |].
  exists e'. unfold edit. fold e0. change (fs e0) with (fs e). rewrite Ef. cbn [mbind option_bind]. rewrite El.
  split; [exact E |]. split; [done |]. split; [done |]. split; [done |].
  rewrite (same_files_store _ _ A4), (same_files_store _ _ (proj2 (proj2 Sb))). exact Es1.
Qed.
End file.

(** ** A small desk: keys to come and what was printed *)

Definition desk : Type := list Z * list Z.
#[export] Instance desk_console : Console desk := {|
  getchar x := match x.1 with [] => None | c :: cs => Some (c, (cs, x.2)) end;
  putchar c x := (x.1, x.2 ++ [c]) |}.
#[export] Instance desk_colors : Colors desk := fun _ _ x => x.
#[export] Program Instance desk_typist : Typist desk := {| keys x := x.1 |}.
Next Obligation. intros [[| c cs] o]; [done |]. by exists (cs, o). Qed.
Next Obligation. done. Qed.
Next Obligation. done. Qed.
#[export] Instance desk_disk : FatDisk desk := {|
  fat_read_file := fun _ _ x => Some (-1, [], x); fat_write_file := fun _ _ x => Some (-1, x);
  fat_file_count := fun x => (0, x); fat_file_name := fun _ _ x => (None, x); fat_file_size := fun _ x => (0, x) |}.

Definition desk_vfs (ks : list Z) : vfs bump desk :=
  Vfs (hp demo_vfs) (ks, []) (store demo_vfs) 0x500000 (replicate 32 EMPTY_FD) 0x500000 (replicate 64 EMPTY_FILE) 0
    (fun _ => 0) 0 (replicate 64 0) 0.

Lemma desk_ok ks : vfs_ok (desk_vfs ks) [(0x500000, SIZEOF_NODE)].
Proof. destruct demo_ok as [[A1 A2 A3 A4 A5] A6 A7]. split; [split |..]; done. Qed.

(** A heap with room for the calls refuses none of them. *)
Lemma bump_calls B k (h h' : bump) : calls B k h h' ->
  limit h' = limit h /\ brk h' <= brk h + Z.of_nat k * (Z.max B 0 + HEADER_SIZE).
Proof.
  induction 1 as [| k n p h h1 h2 Hn E Hc IH | k p h h1 h2 E Hc IH]; [lia | |]; unfold HEADER_SIZE in *.
  - cbn [kh_malloc bump_heap] in E. unfold bump_malloc, HEADER_SIZE in E. destruct (limit h <? _); simplify_eq; cbn [limit brk] in IH; lia.
  - cbn [kh_free bump_heap] in E. unfold bump_free in E. destruct (remove_area p (areas h)); [| done]. cbn [mbind option_bind] in E.
    simplify_eq. cbn [limit brk] in IH. lia.
Qed.

Lemma bump_not_short B k (h : bump) : 0 < brk h -> 0 <= B -> brk h + Z.of_nat (S k) * (B + HEADER_SIZE) <= limit h -> ~ short B k h.
Proof.
  intros H0 HB Hr (j & h1 & n & h2 & Hj & Hc & Hn & E).
  assert (Hb : 0 < brk h1 /\ brk h <= brk h1).
  { clear -Hc H0. induction Hc as [| k n p h h1 h2 Hn E Hc IH | k p h h1 h2 E Hc IH]; [lia | |].
    - cbn [kh_malloc bump_heap] in E. unfold bump_malloc, HEADER_SIZE in E. destruct (limit h <? _); simplify_eq; cbn [brk] in IH; lia.
    - cbn [kh_free bump_heap] in E. unfold bump_free in E. destruct (remove_area p (areas h)); [| done]. cbn [mbind option_bind] in E.
      simplify_eq. cbn [brk] in IH. lia. }
  apply bump_calls in Hc as [El Hc]. cbn [kh_malloc bump_heap] in E. unfold bump_malloc, HEADER_SIZE in *.
  destruct (Z.ltb_spec (limit h1) (brk h1 + n + 16)) as [Hlt | Hge]; [| injection E; lia].
  pose proof (Z.mul_le_mono_nonneg_r (Z.of_nat j) (Z.of_nat k) (B + 16)). rewrite Z.max_l in Hc by done. lia.
Qed.

Definition desk_lines : list (list Z) :=
  (str "hello" ++ replicate 75 0) :: (str "world" ++ replicate 75 0) :: replicate 254 (replicate 80 0).
Definition desk_ed : ed bump desk := Ed desk_lines 2 (str "f" ++ replicate 63 0) (desk_vfs []).

Lemma desk_line w : no_nul (str w) -> 10 ∉ str w -> List.length (str w) = 5%nat -> line_ok (str w ++ replicate 75 0).
Proof.
  intros Hn Ht Hl. split; [rewrite length_app, length_replicate; lia |]. split.
  - rewrite lookup_app_r, Hl by lia. done.
  - change (replicate 75 0) with (0 :: replicate 74 0). by rewrite cstr_app_nul.
Qed.

Lemma desk_ed_ok : ed_ok desk_ed.
Proof.
  split; [done |]. split; [| by cbn]. constructor; [| constructor; [| apply Forall_replicate]].
  - apply desk_line; [by repeat constructor | | done]. by apply (bool_decide_unpack _).
  - apply desk_line; [by repeat constructor | | done]. by apply (bool_decide_unpack _).
  - split; [done |]. split; [done |]. by apply not_elem_of_nil.
Qed.

Lemma desk_target : target (fs desk_ed) (cstr (EDIT_FILENAME desk_ed)) [].
Proof.
  change (cstr (EDIT_FILENAME desk_ed)) with [102]. apply (target_new _ _ demo_root);
    [exact demo_absent | done | by split; [repeat constructor | cbn; lia] | exact demo_root_at | done | cbn; lia].
Qed.

Lemma save_load_witness : exists e1 p, editor_save desk_ed = Some e1 /\
  content (store (fs e1)) p = Some (str "hello" ++ 10 :: str "world" ++ [10]) /\
  forall e2, fs e2 = fs e1 -> ed_ok e2 -> LINE_COUNT e2 = 0 ->
    exists e3, editor_load p e2 = Some e3 /\ (doc e3 = [str "hello"; str "world"] \/ short 40960 0 (hp (fs e2))).
Proof.
  destruct (save_load desk_ed [(0x500000, SIZEOF_NODE)] [] desk_ed_ok (desk_ok []) desk_target) as (e1 & live1 & E & _ & _ & [Hs | (p & _ & Hc & _ & Hl)]).
  - exfalso. revert Hs. change (hp (fs desk_ed)) with (Bump 0x501000 0x600000 [(0x500000, SIZEOF_NODE)]).
    apply bump_not_short; cbn [brk limit]; unfold HEADER_SIZE; lia.
  - exists e1, p. split; [exact E |]. split; [exact Hc |]. intros e2 E2 Ho Hn. destruct (Hl e2 E2 Ho Hn) as (e3 & E3 & _ & Hd).
    exists e3. split; [exact E3 | exact Hd].
Defined.

(** "i 1", two lines, ".", "p", "e 2", a line, "d 1", "q" on a file that is not there. *)
Definition desk_keys : list Z :=
  str "i 1" ++ 10 :: str "hello" ++ 10 :: str "worlld" ++ [8; 8] ++ str "d" ++ 10 :: str "." ++ 10 :: str "p" ++ 10 ::
  str "e 2" ++ 10 :: str "there" ++ 10 :: str "d 1" ++ 10 :: str "again" ++ 10 :: str "q" ++ [10; 120].
Definition desk_new : ed bump desk := Ed (replicate 256 (replicate 80 0)) 0 (replicate 64 0) (desk_vfs desk_keys).

Lemma edit_correct_witness : exists e', edit 100 (str "f") desk_new = Some e' /\ doc e' = [str "there"; str "again"] /\
  typed (fs e') = [120] /\ store (fs e') = store demo_vfs.
Proof.
  destruct (edit_correct 100 (str "f") desk_new [(0x500000, SIZEOF_NODE)] None) as (d0 & Hd & Hrun).
  - reflexivity.
  - apply Forall_replicate. split; [done |]. split; [done |]. by apply not_elem_of_nil.
  - apply desk_ok.
  - cbn. lia.
  - apply stored_none. exact demo_absent.
  - assert (d0 = []) as -> by (destruct Hd as [-> | [_ ->]]; done).
    destruct (Hrun [str "there"; str "again"] [120]) as (e' & E & _ & Ed & Et & Es); [by vm_compute |].
    exists e'. split; [exact E |]. split; [exact Ed |]. split; [exact Et | exact Es].
Defined.

(** A shorter document saved over a longer file leaves the file's old end in it. *)
Example save_keeps_tail : overlay 0 (text_of [str "b"]) (text_of [str "alpha"; str "beta"]) = str "b" ++ [10] ++ str "pha" ++ [10] ++ str "beta" ++ [10].
Proof. reflexivity. Qed.

(** The root with a file of the initrd, of 3 bytes. *)
Definition rom_node : VfsNode := Node (str "f") VFS_FILE 3 0 (Some InitrdRead) None None None (PInitrd 0) [] 0x500000.
Definition desk_rom : vfs bump desk :=
  set_store (<[0x500000 := ONode (set_children [0x500800] demo_root)]> (<[0x500800 := ONode rom_node]> (store (desk_vfs []))))
    (desk_vfs []).

(** Saving to it stores nothing, says it did, and sets a size the file does not have. *)
Example save_to_initrd :
  (fun e1 => (snd (ext (fs e1)), n_size <$> node_in (store (fs e1)) 0x500800)) <$> editor_save (set_fs desk_rom desk_ed) =
  Some (str "Saved: f (2 lines, 12 bytes)" ++ [10], Some 12).
Proof. vm_compute. reflexivity. Qed.
