(* ===== verification/Uspace.v ===== *)
(** The memory of user programs ([sys_brk], [sys_mmap] and [sys_munmap] of
    [src/src/syscall.rs]) over the page tables and the page allocator.

    Addresses are 64-bit words with their wrap-around.  [memset] on a mapped area goes
    through the tables as [get_physical] reads them; [None] is a page fault. *)
From S2P Require Import Prelude StringRs Pmm Vmm UserHeap.

Definition FOUR_GB : Z := 0x100000000.

Section code.
Context {P : Type} `{PageAllocator P}.

Record uspace := USpace { tables : vmm P; CURRENT_BRK : Z; MMAP_NEXT : Z }.

Definition set_brk (brk : Z) (s : uspace) : uspace := USpace (tables s) brk (MMAP_NEXT s).
Definition set_tables (t : vmm P) (s : uspace) : uspace := USpace t (CURRENT_BRK s) (MMAP_NEXT s).

(** A new frame mapped at [page]; [false] when there is none. *)
Definition map_fresh (page flags : Z) (t : vmm P) : bool * vmm P :=
  let '(phys, p) := pa_alloc (vm_pages t) in
  let t := Vmm (vm_mem t) (PML4_PHYS t) p in
  if phys =? 0 then (false, t) else (true, map_page page phys flags t).

(** [n] rounds of the loop from [page]; pages below [from] are left alone. *)
Fixpoint map_loop (n : nat) (from page flags : Z) (t : vmm P) : bool * vmm P :=
  match n with
  | O => (true, t)
  | S n =>
      let '(ok, t) := if from <=? page then map_fresh page flags t else (true, t) in
      if ok then map_loop n from (page + 0x1000) flags t else (false, t)
  end.

Definition page_down (a : Z) : Z := Z.land a (not64 0xFFF).
Definition page_up (a : Z) : Z := page_down (u64 (a + 0xFFF)).
Definition page_count (page end_page : Z) : nat := Z.to_nat ((end_page - page) / 0x1000).

Definition sys_brk (addr : Z) (s : uspace) : Z * uspace :=
  if addr =? 0 then (CURRENT_BRK s, s) else
  if addr <? CURRENT_BRK s then (CURRENT_BRK s, s) else
  let '(ok, t) :=
    if FOUR_GB <=? addr then
      let page := page_down (CURRENT_BRK s) in
      map_loop (page_count page (page_up addr)) FOUR_GB page (Z.lor PAGE_PRESENT PAGE_WRITE) (tables s)
    else (true, tables s) in
  if ok then (addr, set_brk addr (set_tables t s)) else (CURRENT_BRK s, set_tables t s).

(** [memset(v, 0, n)] *)
Fixpoint zero_fill_virt (n : nat) (v : Z) (t : vmm P) : option (vmm P) :=
  match n with
  | O => Some t
  | S n =>
      let p := get_physical v t in
      if p =? 0 then None else zero_fill_virt n (v + 1) (Vmm (upd (vm_mem t) p 0) (PML4_PHYS t) (vm_pages t))
  end.

Definition EINVAL : Z := u64 (-22).
Definition ENOMEM : Z := u64 (-12).

Definition sys_mmap (addr len _prot flags _fd : Z) (s : uspace) : option (Z * uspace) :=
  if len =? 0 then Some (EINVAL, s) else
  let pages := u64 (len + 0xFFF) / 0x1000 in
  let '(vaddr, s) :=
    if negb (addr =? 0) && negb (Z.land flags 0x10 =? 0) then (page_down addr, s) else
    let v := page_up (MMAP_NEXT s) in
    (v, USpace (tables s) (CURRENT_BRK s) (u64 (v + u64 (pages * 0x1000)))) in
  let '(ok, t) := map_loop (Z.to_nat pages) 0 vaddr (Z.lor (Z.lor PAGE_PRESENT PAGE_WRITE) PAGE_USER) (tables s) in
  let s := set_tables t s in
  if negb ok then Some (ENOMEM, s) else
  t ← zero_fill_virt (Z.to_nat (u64 (pages * 0x1000))) vaddr t;
  Some (vaddr, set_tables t s).

Definition sys_munmap (_addr _len : Z) (s : uspace) : Z * uspace := (0, s).
End code.
Arguments uspace P : clear implicits.

(** ** The kernel's [brk] is what the allocator of user programs relies on *)

Section brk.
Context {P : Type} `{PageAllocator P}.
Implicit Types s : uspace P.

Lemma sys_brk_query s : sys_brk 0 s = (CURRENT_BRK s, s).
Proof. done. Qed.

Lemma sys_brk_law a s : a <> 0 -> CURRENT_BRK s <= a ->
  exists s', (sys_brk a s = (a, s') /\ CURRENT_BRK s' = a) \/
    (sys_brk a s = (CURRENT_BRK s, s') /\ CURRENT_BRK s' = CURRENT_BRK s /\ CURRENT_BRK s < a).
Proof.
  intros Ha Hc. unfold sys_brk. rewrite (proj2 (Z.eqb_neq a 0)), (proj2 (Z.ltb_ge a _)) by done.
  destruct (FOUR_GB <=? a); [| by eexists; left].
  destruct (map_loop _ _ _ _ _) as [ok t]. destruct ok; [by eexists; left |].
  destruct (Z.eq_dec (CURRENT_BRK s) a) as [<- | Hne].
  - eexists. left. split; [reflexivity | done].
  - eexists. right. split; [reflexivity |]. split; [done | lia].
Qed.

#[export] Instance sys_brk_ok : Brk (uspace P) := {
  brk := sys_brk; brk_cur := CURRENT_BRK; brk_query := sys_brk_query; brk_law := sys_brk_law }.
End brk.

(** ** Fresh pages *)

Section fresh.
Context {P : Type} `{PageAllocator P}.
Implicit Types t : vmm P.

(** The frames that become used; the allocator only takes. *)
Lemma pa_alloc_free (p : P) a p' f : pa_wf p -> pa_alloc p = (a, p') -> pa_wf p' /\ (pa_free p' f -> pa_free p f).
Proof.
  intros Hw E. destruct (pa_alloc_law _ _ _ Hw E) as [Hw' [[-> ->] | (_ & _ & Hf)]]; [done |].
  split; [done |]. rewrite Hf. tauto.
Qed.

Lemma walk_or_alloc_free table index t f : pa_wf (vm_pages t) ->
  let t' := (walk_or_alloc table index t).2 in pa_wf (vm_pages t') /\ (pa_free (vm_pages t') f -> pa_free (vm_pages t) f).
Proof.
  intros Hw. unfold walk_or_alloc. destruct (negb _); [done |].
  destruct (pa_alloc (vm_pages t)) as [a p] eqn:E. destruct (pa_alloc_free _ _ _ f Hw E). by destruct (a =? 0).
Qed.

Lemma map_page_free virt phys flags t f : pa_wf (vm_pages t) ->
  pa_free (vm_pages (map_page virt phys flags t)) f -> pa_free (vm_pages t) f.
Proof.
  intros Hw. unfold map_page.
  pose proof (walk_or_alloc_free (PML4_PHYS t) (pml4_index virt) t f Hw) as [Hw1 F1].
  destruct (walk_or_alloc (PML4_PHYS t) _ t) as [pdpt t1]. cbn [snd] in *. case_if; [done |].
  pose proof (walk_or_alloc_free pdpt (pdpt_index virt) t1 f Hw1) as [Hw2 F2].
  destruct (walk_or_alloc pdpt _ t1) as [pd t2]. cbn [snd] in *. case_if; [auto |].
  pose proof (walk_or_alloc_free pd (pd_index virt) t2 f Hw2) as [Hw3 F3].
  destruct (walk_or_alloc pd _ t2) as [pt t3]. cbn [snd] in *. case_if; auto.
Qed.

(** Taking a frame changes no translation. *)
Lemma wf_take t a p : wf t -> pa_alloc (vm_pages t) = (a, p) ->
  let t' := Vmm (vm_mem t) (PML4_PHYS t) p in wf t' /\ same_mapping t t' /\ forall v, user_range t' v <-> user_range t v.
Proof.
  intros [K [Hroot Hpages Hframe Hentry]] E. split; [| split; [intros v Hv; done | done]].
  exists K. split; [done | by eapply (pa_alloc_free _ _ _ 0 Hpages E) | | done].
  intros f x Hf. destruct (Hframe f x Hf) as [? Hn]. split; [done |]. intros Hfree. apply Hn.
  by eapply (pa_alloc_free _ _ _ f Hpages E).
Qed.

Lemma fresh_pte f flags v : frame f -> (flags = 3 \/ flags = 7) ->
  pte_phys (Z.lor (Z.land f ADDR_MASK) (Z.land flags 0xFFF)) v = f + v mod 4096.
Proof.
  intros Hf Hfl. assert (Hm : Z.land f ADDR_MASK = f).
  { rewrite <- (table_entry_addr f Hf) at 2. rewrite table_entry_7. apply Z.bits_inj'. intros i Hi.
    rewrite !Z.land_spec, Z.lor_spec, testbit_mask by done. destruct (Z.leb_spec 12 i); [| by rewrite !andb_false_r].
    change 7 with (Z.ones 3). rewrite (Z.ones_spec_high 3) by lia. by rewrite orb_false_r. }
  rewrite Hm. unfold pte_phys. replace (Z.land flags 0xFFF) with flags by (by destruct Hfl as [-> | ->]).
  assert (Hp : present (Z.lor f flags) = true).
  { unfold present. rewrite Z.lor_spec. destruct Hfl as [-> | ->]; apply orb_true_r. }
  rewrite Hp. f_equal. apply Z.bits_inj'. intros i Hi. rewrite Z.land_spec, Z.lor_spec, testbit_mask by done.
  destruct (Z.leb_spec 12 i), (Z.ltb_spec i 52); cbn [andb]; rewrite ?andb_false_r, ?andb_true_r.
  - assert (Z.testbit flags i = false) as ->; [| by rewrite orb_false_r].
    destruct Hfl as [-> | ->]; [change 3 with (Z.ones 2) | change 7 with (Z.ones 3)]; apply Z.ones_spec_high; lia.
  - destruct (Z.testbit f i) eqn:E; [| done]. apply frame_bits in E; [lia | done | done].
  - destruct (Z.testbit f i) eqn:E; [| done]. apply frame_bits in E; [lia | done | done].
  - destruct (Z.testbit f i) eqn:E; [| done]. apply frame_bits in E; [lia | done | done].
Qed.

(** What [n] pages from [page] are backed by after the loop: frames that were free,
    each page its own; the others translate as before. *)
Record backed t t' (lo hi : Z) : Prop := {
  bk_frame : forall v, user_range t v -> lo <= v / 4096 < hi ->
    exists f, frame f /\ pa_free (vm_pages t) f /\ ~ pa_free (vm_pages t') f /\ get_physical v t' = f + v mod 4096;
  bk_own : forall v w, user_range t v -> user_range t w -> lo <= v / 4096 < hi -> lo <= w / 4096 < hi ->
    get_physical v t' / 4096 = get_physical w t' / 4096 -> v / 4096 = w / 4096;
  bk_other : forall v, user_range t v -> ~ lo <= v / 4096 < hi -> get_physical v t' = get_physical v t }.

Definition exhausted t : Prop := (pa_alloc (vm_pages t)).1 = 0.

(** Nothing is lost: the tables stay well formed, the range usable, and no frame is
    given back. *)
Record extends t t' : Prop := {
  ex_wf : wf t';
  ex_range : forall v, user_range t v -> user_range t' v;
  ex_free : forall f, pa_free (vm_pages t') f -> pa_free (vm_pages t) f }.

Lemma space_extends_refl t : wf t -> extends t t.
Proof. by split. Qed.
Lemma space_extends_trans t1 t2 t3 : extends t1 t2 -> extends t2 t3 -> extends t1 t3.
Proof. intros [W1 R1 F1] [W2 R2 F2]. split; auto. Qed.

Lemma map_fresh_spec page flags t ok t' : wf t -> user_range t page -> flags = 3 \/ flags = 7 ->
  map_fresh page flags t = (ok, t') -> extends t t' /\
  ((ok = true /\ exists f, frame f /\ pa_free (vm_pages t) f /\ ~ pa_free (vm_pages t') f /\
      forall v, user_range t v -> get_physical v t' = if v / 4096 =? page / 4096 then f + v mod 4096 else get_physical v t) \/
   (exhausted t' /\ same_mapping t t')).
Proof.
  intros Hwf Hu Hfl. unfold map_fresh. destruct (pa_alloc (vm_pages t)) as [a p] eqn:Ea.
  destruct (wf_take t a p Hwf Ea) as (Hwf1 & Hs1 & Hr1). set (t1 := Vmm (vm_mem t) (PML4_PHYS t) p) in *.
  assert (Hpa : pa_wf (vm_pages t)) by (destruct Hwf as [K HK]; apply HK).
  destruct (pa_alloc_law _ _ _ Hpa Ea) as [Hpa1 Hlaw].
  destruct (Z.eqb_spec a 0) as [Ha0 | Ha0]; intros [= <- <-].
  - destruct Hlaw as [[_ ->] | (Hfr & _)]; [| apply frame_mod in Hfr; lia].
    split; [split; [done | by intros v ?%Hr1 | done] |]. right. split; [| done]. unfold exhausted. cbn. by rewrite Ea.
  - destruct Hlaw as [[? _] | (Hfr & Hfree & Hrest)]; [done |].
    destruct (map_page_spec t1 page a flags Hwf1) as [Hwf2 Hcase]; [by apply Hr1 |].
    assert (Hmono : forall f, pa_free (vm_pages (map_page page a flags t1)) f -> pa_free p f) by (intros f; by apply (map_page_free page a flags t1)).
    destruct Hcase as [Hm | [Hex Hs2]].
    + split; [split; [done | by intros v Hv; apply Hm, Hr1 | intros f Hf%Hmono; by apply Hrest in Hf as [? _]] |].
      left. split; [done |]. exists a. split; [done |]. split; [done |]. split; [intros Hf%Hmono; by apply Hrest in Hf as [_ ?] |].
      intros v Hv. destruct (Hm v) as [_ ->]; [by apply Hr1 |]. rewrite fresh_pte by done. case_if; [done |]. by apply Hs1.
    + split; [split; [done | by intros v Hv; apply Hs2, Hr1 | intros f Hf%Hmono; by apply Hrest in Hf as [? _]] |].
      right. split; [done |]. intros v Hv. destruct (Hs2 v) as [? ->]; [by apply Hr1 |]. split; [done |]. by apply Hs1.
Qed.

Lemma same_tables t t' : vm_mem t' = vm_mem t -> PML4_PHYS t' = PML4_PHYS t -> same_mapping t t'.
Proof. intros Em Ep v. unfold user_range, get_physical, walk_readonly. by rewrite Em, Ep. Qed.

(** With no frame left the loop stops at the first page it is to map. *)
Lemma map_loop_exhausted n from page flags t ok t' : exhausted t -> pa_wf (vm_pages t) -> from <= page ->
  map_loop n from page flags t = (ok, t') -> exhausted t' /\ same_mapping t t' /\ (ok = true -> n = O).
Proof.
  intros He Hw Hp. destruct n as [| n]; cbn [map_loop]; [intros [= <- <-]; split; [done |]; split; [by intros v | done] |].
  rewrite (proj2 (Z.leb_le from page)) by done.
  unfold map_fresh. unfold exhausted in He. destruct (pa_alloc (vm_pages t)) as [a p] eqn:Ea. cbn [fst] in He. subst a.
  destruct (pa_alloc_law _ _ _ Hw Ea) as [_ [[_ ->] | (Hf & _)]]; [| apply frame_mod in Hf; lia].
  cbn [Z.eqb]. intros [= <- <-]. split; [unfold exhausted; cbn; by rewrite Ea |]. split; [by apply same_tables | done].
Qed.

Lemma frame_page f v : frame f -> (f + v mod 4096) / 4096 = f / 4096.
Proof. intros [Hf _]%frame_mod. mod_lia. Qed.
Lemma frame_eq f g : frame f -> frame g -> f / 4096 = g / 4096 -> f = g.
Proof. intros [Hf _]%frame_mod [Hg _]%frame_mod. mod_lia. Qed.

(** One more page in front. *)
Lemma backed_cons t t1 t' f k hi : k < hi -> extends t t1 -> extends t1 t' -> frame f -> pa_free (vm_pages t) f ->
  ~ pa_free (vm_pages t1) f ->
  (forall v, user_range t v -> get_physical v t1 = if v / 4096 =? k then f + v mod 4096 else get_physical v t) ->
  backed t1 t' (k + 1) hi -> backed t t' k hi.
Proof.
  intros Hk0 [_ R1 F1] [_ R2 F2] Hf Hfree Hused Hm [B1 B2 B3].
  assert (Hk : forall v, user_range t v -> v / 4096 = k -> get_physical v t' = f + v mod 4096).
  { intros v Hv E. rewrite B3 by (auto || lia). rewrite Hm by done. by rewrite (proj2 (Z.eqb_eq _ _)) by done. }
  split.
  - intros v Hv Hr. destruct (Z.eq_dec (v / 4096) k) as [E | E].
    + exists f. split_and!; auto.
    + destruct (B1 v) as (g & ? & ? & ? & ?); [auto | lia |]. exists g. split_and!; auto.
  - intros v w Hv Hw Hrv Hrw Heq.
    destruct (Z.eq_dec (v / 4096) k) as [Ev | Ev], (Z.eq_dec (w / 4096) k) as [Ew | Ew]; [lia | exfalso | exfalso |].
    + destruct (B1 w) as (g & Hg & Hgf & _ & Eg); [auto | lia |]. rewrite (Hk v), Eg, !frame_page in Heq by done.
      apply frame_eq in Heq; [| done..]. by subst g.
    + destruct (B1 v) as (g & Hg & Hgf & _ & Eg); [auto | lia |]. rewrite (Hk w), Eg, !frame_page in Heq by done.
      apply frame_eq in Heq; [| done..]. by subst g.
    + apply (B2 v w); auto; lia.
  - intros v Hv Hr. rewrite B3 by (auto || lia). rewrite Hm by done. destruct (Z.eqb_spec (v / 4096) k); [lia | done].
Qed.

(** The pages from [lo] up to [m] are mapped, which are all up to [hi]; or the frames
    ran out at page [m], which goes unnoticed when it is the last one and only a table
    for it was missing. *)
Definition mapped_to t t' (ok : bool) (lo hi : Z) : Prop :=
  exists m, backed t t' lo m /\ (lo <= m \/ m = hi) /\
    ((ok = true /\ m = hi) \/ (exhausted t' /\ m < hi /\ (ok = true -> m = hi - 1))).

Lemma backed_nothing t t' k : same_mapping t t' -> backed t t' k k.
Proof. intros Hs. split; [lia.. |]. intros v Hv _. by apply Hs. Qed.

Lemma map_loop_spec n flags : flags = 3 \/ flags = 7 -> forall from page t ok t', wf t -> page mod 4096 = 0 -> from mod 4096 = 0 ->
  (forall v, from <= v -> page <= v < page + 4096 * Z.of_nat n -> user_range t v) ->
  map_loop n from page flags t = (ok, t') -> extends t t' /\
  mapped_to t t' ok (Z.max page from / 4096) (page / 4096 + Z.of_nat n).
Proof.
  intros Hfl. induction n as [| n IH]; intros from page t ok t' Hwf Hpm Hfm Hu; cbn [map_loop].
  - intros [= <- <-]. split; [by apply space_extends_refl |]. exists (page / 4096 + Z.of_nat 0). split; [| split; [by right | by left]].
    assert (page / 4096 <= Z.max page from / 4096) by (apply Z.div_le_mono; lia). split; intros; done || lia.
  - destruct (Z.leb_spec from page) as [Hfp | Hfp].
    + destruct (map_fresh page flags t) as [ok1 t1] eqn:E1.
      destruct (map_fresh_spec page flags t ok1 t1 Hwf) as [X1 Hcase]; [apply Hu; lia | done | done |].
      assert (Hpa1 : pa_wf (vm_pages t1)) by (destruct (ex_wf _ _ X1) as [K HK]; apply HK).
      assert (Hnext : forall v, from <= v -> page + 0x1000 <= v < page + 0x1000 + 4096 * Z.of_nat n -> user_range t1 v)
        by (intros v Hv1 Hv2; apply (ex_range _ _ X1), Hu; lia).
      rewrite Z.max_l by lia. destruct Hcase as [(-> & f & Hf & Hfree & Hused & Hm) | [Hex Hsame]].
      * intros E. destruct (IH from (page + 0x1000) t1 ok t' (ex_wf _ _ X1)) as [X2 (m & Hb & Hlo & Hc2)]; [mod_lia | done | done | done |].
        split; [by eapply space_extends_trans |]. rewrite Z.max_l in Hb, Hlo by lia.
        replace ((page + 0x1000) / 4096) with (page / 4096 + 1) in Hb, Hlo, Hc2 by mod_lia.
        replace (page / 4096 + Z.of_nat (S n)) with (page / 4096 + 1 + Z.of_nat n) by lia.
        exists m. split; [| split; [lia | done]]. apply (backed_cons t t1 t' f); try done. lia.
      * intros E. destruct ok1.
        -- destruct (IH from (page + 0x1000) t1 ok t' (ex_wf _ _ X1)) as [X2 _]; [mod_lia | done | done | done |].
           split; [by eapply space_extends_trans |].
           destruct (map_loop_exhausted n from (page + 0x1000) flags t1 ok t' Hex Hpa1 ltac:(lia) E) as (He & Hs & Hn).
           exists (page / 4096). split; [| split; [lia |]].
           ++ apply backed_nothing. intros v Hv. destruct (Hsame v Hv) as [? <-]. by apply Hs.
           ++ right. split; [done |]. split; [lia |]. intros ->%Hn. lia.
        -- injection E as <- <-. split; [done |]. exists (page / 4096). split; [by apply backed_nothing | split; [lia |]].
           right. split; [done |]. split; [lia | done].
    + intros E. destruct (IH from (page + 0x1000) t ok t' Hwf) as [X2 Hc2]; [mod_lia | done | | done |].
      { intros v Hv1 Hv2. apply Hu; lia. }
      split; [done |]. assert (Hmx : Z.max (page + 0x1000) from = Z.max page from) by mod_lia. rewrite Hmx in Hc2.
      replace (page / 4096 + Z.of_nat (S n)) with ((page + 0x1000) / 4096 + Z.of_nat n) by mod_lia. exact Hc2.
Qed.
End fresh.

Section brk_pages.
Context {P : Type} `{PageAllocator P}.
Implicit Types s : uspace P.

Lemma page_down_spec a : 0 <= a < 2 ^ 64 -> page_down a = a / 4096 * 4096.
Proof. intros Ha. unfold page_down. change 0xFFF with (2 ^ 12 - 1). rewrite land_not64 by lia. change (2 ^ 12) with 4096. mod_lia. Qed.

(** The pages above 4 GB that the break can reach are walked through small pages. *)
Definition high_ok s : Prop := wf (tables s) /\ forall v, FOUR_GB <= v < 2 ^ 48 -> user_range (tables s) v.

(** C35: The kernel's [brk], for a request of at most 2^48 - 4096, when every page from
    4 GB to 2^48 is walked through 4 KB tables.  A request of 0 or below the break changes
    nothing and is answered with the break; below 4 GB the break moves and nothing is
    mapped.  Otherwise the pages from the page of the old break, or from 4 GB when that is
    higher, are mapped upwards, each backed by a frame of its own that was free, and no
    other address that is walked through 4 KB tables translates differently.  The break
    moves when all of them are mapped.  When the frames run out before, the break stays,
    and the pages mapped so far stay mapped; except that it also moves when only the last
    page failed, for want of a table (a failure of [map_page] goes unnoticed). *)
Theorem sys_brk_correct addr s : high_ok s -> 0 <= CURRENT_BRK s -> addr <= 2 ^ 48 - 4096 ->
  let '(r, s') := sys_brk addr s in
  let lo := Z.max (CURRENT_BRK s / 4096) (FOUR_GB / 4096) in
  let hi := (addr + 4095) / 4096 in
  high_ok s' /\ r = CURRENT_BRK s' /\ MMAP_NEXT s' = MMAP_NEXT s /\
  if (addr =? 0) || (addr <? CURRENT_BRK s) then r = CURRENT_BRK s /\ s' = s else
  if addr <? FOUR_GB then r = addr /\ tables s' = tables s else
  (r = addr /\ backed (tables s) (tables s') lo hi) \/
  (exhausted (tables s') /\ exists m, lo <= m < hi /\ backed (tables s) (tables s') lo m /\
     (r = CURRENT_BRK s \/ (r = addr /\ m = hi - 1))).
Proof.
  intros [Hwf Hhigh] H0 Hmax. unfold sys_brk.
  destruct (Z.eqb_spec addr 0) as [-> | Ha]; cbn [orb]; [by split_and! |].
  destruct (Z.ltb_spec addr (CURRENT_BRK s)); [by split_and! |]. rewrite Z.ltb_antisym.
  destruct (Z.leb_spec FOUR_GB addr) as [Hge | Hlt]; cbn [negb].
  2:{ split; [split; done |]. by split_and!. }
  assert (Hd : page_down (CURRENT_BRK s) = CURRENT_BRK s / 4096 * 4096) by (apply page_down_spec; lia).
  assert (Hup : page_up addr = (addr + 4095) / 4096 * 4096).
  { unfold page_up. rewrite u64_small by lia. rewrite page_down_spec by lia. done. }
  assert (Hn : Z.of_nat (page_count (page_down (CURRENT_BRK s)) (page_up addr)) = (addr + 4095) / 4096 - CURRENT_BRK s / 4096).
  { unfold page_count. rewrite Hd, Hup, <- Z.mul_sub_distr_r, Z.div_mul by lia. rewrite Z2Nat.id; [done |].
    assert (CURRENT_BRK s / 4096 <= (addr + 4095) / 4096) by (apply Z.div_le_mono; lia). lia. }
  destruct (map_loop _ FOUR_GB _ _ _) as [ok t] eqn:E.
  apply map_loop_spec in E as [X (m & Hb & Hlo & Hcase)]; [| by left | done | rewrite Hd; by apply Z.mod_mul | done |].
  2:{ intros v Hv [_ Hv2]. apply Hhigh. rewrite Hn, Hd in Hv2. split; [done |]. mod_lia. }
  assert (Hhi : forall b m, high_ok (USpace t b m)) by (intros; split; [apply X | intros v Hv; by apply (ex_range _ _ X), Hhigh]).
  rewrite Hn, Hd, Z.div_mul in Hlo, Hcase by lia. rewrite Hd in Hb.
  replace (Z.max (CURRENT_BRK s / 4096 * 4096) FOUR_GB / 4096) with (Z.max (CURRENT_BRK s / 4096) (FOUR_GB / 4096)) in Hb, Hlo by (unfold FOUR_GB; mod_lia).
  replace (CURRENT_BRK s / 4096 + ((addr + 4095) / 4096 - CURRENT_BRK s / 4096)) with ((addr + 4095) / 4096) in Hlo, Hcase by lia.
  destruct ok; cbn [set_brk set_tables]; (split; [apply Hhi |]); (split; [done |]); (split; [done |]).
  - destruct Hcase as [[_ ->] | (Hex & Hm & Hlast)]; [by left | right]. split; [done |]. exists m. specialize (Hlast eq_refl).
    split; [lia |]. split; [done | by right].
  - destruct Hcase as [[? _] | (Hex & Hm & _)]; [done | right]. split; [done |]. exists m. split; [lia |]. split; [done | by left].
Qed.
End brk_pages.

(** ** A small user space: a break just above 4 GB *)

Definition demo_space : uspace pmm := USpace empty_tables (FOUR_GB + 0x123) 0x7F000000.

Lemma demo_high_ok : high_ok demo_space.
Proof. split; [exact empty_tables_wf | intros v Hv; apply empty_tables_range; unfold FOUR_GB in Hv; lia]. Qed.

Lemma sys_brk_correct_witness :
  let '(r, s') := sys_brk (FOUR_GB + 0x1800) demo_space in
  r = FOUR_GB + 0x1800 /\ CURRENT_BRK s' = r /\
  get_physical (FOUR_GB + 0x234) s'.(tables) / 4096 <> get_physical (FOUR_GB + 0x1234) s'.(tables) / 4096.
Proof.
  pose proof (sys_brk_correct (FOUR_GB + 0x1800) demo_space demo_high_ok) as Hb.
  assert (Hx : exhausted (tables (sys_brk (FOUR_GB + 0x1800) demo_space).2) -> False) by (intros Hx; by vm_compute in Hx).
  destruct (sys_brk (FOUR_GB + 0x1800) demo_space) as [r s'] eqn:E. cbn [snd] in Hx.
  destruct Hb as (_ & Hr & _ & [[-> Hbk] | [Hex _]]).
  - by vm_compute.
  - by vm_compute.
  - split; [done |]. split; [done |]. intros Heq.
    assert (Hu : forall v, FOUR_GB <= v < FOUR_GB + 0x2000 -> user_range (tables demo_space) v)
      by (intros v Hv; apply empty_tables_range; unfold FOUR_GB in Hv; lia).
    assert (HE := bk_own _ _ _ _ Hbk (FOUR_GB + 0x234) (FOUR_GB + 0x1234)). clear Hbk. clear E Hx.
    assert (Hf : (FOUR_GB + 0x234) / 4096 = (FOUR_GB + 0x1234) / 4096).
    { apply HE; [apply Hu; unfold FOUR_GB; lia | apply Hu; unfold FOUR_GB; lia | | | exact Heq]; split; vm_compute; congruence. }
    clear -Hf. vm_compute in Hf. discriminate Hf.
  - exfalso. exact (Hx Hex).
Defined.

(** A break inside a page: moving it again maps the page anew, and what was there is lost. *)
Example brk_remaps_page :
  let s1 := (sys_brk (FOUR_GB + 0x400) demo_space).2 in
  let s2 := (sys_brk (FOUR_GB + 0x800) s1).2 in
  (get_physical FOUR_GB (tables s1), get_physical FOUR_GB (tables s2)) = (0x2000, 0x6000).
Proof. vm_compute. reflexivity. Qed.
