(* ===== verification/Syscall.v ===== *)
(** System calls ([src/src/syscall.rs]): both dispatchers and every call, over the
    virtual file system, the memory of user programs and the page tables.

    Registers are 64-bit words; what a call answers is a word, negative numbers in
    two's complement.  User memory is flat and apart from the kernel's objects.
    [fuel] bounds the length of a path in it and the entries of a directory. *)
From S2P Require Import Prelude StringRs Pmm Vmm UserHeap Heap VfsNode Ramfs Initrd Devfs Fat16Vfs Vfs Uspace.

(** [timer::get_ticks] *)
Class Timer (X : Type) := get_ticks : X -> Z.

(** ** User memory *)

Definition peek (m : mem) (p n : Z) : list Z := mem_bytes m p (Z.to_nat n).
Definition poke (m : mem) (p : Z) (l : list Z) : mem := fun x =>
  if (p <=? x) && (x <? p + Z.of_nat (length l)) then nth (Z.to_nat (x - p)) l 0 else m x.

(** A pointer to a C string. *)
Definition user_string (fuel : nat) (m : mem) (p : Z) : option (option (list Z)) :=
  if p =? 0 then Some None else n ← strlen m fuel p; Some (Some (peek m p n)).

Inductive outcome := Returns (v : Z) | Exits (code : Z).

Definition errno (e : Z) : Z := u64 (- e).
Definition EPERM : Z := 1.
Definition ENOENT : Z := 2.
Definition EBADF : Z := 9.
Definition EFAULT : Z := 14.
Definition ENOTDIR : Z := 20.
Definition ENOTTY : Z := 25.
Definition ENOSPC : Z := 28.
Definition ERANGE : Z := 34.
Definition ENAMETOOLONG : Z := 36.
Definition ENOSYS : Z := 38.

Section code.
Context {P H X : Type} `{PageAllocator P} `{KernelHeap H} `{Console X} `{FatDisk X} `{Timer X}.
Variable fuel : nat.

Record sys := Sys { fs : vfs H X; um : mem; space : uspace P; msr : Z -> Z }.
Implicit Types s : sys.

Definition set_fs (f : vfs H X) s : sys := Sys f (um s) (space s) (msr s).
Definition set_um (m : mem) s : sys := Sys (fs s) m (space s) (msr s).
Definition set_space (u : uspace P) s : sys := Sys (fs s) (um s) u (msr s).

Definition ret (v : Z) s : option (outcome * sys) := Some (Returns v, s).
Definition fail (e : Z) s : option (outcome * sys) := ret (errno e) s.

(** ** Model-specific registers *)

Definition MSR_STAR : Z := 0xC0000081.
Definition MSR_LSTAR : Z := 0xC0000082.
Definition MSR_SFMASK : Z := 0xC0000084.
Definition MSR_EFER : Z := 0xC0000080.

Definition wrmsr (r value : Z) s : sys :=
  let low := u32 value in let high := u32 (Z.shiftr value 32) in
  Sys (fs s) (um s) (space s) (fun x => if x =? r then Z.lor (Z.shiftl high 32) low else msr s x).
Definition rdmsr (r : Z) s : Z := msr s r.

(** The part of [init] that sets up the syscall instruction. *)
Definition init (syscall_entry : Z) s : sys :=
  let s := wrmsr MSR_EFER (Z.lor (rdmsr MSR_EFER s) 1) s in
  let s := wrmsr MSR_STAR (Z.lor (Z.shiftl 0x08 32) (Z.shiftl 0x08 48)) s in
  wrmsr MSR_SFMASK 0x200 (wrmsr MSR_LSTAR syscall_entry s).

(** ** The calls *)

Definition sys_exit (code : Z) s : option (outcome * sys) := Some (Exits (i32 code), s).

Definition sys_read (fd buf len : Z) s : option (outcome * sys) :=
  if fd =? 0 then
    if len =? 0 then ret 0 s else
    '(c, x) ← getchar (ext (fs s)); ret 1 (set_um (poke (um s) buf [c]) (set_fs (set_ext x (fs s)) s))
  else
    '(r, l, f) ← vfs_fd_read (i32 fd) (u32 len) (fs s); ret (u64 r) (set_um (poke (um s) buf l) (set_fs f s)).

Definition sys_write (fd buf len : Z) s : option (outcome * sys) :=
  if (fd =? 1) || (fd =? 2) then ret len (set_fs (puts (peek (um s) buf len) (fs s)) s)
  else '(r, f) ← vfs_fd_write (i32 fd) (peek (um s) buf (u32 len)) (fs s); ret (u64 r) (set_fs f s).

Definition sys_open (path_ptr _flags : Z) s : option (outcome * sys) :=
  path ← user_string fuel (um s) path_ptr; '(r, f) ← vfs_open path (fs s); ret (u64 r) (set_fs f s).
Definition sys_openat (_dirfd path_ptr flags : Z) s : option (outcome * sys) := sys_open path_ptr flags s.

Definition sys_close (fd : Z) s : option (outcome * sys) := ret 0 (set_fs (vfs_close (i32 fd) (fs s)) s).
Definition sys_ioctl (_fd _cmd : Z) s : option (outcome * sys) := fail ENOTTY s.

Definition sys_lseek (fd offset whence : Z) s : option (outcome * sys) :=
  '(r, f) ← vfs_lseek (i32 fd) (i64 offset) (u32 whence) (fs s); ret (u64 r) (set_fs f s).

(** The node a descriptor is open on; 0 when there is none. *)
Definition fd_node (fd : Z) s : Z :=
  if Z.of_nat MAX_OPEN_FILES <=? fd then 0 else
  match FD_TABLE (fs s) !! Z.to_nat fd with Some e => if in_use e then VfsNode.node e else 0 | None => 0 end.

Definition sys_fstat (fd statbuf : Z) s : option (outcome * sys) :=
  if statbuf =? 0 then fail EFAULT s else
  let s := set_um (memset (um s) statbuf 0 144) s in
  if fd_node fd s =? 0 then fail EBADF s else
  v ← node_at (fd_node fd s) (fs s);
  let m := poke (um s) (statbuf + 48) (le_bytes 8 (n_size v)) in
  let m := poke m (statbuf + 24) (le_bytes 4 (if is_dir v then 0x41ED else 0x81A4)) in
  let m := poke m statbuf (le_bytes 8 (inode v)) in
  let m := poke m (statbuf + 56) (le_bytes 8 4096) in
  ret 0 (set_um m s).

Definition sys_getcwd (buf size : Z) s : option (outcome * sys) :=
  if (buf =? 0) || (size =? 0) then fail EFAULT s else
  if size <? 2 then fail ERANGE s else ret buf (set_um (poke (um s) buf [47; 0]) s).

Definition sys_mkdir (path _mode : Z) s : option (outcome * sys) :=
  if path =? 0 then fail EFAULT s else
  p ← user_string fuel (um s) path; '(r, f) ← mkdir_p p (fs s);
  if r =? 0 then ret ENOMEM (set_fs f s) else ret 0 (set_fs f s).

(** *** Directories *)

(** [(reclen_raw + 7) & !7] *)
Definition reclen (v : VfsNode) : Z :=
  Z.land (8 + 8 + 2 + 1 + Z.of_nat (length (name v)) + 1 + 7) (not64 7).

(** One entry of the buffer. *)
Definition put_dirent (m : mem) (entry idx : Z) (v : VfsNode) : mem :=
  let name_len := Z.of_nat (length (name v)) in
  let m := memset m entry 0 (Z.to_nat (reclen v)) in
  let m := poke m entry (le_bytes 8 (if inode v =? 0 then u32 (idx + 1) else inode v)) in
  let m := poke m (entry + 8) (le_bytes 8 (u32 (idx + 1))) in
  let m := poke m (entry + 16) (le_bytes 2 (reclen v)) in
  let m := poke m (entry + 18) [if is_dir v then 4 else 8] in
  let m := poke m (entry + 19) (name v) in
  poke m (entry + 19 + name_len) [0].

(** The loop: the index of the next entry, the bytes written, and the state. *)
Fixpoint dents_loop (n : nat) (dir idx pos buf count : Z) s : option (Z * Z * sys) :=
  match n with
  | O => None
  | S n =>
      '(child, f) ← Vfs.readdir dir idx (fs s);
      let s := set_fs f s in
      if child =? 0 then Some (idx, pos, s) else
      v ← node_at child (fs s);
      if count <? pos + reclen v then Some (idx, pos, s) else
      dents_loop n dir (u32 (idx + 1)) (pos + reclen v) buf count (set_um (put_dirent (um s) (buf + pos) idx v) s)
  end.

Definition set_fd_offset (fd off : Z) s : sys :=
  set_fs (set_fds (alter (fun e => Fd (VfsNode.node e) off (in_use e)) (Z.to_nat fd) (FD_TABLE (fs s))) (fs s)) s.

Definition sys_getdents64 (fd buf count : Z) s : option (outcome * sys) :=
  if (buf =? 0) || (count =? 0) then fail EFAULT s else
  let dir := fd_node fd s in
  if dir =? 0 then fail EBADF s else
  v ← node_at dir (fs s);
  if negb (is_dir v) then fail ENOTDIR s else
  e ← FD_TABLE (fs s) !! Z.to_nat fd;
  let start_idx := offset e in
  '(idx, pos, s) ← dents_loop fuel dir start_idx 0 buf count s;
  let s := set_fd_offset fd idx s in
  if pos =? 0 then
    '(c, f) ← Vfs.readdir dir start_idx (fs s);
    let s := set_fs f s in if c =? 0 then ret 0 s else ret EINVAL s
  else ret pos s.

(** *** Random bytes *)

Definition lcg (state : Z) : Z := u64 (u64 (state * 6364136223846793005) + 1442695040888963407).

Fixpoint random_bytes (n : nat) (state : Z) : list Z :=
  match n with O => [] | S n => let state := lcg state in u8 (Z.shiftr state 33) :: random_bytes n state end.

Definition sys_getrandom (buf count _flags : Z) s : option (outcome * sys) :=
  if buf =? 0 then fail EFAULT s else
  let ticks := get_ticks (ext (fs s)) in
  ret count (set_um (poke (um s) buf (random_bytes (Z.to_nat count) (lcg ticks))) s).

(** *** Renaming *)

(** Where a new path leads: the directory and the name in it, or an error. *)
Definition new_place (path : list Z) (f : vfs H X) : option ((Z + Z * list Z) * vfs H X) :=
  if Z.of_nat (length path) =? 0 then Some (inl 22, f) else
  let sl := last_slash 0 path in
  '(r, f) ← (if sl <? 0 then Some (inr (VFS_ROOT f, path), f) else
             if sl =? 0 then Some (inr (VFS_ROOT f, drop 1 path), f) else
             if 255 <=? sl then Some (inl ENAMETOOLONG, f) else
             '(p, f) ← resolve_path (Some (take (Z.to_nat sl) path)) f;
             Some (if p =? 0 then inl ENOENT else inr (p, drop (Z.to_nat (sl + 1)) path), f));
  Some (match r with inr (_, []) => inl 22 | r => r end, f).

Fixpoint index_of (c : Z) (i : nat) (cs : list Z) : option nat :=
  match cs with [] => None | x :: cs => if x =? c then Some i else index_of c (S i) cs end.

(** The node leaves its directory, takes the new name and enters the other one. *)
Definition move_node (node old_parent new_parent : Z) (nm : list Z) (f : vfs H X) : option (Z * vfs H X) :=
  v ← node_at old_parent f;
  match index_of node 0 (children v) with
  | None => Some (errno ENOENT, f)
  | Some idx =>
      let f := put old_parent (ONode (set_children (delete idx (children v)) v)) f in
      w ← node_at node f;
      let f := put node (ONode (set_name (copy_name nm) w)) f in
      '(r, f) ← add_child new_parent node f;
      if r <? 0 then '(_, f) ← add_child old_parent node f; Some (errno ENOSPC, f) else Some (0, f)
  end.

Definition rename_path (old new : option (list Z)) (f : vfs H X) : option (Z * vfs H X) :=
  '(node, f) ← resolve_path old f;
  if node =? 0 then Some (errno ENOENT, f) else
  v ← node_at node f;
  if parent v =? 0 then Some (errno EPERM, f) else
  new ← new;
  '(place, f) ← new_place new f;
  match place with
  | inl e => Some (errno e, f)
  | inr (new_parent, nm) => move_node node (parent v) new_parent nm f
  end.

Definition sys_rename (oldpath newpath : Z) s : option (outcome * sys) :=
  if (oldpath =? 0) || (newpath =? 0) then fail EFAULT s else
  old ← user_string fuel (um s) oldpath;
  new ← user_string fuel (um s) newpath;
  '(r, f) ← rename_path old new (fs s); ret r (set_fs f s).

Definition sys_unlink (path : Z) s : option (outcome * sys) :=
  if path =? 0 then fail EFAULT s else
  p ← user_string fuel (um s) path; '(r, f) ← unlink_path p (fs s);
  if r <? 0 then fail ENOENT (set_fs f s) else ret 0 (set_fs f s).
Definition sys_unlinkat (_dirfd path _flags : Z) s : option (outcome * sys) := sys_unlink path s.

(** *** Memory and the rest *)

Definition brk_call (addr : Z) s : option (outcome * sys) :=
  let '(r, u) := sys_brk addr (space s) in ret r (set_space u s).
Definition mmap_call (addr len prot flags fd : Z) s : option (outcome * sys) :=
  '(r, u) ← sys_mmap addr len prot flags fd (space s); ret r (set_space u s).
Definition munmap_call (addr len : Z) s : option (outcome * sys) :=
  let '(r, u) := sys_munmap addr len (space s) in ret r (set_space u s).

Definition sys_arch_prctl (code addr : Z) s : option (outcome * sys) :=
  if code =? 0x1002 then ret 0 (wrmsr 0xC0000100 addr s) else
  if code =? 0x1001 then ret 0 (wrmsr 0xC0000101 addr s) else fail 22 s.

(** The loop over the vectors: [n] are left, [i] is the next. *)
Fixpoint writev_loop (n : nat) (fd iov_ptr i total : Z) s : option (outcome * sys) :=
  match n with
  | O => ret total s
  | S n =>
      let entry := iov_ptr + i * 16 in
      let base := le_val (peek (um s) entry 8) in
      let len := le_val (peek (um s) (entry + 8) 8) in
      '(o, s) ← sys_write fd base len s;
      match o with Returns r => writev_loop n fd iov_ptr (i + 1) (u64 (total + r)) s | Exits c => Some (Exits c, s) end
  end.
Definition sys_writev (fd iov_ptr iovcnt : Z) s : option (outcome * sys) := writev_loop (Z.to_nat iovcnt) fd iov_ptr 0 0 s.

(** ** Dispatch *)

Definition syscall_dispatch_x64 (nr a1 a2 a3 a4 a5 : Z) s : option (outcome * sys) :=
  match nr with
  | 0 => sys_read a1 a2 a3 s
  | 1 => sys_write a1 a2 a3 s
  | 2 => sys_open a1 a2 s
  | 3 => sys_close a1 s
  | 5 => sys_fstat a1 a2 s
  | 8 => sys_lseek a1 a2 a3 s
  | 9 => mmap_call a1 a2 a3 a4 a5 s
  | 10 => ret 0 s
  | 11 => munmap_call a1 a2 s
  | 12 => brk_call a1 s
  | 13 | 14 => ret 0 s
  | 16 => sys_ioctl a1 a2 s
  | 20 => sys_writev a1 a2 a3 s
  | 21 => ret 0 s
  | 39 => ret 1 s
  | 60 => sys_exit a1 s
  | 63 | 72 => ret 0 s
  | 79 => sys_getcwd a1 a2 s
  | 82 => sys_rename a1 a2 s
  | 83 => sys_mkdir a1 a2 s
  | 87 => sys_unlink a1 s
  | 96 | 102 | 104 | 107 | 108 => ret 0 s
  | 158 => sys_arch_prctl a1 a2 s
  | 217 => sys_getdents64 a1 a2 a3 s
  | 218 | 228 => ret 0 s
  | 231 => sys_exit a1 s
  | 257 => sys_openat a1 a2 a3 s
  | 263 => sys_unlinkat a1 a2 a3 s
  | 302 => ret 0 s
  | 318 => sys_getrandom a1 a2 a3 s
  | 334 => ret 0 s
  | _ => fail ENOSYS s
  end.

(** The registers of an interrupt that the handler uses. *)
Record Registers := Regs { rax : Z; rbx : Z; rcx : Z; rdx : Z }.

Definition int80_call (regs : Registers) s : option (outcome * sys) :=
  match rax regs with
  | 1 => sys_exit (rbx regs) s
  | 3 => sys_read (rbx regs) (rcx regs) (rdx regs) s
  | 4 => sys_write (rbx regs) (rcx regs) (rdx regs) s
  | 5 => sys_open (rbx regs) 0 s
  | 6 => sys_close (rbx regs) s
  | 8 | 19 => sys_lseek (rbx regs) (rcx regs) (rdx regs) s
  | 28 => sys_fstat (rbx regs) (rcx regs) s
  | 39 => sys_mkdir (rbx regs) (rcx regs) s
  | 10 => sys_unlink (rbx regs) s
  | 38 => sys_rename (rbx regs) (rcx regs) s
  | 45 => brk_call (rbx regs) s
  | 54 | 90 => fail EPERM s
  | 91 => ret 0 s
  | 141 => sys_getdents64 (rbx regs) (rcx regs) (rdx regs) s
  | 146 => sys_writev (rbx regs) (rcx regs) (rdx regs) s
  | 183 => sys_getcwd (rbx regs) (rcx regs) s
  | 355 => sys_getrandom (rbx regs) (rcx regs) (rdx regs) s
  | _ => fail ENOSYS s
  end.

(** [None] in place of registers: the thread has exited with the code. *)
Definition int80_handler (regs : Registers) s : option ((Z + Registers) * sys) :=
  '(o, s) ← int80_call regs s;
  Some (match o with Returns v => inr (Regs v (rbx regs) (rcx regs) (rdx regs)) | Exits c => inl c end, s).
End code.
Arguments sys P H X : clear implicits.
