(* ===== verification/SyscallDirs.v ===== *)
(** Directories through system calls: what [getdents64] leaves in the user's buffer,
    read back, are the entries of the directory; calling it until it answers 0 lists
    each entry once.

    User memories are compared byte by byte. *)
From Stdlib Require Import Setoid Morphisms.
From S2P Require Import Prelude StringRs Pmm Vmm UserHeap Heap VfsNode VfsStore Ramfs RamFiles Initrd Devfs Fat16Vfs Vfs VfsTree VfsMake BumpHeap VfsProps EditorFile Uspace Syscall.

(** ** Memories *)

Record mem_eq (m m' : mem) : Prop := { mem_eq_at : forall x, m x = m' x }.
Declare Scope mem_scope.
Infix "≡ₘ" := mem_eq (at level 70) : mem_scope.
Open Scope mem_scope.

#[export] Instance mem_eq_equiv : Equivalence mem_eq.
Proof. split; [by intros m | by intros m m' [E] | intros m1 m2 m3 [E1] [E2]; split; intros x; by rewrite E1]. Qed.
#[export] Instance poke_proper : Proper (mem_eq ==> eq ==> eq ==> mem_eq) poke.
Proof. intros m m' [E] p ? <- l ? <-. split. intros x. unfold poke. by rewrite E. Qed.
#[export] Instance peek_proper : Proper (mem_eq ==> eq ==> eq ==> eq) peek.
Proof. intros m m' [E] p ? <- n ? <-. unfold peek, mem_bytes. apply map_ext. intros i. apply E. Qed.

Lemma poke_in m p l x : p <= x < p + Z.of_nat (length l) -> poke m p l x = nth (Z.to_nat (x - p)) l 0.
Proof. intros Hx. unfold poke. by destruct (Z.leb_spec p x), (Z.ltb_spec x (p + Z.of_nat (length l))); try lia. Qed.
Lemma poke_out m p l x : ~ p <= x < p + Z.of_nat (length l) -> poke m p l x = m x.
Proof. intros Hx. unfold poke. by destruct (Z.leb_spec p x), (Z.ltb_spec x (p + Z.of_nat (length l))); try lia. Qed.

Lemma poke_nil m p : poke m p [] ≡ₘ m.
Proof. split. intros x. apply poke_out. simpl. lia. Qed.

Lemma poke_app m p l1 l2 : poke (poke m p l1) (p + Z.of_nat (length l1)) l2 ≡ₘ poke m p (l1 ++ l2).
Proof.
  split. intros x. destruct (decide (p <= x < p + Z.of_nat (length (l1 ++ l2)))) as [Hin | Hout]; rewrite length_app in *.
  - rewrite (poke_in m p (l1 ++ l2)) by (rewrite length_app; lia). destruct (Z.lt_ge_cases x (p + Z.of_nat (length l1))).
    + rewrite poke_out, poke_in, app_nth1 by lia. done.
    + rewrite poke_in, app_nth2 by lia. f_equal. lia.
  - rewrite !poke_out by (rewrite ?length_app; lia). done.
Qed.

(** A write into the middle of another one. *)
Lemma poke_inside m p l k l' : 0 <= k -> k + Z.of_nat (length l') <= Z.of_nat (length l) ->
  poke (poke m p l) (p + k) l' ≡ₘ poke m p (splice (Z.to_nat k) l' l).
Proof.
  intros Hk Hl. split. intros x. assert (Hls : length (splice (Z.to_nat k) l' l) = length l) by (rewrite length_splice; lia).
  destruct (decide (p <= x < p + Z.of_nat (length l))) as [Hin | Hout].
  - rewrite (poke_in m p (splice _ _ _)) by lia. rewrite (nth_lookup (splice _ _ _)), lookup_splice by lia. case_decide as E.
    + rewrite poke_in by lia. rewrite nth_lookup. do 2 f_equal. lia.
    + rewrite poke_out, poke_in by lia. by rewrite nth_lookup.
  - rewrite !poke_out by lia. done.
Qed.

Lemma memset_poke m p v n : memset m p v n ≡ₘ poke m p (replicate n v).
Proof.
  split. intros x. unfold memset. destruct (decide (p <= x < p + Z.of_nat n)) as [Hin | Hout].
  - rewrite poke_in, nth_lookup by (rewrite length_replicate; lia). rewrite lookup_replicate_2 by lia.
    replace x with (p + 0 + (x - p)) by lia. by rewrite memset_in by lia.
  - rewrite poke_out by (rewrite length_replicate; lia). apply memset_out. lia.
Qed.

Lemma peek_poke m p l n : n = Z.of_nat (length l) -> peek (poke m p l) p n = l.
Proof.
  intros ->. unfold peek. rewrite Nat2Z.id. apply list_eq. intros i. unfold mem_bytes. rewrite list_lookup_fmap.
  destruct (decide (i < length l)%nat) as [Hi | Hi].
  - rewrite lookup_seq_lt by done. cbn [fmap option_fmap option_map]. rewrite poke_in by lia. rewrite nth_lookup.
    replace (Z.to_nat (p + Z.of_nat (0 + i) - p)) with i by lia. by destruct (lookup_lt_is_Some_2 l i Hi) as [c ->].
  - rewrite lookup_seq_ge by lia. symmetry. apply lookup_ge_None. lia.
Qed.

(** ** Entries *)

Record dirent := Dirent { d_ino : Z; d_off : Z; d_type : Z; d_name : list Z }.

Definition entry_of (idx : Z) (v : VfsNode) : dirent :=
  Dirent (if inode v =? 0 then idx + 1 else inode v) (idx + 1) (if is_dir v then 4 else 8) (name v).

(** What a program makes of the buffer. *)
Fixpoint dirents (fuel : nat) (l : list Z) : list dirent :=
  match fuel, l with
  | S fuel, _ :: _ =>
      let r := Z.to_nat (le_val (slice 16 2 l)) in
      Dirent (le_val (slice 0 8 l)) (le_val (slice 8 8 l)) (nth 18 l 0) (cstr (take (r - 19) (drop 19 l))) ::
      dirents fuel (drop r l)
  | _, _ => []
  end.

Definition dirent_bytes (idx : Z) (v : VfsNode) : list Z :=
  le_bytes 8 (if inode v =? 0 then u32 (idx + 1) else inode v) ++ le_bytes 8 (u32 (idx + 1)) ++ le_bytes 2 (reclen v) ++
  [if is_dir v then 4 else 8] ++ name v ++ [0] ++ replicate (Z.to_nat (reclen v) - 20 - length (name v)) 0.

Lemma reclen_spec v : (length (name v) <= 63)%nat ->
  20 + Z.of_nat (length (name v)) <= reclen v <= 88 /\ reclen v mod 8 = 0.
Proof.
  intros Hl. assert (E : reclen v = (27 + Z.of_nat (length (name v))) / 8 * 8).
  { unfold reclen. change (not64 7) with (not64 (2 ^ 3 - 1)). rewrite land_not64 by lia. change (2 ^ 3) with 8. do 2 f_equal. lia. }
  rewrite E. split; [mod_lia | by apply Z.mod_mul].
Qed.

Lemma length_dirent_bytes idx v : (length (name v) <= 63)%nat -> Z.of_nat (length (dirent_bytes idx v)) = reclen v.
Proof.
  intros Hl. destruct (reclen_spec v Hl) as [Hr _]. unfold dirent_bytes.
  rewrite !length_app, !length_le_bytes, length_replicate. simpl. lia.
Qed.

Lemma splice_front_app {A} (m r new : list A) : length new = length m -> splice 0 new (m ++ r) = new ++ r.
Proof. intros Hn. exact (splice_app [] m r new Hn). Qed.

(** A field [b] of what was written, overwritten. *)
Lemma poke_field m m' p q a b c l : m' ≡ₘ poke m p (a ++ b ++ c) -> length l = length b -> q = p + Z.of_nat (length a) ->
  poke m' q l ≡ₘ poke m p (a ++ l ++ c).
Proof.
  intros E Hl ->. rewrite E, poke_inside by (rewrite ?length_app; lia). by rewrite Nat2Z.id, splice_app.
Qed.

Lemma put_dirent_poke m entry idx v : (length (name v) <= 63)%nat -> put_dirent m entry idx v ≡ₘ poke m entry (dirent_bytes idx v).
Proof.
  intros Hl. destruct (reclen_spec v Hl) as [Hr _]. unfold put_dirent, dirent_bytes.
  set (n := length (name v)) in *. set (ino := le_bytes 8 _). set (off := le_bytes 8 _). set (len := le_bytes 2 _).
  set (ty := [if is_dir v then 4 else 8]). set (pad := replicate (_ - 20 - n) 0). set (m0 := memset _ _ _ _).
  assert (L1 : length ino = 8%nat) by apply length_le_bytes. assert (L2 : length off = 8%nat) by apply length_le_bytes.
  assert (L3 : length len = 2%nat) by apply length_le_bytes.
  assert (E0 : m0 ≡ₘ poke m entry ([] ++ replicate 8 0 ++ replicate 8 0 ++ replicate 2 0 ++ replicate 1 0 ++ replicate n 0 ++ replicate 1 0 ++ pad)).
  { unfold m0. rewrite memset_poke. cbn [app]. unfold pad. rewrite <- !replicate_add. by replace (8 + _)%nat with (Z.to_nat (reclen v)) by lia. }
  clearbody ino off len pad m0.
  eapply poke_field with (q := entry) (l := ino) in E0; [| by rewrite length_replicate | simpl; lia]. cbn [app] in E0.
  eapply poke_field with (q := entry + 8) (l := off) in E0; [| by rewrite length_replicate | lia]. rewrite app_assoc in E0.
  eapply poke_field with (q := entry + 16) (l := len) in E0; [| by rewrite length_replicate | rewrite !length_app; lia]. rewrite app_assoc in E0.
  eapply poke_field with (q := entry + 18) (l := ty) in E0; [| by rewrite length_replicate | rewrite !length_app; lia]. rewrite app_assoc in E0.
  eapply poke_field with (q := entry + 19) (l := name v) in E0; [| by rewrite length_replicate | rewrite !length_app; simpl; lia]. rewrite app_assoc in E0.
  eapply poke_field with (q := entry + 19 + Z.of_nat n) (l := [0]) in E0; [| by rewrite length_replicate | rewrite !length_app; simpl; lia].
  rewrite E0. by rewrite <- !app_assoc.
Qed.

Fixpoint entries_from (idx : Z) (vs : list VfsNode) : list dirent :=
  match vs with [] => [] | v :: vs => entry_of idx v :: entries_from (idx + 1) vs end.
Fixpoint bytes_from (idx : Z) (vs : list VfsNode) : list Z :=
  match vs with [] => [] | v :: vs => dirent_bytes idx v ++ bytes_from (idx + 1) vs end.

Lemma entries_from_app idx vs ws : entries_from idx (vs ++ ws) = entries_from idx vs ++ entries_from (idx + Z.of_nat (length vs)) ws.
Proof.
  revert idx. induction vs as [| v vs IH]; intros idx; cbn [app entries_from length]; [by rewrite Z.add_0_r |].
  rewrite IH. do 2 f_equal. f_equal. lia.
Qed.

(** A node that can be listed. *)
Definition listable (v : VfsNode) : Prop := name_ok (name v) /\ 0 <= inode v < 2 ^ 32.

Lemma le_val_bytes n z : 0 <= z < 256 ^ Z.of_nat n -> le_val (le_bytes n z) = z.
Proof. intros Hz. rewrite le_val_le_bytes. by apply Z.mod_small. Qed.

Lemma dirents_cons fuel idx v rest : listable v -> 0 <= idx < 2 ^ 32 - 1 ->
  dirents (S fuel) (dirent_bytes idx v ++ rest) = entry_of idx v :: dirents fuel rest.
Proof.
  intros [[Hnul Hl] Hi] Hx. destruct (reclen_spec v Hl) as [Hr _].
  pose proof (length_dirent_bytes idx v Hl) as Hlen.
  set (ino := if inode v =? 0 then u32 (idx + 1) else inode v).
  assert (Hino : ino = d_ino (entry_of idx v) /\ 0 <= ino < 2 ^ 32).
  { unfold ino, entry_of. cbn [d_ino]. rewrite u32_small by lia. destruct (Z.eqb_spec (inode v) 0); lia. }
  set (pad := replicate (Z.to_nat (reclen v) - 20 - length (name v)) 0).
  assert (Eb : dirent_bytes idx v ++ rest = le_bytes 8 ino ++ le_bytes 8 (u32 (idx + 1)) ++ le_bytes 2 (reclen v) ++
    [if is_dir v then 4 else 8] ++ name v ++ [0] ++ pad ++ rest) by (unfold dirent_bytes; by rewrite <- !app_assoc).
  assert (Hs : forall (a b c : list Z) off n, length a = off -> length b = n -> slice off n (a ++ b ++ c) = b).
  { intros a b c off n <- <-. unfold slice. by rewrite drop_app_length, take_app_length. }
  assert (E0 : slice 0 8 (dirent_bytes idx v ++ rest) = le_bytes 8 ino).
  { rewrite Eb. apply (Hs [] _ _); [done | apply length_le_bytes]. }
  assert (E8 : slice 8 8 (dirent_bytes idx v ++ rest) = le_bytes 8 (u32 (idx + 1))).
  { rewrite Eb. apply Hs; apply length_le_bytes. }
  assert (E16 : slice 16 2 (dirent_bytes idx v ++ rest) = le_bytes 2 (reclen v)).
  { rewrite Eb, app_assoc. apply Hs; rewrite ?length_app, !length_le_bytes; done. }
  assert (E18 : forall k, drop 18 (dirent_bytes idx v ++ rest) = [if is_dir v then 4 else 8] ++ name v ++ [0] ++ pad ++ rest /\
    nth (18 + k) (dirent_bytes idx v ++ rest) 0 = nth k ([if is_dir v then 4 else 8] ++ name v ++ [0] ++ pad ++ rest) 0).
  { intros k. rewrite Eb, !(app_assoc (le_bytes 8 ino)), !(app_assoc (le_bytes 8 ino ++ _)).
    split; [apply drop_app_length'; by rewrite !length_app, !length_le_bytes |].
    rewrite app_nth2; rewrite !length_app, !length_le_bytes; [f_equal; lia | lia]. }
  destruct (dirent_bytes idx v ++ rest) as [| b0 l0] eqn:El.
  { apply (f_equal length) in Eb. rewrite !length_app, !length_le_bytes in Eb. simpl in Eb. lia. }
  cbn [dirents]. rewrite E0, E8, E16.
  rewrite !le_val_bytes by (change (256 ^ Z.of_nat 8) with (2 ^ 64); change (256 ^ Z.of_nat 2) with 65536; rewrite ?u32_small by lia; lia).
  destruct (E18 0%nat) as [D18 N18]. rewrite Nat.add_0_r in N18. rewrite N18. cbn [nth app].
  assert (D19 : drop 19 (b0 :: l0) = name v ++ [0] ++ pad ++ rest).
  { replace 19%nat with (18 + 1)%nat by done. rewrite <- drop_drop, D18. done. }
  rewrite D19. unfold entry_of. f_equal.
  - f_equal; [apply Hino | by rewrite u32_small by lia |].
    replace (take (Z.to_nat (reclen v) - 19) (name v ++ [0] ++ pad ++ rest)) with (name v ++ 0 :: pad).
    + by apply cstr_app_nul.
    + change ([0] ++ pad ++ rest) with ((0 :: pad) ++ rest). rewrite app_assoc. symmetry. apply take_app_length'.
      rewrite length_app. simpl. unfold pad. rewrite length_replicate. lia.
  - f_equal. rewrite <- El. apply drop_app_length'. lia.
Qed.

Lemma dirents_from vs : forall fuel idx, Forall listable vs -> 0 <= idx -> idx + Z.of_nat (length vs) < 2 ^ 32 -> (length vs <= fuel)%nat ->
  dirents fuel (bytes_from idx vs) = entries_from idx vs.
Proof.
  induction vs as [| v vs IH]; intros fuel idx Hv Hi Hn Hf; [by destruct fuel |]. apply Forall_cons in Hv as [Hv Hvs].
  cbn [length] in *. destruct fuel as [| fuel]; [lia |]. cbn [bytes_from entries_from].
  rewrite dirents_cons by (done || lia). f_equal. apply IH; done || lia.
Qed.

Section calls.
Context {P H X : Type} `{PageAllocator P} `{KernelHeap H} `{Console X} `{FatDisk X} `{Timer X}.
Implicit Types s : sys P H X.

(** [dir] is a directory that is not the FAT16 volume, with the nodes [vs] in it. *)
Record directory (f : vfs H X) (dir : Z) (v : VfsNode) (vs : list VfsNode) : Prop := {
  di_node : node_at dir f = Some v;
  di_dir : is_dir v = true;
  di_fn : exists g, readdir_fn v = Some g /\ g <> Fat16Dir;
  di_null : dir <> 0;
  di_children : Forall2 (fun c w => c <> 0 /\ node_at c f = Some w) (children v) vs;
  di_names : Forall listable vs;
  di_count : Z.of_nat (length vs) < 2 ^ 31 }.

Lemma readdir_at f dir v vs idx : directory f dir v vs -> 0 <= idx ->
  exists c, Vfs.readdir dir idx f = Some (c, f) /\
    match vs !! Z.to_nat idx with Some w => c <> 0 /\ node_at c f = Some w | None => c = 0 end.
Proof.
  intros [Hn Hd (g & Hg & Hg') Hnull Hc _ _] Hi.
  exists (child_at v idx). split.
  - unfold Vfs.readdir. rewrite (proj2 (Z.eqb_neq dir 0)), Hn by done. cbn [mbind option_bind]. rewrite Hg.
    unfold pure, default_readdir, ramfs_readdir, devfs_readdir. rewrite Hn. cbn [mbind option_bind]. rewrite Hd.
    destruct g; done.
  - pose proof (Forall2_length _ _ _ Hc) as Hl. unfold child_at. destruct (Z.leb_spec (Z.of_nat (length (children v))) idx) as [Hle | Hlt].
    + by rewrite lookup_ge_None_2 by lia.
    + destruct (lookup_lt_is_Some_2 (children v) (Z.to_nat idx)) as [c Ec]; [lia |].
      destruct (Forall2_lookup_l _ _ _ _ _ Hc Ec) as (w & -> & Hw). rewrite nth_lookup, Ec. exact Hw.
Qed.

(** The loop writes the entries that fit, in order. *)
Lemma dents_loop_spec dir v vs buf count : forall n idx pos s, directory (fs s) dir v vs -> 0 <= idx <= Z.of_nat (length vs) ->
  (length vs - Z.to_nat idx < n)%nat ->
  exists k s', let ws := take k (drop (Z.to_nat idx) vs) in
    dents_loop n dir idx pos buf count s = Some (idx + Z.of_nat k, pos + Z.of_nat (length (bytes_from idx ws)), s') /\
    (k <= length vs - Z.to_nat idx)%nat /\ fs s' = fs s /\ space s' = space s /\ msr s' = msr s /\
    um s' ≡ₘ poke (um s) (buf + pos) (bytes_from idx ws) /\
    (pos + Z.of_nat (length (bytes_from idx ws)) <= Z.max pos count) /\
    (pos + 88 <= count -> (Z.to_nat idx < length vs)%nat -> (0 < k)%nat).
Proof.
  induction n as [| n IH]; intros idx pos s Hdir Hi Hn; [lia |]. cbn [dents_loop].
  destruct (readdir_at (fs s) dir v vs idx Hdir) as (c & -> & Hc); [lia |]. cbn [mbind option_bind].
  assert (Es : set_fs (fs s) s = s) by (by destruct s). rewrite Es.
  destruct (vs !! Z.to_nat idx) as [w |] eqn:Ew.
  - destruct Hc as [Hc0 Hw]. rewrite (proj2 (Z.eqb_neq c 0)), Hw by done. cbn [mbind option_bind].
    pose proof (lookup_lt_Some _ _ _ Ew) as Hlt.
    assert (Hlist : listable w) by (pose proof (di_names _ _ _ _ Hdir) as Hf; rewrite Forall_lookup in Hf; by eapply Hf).
    destruct (reclen_spec w) as [Hr _]; [by destruct Hlist as [[_ ?] _] |].
    destruct (Z.ltb_spec count (pos + reclen w)) as [Hfull | Hroom].
    + exists 0%nat, s. cbn [take bytes_from length]. rewrite !Z.add_0_r. split; [done |]. split; [lia |]. split; [done |]. split; [done |]. split; [done |].
      split; [by rewrite poke_nil |]. split; [lia |]. intros Hp Hlt'. lia.
    + pose proof (di_count _ _ _ _ Hdir) as Hcnt. rewrite u32_small by lia.
      set (s1 := set_um _ s).
      destruct (IH (idx + 1) (pos + reclen w) s1) as (k & s' & E & Hk & Ef & Esp & Em & Eu & Hpos & _); [done | lia | lia |].
      exists (S k), s'. rewrite E. replace (Z.to_nat (idx + 1)) with (S (Z.to_nat idx)) in * by lia.
      rewrite (drop_S vs w (Z.to_nat idx) Ew). cbn [take bytes_from]. set (ws := take k _) in *.
      assert (Hl : Z.of_nat (length (dirent_bytes idx w)) = reclen w) by (apply length_dirent_bytes; by destruct Hlist as [[_ ?] _]).
      replace (idx + Z.of_nat (S k)) with (idx + 1 + Z.of_nat k) by lia.
      replace (pos + Z.of_nat (length (dirent_bytes idx w ++ bytes_from (idx + 1) ws)))
        with (pos + reclen w + Z.of_nat (length (bytes_from (idx + 1) ws))) by (rewrite length_app; lia).
      split; [done |]. split; [lia |]. split; [done |]. split; [done |]. split; [done |].
      split; [| split; lia].
      rewrite Eu. unfold s1. cbn [um set_um]. rewrite put_dirent_poke by (by destruct Hlist as [[_ ?] _]).
      rewrite <- Hl, Z.add_assoc, poke_app. done.
  - subst c. cbn [Z.eqb]. apply lookup_ge_None in Ew. exists 0%nat, s. cbn [take bytes_from length]. rewrite !Z.add_0_r.
    split; [done |]. split; [lia |]. split; [done |]. split; [done |]. split; [done |]. split; [by rewrite poke_nil |]. split; [lia |]. intros _ ?. lia.
Qed.
End calls.

Section list.
Context {P H X : Type} `{PageAllocator P} `{KernelHeap H} `{Console X} `{FatDisk X} `{Timer X}.
Implicit Types s : sys P H X.

Lemma bytes_from_nil idx vs : Forall listable vs -> Z.of_nat (length (bytes_from idx vs)) = 0 -> vs = [].
Proof.
  intros Hv. destruct vs as [| v vs]; [done |]. apply Forall_cons in Hv as [[[_ Hl] _] _]. cbn [bytes_from].
  pose proof (length_dirent_bytes idx v Hl). destruct (reclen_spec v Hl) as [? _]. rewrite length_app. lia.
Qed.

Lemma bytes_from_count vs : forall idx, Forall listable vs -> (length vs <= length (bytes_from idx vs))%nat.
Proof.
  induction vs as [| w vs IH]; intros idx Hv; [done |]. apply Forall_cons in Hv as [[[_ Hl] _] Hv]. cbn [bytes_from length].
  rewrite length_app. specialize (IH (idx + 1) Hv). pose proof (length_dirent_bytes idx w Hl). destruct (reclen_spec w Hl) as [? _]. lia.
Qed.

Lemma directory_fds (f : vfs H X) t dir v vs : directory f dir v vs -> directory (set_fds t f) dir v vs.
Proof. intros [A B C D E F G]. by split. Qed.

(** One call: the next entries that fit, at least one if there is one. *)
Lemma getdents_spec fuel fd buf count s dir v vs off : directory (fs s) dir v vs ->
  FD_TABLE (fs s) !! Z.to_nat fd = Some (Fd dir off true) -> 0 <= fd < 32 -> buf <> 0 -> 88 <= count ->
  0 <= off <= Z.of_nat (length vs) -> (length vs < fuel)%nat ->
  exists k s', let ws := take k (drop (Z.to_nat off) vs) in
    sys_getdents64 fuel fd buf count s = Some (Returns (Z.of_nat (length (bytes_from off ws))), s') /\
    (k <= length vs - Z.to_nat off)%nat /\ ((Z.to_nat off < length vs)%nat -> (0 < k)%nat) /\
    fs s' = set_fds (<[Z.to_nat fd := Fd dir (off + Z.of_nat k) true]> (FD_TABLE (fs s))) (fs s) /\
    um s' ≡ₘ poke (um s) buf (bytes_from off ws) /\ Z.of_nat (length (bytes_from off ws)) <= count.
Proof.
  intros Hdir Hfd Hr Hbuf Hcount Hoff Hfuel. unfold sys_getdents64.
  rewrite (proj2 (Z.eqb_neq buf 0)), (proj2 (Z.eqb_neq count 0)) by lia. cbn [orb].
  assert (En : fd_node fd s = dir) by (unfold fd_node; rewrite Hfd; by destruct (Z.leb_spec (Z.of_nat MAX_OPEN_FILES) fd); [unfold MAX_OPEN_FILES in *; lia |]).
  rewrite En, (proj2 (Z.eqb_neq dir 0)) by apply Hdir. rewrite (di_node _ _ _ _ Hdir). cbn [mbind option_bind].
  rewrite (di_dir _ _ _ _ Hdir). cbn [negb]. rewrite Hfd. cbn [mbind option_bind VfsNode.offset].
  destruct (dents_loop_spec dir v vs buf count fuel off 0 s Hdir Hoff) as (k & s1 & E & Hk & Ef & _ & _ & Eu & Hpos & Hprog); [lia |].
  cbv zeta in E. rewrite E. cbn [mbind option_bind]. rewrite Z.add_0_l. rewrite Z.add_0_l in Hpos. rewrite Z.add_0_r in Eu.
  set (ws := take k (drop (Z.to_nat off) vs)) in *.
  assert (Hws : Forall listable ws) by (apply Forall_take, Forall_drop; apply Hdir).
  assert (Efs : fs (set_fd_offset fd (off + Z.of_nat k) s1) = set_fds (<[Z.to_nat fd := Fd dir (off + Z.of_nat k) true]> (FD_TABLE (fs s))) (fs s)).
  { unfold set_fd_offset. cbn [fs set_fs]. rewrite Ef. f_equal. rewrite (list_alter_insert _ _ _ _ Hfd). done. }
  set (s2 := set_fd_offset fd (off + Z.of_nat k) s1) in *. assert (Eu2 : um s2 = um s1) by done. clearbody s2.
  destruct (Z.eqb_spec (Z.of_nat (length (bytes_from off ws))) 0) as [Hz | Hnz].
  - pose proof (bytes_from_nil off ws Hws Hz) as Ews.
    assert (Hend : (length vs <= Z.to_nat off)%nat).
    { destruct (decide (Z.to_nat off < length vs)%nat) as [Hlt |]; [| lia]. exfalso. specialize (Hprog ltac:(lia) Hlt).
      apply (f_equal length) in Ews. unfold ws in Ews. rewrite length_take, length_drop in Ews. simpl in Ews. lia. }
    destruct (readdir_at (fs s2) dir v vs off) as (c & -> & Hc); [rewrite Efs; by apply directory_fds | lia |].
    rewrite lookup_ge_None_2 in Hc by done. subst c. cbn [mbind option_bind Z.eqb].
    exists k, s2. cbv zeta. fold ws. rewrite Hz. assert (set_fs (fs s2) s2 = s2) as -> by (by destruct s2).
    split_and!; try done; [lia | by rewrite Eu2 | lia].
  - exists k, s2. cbv zeta. fold ws. split_and!; try done; [intros; by apply Hprog | by rewrite Eu2 | lia].
Qed.

(** A program that lists a directory: it calls until the answer is 0. *)
Fixpoint read_dir (fuel calls : nat) (fd buf count : Z) s : option (list dirent * sys P H X) :=
  match calls with
  | O => None
  | S calls =>
      '(o, s) ← sys_getdents64 fuel fd buf count s;
      match o with
      | Exits _ => None
      | Returns n =>
          if n =? 0 then Some ([], s) else
          let here := dirents (Z.to_nat n) (peek (um s) buf n) in
          '(more, s) ← read_dir fuel calls fd buf count s; Some (here ++ more, s)
      end
  end.

(** C36: A program that calls [getdents64] on an open directory until it answers 0, with
    a buffer of at least 88 bytes, gets every entry from the descriptor's position
    once, in the order of the directory, with its name, type, number and position;
    each call makes progress, writes only inside the buffer, and the calls change no
    file and leave the descriptor at the end. *)
Theorem read_dir_lists fuel calls fd buf count s dir v vs off : directory (fs s) dir v vs ->
  FD_TABLE (fs s) !! Z.to_nat fd = Some (Fd dir off true) -> 0 <= fd < 32 -> buf <> 0 -> 88 <= count ->
  0 <= off <= Z.of_nat (length vs) -> (length vs < fuel)%nat -> (length vs - Z.to_nat off < calls)%nat ->
  exists s', read_dir fuel calls fd buf count s = Some (entries_from off (drop (Z.to_nat off) vs), s') /\
    fs s' = set_fds (<[Z.to_nat fd := Fd dir (Z.of_nat (length vs)) true]> (FD_TABLE (fs s))) (fs s) /\
    (forall x, ~ buf <= x < buf + count -> um s' x = um s x).
Proof.
  intros Hdir Hfd Hr Hbuf Hcount Hoff Hfuel. revert s off Hdir Hfd Hoff.
  induction calls as [| calls IH]; intros s off Hdir Hfd Hoff Hcalls; [lia |]. cbn [read_dir].
  destruct (getdents_spec fuel fd buf count s dir v vs off Hdir Hfd Hr Hbuf Hcount Hoff Hfuel) as (k & s1 & E & Hk & Hprog & Ef & Eu & Hlen).
  cbv zeta in E. rewrite E. cbn [mbind option_bind]. set (ws := take k (drop (Z.to_nat off) vs)) in *.
  assert (Hws : Forall listable ws) by (apply Forall_take, Forall_drop; apply Hdir).
  assert (Hout : forall x, ~ buf <= x < buf + count -> um s1 x = um s x).
  { intros x Hx. rewrite (mem_eq_at _ _ Eu). apply poke_out. lia. }
  pose proof (di_count _ _ _ _ Hdir) as Hcnt.
  destruct (Z.eqb_spec (Z.of_nat (length (bytes_from off ws))) 0) as [Hz | Hnz].
  - assert (Hend : (length vs <= Z.to_nat off)%nat).
    { pose proof (bytes_from_nil off ws Hws Hz) as Ews. destruct (decide (Z.to_nat off < length vs)%nat) as [Hlt |]; [| lia]. exfalso.
      specialize (Hprog Hlt). apply (f_equal length) in Ews. unfold ws in Ews. rewrite length_take, length_drop in Ews. simpl in Ews. lia. }
    exists s1. rewrite (drop_ge vs) by done. split; [done |]. split; [| done]. rewrite Ef. do 3 f_equal. lia.
  - assert (Hk0 : (0 < k)%nat) by (destruct k; [exfalso; by apply Hnz | lia]).
    destruct (IH s1 (off + Z.of_nat k)) as (s2 & E2 & Ef2 & Hout2); [rewrite Ef; by apply directory_fds | | lia | lia |].
    { rewrite Ef. cbn [FD_TABLE set_fds]. rewrite list_lookup_insert_eq; [done |]. by apply lookup_lt_Some in Hfd. }
    rewrite E2. cbn [mbind option_bind]. exists s2. split; [| split].
    + do 2 f_equal. rewrite Eu, peek_poke by done.
      assert (Hwl : length ws = k) by (unfold ws; rewrite length_take, length_drop; lia).
      rewrite dirents_from; [| done | lia | rewrite Hwl; lia |].
      * replace (Z.to_nat (off + Z.of_nat k)) with (Z.to_nat off + k)%nat by lia. rewrite <- drop_drop.
        rewrite <- (take_drop k (drop (Z.to_nat off) vs)) at 2. rewrite entries_from_app. fold ws. by rewrite Hwl.
      * pose proof (bytes_from_count ws off Hws). lia.
    + rewrite Ef2, Ef. cbn [FD_TABLE set_fds]. rewrite list_insert_insert_eq. done.
    + intros x Hx. by rewrite Hout2, Hout.
Qed.
End list.

(** ** A directory with three files, open as descriptor 3; the buffer takes two entries *)

#[export] Instance desk_timer : Timer desk := fun _ => 0.

Definition list_file (nm : list Z) (i : Z) : VfsNode := Node nm VFS_FILE 5 i None None None None PNull [] 0x500000.
Definition list_root : VfsNode := Node [47] VFS_DIRECTORY 0 0 None None (Some DefaultDir) (Some DefaultDir) PNull [0x501000; 0x502000; 0x503000] 0.
Definition list_files : list VfsNode := [list_file [97] 7; list_file [98; 98] 0; list_file [99] 9].
Definition list_store : gmap Z obj :=
  {[ 0x500000 := ONode list_root; 0x501000 := ONode (list_file [97] 7); 0x502000 := ONode (list_file [98; 98] 0);
     0x503000 := ONode (list_file [99] 9) ]}.
Definition list_sys : sys pmm bump desk :=
  Sys (set_fds (<[3%nat := Fd 0x500000 0 true]> (replicate 32 EMPTY_FD)) (set_store list_store (desk_vfs [])))
    (fun _ => 170) demo_space (fun _ => 0).

Lemma list_directory : directory (fs list_sys) 0x500000 list_root list_files.
Proof.
  split; try done.
  - by exists DefaultDir.
  - repeat constructor; by vm_compute.
  - repeat constructor; vm_compute; congruence.
Qed.

Lemma read_dir_lists_witness : exists s', read_dir 10 5 3 0x1000 88 list_sys =
    Some ([Dirent 7 1 8 [97]; Dirent 2 2 8 [98; 98]; Dirent 9 3 8 [99]], s') /\ um s' 0xFFF = 170 /\ um s' 0x1058 = 170.
Proof.
  destruct (read_dir_lists 10 5 3 0x1000 88 list_sys 0x500000 list_root list_files 0 list_directory) as (s' & E & _ & Hout);
    [reflexivity | lia | lia | lia | by vm_compute | cbn; lia | cbn; lia |].
  exists s'. split; [exact E |]. split; rewrite Hout by lia; reflexivity.
Defined.
