(* ===== verification/Pic.v ===== *)
(** The interrupt controllers ([src/src/pic.rs]) over port accesses.

    A pair of 8259 chips is a [PortIO] state with a view of both: vector base, mask,
    interrupts in service and the step of the initialisation.  Every port write acts on
    the view as the data sheet says ([pair_write]); a pair in memory satisfies this. *)
From S2P Require Import Prelude PortIO.

Definition PIC1_CMD : Z := 0x20.
Definition PIC1_DATA : Z := 0x21.
Definition PIC2_CMD : Z := 0xA0.
Definition PIC2_DATA : Z := 0xA1.
Definition ICW1_INIT : Z := 0x10.
Definition ICW1_ICW4 : Z := 0x01.
Definition ICW4_8086 : Z := 0x01.
Definition EOI : Z := 0x20.

Section driver.
Context {D : Type} `{PortIO D}.
Implicit Types d : D.

Definition init d : D :=
  let d := outb PIC1_CMD (Z.lor ICW1_INIT ICW1_ICW4) d in
  let d := outb PIC2_CMD (Z.lor ICW1_INIT ICW1_ICW4) d in
  let d := outb PIC1_DATA 32 d in
  let d := outb PIC2_DATA 40 d in
  let d := outb PIC1_DATA 4 d in
  let d := outb PIC2_DATA 2 d in
  let d := outb PIC1_DATA ICW4_8086 d in
  let d := outb PIC2_DATA ICW4_8086 d in
  outb PIC2_DATA 0xFF (outb PIC1_DATA 0xF8 d).

Definition send_eoi (irq : Z) d : D :=
  let d := if 8 <=? irq then outb PIC2_CMD EOI d else d in
  outb PIC1_CMD EOI d.

Definition unmask_irq (irq : Z) d : D :=
  let '(port, line) := if irq <? 8 then (PIC1_DATA, irq) else (PIC2_DATA, irq - 8) in
  let '(mask, d) := inb port d in
  outb port (Z.land mask (not8 (u8 (Z.shiftl 1 line)))) d.
End driver.

(** ** The chips *)

Inductive icw := Ready | Want2 (with4 : bool) | Want3 (with4 : bool) | Want4.
Record chip := Chip { base : Z; mask : Z; service : list Z; step : icw }.

Definition chip_ready (c : chip) : Prop := step c = Ready.

(** Lines in service are a sorted list; the first is the one of highest priority,
    which an unspecific end of interrupt clears. *)
Definition chip_command (v : Z) (c : chip) : chip :=
  if Z.testbit v 4 then Chip (base c) 0 [] (Want2 (Z.testbit v 0)) else
  if v =? EOI then Chip (base c) (mask c) (tail (service c)) (step c) else c.
Definition chip_data (v : Z) (c : chip) : chip :=
  match step c with
  | Want2 b => Chip (Z.land v 0xF8) (mask c) (service c) (Want3 b)
  | Want3 b => Chip (base c) (mask c) (service c) (if b then Want4 else Ready)
  | Want4 => Chip (base c) (mask c) (service c) Ready
  | Ready => Chip (base c) v (service c) Ready
  end.

Definition pair_write (port v : Z) (p : chip * chip) : chip * chip :=
  if port =? PIC1_CMD then (chip_command v p.1, p.2) else
  if port =? PIC1_DATA then (chip_data v p.1, p.2) else
  if port =? PIC2_CMD then (p.1, chip_command v p.2) else
  if port =? PIC2_DATA then (p.1, chip_data v p.2) else p.

Class Pics (D : Type) `{PortIO D} := {
  pics : D -> chip * chip;
  pics_outb : forall port v d, pics (outb port v d) = pair_write port v (pics d);
  pics_inb1 : forall d, chip_ready (pics d).1 -> exists d', inb PIC1_DATA d = (mask (pics d).1, d') /\ pics d' = pics d;
  pics_inb2 : forall d, chip_ready (pics d).2 -> exists d', inb PIC2_DATA d = (mask (pics d).2, d') /\ pics d' = pics d }.

(** A line raised by a device: what goes into service, and the vector; [None] when it
    is masked or something of its priority or higher is in service. *)
Definition above (l : Z) (c : chip) : bool := match service c with [] => true | x :: _ => l <? x end.
Definition chip_raise (l : Z) (c : chip) : option chip :=
  if Z.testbit (mask c) l || negb (above l c) then None else Some (Chip (base c) (mask c) (l :: service c) (step c)).
Definition raise (irq : Z) (p : chip * chip) : option (Z * (chip * chip)) :=
  if irq <? 8 then c ← chip_raise irq p.1; Some (base c + irq, (c, p.2)) else
  c2 ← chip_raise (irq - 8) p.2; c1 ← chip_raise 2 p.1; Some (base c2 + (irq - 8), (c1, c2)).

Definition pair_ready (p : chip * chip) : Prop := chip_ready p.1 /\ chip_ready p.2.

Section proofs.
Context {D : Type} `{Pics D}.
Implicit Types d : D.

Lemma pic_init_spec d : pics (init d) = (Chip 32 0xF8 [] Ready, Chip 40 0xFF [] Ready).
Proof. unfold init. cbv zeta. rewrite !pics_outb. by destruct (pics d) as [[] []]. Qed.

(** The end of an interrupt takes back exactly what raising it put into service. *)
Lemma send_eoi_spec irq v p d : raise irq p = Some (v, pics d) -> pics (send_eoi irq d) = p.
Proof.
  intros Hr. unfold send_eoi, raise, chip_raise in *. cbv zeta. destruct (Z.ltb_spec irq 8).
  - rewrite (proj2 (Z.leb_gt 8 irq)), pics_outb by done. destruct p as [c1 c2]. cbn [fst snd] in Hr.
    destruct (Z.testbit (mask c1) irq || negb (above irq c1)); [done |]. cbn in Hr. injection Hr as _ <-. by destruct c1.
  - rewrite (proj2 (Z.leb_le 8 irq)), !pics_outb by done. destruct p as [c1 c2]. cbn [fst snd] in Hr.
    destruct (Z.testbit (mask c2) (irq - 8) || _); [done |]. cbn [mbind option_bind] in Hr.
    destruct (Z.testbit (mask c1) 2 || _); [done |]. cbn in Hr. injection Hr as _ <-. by destruct c1, c2.
Qed.

(** The other lines keep their masks. *)
Lemma unmask_irq_spec irq d : 0 <= irq < 16 -> pair_ready (pics d) ->
  let m c l := Chip (base c) (Z.land (mask c) (not8 (u8 (Z.shiftl 1 l)))) (service c) Ready in
  pics (unmask_irq irq d) =
    if irq <? 8 then (m (pics d).1 irq, (pics d).2) else ((pics d).1, m (pics d).2 (irq - 8)).
Proof.
  intros Hi [H1 H2]. unfold unmask_irq. destruct (irq <? 8).
  - destruct (pics_inb1 d H1) as (d' & -> & E). rewrite pics_outb, E. destruct (pics d) as [[? ? ? s1] c2].
    unfold chip_ready in H1. cbn in H1. by subst s1.
  - destruct (pics_inb2 d H2) as (d' & -> & E). rewrite pics_outb, E. destruct (pics d) as [c1 [? ? ? s2]].
    unfold chip_ready in H2. cbn in H2. by subst s2.
Qed.

Lemma unmasked_bit m l k : 0 <= m < 256 -> 0 <= l < 8 -> 0 <= k < 8 ->
  Z.testbit (Z.land m (not8 (u8 (Z.shiftl 1 l)))) k = Z.testbit m k && negb (k =? l).
Proof.
  intros Hm Hl Hk. rewrite Z.land_spec. f_equal. unfold not8. rewrite u8_small.
  - rewrite Z.lxor_spec, testbit_shiftl1 by lia. change 255 with (2 ^ 8 - 1). rewrite testbit_ones by lia.
    rewrite (proj2 (Z.ltb_lt k 8)) by lia. by rewrite xorb_true_r.
  - rewrite Z.shiftl_1_l. split; [apply Z.pow_nonneg; lia |]. change 256 with (2 ^ 8). apply Z.pow_lt_mono_r; lia.
Qed.
End proofs.

(** ** A pair in memory *)

#[export] Instance pair_ports : PortIO (chip * chip) := {|
  inb port p := (if port =? PIC1_DATA then mask p.1 else if port =? PIC2_DATA then mask p.2 else 0, p);
  outb := pair_write; inw _ p := (0, p); outw _ _ p := p; inl _ p := (0, p); outl _ _ p := p |}.
#[export] Program Instance pair_pics : Pics (chip * chip) := {| pics p := p |}.
Next Obligation. done. Qed.
Next Obligation. intros d _. by exists d. Qed.
Next Obligation. intros d _. by exists d. Qed.
