(* ===== verification/Serial.v ===== *)
(** The serial port ([src/src/serial.rs]) over port accesses, and what it does with a
    UART: bytes leave in order, and are read in the order they came.

    Loops that poll the line status have [fuel]; [hlt] between two looks lets time
    pass, which the device's own state accounts for. *)
From S2P Require Import Prelude PortIO.

Definition COM1 : Z := 0x3F8.

Section driver.
Context {D : Type} `{PortIO D}.
Implicit Types d : D.

Definition init d : D :=
  let d := outb (COM1 + 1) 0x00 d in
  let d := outb (COM1 + 3) 0x80 d in
  let d := outb (COM1 + 0) 0x01 d in
  let d := outb (COM1 + 1) 0x00 d in
  let d := outb (COM1 + 3) 0x03 d in
  let d := outb (COM1 + 2) 0xC7 d in
  outb (COM1 + 4) 0x0B d.

(** [while (inb(COM1 + 5) & 0x20) == 0 {}] *)
Fixpoint wait_empty (fuel : nat) d : option D :=
  match fuel with
  | O => None
  | S fuel => let '(v, d) := inb (COM1 + 5) d in if Z.land v 0x20 =? 0 then wait_empty fuel d else Some d
  end.

Definition putchar (fuel : nat) (c : Z) d : option D := d ← wait_empty fuel d; Some (outb COM1 c d).

Fixpoint puts (fuel : nat) (s : list Z) d : option D :=
  match s with
  | [] => Some d
  | c :: s => if c =? 0 then Some d else d ← putchar fuel c d; puts fuel s d
  end.

Definition data_ready d : bool * D := let '(v, d) := inb (COM1 + 5) d in (negb (Z.land v 0x01 =? 0), d).

Fixpoint getchar (fuel : nat) d : option (Z * D) :=
  match fuel with
  | O => None
  | S fuel => let '(r, d) := data_ready d in if r then Some (inb COM1 d) else getchar fuel d
  end.
End driver.

(** ** A UART: what it has sent, what it has received and what will come, how many
    looks at the status it needs until the transmitter is empty. *)
Class Uart (D : Type) `{PortIO D} := {
  sent : D -> list Z; received : D -> list Z; to_come : D -> list Z; busy : D -> nat;
  uart_bound : nat;
  uart_busy : forall d, (busy d < uart_bound)%nat;
  (** The line status; with an empty receiver a byte that is to come may arrive. *)
  uart_status : forall d, exists v d', inb (COM1 + 5) d = (v, d') /\
    (Z.land v 0x20 = 0 <-> busy d <> 0%nat) /\ (Z.land v 0x01 = 0 <-> received d = []) /\
    busy d' = pred (busy d) /\ sent d' = sent d /\ received d' ++ to_come d' = received d ++ to_come d /\
    (received d' = [] -> to_come d' = []);
  uart_out : forall d c, busy d = 0%nat -> sent (outb COM1 c d) = sent d ++ [c] /\
    received (outb COM1 c d) = received d /\ to_come (outb COM1 c d) = to_come d;
  uart_in : forall d c l, received d = c :: l -> exists d', inb COM1 d = (c, d') /\
    received d' = l /\ to_come d' = to_come d /\ sent d' = sent d }.

Section proofs.
Context {D : Type} `{Uart D}.
Implicit Types d : D.

Lemma wait_empty_spec fuel d : (busy d < fuel)%nat -> exists d', wait_empty fuel d = Some d' /\ busy d' = 0%nat /\
  sent d' = sent d /\ received d' ++ to_come d' = received d ++ to_come d.
Proof.
  revert d. induction fuel as [| fuel IH]; intros d Hf; [lia |]. cbn [wait_empty].
  destruct (uart_status d) as (v & d1 & -> & Hv & _ & Hb & Hs & Hr & _). destruct (Z.eqb_spec (Z.land v 0x20) 0) as [E | E].
  - apply Hv in E. destruct (IH d1) as (d2 & E2 & B2 & S2 & R2); [lia |]. exists d2. by rewrite E2, S2, R2.
  - exists d1. assert (busy d = 0%nat) by (destruct (busy d); [done | exfalso; apply E, Hv; done]).
    split; [done |]. split; [lia | done].
Qed.

(** The bytes before the first NUL leave in order. *)
Lemma puts_spec s d : exists d', puts uart_bound s d = Some d' /\ sent d' = sent d ++ cstr s /\
  received d' ++ to_come d' = received d ++ to_come d.
Proof.
  revert d. induction s as [| c s IH]; intros d; cbn [puts cstr]; [exists d; by rewrite app_nil_r |].
  destruct (c =? 0); [exists d; by rewrite app_nil_r |]. unfold putchar.
  destruct (wait_empty_spec uart_bound d (uart_busy d)) as (d1 & -> & B1 & S1 & R1). cbn [mbind option_bind].
  destruct (uart_out d1 c B1) as (S2 & R2 & C2). destruct (IH (outb COM1 c d1)) as (d3 & E3 & S3 & R3).
  exists d3. split; [done |]. split; [by rewrite S3, S2, S1, <- app_assoc | by rewrite R3, R2, C2].
Qed.

(** With a byte received or to come, [getchar] ends with the oldest. *)
Lemma getchar_spec fuel d c l : received d ++ to_come d = c :: l -> (2 <= fuel)%nat ->
  exists d', getchar fuel d = Some (c, d') /\ received d' ++ to_come d' = l /\ sent d' = sent d.
Proof.
  intros El Hf. destruct fuel as [| [| fuel]]; [lia | lia |]. cbn [getchar]. unfold data_ready.
  destruct (uart_status d) as (v & d1 & -> & _ & Hv & _ & Hs & Hr & Hc). rewrite El in Hr. destruct (received d1) as [| c1 l1] eqn:E1.
  - rewrite Hc in Hr by done. discriminate Hr.
  - cbn in Hr. injection Hr as -> Hr. destruct (uart_in d1 c l1 E1) as (d2 & E2 & R2 & C2 & S2).
    destruct (Z.eqb_spec (Z.land v 1) 0) as [Ev | Ev]; cbn [negb].
    + destruct (uart_status d1) as (v' & d3 & -> & _ & Hv' & _ & Hs' & Hr' & Hc'). rewrite E1 in Hv'.
      destruct (Z.eqb_spec (Z.land v' 1) 0) as [Ev' | Ev']; cbn [negb]; [by apply Hv' in Ev' |].
      destruct (received d3) as [| c3 l3] eqn:E3; [rewrite Hc', E1 in Hr' by done; discriminate Hr' |].
      rewrite E1 in Hr'. cbn in Hr'. injection Hr' as -> Hr'. destruct (uart_in d3 c l3 E3) as (d4 & E4 & R4 & C4 & S4).
      exists d4. rewrite E4. split; [done |]. split; [rewrite R4, C4, Hr'; done | congruence].
    + exists d2. rewrite E2. split; [done |]. split; [rewrite R2, C2; done | congruence].
Qed.
End proofs.

(** A UART in memory: three looks until a byte has left, one until the next comes. *)
Record com := Com { c_sent : list Z; c_received : list Z; c_coming : list Z; c_busy : nat }.
Definition com_busy (d : com) : nat := Nat.min 3 (c_busy d).
Definition com_status (d : com) : Z := (if decide (com_busy d = 0%nat) then 0x20 else 0) + (if decide (c_received d = []) then 0 else 1).
Definition com_look (d : com) : com :=
  match c_received d, c_coming d with
  | [], c :: l => Com (c_sent d) [c] l (pred (com_busy d))
  | r, l => Com (c_sent d) r l (pred (com_busy d))
  end.

#[export] Instance com_ports : PortIO com := {|
  inb port d :=
    if port =? COM1 + 5 then (com_status d, com_look d) else
    if port =? COM1 then (hd 0 (c_received d), Com (c_sent d) (tail (c_received d)) (c_coming d) (c_busy d)) else (0, d);
  outb port v d := if port =? COM1 then Com (c_sent d ++ [v]) (c_received d) (c_coming d) 3 else d;
  inw _ d := (0, d); outw _ _ d := d; inl _ d := (0, d); outl _ _ d := d |}.
#[export] Program Instance com_uart : Uart com := {|
  sent := c_sent; received := c_received; to_come := c_coming; busy := com_busy; uart_bound := 4 |}.
Next Obligation. intros d. unfold com_busy. lia. Qed.
Next Obligation.
  intros [s r c b]. exists (com_status (Com s r c b)), (com_look (Com s r c b)).
  unfold com_status, com_look, com_busy. cbn [c_received c_coming c_busy c_sent].
  split; [done |]. split; [repeat case_decide; cbn; split; (done || congruence) |].
  split; [repeat case_decide; cbn; split; (done || congruence) |].
  destruct r as [| x r], c as [| y c]; cbn [c_busy c_sent c_received c_coming]; split_and!; try done; lia.
Qed.
Next Obligation. done. Qed.
Next Obligation. intros [s r c b] x l. cbn. intros ->. by exists (Com s l c b). Qed.

(** A console line over the wire. *)
Example com_session : getchar 4 (Com [] [] [104; 105] 3) = Some (104, Com [] [] [105] 1) /\
  option_map c_sent (puts 4 [104; 105; 0; 33] (Com [] [] [] 2)) = Some [104; 105].
Proof. split; reflexivity. Qed.
