(* ===== verification/Idt.v ===== *)
(** Interrupts ([src/src/idt.rs]): the descriptor table as the processor reads it, the
    table of handlers, and the common handler with its end-of-interrupt.

    [S] is the machine: ports, screen, everything handlers touch.  Handlers are values
    of a type [Hn] and [run] calls one; [None] is a call that does not come back. *)
From Stdlib Require Import String.
From S2P Require Import Prelude StringRs PortIO Pic Serial.

Definition CC_LOAD_BASE : Z := 0x00A00000.
Definition CC_CODE_MAX : Z := 65536.

Record Registers := Regs {
  r15 : Z; r14 : Z; r13 : Z; r12 : Z; r11 : Z; r10 : Z; r9 : Z; r8 : Z;
  rbp : Z; rdi : Z; rsi : Z; rdx : Z; rcx : Z; rbx : Z; rax : Z;
  int_no : Z; err_code : Z; rip : Z; cs : Z; rflags : Z; rsp : Z; ss : Z }.

Record IdtEntry := Entry {
  offset_low : Z; selector : Z; ist : Z; type_attr : Z; offset_mid : Z; offset_high : Z; reserved : Z }.
Definition EMPTY : IdtEntry := Entry 0 0 0 0 0 0 0.

Record idt (Hn : Type) := Idt { IDT : list IdtEntry; idt_limit : Z; idt_base : Z; HANDLERS : list (option Hn) }.
Arguments Idt {Hn}.
Arguments IDT {Hn}.
Arguments idt_limit {Hn}.
Arguments idt_base {Hn}.
Arguments HANDLERS {Hn}.

Definition EXCEPTION_NAMES : list (list Z) := map str [
  "Division By Zero"; "Debug"; "Non Maskable Interrupt"; "Breakpoint";
  "Overflow"; "Bound Range Exceeded"; "Invalid Opcode"; "Device Not Available";
  "Double Fault"; "Coprocessor Segment Overrun"; "Invalid TSS";
  "Segment Not Present"; "Stack-Segment Fault"; "General Protection Fault";
  "Page Fault"; "Reserved"; "x87 FP Exception"; "Alignment Check";
  "Machine Check"; "SIMD FP Exception"; "Virtualization Exception";
  "Control Protection Exception"; "Reserved"; "Reserved"; "Reserved";
  "Reserved"; "Reserved"; "Reserved"; "Reserved"; "Reserved";
  "Security Exception"; "Reserved"]%string.

Definition HEX : list Z := str "0123456789ABCDEF".
Definition hex_digit (val k : Z) : Z := nth (Z.to_nat (Z.land (Z.shiftr val (k * 4)) 0xF)) HEX 0.

(** The 18 bytes [format_hex] stores. *)
Definition format_hex (val : Z) : list Z := str "0x" ++ map (fun k => hex_digit val (15 - Z.of_nat k)) (seq 0 16).

Section tables.
Context {Hn : Type}.
Implicit Types t : idt Hn.

Definition gate (handler : Z) : IdtEntry :=
  Entry (u16 (Z.land handler 0xFFFF)) 0x08 0 0x8E (u16 (Z.land (Z.shiftr handler 16) 0xFFFF))
    (u32 (Z.land (Z.shiftr handler 32) 0xFFFFFFFF)) 0.
Definition idt_set_gate (num handler : Z) t : idt Hn :=
  Idt (<[Z.to_nat num := gate handler]> (IDT t)) (idt_limit t) (idt_base t) (HANDLERS t).
Definition install_isr128 (isr128 : Z) t : idt Hn := idt_set_gate 128 isr128 t.
Definition register_handler (n : Z) (h : Hn) t : idt Hn :=
  Idt (IDT t) (idt_limit t) (idt_base t) (<[Z.to_nat n := Some h]> (HANDLERS t)).

(** [stub n]: the address of [isrn], and of [irq(n - 32)] from 32 on. *)
Fixpoint set_gates (n : nat) (stub : Z -> Z) t : idt Hn :=
  match n with O => t | S n => idt_set_gate (Z.of_nat n) (stub (Z.of_nat n)) (set_gates n stub t) end.
Definition init (idt_addr : Z) (stub : Z -> Z) (_ : idt Hn) : idt Hn :=
  set_gates 48 stub (Idt (replicate 256 EMPTY) (256 * 16 - 1) idt_addr (replicate 256 None)).
End tables.

(** ** The common handler *)

Section handler.
Context {Hn S : Type} `{PortIO S} `{Screen S}.
Variables (run : Hn -> Registers -> S -> option (Registers * S)) (cr2 : S -> Z) (fuel : nat).

(** Back to the interrupted code; into [thread::exit]; halted for ever. *)
Inductive after := Back (r : Registers) (s : S) | ThreadExit (s : S) | Halted (s : S).

(** The same text on both. *)
Definition tell (t : list Z) (s : S) : option S := Serial.puts fuel t (vga_puts t s).
Definition tell_bytes (t : list Z) (s : S) : option S := Serial.puts fuel t (vga_write_bytes t s).

Definition in_compiled_code (rip : Z) : bool := (CC_LOAD_BASE <=? rip) && (rip <? CC_LOAD_BASE + CC_CODE_MAX * 2).

Definition fault_in_program (regs : Registers) (s : S) : option S :=
  s ← tell (10 :: str "!!! ") s;
  s ← tell_bytes (nth (Z.to_nat (int_no regs)) EXCEPTION_NAMES []) s;
  s ← tell (str " at RIP=") s;
  s ← tell_bytes (format_hex (rip regs)) s;
  s ← (if int_no regs =? 14 then s ← tell (str " CR2=") s; tell_bytes (format_hex (cr2 s)) s else Some s);
  tell (str " in compiled code !!!" ++ [10]) s.

Definition fault_in_kernel (regs : Registers) (s : S) : S :=
  let s := vga_puts (10 :: str "!!! EXCEPTION: ") s in
  let s := vga_write_bytes (nth (Z.to_nat (int_no regs)) EXCEPTION_NAMES []) s in
  let s := if int_no regs =? 14 then
      let addr := cr2 s in
      vga_write_bytes (map (fun k => hex_digit addr (15 - Z.of_nat k)) (seq 0 16)) (vga_puts (str " at 0x") s)
    else s in
  vga_puts (str " !!!" ++ 10 :: str "System halted.") s.

Definition isr_handler (t : idt Hn) (regs : Registers) (s : S) : option after :=
  if int_no regs <? 32 then
    if in_compiled_code (rip regs) then s ← fault_in_program regs s; Some (ThreadExit s)
    else Some (Halted (fault_in_kernel regs s))
  else
    h ← HANDLERS t !! Z.to_nat (int_no regs);
    '(regs', s) ← match h with Some h => run h regs s | None => Some (regs, s) end;
    Some (Back regs' (if (32 <=? int_no regs) && (int_no regs <? 48) then send_eoi (u8 (int_no regs - 32)) s else s)).
End handler.

(** ** What the processor makes of the table *)

Definition entry_bytes (e : IdtEntry) : list Z :=
  le_bytes 2 (offset_low e) ++ le_bytes 2 (selector e) ++ [ist e; type_attr e] ++ le_bytes 2 (offset_mid e) ++
  le_bytes 4 (offset_high e) ++ le_bytes 4 (reserved e).
Definition table_bytes (es : list IdtEntry) : list Z := mjoin (map entry_bytes es).

(** The handler, selector and attributes the gate of a vector gives; [None] when the
    vector is past the limit or the gate is not present. *)
Definition cpu_gate (limit : Z) (bytes : list Z) (v : Z) : option (Z * Z * Z) :=
  if limit <? v * 16 + 15 then None else
  let g := slice (Z.to_nat (v * 16)) 16 bytes in
  if Z.testbit (nth 5 g 0) 7 then
    Some (le_val (slice 0 2 g ++ slice 6 2 g ++ slice 8 4 g), le_val (slice 2 2 g), nth 5 g 0)
  else None.

Lemma length_entry_bytes e : List.length (entry_bytes e) = 16%nat.
Proof. unfold entry_bytes. by rewrite !length_app, !length_le_bytes. Qed.

Lemma table_slice es v e : es !! v = Some e -> slice (v * 16) 16 (table_bytes es) = entry_bytes e.
Proof.
  revert v. induction es as [| e0 es IH]; intros v Ev; [done |]. unfold table_bytes.
  pose proof (length_entry_bytes e0) as L0. destruct v as [| v].
  - cbn in Ev. injection Ev as ->. unfold slice. change (mjoin _) with (entry_bytes e ++ table_bytes es). cbn [Nat.mul drop]. by apply take_app_length'.
  - unfold slice. replace (S v * 16)%nat with (List.length (entry_bytes e0) + v * 16)%nat by lia.
    change (mjoin (map entry_bytes (e0 :: es))) with (entry_bytes e0 ++ table_bytes es). rewrite <- drop_drop, drop_app_length. exact (IH v Ev).
Qed.

(** The address comes out of its three parts. *)
Lemma gate_address a : 0 <= a < 2 ^ 64 ->
  le_val (le_bytes 2 (offset_low (gate a)) ++ le_bytes 2 (offset_mid (gate a)) ++ le_bytes 4 (offset_high (gate a))) = a.
Proof.
  intros Ha. cbn [gate offset_low offset_mid offset_high].
  change 0xFFFF with (Z.ones 16). change 0xFFFFFFFF with (Z.ones 32). rewrite !Z.land_ones, !Z.shiftr_div_pow2 by lia.
  rewrite !le_val_app, !length_le_bytes, !le_val_le_bytes. unfold u16, u32.
  change (256 ^ Z.of_nat 2) with (2 ^ 16). change (256 ^ Z.of_nat 4) with (2 ^ 32). change 65536 with (2 ^ 16). change 4294967296 with (2 ^ 32).
  rewrite !Zmod_mod. mod_lia.
Qed.

Section correct.
Context {Hn : Type}.
Implicit Types t : idt Hn.

Lemma length_set_gates n stub t : List.length (IDT (set_gates n stub t)) = List.length (IDT t).
Proof. induction n as [| n IH]; [done |]. cbn [set_gates idt_set_gate IDT]. by rewrite length_insert. Qed.

Lemma set_gates_lookup n stub t v : (n <= List.length (IDT t))%nat ->
  IDT (set_gates n stub t) !! v = if decide (v < n)%nat then Some (gate (stub (Z.of_nat v))) else IDT t !! v.
Proof.
  intros Hn'. induction n as [| n IH]; [done |]. cbn [set_gates idt_set_gate IDT]. rewrite Nat2Z.id.
  destruct (decide (v = n)) as [-> | Hne].
  - rewrite list_lookup_insert_eq by (rewrite length_set_gates; lia). by rewrite decide_True by lia.
  - rewrite list_lookup_insert_ne, IH by lia. repeat case_decide; lia || done.
Qed.

Lemma set_gates_limit n stub t : idt_limit (set_gates n stub t) = idt_limit t.
Proof. induction n as [| n IH]; [done |]. exact IH. Qed.

(** The tables the kernel can have: built once, then handlers and the system call. *)
Inductive set_up (stub : Z -> Z) : idt Hn -> Prop :=
| set_up_init addr t : set_up stub (init addr stub t)
| set_up_handler n h t : set_up stub t -> set_up stub (register_handler n h t)
| set_up_isr128 t : set_up stub t -> set_up stub (install_isr128 (stub 128) t).

Lemma set_up_lookup stub t : set_up stub t -> idt_limit t = 4095 /\ forall v, (v < 48)%nat -> IDT t !! v = Some (gate (stub (Z.of_nat v))).
Proof.
  induction 1 as [addr t | n h t _ IH | t _ [IH1 IH2]]; [| exact IH |].
  - split; [apply set_gates_limit |]. intros v Hv. unfold init.
    rewrite set_gates_lookup by (cbn [IDT]; rewrite length_replicate; lia). by rewrite decide_True by lia.
  - split; [done |]. intros v Hv. cbn [install_isr128 idt_set_gate IDT]. rewrite list_lookup_insert_ne by lia. by apply IH2.
Qed.

(** The processor finds the stub of every exception and interrupt line, in the
    kernel's code segment, present, for ring 0, interrupts off. *)
Lemma set_up_gates stub t v : set_up stub t -> (forall n, 0 <= stub n < 2 ^ 64) -> 0 <= v < 48 ->
  cpu_gate (idt_limit t) (table_bytes (IDT t)) v = Some (stub v, 8, 0x8E).
Proof.
  intros Hup Hs Hv. destruct (set_up_lookup stub t Hup) as [El Ei].
  specialize (Ei (Z.to_nat v) ltac:(lia)). rewrite Z2Nat.id in Ei by lia. apply table_slice in Ei.
  unfold cpu_gate. replace (Z.to_nat (v * 16)) with (Z.to_nat v * 16)%nat by lia.
  rewrite Ei, El, (proj2 (Z.ltb_ge 4095 _)) by lia. set (g := gate (stub v)).
  transitivity (Some (le_val (le_bytes 2 (offset_low g) ++ le_bytes 2 (offset_mid g) ++ le_bytes 4 (offset_high g)), 8, 0x8E)); [reflexivity |].
  unfold g. by rewrite gate_address.
Qed.
End correct.

Section served.
Context {Hn S : Type} `{Pics S} `{Screen S}.
Variables (run : Hn -> Registers -> S -> option (Registers * S)) (cr2 : S -> Z) (fuel : nat).

(** C38: An interrupt line is served: with the controllers set up by [Pic.init], a line
    [irq] that they deliver in the state [p] arrives at the vector whose gate leads to
    its stub; the common handler runs the handler registered for it, if any, exactly
    once with the interrupted registers, and when that comes back leaving in service
    what was, the end of interrupt takes exactly this line out of service, on both
    chips for a line of the second, and the code goes on with the handler's registers;
    no line stays blocked. *)
Theorem interrupt_served irq v p stub (t : idt Hn) regs (s : S) h :
  base p.1 = 32 -> base p.2 = 40 -> 0 <= irq < 16 -> raise irq p = Some (v, pics s) ->
  set_up stub t -> (forall n, 0 <= stub n < 2 ^ 64) -> HANDLERS t !! Z.to_nat v = Some h -> int_no regs = v ->
  v = 32 + irq /\ cpu_gate (idt_limit t) (table_bytes (IDT t)) v = Some (stub v, 8, 0x8E) /\
  match (match h with Some h => run h regs s | None => Some (regs, s) end) with
  | None => isr_handler run cr2 fuel t regs s = None
  | Some (regs', s1) => isr_handler run cr2 fuel t regs s = Some (Back regs' (send_eoi irq s1)) /\
      (pics s1 = pics s -> pics (send_eoi irq s1) = p)
  end.
Proof.
  intros B1 B2 Hi Hr Hup Hs Hh Hno.
  assert (Ev : v = 32 + irq).
  { unfold raise in Hr. destruct (Z.ltb_spec irq 8).
    - unfold chip_raise in Hr. destruct (Z.testbit (mask p.1) irq || _); [done |]. cbn in Hr. injection Hr as <- _. by rewrite <- B1.
    - unfold chip_raise in Hr. destruct (Z.testbit (mask p.2) _ || _); [done |]. cbn [mbind option_bind] in Hr.
      destruct (Z.testbit (mask p.1) 2 || _); [done |]. cbn in Hr. injection Hr as <- _. lia. }
  split; [done |]. split; [apply set_up_gates; done || lia |].
  unfold isr_handler. rewrite Hno, (proj2 (Z.ltb_ge v 32)), Hh by lia. cbn [mbind option_bind].
  destruct (match h with Some h => run h regs s | None => Some (regs, s) end) as [[regs' s1] |]; [| done]. cbn [mbind option_bind].
  rewrite (proj2 (Z.leb_le 32 v)), (proj2 (Z.ltb_lt v 48)) by lia. cbn [andb].
  replace (u8 (v - 32)) with irq by (rewrite u8_small; lia). split; [done |].
  intros Ep. apply (send_eoi_spec irq v). by rewrite Ep.
Qed.
End served.

(** *** Witness: line 9, unmasked, with a handler *)

Definition board : Type := chip * chip.
#[local] Instance board_screen : Screen board := fun _ s => s.
Definition demo_stub (n : Z) : Z := if n <? 256 then 0xFFFFFFFF80100000 + 16 * Z.max 0 n else 0.
Definition demo_idt : idt unit := register_handler 41 tt (init 0x2000 demo_stub (Idt [] 0 0 [])).
Definition demo_regs (v : Z) : Registers := Regs 0 0 0 0 0 0 0 0 0 0 0 0 0 0 7 v 0 0x101000 8 0x202 0x9000 16.

Lemma interrupt_served_witness :
  isr_handler (fun _ r s => Some (r, s)) (fun _ => 0) 0 demo_idt (demo_regs 41) (Chip 32 0xF8 [2] Ready, Chip 40 0xFD [1] Ready) =
    Some (Back (demo_regs 41) (Chip 32 0xF8 [] Ready, Chip 40 0xFD [] Ready)).
Proof.
  pose (s := (Chip 32 0xF8 [2] Ready, Chip 40 0xFD [1] Ready) : board).
  assert (Hs : forall n, 0 <= demo_stub n < 2 ^ 64) by (intros n; unfold demo_stub; destruct (Z.ltb_spec n 256); lia).
  assert (Hup : set_up demo_stub demo_idt) by apply set_up_handler, set_up_init.
  pose (p := (Chip 32 0xF8 [] Ready, Chip 40 0xFD [] Ready) : board).
  assert (Hr : raise 9 p = Some (41, pics s)) by reflexivity.
  destruct (interrupt_served (fun _ r s => Some (r, s)) (fun _ => 0) 0 9 41 p demo_stub demo_idt (demo_regs 41) s (Some tt))
    as (_ & _ & E & Hp); [reflexivity | reflexivity | lia | exact Hr | exact Hup | exact Hs | reflexivity | reflexivity |].
  etransitivity; [exact E |]. exact (f_equal (fun b => Some (Back (demo_regs 41) b)) (Hp eq_refl)).
Defined.
