(* ===== verification/Pit.v ===== *)
(** The clock ([src/src/timer.rs]): ticks, the time slices of the scheduler, and waiting
    for a number of ticks, with the interrupt flag under which [hlt] wakes up or not.

    The state is the counter with the scheduler, which holds RFLAGS. *)
From S2P Require Import Prelude PortIO Waiting Sync Vmm Heap Thread Idt.

Definition PIT_CHANNEL0 : Z := 0x40.
Definition PIT_CMD : Z := 0x43.
Definition PIT_DIVISOR : Z := 11932.

(** The ports [init] programs. *)
Definition program {D} `{PortIO D} (d : D) : D :=
  let d := outb PIT_CMD 0x36 d in
  let d := outb PIT_CHANNEL0 (u8 (Z.land PIT_DIVISOR 0xFF)) d in
  outb PIT_CHANNEL0 (u8 (Z.land (Z.shiftr PIT_DIVISOR 8) 0xFF)) d.

Section code.
Context {H : Type} `{KernelHeap H}.

Record pit := Pit { TICK_COUNT : Z; threads : sched H }.
Implicit Types s : pit.

Definition get_ticks s : Z := TICK_COUNT s.

(** [Some flags]: the handler is inside [yield_thread], which ends with
    [yield_leave flags] when this thread runs again; [sp] is its stack pointer. *)
Definition timer_handler (sp : Z) s : option (option Z * pit) :=
  let ticks := u32 (TICK_COUNT s + 1) in
  if ticks mod 10 =? 0 then '(flags, t) ← yield_enter sp (threads s); Some (Some flags, Pit ticks t)
  else Some (None, Pit ticks (threads s)).

(** [hlt]: until an interrupt, some ticks later; never, when interrupts are off. *)
#[export] Instance pit_clock : Clock pit Z := {|
  now s := TICK_COUNT s;
  wake_from w s := if interrupts_on (t_rflags (threads s)) then Some (Pit (u32 (TICK_COUNT s + w)) (threads s)) else None;
  wake_ticks w := w |}.

(** [h] is [timer_handler], which enters the table of handlers. *)
Definition init {Hn D} `{PortIO D} (h : Hn) (t : idt Hn) (d : D) s : idt Hn * D * pit :=
  (register_handler 32 h t, program d, Pit 0 (threads s)).

Definition wait (ticks : Z) (env : list Z) s : option pit :=
  '(_, s, _) ← Waiting.wait (get_ticks s) ticks (fun _ => false) env s; Some s.
End code.
Arguments pit H : clear implicits.

Section proofs.
Context {H : Type} `{KernelHeap H}.
Implicit Types s : pit H.

(** With interrupts on a wait ends when its ticks have passed. *)
Lemma wait_ends ticks env s : interrupts_on (t_rflags (threads s)) = true -> 0 <= ticks <= 2147483648 ->
  Forall (fun w => 0 <= w < 2147483648) env -> ticks <= ticking (S := pit H) env ->
  exists s' : pit H, wait ticks env s = Some s' /\ ticks <= u32 (get_ticks s' - get_ticks s) /\ threads s' = threads s.
Proof.
  intros Hif Ht He Hk.
  destruct (wait_spec (fun s' => threads s' = threads s) (fun w => 0 <= w < 2147483648)) with
    (start := get_ticks s) (limit := ticks) (ok := fun _ : pit H => false) (env := env) (s := s)
    as (r & s' & env' & E & Hs' & Hr & _); try done.
  - intros w s1 Es1 Hw. exists (Pit (u32 (TICK_COUNT s1 + w)) (threads s1)). cbn [wake_from pit_clock]. by rewrite Es1, Hif.
  - lia.
  - change (get_ticks s) with (now s). rewrite elapsed_start. lia.
  - exists s'. unfold wait. rewrite E. cbn [mbind option_bind]. destruct r; done.
Qed.

(** With interrupts off the first [hlt] is the last instruction. *)
Lemma wait_interrupts_off ticks env s : interrupts_on (t_rflags (threads s)) = false -> 0 < ticks -> wait ticks env s = None.
Proof.
  intros Hif Ht. unfold wait. destruct env as [| w env]; cbn [Waiting.wait];
    (change (get_ticks s) with (now s); rewrite elapsed_start, (proj2 (Z.leb_gt ticks 0)) by done); [done |].
  cbn [wake_from pit_clock]. by rewrite Hif.
Qed.

Lemma schedule_flags sp (t t' : sched H) : schedule sp t = Some t' -> t_rflags t' = t_rflags t.
Proof.
  unfold schedule. intros E. destruct (negb (PENDING_FREE_STACK t =? 0)).
  - destruct (kh_free _ _); cbn [mbind option_bind] in E; [| done]. revert E. unfold switch.
    destruct (scan _ _ _ _); cbn [mbind option_bind]; [| done]. case_decide; [by intros [= <-] |].
    destruct (_ !! _); cbn [mbind option_bind]; [| done]. destruct (_ !! n); cbn [mbind option_bind]; [| done]. by intros [= <-].
  - cbn [mbind option_bind] in E. revert E. unfold switch.
    destruct (scan _ _ _ _); cbn [mbind option_bind]; [| done]. case_decide; [by intros [= <-] |].
    destruct (_ !! _); cbn [mbind option_bind]; [| done]. destruct (_ !! n); cbn [mbind option_bind]; [| done]. by intros [= <-].
Qed.

(** A thread that has never run starts where [context_switch] returns to, with the
    flags of the switch: nothing sets the interrupt flag for it, so its first wait
    stops the machine, whichever way the processor came to it. *)
Lemma fresh_thread_cannot_wait sp flags (t t' : sched H) ticks env n : yield_enter sp t = Some (flags, t') -> 0 < ticks ->
  wait ticks env (Pit n t') = None.
Proof.
  intros E Ht. apply wait_interrupts_off; [| done]. cbn [threads]. unfold yield_enter in E.
  destruct (schedule _ _) as [t1 |] eqn:Es; [| done]. cbn [mbind option_bind] in E. injection E as _ <-.
  apply schedule_flags in Es. rewrite Es. apply cli_off.
Qed.

Fixpoint ticks_run (n : nat) (sp : Z) s : option (pit H) :=
  match n with O => Some s | S n => s ← ticks_run n sp s; '(_, s) ← timer_handler sp s; Some s end.

(** No tick between two multiples of ten switches threads: a slice is ten ticks. *)
Lemma time_slice s sp n : 0 <= TICK_COUNT s -> TICK_COUNT s + Z.of_nat n < 2 ^ 32 -> (n <= 9)%nat ->
  TICK_COUNT s mod 10 = 0 ->
  ticks_run n sp s = Some (Pit (TICK_COUNT s + Z.of_nat n) (threads s)).
Proof.
  intros Ht. induction n as [| n IH]; intros Hb Hn Hm; [destruct s; cbn; by rewrite Z.add_0_r |].
  cbn [ticks_run]. rewrite IH by lia. cbn [mbind option_bind]. unfold timer_handler. cbn [TICK_COUNT threads].
  rewrite u32_small by lia. assert (Em : (TICK_COUNT s + Z.of_nat n + 1) mod 10 = Z.of_nat n + 1).
  { clear IH Hb. symmetry. apply Z.mod_unique with (TICK_COUNT s / 10); [lia |]. pose proof (Z.div_mod (TICK_COUNT s) 10). lia. }
  rewrite Em, (proj2 (Z.eqb_neq _ 0)) by lia. cbn [mbind option_bind]. do 2 f_equal. lia.
Qed.
End proofs.
