(* ===== verification/Gdt.v ===== *)
(** The segment descriptors ([src/src/gdt.rs]) as the processor reads them. *)
From S2P Require Import Prelude.

Record GdtEntry := Entry {
  limit_low : Z; base_low : Z; base_mid : Z; access : Z; granularity : Z; base_high : Z }.

Record gdt := Gdt { GDT : list GdtEntry; gp_limit : Z; gp_base : Z }.

Definition gdt_entry (base limit acc gran : Z) : GdtEntry :=
  Entry (u16 (Z.land limit 0xFFFF)) (u16 (Z.land base 0xFFFF)) (u8 (Z.land (Z.shiftr base 16) 0xFF)) acc
    (Z.lor (u8 (Z.land (Z.shiftr limit 16) 0x0F)) (Z.land gran 0xF0)) (u8 (Z.land (Z.shiftr base 24) 0xFF)).
Definition gdt_set_entry (i : nat) (base limit acc gran : Z) (g : gdt) : gdt :=
  Gdt (<[i := gdt_entry base limit acc gran]> (GDT g)) (gp_limit g) (gp_base g).

(** Up to [gdt_flush], which loads the table and the segment registers. *)
Definition init (gdt_addr : Z) (g : gdt) : gdt :=
  let g := Gdt (GDT g) (3 * 8 - 1) gdt_addr in
  let g := gdt_set_entry 0 0 0 0 0 g in
  let g := gdt_set_entry 1 0 0xFFFFFFFF 0x9A 0xAF g in
  gdt_set_entry 2 0 0xFFFFFFFF 0x92 0xCF g.

Definition entry_bytes (e : GdtEntry) : list Z :=
  le_bytes 2 (limit_low e) ++ le_bytes 2 (base_low e) ++ [base_mid e; access e; granularity e; base_high e].

(** The processor's view of a descriptor: base, limit, access byte and flags. *)
Definition cpu_segment (l : list Z) : Z * Z * Z * Z :=
  (le_val (slice 2 3 l ++ slice 7 1 l), le_val (slice 0 2 l ++ [Z.land (nth 6 l 0) 0x0F]), nth 5 l 0, Z.shiftr (nth 6 l 0) 4).

(** Packing loses nothing: base, 20 bits of limit, access and flags come out. *)
Lemma packed base limit acc gran : 0 <= base < 2 ^ 32 -> 0 <= limit < 2 ^ 32 -> 0 <= gran < 256 ->
  cpu_segment (entry_bytes (gdt_entry base limit acc gran)) = (base, limit mod 2 ^ 20, acc, gran / 16).
Proof.
  intros Hb Hl Hg. unfold cpu_segment, entry_bytes, gdt_entry. cbn [limit_low base_low base_mid access granularity base_high].
  change 0xFFFF with (Z.ones 16). change 0xFF with (Z.ones 8). change 0x0F with (Z.ones 4). rewrite !Z.land_ones, !Z.shiftr_div_pow2 by lia.
  set (g := Z.lor _ _).
  assert (Eg : g = limit / 2 ^ 16 mod 2 ^ 4 + 16 * (gran / 16)).
  { unfold g. rewrite u8_small by mod_lia.
    assert (Ed : Z.land gran 0xF0 = Z.shiftl (gran / 16) 4).
    { change 0xF0 with (Z.shiftl (Z.ones 4) 4). apply Z.bits_inj'. intros i Hi. rewrite Z.land_spec, !Z.shiftl_spec by done.
      destruct (Z.ltb_spec i 4); [by rewrite !(Z.testbit_neg_r _ (i - 4)), andb_false_r by lia |].
      change (gran / 16) with (gran / 2 ^ 4). rewrite <- Z.shiftr_div_pow2, Z.shiftr_spec by lia. replace (i - 4 + 4) with i by lia.
      destruct (decide (i < 8)); [rewrite Z.ones_spec_low by lia; by rewrite andb_true_r |].
      rewrite Z.ones_spec_high, (bits_high 8) by lia. done. }
    rewrite Ed. pose proof (Z.add_lor_land (limit / 2 ^ 16 mod 2 ^ 4) (Z.shiftl (gran / 16) 4)).
    assert (E0 : Z.land (limit / 2 ^ 16 mod 2 ^ 4) (Z.shiftl (gran / 16) 4) = 0).
    { apply Z.bits_inj'. intros i Hi. rewrite Z.land_spec, Z.bits_0, Z.shiftl_spec by done.
      destruct (Z.ltb_spec i 4); [by rewrite (Z.testbit_neg_r _ (i - 4)), andb_false_r by lia |].
      by rewrite (bits_high 4) by (try apply Z.mod_pos_bound; lia). }
    assert (E1 : 16 * (gran / 16) = Z.shiftl (gran / 16) 4) by (rewrite Z.shiftl_mul_pow2; lia).
    rewrite E1. lia. }
  clearbody g.
  assert (H0 : forall z, u8 (z mod 2 ^ 8) = z mod 2 ^ 8) by (intros; apply u8_small; mod_lia).
  assert (H1 : forall z, u16 (z mod 2 ^ 16) = z mod 2 ^ 16) by (intros; apply u16_small; mod_lia).
  rewrite !H0, !H1. unfold slice, nth. cbn [le_bytes app drop take le_val].
  assert (L4 : g mod 2 ^ 4 = limit / 2 ^ 16 mod 2 ^ 4) by (rewrite Eg; mod_lia).
  assert (L8 : g / 2 ^ 4 = gran / 16) by (rewrite Eg; mod_lia).
  rewrite L4, L8. clear -Hb Hl. repeat (apply f_equal2; [| done]). apply f_equal2; mod_lia.
Qed.
