(* ===== verification/Pci.v ===== *)
(** The PCI configuration space ([src/src/pci.rs]) over port accesses: with a bridge
    that decodes addresses, reads and writes reach the register they name, and the scan
    finds the first function with the identifiers looked for. *)
From S2P Require Import Prelude PortIO.

Definition PCI_CONFIG_ADDR : Z := 0xCF8.
Definition PCI_CONFIG_DATA : Z := 0xCFC.

Record PciDevice := Pci {
  p_bus : Z; p_device : Z; p_function : Z; vendor_id : Z; device_id : Z; bar0 : Z; irq_line : Z }.

Definition pci_address (bus device function offset : Z) : Z :=
  Z.lor (Z.lor (Z.lor (Z.lor (Z.shiftl 1 31) (Z.shiftl bus 16)) (Z.shiftl (Z.land device 0x1F) 11))
    (Z.shiftl (Z.land function 0x07) 8)) (Z.land offset 0xFC).

Section driver.
Context {D : Type} `{PortIO D}.
Implicit Types d : D.

Definition config_read32 (bus device function offset : Z) d : Z * D :=
  inl PCI_CONFIG_DATA (outl PCI_CONFIG_ADDR (pci_address bus device function offset) d).

Definition config_read16 (bus device function offset : Z) d : Z * D :=
  let '(val, d) := inl PCI_CONFIG_DATA (outl PCI_CONFIG_ADDR (pci_address bus device function offset) d) in
  (Z.land (Z.shiftr val (Z.land offset 2 * 8)) 0xFFFF, d).

Definition config_write16 (bus device function offset value : Z) d : D :=
  let addr := pci_address bus device function offset in
  let '(old, d) := inl PCI_CONFIG_DATA (outl PCI_CONFIG_ADDR addr d) in
  let shift := Z.land offset 2 * 8 in
  let old := Z.land old (not32 (u32 (Z.shiftl 0xFFFF shift))) in
  let old := Z.lor old (u32 (Z.shiftl value shift)) in
  outl PCI_CONFIG_DATA old (outl PCI_CONFIG_ADDR addr d).

Definition config_write32 (bus device function offset value : Z) d : D :=
  outl PCI_CONFIG_DATA value (outl PCI_CONFIG_ADDR (pci_address bus device function offset) d).

(** The body of the three loops: the device when the identifiers are those looked for. *)
Definition probe (vendor device_ : Z) (bus device function : Z) d : option PciDevice * D :=
  let '(reg0, d) := config_read32 bus device function 0x00 d in
  if Z.land reg0 0xFFFF =? 0xFFFF then (None, d) else
  if (Z.land reg0 0xFFFF =? vendor) && (Z.land (Z.shiftr reg0 16) 0xFFFF =? device_) then
    let '(bar0_raw, d) := config_read32 bus device function 0x10 d in
    let bar0 := if negb (Z.land bar0_raw 1 =? 0) then Z.land bar0_raw 0xFFFFFFFC else Z.land bar0_raw 0xFFFFFFF0 in
    let '(reg3c, d) := config_read32 bus device function 0x3C d in
    (Some (Pci bus device function vendor device_ bar0 (u8 (Z.land reg3c 0xFF))), d)
  else (None, d).

(** Bus, device and function of the three loops, in their order. *)
Definition locations : list (Z * Z * Z) :=
  bus ← seqZ 0 256; device ← seqZ 0 32; function ← seqZ 0 8; [(bus, device, function)].

Fixpoint scan (ls : list (Z * Z * Z)) (vendor device_ : Z) d : option PciDevice * D :=
  match ls with
  | [] => (None, d)
  | (bus, device, function) :: ls =>
      let '(r, d) := probe vendor device_ bus device function d in
      match r with Some dev => (Some dev, d) | None => scan ls vendor device_ d end
  end.
Definition find_device (vendor device_ : Z) d : option PciDevice * D := scan locations vendor device_ d.

Definition enable_bus_mastering (dev : PciDevice) d : D :=
  let '(cmd, d) := config_read16 (p_bus dev) (p_device dev) (p_function dev) 0x04 d in
  config_write16 (p_bus dev) (p_device dev) (p_function dev) 0x04 (Z.lor cmd (Z.shiftl 1 2)) d.
End driver.

(** A bridge that decodes addresses: the address register selects, the data register
    reads the 32 bits selected. *)
Class ConfigSpace (D : Type) `{PortIO D} := {
  config : D -> Z -> Z;
  config_read : forall d addr, exists d', inl PCI_CONFIG_DATA (outl PCI_CONFIG_ADDR addr d) = (config d addr, d') /\
    forall a, config d' a = config d a }.

Section proofs.
Context {D : Type} `{ConfigSpace D}.
Implicit Types d : D.

(** The function at a place has the identifiers. *)
Definition is_device (d : D) (vendor device_ : Z) (l : Z * Z * Z) : bool :=
  let '(bus, device, function) := l in
  let r := config d (pci_address bus device function 0) in
  negb (Z.land r 0xFFFF =? 0xFFFF) && (Z.land r 0xFFFF =? vendor) && (Z.land (Z.shiftr r 16) 0xFFFF =? device_).

(** What the scan answers for it. *)
Definition device_at (d : D) (vendor device_ : Z) (l : Z * Z * Z) : PciDevice :=
  let '(bus, device, function) := l in
  let b := config d (pci_address bus device function 0x10) in
  Pci bus device function vendor device_ (if Z.testbit b 0 then Z.land b 0xFFFFFFFC else Z.land b 0xFFFFFFF0)
    (u8 (Z.land (config d (pci_address bus device function 0x3C)) 0xFF)).

Lemma land_1_testbit z : negb (Z.land z 1 =? 0) = Z.testbit z 0.
Proof. change 1 with (Z.shiftl 1 0). rewrite land_bit by done. apply negb_involutive. Qed.

Lemma probe_spec vendor device_ bus device function d : exists d',
  probe vendor device_ bus device function d =
    (if is_device d vendor device_ (bus, device, function) then Some (device_at d vendor device_ (bus, device, function)) else None, d') /\
  forall a, config d' a = config d a.
Proof.
  unfold probe, config_read32, is_device, device_at. destruct (config_read d (pci_address bus device function 0)) as (d1 & -> & C1).
  set (r := config d _). destruct (Z.land r 0xFFFF =? 0xFFFF); [by exists d1 |]. cbn [negb andb].
  destruct ((Z.land r 0xFFFF =? vendor) && _); [| by exists d1].
  destruct (config_read d1 (pci_address bus device function 0x10)) as (d2 & -> & C2).
  destruct (config_read d2 (pci_address bus device function 0x3C)) as (d3 & -> & C3).
  exists d3. rewrite C2, !C1, land_1_testbit. split; [done |]. intros a. by rewrite C3, C2, C1.
Qed.

(** The scan finds the first function with the identifiers, in the order of buses,
    devices and functions, and answers nothing only when there is none. *)
Lemma find_device_spec vendor device_ d : exists d',
  find_device vendor device_ d = (option_map (device_at d vendor device_) (find (is_device d vendor device_) locations), d') /\
  forall a, config d' a = config d a.
Proof.
  unfold find_device. generalize locations as ls. intros ls.
  assert (HE : forall d0, (forall a, config d0 a = config d a) -> exists d', scan ls vendor device_ d0 =
    (option_map (device_at d vendor device_) (find (is_device d vendor device_) ls), d') /\ forall a, config d' a = config d a).
  { induction ls as [| [[bus device] function] ls IH]; intros d0 C0; cbn [scan find option_map]; [by exists d0 |].
    destruct (probe_spec vendor device_ bus device function d0) as (d1 & -> & C1).
    assert (Ei : is_device d0 vendor device_ (bus, device, function) = is_device d vendor device_ (bus, device, function)) by (unfold is_device; by rewrite C0).
    assert (Ea : device_at d0 vendor device_ (bus, device, function) = device_at d vendor device_ (bus, device, function)) by (unfold device_at; by rewrite !C0).
    rewrite Ei, Ea. destruct (is_device d vendor device_ (bus, device, function)).
    - exists d1. split; [done |]. intros a. by rewrite C1, C0.
    - apply IH. intros a. by rewrite C1, C0. }
  by apply HE.
Qed.

(** Bus mastering: one write to the command and status register, of what was read with
    bit 2 set; so status bits that are cleared by writing ones are cleared. *)
Lemma enable_bus_mastering_spec dev d : 0 <= config d (pci_address (p_bus dev) (p_device dev) (p_function dev) 4) < 2 ^ 32 ->
  let addr := pci_address (p_bus dev) (p_device dev) (p_function dev) 4 in
  exists d', enable_bus_mastering dev d = outl PCI_CONFIG_DATA (Z.lor (config d addr) 4) (outl PCI_CONFIG_ADDR addr d') /\
    forall a, config d' a = config d a.
Proof.
  intros Hr addr. unfold enable_bus_mastering, config_read16, config_write16. fold addr. cbv zeta.
  destruct (config_read d addr) as (d1 & -> & C1). destruct (config_read d1 addr) as (d2 & -> & C2).
  exists d2. split; [| intros a; by rewrite C2, C1]. rewrite C1. fold addr in Hr. set (r := config d addr) in *. clearbody r. f_equal.
  change (Z.land 4 2 * 8) with 0. change (Z.shiftl 1 2) with 4. rewrite !Z.shiftl_0_r, Z.shiftr_0_r.
  assert (Hv : 0 <= Z.lor (Z.land r 0xFFFF) 4 < 2 ^ 32).
  { apply lor_bound; [lia | | lia]. change 0xFFFF with (Z.ones 16). rewrite Z.land_ones by lia. mod_lia. }
  change (u32 0xFFFF) with (Z.ones 16). rewrite u32_small by done. unfold not32. apply Z.bits_inj'. intros i Hi.
  rewrite !Z.lor_spec, !Z.land_spec, Z.lxor_spec. change 4294967295 with (Z.ones 32). change 0xFFFF with (Z.ones 16).
  destruct (Z.ltb_spec i 16).
  - rewrite !Z.ones_spec_low by lia. by rewrite andb_false_r, andb_true_r.
  - rewrite (Z.ones_spec_high 16) by lia. rewrite !andb_false_r, orb_false_l, xorb_false_l. f_equal. destruct (Z.ltb_spec i 32).
    + rewrite Z.ones_spec_low by lia. by rewrite andb_true_r.
    + by rewrite (bits_high 32 r) by lia.
Qed.
End proofs.
