(* ===== verification/Rtl8139.v ===== *)
(** The network card's driver ([src/src/rtl8139.rs]) over port accesses, and its
    reception proved against a card that keeps the ring buffer as the data sheet says.

    [rtl D] is the driver's statics with the machine [D] behind the ports; the receive
    buffer is memory the card writes ([RxMemory]).  The network stack that frames are
    handed to, and that sends through this driver meanwhile, is the interface [Host]. *)
From Stdlib Require Import String.
From S2P Require Import Prelude StringRs PortIO Pic Idt Pci Arp.

Definition REG_IDR0 : Z := 0x00.
Definition REG_TSD0 : Z := 0x10.
Definition REG_TSAD0 : Z := 0x20.
Definition REG_RBSTART : Z := 0x30.
Definition REG_CMD : Z := 0x37.
Definition REG_CAPR : Z := 0x38.
Definition REG_IMR : Z := 0x3C.
Definition REG_ISR : Z := 0x3E.
Definition REG_RCR : Z := 0x44.
Definition REG_CONFIG1 : Z := 0x52.
Definition CMD_RST : Z := 0x10.
Definition CMD_RE : Z := 0x08.
Definition CMD_TE : Z := 0x04.
Definition CMD_BUFE : Z := 0x01.
Definition INT_ROK : Z := 0x0001.
Definition INT_TOK : Z := 0x0004.
Definition RCR_CONFIG : Z := 0x0000008F.
Definition RX_BUFFER_LEN : nat := Z.to_nat 9744.
Definition TX_BUFFER_LEN : nat := Z.to_nat 1536.

(** What the card has stored in [RX_BUFFER]. *)
Class RxMemory (D : Type) := rx_buffer : D -> list Z.

Record rtl (D : Type) := Rtl {
  IO_BASE : Z; MAC_ADDR : list Z; CURRENT_TX : Z; RX_OFFSET : Z; TX_BUFFERS : list (list Z); card : D }.
Arguments Rtl {D}.
Arguments IO_BASE {D}.
Arguments MAC_ADDR {D}.
Arguments CURRENT_TX {D}.
Arguments RX_OFFSET {D}.
Arguments TX_BUFFERS {D}.
Arguments card {D}.

Section driver.
Context {D : Type} `{PortIO D} `{Screen D} `{RxMemory D}.
Variables (RX_ADDR : Z) (TX_ADDR : Z -> Z).
Implicit Types r : rtl D.

Definition port r (reg : Z) : Z := u16 (IO_BASE r + reg).
Definition set_card (d : D) r : rtl D := Rtl (IO_BASE r) (MAC_ADDR r) (CURRENT_TX r) (RX_OFFSET r) (TX_BUFFERS r) d.
Definition set_offset (off : Z) r : rtl D := Rtl (IO_BASE r) (MAC_ADDR r) (CURRENT_TX r) off (TX_BUFFERS r) (card r).

Definition put_hex_byte (val : Z) (d : D) : D :=
  let d := vga_putchar (nth (Z.to_nat (Z.land (Z.shiftr val 4) 0x0F)) HEX 0) d in
  vga_putchar (nth (Z.to_nat (Z.land val 0x0F)) HEX 0) d.

(** ** Sending *)

(** The wait for the OWN bit; [timeout] is what is left of it. *)
Fixpoint own_wait (timeout : nat) (p : Z) (d : D) : D :=
  let '(v, d) := inl p d in
  if Z.land v (Z.shiftl 1 13) =? 0 then d else
  match timeout with O => d | S timeout => own_wait timeout p d end.

(** [data] are the [length] bytes. *)
Definition send (data : list Z) r : rtl D :=
  let data := take TX_BUFFER_LEN data in
  let d := own_wait (Z.to_nat 10000) (port r (REG_TSD0 + CURRENT_TX r * 4)) (card r) in
  let bufs := alter (splice 0 data) (Z.to_nat (CURRENT_TX r)) (TX_BUFFERS r) in
  let d := outl (port r (REG_TSAD0 + CURRENT_TX r * 4)) (u32 (TX_ADDR (CURRENT_TX r))) d in
  let d := outl (port r (REG_TSD0 + CURRENT_TX r * 4)) (Z.of_nat (length data)) d in
  Rtl (IO_BASE r) (MAC_ADDR r) ((CURRENT_TX r + 1) mod 4) (RX_OFFSET r) bufs d.

(** ** Initialisation *)

Fixpoint wait_reset (fuel : nat) (p : Z) (d : D) : option D :=
  match fuel with
  | O => None
  | S fuel => let '(v, d) := inb p d in if Z.land v CMD_RST =? 0 then Some d else wait_reset fuel p d
  end.

Fixpoint read_mac (n : nat) (p : Z) (d : D) : list Z * D :=
  match n with
  | O => ([], d)
  | S n => let '(l, d) := read_mac n p d in let '(v, d) := inb (u16 (p + Z.of_nat n)) d in (l ++ [v], d)
  end.

Definition print_mac (mac : list Z) (d : D) : D :=
  let d := vga_puts (str "RTL8139: MAC ") d in
  let d := fold_left (fun d '(i, b) => put_hex_byte b (if (0 <? i)%nat then vga_putchar 58 d else d)) (imap pair mac) d in
  vga_putchar 10 d.

(** [h] is [rtl8139_handler], which enters the table of handlers [t]. *)
Definition init {Hn} (fuel : nat) (h : Hn) (t : idt Hn) r : option (idt Hn * rtl D) :=
  match find_device 0x10EC 0x8139 (card r) with
  | (None, d) => Some (t, set_card (vga_puts (str "RTL8139: not found on PCI bus" ++ [10]) d) r)
  | (Some dev, d) =>
      let d := enable_bus_mastering dev d in
      let r := Rtl (u16 (Z.land (bar0 dev) 0xFFFF)) (MAC_ADDR r) (CURRENT_TX r) (RX_OFFSET r) (TX_BUFFERS r) d in
      let d := outb (port r REG_CONFIG1) 0x00 d in
      let d := outb (port r REG_CMD) CMD_RST d in
      d ← wait_reset fuel (port r REG_CMD) d;
      let d := outl (port r REG_RBSTART) (u32 RX_ADDR) d in
      let d := outw (port r REG_IMR) (Z.lor INT_ROK INT_TOK) d in
      let d := outl (port r REG_RCR) RCR_CONFIG d in
      let d := outb (port r REG_CMD) (Z.lor CMD_TE CMD_RE) d in
      let '(mac, d) := read_mac 6 (port r REG_IDR0) d in
      let t := register_handler (u8 (32 + irq_line dev)) h t in
      let d := unmask_irq (irq_line dev) d in
      Some (t, Rtl (IO_BASE r) mac 0 0 (TX_BUFFERS r) (print_mac mac d))
  end.

(** The driver as the card of the network stack. *)
Definition rtl_nic : Nic (rtl D) := {| get_mac := MAC_ADDR; nic_send := send |}.
End driver.

(** ** Receiving *)

Section receive.
Context {S D : Type} `{PortIO D} `{RxMemory D}.
Variables (rtl_of : S -> option (rtl D)) (with_rtl : rtl D -> S -> S) (net_rx : list Z -> S -> option S).

Definition not16 (x : Z) : Z := Z.lxor x 65535.

Fixpoint rtl8139_rx (fuel : nat) (s : S) : option S :=
  match fuel with
  | O => None
  | Datatypes.S fuel =>
      r ← rtl_of s;
      let '(cmd, d) := inb (port r REG_CMD) (card r) in
      let s := with_rtl (set_card d r) s in
      if negb (Z.land cmd CMD_BUFE =? 0) then Some s else
      let off := Z.to_nat (RX_OFFSET r) in
      let header := le_val (slice off 4 (rx_buffer d)) in
      let status := u16 (Z.land header 0xFFFF) in
      let pkt_length := u16 (Z.shiftr header 16) in
      if Z.land status 0x01 =? 0 then Some s else
      s ← net_rx (slice (off + 4) (Z.to_nat (u16 (pkt_length - 4))) (rx_buffer d)) s;
      r ← rtl_of s;
      let r := set_offset (Z.land (u16 (RX_OFFSET r + pkt_length + 4 + 3)) (not16 3) mod 8192) r in
      let d := outw (port r REG_CAPR) (u16 (RX_OFFSET r - 16)) (card r) in
      rtl8139_rx fuel (with_rtl (set_card d r) s)
  end.

Definition rtl8139_handler (fuel : nat) (s : S) : option S :=
  r ← rtl_of s;
  let '(status, d) := inw (port r REG_ISR) (card r) in
  let s := with_rtl (set_card d r) s in
  if status =? 0 then Some s else
  s ← (if negb (Z.land status INT_ROK =? 0) then rtl8139_rx fuel s else Some s);
  r ← rtl_of s;
  Some (with_rtl (set_card (outw (port r REG_ISR) status (card r)) r) s).
End receive.

(** ** A card with its ring *)

(** Where the packet after one of [len] bytes at [off] starts. *)
Definition next_at (off len : Z) : Z := (off + len + 4 + 3) / 4 * 4 mod 8192.

(** The packets lie one after the other from [off], each behind its header. *)
Fixpoint in_ring (m : list Z) (off : Z) (q : list (list Z)) : Prop :=
  match q with
  | [] => True
  | p :: q =>
      (exists st, 0 <= st < 65536 /\ Z.testbit st 0 = true /\
        slice (Z.to_nat off) 4 m = le_bytes 2 st ++ le_bytes 2 (Z.of_nat (length p))) /\
      slice (Z.to_nat off + 4) (length p) m = p /\ in_ring m (next_at off (Z.of_nat (length p))) q
  end.

Definition packet_ok (p : list Z) : Prop := 4 <= Z.of_nat (length p) <= 1536.

(** Packets in the ring, oldest first, with their CRC; packets that will arrive; where
    the oldest starts.  A packet may arrive at every access. *)
Class RtlCard (D : Type) `{PortIO D} `{RxMemory D} := {
  rc_base : Z;
  rc_queue : D -> list (list Z); rc_coming : D -> list (list Z); rc_at : D -> Z;
  rc_arrives (q : list (list Z)) (d d' : D) : Prop :=
    exists k, rc_queue d' = q ++ take k (rc_coming d) /\ rc_coming d' = drop k (rc_coming d);
  rc_step (d d' : D) : Prop := rc_at d' = rc_at d /\ rc_arrives (rc_queue d) d d';
  rc_base_ok : 0 <= rc_base < 65536 - 256;
  rc_stored : forall d, 0 <= rc_at d < 8192 /\ rc_at d mod 4 = 0 /\ in_ring (rx_buffer d) (rc_at d) (rc_queue d) /\
    Forall packet_ok (rc_queue d ++ rc_coming d);
  (** The command register says whether the ring is empty. *)
  rc_cmd : forall d, exists v d', inb (rc_base + REG_CMD) d = (v, d') /\ rc_step d d' /\
    (Z.testbit v 0 = true <-> rc_queue d' = []);
  (** The oldest packet is given back by its successor's place, less 16. *)
  rc_capr : forall d p q, rc_queue d = p :: q ->
    let d' := outw (rc_base + REG_CAPR) (u16 (next_at (rc_at d) (Z.of_nat (length p)) - 16)) d in
    rc_at d' = next_at (rc_at d) (Z.of_nat (length p)) /\ rc_arrives q d d';
  rc_isr : forall d, exists v d', inw (rc_base + REG_ISR) d = (v, d') /\ rc_step d d';
  rc_ack : forall d v, rc_step d (outw (rc_base + REG_ISR) v d);
  (** The transmit registers have nothing to do with the ring. *)
  rc_inl : forall d reg v d', 0x10 <= reg < 0x30 -> inl (rc_base + reg) d = (v, d') -> rc_step d d';
  rc_outl : forall d reg v, 0x10 <= reg < 0x30 -> rc_step d (outl (rc_base + reg) v d) }.

(** What the driver needs of the rest of the system: the network stack changes the
    driver's state by sending only. *)
Class Host (S D : Type) `{RtlCard D} := {
  rtl_of : S -> option (rtl D); with_rtl : rtl D -> S -> S; host_rx : list Z -> S -> option S;
  host_get : forall r r0 s, rtl_of s = Some r0 -> rtl_of (with_rtl r s) = Some r;
  host_set : forall r r' s, with_rtl r' (with_rtl r s) = with_rtl r' s;
  host_step : forall f s s' r r', host_rx f s = Some s' -> rtl_of s = Some r -> IO_BASE r = rc_base ->
    0 <= CURRENT_TX r < 4 -> rtl_of s' = Some r' ->
    IO_BASE r' = rc_base /\ RX_OFFSET r' = RX_OFFSET r /\ 0 <= CURRENT_TX r' < 4 /\ rc_step (card r) (card r') }.

Lemma land_not16_3 x : 0 <= x < 65536 -> Z.land x (not16 3) = x / 4 * 4.
Proof.
  intros Hx. change (not16 3) with (Z.shiftl (Z.ones 14) 2). change 4 with (2 ^ 2). rewrite <- Z.shiftr_div_pow2, <- Z.shiftl_mul_pow2 by lia.
  apply Z.bits_inj'. intros i Hi. rewrite Z.land_spec, !Z.shiftl_spec by done. destruct (Z.ltb_spec i 2).
  - by rewrite !(Z.testbit_neg_r _ (i - 2)), andb_false_r by lia.
  - rewrite Z.shiftr_spec by lia. replace (i - 2 + 2) with i by lia. destruct (Z.ltb_spec i 16).
    + rewrite Z.ones_spec_low by lia. by rewrite andb_true_r.
    + by rewrite (bits_high 16 x) by lia.
Qed.

Lemma next_at_spec off len : 0 <= off < 8192 -> 4 <= len <= 1536 ->
  Z.land (u16 (off + len + 4 + 3)) (not16 3) mod 8192 = next_at off len.
Proof. intros Ho Hl. by rewrite u16_small, land_not16_3 by lia. Qed.

Section proofs.
Context {S D : Type} `{Host S D}.
Implicit Types (s : S) (r : rtl D).

(** The driver has touched the card and its own offset only. *)
Definition moved s s' : Prop := exists r d off, rtl_of s = Some r /\ s' = with_rtl (set_card d (set_offset off r)) s.

(** The frames [fs] have been handed to the network stack, in this order. *)
Inductive receives : list (list Z) -> S -> S -> Prop :=
| receives_nil s s' : moved s s' -> receives [] s s'
| receives_cons f fs s s1 s2 s3 : moved s s1 -> host_rx f s1 = Some s2 -> receives fs s2 s3 -> receives (f :: fs) s s3.

(** A packet without its CRC. *)
Definition frame_of (p : list Z) : list Z := take (length p - 4) p.

(** The driver and the card agree. *)
Record in_step r : Prop := {
  is_base : IO_BASE r = rc_base; is_tx : 0 <= CURRENT_TX r < 4; is_at : RX_OFFSET r = rc_at (card r) }.

(** Packets the driver will see: those in the ring and those to come. *)
Definition traffic r : list (list Z) := rc_queue (card r) ++ rc_coming (card r).

Lemma port_reg r reg : IO_BASE r = rc_base -> 0 <= reg < 256 -> port r reg = rc_base + reg.
Proof. intros E Hr. unfold port. rewrite E. pose proof rc_base_ok. apply u16_small. lia. Qed.

Lemma arrives_traffic q (d d' : D) : rc_arrives q d d' -> rc_queue d' ++ rc_coming d' = q ++ rc_coming d.
Proof. intros (k & -> & ->). by rewrite <- app_assoc, take_drop. Qed.

Lemma step_trans (d1 d2 d3 : D) : rc_step d1 d2 -> rc_step d2 d3 -> rc_step d1 d3.
Proof.
  intros (A1 & k1 & B1 & C1) (A2 & k2 & B2 & C2). split; [congruence |]. exists (k1 + k2)%nat.
  rewrite B2, C2, B1, C1, drop_drop. split; [| f_equal; lia]. by rewrite <- app_assoc, <- take_take_drop.
Qed.

(** What the driver reads of the oldest packet. *)
Lemma header_spec (d : D) p q : rc_queue d = p :: q ->
  let header := le_val (slice (Z.to_nat (rc_at d)) 4 (rx_buffer d)) in
  negb (Z.land (u16 (Z.land header 0xFFFF)) 0x01 =? 0) = true /\
  u16 (Z.shiftr header 16) = Z.of_nat (length p) /\
  slice (Z.to_nat (rc_at d) + 4) (Z.to_nat (u16 (Z.of_nat (length p) - 4))) (rx_buffer d) = frame_of p /\ packet_ok p.
Proof.
  intros Eq. destruct (rc_stored d) as (Ha & _ & Hr & Hok). rewrite Eq in Hr, Hok. cbn [in_ring app] in Hr, Hok.
  apply Forall_cons in Hok as [Hp _]. destruct Hr as ((st & Hst & Hb & Hh) & Hs & _). cbv zeta. rewrite Hh, le_val_app, length_le_bytes.
  unfold packet_ok in Hp. rewrite !le_val_2 by lia. change (256 ^ Z.of_nat 2) with 65536. set (n := Z.of_nat (length p)) in *.
  change 0xFFFF with (Z.ones 16). rewrite Z.land_ones, Z.shiftr_div_pow2 by lia. change (2 ^ 16) with 65536.
  replace ((st + 65536 * n) mod 65536) with st by mod_lia. replace ((st + 65536 * n) / 65536) with n by mod_lia.
  rewrite !u16_small by lia. split; [| split; [done | split; [| done]]].
  - rewrite land_1_testbit. done.
  - unfold frame_of. rewrite <- Hs at 2. unfold slice. rewrite take_take. f_equal. lia.
Qed.

Lemma moved_card s r (d : D) : rtl_of s = Some r -> moved s (with_rtl (set_card d r) s).
Proof. intros Hr. exists r, d, (RX_OFFSET r). split; [done |]. by destruct r. Qed.

Lemma moved_trans s1 s2 s3 : moved s1 s2 -> moved s2 s3 -> moved s1 s3.
Proof.
  intros (r1 & d1 & o1 & E1 & ->) (r2 & d2 & o2 & E2 & ->). rewrite (host_get _ _ _ E1) in E2. injection E2 as <-.
  exists r1, d2, o2. split; [done |]. by rewrite host_set.
Qed.

Lemma moved_receives fs s1 s2 s3 : moved s1 s2 -> receives fs s2 s3 -> receives fs s1 s3.
Proof.
  intros Hm Hr. destruct Hr as [s2 s3 Hm2 | f fs s2 s4 s5 s6 Hm2 Hf Hr].
  - apply receives_nil. by eapply moved_trans.
  - eapply receives_cons; [by eapply moved_trans | done | done].
Qed.

Lemma step_in_step r (d : D) : in_step r -> rc_step (card r) d ->
  in_step (set_card d r) /\ traffic (set_card d r) = traffic r /\ (length (rc_queue (card r)) <= length (rc_queue d))%nat.
Proof.
  intros [A B C] [E Har]. split; [| split; [by apply arrives_traffic |]].
  - split; [done | done |]. cbn [RX_OFFSET set_card card]. by rewrite E.
  - destruct Har as (k & -> & _). rewrite length_app. lia.
Qed.

(** The oldest packet is given back. *)
Lemma give_back r p q : in_step r -> rc_queue (card r) = p :: q -> packet_ok p ->
  let off := Z.land (u16 (RX_OFFSET r + Z.of_nat (length p) + 4 + 3)) (not16 3) mod 8192 in
  let r' := set_card (outw (port r REG_CAPR) (u16 (off - 16)) (card r)) (set_offset off r) in
  in_step r' /\ traffic r = p :: traffic r' /\ (length q <= length (rc_queue (card r')))%nat.
Proof.
  intros [A B C] Eq Hp off r'. unfold packet_ok in Hp. destruct (rc_stored (card r)) as (Ha & _).
  assert (Eo : off = next_at (rc_at (card r)) (Z.of_nat (length p))) by (unfold off; rewrite C; by apply next_at_spec).
  destruct (rc_capr (card r) p q Eq) as [E1 E2]. cbv zeta in E1, E2. rewrite <- Eo in E1, E2.
  rewrite <- (port_reg r REG_CAPR A) in E1, E2 by (unfold REG_CAPR; lia). split; [split; [done | done |] | split].
  - cbn [RX_OFFSET set_card set_offset card r']. by rewrite E1.
  - pose proof (arrives_traffic _ _ _ E2) as Et. unfold traffic. rewrite Eq. cbn [app]. f_equal. exact (eq_sym Et).
  - unfold r'. cbn [card set_card]. destruct E2 as (k & -> & _). rewrite length_app. lia.
Qed.

(** The network stack does not come back from the [k]-th packet. *)
Definition stuck_at (k : nat) (ps : list (list Z)) s : Prop :=
  exists p s1, ps !! k = Some p /\ receives (map frame_of (take k ps)) s s1 /\
    forall s2, host_rx (frame_of p) s1 = Some s2 -> rtl_of s2 = None.

(** The ring is empty, the first [k] packets have been handed over. *)
Definition drained (k : nat) r s s' : Prop :=
  exists r', receives (map frame_of (take k (traffic r))) s s' /\ rtl_of s' = Some r' /\ in_step r' /\
    rc_queue (card r') = [] /\ traffic r' = drop k (traffic r) /\ (length (rc_queue (card r)) <= k)%nat.

Lemma rx_run fuel : forall s r, rtl_of s = Some r -> in_step r -> (length (traffic r) < fuel)%nat ->
  (exists k s', rtl8139_rx rtl_of with_rtl host_rx fuel s = Some s' /\ drained k r s s') \/
  (exists k, rtl8139_rx rtl_of with_rtl host_rx fuel s = None /\ stuck_at k (traffic r) s).
Proof.
  induction fuel as [| fuel IH]; intros s r Hr Hst Hf; [lia |]. cbn [rtl8139_rx]. rewrite Hr. cbn [mbind option_bind].
  rewrite port_reg by (apply Hst || (unfold REG_CMD; lia)).
  destruct (rc_cmd (card r)) as (v & d & -> & Hd & Hv). cbv zeta. unfold CMD_BUFE. rewrite land_1_testbit.
  destruct (step_in_step r d Hst Hd) as (Hst0 & Et0 & Hl0). set (r0 := set_card d r) in *. set (s0 := with_rtl r0 s).
  assert (Hm0 : moved s s0) by (by apply moved_card). assert (Hr0 : rtl_of s0 = Some r0) by (by apply (host_get r0 r)).
  destruct (Z.testbit v 0) eqn:Ev.
  { left. exists 0%nat, s0. split; [done |]. exists r0. destruct Hv as [Hv _]. specialize (Hv eq_refl).
    split; [by apply receives_nil |]. split; [done |]. split; [done |]. split; [exact Hv |]. split; [exact Et0 |].
    change (rc_queue d) with (rc_queue (card r0)) in *. rewrite Hv in Hl0. exact Hl0. }
  destruct (rc_queue d) as [| p q] eqn:Eq; [destruct Hv as [_ Hv]; by specialize (Hv eq_refl) |].
  destruct (header_spec d p q Eq) as (Hok & Elen & Efr & Hp). cbv zeta in Hok, Elen.
  rewrite (is_at r Hst), <- (proj1 Hd). apply negb_true_iff in Hok. rewrite Hok, Elen, Efr.
  assert (Etr : traffic r = p :: q ++ rc_coming d) by (rewrite <- Et0; unfold traffic, r0; cbn [card set_card]; by rewrite Eq).
  destruct (host_rx (frame_of p) s0) as [s2 |] eqn:E2.
  2:{ right. exists 0%nat. split; [done |]. exists p, s0. rewrite Etr. split; [done |]. split; [by apply receives_nil |]. by rewrite E2. }
  cbn [mbind option_bind]. destruct (rtl_of s2) as [r2 |] eqn:Er2.
  2:{ right. exists 0%nat. split; [done |]. exists p, s0. rewrite Etr. split; [done |]. split; [by apply receives_nil |].
      intros s3. rewrite E2. by intros [= <-]. }
  cbn [mbind option_bind]. destruct (host_step _ _ _ _ _ E2 Hr0 (is_base _ Hst0) (is_tx _ Hst0) Er2) as (B2 & O2 & T2 & Hd2).
  assert (Hst2 : in_step r2). { split; [done | done |]. rewrite O2, (is_at _ Hst0). by rewrite (proj1 Hd2). }
  assert (Et2 : traffic r2 = traffic r) by (rewrite <- Et0; unfold traffic; exact (arrives_traffic _ _ _ (proj2 Hd2))).
  assert (Eq2 : exists q2, rc_queue (card r2) = p :: q2 /\ (length q <= length q2)%nat).
  { destruct Hd2 as [_ (k & E & _)]. rewrite E. cbn [card set_card r0]. rewrite Eq. eexists. split; [done |]. rewrite length_app. lia. }
  destruct Eq2 as (q2 & Eq2 & Hq2). destruct (give_back r2 p q2 Hst2 Eq2 Hp) as (Hst3 & Et3 & Hl3). cbv zeta in Hst3, Et3, Hl3.
  set (r3 := set_card _ (set_offset _ r2)) in *. set (s3 := with_rtl r3 s2).
  assert (Hm3 : moved s2 s3) by (by eexists r2, _, _).
  assert (Hr3 : rtl_of s3 = Some r3) by (by apply (host_get r3 r2)).
  assert (Hcat : traffic r = p :: traffic r3) by (by rewrite <- Et2).
  assert (Hf3 : (length (traffic r3) < fuel)%nat) by (rewrite Hcat in Hf; cbn [length] in Hf; lia).
  destruct (IH s3 r3 Hr3 Hst3 Hf3) as [(k & s' & E' & r' & Hrc & Hr' & Hst' & Hq' & Ht' & Hl') | (k & E' & p' & s1 & Hp' & Hrc & Hno)].
  - left. exists (Datatypes.S k), s'. split; [exact E' |]. exists r'. rewrite Hcat. cbn [take drop map].
    split; [eapply receives_cons; [exact Hm0 | exact E2 | by eapply moved_receives] |].
    split; [done |]. split; [done |]. split; [done |]. split; [done |]. cbn [length] in Hl0. lia.
  - right. exists (Datatypes.S k). split; [exact E' |]. exists p', s1. rewrite Hcat. cbn [take map lookup list_lookup].
    split; [done |]. split; [eapply receives_cons; [exact Hm0 | exact E2 | by eapply moved_receives] | done].
Qed.

Lemma receives_moved fs s1 s2 s3 : receives fs s1 s2 -> moved s2 s3 -> receives fs s1 s3.
Proof.
  induction 1 as [s1 s2 Hm | f fs s1 s4 s5 s2 Hm Hf _ IH]; intros Hm3.
  - apply receives_nil. by eapply moved_trans.
  - eapply receives_cons; [done | done | by apply IH].
Qed.

(** C37: An interrupt of the card.  If its status has the receive bit, the handler hands
    the packets that have arrived, and those that arrive meanwhile, to the network
    stack, each once, in the order of their arrival, without the CRC, until it has seen
    the ring empty; driver and card agree on the place in the ring afterwards, whatever
    the stack sent in between, and what is left is what came too late.  The only other
    outcome is that the stack does not come back from one of these frames.  A status
    without the bit touches nothing but the card. *)
Theorem interrupt_delivers fuel s r : rtl_of s = Some r -> in_step r -> (length (traffic r) < fuel)%nat ->
  let handler := rtl8139_handler rtl_of with_rtl host_rx fuel in
  let status := (inw (rc_base + REG_ISR) (card r)).1 in
  exists k, match handler s with
  | Some s' => exists r', receives (map frame_of (take k (traffic r))) s s' /\ rtl_of s' = Some r' /\ in_step r' /\
      traffic r' = drop k (traffic r) /\ (Z.testbit status 0 = true -> (length (rc_queue (card r)) <= k)%nat) /\
      (Z.testbit status 0 = false -> k = 0%nat)
  | None => stuck_at k (traffic r) s
  end.
Proof.
  intros Hr Hst Hf handler status. unfold handler, rtl8139_handler. rewrite Hr. cbn [mbind option_bind].
  assert (Ep : port r REG_ISR = rc_base + REG_ISR) by (apply port_reg; [apply Hst | unfold REG_ISR; lia]).
  rewrite Ep. unfold status. destruct (rc_isr (card r)) as (v & d & -> & Hd). cbn [fst].
  destruct (step_in_step r d Hst Hd) as (Hst0 & Et0 & Hl0). set (r0 := set_card d r) in *. set (s0 := with_rtl r0 s).
  assert (Hm0 : moved s s0) by (by apply moved_card). assert (Hr0 : rtl_of s0 = Some r0) by (by apply (host_get r0 r)).
  assert (Hack : forall s1 r1, rtl_of s1 = Some r1 -> in_step r1 ->
    let r' := set_card (outw (port r1 REG_ISR) v (card r1)) r1 in
    moved s1 (with_rtl r' s1) /\ rtl_of (with_rtl r' s1) = Some r' /\ in_step r' /\ traffic r' = traffic r1).
  { intros s1 r1 Hr1 Hst1 r'. assert (Hstep : rc_step (card r1) (outw (port r1 REG_ISR) v (card r1))).
    { rewrite port_reg by (apply Hst1 || (unfold REG_ISR; lia)). apply rc_ack. }
    destruct (step_in_step r1 _ Hst1 Hstep) as (Hst' & Et' & _).
    split; [by apply moved_card |]. split; [by apply (host_get r' r1) |]. by split. }
  destruct (Z.eqb_spec v 0) as [-> | Hv].
  { exists 0%nat, r0. split; [by apply receives_nil |]. split; [done |]. split; [done |]. split; [done |]. split; [done |]. done. }
  unfold INT_ROK. rewrite land_1_testbit. destruct (Z.testbit v 0) eqn:Ev.
  - rewrite <- Et0 in Hf. destruct (rx_run fuel s0 r0 Hr0 Hst0 Hf) as [(k & s1 & E & r1 & Hrc & Hr1 & Hst1 & _ & Ht1 & Hk) | (k & E & p & s1 & Hp & Hrc & Hno)];
      exists k; rewrite E; cbn [mbind option_bind].
    + rewrite Hr1. cbn [mbind option_bind]. destruct (Hack s1 r1 Hr1 Hst1) as (Hm & Hr' & Hst' & Ht'). rewrite Et0 in *.
      eexists. split; [eapply receives_moved; [by eapply moved_receives | exact Hm] |]. split; [exact Hr' |]. split; [exact Hst' |].
      split; [by rewrite Ht' |]. split; [intros _ | done]. etrans; [exact Hl0 | exact Hk].
    + exists p, s1. rewrite Et0 in *. split; [done |]. split; [by eapply moved_receives | done].
  - exists 0%nat. cbn [mbind option_bind]. rewrite Hr0. cbn [mbind option_bind]. destruct (Hack s0 r0 Hr0 Hst0) as (Hm & Hr' & Hst' & Ht').
    eexists. split; [apply receives_nil; by eapply moved_trans |]. split; [exact Hr' |]. split; [exact Hst' |]. split; [by rewrite Ht' |]. done.
Qed.
End proofs.

(** ** A card in memory: its ring takes one packet at a time; [mc_coming] says after how
    many looks at the card each of the next ones arrives. *)

#[export] Instance packet_ok_dec p : Decision (packet_ok p).
Proof. unfold packet_ok. apply _. Defined.

Record mcard := MCard { mc_at : Z; mc_one : option (list Z); mc_coming : list (nat * list Z); mc_rok : bool; mc_out : list (Z * Z) }.
Implicit Types m : mcard.

Definition mc_queue m : list (list Z) := match mc_one m with Some p => if decide (packet_ok p) then [p] else [] | None => [] end.
Definition mc_place m : Z := mc_at m mod 2048 * 4.
Definition mc_look m : mcard :=
  match mc_one m, mc_coming m with
  | None, (O, p) :: l => MCard (mc_at m) (Some p) l true (mc_out m)
  | one, (S n, p) :: l => MCard (mc_at m) one ((n, p) :: l) (mc_rok m) (mc_out m)
  | _, _ => m
  end.
Definition mc_header (p : list Z) : list Z := le_bytes 2 1 ++ le_bytes 2 (Z.of_nat (List.length p)).

#[export] Instance mc_memory : RxMemory mcard := fun m =>
  match mc_queue m with
  | p :: _ => splice (Z.to_nat (mc_place m)) (mc_header p ++ p) (replicate RX_BUFFER_LEN 0)
  | [] => replicate RX_BUFFER_LEN 0
  end.
#[export] Instance mc_ports : PortIO mcard := {|
  inb p m := if p =? 0xC037 then let m := mc_look m in (if decide (mc_queue m = []) then 1 else 0, m) else (0, m);
  outb _ _ m := m;
  inw p m := if p =? 0xC03E then let m := mc_look m in (if mc_rok m then 1 else 0, m) else (0, m);
  outw p v m :=
    if p =? 0xC038 then MCard ((v + 16) mod 8192 / 4) None (mc_coming m) (mc_rok m) (mc_out m) else
    if p =? 0xC03E then let m := mc_look m in
      MCard (mc_at m) (mc_one m) (mc_coming m) (mc_rok m && negb (Z.testbit v 0)) (mc_out m) else m;
  inl _ m := (0, m);
  outl p v m := MCard (mc_at m) (mc_one m) (mc_coming m) (mc_rok m) (mc_out m ++ [(p, v)]) |}.

Definition mc_traffic m : list (list Z) := filter packet_ok (map snd (mc_coming m)).

Lemma mc_look_step m : mc_place (mc_look m) = mc_place m /\
  exists k, mc_queue (mc_look m) = mc_queue m ++ take k (mc_traffic m) /\ mc_traffic (mc_look m) = drop k (mc_traffic m).
Proof.
  assert (H0 : forall m', mc_queue m' = mc_queue m -> mc_traffic m' = mc_traffic m ->
    exists k, mc_queue m' = mc_queue m ++ take k (mc_traffic m) /\ mc_traffic m' = drop k (mc_traffic m)).
  { intros m' E1 E2. exists 0%nat. by rewrite app_nil_r. }
  destruct m as [a one [| [[| n] p] l] rok out]; unfold mc_look; cbn [mc_one mc_coming]; (split; [by destruct one |]).
  - destruct one; by apply H0.
  - destruct one as [x |]; [by apply H0 |]. unfold mc_traffic, mc_queue. cbn [mc_one mc_coming map snd mc_at mc_rok mc_out].
    rewrite filter_cons. destruct (decide (packet_ok p)) as [Hp | Hp]; [by exists 1%nat | by exists 0%nat].
  - destruct one; by apply H0.
Qed.

Lemma mc_stored m : 0 <= mc_place m < 8192 /\ mc_place m mod 4 = 0 /\ in_ring (rx_buffer m) (mc_place m) (mc_queue m) /\
  Forall packet_ok (mc_queue m ++ mc_traffic m).
Proof.
  assert (Ha : 0 <= mc_place m < 8192) by (unfold mc_place; mod_lia).
  split; [done |]. split; [unfold mc_place; by apply Z.mod_mul |]. split.
  - unfold rx_buffer, mc_memory. destruct (mc_queue m) as [| p q] eqn:E; [done |].
    assert (Hp : packet_ok p /\ q = []).
    { revert E. unfold mc_queue. destruct (mc_one m); [| done]. case_decide; [| done]. by intros [= <- <-]. }
    destruct Hp as [Hp ->]. set (off := Z.to_nat (mc_place m)).
    assert (Hoff : (off < Z.to_nat 8192)%nat) by (unfold off; lia).
    assert (Hlen : (off + List.length (mc_header p ++ p) <= List.length (replicate RX_BUFFER_LEN 0))%nat).
    { rewrite length_app, length_replicate. unfold RX_BUFFER_LEN. change (List.length (mc_header p)) with 4%nat.
      unfold packet_ok in Hp. lia. }
    pose proof (slice_splice_same off (mc_header p ++ p) (replicate RX_BUFFER_LEN 0) Hlen) as Es.
    set (b := splice _ _ _) in *. unfold slice in Es.
    assert (Et : forall n k, (n + k <= List.length (mc_header p ++ p))%nat -> slice (off + n) k b = take k (drop n (mc_header p ++ p))).
    { intros n k Hk. rewrite <- Es, skipn_firstn_comm, take_take. unfold slice. rewrite <- drop_drop. f_equal. lia. }
    cbn [in_ring]. split; [| split; [| done]].
    + exists 1. split; [lia |]. split; [done |]. fold off. rewrite <- (Nat.add_0_r off), Et by (rewrite length_app; cbn; lia). done.
    + fold off. rewrite Et by (rewrite length_app; cbn; lia). cbn [drop mc_header le_bytes app]. by rewrite firstn_all.
  - apply Forall_app. split.
    + unfold mc_queue. destruct (mc_one m); [| done]. case_decide; [by apply Forall_singleton | done].
    + apply Forall_forall. intros p Hp. by apply list_elem_of_filter in Hp as [? _].
Qed.

#[export] Program Instance mc_card : RtlCard mcard := {|
  rc_base := 0xC000; rc_queue := mc_queue; rc_coming := mc_traffic; rc_at := mc_place |}.
Next Obligation. done. Qed.
Next Obligation. exact mc_stored. Qed.
Next Obligation.
  intros m. exists (if decide (mc_queue (mc_look m) = []) then 1 else 0), (mc_look m).
  split; [done |]. split; [apply mc_look_step |]. by case_decide.
Qed.
Next Obligation.
  intros m p q Eq. cbv zeta. destruct (mc_stored m) as (Ha & _ & _ & Hok). rewrite Eq in Hok. apply Forall_cons in Hok as [Hp _]. unfold packet_ok in Hp.
  set (n := next_at _ _). assert (Hn : 0 <= n < 8192 /\ n mod 4 = 0) by (unfold n, next_at; mod_lia).
  assert (En : (u16 (n - 16) + 16) mod 8192 = n) by (unfold u16; mod_lia).
  split.
  - change (((u16 (n - 16) + 16) mod 8192 / 4) mod 2048 * 4 = n). rewrite En, Z.mod_small by mod_lia.
    rewrite Z.mul_comm. symmetry. apply Z_div_exact_full_2; [done | apply Hn].
  - exists 0%nat. split; [| done]. revert Eq. unfold mc_queue. cbn. destruct (mc_one m); [| done]. case_decide; [| done]. by intros [= _ <-].
Qed.
Next Obligation. intros m. eexists _, (mc_look m). split; [done | apply mc_look_step]. Qed.
Next Obligation. intros m v. exact (mc_look_step m). Qed.
Next Obligation. intros m reg v m' _ [= <- <-]. split; [done |]. exists 0%nat. by rewrite app_nil_r. Qed.
Next Obligation. intros m reg v _. split; [done |]. exists 0%nat. by rewrite app_nil_r. Qed.

(** A host that keeps the frames it is given, and answers each by sending it back. *)
Definition echo_host : Type := list (list Z) * rtl mcard.
#[export] Program Instance echo_host_ok : Host echo_host mcard := {|
  rtl_of s := Some s.2; with_rtl r s := (s.1, r); host_rx f s := Some (s.1 ++ [f], send (fun i => 0x300000 + 1536 * i) f s.2) |}.
Next Obligation. done. Qed.
Next Obligation. done. Qed.
Next Obligation.
  intros f s s' r r' [= <-] [= <-] Hb Ht [= <-]. unfold send. cbn [IO_BASE RX_OFFSET CURRENT_TX card]. split; [done |]. split; [done |].
  split; [mod_lia |]. split; [done |]. exists 0%nat. by rewrite app_nil_r.
Qed.

Definition demo_packet (b : Z) : list Z := replicate 60 b ++ [1; 2; 3; 4].
Definition demo_rtl (delay : nat) : rtl mcard :=
  Rtl 0xC000 (replicate 6 0) 3 8128 (replicate 4 (replicate 64 0))
    (MCard 2032 (Some (demo_packet 7)) [(1%nat, demo_packet 8); (delay, demo_packet 9)] true []).

(** Two packets at the end of the ring, the second on its way. *)
Lemma interrupt_delivers_witness : exists s', rtl8139_handler rtl_of with_rtl host_rx 9 (([], demo_rtl 100) : echo_host) = Some s' /\
  s'.1 = [replicate 60 7; replicate 60 8] /\ RX_OFFSET s'.2 = 72 /\ in_step s'.2.
Proof.
  destruct (interrupt_delivers 9 (([], demo_rtl 100) : echo_host) (demo_rtl 100)) as (k & Hk);
    [reflexivity | split; [reflexivity | cbn; lia | reflexivity] | vm_compute; lia |].
  remember (rtl8139_handler rtl_of with_rtl host_rx 9 (([], demo_rtl 100) : echo_host)) as o eqn:Eo.
  vm_compute in Eo. subst o. destruct Hk as (r' & _ & [= <-] & Hst & _).
  eexists. split; [reflexivity |]. split; [reflexivity |]. split; [reflexivity |]. exact Hst.
Defined.

(** A packet that arrives between the last look at the ring and the acknowledgement:
    its receive bit is cleared with the others, and it stays in the ring unannounced. *)
Example acknowledged_unseen :
  match rtl8139_handler rtl_of with_rtl host_rx 9 (([], demo_rtl 1) : echo_host) with
  | Some s' => (map (hd 0) s'.1, map (hd 0) (mc_queue (card s'.2)), mc_rok (card s'.2))
  | None => ([], [], true)
  end = ([7; 8], [9], false).
Proof. vm_compute. reflexivity. Qed.
