(* ===== verification/NetCard.v ===== *)
(** The card's driver and the network stack put together: frames the card receives go
    into [Net.net_rx], and what the stack sends goes out through the same driver.

    The stack touches the card by sending only, whatever a frame makes it do: this is
    proved for every relation on cards that sending respects, and makes the stack a
    [Host] of the driver. *)
From S2P Require Import Prelude Waiting NetWire Arp Ipv4 Tcp Udp Net PortIO Rtl8139.

(** ** The stack touches the card by sending only *)

Section sends.
Context {D Hd : Type} `{Nic D}.
Variable R : D -> D -> Prop.
Hypotheses (R_refl : forall d, R d d) (R_trans : forall d1 d2 d3, R d1 d2 -> R d2 d3 -> R d1 d3)
  (R_send : forall f d, R d (nic_send f d)).

Definition link_rel (l l' : link D) : Prop := R (nic l) (nic l').

Lemma send_ethernet_rel mac ty p l : link_rel l (send_ethernet mac ty p l).
Proof. unfold send_ethernet. destruct (1518 <? _); [apply R_refl | apply R_send]. Qed.

Lemma arp_rx_rel data l : link_rel l (arp_rx data l).
Proof.
  unfold arp_rx. destruct (_ <? 28); [apply R_refl |]. destruct (negb _); [apply R_refl |]. destruct (negb _); [apply R_refl |].
  cbv zeta. destruct (_ && _); [| apply R_refl]. exact (send_ethernet_rel _ _ _ (set_table _ l)).
Qed.

Lemma arp_rxs_rel ps : forall l, link_rel l (fold_left (fun s p => arp_rx p s) ps l).
Proof. induction ps as [| p ps IH]; intros l; [apply R_refl |]. eapply R_trans; [apply arp_rx_rel | apply IH]. Qed.

Lemma wait_rel start limit ok env : forall (l : link D) r l' env',
  wait start limit ok env l = Some (r, l', env') -> link_rel l l'.
Proof.
  induction env as [| w env IH]; intros l r l' env'; cbn [wait].
  - destruct (_ <=? _); [intros [= _ <- _]; apply R_refl |]. destruct (ok l); [intros [= _ <- _]; apply R_refl | done].
  - destruct (_ <=? _); [intros [= _ <- _]; apply R_refl |]. destruct (ok l); [intros [= _ <- _]; apply R_refl |].
    cbn [wake_from link_clock link_wake mbind option_bind]. intros E. eapply R_trans; [exact (arp_rxs_rel (aw_packets w) (link_tick (aw_ticks w) l)) | by eapply IH].
Qed.

Lemma resolve_attempts_rel n ip : forall env (l : link D) r l' env',
  resolve_attempts n ip env l = Some (r, l', env') -> link_rel l l'.
Proof.
  induction n as [| n IH]; intros env l r l' env'; cbn [resolve_attempts]; [intros [= _ <- _]; apply R_refl |].
  destruct (wait _ _ _ _ _) as [[[b l1] env1] |] eqn:E; [| done]. cbn [mbind option_bind]. apply wait_rel in E.
  assert (H1 : link_rel l l1) by (eapply R_trans; [apply send_ethernet_rel | exact E]).
  destruct b; [intros [= _ <- _]; exact H1 |]. intros E2. eapply R_trans; [exact H1 | by eapply IH].
Qed.

Lemma ip_rel dst proto p env s r s' env' : Ipv4.send dst proto p env s = Some (r, s', env') -> link_rel (lower s) (lower s').
Proof.
  unfold Ipv4.send. destruct (1500 <? _); [intros [= _ <- _]; apply R_refl |]. cbn [lower IP_ID_COUNTER].
  assert (Hr : forall mac l' e, resolve (next_hop dst) env (lower s) = Some (mac, l', e) -> link_rel (lower s) l').
  { intros mac l' e. unfold resolve. destruct (arp_table_lookup _ _); [intros [= _ <- _]; apply R_refl | apply resolve_attempts_rel]. }
  destruct (resolve _ _ _) as [[[mac l1] e1] |]; [| done]. specialize (Hr _ _ _ eq_refl). cbn [mbind option_bind].
  destruct mac as [mac |]; intros [= _ <- _]; [| exact Hr]. eapply R_trans; [exact Hr | exact (send_ethernet_rel _ _ _ _)].
Qed.

(** The same for the state under the transport protocols; it may get stuck. *)
Definition low_rel (n n' : @lower_state D) : Prop :=
  match n, n' with
  | Some (s, _), Some (s', _) => link_rel (lower s) (lower s')
  | None, Some _ => False
  | _, None => True
  end.

Lemma low_refl n : low_rel n n.
Proof. destruct n as [[s e] |]; [apply R_refl | done]. Qed.
Lemma low_trans n1 n2 n3 : low_rel n1 n2 -> low_rel n2 n3 -> low_rel n1 n3.
Proof. destruct n1 as [[? ?] |], n2 as [[? ?] |], n3 as [[? ?] |]; try done. apply R_trans. Qed.

Lemma ip_send_rel dst proto p n : low_rel n (ip_send dst proto p n).2.
Proof.
  destruct n as [[s env] |]; [| done]. unfold ip_send, ipv4_layer. destruct (Ipv4.send _ _ _ _ _) as [[[r s'] env'] |] eqn:E; [| done].
  by apply ip_rel in E.
Qed.

Definition tcp_rel (t t' : tcp (@lower_state D)) : Prop := low_rel (net t) (net t').

Lemma segment_rel c flags data len t t' : tcp_send_segment c flags data len t = Some t' -> tcp_rel t t'.
Proof.
  unfold tcp_send_segment. destruct (1480 <? _); [intros [= <-]; apply low_refl |].
  destruct (fill_segment _ _ _ _ _) as [buf |]; [| done]. cbn [mbind option_bind].
  intros [= <-]. apply ip_send_rel.
Qed.

Lemma segment_upd_rel i f c flags data len t t' : tcp_send_segment c flags data len (upd i f t) = Some t' -> tcp_rel t t'.
Proof. exact (segment_rel c flags data len (upd i f t) t'). Qed.

(** A step that sends and then changes the table only. *)
Lemma sent_then (o : option (tcp (@lower_state D))) (f : tcp (@lower_state D) -> option (tcp (@lower_state D))) t t' :
  (forall t1, o = Some t1 -> tcp_rel t t1) -> (forall t1 t2, f t1 = Some t2 -> tcp_rel t1 t2) ->
  (o ≫= f) = Some t' -> tcp_rel t t'.
Proof.
  intros H1 H2. destruct o as [t1 |]; [| done]. cbn [mbind option_bind]. intros E.
  eapply low_trans; [by apply H1 | by apply H2].
Qed.

Lemma upd_rel i f (t : tcp (@lower_state D)) t' : Some (upd i f t) = Some t' -> tcp_rel t t'.
Proof. intros [= <-]. apply low_refl. Qed.
Lemma same_rel (t t' : tcp (@lower_state D)) : Some t = Some t' -> tcp_rel t t'.
Proof. intros [= <-]. apply low_refl. Qed.

Create HintDb card.
Hint Resolve upd_rel same_rel segment_rel segment_upd_rel sent_then low_refl : card.

Lemma rx_state_rel i flags seq ack p t t' : rx_state i flags seq ack p t = Some t' -> tcp_rel t t'.
Proof.
  unfold rx_state. cbv zeta. unfold send_empty.
  repeat match goal with |- (if ?b then _ else _) = _ -> _ => destruct b end; try (by eauto with card);
    apply sent_then; intros; eauto with card.
  - destruct (0 <? _); [| eauto with card]. destruct (store_payload _ _); [| done]. cbn [mbind option_bind] in *. eauto with card.
  - destruct (has _ _); [| eauto with card].
    match goal with E : _ ≫= _ = Some _ |- _ => revert E; apply sent_then; intros end; eauto with card.
Qed.

Lemma tcp_rx_rel ip data t t' : Tcp.rx ip data t = Some t' -> tcp_rel t t'.
Proof.
  unfold Tcp.rx. cbv zeta. destruct (_ <? 20); [eauto with card |]. destruct (negb _); [eauto with card |].
  destruct (_ || _); [eauto with card |]. destruct (tcp_find_conn _ _ _ _).
  - destruct (has _ _); [eauto with card | apply rx_state_rel].
  - unfold send_reset. destruct (has _ TCP_RST); [eauto with card |]. destruct (has _ TCP_ACK); eauto with card.
Qed.

Lemma icmp_rx_rel ip data i : low_rel (Icmp.net i) (Icmp.net (Icmp.rx ip data i)).
Proof.
  unfold Icmp.rx. cbv zeta. destruct (_ <? 8); [apply low_refl |]. destruct (negb _); [apply low_refl |]. destruct (_ && _).
  - destruct (1500 <? _); [apply low_refl | apply ip_send_rel].
  - destruct (_ && _); apply low_refl.
Qed.

(** A frame makes the stack send, and do nothing else to the card. *)
Lemma net_rx_rel frame (st st' : @stack D Hd) call : Net.net_rx frame st = Some (st', call) -> low_rel (st_low st) (st_low st').
Proof.
  unfold Net.net_rx. destruct (eth_rx frame) as [[ty p] |]; [| intros [= <- _]; apply low_refl].
  destruct (ty =? ETH_TYPE_ARP).
  - intros [= <- _]. cbn [st_low]. destruct (st_low st) as [[s env] |]; [apply arp_rx_rel | done].
  - unfold Net.ipv4_rx. destruct (ip_rx p) as [[[proto src] q] |]; [| intros [= <- _]; apply low_refl].
    destruct (proto =? IP_PROTO_ICMP); [intros [= <- _]; exact (icmp_rx_rel src q (icmp_on (st_low st) (st_icmp st))) |].
    destruct (proto =? IP_PROTO_TCP); [| intros [= <- _]; apply low_refl].
    destruct (Tcp.rx _ _ _) as [t |] eqn:E; [| done]. intros [= <- _]. exact (tcp_rx_rel _ _ _ _ E).
Qed.
End sends.

(** ** The stack over the driver *)

Section host.
Context {D Hd : Type} `{RtlCard D}.
Variable TX_ADDR : Z -> Z.
#[local] Instance driver_nic : Nic (rtl D) := rtl_nic TX_ADDR.

(** [call_handler] is what a UDP handler does to the stack; it leaves the lower layers alone. *)
Variable call_handler : Hd * Z * Z * list Z -> @stack (rtl D) Hd -> @stack (rtl D) Hd.
Hypothesis handler_low : forall c st, st_low (call_handler c st) = st_low st.

Definition stack_rx (f : list Z) (st : @stack (rtl D) Hd) : option stack :=
  '(st, call) ← Net.net_rx f st; Some (match call with Some c => call_handler c st | None => st end).
Definition stack_card (st : @stack (rtl D) Hd) : option (rtl D) := '(s, _) ← st_low st; Some (nic (lower s)).
Definition stack_with (r : rtl D) (st : @stack (rtl D) Hd) : @stack (rtl D) Hd :=
  match st_low st with
  | Some (s, env) =>
      let l := lower s in
      Stack (st_tcp st) (st_udp st) (st_icmp st) (Some (Ip (IP_ID_COUNTER s) (Link (OUR_MAC l) (ARP_TABLE l) (CLOCK l) r), env))
  | None => st
  end.

(** Sending keeps the driver's place in the ring; packets may arrive meanwhile. *)
Definition sends_only (r r' : rtl D) : Prop := IO_BASE r = rc_base -> 0 <= CURRENT_TX r < 4 ->
  IO_BASE r' = rc_base /\ RX_OFFSET r' = RX_OFFSET r /\ 0 <= CURRENT_TX r' < 4 /\ rc_step (card r) (card r').

Lemma step_refl (d : D) : rc_step d d.
Proof. split; [done |]. exists 0%nat. by rewrite app_nil_r. Qed.

Lemma own_wait_step n reg (d : D) : 0x10 <= reg < 0x30 -> rc_step d (own_wait n (rc_base + reg) d).
Proof.
  intros Hr. revert d. induction n as [| n IH]; intros d; cbn [own_wait]; destruct (inl _ d) as [v d1] eqn:E; pose proof (rc_inl d reg v d1 Hr E) as Hs.
  - by destruct (_ =? 0).
  - destruct (_ =? 0); [done |]. eapply step_trans; [exact Hs | apply IH].
Qed.

Lemma send_only f r : sends_only r (Rtl8139.send TX_ADDR f r).
Proof.
  intros Hb Ht. unfold Rtl8139.send. cbn [IO_BASE RX_OFFSET CURRENT_TX card]. split; [done |]. split; [done |]. split; [mod_lia |].
  set (n := CURRENT_TX r) in *. rewrite !port_reg by (done || unfold REG_TSD0, REG_TSAD0; lia). unfold REG_TSD0, REG_TSAD0.
  assert (R1 : 0x10 <= 0x10 + n * 4 < 0x30) by lia. assert (R2 : 0x10 <= 0x20 + n * 4 < 0x30) by lia.
  exact (step_trans _ _ _ (own_wait_step (Z.to_nat 10000) _ _ R1) (step_trans _ _ _ (rc_outl _ _ _ R2) (rc_outl _ _ _ R1))).
Qed.

#[export] Program Instance stack_host : Host (@stack (rtl D) Hd) D := {|
  rtl_of := stack_card; with_rtl := stack_with; host_rx := stack_rx |}.
Next Obligation.
  intros r r0 st. unfold stack_card, stack_with. destruct (st_low st) as [[s env] |]; done.
Qed.
Next Obligation. intros r r' st. unfold stack_with. destruct (st_low st) as [[s env] |] eqn:E; [done |]. by rewrite E. Qed.
Next Obligation.
  intros f st st' r r' E Hr Hb Ht Hr'. unfold stack_rx in E. destruct (Net.net_rx f st) as [[st1 call] |] eqn:En; [| done].
  cbn [mbind option_bind] in E. injection E as <-.
  assert (El : st_low (match call with Some c => call_handler c st1 | None => st1 end) = st_low st1) by (by destruct call).
  unfold stack_card in Hr, Hr'. rewrite El in Hr'. 
  apply (net_rx_rel sends_only) in En.
  - unfold low_rel in En. destruct (st_low st) as [[s env] |]; [| done]. destruct (st_low st1) as [[s1 env1] |]; [| done].
    cbn in Hr, Hr'. injection Hr as <-. injection Hr' as <-. by apply En.
  - intros d Hb' Ht'. split; [done |]. split; [done |]. split; [done | apply step_refl].
  - intros d1 d2 d3 H12 H23 Hb' Ht'. destruct (H12 Hb' Ht') as (A & B & C & E). destruct (H23 A C) as (A' & B' & C' & E').
    split; [done |]. split; [congruence |]. split; [done | by eapply step_trans].
  - intros f0 d. apply send_only.
Qed.
End host.
