(* ===== verification/Recovery.v ===== *)
(** Running a program in a thread of its own ([src/src/recovery.rs]).

    The three shared statics with the scheduler.  A wait for the child is a list of
    what the other threads do between two turns of the waiting one. *)
From S2P Require Import Prelude Sync Vmm Heap Thread.

Section code.
Context {H : Type} `{KernelHeap H}.

Record rec := Rec { CHILD_DONE : Z; CHILD_RESULT : Z; CHILD_ENTRY : Z; kernel : sched H }.
Implicit Types s : rec.

Definition set_kernel (k : sched H) s : rec := Rec (CHILD_DONE s) (CHILD_RESULT s) (CHILD_ENTRY s) k.

(** As [sys_exit] uses it. *)
Definition set_child_result (result : Z) s : rec := Rec 1 result (CHILD_ENTRY s) (kernel s).

(** [child_wrapper] from the return of the program with [result]; [sp] is its stack. *)
Definition child_wrapper (sp result : Z) s : option (bool * rec) :=
  let s := set_child_result result s in
  '(switched, k) ← exit sp (kernel s); Some (switched, set_kernel k s).

(** The loop: each turn of the others is an element of [env]. *)
Fixpoint wait_child (sp tid : Z) (env : list (rec -> option rec)) s : option (Z * rec) :=
  if negb (CHILD_DONE s =? 0) then Some (CHILD_RESULT s, s) else
  if negb (is_alive tid (kernel s)) then Some (CHILD_RESULT s, s) else
  match env with
  | [] => None
  | others :: env =>
      '(flags, k) ← yield_enter sp (kernel s);
      s ← others (set_kernel k s);
      wait_child sp tid env (set_kernel (yield_leave flags (kernel s)) s)
  end.

Definition run_protected (exit_fn wrapper sp entry : Z) (env : list (rec -> option rec)) s : option (Z * rec) :=
  let s := Rec 0 (-99) entry (kernel s) in
  '(tid, k) ← create exit_fn wrapper (kernel s);
  let s := set_kernel k s in
  if tid <? 0 then Some (-99, s) else wait_child sp tid env s.
End code.
Arguments rec H : clear implicits.

Section proofs.
Context {H : Type} `{KernelHeap H}.
Implicit Types s : rec H.

(** A turn in which the child neither ends nor dies, one in which it ends with
    [result], one in which it is killed. *)
Definition quiet (tid : Z) (f : rec H -> option (rec H)) : Prop :=
  forall s s', f s = Some s' -> CHILD_DONE s' = CHILD_DONE s /\ CHILD_RESULT s' = CHILD_RESULT s /\
    is_alive tid (kernel s') = is_alive tid (kernel s).
Definition ends_with (result : Z) (f : rec H -> option (rec H)) : Prop :=
  forall s s', f s = Some s' -> CHILD_DONE s' = 1 /\ CHILD_RESULT s' = result.
Definition killed (tid : Z) (f : rec H -> option (rec H)) : Prop :=
  forall s s', f s = Some s' -> CHILD_DONE s' = CHILD_DONE s /\ CHILD_RESULT s' = CHILD_RESULT s /\
    is_alive tid (kernel s') = false.

Lemma alive_leave tid flags (k : sched H) : is_alive tid (yield_leave flags k) = is_alive tid k.
Proof. unfold yield_leave. by destruct (negb _). Qed.

(** Yielding makes no thread live or dead. *)
Lemma alive_insert n (ts : list Thread) i t u : ts !! i = Some t -> live_id n u = live_id n t ->
  existsb (live_id n) (<[i := u]> ts) = existsb (live_id n) ts.
Proof.
  revert i. induction ts as [| t0 ts IH]; intros [| i] Ht Hu; cbn [existsb insert list_insert]; try done.
  - injection Ht as ->. by rewrite Hu.
  - f_equal. exact (IH i Ht Hu).
Qed.

Lemma alive_rsp n sp i (ts : list Thread) : existsb (live_id n) (alter (with_rsp sp) i ts) = existsb (live_id n) ts.
Proof.
  revert i. induction ts as [| t0 ts IH]; intros [| i]; [done | done | done |]. exact (f_equal (orb (live_id n t0)) (IH i)).
Qed.

Lemma scan_ready n : forall i old ts next, scan n i old ts = Some next -> next = old \/ exists t, ts !! next = Some t /\ state t = Ready.
Proof.
  induction n as [| n IH]; intros i old ts next; cbn [scan]; [intros [= <-]; by left |].
  destruct (ts !! _) as [t |] eqn:E; [| done]. cbn [mbind option_bind]. case_decide; [intros [= <-]; right; by exists t | apply IH].
Qed.

Lemma yield_alive sp (k : sched H) flags k' n : yield_enter sp k = Some (flags, k') -> is_alive n k' = is_alive n k.
Proof.
  unfold yield_enter, schedule. set (k0 := set_flags _ k). change (is_alive n k) with (is_alive n k0). clearbody k0.
  set (o := if negb _ then _ else _). assert (Ho : forall k1, o = Some k1 -> THREADS k1 = THREADS k0).
  { intros k1. unfold o. destruct (negb _); [| by intros [= <-]]. destruct (kh_free _ _); [| done]. by intros [= <-]. }
  clearbody o. destruct o as [k1 |]; [| done]. cbn [mbind option_bind]. specialize (Ho k1 eq_refl). unfold is_alive. rewrite <- Ho.
  unfold switch. destruct (scan _ _ _ _) as [next |] eqn:Es; [| done]. cbn [mbind option_bind]. case_decide; [by intros [= _ <-] |].
  apply scan_ready in Es as [? | (t' & Et' & Hs')]; [done |].
  destruct (THREADS k1 !! CURRENT_THREAD k1) as [t |] eqn:Et; [| done]. cbn [mbind option_bind].
  set (ts := if decide (state t = Running) then _ else _).
  assert (Hts : ts !! next = Some t' /\ existsb (live_id n) ts = existsb (live_id n) (THREADS k1)).
  { unfold ts. case_decide as Er; [| done]. split; [by rewrite list_lookup_insert_ne |]. apply (alive_insert n _ _ t _ Et).
    unfold live_id. cbn [state with_state id]. by rewrite Er. }
  clearbody ts. destruct Hts as [Et2 <-]. rewrite Et2. cbn [mbind option_bind]. intros [= _ <-]. cbn [THREADS]. rewrite alive_rsp.
  apply (alive_insert n _ _ t' _ Et2). unfold live_id. cbn [state with_state id]. by rewrite Hs'.
Qed.

(** The answer of a wait that comes back is what the child left: its result, or -99
    when it was killed before it had one. *)
Lemma wait_child_answer sp tid env others more s r s' :
  CHILD_DONE s = 0 -> CHILD_RESULT s = -99 -> is_alive tid (kernel s) = true ->
  Forall (quiet tid) env ->
  wait_child sp tid (env ++ others :: more) s = Some (r, s') ->
  (forall result, ends_with result others -> r = result) /\ (killed tid others -> r = -99).
Proof.
  intros Hd Hr Ha He. revert s Hd Hr Ha. induction He as [| f env Hf He IH]; intros s Hd Hr Ha; cbn [app wait_child];
    rewrite Hd, Ha; cbn [negb Z.eqb]; destruct (yield_enter sp (kernel s)) as [[flags k] |] eqn:Ey; try done; cbn [mbind option_bind].
  - destruct (others _) as [s1 |] eqn:Eo; [| done]. cbn [mbind option_bind]. set (s2 := set_kernel _ s1). intros E. split.
    + intros result Hx. destruct (Hx _ _ Eo) as [D1 R1]. destruct more; cbn [wait_child] in E;
        change (CHILD_DONE s2) with (CHILD_DONE s1) in E; rewrite D1 in E; cbn in E; injection E as <- _; exact R1.
    + intros Hx. destruct (Hx _ _ Eo) as (D1 & R1 & A1). cbn [CHILD_DONE CHILD_RESULT set_kernel] in D1, R1.
      destruct more; cbn [wait_child] in E; change (CHILD_DONE s2) with (CHILD_DONE s1) in E; rewrite D1, Hd in E; cbn [negb Z.eqb] in E;
        change (kernel s2) with (yield_leave flags (kernel s1)) in E; rewrite alive_leave, A1 in E; cbn in E; injection E as <- _; by rewrite R1.
  - destruct (f _) as [s1 |] eqn:Eo; [| done]. cbn [mbind option_bind]. destruct (Hf _ _ Eo) as (D1 & R1 & A1).
    cbn [CHILD_DONE CHILD_RESULT set_kernel kernel] in D1, R1, A1. apply IH.
    + cbn. congruence.
    + cbn. congruence.
    + cbn [kernel set_kernel]. rewrite alive_leave, A1, (yield_alive _ _ _ _ _ Ey). exact Ha.
Qed.
End proofs.
