(* ===== verification/Driver.v ===== *)
(** The compiler's driver ([src/src/rc/mod.rs]): from a source file of the virtual
    file system to a program in another.

    The compiler itself is [compile_text] of [ParseProg]; here it meets the files, the
    heap and the console.  The theorem puts the parts together: what [rc_compile]
    answers, what the output file holds, and that no other file changes. *)
From Stdlib Require Import String.
From S2P Require Import Prelude StringRs Lex Emit EmitDecode Sym ParseState ParseExpr ParseStmt ParseProg ParseWp ParseTotal Heap BumpHeap VfsNode VfsStore RamFiles Ramfs Initrd Devfs Fat16Vfs Vfs VfsTree VfsMake VfsFile VfsSpec VfsProps Term Editor EditorFile.

(** ** The name of the output *)

(** From [idx] down to the byte after the last dot, or to 0. *)
Fixpoint last_dot (fuel : nat) (out : list Z) (idx : Z) : option Z :=
  match fuel with
  | O => None
  | S fuel => if 0 <? idx then c ← zget out (idx - 1); if c =? 46 then Some idx else last_dot fuel out (idx - 1) else Some idx
  end.

(** The bytes [l] into [out] from [i], one by one. *)
Fixpoint put_bytes (l : list Z) (i : Z) (out : list Z) : option (list Z) :=
  match l with [] => Some out | c :: l => out ← zset out i c; put_bytes l (i + 1) out end.

(** [out] has [out_size] bytes; a name that leaves no room for the extension is cut. *)
Definition derive_output_name (src_name out : list Z) (out_size : Z) : option (list Z) :=
  let n := i32 (Z.of_nat (List.length src_name)) in
  let n := if out_size - 4 <=? n then out_size - 5 else n in
  let out := splice 0 (take (Z.to_nat n) src_name) out in
  idx ← last_dot (S (Z.to_nat n)) out n;
  if 0 <? idx then put_bytes (str ".bin" ++ [0]) (idx - 1) out else put_bytes (str ".bin" ++ [0]) n out.

(** What it comes to: the name, at most 59 bytes of it, up to its last dot, and [.bin]. *)
Definition stem (nm : list Z) : list Z :=
  let nm := take 59 nm in
  match list_find (fun c => c = 46) (reverse nm) with
  | Some (i, _) => take (List.length nm - S i) nm
  | None => nm
  end.
Definition out_name (src : list Z) (output : option (list Z)) : list Z :=
  match output with Some nm => nm | None => stem src ++ str ".bin" end.

Lemma last_dot_spec l : forall tail fuel, (List.length l < fuel)%nat ->
  last_dot fuel (l ++ tail) (Z.of_nat (List.length l)) =
  Some (match list_find (fun c => c = 46) (reverse l) with Some (i, _) => Z.of_nat (List.length l - i) | None => 0 end).
Proof.
  induction l as [| c l IH] using rev_ind; intros tail [| fuel] Hf; [lia | done | lia |].
  rewrite length_app in *. cbn [List.length] in *. cbn [last_dot]. rewrite (proj2 (Z.ltb_lt 0 _)) by lia.
  replace (Z.of_nat (List.length l + 1) - 1) with (Z.of_nat (List.length l)) by lia. rewrite <- app_assoc. cbn [app].
  assert (E : zget (l ++ c :: tail) (Z.of_nat (List.length l)) = Some c).
  { unfold zget. rewrite (proj2 (Z.ltb_ge _ 0)), Nat2Z.id by lia. by apply list_lookup_middle. }
  rewrite E, reverse_snoc. cbn [mbind option_bind list_find]. destruct (Z.eqb_spec c 46) as [-> | Hc].
  - rewrite decide_True by done. f_equal. lia.
  - rewrite decide_False by done. rewrite IH by lia. f_equal.
    destruct (list_find _ (reverse l)) as [[i x] |]; [| done]. cbn [fmap option_fmap option_map prod_map fst]. lia.
Qed.

Lemma put_bytes_spec l : forall i out, 0 <= i -> i + Z.of_nat (List.length l) <= Z.of_nat (List.length out) ->
  put_bytes l i out = Some (splice (Z.to_nat i) l out).
Proof.
  induction l as [| c l IH]; intros i out Hi Hl; cbn [put_bytes List.length] in *; [by rewrite splice_nil |].
  rewrite zset_Some by lia. cbn [mbind option_bind]. rewrite IH by (rewrite ?length_insert; lia). f_equal.
  apply list_eq. intros j. rewrite !lookup_splice by (rewrite ?length_insert; cbn [List.length]; lia). cbn [List.length].
  destruct (decide (j = Z.to_nat i)) as [-> |].
  - rewrite decide_False, decide_True, Nat.sub_diag by lia. cbn [lookup list_lookup]. apply list_lookup_insert_eq. lia.
  - rewrite list_lookup_insert_ne by lia. repeat case_decide; try lia; [| done].
    replace (j - Z.to_nat i)%nat with (S (j - Z.to_nat (i + 1))) by lia. done.
Qed.

Lemma stem_length nm : (List.length (stem nm) <= 59)%nat.
Proof. unfold stem. destruct (list_find _ _) as [[i x] |]; rewrite ?length_take; lia. Qed.
Lemma stem_no_nul nm : no_nul nm -> no_nul (stem nm).
Proof. intros Hn. unfold stem. destruct (list_find _ _) as [[i x] |]; [apply Forall_take |]; by apply Forall_take. Qed.

Lemma derive_output_name_spec src : no_nul src -> Z.of_nat (List.length src) < 2 ^ 31 ->
  exists out, derive_output_name src (replicate 64 0) 64 = Some out /\ cstr out = out_name src None.
Proof.
  intros Hn Hl. unfold derive_output_name. rewrite i32_small by lia. set (n := if _ <=? _ then _ else _).
  assert (Hlen : n = Z.of_nat (List.length (take 59 src))).
  { unfold n. rewrite length_take. destruct (Z.leb_spec (64 - 4) (Z.of_nat (List.length src))); lia. }
  assert (Et : take (Z.to_nat n) src = take 59 src).
  { rewrite Hlen, Nat2Z.id, length_take. destruct (decide (List.length src <= 59)%nat).
    - by rewrite !take_ge by lia.
    - by rewrite Nat.min_l by lia. }
  rewrite Et. clearbody n. set (l := take 59 src) in *. assert (Hl59 : (List.length l <= 59)%nat) by (unfold l; rewrite length_take; lia).
  rewrite splice_front by (rewrite length_replicate; lia). rewrite Hlen, Nat2Z.id, last_dot_spec by lia. cbn [mbind option_bind].
  assert (Hput : forall k, (k <= List.length l)%nat ->
    exists out, put_bytes (str ".bin" ++ [0]) (Z.of_nat k) (l ++ drop (List.length l) (replicate 64 0)) = Some out /\
      cstr out = take k l ++ str ".bin").
  { intros k Hk. rewrite put_bytes_spec by (rewrite ?length_app, ?length_drop, ?length_replicate; cbn; lia).
    eexists. split; [done |]. rewrite Nat2Z.id. unfold splice. rewrite take_app_le by done.
    rewrite (take_ge (str ".bin" ++ [0])) by (rewrite !length_app, length_drop, length_replicate; cbn; lia).
    rewrite <- !app_assoc, app_assoc. cbn [app]. rewrite cstr_app_nul; [done |].
    apply Forall_app. split; [by apply Forall_take, Forall_take | by repeat constructor]. }
  unfold out_name, stem. fold l. destruct (list_find _ (reverse l)) as [[i x] |] eqn:E.
  - apply list_find_Some in E as [E _]. apply lookup_lt_Some in E. rewrite length_reverse in E.
    rewrite (proj2 (Z.ltb_lt 0 _)) by lia. replace (Z.of_nat (List.length l - i) - 1) with (Z.of_nat (List.length l - S i)) by lia.
    apply Hput. lia.
  - cbn [Z.ltb Z.compare]. destruct (Hput (List.length l)) as (out & E' & Ec); [done |]. exists out.
    split; [exact E' |]. by rewrite Ec, firstn_all.
Qed.

(** ** The driver *)

Section driver.
Context {H X : Type} `{KernelHeap H} `{Typist X} `{FatDisk X}.
Implicit Types s : vfs H X.

(** Files and console, and the statics of the compiler. *)
Record driver := Rc { fs : vfs H X; ps : pstate }.
Implicit Types d : driver.

Definition set_fs s d : driver := Rc s (ps d).
Definition set_ps (p : pstate) d : driver := Rc (fs d) p.
Definition set_base (base : Z) d : driver := set_ps (set_em (Emit.set_base base (em (ps d))) (ps d)) d.

Definition cc_print_uint (val : Z) s : vfs H X := print_uint val s.

(** The end of a failed run: a message, and the source's buffer given back. *)
Definition rc_fail (msg : list Z) (source : Z) s d : option (Z * driver) :=
  s ← release source (puts msg s); Some (-1, set_fs s d).

(** What is written: the code as it stands in the emitter's buffer. *)
Definition program_of (p : pstate) : list Z := take (Z.to_nat (Emit.size (em p))) (Emit.code (em p)).

(** From "Write the generated binary" on; the answer of the write is not looked at. *)
Definition write_output (source : Z) (actual_output : list Z) d : option (Z * driver) :=
  '(out_node, s) ← create_file (Some actual_output) (fs d);
  if out_node =? 0 then rc_fail (str "rc:cannot create output file: " ++ actual_output ++ [10]) source s d else
  '(_, s) ← Vfs.write out_node 0 (program_of (ps d)) s;
  s ← release source s;
  let s := puts (str "Compiled: " ++ actual_output ++ str " (") s in
  let s := cc_print_uint (Emit.size (em (ps d))) s in
  Some (0, set_fs (puts (str " bytes)" ++ [10]) s) d).

Definition compile_loaded (addr : string -> Z) (source_file : list Z) (output_file : option (list Z)) (source : Z)
    (text : list Z) d : option (Z * driver) :=
  '(r, p) ← compile_text addr text (ps d);
  let d := set_ps p d in
  if r <? 0 then rc_fail (str "rc:compilation failed" ++ [10]) source (fs d) d else
  if Emit.had_overflow (em p)
  then rc_fail (str "rc:error: code buffer overflow (output too large)" ++ [10]) source (fs d) d else
  nm ← match output_file with
       | None => out ← derive_output_name source_file (replicate 64 0) 64; Some (cstr out)
       | Some nm => Some nm
       end;
  write_output source nm d.

Definition rc_compile (addr : string -> Z) (source_file : list Z) (output_file : option (list Z)) d : option (Z * driver) :=
  '(src_node, s) ← finddir (VFS_ROOT (fs d)) source_file (fs d);
  if src_node =? 0 then
    Some (-1, set_fs (puts (str "rc:file not found: " ++ source_file ++ [10]) s) d)
  else
    v ← node_at src_node s;
    '(source, s) ← alloc (n_size v + 1) (OBuf (replicate (Z.to_nat (n_size v + 1)) 0)) s;
    if source =? 0 then Some (-1, set_fs (puts (str "rc:out of memory" ++ [10]) s) d) else
    '(n, bytes, s) ← Vfs.read src_node 0 (n_size v) s;
    if n <? 0 then rc_fail (str "rc:read error" ++ [10]) source s d else
    s ← buf_write source 0 bytes s;
    s ← buf_write source n [0] s;
    text ← buf_read source 0 n s;
    compile_loaded addr source_file output_file source text (set_fs s d).

(** For programs that compile others: the code is for the second load address. *)
Definition compile (addr : string -> Z) (source_file : list Z) d : option (Z * driver) :=
  '(r, d) ← rc_compile addr source_file None (set_base CC_LOAD_BASE2 d);
  Some (r, set_base CC_LOAD_BASE d).

(** Up to the jump: the bytes at [CC_LOAD_BASE2], or -1. *)
Definition load_program (filename : list Z) s : option (option (list Z) * vfs H X) :=
  '(node, s) ← finddir (VFS_ROOT s) filename s;
  if node =? 0 then Some (None, s) else
  v ← node_at node s;
  if n_size v =? 0 then Some (None, s) else
  '(n, bytes, s) ← Vfs.read node 0 (n_size v) s;
  Some (if n <=? 0 then None else Some bytes, s).

(** [run_protected] is of the thread that asks: it is the argument [run], with the
    program in memory. *)
Definition run_program (run : list Z -> vfs H X -> option (Z * vfs H X)) (filename : list Z) s : option (Z * vfs H X) :=
  '(prog, s) ← load_program filename s;
  match prog with None => Some (-1, s) | Some bytes => run bytes s end.

(** ** The files around a buffer *)

Lemma vfs_ok_ext x s live : vfs_ok s live -> vfs_ok (set_ext x s) live.
Proof. intros [[] [] ?]. split; [split | split |]; done. Qed.
Lemma vfs_ok_puts t s live : vfs_ok s live -> vfs_ok (puts t s) live.
Proof. apply vfs_ok_ext. Qed.
Lemma vfs_ok_uint v s live : vfs_ok s live -> vfs_ok (print_uint v s) live.
Proof. unfold print_uint. case_if; [apply vfs_ok_ext | apply vfs_ok_puts]. Qed.

(** [s] with a buffer at [q] that no file uses. *)
Record held s (q : Z) (live : list (Z * Z)) : Prop := {
  hd_ok : vfs_ok s live;
  hd_buf : exists l, store s !! q = Some (OBuf l);
  hd_orphan : orphan (store s) q }.

Lemma release_held s q live : held s q live ->
  exists s' live', release q s = Some s' /\ framed s s' /\ vfs_ok s' live' /\ S (List.length live') = List.length live /\
    same_shape (store s) (store s') /\ (forall x, content (store s') x = content (store s) x).
Proof.
  intros [[Hh Ht Hf] [l Hq] Ho]. destruct (release_spec q s live Hh) as (h & z & live' & E & P & Hh'); [by eexists |].
  eexists _, live'. split; [exact E |]. split; [by apply framed_store, framed_hp, framed_refl |].
  assert (Hs : same_shape (store s) (delete q (store s))) by (by eapply same_shape_delete). split; [split |].
  - done.
  - apply (tree_ok_shape (store s)); [done | by apply (ho_null _ _ Hh') | done].
  - by eapply files_ok_delete.
  - split; [apply Permutation_length in P; cbn in P; congruence |]. split; [done |]. intros x. by apply (content_delete _ q l).
Qed.

(** Creating a file keeps the buffer. *)
Lemma created_held s live q par v nm s1 live1 n f b : held s q live -> node_at par s = Some v -> is_dir v = true -> name_ok nm ->
  lookup_name (store s) par nm = Some 0 -> framed s s1 -> created s live par v nm s1 live1 n f b -> held s1 q live1.
Proof.
  intros [Hok [l Hq] Ho] Hp Hd Hnm Hl F1 Hcr.
  destruct (created_ok s live par v nm s1 live1 n f b Hok Hp Hd Hnm Hl F1 Hcr) as (Hok1 & _).
  destruct Hcr as [(Hn0 & Hf0 & Hb0) (Hnf & Hnb & Hfb) (Hn & Hf & Hb) Es Hh1 _].
  assert (Hqp : q <> par) by (intros ->; unfold node_at, node_in in Hp; by rewrite Hq in Hp).
  split; [done | |]; rewrite Es; unfold linked.
  - exists l. rewrite !lookup_insert_ne, new_file_lookup by congruence. repeat case_decide; congruence.
  - intros r fd. rewrite !lookup_insert, new_file_lookup. repeat case_decide; try done.
    + intros [= <-]. cbn. congruence.
    + apply Ho.
Qed.

(** The entry of the output: there, or made. *)
Lemma output_entry s live q nm c : held s q live -> RAMFS_ROOT s = VFS_ROOT s -> target s nm c ->
  exists p s1 live1, create_file (Some nm) s = Some (p, s1) /\ framed s s1 /\ held s1 q live1 /\
    (forall x c', content (store s) x = Some c' -> content (store s1) x = Some c') /\
    ((p = 0 /\ store s1 = store s /\ short SIZEOF_NODE 2 (hp s)) \/
     (exists j, (j <= 3)%nat /\ calls SIZEOF_NODE j (hp s) (hp s1)) /\ p <> 0 /\
     exists v, lookup_name (store s1) (VFS_ROOT s1) nm = Some p /\ node_in (store s1) p = Some v /\
       write_fn v = Some RamfsWrite /\ content (store s1) p = Some c /\
       forall x, x <> p -> content (store s1) x = content (store s) x).
Proof.
  intros Hhd Hroot Ht. pose proof Hhd as [Hok Hbuf Ho]. pose proof Hok as [Hh Htree Hf].
  unfold create_file. rewrite Hroot. destruct Ht as [p v c Hl Hp Hv Hr Hw Hc | v Hl _ Hnm Hv Hd Hch].
  - assert (Hr0 : VFS_ROOT s <> 0) by (intros E; unfold lookup_name in Hl; rewrite E in Hl; cbn in Hl; congruence).
    exists p, s, live. rewrite create_file_in_unfold, (proj2 (Z.eqb_neq (VFS_ROOT s) 0)), (finddir_lookup s _ _ nm p Htree Hl) by done.
    cbn [mbind option_bind]. rewrite (proj2 (Z.eqb_neq p 0)) by done. cbn [negb]. split; [done |]. split; [apply framed_refl |].
    split; [done |]. split; [done |]. right. split; [exists 0%nat; split; [lia | constructor] |]. split; [done |]. exists v. done.
  - destruct (create_file_spec s live _ v _ Hok Hv Hd Hnm Hl) as (p & s1 & live1 & E & F1 & Hcase). exists p, s1, live1.
    split; [exact E |]. split; [done |]. destruct Hcase as [(-> & Es & Hh1 & HP & Hwhy) | (f & b & K & Hcr)].
    + split; [split; [split; [done | by rewrite (framed_root _ _ F1), Es | by rewrite Es] | by rewrite Es | by rewrite Es] |].
      split; [by rewrite Es |]. left. split; [done |]. split; [done |]. destruct Hwhy; [lia | done].
    + destruct (created_ok s live _ v _ s1 live1 p f b Hok Hv Hd Hnm Hl F1 Hcr) as (Hok1 & _ & Hl1 & Hc1).
      split; [by eapply created_held |]. pose proof (cr_ne0 _ _ _ _ _ _ _ _ _ _ Hcr) as (Hp0 & _).
      assert (Hnone : content (store s) p = None).
      { pose proof (cr_free _ _ _ _ _ _ _ _ _ _ Hcr) as (En & _). unfold content, node_in. by rewrite En. }
      split; [intros x c' Hx; rewrite Hc1; case_decide; congruence |]. right. split; [by exists 3%nat |]. split; [done |].
      exists (set_parent (VFS_ROOT s) (file_node nm (PRam f))). rewrite (framed_root _ _ F1). split; [done |]. split.
      { rewrite (cr_store _ _ _ _ _ _ _ _ _ _ Hcr). unfold node_in, linked. by rewrite lookup_insert_eq. }
      split; [done |]. split; [by rewrite Hc1, decide_True |]. intros x Hx. by rewrite Hc1, decide_False.
Qed.

(** What a write at the front of a RAM file does around the buffer. *)
Lemma write_held s live q p v c t : held s q live -> node_in (store s) p = Some v -> write_fn v = Some RamfsWrite ->
  content (store s) p = Some c -> Z.of_nat (List.length t) <= CC_CODE_MAX ->
  exists r s1 live1, Vfs.write p 0 t s = Some (r, s1) /\ framed s s1 /\ held s1 q live1 /\ same_shape (store s) (store s1) /\
    (forall x, x <> p -> content (store s1) x = content (store s) x) /\
    (content (store s1) p = Some (overlay 0 t c) \/ content (store s1) p = Some c /\ short (2 * CC_CODE_MAX) 0 (hp s)).
Proof.
  unfold CC_CODE_MAX. intros [[Hh Ht Hf] [l Hq] Ho] Hv Hw Hc Hlen.
  assert (Hp : p <> 0) by (intros ->; unfold node_in in Hv; by rewrite (ho_null _ _ Hh) in Hv).
  destruct (ramfs_write_spec s live p v c 0 t Hh Hf Hv Hc) as (s1 & live1 & Hh1 & Hl1 & Hf1 & Hcase); [lia | lia |].
  assert (Hwr : forall r, ramfs_write p 0 t s = Some (r, s1) -> Vfs.write p 0 t s = Some (r, s1)).
  { intros r E. unfold Vfs.write. rewrite (proj2 (Z.eqb_neq p 0)) by done. unfold node_at. rewrite Hv. cbn [mbind option_bind]. by rewrite Hw. }
  assert (Htree : framed s s1 -> same_shape (store s) (store s1) -> tree_ok (store s1) (VFS_ROOT s1)).
  { intros F Sh. rewrite (framed_root _ _ F). apply (tree_ok_shape (store s)); [done | by apply (ho_null _ _ Hh1) | done]. }
  destruct Hcase as [[E Hrw] | (E & Hfr & Es & _ & Href)]; eexists _, s1, live1; (split; [apply Hwr; exact E |]).
  - pose proof (rw_frame _ _ _ _ _ Hrw) as F. pose proof (un_shape _ _ _ (rewritten_untouched s s1 p v _ Hv Hrw)) as Sh.
    destruct (rw_orphan _ _ _ _ _ Hrw q l Hq Ho) as [Hq1 Ho1].
    split; [done |]. split; [split; [split; auto | by exists l | done] |]. split; [done |].
    split; [intros x Hx; by rewrite (rw_content _ _ _ _ _ Hrw), decide_False |]. left. by rewrite (rw_content _ _ _ _ _ Hrw), decide_True.
  - assert (Sh : same_shape (store s) (store s1)) by (by rewrite Es). split; [done |].
    split; [split; [split; auto | rewrite Es; by exists l | by rewrite Es] |]. split; [done |].
    split; [intros x _; by rewrite Es |]. right. rewrite Es. split; [done |]. eapply (short_le _ _ 0); [| | exact Href]; lia.
Qed.

(** The files of [d'] are those of [d], but for the program at [p], over what was there. *)
Record compiled d d' (nm : list Z) (prog c0 : list Z) (p : Z) : Prop := {
  co_found : finddir (VFS_ROOT (fs d')) nm (fs d') = Some (p, fs d');
  co_this : content (store (fs d')) p = Some (prog ++ drop (List.length prog) c0);
  co_other : forall x, x <> p -> content (store (fs d')) x = content (store (fs d)) x }.

(** [s'] after messages. *)
Definition says s s' : Prop := exists x, s' = set_ext x s.
Lemma says_refl s : says s s.
Proof. exists (ext s). by destruct s. Qed.
Lemma says_puts t s s' : says s s' -> says s (puts t s').
Proof. intros [x ->]. by eexists. Qed.
Lemma says_uint v s s' : says s s' -> says s (print_uint v s').
Proof. unfold print_uint. case_if; [intros [x ->]; by eexists | apply says_puts]. Qed.

Lemma fail_spec msg q s live d : held s q live ->
  exists s' live', rc_fail msg q s d = Some (-1, set_fs s' d) /\ vfs_ok s' live' /\ S (List.length live') = List.length live /\
    VFS_ROOT s' = VFS_ROOT s /\ (forall x, content (store s') x = content (store s) x).
Proof.
  intros [Hok Hb Ho]. destruct (release_held (puts msg s) q live) as (s' & live' & E & F & Hok' & Hl & Sh & Hc);
    [split; [by apply vfs_ok_puts | done | done] |].
  exists s', live'. unfold rc_fail. rewrite E. split; [done |]. split; [done |]. split; [done |].
  split; [by rewrite (framed_root _ _ F) | exact Hc].
Qed.

Lemma write_output_spec d live q nm c0 : held (fs d) q live -> RAMFS_ROOT (fs d) = VFS_ROOT (fs d) -> target (fs d) nm c0 ->
  Z.of_nat (List.length (program_of (ps d))) <= CC_CODE_MAX ->
  exists r d' live', write_output q nm d = Some (r, d') /\ ps d' = ps d /\ vfs_ok (fs d') live' /\ (r = 0 \/ r = -1) /\
    ((forall x c, content (store (fs d)) x = Some c -> content (store (fs d')) x = Some c) /\ short (2 * CC_CODE_MAX) 3 (hp (fs d)) \/
     r = 0 /\ exists p, compiled d d' nm (program_of (ps d)) c0 p).
Proof.
  intros Hh Hroot Ht Hlen. destruct (output_entry (fs d) live q nm c0 Hh Hroot Ht) as (p & s1 & live1 & E & F1 & Hh1 & Hkeep & Hcase).
  unfold write_output. rewrite E. cbn [mbind option_bind]. destruct Hcase as [(-> & Es & Hs) | ((j & Hj & K) & Hp & v & Hl & Hv & Hw & Hc & Hoth)].
  { cbn [Z.eqb]. destruct (fail_spec (str "rc:cannot create output file: " ++ nm ++ [10]) q s1 live1 d Hh1) as (s' & live' & Ef & Hok & _ & _ & Hc).
    eexists _, _, live'. split; [exact Ef |]. split; [done |]. split; [done |]. split; [by right |]. left.
    split; [intros x c Hx; cbn [fs set_fs]; rewrite Hc; auto |]. eapply short_le; [| | exact Hs]; unfold CC_CODE_MAX, SIZEOF_NODE; lia. }
  rewrite (proj2 (Z.eqb_neq p 0)) by done.
  destruct (write_held s1 live1 q p v c0 _ Hh1 Hv Hw Hc Hlen) as (r & s2 & live2 & Ew & F2 & Hh2 & Sh2 & Hoth2 & Hthis).
  rewrite Ew. cbn [mbind option_bind]. destruct (release_held s2 q live2 Hh2) as (s3 & live3 & -> & F3 & Hok3 & _ & Sh3 & Hc3).
  cbn [mbind option_bind]. set (s4 := puts _ (cc_print_uint _ _)).
  assert (Hsay : says s3 s4) by apply says_puts, says_uint, says_puts, says_refl. clearbody s4. destruct Hsay as [x4 ->].
  eexists _, _, live3. split; [reflexivity |]. split; [done |]. split; [by apply vfs_ok_ext |]. split; [by left |].
  destruct Hthis as [Hthis | [Hthis Hs]]; [right; split; [done |]; exists p | left].
  - split; cbn [fs set_fs store set_ext VFS_ROOT].
    + apply (finddir_lookup _ (VFS_ROOT s3)); [apply Hok3 |]. rewrite (framed_root _ _ F3), (framed_root _ _ F2).
      change (store (set_ext x4 s3)) with (store s3). rewrite <- Hl. etrans; [| apply (lookup_name_shape (store s1) (store s2)); exact Sh2].
      apply (lookup_name_shape (store s2)); exact Sh3.
    + by rewrite Hc3, Hthis, overlay_front.
    + intros x Hx. by rewrite Hc3, Hoth2, Hoth.
  - cbn [fs set_fs store set_ext]. split.
    + intros x c Hx. rewrite Hc3. destruct (decide (x = p)) as [-> | Hx']; [rewrite Hthis, <- Hc; auto | rewrite Hoth2, Hoth; auto].
    + eapply (short_le _ _ (j + 0)); [reflexivity | lia |]. eapply short_after; [| exact Hs].
      eapply (calls_le SIZEOF_NODE); [unfold SIZEOF_NODE, CC_CODE_MAX; lia | exact K].
Qed.

(** [s'] is [s] with a new buffer at [q] that has [text] and a NUL. *)
Record with_buffer s s' (q : Z) (l : list Z) : Prop := {
  wb_frame : framed s s';
  wb_fresh : store s !! q = None;
  wb_store : store s' = <[q := OBuf l]> (store s) }.

Lemma with_buffer_node s s' q l x : with_buffer s s' q l -> node_in (store s') x = node_in (store s) x.
Proof. intros [_ Hq ->]. unfold node_in. rewrite lookup_insert. case_decide as E; [subst x; by rewrite Hq | done]. Qed.

Lemma with_buffer_content s s' q l x : files_ok (store s) -> with_buffer s s' q l -> content (store s') x = content (store s) x.
Proof.
  intros Hf [_ Hq Es]. destruct (files_ok_fresh (store s) q l Hf Hq) as [_ Ho]. rewrite <- Es in Ho.
  rewrite <- (content_delete (store s') q l x) by (done || rewrite Es; by rewrite lookup_insert_eq).
  by rewrite Es, delete_insert_id.
Qed.

Lemma with_buffer_held s s' q l live live' : vfs_ok s live -> heap_ok s' live' -> with_buffer s s' q l -> held s' q live'.
Proof.
  intros [Hh Ht Hf] Hh' [F Hq Es]. destruct (files_ok_fresh (store s) q l Hf Hq) as [Hf' Ho]. rewrite <- Es in Hf', Ho.
  split; [split; [done | | done] | rewrite Es; exists l; by rewrite lookup_insert_eq | done].
  rewrite (framed_root _ _ F). apply (tree_ok_shape (store s)); [rewrite Es; by apply same_shape_fresh | by apply (ho_null _ _ Hh') | done].
Qed.

Lemma with_buffer_target s s' q l nm c : files_ok (store s) -> with_buffer s s' q l -> target s nm c -> target s' nm c.
Proof.
  intros Hf Hw Ht. pose proof Hw as [F Hq Es]. pose proof (framed_root _ _ F) as Er.
  assert (Sh : same_shape (store s) (store s')) by (rewrite Es; by apply same_shape_fresh).
  assert (Em : RAMFS_ROOT s' = RAMFS_ROOT s) by (unfold framed in F; by rewrite F).
  destruct Ht as [p v c Hl Hp Hv Hr Hwr Hc | v Hl Hroot Hnm Hv Hd Hch].
  - apply (target_file s' nm p v); try done; rewrite ?Er.
    + by rewrite (lookup_name_shape (store s)).
    + by rewrite (with_buffer_node s s' q l).
    + by rewrite (with_buffer_content s s' q l).
  - apply (target_new s' nm v); try done; rewrite ?Er, ?Em; try done.
    + by rewrite (lookup_name_shape (store s)).
    + unfold node_at in *. by rewrite (with_buffer_node s s' q l).
Qed.

(** Reading the source: its text, with a buffer of it on the heap. *)
Lemma source_spec s live p v c : vfs_ok s live -> node_in (store s) p = Some v -> p <> 0 -> read_fn v = Some RamfsRead ->
  content (store s) p = Some c -> sized v c = true -> Z.of_nat (List.length c) < 2 ^ 31 ->
  exists q s1, alloc (n_size v + 1) (OBuf (replicate (Z.to_nat (n_size v + 1)) 0)) s = Some (q, s1) /\
    ((q = 0 /\ s1 = set_hp (hp s1) s /\ vfs_ok s1 live /\ short (Z.of_nat (List.length c) + 1) 0 (hp s)) \/
     q <> 0 /\ calls (Z.of_nat (List.length c) + 1) 1 (hp s) (hp s1) /\
     exists s2 s3 live1 l, Vfs.read p 0 (n_size v) s1 = Some (Z.of_nat (List.length c), c, s1) /\
       buf_write q 0 c s1 = Some s2 /\ buf_write q (Z.of_nat (List.length c)) [0] s2 = Some s3 /\
       buf_read q 0 (Z.of_nat (List.length c)) s3 = Some c /\ with_buffer s s3 q l /\ held s3 q live1 /\ hp s3 = hp s1).
Proof.
  intros Hok Hv Hp Hr Hc Hsz Hlen. pose proof Hok as [Hh Ht Hf]. unfold sized in Hsz. apply Z.eqb_eq in Hsz. rewrite Hsz.
  set (n := Z.of_nat (List.length c)) in *. set (b0 := replicate _ _). assert (Hb0 : List.length b0 = Z.to_nat (n + 1)) by apply length_replicate.
  clearbody b0. destruct (alloc_spec (n + 1) (OBuf b0) s live Hh) as (q & h & E & Hcase); [lia |].
  eexists q, _. split; [exact E |]. destruct Hcase as [(-> & Em & Hh1) | (Hq & Hfree & z & live1 & P1 & Hh1)].
  { left. cbn [Z.eqb]. split; [done |]. split; [done |]. split; [by split | by apply (short_now _ (n + 1) _ h); [lia |]]. }
  right. split; [done |]. split; [by apply (alloc_calls (n + 1) _ _ _ _ _ E); lia |].
  rewrite (proj2 (Z.eqb_neq q 0)) in * by done. set (s1 := put q _ _) in *.
  assert (L1 : store s1 !! q = Some (OBuf b0)) by (cbn; by rewrite lookup_insert_eq).
  pose proof (holds_fresh (store s) p v c q (OBuf b0) (holds_content _ _ _ _ Hf Hv Hc) Hfree) as Hhold.
  eexists _, _, live1, _. split.
  { rewrite (read_holds s1 p v c n) by (done || lia). unfold n. by rewrite Nat2Z.id, firstn_all. }
  split; [apply (buf_write_at q s1 b0 0 c L1); lia |].
  rewrite splice_front by lia. set (l1 := c ++ _).
  assert (Hl1 : Z.of_nat (List.length l1) = n + 1) by (unfold l1; rewrite length_app, length_drop; lia).
  split; [apply (buf_write_at q _ l1); [cbn; by rewrite lookup_insert_eq | lia | cbn; lia] |].
  fold l1. set (l2 := splice (Z.to_nat n) [0] l1). set (s3 := put q (OBuf l2) _).
  assert (Es : store s3 = <[q := OBuf l2]> (store s)) by (unfold s3, put, s1; cbn; by rewrite !insert_insert_eq).
  split.
  { rewrite (buf_read_take q s3 l2); [| by rewrite Es, lookup_insert_eq | unfold l2; rewrite length_splice; cbn; lia]. f_equal.
    unfold l2, splice, l1, n. rewrite Nat2Z.id, (take_app_le c), (take_ge c) by lia. by rewrite take_app_le, take_ge by lia. }
  assert (W : with_buffer s s3 q l2) by (split; [by apply framed_put, framed_put, framed_put, framed_hp, framed_refl | done | done]).
  split; [exact W |]. split; [| done]. apply (with_buffer_held s s3 q l2 live); [done | | done].
  apply (heap_ok_store s1); [done | done |]. rewrite Es. cbn. by rewrite !dom_insert.
Qed.

Lemma program_length p : ok p -> Z.of_nat (List.length (program_of p)) <= CC_CODE_MAX.
Proof.
  intros Ho. pose proof (ok_em _ Ho) as [Hl Hp]. unfold program_of, Emit.size, Emit.code. rewrite length_take. lia.
Qed.

Definition refused (r1 : Z) (p1 : pstate) : bool := (r1 <? 0) || Emit.had_overflow (em p1).

Lemma compile_loaded_spec addr src output q c c0 d live r1 p1 : held (fs d) q live -> compile_text addr c (ps d) = Some (r1, p1) ->
  ok p1 -> RAMFS_ROOT (fs d) = VFS_ROOT (fs d) -> no_nul src -> Z.of_nat (List.length src) < 2 ^ 31 ->
  target (fs d) (out_name src output) c0 ->
  exists r d' live', compile_loaded addr src output q c d = Some (r, d') /\ ps d' = p1 /\ vfs_ok (fs d') live' /\ (r = 0 \/ r = -1) /\
    ((forall x a, content (store (fs d)) x = Some a -> content (store (fs d')) x = Some a) /\ short (2 * CC_CODE_MAX) 3 (hp (fs d)) \/
     if refused r1 p1 then r = -1 /\ (forall x, content (store (fs d')) x = content (store (fs d)) x)
     else r = 0 /\ exists p, compiled d d' (out_name src output) (emitted (em p1)) c0 p).
Proof.
  intros Hh Ec Ho Hroot Hn Hl Ht. unfold compile_loaded, refused. rewrite Ec. cbn [mbind option_bind ps set_ps].
  assert (Hfail : forall msg, exists r d' live', rc_fail msg q (fs (set_ps p1 d)) (set_ps p1 d) = Some (r, d') /\ ps d' = p1 /\
    vfs_ok (fs d') live' /\ r = -1 /\ (forall x, content (store (fs d')) x = content (store (fs d)) x)).
  { intros msg. destruct (fail_spec msg q (fs d) live (set_ps p1 d) Hh) as (s' & live' & E & Hok' & _ & _ & Hc).
    exists (-1), (set_fs s' (set_ps p1 d)), live'. split; [exact E |]. split; [reflexivity |]. split; [exact Hok' |]. split; [reflexivity | exact Hc]. }
  destruct (r1 <? 0); cbn [orb].
  { destruct (Hfail (str "rc:compilation failed" ++ [10])) as (r & d' & live' & E & Ep & Hok' & -> & Hc).
    exists (-1), d', live'. split; [exact E |]. split; [exact Ep |]. split; [exact Hok' |]. split; [by right |]. right. by split. }
  destruct (Emit.had_overflow (em p1)).
  { destruct (Hfail (str "rc:error: code buffer overflow (output too large)" ++ [10])) as (r & d' & live' & E & Ep & Hok' & -> & Hc).
    
    exists (-1), d', live'. split; [exact E |]. split; [exact Ep |]. split; [exact Hok' |]. split; [by right |]. right. by split. }
  assert (Enm : match output with None => out ← derive_output_name src (replicate 64 0) 64; Some (cstr out) | Some nm => Some nm end
    = Some (out_name src output)).
  { destruct output as [nm |]; [done |]. destruct (derive_output_name_spec src Hn Hl) as (out & -> & E). cbn [mbind option_bind]. by rewrite E. }
  rewrite Enm. cbn [mbind option_bind].
  destruct (write_output_spec (set_ps p1 d) live q (out_name src output) c0 Hh Hroot Ht (program_length p1 Ho)) as (r & d' & live' & E & Ep & Hok & Hr & Hcase).
  exists r, d', live'. split; [exact E |]. split; [exact Ep |]. split; [done |]. split; [done |].
  destruct Hcase as [Hcase | (-> & p & [C1 C2 C3])]; [by left | right]. split; [reflexivity |]. exists p. split; [exact C1 | exact C2 | exact C3].
Qed.

(** C39: The driver puts the compiler and the files together.  From a source in a RAM
    file of the root directory, whose node has its size, to an output there that is a
    RAM file, or a name of at most 63 bytes that is not there while the root has room,
    with the statics of the compiler as any earlier run left them, [rc_compile] ends
    with 0 or -1.  It compiles the text of the source; when the parser or the lexer has
    reported an error, or the code does not fit its buffer, the answer is -1 and every
    file is as it was; otherwise it is 0 and the output, whose name is the one given or
    the source's with its extension replaced, holds the program, followed by what an
    older, longer file had past it, and every other file is as it was.  The exception is
    a heap that refuses one of the first areas asked for: no existing file changes then.
    The file system and the compiler are left fit for the next run.  (An output that is
    a directory, or a file of the initrd, is not written, and the answer is 0 all the
    same: [output_is_directory] below.) *)
Theorem rc_compile_correct addr src output d live c c0 : vfs_ok (fs d) live -> ok (ps d) -> RAMFS_ROOT (fs d) = VFS_ROOT (fs d) ->
  no_nul src -> Z.of_nat (List.length src) < 2 ^ 31 -> stored (fs d) src (Some c) -> target (fs d) (out_name src output) c0 ->
  exists r1 p1 r d' live', compile_text addr c (ps d) = Some (r1, p1) /\
    rc_compile addr src output d = Some (r, d') /\ (r = 0 \/ r = -1) /\ vfs_ok (fs d') live' /\ ok (ps d') /\
    ((forall x a, content (store (fs d)) x = Some a -> content (store (fs d')) x = Some a) /\
       short (Z.max (2 * CC_CODE_MAX) (Z.of_nat (List.length c) + 1)) 4 (hp (fs d)) \/
     if refused r1 p1 then r = -1 /\ (forall x, content (store (fs d')) x = content (store (fs d)) x)
     else r = 0 /\ exists p, compiled d d' (out_name src output) (emitted (em p1)) c0 p).
Proof.
  intros Hok Ho Hroot Hn Hl Hst Ht. inversion Hst as [| p v c' El Hp Hv Hr Hc Hsz Hlen]; subst.
  destruct (set_up_ok addr c (ps d) Ho) as (p0 & E0 & H0'). destruct (parse_program_wp p0 H0') as (r1 & p1 & E1 & Hok1 & _ & _).
  assert (Ec : compile_text addr c (ps d) = Some (r1, p1)) by (unfold compile_text; by rewrite E0).
  exists r1, p1. unfold rc_compile. rewrite (finddir_lookup _ _ _ _ p (vo_tree _ _ Hok) El). cbn [mbind option_bind].
  rewrite (proj2 (Z.eqb_neq p 0)) by done. unfold node_at. rewrite Hv. cbn [mbind option_bind].
  destruct (source_spec (fs d) live p v c Hok Hv Hp Hr Hc Hsz Hlen) as (q & s1 & Ea & Hcase). rewrite Ea. cbn [mbind option_bind].
  destruct Hcase as [(-> & Es & Hok' & Hs) | (Hq & K & s2 & s3 & live1 & l & Er & Ew & Ew2 & Eb & W & Hh & Ehp)].
  { cbn [Z.eqb]. eexists _, _, live. split; [exact Ec |]. split; [reflexivity |]. split; [by right |]. split; [by apply vfs_ok_puts |].
    split; [exact Ho |]. left. split; [intros x a Hx; cbn; by rewrite Es |]. eapply short_le; [| | exact Hs]; lia. }
  rewrite (proj2 (Z.eqb_neq q 0)) by done. rewrite Er. cbn [mbind option_bind]. rewrite (proj2 (Z.ltb_ge _ 0)) by lia.
  rewrite Ew. cbn [mbind option_bind]. rewrite Ew2. cbn [mbind option_bind]. rewrite Eb. cbn [mbind option_bind].
  pose proof (vo_files _ _ Hok) as Hf. pose proof (wb_frame _ _ _ _ W) as F.
  destruct (compile_loaded_spec addr src output q c c0 (set_fs s3 d) live1 r1 p1 Hh Ec Hok1) as (r & d' & live' & E & Ep & Hok' & Hr' & Hcase).
  { cbn [fs set_fs]. rewrite (framed_root _ _ F). unfold framed in F. rewrite F. exact Hroot. }
  { exact Hn. }
  { exact Hl. }
  { exact (with_buffer_target (fs d) s3 q l _ _ Hf W Ht). }
  exists r, d', live'. split; [exact Ec |]. split; [exact E |]. split; [exact Hr' |]. split; [exact Hok' |]. split; [by rewrite Ep |].
  cbn [fs set_fs] in *. destruct Hcase as [[Hkeep Hs] | Hcase]; [left | right].
  - split; [intros x a Hx; apply Hkeep; by rewrite (with_buffer_content _ _ _ _ _ Hf W) |]. rewrite Ehp in Hs.
    apply (short_le (Z.max (2 * CC_CODE_MAX) (Z.of_nat (List.length c) + 1)) _ (1 + 3)); [done | done |].
    eapply short_after; [eapply calls_le; [| exact K]; lia |]. eapply short_le; [| | exact Hs]; lia.
  - destruct (refused r1 p1).
    + destruct Hcase as [-> Hcase]. split; [done |]. intros x. by rewrite Hcase, (with_buffer_content _ _ _ _ _ Hf W).
    + destruct Hcase as [-> (p' & [C1 C2 C3])]. split; [done |]. exists p'. split; [done | done |].
      intros x Hx. rewrite C3 by done. exact (with_buffer_content _ _ _ _ _ Hf W).
Qed.

(** ** [compile] and [run_program] *)

(** Afterwards the base is the first one again, whatever it was. *)
Lemma compile_base addr src d r d' : compile addr src d = Some (r, d') -> LOAD_BASE (em (ps d')) = CC_LOAD_BASE.
Proof. unfold compile. destruct (rc_compile _ _ _ _) as [[? ?] |]; [| done]. cbn [mbind option_bind]. by intros [= _ <-]. Qed.

Lemma set_base_ok base d : ok (ps d) -> ok (ps (set_base base d)).
Proof. intros [? [? ?] ? ? ? ? ? ?]. by split. Qed.

(** The bytes of the file are what is at the load address; no file, or an empty one,
    is -1. *)
Lemma load_program_spec s live nm t : vfs_ok s live -> stored s nm t ->
  load_program nm s = Some (match t with Some (_ :: _) => t | _ => None end, s).
Proof.
  intros [Hh Ht Hf] [El | p v c El Hp Hv Hr Hc Hsz Hlen]; unfold load_program.
  - rewrite (finddir_lookup _ _ _ _ 0 Ht El). done.
  - rewrite (finddir_lookup _ _ _ _ p Ht El). cbn [mbind option_bind]. rewrite (proj2 (Z.eqb_neq p 0)) by done.
    unfold sized in Hsz. apply Z.eqb_eq in Hsz.
    unfold node_at. rewrite Hv. cbn [mbind option_bind]. rewrite Hsz. destruct c as [| b c]; [done |].
    rewrite (proj2 (Z.eqb_neq _ 0)) by (cbn [List.length]; lia).
    rewrite (read_holds s p v (b :: c)) by (done || lia || by apply holds_content).
    cbn [mbind option_bind]. rewrite Nat2Z.id, firstn_all. rewrite (proj2 (Z.leb_gt _ 0)) by (cbn [List.length]; lia). done.
Qed.

Lemma run_program_spec run s live nm c : vfs_ok s live -> stored s nm (Some c) -> c <> [] -> run_program run nm s = run c s.
Proof.
  intros Hok Hs Hc. unfold run_program. rewrite (load_program_spec s live nm (Some c) Hok Hs). by destruct c.
Qed.
End driver.

(** ** A source on the desk *)

Definition desk_created : vfs bump desk := match create_file (Some (str "a.rs")) (desk_vfs []) with Some (_, s) => s | None => desk_vfs [] end.
Definition desk_source : vfs bump desk :=
  match finddir (VFS_ROOT desk_created) (str "a.rs") desk_created with
  | Some (p, s) => match Vfs.write p 0 demo_source s with Some (_, s) => s | None => s end
  | None => desk_created
  end.

Lemma desk_name : name_ok (str "a.rs").
Proof. split; [by repeat constructor | cbn; lia]. Qed.
Lemma desk_no_source : lookup_name (store (desk_vfs [])) (VFS_ROOT (desk_vfs [])) (str "a.rs") = Some 0.
Proof. vm_compute. reflexivity. Qed.

Lemma desk_created_ok : exists live p v, vfs_ok desk_created live /\ lookup_name (store desk_created) (VFS_ROOT desk_created) (str "a.rs") = Some p /\
  p <> 0 /\ node_in (store desk_created) p = Some v /\ read_fn v = Some RamfsRead /\ write_fn v = Some RamfsWrite /\ content (store desk_created) p = Some [].
Proof.
  destruct (create_file_spec (desk_vfs []) [(0x500000, SIZEOF_NODE)] (VFS_ROOT (desk_vfs [])) demo_root (str "a.rs") (desk_ok [])
    demo_root_at eq_refl desk_name desk_no_source) as (p & s1 & live1 & E & F1 & Hcase).
  destruct Hcase as [(_ & _ & _ & _ & [Hx | Hx]) | (f & b & _ & Hcr)].
  - cbn in Hx. lia.
  - exfalso. revert Hx. apply bump_not_short; vm_compute; done.
  - destruct (created_ok _ _ _ _ _ s1 live1 p f b (desk_ok []) demo_root_at eq_refl desk_name desk_no_source F1 Hcr) as (Hok1 & _ & Hl1 & Hc1).
    assert (Es : desk_created = s1) by (unfold desk_created, create_file; change (RAMFS_ROOT (desk_vfs [])) with (VFS_ROOT (desk_vfs [])); by rewrite E).
    rewrite Es. exists live1, p, (set_parent (VFS_ROOT (desk_vfs [])) (file_node (str "a.rs") (PRam f))).
    split; [exact Hok1 |]. split; [by rewrite (framed_root _ _ F1) |]. split; [apply (cr_ne0 _ _ _ _ _ _ _ _ _ _ Hcr) |].
    split; [rewrite (cr_store _ _ _ _ _ _ _ _ _ _ Hcr); unfold node_in, linked; by rewrite lookup_insert_eq |].
    split; [done |]. split; [done |]. by rewrite Hc1, decide_True.
Qed.

Lemma desk_source_ok : exists live, vfs_ok desk_source live /\ stored desk_source (str "a.rs") (Some demo_source).
Proof.
  destruct desk_created_ok as (live & p & v & Hok & Hl & Hp & Hv & Hr & Hw & Hc). pose proof Hok as [Hh Ht Hf].
  destruct (ramfs_write_spec desk_created live p v [] 0 demo_source Hh Hf Hv Hc) as (s1 & live1 & Hh1 & _ & Hf1 & Hcase); [lia | by vm_compute |].
  destruct Hcase as [[E Hrw] | (_ & _ & _ & _ & Hx)]; [| exfalso; revert Hx; apply bump_not_short; vm_compute; done].
  pose proof (rewritten_untouched desk_created s1 p v _ Hv Hrw) as [F Sh _]. pose proof (framed_root _ _ F) as Er.
  assert (Es : desk_source = s1).
  { unfold desk_source. rewrite (finddir_lookup _ _ _ _ p Ht Hl). unfold Vfs.write. rewrite (proj2 (Z.eqb_neq p 0)) by done.
    unfold node_at. rewrite Hv. cbn [mbind option_bind]. by rewrite Hw, E. }
  rewrite Es. exists live1. split; [split; [done | | done] |].
  - rewrite Er. apply (tree_ok_shape (store desk_created)); [done | apply (ho_null _ _ Hh1) | done].
  - apply (stored_file _ _ p (set_size (Z.of_nat (List.length (overlay 0 demo_source []))) v)).
    + rewrite Er, (lookup_name_shape (store desk_created)); [exact Hl | exact Sh].
    + exact Hp.
    + by rewrite (rw_node _ _ _ _ _ Hrw), decide_True.
    + exact Hr.
    + by rewrite (rw_content _ _ _ _ _ Hrw), decide_True.
    + by vm_compute.
    + by vm_compute.
Qed.

Lemma desk_output : target desk_source (out_name (str "a.rs") None) [].
Proof.
  assert (E : out_name (str "a.rs") None = str "a.bin") by (vm_compute; reflexivity). rewrite E.
  assert (Er : (fun v => (is_dir v, List.length (children v))) <$> node_at (VFS_ROOT desk_source) desk_source = Some (true, 1%nat))
    by (vm_compute; reflexivity).
  destruct (node_at (VFS_ROOT desk_source) desk_source) as [v |] eqn:Ev; [| discriminate]. cbn in Er. injection Er as Ed El.
  apply (target_new _ _ v); [by vm_compute | by vm_compute | split; [by repeat constructor | cbn; lia] | exact Ev | exact Ed | lia].
Qed.

Lemma rc_compile_correct_witness : exists d' p1 p, rc_compile (fun _ => 0x100000) (str "a.rs") None (Rc desk_source initial_state) = Some (0, d') /\
  compile_text (fun _ => 0x100000) demo_source initial_state = Some (0, p1) /\
  finddir (VFS_ROOT (fs d')) (str "a.bin") (fs d') = Some (p, fs d') /\ content (store (fs d')) p = Some (emitted (em p1)).
Proof.
  destruct desk_source_ok as (live & Hok & Hst).
  destruct (rc_compile_correct (fun _ => 0x100000) (str "a.rs") None (Rc desk_source initial_state) live demo_source []) as
    (r1 & p1 & r & d' & live' & Ec & E & _ & _ & _ & Hcase); [exact Hok | exact initial_ok | by vm_compute | by repeat constructor | by vm_compute |
    exact Hst | exact desk_output |].
  assert (Er : (fun x => (x.1, refused x.1 x.2)) <$> compile_text (fun _ => 0x100000) demo_source initial_state = Some (0, false)) by (vm_compute; reflexivity).
  cbn [ps] in Ec. rewrite Ec in Er. cbn [fmap option_fmap option_map fst snd] in Er. injection Er as Er1 Er2. subst r1.
  destruct Hcase as [[_ Hx] | Hcase].
  - exfalso. revert Hx. apply bump_not_short; vm_compute; done.
  - rewrite Er2 in Hcase. destruct Hcase as [-> (p & [C1 C2 _])]. exists d', p1, p. split; [exact E |]. split; [exact Ec |].
    split; [exact C1 |]. rewrite C2. by rewrite drop_nil, app_nil_r.
Defined.

(** ** What the reading of the driver showed *)

(** A source without an extension other than [.bin] is overwritten by its program. *)
Example own_name : out_name (str "boot.bin") None = str "boot.bin".
Proof. vm_compute. reflexivity. Qed.
(** Two sources with the same 59 first bytes share their output. *)
Example cut_name : out_name (replicate 59 97 ++ str "1.rs") None = out_name (replicate 59 97 ++ str "2.rs") None.
Proof. vm_compute. reflexivity. Qed.

(** The desk with a directory in the place of the output: nothing is stored. *)
Definition desk_output_dir : vfs bump desk :=
  match create_dir (Some (str "a.bin")) desk_source with Some (_, s) => s | None => desk_source end.

Example output_is_directory :
  ('(r, d) ← rc_compile (fun _ => 0x100000) (str "a.rs") None (Rc desk_output_dir initial_state);
   '(p, s) ← finddir (VFS_ROOT (fs d)) (str "a.bin") (fs d);
   v ← node_at p s;
   Some (r, is_dir v, content (store s) p)) = Some (0, true, None).
Proof. vm_compute. reflexivity. Qed.
