(* ===== verification/Shell.v ===== *)
(** The shell ([src/src/shell.rs]): one line read, one command run.

    The console, the files, the editor, the compiler, the scheduler and the page
    allocator are the models of their own files; the network services are interfaces
    (instances at the end), and so are the console's extras.  A run of a program is the
    argument [exec].  Loops that go on until something outside ends them have [fuel]. *)
From Stdlib Require Import String.
From S2P Require Import Prelude StringRs ParseState Waiting NetWire Ipv4 Tcp Udp Dns Net Pmm Sync Vmm Heap Thread Elf VfsNode Ramfs Initrd Devfs Fat16Vfs Vfs Term Editor Driver.

(** What the shell calls besides: [vga::clear] and the mirror flag. *)
Class ShellScreen (X : Type) := { clear : X -> X; get_mirror : X -> bool; set_mirror : bool -> X -> X }.

(** [dns::resolve]: the address, if any. *)
Class Names (K : Type) := ns_resolve : list Z -> K -> option (option Z * K).
(** [tcp::connect], [send], [recv] and [close]. *)
Class Streams (K : Type) := {
  t_connect : Z -> Z -> K -> option (Z * K);
  t_send : Z -> list Z -> Z -> K -> option (Z * K);
  t_recv : Z -> Z -> Z -> K -> option (list Z * K);
  t_close : Z -> K -> option K }.
(** [icmp::send_echo_request], [icmp::got_reply] (id, sequence number, address), the
    clock, [hlt] and [timer::wait]. *)
Class Pings (K : Type) := {
  e_send : Z -> Z -> Z -> K -> K;
  e_got : K -> option (Z * Z * Z) * K;
  e_ticks : K -> Z;
  e_halt : K -> option K;
  e_wait : Z -> K -> option K }.

Inductive arch := X86 | X86_64.

Definition INPUT_SIZE : Z := 256.

(** ** Helpers *)

(** [while *p >= b'0' && *p <= b'9']; wraps like the release build. *)
Fixpoint octet_digits (p : list Z) (octet : Z) : Z * list Z :=
  match p with
  | c :: p' => if (48 <=? c) && (c <=? 57) then octet_digits p' (u32 (u32 (octet * 10) + (c - 48))) else (octet, p)
  | [] => (octet, [])
  end.

(** [for i in i..4], [n] rounds left; [p] is what remains of the C string. *)
Fixpoint parse_octets (n : nat) (p : list Z) (ip : Z) : Z :=
  match n with
  | O => ip
  | S n =>
      match p with
      | c :: _ =>
          if (c <? 48) || (57 <? c) then 0 else
          let '(octet, p) := octet_digits p 0 in
          if 255 <? octet then 0 else
          let ip := Z.lor (u32 (Z.shiftl ip 8)) octet in
          match n with
          | O => ip
          | S _ => match p with c :: p => if c =? 46 then parse_octets n p ip else 0 | [] => 0 end
          end
      | [] => 0
      end
  end.
Definition parse_ip (s : list Z) : Z := parse_octets 4 s 0.

(** [strchr(p, ' ')], as an offset. *)
Definition find_space (p : list Z) : option nat := fst <$> list_find (fun c => c = 32) p.

Definition elf_message (e : elf_error) : list Z :=
  str match e with
  | TooSmall => "ELF: file too small"
  | BadMagic => "ELF: bad magic"
  | NotLittleEndian => "ELF: not little-endian"
  | UnsupportedClass => "ELF: unsupported class"
  | TooSmall32 => "ELF: file too small for ELF32 header"
  | TooSmall64 => "ELF: file too small for ELF64 header"
  | NotExecutable => "ELF: not executable"
  | NotI386 => "ELF: not i386"
  | NotX86_64 => "ELF: not x86_64"
  | NoProgramHeaders => "ELF: no program headers"
  | SegmentPastFile => "ELF: segment extends past file"
  | OutOfMemory => "ELF: out of memory"
  | NoLoadableSegments => "ELF: no loadable segments"
  end.

Section shell.
Context {H X K : Type} `{KernelHeap H} `{Console X} `{Colors X} `{ShellScreen X} `{FatDisk X}.
Context `{Names K} `{Streams K} `{Pings K} `{AddressSpace K}.

(** The statics: the line; files and console; those of the editor and the compiler;
    scheduler; pages; the break of the running program; network and memory. *)
Record shell := Sh {
  INPUT : list Z; INPUT_LEN : Z;
  fs : vfs H X;
  LINES : list (list Z); LINE_COUNT : Z; EDIT_FILENAME : list Z;
  cc : pstate;
  sc : sched H; pm : pmm; CURRENT_BRK : Z;
  net : K }.
Implicit Types s : shell.

Definition set_input (l : list Z) (n : Z) s : shell :=
  Sh l n (fs s) (LINES s) (LINE_COUNT s) (EDIT_FILENAME s) (cc s) (sc s) (pm s) (CURRENT_BRK s) (net s).
Definition set_fs (f : vfs H X) s : shell :=
  Sh (INPUT s) (INPUT_LEN s) f (LINES s) (LINE_COUNT s) (EDIT_FILENAME s) (cc s) (sc s) (pm s) (CURRENT_BRK s) (net s).
Definition set_editor (e : ed H X) s : shell :=
  Sh (INPUT s) (INPUT_LEN s) (Editor.fs e) (Editor.LINES e) (Editor.LINE_COUNT e) (Editor.EDIT_FILENAME e) (cc s) (sc s) (pm s)
    (CURRENT_BRK s) (net s).
Definition set_cc (p : pstate) s : shell :=
  Sh (INPUT s) (INPUT_LEN s) (fs s) (LINES s) (LINE_COUNT s) (EDIT_FILENAME s) p (sc s) (pm s) (CURRENT_BRK s) (net s).
Definition set_sc (k : sched H) s : shell :=
  Sh (INPUT s) (INPUT_LEN s) (fs s) (LINES s) (LINE_COUNT s) (EDIT_FILENAME s) (cc s) k (pm s) (CURRENT_BRK s) (net s).
Definition set_brk (b : Z) s : shell :=
  Sh (INPUT s) (INPUT_LEN s) (fs s) (LINES s) (LINE_COUNT s) (EDIT_FILENAME s) (cc s) (sc s) (pm s) b (net s).
Definition set_net (k : K) s : shell :=
  Sh (INPUT s) (INPUT_LEN s) (fs s) (LINES s) (LINE_COUNT s) (EDIT_FILENAME s) (cc s) (sc s) (pm s) (CURRENT_BRK s) k.

Definition on_fs (f : vfs H X -> vfs H X) s : shell := set_fs (f (fs s)) s.
Definition say (t : list Z) s : shell := on_fs (puts t) s.
Definition print_uint (v : Z) s : shell := on_fs (Term.print_uint v) s.
(** [vga::puts] of bytes that may hold a NUL. *)
Definition say_bytes (l : list Z) s : shell := on_fs (cputs l) s.

(** [INPUT[from..INPUT_LEN]], as a slice and as the C string that starts there. *)
Definition rest (from : Z) s : list Z := slice (Z.to_nat from) (Z.to_nat (INPUT_LEN s - from)) (INPUT s).
Definition arg (from : Z) s : list Z := cstr (drop (Z.to_nat from) (INPUT s)).

(** [INPUT[INPUT_LEN] = 0] *)
Definition terminate s : option shell := l ← zset (INPUT s) (INPUT_LEN s) 0; Some (set_input l (INPUT_LEN s) s).

Definition shell_prompt s : shell :=
  on_fs (paint LightGrey Black) (say (str "> ") (on_fs (paint LightGreen Black) s)).

Definition is_enter (c : Z) : bool := (c =? 10) || (c =? 13).
Definition is_erase (c : Z) : bool := (c =? 8) || (c =? 127).
Definition shell_readline (fuel : nat) s : option shell :=
  '(buf, len, f) ← read_line fuel is_enter is_erase INPUT_SIZE (INPUT s) 0 (fs s);
  Some (set_fs f (set_input buf len s)).

(** ** Commands without files *)

Definition HELP : list string := [
  "Available commands:";
  "  help    - show this message";
  "  clear   - clear the screen";
  "  echo    - echo text (usage: echo <text>)";
  "  ls      - list files and directories";
  "  cat     - print file contents (usage: cat <path>)";
  "  mem     - show memory usage";
  "  ping    - ping an IP or hostname (usage: ping <ip|host>)";
  "  resolve - resolve a hostname (usage: resolve <hostname>)";
  "  touch   - create an empty file (usage: touch <name>)";
  "  write   - write text to a file (usage: write <name> <text>)";
  "  edit    - text editor (usage: edit <filename>)";
  "  rc      - compile a Rust source file (usage: rc <file.rs>)";
  "  run     - run compiled program (usage: run <binary>)";
  "  tcp     - TCP client (usage: tcp <ip|host> <port>)";
  "  http    - HTTP GET (usage: http <ip|host> [path])";
  "  save    - save file to disk (usage: save <filename>)";
  "  load    - load file from disk (usage: load <filename>)";
  "  threads - show active kernel threads";
  "  spawn   - spawn a background test thread";
  "  mirror  - toggle serial mirroring of VGA output";
  "  reboot  - reboot the system" ]%string.
Definition cmd_help s : shell := fold_left (fun s m => say (str m ++ [10]) s) HELP s.

Definition cmd_echo s : shell := say [10] (if 5 <? INPUT_LEN s then say_bytes (rest 5 s) s else s).

(** [heap::get_free] *)
Variable heap_free : H -> Z.

Definition say_pages (label : string) (n : Z) s : shell :=
  let s := print_uint n (say (str label) s) in
  let s := print_uint (u32 (n * 4) / 1024) (say (str " pages (") s) in
  say (str " MB)" ++ [10]) s.

Definition cmd_mem s : shell :=
  let total := get_total_pages (pm s) in
  let free_pages := get_free_pages (pm s) in
  let used := u32 (total - free_pages) in
  let heap_free := heap_free (hp (fs s)) in
  let s := say (str "Physical memory:" ++ [10]) s in
  let s := say_pages "  Used:  " used (say_pages "  Free:  " free_pages (say_pages "  Total: " total s)) in
  let s := print_uint (heap_free / 1024) (say (str "  Free:  ") (say (str "Heap (0x00500000):" ++ [10]) s)) in
  say (str " KB" ++ [10]) s.

(** ** Threads *)

Definition STATE_NAMES (st : ThreadState) : list Z :=
  str match st with Ready => "READY" | Running => "RUNNING" | Blocked => "BLOCKED" | Dead => "DEAD" end.

Definition show_thread (s : shell) (i : nat) : shell :=
  match Thread.get (Z.of_nat i) (sc s) with
  | None => s
  | Some t =>
      if decide (state t = Dead) then s else
      say [10] (say (STATE_NAMES (state t)) (say (str "   ") (print_uint (id t) s)))
  end.

Definition cmd_threads s : shell :=
  let s := say (str "--  -------" ++ [10]) (say (str "ID  State" ++ [10]) s) in
  let s := fold_left show_thread (seq 0 MAX_THREADS) s in
  say [10] (print_uint (Thread.get_count (sc s)) (say (str "Active threads: ") s)).

(** The scheduler works on the one kernel heap. *)
Definition with_heap (h : H) (k : sched H) : sched H :=
  Sched (THREADS k) (CURRENT_THREAD k) (NEXT_ID k) (PENDING_FREE_STACK k) (t_mem k) (t_rflags k) h.

(** The addresses of [thread::exit] and of the test thread. *)
Variables (exit_fn test_thread : Z).

Definition cmd_spawn s : option shell :=
  '(tid, k) ← Thread.create exit_fn test_thread (with_heap (hp (fs s)) (sc s));
  let s := set_sc k (on_fs (set_hp (t_heap k)) s) in
  if tid <? 0 then Some (say (str "Failed to create thread (table full)" ++ [10]) s) else
  Some (say [10] (print_uint (u32 tid) (say (str "Spawned thread ") s))).

(** [test_thread_func_c], when it is thread [tid]; [n] rounds are left. *)
Fixpoint test_rounds (n : nat) (tid i : Z) s : option shell :=
  match n with
  | O => Some (say (str "] done" ++ [10]) (print_uint tid (say (str "[thread ") s)))
  | S n =>
      let s := print_uint i (say (str "] tick ") (print_uint tid (say (str "[thread ") s))) in
      let s := say [10] s in
      k ← e_wait 50 (net s); test_rounds n tid (i + 1) (set_net k s)
  end.
Definition test_thread_func_c s : option shell := tid ← Thread.get_current (sc s); test_rounds 5 (u32 tid) 0 s.

(** ** Network *)

(** An address, or the name server's answer for a name. *)
Definition host_ip (host : list Z) s : option (option Z * shell) :=
  let ip := parse_ip host in
  if negb (ip =? 0) then Some (Some ip, s) else
  '(r, k) ← ns_resolve host (net s); Some (r, set_net k s).

Definition say_ip (ip : Z) s : shell := say_bytes (ip_to_str ip) s.

(** The wait for the answer of one request. *)
Fixpoint ping_wait (fuel : nat) (start : Z) s : option shell :=
  if negb (u32 (e_ticks (net s) - start) <? 200) then Some (say (str "Request timed out." ++ [10]) s) else
  let '(r, k) := e_got (net s) in
  let s := set_net k s in
  match r with
  | Some (_, r_seq, r_ip) =>
      let elapsed := u32 (u32 (e_ticks (net s) - start) * 10) in
      let s := print_uint r_seq (say (str ": seq=") (say_ip r_ip (say (str "Reply from ") s))) in
      Some (say (str "ms" ++ [10]) (print_uint elapsed (say (str " time=") s)))
  | None =>
      match fuel with O => None | S fuel => k ← e_halt (net s); ping_wait fuel start (set_net k s) end
  end.

(** [for seq in seq..=4], [n] rounds left. *)
Fixpoint ping_loop (fuel n : nat) (ip seq : Z) s : option shell :=
  match n with
  | O => Some s
  | S n =>
      let start := e_ticks (net s) in
      s ← ping_wait fuel start (set_net (e_send ip 1 seq (net s)) s);
      k ← (if seq <? 4 then e_wait 10 (net s) else Some (net s));
      ping_loop fuel n ip (seq + 1) (set_net k s)
  end.

Definition cmd_ping (fuel : nat) s : option shell :=
  if INPUT_LEN s <=? 5 then Some (say (str "Usage: ping <ip>" ++ [10]) s) else
  s ← terminate s;
  '(r, s) ← host_ip (arg 5 s) s;
  match r with
  | None => Some (say (str "Could not resolve host" ++ [10]) s)
  | Some ip => ping_loop fuel 4 ip 1 (say (str "..." ++ [10]) (say_ip ip (say (str "Pinging ") s)))
  end.

Definition cmd_resolve s : option shell :=
  if INPUT_LEN s <=? 8 then Some (say (str "Usage: resolve <hostname>" ++ [10]) s) else
  s ← terminate s;
  let host := arg 8 s in
  let s := say (str "..." ++ [10]) (say_bytes (rest 8 s) (say (str "Resolving ") s)) in
  '(r, k) ← ns_resolve host (net s);
  let s := set_net k s in
  match r with
  | Some ip => Some (say [10] (say_ip ip s))
  | None => Some (say (str "DNS resolution failed" ++ [10]) s)
  end.

(** [recv] until it brings nothing within [timeout] ticks. *)
Fixpoint drain (fuel : nat) (conn timeout : Z) s : option shell :=
  match fuel with
  | O => None
  | S fuel =>
      '(l, k) ← t_recv conn 511 timeout (net s);
      match l with [] => Some (set_net k s) | _ => drain fuel conn timeout (say_bytes l (set_net k s)) end
  end.

(** A line of at most 126 bytes; Ctrl-D makes it empty. *)
Fixpoint tcp_line (fuel : nat) (line : list Z) (len : Z) s : option (list Z * Z * shell) :=
  match fuel with
  | O => None
  | S fuel =>
      '(c, f) ← key (fs s);
      let s := set_fs f s in
      if is_enter c then line ← zset line len 0; Some (line, len, on_fs (echo 10) s) else
      if c =? 4 then line ← zset line 0 0; Some (line, 0, on_fs (echo 10) s) else
      if is_erase c && (0 <? len) then tcp_line fuel line (len - 1) (on_fs (echo 8) s) else
      if len <? 128 - 2 then line ← zset line len c; tcp_line fuel line (len + 1) (on_fs (echo c) s)
      else tcp_line fuel line len s
  end.

Fixpoint tcp_loop (fuel rounds : nat) (conn : Z) (line : list Z) s : option shell :=
  match rounds with
  | O => None
  | S rounds =>
      s ← drain fuel conn 5 s;
      '(line, len, s) ← tcp_line fuel line 0 (say (str "> ") s);
      first ← zget line 0;
      if (len =? 0) && (first =? 0) then Some s else
      line ← zset line len 10;
      line ← zset line (len + 1) 0;
      '(r, k) ← t_send conn line (u16 (len + 1)) (net s);
      let s := set_net k s in
      if r <? 0 then Some (say (str "Send failed" ++ [10]) s) else tcp_loop fuel rounds conn line s
  end.

(** The host part of the line is terminated in place. *)
Definition cmd_tcp (fuel : nat) s : option shell :=
  let usage s := Some (say (str "Usage: tcp <ip> <port>" ++ [10]) s) in
  if INPUT_LEN s <=? 4 then usage s else
  s ← terminate s;
  match find_space (arg 4 s) with
  | None => usage s
  | Some i =>
      let space_offset := 4 + Z.of_nat i in
      l ← zset (INPUT s) space_offset 0;
      let s := set_input l (INPUT_LEN s) s in
      '(r, s) ← host_ip (arg 4 s) s;
      match r with
      | None => Some (say (str "Could not resolve host" ++ [10]) s)
      | Some ip =>
          port ← atoi (mem_of (drop (Z.to_nat (space_offset + 1)) (INPUT s))) 257 0;
          let port := u16 port in
          if port =? 0 then Some (say (str "Invalid port" ++ [10]) s) else
          '(conn, k) ← t_connect ip port (net s);
          let s := set_net k (say (str "Connecting..." ++ [10]) s) in
          if conn <? 0 then Some (say (str "Connection failed" ++ [10]) s) else
          s ← tcp_loop fuel fuel conn (replicate 128 0) (say (str "Connected. Empty line to close." ++ [10]) s);
          k ← t_close conn (net s);
          Some (say (str "Connection closed." ++ [10]) (set_net k s))
      end
  end.

(** The request goes into an array of 256 bytes, with its NUL; [None] past its end. *)
Definition http_request (path host : list Z) : option (list Z) :=
  let req := str "GET " ++ path ++ str " HTTP/1.0" ++ [13; 10] ++ str "Host: " ++ host ++ [13; 10; 13; 10] in
  if (List.length req <? 256)%nat then Some req else None.

Definition cmd_http (fuel : nat) s : option shell :=
  if INPUT_LEN s <=? 5 then Some (say (str "Usage: http <ip|host> <path>" ++ [10]) s) else
  s ← terminate s;
  '(path, s) ← match find_space (arg 5 s) with
    | None => Some (str "/", s)
    | Some i =>
        let space_offset := 5 + Z.of_nat i in
        l ← zset (INPUT s) space_offset 0;
        let s := set_input l (INPUT_LEN s) s in Some (arg (space_offset + 1) s, s)
    end;
  '(r, s) ← host_ip (arg 5 s) s;
  match r with
  | None => Some (say (str "Could not resolve host" ++ [10]) s)
  | Some ip =>
      let s := say (str ":80..." ++ [10]) (say_ip ip (say (str "Connecting to ") s)) in
      '(conn, k) ← t_connect ip 80 (net s);
      let s := set_net k s in
      if conn <? 0 then Some (say (str "Connection failed" ++ [10]) s) else
      req ← http_request path (arg 5 s);
      '(r, k) ← t_send conn req (u16 (Z.of_nat (List.length req))) (net s);
      let s := set_net k s in
      if r <? 0 then k ← t_close conn (net s); Some (set_net k (say (str "Send failed" ++ [10]) s)) else
      s ← drain fuel conn 300 s;
      k ← t_close conn (net s); Some (set_net k (say [10] s))
  end.

(** ** Files *)

(** A component of [ls]'s path, cut at 63 bytes, and what follows it. *)
Fixpoint ls_component (n : nat) (p : list Z) : list Z * list Z :=
  match n, p with
  | S n, c :: p' => if c =? 47 then ([], p) else let '(w, p) := ls_component n p' in (c :: w, p)
  | _, _ => ([], p)
  end.
Fixpoint skip_slash (p : list Z) : list Z := match p with c :: p' => if c =? 47 then skip_slash p' else p | [] => [] end.

Fixpoint ls_walk (fuel : nat) (p : list Z) (current : Z) s : option (Z * shell) :=
  match p with
  | [] => Some (current, s)
  | _ =>
      if current =? 0 then Some (0, s) else
      match fuel with
      | O => None
      | S fuel =>
          let '(component, p) := ls_component 63 p in
          '(current, f) ← finddir current component (fs s); ls_walk fuel (skip_slash p) current (set_fs f s)
      end
  end.

Definition ls_dir (fuel : nat) (path : list Z) s : option (Z * shell) :=
  '(found_dir, f) ← finddir (VFS_ROOT (fs s)) path (fs s);
  let s := set_fs f s in
  match path with
  | c :: p => if (found_dir =? 0) && (c =? 47) then ls_walk fuel p (VFS_ROOT (fs s)) s else Some (found_dir, s)
  | [] => Some (found_dir, s)
  end.

Definition show_entry (v : VfsNode) s : shell :=
  if is_dir v then
    let s := say_bytes (name v) (on_fs (paint LightCyan Black) s) in on_fs (paint LightGrey Black) (say (str "/" ++ [10]) s)
  else say (str " bytes)" ++ [10]) (print_uint (n_size v) (say (str "  (") (say_bytes (name v) s))).

Fixpoint ls_loop (fuel : nat) (dir i : Z) (found : bool) s : option shell :=
  match fuel with
  | O => None
  | S fuel =>
      '(node, f) ← readdir dir i (fs s);
      let s := set_fs f s in
      if node =? 0 then Some (if found then s else say (str "(no files)" ++ [10]) s) else
      v ← node_at node (fs s);
      ls_loop fuel dir (u32 (i + 1)) true (show_entry v s)
  end.

Definition cmd_ls (fuel : nat) s : option shell :=
  c ← zget (INPUT s) 2;
  if (3 <? INPUT_LEN s) && (c =? 32) then
    s ← terminate s;
    '(dir, s) ← ls_dir fuel (arg 3 s) s;
    b ← (if dir =? 0 then Some false else v ← node_at dir (fs s); Some (is_dir v));
    if negb b then Some (say [10] (say_bytes (rest 3 s) (say (str "Not a directory: ") s))) else ls_loop fuel dir 0 false s
  else ls_loop fuel (VFS_ROOT (fs s)) 0 false s.

Definition file_not_found (from : Z) s : shell := say [10] (say_bytes (rest from s) (say (str "File not found: ") s)).

Fixpoint cat_loop (fuel : nat) (fd total : Z) s : option shell :=
  match fuel with
  | O => None
  | S fuel =>
      '(n, buf, f) ← vfs_fd_read fd 256 (fs s);
      let s := set_fs f s in
      if n <=? 0 then Some s else
      let s := say (take (Z.to_nat n) buf) s in
      let total := u32 (total + n) in
      if 4096 <=? total then Some (say ([10] ++ str "[output truncated]" ++ [10]) s) else cat_loop fuel fd total s
  end.

Definition cmd_cat (fuel : nat) s : option shell :=
  if INPUT_LEN s <=? 4 then Some (say (str "Usage: cat <filename>" ++ [10]) s) else
  s ← terminate s;
  '(fd, f) ← vfs_open (Some (arg 4 s)) (fs s);
  let s := set_fs f s in
  if fd <? 0 then Some (file_not_found 4 s) else
  s ← cat_loop fuel fd 0 s; Some (on_fs (vfs_close fd) s).

Definition cmd_touch s : option shell :=
  if INPUT_LEN s <=? 6 then Some (say (str "Usage: touch <filename>" ++ [10]) s) else
  s ← terminate s;
  '(node, f) ← create_file (Some (arg 6 s)) (fs s);
  let s := set_fs f s in
  if negb (node =? 0) then Some (say [10] (say_bytes (rest 6 s) (say (str "Created: ") s)))
  else Some (say (str "Failed to create file" ++ [10]) s).

(** [finddir] in the root directory, or a new file. *)
Definition find_or_create (nm : list Z) s : option (Z * shell) :=
  '(node, f) ← finddir (VFS_ROOT (fs s)) nm (fs s);
  '(node, f) ← (if node =? 0 then create_file (Some nm) f else Some (node, f)); Some (node, set_fs f s).

Definition cmd_write s : option shell :=
  let usage s := Some (say (str "Usage: write <filename> <text>" ++ [10]) s) in
  if INPUT_LEN s <=? 6 then usage s else
  s ← terminate s;
  match find_space (arg 6 s) with
  | None => usage s
  | Some i =>
      let space_offset := 6 + Z.of_nat i in
      l ← zset (INPUT s) space_offset 0;
      let s := set_input l (INPUT_LEN s) s in
      let text := arg (space_offset + 1) s in
      '(node, s) ← find_or_create (arg 6 s) s;
      if node =? 0 then Some (say (str "Failed" ++ [10]) s) else
      '(r, f) ← Vfs.write node 0 text (fs s);
      let s := set_fs f s in
      if r <? 0 then Some (say (str "Write failed" ++ [10]) s) else
      let s := say (str " bytes to ") (print_uint (Z.of_nat (List.length text)) (say (str "Wrote ") s)) in
      Some (say [10] (say_bytes (slice 6 i (INPUT s)) s))
  end.

(** The end of a command that holds a buffer. *)
Definition drop_buf (buf : Z) s : option shell := f ← release buf (fs s); Some (set_fs f s).
Definition abandon (msg : list Z) (buf : Z) s : option shell := drop_buf buf (say msg s).

Definition cmd_save s : option shell :=
  if INPUT_LEN s <=? 5 then
    Some (say (str "Copies a ramfs file to the FAT16 disk." ++ [10]) (say (str "Usage: save <filename>" ++ [10]) s)) else
  s ← terminate s;
  let filename := arg 5 s in
  '(node, f) ← finddir (VFS_ROOT (fs s)) filename (fs s);
  let s := set_fs f s in
  if node =? 0 then Some (file_not_found 5 s) else
  v ← node_at node (fs s);
  if n_size v =? 0 then Some (say (str "File is empty" ++ [10]) s) else
  '(buf, f) ← alloc (n_size v) (OBuf (replicate (Z.to_nat (n_size v)) 0)) (fs s);
  let s := set_fs f s in
  if buf =? 0 then Some (say (str "Out of memory" ++ [10]) s) else
  '(n, bytes, f) ← Vfs.read node 0 (n_size v) (fs s);
  let s := set_fs f s in
  if n <=? 0 then abandon (str "Read error" ++ [10]) buf s else
  f ← buf_write buf 0 bytes (fs s);
  data ← buf_read buf 0 n f;
  '(r, x) ← fat_write_file filename data (ext f);
  let s := set_fs (set_ext x f) s in
  if r <? 0 then abandon (str "Disk write failed" ++ [10]) buf s else
  s ← drop_buf buf s;
  let s := print_uint (u32 n) (say (str "Saved ") s) in
  Some (say [10] (say_bytes (rest 5 s) (say (str " bytes to disk: ") s))).

Definition cmd_load s : option shell :=
  if INPUT_LEN s <=? 5 then
    Some (say (str "Copies a FAT16 disk file to ramfs." ++ [10]) (say (str "Usage: load <filename>" ++ [10]) s)) else
  s ← terminate s;
  let filename := arg 5 s in
  '(buf, f) ← alloc 65536 (OBuf (replicate (Z.to_nat 65536) 0)) (fs s);
  let s := set_fs f s in
  if buf =? 0 then Some (say (str "Out of memory" ++ [10]) s) else
  '(n, bytes, x) ← fat_read_file filename 65536 (ext (fs s));
  f ← buf_write buf 0 bytes (set_ext x (fs s));
  let s := set_fs f s in
  if n <? 0 then drop_buf buf (say [10] (say_bytes (rest 5 s) (say (str "File not found on disk: ") s))) else
  if n =? 0 then abandon (str "File is empty" ++ [10]) buf s else
  '(node, s) ← find_or_create filename s;
  if node =? 0 then abandon (str "Cannot create ramfs file" ++ [10]) buf s else
  data ← buf_read buf 0 n (fs s);
  '(r, f) ← Vfs.write node 0 data (fs s);
  let s := set_fs f s in
  if r <? 0 then abandon (str "Write to ramfs failed" ++ [10]) buf s else
  s ← drop_buf buf s;
  let s := print_uint (u32 n) (say (str "Loaded ") s) in
  Some (say [10] (say_bytes (rest 5 s) (say (str " bytes from disk: ") s))).

(** ** Programs *)

(** [recovery::run_protected] of an entry point: the program may do anything to the
    state before it answers. *)
Variable exec : Z -> shell -> option (Z * shell).

Definition FLAT_LOAD_BASE : Z := 0x00A00000.

(** The bytes of a buffer of the heap, where the loader finds them. *)
Fixpoint place (a : Z) (l : list Z) (k : K) : K := match l with [] => k | b :: l => place (a + 1) l (vstore a b k) end.

(** The program has run and answered [ret]. *)
Definition report (msg : list Z) (r : option (Z * shell)) : option shell :=
  '(ret, s) ← r; Some (if ret =? -99 then say msg s else s).

Definition start (buf n : Z) s : option shell :=
  if (4 <=? n) && is_elf buf (net s) then
    let '(r, k) := Elf.load buf (u32 n) (net s) in
    s ← drop_buf buf (set_net k s);
    match r with
    | inr info => report (str "Program crashed" ++ [10]) (exec (entry info) (set_brk (brk info) s))
    | inl e => Some (say [10] (say (elf_message e) s))
    end
  else
    s ← drop_buf buf (set_net (vcopy (Z.to_nat n) FLAT_LOAD_BASE buf 0 (net s)) s);
    report (str "Program crashed (return -99)" ++ [10]) (exec FLAT_LOAD_BASE s).

Definition cmd_run s : option shell :=
  if INPUT_LEN s <=? 4 then Some (say (str "Usage: run <binary>" ++ [10]) s) else
  s ← terminate s;
  '(node, f) ← finddir (VFS_ROOT (fs s)) (arg 4 s) (fs s);
  let s := set_fs f s in
  if node =? 0 then Some (file_not_found 4 s) else
  v ← node_at node (fs s);
  if n_size v =? 0 then Some (say (str "Empty file" ++ [10]) s) else
  '(buf, f) ← alloc (n_size v) (OBuf (replicate (Z.to_nat (n_size v)) 0)) (fs s);
  let s := set_fs f s in
  if buf =? 0 then Some (say (str "Out of memory" ++ [10]) s) else
  '(n, bytes, f) ← Vfs.read node 0 (n_size v) (fs s);
  let s := set_fs f s in
  if n <=? 0 then abandon (str "Read error" ++ [10]) buf s else
  f ← buf_write buf 0 bytes (fs s);
  start buf n (set_net (place buf bytes (net s)) (set_fs f s)).

(** ** The loop *)

(** The addresses of the functions a compiled program may call; the target. *)
Variables (addr : string -> Z) (target_arch : arch).

Definition run_edit (fuel : nat) s : option shell :=
  if 5 <? INPUT_LEN s then
    s ← terminate s;
    e ← edit fuel (arg 5 s) (Ed (LINES s) (LINE_COUNT s) (EDIT_FILENAME s) (fs s)); Some (set_editor e s)
  else Some (say (str "Usage: edit <filename>" ++ [10]) s).

Definition run_rc s : option shell :=
  match target_arch with
  | X86 =>
      if 3 <? INPUT_LEN s then
        s ← terminate s;
        '(_, d) ← rc_compile addr (arg 3 s) None (Rc (fs s) (cc s)); Some (set_cc (ps d) (set_fs (Driver.fs d) s))
      else Some (say (str "Usage: rc <file.rs>" ++ [10]) s)
  | X86_64 => Some (say (str "rc compiler not available on x86_64" ++ [10]) s)
  end.

Definition run_mirror s : shell :=
  if get_mirror (ext (fs s)) then say (str "Serial mirror: OFF" ++ [10]) (on_fs (fun f => set_ext (set_mirror false (ext f)) f) s)
  else say (str "Serial mirror: ON" ++ [10]) (on_fs (fun f => set_ext (set_mirror true (ext f)) f) s).

(** [strcmp(INPUT, w) == 0] *)
Definition is_line (w : string) s : bool := strcmp_list (cstr (INPUT s)) (str w) =? 0.
(** [strncmp(INPUT, w, n) == 0 && (INPUT[n] == b' ' || INPUT[n] == 0)], [n] the length of [w]. *)
Definition is_word (w : string) s : bool :=
  let n := List.length (str w) in
  (strcmp_list (take n (cstr (INPUT s))) (str w) =? 0) && ((nth n (INPUT s) 0 =? 32) || (nth n (INPUT s) 0 =? 0)).

(** The command of the line; [None] inside is a machine that has rebooted. *)
Definition dispatch (fuel : nat) s : option (option shell) :=
  let on (r : option shell) := s ← r; Some (Some s) in
  if is_line "help" s then on (Some (cmd_help s)) else
  if is_line "clear" s then on (Some (on_fs (fun f => set_ext (clear (ext f)) f) s)) else
  if is_word "echo" s then on (Some (cmd_echo s)) else
  if is_word "ls" s then on (cmd_ls fuel s) else
  if is_word "cat" s then on (cmd_cat fuel s) else
  if is_line "mem" s then on (Some (cmd_mem s)) else
  if is_word "ping" s then on (cmd_ping fuel s) else
  if is_word "resolve" s then on (cmd_resolve s) else
  if is_word "touch" s then on (cmd_touch s) else
  if is_word "write" s then on (cmd_write s) else
  if is_word "edit" s then on (run_edit fuel s) else
  if is_word "rc" s then on (run_rc s) else
  if is_word "run" s then on (cmd_run s) else
  if is_word "tcp" s then on (cmd_tcp fuel s) else
  if is_word "http" s then on (cmd_http fuel s) else
  if is_word "save" s then on (cmd_save s) else
  if is_word "load" s then on (cmd_load s) else
  if is_line "threads" s then on (Some (cmd_threads s)) else
  if is_line "spawn" s then on (cmd_spawn s) else
  if is_line "mirror" s then on (Some (run_mirror s)) else
  if is_line "reboot" s then Some None else
  on (Some (say [10] (say_bytes (slice 0 (Z.to_nat (INPUT_LEN s)) (INPUT s)) (say (str "unknown command: ") s)))).

(** One round of the loop. *)
Definition round (fuel : nat) s : option (option shell) :=
  s ← shell_readline fuel (shell_prompt s);
  c ← zget (INPUT s) 0;
  if c =? 0 then Some (Some s) else dispatch fuel s.

Fixpoint rounds (fuel n : nat) s : option (option shell) :=
  match n with
  | O => Some (Some s)
  | S n => r ← round fuel s; match r with Some s => rounds fuel n s | None => Some None end
  end.

Definition greeting s : shell :=
  say (str "Type 'help' for available commands." ++ [10; 10]) (say (str "opsys v0.1" ++ [10]) s).

(** [run], after [n] lines. *)
Definition run (fuel n : nat) s : option (option shell) := rounds fuel n (greeting s).
End shell.
Arguments shell H X K : clear implicits.

(** ** The network services of the other files *)

#[export] Instance tcp_streams {N} `{IpLayer N} `{IpPath N} : Streams (Tcp.tcp N * list Tcp.wake) := {|
  t_connect ip port k := '(r, t, env) ← Tcp.connect ip port k.2 k.1; Some (r, (t, env));
  t_send id data len k := '(r, t, env) ← Tcp.send id (Some data) len k.2 k.1; Some (r, (t, env));
  t_recv id max_len timeout k := '(l, t, env) ← Tcp.recv id max_len timeout k.2 k.1; Some (l, (t, env));
  t_close id k := '(t, env) ← Tcp.close id k.2 k.1; Some (t, env) |}.

#[export] Instance dns_names {N} (udp_send : list Z -> N -> N) : Names (Dns.dns N * list Dns.dns_wake) :=
  fun host k => '(r, d, env) ← Dns.resolve udp_send host k.2 k.1; Some (r, (d, env)).

(** ICMP and the clock; the environment gives, for each [hlt], the ticks that pass and
    the messages that come. *)
Record pinger (N : Type) := Pinger { p_icmp : Udp.Icmp.icmp N; p_ticks : Z; p_env : list (Z * list (Z * list Z)) }.
Arguments Pinger {N}.
Arguments p_icmp {N}.
Arguments p_ticks {N}.
Arguments p_env {N}.

Section pinger.
Context {N : Type} `{IpLayer N}.
Implicit Types k : pinger N.

Definition pinger_halt k : option (pinger N) :=
  match p_env k with
  | [] => None
  | (d, ms) :: env => Some (Pinger (fold_left (fun i m => Udp.Icmp.rx m.1 m.2 i) ms (p_icmp k)) (u32 (p_ticks k + d)) env)
  end.

(** [timer::wait]: [fuel] wake-ups at most, the length of the environment. *)
Fixpoint pinger_wait (fuel : nat) (start n : Z) k : option (pinger N) :=
  if negb (u32 (p_ticks k - start) <? n) then Some k else
  match fuel with O => None | S fuel => k ← pinger_halt k; pinger_wait fuel start n k end.

#[export] Instance icmp_pings : Pings (pinger N) := {|
  e_send ip id seq k := Pinger (Udp.Icmp.send_echo_request ip id seq (p_icmp k)).2 (p_ticks k) (p_env k);
  e_got k := let '(_, r, i) := Udp.Icmp.got_reply (p_icmp k) in (r, Pinger i (p_ticks k) (p_env k));
  e_ticks := p_ticks;
  e_halt := pinger_halt;
  e_wait n k := pinger_wait (List.length (p_env k)) (p_ticks k) n k |}.
End pinger.
