(* ===== verification/ShellFiles.v ===== *)
(** The files of the root directory as the shell uses them: names to bytes.

    [stores f n a]: the directory has at most [n] entries; under the names of [a] there
    are RAM files with these bytes, or nothing.  Making, writing and reading a file of
    that name does to [a] what it says. *)
From Stdlib Require Import String.
From S2P Require Import Prelude StringRs Heap VfsNode VfsStore RamFiles Ramfs Initrd Devfs Fat16Vfs Vfs VfsTree VfsMake VfsFile VfsSpec VfsProps Term EditorFile.

Notation fstore := (gmap (list Z) (option (list Z))).

(** ** Names *)

Lemma find_child_name m nm cs p : find_child m nm cs = Some p -> p <> 0 ->
  exists v, node_in m p = Some v /\ strcmp_list (name v) nm = 0.
Proof.
  induction cs as [| c cs IH]; cbn [find_child]; [congruence |]. destruct (node_in m c) as [v |] eqn:E; [| done]. cbn [mbind option_bind].
  case_if; [breflect; intros [= <-] _; by exists v | exact IH].
Qed.

Lemma lookup_inj m root nm nm' p : tree_ok m root -> lookup_name m root nm = Some p -> lookup_name m root nm' = Some p -> p <> 0 ->
  no_nul nm -> no_nul nm' -> nm = nm'.
Proof.
  intros Ht E1 E2 Hp Hn Hn'. unfold lookup_name in E1, E2. destruct (root =? 0); [congruence |].
  destruct (node_in m root) as [v |]; [| done]. cbn [mbind option_bind] in *. destruct (on_volume v); [done |]. destruct (is_dir v); [| congruence].
  destruct (find_child_name m nm _ p E1 Hp) as (w & Ew & S1). destruct (find_child_name m nm' _ p E2 Hp) as (w' & Ew' & S2).
  assert (w' = w) as -> by congruence. destruct (to_name _ _ Ht p w Ew) as [Hw _].
  apply strcmp_list_eq in S1, S2; [congruence | done..].
Qed.

Lemma find_child_names m m' nm cs : (forall c, c ∈ cs -> name <$> node_in m' c = name <$> node_in m c) ->
  find_child m' nm cs = find_child m nm cs.
Proof.
  induction cs as [| c cs IH]; intros Hcs; [done |]. cbn [find_child]. pose proof (Hcs c ltac:(by left)) as E.
  destruct (node_in m c) as [v |], (node_in m' c) as [v' |]; try done. cbn in E. injection E as E. cbn [mbind option_bind].
  rewrite E. case_if; [done |]. apply IH. intros x Hx. apply Hcs. by right.
Qed.

Lemma find_child_snoc m nm cs n w : m !! 0 = None -> find_child m nm cs = Some 0 -> node_in m n = Some w -> strcmp_list (name w) nm <> 0 ->
  find_child m nm (cs ++ [n]) = Some 0.
Proof.
  intros H0 E Hn Hw. induction cs as [| c cs IH]; cbn [find_child app] in *.
  - rewrite Hn. cbn [mbind option_bind]. by rewrite (proj2 (Z.eqb_neq _ 0)).
  - destruct (node_in m c) as [v |] eqn:Ec; [| done]. cbn [mbind option_bind] in *. case_if; [| by apply IH].
    injection E as ->. unfold node_in in Ec. by rewrite H0 in Ec.
Qed.

(** A new file hides no name that is absent. *)
Lemma created_absent m root v n f b nm nm' : m !! 0 = None -> m !! n = None -> m !! f = None -> m !! b = None ->
  n <> f -> n <> b -> f <> b -> n <> 0 -> f <> 0 -> b <> 0 -> tree_ok m root ->
  node_in m root = Some v -> is_dir v = true -> name_ok nm -> no_nul nm' -> nm <> nm' -> lookup_name m root nm' = Some 0 ->
  lookup_name (linked (new_file m n f b nm) root v n (file_node nm (PRam f))) root nm' = Some 0.
Proof.
  intros Hm0 Hn Hf Hb Hnf Hnb Hfb Hn0 Hf0 Hb0 Ht Hv Hd Hnm Hn' Hne El.
  destruct (file_node_fresh nm (PRam f) Hnm) as [_ En].
  assert (Hrn : root <> n) by (intros ->; unfold node_in in Hv; by rewrite Hn in Hv).
  set (m1 := new_file m n f b nm).
  assert (Hnode : forall q, node_in (linked m1 root v n (file_node nm (PRam f))) q =
    if decide (q = n) then Some (set_parent root (file_node nm (PRam f)))
    else if decide (q = root) then Some (set_children (children v ++ [n]) v) else node_in m q).
  { intros q. unfold linked, m1. rewrite !node_in_insert. repeat case_decide; try done. by rewrite new_file_node_in, decide_False. }
  unfold lookup_name in *. destruct (root =? 0) eqn:E0; [done |]. rewrite Hv in El. cbn [mbind option_bind] in El. rewrite Hd in El.
  destruct (on_volume v) eqn:Hvol; [done |].
  rewrite Hnode, decide_False, decide_True by done. cbn [mbind option_bind].
  change (is_dir (set_children (children v ++ [n]) v)) with (is_dir v). rewrite Hd. cbn [children set_children].
  change (on_volume (set_children (children v ++ [n]) v)) with (on_volume v). rewrite Hvol.
  eapply find_child_snoc.
  - unfold linked, m1. apply Z.eqb_neq in E0. rewrite !lookup_insert_ne, new_file_lookup by congruence. repeat case_decide; congruence.
  - rewrite <- El. apply find_child_names. intros c Hc. rewrite Hnode. destruct (to_child _ _ Ht root v c Hv Hc) as [w Hw].
    case_decide; [subst c; unfold node_in in Hw; by rewrite Hn in Hw |]. case_decide; [subst c; by rewrite Hv | done].
  - rewrite Hnode. by rewrite decide_True.
  - cbn [name set_parent]. change (name (set_parent root (file_node nm (PRam f)))) with (name (file_node nm (PRam f))). rewrite En.
    intros E. apply strcmp_list_eq in E; [done | by destruct Hnm | done].
Qed.

Section stores.
Context {H X : Type} `{KernelHeap H} `{Typist X} `{FatDisk X}.
Implicit Types f : vfs H X.

(** Node [p] is the file [nm] with the bytes [c]. *)
Record file_at f (nm : list Z) (p : Z) (c : list Z) : Prop := {
  fa_lookup : lookup_name (store f) (VFS_ROOT f) nm = Some p;
  fa_ne0 : p <> 0;
  fa_node : exists v, node_in (store f) p = Some v /\ read_fn v = Some RamfsRead /\ write_fn v = Some RamfsWrite;
  fa_content : content (store f) p = Some c }.

Record stores f (n : nat) (a : fstore) : Prop := {
  st_ok : exists live, vfs_ok f live;
  st_root : RAMFS_ROOT f = VFS_ROOT f;
  st_dir : exists v, node_at (VFS_ROOT f) f = Some v /\ is_dir v = true /\ (List.length (children v) <= n)%nat;
  st_fds : exists i, (i < 32)%nat /\ first_free 0 (FD_TABLE f) = Some i;
  st_names : forall nm t, a !! nm = Some t -> name_ok nm;
  st_some : forall nm c, a !! nm = Some (Some c) -> exists p, file_at f nm p c;
  st_none : forall nm, a !! nm = Some None -> lookup_name (store f) (VFS_ROOT f) nm = Some 0 }.

Lemma stores_ext f x n a : stores f n a -> stores (set_ext x f) n a.
Proof.
  intros [[live [[] [] ?]] ? [v ?] ? ? Hs ?]. split; try done.
  - exists live. split; [split | split |]; done.
  - by exists v.
  - intros nm c E. destruct (Hs nm c E) as [p [? ? [w ?] ?]]. exists p. split; try done. by exists w.
Qed.
Lemma stores_puts f t n a : stores f n a -> stores (puts t f) n a.
Proof. apply stores_ext. Qed.

(** The entry of a name: as [create_file] answers, and [finddir]. *)
Lemma stores_finddir f n a nm t : stores f n a -> a !! nm = Some t ->
  exists p, finddir (VFS_ROOT f) nm f = Some (p, f) /\
    match t with Some c => file_at f nm p c | None => p = 0 end.
Proof.
  intros Hs Et. destruct (st_ok _ _ _ Hs) as [live Hok]. destruct t as [c |].
  - destruct (st_some _ _ _ Hs nm c Et) as [p Hp]. exists p. split; [| done]. apply (finddir_lookup _ _ _ _ _ (vo_tree _ _ Hok)), Hp.
  - exists 0. split; [| done]. apply (finddir_lookup _ _ _ _ _ (vo_tree _ _ Hok)), (st_none _ _ _ Hs nm Et).
Qed.

Lemma file_at_grows f f' nm p c : framed f f' -> extends (store f) (store f') ->
  (forall q, q <> 0 -> content (store f) q = Some c -> content (store f') q = Some c) ->
  (forall v, node_in (store f) p = Some v -> exists v', node_in (store f') p = Some v' /\ read_fn v' = read_fn v /\ write_fn v' = write_fn v) ->
  file_at f nm p c -> file_at f' nm p c.
Proof.
  intros F He Hc Hn [E1 E2 [v (E3 & E4 & E5)] E6]. split; [| done | | auto].
  - rewrite (framed_root _ _ F). by apply (lookup_extends (store f)).
  - destruct (Hn v E3) as (v' & ? & E7 & E8). exists v'. by rewrite E7, E8.
Qed.

Lemma create_file_stores f n a nm t : stores f n a -> a !! nm = Some t -> (n < 128)%nat -> ~ short SIZEOF_NODE 2 (hp f) ->
  exists p f1, create_file (Some nm) f = Some (p, f1) /\ framed f f1 /\ file_at f1 nm p (default [] t) /\
    stores f1 (S n) (<[nm := Some (default [] t)]> a) /\ exists j, (j <= 3)%nat /\ calls SIZEOF_NODE j (hp f) (hp f1).
Proof.
  intros Hs Et Hn Hheap. pose proof Hs as [[live Hok] Hroot (v & Hv & Hd & Hch) Hfds Hnm Hsome Hnone].
  destruct (stores_finddir f n a nm t Hs Et) as (p & Ef & Hp). unfold create_file. rewrite Hroot.
  assert (Hr0 : VFS_ROOT f <> 0) by (eapply node_ne_0; [apply Hok | exact Hv]).
  destruct t as [c |]; cbn [default id].
  - exists p, f. rewrite create_file_in_unfold, (proj2 (Z.eqb_neq (VFS_ROOT f) 0)), Ef by done. cbn [mbind option_bind].
    rewrite (proj2 (Z.eqb_neq p 0)) by apply Hp. cbn [negb]. split; [done |]. split; [apply framed_refl |]. split; [done |].
    split; [| exists 0%nat; split; [lia | constructor]]. rewrite insert_id by done. split; try done; [by exists live | exists v; auto with lia].
  - subst p. pose proof (Hnone nm Et) as El. pose proof (Hnm nm _ Et) as Hok'.
    destruct (create_file_spec f live _ v nm Hok Hv Hd Hok' El) as (p & f1 & live1 & E & F1 & Hcase). exists p, f1.
    split; [exact E |]. split; [exact F1 |]. destruct Hcase as [(_ & _ & _ & _ & [Hx | Hx]) | (r & b & K & Hcr)]; [lia | done |].
    destruct (created_ok f live _ v nm f1 live1 p r b Hok Hv Hd Hok' El F1 Hcr) as (Hok1 & Hext & Hl1 & Hc1).
    pose proof Hcr as [(Hp0 & Hr1 & Hb0) (Hpr & Hpb & Hrb) (Fp & Fr & Fb) Es _ _]. pose proof (framed_root _ _ F1) as Er.
    assert (Hnode : forall q, node_in (store f1) q =
      if decide (q = p) then Some (set_parent (VFS_ROOT f) (file_node nm (PRam r)))
      else if decide (q = VFS_ROOT f) then Some (set_children (children v ++ [p]) v) else node_in (store f) q).
    { intros q. rewrite Es. unfold linked. rewrite !node_in_insert. repeat case_decide; try done. by rewrite new_file_node_in, decide_False. }
    assert (Hrp : VFS_ROOT f <> p) by (intros Erp; unfold node_at, node_in in Hv; by rewrite Erp, Fp in Hv).
    assert (Hthis : file_at f1 nm p []).
    { split; [by rewrite Er | done | | by rewrite Hc1, decide_True]. exists (set_parent (VFS_ROOT f) (file_node nm (PRam r))).
      by rewrite Hnode, decide_True. }
    split; [exact Hthis |]. split; [| by exists 3%nat]. split.
    + by exists live1.
    + unfold framed in F1. rewrite F1. exact Hroot.
    + exists (set_children (children v ++ [p]) v). unfold node_at. rewrite Er, Hnode, decide_False, decide_True by done.
      split; [done |]. split; [exact Hd |]. cbn [children set_children]. rewrite length_app. simpl. lia.
    + unfold framed in F1. rewrite F1. exact Hfds.
    + intros nm' t'. destruct (decide (nm' = nm)) as [-> |]; [done |]. rewrite lookup_insert_ne by done. apply Hnm.
    + intros nm' c'. destruct (decide (nm' = nm)) as [-> | Hne].
      * rewrite lookup_insert_eq. intros [= <-]. by exists p.
      * rewrite lookup_insert_ne by done. intros Ea. destruct (Hsome nm' c' Ea) as [q Hq]. exists q.
        assert (Hqp : q <> p).
        { intros ->. destruct (fa_node _ _ _ _ Hq) as (w & Ew & _). unfold node_in in Ew. by rewrite Fp in Ew. }
        apply (file_at_grows f); try done; [intros q' _ Hq'; rewrite Hc1; case_decide; [subst q'; unfold content, node_in in Hq'; by rewrite Fp in Hq' | done] |].
        intros w Hw. rewrite Hnode, decide_False by done. case_decide as Eq; [| by exists w].
        assert (w = v) as -> by (unfold node_at in Hv; rewrite Eq, Hv in Hw; congruence). by eexists.
    + intros nm' Ea. destruct (decide (nm' = nm)) as [-> | Hne]; [by rewrite lookup_insert_eq in Ea |]. rewrite lookup_insert_ne in Ea by done.
      rewrite Er, Es. apply created_absent; try done; [apply Hok | apply Hok | by destruct (Hnm _ _ Ea) | by apply Hnone].
Qed.

(** A short write makes at most two calls of the heap. *)
Lemma ramfs_write_calls f p d r f1 : ramfs_write p 0 d f = Some (r, f1) -> Z.of_nat (List.length d) <= 256 ->
  exists j, (j <= 2)%nat /\ calls 512 j (hp f) (hp f1).
Proof.
  intros E Hd. assert (Hz : exists j, (j <= 2)%nat /\ calls 512 j (hp f) (hp f)) by (exists 0%nat; split; [lia | constructor]).
  unfold ramfs_write in E. destruct (p =? 0); [by simplify_eq |]. apply bind_Some in E as (v & _ & E).
  destruct (private_data v) as [| x |]; [by simplify_eq | | done]. apply bind_Some in E as (fd & _ & E).
  destruct (0xFFFFFFFF - 0 <? _); [by simplify_eq |]. apply bind_Some in E as ([ok f2] & E2 & E).
  assert (Hj : exists j, (j <= 2)%nat /\ calls 512 j (hp f) (hp f2)).
  { destruct (Z.ltb_spec (capacity fd) (0 + Z.of_nat (List.length d))) as [Hlt |]; [| by simplify_eq].
    unfold ramfs_grow in E2. rewrite (proj2 (Z.ltb_lt (capacity fd) 256)) in E2 by lia.
    change grow_fuel with (S 32) in E2. cbn [grow] in E2. rewrite (proj2 (Z.ltb_ge 256 _)) in E2 by lia. cbn [mbind option_bind] in E2.
    destruct (alloc 256 _ f) as [[q f3] |] eqn:Ea; [| done]. cbn [mbind option_bind] in E2.
    pose proof (alloc_calls 512 _ _ _ _ _ Ea ltac:(lia)) as K1. destruct (q =? 0); [simplify_eq; by exists 1%nat; auto |].
    apply bind_Some in E2 as (f4 & E4 & E2). simplify_eq. cbn [hp put set_store].
    destruct (data fd =? 0); [simplify_eq; by exists 1%nat; auto |].
    apply bind_Some in E4 as (old & _ & E4). destruct (buf_write q 0 old f3) as [f5 |] eqn:Eb; [| done]. cbn [mbind option_bind] in E4.
    exists 2%nat. split; [lia |]. apply (calls_app 512 1 1 _ (hp f3)); [exact K1 |].
    assert (hp f5 = hp f3) as <-; [| by eapply release_calls]. unfold buf_write in Eb. apply bind_Some in Eb as (l & _ & Eb).
    case_if_in Eb; [done |]. by simplify_eq. }
  destruct ok; cbn [negb] in E; [| by simplify_eq]. apply bind_Some in E as (fd' & _ & E).
  destruct (buf_write _ _ d f2) as [f3 |] eqn:Eb; [| done]. cbn [mbind option_bind] in E. apply bind_Some in E as (v' & _ & E). simplify_eq.
  cbn [hp put set_store]. assert (hp f3 = hp f2) as ->; [| done]. unfold buf_write in Eb. apply bind_Some in Eb as (l & _ & Eb).
  case_if_in Eb; [done |]. by simplify_eq.
Qed.

Lemma write_stores f n a nm p c t : stores f n a -> a !! nm = Some (Some c) -> file_at f nm p c -> Z.of_nat (List.length t) <= 256 ->
  ~ short 512 0 (hp f) ->
  exists f1, Vfs.write p 0 t f = Some (Z.of_nat (List.length t), f1) /\ framed f f1 /\
    stores f1 n (<[nm := Some (overlay 0 t c)]> a) /\ exists j, (j <= 2)%nat /\ calls 512 j (hp f) (hp f1).
Proof.
  intros Hs Ea Hp Ht Hheap. pose proof Hs as [[live Hok] Hroot (vr & Hvr & Hd & Hch) Hfds Hnm Hsome Hnone].
  pose proof Hok as [Hh Htree Hf]. pose proof Hp as [El Hp0 (v & Hv & Hr & Hw) Hc].
  destruct (ramfs_write_spec f live p v c 0 t Hh Hf Hv Hc) as (f1 & live1 & Hh1 & _ & Hf1 & Hcase); [lia | lia |].
  destruct Hcase as [[E Hrw] | (_ & _ & _ & _ & Hx)]; [| exfalso; apply Hheap; eapply short_le; [| | exact Hx]; lia].
  rewrite i32_small in E by lia. pose proof (rw_frame _ _ _ _ _ Hrw) as F. pose proof (framed_root _ _ F) as Er.
  pose proof (un_shape _ _ _ (rewritten_untouched f f1 p v _ Hv Hrw)) as Sh. exists f1.
  assert (Ht1 : tree_ok (store f1) (VFS_ROOT f1)).
  { rewrite Er. apply (tree_ok_shape (store f)); [done | by apply (ho_null _ _ Hh1) | done]. }
  split. { unfold Vfs.write. rewrite (proj2 (Z.eqb_neq p 0)) by done. unfold node_at. rewrite Hv. cbn [mbind option_bind]. rewrite Hw. exact E. }
  split; [exact F |]. split; [split |].
  - by exists live1.
  - unfold framed in F. rewrite F. exact Hroot.
  - destruct (same_shape_node _ _ _ vr Sh Hvr) as (v' & Hv' & Ev). exists v'. unfold node_at. rewrite Er.
    assert (is_dir v' = is_dir vr) as -> by exact (f_equal is_dir Ev). assert (children v' = children vr) as -> by exact (f_equal children Ev). done.
  - unfold framed in F. rewrite F. exact Hfds.
  - intros nm' t'. destruct (decide (nm' = nm)) as [-> |]; [intros _; by eapply Hnm |]. rewrite lookup_insert_ne by done. apply Hnm.
  - intros nm' c'. destruct (decide (nm' = nm)) as [-> | Hne].
    + rewrite lookup_insert_eq. intros [= <-]. exists p. split; [by rewrite Er, (lookup_name_shape (store f)) | done | |].
      * eexists. rewrite (rw_node _ _ _ _ _ Hrw), decide_True by done. split; [done |]. done.
      * by rewrite (rw_content _ _ _ _ _ Hrw), decide_True.
    + rewrite lookup_insert_ne by done. intros Ea'. destruct (Hsome nm' c' Ea') as [q [Eq Hq0 (w & Hwq) Hcq]]. exists q.
      assert (q <> p).
      { intros ->. apply Hne. apply (lookup_inj (store f) (VFS_ROOT f) nm' nm p); try done; [by destruct (Hnm _ _ Ea') | by destruct (Hnm _ _ Ea)]. }
      split; [by rewrite Er, (lookup_name_shape (store f)) | done | |].
      * exists w. by rewrite (rw_node _ _ _ _ _ Hrw), decide_False.
      * by rewrite (rw_content _ _ _ _ _ Hrw), decide_False.
  - intros nm' Ea'. destruct (decide (nm' = nm)) as [-> | Hne]; [by rewrite lookup_insert_eq in Ea' |]. rewrite lookup_insert_ne in Ea' by done.
    rewrite Er, (lookup_name_shape (store f)) by done. by apply Hnone.
  - by eapply ramfs_write_calls.
Qed.
End stores.
