(* ===== verification/ShellProps.v ===== *)
(** The shell as its user sees it: a session of commands on files is a walk through a
    map from names to bytes, and the screen is the transcript of the walk. *)
From Stdlib Require Import String.
From S2P Require Import Prelude StringRs ParseState ParseTotal Waiting NetWire Ipv4 Tcp Udp Dns Net Pmm Sync Vmm Heap BumpHeap Thread Elf VfsNode VfsStore RamFiles Ramfs Initrd Devfs Fat16Vfs Vfs VfsTree VfsMake VfsFile VfsSpec VfsProps Term Editor EditorFile Driver Shell ShellFiles.

(** ** What was printed *)

Class Transcript (X : Type) `{Typist X} := {
  seen : X -> list Z;
  seen_getchar : forall x c x', getchar x = Some (c, x') -> seen x' = seen x;
  seen_putchar : forall c x, seen (putchar c x) = seen x ++ [c];
  seen_color : forall f b x, seen (set_color f b x) = seen x }.

Section transcript.
Context {H X : Type} `{KernelHeap H} `{Transcript X}.
Implicit Types f : vfs H X.

(** From [f] to [f'] only the console moves: [out] is printed, [ks] are left. *)
Record prints f f' (out ks : list Z) : Prop := {
  pr_same : f' = set_ext (ext f') f;
  pr_seen : seen (ext f') = seen (ext f) ++ out;
  pr_keys : typed f' = ks }.

Lemma prints_refl f : prints f f [] (typed f).
Proof. split; [by destruct f | by rewrite app_nil_r | done]. Qed.
Lemma prints_trans f1 f2 f3 o1 o2 ks1 ks2 : prints f1 f2 o1 ks1 -> prints f2 f3 o2 ks2 -> prints f1 f3 (o1 ++ o2) ks2.
Proof. intros [E1 S1 K1] [E2 S2 K2]. split; [rewrite E2, E1; done | by rewrite S2, S1, app_assoc | done]. Qed.

Lemma prints_echo c f : prints f (echo c f) [c] (typed f).
Proof. split; [done | apply seen_putchar | apply typed_echo]. Qed.
Lemma prints_paint a b f : prints f (paint a b f) [] (typed f).
Proof. split; [done | by rewrite app_nil_r; exact (seen_color a b (ext f)) | apply typed_paint]. Qed.
Lemma prints_puts t f : prints f (puts t f) t (typed f).
Proof.
  split; [done | | apply typed_puts]. unfold puts. cbn [ext set_ext]. generalize (ext f). induction t as [| c t IH]; intros x; cbn [fold_left].
  - by rewrite app_nil_r.
  - by rewrite IH, seen_putchar, <- app_assoc.
Qed.
Lemma prints_cputs t f : prints f (cputs t f) (cstr t) (typed f).
Proof. apply prints_puts. Qed.

(** A decimal number. *)
Definition decimal (v : Z) : list Z := if v =? 0 then [48] else digits 12 v [].
Lemma prints_uint v f : prints f (Term.print_uint v f) (decimal v) (typed f).
Proof. unfold Term.print_uint, decimal. case_if; [apply prints_echo | apply prints_puts]. Qed.

Lemma prints_key c cs f : typed f = c :: cs -> exists f', key f = Some (c, f') /\ prints f f' [] cs.
Proof.
  unfold typed, key. intros E. pose proof (keys_getchar (ext f)) as Hk. rewrite E in Hk. destruct Hk as (x' & Eg & Hx).
  rewrite Eg. cbn [mbind option_bind]. eexists. split; [done |]. split; [done | rewrite app_nil_r; by eapply seen_getchar | done].
Qed.

(** What the keys of a line echo; [len] are kept so far. *)
Fixpoint line_echo (erase : Z -> bool) (cap len : Z) (cs : list Z) : list Z :=
  match cs with
  | [] => []
  | c :: cs =>
      if erase c then if 0 <? len then 8 :: line_echo erase cap (len - 1) cs else line_echo erase cap len cs
      else if len <? cap - 1 then c :: line_echo erase cap (len + 1) cs else line_echo erase cap len cs
  end.

Lemma read_line_prints enter erase cap e rest cs : forall fuel buf len f buf' n f',
  typed f = cs ++ e :: rest -> enter e = true -> Forall (fun c => enter c = false) cs ->
  Z.of_nat (List.length buf) = cap -> 0 <= len < cap ->
  read_line fuel enter erase cap buf len f = Some (buf', n, f') -> prints f f' (line_echo erase cap len cs ++ [10]) rest.
Proof.
  induction cs as [| c cs IH]; intros [| fuel] buf len f buf' n f' Hk He Hcs Hb Hl; try done; cbn [app] in Hk;
    destruct (prints_key _ _ _ Hk) as (f1 & E1 & P1); cbn [read_line]; rewrite E1; cbn [mbind option_bind].
  - rewrite He, zset_Some by lia. cbn [mbind option_bind]. intros [= _ _ <-]. pose proof (prints_echo 10 f1) as P2.
    rewrite (pr_keys _ _ _ _ P1) in P2. exact (prints_trans _ _ _ _ _ _ _ P1 P2).
  - apply Forall_cons in Hcs as [Hc Hcs]. rewrite Hc. cbn [line_echo]. pose proof (pr_keys _ _ _ _ P1) as K1.
    destruct (erase c).
    + destruct (Z.ltb_spec 0 len).
      * intros E. assert (P2 := prints_echo 8 f1). rewrite K1 in P2.
        apply (prints_trans _ _ _ [] _ _ _ P1). apply (prints_trans _ _ _ [8] _ _ _ P2).
        apply (IH fuel buf (len - 1) (echo 8 f1) buf' n); try done; [by rewrite typed_echo | lia].
      * intros E. apply (prints_trans _ _ _ [] _ _ _ P1). by apply (IH fuel buf len f1 buf' n).
    + destruct (Z.ltb_spec len (cap - 1)).
      * rewrite zset_Some by lia. cbn [mbind option_bind]. intros E. assert (P2 := prints_echo c f1). rewrite K1 in P2.
        apply (prints_trans _ _ _ [] _ _ _ P1). apply (prints_trans _ _ _ [c] _ _ _ P2).
        apply (IH fuel (<[Z.to_nat len := c]> buf) (len + 1) (echo c f1) buf' n); try done; [by rewrite typed_echo | by rewrite length_insert | lia].
      * intros E. apply (prints_trans _ _ _ [] _ _ _ P1). by apply (IH fuel buf len f1 buf' n).
Qed.
End transcript.

(** ** The commands on files *)

Inductive fcmd := Touch (nm : list Z) | Write (nm text : list Z) | Cat (nm : list Z) | Echo (text : list Z).

Definition cmd_line (c : fcmd) : list Z :=
  match c with
  | Touch nm => str "touch " ++ nm
  | Write nm text => str "write " ++ nm ++ 32 :: text
  | Cat nm => str "cat " ++ nm
  | Echo text => str "echo " ++ text
  end.

(** A name of one component that ends at the space. *)
Definition word (nm : list Z) : Prop := nm <> [] /\ no_nul nm /\ 32 ∉ nm /\ 47 ∉ nm.
Definition cmd_ok (c : fcmd) : Prop :=
  match c with Touch nm | Cat nm => word nm | Write nm text => word nm /\ no_nul text | Echo text => no_nul text end.

(** What [cat] shows of a file: all of it when it is shorter than 4096 bytes. *)
Definition cat_text (c : list Z) : list Z :=
  if (4096 <=? List.length c)%nat then take 4096 c ++ [10] ++ str "[output truncated]" ++ [10] else c.

(** The screen's answer and the files after a command; [None] for a name that is not
    known to be there or not. *)
Definition exec_cmd (c : fcmd) (a : fstore) : option (list Z * fstore) :=
  match c with
  | Touch nm => t ← a !! nm; Some (str "Created: " ++ nm ++ [10], <[nm := Some (default [] t)]> a)
  | Write nm text =>
      t ← a !! nm;
      Some (str "Wrote " ++ decimal (Z.of_nat (List.length text)) ++ str " bytes to " ++ nm ++ [10],
            <[nm := Some (overlay 0 text (default [] t))]> a)
  | Cat nm => t ← a !! nm; Some (match t with Some c => cat_text c | None => str "File not found: " ++ nm ++ [10] end, a)
  | Echo text => Some (text ++ [10], a)
  end.

Definition prompt : list Z := str "> ".

(** A session: the keys of each line, and what each line says. *)
Fixpoint transcript (ls : list (list Z * fcmd)) (a : fstore) : option (list Z * fstore) :=
  match ls with
  | [] => Some ([], a)
  | (ks, c) :: ls =>
      '(out, a) ← exec_cmd c a; '(outs, a) ← transcript ls a;
      Some (prompt ++ line_echo is_erase INPUT_SIZE 0 ks ++ [10] ++ out ++ outs, a)
  end.

(** The keys [ks], backspaces and all, make the line of [c]. *)
Definition types (l : list Z * fcmd) : Prop :=
  Forall (fun k => is_enter k = false) l.1 /\ line_edit is_erase INPUT_SIZE [] l.1 = cmd_line l.2 /\ cmd_ok l.2.

Section session.
Context {H X K : Type} `{KernelHeap H} `{Transcript X} `{ShellScreen X} `{FatDisk X}.
Context `{Names K} `{Streams K} `{Pings K} `{AddressSpace K}.
Implicit Types (s : shell H X K) (f : vfs H X).

(** ** The line in the buffer *)

Record holds_line s (l : list Z) : Prop := {
  hl_size : List.length (INPUT s) = 256%nat;
  hl_len : INPUT_LEN s = Z.of_nat (List.length l);
  hl_take : take (S (List.length l)) (INPUT s) = l ++ [0];
  hl_fit : (List.length l <= 255)%nat;
  hl_nul : no_nul l }.

Lemma line_drop s l n : holds_line s l -> (n <= List.length l)%nat -> take (S (List.length l - n)) (drop n (INPUT s)) = drop n l ++ [0].
Proof.
  intros [Hs Hl Ht Hf Hn] Hle. replace (S (List.length l - n)) with (S (List.length l) - n)%nat by lia.
  rewrite <- skipn_firstn_comm, Ht. by rewrite drop_app_le.
Qed.

Lemma line_arg s l n : holds_line s l -> 0 <= n <= Z.of_nat (List.length l) -> arg n s = drop (Z.to_nat n) l.
Proof.
  intros Hh Hle. unfold arg. rewrite (cstr_take_eq _ _ _ (line_drop s l (Z.to_nat n) Hh ltac:(lia))).
  apply cstr_id. apply Forall_drop, (hl_nul _ _ Hh).
Qed.

Lemma line_rest s l n : holds_line s l -> 0 <= n <= Z.of_nat (List.length l) -> rest n s = drop (Z.to_nat n) l.
Proof.
  intros Hh Hle. unfold rest, slice. rewrite (hl_len _ _ Hh). pose proof (line_drop s l (Z.to_nat n) Hh ltac:(lia)) as E.
  apply (f_equal (take (List.length l - Z.to_nat n))) in E. rewrite take_take in E. replace (Z.to_nat (Z.of_nat (List.length l) - n)) with (List.length l - Z.to_nat n)%nat by lia.
  rewrite Nat.min_l in E by lia. rewrite E. rewrite take_app_le, take_ge by (rewrite length_drop; lia). done.
Qed.

Lemma line_at s l : holds_line s l -> INPUT s !! List.length l = Some 0.
Proof.
  intros Hh. rewrite <- (lookup_take_lt _ (S (List.length l))) by lia. rewrite (hl_take _ _ Hh). by apply list_lookup_middle.
Qed.

Lemma line_terminate s l : holds_line s l -> terminate s = Some s.
Proof.
  intros Hh. unfold terminate. rewrite (hl_len _ _ Hh). rewrite zset_Some by (pose proof (hl_size _ _ Hh); pose proof (hl_fit _ _ Hh); lia).
  cbn [mbind option_bind]. rewrite Nat2Z.id, list_insert_id by (by apply line_at). f_equal. rewrite <- (hl_len _ _ Hh). by destruct s.
Qed.

Lemma line_cstr s l : holds_line s l -> cstr (INPUT s) = l.
Proof. intros Hh. exact (line_arg s l 0 Hh ltac:(lia)). Qed.

Lemma line_is_line w s l : holds_line s l -> is_line w s = (strcmp_list l (str w) =? 0).
Proof. intros Hh. unfold is_line. by rewrite (line_cstr s l). Qed.

Lemma line_is_word w s l : holds_line s l -> no_nul (str w) ->
  is_word w s = (strcmp_list (take (List.length (str w)) l) (str w) =? 0) &&
    ((nth (List.length (str w)) l 0 =? 32) || (nth (List.length (str w)) l 0 =? 0)).
Proof.
  intros Hh Hw. unfold is_word. rewrite (line_cstr s l Hh). destruct (strcmp_list _ _ =? 0) eqn:E; [| done]. cbn [andb].
  apply Z.eqb_eq, strcmp_list_eq in E; [| apply Forall_take, (hl_nul _ _ Hh) | done].
  assert (Hlen : (List.length (str w) <= List.length l)%nat) by (rewrite <- E, length_take; lia).
  assert (En : nth (List.length (str w)) (INPUT s) 0 = nth (List.length (str w)) l 0); [| by rewrite En].
  rewrite <- (take_drop (S (List.length l)) (INPUT s)), (hl_take _ _ Hh). rewrite app_nth1 by (rewrite length_app; simpl; lia).
  destruct (decide (List.length (str w) = List.length l)) as [-> |]; [| by rewrite app_nth1 by lia].
  rewrite app_nth2 by lia. rewrite Nat.sub_diag. symmetry. apply nth_overflow. lia.
Qed.

(** ** What a command leaves *)

Record outcome s s' (out ks : list Z) (n : nat) (a : fstore) : Prop := {
  oc_rest : s' = set_input (INPUT s') (INPUT_LEN s') (set_fs (fs s') s);
  oc_input : List.length (INPUT s') = 256%nat;
  oc_seen : seen (ext (fs s')) = seen (ext (fs s)) ++ out;
  oc_keys : typed (fs s') = ks;
  oc_files : stores (fs s') n a;
  oc_calls : exists j, (j <= 5)%nat /\ calls SIZEOF_NODE j (hp (fs s)) (hp (fs s')) }.

(** The files go from those of [s] to [f1], then [out] is printed. *)
Lemma outcome_prints s l f1 f2 out ks n a j : List.length l = 256%nat -> framed (fs s) f1 -> stores f1 n a -> (j <= 5)%nat ->
  calls SIZEOF_NODE j (hp (fs s)) (hp f1) -> prints f1 f2 out ks -> outcome s (set_fs f2 (set_input l (INPUT_LEN s) s)) out ks n a.
Proof.
  intros Hl F Hs Hj K0 [E1 E2 E3]. assert (Ex : ext f1 = ext (fs s)) by (unfold framed in F; by rewrite F).
  split; cbn [fs set_fs INPUT INPUT_LEN set_input]; try done.
  - by rewrite E2, Ex.
  - rewrite E1. by apply stores_ext.
  - exists j. split; [done |]. by rewrite E1.
Qed.

Lemma not_short_after B j k (h h1 : H) : calls B j h h1 -> ~ short B (j + k) h -> ~ short B k h1.
Proof. intros K0 Hn Hs. apply Hn. by eapply short_after. Qed.
Lemma not_short_le B B' k k' (h : H) : B <= B' -> (k <= k')%nat -> ~ short B' k' h -> ~ short B k h.
Proof. intros HB Hk Hn Hs. apply Hn. by eapply short_le. Qed.

(** Successive messages. *)
Lemma prints_puts_on f f' t out ks : prints f f' out ks -> prints f (puts t f') (out ++ t) ks.
Proof. intros P. eapply prints_trans; [exact P |]. rewrite <- (pr_keys _ _ _ _ P). apply prints_puts. Qed.
Lemma prints_cputs_on f f' t out ks : no_nul t -> prints f f' out ks -> prints f (cputs t f') (out ++ t) ks.
Proof. intros Ht P. rewrite <- (cstr_id t Ht) at 2. by apply prints_puts_on. Qed.
Lemma prints_uint_on f f' v out ks : prints f f' out ks -> prints f (Term.print_uint v f') (out ++ decimal v) ks.
Proof. intros P. eapply prints_trans; [exact P |]. rewrite <- (pr_keys _ _ _ _ P). apply prints_uint. Qed.

Lemma outcome_same_line s f1 f2 out ks n a j : List.length (INPUT s) = 256%nat -> framed (fs s) f1 -> stores f1 n a -> (j <= 5)%nat ->
  calls SIZEOF_NODE j (hp (fs s)) (hp f1) -> prints f1 f2 out ks -> outcome s (set_fs f2 s) out ks n a.
Proof.
  intros. assert (E : set_input (INPUT s) (INPUT_LEN s) s = s) by (by destruct s). rewrite <- E at 2. by eapply outcome_prints.
Qed.

(** ** [echo] and [touch] *)

Lemma cmd_echo_spec s t n a : holds_line s (cmd_line (Echo t)) -> no_nul t -> stores (fs s) n a ->
  outcome s (cmd_echo s) (t ++ [10]) (typed (fs s)) n a.
Proof.
  intros Hh Ht Hs. unfold cmd_echo. pose proof (hl_len _ _ Hh) as El. cbn [cmd_line] in *. rewrite length_app in El.
  change (List.length (str "echo ")) with 5%nat in El.
  assert (E : (if 5 <? INPUT_LEN s then say_bytes (rest 5 s) s else s) = set_fs (if 5 <? INPUT_LEN s then cputs t (fs s) else fs s) s).
  { rewrite (line_rest s _ 5 Hh) by (rewrite length_app; change (List.length (str "echo ")) with 5%nat; lia).
    change (drop (Z.to_nat 5) (str "echo " ++ t)) with t. case_if; [done | by destruct s]. }
  rewrite E. apply (outcome_same_line s (fs s) (puts [10] (if 5 <? INPUT_LEN s then cputs t (fs s) else fs s)) _ _ _ _ 0);
    [apply (hl_size _ _ Hh) | apply framed_refl | done | lia | constructor |].
  apply prints_puts_on. destruct (Z.ltb_spec 5 (INPUT_LEN s)).
  - apply (prints_cputs_on _ _ t []); [done | apply prints_refl].
  - destruct t; [apply prints_refl | simpl in El; lia].
Qed.

Lemma touch_line nm : drop (Z.to_nat 6) (cmd_line (Touch nm)) = nm.
Proof. done. Qed.

Lemma cmd_touch_spec s nm n a t : holds_line s (cmd_line (Touch nm)) -> word nm -> stores (fs s) n a -> a !! nm = Some t -> (n < 128)%nat ->
  ~ short SIZEOF_NODE 5 (hp (fs s)) ->
  exists s', cmd_touch s = Some s' /\ outcome s s' (str "Created: " ++ nm ++ [10]) (typed (fs s)) (S n) (<[nm := Some (default [] t)]> a).
Proof.
  intros Hh (Hne & Hnul & _) Hs Ea Hn Hheap. unfold cmd_touch. pose proof (hl_len _ _ Hh) as El. cbn [cmd_line] in El. rewrite length_app in El.
  change (List.length (str "touch ")) with 6%nat in El. assert (List.length nm <> 0%nat) by (by destruct nm).
  rewrite (proj2 (Z.leb_gt (INPUT_LEN s) 6)) by lia. rewrite (line_terminate s _ Hh). cbn [mbind option_bind].
  assert (Hle : 0 <= 6 <= Z.of_nat (List.length (cmd_line (Touch nm)))) by (cbn [cmd_line]; rewrite length_app; change (List.length (str "touch ")) with 6%nat; lia).
  rewrite (line_arg s _ 6 Hh Hle), touch_line.
  destruct (create_file_stores (fs s) n a nm t Hs Ea Hn) as (p & f1 & E & F & Hp & Hs1 & j & Hj & K0); [eapply not_short_le; [| | exact Hheap]; lia |].
  rewrite E. cbn [mbind option_bind]. rewrite (proj2 (Z.eqb_neq p 0)) by apply Hp. cbn [negb]. eexists. split; [reflexivity |].
  assert (Er : rest 6 (set_fs f1 s) = nm) by exact (line_rest s _ 6 Hh Hle). rewrite Er.
  apply (outcome_same_line s f1 (puts [10] (cputs nm (puts (str "Created: ") f1))) _ _ _ _ j);
    [apply (hl_size _ _ Hh) | done | done | lia | done |].
  rewrite app_assoc. apply prints_puts_on, prints_cputs_on; [done |]. apply (prints_puts_on _ _ _ []).
  replace (typed (fs s)) with (typed f1) by (by apply framed_typed). apply prints_refl.
Qed.

(** ** [write] *)

Lemma find_space_word nm r : 32 ∉ nm -> find_space (nm ++ 32 :: r) = Some (List.length nm).
Proof.
  intros Hn. unfold find_space. rewrite list_find_app_r.
  - done.
  - apply list_find_None, Forall_forall. by intros x Hx ->.
Qed.

Lemma find_or_create_stores s n a nm t : stores (fs s) n a -> a !! nm = Some t -> (n < 128)%nat -> ~ short SIZEOF_NODE 2 (hp (fs s)) ->
  exists p f1, find_or_create nm s = Some (p, set_fs f1 s) /\ framed (fs s) f1 /\ file_at f1 nm p (default [] t) /\
    stores f1 (S n) (<[nm := Some (default [] t)]> a) /\ exists j, (j <= 3)%nat /\ calls SIZEOF_NODE j (hp (fs s)) (hp f1).
Proof.
  intros Hs Ea Hn Hheap. unfold find_or_create. destruct (stores_finddir (fs s) n a nm t Hs Ea) as (p & -> & Hp). cbn [mbind option_bind].
  destruct t as [c |]; cbn [default id].
  - exists p, (fs s). rewrite (proj2 (Z.eqb_neq p 0)) by apply Hp. split; [done |]. split; [apply framed_refl |]. split; [done |].
    split; [| exists 0%nat; split; [lia | constructor]]. rewrite insert_id by done. destruct Hs as [? ? (v & ? & ? & ?) ? ? ? ?].
    split; try done. exists v. auto with lia.
  - subst p. cbn [Z.eqb]. destruct (create_file_stores (fs s) n a nm None Hs Ea Hn Hheap) as (p & f1 & -> & R). by exists p, f1.
Qed.

Lemma cmd_write_spec s nm text n a t : holds_line s (cmd_line (Write nm text)) -> word nm -> no_nul text -> stores (fs s) n a ->
  a !! nm = Some t -> (n < 128)%nat -> ~ short SIZEOF_NODE 5 (hp (fs s)) ->
  exists s', cmd_write s = Some s' /\
    outcome s s' (str "Wrote " ++ decimal (Z.of_nat (List.length text)) ++ str " bytes to " ++ nm ++ [10]) (typed (fs s)) (S n)
      (<[nm := Some (overlay 0 text (default [] t))]> a).
Proof.
  intros Hh (Hne & Hnul & Hsp & _) Htext Hs Ea Hn Hheap. unfold cmd_write.
  pose proof (hl_len _ _ Hh) as El. pose proof (hl_fit _ _ Hh) as Hfit. pose proof (hl_size _ _ Hh) as Hsz.
  assert (Elen : List.length (cmd_line (Write nm text)) = (7 + List.length nm + List.length text)%nat)
    by (cbn [cmd_line]; rewrite !length_app; cbn [List.length]; change (List.length (str "write ")) with 6%nat; lia).
  rewrite (proj2 (Z.leb_gt (INPUT_LEN s) 6)) by lia. rewrite (line_terminate s _ Hh). cbn [mbind option_bind].
  assert (Earg : arg 6 s = nm ++ 32 :: text) by (rewrite (line_arg s _ 6 Hh) by lia; done).
  rewrite Earg, find_space_word by done. rewrite zset_Some by lia. cbn [mbind option_bind].
  set (k := Z.to_nat (6 + Z.of_nat (List.length nm))). set (l := <[k := 0]> (INPUT s)). set (s1 := set_input l (INPUT_LEN s) s).
  assert (Hk : k = (6 + List.length nm)%nat) by (unfold k; lia).
  assert (Hd6 : take (S (List.length nm)) (drop 6 l) = nm ++ [0]).
  { unfold l. rewrite drop_insert_ge by lia. rewrite Hk. replace (6 + List.length nm - 6)%nat with (List.length nm) by lia.
    erewrite take_S_r by (apply list_lookup_insert_eq; rewrite length_drop; lia). rewrite take_insert_ge by lia. f_equal.
    pose proof (line_rest s _ 6 Hh ltac:(lia)) as Er. unfold rest, slice in Er. change (Z.to_nat 6) with 6%nat in Er.
    change (drop 6 (cmd_line (Write nm text))) with (nm ++ 32 :: text) in Er. apply (f_equal (take (List.length nm))) in Er.
    rewrite take_take, Nat.min_l, take_app_length in Er by lia. exact Er. }
  assert (Enm : arg 6 s1 = nm) by (unfold arg; cbn [INPUT s1 set_input]; change (Z.to_nat 6) with 6%nat; rewrite (cstr_take_eq _ _ _ Hd6); by apply cstr_id).
  assert (Etx : arg (6 + Z.of_nat (List.length nm) + 1) s1 = text).
  { unfold arg. cbn [INPUT s1 set_input]. unfold l. rewrite drop_insert_lt by lia.
    pose proof (line_arg s _ (6 + Z.of_nat (List.length nm) + 1) Hh ltac:(lia)) as Er. unfold arg in Er. rewrite Er.
    replace (Z.to_nat (6 + Z.of_nat (List.length nm) + 1)) with (List.length (str "write ") + (S (List.length nm)))%nat by (change (List.length (str "write ")) with 6%nat; lia).
    cbn [cmd_line]. rewrite drop_app_add. rewrite drop_app, drop_ge by lia. by replace (S (List.length nm) - List.length nm)%nat with 1%nat by lia. }
  rewrite Enm, Etx.
  destruct (find_or_create_stores s1 n a nm t Hs Ea Hn) as (p & f1 & Ef & F1 & Hp & Hs1 & j & Hj & K1); [eapply not_short_le; [| | exact Hheap]; lia |].
  rewrite Ef. cbn [mbind option_bind]. rewrite (proj2 (Z.eqb_neq p 0)) by apply Hp.
  destruct (write_stores f1 (S n) _ nm p (default [] t) text Hs1) as (f2 & Ew & F2 & Hs2 & j2 & Hj2 & K2); [by rewrite lookup_insert_eq | done | lia | |].
  { apply (not_short_le 512 SIZEOF_NODE 0 (5 - j)); [unfold SIZEOF_NODE; lia | lia |].
    eapply not_short_after; [exact K1 |]. by replace (j + (5 - j))%nat with 5%nat by lia. }
  change (fs (set_fs f1 s1)) with f1. rewrite Ew. cbn [mbind option_bind]. rewrite (proj2 (Z.ltb_ge _ 0)) by lia.
  eexists. split; [reflexivity |]. rewrite insert_insert_eq in Hs2.
  assert (Esl : slice 6 (List.length nm) l = nm).
  { unfold slice. apply (f_equal (take (List.length nm))) in Hd6. rewrite take_take, Nat.min_l, take_app_length in Hd6 by lia. exact Hd6. }
  change (INPUT (say (str " bytes to ") (print_uint (Z.of_nat (List.length text)) (say (str "Wrote ") (set_fs f2 (set_fs f1 s1)))))) with l. rewrite Esl.
  apply (outcome_prints s l f2 (puts [10] (cputs nm (puts (str " bytes to ") (Term.print_uint (Z.of_nat (List.length text)) (puts (str "Wrote ") f2))))) _ _ _ _ (j + j2));
    [unfold l; by rewrite length_insert | by eapply framed_trans | done | lia | |].
  - eapply calls_app; [exact K1 |]. eapply calls_le; [| exact K2]. unfold SIZEOF_NODE. lia.
  - rewrite !app_assoc. apply prints_puts_on, prints_cputs_on; [done |]. apply prints_puts_on, prints_uint_on. apply (prints_puts_on _ _ _ []).
    replace (typed (fs s)) with (typed f2) by (rewrite (framed_typed _ _ F2); by apply framed_typed). apply prints_refl.
Qed.

(** ** [cat] *)

Lemma components_word nm : nm <> [] -> 47 ∉ nm -> (List.length nm <= 63)%nat -> components nm = [nm].
Proof.
  intros Hne Hs Hl. unfold components.
  assert (E : split_on nm = [nm]).
  { clear Hne Hl. induction nm as [| c nm IH]; [done |]. apply not_elem_of_cons in Hs as [Hc Hs]. cbn [split_on].
    rewrite (proj2 (Z.eqb_neq c 47)) by congruence. by rewrite IH. }
  rewrite E. rewrite filter_cons_True by done. cbn. by rewrite take_ge.
Qed.

(** Descriptor [i] is open on [p] at [off]. *)
Definition fd_at f (i : nat) (p off : Z) : vfs H X := set_fds (<[i := Fd p off true]> (FD_TABLE f)) f.

(** What is left to print at [off]. *)
Definition cat_rest (off : nat) (c : list Z) : list Z :=
  if (4096 <=? List.length c)%nat then drop off (take 4096 c) ++ [10] ++ str "[output truncated]" ++ [10] else drop off c.

Lemma fd_read_at f n a nm p c i off : stores f n a -> file_at f nm p c -> (i < 32)%nat -> (i < List.length (FD_TABLE f))%nat ->
  (off <= List.length c)%nat -> Z.of_nat (List.length c) < 2 ^ 32 ->
  let l := take 256 (drop off c) in
  vfs_fd_read (Z.of_nat i) 256 (fd_at f i p (Z.of_nat off)) =
    Some (Z.of_nat (List.length l), l, fd_at f i p (Z.of_nat (off + List.length l))).
Proof.
  intros Hs Hp Hi Hlen Hoff Hc l. destruct (st_ok _ _ _ Hs) as [live [Hh Ht Hf]].
  unfold vfs_fd_read. assert (Eo : open_fd (Z.of_nat i) (fd_at f i p (Z.of_nat off)) = Some (Fd p (Z.of_nat off) true)).
  { unfold open_fd, fd_at. change (Z.of_nat MAX_OPEN_FILES) with 32. rewrite (proj2 (Z.ltb_ge _ 0)), (proj2 (Z.leb_gt 32 _)) by lia. cbn [orb FD_TABLE set_fds].
    rewrite Nat2Z.id, list_lookup_insert_eq by done. done. }
  rewrite Eo. cbn [mbind option_bind node offset]. destruct Hp as [_ Hp0 (v & Hv & Hr & _) Hcont].
  unfold Vfs.read. rewrite (proj2 (Z.eqb_neq p 0)) by done. unfold node_at, fd_at. cbn [store set_fds]. rewrite Hv. cbn [mbind option_bind].
  rewrite Hr. unfold pure.
  rewrite (ramfs_read_spec (set_fds (<[i := Fd p (Z.of_nat off) true]> (FD_TABLE f)) f) p c) by (done || lia). cbn [mbind option_bind].
  assert (El : file_slice (Z.of_nat off) 256 c = l) by (unfold file_slice, l; by rewrite Nat2Z.id). rewrite El.
  assert (Hl : (List.length l <= 256)%nat) by (unfold l; rewrite length_take; lia). rewrite i32_small by lia.
  unfold advance. cbn [node offset FD_TABLE set_fds]. rewrite Nat2Z.id, list_insert_insert_eq. destruct (Z.ltb_spec 0 (Z.of_nat (List.length l))) as [Hpos | Hz].
  - rewrite u32_small by (unfold l in *; rewrite length_take, length_drop in *; lia). by rewrite <- Nat2Z.inj_add.
  - replace (off + List.length l)%nat with off by lia. done.
Qed.

Lemma fd_at_puts f i p off t : fd_at (puts t f) i p off = puts t (fd_at f i p off).
Proof. done. Qed.

Lemma chunk_split {A} (l d : list A) off : take 256 (drop off d) = l -> l ++ drop (off + List.length l) d = drop off d.
Proof.
  intros <-. rewrite <- drop_drop. set (e := drop off d). rewrite length_take.
  destruct (decide (256 <= List.length e)%nat).
  - rewrite Nat.min_l by done. apply take_drop.
  - by rewrite Nat.min_r, drop_ge, app_nil_r, take_ge by lia.
Qed.

(** From a block boundary, or from the end; [k] blocks are left before the limit. *)
Lemma cat_loop_spec nm p c i n a : (i < 32)%nat -> Z.of_nat (List.length c) < 2 ^ 32 -> forall k off fuel s f,
  stores f n a -> file_at f nm p c -> (i < List.length (FD_TABLE f))%nat -> fs s = fd_at f i p (Z.of_nat off) ->
  (off + 256 * k = 4096 /\ 0 < k \/ off = List.length c /\ off < 4096)%nat -> (off <= List.length c)%nat -> (S k < fuel)%nat ->
  exists x off', cat_loop fuel (Z.of_nat i) (Z.of_nat off) s = Some (set_fs (fd_at (set_ext x f) i p off') s) /\
    seen x = seen (ext f) ++ cat_rest off c /\ keys x = keys (ext f).
Proof.
  intros Hi Hc. induction k as [| k IH]; intros off fuel s f Hs Hp Hlen Es Hoff Hle Hf; (destruct fuel as [| fuel]; [lia |]); cbn [cat_loop];
    rewrite Es, (fd_read_at f n a nm p c i off) by done; cbn [mbind option_bind].
  - assert (off = List.length c /\ (off < 4096)%nat) as [-> Hlt] by lia. rewrite drop_ge by lia. cbn [take List.length Z.of_nat Z.leb Z.compare].
    rewrite Nat.add_0_r. exists (ext f), (Z.of_nat (List.length c)). split; [by destruct f |]. split; [| done].
    unfold cat_rest. rewrite (proj2 (Nat.leb_gt _ _)), drop_ge, app_nil_r by lia. done.
  - set (l := take 256 (drop off c)). assert (Hl : (List.length l <= 256)%nat) by (unfold l; rewrite length_take; lia).
    destruct (Z.leb_spec (Z.of_nat (List.length l)) 0) as [Hz | Hpos].
    { assert (off = List.length c) as -> by (unfold l in Hz; rewrite length_take, length_drop in Hz; lia).
      exists (ext f), (Z.of_nat (List.length c + List.length l)). split; [by destruct f |]. split; [| done].
      unfold cat_rest. rewrite (proj2 (Nat.leb_gt _ _)), drop_ge, app_nil_r by lia. done. }
    assert (Hoff2 : (off + 256 * S k = 4096)%nat) by (destruct Hoff as [[? _] | [-> _]]; [done | unfold l in Hpos; rewrite drop_ge, take_nil in Hpos by lia; simpl in Hpos; lia]).
    rewrite Nat2Z.id. rewrite (take_ge l) by lia. rewrite u32_small by lia.
    pose proof (prints_puts l f) as Pl.
    assert (Enext : (off + List.length l <= 4096)%nat) by lia.
    destruct (Z.leb_spec 4096 (Z.of_nat off + Z.of_nat (List.length l))) as [Hfull | Hmore].
    + assert (k = 0%nat) as -> by lia. assert (Hlc : (4096 <= List.length c)%nat) by (unfold l in Hfull; rewrite length_take, length_drop in Hfull; lia).
      eexists (ext (puts ([10] ++ str "[output truncated]" ++ [10]) (puts l f))), _. split; [reflexivity |].
      rewrite (pr_seen _ _ _ _ (prints_puts _ (puts l f))), (pr_seen _ _ _ _ Pl), <- app_assoc.
      split; [| change (keys (ext ?g)) with (typed g); by rewrite !typed_puts].
      unfold cat_rest. rewrite (proj2 (Nat.leb_le _ _)) by done. do 2 f_equal. unfold l. rewrite skipn_firstn_comm. f_equal. lia.
    + rewrite <- Nat2Z.inj_add. set (s1 := say l _).
      destruct (IH (off + List.length l)%nat fuel s1 (puts l f)) as (x & off' & E & Ex & Ek); try done.
      * by apply stores_puts.
      * destruct Hp as [? ? [v ?] ?]. split; try done. by exists v.
      * destruct (decide (List.length l = 256%nat)); [left; lia | right]. unfold l in *. rewrite length_take, length_drop in *. lia.
      * unfold l. rewrite length_take, length_drop. lia.
      * lia.
      * exists x, off'. rewrite E. split; [reflexivity |]. rewrite Ex, (pr_seen _ _ _ _ Pl). split; [| rewrite Ek; apply typed_puts].
        rewrite <- app_assoc. f_equal. unfold cat_rest.
        case_if; [rewrite app_assoc; f_equal |]; apply chunk_split; [| done].
        unfold l. breflect. rewrite skipn_firstn_comm, take_take. f_equal. lia.
Qed.

Lemma first_free_lt t : forall j i, first_free j t = Some i -> (j <= i < j + List.length t)%nat.
Proof.
  induction t as [| e t IH]; intros j i; cbn; [done |]. destruct (in_use e); [| intros [= <-]; lia]. intros E. apply IH in E. lia.
Qed.
Lemma first_free_closed t : forall j i, first_free j t = Some i -> first_free j (<[(i - j)%nat := EMPTY_FD]> t) = Some i.
Proof.
  induction t as [| e t IH]; intros j i; cbn [first_free]; [done |]. destruct (in_use e) eqn:Eu.
  - intros E. pose proof (first_free_lt _ _ _ E). replace (i - j)%nat with (S (i - S j)) by lia. cbn [insert list_insert first_free].
    rewrite Eu. by apply IH.
  - intros [= <-]. by rewrite Nat.sub_diag.
Qed.

(** Another descriptor table with a free entry. *)
Lemma stores_set_fds f n a t i : stores f n a -> (i < 32)%nat -> first_free 0 t = Some i -> stores (set_fds t f) n a.
Proof.
  intros [[live [[] [] ?]] ? [v ?] ? ? Hs ?] Hi Hf. split; try done.
  - exists live. split; [split | split |]; done.
  - by exists v.
  - by exists i.
  - intros nm c E. destruct (Hs nm c E) as [p [? ? [w ?] ?]]. exists p. split; try done. by exists w.
Qed.

Lemma file_length f n a nm p c : stores f n a -> file_at f nm p c -> Z.of_nat (List.length c) < 2 ^ 32.
Proof.
  intros Hs [_ _ (v & Hv & _) Hc]. destruct (st_ok _ _ _ Hs) as [live [_ _ Hf]]. by apply (holds_length (store f) p v), holds_content.
Qed.

Lemma cat_rest_0 c : cat_rest 0 c = cat_text c.
Proof. reflexivity. Qed.

Lemma cmd_cat_spec fuel s nm n a t : holds_line s (cmd_line (Cat nm)) -> word nm -> stores (fs s) n a -> a !! nm = Some t -> (18 <= fuel)%nat ->
  exists s', cmd_cat fuel s = Some s' /\
    outcome s s' (match t with Some c => cat_text c | None => str "File not found: " ++ nm ++ [10] end) (typed (fs s)) n a.
Proof.
  intros Hh (Hne & Hnul & _ & Hsl) Hs Ea Hfuel. unfold cmd_cat.
  assert (Elen : List.length (cmd_line (Cat nm)) = (4 + List.length nm)%nat)
    by (cbn [cmd_line]; rewrite !length_app; change (List.length (str "cat ")) with 4%nat; lia).
  pose proof (hl_len _ _ Hh) as El. assert (List.length nm <> 0%nat) by (by destruct nm).
  rewrite (proj2 (Z.leb_gt (INPUT_LEN s) 4)) by lia. rewrite (line_terminate s _ Hh). cbn [mbind option_bind].
  assert (Earg : arg 4 s = nm) by (rewrite (line_arg s _ 4 Hh) by lia; done). rewrite Earg.
  destruct (st_ok _ _ _ Hs) as [live Hok]. pose proof (vo_tree _ _ Hok) as Ht. destruct (st_names _ _ _ Hs nm t Ea) as [_ H63].
  assert (Ew : forall p, lookup_name (store (fs s)) (VFS_ROOT (fs s)) nm = Some p -> walk (store (fs s)) (VFS_ROOT (fs s)) (components nm) = Some p).
  { intros p E. rewrite (components_word nm) by done. cbn [walk]. by rewrite E. }
  destruct (st_fds _ _ _ Hs) as (i & Hi & Ei). unfold vfs_open. destruct t as [c |].
  - destruct (st_some _ _ _ Hs nm c Ea) as [p Hp]. rewrite (resolve_path_walk _ _ p Ht) by (apply Ew, Hp). cbn [mbind option_bind].
    rewrite (proj2 (Z.eqb_neq p 0)), Ei by apply Hp. cbn [mbind option_bind]. rewrite (proj2 (Z.ltb_ge _ 0)) by lia.
    pose proof (first_free_lt _ _ _ Ei) as Hil.
    destruct (cat_loop_spec nm p c i n a Hi (file_length _ _ _ _ _ _ Hs Hp) 16 0%nat fuel (set_fs (fd_at (fs s) i p 0) s) (fs s)) as (x & off' & E & Ex & Ek);
      [done | done | lia | done | lia | lia | lia |].
    change (set_fs _ s) with (set_fs (fd_at (fs s) i p 0) s). change (Z.of_nat 0) with 0 in E. rewrite E. cbn [mbind option_bind].
    eexists. split; [reflexivity |].
    assert (Ecl : vfs_close (Z.of_nat i) (fd_at (set_ext x (fs s)) i p off') = set_fds (<[i := EMPTY_FD]> (FD_TABLE (fs s))) (set_ext x (fs s))).
    { unfold vfs_close, fd_at. change (Z.of_nat MAX_OPEN_FILES) with 32. rewrite (proj2 (Z.ltb_ge _ 0)), (proj2 (Z.leb_gt 32 _)) by lia.
      cbn [orb FD_TABLE set_fds set_ext]. by rewrite Nat2Z.id, list_insert_insert_eq. }
    unfold on_fs. cbn [fs set_fs]. rewrite Ecl. rewrite cat_rest_0 in Ex.
    split; cbn [fs set_fs INPUT INPUT_LEN ext hp set_fds set_ext]; try done.
    + apply (hl_size _ _ Hh).
    + apply (stores_set_fds (set_ext x (fs s)) n a _ i); [by apply stores_ext | done |].
      pose proof (first_free_closed _ _ _ Ei) as Ec. by rewrite Nat.sub_0_r in Ec.
    + exists 0%nat. split; [lia | constructor].
  - rewrite (resolve_path_walk _ _ 0 Ht) by (apply Ew, (st_none _ _ _ Hs nm Ea)). cbn [mbind option_bind Z.eqb Z.ltb Z.compare].
    eexists. split; [reflexivity |]. unfold file_not_found. assert (Er : rest 4 (set_fs (fs s) s) = nm) by (exact (line_rest s _ 4 Hh ltac:(lia))). rewrite Er.
    apply (outcome_same_line s (fs s) (puts [10] (cputs nm (puts (str "File not found: ") (fs s)))) _ _ _ _ 0);
      [apply (hl_size _ _ Hh) | apply framed_refl | done | lia | constructor |].
    rewrite app_assoc. apply prints_puts_on, prints_cputs_on; [done |]. apply (prints_puts_on _ _ _ []), prints_refl.
Qed.

(** ** A line *)

Variables (heap_free : H -> Z) (exit_fn test_thread : Z) (exec : Z -> shell H X K -> option (Z * shell H X K)).
Variables (addr : string -> Z) (target_arch : arch).
Notation dispatch := (dispatch heap_free exit_fn test_thread exec addr target_arch).
Notation round := (round heap_free exit_fn test_thread exec addr target_arch).
Notation rounds := (rounds heap_free exit_fn test_thread exec addr target_arch).

(** Whether the test of a command word succeeds on the line, by evaluation. *)
Ltac line_test Hh s w v := rewrite (line_is_line w s _ Hh : is_line w s = v).
Ltac word_test Hh s w v :=
  let Hw := fresh in assert (Hw : no_nul (str w)) by (by repeat constructor);
  rewrite (line_is_word w s _ Hh Hw : is_word w s = v); clear Hw.

Lemma dispatch_cmd fuel s c : holds_line s (cmd_line c) ->
  dispatch fuel s = (s ← match c with Touch _ => cmd_touch s | Write _ _ => cmd_write s | Cat _ => cmd_cat fuel s | Echo _ => Some (cmd_echo s) end; Some (Some s)).
Proof.
  intros Hh. unfold Shell.dispatch. destruct c; line_test Hh s "help"%string false; line_test Hh s "clear"%string false.
  4: by word_test Hh s "echo"%string true.
  all: word_test Hh s "echo"%string false; word_test Hh s "ls"%string false.
  3: by word_test Hh s "cat"%string true.
  all: word_test Hh s "cat"%string false; line_test Hh s "mem"%string false; word_test Hh s "ping"%string false; word_test Hh s "resolve"%string false.
  1: by word_test Hh s "touch"%string true.
  all: word_test Hh s "touch"%string false; by word_test Hh s "write"%string true.
Qed.

Lemma cmd_line_nul c : cmd_ok c -> no_nul (cmd_line c).
Proof.
  assert (Hw : forall w, no_nul w -> forall l, no_nul l -> no_nul (w ++ l)) by (intros; by apply Forall_app).
  destruct c; intros Hc; cbn [cmd_line cmd_ok] in *; (apply Hw; [by repeat constructor |]).
  - by destruct Hc as (_ & ? & _).
  - destruct Hc as [(_ & ? & _) ?]. apply Hw; [done |]. by constructor.
  - by destruct Hc as (_ & ? & _).
  - done.
Qed.

Lemma shell_readline_spec fuel s ks e rest c : List.length (INPUT s) = 256%nat -> typed (fs s) = ks ++ e :: rest -> is_enter e = true ->
  types (ks, c) -> (List.length ks < fuel)%nat ->
  exists s1, shell_readline fuel (shell_prompt s) = Some s1 /\ holds_line s1 (cmd_line c) /\
    prints (fs s) (fs s1) (prompt ++ line_echo is_erase INPUT_SIZE 0 ks ++ [10]) rest /\
    s1 = set_input (INPUT s1) (INPUT_LEN s1) (set_fs (fs s1) s).
Proof.
  intros Hi Hk He (Hks & Hline & Hok) Hf. cbn [fst snd] in *.
  assert (P1 : prints (fs s) (fs (shell_prompt s)) prompt (ks ++ e :: rest)).
  { rewrite <- Hk. change (fs (shell_prompt s)) with (paint LightGrey Black (puts prompt (paint LightGreen Black (fs s)))).
    replace prompt with ([] ++ prompt ++ []) by (by rewrite app_nil_r). eapply prints_trans; [apply prints_paint |].
    cbn [app]. rewrite app_nil_r. replace prompt with (prompt ++ []) at 2 by (by rewrite app_nil_r). eapply prints_trans; [apply prints_puts |].
    pose proof (prints_paint LightGrey Black (puts prompt (paint LightGreen Black (fs s)))) as P. by rewrite typed_puts, typed_paint in P. }
  destruct (read_line_spec is_enter is_erase INPUT_SIZE e rest ks fuel (INPUT s) 0 (fs (shell_prompt s))) as (buf & f & E & T & _ & L & W);
    [by apply pr_keys in P1 | done | done | done | unfold INPUT_SIZE; lia | unfold INPUT_SIZE; lia |].
  change (take (Z.to_nat 0) (INPUT s)) with (@nil Z) in *. cbv zeta in E. rewrite Hline in E, W.
  pose proof (line_edit_length is_erase INPUT_SIZE ks [] ltac:(cbn; unfold INPUT_SIZE; lia)) as Hl. rewrite Hline in Hl. unfold INPUT_SIZE in Hl.
  pose proof (read_line_prints is_enter is_erase INPUT_SIZE e rest ks fuel (INPUT s) 0 (fs (shell_prompt s)) _ _ _ (pr_keys _ _ _ _ P1) He Hks
    ltac:(unfold INPUT_SIZE; lia) ltac:(unfold INPUT_SIZE; lia) E) as P2.
  eexists. unfold shell_readline. change (INPUT (shell_prompt s)) with (INPUT s). rewrite E. cbn [mbind option_bind]. split; [reflexivity |].
  split; [| split; [by eapply prints_trans | done]].
  split; cbn [INPUT INPUT_LEN set_fs set_input]; [by rewrite L | done | exact W | lia | by apply cmd_line_nul].
Qed.

Lemma outcome_after s s1 s' o1 o2 ks1 ks n a : prints (fs s) (fs s1) o1 ks1 -> s1 = set_input (INPUT s1) (INPUT_LEN s1) (set_fs (fs s1) s) ->
  outcome s1 s' o2 ks n a -> outcome s s' (o1 ++ o2) ks n a.
Proof.
  intros [P1 P2 _] E [R1 R2 R3 R4 R5 R6]. split; try done.
  - rewrite R1, E. done.
  - by rewrite R3, P2, app_assoc.
  - rewrite P1 in R6. exact R6.
Qed.

Lemma outcome_weaken s s' out ks n n' a : (n <= n')%nat -> outcome s s' out ks n a -> outcome s s' out ks n' a.
Proof.
  intros Hn [R1 R2 R3 R4 [? ? (v & ? & ? & ?) ? ? ? ?] R6]. split; try done. split; try done. exists v. auto with lia.
Qed.

(** One round of the loop is one command of the transcript. *)
Lemma round_spec fuel s ks e rest c n a out a' : List.length (INPUT s) = 256%nat -> stores (fs s) n a -> typed (fs s) = ks ++ e :: rest ->
  is_enter e = true -> types (ks, c) -> exec_cmd c a = Some (out, a') -> (n < 128)%nat -> ~ short SIZEOF_NODE 5 (hp (fs s)) ->
  (List.length ks < fuel)%nat -> (18 <= fuel)%nat ->
  exists s', round fuel s = Some (Some s') /\
    outcome s s' (prompt ++ line_echo is_erase INPUT_SIZE 0 ks ++ [10] ++ out) rest (S n) a'.
Proof.
  intros Hi Hs Hk He Hty Hex Hn Hheap Hf Hfuel. pose proof Hty as (_ & _ & Hok). cbn [snd] in Hok.
  destruct (shell_readline_spec fuel s ks e rest c Hi Hk He Hty Hf) as (s1 & E1 & Hh & P1 & R1).
  assert (Hs1 : stores (fs s1) n a) by (rewrite (pr_same _ _ _ _ P1); by apply stores_ext).
  assert (Hh1 : ~ short SIZEOF_NODE 5 (hp (fs s1))) by (by rewrite (pr_same _ _ _ _ P1)).
  unfold Shell.round. rewrite E1. cbn [mbind option_bind].
  assert (H0c : exists c0, zget (INPUT s1) 0 = Some c0 /\ c0 <> 0).
  { pose proof (hl_take _ _ Hh) as Ht. destruct (INPUT s1) as [| c0 l0]; [destruct c; discriminate |]. exists c0. split; [done |].
    destruct c; cbn in Ht; injection Ht as -> _; done. }
  destruct H0c as (c0 & Ez & Hc0). rewrite Ez. cbn [mbind option_bind]. rewrite (proj2 (Z.eqb_neq c0 0)) by done.
  rewrite (dispatch_cmd fuel s1 c Hh).
  assert (R : exists s', match c with Touch _ => cmd_touch s1 | Write _ _ => cmd_write s1 | Cat _ => cmd_cat fuel s1 | Echo _ => Some (cmd_echo s1) end = Some s' /\
    outcome s1 s' out rest (S n) a').
  { pose proof (pr_keys _ _ _ _ P1) as Kr. destruct c as [nm | nm text | nm | text]; cbn [exec_cmd cmd_ok] in *.
    - destruct (a !! nm) as [t |] eqn:Ea; [| done]. injection Hex as <- <-. rewrite <- Kr. by apply (cmd_touch_spec s1 nm n a t).
    - destruct (a !! nm) as [t |] eqn:Ea; [| done]. injection Hex as <- <-. rewrite <- Kr. destruct Hok. by apply (cmd_write_spec s1 nm text n a t).
    - destruct (a !! nm) as [t |] eqn:Ea; [| done]. injection Hex as <- <-. rewrite <- Kr.
      destruct (cmd_cat_spec fuel s1 nm n a t Hh Hok Hs1 Ea Hfuel) as (s' & E & R). exists s'. split; [done |]. by apply (outcome_weaken _ _ _ _ n); [lia |].
    - injection Hex as <- <-. rewrite <- Kr. eexists. split; [done |]. apply (outcome_weaken _ _ _ _ n); [lia |]. by apply cmd_echo_spec. }
  destruct R as (s' & -> & R). cbn [mbind option_bind]. exists s'. split; [done |].
  replace (prompt ++ line_echo is_erase INPUT_SIZE 0 ks ++ [10] ++ out) with ((prompt ++ line_echo is_erase INPUT_SIZE 0 ks ++ [10]) ++ out)
    by (by rewrite <- !app_assoc). by eapply outcome_after.
Qed.

(** ** A session *)

Definition session_keys (ls : list (list Z * fcmd)) : list Z := concat (map (fun l => l.1 ++ [10]) ls).

Lemma calls_short (h h1 : H) j k : (j <= 5)%nat -> calls SIZEOF_NODE j h h1 -> ~ short SIZEOF_NODE (5 + k) h -> ~ short SIZEOF_NODE k h1.
Proof. intros Hj K1 Hs. eapply not_short_after; [exact K1 |]. eapply not_short_le; [| | exact Hs]; lia. Qed.

Lemma rounds_spec fuel rest ls : forall s n a out a', List.length (INPUT s) = 256%nat -> stores (fs s) n a ->
  typed (fs s) = session_keys ls ++ rest -> Forall types ls -> transcript ls a = Some (out, a') -> (n + List.length ls <= 128)%nat ->
  ~ short SIZEOF_NODE (5 * List.length ls) (hp (fs s)) -> Forall (fun l => (List.length l.1 < fuel)%nat) ls -> (18 <= fuel)%nat ->
  exists s', rounds fuel (List.length ls) s = Some (Some s') /\ s' = set_input (INPUT s') (INPUT_LEN s') (set_fs (fs s') s) /\
    seen (ext (fs s')) = seen (ext (fs s)) ++ out /\ typed (fs s') = rest /\ stores (fs s') (n + List.length ls) a'.
Proof.
  induction ls as [| [ks c] ls IH]; intros s n a out a' Hi Hs Hk Hty Htr Hn Hheap Hf Hfuel; cbn [List.length Shell.rounds transcript] in *.
  - injection Htr as <- <-. exists s. rewrite Nat.add_0_r, app_nil_r. split; [done |]. split; [by destruct s |]. done.
  - apply Forall_cons in Hty as [Ht Hty]. apply Forall_cons in Hf as [Hf1 Hf]. cbn [fst] in Hf1.
    apply bind_Some in Htr as ([o1 a1] & Ex & Htr). apply bind_Some in Htr as ([os a2] & Etr & Htr). injection Htr as <- <-.
    assert (Hk1 : typed (fs s) = ks ++ 10 :: (session_keys ls ++ rest)).
    { rewrite Hk. unfold session_keys. cbn [map concat fst]. by rewrite <- !app_assoc. }
    destruct (round_spec fuel s ks 10 (session_keys ls ++ rest) c n a o1 a1) as (s1 & E1 & R); try done; try lia.
    { eapply not_short_le; [| | exact Hheap]; lia. }
    rewrite E1. cbn [mbind option_bind]. destruct R as [R1 R2 R3 R4 R5 (j & Hj & K1)].
    destruct (IH s1 (S n) a1 os a2) as (s2 & E2 & R1' & R3' & R4' & R5'); try done; try lia.
    { apply (calls_short (hp (fs s)) _ j); [lia | done |]. by replace (5 + 5 * List.length ls)%nat with (5 * S (List.length ls))%nat by lia. }
    exists s2. split; [done |]. split; [rewrite R1', R1; done |]. split; [| split; [done |]].
    + rewrite R3', R3. by rewrite <- !app_assoc.
    + by replace (n + S (List.length ls))%nat with (S n + List.length ls)%nat by lia.
Qed.

Definition greeting_text : list Z :=
  str "opsys v0.1" ++ [10] ++ str "Type 'help' for available commands." ++ [10; 10].

(** C40: A session at the shell.  The root directory is a map from names to bytes.
    Whatever mix of [touch], [write], [cat] and [echo] lines is typed, with corrections,
    the screen shows the greeting and then, for every line, the prompt, what was typed as
    it was typed, and the answer of the command on that map: the file as the lines before
    have left it, the length written, or that there is no such file; afterwards
    the files are those of the map, the keys that follow are unread, and nothing but the
    line buffer, the screen and the file system has changed.  The heap and the directory
    must have room for as many new files as lines. *)
Theorem shell_session fuel ls s n a rest out a' : List.length (INPUT s) = 256%nat -> stores (fs s) n a ->
  typed (fs s) = session_keys ls ++ rest -> Forall types ls -> transcript ls a = Some (out, a') -> (n + List.length ls <= 128)%nat ->
  ~ short SIZEOF_NODE (5 * List.length ls) (hp (fs s)) -> Forall (fun l => (List.length l.1 < fuel)%nat) ls -> (18 <= fuel)%nat ->
  exists s', run heap_free exit_fn test_thread exec addr target_arch fuel (List.length ls) s = Some (Some s') /\
    s' = set_input (INPUT s') (INPUT_LEN s') (set_fs (fs s') s) /\
    seen (ext (fs s')) = seen (ext (fs s)) ++ greeting_text ++ out /\ typed (fs s') = rest /\ stores (fs s') (n + List.length ls) a'.
Proof.
  intros Hi Hs Hk Hty Htr Hn Hheap Hf Hfuel. unfold run.
  assert (P : prints (fs s) (fs (greeting s)) greeting_text (typed (fs s))).
  { change (fs (greeting s)) with (puts (str "Type 'help' for available commands." ++ [10; 10]) (puts (str "opsys v0.1" ++ [10]) (fs s))).
    unfold greeting_text. rewrite app_assoc. apply prints_puts_on, (prints_puts_on _ _ _ []), prints_refl. }
  destruct (rounds_spec fuel rest ls (greeting s) n a out a') as (s' & E & R1 & R3 & R4 & R5); try done.
  - by apply stores_puts, stores_puts.
  - by rewrite (pr_keys _ _ _ _ P).
  - exists s'. split; [exact E |]. split; [exact R1 |]. split; [| done]. by rewrite R3, (pr_seen _ _ _ _ P), app_assoc.
Qed.
End session.

(** ** A session on the desk *)

#[export] Program Instance desk_transcript : Transcript desk := {| seen x := x.2 |}.
Next Obligation. intros [[| k ks] o] c x'; cbn; [done |]. by intros [= _ <-]. Qed.
Next Obligation. done. Qed.
Next Obligation. done. Qed.
#[export] Instance desk_screen : ShellScreen desk := {| clear := fun x => x; get_mirror := fun _ => false; set_mirror := fun _ x => x |}.

(** A machine without a network. *)
Definition bare : Type := Z -> Z.
#[export] Instance bare_names : Names bare := fun _ k => Some (None, k).
#[export] Instance bare_streams : Streams bare := {|
  t_connect := fun _ _ k => Some (-1, k); t_send := fun _ _ _ k => Some (-1, k); t_recv := fun _ _ _ k => Some ([], k); t_close := fun _ k => Some k |}.
#[export] Instance bare_pings : Pings bare := {|
  e_send := fun _ _ _ k => k; e_got := fun k => (None, k); e_ticks := fun _ => 0; e_halt := fun _ => None; e_wait := fun _ k => Some k |}.
#[export] Program Instance bare_memory : AddressSpace bare := {|
  vread a k := k a; vstore a b k := fun x => if x =? a then b else k x;
  as_alloc_page k := (0, k); as_map_page := fun _ _ _ k => k |}.
Next Obligation. done. Qed.

Definition desk_shell (ks : list Z) : shell bump desk bare :=
  Sh (replicate 256 0) 0 (desk_vfs ks) (replicate 256 (replicate 80 0)) 0 (replicate 64 0) ParseTotal.initial_state
    (Sched [] 0%nat 1 0 (fun _ => 0) 0 (hp (desk_vfs []))) (Pmm [] 0 0) 0 (fun _ => 0).

Definition desk_names : fstore := {[ str "f" := None; str "g" := None; str "h" := None ]}.

Lemma desk_stores ks : stores (desk_vfs ks) 0 desk_names.
Proof.
  assert (Hn : forall nm t, desk_names !! nm = Some t -> t = None /\ name_ok nm).
  { unfold desk_names. intros nm t E. rewrite !lookup_insert_Some, lookup_singleton_Some in E.
    destruct E as [[<- <-] | (_ & [[<- <-] | (_ & <- & <-)])]; (split; [done |]; split; [by repeat constructor | cbn; lia]). }
  split.
  - exists [(0x500000, SIZEOF_NODE)]. apply desk_ok.
  - done.
  - exists demo_root. split; [exact demo_root_at |]. split; [done | cbn; lia].
  - exists 0%nat. split; [lia | done].
  - intros nm t E. by apply (Hn nm t).
  - intros nm c E. by apply Hn in E as [? _].
  - intros nm _. unfold lookup_name. cbn [Z.eqb store VFS_ROOT desk_vfs]. pose proof demo_root_at as E. unfold node_at in E. by rewrite E.
Qed.

(** Two lines with corrections, one for a file that is not there. *)
Definition desk_session : list (list Z * fcmd) := [
  (str "wrote" ++ [8; 8; 8] ++ str "ite f hello", Write (str "f") (str "hello"));
  (str "write f J", Write (str "f") (str "J"));
  (str "cat f", Cat (str "f"));
  (str "cat k" ++ [127] ++ str "h", Cat (str "h"));
  (str "touch g", Touch (str "g")) ].

Lemma shell_session_witness : exists s', run (fun _ => 0) 0 0 (fun _ s => Some (0, s)) (fun _ => 0) X86_64 30 5
    (desk_shell (session_keys desk_session ++ str "help")) = Some (Some s') /\
  typed (fs s') = str "help" /\
  drop (List.length greeting_text) (seen (ext (fs s'))) =
    str "> wrote" ++ [8; 8; 8] ++ str "ite f hello" ++ [10] ++ str "Wrote 5 bytes to f" ++ [10] ++
    str "> write f J" ++ [10] ++ str "Wrote 1 bytes to f" ++ [10] ++ str "> cat f" ++ [10] ++ str "Jello" ++
    str "> cat k" ++ [8] ++ str "h" ++ [10] ++ str "File not found: h" ++ [10] ++
    str "> touch g" ++ [10] ++ str "Created: g" ++ [10].
Proof.
  assert (Et : exists r, transcript desk_session desk_names = Some r) by (vm_compute; by eexists).
  destruct Et as [[out a'] Et].
  assert (Eo : fst <$> transcript desk_session desk_names = Some out) by (by rewrite Et).
  destruct (shell_session (K := bare) (fun _ : bump => 0) 0 0 (fun _ s => Some (0, s)) (fun _ => 0) X86_64 30 desk_session
    (desk_shell (session_keys desk_session ++ str "help")) 0 desk_names (str "help") out a') as (s' & E & _ & E2 & E3 & _).
  - reflexivity.
  - apply desk_stores.
  - reflexivity.
  - repeat constructor; try done; cbn [fst snd]; try (by apply (bool_decide_unpack _)).
  - exact Et.
  - cbn. lia.
  - apply bump_not_short; vm_compute; done.
  - repeat constructor; cbn; lia.
  - lia.
  - exists s'. split; [exact E |]. split; [exact E3 |]. rewrite E2. cbn [seen desk_transcript]. cbn [app ext fs desk_shell desk_vfs snd].
    rewrite drop_app_length. vm_compute in Eo. injection Eo as <-. vm_compute. reflexivity.
Defined.

(** ** Addresses *)

Lemma octet_digits_one d p acc : 0 <= d <= 9 -> 0 <= acc <= 1000 -> octet_digits (48 + d :: p) acc = octet_digits p (acc * 10 + d).
Proof.
  intros Hd Ha. cbn [octet_digits]. rewrite (proj2 (Z.leb_le 48 _)), (proj2 (Z.leb_le _ 57)) by lia. cbn [andb].
  rewrite (u32_small (acc * 10)), u32_small by lia. f_equal. lia.
Qed.

Lemma octet_digits_str o p : 0 <= o <= 255 -> match p with c :: _ => c < 48 | [] => True end -> octet_digits (octet_str o ++ p) 0 = (o, p).
Proof.
  intros Ho Hp. assert (Hend : forall x, octet_digits p x = (x, p)).
  { intros x. destruct p as [| c p]; [done |]. cbn [octet_digits]. by rewrite (proj2 (Z.leb_gt 48 c)). }
  unfold octet_str. repeat case_if; breflect; cbn [app]; rewrite !octet_digits_one, Hend by (Z.to_euclidean_division_equations; lia);
    f_equal; Z.to_euclidean_division_equations; lia.
Qed.

Lemma octet_str_head o : 0 <= o <= 255 -> exists c l, octet_str o = c :: l /\ 48 <= c <= 57.
Proof.
  intros Ho. unfold octet_str. repeat case_if; breflect; eexists _, _; (split; [reflexivity |]); Z.to_euclidean_division_equations; lia.
Qed.

Lemma parse_octet n o p ip : 0 <= o <= 255 -> match p with c :: _ => c < 48 | [] => True end ->
  parse_octets (S n) (octet_str o ++ p) ip =
    let ip := Z.lor (u32 (Z.shiftl ip 8)) o in
    match n with O => ip | S _ => match p with c :: p => if c =? 46 then parse_octets n p ip else 0 | [] => 0 end end.
Proof.
  intros Ho Hp. destruct (octet_str_head o Ho) as (c & l & E & Hc). pose proof (octet_digits_str o p Ho Hp) as Ed.
  rewrite E in *. cbn [app parse_octets] in *. rewrite (proj2 (Z.ltb_ge c 48)), (proj2 (Z.ltb_ge 57 c)) by lia. cbn [orb].
  rewrite Ed. by rewrite (proj2 (Z.ltb_ge 255 o)) by lia.
Qed.

Lemma push_octet x o : 0 <= x < 2 ^ 24 -> 0 <= o <= 255 -> Z.lor (u32 (Z.shiftl x 8)) o = x * 256 + o.
Proof.
  intros Hx Ho. rewrite Z.shiftl_mul_pow2 by lia. rewrite u32_small by lia.
  assert (E : Z.land (x * 2 ^ 8) o = 0).
  { apply Z.bits_inj'. intros i Hi. rewrite Z.land_spec, Z.bits_0. destruct (Z.ltb_spec i 8).
    - by rewrite Z.mul_pow2_bits_low by lia.
    - rewrite <- (Z.mod_small o (2 ^ 8)) by lia. by rewrite Z.mod_pow2_bits_high, andb_false_r by lia. }
  pose proof (Z.add_lor_land (x * 2 ^ 8) o). lia.
Qed.

(** An address that is printed is read back. *)
Lemma parse_ip_printed ip : 0 <= ip < 2 ^ 32 -> parse_ip (cstr (ip_to_str ip)) = ip.
Proof.
  intros Hip. assert (Ho : forall k, 0 <= k -> Z.land (Z.shiftr ip k) 255 = ip / 2 ^ k mod 256).
  { intros k Hk. change 255 with (Z.ones 8). by rewrite Z.land_ones, Z.shiftr_div_pow2 by lia. }
  unfold ip_to_str. cbn [ip_to_str_loop]. rewrite !Ho by lia.
  change (Z.of_nat 3 * 8) with 24. change (Z.of_nat 2 * 8) with 16. change (Z.of_nat 1 * 8) with 8. change (Z.of_nat 0 * 8) with 0.
  set (a := ip / 2 ^ 24 mod 256). set (b := ip / 2 ^ 16 mod 256). set (c := ip / 2 ^ 8 mod 256). set (d := ip / 2 ^ 0 mod 256).
  assert (Hr : 0 <= a <= 255 /\ 0 <= b <= 255 /\ 0 <= c <= 255 /\ 0 <= d <= 255) by (unfold a, b, c, d; Z.to_euclidean_division_equations; lia).
  assert (Eip : ((a * 256 + b) * 256 + c) * 256 + d = ip) by (unfold a, b, c, d; Z.to_euclidean_division_equations; lia).
  clearbody a b c d. destruct Hr as (Ha & Hb & Hc & Hd). cbn [Nat.ltb Nat.leb].
  assert (Hnul : forall o, 0 <= o <= 255 -> no_nul (octet_str o)).
  { intros o Hz. unfold octet_str. repeat case_if; repeat constructor; Z.to_euclidean_division_equations; lia. }
  assert (Hcat : forall x y, no_nul x -> no_nul y -> no_nul (x ++ y)) by (intros; by apply Forall_app).
  assert (H46 : no_nul [46]) by (by repeat constructor). assert (Hnil : no_nul []) by constructor.
  rewrite cstr_app_nul by (repeat apply Hcat; auto).
  unfold parse_ip. rewrite parse_octet by (done || lia). cbn [app Z.eqb Pos.eqb]. rewrite parse_octet by (done || lia). cbn [app Z.eqb Pos.eqb].
  rewrite parse_octet by (done || lia). cbn [app Z.eqb Pos.eqb]. rewrite parse_octet by (done || lia). cbv zeta.
  rewrite (push_octet 0 a), (push_octet (0 * 256 + a) b), (push_octet ((0 * 256 + a) * 256 + b) c), (push_octet (((0 * 256 + a) * 256 + b) * 256 + c) d) by lia. lia.
Qed.

(** ** What the reading of the shell showed *)

(** Anything may follow an address, and 0.0.0.0 is no address. *)
Example ip_trailing : parse_ip (str "10.0.2.2junk") = 0x0A000202 /\ parse_ip (str "0.0.0.0") = 0.
Proof. split; reflexivity. Qed.
(** An octet wraps at 32 bits: this is read as 10.0.2.2. *)
Example ip_wraps : parse_ip (str "4294967306.0.2.2") = 0x0A000202.
Proof. reflexivity. Qed.
(** A path and a host that the line has room for, but the request has not. *)
Example http_overflow : http_request (replicate 230 97) (str "example.org") = None /\
  (List.length (str "http example.org " ++ replicate 230 97%Z) <= 255)%nat.
Proof. split; [reflexivity | vm_compute; lia]. Qed.
(** A whole file of 4096 bytes is shown as cut. *)
Example cat_exact : cat_text (replicate (Z.to_nat 4096) 97) = replicate (Z.to_nat 4096) 97 ++ [10] ++ str "[output truncated]" ++ [10].
Proof. vm_compute. reflexivity. Qed.
